(* ===== verification/_CoqProject ===== *)
-Q . S2P
GoInt.v
GoStrings.v
Streaming.v
StreamingProps.v
Sql.v
Paging.v
Transactions.v
Jobs.v
JobsProps.v
Folders.v
FoldersProps.v
Execution.v
ExecutionProps.v
Notes.v
NotesProps.v
Transcripts.v
TranscriptsProps.v
Templates.v
Summaries.v
SummariesProps.v
Plugins.v
Webhooks.v
Speakers.v
ActionItems.v
Pipeline.v
PipelineLogic.v
PipelineDemo.v
PipelineProps.v
PipelineRuns.v
AgentTables.v
TablesProps.v
Live.v
LiveProps.v
LiveRuns.v
Calendar.v
Briefs.v
BriefsProps.v
BriefRuns.v
BriefCleanup.v
Calls.v
CalendarSync.v
CalendarSyncProps.v
TemplateWrites.v
LiveFrames.v
TemplateWritesProps.v
BriefDemo.v
GenerateJobs.v
GenerateJobsProps.v
LiveJobsProps.v
GenerateDemo.v
PeopleNames.v
People.v
PeopleProps.v
PeopleRuns.v
PeopleApi.v
PeopleSafety.v
PeopleDemo.v
Outbound.v
NoteStream.v
NoteStreamProps.v
NoteStreamRecords.v
NoteStreamStart.v
NoteStreamDemo.v
FloatExact.v
WavFile.v
Annotation.v
EvalScore.v
EvalRun.v
EvalRunFrames.v
EvalRunProps.v
Resume.v
ChatTables.v
Chat.v
ChatApi.v
ChatRuns.v
ChatBounds.v
ChatFence.v
ChatDemo.v
