(* ===== verification/GoInt.v ===== *)
(** * Muesli: verified models of the server's core

    Muesli is a self-hosted meeting-notes server written in Go.  Audio is
    streamed or uploaded, transcribed by a plugin, summarised by another, and
    the result is a note that its owner files in folders and may share.  This
    library models the parts of the server that carry its own logic, as the Go
    code has them, and proves what makes them correct.

    ** The program's parts and how they interact

    - A live capture feeds 16-bit samples to a streaming session
      ([internal/pluginkit/streaming.go]); it cuts utterances and transcribes
      them on a goroutine of its own.  The server relays such a session between
      a client and the plugin ([internal/api/stream*.go]) and stores what comes
      back; the evaluation tool ([cmd/whisper-cpp-streaming/ami-eval]) runs a
      session on recorded meetings and scores it.
    - Everything durable lives in Postgres behind [internal/store].
    - Workers ([internal/worker]) claim jobs from the queue, run them, write to
      the note and settle the job: an uploaded recording is transcribed, the
      transcript fans out into one summarize job per template, and the last
      of them makes the note ready and announces it to the webhooks, which
      [internal/webhook] delivers.  Other jobs write briefs before a meeting and
      live prompts during one; another worker syncs calendars and derives
      people and companies ([internal/people]) from them.
    - Running a template against a plugin goes through [internal/execution];
      so does an analysis across meetings, which is a turn of a conversation
      ([internal/api/chat.go], [cross_analysis.go], [internal/chat]).

    ** The library

    Common ground:
    - [GoInt] (this file): 64-bit integers ([wrap64]), Go's [len], results with
      errors ([result], [let?], [guard]), runs of a step relation, tactics and
      hints.  [GoStrings]: strings as bytes, [strings.TrimSpace], [TrimLeft],
      [FieldsFunc], [strconv.Itoa], decoding to runes.  [FloatExact]: which
      float64 operations are exact.
    - [Sql]: tables as lists of rows; [UPDATE], [DELETE], [SELECT], [ORDER BY]
      and [WITH RECURSIVE] as functions; the store's errors.  [Paging]: pages
      of a list.  [Transactions]: a handler's transaction as one function on
      the tables that commits or rolls back.
    - Handlers longer than a transaction.  [Calls]: a method as a sequence of
      store calls, each of which other sessions may precede and which may fail.
      [Resume]: requests served side by side, a weakest precondition with a
      ghost state per request, and bounds on the number of calls.

    Components; in each group the first files hold definitions, those named
    [...Props], [...Runs], [...Safety], [...Frames], [...Bounds] or [...Fence]
    theorems and their lemmas, and those named [...Demo] concrete tables and
    witnesses:
    - [Streaming], [StreamingProps]: the session.  [StreamingSession] is the
      struct, [Feed] and [Finish] the calls, [transcribe_returns] and [handoff]
      the goroutine's steps; an execution is any interleaving the lock allows.
    - [Jobs], [JobsProps]: the table [jobs] and [Process], which settles a job.
    - [Folders], [FoldersProps]: the folder tree, trash, order, sharing, filing.
    - [Execution], [ExecutionProps]: preparation, prompt text, admission
      against the context budget, and the validated run.
    - [Notes], [NotesProps]: notes, bodies, tags, lists, the worker's claims and
      generation-bound writes, trash, purge and previews.
    - [Transcripts], [TranscriptsProps]: transcripts, segments, gaps, reviews.
    - [Templates], [TemplateWrites], [TemplateWritesProps]:
      templates, read and written.  [Summaries], [SummariesProps], [Plugins],
      [Webhooks], [Speakers], [ActionItems]: the files of those names.
    - [Pipeline], [PipelineLogic], [PipelineDemo], [PipelineProps],
      [PipelineRuns]: the runs of transcribe, summarize and finalize jobs.
    - [AgentTables], [TablesProps]: the tables that live prompts, briefs and
      template writes share.  [Live], [LiveProps], [LiveRuns], [LiveFrames]: live
      prompts and their subscriptions.  [Briefs], [BriefsProps], [BriefRuns],
      [BriefCleanup], [BriefDemo]: event briefs.  [Calendar]:
      sources and events.  [CalendarSync], [CalendarSyncProps]: the sync of a
      source.  [GenerateJobs], [GenerateJobsProps], [LiveJobsProps],
      [GenerateDemo]: the jobs that write briefs and live prompts.
    - [PeopleNames], [People], [PeopleProps], [PeopleRuns], [PeopleApi],
      [PeopleSafety], [PeopleDemo]: people, companies, their derivation, the
      links of speakers, and the handlers.
    - [Outbound]: the mailbox to a client and its writer.
      [NoteStream], [NoteStreamProps], [NoteStreamRecords], [NoteStreamStart],
      [NoteStreamDemo]: the goroutines that relay a live stream.
    - [WavFile], [Annotation], [EvalScore], [EvalRun], [EvalRunFrames],
      [EvalRunProps]: WAV files, reference annotations, scores and
      the run of a detector.
    - [ChatTables]: conversations, messages, sources and the
      snapshot of an analysis.  [Chat]: retrieval, prompts and
      citations.  [ChatApi], [ChatRuns], [ChatBounds], [ChatFence], [ChatDemo]:
      the handlers as programs, and what holds of all their interleavings.

    ** What the theorems show

    Each theorem that is a property of the program carries a number [C<n>].
    - Invariants of tables: queue, folders and notes (well-formed rows whatever
      the age of what a parent check read; a forest as long as nothing overtakes
      such a check), transcripts, live prompts, briefs, templates' cap, tenancy
      of people.
    - Fences: a lease is exclusive; a replaced transcript fences off every
      writer bound to it; a transcribe job writes only to its generation and
      deletes the audio last; published live prompts and briefs belong to the
      current generation; the prompt of an analysis shows transcripts of the
      generations that were checked; agents' runs write nothing else.
    - Concurrency: a session implements a sequential segmentation that does not
      depend on the chunks; a stream accounts for all audio, shows nothing it has
      not stored and winds down; the mailbox keeps order and drains; the harness
      of the evaluation gives the sequential result under every schedule; the
      turns of a conversation do not interleave, and until it is deleted it
      keeps what it holds and changes only for its owner.
    - Progress: the run of the last summary readies the note if no store call
      fails (and a lost checkpoint strands it); a sync, a derivation and an
      evaluation run end with what they are for; a request makes a bounded number of calls.
    - Exact results: references, frame scores, WAV files read back, outcomes of
      a webhook dispatch, ranking of notes, citations, restoring a deletion.
    Further theorems of the files are not numbered, among them anomalies:
    restoring can nest folders too deep ([restore_exceeds_depth]), concurrent
    moves can close a cycle ([concurrent_moves_hang]), and a turn of a
    conversation can be listed backwards ([turn_listed_backwards]).

    ** Conventions

    - Times are nanoseconds or ticks in [Z]; each statement takes the clock
      reading it makes as an argument and nothing relates two readings.
    - [WITH RECURSIVE] takes fuel: one more round than the table has rows.  On
      tables that satisfy the invariant that is always enough
      ([FoldersProps.folder_operations_terminate]); without it a query may not
      end, which is an error of the database.
    - Fresh uuids are arguments.  Requesters are existing users and ids are
      well-formed uuids, except where a handler checks them.
    - Postgres's [lower] and the order of text are arguments, as are the
      transcription callback, the plugins, JSON, encryption, HTTP exchanges
      and the deletion of stored audio.
    - Floating point is IEEE 754 binary64 through [SpecFloat]; every product and
      sum is rounded by itself, where Go may fuse them on some processors.
    - A handler that runs in one transaction is one function on the tables, and
      so is a read of several queries unless its file says otherwise.  Longer
      handlers are programs: every store call takes what other sessions committed
      since the last one, and may fail; one that is never resumed is a process
      that died there.

    ** Not modelled

    Routing, authentication and the handlers outside [chat], [conversations],
    [people] and [stream]; the plugins' processes and the protocols of
    calendars; configuration, the embedded Postgres, storage of audio, exports,
    backups and digests: I/O and calls of libraries around the parts above.  The
    worker's polling loops, the run methods for embeddings and digests, search,
    shares and tokens, the reports and the matrix of the evaluation tool, the
    rate limits and the adaptive voice detector are not modelled yet.

    ** This file

    Go's [int], [int64] and [time.Duration] are 64-bit two's complement
    integers.  They are modelled by [Z]; where the program multiplies values
    that come from configuration the result is wrapped with [wrap64], and
    division is Go's truncated division [Z.quot]. *)

From stdpp Require Import base list list_numbers gmap strings.
From Stdlib Require Import ZArith Lia.

Declare Scope go_scope.
Delimit Scope go_scope with go.

Create HintDb go discriminated.
Create Rewrite HintDb golen.

(** ** 64-bit signed arithmetic *)

Section Int64.
Local Open Scope Z_scope.

Definition int64_min : Z := - 2 ^ 63.
Definition int64_max : Z := 2 ^ 63 - 1.

Definition in_int64 (z : Z) : Prop := int64_min <= z <= int64_max.

Definition wrap64 (z : Z) : Z := (z + 2 ^ 63) mod 2 ^ 64 - 2 ^ 63.

Definition second : Z := 1000000000.
Definition millisecond : Z := 1000000.

Lemma wrap64_id z : in_int64 z -> wrap64 z = z.
Proof.
  unfold in_int64, int64_min, int64_max, wrap64. intros H.
  rewrite Z.mod_small; lia.
Qed.

Lemma wrap64_range z : in_int64 (wrap64 z).
Proof.
  unfold in_int64, int64_min, int64_max, wrap64.
  pose proof (Z.mod_pos_bound (z + 2 ^ 63) (2 ^ 64)). lia.
Qed.

Lemma quot_nonneg a b : 0 <= a -> 0 < b -> 0 <= Z.quot a b.
Proof. intros. apply Z.quot_pos; lia. Qed.

Lemma quot_le_mono a b c : 0 < c -> a <= b -> Z.quot a c <= Z.quot b c.
Proof. intros. apply Z.quot_le_mono; lia. Qed.

End Int64.

#[export] Hint Resolve wrap64_range quot_nonneg : go.

(** ** Lists *)

(** [len xs] is Go's [len] on slices, as a [Z]. *)
Definition len {A} (xs : list A) : Z := Z.of_nat (length xs).
#[global] Arguments len {A} xs : simpl never.
#[global] Arguments wrap64 z : simpl never.

Lemma len_nil {A} : len (@nil A) = 0%Z.
Proof. reflexivity. Qed.

Lemma len_cons {A} (x : A) xs : len (x :: xs) = (1 + len xs)%Z.
Proof. unfold len. cbn [length]. lia. Qed.

Lemma len_app {A} (xs ys : list A) : len (xs ++ ys) = (len xs + len ys)%Z.
Proof. unfold len. rewrite length_app. lia. Qed.

Lemma len_nonneg {A} (xs : list A) : (0 <= len xs)%Z.
Proof. unfold len. lia. Qed.

Lemma len_pos {A} (xs : list A) : xs <> [] -> (0 < len xs)%Z.
Proof. destruct xs; [congruence|]. intros _. unfold len. cbn [length]. lia. Qed.

Lemma len_zero {A} (xs : list A) : len xs = 0%Z -> xs = [].
Proof. destruct xs; [done|]. unfold len. cbn [length]. lia. Qed.

#[export] Hint Rewrite @len_nil @len_cons @len_app : golen.
#[export] Hint Resolve len_nonneg : go.

Lemma sublist_same_length {A} (l1 l2 : list A) :
  l1 `sublist_of` l2 -> length l2 <= length l1 -> l1 = l2.
Proof.
  induction 1 as [|x l1 l2 Hl IH|x l1 l2 Hl IH]; cbn; intros Hlen; [done| |].
  - f_equal. apply IH. lia.
  - apply sublist_length in Hl. lia.
Qed.

(** Arithmetic on slice lengths: normalise [len] and call [lia]. *)
Ltac lia_len :=
  autorewrite with golen in *;
  repeat match goal with
  | |- context [len ?xs] =>
      lazymatch goal with
      | _ : (0 <= len xs)%Z |- _ => fail
      | _ => pose proof (len_nonneg xs)
      end
  | _ : context [len ?xs] |- _ =>
      lazymatch goal with
      | _ : (0 <= len xs)%Z |- _ => fail
      | _ => pose proof (len_nonneg xs)
      end
  end; lia.

(** Case analysis on the scrutinee of the innermost [match] or [if]. *)
Ltac case_inner :=
  match goal with
  | |- context [match ?x with _ => _ end] =>
      lazymatch x with
      | context [match _ with _ => _ end] => fail
      | _ => destruct x eqn:?
      end
  end.

Ltac case_inner_in H :=
  match type of H with
  | context [match ?x with _ => _ end] =>
      lazymatch x with
      | context [match _ with _ => _ end] => fail
      | _ => destruct x eqn:?
      end
  end.

(** Turn boolean comparisons of the code into propositions. *)
Ltac bool_to_prop :=
  repeat match goal with
  | H : (_ && _)%bool = true |- _ => apply andb_true_iff in H as [? ?]
  | H : (_ || _)%bool = false |- _ => apply orb_false_iff in H as [? ?]
  | H : negb _ = true |- _ => apply negb_true_iff in H
  | H : negb _ = false |- _ => apply negb_false_iff in H
  | H : (_ <? _)%Z = true |- _ => apply Z.ltb_lt in H
  | H : (_ <? _)%Z = false |- _ => apply Z.ltb_ge in H
  | H : (_ <=? _)%Z = true |- _ => apply Z.leb_le in H
  | H : (_ <=? _)%Z = false |- _ => apply Z.leb_gt in H
  | H : (_ =? _)%Z = true |- _ => apply Z.eqb_eq in H
  | H : (_ =? _)%Z = false |- _ => apply Z.eqb_neq in H
  | H : (_ =? _)%nat = true |- _ => apply Nat.eqb_eq in H
  | H : (_ =? _)%nat = false |- _ => apply Nat.eqb_neq in H
  | H : (_ <? _)%nat = true |- _ => apply Nat.ltb_lt in H
  | H : (_ <? _)%nat = false |- _ => apply Nat.ltb_ge in H
  | H : (_ <=? _)%nat = true |- _ => apply Nat.leb_le in H
  | H : (_ <=? _)%nat = false |- _ => apply Nat.leb_gt in H
  | H : (_ =? _)%string = true |- _ => apply String.eqb_eq in H
  | H : (_ =? _)%string = false |- _ => apply String.eqb_neq in H
  | H : bool_decide _ = true |- _ => apply bool_decide_eq_true in H
  | H : bool_decide _ = false |- _ => apply bool_decide_eq_false in H
  end.

(** ** Results of fallible operations: Go's [(value, error)] pairs. *)

Inductive result (E A : Type) : Type :=
| Ok (a : A)
| Err (e : E).
Arguments Ok {E A} a.
Arguments Err {E A} e.

Definition is_ok {E A} (r : result E A) : bool :=
  match r with Ok _ => true | Err _ => false end.

Definition result_bind {E A B} (r : result E A) (f : A -> result E B) : result E B :=
  match r with
  | Ok a => f a
  | Err e => Err e
  end.

Notation "'let?' x := r 'in' k" := (result_bind r (fun x => k))
  (at level 10, x pattern, r at level 100, k at level 200) : go_scope.

Lemma result_bind_ok {E A B} (r : result E A) (f : A -> result E B) b :
  result_bind r f = Ok b <-> exists a, r = Ok a /\ f a = Ok b.
Proof. destruct r; cbn; naive_solver. Qed.

Lemma result_bind_err {E A B} (r : result E A) (f : A -> result E B) e :
  result_bind r f = Err e <-> r = Err e \/ exists a, r = Ok a /\ f a = Err e.
Proof. destruct r; cbn; naive_solver. Qed.

Lemma result_bind_assoc {E A B C} (r : result E A) (f : A -> result E B) (g : B -> result E C) :
  result_bind (result_bind r f) g = result_bind r (fun a => result_bind (f a) g).
Proof. by destruct r. Qed.

(** A guard that fails with [e]. *)
Definition guard {E} (b : bool) (e : E) : result E unit := if b then Ok tt else Err e.

Lemma guard_ok {E} b (e : E) u : guard b e = Ok u <-> b = true.
Proof. destruct b, u; cbn; naive_solver. Qed.

(** ** Reflexive transitive closure of a labelled step function *)

Section Runs.
Context {St Act : Type}.
Variable step : St -> Act -> option St.

Fixpoint run (s : St) (acts : list Act) : option St :=
  match acts with
  | [] => Some s
  | a :: rest => s' ← step s a; run s' rest
  end.

Lemma run_app s as1 as2 : run s (as1 ++ as2) = (s' ← run s as1; run s' as2).
Proof.
  revert s. induction as1 as [|a as1 IH]; intros s; cbn; [done|].
  destruct (step s a) as [s'|]; cbn; [apply IH | done].
Qed.

(** Invariants: rule induction over runs. *)
Lemma run_invariant (I : St -> Prop) :
  (forall s a s', I s -> step s a = Some s' -> I s') ->
  forall acts s s', I s -> run s acts = Some s' -> I s'.
Proof.
  intros Hstep acts. induction acts as [|a acts IH]; intros s s' HI Hrun; cbn in Hrun.
  - by simplify_eq.
  - destruct (step s a) as [s1|] eqn:E; cbn in Hrun; [|done]. eauto.
Qed.

(** A run whose every step lowers a rank is no longer than the rank. *)
Lemma run_bounded (I : St -> Prop) (rank : St -> nat) (only : Act -> Prop) :
  (forall s a s', I s -> only a -> step s a = Some s' -> I s' /\ (rank s' < rank s)%nat) ->
  forall acts s s', I s -> Forall only acts -> run s acts = Some s' -> (length acts + rank s' <= rank s)%nat.
Proof.
  intros Hstep acts. induction acts as [|a acts IH]; intros s s' HI Hon Hrun; cbn in Hrun |- *.
  - simplify_eq. lia.
  - apply Forall_cons in Hon as [Ha Hon]. destruct (step s a) as [s1|] eqn:E; cbn in Hrun; [|done].
    destruct (Hstep s a s1 HI Ha E) as [HI1 Hr]. specialize (IH s1 s' HI1 Hon Hrun). lia.
Qed.

End Runs.
