(* ===== verification/GoStrings.v ===== *)
(** Go's [strings] and [strconv] functions, as far as the program uses them.

    A Go string is a byte sequence: it is modelled by [string], whose
    characters are bytes.  Functions that Go defines on runes (such as
    [strings.TrimSpace]) are written on the UTF-8 encodings of the runes they
    test for, so they agree with Go on every byte sequence. *)

From stdpp Require Import base list strings sets.
From Stdlib Require Import Ascii String DecimalString ZArith Lia.
From S2P Require Import GoInt.

Local Open Scope string_scope.

#[global] Arguments String.append !_ _ / : simpl nomatch.

Definition byte_of (n : nat) : ascii := ascii_of_nat n.

Fixpoint bytes_string (bs : list nat) : string :=
  match bs with
  | [] => ""
  | b :: rest => String (byte_of b) (bytes_string rest)
  end.

(** Go's [len] of a string, in bytes. *)
Definition slen (s : string) : Z := Z.of_nat (String.length s).

(** ** Prefixes, suffixes and slices *)

(** [strings.HasPrefix], returning the rest of the string on success. *)
Fixpoint strip_prefix (p s : string) : option string :=
  match p, s with
  | EmptyString, _ => Some s
  | String a p', String b s' => if Ascii.eqb a b then strip_prefix p' s' else None
  | String _ _, EmptyString => None
  end.

Definition HasPrefix (s p : string) : bool := bool_decide (is_Some (strip_prefix p s)).

(** [s\[n:\]] and [s\[:n\]] for [0 <= n <= len s]. *)
Fixpoint drop_str (n : nat) (s : string) : string :=
  match n, s with
  | 0, _ => s
  | S n', String _ s' => drop_str n' s'
  | S _, EmptyString => EmptyString
  end.

Fixpoint take_str (n : nat) (s : string) : string :=
  match n, s with
  | 0, _ => EmptyString
  | S n', String a s' => String a (take_str n' s')
  | S _, EmptyString => EmptyString
  end.

Lemma strip_prefix_spec p s r : strip_prefix p s = Some r <-> s = p ++ r.
Proof.
  revert s. induction p as [|a p IH]; intros [|b s]; cbn.
  - split; congruence.
  - split; congruence.
  - split; discriminate.
  - destruct (Ascii.eqb_spec a b) as [->|]; [rewrite IH|]; split; congruence.
Qed.

Lemma str_app_nil_r (s : string) : s ++ "" = s.
Proof. induction s as [|a s IH]; cbn; [done | by rewrite IH]. Qed.

Lemma str_app_assoc (s t u : string) : (s ++ t) ++ u = s ++ (t ++ u).
Proof. induction s as [|a s IH]; cbn; [done | by rewrite IH]. Qed.

Lemma str_length_app (s t : string) :
  String.length (s ++ t) = String.length s + String.length t.
Proof. induction s as [|a s IH]; cbn; [done | by rewrite IH]. Qed.

Lemma slen_app (s t : string) : slen (s ++ t) = (slen s + slen t)%Z.
Proof. unfold slen. rewrite str_length_app. lia. Qed.

Lemma slen_nonneg s : (0 <= slen s)%Z.
Proof. unfold slen. lia. Qed.

Lemma take_drop_str n s : take_str n s ++ drop_str n s = s.
Proof.
  revert s. induction n as [|n IH]; intros [|a s]; cbn; try done. by rewrite IH.
Qed.

#[export] Hint Rewrite slen_app : golen.
#[export] Hint Resolve slen_nonneg : go.

(** ** White space

    [unicode.IsSpace] accepts the Latin-1 characters tab, newline, vertical
    tab, form feed, carriage return, space, U+0085 and U+00A0, and beyond
    Latin-1 the runes of category [White_Space].  Their UTF-8 encodings: *)

Definition space_encodings : list (list nat) :=
  [ [9]; [10]; [11]; [12]; [13]; [32];
    [194; 133]; [194; 160];
    [225; 154; 128];
    [226; 128; 128]; [226; 128; 129]; [226; 128; 130]; [226; 128; 131];
    [226; 128; 132]; [226; 128; 133]; [226; 128; 134]; [226; 128; 135];
    [226; 128; 136]; [226; 128; 137]; [226; 128; 138];
    [226; 128; 168]; [226; 128; 169]; [226; 128; 175];
    [226; 129; 159]; [227; 128; 128] ].

Definition space_strings : list string := map bytes_string space_encodings.

Fixpoint strip_any (ps : list string) (s : string) : option string :=
  match ps with
  | [] => None
  | p :: rest =>
      match strip_prefix p s with
      | Some r => Some r
      | None => strip_any rest s
      end
  end.

(** Strip every leading occurrence of one of [ps]; each round removes at
    least one byte, so [length s] rounds are enough. *)
Fixpoint strip_all (fuel : nat) (ps : list string) (s : string) : string :=
  match fuel with
  | 0 => s
  | S fuel' =>
      match strip_any ps s with
      | Some r => strip_all fuel' ps r
      | None => s
      end
  end.

Fixpoint rev_str_acc (s acc : string) : string :=
  match s with
  | EmptyString => acc
  | String a s' => rev_str_acc s' (String a acc)
  end.

Definition rev_str (s : string) : string := rev_str_acc s "".

Definition TrimLeftSpace (s : string) : string := strip_all (String.length s) space_strings s.

(** An encoding is a suffix of [s] iff its reversal is a prefix of the
    reversal of [s]; a suffix that is the encoding of a rune is decoded as
    that rune by [utf8.DecodeLastRune], whatever precedes it. *)
Definition TrimRightSpace (s : string) : string :=
  rev_str (strip_all (String.length s) (map rev_str space_strings) (rev_str s)).

(** [strings.TrimSpace] *)
Definition TrimSpace (s : string) : string := TrimRightSpace (TrimLeftSpace s).

Lemma rev_str_acc_app s acc : rev_str_acc s acc = rev_str s ++ acc.
Proof.
  unfold rev_str. revert acc. induction s as [|a s IH]; intros acc; cbn; [done|].
  rewrite IH, (IH (String a "")), str_app_assoc. done.
Qed.

Lemma rev_str_cons a s : rev_str (String a s) = rev_str s ++ String a "".
Proof. unfold rev_str at 1. cbn. apply rev_str_acc_app. Qed.

Lemma rev_str_app s t : rev_str (s ++ t) = rev_str t ++ rev_str s.
Proof.
  induction s as [|a s IH]; cbn [String.append].
  - by rewrite str_app_nil_r.
  - by rewrite !rev_str_cons, IH, str_app_assoc.
Qed.

Lemma rev_str_involutive s : rev_str (rev_str s) = s.
Proof.
  induction s as [|a s IH]; [done|]. by rewrite rev_str_cons, rev_str_app, IH.
Qed.

Lemma rev_str_length s : String.length (rev_str s) = String.length s.
Proof.
  induction s as [|a s IH]; [done|].
  rewrite rev_str_cons, str_length_app, IH. cbn. lia.
Qed.

Lemma strip_any_spec ps s r : strip_any ps s = Some r -> exists p, p ∈ ps /\ s = p ++ r.
Proof.
  induction ps as [|p ps IH]; cbn; [done|].
  destruct (strip_prefix p s) eqn:E; intros H.
  - simplify_eq. apply strip_prefix_spec in E as ->. exists p. split; [set_solver | done].
  - destruct (IH H) as (q & Hq & ->). exists q. set_solver.
Qed.

(** [strip_any] fails exactly when no pattern is a prefix. *)
Lemma strip_any_none ps s : strip_any ps s = None <-> forall p r, p ∈ ps -> s <> p ++ r.
Proof.
  induction ps as [|p ps IH]; cbn; [set_solver|].
  destruct (strip_prefix p s) as [r|] eqn:E.
  - split; [done|]. intros H. apply strip_prefix_spec in E. exfalso. eapply H; [|exact E]. set_solver.
  - rewrite IH. split.
    + intros H q r [->|Hq]%elem_of_cons ->; [|by eapply H].
      assert (strip_prefix p (p ++ r) = Some r) by (by apply strip_prefix_spec). congruence.
    + intros H q r Hq. apply H. set_solver.
Qed.

Section Strip.
Context (ps : list string) (Hps : "" ∉ ps).

Lemma strip_any_shorter s r : strip_any ps s = Some r -> String.length r < String.length s.
Proof.
  intros (p & Hp & ->)%strip_any_spec. rewrite str_length_app.
  destruct p; [done | cbn; lia].
Qed.

(** With enough fuel nothing is left to strip. *)
Lemma strip_all_done fuel s : String.length s <= fuel -> strip_any ps (strip_all fuel ps s) = None.
Proof.
  revert s. induction fuel as [|fuel IH]; intros s Hlen; cbn.
  - destruct s; [|cbn in Hlen; lia]. destruct (strip_any ps "") eqn:E; [|done].
    apply strip_any_shorter in E. cbn in E. lia.
  - destruct (strip_any ps s) as [r|] eqn:E; [|done].
    apply IH. apply strip_any_shorter in E. lia.
Qed.

Lemma strip_all_suffix fuel s : exists p, s = p ++ strip_all fuel ps s.
Proof.
  revert s. induction fuel as [|fuel IH]; intros s; cbn; [by exists ""|].
  destruct (strip_any ps s) as [r|] eqn:E; [|by exists ""].
  apply strip_any_spec in E as (p & _ & ->). destruct (IH r) as [q Hq].
  exists (p ++ q). rewrite str_app_assoc. by rewrite <- Hq.
Qed.

Lemma strip_all_id fuel s : strip_any ps s = None -> strip_all fuel ps s = s.
Proof. intros H. destruct fuel; cbn; [done|]. by rewrite H. Qed.

End Strip.

Lemma space_strings_nonempty : "" ∉ space_strings.
Proof. apply (bool_decide_unpack _). vm_compute. done. Qed.

Lemma space_strings_rev_nonempty : "" ∉ map rev_str space_strings.
Proof. apply (bool_decide_unpack _). vm_compute. done. Qed.

(** [TrimSpace s] is a contiguous part of [s]. *)
Lemma TrimSpace_infix s : exists a b, s = a ++ TrimSpace s ++ b.
Proof.
  destruct (strip_all_suffix space_strings (String.length s) s) as [a Ha].
  fold (TrimLeftSpace s) in Ha. set (u := TrimLeftSpace s) in *.
  destruct (strip_all_suffix (map rev_str space_strings) (String.length u) (rev_str u)) as [b Hb].
  exists a, (rev_str b). rewrite Ha at 1. f_equal.
  apply (f_equal rev_str) in Hb. rewrite rev_str_involutive, rev_str_app in Hb.
  unfold TrimSpace, TrimRightSpace. fold u. exact Hb.
Qed.

Lemma TrimSpace_length s : (slen (TrimSpace s) <= slen s)%Z.
Proof.
  destruct (TrimSpace_infix s) as (a & b & H). rewrite H at 2.
  rewrite !slen_app. pose proof (slen_nonneg a). pose proof (slen_nonneg b). lia.
Qed.

(** ** Decimal rendering: [%d] and [strconv.Itoa]. *)

Definition Itoa (z : Z) : string := NilZero.string_of_int (Z.to_int z).

(** ** Searching *)

(** [strings.IndexByte]: [None] stands for [-1]. *)
Fixpoint IndexByte (s : string) (c : ascii) : option nat :=
  match s with
  | EmptyString => None
  | String a s' => if Ascii.eqb a c then Some 0 else S <$> IndexByte s' c
  end.

(** [strings.Contains] *)
Fixpoint Contains (s sub : string) : bool :=
  match strip_prefix sub s with
  | Some _ => true
  | None =>
      match s with
      | EmptyString => false
      | String _ s' => Contains s' sub
      end
  end.

Lemma IndexByte_spec s c i :
  IndexByte s c = Some i -> exists b, s = take_str i s ++ String c b /\ String.length (take_str i s) = i
    /\ IndexByte (take_str i s) c = None.
Proof.
  revert i. induction s as [|a s IH]; intros i; cbn; [done|].
  destruct (Ascii.eqb_spec a c) as [->|Hne].
  - intros [= <-]. exists s. done.
  - destruct (IndexByte s c) as [j|]; cbn; [|done]. intros [= <-].
    destruct (IH j eq_refl) as (b & Hs & Hl & Hn). exists b. cbn.
    rewrite Hl, Hn. destruct (Ascii.eqb_spec a c); [done|]. by rewrite <- Hs.
Qed.

(** ** Runes *)

Definition in_range (lo hi : nat) (a : ascii) : bool :=
  (lo <=? nat_of_ascii a)%nat && (nat_of_ascii a <=? hi)%nat.

(** Whether the next bytes lie in the given ranges. *)
Fixpoint bytes_in (rs : list (nat * nat)) (s : string) : bool :=
  match rs, s with
  | [], _ => true
  | (lo, hi) :: rs', String a s' => in_range lo hi a && bytes_in rs' s'
  | _ :: _, EmptyString => false
  end.

(** The well-formed UTF-8 sequences, by lead byte. *)
Definition utf8_forms : list (list (nat * nat)) :=
  let cont := (128, 191) in
  [ [(194, 223); cont]; [(224, 224); (160, 191); cont]; [(225, 236); cont; cont];
    [(237, 237); (128, 159); cont]; [(238, 239); cont; cont];
    [(240, 240); (144, 191); cont; cont]; [(241, 243); cont; cont; cont];
    [(244, 244); (128, 143); cont; cont] ].

(** Bytes taken by the rune at the head of [s]; an invalid byte is a rune of
    one byte ([U+FFFD]). *)
Definition rune_size (s : string) : nat :=
  match List.find (fun form => bytes_in form s) utf8_forms with
  | Some form => List.length form
  | None => 1
  end.

(** [utf8.RuneCountInString]; [skip] bytes still belong to the rune counted last. *)
Fixpoint rune_count_from (skip : nat) (s : string) : Z :=
  match s with
  | EmptyString => 0%Z
  | String _ s' =>
      match skip with
      | S k => rune_count_from k s'
      | O => (1 + rune_count_from (rune_size s - 1) s')%Z
      end
  end.

Definition RuneCount (s : string) : Z := rune_count_from 0 s.

Lemma rune_count_from_bounds s k : (0 <= rune_count_from k s <= slen s)%Z.
Proof.
  revert k. induction s as [|a s IH]; intros k; [by cbn|]. unfold slen in *. cbn [rune_count_from String.length].
  destruct k as [|k]; [specialize (IH (rune_size (String a s) - 1)%nat) | specialize (IH k)]; lia.
Qed.

Lemma RuneCount_bounds s : (0 <= RuneCount s <= slen s)%Z.
Proof. apply rune_count_from_bounds. Qed.

(** [string(r)] of the rune at the head: its encoding, or [U+FFFD]'s. *)
Definition head_rune (s : string) : string :=
  match List.find (fun form => bytes_in form s) utf8_forms with
  | Some form => take_str (List.length form) s
  | None => match s with
            | String a _ => if (nat_of_ascii a <? 128)%nat then String a "" else bytes_string [239; 191; 189]
            | EmptyString => ""
            end
  end.

Fixpoint runes_from (skip : nat) (s : string) : list string :=
  match s with
  | EmptyString => []
  | String _ s' =>
      match skip with
      | S k => runes_from k s'
      | O => head_rune s :: runes_from (rune_size s - 1) s'
      end
  end.

(** The runes of a string, each as the bytes [string(r)] gives back. *)
Definition runes (s : string) : list string := runes_from 0 s.

Definition of_runes (rs : list string) : string := foldr String.append "" rs.

(** ** Splitting and trimming on ASCII sets *)

Fixpoint in_set (cs : string) (a : ascii) : bool :=
  match cs with
  | EmptyString => false
  | String c cs' => Ascii.eqb c a || in_set cs' a
  end.

(** [strings.TrimLeft(s, cutset)] *)
Fixpoint TrimLeft (cutset s : string) : string :=
  match s with
  | EmptyString => ""
  | String a s' => if in_set cutset a then TrimLeft cutset s' else s
  end.

(** [strings.FieldsFunc] for the separators [cs]; [cur] is the field being
    read, reversed. *)
Fixpoint fields_from (cs cur s : string) : list string :=
  match s with
  | EmptyString => if (cur =? "")%string then [] else [rev_str cur]
  | String a s' =>
      if in_set cs a
      then (if (cur =? "")%string then fields_from cs "" s' else rev_str cur :: fields_from cs "" s')
      else fields_from cs (String a cur) s'
  end.

Definition FieldsFunc (cs s : string) : list string := fields_from cs "" s.

(** Leading ASCII digits. *)
Fixpoint digits_len (s : string) : nat :=
  match s with
  | String a s' => if in_range 48 57 a then S (digits_len s') else 0
  | EmptyString => 0
  end.

(** *** Runes are well formed, so cutting between them is exact *)

Lemma bytes_in_app rs s t : bytes_in rs s = true -> bytes_in rs (s ++ t) = true.
Proof.
  revert s. induction rs as [|[lo hi] rs IH]; intros [|a s]; cbn; try done.
  intros [-> H]%andb_true_iff. by apply IH.
Qed.

Lemma bytes_in_take rs s : bytes_in rs s = true -> bytes_in rs (take_str (List.length rs) s) = true.
Proof.
  revert s. induction rs as [|[lo hi] rs IH]; intros [|a s]; cbn; try done.
  intros [-> H]%andb_true_iff. by apply IH.
Qed.

Lemma bytes_in_length rs s : bytes_in rs s = true -> String.length (take_str (List.length rs) s) = List.length rs.
Proof.
  revert s. induction rs as [|[lo hi] rs IH]; intros [|a s]; cbn; try done.
  intros [_ H]%andb_true_iff. f_equal. by apply IH.
Qed.

(** Whether a form's lead range holds [a]; different forms have disjoint leads. *)
Definition leads (a : ascii) (form : list (nat * nat)) : bool :=
  match form with (lo, hi) :: _ => in_range lo hi a | [] => true end.

Lemma bytes_in_leads form a s : bytes_in form (String a s) = true -> leads a form = true.
Proof. destruct form as [|[lo hi] form]; cbn; [done|]. by intros [? _]%andb_true_iff. Qed.

Lemma lead_unique a f g : f ∈ utf8_forms -> g ∈ utf8_forms -> leads a f = true -> leads a g = true -> f = g.
Proof.
  intros Hf Hg. unfold utf8_forms, leads, in_range in *.
  repeat (apply elem_of_cons in Hf as [->|Hf]; [|]); try (by apply elem_of_nil in Hf);
    repeat (apply elem_of_cons in Hg as [->|Hg]; [|]); try (by apply elem_of_nil in Hg); try done;
    intros [?%Nat.leb_le ?%Nat.leb_le]%andb_true_iff [?%Nat.leb_le ?%Nat.leb_le]%andb_true_iff; lia.
Qed.

Lemma find_form form s :
  form ∈ utf8_forms -> bytes_in form s = true -> List.find (fun f => bytes_in f s) utf8_forms = Some form.
Proof.
  intros Hin Hb. destruct (List.find _ _) as [g|] eqn:E.
  - apply find_some in E as [Hg%list_elem_of_In Hgb]. f_equal. destruct s as [|a s].
    { exfalso. clear -Hin Hb. repeat (apply elem_of_cons in Hin as [->|Hin]; [done|]). by apply elem_of_nil in Hin. }
    apply (lead_unique a); [done..|by apply (bytes_in_leads g a s)|by apply (bytes_in_leads form a s)].
  - apply list_elem_of_In in Hin. by rewrite (find_none _ _ E _ Hin) in Hb.
Qed.

(** A rune of some string. *)
Definition is_rune (r : string) : Prop :=
  (exists form, form ∈ utf8_forms /\ bytes_in form r = true /\ String.length r = List.length form) \/
  (exists a, r = String a "" /\ (nat_of_ascii a < 128)%nat).

Lemma head_rune_is_rune a s : is_rune (head_rune (String a s)).
Proof.
  unfold head_rune. destruct (List.find _ _) as [form|] eqn:E.
  - apply find_some in E as [Hin%list_elem_of_In Hb]. left. exists form.
    split; [done|]. split; [by apply bytes_in_take|by apply bytes_in_length].
  - destruct (Nat.ltb_spec (nat_of_ascii a) 128); [right; eauto|]. left.
    exists [(238, 239); (128, 191); (128, 191)]. split; [|by split]. do 4 right. left.
Qed.

Lemma runes_from_are s k : Forall is_rune (runes_from k s).
Proof.
  revert k. induction s as [|a s IH]; intros k; cbn [runes_from]; [constructor|].
  destruct k; [|done]. constructor; [apply head_rune_is_rune|done].
Qed.

Lemma rune_size_app r t : is_rune r -> rune_size (r ++ t) = String.length r.
Proof.
  unfold rune_size. intros [(form & Hin & Hb & Hl)|(a & -> & Ha)].
  - by rewrite (find_form form) by (try apply bytes_in_app; done).
  - destruct (List.find _ _) as [g|] eqn:E; [|done]. apply find_some in E as [Hg%list_elem_of_In Hb].
    apply bytes_in_leads in Hb. exfalso. unfold utf8_forms, leads, in_range in *.
    repeat (apply elem_of_cons in Hg as [->|Hg]; [apply andb_true_iff in Hb as [Hb%Nat.leb_le _]; lia|]).
    by apply elem_of_nil in Hg.
Qed.

Lemma rune_count_from_skip r t : rune_count_from (String.length r) (r ++ t) = rune_count_from 0 t.
Proof. induction r as [|a r IH]; cbn [String.length String.append rune_count_from]; [done|apply IH]. Qed.

Lemma RuneCount_of_runes rs : Forall is_rune rs -> RuneCount (of_runes rs) = len rs.
Proof.
  induction 1 as [|r rs Hr _ IH]; [done|]. unfold RuneCount in *. change (of_runes (r :: rs)) with (r ++ of_runes rs).
  assert (Hne : exists a r', r = String a r').
  { destruct r as [|a r']; [|eauto]. exfalso. destruct Hr as [(form & Hin & _ & Hl)|(a & E & _)]; [|done].
    repeat (apply elem_of_cons in Hin as [->|Hin]; [done|]). by apply elem_of_nil in Hin. }
  destruct Hne as (a & r' & ->).
  change (String a r' ++ of_runes rs) with (String a (r' ++ of_runes rs)). cbn [rune_count_from].
  change (String a (r' ++ of_runes rs)) with (String a r' ++ of_runes rs). rewrite rune_size_app by done.
  cbn [String.length]. rewrite Nat.sub_succ, Nat.sub_0_r, rune_count_from_skip, IH, len_cons. done.
Qed.

Lemma length_runes s : len (runes s) = RuneCount s.
Proof.
  unfold runes, RuneCount. generalize 0. induction s as [|a s IH]; intros k; [done|].
  cbn [runes_from rune_count_from]. destruct k; [by rewrite len_cons, IH|apply IH].
Qed.

(** *** Strings all of whose bytes pass a test *)

Fixpoint all_bytes (P : ascii -> bool) (s : string) : bool :=
  match s with
  | EmptyString => true
  | String a s' => P a && all_bytes P s'
  end.

Lemma all_bytes_app P s t : all_bytes P (s ++ t) = all_bytes P s && all_bytes P t.
Proof. induction s as [|a s IH]; cbn [String.append all_bytes]; [done|]. by rewrite IH, andb_assoc. Qed.

Lemma all_bytes_infix P a s b : all_bytes P (a ++ s ++ b) = true -> all_bytes P s = true.
Proof. rewrite !all_bytes_app, !andb_true_iff. naive_solver. Qed.

Lemma all_bytes_drop P n s : all_bytes P s = true -> all_bytes P (drop_str n s) = true.
Proof. intros H. rewrite <- (take_drop_str n s), all_bytes_app in H. by apply andb_true_iff in H as [_ ?]. Qed.

Lemma all_bytes_take P n s : all_bytes P s = true -> all_bytes P (take_str n s) = true.
Proof. intros H. rewrite <- (take_drop_str n s), all_bytes_app in H. by apply andb_true_iff in H as [? _]. Qed.

Lemma all_bytes_TrimSpace P s : all_bytes P s = true -> all_bytes P (TrimSpace s) = true.
Proof. destruct (TrimSpace_infix s) as (a & b & H). rewrite H at 1. apply all_bytes_infix. Qed.

Lemma all_bytes_TrimLeft P cs s : all_bytes P s = true -> all_bytes P (TrimLeft cs s) = true.
Proof.
  induction s as [|a s IH]; [done|]. cbn [TrimLeft]. destruct (in_set cs a); [|done].
  intros [_ H]%andb_true_iff. by apply IH.
Qed.

Lemma all_bytes_rev P s : all_bytes P (rev_str s) = all_bytes P s.
Proof.
  induction s as [|a s IH]; [done|]. rewrite rev_str_cons, all_bytes_app, IH. cbn [all_bytes].
  rewrite andb_true_r. apply andb_comm.
Qed.

(** No field holds a separator. *)
Lemma FieldsFunc_no_separator cs s :
  Forall (fun f => all_bytes (fun a => negb (in_set cs a)) f = true) (FieldsFunc cs s).
Proof.
  unfold FieldsFunc. assert (H : all_bytes (fun a => negb (in_set cs a)) "" = true) by done. revert H.
  generalize "". induction s as [|a s IH]; intros cur Hcur; cbn [fields_from].
  - case_match; repeat constructor. by rewrite all_bytes_rev.
  - destruct (in_set cs a) eqn:Ea; [|apply IH; cbn [all_bytes]; by rewrite Ea].
    case_match; [by apply IH|]. constructor; [by rewrite all_bytes_rev|by apply IH].
Qed.

(** Decoding to runes and back adds no byte but those of [U+FFFD]. *)
Lemma all_bytes_runes P s n :
  P (byte_of 239) = true -> P (byte_of 191) = true -> P (byte_of 189) = true ->
  all_bytes P s = true -> all_bytes P (of_runes (take n (runes s))) = true.
Proof.
  intros H1 H2 H3. unfold runes. generalize 0 as k. revert n.
  induction s as [|a s IH]; intros n k Hs; cbn [runes_from]; [by rewrite take_nil|].
  assert (Hs' : all_bytes P s = true) by (by cbn in Hs; apply andb_true_iff in Hs as [_ ?]).
  destruct k as [|k]; [|by apply IH]. destruct n as [|n]; [done|].
  change (all_bytes P (head_rune (String a s) ++ of_runes (take n (runes_from (rune_size (String a s) - 1) s))) = true).
  rewrite all_bytes_app, IH, andb_true_r by done. unfold head_rune.
  case_match; [by apply all_bytes_take|]. case_match.
  - cbn in Hs. apply andb_true_iff in Hs as [Ha _]. cbn [all_bytes]. by rewrite Ha.
  - change (P (byte_of 239) && (P (byte_of 191) && (P (byte_of 189) && true)) = true). by rewrite H1, H2, H3.
Qed.

(** ** Searching, cutting and splitting at white space *)

(** [strings.LastIndex(s, sub)] of a one-byte [sub]; [None] is -1. *)
Fixpoint LastIndexByte (s : string) (c : ascii) : option nat :=
  match s with
  | EmptyString => None
  | String a s' =>
      match LastIndexByte s' c with
      | Some i => Some (S i)
      | None => if Ascii.eqb a c then Some 0 else None
      end
  end.

(** [strings.Cut(s, sep)] of a one-byte [sep]. *)
Definition Cut (s : string) (sep : ascii) : string * string * bool :=
  match IndexByte s sep with
  | Some i => (take_str i s, drop_str (S i) s, true)
  | None => (s, "", false)
  end.

(** The length of the white space [s] starts with, 0 if it starts with none. *)
Fixpoint space_len_in (ps : list string) (s : string) : nat :=
  match ps with
  | [] => 0
  | p :: rest => match strip_prefix p s with Some _ => String.length p | None => space_len_in rest s end
  end.

Definition space_len (s : string) : nat := space_len_in space_strings s.

(** [strings.Fields]; [cur] is the field being read, reversed, and [skip] the
    bytes left of a separator. *)
Fixpoint fields_space (skip : nat) (cur s : string) : list string :=
  match s with
  | EmptyString => if (cur =? "")%string then [] else [rev_str cur]
  | String a s' =>
      match skip with
      | S k => fields_space k cur s'
      | O =>
          match space_len (String a s') with
          | O => fields_space 0 (String a cur) s'
          | S k => if (cur =? "")%string then fields_space k "" s' else rev_str cur :: fields_space k "" s'
          end
      end
  end.

Definition Fields (s : string) : list string := fields_space 0 "" s.

(** ** Lower case *)

Definition ascii_lower (a : ascii) : ascii :=
  if in_range 65 90 a then byte_of (nat_of_ascii a + 32) else a.

Fixpoint map_bytes (f : ascii -> ascii) (s : string) : string :=
  match s with
  | EmptyString => ""
  | String a s' => String (f a) (map_bytes f s')
  end.

Definition is_ascii (s : string) : bool := all_bytes (in_range 0 127) s.

(** [strings.ToLower]; [unicode_lower] maps the strings with a byte beyond
    ASCII, by the tables of Unicode. *)
Definition ToLower (unicode_lower : string -> string) (s : string) : string :=
  if is_ascii s then map_bytes ascii_lower s else unicode_lower s.

Lemma ascii_lower_range a : in_range 0 127 a = true -> in_range 0 127 (ascii_lower a) = true.
Proof. by destruct a as [[] [] [] [] [] [] [] []]. Qed.

Lemma ascii_lower_idem a : ascii_lower (ascii_lower a) = ascii_lower a.
Proof. by destruct a as [[] [] [] [] [] [] [] []]. Qed.

Lemma is_ascii_lower s : is_ascii s = true -> is_ascii (map_bytes ascii_lower s) = true.
Proof.
  unfold is_ascii. induction s as [|a s IH]; cbn [all_bytes map_bytes]; [done|]. intros [Ha Hs]%andb_true_iff.
  by rewrite ascii_lower_range, IH.
Qed.

Lemma map_bytes_lower_idem s : map_bytes ascii_lower (map_bytes ascii_lower s) = map_bytes ascii_lower s.
Proof. induction s as [|a s IH]; cbn [map_bytes]; [done|]. by rewrite ascii_lower_idem, IH. Qed.

Lemma ToLower_idem unicode_lower s :
  (forall t, ToLower unicode_lower (unicode_lower t) = unicode_lower t) ->
  ToLower unicode_lower (ToLower unicode_lower s) = ToLower unicode_lower s.
Proof.
  intros Hu. unfold ToLower at 2 3. destruct (is_ascii s) eqn:E; [|apply Hu].
  unfold ToLower. by rewrite is_ascii_lower, map_bytes_lower_idem.
Qed.
