(* ===== verification/Streaming.v ===== *)
(** The live transcription session of [internal/pluginkit/streaming.go].

    [StreamingSession] is the record of the session's mutable fields; the
    methods that run under [s.mu] are functions on it.  The goroutine that
    [launchTranscriptionLocked] starts is the field [worker]: it is either
    inside [s.transcribe] or past its [s.emit] and about to take the lock
    again.  [events] records the session's calls to its two callbacks and the
    commits the bounded queue evicts, oldest first.  An execution is a run of
    [session_step]: calls of [Feed] and [Finish] interleaved with the steps of
    the goroutine in any order the lock allows. *)

From stdpp Require Import base list strings sets.
From Stdlib Require Import ZArith Lia SpecFloat.
From S2P Require Import GoInt GoStrings.

Local Open Scope Z_scope.

(** ** Durations in samples *)

Definition durationSamples (d sampleRate : Z) : Z := Z.quot (wrap64 (d * sampleRate)) second.

(** ** Detectors *)

(** IEEE binary64, the type of Go's [float64]; [float32] samples convert to
    it exactly. *)
Abbreviation float64 := spec_float.

Definition float64_of_Z (z : Z) : float64 := binary_normalize 53 1024 z 0 false.

(** The interface [VAD]: a detector may keep state from frame to frame. *)
Class VAD (V : Type) := IsSpeech : V -> list float64 -> bool * V.

Record EnergyVAD := mkEnergyVAD { Threshold : float64 }.

Definition energy_sum (frame : list float64) : float64 :=
  fold_left (fun sum x => SFadd 53 1024 sum (SFmul 53 1024 x x)) frame (S754_zero false).

Definition energy_is_speech (v : EnergyVAD) (frame : list float64) : bool :=
  match frame with
  | [] => false
  | _ => SFleb (Threshold v) (SFsqrt 53 1024 (SFdiv 53 1024 (energy_sum frame) (float64_of_Z (len frame))))
  end.

#[export] Instance energy_vad : VAD EnergyVAD := fun v frame => (energy_is_speech v frame, v).

(** ** Configuration *)

Record StreamingConfig := {
  SampleRate : Z;
  MaxWindow : Z;
  PartialInterval : Z;
  SilenceDuration : Z;
  EnergyThreshold : float64;
  SilenceHysteresis : Z;
  VADFrame : Z }.

(** [0.002] is the nearest binary64 number, [4611686018427388 * 2^-61]. *)
Definition DefaultStreamingConfig : StreamingConfig := {|
  SampleRate := 16000;
  MaxWindow := 30 * second;
  PartialInterval := 1500 * millisecond;
  SilenceDuration := 700 * millisecond;
  EnergyThreshold := S754_finite false 4611686018427388 (-61);
  SilenceHysteresis := 300 * millisecond;
  VADFrame := 20 * millisecond |}.

Record StreamingSegment := {
  StartMS : Z;
  EndMS : Z;
  Text : string;
  Final : bool }.

(** A final-segment snapshot: the samples and their position in the stream. *)
Record pendingCommit := mkCommit { samples : list float64; start : Z; end_ : Z }.

Definition maxPendingCommits : nat := 2.

(** The goroutine of [launchTranscriptionLocked]: running [s.transcribe] on a
    snapshot, or past [s.emit] and waiting for the lock. *)
Inductive worker_state :=
| Transcribing (final : bool) (job : pendingCommit)
| HandingOff.

(** What [s.transcribe] returns. *)
Inductive transcribe_result :=
| TrText (text : string)
| TrError (err : string).

Inductive event :=
| EvTranscribe (final : bool) (job : pendingCommit)
| EvEmit (segment : option StreamingSegment) (err : option string)
| EvReturn
| EvEvict (job : pendingCommit).

Record StreamingSession (V : Type) := mkSession {
  pending : list float64;
  window : list float64;
  totalSamples : Z;
  windowStartSample : Z;
  lastSpeechEndSample : Z;
  speechSincePartial : Z;
  continuousSilence : Z;
  lowEnergySamples : Z;
  active : bool;
  transcriptionInFlight : bool;
  pendingCommits : list pendingCommit;
  detector : V;
  worker : option worker_state;
  events : list event }.
Arguments mkSession {V}.
Arguments pending {V}.
Arguments window {V}.
Arguments totalSamples {V}.
Arguments windowStartSample {V}.
Arguments lastSpeechEndSample {V}.
Arguments speechSincePartial {V}.
Arguments continuousSilence {V}.
Arguments lowEnergySamples {V}.
Arguments active {V}.
Arguments transcriptionInFlight {V}.
Arguments pendingCommits {V}.
Arguments detector {V}.
Arguments worker {V}.
Arguments events {V}.

Section Setters.
Context {V : Type}.
Abbreviation session := (StreamingSession V).

Definition set_pending (v : list float64) (s : session) : session :=
  mkSession v (window s) (totalSamples s) (windowStartSample s) (lastSpeechEndSample s) (speechSincePartial s) (continuousSilence s) (lowEnergySamples s) (active s) (transcriptionInFlight s) (pendingCommits s) (detector s) (worker s) (events s).
Definition set_window (v : list float64) (s : session) : session :=
  mkSession (pending s) v (totalSamples s) (windowStartSample s) (lastSpeechEndSample s) (speechSincePartial s) (continuousSilence s) (lowEnergySamples s) (active s) (transcriptionInFlight s) (pendingCommits s) (detector s) (worker s) (events s).
Definition set_totalSamples (v : Z) (s : session) : session :=
  mkSession (pending s) (window s) v (windowStartSample s) (lastSpeechEndSample s) (speechSincePartial s) (continuousSilence s) (lowEnergySamples s) (active s) (transcriptionInFlight s) (pendingCommits s) (detector s) (worker s) (events s).
Definition set_windowStartSample (v : Z) (s : session) : session :=
  mkSession (pending s) (window s) (totalSamples s) v (lastSpeechEndSample s) (speechSincePartial s) (continuousSilence s) (lowEnergySamples s) (active s) (transcriptionInFlight s) (pendingCommits s) (detector s) (worker s) (events s).
Definition set_lastSpeechEndSample (v : Z) (s : session) : session :=
  mkSession (pending s) (window s) (totalSamples s) (windowStartSample s) v (speechSincePartial s) (continuousSilence s) (lowEnergySamples s) (active s) (transcriptionInFlight s) (pendingCommits s) (detector s) (worker s) (events s).
Definition set_speechSincePartial (v : Z) (s : session) : session :=
  mkSession (pending s) (window s) (totalSamples s) (windowStartSample s) (lastSpeechEndSample s) v (continuousSilence s) (lowEnergySamples s) (active s) (transcriptionInFlight s) (pendingCommits s) (detector s) (worker s) (events s).
Definition set_continuousSilence (v : Z) (s : session) : session :=
  mkSession (pending s) (window s) (totalSamples s) (windowStartSample s) (lastSpeechEndSample s) (speechSincePartial s) v (lowEnergySamples s) (active s) (transcriptionInFlight s) (pendingCommits s) (detector s) (worker s) (events s).
Definition set_lowEnergySamples (v : Z) (s : session) : session :=
  mkSession (pending s) (window s) (totalSamples s) (windowStartSample s) (lastSpeechEndSample s) (speechSincePartial s) (continuousSilence s) v (active s) (transcriptionInFlight s) (pendingCommits s) (detector s) (worker s) (events s).
Definition set_active (v : bool) (s : session) : session :=
  mkSession (pending s) (window s) (totalSamples s) (windowStartSample s) (lastSpeechEndSample s) (speechSincePartial s) (continuousSilence s) (lowEnergySamples s) v (transcriptionInFlight s) (pendingCommits s) (detector s) (worker s) (events s).
Definition set_transcriptionInFlight (v : bool) (s : session) : session :=
  mkSession (pending s) (window s) (totalSamples s) (windowStartSample s) (lastSpeechEndSample s) (speechSincePartial s) (continuousSilence s) (lowEnergySamples s) (active s) v (pendingCommits s) (detector s) (worker s) (events s).
Definition set_pendingCommits (v : list pendingCommit) (s : session) : session :=
  mkSession (pending s) (window s) (totalSamples s) (windowStartSample s) (lastSpeechEndSample s) (speechSincePartial s) (continuousSilence s) (lowEnergySamples s) (active s) (transcriptionInFlight s) v (detector s) (worker s) (events s).
Definition set_detector (v : V) (s : session) : session :=
  mkSession (pending s) (window s) (totalSamples s) (windowStartSample s) (lastSpeechEndSample s) (speechSincePartial s) (continuousSilence s) (lowEnergySamples s) (active s) (transcriptionInFlight s) (pendingCommits s) v (worker s) (events s).
Definition set_worker (v : option worker_state) (s : session) : session :=
  mkSession (pending s) (window s) (totalSamples s) (windowStartSample s) (lastSpeechEndSample s) (speechSincePartial s) (continuousSilence s) (lowEnergySamples s) (active s) (transcriptionInFlight s) (pendingCommits s) (detector s) v (events s).
Definition set_events (v : list event) (s : session) : session :=
  mkSession (pending s) (window s) (totalSamples s) (windowStartSample s) (lastSpeechEndSample s) (speechSincePartial s) (continuousSilence s) (lowEnergySamples s) (active s) (transcriptionInFlight s) (pendingCommits s) (detector s) (worker s) v.

End Setters.

Section Session.
Context {V : Type} `{VAD V}.
Variable cfg : StreamingConfig.
Abbreviation session := (StreamingSession V).

Definition session_durationSamples (d : Z) : Z := durationSamples d (SampleRate cfg).

Definition samplesToMS (n : Z) : Z := Z.quot (wrap64 (n * 1000)) (SampleRate cfg).

Definition log_event (e : event) (s : session) : session := set_events (events s ++ [e]) s.

(** ** Launching and queueing transcriptions *)

Definition launchTranscriptionLocked (final : bool) (job : pendingCommit) (s : session) : session :=
  log_event (EvTranscribe final job)
    (set_worker (Some (Transcribing final job)) (set_transcriptionInFlight true s)).

Definition queueCommitLocked (s : session) : session :=
  let s := if (maxPendingCommits <=? length (pendingCommits s))%nat
           then match pendingCommits s with
                | [] => s
                | old :: rest => log_event (EvEvict old) (set_pendingCommits rest s)
                end
           else s in
  set_pendingCommits
    (pendingCommits s ++ [mkCommit (window s) (windowStartSample s) (lastSpeechEndSample s)]) s.

Definition dequeueCommitLocked (s : session) : option pendingCommit * session :=
  match pendingCommits s with
  | [] => (None, s)
  | next :: rest => (Some next, set_pendingCommits rest s)
  end.

Definition startTranscriptionLocked (final : bool) (s : session) : session :=
  if len (window s) =? 0 then s
  else if transcriptionInFlight s then
    if final then queueCommitLocked s else s
  else launchTranscriptionLocked final
         (mkCommit (window s) (windowStartSample s) (lastSpeechEndSample s)) s.

Definition beginNextWindowLocked (s : session) : session :=
  set_lastSpeechEndSample (totalSamples s)
    (set_windowStartSample (totalSamples s)
      (set_speechSincePartial 0 (set_window [] s))).

Definition resetUtteranceLocked (s : session) : session :=
  set_lastSpeechEndSample 0 (set_windowStartSample 0
    (set_speechSincePartial 0 (set_lowEnergySamples 0
      (set_continuousSilence 0 (set_active false (set_window [] s)))))).

Definition boundWindow (s : session) : session :=
  let maxSamples := session_durationSamples (MaxWindow cfg) in
  if len (window s) <=? maxSamples then s
  else beginNextWindowLocked (startTranscriptionLocked true s).

(** ** The utterance state machine *)

Definition appendSpeechLocked (frame : list float64) (s : session) : session :=
  let s := set_speechSincePartial (speechSincePartial s + len frame) s in
  let s := set_lastSpeechEndSample (totalSamples s) s in
  let s := set_window (window s ++ frame) s in
  let s := boundWindow s in
  if session_durationSamples (PartialInterval cfg) <=? speechSincePartial s
  then startTranscriptionLocked false (set_speechSincePartial 0 s)
  else s.

Definition classifyLocked (frameCopy : list float64) (s : session) : session :=
  let '(isSpeech, d) := IsSpeech (detector s) frameCopy in
  let s := set_detector d s in
  let frameStart := totalSamples s in
  let s := set_totalSamples (totalSamples s + len frameCopy) s in
  if isSpeech then
    let s := if negb (active s)
             then set_windowStartSample frameStart (set_active true s)
             else s in
    appendSpeechLocked frameCopy (set_lowEnergySamples 0 (set_continuousSilence 0 s))
  else if negb (active s) then s
  else
    let s := set_lowEnergySamples (lowEnergySamples s + len frameCopy) s in
    let hysteresisSamples := session_durationSamples (SilenceHysteresis cfg) in
    if lowEnergySamples s <=? hysteresisSamples then appendSpeechLocked frameCopy s
    else
      let s := set_continuousSilence (lowEnergySamples s - hysteresisSamples) s in
      if session_durationSamples (SilenceDuration cfg) <=? continuousSilence s
      then resetUtteranceLocked (startTranscriptionLocked true s)
      else s.

(** The loop of [Feed] over whole subframes.  Each round consumes
    [subframe > 0] samples, so [length pending] rounds are enough. *)
Fixpoint feed_loop (fuel : nat) (subframe : nat) (s : session) : session :=
  match fuel with
  | O => s
  | S fuel' =>
      if (subframe <=? length (pending s))%nat
      then feed_loop fuel' subframe
             (set_pending (drop subframe (pending s))
                (classifyLocked (take subframe (pending s)) s))
      else s
  end.

Definition Feed (frame : list float64) (s : session) : session :=
  match frame with
  | [] => s
  | _ =>
      let subframe := session_durationSamples (VADFrame cfg) in
      if subframe <=? 0 then classifyLocked frame s
      else
        let s := set_pending (pending s ++ frame) s in
        feed_loop (length (pending s)) (Z.to_nat subframe) s
  end.

(** [Finish] up to its [s.mu.Unlock]; [s.wg.Wait] is [drain] below. *)
Definition Finish (s : session) : session :=
  let s := match pending s with
           | [] => s
           | remainder => classifyLocked remainder (set_pending [] s)
           end in
  if active s && negb (len (window s) =? 0)
  then resetUtteranceLocked (startTranscriptionLocked true s)
  else s.

(** ** The transcription goroutine *)

(** [s.transcribe] returns and the goroutine calls [s.emit]. *)
Definition transcribe_returns (res : transcribe_result) (s : session) : option session :=
  match worker s with
  | Some (Transcribing final job) =>
      let s := log_event EvReturn (set_worker (Some HandingOff) s) in
      Some (match res with
            | TrError e => log_event (EvEmit None (Some e)) s
            | TrText text =>
                let segment := {| StartMS := samplesToMS (start job); EndMS := samplesToMS (end_ job);
                                  Text := TrimSpace text; Final := final |} in
                if (Text segment =? "")%string then s
                else log_event (EvEmit (Some segment) None) s
            end)
  | _ => None
  end.

(** The goroutine takes the lock and hands off to the next queued commit. *)
Definition handoff (s : session) : option session :=
  match worker s with
  | Some HandingOff =>
      let s := set_worker None s in
      Some (match dequeueCommitLocked s with
            | (Some next, s) => launchTranscriptionLocked true next s
            | (None, s) => set_transcriptionInFlight false s
            end)
  | _ => None
  end.

Inductive action :=
| ActFeed (frame : list float64)
| ActFinish
| ActReturn (res : transcribe_result)
| ActHandoff.

Definition session_step (s : session) (a : action) : option session :=
  match a with
  | ActFeed frame => Some (Feed frame s)
  | ActFinish => Some (Finish s)
  | ActReturn res => transcribe_returns res s
  | ActHandoff => handoff s
  end.

(** [s.wg.Wait]: with no caller left, the goroutine steps until none runs;
    [transcribe] answers for the session's [TranscribeFunc].  Two steps per
    transcription are enough fuel, see [drain_total]. *)
Fixpoint drain (fuel : nat) (transcribe : list float64 -> transcribe_result) (s : session)
  : option session :=
  match worker s with
  | None => Some s
  | Some w =>
      match fuel with
      | O => None
      | S fuel' =>
          s1 ← match w with
               | Transcribing _ job => transcribe_returns (transcribe (samples job)) s
               | HandingOff => handoff s
               end;
          drain fuel' transcribe s1
      end
  end.

Definition new_session (v : V) : session :=
  mkSession [] [] 0 0 0 0 0 0 false false [] v None [].

End Session.

(** ** Construction *)

(** [vad = nil] selects the energy detector, so the session's detector is
    either that or the caller's. *)
Section Construction.
Context {V : Type} `{VAD V}.

Inductive Detector := DetectEnergy (v : EnergyVAD) | DetectCustom (v : V).

#[export] Instance detector_vad : VAD Detector := fun d frame =>
  match d with
  | DetectEnergy v => let '(b, v') := IsSpeech v frame in (b, DetectEnergy v')
  | DetectCustom v => let '(b, v') := IsSpeech v frame in (b, DetectCustom v')
  end.

(** [has_transcribe] and [has_emit] say whether the callbacks are non-nil. *)
Definition NewStreamingSession (cfg : StreamingConfig) (vad : option V) (has_transcribe has_emit : bool)
  : result string (StreamingSession Detector) :=
  let samples d := durationSamples d (SampleRate cfg) in
  if SampleRate cfg <=? 0 then Err "streaming sample rate must be positive"%string
  else if MaxWindow cfg <=? 0 then Err "streaming max window must be positive"%string
  else if PartialInterval cfg <=? 0 then Err "streaming partial interval must be positive"%string
  else if SilenceDuration cfg <=? 0 then Err "streaming silence duration must be positive"%string
  else if SFltb (EnergyThreshold cfg) (S754_zero false) then Err "streaming energy threshold must not be negative"%string
  else if SilenceHysteresis cfg <? 0 then Err "streaming silence hysteresis must not be negative"%string
  else if VADFrame cfg <? 0 then Err "streaming vad frame must not be negative"%string
  else if (0 <? VADFrame cfg) && (samples (VADFrame cfg) =? 0)
  then Err "streaming vad frame must span at least one sample"%string
  else if (samples (MaxWindow cfg) =? 0) || (samples (PartialInterval cfg) =? 0)
          || (samples (SilenceDuration cfg) =? 0)
  then Err "streaming durations must span at least one sample"%string
  else if negb has_transcribe || negb has_emit
  then Err "streaming transcriber and segment handler are required"%string
  else Ok (new_session (match vad with
                        | Some v => DetectCustom v
                        | None => DetectEnergy (mkEnergyVAD (EnergyThreshold cfg))
                        end)).

End Construction.

(** ** Segmentation: what the session commits, without the concurrency

    The reference semantics of a session: a function from the audio to the
    list of final commits.  It has no goroutine, no queue and no partials. *)

Record utterance := mkUtterance {
  u_total : Z; u_start : Z; u_end : Z; u_low : Z; u_active : bool; u_window : list float64 }.

Section Segmentation.
Context {V : Type} `{VAD V}.
Variable cfg : StreamingConfig.

Definition seg_commit (u : utterance) : list pendingCommit :=
  match u_window u with
  | [] => []
  | w => [mkCommit w (u_start u) (u_end u)]
  end.

Definition seg_append (frame : list float64) (u : utterance) : utterance * list pendingCommit :=
  let u := mkUtterance (u_total u) (u_start u) (u_total u) (u_low u) (u_active u) (u_window u ++ frame) in
  if len (u_window u) <=? session_durationSamples cfg (MaxWindow cfg) then (u, [])
  else (mkUtterance (u_total u) (u_total u) (u_total u) (u_low u) (u_active u) [], seg_commit u).

Definition seg_close (u : utterance) : utterance * list pendingCommit :=
  (mkUtterance (u_total u) 0 0 0 false [], seg_commit u).

(** One classified frame. *)
Definition seg_frame (frame : list float64) (du : V * utterance) : (V * utterance) * list pendingCommit :=
  let '(d, u) := du in
  let '(isSpeech, d) := IsSpeech d frame in
  let total := u_total u + len frame in
  if isSpeech then
    let first := if u_active u then u_start u else u_total u in
    let '(u, cs) := seg_append frame (mkUtterance total first (u_end u) 0 true (u_window u)) in
    ((d, u), cs)
  else if negb (u_active u) then
    ((d, mkUtterance total (u_start u) (u_end u) (u_low u) false (u_window u)), [])
  else
    let low := u_low u + len frame in
    let u := mkUtterance total (u_start u) (u_end u) low true (u_window u) in
    let hyst := session_durationSamples cfg (SilenceHysteresis cfg) in
    if low <=? hyst then let '(u, cs) := seg_append frame u in ((d, u), cs)
    else if session_durationSamples cfg (SilenceDuration cfg) <=? low - hyst
    then let '(u, cs) := seg_close u in ((d, u), cs)
    else ((d, u), []).

Fixpoint seg_run (frames : list (list float64)) (du : V * utterance)
  : (V * utterance) * list pendingCommit :=
  match frames with
  | [] => (du, [])
  | f :: rest =>
      let '(du, cs) := seg_frame f du in
      let '(du, cs') := seg_run rest du in
      (du, cs ++ cs')
  end.

(** Cut audio into whole subframes and a remainder. *)
Fixpoint split_frames (fuel subframe : nat) (audio : list float64)
  : list (list float64) * list float64 :=
  match fuel with
  | O => ([], audio)
  | S fuel' =>
      if (subframe <=? length audio)%nat
      then let '(fs, r) := split_frames fuel' subframe (drop subframe audio) in
           (take subframe audio :: fs, r)
      else ([], audio)
  end.

Record segmentation := mkSeg { seg_pending : list float64; seg_state : V * utterance }.

Definition seg_feed (audio : list float64) (g : segmentation) : segmentation * list pendingCommit :=
  let subframe := session_durationSamples cfg (VADFrame cfg) in
  match audio with
  | [] => (g, [])
  | _ =>
    if subframe <=? 0 then
      let '(du, cs) := seg_frame audio (seg_state g) in (mkSeg (seg_pending g) du, cs)
    else
      let all := seg_pending g ++ audio in
      let '(fs, r) := split_frames (length all) (Z.to_nat subframe) all in
      let '(du, cs) := seg_run fs (seg_state g) in
      (mkSeg r du, cs)
  end.

Definition seg_finish (g : segmentation) : segmentation * list pendingCommit :=
  let '(g, cs) := match seg_pending g with
                  | [] => (g, [])
                  | r => let '(du, cs) := seg_frame r (seg_state g) in (mkSeg [] du, cs)
                  end in
  let '(d, u) := seg_state g in
  if u_active u && negb (len (u_window u) =? 0)
  then let '(u, cs') := seg_close u in (mkSeg (seg_pending g) (d, u), cs ++ cs')
  else (g, cs).

(** The goroutine's steps are invisible to the segmentation. *)
Definition seg_step (g : segmentation) (a : action) : segmentation * list pendingCommit :=
  match a with
  | ActFeed audio => seg_feed audio g
  | ActFinish => seg_finish g
  | ActReturn _ | ActHandoff => (g, [])
  end.

Fixpoint seg_actions (acts : list action) (g : segmentation) : segmentation * list pendingCommit :=
  match acts with
  | [] => (g, [])
  | a :: rest =>
      let '(g, cs) := seg_step g a in
      let '(g, cs') := seg_actions rest g in
      (g, cs ++ cs')
  end.

Definition new_seg (v : V) : segmentation := mkSeg [] (v, mkUtterance 0 0 0 0 false []).

(** ** Abstraction of a session *)

Definition utterance_of (s : StreamingSession V) : utterance :=
  mkUtterance (totalSamples s) (windowStartSample s) (lastSpeechEndSample s)
    (lowEnergySamples s) (active s) (window s).

Definition seg_of (s : StreamingSession V) : segmentation :=
  mkSeg (pending s) (detector s, utterance_of s).

End Segmentation.
Arguments segmentation V : clear implicits.
Arguments mkSeg {V}.
Arguments seg_pending {V}.
Arguments seg_state {V}.

(** Final jobs handed to [s.transcribe], in the order of the calls. *)
Definition launched_finals (evs : list event) : list pendingCommit :=
  omap (fun e => match e with EvTranscribe true j => Some j | _ => None end) evs.

Definition evicted_jobs (evs : list event) : list pendingCommit :=
  omap (fun e => match e with EvEvict j => Some j | _ => None end) evs.

(** Final jobs launched or still queued. *)
Definition submitted {V} (s : StreamingSession V) : list pendingCommit :=
  launched_finals (events s) ++ pendingCommits s.

Definition evicted {V} (s : StreamingSession V) : list pendingCommit := evicted_jobs (events s).

(** From [s] to [s'] the session was asked to commit [cs]: it launched or
    queued them in order, after what was there before, except for evictions. *)
Definition commits {V} (s s' : StreamingSession V) (cs : list pendingCommit) : Prop :=
  submitted s' `sublist_of` submitted s ++ cs /\
  submitted s' ++ evicted s' ≡ₚ (submitted s ++ cs) ++ evicted s.

Lemma commits_refl {V} (s : StreamingSession V) : commits s s [].
Proof. unfold commits. rewrite app_nil_r. done. Qed.

Lemma commits_trans {V} (s1 s2 s3 : StreamingSession V) cs cs' :
  commits s1 s2 cs -> commits s2 s3 cs' -> commits s1 s3 (cs ++ cs').
Proof.
  intros [Hs Hp] [Hs' Hp']. split.
  - etrans; [exact Hs'|]. rewrite app_assoc. by apply sublist_app.
  - rewrite Hp', app_assoc, <- app_assoc, (Permutation_app_comm cs'), app_assoc, Hp.
    rewrite <- app_assoc, (Permutation_app_comm (evicted s1)). by rewrite <- !app_assoc.
Qed.

(** Without evictions the commits are all there, in order. *)
Lemma commits_exact {V} (s s' : StreamingSession V) cs :
  commits s s' cs -> evicted s' = evicted s -> submitted s' = submitted s ++ cs.
Proof.
  intros [Hs Hp] He. rewrite He in Hp.
  apply sublist_same_length; [done|]. apply Permutation_length in Hp.
  apply sublist_length in Hs. rewrite !length_app in *. lia.
Qed.

(** ** The commit queue and the goroutine *)

(** The lock-protected invariant of the concurrency fields. *)
Definition queue_inv {V} (s : StreamingSession V) : Prop :=
  transcriptionInFlight s = match worker s with Some _ => true | None => false end /\
  (worker s = None -> pendingCommits s = []) /\
  (length (pendingCommits s) <= maxPendingCommits)%nat.

Lemma commits_ext {V} (s s' : StreamingSession V) :
  pendingCommits s' = pendingCommits s -> events s' = events s -> commits s s' [].
Proof.
  intros E1 E2. unfold commits, submitted, evicted. rewrite E1, E2, app_nil_r. done.
Qed.

Lemma launched_finals_app es es' :
  launched_finals (es ++ es') = launched_finals es ++ launched_finals es'.
Proof. apply omap_app. Qed.

Lemma evicted_jobs_app es es' : evicted_jobs (es ++ es') = evicted_jobs es ++ evicted_jobs es'.
Proof. apply omap_app. Qed.

#[export] Hint Resolve commits_refl : go.

Section Refinement.
Context {V : Type} `{VAD V}.
Variable cfg : StreamingConfig.
Abbreviation session := (StreamingSession V).

(** [s'] differs from [s] only in its concurrency fields, where it has
    accepted the commits [cs]. *)
Definition submits (s s' : session) (cs : list pendingCommit) : Prop :=
  queue_inv s' /\ commits s s' cs /\ seg_of s' = seg_of s.

Lemma queueCommit_submits s :
  queue_inv s -> transcriptionInFlight s = true ->
  submits s (queueCommitLocked s) [mkCommit (window s) (windowStartSample s) (lastSpeechEndSample s)].
Proof.
  intros (Hf & Hi & Hb) Hfl. unfold queueCommitLocked, maxPendingCommits in *.
  set (c := mkCommit _ _ _). unfold submits.
  destruct (Nat.leb_spec 2 (length (pendingCommits s))) as [Hge|Hlt].
  - destruct (pendingCommits s) as [|old rest] eqn:Eq; [cbn in Hge; lia|].
    split; [|split; [|done]].
    + split; [|split]; cbn; [done| |rewrite length_app; unfold maxPendingCommits; cbn in *; lia].
      intros Hw. rewrite Hf, Hw in Hfl. done.
    + unfold commits, submitted, evicted; cbn. rewrite launched_finals_app, evicted_jobs_app, Eq; cbn.
      rewrite app_nil_r. split.
      * rewrite <- app_assoc. apply sublist_app; [done|]. cbn. by apply sublist_cons.
      * solve_Permutation.
  - split; [|split; [|done]].
    + split; [|split]; cbn; [done| |rewrite length_app; cbn; unfold maxPendingCommits; lia].
      intros Hw. rewrite Hf, Hw in Hfl. done.
    + unfold commits, submitted, evicted; cbn. by rewrite <- app_assoc.
Qed.

Lemma launch_submits final job s :
  queue_inv s -> transcriptionInFlight s = false ->
  submits s (launchTranscriptionLocked final job s) (if final then [job] else []).
Proof.
  intros (Hf & Hi & Hb) Hfl. rewrite Hfl in Hf.
  assert (Hq : pendingCommits s = []) by (apply Hi; by destruct (worker s)).
  split; [|split; [|done]].
  - split; [|split]; cbn; [done | done | by rewrite Hq; cbn; lia].
  - unfold commits, submitted, evicted; cbn.
    rewrite launched_finals_app, evicted_jobs_app, Hq; cbn. rewrite !app_nil_r.
    by destruct final.
Qed.

Lemma startTranscription_submits final s :
  queue_inv s ->
  submits s (startTranscriptionLocked final s) (if final then seg_commit (utterance_of s) else []).
Proof.
  intros Hq. unfold startTranscriptionLocked, seg_commit; cbn [u_window utterance_of].
  destruct (Z.eqb_spec (len (window s)) 0) as [Hz|Hnz].
  - rewrite (len_zero _ Hz). destruct final; by (split; [|split; [exact (commits_refl s)|]]).
  - destruct (window s) as [|x w] eqn:Ew; [done|]. rewrite <- Ew.
    destruct (transcriptionInFlight s) eqn:Ef.
    + destruct final; [by apply queueCommit_submits | by (split; [|split; [exact (commits_refl s)|]])].
    + apply (launch_submits final _ s Hq Ef).
Qed.

(** Concrete step [s ~> s'] implements the segmentation step to [(g, cs)]. *)
Definition refines (s s' : session) (gcs : segmentation V * list pendingCommit) : Prop :=
  queue_inv s' /\ commits s s' (snd gcs) /\ seg_of s' = fst gcs.

Lemma appendSpeech_refines frame s :
  queue_inv s ->
  let '(u, cs) := seg_append cfg frame (utterance_of s) in
  refines s (appendSpeechLocked cfg frame s) (mkSeg (pending s) (detector s, u), cs).
Proof.
  intros Hq. unfold seg_append, appendSpeechLocked.
  set (s1 := set_window _ _). unfold boundWindow.
  cbn [u_window u_total u_start u_low u_active utterance_of].
  change (window s1) with (window s ++ frame).
  assert (Hq1 : queue_inv s1) by exact Hq.
  destruct (len (window s ++ frame) <=? _).
  - destruct (_ <=? speechSincePartial s1); [|by split; [|split; [exact (commits_refl s)|]]].
    exact (startTranscription_submits false (set_speechSincePartial 0 s1) Hq1).
  - destruct (startTranscription_submits true s1 Hq1) as (Hq2 & Hc2 & Hu2).
    set (s2 := startTranscriptionLocked true s1) in *.
    set (s3 := beginNextWindowLocked s2).
    assert (Hq3 : queue_inv s3) by exact Hq2.
    assert (Hg3 : seg_of s3 = mkSeg (pending s1) (detector s1,
      mkUtterance (totalSamples s1) (totalSamples s1) (totalSamples s1) (lowEnergySamples s1) (active s1) [])).
    { unfold seg_of, utterance_of in *. injection Hu2 as Hp Hd Ht Hs He Hl Ha Hw. cbn.
      by rewrite Hp, Hd, Ht, Hl, Ha. }
    destruct (_ <=? speechSincePartial s3).
    + destruct (startTranscription_submits false (set_speechSincePartial 0 s3) Hq3) as (Hq4 & Hc4 & Hu4).
      split; [exact Hq4|]. split; [|by rewrite Hu4].
      rewrite <- (app_nil_r (snd _)). eapply commits_trans; [exact Hc2 | exact Hc4].
    + split; [exact Hq3|]. split; [exact Hc2 | exact Hg3].
Qed.

Lemma close_refines s :
  queue_inv s ->
  let '(u, cs) := seg_close (utterance_of s) in
  refines s (resetUtteranceLocked (startTranscriptionLocked true s)) (mkSeg (pending s) (detector s, u), cs).
Proof.
  intros Hq. destruct (startTranscription_submits true s Hq) as (Hq2 & Hc2 & Hu2).
  split; [exact Hq2|]. split; [exact Hc2|].
  unfold seg_of, utterance_of in *. injection Hu2 as Hp Hd Ht Hs He Hl Ha Hw. cbn. by rewrite Hp, Hd, Ht.
Qed.

Lemma classify_refines frame s :
  queue_inv s ->
  let '(du, cs) := seg_frame cfg frame (detector s, utterance_of s) in
  refines s (classifyLocked cfg frame s) (mkSeg (pending s) du, cs).
Proof.
  intros Hq. unfold seg_frame, classifyLocked.
  destruct (IsSpeech (detector s) frame) as [b d] eqn:Ev. cbn [utterance_of u_total u_start u_end u_low u_active u_window].
  destruct b.
  - cbn [active totalSamples set_totalSamples set_detector].
    set (s1 := set_lowEnergySamples _ _).
    assert (Hu1 : utterance_of s1 = mkUtterance (totalSamples s + len frame)
      (if active s then windowStartSample s else totalSamples s) (lastSpeechEndSample s) 0 true (window s)).
    { unfold s1, utterance_of. destruct (active s) eqn:Ea; cbn; by rewrite ?Ea. }
    assert (Hq1 : queue_inv s1) by (unfold s1; by destruct (active s)).
    pose proof (appendSpeech_refines frame s1 Hq1) as Happ. rewrite Hu1 in Happ.
    destruct (seg_append _ _ _) as [u cs].
    destruct Happ as (Ha & Hb & Hc). split; [done|]. unfold s1 in *.
    destruct (active s); (split; [exact Hb | exact Hc]).
  - cbn [active set_totalSamples set_detector].
    destruct (active s) eqn:Ea; cbn [negb].
    2: { split; [exact Hq|]. split; [exact (commits_refl s)|]. by unfold seg_of, utterance_of; cbn; rewrite Ea. }
    set (s1 := set_lowEnergySamples _ _).
    assert (Hu1 : utterance_of s1 = mkUtterance (totalSamples s + len frame) (windowStartSample s)
       (lastSpeechEndSample s) (lowEnergySamples s + len frame) true (window s))
      by (unfold s1, utterance_of; cbn; by rewrite Ea).
    assert (Hq1 : queue_inv s1) by exact Hq.
    change (lowEnergySamples s1) with (lowEnergySamples s + len frame).
    destruct (_ <=? session_durationSamples cfg (SilenceHysteresis cfg)).
    + pose proof (appendSpeech_refines frame s1 Hq1) as Happ. rewrite Hu1 in Happ.
      by destruct (seg_append _ _ _) as [u cs].
    + cbn [continuousSilence set_continuousSilence].
      destruct (_ <=? _).
      * pose proof (close_refines (set_continuousSilence
          (lowEnergySamples s + len frame - session_durationSamples cfg (SilenceHysteresis cfg)) s1) Hq1) as Hcl.
        change (utterance_of (set_continuousSilence _ s1)) with (utterance_of s1) in Hcl. rewrite Hu1 in Hcl.
        by destruct (seg_close _) as [u cs].
      * split; [exact Hq1|]. split; [exact (commits_refl s)|]. unfold seg_of. cbn.
        by rewrite <- Hu1.
Qed.

Lemma refines_trans s1 s2 s3 g2 cs g3 cs' :
  refines s1 s2 (g2, cs) -> refines s2 s3 (g3, cs') -> refines s1 s3 (g3, cs ++ cs').
Proof.
  intros (_ & Hc & _) (Hq & Hc' & Hg). split; [done|]. split; [|done].
  by eapply commits_trans.
Qed.

Lemma feed_loop_refines fuel subframe s :
  queue_inv s ->
  let '(fs, r) := split_frames fuel subframe (pending s) in
  let '(du, cs) := seg_run cfg fs (detector s, utterance_of s) in
  refines s (feed_loop cfg fuel subframe s) (mkSeg r du, cs).
Proof.
  revert s. induction fuel as [|fuel IH]; intros s Hq; cbn [split_frames feed_loop].
  { split; [done|]. by split; [exact (commits_refl s)|]. }
  destruct (subframe <=? length (pending s))%nat; cbn [seg_run].
  2: { split; [done|]. by split; [exact (commits_refl s)|]. }
  pose proof (classify_refines (take subframe (pending s)) s Hq) as Hcl.
  set (s1 := set_pending (drop subframe (pending s)) (classifyLocked cfg (take subframe (pending s)) s)).
  specialize (IH s1). cbn [pending s1 set_pending] in IH.
  destruct (split_frames fuel subframe (drop subframe (pending s))) as [fs r]. cbn [seg_run].
  destruct (seg_frame _ _ _) as [[d u] cs].
  destruct Hcl as (Hq1 & Hc1 & Hg1). injection Hg1 as Hp1 Hd1 Hu1.
  assert (E : (detector s1, utterance_of s1) = (d, u)).
  { f_equal; [exact Hd1 | exact Hu1]. }
  rewrite E in IH. destruct (seg_run cfg fs (d, u)) as [du' cs'].
  apply (refines_trans s s1 _ (seg_of s1)); [|apply IH; exact Hq1].
  split; [exact Hq1|]. by split; [exact Hc1|].
Qed.

Lemma Feed_refines audio s :
  queue_inv s -> refines s (Feed cfg audio s) (seg_feed cfg audio (seg_of s)).
Proof.
  intros Hq. unfold Feed, seg_feed. destruct audio as [|x audio].
  { split; [done|]. by split; [exact (commits_refl s)|]. }
  set (a := x :: audio). destruct (_ <=? 0); cbn [seg_pending seg_state seg_of].
  - pose proof (classify_refines a s Hq) as Hcl. by destruct (seg_frame _ _ _) as [du cs].
  - pose proof (feed_loop_refines (length (pending s ++ a))
      (Z.to_nat (session_durationSamples cfg (VADFrame cfg))) (set_pending (pending s ++ a) s) Hq) as Hf.
    cbn [pending set_pending] in Hf. change (utterance_of (set_pending _ s)) with (utterance_of s) in Hf.
    change (detector (set_pending _ s)) with (detector s) in Hf.
    destruct (split_frames _ _ _) as [fs r]. by destruct (seg_run _ _ _) as [du cs].
Qed.

Lemma Finish_refines s :
  queue_inv s -> refines s (Finish cfg s) (seg_finish cfg (seg_of s)).
Proof.
  intros Hq. unfold Finish, seg_finish. cbn [seg_pending seg_state seg_of].
  assert (Hrem : refines s (match pending s with [] => s | r => classifyLocked cfg r (set_pending [] s) end)
    (match pending s with
     | [] => (seg_of s, [])
     | r => let '(du, cs) := seg_frame cfg r (detector s, utterance_of s) in (mkSeg [] du, cs)
     end)).
  { destruct (pending s) as [|x p] eqn:Ep; [by split; [|split; [exact (commits_refl s)|]]|].
    pose proof (classify_refines (x :: p) (set_pending [] s) Hq) as Hcl.
    change (utterance_of (set_pending _ s)) with (utterance_of s) in Hcl.
    change (detector (set_pending _ s)) with (detector s) in Hcl.
    by destruct (seg_frame _ _ _). }
  change (mkSeg (pending s) (detector s, utterance_of s)) with (seg_of s).
  set (s1 := match pending s with [] => s | _ => _ end) in *.
  destruct (match pending s with [] => (seg_of s, []) | _ => _ end) as [g cs].
  destruct Hrem as (Hq1 & Hc1 & Hg1). cbn [fst snd] in *. subst g.
  cbn [seg_state seg_of utterance_of u_active u_window].
  destruct (active s1 && negb (len (window s1) =? 0)); [|by split].
  pose proof (close_refines s1 Hq1) as Hcl. destruct (seg_close _) as [u cs'].
  eapply refines_trans; [|exact Hcl]. by split.
Qed.

Lemma transcribe_returns_refines res s s' :
  queue_inv s -> transcribe_returns cfg res s = Some s' -> refines s s' (seg_of s, []).
Proof.
  intros Hq. unfold transcribe_returns. destruct (worker s) as [[final job|]|] eqn:Ew; [|done|done].
  intros [= <-]. destruct Hq as (Hf & Hi & Hb). rewrite Ew in Hf.
  assert (Hc : forall es, launched_finals es = [] -> evicted_jobs es = [] -> forall s2 : session,
    pendingCommits s2 = pendingCommits s -> events s2 = events s ++ es -> commits s s2 []).
  { intros es E1 E2 s2 E3 E4. unfold commits, submitted, evicted.
    rewrite E3, E4, launched_finals_app, evicted_jobs_app, E1, E2, !app_nil_r. done. }
  destruct res as [text|e]; [destruct (_ =? _)%string|]; (split; [|split]); try done; try (by split_and!).
  - by apply (Hc [EvReturn]).
  - eapply (Hc [EvReturn; EvEmit _ _]); try done. cbn. by rewrite <- app_assoc.
  - eapply (Hc [EvReturn; EvEmit _ _]); try done. cbn. by rewrite <- app_assoc.
Qed.

Lemma handoff_refines s s' :
  queue_inv s -> handoff s = Some s' -> refines s s' (seg_of s, []).
Proof.
  intros (Hf & Hi & Hb). unfold handoff. destruct (worker s) as [[|]|] eqn:Ew; [done| |done].
  unfold dequeueCommitLocked. cbn [pendingCommits set_worker].
  destruct (pendingCommits s) as [|next rest] eqn:Eq; intros [= <-].
  - split; [|split; [|done]].
    + split; [done|]. cbn. rewrite Eq. cbn. split; [done|lia].
    + apply commits_ext; cbn; congruence.
  - split; [|split; [|done]].
    + split; [done|]. cbn. split; [done|]. cbn in Hb. lia.
    + unfold commits, submitted, evicted. cbn. rewrite Eq, launched_finals_app, evicted_jobs_app. cbn.
      rewrite !app_nil_r, <- app_assoc. done.
Qed.

Lemma session_step_refines s a s' :
  queue_inv s -> session_step cfg s a = Some s' -> refines s s' (seg_step cfg (seg_of s) a).
Proof.
  intros Hq. destruct a as [audio| |res|]; cbn [session_step seg_step].
  - intros [= <-]. by apply Feed_refines.
  - intros [= <-]. by apply Finish_refines.
  - by apply transcribe_returns_refines.
  - by apply handoff_refines.
Qed.

Lemma session_run_refines acts s s' :
  queue_inv s -> run (session_step cfg) s acts = Some s' -> refines s s' (seg_actions cfg acts (seg_of s)).
Proof.
  revert s. induction acts as [|a acts IH]; intros s Hq; cbn [run seg_actions].
  { intros [= <-]. by split; [|split; [exact (commits_refl s)|]]. }
  destruct (session_step cfg s a) as [s1|] eqn:E; cbn; [|done]. intros Hrun.
  pose proof (session_step_refines s a s1 Hq E) as Hst.
  destruct (seg_step cfg (seg_of s) a) as [g cs] eqn:Eg.
  pose proof Hst as (Hq1 & _ & Hg1). cbn in Hg1.
  specialize (IH s1 Hq1 Hrun). rewrite Hg1 in IH.
  destruct (seg_actions cfg acts g) as [g' cs']. by eapply refines_trans.
Qed.

Lemma new_session_inv v : queue_inv (new_session v : session).
Proof. split_and!; cbn; [done|done|lia]. Qed.

End Refinement.
