(* ===== verification/StreamingProps.v ===== *)
(** Correctness of the live transcription session: the theorems about
    [Streaming].  Every execution implements the segmentation of the audio;
    the segmentation does not depend on how the audio was chunked; emitted
    final segments are in order and do not overlap; memory is bounded; and
    [Finish] followed by the goroutine's remaining steps leaves nothing
    behind. *)

From stdpp Require Import base list strings sets.
From Stdlib Require Import ZArith Lia SpecFloat.
From S2P Require Import GoInt GoStrings Streaming.

Local Open Scope Z_scope.

(** ** Chunking *)

Section Chunking.
Context {V : Type} `{VAD V}.
Variable cfg : StreamingConfig.

Lemma split_frames_fuel n m subframe audio :
  (0 < subframe)%nat -> (length audio <= n)%nat -> (length audio <= m)%nat ->
  split_frames n subframe audio = split_frames m subframe audio.
Proof.
  intros Hs. revert m audio. induction n as [|n IH]; intros m audio Hn Hm.
  - destruct audio; [|cbn in Hn; lia]. destruct m; cbn [split_frames length]; [done|].
    destruct (Nat.leb_spec subframe 0); [lia|done].
  - destruct m as [|m].
    + destruct audio; [|cbn in Hm; lia]. cbn [split_frames length].
      destruct (Nat.leb_spec subframe 0); [lia|done].
    + cbn [split_frames]. destruct (Nat.leb_spec subframe (length audio)); [|done].
      rewrite (IH m); rewrite ?length_drop; [done|lia|lia].
Qed.

(** Cutting [a ++ b] is cutting [a], then [b] after the remainder of [a]. *)
Lemma split_frames_app subframe a b :
  (0 < subframe)%nat ->
  split_frames (length (a ++ b)) subframe (a ++ b) =
  let '(fs, r) := split_frames (length a) subframe a in
  let '(fs', r') := split_frames (length (r ++ b)) subframe (r ++ b) in
  (fs ++ fs', r').
Proof.
  intros Hs. remember (length a) as n eqn:Hn. revert a Hn.
  induction (lt_wf n) as [n _ IH]; intros a ->.
  destruct (length a) as [|n] eqn:Ha.
  - destruct a; [|done]. cbn [split_frames app]. by destruct (split_frames _ _ b).
  - cbn [split_frames]. rewrite Ha. destruct (Nat.leb_spec subframe (S n)) as [Hle|Hgt].
    + rewrite (split_frames_fuel n (length (drop subframe a)))
        by (rewrite ?length_drop; lia).
      assert (Hd : (length (drop subframe a) < S n)%nat) by (rewrite length_drop; lia).
      specialize (IH _ Hd (drop subframe a) eq_refl).
      destruct (split_frames (length (drop subframe a)) _ _) as [fs r].
      destruct (split_frames (length (r ++ b)) _ _) as [fs' r'].
      assert (Hlen : length (a ++ b) = S (n + length b)) by (rewrite length_app; lia).
      rewrite Hlen. cbn [split_frames]. rewrite length_app.
      destruct (Nat.leb_spec subframe (length a + length b)); [|lia].
      rewrite drop_app_le, take_app_le by lia.
      rewrite (split_frames_fuel _ (length (drop subframe a ++ b))), IH
        by (rewrite ?length_app, ?length_drop; lia). done.
    + by destruct (split_frames _ _ (a ++ b)).
Qed.

Lemma seg_run_app fs fs' (du : V * utterance) :
  seg_run cfg (fs ++ fs') du =
  let '(du, cs) := seg_run cfg fs du in
  let '(du, cs') := seg_run cfg fs' du in (du, cs ++ cs').
Proof.
  revert du. induction fs as [|f fs IH]; intros du; cbn [app seg_run].
  - by destruct (seg_run cfg fs' du).
  - destruct (seg_frame cfg f du) as [du1 cs1]. rewrite IH.
    destruct (seg_run cfg fs du1) as [du2 cs2]. destruct (seg_run cfg fs' du2) as [du3 cs3].
    by rewrite app_assoc.
Qed.

Lemma seg_feed_app a b (g : segmentation V) :
  0 < session_durationSamples cfg (VADFrame cfg) ->
  seg_feed cfg (a ++ b) g =
  let '(g, cs) := seg_feed cfg a g in
  let '(g, cs') := seg_feed cfg b g in (g, cs ++ cs').
Proof.
  intros Hs. destruct a as [|x a]; [by cbn; destruct (seg_feed cfg b g)|].
  destruct b as [|y b].
  { rewrite app_nil_r. destruct (seg_feed cfg (x :: a) g) as [g' cs]. cbn. by rewrite app_nil_r. }
  unfold seg_feed. cbn [app]. change (x :: a ++ y :: b) with ((x :: a) ++ y :: b).
  destruct (Z.leb_spec (session_durationSamples cfg (VADFrame cfg)) 0); [lia|].
  rewrite app_assoc, split_frames_app by lia.
  destruct (split_frames _ _ (seg_pending g ++ x :: a)) as [fs r].
  destruct (seg_run cfg fs (seg_state g)) as [du cs] eqn:E1. cbn [seg_pending seg_state].
  destruct (split_frames _ _ (r ++ y :: b)) as [fs' r'].
  rewrite seg_run_app, E1. by destruct (seg_run cfg fs' du).
Qed.

(** The audio of a run, and the runs that only feed. *)
Fixpoint fed_audio (acts : list action) : list float64 :=
  match acts with
  | [] => []
  | ActFeed frame :: rest => frame ++ fed_audio rest
  | _ :: rest => fed_audio rest
  end.

Definition is_finish (a : action) : bool := match a with ActFinish => true | _ => false end.

Lemma seg_actions_feed acts (g : segmentation V) :
  0 < session_durationSamples cfg (VADFrame cfg) -> existsb is_finish acts = false ->
  seg_actions cfg acts g = seg_feed cfg (fed_audio acts) g.
Proof.
  intros Hs. revert g. induction acts as [|a acts IH]; intros g Hf; cbn [seg_actions fed_audio]; [done|].
  cbn [existsb] in Hf. apply orb_false_iff in Hf as [Ha Hf].
  destruct a as [audio| |res|]; cbn [seg_step fed_audio]; [|done| |].
  - rewrite seg_feed_app by done. destruct (seg_feed cfg audio g) as [g1 cs1]. by rewrite IH.
  - rewrite IH by done. by destruct (seg_feed _ _ _).
  - rewrite IH by done. by destruct (seg_feed _ _ _).
Qed.

End Chunking.

(** ** Chronology of commits *)

(** [chrono lo cs hi]: the commits lie in order, without overlap, between the
    sample positions [lo] and [hi], and none holds more audio than it spans. *)
Fixpoint chrono (lo : Z) (cs : list pendingCommit) (hi : Z) : Prop :=
  match cs with
  | [] => lo <= hi
  | c :: rest => lo <= start c /\ len (samples c) <= end_ c - start c /\ chrono (end_ c) rest hi
  end.

Lemma chrono_le lo cs hi : chrono lo cs hi -> lo <= hi.
Proof.
  revert lo. induction cs as [|c cs IH]; intros lo; cbn; [done|].
  intros (H1 & H2 & H3%IH). pose proof (len_nonneg (samples c)). lia.
Qed.

Lemma chrono_weaken lo lo' cs hi : lo' <= lo -> chrono lo cs hi -> chrono lo' cs hi.
Proof. destruct cs; cbn; intros; [lia | intuition lia]. Qed.

Lemma chrono_mono lo hi hi' cs : hi <= hi' -> chrono lo cs hi -> chrono lo cs hi'.
Proof.
  revert lo. induction cs as [|c cs IH]; intros lo; cbn; [lia|]. intros ? (? & ? & ?). eauto.
Qed.

Lemma chrono_app lo cs mid cs' hi : chrono lo cs mid -> chrono mid cs' hi -> chrono lo (cs ++ cs') hi.
Proof.
  revert lo. induction cs as [|c cs IH]; intros lo; cbn.
  - intros. by eapply chrono_weaken.
  - intros (? & ? & ?) ?. split_and!; eauto.
Qed.

Lemma chrono_sublist lo cs cs' hi : cs' `sublist_of` cs -> chrono lo cs hi -> chrono lo cs' hi.
Proof.
  intros Hs. revert lo. induction Hs as [|c cs' cs Hs IH|c cs' cs Hs IH]; intros lo; cbn; [done| |].
  - intuition eauto.
  - intros (H1 & H2 & H3). pose proof (len_nonneg (samples c)).
    eapply chrono_weaken; [|apply IH, H3]. lia.
Qed.

Section Chronology.
Context {V : Type} `{VAD V}.
Variable cfg : StreamingConfig.
Abbreviation maxSamples := (session_durationSamples cfg (MaxWindow cfg)).
Hypothesis Hmax : 0 <= maxSamples.

(** Where the next commit may start. *)
Definition seg_floor (u : utterance) : Z := if u_active u then u_start u else u_total u.

Definition utterance_inv (u : utterance) : Prop :=
  if u_active u
  then u_start u <= u_end u <= u_total u /\ len (u_window u) <= u_end u - u_start u
       /\ len (u_window u) <= maxSamples
  else u_window u = [].

Lemma seg_commit_chrono u :
  u_start u <= u_end u -> len (u_window u) <= u_end u - u_start u ->
  chrono (u_start u) (seg_commit u) (u_end u).
Proof.
  intros. unfold seg_commit. destruct (u_window u) as [|x w]; cbn [chrono samples start end_]; [lia|].
  split_and!; lia.
Qed.

Lemma seg_append_inv frame u u' cs :
  seg_append cfg frame u = (u', cs) -> u_active u = true -> u_start u <= u_total u ->
  len (u_window u) + len frame <= u_total u - u_start u ->
  utterance_inv u' /\ chrono (u_start u) cs (seg_floor u') /\ u_total u' = u_total u.
Proof.
  unfold seg_append, utterance_inv, seg_floor. intros Hap Ha Hle Hlen.
  destruct (_ <=? _) eqn:E; injection Hap as <- <-; cbn in *; rewrite Ha; bool_to_prop.
  - split_and!; try lia_len.
  - split_and!; try lia_len. apply (seg_commit_chrono (mkUtterance (u_total u) (u_start u) (u_total u) (u_low u) true (u_window u ++ frame))); cbn; lia_len.
Qed.

Lemma seg_frame_inv frame (d : V) u d' u' cs :
  seg_frame cfg frame (d, u) = ((d', u'), cs) -> utterance_inv u ->
  utterance_inv u' /\ chrono (seg_floor u) cs (seg_floor u').
Proof.
  intros Hf Hu. unfold seg_frame in Hf. destruct (IsSpeech d frame) as [b d1].
  pose proof (len_nonneg frame) as Hn.
  destruct b; [|destruct (u_active u) eqn:Ea; cbn [negb] in Hf].
  - destruct (seg_append _ _ _) as [u1 cs1] eqn:Es. injection Hf as <- <- <-.
    unfold utterance_inv in Hu. unfold seg_floor at 1. 
    apply seg_append_inv in Es as (Hi & Hc & _); cbn; [|done| |];
      destruct (u_active u); try rewrite Hu; try lia_len; cbn in Hc; done.
  - destruct (_ <=? session_durationSamples cfg (SilenceHysteresis cfg)).
    + destruct (seg_append _ _ _) as [u1 cs1] eqn:Es. injection Hf as <- <- <-.
      unfold utterance_inv in Hu. rewrite Ea in Hu. unfold seg_floor at 1. rewrite Ea.
      apply seg_append_inv in Es as (Hi & Hc & _); cbn in *; [done|done|lia_len|lia_len].
    + unfold utterance_inv in Hu. rewrite Ea in Hu. unfold seg_floor at 1. rewrite Ea.
      destruct (_ <=? _); injection Hf as <- <- <-; unfold utterance_inv, seg_floor; cbn.
      * split; [done|]. destruct Hu as (Hu1 & Hu2 & Hu3).
        apply (chrono_mono _ (u_end u)); [lia | exact (seg_commit_chrono u (proj1 Hu1) Hu2)].
      * split_and!; lia_len.
  - injection Hf as <- <- <-. unfold utterance_inv, seg_floor in *. rewrite Ea in *. cbn. split; [done|lia].
Qed.

Lemma seg_run_inv fs (d : V) u d' u' cs :
  seg_run cfg fs (d, u) = ((d', u'), cs) -> utterance_inv u ->
  utterance_inv u' /\ chrono (seg_floor u) cs (seg_floor u').
Proof.
  revert d u cs. induction fs as [|f fs IH]; intros d u cs; cbn [seg_run].
  - intros [= <- <- <-] Hu. split; [done|]. cbn. lia.
  - destruct (seg_frame cfg f (d, u)) as [[d1 u1] cs1] eqn:E1.
    destruct (seg_run cfg fs (d1, u1)) as [[d2 u2] cs2] eqn:E2. intros [= <- <- <-] Hu.
    apply seg_frame_inv in E1 as [Hi1 Hc1]; [|done]. apply IH in E2 as [Hi2 Hc2]; [|done].
    split; [done|]. by eapply chrono_app.
Qed.

Definition segmentation_inv (g : segmentation V) : Prop :=
  utterance_inv (seg_state g).2 /\
  (0 < session_durationSamples cfg (VADFrame cfg) ->
   len (seg_pending g) < session_durationSamples cfg (VADFrame cfg)).

Lemma split_frames_rest n subframe audio :
  (0 < subframe)%nat -> (length audio <= n)%nat ->
  (length (snd (split_frames n subframe audio)) < subframe)%nat.
Proof.
  intros Hs. revert audio. induction n as [|n IH]; intros audio Hn; cbn [split_frames]; [cbn; lia|].
  destruct (Nat.leb_spec subframe (length audio)); [|done].
  specialize (IH (drop subframe audio)). rewrite length_drop in IH.
  destruct (split_frames n subframe (drop subframe audio)). apply IH. lia.
Qed.

Lemma seg_step_inv g a g' cs :
  seg_step cfg g a = (g', cs) -> segmentation_inv g ->
  segmentation_inv g' /\ chrono (seg_floor (seg_state g).2) cs (seg_floor (seg_state g').2).
Proof.
  intros Hst [Hu Hp]. destruct g as [p [d u]]. cbn [seg_state seg_pending snd] in *.
  assert (Hfin : forall r d1 u1 cs1, seg_frame cfg r (d, u) = ((d1, u1), cs1) ->
    utterance_inv u1 /\ chrono (seg_floor u) cs1 (seg_floor u1)) by (intros; by eapply seg_frame_inv).
  destruct a as [audio| |res|]; cbn [seg_step] in Hst.
  - unfold seg_feed in Hst. destruct audio as [|x audio]; [by injection Hst as <- <-; repeat split; cbn|].
    destruct (Z.leb_spec (session_durationSamples cfg (VADFrame cfg)) 0) as [Hz|Hz]; cbn [seg_state seg_pending] in Hst.
    + destruct (seg_frame _ _ _) as [[d1 u1] cs1] eqn:E. injection Hst as <- <-.
      apply Hfin in E as [Hi Hc]. by repeat split.
    + pose proof (split_frames_rest (length (p ++ x :: audio)) (Z.to_nat (session_durationSamples cfg (VADFrame cfg)))
        (p ++ x :: audio) ltac:(lia) ltac:(lia)) as Hr.
      destruct (split_frames _ _ _) as [fs r]. destruct (seg_run cfg fs (d, u)) as [[d1 u1] cs1] eqn:E.
      injection Hst as <- <-. apply seg_run_inv in E as [Hi Hc]; [|done].
      split; [split; [done|]|done]. cbn in *. unfold len. lia.
  - unfold seg_finish in Hst. cbn [seg_state seg_pending] in Hst.
    assert (Htail : forall d1 u1 cs1 g2 cs2, utterance_inv u1 ->
        chrono (seg_floor u) cs1 (seg_floor u1) ->
        (if u_active u1 && negb (len (u_window u1) =? 0)
         then let '(u2, cs3) := seg_close u1 in (mkSeg [] (d1, u2), cs1 ++ cs3)
         else (mkSeg [] (d1, u1), cs1)) = (g2, cs2) ->
        segmentation_inv g2 /\ chrono (seg_floor u) cs2 (seg_floor (seg_state g2).2)).
    { intros d1 u1 cs1 g2 cs2 Hi Hc.
      destruct (u_active u1 && _) eqn:Eb; cbn; intros [= <- <-].
      2: { split; [split; [exact Hi | cbn; intros Hlt; exact Hlt] | exact Hc]. }
      apply andb_true_iff in Eb as [Ea _]. unfold utterance_inv, seg_floor in *. rewrite Ea in *. cbn.
      split; [split; cbn; [done | intros Hlt; exact Hlt]|]. destruct Hi as (H1 & H2 & _).
      eapply chrono_app; [exact Hc|]. apply (chrono_mono _ (u_end u1)); [lia|].
      exact (seg_commit_chrono u1 (proj1 H1) H2). }
    destruct p as [|y p]; [eapply (Htail d u []); [done|cbn; lia|exact Hst]|].
    destruct (seg_frame cfg (y :: p) (d, u)) as [[d1 u1] cs1] eqn:E.
    apply Hfin in E as [Hi Hc]. eapply Htail; [exact Hi|exact Hc|exact Hst].
  - injection Hst as <- <-. cbn. repeat split; try done.
  - injection Hst as <- <-. cbn. repeat split; try done.
Qed.

Lemma seg_actions_inv acts g g' cs :
  seg_actions cfg acts g = (g', cs) -> segmentation_inv g ->
  segmentation_inv g' /\ chrono (seg_floor (seg_state g).2) cs (seg_floor (seg_state g').2).
Proof.
  revert g cs. induction acts as [|a acts IH]; intros g cs; cbn [seg_actions].
  - intros [= <- <-] Hg. split; [done|]. cbn. lia.
  - destruct (seg_step cfg g a) as [g1 cs1] eqn:E1.
    destruct (seg_actions cfg acts g1) as [g2 cs2] eqn:E2. intros [= <- <-] Hg.
    apply seg_step_inv in E1 as [Hi1 Hc1]; [|done]. apply IH in E2 as [Hi2 Hc2]; [|done].
    split; [done|]. by eapply chrono_app.
Qed.

Lemma new_seg_inv (v : V) : segmentation_inv (new_seg v).
Proof. split; cbn; [done|]. intros Hlt; exact Hlt. Qed.

End Chronology.

(** ** The order of callbacks *)

Section Callbacks.
Context {V : Type} `{VAD V}.
Variable cfg : StreamingConfig.
Abbreviation session := (StreamingSession V).

(** What the session's callbacks have seen last: no transcription running, one
    running on a job, or one that has returned and may still be emitted. *)
Inductive phase :=
| Idle
| Busy (final : bool) (job : pendingCommit)
| Returned (final : bool) (job : pendingCommit).

(** The result of a job: its own position in the stream and a non-empty text. *)
Definition segment_of_job (final : bool) (job : pendingCommit) (seg : StreamingSegment) : Prop :=
  StartMS seg = samplesToMS cfg (start job) /\ EndMS seg = samplesToMS cfg (end_ job) /\
  Final seg = final /\ Text seg <> ""%string.

Inductive callback : phase -> event -> phase -> Prop :=
| cb_launch_idle final job : callback Idle (EvTranscribe final job) (Busy final job)
| cb_launch_returned final job f j : callback (Returned f j) (EvTranscribe final job) (Busy final job)
| cb_return final job : callback (Busy final job) EvReturn (Returned final job)
| cb_emit final job seg : segment_of_job final job seg ->
    callback (Returned final job) (EvEmit (Some seg) None) Idle
| cb_error final job e : callback (Returned final job) (EvEmit None (Some e)) Idle
| cb_evict p job : callback p (EvEvict job) p.

Inductive callbacks : phase -> list event -> phase -> Prop :=
| cbs_nil p : callbacks p [] p
| cbs_cons p1 e p2 es p3 : callback p1 e p2 -> callbacks p2 es p3 -> callbacks p1 (e :: es) p3.

Lemma callbacks_app p1 es p2 es' p3 :
  callbacks p1 es p2 -> callbacks p2 es' p3 -> callbacks p1 (es ++ es') p3.
Proof. induction 1; cbn; eauto using callbacks. Qed.

Lemma callbacks_snoc p1 es p2 e p3 :
  callbacks p1 es p2 -> callback p2 e p3 -> callbacks p1 (es ++ [e]) p3.
Proof. intros Hes He. eapply callbacks_app; eauto using callbacks. Qed.

(** The phase agrees with the goroutine's state. *)
Definition phase_matches (p : phase) (w : option worker_state) : Prop :=
  match p, w with
  | Busy f j, Some (Transcribing f' j') => f = f' /\ j = j'
  | Busy _ _, _ => False
  | _, Some (Transcribing _ _) => False
  | _, _ => True
  end.

Definition callbacks_inv (s : session) : Prop :=
  exists p, callbacks Idle (events s) p /\ phase_matches p (worker s).

Definition session_inv (s : session) : Prop := queue_inv s /\ callbacks_inv s.

Lemma start_callbacks final s : session_inv s -> session_inv (startTranscriptionLocked final s).
Proof.
  intros [Hq (p & Hp & Hm)]. split; [by apply startTranscription_submits|].
  destruct Hq as (Hf & Hi & _).
  unfold startTranscriptionLocked. destruct (_ =? 0); [by exists p|].
  destruct (transcriptionInFlight s).
  - destruct final; [|by exists p]. unfold queueCommitLocked.
    destruct (_ <=? _)%nat; [|by exists p].
    destruct (pendingCommits s); [by exists p|]. exists p. split; [|done].
    eapply callbacks_snoc; [exact Hp | constructor].
  - eexists. split; [eapply callbacks_snoc; [exact Hp|]|].
    + destruct p; cbn in Hm; [constructor | by destruct (worker s) as [[]|] | constructor].
    + by cbn.
Qed.

(** Functions that leave the concurrency fields alone preserve the invariant,
    by conversion; the others start transcriptions. *)
Lemma append_callbacks frame s : session_inv s -> session_inv (appendSpeechLocked cfg frame s).
Proof.
  intros Hs. unfold appendSpeechLocked.
  set (s1 := set_window _ _). assert (Hs1 : session_inv s1) by exact Hs.
  assert (Hs2 : session_inv (boundWindow cfg s1)).
  { unfold boundWindow. destruct (_ <=? _); [done|]. exact (start_callbacks true s1 Hs1). }
  destruct (_ <=? _); [|done]. exact (start_callbacks false (set_speechSincePartial 0 (boundWindow cfg s1)) Hs2).
Qed.

Lemma classify_callbacks frame s : session_inv s -> session_inv (classifyLocked cfg frame s).
Proof.
  intros Hs. unfold classifyLocked. destruct (IsSpeech (detector s) frame) as [b d].
  destruct b.
  - apply append_callbacks. by destruct (negb _).
  - destruct (negb _); [exact Hs|]. destruct (_ <=? _); [by apply append_callbacks|].
    destruct (_ <=? _); [|exact Hs].
    match goal with |- session_inv (resetUtteranceLocked (startTranscriptionLocked true ?x)) =>
      exact (start_callbacks true x Hs) end.
Qed.

Lemma feed_loop_callbacks fuel subframe s : session_inv s -> session_inv (feed_loop cfg fuel subframe s).
Proof.
  revert s. induction fuel as [|fuel IH]; intros s Hs; cbn [feed_loop]; [done|].
  destruct (_ <=? _)%nat; [|done]. apply IH. exact (classify_callbacks (take subframe (pending s)) s Hs).
Qed.

Lemma session_step_callbacks s a s' :
  session_inv s -> session_step cfg s a = Some s' -> session_inv s'.
Proof.
  intros Hs Hst. destruct Hs as [Hq Hcb].
  pose proof (session_step_refines cfg s a s' Hq Hst) as [Hq' _].
  destruct a as [audio| |res|]; cbn [session_step] in Hst.
  - injection Hst as <-. unfold Feed. destruct audio; [done|].
    destruct (_ <=? 0); [by apply classify_callbacks | by apply feed_loop_callbacks].
  - injection Hst as <-. unfold Finish. set (s1 := match pending s with [] => s | _ => _ end).
    assert (Hs1 : session_inv s1)
      by (unfold s1; destruct (pending s) as [|x p]; [done | by apply (classify_callbacks (x :: p) (set_pending [] s))]).
    destruct (_ && _); [exact (start_callbacks true s1 Hs1) | exact Hs1].
  - split; [done|]. unfold transcribe_returns in Hst. destruct Hcb as (p & Hp & Hm).
    destruct (worker s) as [[final job|]|]; [|done|done]. injection Hst as <-.
    destruct p; [done| |done]. destruct Hm as [-> ->].
    assert (Hr : callbacks Idle (events s ++ [EvReturn]) (Returned final job))
      by (eapply callbacks_snoc; [exact Hp | constructor]).
    destruct res as [text|e]; [destruct (_ =? _)%string eqn:Et|].
    + by exists (Returned final job).
    + exists Idle. split; [|done]. eapply callbacks_snoc; [exact Hr|]. constructor.
      by apply String.eqb_neq in Et.
    + exists Idle. split; [|done]. eapply callbacks_snoc; [exact Hr|]. constructor.
  - split; [done|]. unfold handoff in Hst. destruct Hcb as (p & Hp & Hm).
    destruct (worker s) as [[|]|]; [done| |done]. unfold dequeueCommitLocked in Hst. cbn in Hst.
    destruct (pendingCommits s) as [|next rest]; injection Hst as <-.
    + exists p. by destruct p.
    + exists (Busy true next). split; [|done]. eapply callbacks_snoc; [exact Hp|].
      destruct p; [constructor | done | constructor].
Qed.

Lemma session_reachable_inv v acts s :
  run (session_step cfg) (new_session v) acts = Some s -> session_inv s.
Proof.
  apply run_invariant; [exact session_step_callbacks|].
  split; [apply new_session_inv|]. exists Idle. by split; [constructor|].
Qed.

(** ** Emitted segments *)

Definition emitted_finals (evs : list event) : list StreamingSegment :=
  omap (fun e => match e with
                 | EvEmit (Some seg) None => if Final seg then Some seg else None
                 | _ => None
                 end) evs.

Definition phase_finals (p : phase) : list pendingCommit :=
  match p with Busy true j | Returned true j => [j] | _ => [] end.

(** Every emitted final segment is the result of a launched final job, and the
    emissions keep the order of the launches. *)
Lemma callbacks_emitted p es p' :
  callbacks p es p' ->
  exists js, js `sublist_of` phase_finals p ++ launched_finals es /\
    Forall2 (segment_of_job true) js (emitted_finals es).
Proof.
  induction 1 as [p|p1 e p2 es p3 Hcb _ (js & Hs & Hf)]; [exists []; split; [by apply sublist_nil_l|done]|].
  destruct Hcb as [f j|f j f' j'|f j|f j seg Hseg|f j err|p j]; cbn [phase_finals] in Hs.
  - exists js. split; [|exact Hf]. by destruct f.
  - exists js. split; [|exact Hf]. transitivity (launched_finals (EvTranscribe f j :: es)).
    + by destruct f.
    + destruct f'; cbn [phase_finals app]; [by apply sublist_cons | done].
  - by exists js.
  - unfold emitted_finals; cbn. fold (emitted_finals es). pose proof Hseg as (_ & _ & -> & _).
    destruct f; cbn in *; [|by exists js].
    exists (j :: js). split; [by apply sublist_skip | by constructor].
  - exists js. split; [|exact Hf]. destruct f; cbn; [by apply sublist_cons | done].
  - by exists js.
Qed.

End Callbacks.

(** ** Bounds *)

Section Bounds.
Context {V : Type} `{VAD V}.
Variable cfg : StreamingConfig.
Abbreviation maxSamples := (session_durationSamples cfg (MaxWindow cfg)).
Abbreviation subframe := (session_durationSamples cfg (VADFrame cfg)).
Hypothesis Hmax : 0 <= maxSamples.

Definition small_commits (cs : list pendingCommit) : Prop :=
  Forall (fun c => len (samples c) <= maxSamples + subframe) cs.

Lemma seg_commit_small u :
  len (u_window u) <= maxSamples + subframe -> small_commits (seg_commit u).
Proof. unfold seg_commit. destruct (u_window u); intros; repeat constructor. done. Qed.

Lemma seg_append_small frame u u' cs :
  seg_append cfg frame u = (u', cs) -> len (u_window u) <= maxSamples -> len frame <= subframe ->
  small_commits cs.
Proof.
  unfold seg_append. intros Hap Hw Hf. destruct (_ <=? _); injection Hap as <- <-; [constructor|].
  apply seg_commit_small. cbn. lia_len.
Qed.

Lemma seg_frame_small frame (d : V) u du' cs :
  seg_frame cfg frame (d, u) = (du', cs) -> utterance_inv cfg u -> len frame <= subframe ->
  small_commits cs.
Proof.
  intros Hf Hu Hlen. unfold seg_frame in Hf. destruct (IsSpeech d frame) as [b d1].
  assert (Hw : len (u_window u) <= maxSamples).
  { unfold utterance_inv in Hu. destruct (u_active u); [tauto | by rewrite Hu, len_nil]. }
  pose proof (len_nonneg frame).
  repeat first [ case_inner_in Hf | progress simplify_eq/= ]; try constructor;
    try (by eapply seg_append_small; [eassumption|..]).
  unfold seg_close in *. simplify_eq/=. apply (seg_commit_small u). lia.
Qed.

Lemma seg_run_small fs (d : V) u du' cs :
  seg_run cfg fs (d, u) = (du', cs) -> utterance_inv cfg u ->
  Forall (fun f => len f <= subframe) fs -> small_commits cs.
Proof.
  intros Hr Hu Hfs. revert d u cs Hr Hu. induction Hfs as [|f fs Hf _ IH]; intros d u cs; cbn [seg_run].
  - intros [= _ <-] _. constructor.
  - destruct (seg_frame cfg f (d, u)) as [[d1 u1] cs1] eqn:E1.
    destruct (seg_run cfg fs (d1, u1)) as [du2 cs2] eqn:E2. intros [= <- <-] Hu.
    apply Forall_app. split; [by eapply seg_frame_small|].
    apply seg_frame_inv in E1 as [Hi1 _]; [|done|done]. by eapply IH.
Qed.

Lemma small_commits_sublist cs cs' : cs' `sublist_of` cs -> small_commits cs -> small_commits cs'.
Proof.
  unfold small_commits. rewrite !Forall_forall. intros Hs Hc c Hin. apply Hc.
  by eapply elem_of_sublist.
Qed.

Lemma split_frames_small n k audio :
  Forall (fun f => len f <= Z.of_nat k) (split_frames n k audio).1.
Proof.
  revert audio. induction n as [|n IH]; intros audio; cbn [split_frames]; [constructor|].
  destruct (_ <=? _)%nat; [|constructor]. specialize (IH (drop k audio)).
  destruct (split_frames n k (drop k audio)). constructor; [|done].
  unfold len. rewrite length_take. lia.
Qed.

Lemma seg_step_small g a g' cs :
  0 < subframe -> seg_step cfg g a = (g', cs) -> segmentation_inv cfg g -> small_commits cs.
Proof.
  intros Hsub Hst [Hu Hp]. destruct g as [p [d u]]. cbn [seg_state seg_pending snd] in *.
  destruct a as [audio| |res|]; cbn [seg_step] in Hst; [| |by injection Hst as <- <-; constructor..].
  - unfold seg_feed in Hst. destruct audio as [|x audio]; [by injection Hst as <- <-; constructor|].
    destruct (Z.leb_spec subframe 0); [lia|]. cbn [seg_state seg_pending] in Hst.
    pose proof (split_frames_small (length (p ++ x :: audio)) (Z.to_nat subframe) (p ++ x :: audio)) as Hfs.
    rewrite Z2Nat.id in Hfs by lia.
    destruct (split_frames _ _ _) as [fs r]. destruct (seg_run cfg fs (d, u)) as [du1 cs1] eqn:E.
    injection Hst as <- <-. by eapply seg_run_small.
  - unfold seg_finish in Hst. cbn [seg_state seg_pending] in Hst.
    assert (Htail : forall g1 cs1, small_commits cs1 -> utterance_inv cfg (seg_state g1).2 ->
      (let '(d, u) := seg_state g1 in
       if u_active u && negb (len (u_window u) =? 0)
       then let '(u, cs') := seg_close u in (mkSeg (seg_pending g1) (d, u), cs1 ++ cs')
       else (g1, cs1)) = (g', cs) -> small_commits cs).
    { intros [p1 [d1 u1]] cs1 Hc Hi. cbn [seg_state seg_pending snd] in *.
      destruct (u_active u1) eqn:Ea; [destruct (negb _)|]; cbn; intros [= <- <-]; try done.
      apply Forall_app. split; [done|]. apply seg_commit_small. unfold utterance_inv in Hi.
      rewrite Ea in Hi. pose proof (len_nonneg (u_window u1)). lia. }
    destruct p as [|y p]; [by eapply (Htail (mkSeg [] (d, u)) []); [constructor|..]|].
    destruct (seg_frame cfg (y :: p) (d, u)) as [[d1 u1] cs1] eqn:E.
    apply (Htail (mkSeg [] (d1, u1)) cs1); [| |done].
    + eapply seg_frame_small; [exact E|done|]. specialize (Hp Hsub). lia.
    + by apply seg_frame_inv in E as [Hi _].
Qed.

Lemma seg_actions_small acts g g' cs :
  0 < subframe -> seg_actions cfg acts g = (g', cs) -> segmentation_inv cfg g -> small_commits cs.
Proof.
  intros Hsub. revert g cs. induction acts as [|a acts IH]; intros g cs; cbn [seg_actions].
  - intros [= _ <-] _. constructor.
  - destruct (seg_step cfg g a) as [g1 cs1] eqn:E1.
    destruct (seg_actions cfg acts g1) as [g2 cs2] eqn:E2. intros [= <- <-] Hg.
    apply Forall_app. split; [by eapply seg_step_small|].
    apply seg_step_inv in E1 as [Hi1 _]; [|done|done]. by eapply IH.
Qed.

End Bounds.

(** ** Draining *)

Section Draining.
Context {V : Type} `{VAD V}.
Variable cfg : StreamingConfig.
Abbreviation session := (StreamingSession V).

(** Steps the goroutine still has to take. *)
Definition worker_steps (s : session) : nat :=
  match worker s with
  | None => 0
  | Some HandingOff => 1 + 2 * length (pendingCommits s)
  | Some (Transcribing _ _) => 2 + 2 * length (pendingCommits s)
  end.

Lemma transcribe_returns_evicted res (s s' : session) :
  transcribe_returns cfg res s = Some s' -> evicted s' = evicted s.
Proof.
  unfold transcribe_returns, evicted. destruct (worker s) as [[f j|]|]; [|done|done]. intros [= <-].
  destruct res; [destruct (_ =? _)%string|]; cbn; rewrite !evicted_jobs_app; cbn; by rewrite !app_nil_r.
Qed.

Lemma handoff_evicted (s s' : session) : handoff s = Some s' -> evicted s' = evicted s.
Proof.
  unfold handoff, evicted, dequeueCommitLocked. destruct (worker s) as [[f j|]|]; [done| |done]. cbn.
  destruct (pendingCommits s); intros [= <-]; cbn; [done|]. rewrite evicted_jobs_app. cbn. by rewrite app_nil_r.
Qed.

(** One step of the goroutine. *)
Lemma drain_step transcribe s w :
  queue_inv s -> worker s = Some w ->
  exists s1, match w with
             | Transcribing _ job => transcribe_returns cfg (transcribe (samples job)) s
             | HandingOff => handoff s
             end = Some s1 /\
    (worker_steps s1 < worker_steps s)%nat /\ refines s s1 (seg_of s, []) /\ evicted s1 = evicted s.
Proof.
  intros Hq Hw. destruct w as [f j|].
  - assert (exists s1, transcribe_returns cfg (transcribe (samples j)) s = Some s1) as [s1 E]
      by (unfold transcribe_returns; rewrite Hw; eauto).
    exists s1. split_and!; [done| |by eapply transcribe_returns_refines|by eapply transcribe_returns_evicted].
    unfold worker_steps. rewrite Hw. unfold transcribe_returns in E. rewrite Hw in E. injection E as <-.
    destruct (transcribe (samples j)); [destruct (_ =? _)%string|]; cbn; lia.
  - assert (exists s1, handoff s = Some s1) as [s1 E] by (unfold handoff; rewrite Hw; eauto).
    exists s1. split_and!; [done| |by eapply handoff_refines|by eapply handoff_evicted].
    unfold worker_steps. rewrite Hw. unfold handoff, dequeueCommitLocked in E. rewrite Hw in E. cbn in E.
    destruct (pendingCommits s) as [|c q] eqn:Eq; injection E as <-; cbn; lia.
Qed.

Lemma drain_total fuel transcribe s :
  queue_inv s -> (worker_steps s <= fuel)%nat ->
  exists s', drain cfg fuel transcribe s = Some s' /\ worker s' = None /\
    refines s s' (seg_of s, []) /\ evicted s' = evicted s.
Proof.
  revert s. induction fuel as [|fuel IH]; intros s Hq Hfuel; cbn [drain].
  - destruct (worker s) as [w|] eqn:Hw; [unfold worker_steps in Hfuel; rewrite Hw in Hfuel; destruct w; lia|].
    exists s. split_and!; [done|done| |done]. by split; [|split; [exact (commits_refl s)|]].
  - destruct (worker s) as [w|] eqn:Hw.
    + destruct (drain_step transcribe s w Hq Hw) as (s1 & -> & Hlt & Href & Hev). cbn.
      pose proof Href as (Hq1 & _ & Hg1). cbn in Hg1.
      destruct (IH s1) as (s' & Hd & Hn & Href' & Hev'); [done|lia|].
      exists s'. split_and!; [done|done| |congruence].
      rewrite Hg1 in Href'. exact (refines_trans _ _ _ _ _ _ _ Href Href').
    + exists s. split_and!; [done|done| |done]. by split; [|split; [exact (commits_refl s)|]].
Qed.

End Draining.

(** ** The theorems *)

Section Theorems.
Context {V : Type} `{VAD V}.
Variable cfg : StreamingConfig.
Abbreviation maxSamples := (session_durationSamples cfg (MaxWindow cfg)).
Abbreviation subframe := (session_durationSamples cfg (VADFrame cfg)).

(** C1. Refinement: whatever the interleaving of [Feed], [Finish] and the
    transcription goroutine, the session's audio state is the one the
    sequential segmentation computes, and the final commits it has launched or
    queued are exactly the segmentation's commits, in order, less those
    evicted from the bounded queue; if none was evicted they are all there. *)
Theorem session_implements_segmentation (v : V) acts s :
  run (session_step cfg) (new_session v) acts = Some s ->
  let '(g, cs) := seg_actions cfg acts (new_seg v) in
  seg_of s = g /\
  submitted s `sublist_of` cs /\
  submitted s ++ evicted s ≡ₚ cs /\
  (evicted s = [] -> submitted s = cs).
Proof.
  intros Hrun. apply session_run_refines in Hrun; [|apply new_session_inv].
  change (seg_of (new_session v)) with (new_seg v) in Hrun.
  destruct (seg_actions cfg acts (new_seg v)) as [g cs]. destruct Hrun as (_ & Hc & Hg).
  pose proof Hc as [Hs Hp]. cbn in *. rewrite app_nil_r in Hp. split_and!; try done.
  intros He. exact (commits_exact _ _ _ Hc He).
Qed.

(** C2. Chunking and scheduling do not change the segmentation before a
    session is finished.  Let the detector's frame be positive (at zero each
    call of [Feed] is classified as a whole, so chunks would matter).  Two
    sessions over the same detector that were fed the same audio, cut into
    chunks in any way and interleaved with transcriptions in any way, with no
    [Finish] among the actions, are in the same audio state; and if neither had
    to evict a commit they have submitted the same final segments with the same
    samples and the same positions. *)
Theorem segmentation_independent_of_chunking (v : V) acts1 acts2 s1 s2 :
  0 < subframe ->
  existsb is_finish acts1 = false -> existsb is_finish acts2 = false ->
  fed_audio acts1 = fed_audio acts2 ->
  run (session_step cfg) (new_session v) acts1 = Some s1 ->
  run (session_step cfg) (new_session v) acts2 = Some s2 ->
  seg_of s1 = seg_of s2 /\
  (evicted s1 = [] -> evicted s2 = [] -> submitted s1 = submitted s2).
Proof.
  intros Hsub Hf1 Hf2 Hfed H1 H2.
  apply session_run_refines in H1; [|apply new_session_inv].
  apply session_run_refines in H2; [|apply new_session_inv].
  rewrite (seg_actions_feed cfg _ _ Hsub Hf1) in H1. rewrite (seg_actions_feed cfg _ _ Hsub Hf2), <- Hfed in H2.
  destruct H1 as (_ & Hc1 & Hg1), H2 as (_ & Hc2 & Hg2).
  split; [by rewrite Hg1, Hg2|]. intros E1 E2.
  by rewrite (commits_exact _ _ _ Hc1 E1), (commits_exact _ _ _ Hc2 E2).
Qed.

Lemma reachable_inv (v : V) acts s :
  0 <= maxSamples -> run (session_step cfg) (new_session v) acts = Some s ->
  session_inv cfg s /\ segmentation_inv cfg (seg_of s) /\
  exists cs, seg_actions cfg acts (new_seg v) = (seg_of s, cs) /\ submitted s `sublist_of` cs /\
    chrono 0 cs (seg_floor (utterance_of s)).
Proof.
  intros Hmax Hrun. pose proof (session_reachable_inv cfg v acts s Hrun) as Hinv.
  apply session_implements_segmentation in Hrun.
  destruct (seg_actions cfg acts (new_seg v)) as [g cs] eqn:E. destruct Hrun as (<- & Hs & _).
  apply seg_actions_inv in E as [Hi Hc]; [|done|by apply new_seg_inv].
  split_and!; [apply Hinv..|done|]. exists cs. split_and!; [done|done|exact Hc].
Qed.

(** Callbacks are serialised: in every reachable state the calls to
    [s.transcribe] and [s.emit] alternate as one transcription at a time: a
    transcription starts only when none is running, and a result is emitted
    after its own transcription has returned and before the next one starts,
    with the positions and the [Final] flag of its own job and a non-empty
    text. *)
Theorem callbacks_serialised (v : V) acts s :
  run (session_step cfg) (new_session v) acts = Some s ->
  exists p, callbacks cfg Idle (events s) p /\ phase_matches p (worker s) /\
    (transcriptionInFlight s = true <-> is_Some (worker s)).
Proof.
  intros Hrun. apply session_reachable_inv in Hrun as [(Hf & _) (p & Hp & Hm)].
  exists p. split_and!; [done|done|]. rewrite Hf. destruct (worker s); split; try done; by intros [].
Qed.

Lemma samplesToMS_mono a b :
  0 < SampleRate cfg -> 0 <= a -> a <= b -> b * 1000 <= int64_max ->
  0 <= samplesToMS cfg a <= samplesToMS cfg b.
Proof.
  intros. unfold samplesToMS. rewrite !wrap64_id by (unfold in_int64, int64_min in *; lia).
  split; [apply quot_nonneg; lia | apply quot_le_mono; lia].
Qed.

Lemma ordered_segments js segs lo hi :
  0 < SampleRate cfg -> hi * 1000 <= int64_max -> 0 <= lo ->
  chrono lo js hi -> Forall2 (segment_of_job cfg true) js segs ->
  ForallOrdPairs (fun a b => EndMS a <= StartMS b) segs /\
  Forall (fun a => samplesToMS cfg lo <= StartMS a <= EndMS a) segs.
Proof.
  intros Hr Hhi Hlo Hc Hf. revert lo Hlo Hc.
  induction Hf as [|j seg js segs (Hs & He & _) _ IH]; intros lo Hlo; cbn; [split; constructor|].
  intros (H1 & H2 & H3). pose proof (len_nonneg (samples j)). pose proof (chrono_le _ _ _ H3).
  destruct (IH (end_ j) ltac:(lia) H3) as [Hop Hall].
  pose proof (samplesToMS_mono lo (start j) Hr Hlo H1 ltac:(lia)).
  pose proof (samplesToMS_mono (start j) (end_ j) Hr ltac:(lia) ltac:(lia) ltac:(lia)).
  split; constructor; rewrite ?Hs, ?He; try done; try lia.
  - eapply Forall_impl; [exact Hall|]. cbn. intros x Hx. lia.
  - eapply Forall_impl; [exact Hall|]. cbn. intros x Hx. lia.
Qed.

(** Emitted final segments are in chronological order and never overlap:
    each one ends, in milliseconds, no later than every later one starts, as
    long as the stream's length in samples times 1000 fits 64 bits. *)
Theorem emitted_finals_ordered (v : V) acts s :
  0 <= maxSamples -> 0 < SampleRate cfg -> totalSamples s * 1000 <= int64_max ->
  run (session_step cfg) (new_session v) acts = Some s ->
  ForallOrdPairs (fun a b => EndMS a <= StartMS b) (emitted_finals (events s)) /\
  Forall (fun a => 0 <= StartMS a <= EndMS a) (emitted_finals (events s)).
Proof.
  intros Hmax Hrate Hfit Hrun.
  destruct (reachable_inv v acts s Hmax Hrun) as ([_ (p & Hp & _)] & [Hu _] & cs & _ & Hsub & Hchr).
  destruct (callbacks_emitted cfg _ _ _ Hp) as (js & Hjs & Hf). cbn in Hjs.
  assert (Hc : chrono 0 js (totalSamples s)).
  { apply (chrono_sublist _ cs); [etrans; [exact Hjs|]; etrans; [|exact Hsub]; by apply sublist_inserts_r|].
    eapply chrono_mono; [|exact Hchr]. unfold seg_floor, utterance_of. cbn.
    unfold utterance_inv in Hu. cbn in Hu. destruct (active s); lia. }
  destruct (ordered_segments js _ 0 _ Hrate Hfit ltac:(lia) Hc Hf) as [Ho Ha].
  split; [exact Ho|]. exact Ha.
Qed.

(** Memory: in every reachable state the unclassified remainder is shorter
    than one subframe, the transcription window holds at most [MaxWindow] of
    audio, at most [maxPendingCommits] commits are queued, and none of them is
    longer than [MaxWindow] plus one subframe, however long the talker goes on
    and however slow transcription is. *)
Theorem session_memory_bounded (v : V) acts s :
  0 <= maxSamples -> 0 < subframe ->
  run (session_step cfg) (new_session v) acts = Some s ->
  len (pending s) < subframe /\
  len (window s) <= maxSamples /\
  (length (pendingCommits s) <= maxPendingCommits)%nat /\
  Forall (fun c => len (samples c) <= maxSamples + subframe) (pendingCommits s).
Proof.
  intros Hmax Hsub Hrun.
  destruct (reachable_inv v acts s Hmax Hrun) as ([(_ & _ & Hb) _] & [Hu Hp] & cs & Hcs & Hs & _).
  split_and!; [by apply Hp| |done|].
  - unfold utterance_inv in Hu. cbn in Hu. destruct (active s); [lia|]. rewrite Hu, len_nil. done.
  - apply (small_commits_sublist cfg cs).
    + etrans; [|exact Hs]. by apply sublist_inserts_l.
    + eapply seg_actions_small; [done|done|exact Hcs|by apply new_seg_inv].
Qed.

Lemma seg_finish_flushed (g : segmentation V) g' cs :
  seg_finish cfg g = (g', cs) -> utterance_inv cfg (seg_state g').2 ->
  seg_pending g' = [] /\ u_window (seg_state g').2 = [].
Proof.
  unfold seg_finish. intros Hfin Hu. destruct (seg_pending g) as [|x p] eqn:Ep.
  all: try destruct (seg_frame cfg (x :: p) (seg_state g)) as [[d1 u1] cs1].
  all: try destruct g as [p0 [d1 u1]]; cbn [seg_pending seg_state] in *; subst.
  all: destruct (u_active u1) eqn:Ea; cbn [andb] in Hfin;
    [destruct (Z.eqb_spec (len (u_window u1)) 0) as [Hz|Hz]; cbn in Hfin|];
    injection Hfin as <- <-; cbn in *; split; try done; try by apply len_zero.
  all: unfold utterance_inv in Hu; by rewrite Ea in Hu.
Qed.

(** [Finish] loses nothing and terminates: from any reachable state, after
    the locked part of [Finish] the goroutine runs to its end within six
    steps, whatever the transcriptions answer; then no transcription runs, the
    queue, the window and the unclassified remainder are empty, and every
    commit submitted so far, the trailing utterance included, has been handed
    to [s.transcribe]. *)
Theorem Finish_flushes (v : V) acts s transcribe :
  0 <= maxSamples -> run (session_step cfg) (new_session v) acts = Some s ->
  exists s', drain cfg (2 + 2 * maxPendingCommits) transcribe (Finish cfg s) = Some s' /\
    worker s' = None /\ transcriptionInFlight s' = false /\ pendingCommits s' = [] /\
    pending s' = [] /\ window s' = [] /\
    launched_finals (events s') = submitted (Finish cfg s).
Proof.
  intros Hmax Hrun.
  assert (Hrun' : run (session_step cfg) (new_session v) (acts ++ [ActFinish]) = Some (Finish cfg s))
    by (rewrite run_app, Hrun; done).
  destruct (reachable_inv v _ _ Hmax Hrun') as ([Hq _] & [Hu _] & _).
  destruct (drain_total cfg (2 + 2 * maxPendingCommits) transcribe (Finish cfg s) Hq)
    as (s' & Hd & Hw & (Hq' & Hc & Hg) & Hev).
  { destruct Hq as (_ & _ & Hb). unfold worker_steps. destruct (worker (Finish cfg s)) as [[]|]; lia. }
  assert (Hflush : seg_pending (seg_of (Finish cfg s)) = [] /\ window (Finish cfg s) = []).
  { destruct (session_reachable_inv cfg v acts s Hrun) as [Hqs _].
    destruct (Finish_refines cfg s Hqs) as (_ & _ & Hgf).
    destruct (seg_finish cfg (seg_of s)) as [g' cs] eqn:Ef. cbn in Hgf. subst g'.
    exact (seg_finish_flushed _ _ _ Ef Hu). }
  destruct Hflush as [Hpend Hwin]. destruct Hq' as (Hf & Hi & _). specialize (Hi Hw). rewrite Hw in Hf.
  exists s'. split_and!; try done.
  - transitivity (pending (Finish cfg s)); [exact (f_equal seg_pending Hg)|done].
  - transitivity (window (Finish cfg s)); [exact (f_equal (fun g => u_window (seg_state g).2) Hg)|done].
  - apply commits_exact in Hc; [|done]. rewrite app_nil_r in Hc. rewrite <- Hc. unfold submitted.
    by rewrite Hi, app_nil_r.
Qed.

End Theorems.

(** ** Concrete sessions *)

Module Demo.

(** One sample per millisecond; windows of four samples, subframes of two. *)
Definition cfg : StreamingConfig := {|
  SampleRate := 1000; MaxWindow := 4 * millisecond; PartialInterval := 3 * millisecond;
  SilenceDuration := 2 * millisecond; EnergyThreshold := S754_zero false;
  SilenceHysteresis := 1 * millisecond; VADFrame := 2 * millisecond |}.

Definition hi : float64 := S754_finite false 1 0.
Definition lo : float64 := S754_zero false.

(** A stateful detector: speech needs a loud sample, and the state counts the
    frames seen. *)
#[global] Instance loud : VAD nat := fun n frame =>
  (existsb (fun x => match x with S754_finite _ _ _ => true | _ => false end) frame, S n).

(** A talker interrupted by silence, with a transcription in flight for most
    of the time, and the same audio in other chunks. *)
Definition acts1 : list action :=
  [ActFeed [hi; hi; hi]; ActFeed [hi; hi; hi; hi]; ActReturn (TrError "down"); ActHandoff;
   ActFeed [lo; lo; lo; lo; lo]; ActReturn (TrText " one "); ActHandoff; ActReturn (TrText "two");
   ActHandoff; ActFeed [hi]].

Definition acts2 : list action :=
  [ActFeed [hi]; ActFeed [hi; hi; hi; hi; hi; hi; lo]; ActFeed [lo; lo; lo; lo; hi]].

Definition final (acts : list action) : StreamingSession nat :=
  default (new_session 0%nat) (run (session_step cfg) (new_session 0%nat) acts).

End Demo.

Lemma session_implements_segmentation_witness :
  run (session_step Demo.cfg) (new_session 0%nat) Demo.acts1 = Some (Demo.final Demo.acts1) /\
  let '(g, cs) := seg_actions Demo.cfg Demo.acts1 (new_seg 0%nat) in
  seg_of (Demo.final Demo.acts1) = g /\
  submitted (Demo.final Demo.acts1) `sublist_of` cs /\
  submitted (Demo.final Demo.acts1) ++ evicted (Demo.final Demo.acts1) ≡ₚ cs /\
  (evicted (Demo.final Demo.acts1) = [] -> submitted (Demo.final Demo.acts1) = cs).
Proof.
  split; [vm_compute; reflexivity|].
  apply (session_implements_segmentation Demo.cfg 0%nat Demo.acts1). vm_compute. reflexivity.
Defined.

Lemma segmentation_independent_of_chunking_witness :
  submitted (Demo.final Demo.acts1) <> [] /\
  seg_of (Demo.final Demo.acts1) = seg_of (Demo.final Demo.acts2) /\
  (evicted (Demo.final Demo.acts1) = [] -> evicted (Demo.final Demo.acts2) = [] ->
   submitted (Demo.final Demo.acts1) = submitted (Demo.final Demo.acts2)).
Proof.
  split; [vm_compute; discriminate|].
  apply (segmentation_independent_of_chunking Demo.cfg 0%nat Demo.acts1 Demo.acts2); vm_compute; reflexivity.
Defined.

Lemma callbacks_serialised_witness :
  exists p, callbacks Demo.cfg Idle (events (Demo.final Demo.acts1)) p /\
    phase_matches p (worker (Demo.final Demo.acts1)) /\
    (transcriptionInFlight (Demo.final Demo.acts1) = true <-> is_Some (worker (Demo.final Demo.acts1))).
Proof. apply (callbacks_serialised Demo.cfg 0%nat Demo.acts1). vm_compute. reflexivity. Defined.

Lemma emitted_finals_ordered_witness :
  ForallOrdPairs (fun a b => EndMS a <= StartMS b) (emitted_finals (events (Demo.final Demo.acts1))) /\
  Forall (fun a => 0 <= StartMS a <= EndMS a) (emitted_finals (events (Demo.final Demo.acts1))).
Proof.
  apply (emitted_finals_ordered Demo.cfg 0%nat Demo.acts1);
    try (vm_compute; reflexivity); vm_compute; discriminate.
Defined.

Lemma session_memory_bounded_witness :
  len (pending (Demo.final Demo.acts1)) < 2 /\
  len (window (Demo.final Demo.acts1)) <= 4 /\
  (length (pendingCommits (Demo.final Demo.acts1)) <= maxPendingCommits)%nat /\
  Forall (fun c => len (samples c) <= 4 + 2) (pendingCommits (Demo.final Demo.acts1)).
Proof.
  apply (session_memory_bounded Demo.cfg 0%nat Demo.acts1);
    try (vm_compute; reflexivity); vm_compute; discriminate.
Defined.

Lemma Finish_flushes_witness :
  exists s', drain Demo.cfg 6 (fun _ => TrText "tail") (Finish Demo.cfg (Demo.final Demo.acts1)) = Some s' /\
    worker s' = None /\ transcriptionInFlight s' = false /\ pendingCommits s' = [] /\
    pending s' = [] /\ window s' = [] /\
    launched_finals (events s') = submitted (Finish Demo.cfg (Demo.final Demo.acts1)).
Proof.
  apply (Finish_flushes Demo.cfg 0%nat Demo.acts1);
    try (vm_compute; reflexivity); vm_compute; discriminate.
Defined.
