(* ===== verification/Sql.v ===== *)
(** The store's view of its database, shared by the components of
    [internal/store].

    A table is the list of its rows.  A statement such as
    [UPDATE t SET ... WHERE p] is [update_where], and what a handler does
    inside one transaction is one function on the tables: Postgres makes
    committed transactions atomic, and a rolled-back one leaves the tables as
    they were.  Ids are strings; SQL's [NULL] text column is [None], which the
    Go structs read as the empty string through [COALESCE]. *)

From stdpp Require Import base list strings sets gmap sorting.
From Stdlib Require Import ZArith Lia.
From S2P Require Import GoInt.

(** ** Errors of the store ([internal/store/errors.go], [users.go],
    [folders.go], [tags.go], [transcripts.go], [errors.go]); [UniqueViolation] and
    [DbError] are errors of the database itself. *)

Inductive store_error :=
| ErrNotFound
| ErrInvalidTransition
| ErrForbidden
| ErrDuplicate
| ErrInvalidParent
| ErrGenerationMismatch
| ErrTagNameInvalid
| ErrStreamSuperseded
| ErrBatchTranscriptExists
| ErrIneligible
| ErrInvalidMerge
| UniqueViolation
| ValidationError (msg : string)
| DbError.

#[export] Instance store_error_eq_dec : EqDecision store_error.
Proof. solve_decision. Defined.

(** ** Statements *)

Section Statements.
Context {row : Type}.
Implicit Types (t : list row) (p : row -> bool) (f : row -> row).

(** [UPDATE t SET f WHERE p], and its number of affected rows. *)
Definition update_where p f t : list row := map (fun r => if p r then f r else r) t.

Definition rows_affected p t : nat := length (List.filter p t).

(** [DELETE FROM t WHERE p] *)
Definition delete_where p t : list row := List.filter (fun r => negb (p r)) t.

(** [SELECT * FROM t WHERE p] *)
Definition select_where p t : list row := List.filter p t.

Definition exists_where p t : bool := existsb p t.

(** [SELECT ... ORDER BY] with at most one row: the first row that no other
    row precedes.  [better r b] says that [r] sorts strictly before [b]. *)
Definition pick (better : row -> row -> bool) t : option row :=
  foldr (fun r acc => match acc with
                      | Some b => if better b r then Some b else Some r
                      | None => Some r
                      end) None t.

Lemma length_update_where p f t : length (update_where p f t) = length t.
Proof. apply length_map. Qed.

Lemma update_where_none p f t : rows_affected p t = 0%nat -> update_where p f t = t.
Proof.
  unfold rows_affected, update_where. induction t as [|r t IH]; cbn; [done|].
  destruct (p r); cbn; [done|]. intros H. by rewrite IH.
Qed.

Lemma update_where_unmatched p f t : (forall r, r ∈ t -> p r = false) -> update_where p f t = t.
Proof.
  intros H. unfold update_where. rewrite <- (map_id t) at 2. apply map_ext_in. intros r Hr%list_elem_of_In. by rewrite H.
Qed.

Lemma elem_of_update_where p f t r :
  r ∈ update_where p f t <-> exists r0, r0 ∈ t /\ r = if p r0 then f r0 else r0.
Proof. unfold update_where. rewrite list_elem_of_fmap. naive_solver. Qed.

Lemma elem_of_select_where p t r : r ∈ select_where p t <-> r ∈ t /\ p r = true.
Proof. unfold select_where. rewrite list_elem_of_In, filter_In, list_elem_of_In. done. Qed.

Lemma elem_of_delete_where p t r : r ∈ delete_where p t <-> r ∈ t /\ p r = false.
Proof.
  unfold delete_where. rewrite list_elem_of_In, filter_In, list_elem_of_In, negb_true_iff. done.
Qed.

Lemma exists_where_true p t : exists_where p t = true <-> exists r, r ∈ t /\ p r = true.
Proof. unfold exists_where. rewrite existsb_exists. setoid_rewrite list_elem_of_In. done. Qed.

Lemma exists_where_false p t : exists_where p t = false <-> forall r, r ∈ t -> p r = false.
Proof.
  rewrite <- not_true_iff_false, exists_where_true. split.
  - intros H r Hr. apply not_true_iff_false. eauto.
  - intros H (r & Hr & Hp). rewrite (H r Hr) in Hp. done.
Qed.

Lemma rows_affected_pos p t : (0 < rows_affected p t)%nat <-> exists r, r ∈ t /\ p r = true.
Proof.
  unfold rows_affected. rewrite <- exists_where_true. unfold exists_where.
  induction t as [|r t IH]; cbn; [split; [lia|done]|]. destruct (p r); cbn; [|done]. split; [done|lia].
Qed.

Lemma pick_none better t : pick better t = None <-> t = [].
Proof.
  destruct t as [|r t]; cbn; [done|]. split; [|done].
  destruct (foldr _ None t); [destruct (better _ _)|]; done.
Qed.

Lemma pick_elem better t b : pick better t = Some b -> b ∈ t.
Proof.
  revert b. induction t as [|r t IH]; intros b; cbn; [done|].
  fold (pick better t). destruct (pick better t) as [b'|].
  - destruct (better b' r); intros [= <-]; [right; by apply IH | left].
  - intros [= <-]. left.
Qed.

(** With a transitive and total "sorts before or ties", nothing precedes the
    picked row. *)
Lemma pick_best better t b :
  (forall x y z, better x y = false -> better y z = false -> better x z = false) ->
  (forall x, better x x = false) ->
  (forall x y, better x y = true -> better y x = false) ->
  pick better t = Some b -> forall r, r ∈ t -> better r b = false.
Proof.
  intros Htr Hirr Has. revert b. induction t as [|r t IH]; intros b; cbn; [done|].
  fold (pick better t). destruct (pick better t) as [b'|] eqn:Ep.
  - destruct (better b' r) eqn:Eb; intros [= <-] x [->|Hx]%elem_of_cons.
    + by apply Has.
    + by apply IH.
    + apply Hirr.
    + apply (Htr _ b'); [by apply IH | done].
  - apply pick_none in Ep as ->. intros [= <-] x Hx. apply list_elem_of_singleton in Hx as ->. apply Hirr.
Qed.

End Statements.

(** A statement's rows depend only on what its condition says of the rows
    of the table. *)
Lemma update_where_ext {row} (p q : row -> bool) f t :
  (forall r, r ∈ t -> p r = q r) -> update_where p f t = update_where q f t.
Proof. intros H. unfold update_where. apply map_ext_in. intros r Hr%list_elem_of_In. by rewrite H. Qed.

Lemma delete_where_ext {row} (p q : row -> bool) t : (forall r, r ∈ t -> p r = q r) -> delete_where p t = delete_where q t.
Proof. intros H. unfold delete_where. apply List.filter_ext_in. intros r Hr%list_elem_of_In. by rewrite H. Qed.

Lemma select_where_ext {row} (p q : row -> bool) t : (forall r, r ∈ t -> p r = q r) -> select_where p t = select_where q t.
Proof. intros H. unfold select_where. apply List.filter_ext_in. intros r Hr%list_elem_of_In. by apply H. Qed.

(** ** Keys of rows *)

Lemma NoDup_map_filter {A B} (h : A -> B) p (l : list A) :
  NoDup (map h l) -> NoDup (map h (List.filter p l)).
Proof.
  induction l as [|x l IH]; cbn; [done|]. intros [Hx Hnd]%NoDup_cons.
  destruct (p x); cbn; [|auto]. apply NoDup_cons. split; [|auto].
  rewrite list_elem_of_fmap. intros (y & E & Hy). apply Hx, list_elem_of_fmap. exists y. split; [done|].
  apply list_elem_of_In, filter_In in Hy as [Hy _]. by apply list_elem_of_In.
Qed.

Lemma map_update_where {row A} (h : row -> A) p g t :
  (forall r, h (g r) = h r) -> map h (update_where p g t) = map h t.
Proof. intros Hg. unfold update_where. rewrite map_map. apply map_ext. intros r. by destruct (p r). Qed.

Lemma NoDup_map_delete {row K} (h : row -> K) p t : NoDup (map h t) -> NoDup (map h (delete_where p t)).
Proof. apply NoDup_map_filter. Qed.

(** A row is determined by its key. *)
Lemma key_unique {row K} (h : row -> K) t a b : NoDup (map h t) -> a ∈ t -> b ∈ t -> h a = h b -> a = b.
Proof.
  induction t as [|r t IH]; cbn; [by intros _ ?%elem_of_nil|]. intros [Hr Hnd]%NoDup_cons.
  intros [->|Ha]%elem_of_cons [->|Hb]%elem_of_cons E; auto; destruct Hr; [rewrite E|rewrite <- E];
    apply list_elem_of_fmap; eauto.
Qed.

Lemma NoDup_snoc {K} (l : list K) k : NoDup l -> k ∉ l -> NoDup (l ++ [k]).
Proof.
  intros Hl Hk. apply NoDup_app. split; [done|]. split; [|apply NoDup_singleton].
  by intros x Hx ->%list_elem_of_singleton.
Qed.

(** At most one row matches a condition that fixes the key. *)
Lemma select_key {row K} (h : row -> K) (q : row -> bool) t r :
  NoDup (map h t) -> r ∈ t -> q r = true -> (forall x, x ∈ t -> q x = true -> h x = h r) ->
  select_where q t = [r].
Proof.
  intros Hnd Hr Hq Hk. induction t as [|x t IH]; [by apply elem_of_nil in Hr|].
  cbn in Hnd |- *. apply NoDup_cons in Hnd as [Hx Hnd].
  assert (Hother : forall y, y ∈ t -> h y <> h x) by (intros y Hy E; apply Hx, list_elem_of_fmap; eauto).
  apply elem_of_cons in Hr as [<-|Hr].
  - rewrite Hq. f_equal. destruct (select_where q t) as [|y l] eqn:E; unfold select_where in E; rewrite E; [done|].
    assert (Hy : y ∈ select_where q t) by (unfold select_where; rewrite E; left).
    apply elem_of_select_where in Hy as [Hy Hqy]. destruct (Hother y Hy). apply Hk; [by right|done].
  - destruct (q x) eqn:Eq; [|by apply IH; [..|intros y Hy; apply Hk; by right]].
    destruct (Hother r Hr). symmetry. apply Hk; [left|done].
Qed.

Lemma select_app {row} (q : row -> bool) t u : select_where q (t ++ u) = select_where q t ++ select_where q u.
Proof. apply List.filter_app. Qed.

Lemma select_delete {row} (p q : row -> bool) t :
  (forall r, r ∈ t -> q r = true -> p r = false) -> select_where q (delete_where p t) = select_where q t.
Proof.
  unfold select_where, delete_where. induction t as [|r t IH]; intros H; cbn; [done|].
  assert (Ht : List.filter q (List.filter (fun r => negb (p r)) t) = List.filter q t)
    by (apply IH; intros x Hx; apply H; by right).
  destruct (q r) eqn:Eq; [|destruct (negb (p r)); cbn; by rewrite ?Eq].
  rewrite (H r) by (done || left). cbn. by rewrite Eq, Ht.
Qed.

(** Updating rows that are deleted next leaves no trace. *)
Lemma delete_update {row} (p c : row -> bool) g t :
  (forall r, p (g r) = p r) -> (forall r, r ∈ t -> c r = true -> p r = true) ->
  delete_where p (update_where c g t) = delete_where p t.
Proof.
  intros Hg. unfold delete_where, update_where. induction t as [|r t IH]; intros H; cbn; [done|].
  rewrite IH by (intros x Hx; apply H; by right). destruct (c r) eqn:Ec; [|done].
  rewrite Hg, (H r) by (done || left). done.
Qed.

Lemma exists_update {row} (p c : row -> bool) g t :
  (forall r, p (g r) = p r) -> exists_where p (update_where c g t) = exists_where p t.
Proof.
  intros Hg. unfold exists_where, update_where. induction t as [|r t IH]; cbn; [done|]. rewrite IH.
  destruct (c r); by rewrite ?Hg.
Qed.

Lemma rows_affected_delete {row} (p q : row -> bool) t : (rows_affected p (delete_where q t) <= rows_affected p t)%nat.
Proof.
  unfold rows_affected, delete_where. induction t as [|r t IH]; cbn; [lia|].
  destruct (q r), (p r) eqn:E; cbn; rewrite ?E; cbn; lia.
Qed.

Lemma rows_affected_snoc {row} (p : row -> bool) t r :
  rows_affected p (t ++ [r]) = (rows_affected p t + if p r then 1 else 0)%nat.
Proof. unfold rows_affected. rewrite List.filter_app, length_app. cbn. by destruct (p r). Qed.

Lemma select_none {row} (q : row -> bool) t : (forall r, r ∈ t -> q r = false) -> select_where q t = [].
Proof.
  intros H. destruct (select_where q t) as [|r l] eqn:E; [done|].
  assert (Hr : r ∈ select_where q t) by (rewrite E; left). apply elem_of_select_where in Hr as [Hr Hq].
  by rewrite H in Hq.
Qed.

(** ** [ORDER BY] *)

Section Order.
Context {row : Type}.
Variable before : row -> row -> bool.

Fixpoint insert_sorted (r : row) (t : list row) : list row :=
  match t with
  | [] => [r]
  | x :: rest => if before x r then x :: insert_sorted r rest else r :: t
  end.

(** Rows that tie keep some order, which Postgres leaves unspecified; here the
    order of the table. *)
Fixpoint order_by (t : list row) : list row :=
  match t with
  | [] => []
  | r :: rest => insert_sorted r (order_by rest)
  end.

Lemma insert_sorted_perm r t : insert_sorted r t ≡ₚ r :: t.
Proof.
  induction t as [|x t IH]; cbn; [done|]. destruct (before x r); [|done]. rewrite IH. constructor.
Qed.

Lemma order_by_perm t : order_by t ≡ₚ t.
Proof. induction t as [|r t IH]; cbn; [done|]. by rewrite insert_sorted_perm, IH. Qed.

Lemma elem_of_order_by r t : r ∈ order_by t <-> r ∈ t.
Proof. by rewrite order_by_perm. Qed.

(** Ordering rows by a column without ties gives the sorted list. *)
Section Keyed.
Variable key : row -> Z.
Let lt_key (a b : row) : Prop := (key a < key b)%Z.

Lemma insert_sorted_sorted r t :
  (forall x, x ∈ t -> key x <> key r /\ before x r = (key x <? key r)%Z) ->
  StronglySorted lt_key t -> StronglySorted lt_key (insert_sorted r t).
Proof.
  intros Hr. induction 1 as [|x t Hs IH Hx]; cbn; [repeat constructor|].
  destruct (Hr x) as [Hne ->]; [left|]. destruct (Z.ltb_spec (key x) (key r)).
  - constructor; [apply IH; intros y Hy; apply Hr; by right|].
    rewrite insert_sorted_perm. by constructor.
  - constructor; [by constructor|]. rewrite Forall_forall in *. intros y [->|Hy]%elem_of_cons; unfold lt_key in *; [lia|].
    specialize (Hx y Hy). lia.
Qed.

Lemma order_by_sorted t :
  NoDup (map key t) ->
  (forall a b, a ∈ t -> b ∈ t -> key a <> key b -> before a b = (key a <? key b)%Z) ->
  StronglySorted lt_key (order_by t).
Proof.
  induction t as [|r t IH]; cbn; [constructor|]. intros [Hr Hnd]%NoDup_cons Hb.
  apply insert_sorted_sorted; [|apply IH; [done|]; intros a b Ha Hb'; apply Hb; by right].
  intros x Hx. rewrite elem_of_order_by in Hx.
  assert (Hne : key x <> key r) by (intros E; apply Hr, list_elem_of_fmap; eauto).
  split; [done|]. apply Hb; [by right|left|done].
Qed.

(** With ties: no row precedes an earlier one. *)
Let le_key (a b : row) : Prop := (key a <= key b)%Z.

Lemma order_by_le t : (forall a b, before a b = (key a <? key b)%Z) -> StronglySorted le_key (order_by t).
Proof.
  intros Hb. induction t as [|r t IH]; cbn; [constructor|].
  induction IH as [|x l Hs IH Hx]; cbn; [repeat constructor|]. rewrite Hb. destruct (Z.ltb_spec (key x) (key r)).
  - constructor; [done|]. rewrite insert_sorted_perm. constructor; [unfold le_key; lia|done].
  - constructor; [by constructor|]. constructor; [unfold le_key; lia|].
    eapply Forall_impl; [exact Hx|]. intros y Hy. unfold le_key in *. lia.
Qed.
End Keyed.

End Order.

(** ** Positions: rewriting an order as [0, 1, 2, ...] *)

Fixpoint index_in (s : string) (l : list string) : option nat :=
  match l with
  | [] => None
  | x :: rest => if (x =? s)%string then Some 0%nat else S <$> index_in s rest
  end.

Lemma index_in_some s l : s ∈ l <-> is_Some (index_in s l).
Proof.
  induction l as [|x l IH]; cbn; [by rewrite elem_of_nil, is_Some_alt|]. rewrite elem_of_cons, IH.
  destruct (String.eqb_spec x s) as [->|Hne]; [naive_solver|]. rewrite fmap_is_Some. naive_solver.
Qed.

Definition index_lt (l : list string) (a b : string) : Prop :=
  exists i j, index_in a l = Some i /\ index_in b l = Some j /\ (i < j)%nat.

Lemma index_sorted l : NoDup l -> StronglySorted (index_lt l) l.
Proof.
  induction l as [|x l IH]; [constructor|]. intros [Hx Hnd]%NoDup_cons. constructor.
  - assert (H : forall k, StronglySorted (index_lt l) k -> (forall y, y ∈ k -> y ∈ l) ->
      StronglySorted (index_lt (x :: l)) k); [|by apply H; [apply IH|]].
    induction 1 as [|y k Hk IHk Hy]; intros Hin; [constructor|].
    constructor; [apply IHk; intros z Hz; apply Hin; by right|].
    rewrite Forall_forall in *. intros z Hz. destruct (Hy z Hz) as (i & j & Hi & Hj & Hij).
    assert (y ∈ l) by (apply Hin; left). assert (z ∈ l) by (apply Hin; by right).
    exists (S i), (S j). cbn. destruct (String.eqb_spec x y), (String.eqb_spec x z); subst; try done.
    rewrite Hi, Hj. split_and!; [done..|lia].
  - rewrite Forall_forall. intros y Hy. assert (Hy' := Hy). apply index_in_some in Hy' as [j Hj].
    exists 0%nat, (S j). cbn. rewrite String.eqb_refl. destruct (String.eqb_spec x y); subst; [done|].
    rewrite Hj. split_and!; [done..|lia].
Qed.

#[export] Instance index_lt_antisym l : AntiSymm (=) (index_lt l).
Proof. intros a b (i & j & Hi & Hj & ?) (i' & j' & Hi' & Hj' & ?). simplify_eq. lia. Qed.

Lemma foldr_max_ge {A} (g : A -> nat) (l : list A) x :
  x ∈ l -> (g x <= foldr (fun y m => Nat.max (g y) m) 0 l)%nat.
Proof.
  induction l as [|y l IH]; [by intros ?%elem_of_nil|]. cbn.
  intros [->|H%IH]%elem_of_cons; lia.
Qed.

Lemma elem_of_flat_map {A B} (f : A -> list B) (l : list A) x : x ∈ flat_map f l <-> exists r, r ∈ l /\ x ∈ f r.
Proof. rewrite list_elem_of_In, in_flat_map. by setoid_rewrite list_elem_of_In. Qed.

(** ** [WITH RECURSIVE ... UNION ALL] *)

Section Recursive.
Context {row : Type}.

(** The rows joined to one row of the working table. *)
Variable next : row -> list row.

(** The query repeats until a working table is empty; [None] is a query that
    is still running after [fuel] rounds. *)
Fixpoint with_recursive (fuel : nat) (work : list row) : option (list row) :=
  match work with
  | [] => Some []
  | _ => match fuel with
         | O => None
         | S n => rest ← with_recursive n (flat_map next work); Some (work ++ rest)
         end
  end.

Definition joined (a b : row) : Prop := b ∈ next a.

(** The result holds exactly the rows reachable from the anchor. *)
Lemma with_recursive_spec fuel work out :
  with_recursive fuel work = Some out ->
  forall x, x ∈ out <-> exists r, r ∈ work /\ rtc joined r x.
Proof.
  revert work out. induction fuel as [|n IH]; intros work out; cbn.
  - destruct work; [|done]. intros [= <-] x. split; [by intros ?%elem_of_nil|].
    intros (r & Hr & _). by apply elem_of_nil in Hr.
  - destruct work as [|w ws] eqn:Ew.
    { intros [= <-] x. split; [by intros ?%elem_of_nil|]. intros (r & Hr & _). by apply elem_of_nil in Hr. }
    rewrite <- Ew. destruct (with_recursive n (flat_map next work)) as [rest|] eqn:E; [|done].
    intros [= <-] x. rewrite elem_of_app, (IH _ _ E x). split.
    + intros [Hx|(r & (r0 & Hr0 & Hr)%elem_of_flat_map & Hx)].
      * by exists x.
      * exists r0. split; [done|]. by eapply rtc_l.
    + intros (r & Hr & Hx). apply rtc_inv in Hx as [->|(y & Hy & Hx)]; [by left|].
      right. exists y. split; [|done]. apply elem_of_flat_map. eauto.
Qed.

(** Rounds are paths: a query none of whose paths is as long as the fuel
    finishes. *)
Lemma with_recursive_total fuel work :
  (forall r x, r ∈ work -> ~ nsteps joined fuel r x) ->
  exists out, with_recursive fuel work = Some out.
Proof.
  revert work. induction fuel as [|n IH]; intros work Hno; cbn.
  - destruct work as [|w ws]; [eauto|]. exfalso. apply (Hno w w); [left | constructor].
  - destruct work as [|w ws] eqn:Ew; [eauto|]. rewrite <- Ew in *.
    destruct (IH (flat_map next work)) as [out ->]; [|cbn; eauto].
    intros r x (r0 & Hr0 & Hr)%elem_of_flat_map Hx. apply (Hno r0 x Hr0). by eapply nsteps_l.
Qed.

(** A query with rows that always join to further such rows never ends. *)
Lemma with_recursive_loops (U : row -> Prop) fuel work :
  (forall r, U r -> exists x, x ∈ next r /\ U x) -> (exists r, r ∈ work /\ U r) ->
  with_recursive fuel work = None.
Proof.
  intros HU. revert work. induction fuel as [|n IH]; intros [|w ws] (r & Hr & HUr); cbn;
    try (by apply elem_of_nil in Hr); [done|].
  change (next w ++ flat_map next ws) with (flat_map next (w :: ws)). rewrite IH; [done|].
  destruct (HU r HUr) as (x & Hx & HUx). exists x. split; [|done]. apply elem_of_flat_map. eauto.
Qed.

End Recursive.

(** A path along which a rank strictly decreases visits distinct keys. *)
Lemma nsteps_visits {row K : Type} (R : row -> row -> Prop) (key : row -> K) (rank : K -> nat) n r x :
  (forall a b, R a b -> rank (key b) < rank (key a))%nat ->
  nsteps R n r x ->
  exists ks, length ks = S n /\ NoDup ks /\ (forall k, k ∈ ks -> (rank k <= rank (key r))%nat) /\
    (forall k, k ∈ ks -> exists y, key y = k /\ rtc R r y).
Proof.
  intros HR. induction 1 as [r|n r y x Hry Hyx (ks & Hlen & Hnd & Hle & Hreach)].
  - exists [key r]. split_and!; [done|apply NoDup_singleton| |].
    + by intros k ->%list_elem_of_singleton.
    + intros k ->%list_elem_of_singleton. by exists r.
  - exists (key r :: ks). specialize (HR _ _ Hry). split_and!; [cbn; lia| | |].
    + apply NoDup_cons. split; [|done]. intros Hin%Hle. lia.
    + intros k [->|Hk]%elem_of_cons; [done|]. apply Hle in Hk. lia.
    + intros k [->|Hk]%elem_of_cons; [by exists r|]. apply Hreach in Hk as (z & <- & Hz).
      exists z. split; [done|]. by eapply rtc_l.
Qed.

Lemma nsteps_bound {row K : Type} `{EqDecision K} (R : row -> row -> Prop) (key : row -> K)
    (rank : K -> nat) (keys : list K) n r x :
  (forall a b, R a b -> rank (key b) < rank (key a))%nat ->
  (forall a b, R a b -> key b ∈ keys) -> key r ∈ keys ->
  nsteps R n r x -> (n < length keys)%nat.
Proof.
  intros HR Hin Hr Hn. destruct (nsteps_visits R key rank n r x HR Hn) as (ks & Hlen & Hnd & _ & Hreach).
  enough (length ks <= length keys)%nat by lia.
  apply submseteq_length, NoDup_submseteq; [done|]. intros k (y & <- & Hy)%Hreach.
  apply rtc_inv_r in Hy as [<-|(z & _ & Hz)]; eauto.
Qed.

Lemma index_in_inj l a b i : index_in a l = Some i -> index_in b l = Some i -> a = b.
Proof.
  revert i. induction l as [|x l IH]; cbn; [done|]. intros i.
  destruct (String.eqb_spec x a), (String.eqb_spec x b); subst; try done.
  - intros [= <-]. by destruct (index_in b l).
  - destruct (index_in a l); cbn; intros [= <-]; done.
  - destruct (index_in a l) eqn:Ea, (index_in b l) eqn:Eb; cbn; try done. intros [= <-] [= ->]. eauto.
Qed.
