(* ===== verification/Paging.v ===== *)
(** Keyset pages: [WHERE key > after ORDER BY key LIMIT n] over a key without
    ties, and why walking them visits every row. *)

From stdpp Require Import base list sets strings sorting.
From Stdlib Require Import Sorted NArith Lia.
From S2P Require Import GoInt Sql.

Class StrictTotalOrder {K : Type} (lt : K -> K -> bool) : Prop := {
  sto_irrefl a : lt a a = false;
  sto_trans a b c : lt a b = true -> lt b c = true -> lt a c = true;
  sto_total a b : a <> b -> lt a b = true \/ lt b a = true }.

Section Pages.
Context {row K : Type} (lt : K -> K -> bool) `{Hlt : !StrictTotalOrder lt} (key : row -> K).

Definition key_lt (a b : row) : bool := lt (key a) (key b).

Lemma lt_asym a b : lt a b = true -> lt b a = false.
Proof. intros H. destruct (lt b a) eqn:E; [|done]. pose proof (sto_trans a b a H E) as Haa. by rewrite sto_irrefl in Haa. Qed.

Lemma order_by_keys t : NoDup (map key t) -> StronglySorted (fun a b => key_lt a b = true) (order_by key_lt t).
Proof.
  induction t as [|r t IH]; cbn; [constructor|]. intros [Hr Hnd]%NoDup_cons.
  assert (Hne : forall x, x ∈ order_by key_lt t -> key x <> key r).
  { intros x Hx E. rewrite elem_of_order_by in Hx. apply Hr. rewrite <- E. by apply list_elem_of_fmap_2. }
  specialize (IH Hnd). clear Hr Hnd. induction IH as [|x l Hs IH Hx]; cbn; [repeat constructor|].
  destruct (key_lt x r) eqn:E.
  - constructor; [apply IH; intros y Hy; apply Hne; by right|]. rewrite insert_sorted_perm. by constructor.
  - assert (Hrx : key_lt r x = true).
    { destruct (sto_total (key r) (key x)) as [H|H]; [|done|]; [intros Eq; by eapply Hne; [left|]|].
      unfold key_lt in E. congruence. }
    constructor; [by constructor|]. constructor; [done|]. eapply Forall_impl; [exact Hx|]. intros y Hy.
    unfold key_lt in *. by eapply sto_trans.
Qed.

Definition page (n : nat) (p : row -> bool) (t : list row) : list row := take n (order_by key_lt (select_where p t)).

Lemma elem_of_page n p t r : r ∈ page n p t -> r ∈ t /\ p r = true.
Proof. intros H%(subseteq_take n). by apply elem_of_order_by, elem_of_select_where in H. Qed.

Lemma NoDup_page n p t : NoDup (map key t) -> NoDup (map key (page n p t)).
Proof.
  intros H. unfold page. assert (Ho : NoDup (map key (order_by key_lt (select_where p t)))).
  { rewrite order_by_perm. by apply NoDup_map_filter. }
  rewrite <- (take_drop n (order_by _ _)), map_app in Ho. by apply NoDup_app in Ho as [? _].
Qed.

(** A page that is not full is the last one. *)
Lemma short_page n p t r : (length (page n p t) < n)%nat -> r ∈ t -> p r = true -> r ∈ page n p t.
Proof.
  unfold page. rewrite length_take. intros Hl Hr Hp. rewrite take_ge by lia. by apply elem_of_order_by, elem_of_select_where.
Qed.

(** What a page leaves out comes after its last row. *)
Lemma page_last n p t l r :
  NoDup (map key t) -> last (page n p t) = Some l -> r ∈ t -> p r = true -> r ∈ page n p t \/ lt (key l) (key r) = true.
Proof.
  intros Hnd Hl Hr Hp. unfold page in *. set (o := order_by key_lt (select_where p t)) in *.
  assert (Hs : StronglySorted (fun a b => key_lt a b = true) o) by (apply order_by_keys, NoDup_map_filter, Hnd).
  assert (Ho : r ∈ o) by by apply elem_of_order_by, elem_of_select_where.
  rewrite <- (take_drop n o) in Ho, Hs. apply elem_of_app in Ho as [Ho|Ho]; [by left|right].
  apply last_Some in Hl as (l' & El). rewrite El, <- app_assoc in Hs. clear -Hs Ho.
  induction l' as [|x l' IH]; cbn in Hs; inversion_clear Hs as [|? ? H1 H2]; [|by apply IH].
  rewrite Forall_forall in H2. by apply H2.
Qed.

Lemma page_upto n p t l r :
  NoDup (map key t) -> last (page n p t) = Some l -> r ∈ page n p t -> lt (key l) (key r) = false.
Proof.
  intros Hnd Hl Hr. unfold page in *. set (o := order_by key_lt (select_where p t)) in *.
  assert (Hs : StronglySorted (fun a b => key_lt a b = true) o) by (apply order_by_keys, NoDup_map_filter, Hnd).
  apply last_Some in Hl as (l' & El). rewrite <- (take_drop n o), El in Hs. rewrite El in Hr. clear -Hs Hr Hlt.
  apply elem_of_app in Hr as [Hr| ->%list_elem_of_singleton]; [|apply sto_irrefl].
  induction l' as [|x l' IH]; [by apply elem_of_nil in Hr|]. rewrite <- !app_assoc in Hs. cbn in Hs.
  inversion_clear Hs as [|? ? H1 H2]. apply elem_of_cons in Hr as [->|Hr].
  - apply lt_asym. rewrite Forall_forall in H2. apply H2, elem_of_app. right. left.
  - apply IH; [done|by rewrite <- app_assoc].
Qed.
End Pages.

(** ** Orders *)

(** Byte order of text. *)
Lemma string_compare_refl s : String.compare s s = Eq.
Proof. induction s as [|a s IH]; cbn; [done|]. unfold Ascii.compare. by rewrite N.compare_refl. Qed.

Lemma string_compare_trans s1 s2 s3 : String.compare s1 s2 = Lt -> String.compare s2 s3 = Lt -> String.compare s1 s3 = Lt.
Proof.
  revert s2 s3. induction s1 as [|a s1 IH]; intros [|b s2] [|c s3]; cbn; try done.
  destruct (Ascii.compare a b) eqn:E1, (Ascii.compare b c) eqn:E2; try done; intros H1 H2;
    unfold Ascii.compare in *; rewrite ?N.compare_eq_iff, ?N.compare_lt_iff in *.
  - rewrite E1, E2, N.compare_refl. by eapply IH.
  - rewrite E1, (proj2 (N.compare_lt_iff _ _)) by done. done.
  - rewrite <- E2, (proj2 (N.compare_lt_iff _ _)) by done. done.
  - by rewrite (proj2 (N.compare_lt_iff _ _)) by lia.
Qed.

#[export] Instance string_ltb_order : StrictTotalOrder String.ltb.
Proof.
  split; unfold String.ltb.
  - intros s. by rewrite string_compare_refl.
  - intros s1 s2 s3 H1 H2. destruct (String.compare s1 s2) eqn:E1; [done| |done]. destruct (String.compare s2 s3) eqn:E2; [done| |done].
    by rewrite (string_compare_trans s1 s2 s3).
  - intros s1 s2 Hne. rewrite (String.compare_antisym s2 s1). destruct (String.compare s1 s2) eqn:E; [|auto..].
    by apply String.compare_eq_iff in E.
Qed.

(** The lexicographic order of pairs. *)
Definition pair_lt {A B} `{EqDecision A} (lt1 : A -> A -> bool) (lt2 : B -> B -> bool) (x y : A * B) : bool :=
  if bool_decide (x.1 = y.1) then lt2 x.2 y.2 else lt1 x.1 y.1.

#[export] Instance pair_lt_order {A B} `{EqDecision A} (lt1 : A -> A -> bool) (lt2 : B -> B -> bool) :
  StrictTotalOrder lt1 -> StrictTotalOrder lt2 -> StrictTotalOrder (pair_lt lt1 lt2).
Proof.
  intros O1 O2. split; unfold pair_lt.
  - intros x. rewrite bool_decide_eq_true_2 by done. apply sto_irrefl.
  - intros [a1 b1] [a2 b2] [a3 b3]; cbn. repeat case_bool_decide; subst; try done; try (by intros; eapply sto_trans).
    intros H1' H2'. pose proof (sto_trans _ _ _ H1' H2') as Ha. by rewrite sto_irrefl in Ha.
  - intros [a1 b1] [a2 b2] Hne; cbn. destruct (decide (a1 = a2)) as [->|Hn].
    + rewrite bool_decide_eq_true_2 by done. apply sto_total. congruence.
    + rewrite !bool_decide_eq_false_2 by done. by apply sto_total.
Qed.

Lemma sorted_impl {row} (R R' : row -> row -> Prop) l : (forall a b, R a b -> R' a b) -> StronglySorted R l -> StronglySorted R' l.
Proof. intros H. induction 1 as [|x l _ IH Hx]; constructor; [done|]. eapply Forall_impl; [exact Hx|]. auto. Qed.

(** Sorting by insertion leaves no row before a smaller one. *)
Section Sorting.
Context {row K : Type} (lt : K -> K -> bool) `{Hlt : !StrictTotalOrder lt} (key : row -> K).

Definition no_later (a b : row) : Prop := lt (key b) (key a) = false.


Lemma sto_eq `{EqDecision K} a b : lt a b = false -> lt b a = false -> a = b.
Proof. intros H1 H2. destruct (decide (a = b)) as [|Hne]; [done|]. destruct (sto_total a b Hne); congruence. Qed.

Lemma no_later_trans `{EqDecision K} a b c : no_later a b -> no_later b c -> no_later a c.
Proof.
  unfold no_later. intros H1 H2. destruct (lt (key c) (key a)) eqn:E; [|done].
  destruct (decide (key a = key b)) as [Eq|Hne]; [congruence|]. destruct (sto_total (key a) (key b) Hne) as [H|H]; [|congruence].
  by rewrite (sto_trans _ _ _ E H) in H2.
Qed.

Lemma order_by_no_later `{EqDecision K} t : StronglySorted no_later (order_by (key_lt lt key) t).
Proof.
  induction t as [|r t IH]; cbn; [constructor|]. induction IH as [|x l Hs IH Hx]; cbn; [repeat constructor|].
  destruct (key_lt lt key x r) eqn:E.
  - constructor; [done|]. rewrite insert_sorted_perm. constructor; [|done]. unfold no_later. by apply lt_asym.
  - constructor; [by constructor|]. constructor; [done|]. eapply Forall_impl; [exact Hx|]. intros y Hy. by eapply (no_later_trans r x y).
Qed.

(** Rows with different keys have one sorted order. *)
Lemma sorted_unique `{EqDecision K} (l l' : list row) : NoDup (map key l) -> l ≡ₚ l' ->
  StronglySorted no_later l -> StronglySorted no_later l' -> l = l'.
Proof.
  intros Hnd Hp Hl Hl'. apply (StronglySorted_unique_strong no_later); [|done..].
  intros x y Hx Hy H1 H2. apply (key_unique key l); [done|done|by rewrite Hp|]. by apply sto_eq.
Qed.
End Sorting.
