(* ===== verification/Transactions.v ===== *)
(** Transactions of several statements.

    [Tx S A] is a transaction on tables of type [S] that returns an [A]; an
    error abandons it, and [transact] rolls back.  A loop over rows is [tx_each]
    or, where the loop collects whether anything changed, [tx_any].

    [after P m Q]: from tables that satisfy [P], a run of [m] that does not
    fail ends with a value and tables that satisfy [Q].  [keeps R m] is the
    special case of a relation between the tables before and after. *)

From stdpp Require Import base list strings.
From Stdlib Require Import ZArith Lia.
From S2P Require Import GoInt Sql.

Definition Tx (S A : Type) : Type := S -> result store_error (A * S).

Section Monad.
Context {S : Type}.

Definition tx_ret {A} (a : A) : Tx S A := fun d => Ok (a, d).
Definition tx_fail {A} (e : store_error) : Tx S A := fun _ => Err e.
Definition tx_bind {A B} (m : Tx S A) (k : A -> Tx S B) : Tx S B :=
  fun d => match m d with Ok (a, d') => k a d' | Err e => Err e end.
Definition tx_read {A} (f : S -> A) : Tx S A := fun d => Ok (f d, d).
Definition tx_write (f : S -> S) : Tx S unit := fun d => Ok (tt, f d).
Definition tx_run {A} (f : S -> result store_error A * S) : Tx S A :=
  fun d => match f d with (Ok a, d') => Ok (a, d') | (Err e, _) => Err e end.

(** The rows of a query come one by one. *)
Fixpoint tx_each {X} (f : X -> Tx S unit) (l : list X) : Tx S unit :=
  match l with
  | [] => tx_ret tt
  | x :: rest => tx_bind (f x) (fun _ => tx_each f rest)
  end.

Fixpoint tx_any {X} (f : X -> Tx S bool) (l : list X) : Tx S bool :=
  match l with
  | [] => tx_ret false
  | x :: rest => tx_bind (f x) (fun changed => tx_bind (tx_any f rest) (fun more => tx_ret (changed || more)))
  end.

(** Commit, or roll back on an error. *)
Definition transact {A} (m : Tx S A) (d : S) : result store_error A * S :=
  match m d with
  | Ok (a, d') => (Ok a, d')
  | Err e => (Err e, d)
  end.

End Monad.

Declare Scope tx_scope.
Delimit Scope tx_scope with tx.
Notation "'tx!' x := m 'in' k" := (tx_bind m (fun x => k))
  (at level 10, x pattern, m at level 100, k at level 200, only parsing) : tx_scope.

Create HintDb tx discriminated.

(** ** What a transaction that commits does *)

Section Rules.
Context {S : Type}.
Implicit Types (P : S -> Prop).

Definition after {A} P (m : Tx S A) (Q : A -> S -> Prop) : Prop :=
  forall d a d', P d -> m d = Ok (a, d') -> Q a d'.

Lemma after_ret {A} P (a : A) (Q : A -> S -> Prop) : (forall d, P d -> Q a d) -> after P (tx_ret a) Q.
Proof. intros H d a' d' Hd [=]. subst. auto. Qed.

Lemma after_fail {A} P e (Q : A -> S -> Prop) : after P (tx_fail e) Q.
Proof. intros d a d' _ [=]. Qed.

Lemma after_read {A} P (f : S -> A) (Q : A -> S -> Prop) : (forall d, P d -> Q (f d) d) -> after P (tx_read f) Q.
Proof. intros H d a d' Hd [= <- <-]. auto. Qed.

Lemma after_write P (f : S -> S) (Q : unit -> S -> Prop) : (forall d, P d -> Q tt (f d)) -> after P (tx_write f) Q.
Proof. intros H d [] d' Hd [=]. subst. auto. Qed.

Lemma after_run {A} P (f : S -> result store_error A * S) (Q : A -> S -> Prop) :
  (forall d a d', P d -> f d = (Ok a, d') -> Q a d') -> after P (tx_run f) Q.
Proof.
  intros H d a d' Hd. unfold tx_run. destruct (f d) as [[a0|e] d0] eqn:E; [|done]. intros [= <- <-]. eauto.
Qed.

Lemma after_bind {A B} P (m : Tx S A) (k : A -> Tx S B) (Q : A -> S -> Prop) (R : B -> S -> Prop) :
  after P m Q -> (forall a, after (Q a) (k a) R) -> after P (tx_bind m k) R.
Proof.
  intros Hm Hk d b d' Hd. unfold tx_bind. destruct (m d) as [[a d1]|e] eqn:E; [|done]. intros H.
  exact (Hk a d1 b d' (Hm d a d1 Hd E) H).
Qed.

Lemma after_weaken {A} P P' (m : Tx S A) (Q Q' : A -> S -> Prop) :
  after P' m Q' -> (forall d, P d -> P' d) -> (forall a d, Q' a d -> Q a d) -> after P m Q.
Proof. intros H HP HQ d a d' Hd E. eapply HQ, H; eauto. Qed.

Lemma after_each {X} P (f : X -> Tx S unit) l :
  (forall x, x ∈ l -> after P (f x) (fun _ => P)) -> after P (tx_each f l) (fun _ => P).
Proof.
  induction l as [|x l IH]; intros H; cbn; [by apply after_ret|].
  eapply after_bind; [apply H; left|]. intros u. apply IH. intros y Hy. apply H. by right.
Qed.

Lemma after_any {X} P (f : X -> Tx S bool) l :
  (forall x, x ∈ l -> after P (f x) (fun _ => P)) -> after P (tx_any f l) (fun _ => P).
Proof.
  induction l as [|x l IH]; intros H; cbn; [by apply after_ret|].
  eapply after_bind; [apply H; left|]. intros b. eapply after_bind; [apply IH; intros y Hy; apply H; by right|].
  intros b'. by apply after_ret.
Qed.

Lemma tx_bind_ok {A B} (m : Tx S A) (k : A -> Tx S B) d b d' :
  tx_bind m k d = Ok (b, d') <-> exists a d1, m d = Ok (a, d1) /\ k a d1 = Ok (b, d').
Proof. unfold tx_bind. destruct (m d) as [[a d1]|e]; naive_solver. Qed.

(** Iterations that report no change leave the tables alone. *)
Lemma tx_any_unchanged {X} (f : X -> Tx S bool) l d d' :
  (forall x d1 d2, x ∈ l -> f x d1 = Ok (false, d2) -> d2 = d1) -> tx_any f l d = Ok (false, d') -> d' = d.
Proof.
  revert d. induction l as [|x l IH]; intros d Hf; cbn [tx_any]; [by intros [=]|].
  intros (c & d1 & E1 & (c' & d2 & E2 & [= Ec ->])%tx_bind_ok)%tx_bind_ok. destruct c, c'; try done.
  rewrite (IH d1); [by eapply Hf; [left|]|intros; eapply Hf; [by right|done]|done].
Qed.

(** A loop whose iterations each touch one key of a view of the tables: every
    key of the list sees its own iteration, the others see nothing.  An
    iteration may rely on what its key showed before the loop. *)
Section Pointwise.
Context {X K V : Type} (view : S -> K -> V) (key : X -> K) (Inv : S -> Prop) (was : K -> V).
Context (Eff : X -> bool -> V -> Prop) (f : X -> Tx S bool).

Definition touches_own_key (x : X) : Prop := forall d b d',
  Inv d -> view d (key x) = was (key x) -> f x d = Ok (b, d') ->
  Inv d' /\ Eff x b (view d' (key x)) /\ (forall k, k <> key x -> view d' k = view d k).

Lemma tx_any_pointwise l d b d' :
  (forall x, x ∈ l -> touches_own_key x) -> NoDup (map key l) -> Inv d ->
  (forall x, x ∈ l -> view d (key x) = was (key x)) -> tx_any f l d = Ok (b, d') ->
  Inv d' /\ (forall x, x ∈ l -> exists c, Eff x c (view d' (key x)) /\ (c = true -> b = true)) /\
  (forall k, k ∉ map key l -> view d' k = view d k).
Proof.
  revert d b d'. induction l as [|x l IH]; intros d b d' Hf Hnd HI Hw; cbn [tx_any].
  - intros [=]. subst. split; [done|]. split; [by intros x ?%elem_of_nil|done].
  - apply NoDup_cons in Hnd as [Hx Hnd]. unfold tx_bind, tx_ret.
    destruct (f x d) as [[c d1]|e] eqn:E1; [|done].
    destruct (tx_any f l d1) as [[c' d2]|e] eqn:E2; [|done]. intros [=]. subst.
    destruct (Hf x (list_elem_of_here _ _) d c d1 HI (Hw x (list_elem_of_here _ _)) E1) as (HI1 & He & Hfr).
    destruct (IH d1 c' d') as (HI2 & Hall & Hfr2); try done.
    { intros y Hy. apply Hf. by right. }
    { intros y Hy. rewrite Hfr; [apply Hw; by right|]. intros Eq. apply Hx. rewrite <- Eq.
      by apply list_elem_of_fmap_2. }
    split; [done|]. split.
    + intros y [->|Hy]%elem_of_cons.
      * exists c. rewrite Hfr2 by done. split; [done|]. by intros ->.
      * destruct (Hall y Hy) as (c0 & H0 & Hb). exists c0. split; [done|]. intros H. rewrite Hb by done. apply orb_true_r.
    + intros k Hk. cbn [map] in Hk. apply not_elem_of_cons in Hk as [Hk1 Hk2]. by rewrite Hfr2, Hfr.
Qed.
End Pointwise.

Lemma transact_ok {A} (m : Tx S A) d a d' : transact m d = (Ok a, d') <-> m d = Ok (a, d').
Proof. unfold transact. destruct (m d) as [[]|]; naive_solver. Qed.

Lemma transact_err {A} (m : Tx S A) d e d' : transact m d = (Err e, d') -> d' = d.
Proof. unfold transact. destruct (m d) as [[]|]; naive_solver. Qed.

Lemma after_transact {A} P (m : Tx S A) d : after P m (fun _ => P) -> P d -> P (transact m d).2.
Proof. intros H Hd. unfold transact. destruct (m d) as [[a d']|e] eqn:E; cbn; [|done]. exact (H d a d' Hd E). Qed.

End Rules.

(** Relations between the tables before and after. *)
Section Relations.
Context {S : Type} (R : S -> S -> Prop) `{!PreOrder R}.

Definition keeps {A} (m : Tx S A) : Prop := forall d a d', m d = Ok (a, d') -> R d d'.

Lemma keeps_ret {A} (a : A) : keeps (tx_ret a).
Proof. intros d a' d' [=]; subst. reflexivity. Qed.

Lemma keeps_fail {A} e : keeps (A := A) (tx_fail e).
Proof. intros d a d' [=]. Qed.

Lemma keeps_read {A} (f : S -> A) : keeps (tx_read f).
Proof. intros d a d' [=]; subst. reflexivity. Qed.

Lemma keeps_write (f : S -> S) : (forall d, R d (f d)) -> keeps (tx_write f).
Proof. intros H d a d' [=]; subst. auto. Qed.

Lemma keeps_run {A} (f : S -> result store_error A * S) :
  (forall d a d', f d = (Ok a, d') -> R d d') -> keeps (tx_run f).
Proof. intros H d a d'. unfold tx_run. destruct (f d) as [[a0|e] d0] eqn:E; [|done]. intros [= <- <-]. eauto. Qed.

Lemma keeps_bind {A B} (m : Tx S A) (k : A -> Tx S B) : keeps m -> (forall a, keeps (k a)) -> keeps (tx_bind m k).
Proof.
  intros Hm Hk d b d'. unfold tx_bind. destruct (m d) as [[a d1]|e] eqn:E; [|done]. intros H.
  etransitivity; [exact (Hm _ _ _ E)|exact (Hk _ _ _ _ H)].
Qed.

Lemma keeps_each {X} (f : X -> Tx S unit) l : (forall x, keeps (f x)) -> keeps (tx_each f l).
Proof. intros H. induction l as [|x l IH]; cbn; [apply keeps_ret|]. apply keeps_bind; auto. Qed.

Lemma keeps_any {X} (f : X -> Tx S bool) l : (forall x, keeps (f x)) -> keeps (tx_any f l).
Proof.
  intros H. induction l as [|x l IH]; cbn; [apply keeps_ret|]. apply keeps_bind; [auto|]. intros b.
  apply keeps_bind; [auto|]. intros b'. apply keeps_ret.
Qed.

Lemma keeps_transact {A} (m : Tx S A) d : keeps m -> R d (transact m d).2.
Proof. intros H. unfold transact. destruct (m d) as [[a d']|e] eqn:E; cbn; [exact (H _ _ _ E)|reflexivity]. Qed.

End Relations.

#[export] Hint Resolve keeps_ret keeps_fail keeps_read keeps_bind keeps_each keeps_any : tx.
