(* ===== verification/Jobs.v ===== *)
(** The job queue: [internal/store/jobs.go] and the worker that settles its
    jobs ([Processor.Process] in [internal/worker/pipeline.go]).

    [job_row] is a row of the table [jobs], [Job] the Go struct it is scanned
    into.  Times are nanoseconds.  Statements read the database clock [now],
    the process reads its own clock [clock]; nothing relates the two. *)

From stdpp Require Import base list strings sets gmap.
From Stdlib Require Import ZArith Lia.
From S2P Require Import GoInt GoStrings Sql.

Local Open Scope Z_scope.

Definition MaxJobAttempts : Z := 3.
Definition maxRetryBackoff : Z := 30 * second.

Definition JobTranscribe : string := "transcribe".
Definition JobSummarize : string := "summarize".
Definition JobEmbed : string := "embed".
Definition JobPreGenerate : string := "pre_generate".
Definition JobLiveGenerate : string := "live_generate".

Definition JobPending : string := "pending".
Definition JobRunning : string := "running".
Definition JobDone : string := "done".
Definition JobFailed : string := "failed".
Definition JobCancelled : string := "cancelled".

Definition job_types : list string :=
  [JobTranscribe; JobSummarize; JobEmbed; JobPreGenerate; JobLiveGenerate].
Definition job_statuses : list string := [JobPending; JobRunning; JobDone; JobFailed; JobCancelled].

(** [1<<attempts] on a clamped [attempts]. *)
Definition RetryBackoff (attempts : Z) : Z :=
  let attempts := if attempts <? 1 then 1 else if 5 <? attempts then 5 else attempts in
  let backoff := Z.shiftl 1 attempts * second in
  if maxRetryBackoff <? backoff then maxRetryBackoff else backoff.

(** ** Data *)

Record Job := {
  ID : string; NoteID : string; CalendarEventID : string; BriefID : string; BriefGeneration : Z;
  TemplateID : string; StreamID : string; LiveOutputID : string; TargetRevision : option Z;
  Type_ : string; Status : string; Attempts : Z; LastError : string; Priority : Z;
  StartedAt : option Z; FinishedAt : option Z; Payload : string }.

Inductive JobTargetKind := JobTargetNote | JobTargetCalendarEvent.

(** [None] is the error "exactly one of note_id/calendar_event_id must be set". *)
Definition TargetKind (j : Job) : option JobTargetKind :=
  let hasNote := negb (NoteID j =? "")%string in
  let hasEvent := negb (CalendarEventID j =? "")%string in
  if hasNote && negb hasEvent then Some JobTargetNote
  else if hasEvent && negb hasNote then Some JobTargetCalendarEvent
  else None.

Record JobEnqueue := {
  e_NoteID : string; e_CalendarEventID : string; e_BriefID : string; e_BriefGeneration : Z;
  e_TemplateID : string; e_StreamID : string; e_LiveOutputID : string;
  e_Type : string; e_Payload : string }.

Record job_row := mkRow {
  r_id : string; r_note_id : option string; r_calendar_event_id : option string;
  r_brief_id : option string; r_brief_generation : option Z;
  r_template_id : option string; r_stream_id : option string; r_live_output_id : option string;
  r_target_revision : option Z; r_type : string; r_status : string; r_attempts : Z;
  r_last_error : option string; r_priority : Z; r_payload : string;
  r_lease : option Z; r_started : option Z; r_finished : option Z; r_created : Z; r_updated : Z }.

(** The columns an [UPDATE] of this file sets. *)
Definition set_status (st : string) (lease : option Z) (fin : option Z) (now : Z) (r : job_row) : job_row :=
  mkRow (r_id r) (r_note_id r) (r_calendar_event_id r) (r_brief_id r) (r_brief_generation r)
    (r_template_id r) (r_stream_id r) (r_live_output_id r) (r_target_revision r) (r_type r) st
    (r_attempts r) (r_last_error r) (r_priority r) (r_payload r) lease (r_started r) fin (r_created r) now.

Definition set_attempts (n : Z) (started : option Z) (r : job_row) : job_row :=
  mkRow (r_id r) (r_note_id r) (r_calendar_event_id r) (r_brief_id r) (r_brief_generation r)
    (r_template_id r) (r_stream_id r) (r_live_output_id r) (r_target_revision r) (r_type r) (r_status r)
    n (r_last_error r) (r_priority r) (r_payload r) (r_lease r) started (r_finished r) (r_created r) (r_updated r).

Definition set_error (err : option string) (r : job_row) : job_row :=
  mkRow (r_id r) (r_note_id r) (r_calendar_event_id r) (r_brief_id r) (r_brief_generation r)
    (r_template_id r) (r_stream_id r) (r_live_output_id r) (r_target_revision r) (r_type r) (r_status r)
    (r_attempts r) err (r_priority r) (r_payload r) (r_lease r) (r_started r) (r_finished r) (r_created r) (r_updated r).

Definition set_priority (p : Z) (now : Z) (r : job_row) : job_row :=
  mkRow (r_id r) (r_note_id r) (r_calendar_event_id r) (r_brief_id r) (r_brief_generation r)
    (r_template_id r) (r_stream_id r) (r_live_output_id r) (r_target_revision r) (r_type r) (r_status r)
    (r_attempts r) (r_last_error r) p (r_payload r) (r_lease r) (r_started r) (r_finished r) (r_created r) now.

Definition set_payload (p : string) (now : Z) (r : job_row) : job_row :=
  mkRow (r_id r) (r_note_id r) (r_calendar_event_id r) (r_brief_id r) (r_brief_generation r)
    (r_template_id r) (r_stream_id r) (r_live_output_id r) (r_target_revision r) (r_type r) (r_status r)
    (r_attempts r) (r_last_error r) (r_priority r) p (r_lease r) (r_started r) (r_finished r) (r_created r) now.

Definition set_target_revision (v : option Z) (now : Z) (r : job_row) : job_row :=
  mkRow (r_id r) (r_note_id r) (r_calendar_event_id r) (r_brief_id r) (r_brief_generation r)
    (r_template_id r) (r_stream_id r) (r_live_output_id r) v (r_type r) (r_status r)
    (r_attempts r) (r_last_error r) (r_priority r) (r_payload r) (r_lease r) (r_started r) (r_finished r) (r_created r) now.

Abbreviation jobs := (list job_row).

Definition coalesce_str (o : option string) : string := default ""%string o.

(** The [SELECT] list of [ClaimJob] scanned into a [Job]. *)
Definition scan_claim (r : job_row) : Job := {|
  ID := r_id r; NoteID := coalesce_str (r_note_id r);
  CalendarEventID := coalesce_str (r_calendar_event_id r); BriefID := coalesce_str (r_brief_id r);
  BriefGeneration := default 0 (r_brief_generation r);
  TemplateID := coalesce_str (r_template_id r); StreamID := coalesce_str (r_stream_id r);
  LiveOutputID := coalesce_str (r_live_output_id r); TargetRevision := r_target_revision r;
  Type_ := r_type r; Status := r_status r; Attempts := r_attempts r;
  LastError := coalesce_str (r_last_error r); Priority := r_priority r;
  StartedAt := None; FinishedAt := None; Payload := r_payload r |}.

(** The shorter lists of [ListJobs], [getJobTx] and
    [GetLatestFailedJobByNoteID]: the live fields stay zero. *)
Definition scan_job (with_times with_payload : bool) (r : job_row) : Job := {|
  ID := r_id r; NoteID := coalesce_str (r_note_id r);
  CalendarEventID := coalesce_str (r_calendar_event_id r); BriefID := coalesce_str (r_brief_id r);
  BriefGeneration := default 0 (r_brief_generation r);
  TemplateID := ""; StreamID := ""; LiveOutputID := ""; TargetRevision := None;
  Type_ := r_type r; Status := r_status r; Attempts := r_attempts r;
  LastError := coalesce_str (r_last_error r); Priority := r_priority r;
  StartedAt := if with_times then r_started r else None;
  FinishedAt := if with_times then r_finished r else None;
  Payload := if with_payload then r_payload r else "" |}.

(** ** Constraints of the table (the [CHECK]s and partial unique indexes of
    [internal/db/migrations]) *)

Definition is_null {A} (o : option A) : bool := match o with None => true | Some _ => false end.

Definition row_checks (r : job_row) : bool :=
  bool_decide (r_type r ∈ job_types) &&
  xorb (is_null (r_note_id r)) (is_null (r_calendar_event_id r)) &&
  (if (r_type r =? JobPreGenerate)%string then negb (is_null (r_calendar_event_id r))
   else negb (is_null (r_note_id r))) &&
  eqb (is_null (r_brief_id r)) (is_null (r_brief_generation r)) &&
  (negb (r_type r =? JobLiveGenerate)%string ||
   (negb (is_null (r_template_id r)) && negb (is_null (r_stream_id r)) && negb (is_null (r_live_output_id r)))).

Definition active (r : job_row) : bool :=
  (r_status r =? JobPending)%string || (r_status r =? JobRunning)%string.

(** Two rows that one of the unique indexes forbids together. *)
Definition conflicts (r r' : job_row) : bool :=
  active r && active r' &&
  ((negb (is_null (r_brief_id r)) && bool_decide (r_brief_id r = r_brief_id r')
    && bool_decide (r_brief_generation r = r_brief_generation r')) ||
   ((r_type r =? JobLiveGenerate)%string && (r_type r' =? JobLiveGenerate)%string
    && negb (is_null (r_live_output_id r)) && bool_decide (r_live_output_id r = r_live_output_id r'))).

Fixpoint unique_ok (t : jobs) : bool :=
  match t with
  | [] => true
  | r :: rest => negb (existsb (conflicts r) rest) && unique_ok rest
  end.

Definition has_id (id : string) (r : job_row) : bool := (r_id r =? id)%string.

(** ** Operations *)

Definition nullableStr (v : string) : option string := if (v =? "")%string then None else Some v.
Definition nullableInt (v : Z) : option Z := if v <=? 0 then None else Some v.

Section Operations.
(** Whether the rows a new job refers to (note, event, live output) exist. *)
Variable foreign_keys_ok : job_row -> bool.

(** The [INSERT]: constraint violations are errors and leave the table alone. *)
Definition insert_job (r : job_row) (t : jobs) : result store_error unit * jobs :=
  if row_checks r && foreign_keys_ok r && negb (exists_where (has_id (r_id r)) t) && unique_ok (t ++ [r])
  then (Ok tt, t ++ [r])
  else (Err DbError, t).

Definition validate_enqueue (spec : JobEnqueue) : result store_error unit :=
  let hasNote := negb (e_NoteID spec =? "")%string in
  let hasEvent := negb (e_CalendarEventID spec =? "")%string in
  if eqb hasNote hasEvent
  then Err (ValidationError "job must target exactly one of note_id or calendar_event_id")
  else if (e_Type spec =? JobPreGenerate)%string && negb hasEvent
  then Err (ValidationError "pre_generate jobs must target a calendar event")
  else if (e_Type spec =? JobPreGenerate)%string &&
          ((e_BriefID spec =? "")%string || (e_BriefGeneration spec <=? 0))
  then Err (ValidationError "pre_generate jobs must carry a brief id and a positive generation")
  else if negb (e_Type spec =? JobPreGenerate)%string && negb hasNote
  then Err (ValidationError (e_Type spec ++ " jobs must target a note"))
  else if (e_Type spec =? JobLiveGenerate)%string &&
          ((e_TemplateID spec =? "")%string || (e_StreamID spec =? "")%string || (e_LiveOutputID spec =? "")%string)
  then Err (ValidationError "live_generate jobs must carry template_id, stream_id, and live_output_id")
  else Ok tt.

Definition enqueued_row (uuid : string) (now : Z) (spec : JobEnqueue) : job_row :=
  mkRow uuid (nullableStr (e_NoteID spec)) (nullableStr (e_CalendarEventID spec))
    (nullableStr (e_BriefID spec)) (nullableInt (e_BriefGeneration spec))
    (nullableStr (e_TemplateID spec)) (nullableStr (e_StreamID spec)) (nullableStr (e_LiveOutputID spec))
    None (e_Type spec) JobPending 0 None 0
    (if (e_Payload spec =? "")%string then "{}" else e_Payload spec)
    None None None now now.

(** [uuid] is the fresh [uuid.NewString()]. *)
Definition EnqueueJob (uuid : string) (now : Z) (spec : JobEnqueue) (t : jobs)
  : result store_error string * jobs :=
  match validate_enqueue spec with
  | Err e => (Err e, t)
  | Ok _ =>
      match insert_job (enqueued_row uuid now spec) t with
      | (Ok _, t') => (Ok uuid, t')
      | (Err e, t') => (Err e, t')
      end
  end.

Definition EnqueueNoteJob (uuid : string) (now : Z) (noteID jobType payload : string) (t : jobs) :=
  EnqueueJob uuid now {| e_NoteID := noteID; e_CalendarEventID := ""; e_BriefID := ""; e_BriefGeneration := 0;
    e_TemplateID := ""; e_StreamID := ""; e_LiveOutputID := ""; e_Type := jobType; e_Payload := payload |} t.

End Operations.

Definition lease_expired (now : Z) (r : job_row) : bool :=
  match r_lease r with Some e => e <? now | None => false end.

Definition claimable (now : Z) (r : job_row) : bool :=
  ((r_status r =? JobPending)%string && (is_null (r_lease r) || lease_expired now r)) ||
  ((r_status r =? JobRunning)%string && lease_expired now r).

(** [ORDER BY priority DESC, created_at ASC] *)
Definition claim_before (a b : job_row) : bool :=
  (r_priority b <? r_priority a) || ((r_priority a =? r_priority b) && (r_created a <? r_created b)).

Definition claimed_row (now expires : Z) (r : job_row) : job_row :=
  set_attempts (r_attempts r + 1) (Some now) (set_status JobRunning (Some expires) None now r).

(** [locked] are the rows other transactions hold a lock on ([SKIP LOCKED]). *)
Definition ClaimJob (now clock lease : Z) (locked : job_row -> bool) (t : jobs) : option Job * jobs :=
  match pick claim_before (select_where (fun r => claimable now r && negb (locked r)) t) with
  | None => (None, t)
  | Some r =>
      let expires := clock + lease in
      let r' := claimed_row now expires r in
      (Some {| ID := r_id r; NoteID := NoteID (scan_claim r); CalendarEventID := CalendarEventID (scan_claim r);
               BriefID := BriefID (scan_claim r); BriefGeneration := BriefGeneration (scan_claim r);
               TemplateID := TemplateID (scan_claim r); StreamID := StreamID (scan_claim r);
               LiveOutputID := LiveOutputID (scan_claim r); TargetRevision := TargetRevision (scan_claim r);
               Type_ := r_type r; Status := JobRunning; Attempts := r_attempts r';
               LastError := LastError (scan_claim r); Priority := r_priority r;
               StartedAt := r_started r'; FinishedAt := r_finished r'; Payload := r_payload r |},
       update_where (has_id (r_id r)) (claimed_row now expires) t)
  end.

Definition UpdateJobPayload (now : Z) (jobID payload : string) (t : jobs) : result store_error unit * jobs :=
  if (rows_affected (has_id jobID) t =? 0)%nat then (Err ErrNotFound, t)
  else (Ok tt, update_where (has_id jobID) (set_payload payload now) t).

Definition completed_row (now : Z) (r : job_row) : job_row :=
  set_error None (set_status JobDone None (Some now) now r).

Definition CompleteJob (now : Z) (id : string) (t : jobs) : result store_error unit * jobs :=
  if (rows_affected (has_id id) t =? 0)%nat then (Err ErrNotFound, t)
  else (Ok tt, update_where (has_id id) (completed_row now) t).

(** Status and lease that [FailJob] writes for a row with [attempts]. *)
Definition fail_status (clock attempts : Z) (retryable : bool) : string * option Z :=
  if retryable && (attempts <? MaxJobAttempts)
  then (JobPending, Some (clock + RetryBackoff attempts))
  else (JobFailed, None).

Definition failed_row (now : Z) (errMsg : string) (st : string * option Z) (r : job_row) : job_row :=
  set_error (Some errMsg) (set_status st.1 st.2 (Some now) now r).

(** The two statements of [FailJob], each on its own connection of the pool:
    the attempts are read, then the row is written by what was read.  Reviving
    a settled row can violate a unique index; a row gone meanwhile is not an
    error. *)
Definition job_attempts (id : string) (t : jobs) : result store_error Z :=
  match select_where (has_id id) t with
  | [] => Err ErrNotFound
  | r :: _ => Ok (r_attempts r)
  end.

Definition fail_write (now clock : Z) (id errMsg : string) (retryable : bool) (attempts : Z) (t : jobs)
  : result store_error unit * jobs :=
  let t' := update_where (has_id id) (failed_row now errMsg (fail_status clock attempts retryable)) t in
  if unique_ok t' then (Ok tt, t') else (Err DbError, t).

(** Nothing between the two, as for a worker whose lease on the job holds:
    only a claim writes the attempts ([OpFail] of JobsProps.v does not assume
    this). *)
Definition FailJob (now clock : Z) (id errMsg : string) (retryable : bool) (t : jobs)
  : result store_error unit * jobs :=
  match job_attempts id t with
  | Err e => (Err e, t)
  | Ok attempts => fail_write now clock id errMsg retryable attempts t
  end.

Definition is_active_summarize (noteID : string) (r : job_row) : bool :=
  bool_decide (r_note_id r = Some noteID) && (r_type r =? JobSummarize)%string && active r.

Definition CountActiveSummarizeJobs (noteID : string) (t : jobs) : nat :=
  rows_affected (is_active_summarize noteID) t.

Definition pending_of_note (noteID : string) (r : job_row) : bool :=
  bool_decide (r_note_id r = Some noteID) && (r_status r =? JobPending)%string.

(** [COALESCE(MAX(priority), 0) + 1] over the pending rows. *)
Definition bumped_priority (t : jobs) : Z :=
  match map r_priority (select_where (fun r => (r_status r =? JobPending)%string) t) with
  | [] => 0 + 1
  | p :: ps => fold_left Z.max ps p + 1
  end.

Definition BumpNoteJobPriority (now : Z) (noteID : string) (t : jobs) : nat * jobs :=
  (rows_affected (pending_of_note noteID) t,
   update_where (pending_of_note noteID) (set_priority (bumped_priority t) now) t).

Definition pending_with_id (id : string) (r : job_row) : bool :=
  has_id id r && (r_status r =? JobPending)%string.

Definition CancelJob (now : Z) (id : string) (t : jobs) : result store_error unit * jobs :=
  if (rows_affected (pending_with_id id) t =? 0)%nat then (Err ErrInvalidTransition, t)
  else (Ok tt, update_where (pending_with_id id)
                 (fun r => set_status JobCancelled (r_lease r) (r_finished r) now r) t).

Definition ListJobs (status : string) (t : jobs) : list Job :=
  map (scan_job true false)
    (order_by (fun a b => r_updated b <? r_updated a)
      (select_where (fun r => (status =? "")%string || (r_status r =? status)%string) t)).

Definition ListJobsByNoteID (noteID : string) (t : jobs) : list Job :=
  map (scan_job true false)
    (order_by (fun a b => r_created a <? r_created b)
      (select_where (fun r => bool_decide (r_note_id r = Some noteID)) t)).

Definition getJobTx (jobID : string) (t : jobs) : result store_error Job :=
  match select_where (has_id jobID) t with
  | [] => Err ErrNotFound
  | r :: _ => Ok (scan_job true true r)
  end.

Definition GetJob (jobID : string) (t : jobs) : result store_error Job := getJobTx jobID t.

Definition reset_row (now : Z) (r : job_row) : job_row := set_status JobPending None (r_finished r) now r.

Definition is_running (r : job_row) : bool := (r_status r =? JobRunning)%string.

Definition ResetRunningJobs (now : Z) (t : jobs) : nat * jobs :=
  (rows_affected is_running t, update_where is_running (reset_row now) t).

Definition is_expired_running (now : Z) (r : job_row) : bool := is_running r && lease_expired now r.

Definition ResetExpiredRunningJobs (now : Z) (t : jobs) : nat * jobs :=
  (rows_affected (is_expired_running now) t, update_where (is_expired_running now) (reset_row now) t).

(** [GROUP BY status] on top of a map that has every known status at zero. *)
Definition JobStatusCounts (t : jobs) : gmap string nat :=
  foldr (fun r m => partial_alter (fun o => Some (S (default 0%nat o))) (r_status r) m)
    (list_to_map (map (fun s => (s, 0%nat)) job_statuses)) t.

Definition failed_of_note (noteID : string) (r : job_row) : bool :=
  bool_decide (r_note_id r = Some noteID) && (r_status r =? JobFailed)%string.

Definition GetLatestFailedJobByNoteID (noteID : string) (t : jobs) : result store_error Job :=
  match pick (fun a b => r_updated b <? r_updated a) (select_where (failed_of_note noteID) t) with
  | None => Err ErrNotFound
  | Some r => Ok (scan_job false true r)
  end.

(** [SET target_revision = COALESCE(target_revision, $2)] *)
Definition revision_if_null (revision now : Z) (r : job_row) : job_row :=
  set_target_revision (Some (default revision (r_target_revision r))) now r.

Definition SetJobTargetRevisionIfNull (now : Z) (jobID : string) (revision : Z) (t : jobs)
  : result store_error Z * jobs :=
  match select_where (has_id jobID) t with
  | [] => (Err ErrNotFound, t)
  | r :: _ => (Ok (default revision (r_target_revision r)),
               update_where (has_id jobID) (revision_if_null revision now) t)
  end.

(** ** The worker *)

(** What [Process] does at the level of notes once the job row is settled. *)
Inductive note_effect :=
| NoEffect
| TerminalFailure (job : Job) (err : string)
| FinalizeNote (noteID : string).

(** What the job's [run...] method returned: [None] for success, or an error
    and whether it is retryable. *)
Abbreviation run_outcome := (option (string * bool)).

(** [trashed] is the answer of [NoteIsTrashed] (its errors count as false);
    [outcome] that of the method for the job's type. *)
Definition Process (now clock : Z) (trashed : bool) (outcome : run_outcome) (job : Job) (t : jobs)
  : jobs * note_effect :=
  if negb (NoteID job =? "")%string && trashed then
    (snd (CompleteJob now (ID job) t), NoEffect)
  else
    let outcome := if bool_decide (Type_ job ∈ job_types) then outcome
                   else Some (("unknown job type: " ++ Type_ job)%string, false) in
    match outcome with
    | Some (err, retryable) =>
        match FailJob now clock (ID job) err retryable t with
        | (Err _, t') => (t', NoEffect)
        | (Ok _, t') =>
            let terminal := negb retryable || (MaxJobAttempts <=? Attempts job) in
            (t', if terminal then TerminalFailure job err else NoEffect)
        end
    | None =>
        match CompleteJob now (ID job) t with
        | (Err _, t') => (t', NoEffect)
        | (Ok _, t') => (t', if (Type_ job =? JobSummarize)%string then FinalizeNote (NoteID job) else NoEffect)
        end
    end.
