(* ===== verification/JobsProps.v ===== *)
(** Correctness of the job queue: the theorems about [Jobs]. *)

From stdpp Require Import base list strings sets gmap.
From Stdlib Require Import ZArith Lia.
From S2P Require Import GoInt GoStrings Sql Jobs.

Local Open Scope Z_scope.

(** ** Operations as actions, so that histories of the table are lists *)

(** [OpFail] is the write of [FailJob], by attempts it may have read at any
    earlier time. *)
Inductive queue_op :=
| OpEnqueue (uuid : string) (spec : JobEnqueue)
| OpClaim (lease : Z) (locked : job_row -> bool)
| OpPayload (id payload : string)
| OpComplete (id : string)
| OpFail (id errMsg : string) (retryable : bool) (attempts : Z)
| OpBump (noteID : string)
| OpCancel (id : string)
| OpResetRunning
| OpResetExpired
| OpRevision (id : string) (revision : Z).

(** An operation at a database time and a process time. *)
Record timed_op := At { op_now : Z; op_clock : Z; op_of : queue_op }.

Section Props.
Variable foreign_keys_ok : job_row -> bool.

Definition apply_op (o : timed_op) (t : jobs) : jobs :=
  let now := op_now o in
  match op_of o with
  | OpEnqueue uuid spec => snd (EnqueueJob foreign_keys_ok uuid now spec t)
  | OpClaim lease locked => snd (ClaimJob now (op_clock o) lease locked t)
  | OpPayload id p => snd (UpdateJobPayload now id p t)
  | OpComplete id => snd (CompleteJob now id t)
  | OpFail id msg retryable attempts => snd (fail_write now (op_clock o) id msg retryable attempts t)
  | OpBump note => snd (BumpNoteJobPriority now note t)
  | OpCancel id => snd (CancelJob now id t)
  | OpResetRunning => snd (ResetRunningJobs now t)
  | OpResetExpired => snd (ResetExpiredRunningJobs now t)
  | OpRevision id rev => snd (SetJobTargetRevisionIfNull now id rev t)
  end.

Fixpoint apply_ops (os : list timed_op) (t : jobs) : jobs :=
  match os with
  | [] => t
  | o :: rest => apply_ops rest (apply_op o t)
  end.

(** The job an operation hands to a worker. *)
Definition claimed_by (o : timed_op) (t : jobs) : option string :=
  match op_of o with
  | OpClaim lease locked => ID <$> fst (ClaimJob (op_now o) (op_clock o) lease locked t)
  | _ => None
  end.

(** ** The table invariant *)

Record row_inv (r : job_row) : Prop := {
  ri_checks : row_checks r = true;
  ri_attempts : 0 <= r_attempts r;
  ri_status : r_status r ∈ job_statuses;
  ri_running : r_status r = JobRunning -> is_Some (r_lease r);
  ri_settled : r_status r = JobDone \/ r_status r = JobFailed -> r_lease r = None }.

Definition jobs_inv (t : jobs) : Prop :=
  Forall row_inv t /\ NoDup (map r_id t) /\ unique_ok t = true.

(** Rows that differ only in columns no constraint mentions. *)
Definition same_keys (r r' : job_row) : Prop :=
  r_id r' = r_id r /\ r_note_id r' = r_note_id r /\ r_calendar_event_id r' = r_calendar_event_id r /\
  r_brief_id r' = r_brief_id r /\ r_brief_generation r' = r_brief_generation r /\
  r_template_id r' = r_template_id r /\ r_stream_id r' = r_stream_id r /\
  r_live_output_id r' = r_live_output_id r /\ r_type r' = r_type r.

Lemma same_keys_checks r r' : same_keys r r' -> row_checks r' = row_checks r.
Proof. intros (_ & E1 & E2 & E3 & E4 & E5 & E6 & E7 & E8). unfold row_checks. by rewrite E1, E2, E3, E4, E5, E6, E7, E8. Qed.

Lemma same_keys_conflicts r r' s s' :
  same_keys r r' -> same_keys s s' -> (active r' = true -> active r = true) ->
  (active s' = true -> active s = true) -> conflicts r' s' = true -> conflicts r s = true.
Proof.
  intros (_ & _ & _ & E3 & E4 & _ & _ & E7 & E8) (_ & _ & _ & F3 & F4 & _ & _ & F7 & F8) Ha Hb.
  unfold conflicts. rewrite E3, E4, E7, E8, F3, F4, F7, F8.
  intros [[Hr Hs]%andb_true_iff H]%andb_true_iff. by rewrite Ha, Hb, H.
Qed.

Lemma unique_ok_update p f t :
  (forall r, p r = true -> same_keys r (f r) /\ (active (f r) = true -> active r = true)) ->
  unique_ok t = true -> unique_ok (update_where p f t) = true.
Proof.
  intros Hf. set (g := fun r => if p r then f r else r).
  assert (Hg : forall r, same_keys r (g r) /\ (active (g r) = true -> active r = true)).
  { intros r. unfold g. destruct (p r) eqn:E; [by apply Hf|]. by repeat split. }
  change (update_where p f t) with (map g t).
  induction t as [|r t IH]; [done|]. cbn [map unique_ok].
  intros [Hn Hu]%andb_true_iff. rewrite (IH Hu), andb_true_r. apply negb_true_iff in Hn. apply negb_true_iff.
  apply not_true_iff_false. intros (x & Hx & Hc)%existsb_exists.
  apply in_map_iff in Hx as (s & <- & Hs). apply not_true_iff_false in Hn. apply Hn.
  apply existsb_exists. exists s. split; [done|].
  destruct (Hg r), (Hg s). by apply (same_keys_conflicts r (g r) s (g s)).
Qed.

Lemma update_where_inv p f t :
  (forall r, r ∈ t -> p r = true -> row_inv r -> row_inv (f r)) ->
  (forall r, p r = true -> r_id (f r) = r_id r) ->
  Forall row_inv t -> NoDup (map r_id t) ->
  Forall row_inv (update_where p f t) /\ NoDup (map r_id (update_where p f t)).
Proof.
  intros Hf Hid Hall Hnd. split.
  - apply Forall_forall. intros r (r0 & Hr0 & ->)%elem_of_update_where.
    rewrite Forall_forall in Hall. destruct (p r0) eqn:E; auto.
  - enough (map r_id (update_where p f t) = map r_id t) as -> by done.
    unfold update_where. rewrite map_map. apply map_ext. intros r. destruct (p r) eqn:E; auto.
Qed.

Lemma update_inv p f t :
  (forall r, r ∈ t -> p r = true -> row_inv r -> row_inv (f r)) ->
  (forall r, p r = true -> same_keys r (f r) /\ (active (f r) = true -> active r = true)) ->
  jobs_inv t -> jobs_inv (update_where p f t).
Proof.
  intros Hf Hk (Hall & Hnd & Hu). destruct (update_where_inv p f t) as [H1 H2]; try done.
  { intros r Hp. by apply Hk in Hp as [[? _] _]. }
  split; [done|]. split; [done|]. by apply unique_ok_update.
Qed.

(** Status changes of the operations keep the row invariant. *)
Lemma row_inv_status st lease fin now r :
  row_inv r -> st ∈ job_statuses -> (st = JobRunning -> is_Some lease) ->
  (st = JobDone \/ st = JobFailed -> lease = None) ->
  row_inv (set_status st lease fin now r).
Proof. intros [] **. by split. Qed.

Lemma row_inv_error e r : row_inv r -> row_inv (set_error e r).
Proof. intros []. by split. Qed.

Lemma row_inv_attempts n s r : row_inv r -> 0 <= n -> row_inv (set_attempts n s r).
Proof. intros [] ?. by split. Qed.

Ltac in_statuses := by apply (bool_decide_unpack _); vm_compute.

Lemma claimed_row_inv now e r : row_inv r -> row_inv (claimed_row now e r).
Proof.
  intros Hr. apply row_inv_attempts; [|destruct Hr; cbn; lia].
  apply row_inv_status; [done|in_statuses|eauto|]. by intros [].
Qed.

Lemma reset_row_inv now r : row_inv r -> row_inv (reset_row now r).
Proof. intros Hr. apply row_inv_status; try done; in_statuses. Qed.

Lemma completed_row_inv now r : row_inv r -> row_inv (completed_row now r).
Proof. intros Hr. apply row_inv_error, row_inv_status; try done; in_statuses. Qed.

Lemma failed_row_inv now clock msg n retryable r :
  row_inv r -> row_inv (failed_row now msg (fail_status clock n retryable) r).
Proof.
  intros Hr. unfold failed_row, fail_status.
  destruct (retryable && _); apply row_inv_error, row_inv_status; try done; in_statuses.
Qed.

Lemma insert_job_inv r t : row_inv r -> jobs_inv t -> jobs_inv (insert_job foreign_keys_ok r t).2.
Proof.
  intros Hr (Hall & Hnd & Hu). unfold insert_job. destruct (_ && _) eqn:E; [|done].
  apply andb_true_iff in E as [[[_ _]%andb_true_iff Hid]%andb_true_iff Hu'].
  apply negb_true_iff in Hid. split; [by apply Forall_app; split; [|constructor]|]. split; [|done].
  cbn. rewrite map_app. apply NoDup_app. split; [done|]. split; [|cbn; apply NoDup_singleton].
  cbn. intros x (r0 & -> & Hr0)%list_elem_of_fmap Heq%list_elem_of_singleton.
  pose proof (proj1 (exists_where_false _ _) Hid r0 Hr0) as Hne. unfold has_id in Hne.
  by rewrite Heq, String.eqb_refl in Hne.
Qed.

Lemma nullableStr_null v : is_null (nullableStr v) = (v =? "")%string.
Proof. unfold nullableStr. by destruct (_ =? _)%string. Qed.

Lemma row_checks_enqueued uuid now spec :
  row_checks (enqueued_row uuid now spec) = true -> row_inv (enqueued_row uuid now spec).
Proof. intros H. split; try done; cbn; try lia; in_statuses. Qed.

Lemma EnqueueJob_inv uuid now spec t :
  jobs_inv t -> jobs_inv (EnqueueJob foreign_keys_ok uuid now spec t).2.
Proof.
  intros Ht. unfold EnqueueJob. destruct (validate_enqueue spec); [|done].
  assert (H : jobs_inv (insert_job foreign_keys_ok (enqueued_row uuid now spec) t).2).
  { destruct (row_checks (enqueued_row uuid now spec)) eqn:E.
    - by apply insert_job_inv; [apply row_checks_enqueued|].
    - unfold insert_job. by rewrite E. }
  by destruct (insert_job _ _ _) as [[]].
Qed.

Lemma active_of_status r : r_status r = JobPending \/ r_status r = JobRunning -> active r = true.
Proof. unfold active. intros [-> | ->]; done. Qed.

Lemma claimable_active now r : claimable now r = true -> active r = true.
Proof.
  unfold claimable. intros [[H _]%andb_true_iff|[H _]%andb_true_iff]%orb_true_iff;
    apply String.eqb_eq in H; apply active_of_status; tauto.
Qed.

Lemma pick_claim now locked t r :
  pick claim_before (select_where (fun r => claimable now r && negb (locked r)) t) = Some r ->
  r ∈ t /\ claimable now r = true /\ locked r = false.
Proof.
  intros (Hin & [Hc Hl]%andb_true_iff)%pick_elem%elem_of_select_where. apply negb_true_iff in Hl. done.
Qed.

(** Rows with equal ids are equal. *)
Lemma unique_row t r r' : NoDup (map r_id t) -> r ∈ t -> r' ∈ t -> r_id r = r_id r' -> r = r'.
Proof.
  intros Hnd Hr Hr' E. induction t as [|x t IH]; [by apply elem_of_nil in Hr|].
  cbn in Hnd. apply NoDup_cons in Hnd as [Hx Hnd].
  apply elem_of_cons in Hr as [->|Hr], Hr' as [->|Hr']; try done.
  - exfalso. apply Hx. apply list_elem_of_fmap. eauto.
  - exfalso. apply Hx. apply list_elem_of_fmap. eauto.
  - by apply IH.
Qed.

Lemma job_id_true id r : has_id id r = true <-> r_id r = id.
Proof. apply String.eqb_eq. Qed.

Lemma ClaimJob_inv now clock lease locked t : jobs_inv t -> jobs_inv (ClaimJob now clock lease locked t).2.
Proof.
  intros Ht. unfold ClaimJob. destruct (pick _ _) as [r|] eqn:Ep; [|done]. cbn [snd].
  apply pick_claim in Ep as (Hin & Hc & _). pose proof Ht as (_ & Hnd & _).
  apply claimable_active in Hc.
  (* the updated row is the picked one, which was already active *)
  enough (update_where (has_id (r_id r)) (claimed_row now (clock + lease)) t
    = update_where (fun x => has_id (r_id r) x && active x) (claimed_row now (clock + lease)) t) as ->.
  { apply update_inv; [|intros x [_ Hx]%andb_true_iff; by repeat split|done].
    intros x _ _. apply claimed_row_inv. }
  apply map_ext_in. intros x Hx%list_elem_of_In. destruct (has_id (r_id r) x) eqn:E; [|done].
  apply job_id_true in E. by rewrite (unique_row t x r Hnd Hx Hin E), Hc.
Qed.

Lemma fail_write_inv now clock id msg retryable a t : jobs_inv t -> jobs_inv (fail_write now clock id msg retryable a t).2.
Proof.
  intros (Hall & Hnd & Hu). unfold fail_write. destruct (unique_ok (update_where _ _ _)) eqn:E; [|done].
  destruct (update_where_inv (has_id id) (failed_row now msg (fail_status clock a retryable)) t); try done.
  intros x _ _. apply failed_row_inv.
Qed.

Lemma apply_op_inv o t : jobs_inv t -> jobs_inv (apply_op o t).
Proof.
  intros Ht. unfold apply_op. destruct o as [now clock [uuid spec|lease locked|id p|id|id msg retryable att|note|id| | |id rev]];
    cbn [op_of op_now op_clock].
  - by apply EnqueueJob_inv.
  - by apply ClaimJob_inv.
  - unfold UpdateJobPayload. destruct (_ =? _)%nat; [done|].
    apply update_inv; [intros ? _ _ []; by split | by repeat split | done].
  - unfold CompleteJob. destruct (_ =? _)%nat; [done|].
    apply update_inv; [intros ? _ _; apply completed_row_inv | by repeat split | done].
  - by apply fail_write_inv.
  - apply update_inv; [intros ? _ _ []; by split | by repeat split | done].
  - unfold CancelJob. destruct (_ =? _)%nat; [done|].
    apply update_inv; [|by repeat split|done].
    intros r _ _ Hr. apply row_inv_status; try done; [in_statuses|]. by intros [].
  - apply update_inv; [intros ? _ _; apply reset_row_inv | | done].
    intros r [=]%String.eqb_eq. repeat split. intros _. apply active_of_status. by right.
  - apply update_inv; [intros ? _ _; apply reset_row_inv | | done].
    intros r [Hr _]%andb_true_iff. apply String.eqb_eq in Hr. repeat split. intros _.
    apply active_of_status. by right.
  - unfold SetJobTargetRevisionIfNull. destruct (select_where _ _) as [|r l]; [done|].
    apply update_inv; [intros ? _ _ []; by split | by repeat split | done].
Qed.

Lemma apply_ops_inv os t : jobs_inv t -> jobs_inv (apply_ops os t).
Proof. revert t. induction os as [|o os IH]; intros t Ht; cbn; [done|]. by apply IH, apply_op_inv. Qed.

(** ** Enqueueing *)

(** Every operation but an enqueue updates columns that are not keys, and all
    but one leave the target revision alone. *)
Lemma apply_op_updates o t : (forall uuid spec, op_of o <> OpEnqueue uuid spec) ->
  exists p f, (forall r, same_keys r (f r)) /\
    ((forall id rev, op_of o <> OpRevision id rev) -> forall r, r_target_revision (f r) = r_target_revision r) /\
    apply_op o t = update_where p f t.
Proof.
  intros He. assert (Hnone : exists p f, (forall r, same_keys r (f r)) /\
    ((forall id rev, op_of o <> OpRevision id rev) -> forall r, r_target_revision (f r) = r_target_revision r) /\ t = update_where p f t).
  { exists (fun _ => false), (fun x => x). split; [done|]. split; [done|]. symmetry. by apply update_where_unmatched. }
  destruct o as [now clock []]; unfold apply_op; cbn [op_of op_now op_clock] in *.
  - by edestruct He.
  - unfold ClaimJob. destruct (pick _ _); [by eexists _, _; split; [|split; [|reflexivity]]|exact Hnone].
  - unfold UpdateJobPayload. destruct (_ =? 0)%nat; [exact Hnone|by eexists _, _; split; [|split; [|reflexivity]]].
  - unfold CompleteJob. destruct (_ =? 0)%nat; [exact Hnone|by eexists _, _; split; [|split; [|reflexivity]]].
  - unfold fail_write. destruct (unique_ok _); [by eexists _, _; split; [|split; [|reflexivity]]|exact Hnone].
  - by eexists _, _; split; [|split; [|reflexivity]].
  - unfold CancelJob. destruct (_ =? 0)%nat; [exact Hnone|by eexists _, _; split; [|split; [|reflexivity]]].
  - by eexists _, _; split; [|split; [|reflexivity]].
  - by eexists _, _; split; [|split; [|reflexivity]].
  - unfold SetJobTargetRevisionIfNull. destruct (select_where _ t); [exact Hnone|].
    exists (has_id id), (revision_if_null revision now). split; [|split; [|done]].
    + intros r. unfold revision_if_null. by destruct (r_target_revision r).
    + intros H. by edestruct H.
Qed.

Lemma insert_job_cases r t :
  (insert_job foreign_keys_ok r t = (Ok tt, t ++ [r]) /\ row_checks r = true) \/
  insert_job foreign_keys_ok r t = (Err DbError, t).
Proof.
  unfold insert_job. destruct (_ && _) eqn:E; [left|by right]. split; [done|].
  by apply andb_true_iff in E as [[[E _]%andb_true_iff _]%andb_true_iff _].
Qed.

Lemma EnqueueJob_appends uuid now spec t :
  (EnqueueJob foreign_keys_ok uuid now spec t).2 = t \/
  ((EnqueueJob foreign_keys_ok uuid now spec t).2 = t ++ [enqueued_row uuid now spec] /\ foreign_keys_ok (enqueued_row uuid now spec) = true).
Proof.
  unfold EnqueueJob. destruct (validate_enqueue spec); [|by left]. unfold insert_job.
  destruct (row_checks _ && foreign_keys_ok _ && _ && _) eqn:E; [right|by left].
  by apply andb_true_iff in E as [[[_ E]%andb_true_iff _]%andb_true_iff _].
Qed.

(** [EnqueueJob] either fails and leaves the queue alone, or appends one
    pending job with no attempts whose target is the one its type demands: a
    calendar event with a brief and a positive generation for [pre_generate],
    a note for every other type, with template, stream and live output for
    [live_generate]. *)
Theorem EnqueueJob_target uuid now spec t :
  match EnqueueJob foreign_keys_ok uuid now spec t with
  | (Err _, t') => t' = t
  | (Ok id, t') =>
      let row := enqueued_row uuid now spec in
      id = uuid /\ t' = t ++ [row] /\ r_status row = JobPending /\ r_attempts row = 0 /\
      TargetKind (scan_claim row) =
        Some (if (e_Type spec =? JobPreGenerate)%string then JobTargetCalendarEvent else JobTargetNote) /\
      (e_Type spec = JobPreGenerate ->
         BriefID (scan_claim row) <> ""%string /\ 0 < BriefGeneration (scan_claim row)) /\
      (e_Type spec = JobLiveGenerate ->
         TemplateID (scan_claim row) <> ""%string /\ StreamID (scan_claim row) <> ""%string /\
         LiveOutputID (scan_claim row) <> ""%string)
  end.
Proof.
  unfold EnqueueJob. destruct (validate_enqueue spec) as [u|e] eqn:Ev; [|done].
  destruct (insert_job_cases (enqueued_row uuid now spec) t) as [[-> _]| ->]; [|done].
  assert (Hc : forall v, coalesce_str (nullableStr v) = v).
  { intros v. unfold nullableStr. by destruct (String.eqb_spec v "") as [->|]. }
  unfold validate_enqueue in Ev. unfold TargetKind. cbn. rewrite !Hc.
  repeat (case_inner_in Ev; [done|]).
  destruct (String.eqb_spec (e_Type spec) JobPreGenerate) as [Et|Et];
    destruct (String.eqb_spec (e_Type spec) JobLiveGenerate) as [El|El];
    try (rewrite Et in El; discriminate);
    destruct (String.eqb_spec (e_NoteID spec) "") as [En|En];
    destruct (String.eqb_spec (e_CalendarEventID spec) "") as [Ec|Ec]; cbn in *; bool_to_prop; try done;
    split_and!; try done; try (intros; done); try (intros _; split_and!; try done).
  unfold nullableInt. destruct (Z.leb_spec (e_BriefGeneration spec) 0); cbn; lia.
Qed.

(** C3. The table invariant (every [CHECK] and unique index, non-negative
    attempts, a lease on every running job and none on a settled one) holds
    after any history of operations at any clock readings. *)
Theorem queue_invariant os t : jobs_inv t -> jobs_inv (apply_ops os t).
Proof. apply apply_ops_inv. Qed.

(** ** Claiming *)

Lemma claim_before_spec a b :
  claim_before a b = true <->
  r_priority b < r_priority a \/ (r_priority a = r_priority b /\ r_created a < r_created b).
Proof.
  unfold claim_before. rewrite orb_true_iff, andb_true_iff, Z.ltb_lt, Z.eqb_eq, Z.ltb_lt. done.
Qed.

Lemma claim_before_false a b :
  claim_before a b = false <-> ~ (r_priority b < r_priority a \/ (r_priority a = r_priority b /\ r_created a < r_created b)).
Proof. rewrite <- claim_before_spec. by rewrite not_true_iff_false. Qed.

Lemma pick_claim_best now locked t r :
  pick claim_before (select_where (fun r => claimable now r && negb (locked r)) t) = Some r ->
  forall r', r' ∈ t -> claimable now r' = true -> locked r' = false -> claim_before r' r = false.
Proof.
  intros Hp r' Hr' Hc Hl. eapply (pick_best claim_before); [| | |exact Hp|].
  - intros x y z. rewrite !claim_before_false. lia.
  - intros x. rewrite claim_before_false. lia.
  - intros x y. rewrite claim_before_spec, claim_before_false. lia.
  - apply elem_of_select_where. by rewrite Hc, Hl.
Qed.

(** What a claim does, in full. *)
Lemma ClaimJob_spec now clock lease locked t :
  match ClaimJob now clock lease locked t with
  | (None, t') => t' = t /\ forall r, r ∈ t -> claimable now r = true -> locked r = true
  | (Some j, t') => exists r,
      r ∈ t /\ claimable now r = true /\ locked r = false /\
      (forall r', r' ∈ t -> claimable now r' = true -> locked r' = false -> claim_before r' r = false) /\
      ID j = r_id r /\ Status j = JobRunning /\ Attempts j = r_attempts r + 1 /\
      claimed_row now (clock + lease) r ∈ t' /\
      r_status (claimed_row now (clock + lease) r) = JobRunning /\
      r_lease (claimed_row now (clock + lease) r) = Some (clock + lease) /\
      r_attempts (claimed_row now (clock + lease) r) = r_attempts r + 1 /\
      (forall r', r_id r' <> r_id r -> r' ∈ t' <-> r' ∈ t)
  end.
Proof.
  unfold ClaimJob. destruct (pick _ _) as [r|] eqn:Ep.
  - pose proof (pick_claim now locked t r Ep) as (Hin & Hc & Hl).
    exists r. split_and!; try done; [by eapply pick_claim_best| |].
    + apply elem_of_update_where. exists r. split; [done|]. unfold has_id. by rewrite String.eqb_refl.
    + intros r' Hne. rewrite elem_of_update_where. split.
      * intros (r0 & Hr0 & ->). destruct (has_id (r_id r) r0) eqn:E; [|done].
        apply job_id_true in E. by contradict Hne.
      * intros Hr'. exists r'. split; [done|]. destruct (has_id (r_id r) r') eqn:E; [|done].
        apply job_id_true in E. by contradict Hne.
  - split; [done|]. intros r Hr Hc. apply pick_none in Ep.
    destruct (locked r) eqn:El; [done|]. exfalso.
    assert (r ∈ select_where (fun r => claimable now r && negb (locked r)) t) as H
      by (apply elem_of_select_where; by rewrite Hc, El).
    rewrite Ep in H. by apply elem_of_nil in H.
Qed.

(** [ClaimJob] hands out the first claimable unlocked job by priority, then
    age: it returns nothing only when every claimable row is locked; otherwise
    the claimed row is claimable, no other claimable unlocked row sorts before
    it, it becomes running with one more attempt and the fresh lease, and
    every row with another id is untouched. *)
Theorem ClaimJob_claims now clock lease locked t :
  match ClaimJob now clock lease locked t with
  | (None, t') => t' = t /\ forall r, r ∈ t -> claimable now r = true -> locked r = true
  | (Some j, t') => exists r,
      r ∈ t /\ claimable now r = true /\ locked r = false /\
      (forall r', r' ∈ t -> claimable now r' = true -> locked r' = false -> claim_before r' r = false) /\
      ID j = r_id r /\ Status j = JobRunning /\ Attempts j = r_attempts r + 1 /\
      claimed_row now (clock + lease) r ∈ t' /\
      r_status (claimed_row now (clock + lease) r) = JobRunning /\
      r_lease (claimed_row now (clock + lease) r) = Some (clock + lease) /\
      r_attempts (claimed_row now (clock + lease) r) = r_attempts r + 1 /\
      (forall r', r_id r' <> r_id r -> r' ∈ t' <-> r' ∈ t)
  end.
Proof. apply ClaimJob_spec. Qed.

(** ** Leases *)

(** Operations that end a worker's claim on [id]: settling it, or the
    unconditional reset. *)
Definition releases (id : string) (o : queue_op) : bool :=
  match o with
  | OpComplete id' | OpFail id' _ _ _ => (id' =? id)%string
  | OpResetRunning => true
  | _ => false
  end.

Definition held (id : string) (e a : Z) (t : jobs) : Prop :=
  exists r, r ∈ t /\ r_id r = id /\ r_status r = JobRunning /\ r_lease r = Some e /\ r_attempts r = a.

Lemma held_update id e a p f t :
  (forall r, r_id r = id -> r_status r = JobRunning -> r_lease r = Some e -> p r = true ->
     r_id (f r) = id /\ r_status (f r) = JobRunning /\ r_lease (f r) = Some e /\ r_attempts (f r) = r_attempts r) ->
  held id e a t -> held id e a (update_where p f t).
Proof.
  intros Hf (r & Hin & Hid & Hs & Hl & Ha). exists (if p r then f r else r).
  split; [apply elem_of_update_where; eauto|]. destruct (p r) eqn:E; [|done].
  destruct (Hf r) as (? & ? & ? & ?); try done. by split_and!; try congruence.
Qed.

Lemma held_not_claimable id e a now t r :
  jobs_inv t -> held id e a t -> now <= e -> r ∈ t -> r_id r = id -> claimable now r = false.
Proof.
  intros (_ & Hnd & _) (r0 & Hin & Hid & Hs & Hl & _) Hnow Hr Hrid.
  assert (r = r0) as -> by (apply (unique_row t); congruence).
  unfold claimable, lease_expired. rewrite Hs, Hl. cbn. destruct (Z.ltb_spec e now); [lia|done].
Qed.

Lemma held_step id e a o t :
  jobs_inv t -> held id e a t -> op_now o <= e -> releases id (op_of o) = false ->
  held id e a (apply_op o t) /\ claimed_by o t <> Some id.
Proof.
  intros Hinv Hh Hnow Hrel. unfold claimed_by.
  destruct o as [now clock [uuid spec|lease locked|i p|i|i msg retryable att|note|i| | |i rev]];
    cbn [op_of op_now op_clock apply_op releases] in *; (split; [|try done]); unfold apply_op; cbn [op_of op_now op_clock].
  - unfold EnqueueJob. destruct (validate_enqueue spec); [|done].
    destruct (insert_job_cases (enqueued_row uuid now spec) t) as [[-> _]| ->]; [|done].
    destruct Hh as (r & Hin & Hr). exists r. split; [cbn; set_solver|done].
  - pose proof (ClaimJob_spec now clock lease locked t) as Hc. cbn.
    destruct (ClaimJob _ _ _ _ _) as [[j|] t']; cbn in *; [|by destruct Hc as [-> _]].
    destruct Hc as (r & Hr & Hcl & _ & _ & _ & _ & _ & _ & _ & _ & _ & Hother).
    destruct Hh as (r0 & Hin & Hid & Hrest). exists r0. split; [|done]. apply Hother; [|done].
    intros E. rewrite (held_not_claimable id e a now t r) in Hcl; try done; [|congruence].
    exists r0. done.
  - pose proof (ClaimJob_spec now clock lease locked t) as Hc.
    destruct (ClaimJob _ _ _ _ _) as [[j|] t']; cbn in *; [|done].
    destruct Hc as (r & Hr & Hcl & _ & _ & -> & _). intros [= E].
    by rewrite (held_not_claimable id e a now t r) in Hcl.
  - unfold UpdateJobPayload. destruct (_ =? _)%nat; [done|]. by apply held_update.
  - unfold CompleteJob. destruct (_ =? _)%nat; [done|]. apply held_update; [|done].
    intros r Hr _ _ Hp. apply job_id_true in Hp. apply String.eqb_neq in Hrel. congruence.
  - unfold fail_write. destruct (unique_ok _); [|done].
    apply held_update; [|done]. intros r Hr _ _ Hp. apply job_id_true in Hp. apply String.eqb_neq in Hrel. congruence.
  - apply held_update; [|done]. intros r _ Hs _ [_ Hp]%andb_true_iff. by rewrite Hs in Hp.
  - unfold CancelJob. destruct (_ =? _)%nat; [done|]. apply held_update; [|done].
    intros r _ Hs _ [_ Hp]%andb_true_iff. by rewrite Hs in Hp.
  - done.
  - apply held_update; [|done]. intros r _ _ Hl [_ Hp]%andb_true_iff. unfold lease_expired in Hp. rewrite Hl in Hp.
    apply Z.ltb_lt in Hp. lia.
  - unfold SetJobTargetRevisionIfNull. destruct (select_where _ _); [done|]. by apply held_update.
Qed.

(** The ids handed out by a history of operations. *)
Fixpoint claims (os : list timed_op) (t : jobs) : list string :=
  match os with
  | [] => []
  | o :: rest => option_list (claimed_by o t) ++ claims rest (apply_op o t)
  end.

(** C4. Leases are exclusive: while a running job's lease has not expired by
    the database clock and nobody settles it, no interleaving of other
    workers' operations (claims, sweeps, bumps, cancels, enqueues, failures of
    other jobs) takes it from its worker or hands it to another one. *)
Theorem lease_exclusive os t id e a :
  jobs_inv t -> held id e a t ->
  Forall (fun o => op_now o <= e /\ releases id (op_of o) = false) os ->
  held id e a (apply_ops os t) /\ id ∉ claims os t.
Proof.
  intros Hinv Hh Hos. revert t Hinv Hh. induction Hos as [|o os [Hnow Hrel] _ IH]; intros t Hinv Hh; cbn.
  - split; [done|]. apply not_elem_of_nil.
  - destruct (held_step id e a o t) as [Hh' Hc]; try done.
    destruct (IH (apply_op o t)) as [H1 H2]; [by apply apply_op_inv|done|]. split; [done|].
    apply not_elem_of_app. split; [|done]. destruct (claimed_by o t); cbn; [|apply not_elem_of_nil].
    intros ->%list_elem_of_singleton. done.
Qed.

(** ** Priorities *)

Lemma bumped_priority_max t r :
  r ∈ t -> r_status r = JobPending -> r_priority r < bumped_priority t.
Proof.
  intros Hr Hs. unfold bumped_priority.
  assert (Hin : r_priority r ∈ map r_priority (select_where (fun r => (r_status r =? JobPending)%string) t)).
  { apply list_elem_of_fmap. exists r. split; [done|]. apply elem_of_select_where. by rewrite Hs. }
  assert (Hfold : forall ps p x, x = p \/ x ∈ ps -> x <= fold_left Z.max ps p).
  { induction ps as [|q ps IH]; intros p x; cbn.
    - intros [->|Hx]; [lia | by apply elem_of_nil in Hx].
    - rewrite elem_of_cons. intros [->|[->|Hx]].
      + etrans; [|apply (IH (Z.max p q)); by left]. lia.
      + etrans; [|apply (IH (Z.max p q)); by left]. lia.
      + apply IH. by right. }
  destruct (map r_priority _) as [|p ps]; [by apply elem_of_nil in Hin|].
  apply elem_of_cons in Hin. specialize (Hfold ps p (r_priority r) Hin). lia.
Qed.

(** "Process next": after [BumpNoteJobPriority], as soon as one of the
    note's bumped jobs is claimable and unlocked, the next claim takes one of
    that note's pending jobs or recovers a running job whose lease has expired,
    and never another pending job. *)
Theorem bump_then_claim now noteID t now' clock lease locked r :
  let t' := snd (BumpNoteJobPriority now noteID t) in
  r ∈ t' -> pending_of_note noteID r = true -> claimable now' r = true -> locked r = false ->
  exists j r0, fst (ClaimJob now' clock lease locked t') = Some j /\ r0 ∈ t' /\ ID j = r_id r0 /\
    (pending_of_note noteID r0 = true \/ (is_running r0 = true /\ lease_expired now' r0 = true)).
Proof.
  intros t' Hr Hn Hc Hl.
  pose proof (ClaimJob_spec now' clock lease locked t') as Hclaim.
  destruct (ClaimJob _ _ _ _ _) as [[j|] t''].
  2: { destruct Hclaim as [_ Hall]. specialize (Hall r Hr Hc). congruence. }
  destruct Hclaim as (r0 & Hr0 & Hc0 & _ & Hbest & Hid & _).
  exists j, r0. split_and!; try done. specialize (Hbest r Hr Hc Hl).
  unfold claimable in Hc0. apply orb_true_iff in Hc0 as [[Hp _]%andb_true_iff|[Hp He]%andb_true_iff];
    [left | right; split; [exact Hp | exact He]].
  (* both rows come from rows of [t]; only the note's were bumped *)
  unfold t', BumpNoteJobPriority in Hr, Hr0. cbn [snd] in Hr, Hr0.
  apply elem_of_update_where in Hr as (x & Hx & ->), Hr0 as (x0 & Hx0 & ->).
  destruct (pending_of_note noteID x0) eqn:E0; [exact E0|].
  destruct (pending_of_note noteID x) eqn:E; [|congruence].
  apply String.eqb_eq in Hp. pose proof (bumped_priority_max t x0 Hx0 Hp).
  apply claim_before_false in Hbest. cbn in Hbest. lia.
Qed.

(** ** Failures and retries *)

Lemma RetryBackoff_bounds a : 2 * second <= RetryBackoff a <= maxRetryBackoff.
Proof.
  assert (H : forall k, 1 <= k <= 5 -> k = 1 \/ k = 2 \/ k = 3 \/ k = 4 \/ k = 5) by lia.
  set (k := if a <? 1 then 1 else if 5 <? a then 5 else a).
  assert (Hk : 1 <= k <= 5) by (subst k; destruct (Z.ltb_spec a 1); [lia|]; destruct (Z.ltb_spec 5 a); lia).
  assert (E : RetryBackoff a = RetryBackoff k).
  { unfold RetryBackoff. fold k.
    by rewrite (proj2 (Z.ltb_ge k 1) ltac:(lia)), (proj2 (Z.ltb_ge 5 k) ltac:(lia)). }
  rewrite E. destruct (H k Hk) as [->|[->|[->|[->| ->]]]]; vm_compute; split; discriminate.
Qed.

Lemma select_has_id t r : NoDup (map r_id t) -> r ∈ t -> exists l, select_where (has_id (r_id r)) t = r :: l.
Proof.
  intros Hnd Hr. assert (Hin : r ∈ select_where (has_id (r_id r)) t)
    by (apply elem_of_select_where; split; [done|]; by apply job_id_true).
  destruct (select_where (has_id (r_id r)) t) as [|x l] eqn:E; [by apply elem_of_nil in Hin|].
  exists l. f_equal. assert (Hx : x ∈ select_where (has_id (r_id r)) t) by (rewrite E; left).
  apply elem_of_select_where in Hx as [Hx Hid%job_id_true]. by apply (unique_row t).
Qed.

(** Failing the running job it was handed, a worker never hits a constraint. *)
Lemma FailJob_running now clock msg retryable t r :
  jobs_inv t -> r ∈ t -> active r = true ->
  FailJob now clock (r_id r) msg retryable t =
    (Ok tt, update_where (has_id (r_id r)) (failed_row now msg (fail_status clock (r_attempts r) retryable)) t).
Proof.
  intros (Hall & Hnd & Hu) Hr Ha. unfold FailJob, job_attempts, fail_write. destruct (select_has_id t r Hnd Hr) as [l ->].
  set (f := failed_row _ _ _).
  enough (update_where (has_id (r_id r)) f t = update_where (fun x => has_id (r_id r) x && active x) f t) as E.
  { rewrite E, unique_ok_update; [done| |done]. intros x [_ Hx]%andb_true_iff. by repeat split. }
  apply map_ext_in. intros x Hx%list_elem_of_In. destruct (has_id (r_id r) x) eqn:E; [|done].
  apply job_id_true in E. by rewrite (unique_row t x r Hnd Hx Hr E), Ha.
Qed.

(** The worker and the queue agree on when a job is lost: when the run of
    a job just claimed fails, then with a retryable error and attempts left
    the row goes back to pending under a backoff lease of 2 to 30 seconds and
    the note is left alone; otherwise the row is failed, without a lease, and
    the worker runs the note's terminal failure handling. *)
Theorem claim_then_fail now clock lease locked t j t1 now2 clock2 err retryable :
  jobs_inv t -> ClaimJob now clock lease locked t = (Some j, t1) -> Type_ j ∈ job_types ->
  let '(t2, effect) := Process now2 clock2 false (Some (err, retryable)) j t1 in
  exists r, r ∈ t2 /\ r_id r = ID j /\ r_attempts r = Attempts j /\ r_last_error r = Some err /\
    if retryable && (Attempts j <? MaxJobAttempts)
    then effect = NoEffect /\ r_status r = JobPending /\
         exists b, r_lease r = Some (clock2 + b) /\ 2 * second <= b <= maxRetryBackoff
    else effect = TerminalFailure j err /\ r_status r = JobFailed /\ r_lease r = None.
Proof.
  intros Hinv Hcl Hty. pose proof (ClaimJob_spec now clock lease locked t) as Hspec.
  assert (Hinv1 : jobs_inv t1).
  { pose proof (ClaimJob_inv now clock lease locked t Hinv) as H. by rewrite Hcl in H. }
  rewrite Hcl in Hspec.
  destruct Hspec as (r0 & Hr0 & _ & _ & _ & Hid & _ & Hatt & Hin & Hst & _ & Hatt' & _).
  set (r1 := claimed_row now (clock + lease) r0) in *.
  assert (Hid1 : ID j = r_id r1) by exact Hid.
  unfold Process. rewrite andb_false_r, bool_decide_eq_true_2 by done.
  rewrite Hid1, (FailJob_running _ _ _ _ t1 r1 Hinv1 Hin) by (apply active_of_status; by right).
  exists (failed_row now2 err (fail_status clock2 (r_attempts r1) retryable) r1). split_and!.
  - apply elem_of_update_where. exists r1. split; [done|]. unfold has_id. by rewrite String.eqb_refl.
  - done.
  - cbn. congruence.
  - done.
  - rewrite Hatt, <- Hatt'. unfold fail_status, failed_row. cbn [r_status r_lease set_error set_status].
    rewrite Z.ltb_antisym. destruct retryable; cbn [andb negb orb]; [|done].
    destruct (MaxJobAttempts <=? r_attempts r1); cbn; [done|]. split_and!; try done.
    eexists. split; [done|]. apply RetryBackoff_bounds.
Qed.

(** ** Reclaims *)

Definition crash_cycle (k : nat) (lease : Z) : list timed_op :=
  map (fun i => At (Z.of_nat i * (lease + 1)) (Z.of_nat i * (lease + 1)) (OpClaim lease (fun _ => false))) (seq 0 k).

Lemma claim_singleton now clock lease r :
  claimable now r = true ->
  apply_op (At now clock (OpClaim lease (fun _ => false))) [r] = [claimed_row now (clock + lease) r].
Proof.
  intros Hc. unfold apply_op, ClaimJob. cbn [op_of op_now op_clock select_where List.filter].
  rewrite Hc. cbn. unfold has_id. by rewrite String.eqb_refl.
Qed.

Lemma apply_ops_app os os' t : apply_ops (os ++ os') t = apply_ops os' (apply_ops os t).
Proof. revert t. induction os as [|o os IH]; intros t; cbn; [done|]. apply IH. Qed.

(** The retry cap does not bound reclaims: a job whose worker dies every
    time (it is claimed, never settled, and its lease expires) is claimed
    again without limit; after any number [k] of such crashes it is running
    with [k] attempts, however far beyond [MaxJobAttempts] that is. *)
Theorem reclaims_uncapped (k : nat) lease r :
  0 <= lease -> r_status r = JobPending -> r_lease r = None -> r_attempts r = 0 -> (0 < k)%nat ->
  exists r', apply_ops (crash_cycle k lease) [r] = [r'] /\ r_id r' = r_id r /\
    r_status r' = JobRunning /\ r_attempts r' = Z.of_nat k.
Proof.
  intros Hl Hs Hle Ha Hk.
  assert (H : forall k, exists r', apply_ops (crash_cycle k lease) [r] = [r'] /\ r_id r' = r_id r /\
    r_attempts r' = Z.of_nat k /\ claimable (Z.of_nat k * (lease + 1)) r' = true /\
    ((0 < k)%nat -> r_status r' = JobRunning)).
  { clear k Hk. induction k as [|k (r' & E & Hid & Hat & Hc & _)].
    - exists r. split_and!; try done; [|lia]. unfold claimable. by rewrite Hs, Hle.
    - unfold crash_cycle in *. rewrite seq_S, map_app, apply_ops_app, E. cbn [map apply_ops].
      rewrite claim_singleton by done. eexists. split; [done|]. split_and!; try done.
      + cbn. lia.
      + unfold claimable, lease_expired. cbn. apply Z.ltb_lt. lia. }
  destruct (H k) as (r' & ? & ? & ? & _ & Hr). exists r'. split_and!; auto.
Qed.

(** ** The target revision *)

Lemma revision_step o t id v :
  (exists r, r ∈ t /\ r_id r = id /\ r_target_revision r = Some v) ->
  exists r, r ∈ apply_op o t /\ r_id r = id /\ r_target_revision r = Some v.
Proof.
  intros (r & Hin & Hid & Hv).
  assert (Hupd : forall p f, (forall x, r_id (f x) = r_id x) ->
    (r_target_revision r = Some v -> r_target_revision (f r) = Some v) ->
    exists r, r ∈ update_where p f t /\ r_id r = id /\ r_target_revision r = Some v).
  { intros p f Hf1 Hf2. exists (if p r then f r else r).
    split; [apply elem_of_update_where; eauto|]. destruct (p r); [rewrite Hf1; auto | done]. }
  unfold apply_op. destruct o as [now clock [uuid spec|lease locked|i p|i|i msg retryable att|note|i| | |i rev]];
    cbn [op_of op_now op_clock].
  - unfold EnqueueJob. destruct (validate_enqueue spec); [|eauto].
    destruct (insert_job_cases (enqueued_row uuid now spec) t) as [[-> _]| ->]; [|eauto].
    exists r. split; [cbn; set_solver|done].
  - unfold ClaimJob. destruct (pick _ _); [|eauto]. by apply Hupd.
  - unfold UpdateJobPayload. destruct (_ =? _)%nat; [eauto|]. by apply Hupd.
  - unfold CompleteJob. destruct (_ =? _)%nat; [eauto|]. by apply Hupd.
  - unfold fail_write. destruct (unique_ok _); [|eauto]. by apply Hupd.
  - by apply Hupd.
  - unfold CancelJob. destruct (_ =? _)%nat; [eauto|]. by apply Hupd.
  - by apply Hupd.
  - by apply Hupd.
  - unfold SetJobTargetRevisionIfNull. destruct (select_where _ _); [eauto|].
    apply Hupd; [done|]. intros E. cbn. by rewrite E.
Qed.

(** A live job's target revision is written once: the first
    [SetJobTargetRevisionIfNull] stores its argument, and after any history of
    operations every further call returns that first value. *)
Theorem target_revision_write_once now id v t r os now' v' :
  jobs_inv t -> r ∈ t -> r_id r = id -> r_target_revision r = None ->
  let '(res, t1) := SetJobTargetRevisionIfNull now id v t in
  res = Ok v /\ fst (SetJobTargetRevisionIfNull now' id v' (apply_ops os t1)) = Ok v.
Proof.
  intros Hinv Hr <- Hnone. pose proof Hinv as (_ & Hnd & _). unfold SetJobTargetRevisionIfNull at 1.
  destruct (select_has_id t r Hnd Hr) as [l ->]. rewrite Hnone. split; [done|].
  set (t1 := update_where _ _ t).
  assert (Hinv1 : jobs_inv t1) by (apply update_inv; [intros ? _ _ []; by split | by repeat split | done]).
  assert (H1 : exists x, x ∈ t1 /\ r_id x = r_id r /\ r_target_revision x = Some v).
  { exists (revision_if_null v now r). split; [|cbn; by rewrite Hnone].
    apply elem_of_update_where. exists r. split; [done|]. unfold has_id. by rewrite String.eqb_refl. }
  clearbody t1. revert t1 Hinv1 H1. induction os as [|o os IH]; intros t1 Hinv1 (x & Hx & Hid & Hv); cbn [apply_ops].
  - unfold SetJobTargetRevisionIfNull. pose proof Hinv1 as (_ & Hnd1 & _).
    destruct (select_has_id t1 x Hnd1 Hx) as [l' E]. rewrite <- Hid, E. cbn. by rewrite Hv.
  - apply IH; [by apply apply_op_inv|]. apply revision_step. eauto.
Qed.

End Props.

(** ** Concrete histories *)

Module QueueDemo.

Definition note_spec : JobEnqueue := {|
  e_NoteID := "n1"; e_CalendarEventID := ""; e_BriefID := ""; e_BriefGeneration := 0;
  e_TemplateID := ""; e_StreamID := ""; e_LiveOutputID := ""; e_Type := JobSummarize; e_Payload := "" |}.
Definition live_spec : JobEnqueue := {|
  e_NoteID := "n2"; e_CalendarEventID := ""; e_BriefID := ""; e_BriefGeneration := 0;
  e_TemplateID := "t"; e_StreamID := "s"; e_LiveOutputID := "o"; e_Type := JobLiveGenerate; e_Payload := "{}" |}.

Definition r1 : job_row := enqueued_row "j1" 0 note_spec.
Definition r2 : job_row := enqueued_row "j2" 1 live_spec.
Definition table : jobs := [r1; r2].
Definition any_fk : job_row -> bool := fun _ => true.
Definition unlocked : job_row -> bool := fun _ => false.
Definition running : jobs := snd (ClaimJob 5 5 100 unlocked table).
Definition bumped : jobs := snd (BumpNoteJobPriority 5 "n2" table).

Lemma row_inv_demo r :
  row_checks r = true -> r_attempts r = 0 -> r_status r = JobPending -> row_inv r.
Proof. intros ? Ha Hs. split; rewrite ?Ha, ?Hs; try done; by apply (bool_decide_unpack _); vm_compute. Qed.

Lemma table_inv : jobs_inv table.
Proof.
  split; [|split; [apply (bool_decide_unpack _); by vm_compute | reflexivity]].
  repeat constructor; by apply row_inv_demo.
Qed.

Lemma running_inv : jobs_inv running.
Proof. apply (ClaimJob_inv any_fk), table_inv. Qed.

End QueueDemo.
Import QueueDemo.

Lemma queue_invariant_witness : jobs_inv (apply_ops any_fk [At 5 5 (OpClaim 100 unlocked); At 6 6 (OpFail "j1" "boom" true 1)] table).
Proof. apply (queue_invariant any_fk), table_inv. Defined.

Lemma lease_exclusive_witness :
  let os := [At 6 6 (OpClaim 100 unlocked); At 50 50 OpResetExpired; At 60 60 (OpClaim 100 unlocked)] in
  claims any_fk os running = ["j2"%string] /\
  held "j1" 105 1 (apply_ops any_fk os running) /\ "j1"%string ∉ claims any_fk os running.
Proof.
  split; [by vm_compute|]. apply (lease_exclusive any_fk _ running "j1" 105 1).
  - apply running_inv.
  - exists (claimed_row 5 105 r1). split; [left | by vm_compute].
  - repeat constructor; by vm_compute.
Defined.

Lemma bump_then_claim_witness :
  exists j r0, fst (ClaimJob 9 9 100 unlocked bumped) = Some j /\ r0 ∈ bumped /\ ID j = r_id r0 /\
    (pending_of_note "n2" r0 = true \/ (is_running r0 = true /\ lease_expired 9 r0 = true)).
Proof.
  apply (bump_then_claim 5 "n2" table 9 9 100 unlocked (set_priority 1 5 r2)); [|by vm_compute..].
  right; left.
Defined.

Lemma claim_then_fail_witness :
  match ClaimJob 5 5 100 unlocked table with
  | (Some j, t1) =>
      let '(t2, effect) := Process 8 8 false (Some ("timeout"%string, true)) j t1 in
      exists r, r ∈ t2 /\ r_id r = ID j /\ r_attempts r = Attempts j /\ r_last_error r = Some "timeout"%string /\
        if true && (Attempts j <? MaxJobAttempts)
        then effect = NoEffect /\ r_status r = JobPending /\
             exists b, r_lease r = Some (8 + b) /\ 2 * second <= b <= maxRetryBackoff
        else effect = TerminalFailure j "timeout" /\ r_status r = JobFailed /\ r_lease r = None
  | _ => False
  end.
Proof.
  destruct (ClaimJob 5 5 100 unlocked table) as [[j|] t1] eqn:E; [|by vm_compute in E].
  apply (claim_then_fail any_fk 5 5 100 unlocked table j t1 8 8 "timeout" true table_inv E).
  assert (Hj : Some j = fst (ClaimJob 5 5 100 unlocked table)) by (by rewrite E).
  vm_compute in Hj. injection Hj as ->. apply (bool_decide_unpack _). by vm_compute.
Defined.

Lemma reclaims_uncapped_witness :
  exists r', apply_ops any_fk (crash_cycle 7 60) [r1] = [r'] /\ r_id r' = r_id r1 /\
    r_status r' = JobRunning /\ r_attempts r' = Z.of_nat 7.
Proof. apply (reclaims_uncapped any_fk 7 60 r1); [lia | by vm_compute.. | lia]. Defined.

Lemma target_revision_write_once_witness :
  let '(res, t1) := SetJobTargetRevisionIfNull 7 "j2" 12 table in
  res = Ok 12 /\ fst (SetJobTargetRevisionIfNull 9 "j2" 99 (apply_ops any_fk [At 8 8 OpResetRunning] t1)) = Ok 12.
Proof.
  apply (target_revision_write_once any_fk 7 "j2" 12 table r2 [At 8 8 OpResetRunning] 9 99 table_inv); [|by vm_compute..].
  right; left.
Defined.
