(* ===== verification/Folders.v ===== *)
(** The folder tree: [internal/store/folders.go].

    [folder], [note] and [note_folder] are rows of the tables of the same
    names (of [notes], the columns these queries read); [Folder] is the Go
    struct of [internal/model].  A handler runs in one transaction, so it is
    one function on the tables, apart from [CreateFolder] and [UpdateFolder]:
    these validate the parent on another connection, with no lock, before
    they write.  [CreateFolder_on] and [UpdateFolder_on] take the tables those
    earlier reads saw as separate arguments; [CreateFolder] and [UpdateFolder]
    are the case in which nothing was written in between. *)

From stdpp Require Import base list strings sets gmap.
From Stdlib Require Import ZArith Lia.
From S2P Require Import GoInt GoStrings Sql.

Local Open Scope Z_scope.
Local Open Scope go_scope.

Definition maxFolderDepth : nat := 5.

Definition FolderPrivate : string := "private".
Definition FolderShared : string := "shared".

(** ** Tables *)

Record folder := mkFolder {
  f_id : string; f_owner : string; f_name : string; f_parent : option string;
  f_visibility : string; f_created : Z; f_deleted : option Z; f_position : Z }.

Record note := mkNote { n_id : string; n_owner : string; n_created : Z; n_deleted : option Z }.

Record note_folder := mkNF { nf_note : string; nf_folder : string; nf_position : Z }.

Record db := mkDB { folders : list folder; notes : list note; note_folders : list note_folder }.

Definition with_folders (t : list folder) (d : db) : db := mkDB t (notes d) (note_folders d).
Definition with_note_folders (t : list note_folder) (d : db) : db := mkDB (folders d) (notes d) t.

Definition set_name_parent (name : string) (parent : option string) (f : folder) : folder :=
  mkFolder (f_id f) (f_owner f) name parent (f_visibility f) (f_created f) (f_deleted f) (f_position f).
Definition set_position (p : Z) (f : folder) : folder :=
  mkFolder (f_id f) (f_owner f) (f_name f) (f_parent f) (f_visibility f) (f_created f) (f_deleted f) p.
Definition set_visibility (v : string) (f : folder) : folder :=
  mkFolder (f_id f) (f_owner f) (f_name f) (f_parent f) v (f_created f) (f_deleted f) (f_position f).
Definition set_deleted (x : option Z) (f : folder) : folder :=
  mkFolder (f_id f) (f_owner f) (f_name f) (f_parent f) (f_visibility f) (f_created f) x (f_position f).

(** [model.Folder] *)
Record Folder := {
  ID : string; OwnerID : string; Name : string; ParentID : option string; Visibility : string;
  CreatedAt : Z; NoteCount : nat; IsOwner : bool; DeletedAt : option Z }.

Definition scan (isOwner : bool) (f : folder) : Folder := {|
  ID := f_id f; OwnerID := f_owner f; Name := f_name f; ParentID := f_parent f; Visibility := f_visibility f;
  CreatedAt := f_created f; NoteCount := 0; IsOwner := isOwner; DeletedAt := f_deleted f |}.

Definition has_id (id : string) (f : folder) : bool := (f_id f =? id)%string.
Definition owned_by (owner : string) (f : folder) : bool := (f_owner f =? owner)%string.
Definition live (f : folder) : bool := match f_deleted f with None => true | Some _ => false end.
Definition trashed (f : folder) : bool := negb (live f).
Definition is_shared (f : folder) : bool := (f_visibility f =? FolderShared)%string.
Definition parent_is (parent : option string) (f : folder) : bool := bool_decide (f_parent f = parent).
Definition note_live (n : note) : bool := match n_deleted n with None => true | Some _ => false end.

(** [COALESCE(max(position)+1, 0)] *)
Definition next_position (ps : list Z) : Z :=
  match ps with [] => 0 | p :: rest => fold_left Z.max rest p + 1 end.

(** ** Names and authorization *)

Definition validateFolderName (name : string) : result store_error string :=
  let name := TrimSpace name in
  if (name =? "")%string || (80 <? RuneCount name) then Err (ValidationError "folder name invalid") else Ok name.

Definition authorizeLiveFolderOwnerMutation (requesterID folderID : string) (t : list folder)
  : result store_error unit :=
  match select_where (fun f => has_id folderID f && live f) t with
  | [] => Err ErrNotFound
  | f :: _ => if owned_by requesterID f then Ok tt
              else if is_shared f then Err ErrForbidden else Err ErrNotFound
  end.

Definition CheckFolderOwnerMutation (requesterID folderID : string) (d : db) : result store_error unit :=
  authorizeLiveFolderOwnerMutation requesterID folderID (folders d).

(** ** The tree queries *)

(** No path of the tree has more folders than the table has rows. *)
Definition query_fuel (t : list folder) : nat := S (length t).

(** A query that never ends is cancelled: an error of the database. *)
Definition finished {A} (o : option A) : result store_error A :=
  match o with Some a => Ok a | None => Err DbError end.

(** [f JOIN sub ON f.parent_id = sub.id WHERE f.owner_id = owner] *)
Definition children (owner : string) (t : list folder) (f : folder) : list folder :=
  select_where (fun c => parent_is (Some (f_id f)) c && owned_by owner c) t.

Definition live_children (owner : string) (t : list folder) (f : folder) : list folder :=
  select_where (fun c => parent_is (Some (f_id f)) c && owned_by owner c && live c) t.

Definition trashed_children (owner : string) (t : list folder) (f : folder) : list folder :=
  select_where (fun c => parent_is (Some (f_id f)) c && owned_by owner c && trashed c) t.

Definition parents (owner : string) (t : list folder) (f : folder) : list folder :=
  select_where (fun p => bool_decide (f_parent f = Some (f_id p)) && owned_by owner p) t.

(** The same with the number of joins carried along. *)
Definition counted (next : folder -> list folder) (fd : folder * nat) : list (folder * nat) :=
  map (fun f => (f, S fd.2)) (next fd.1).

Definition max_level (rows : list (folder * nat)) : nat := foldr (fun fd m => Nat.max fd.2 m) 0%nat rows.

(** The recursive query [anc] of [validateParent]: the depth of a folder. *)
Definition folder_depth (ownerID id : string) (t : list folder) : result store_error nat :=
  let anchor := select_where (fun f => has_id id f && owned_by ownerID f) t in
  let? rows := finished (with_recursive (counted (parents ownerID t)) (query_fuel t)
                           (map (fun f => (f, 1%nat)) anchor)) in
  Ok (max_level rows).

Definition subtreeHeight (ownerID folderID : string) (t : list folder) : result store_error nat :=
  let anchor := select_where (fun f => has_id folderID f && owned_by ownerID f && live f) t in
  let? rows := finished (with_recursive (counted (live_children ownerID t)) (query_fuel t)
                           (map (fun f => (f, 0%nat)) anchor)) in
  Ok (max_level rows).

Definition folderDescendants (ownerID id : string) (t : list folder) : result store_error (gset string) :=
  let anchor := select_where (fun f => has_id id f && owned_by ownerID f) t in
  let? rows := finished (with_recursive (children ownerID t) (query_fuel t) anchor) in
  Ok (list_to_set (map f_id rows)).

(** [id] is empty when the folder is being created. *)
Definition validateParent (ownerID id : string) (parentID : option string) (t : list folder)
  : result store_error unit :=
  match parentID with
  | None => Ok tt
  | Some p =>
      if (p =? id)%string then Err ErrInvalidParent
      else if negb (exists_where (fun f => has_id p f && owned_by ownerID f && live f) t)
      then Err ErrInvalidParent
      else
        let? _ := (if negb (id =? "")%string
                   then let? descend := folderDescendants ownerID id t in
                        guard (negb (bool_decide (p ∈ descend))) ErrInvalidParent
                   else Ok tt) in
        let? depth := folder_depth ownerID p t in
        let? h := (if negb (id =? "")%string then subtreeHeight ownerID id t else Ok 0%nat) in
        if (maxFolderDepth <? depth + h + 1)%nat then Err ErrInvalidParent else Ok tt
  end.

Definition samePtr (a b : option string) : bool := bool_decide (a = b).

Section Operations.
(** Postgres's [lower] and the order of text in the database's collation. *)
Variable lower : string -> string.
Variable name_lt : string -> string -> bool.

(** [ORDER BY position, lower(name)] *)
Definition sibling_before (a b : folder) : bool :=
  (f_position a <? f_position b) ||
  ((f_position a =? f_position b) && name_lt (lower (f_name a)) (lower (f_name b))).

(** The unique index on [(owner_id, lower(name))], trashed folders included. *)
Definition same_name (f g : folder) : bool :=
  (f_owner f =? f_owner g)%string && (lower (f_name f) =? lower (f_name g))%string.

Definition name_taken (f : folder) (t : list folder) : bool :=
  exists_where (fun g => negb (has_id (f_id f) g) && same_name f g) t.

(** The live folders with the same owner and parent. *)
Definition siblings (owner : string) (parent : option string) (t : list folder) : list folder :=
  select_where (fun f => owned_by owner f && parent_is parent f && live f) t.

(** [uuid] is the fresh id, [seen] what the validating connection reads. *)
Definition CreateFolder_on (seen : list folder) (uuid : string) (now : Z) (ownerID name : string)
    (parentID : option string) (d : db) : result store_error Folder * db :=
  let t := folders d in
  match validateFolderName name with
  | Err e => (Err e, d)
  | Ok name =>
      match validateParent ownerID "" parentID seen with
      | Err e => (Err e, d)
      | Ok _ =>
          let f := mkFolder uuid ownerID name parentID FolderPrivate now None
                     (next_position (map f_position (siblings ownerID parentID t))) in
          if exists_where (has_id uuid) t || name_taken f t then (Err ErrDuplicate, d)
          else if match parentID with None => true | Some p => exists_where (has_id p) t end
          then (Ok (scan true f), with_folders (t ++ [f]) d)
          else (Err DbError, d)
      end
  end.

Definition CreateFolder uuid now ownerID name parentID (d : db) : result store_error Folder * db :=
  CreateFolder_on (folders d) uuid now ownerID name parentID d.

(** [ListFolders]'s query [descendants]: pairs of a visible root and a live
    folder below it, each child in its parent's owner's tree. *)
Definition visible (requesterID : string) (f : folder) : bool := live f && (owned_by requesterID f || is_shared f).

Definition descendants_next (t : list folder) (rd : folder * folder) : list (folder * folder) :=
  map (fun c => (rd.1, c)) (live_children (f_owner rd.2) t rd.2).

Definition descendants (requesterID : string) (t : list folder) : result store_error (list (folder * folder)) :=
  finished (with_recursive (descendants_next t) (query_fuel t)
              (map (fun f => (f, f)) (select_where (visible requesterID) t))).

(** The ids of live notes filed in one of [fs]. *)
Definition notes_in (d : db) (fs : list folder) : list string :=
  flat_map (fun f => map nf_note (select_where (fun m => (nf_folder m =? f_id f)%string &&
      exists_where (fun n => (n_id n =? nf_note m)%string && note_live n) (notes d)) (note_folders d))) fs.

Definition note_count (requesterID : string) (d : db) (ds : list (folder * folder)) (f : folder) : nat :=
  let readable := select_where (fun rd => has_id (f_id f) rd.1 && (owned_by requesterID rd.2 || is_shared rd.2)) ds in
  length (remove_dups (notes_in d (map snd readable))).

Definition ListFolders (requesterID : string) (d : db) : result store_error (list Folder) :=
  (let? ds := descendants requesterID (folders d) in
  let out := order_by sibling_before (select_where (visible requesterID) (folders d)) in
  let seen := map f_id out in
  Ok (map (fun f => {|
    ID := f_id f; OwnerID := f_owner f; Name := f_name f;
    ParentID := match f_parent f with
                | Some p => if bool_decide (p ∈ seen) then Some p else None
                | None => None
                end;
    Visibility := f_visibility f; CreatedAt := f_created f; NoteCount := note_count requesterID d ds f;
    IsOwner := owned_by requesterID f; DeletedAt := None |}) out)).

Definition GetFolder (ownerID id : string) (d : db) : result store_error Folder :=
  match select_where (fun f => has_id id f && owned_by ownerID f && live f) (folders d) with
  | [] => Err ErrNotFound
  | f :: _ => Ok (scan true f)
  end.

(** The [UPDATE ... RETURNING] of one folder by [g], under the unique index
    and the foreign key on [parent_id]. *)
Definition update_folder (requesterID id : string) (g : folder -> folder) (d : db)
  : result store_error Folder * db :=
  let mine f := has_id id f && owned_by requesterID f && live f in
  match select_where mine (folders d) with
  | [] => (Err ErrNotFound, d)
  | f :: _ => if name_taken (g f) (folders d) then (Err ErrDuplicate, d)
              else if match f_parent (g f) with None => true | Some p => exists_where (has_id p) (folders d) end
              then (Ok (scan true (g f)), with_folders (update_where mine g (folders d)) d)
              else (Err DbError, d)
  end.

(** The [SET] clause: the position is written when the parent changes. *)
Definition updated_folder (name : string) (parentID : option string) (reparented : bool) (position : Z)
    (f : folder) : folder :=
  let f := set_name_parent name parentID f in if reparented then set_position position f else f.

(** [asked] is what the authorization query read and [seen] what
    [validateParent] read; the statements that follow run on [d]. *)
Definition UpdateFolder_on (asked seen : list folder) (requesterID id name : string) (parentID : option string)
    (d : db) : result store_error Folder * db :=
  let t := folders d in
  match authorizeLiveFolderOwnerMutation requesterID id asked with
  | Err e => (Err e, d)
  | Ok _ =>
  match validateFolderName name with
  | Err e => (Err e, d)
  | Ok name =>
  match validateParent requesterID id parentID seen with
  | Err e => (Err e, d)
  | Ok _ =>
  match select_where (fun f => has_id id f && live f) t with
  | [] => (Err DbError, d)
  | cur :: _ =>
      let reparented := negb (samePtr (f_parent cur) parentID) in
      let position := next_position (map f_position
        (select_where (fun f => negb (has_id id f)) (siblings requesterID parentID t))) in
      update_folder requesterID id (updated_folder name parentID reparented position) d
  end end end end.

Definition UpdateFolder requesterID id name parentID (d : db) : result store_error Folder * db :=
  UpdateFolder_on (folders d) (folders d) requesterID id name parentID d.

Definition SetFolderVisibility (requesterID folderID visibility : string) (d : db)
  : result store_error Folder * db :=
  if negb (visibility =? FolderPrivate)%string && negb (visibility =? FolderShared)%string
  then (Err (ValidationError "invalid visibility"), d)
  else
    match authorizeLiveFolderOwnerMutation requesterID folderID (folders d) with
    | Err e => (Err e, d)
    | Ok _ =>
        let mine f := has_id folderID f && owned_by requesterID f && live f in
        match select_where mine (folders d) with
        | [] => (Err ErrNotFound, d)
        | f :: _ => (Ok (scan true (set_visibility visibility f)),
                     with_folders (update_where mine (set_visibility visibility) (folders d)) d)
        end
    end.

(** The checks on [afterID] and the loop that drops [id] and re-inserts it. *)
Definition check_after (id : string) (afterID : option string) (sibs : list string) : result store_error unit :=
  match afterID with
  | None => Ok tt
  | Some a => if (a =? id)%string then Err ErrInvalidParent
              else if bool_decide (a ∈ sibs) then Ok tt else Err ErrInvalidParent
  end.

Fixpoint rebuild_order (id : string) (afterID : option string) (sibs : list string) : list string :=
  match sibs with
  | [] => []
  | sid :: rest =>
      if (sid =? id)%string then rebuild_order id afterID rest
      else if bool_decide (afterID = Some sid) then sid :: id :: rebuild_order id afterID rest
      else sid :: rebuild_order id afterID rest
  end.

Definition new_order (id : string) (afterID : option string) (sibs : list string) : list string :=
  let order := rebuild_order id afterID sibs in
  match afterID with None => id :: order | Some _ => order end.

(** [for pos, sid := range order { write pos sid }] *)
Fixpoint write_positions {T} (write : Z -> string -> T -> T) (pos : Z) (order : list string) (t : T) : T :=
  match order with
  | [] => t
  | sid :: rest => write_positions write (pos + 1) rest (write pos sid t)
  end.

Definition sibling_ids (owner : string) (parent : option string) (t : list folder) : list string :=
  map f_id (order_by sibling_before (siblings owner parent t)).

Definition ReorderFolder (requesterID id : string) (afterID : option string) (d : db)
  : result store_error unit * db :=
  let t := folders d in
  match authorizeLiveFolderOwnerMutation requesterID id t with
  | Err e => (Err e, d)
  | Ok _ =>
  match select_where (fun f => has_id id f && live f) t with
  | [] => (Err DbError, d)
  | f :: _ =>
      let sibs := sibling_ids requesterID (f_parent f) t in
      match check_after id afterID sibs with
      | Err e => (Err e, d)
      | Ok _ =>
          (Ok tt, with_folders (write_positions
             (fun pos sid => update_where (fun f => has_id sid f && owned_by requesterID f) (set_position pos))
             0 (new_order id afterID sibs) t) d)
      end
  end end.

(** [ORDER BY nf.position, n.created_at DESC, nf.note_id], on the membership
    rows joined to their live notes. *)
Definition filed_before (a b : note_folder * note) : bool :=
  (nf_position a.1 <? nf_position b.1) ||
  ((nf_position a.1 =? nf_position b.1) &&
   ((n_created b.2 <? n_created a.2) ||
    ((n_created a.2 =? n_created b.2) && String.ltb (nf_note a.1) (nf_note b.1)))).

Definition filed_live (folderID : string) (d : db) : list (note_folder * note) :=
  flat_map (fun m => map (fun n => (m, n))
      (select_where (fun n => (n_id n =? nf_note m)%string && note_live n) (notes d)))
    (select_where (fun m => (nf_folder m =? folderID)%string) (note_folders d)).

Definition filed_order (folderID : string) (d : db) : list string :=
  map (fun mn => nf_note mn.1) (order_by filed_before (filed_live folderID d)).

Definition set_nf_position (p : Z) (m : note_folder) : note_folder := mkNF (nf_note m) (nf_folder m) p.

Definition membership (noteID folderID : string) (m : note_folder) : bool :=
  (nf_note m =? noteID)%string && (nf_folder m =? folderID)%string.

Definition ReorderNoteInFolder (requesterID folderID noteID : string) (afterID : option string) (d : db)
  : result store_error unit * db :=
  match authorizeLiveFolderOwnerMutation requesterID folderID (folders d) with
  | Err e => (Err e, d)
  | Ok _ =>
      if negb (exists_where (fun mn => (nf_note mn.1 =? noteID)%string) (filed_live folderID d))
      then (Err ErrNotFound, d)
      else
        let sibs := filed_order folderID d in
        match check_after noteID afterID sibs with
        | Err e => (Err e, d)
        | Ok _ =>
            (Ok tt, with_note_folders (write_positions
               (fun pos sid => update_where (membership sid folderID) (set_nf_position pos))
               0 (new_order noteID afterID sibs) (note_folders d)) d)
        end
  end.

(** ** Trash *)

Definition in_rows (rows : list folder) (f : folder) : bool := bool_decide (f_id f ∈ map f_id rows).

Definition DeleteFolder (requesterID id : string) (now : Z) (d : db) : result store_error unit * db :=
  let t := folders d in
  match authorizeLiveFolderOwnerMutation requesterID id t with
  | Err e => (Err e, d)
  | Ok _ =>
      let anchor := select_where (fun f => has_id id f && owned_by requesterID f && live f) t in
      match finished (with_recursive (children requesterID t) (query_fuel t) anchor) with
      | Err e => (Err e, d)
      | Ok sub =>
          let hit f := in_rows sub f && live f in
          if (rows_affected hit t =? 0)%nat then (Err ErrNotFound, d)
          else (Ok tt, with_folders (update_where hit (set_deleted (Some now)) t) d)
      end
  end.

Definition ListTrashedFolders (ownerID : string) (d : db) : list Folder :=
  let t := folders d in
  map (scan true) (order_by (fun a b => default 0 (f_deleted b) <? default 0 (f_deleted a))
    (select_where (fun f => owned_by ownerID f && trashed f &&
       match f_parent f with
       | None => true
       | Some p => negb (exists_where (fun g => has_id p g && trashed g) t)
       end) t)).

Definition RestoreFolder (ownerID id : string) (d : db) : result store_error unit * db :=
  let t := folders d in
  let anchor := select_where (fun f => has_id id f && owned_by ownerID f && trashed f) t in
  match finished (with_recursive (trashed_children ownerID t) (query_fuel t) anchor) with
  | Err e => (Err e, d)
  | Ok sub =>
      if (rows_affected (in_rows sub) t =? 0)%nat then (Err ErrNotFound, d)
      else
        let t' := update_where (in_rows sub) (set_deleted None) t in
        let orphan f := has_id id f && owned_by ownerID f &&
          match f_parent f with
          | None => false
          | Some p => negb (exists_where (fun g => has_id p g && live g) t')
          end in
        (Ok tt, with_folders (update_where orphan (fun f => set_name_parent (f_name f) None f) t') d)
  end.

(** [ON DELETE CASCADE]: a folder goes when it or a folder above it does. *)
Fixpoint cascades (fuel : nat) (p : folder -> bool) (t : list folder) (f : folder) : bool :=
  p f || match fuel, f_parent f with
         | S n, Some q => existsb (fun g => has_id q g && cascades n p t g) t
         | _, _ => false
         end.

(** [DELETE FROM folders WHERE p] with the cascades to descendants and to
    [note_folders], and the number of rows that match [p]. *)
Definition delete_folders (p : folder -> bool) (d : db) : nat * db :=
  let t := folders d in
  let gone := cascades (query_fuel t) p t in
  let t' := delete_where gone t in
  (rows_affected p t,
   mkDB t' (notes d) (delete_where (fun m => exists_where (fun f => has_id (nf_folder m) f && gone f) t) (note_folders d))).

Definition PurgeFolder (ownerID id : string) (d : db) : result store_error unit * db :=
  let '(n, d') := delete_folders (fun f => has_id id f && owned_by ownerID f && trashed f) d in
  if (n =? 0)%nat then (Err ErrNotFound, d') else (Ok tt, d').

(** [olderThan] is whole seconds here, as [int64(olderThan.Seconds())] is. *)
Definition PurgeExpiredFolders (now olderThan : Z) (d : db) : nat * db :=
  let cutoff := now - Z.quot olderThan second * second in
  delete_folders (fun f => match f_deleted f with Some x => x <? cutoff | None => false end) d.

Definition ResolveFolders (ownerID : string) (ids : list string) (d : db) : list Folder :=
  map (scan true) (select_where (fun f => owned_by ownerID f && bool_decide (f_id f ∈ ids)) (folders d)).

(** ** Filing notes *)

Record noteFolderAuthContext := {
  noteExists : bool; noteOwnerID : string; noteReadable : bool;
  folderExists : bool; folderOwnerID : string; folderVisibility : string }.

Definition noteVisible (c : noteFolderAuthContext) (requesterID : string) : bool :=
  noteExists c && ((noteOwnerID c =? requesterID)%string || noteReadable c).

Definition folderVisible (c : noteFolderAuthContext) (requesterID : string) : bool :=
  folderExists c && ((folderOwnerID c =? requesterID)%string || (folderVisibility c =? FolderShared)%string).

(** The note lies in a live shared folder. *)
Definition note_shared (d : db) (noteID : string) : bool :=
  exists_where (fun m => (nf_note m =? noteID)%string &&
    exists_where (fun f => has_id (nf_folder m) f && is_shared f && live f) (folders d)) (note_folders d).

Definition loadNoteFolderAuthContext (requesterID noteID folderID : string) (d : db) : noteFolderAuthContext :=
  let n := head (select_where (fun n => (n_id n =? noteID)%string && note_live n) (notes d)) in
  let f := head (select_where (fun f => has_id folderID f && live f) (folders d)) in
  {| noteExists := bool_decide (is_Some n);
     noteOwnerID := match n with Some n => n_owner n | None => "" end;
     noteReadable := match n with
                     | Some n => (n_owner n =? requesterID)%string || note_shared d noteID
                     | None => false
                     end;
     folderExists := bool_decide (is_Some f);
     folderOwnerID := match f with Some f => f_owner f | None => "" end;
     folderVisibility := match f with Some f => f_visibility f | None => "" end |}.

Definition AddNoteFolder (requesterID noteID folderID : string) (d : db) : result store_error unit * db :=
  let c := loadNoteFolderAuthContext requesterID noteID folderID d in
  if negb (noteVisible c requesterID) || negb (folderVisible c requesterID) then (Err ErrNotFound, d)
  else if negb (noteOwnerID c =? requesterID)%string then (Err ErrForbidden, d)
  else
    let mem := note_folders d in
    let m := mkNF noteID folderID (next_position (map nf_position
               (select_where (fun m => (nf_folder m =? folderID)%string) mem))) in
    (Ok tt, if exists_where (membership noteID folderID) mem then d else with_note_folders (mem ++ [m]) d).

Definition RemoveNoteFolder (requesterID noteID folderID : string) (d : db) : result store_error unit * db :=
  let c := loadNoteFolderAuthContext requesterID noteID folderID d in
  if negb (noteVisible c requesterID) || negb (folderVisible c requesterID) then (Err ErrNotFound, d)
  else if negb (noteOwnerID c =? requesterID)%string && negb (folderOwnerID c =? requesterID)%string
  then (Err ErrForbidden, d)
  else (Ok tt, with_note_folders (delete_where (membership noteID folderID) (note_folders d)) d).

Definition NoteFolderIDs (noteID : string) (d : db) : list string :=
  map nf_folder (select_where (fun m => (nf_note m =? noteID)%string) (note_folders d)).

Definition readable_membership (requesterID : string) (d : db) (m : note_folder) : bool :=
  exists_where (fun f => has_id (nf_folder m) f && visible requesterID f) (folders d).

Definition readableNoteFolderIDsTx (requesterID noteID : string) (d : db) : list string :=
  map nf_folder (select_where (fun m => (nf_note m =? noteID)%string && readable_membership requesterID d m)
                   (note_folders d)).

(** [out\[nid\] = append(out\[nid\], fid)] over the rows. *)
Definition group_by_note (rows : list note_folder) : gmap string (list string) :=
  fold_left (fun out m => <[nf_note m := default [] (out !! nf_note m) ++ [nf_folder m]]> out) rows ∅.

Definition foldersForNotes (noteIDs : list string) (d : db) : gmap string (list string) :=
  group_by_note (select_where (fun m => bool_decide (nf_note m ∈ noteIDs)) (note_folders d)).

Definition readableFoldersForNotesTx (requesterID : string) (noteIDs : list string) (d : db)
  : gmap string (list string) :=
  group_by_note (select_where (fun m => bool_decide (nf_note m ∈ noteIDs) && readable_membership requesterID d m)
                   (note_folders d)).

End Operations.
