(* ===== verification/FoldersProps.v ===== *)
(** Correctness of the folder tree: the theorems about [Folders]. *)

From stdpp Require Import base list relations strings sets gmap sorting.
From Stdlib Require Import ZArith Lia.
From S2P Require Import GoInt GoStrings Sql Folders.

Local Open Scope Z_scope.

(** ** Trees of folders, by id *)

(** [b] is the parent of [a]. *)
Definition up (t : list folder) (a b : string) : Prop :=
  exists f, f ∈ t /\ f_id f = a /\ f_parent f = Some b.

(** Every folder's parent exists and has the same owner. *)
Definition closed (t : list folder) : Prop :=
  forall f p, f ∈ t -> f_parent f = Some p -> exists g, g ∈ t /\ f_id g = p /\ f_owner g = f_owner f.

Definition acyclic (t : list folder) : Prop :=
  exists rank : string -> nat, forall a b, up t a b -> (rank b < rank a)%nat.

Definition tree_ok (t : list folder) : Prop := NoDup (map f_id t) /\ closed t /\ acyclic t.

(** A live folder lies in a live folder. *)
Definition live_ok (t : list folder) : Prop :=
  forall f g, f ∈ t -> g ∈ t -> f_parent f = Some (f_id g) -> live f = true -> live g = true.

Lemma has_id_true id f : has_id id f = true <-> f_id f = id.
Proof. apply String.eqb_eq. Qed.

Lemma has_id_self f : has_id (f_id f) f = true.
Proof. by apply has_id_true. Qed.

Lemma owned_by_true o f : owned_by o f = true <-> f_owner f = o.
Proof. apply String.eqb_eq. Qed.

Lemma parent_is_true p f : parent_is p f = true <-> f_parent f = p.
Proof. apply bool_decide_eq_true. Qed.

Lemma trashed_live f : trashed f = negb (live f).
Proof. done. Qed.

Lemma folder_unique t f g : NoDup (map f_id t) -> f ∈ t -> g ∈ t -> f_id f = f_id g -> f = g.
Proof.
  intros Hnd Hf Hg E. induction t as [|x t IH]; [by apply elem_of_nil in Hf|].
  cbn in Hnd. apply NoDup_cons in Hnd as [Hx Hnd].
  apply elem_of_cons in Hf as [->|Hf], Hg as [->|Hg]; try done.
  - exfalso. apply Hx, list_elem_of_fmap. eauto.
  - exfalso. apply Hx, list_elem_of_fmap. eauto.
  - by apply IH.
Qed.

Lemma up_functional t a b b' : NoDup (map f_id t) -> up t a b -> up t a b' -> b = b'.
Proof.
  intros Hnd (f & Hf & Hid & Hp) (g & Hg & Hid' & Hp').
  assert (f = g) as -> by (apply (folder_unique t); congruence). congruence.
Qed.

Section Shape.
(** What [tree_ok] depends on. *)
Definition shape (t : list folder) := map (fun f => (f_id f, f_owner f, f_parent f)) t.

Lemma shape_elem t t' f :
  shape t = shape t' -> f ∈ t ->
  exists f', f' ∈ t' /\ f_id f' = f_id f /\ f_owner f' = f_owner f /\ f_parent f' = f_parent f.
Proof.
  intros E Hf.
  assert (H : (f_id f, f_owner f, f_parent f) ∈ shape t) by (apply list_elem_of_fmap; eauto).
  rewrite E in H. apply list_elem_of_fmap in H as (f' & E' & Hf'). exists f'. by simplify_eq.
Qed.

Lemma shape_up t t' a b : shape t = shape t' -> up t a b -> up t' a b.
Proof.
  intros E (f & Hf & <- & Hp). destruct (shape_elem t t' f E Hf) as (f' & ? & ? & ? & ?).
  exists f'. split_and!; congruence.
Qed.

Lemma shape_ids t t' : shape t = shape t' -> map f_id t = map f_id t'.
Proof.
  intros E. assert (H : forall l, map f_id l = map (fun x => x.1.1) (shape l)).
  { intros l. unfold shape. by rewrite map_map. }
  by rewrite !H, E.
Qed.

Lemma tree_ok_shape t t' : shape t' = shape t -> tree_ok t -> tree_ok t'.
Proof.
  intros E (Hnd & Hcl & [rank Hr]). split; [by rewrite (shape_ids t' t)|]. split.
  - intros f p Hf Hp. destruct (shape_elem t' t f E Hf) as (f0 & Hf0 & _ & Ho & Hp0).
    destruct (Hcl f0 p Hf0) as (g & Hg & Hid & Hog); [congruence|].
    destruct (shape_elem t t' g (eq_sym E) Hg) as (g' & ? & ? & ? & _). exists g'. split_and!; congruence.
  - exists rank. intros a b H. apply Hr. by apply (shape_up t' t).
Qed.

Lemma shape_update p g t :
  (forall f, f_id (g f) = f_id f /\ f_owner (g f) = f_owner f /\ f_parent (g f) = f_parent f) ->
  shape (update_where p g t) = shape t.
Proof.
  intros Hg. unfold shape, update_where. rewrite map_map. apply map_ext. intros f.
  destruct (p f); [|done]. by destruct (Hg f) as (-> & -> & ->).
Qed.
End Shape.

(** ** Ranks bound the recursive queries *)

Lemma up_ids t a b : closed t -> up t a b -> a ∈ map f_id t /\ b ∈ map f_id t.
Proof.
  intros Hcl (f & Hf & <- & Hp). destruct (Hcl f b Hf Hp) as (g & Hg & <- & _).
  split; apply list_elem_of_fmap; eauto.
Qed.

Section Total.
Context {row : Type} (key : row -> folder) (next : row -> list row) (t : list folder).
Hypothesis tree : tree_ok t.

(** A query that climbs from child to parent. *)
Lemma up_query_total work :
  (forall a b, b ∈ next a -> key a ∈ t -> key b ∈ t /\ f_parent (key a) = Some (f_id (key b))) ->
  (forall r, r ∈ work -> key r ∈ t) ->
  exists out, with_recursive next (query_fuel t) work = Some out.
Proof.
  intros Hnext Hwork. apply with_recursive_total. intros r x Hr Hn.
  destruct tree as (_ & _ & [rank Hrank]).
  set (R := fun a b => key a ∈ t /\ joined next a b).
  assert (HR : nsteps R (query_fuel t) r x).
  { apply Hwork in Hr. clear Hwork. induction Hn as [|n a b c Hab _ IH]; [constructor|].
    destruct (Hnext a b Hab Hr). eapply nsteps_l; [split; eauto|auto]. }
  apply (nsteps_bound R (fun a => f_id (key a)) rank (map f_id t)) in HR.
  - rewrite length_map in HR. unfold query_fuel in HR. lia.
  - intros a b [Ha Hab]. destruct (Hnext a b Hab Ha). apply Hrank. exists (key a). eauto.
  - intros a b [Ha Hab]. destruct (Hnext a b Hab Ha). apply list_elem_of_fmap. eauto.
  - apply list_elem_of_fmap. exists (key r). split; [done|]. by apply Hwork.
Qed.

(** A query that descends from parent to children. *)
Lemma down_query_total work :
  (forall a b, b ∈ next a -> key b ∈ t /\ f_parent (key b) = Some (f_id (key a))) ->
  (forall r, r ∈ work -> key r ∈ t) ->
  exists out, with_recursive next (query_fuel t) work = Some out.
Proof.
  intros Hnext Hwork. apply with_recursive_total. intros r x Hr Hn.
  destruct tree as (_ & _ & [rank Hrank]).
  set (top := foldr (fun f m => Nat.max (rank (f_id f)) m) 0%nat t).
  assert (Htop : forall f, f ∈ t -> (rank (f_id f) <= top)%nat).
  { intros f Hf. by apply (foldr_max_ge (fun f => rank (f_id f))). }
  apply (nsteps_bound (joined next) (fun a => f_id (key a)) (fun k => top - rank k)%nat (map f_id t)) in Hn.
  - rewrite length_map in Hn. unfold query_fuel in Hn. lia.
  - intros a b Hab. destruct (Hnext a b Hab) as [Hb Hp]. specialize (Htop _ Hb).
    assert (rank (f_id (key a)) < rank (f_id (key b)))%nat; [|lia]. apply Hrank. exists (key b). eauto.
  - intros a b Hab. destruct (Hnext a b Hab). apply list_elem_of_fmap. eauto.
  - apply list_elem_of_fmap. exists (key r). split; [done|]. by apply Hwork.
Qed.
End Total.

(** ** What the queries return *)

Lemma select_id_elem id o (q : folder -> bool) t r :
  r ∈ select_where (fun f => has_id id f && owned_by o f && q f) t <->
  r ∈ t /\ f_id r = id /\ f_owner r = o /\ q r = true.
Proof.
  rewrite elem_of_select_where, !andb_true_iff, has_id_true, owned_by_true. tauto.
Qed.

(** Rows and ids at once: a path of ids from a folder is a path of rows. *)
Lemma up_row t f b : tree_ok t -> f ∈ t -> up t (f_id f) b ->
  exists g, g ∈ t /\ f_id g = b /\ f_owner g = f_owner f /\ f_parent f = Some (f_id g).
Proof.
  intros (Hnd & Hcl & _) Hf (f' & Hf' & Hid & Hp). assert (f' = f) as -> by (by apply (folder_unique t)).
  destruct (Hcl f b Hf Hp) as (g & ? & <- & ?). eauto.
Qed.

Section Subtree.
Context (t : list folder) (o : string) (next : folder -> list folder).
Hypothesis Hnext : forall a b, b ∈ next a -> b ∈ t /\ f_parent b = Some (f_id a) /\ f_owner b = o.

Lemma subtree_sound work rows fuel x :
  with_recursive next fuel work = Some rows -> (forall r, r ∈ work -> r ∈ t /\ f_owner r = o) ->
  x ∈ rows -> x ∈ t /\ f_owner x = o /\ exists r, r ∈ work /\ rtc (up t) (f_id x) (f_id r).
Proof.
  intros Hq Hwork Hx. apply (with_recursive_spec _ _ _ _ Hq) in Hx as (r & Hr & Hp).
  destruct (Hwork r Hr) as [Hrt Hro].
  enough (H : x ∈ t /\ f_owner x = o /\ rtc (up t) (f_id x) (f_id r)) by (destruct H as (? & ? & ?); eauto).
  clear Hr. induction Hp as [r|r y x Hry _ IH]; [by split_and!|].
  destruct (Hnext r y Hry) as (? & ? & ?). destruct IH as (? & ? & Hp); [done..|]. split_and!; [done..|].
  eapply rtc_r; [exact Hp|]. exists y. eauto.
Qed.

(** Complete for the rows of the subtree that lie on kept paths. *)
Lemma subtree_complete work rows fuel x r (Q : folder -> Prop) :
  tree_ok t ->
  (forall a b, b ∈ t -> f_parent b = Some (f_id a) -> f_owner b = o -> Q b -> b ∈ next a) ->
  with_recursive next fuel work = Some rows ->
  r ∈ work -> r ∈ t -> f_owner r = o ->
  (forall y, y ∈ t -> rtc (up t) (f_id y) (f_id r) -> Q y) ->
  x ∈ t -> rtc (up t) (f_id x) (f_id r) -> x ∈ rows /\ f_owner x = o.
Proof.
  intros Ht Hcomp Hq Hr Hrt Hro HQ Hx Hp. pose proof Ht as (Hnd & _).
  enough (rtc (joined next) r x /\ f_owner x = o) as [H Hox].
  { split; [|done]. apply (with_recursive_spec _ _ _ _ Hq). eauto. }
  remember (f_id x) as a eqn:Ea. remember (f_id r) as b eqn:Eb.
  revert x Ea Hx. induction Hp as [a|a c b Hac Hp IH]; intros x -> Hx.
  - assert (x = r) as -> by (by apply (folder_unique t)). by split.
  - destruct (up_row t x c Ht Hx Hac) as (y & Hy & <- & Hyo & Hpar).
    destruct (IH Eb HQ y) as [Hry Hoy]; [done|done|]. split; [|congruence].
    eapply rtc_r; [exact Hry|]. apply Hcomp; [done|done|congruence|]. apply HQ; [done|].
    by eapply rtc_l.
Qed.
End Subtree.

Lemma children_sound o t a b :
  b ∈ children o t a -> b ∈ t /\ f_parent b = Some (f_id a) /\ f_owner b = o.
Proof.
  unfold children. rewrite elem_of_select_where, andb_true_iff, parent_is_true, owned_by_true. tauto.
Qed.

Lemma children_complete o t a b :
  b ∈ t -> f_parent b = Some (f_id a) -> f_owner b = o -> b ∈ children o t a.
Proof.
  unfold children. rewrite elem_of_select_where, andb_true_iff, parent_is_true, owned_by_true. tauto.
Qed.

Lemma live_children_spec o t a b :
  b ∈ live_children o t a <-> b ∈ children o t a /\ live b = true.
Proof. unfold live_children, children. rewrite !elem_of_select_where, !andb_true_iff. tauto. Qed.

Lemma trashed_children_spec o t a b :
  b ∈ trashed_children o t a <-> b ∈ children o t a /\ trashed b = true.
Proof. unfold trashed_children, children. rewrite !elem_of_select_where, !andb_true_iff. tauto. Qed.

Lemma parents_spec o t a b :
  b ∈ parents o t a <-> b ∈ t /\ f_parent a = Some (f_id b) /\ f_owner b = o.
Proof.
  unfold parents. rewrite elem_of_select_where, andb_true_iff, owned_by_true, bool_decide_eq_true. tauto.
Qed.

Lemma rtc_up_owner t f g : tree_ok t -> f ∈ t -> g ∈ t -> rtc (up t) (f_id f) (f_id g) -> f_owner f = f_owner g.
Proof.
  intros Ht Hf Hg Hp. remember (f_id f) as a eqn:Ea. remember (f_id g) as b eqn:Eb. revert f Ea Hf.
  induction Hp as [a|a c b Hac Hp IH]; intros f -> Hf.
  - f_equal. destruct Ht as [Hnd _]. by apply (folder_unique t).
  - destruct (up_row t f c Ht Hf Hac) as (h & Hh & <- & <- & _). by apply (IH Eb).
Qed.

Lemma rtc_up_row t f b : tree_ok t -> f ∈ t -> rtc (up t) (f_id f) b -> exists g, g ∈ t /\ f_id g = b.
Proof.
  intros Ht Hf [<-|(c & _ & Hc)]%rtc_inv_r; [eauto|].
  apply up_ids in Hc as [_ Hb]; [|apply Ht]. apply list_elem_of_fmap in Hb as (g & -> & ?). eauto.
Qed.

(** Everything on the way up from a live folder is live. *)
Lemma rtc_up_live t f g :
  tree_ok t -> live_ok t -> f ∈ t -> g ∈ t -> live f = true -> rtc (up t) (f_id f) (f_id g) -> live g = true.
Proof.
  intros Ht Hl Hf Hg Hlf Hp. remember (f_id f) as a eqn:Ea. remember (f_id g) as b eqn:Eb. revert f Ea Hf Hlf.
  induction Hp as [a|a c b Hac Hp IH]; intros f -> Hf Hlf.
  - assert (g = f) as -> by (destruct Ht as [Hnd _]; by apply (folder_unique t)). done.
  - destruct (up_row t f c Ht Hf Hac) as (h & Hh & <- & _ & Hpar). apply (IH Eb h); [done..|].
    by apply (Hl f h).
Qed.

(** [folderDescendants] is the set of ids below [id]. *)
Lemma folderDescendants_spec t o id f :
  tree_ok t -> f ∈ t -> f_id f = id -> f_owner f = o ->
  exists s, folderDescendants o id t = Ok s /\ forall x, x ∈ s <-> rtc (up t) x id.
Proof.
  intros Ht Hf <- <-. unfold folderDescendants.
  set (anchor := select_where _ t).
  assert (Hanchor : forall r, r ∈ anchor -> r ∈ t /\ f_id r = f_id f /\ f_owner r = f_owner f).
  { intros r. unfold anchor. rewrite elem_of_select_where, andb_true_iff, has_id_true, owned_by_true. tauto. }
  destruct (down_query_total (fun x => x) (children (f_owner f) t) t Ht anchor) as [rows Hq].
  { intros a b Hb. by apply children_sound in Hb as (? & ? & _). }
  { intros r Hr. by apply Hanchor in Hr as []. }
  rewrite Hq. cbn. eexists. split; [done|]. intros x. rewrite elem_of_list_to_set, list_elem_of_fmap. split.
  - intros (y & -> & Hy). eapply subtree_sound in Hy as (_ & _ & r & Hr & Hp); [|apply children_sound|exact Hq|].
    + by apply Hanchor in Hr as (_ & <- & _).
    + intros r Hr. by apply Hanchor in Hr as (? & _ & ?).
  - intros Hp. assert (Hx : exists y, y ∈ t /\ f_id y = x).
    { apply rtc_inv in Hp as [->|(c & Hc & _)]; [eauto|]. apply up_ids in Hc as [Hx _]; [|apply Ht].
      apply list_elem_of_fmap in Hx as (y & -> & ?). eauto. }
    destruct Hx as (y & Hy & <-). exists y. split; [done|].
    eapply (subtree_complete t (f_owner f) (children (f_owner f) t) anchor rows _ y f (fun _ => True));
      [exact Ht|intros; by apply children_complete|exact Hq| |done..].
    unfold anchor. rewrite elem_of_select_where, andb_true_iff. by rewrite has_id_self, owned_by_true.
Qed.

(** ** Levels *)

Lemma counted_reach next fuel work out r k n g :
  with_recursive (counted next) fuel work = Some out ->
  (r, k) ∈ work -> nsteps (joined next) n r g -> (k + n <= max_level out)%nat.
Proof.
  intros Hq Hr Hn. apply (foldr_max_ge snd out (g, k + n)%nat). apply (with_recursive_spec _ _ _ _ Hq).
  exists (r, k). split; [done|]. clear Hr Hq. revert k. induction Hn as [r|n r y g Hry Hn IH]; intros k.
  - by rewrite Nat.add_0_r.
  - apply rtc_l with (y, S k); [by apply list_elem_of_fmap; exists y|].
    replace (k + S n)%nat with (S k + n)%nat by lia. apply IH.
Qed.

Lemma folder_depth_spec t o f n :
  tree_ok t -> f ∈ t -> f_owner f = o -> folder_depth o (f_id f) t = Ok n ->
  forall k b, nsteps (up t) k (f_id f) b -> (S k <= n)%nat.
Proof.
  intros Ht Hf <- Hd k b Hk. unfold folder_depth in Hd. apply result_bind_ok in Hd as (rows & Hq & [= <-]).
  destruct (with_recursive _ _ _) as [out|] eqn:E; [|done]. injection Hq as ->.
  enough (exists g, nsteps (joined (parents (f_owner f) t)) k f g) as [g Hg].
  { change (S k) with (1 + k)%nat. eapply counted_reach; [exact E| |exact Hg].
    apply list_elem_of_fmap. exists f. split; [done|].
    by rewrite elem_of_select_where, andb_true_iff, has_id_self, owned_by_true. }
  clear E rows. remember (f_id f) as a eqn:Ea. remember (f_owner f) as o eqn:Eo.
  revert f Ea Eo Hf. induction Hk as [a|k a c b Hac Hk IH]; intros f -> Eo Hf; [exists f; constructor|].
  destruct (up_row t f c Ht Hf Hac) as (h & Hh & <- & Ho & Hp).
  destruct (IH h) as [g Hg]; [done|congruence|done|]. exists g. eapply nsteps_l; [|done].
  apply parents_spec. split_and!; congruence.
Qed.

Lemma folder_depth_total t o id : tree_ok t -> exists n, folder_depth o id t = Ok n.
Proof.
  intros Ht. unfold folder_depth.
  edestruct (up_query_total fst (counted (parents o t)) t Ht) as [out ->]; [| |cbn; eauto].
  - intros [a i] [b j] Hb Ha. apply list_elem_of_fmap in Hb as (b' & [= -> ->] & Hb).
    apply parents_spec in Hb as (? & ? & _). done.
  - intros r Hr. apply list_elem_of_fmap in Hr as (x & -> & Hx). by apply elem_of_select_where in Hx as [].
Qed.

Lemma subtreeHeight_total t o id : tree_ok t -> exists n, subtreeHeight o id t = Ok n.
Proof.
  intros Ht. unfold subtreeHeight.
  edestruct (down_query_total fst (counted (live_children o t)) t Ht) as [out ->]; [| |cbn; eauto].
  - intros [a i] [b j] Hb. apply list_elem_of_fmap in Hb as (b' & [= -> ->] & Hb).
    apply live_children_spec in Hb as [Hb _]. by apply children_sound in Hb as (? & ? & _).
  - intros r Hr. apply list_elem_of_fmap in Hr as (x & -> & Hx). by apply elem_of_select_where in Hx as [].
Qed.

Lemma subtreeHeight_spec t o f n x k :
  tree_ok t -> live_ok t -> f ∈ t -> f_owner f = o -> live f = true -> subtreeHeight o (f_id f) t = Ok n ->
  x ∈ t -> live x = true -> nsteps (up t) k (f_id x) (f_id f) -> (k <= n)%nat.
Proof.
  intros Ht Hl Hf <- Hlf Hd Hx Hlx Hk. unfold subtreeHeight in Hd.
  apply result_bind_ok in Hd as (rows & Hq & [= <-]).
  destruct (with_recursive _ _ _) as [out|] eqn:E; [|done]. injection Hq as ->.
  change k with (0 + k)%nat. eapply counted_reach; [exact E| |].
  { apply list_elem_of_fmap. exists f. split; [done|].
    by rewrite elem_of_select_where, !andb_true_iff, has_id_self, owned_by_true. }
  clear E rows. remember (f_id x) as a eqn:Ea. remember (f_id f) as b eqn:Eb.
  enough (H : nsteps (joined (live_children (f_owner f) t)) k f x /\ f_owner x = f_owner f) by exact (proj1 H).
  revert x Ea Hx Hlx. induction Hk as [a|k a c b Hac Hk IH]; intros x -> Hx Hlx.
  - assert (x = f) as -> by (destruct Ht as [Hnd _]; by apply (folder_unique t)). split; constructor.
  - destruct (up_row t x c Ht Hx Hac) as (h & Hh & <- & Ho & Hp).
    destruct (IH Eb h eq_refl Hh) as [Hn Hoh]; [by apply (Hl x h)|].
    split; [|congruence]. eapply nsteps_r; [done|]. apply live_children_spec. split; [|done].
    apply children_complete; congruence.
Qed.

(** ** [validateParent] *)

Lemma parent_exists t o p :
  exists_where (fun f => has_id p f && owned_by o f && live f) t = true <->
  exists g, g ∈ t /\ f_id g = p /\ f_owner g = o /\ live g = true.
Proof.
  rewrite exists_where_true. split; intros (g & Hg & H); exists g;
    rewrite !andb_true_iff, has_id_true, owned_by_true in *; tauto.
Qed.

Lemma validateParent_create t o p :
  validateParent o "" (Some p) t = Ok tt ->
  (exists g, g ∈ t /\ f_id g = p /\ f_owner g = o /\ live g = true) /\
  exists n, folder_depth o p t = Ok n /\ (n + 1 <= maxFolderDepth)%nat.
Proof.
  unfold validateParent. destruct (p =? "")%string; [done|].
  destruct (exists_where _ t) eqn:Ep; [|done]. apply parent_exists in Ep. cbn [negb].
  intros (? & _ & (n & Hd & H)%result_bind_ok)%result_bind_ok. split; [done|]. exists n. split; [done|].
  apply result_bind_ok in H as (h & [= <-] & H). destruct (_ <? _)%nat eqn:El; [done|]. apply Nat.ltb_ge in El. lia.
Qed.

Lemma validateParent_move t o id p f :
  tree_ok t -> f ∈ t -> f_id f = id -> f_owner f = o -> id <> ""%string ->
  validateParent o id (Some p) t = Ok tt ->
  (exists g, g ∈ t /\ f_id g = p /\ f_owner g = o /\ live g = true) /\ ~ rtc (up t) p id /\
  exists n h, folder_depth o p t = Ok n /\ subtreeHeight o id t = Ok h /\ (n + h + 1 <= maxFolderDepth)%nat.
Proof.
  intros Ht Hf Hid Ho Hne. unfold validateParent. destruct (p =? id)%string; [done|].
  destruct (exists_where _ t) eqn:Ep; [|done]. apply parent_exists in Ep. cbn [negb].
  rewrite (proj2 (String.eqb_neq id "") Hne). cbn [negb].
  intros (? & (s & Hs & Hg)%result_bind_ok & (n & Hd & H)%result_bind_ok)%result_bind_ok. split; [done|].
  destruct (folderDescendants_spec t o id f Ht Hf Hid Ho) as (s' & Hs' & Hspec).
  rewrite Hs in Hs'. injection Hs' as <-. split.
  - apply guard_ok in Hg. apply negb_true_iff in Hg. apply bool_decide_eq_false in Hg. by rewrite <- Hspec.
  - apply result_bind_ok in H as (h & Hh & H). exists n, h. split_and!; [done..|].
    destruct (_ <? _)%nat eqn:El; [done|]. apply Nat.ltb_ge in El. lia.
Qed.

(** What the check promises of any tables it reads. *)
Lemma validateParent_parent t o id p :
  validateParent o id (Some p) t = Ok tt -> exists g, g ∈ t /\ f_id g = p /\ f_owner g = o /\ live g = true.
Proof.
  unfold validateParent. destruct (p =? id)%string; [done|].
  destruct (exists_where _ t) eqn:Ep; [|done]. by apply parent_exists in Ep.
Qed.

Lemma updated_parent name parentID b pos f : f_parent (updated_folder name parentID b pos f) = parentID.
Proof. unfold updated_folder. by destruct b. Qed.

(** The only failure is a rejected parent: the queries end. *)
Lemma validateParent_total t o id parentID e :
  tree_ok t -> (id = ""%string \/ exists f, f ∈ t /\ f_id f = id /\ f_owner f = o) ->
  validateParent o id parentID t = Err e -> e = ErrInvalidParent.
Proof.
  intros Ht Hid. destruct parentID as [p|]; [|done]. unfold validateParent.
  destruct (p =? id)%string; [congruence|]. destruct (negb (exists_where _ t)); [congruence|].
  destruct (folder_depth_total t o p Ht) as [n Hn], (subtreeHeight_total t o id Ht) as [h Hh].
  rewrite Hn, Hh. cbn. destruct (String.eqb_spec id "") as [->|Hne]; cbn.
  - repeat case_match; congruence.
  - destruct Hid as [->|(f & Hf & Hfid & Hfo)]; [done|].
    destruct (folderDescendants_spec t o id f Ht Hf Hfid Hfo) as (s & -> & _). cbn.
    unfold guard. repeat (case_match; cbn); congruence.
Qed.

(** ** Authorization *)

Lemma authorize_ok req id t :
  authorizeLiveFolderOwnerMutation req id t = Ok tt ->
  exists f, f ∈ t /\ f_id f = id /\ f_owner f = req /\ live f = true.
Proof.
  unfold authorizeLiveFolderOwnerMutation.
  destruct (select_where _ t) as [|f l] eqn:E; [done|].
  assert (Hf : f ∈ select_where (fun f => has_id id f && live f) t) by (rewrite E; left).
  apply elem_of_select_where in Hf as [Hf [Hid Hl]%andb_true_iff]. apply has_id_true in Hid.
  destruct (owned_by req f) eqn:Eo; [|by destruct (is_shared f)].
  apply owned_by_true in Eo. eauto.
Qed.

(** Selecting a row by its id. *)
Lemma select_row (q : folder -> bool) t f :
  NoDup (map f_id t) -> f ∈ t -> q f = true -> (forall g, q g = true -> f_id g = f_id f) ->
  exists l, select_where q t = f :: l.
Proof.
  intros Hnd Hf Hq Hids. assert (Hin : f ∈ select_where q t) by (apply elem_of_select_where; done).
  destruct (select_where q t) as [|g l] eqn:E; [by apply elem_of_nil in Hin|]. exists l. f_equal.
  assert (Hg : g ∈ select_where q t) by (rewrite E; left). apply elem_of_select_where in Hg as [Hg Hqg].
  apply (folder_unique t); auto.
Qed.

Lemma select_live_row t f :
  NoDup (map f_id t) -> f ∈ t -> live f = true ->
  exists l, select_where (fun g => has_id (f_id f) g && live g) t = f :: l.
Proof.
  intros Hnd Hf Hl. apply select_row; [done..|by rewrite has_id_self|].
  by intros g [Hg%has_id_true _]%andb_true_iff.
Qed.

Lemma select_mine_row t f :
  NoDup (map f_id t) -> f ∈ t -> live f = true ->
  exists l, select_where (fun g => has_id (f_id f) g && owned_by (f_owner f) g && live g) t = f :: l.
Proof.
  intros Hnd Hf Hl. apply select_row; [done..| |].
  - by rewrite has_id_self, Hl, (proj2 (owned_by_true _ f) eq_refl).
  - by intros g [[Hg%has_id_true _]%andb_true_iff _]%andb_true_iff.
Qed.

(** ** The invariant of the tables *)

Section Invariant.
Variable lower : string -> string.
Variable name_lt : string -> string -> bool.

Definition names_ok (t : list folder) : Prop :=
  forall f g, f ∈ t -> g ∈ t -> same_name lower f g = true -> f_id f = f_id g.

(** Column values: a uuid is never empty, and the [CHECK] on [visibility]. *)
Definition columns_ok (t : list folder) : Prop :=
  forall f, f ∈ t -> f_id f <> ""%string /\ (f_visibility f = FolderPrivate \/ f_visibility f = FolderShared).

Definition folders_ok (t : list folder) : Prop := tree_ok t /\ live_ok t /\ names_ok t /\ columns_ok t.

(** What remains when a parent check is overtaken by another request: rows
    are identified by their id, a parent is a folder of the same owner, and
    names and columns are as before; a folder may lie below itself or in a
    trashed one. *)
Definition rows_ok (t : list folder) : Prop := NoDup (map f_id t) /\ closed t /\ names_ok t /\ columns_ok t.

Lemma folders_ok_rows t : folders_ok t -> rows_ok t.
Proof. intros ((? & ? & _) & _ & ? & ?). done. Qed.

(** Memberships: the primary key and the foreign keys. *)
Definition filing_ok (d : db) : Prop :=
  NoDup (map n_id (notes d)) /\ NoDup (map (fun m => (nf_note m, nf_folder m)) (note_folders d)) /\
  forall m, m ∈ note_folders d -> nf_note m ∈ map n_id (notes d) /\ nf_folder m ∈ map f_id (folders d).

Definition db_ok (d : db) : Prop := folders_ok (folders d) /\ filing_ok d.
Definition tables_ok (d : db) : Prop := rows_ok (folders d) /\ filing_ok d.

(** Rows updated in columns the tree does not depend on. *)
Lemma names_ok_update p (g : folder -> folder) t :
  (forall f, f_id (g f) = f_id f /\ f_owner (g f) = f_owner f /\ f_name (g f) = f_name f) ->
  names_ok t -> names_ok (update_where p g t).
Proof.
  intros Hg Hn f' g' (f & Hf & ->)%elem_of_update_where (x & Hx & ->)%elem_of_update_where Hs.
  assert (E : forall y, f_id (if p y then g y else y) = f_id y /\ f_owner (if p y then g y else y) = f_owner y
    /\ f_name (if p y then g y else y) = f_name y) by (intros y; destruct (p y); auto).
  destruct (E f) as (E1 & E2 & E3), (E x) as (F1 & F2 & F3). rewrite E1, F1. apply Hn; [done..|].
  revert Hs. unfold same_name. by rewrite E2, E3, F2, F3.
Qed.

Lemma columns_ok_update p (g : folder -> folder) t :
  (forall f, f_id (g f) = f_id f) ->
  (forall f, f ∈ t -> p f = true -> f_visibility (g f) = FolderPrivate \/ f_visibility (g f) = FolderShared) ->
  columns_ok t -> columns_ok (update_where p g t).
Proof.
  intros Hid Hv Hc f' (f & Hf & ->)%elem_of_update_where. destruct (Hc f Hf), (p f) eqn:E; [|done].
  rewrite Hid. auto.
Qed.

(** [g] changes at most position and visibility. *)
Lemma folders_ok_cosmetic p (g : folder -> folder) t :
  (forall f, f_id (g f) = f_id f /\ f_owner (g f) = f_owner f /\ f_parent (g f) = f_parent f /\
     f_name (g f) = f_name f /\ f_deleted (g f) = f_deleted f) ->
  (forall f, f ∈ t -> p f = true -> f_visibility (g f) = FolderPrivate \/ f_visibility (g f) = FolderShared) ->
  folders_ok t -> folders_ok (update_where p g t).
Proof.
  intros Hg Hv (Ht & Hl & Hn & Hc). split_and!.
  - eapply tree_ok_shape; [|exact Ht]. apply shape_update. intros f. by destruct (Hg f) as (-> & -> & -> & _).
  - assert (E : forall y, f_id (if p y then g y else y) = f_id y /\
      f_parent (if p y then g y else y) = f_parent y /\ live (if p y then g y else y) = live y).
    { intros y. destruct (p y); [|done]. destruct (Hg y) as (-> & _ & -> & _ & E). unfold live. by rewrite E. }
    intros f' g' (f & Hf & ->)%elem_of_update_where (x & Hx & ->)%elem_of_update_where.
    destruct (E f) as (_ & -> & ->), (E x) as (-> & _ & ->). by apply Hl.
  - apply names_ok_update; [|done]. intros f. by destruct (Hg f) as (-> & -> & _ & -> & _).
  - apply columns_ok_update; [|done..]. intros f. by destruct (Hg f) as (-> & _).
Qed.

(** [g] changes at most the trash mark. *)
Lemma folders_ok_deleted p x t :
  live_ok (update_where p (set_deleted x) t) -> folders_ok t -> folders_ok (update_where p (set_deleted x) t).
Proof.
  intros Hl' (Ht & _ & Hn & Hc). split_and!; [|done| |].
  - eapply tree_ok_shape; [|exact Ht]. by apply shape_update.
  - by apply names_ok_update.
  - apply columns_ok_update; [done| |done]. intros f Hf _. cbn. by destruct (Hc f Hf).
Qed.

Lemma delete_where_sub p (t : list folder) f : f ∈ delete_where p t -> f ∈ t.
Proof. by intros [? _]%elem_of_delete_where. Qed.

(** Removing rows keeps the invariant when no orphan is left. *)
Lemma folders_ok_delete (gone : folder -> bool) t :
  (forall f g, f ∈ t -> g ∈ t -> f_parent f = Some (f_id g) -> gone g = true -> gone f = true) ->
  folders_ok t -> folders_ok (delete_where gone t).
Proof.
  intros Hgone ((Hnd & Hcl & [rank Hr]) & Hl & Hn & Hc). split_and!.
  - split; [by apply NoDup_map_filter|]. split.
    + intros f p [Hf Hgf]%elem_of_delete_where Hp. destruct (Hcl f p Hf Hp) as (g & Hg & <- & Ho).
      exists g. split; [|done]. apply elem_of_delete_where. split; [done|].
      destruct (gone g) eqn:E; [|done]. by rewrite (Hgone f g Hf Hg Hp E) in Hgf.
    + exists rank. intros a b (f & Hf%delete_where_sub & H). apply Hr. exists f. tauto.
  - intros f g Hf%delete_where_sub Hg%delete_where_sub. by apply Hl.
  - intros f g Hf%delete_where_sub Hg%delete_where_sub. by apply Hn.
  - intros f Hf%delete_where_sub. by apply Hc.
Qed.

(** The same for [rows_ok]: [g] changes at most the parent, to none, the
    position, the visibility and the trash mark. *)
Lemma rows_ok_update p (g : folder -> folder) t :
  (forall f, f_id (g f) = f_id f /\ f_owner (g f) = f_owner f /\ f_name (g f) = f_name f /\
     (f_parent (g f) = f_parent f \/ f_parent (g f) = None)) ->
  (forall f, f ∈ t -> p f = true -> f_visibility (g f) = FolderPrivate \/ f_visibility (g f) = FolderShared) ->
  rows_ok t -> rows_ok (update_where p g t).
Proof.
  intros Hg Hv (Hnd & Hcl & Hn & Hc). split_and!.
  - rewrite map_update_where; [done|]. intros f. apply Hg.
  - intros f' q (f & Hf & ->)%elem_of_update_where Hq.
    assert (Hq' : f_parent f = Some q) by (destruct (p f); [destruct (Hg f) as (_ & _ & _ & [E|E]); congruence|done]).
    destruct (Hcl f q Hf Hq') as (x & Hx & <- & Ho). exists (if p x then g x else x).
    split; [apply elem_of_update_where; eauto|].
    destruct (p x), (p f), (Hg x) as (E1 & E2 & _), (Hg f) as (_ & E3 & _); split; congruence.
  - apply names_ok_update; [|done]. intros f. by destruct (Hg f) as (? & ? & ? & _).
  - apply columns_ok_update; [|done..]. intros f. apply Hg.
Qed.

Lemma rows_ok_delete (gone : folder -> bool) t :
  (forall f g, f ∈ t -> g ∈ t -> f_parent f = Some (f_id g) -> gone g = true -> gone f = true) ->
  rows_ok t -> rows_ok (delete_where gone t).
Proof.
  intros Hgone (Hnd & Hcl & Hn & Hc). split_and!; [by apply NoDup_map_filter|..].
  - intros f p [Hf Hgf]%elem_of_delete_where Hp. destruct (Hcl f p Hf Hp) as (g & Hg & <- & Ho).
    exists g. split; [|done]. apply elem_of_delete_where. split; [done|].
    destruct (gone g) eqn:E; [|done]. by rewrite (Hgone f g Hf Hg Hp E) in Hgf.
  - intros f g Hf%delete_where_sub Hg%delete_where_sub. by apply Hn.
  - intros f Hf%delete_where_sub. by apply Hc.
Qed.

(** ** Creating and moving *)

Lemma name_taken_false f t :
  name_taken lower f t = false <-> forall g, g ∈ t -> same_name lower f g = true -> f_id g = f_id f.
Proof.
  unfold name_taken. rewrite exists_where_false. split; intros H g Hg.
  - intros Hs. specialize (H g Hg). rewrite Hs, andb_true_r in H. apply negb_false_iff in H. by apply has_id_true.
  - destruct (same_name lower f g) eqn:E; [|apply andb_false_r]. rewrite andb_true_r. apply negb_false_iff.
    apply has_id_true. auto.
Qed.

Lemma same_name_sym f g : same_name lower f g = same_name lower g f.
Proof. unfold same_name. by rewrite (String.eqb_sym (f_owner f)), (String.eqb_sym (lower (f_name f))). Qed.

Lemma folders_ok_create t f :
  folders_ok t -> f_id f ∉ map f_id t -> f_id f <> ""%string -> f_visibility f = FolderPrivate ->
  name_taken lower f t = false ->
  (forall p, f_parent f = Some p ->
     exists g, g ∈ t /\ f_id g = p /\ f_owner g = f_owner f /\ live g = true) ->
  folders_ok (t ++ [f]).
Proof.
  intros ((Hnd & Hcl & [rank Hr]) & Hl & Hn & Hc) Hid Hne Hv Hname Hpar.
  assert (Hnew : forall x, x ∈ t ++ [f] <-> x ∈ t \/ x = f).
  { intros x. by rewrite elem_of_app, list_elem_of_singleton. }
  assert (Hfid : forall g, g ∈ t -> f_id g <> f_id f).
  { intros g Hg E. apply Hid. rewrite <- E. apply list_elem_of_fmap. eauto. }
  split_and!.
  - split; [|split].
    + rewrite map_app. apply NoDup_app. split; [done|]. split; [|apply NoDup_singleton].
      by intros x Hx ->%list_elem_of_singleton.
    + intros x p [Hx | ->]%Hnew Hp.
      * destruct (Hcl x p Hx Hp) as (g & ? & ? & ?). exists g. rewrite Hnew. auto.
      * destruct (Hpar p Hp) as (g & ? & ? & ? & _). exists g. rewrite Hnew. auto.
    + exists (fun x => if decide (x = f_id f) then S (match f_parent f with Some p => rank p | None => 0 end)
                       else rank x)%nat.
      intros a b (x & [Hx | ->]%Hnew & <- & Hp).
      * destruct (Hcl x b Hx Hp) as (g & Hg & <- & _). rewrite !decide_False by auto. apply Hr. exists x. eauto.
      * destruct (Hpar b Hp) as (g & Hg & <- & _).
        destruct (decide (f_id g = f_id f)) as [E|_]; [by apply Hfid in E|]. rewrite decide_True, Hp by done. lia.
  - intros x g [Hx | ->]%Hnew [Hg | ->]%Hnew Hp Hlx; [by apply (Hl x g)| |..].
    + destruct (Hcl x (f_id f) Hx Hp) as (y & Hy & E & _). by apply Hfid in Hy.
    + destruct (Hpar _ Hp) as (y & Hy & E & _ & Hly). assert (g = y) as -> by (symmetry; by apply (folder_unique t)). done.
    + destruct (Hpar _ Hp) as (y & Hy & E & _). by apply Hfid in Hy.
  - rewrite name_taken_false in Hname.
    intros x g [Hx | ->]%Hnew [Hg | ->]%Hnew Hs; [by apply Hn| |symmetry; by apply Hname|done].
    rewrite same_name_sym in Hs. by apply Hname.
  - intros x [Hx | ->]%Hnew; auto.
Qed.

(** Giving [f] a new name, position and parent outside its subtree. *)
Lemma folders_ok_move t f h :
  folders_ok t -> f ∈ t ->
  f_id h = f_id f -> f_owner h = f_owner f -> f_visibility h = f_visibility f -> live h = live f ->
  name_taken lower h t = false ->
  (forall p, f_parent h = Some p ->
     (exists g, g ∈ t /\ f_id g = p /\ f_owner g = f_owner f /\ live g = true) /\ ~ rtc (up t) p (f_id f)) ->
  folders_ok (update_where (has_id (f_id f)) (fun _ => h) t).
Proof.
  intros (Ht & Hl & Hn & Hc) Hf Eid Eo Ev El Hname Hpar. pose proof Ht as (Hnd & Hcl & [rank Hr]).
  set (t' := update_where _ _ t).
  assert (Hin : forall x, x ∈ t' <-> (x = h \/ (x ∈ t /\ f_id x <> f_id f))).
  { intros x. unfold t'. rewrite elem_of_update_where. split.
    - intros (x0 & Hx0 & ->). destruct (has_id _ _) eqn:E; [by left|right]. split; [done|].
      intros E'%has_id_true. congruence.
    - intros [-> | [Hx Hne]]; [exists f; by rewrite has_id_self|exists x; split; [done|]].
      destruct (has_id _ _) eqn:E; [by apply has_id_true in E|done]. }
  assert (Hback : forall g, g ∈ t -> exists g', g' ∈ t' /\ f_id g' = f_id g /\ f_owner g' = f_owner g /\ live g' = live g).
  { intros g Hg. destruct (decide (f_id g = f_id f)) as [E|E].
    - assert (g = f) as -> by (by apply (folder_unique t)). exists h. rewrite Hin. auto.
    - exists g. rewrite Hin. auto. }
  split_and!.
  - split; [|split].
    + enough (map f_id t' = map f_id t) as -> by done. unfold t', update_where. rewrite map_map. apply map_ext.
      intros x. destruct (has_id _ x) eqn:E; [|done]. apply has_id_true in E. congruence.
    + intros x p [-> | [Hx Hne]]%Hin Hp.
      * destruct (Hpar p Hp) as [(g & Hg & <- & Ho & _) _]. destruct (Hback g Hg) as (g' & ? & ? & ? & _).
        exists g'. split_and!; congruence.
      * destruct (Hcl x p Hx Hp) as (g & Hg & <- & Ho). destruct (Hback g Hg) as (g' & ? & ? & ? & _).
        exists g'. split_and!; congruence.
    + destruct (folderDescendants_spec t (f_owner f) (f_id f) f Ht Hf eq_refl eq_refl) as (s & _ & Hs).
      exists (fun x => if decide (x ∈ s) then S (rank x + match f_parent h with Some p => rank p | None => 0 end)
                       else rank x)%nat.
      intros a b (x & [-> | [Hx Hne]]%Hin & <- & Hp).
      * destruct (Hpar b Hp) as [_ Hno]. rewrite Hp. destruct (decide (b ∈ s)) as [Hb|_]; [by apply Hs in Hb|].
        rewrite decide_True; [lia|]. by rewrite Eid, Hs.
      * assert (Hup : up t (f_id x) b) by (exists x; eauto). specialize (Hr _ _ Hup).
        destruct (decide (f_id x ∈ s)) as [Hi|Hi]; destruct (decide (b ∈ s)) as [Hb|Hb]; try lia.
        exfalso. apply Hi, Hs. eapply rtc_l; [exact Hup|by apply Hs].
  - intros x g [-> | [Hx Hnx]]%Hin [-> | [Hg Hng]]%Hin Hp Hlx; [done| | |by apply (Hl x g)].
    + destruct (Hpar _ Hp) as [(y & Hy & E & _ & Hly) _]. assert (g = y) as -> by (symmetry; by apply (folder_unique t)). done.
    + rewrite El. apply (Hl x f); [done..|congruence|done].
  - rewrite name_taken_false in Hname.
    intros x g [-> | [Hx Hnx]]%Hin [-> | [Hg Hng]]%Hin Hs; [done| | |by apply Hn].
    + symmetry. by apply Hname.
    + rewrite same_name_sym in Hs. by apply Hname.
  - intros x [-> | [Hx _]]%Hin; [rewrite Eid, Ev|]; auto.
Qed.

Lemma elem_of_moved t f h x :
  f ∈ t -> x ∈ update_where (has_id (f_id f)) (fun _ => h) t <-> (x = h \/ (x ∈ t /\ f_id x <> f_id f)).
Proof.
  intros Hf. rewrite elem_of_update_where. split.
  - intros (x0 & Hx0 & ->). destruct (has_id _ _) eqn:E; [by left|right]. split; [done|].
    intros E'%has_id_true. congruence.
  - intros [-> | [Hx Hne]]; [exists f; by rewrite has_id_self|exists x; split; [done|]].
    destruct (has_id _ _) eqn:E; [by apply has_id_true in E|done].
Qed.

(** Any new row, and any move, under an existing parent of the same owner. *)
Lemma rows_ok_create t f :
  rows_ok t -> f_id f ∉ map f_id t -> f_id f <> ""%string -> f_visibility f = FolderPrivate ->
  name_taken lower f t = false ->
  (forall p, f_parent f = Some p -> exists g, g ∈ t /\ f_id g = p /\ f_owner g = f_owner f) ->
  rows_ok (t ++ [f]).
Proof.
  intros (Hnd & Hcl & Hn & Hc) Hid Hne Hv Hname Hpar. setoid_rewrite name_taken_false in Hname.
  split_and!; [rewrite map_app; by apply NoDup_snoc|..].
  - intros x p [Hx | ->%list_elem_of_singleton]%elem_of_app Hp;
      [destruct (Hcl x p Hx Hp) as (g & ? & ?)|destruct (Hpar p Hp) as (g & ? & ?)]; exists g;
      (split; [apply elem_of_app; by left|done]).
  - intros x g [Hx | ->%list_elem_of_singleton]%elem_of_app [Hg | ->%list_elem_of_singleton]%elem_of_app Hs;
      [by apply Hn| |symmetry; by apply Hname|done].
    rewrite same_name_sym in Hs. by apply Hname.
  - intros x [Hx | ->%list_elem_of_singleton]%elem_of_app; auto.
Qed.

Lemma rows_ok_move t f h :
  rows_ok t -> f ∈ t ->
  f_id h = f_id f -> f_owner h = f_owner f -> f_visibility h = f_visibility f -> name_taken lower h t = false ->
  (forall p, f_parent h = Some p -> exists g, g ∈ t /\ f_id g = p /\ f_owner g = f_owner f) ->
  rows_ok (update_where (has_id (f_id f)) (fun _ => h) t).
Proof.
  intros (Hnd & Hcl & Hn & Hc) Hf Eid Eo Ev Hname Hpar. setoid_rewrite name_taken_false in Hname.
  assert (Hin : forall x, x ∈ update_where (has_id (f_id f)) (fun _ => h) t <-> (x = h \/ (x ∈ t /\ f_id x <> f_id f)))
    by (intros x; by apply elem_of_moved).
  assert (Hback : forall g, g ∈ t -> exists g', g' ∈ update_where (has_id (f_id f)) (fun _ => h) t /\
      f_id g' = f_id g /\ f_owner g' = f_owner g).
  { intros g Hg. destruct (decide (f_id g = f_id f)) as [E|E]; [|exists g; rewrite Hin; auto].
    assert (g = f) as -> by (by apply (folder_unique t)). exists h. rewrite Hin. auto. }
  split_and!.
  - enough (map f_id (update_where (has_id (f_id f)) (fun _ => h) t) = map f_id t) as -> by done.
    unfold update_where. rewrite map_map. apply map_ext.
    intros x. destruct (has_id _ x) eqn:E; [|done]. apply has_id_true in E. congruence.
  - intros x p [-> | [Hx Hne]]%Hin Hp;
      [destruct (Hpar p Hp) as (g & Hg & <- & Ho)|destruct (Hcl x p Hx Hp) as (g & Hg & <- & Ho)];
      destruct (Hback g Hg) as (g' & ? & ? & ?); exists g'; split_and!; congruence.
  - intros x g [-> | [Hx Hnx]]%Hin [-> | [Hg Hng]]%Hin Hs; [done| | |by apply Hn].
    + symmetry. by apply Hname.
    + rewrite same_name_sym in Hs. by apply Hname.
  - intros x [-> | [Hx _]]%Hin; [rewrite Eid, Ev|]; auto.
Qed.

(** ** Every operation keeps the invariant *)

Lemma update_one (q : folder -> bool) g t f :
  NoDup (map f_id t) -> f ∈ t -> q f = true -> (forall x, q x = true -> f_id x = f_id f) ->
  update_where q g t = update_where (has_id (f_id f)) (fun _ => g f) t.
Proof.
  intros Hnd Hf Hq Hids. apply map_ext_in. intros x Hx%list_elem_of_In. destruct (q x) eqn:E.
  - rewrite (proj2 (has_id_true _ _)) by auto. f_equal. apply (folder_unique t); auto.
  - destruct (has_id (f_id f) x) eqn:E'; [|done]. apply has_id_true in E'.
    assert (x = f) as -> by (by apply (folder_unique t)). congruence.
Qed.

Lemma fresh_id uuid t : exists_where (has_id uuid) t = false -> uuid ∉ map f_id t.
Proof.
  rewrite list_elem_of_fmap, exists_where_false. intros H (f & -> & Hf).
  specialize (H f Hf). by rewrite has_id_self in H.
Qed.

Lemma CreateFolder_effect seen uuid now o name parentID d :
  folders (CreateFolder_on lower seen uuid now o name parentID d).2 = folders d \/
  exists f, folders (CreateFolder_on lower seen uuid now o name parentID d).2 = folders d ++ [f] /\
    f_id f = uuid /\ f_owner f = o /\ f_parent f = parentID /\ f_visibility f = FolderPrivate /\
    uuid ∉ map f_id (folders d) /\ name_taken lower f (folders d) = false /\
    validateParent o "" parentID seen = Ok tt /\ (forall p, parentID = Some p -> p ∈ map f_id (folders d)).
Proof.
  unfold CreateFolder_on. destruct (validateFolderName name) as [name'|]; [|by left].
  destruct (validateParent _ _ _ _) as [[]|] eqn:Ev; [|by left].
  destruct (_ || _) eqn:Ed; [by left|]. apply orb_false_iff in Ed as [Hid%fresh_id Hname].
  destruct (match parentID with None => true | Some _ => _ end) eqn:Ep; [|by left].
  right. eexists. split; [reflexivity|]. split_and!; try done. intros p ->.
  apply exists_where_true in Ep as (g & Hg & <-%has_id_true). apply list_elem_of_fmap. eauto.
Qed.

Lemma CreateFolder_folders seen uuid now o name parentID d :
  uuid <> ""%string -> validateParent o "" parentID seen = validateParent o "" parentID (folders d) ->
  folders_ok (folders d) -> folders_ok (folders (CreateFolder_on lower seen uuid now o name parentID d).2).
Proof.
  intros Hne Hs Hok. destruct (CreateFolder_effect seen uuid now o name parentID d)
    as [->|(f & -> & Eid & Eo & Ep & Ev & Hid & Hname & Hv & _)]; [done|].
  apply folders_ok_create; try done; try (by rewrite Eid). rewrite Ep, Eo. intros p ->. rewrite Hs in Hv.
  by apply validateParent_parent in Hv.
Qed.

(** An existing parent of the checked tables is the owner's. *)
Lemma checked_parent v t o id p :
  (forall f g, f ∈ v -> g ∈ t -> f_id f = f_id g -> f_owner f = f_owner g) ->
  validateParent o id (Some p) v = Ok tt -> p ∈ map f_id t -> exists g, g ∈ t /\ f_id g = p /\ f_owner g = o.
Proof.
  intros Hs (x & Hx & <- & <- & _)%validateParent_parent (g & E & Hg)%list_elem_of_fmap.
  exists g. split_and!; [done..|]. symmetry. by apply Hs.
Qed.

Lemma CreateFolder_rows seen uuid now o name parentID d :
  uuid <> ""%string -> (forall f g, f ∈ seen -> g ∈ folders d -> f_id f = f_id g -> f_owner f = f_owner g) ->
  rows_ok (folders d) -> rows_ok (folders (CreateFolder_on lower seen uuid now o name parentID d).2).
Proof.
  intros Hne Hs Hok. destruct (CreateFolder_effect seen uuid now o name parentID d)
    as [->|(f & -> & Eid & Eo & Ep & Ev & Hid & Hname & Hv & Hpar)]; [done|].
  apply rows_ok_create; try done; try (by rewrite Eid). rewrite Ep, Eo. intros p ->.
  by apply (checked_parent seen _ _ "" p); [..|by apply Hpar].
Qed.

Lemma UpdateFolder_effect asked seen req id name parentID d :
  NoDup (map f_id (folders d)) ->
  folders (UpdateFolder_on lower asked seen req id name parentID d).2 = folders d \/
  exists f h, folders (UpdateFolder_on lower asked seen req id name parentID d).2 =
      update_where (has_id (f_id f)) (fun _ => h) (folders d) /\
    f ∈ folders d /\ f_id f = id /\ f_owner f = req /\ live f = true /\
    f_id h = f_id f /\ f_owner h = f_owner f /\ f_visibility h = f_visibility f /\ live h = live f /\
    f_parent h = parentID /\ name_taken lower h (folders d) = false /\
    validateParent req id parentID seen = Ok tt /\ (forall p, parentID = Some p -> p ∈ map f_id (folders d)).
Proof.
  intros Hnd. unfold UpdateFolder_on, update_folder.
  destruct (authorizeLiveFolderOwnerMutation _ _ _) as [[]|]; [|by left].
  destruct (validateFolderName name) as [name'|]; [|by left].
  destruct (validateParent _ _ _ _) as [[]|] eqn:Ev; [|by left].
  destruct (select_where _ _) as [|cur l0]; [by left|].
  set (g := updated_folder _ _ _ _). destruct (select_where _ (folders d)) as [|f l] eqn:Es; [by left|].
  assert (Hf : f ∈ f :: l) by left. rewrite <- Es in Hf.
  apply elem_of_select_where in Hf as [Hf [[Hid%has_id_true Ho%owned_by_true]%andb_true_iff Hl]%andb_true_iff].
  destruct (name_taken lower (g f) (folders d)) eqn:En; [by left|].
  destruct (match f_parent (g f) with None => true | Some _ => _ end) eqn:Ep; [|by left].
  right. exists f, (g f). cbn [snd with_folders folders].
  assert (Hg : f_id (g f) = f_id f /\ f_owner (g f) = f_owner f /\ f_visibility (g f) = f_visibility f /\
    live (g f) = live f /\ f_parent (g f) = parentID) by (unfold g, updated_folder; by destruct (negb _)).
  destruct Hg as (? & ? & ? & ? & Hp). split_and!; try done.
  - apply (update_one _ g _ f Hnd Hf).
    + by rewrite (proj2 (has_id_true _ _) Hid), Hl, (proj2 (owned_by_true _ f) Ho).
    + intros x [[Hx%has_id_true _]%andb_true_iff _]%andb_true_iff. congruence.
  - intros p ->. rewrite Hp in Ep. apply exists_where_true in Ep as (y & Hy & <-%has_id_true).
    apply list_elem_of_fmap. eauto.
Qed.

Lemma UpdateFolder_folders asked seen req id name parentID d :
  validateParent req id parentID seen = validateParent req id parentID (folders d) ->
  folders_ok (folders d) -> folders_ok (folders (UpdateFolder_on lower asked seen req id name parentID d).2).
Proof.
  intros Hs Hok. pose proof Hok as (Ht & _ & _ & Hc). destruct (UpdateFolder_effect asked seen req id name parentID d)
    as [->|(f & h & -> & Hf & Eid & Ereq & Hl & E1 & E2 & E3 & E4 & Ep & En & Ev & _)]; [apply Ht|done|].
  rewrite Hs in Ev. apply folders_ok_move; try done. rewrite Ep. intros p ->.
  apply (validateParent_move _ _ _ _ f Ht Hf Eid Ereq) in Ev as (? & ? & _); [|rewrite <- Eid; by apply Hc].
  rewrite Ereq, Eid. done.
Qed.

Lemma UpdateFolder_rows asked seen req id name parentID d :
  (forall f g, f ∈ seen -> g ∈ folders d -> f_id f = f_id g -> f_owner f = f_owner g) ->
  rows_ok (folders d) -> rows_ok (folders (UpdateFolder_on lower asked seen req id name parentID d).2).
Proof.
  intros Hs Hok. destruct (UpdateFolder_effect asked seen req id name parentID d)
    as [->|(f & h & -> & Hf & Eid & Ereq & Hl & E1 & E2 & E3 & E4 & Ep & En & Ev & Hpar)]; [apply Hok|done|].
  apply rows_ok_move; try done. rewrite Ep, Ereq. intros p ->. by apply (checked_parent seen _ _ id p); [..|by apply Hpar].
Qed.

Lemma SetFolderVisibility_folders req id v d :
  folders_ok (folders d) -> folders_ok (folders (SetFolderVisibility req id v d).2).
Proof.
  intros Hok. unfold SetFolderVisibility. destruct (_ && _) eqn:Ev; [done|].
  destruct (authorizeLiveFolderOwnerMutation _ _ _); [|done].
  destruct (select_where _ _) as [|f0 l0]; [done|]. apply folders_ok_cosmetic; [done| |done]. intros f _ _. cbn.
  apply andb_false_iff in Ev as [H%negb_false_iff|H%negb_false_iff]; apply String.eqb_eq in H; auto.
Qed.

Lemma write_positions_ok o order pos t :
  folders_ok t ->
  folders_ok (write_positions
    (fun pos sid => update_where (fun f => has_id sid f && owned_by o f) (set_position pos)) pos order t).
Proof.
  revert pos t. induction order as [|sid order IH]; intros pos t Hok; cbn; [done|].
  apply IH. apply folders_ok_cosmetic; [done| |done]. intros f Hf _. cbn. by apply Hok.
Qed.

Lemma ReorderFolder_folders req id after d :
  folders_ok (folders d) -> folders_ok (folders (ReorderFolder lower name_lt req id after d).2).
Proof.
  intros Hok. unfold ReorderFolder. destruct (authorizeLiveFolderOwnerMutation _ _ _); [|done].
  destruct (select_where _ _) as [|f0 l0]; [done|]. destruct (check_after _ _ _); [|done]. by apply write_positions_ok.
Qed.

(** The rows that [DeleteFolder] and [RestoreFolder] stamp. *)
Lemma delete_rows t o id rows f :
  tree_ok t -> f ∈ t -> f_id f = id -> f_owner f = o -> live f = true ->
  with_recursive (children o t) (query_fuel t)
    (select_where (fun f => has_id id f && owned_by o f && live f) t) = Some rows ->
  forall x, x ∈ t -> in_rows rows x = true <-> rtc (up t) (f_id x) id.
Proof.
  intros Ht Hf <- <- Hl Hq x Hx. unfold in_rows. rewrite bool_decide_eq_true, list_elem_of_fmap.
  assert (Hsound : forall y, y ∈ rows -> y ∈ t /\ rtc (up t) (f_id y) (f_id f)).
  { intros y Hy. eapply subtree_sound in Hy as (Hy & _ & r & Hr & Hp); [|apply children_sound|exact Hq|].
    - apply select_id_elem in Hr as (_ & Hr & _). by rewrite Hr in Hp.
    - intros r Hr. apply select_id_elem in Hr as (? & _ & ? & _). done. }
  split.
  - intros (y & E & Hy). rewrite E. by apply Hsound.
  - intros Hp. exists x. split; [done|].
    eapply (subtree_complete t (f_owner f) (children (f_owner f) t) _ rows _ x f (fun _ => True));
      [exact Ht|intros; by apply children_complete|exact Hq| |done..].
    by apply select_id_elem.
Qed.

(** Below a trashed folder everything is trashed. *)
Lemma below_trashed t f x :
  tree_ok t -> live_ok t -> f ∈ t -> x ∈ t -> trashed f = true -> rtc (up t) (f_id x) (f_id f) -> trashed x = true.
Proof.
  intros Ht Hl Hf Hx Htr Hp. unfold trashed in *. apply negb_true_iff in Htr. apply negb_true_iff.
  destruct (live x) eqn:E; [|done]. by rewrite (rtc_up_live t x f Ht Hl Hx Hf E Hp) in Htr.
Qed.

Lemma restore_rows t o id rows f :
  tree_ok t -> live_ok t -> f ∈ t -> f_id f = id -> f_owner f = o -> trashed f = true ->
  with_recursive (trashed_children o t) (query_fuel t)
    (select_where (fun f => has_id id f && owned_by o f && trashed f) t) = Some rows ->
  forall x, x ∈ t -> in_rows rows x = true <-> rtc (up t) (f_id x) id.
Proof.
  intros Ht Hlive Hf <- <- Hl Hq x Hx. unfold in_rows. rewrite bool_decide_eq_true, list_elem_of_fmap. split.
  - intros (y & -> & Hy). eapply subtree_sound in Hy as (Hy & _ & r & Hr & Hp); [| |exact Hq|].
    + apply select_id_elem in Hr as (_ & Hr & _). by rewrite Hr in Hp.
    + intros a b [Hb _]%trashed_children_spec. by apply children_sound.
    + intros r Hr. apply select_id_elem in Hr as (? & _ & ? & _). done.
  - intros Hp. exists x. split; [done|].
    eapply (subtree_complete t (f_owner f) (trashed_children (f_owner f) t) _ rows _ x f (fun y => trashed y = true));
      [exact Ht| |exact Hq| |done|done| |done|done].
    + intros a b Hb Hpb Hob Htr. apply trashed_children_spec. split; [by apply children_complete|done].
    + by apply select_id_elem.
    + intros y Hy Hyf. by apply (below_trashed t f).
Qed.

(** Exact results of the two subtree updates on a folder that qualifies. *)
Lemma DeleteFolder_result req id now d f :
  tree_ok (folders d) -> f ∈ folders d -> f_id f = id -> f_owner f = req -> live f = true ->
  exists rows,
    (forall x, x ∈ folders d -> in_rows rows x = true <-> rtc (up (folders d)) (f_id x) id) /\
    DeleteFolder req id now d =
      (Ok tt, with_folders (update_where (fun x => in_rows rows x && live x) (set_deleted (Some now)) (folders d)) d).
Proof.
  intros Ht Hf Hid Ho Hl. pose proof Ht as (Hnd & _). unfold DeleteFolder.
  assert (Ha : authorizeLiveFolderOwnerMutation req id (folders d) = Ok tt).
  { unfold authorizeLiveFolderOwnerMutation. rewrite <- Hid.
    destruct (select_live_row _ f Hnd Hf Hl) as [l ->]. by rewrite (proj2 (owned_by_true req f) Ho). }
  rewrite Ha. set (anchor := select_where _ _).
  destruct (down_query_total (fun x => x) (children req (folders d)) (folders d) Ht anchor) as [rows Hq].
  { intros a b Hb. by apply children_sound in Hb as (? & ? & _). }
  { intros r Hr. by apply select_id_elem in Hr as []. }
  rewrite Hq. cbn [finished]. exists rows.
  pose proof (delete_rows _ _ _ rows f Ht Hf Hid Ho Hl Hq) as Hrows. split; [done|].
  destruct (rows_affected _ _ =? 0)%nat eqn:E; [|done].
  apply Nat.eqb_eq in E. assert (Hpos : (0 < rows_affected (fun x => in_rows rows x && live x) (folders d))%nat); [|lia].
  apply rows_affected_pos. exists f. split; [done|]. rewrite Hl, andb_true_r. apply Hrows; [done|]. by rewrite Hid.
Qed.

Definition orphan_rows (id o : string) (t : list folder) (f : folder) : bool :=
  has_id id f && owned_by o f &&
  match f_parent f with
  | None => false
  | Some p => negb (exists_where (fun g => has_id p g && live g) t)
  end.

Definition unparent (f : folder) : folder := set_name_parent (f_name f) None f.

Lemma RestoreFolder_result o id d f :
  tree_ok (folders d) -> live_ok (folders d) -> f ∈ folders d -> f_id f = id -> f_owner f = o -> trashed f = true ->
  exists rows,
    (forall x, x ∈ folders d -> in_rows rows x = true <-> rtc (up (folders d)) (f_id x) id) /\
    let t' := update_where (in_rows rows) (set_deleted None) (folders d) in
    RestoreFolder o id d = (Ok tt, with_folders (update_where (orphan_rows id o t') unparent t') d).
Proof.
  intros Ht Hlive Hf Hid Ho Htr. unfold RestoreFolder. set (anchor := select_where _ _).
  destruct (down_query_total (fun x => x) (trashed_children o (folders d)) (folders d) Ht anchor) as [rows Hq].
  { intros a b [Hb _]%trashed_children_spec. by apply children_sound in Hb as (? & ? & _). }
  { intros r Hr. by apply select_id_elem in Hr as []. }
  rewrite Hq. cbn [finished]. exists rows.
  pose proof (restore_rows _ _ _ rows f Ht Hlive Hf Hid Ho Htr Hq) as Hrows. split; [done|].
  destruct (rows_affected _ _ =? 0)%nat eqn:E; [|done].
  apply Nat.eqb_eq in E. assert (Hpos : (0 < rows_affected (in_rows rows) (folders d))%nat); [|lia].
  apply rows_affected_pos. exists f. split; [done|]. apply Hrows; [done|]. by rewrite Hid.
Qed.

(** Without a trashed row of the owner, restoring finds nothing. *)
Lemma RestoreFolder_none o id d :
  (forall f, f ∈ folders d -> f_id f = id -> f_owner f = o -> live f = true) ->
  RestoreFolder o id d = (Err ErrNotFound, d).
Proof.
  intros Hno. unfold RestoreFolder.
  assert (E : select_where (fun f => has_id id f && owned_by o f && trashed f) (folders d) = []).
  { destruct (select_where _ _) as [|f l] eqn:E; [done|]. exfalso.
    assert (Hf : f ∈ select_where (fun f => has_id id f && owned_by o f && trashed f) (folders d)) by (rewrite E; left).
    apply select_id_elem in Hf as (Hf & Hid & Ho & Htr). unfold trashed in Htr. by rewrite (Hno f Hf Hid Ho) in Htr. }
  rewrite E. cbn [with_recursive query_fuel finished].
  assert (rows_affected (in_rows []) (folders d) = 0%nat) as ->; [|done].
  unfold rows_affected. clear. induction (folders d) as [|x l IH]; [done|exact IH].
Qed.

(** Folders as they are after an update. *)
Lemma updated_elem p (g : folder -> folder) t f' :
  (forall x, f_id (g x) = f_id x) -> f' ∈ update_where p g t ->
  exists f, f ∈ t /\ f_id f' = f_id f /\ f' = if p f then g f else f.
Proof. intros Hg (f & Hf & ->)%elem_of_update_where. exists f. split_and!; [done| |done]. by destruct (p f). Qed.

Lemma DeleteFolder_folders req id now d :
  folders_ok (folders d) -> folders_ok (folders (DeleteFolder req id now d).2).
Proof.
  intros Hok. pose proof Hok as (Ht & Hl & _ & _).
  destruct (authorizeLiveFolderOwnerMutation req id (folders d)) as [[]|e] eqn:Ea.
  2: { unfold DeleteFolder. by rewrite Ea. }
  apply authorize_ok in Ea as (f & Hf & Hid & Ho & Hlf).
  destruct (DeleteFolder_result req id now d f Ht Hf Hid Ho Hlf) as (rows & Hrows & ->). cbn [snd with_folders folders].
  apply folders_ok_deleted; [|done]. set (hit := fun x => in_rows rows x && live x).
  intros x' g' (x & Hx & _ & ->)%updated_elem (g & Hg & Hgid & ->)%updated_elem Hp Hlx; try done. rewrite Hgid in Hp.
  destruct (hit x) eqn:Ehx; [done|]. unfold hit in Ehx. rewrite Hlx, andb_true_r in Ehx.
  assert (Hlg : live g = true) by (by apply (Hl x g)). destruct (hit g) eqn:Ehg; [|done]. exfalso.
  unfold hit in Ehg. rewrite Hlg, andb_true_r in Ehg. apply (Hrows g Hg) in Ehg.
  enough (in_rows rows x = true) by congruence. apply (Hrows x Hx). eapply rtc_l; [exists x; eauto|done].
Qed.

Lemma tree_ok_unparent p t : tree_ok t -> tree_ok (update_where p unparent t).
Proof.
  intros (Hnd & Hcl & [rank Hr]).
  assert (Hids : map f_id (update_where p unparent t) = map f_id t).
  { unfold update_where. rewrite map_map. apply map_ext. intros x. by destruct (p x). }
  split; [by rewrite Hids|]. split.
  - intros f' q (f & Hf & ->)%elem_of_update_where Hq. destruct (p f) eqn:E; [done|].
    destruct (Hcl f q Hf Hq) as (g & Hg & <- & Ho). exists (if p g then unparent g else g).
    split; [apply elem_of_update_where; eauto|]. by destruct (p g).
  - exists rank. intros a b (f' & (f & Hf & ->)%elem_of_update_where & <- & Hq).
    destruct (p f) eqn:E; [done|]. apply Hr. exists f. auto.
Qed.

Lemma RestoreFolder_folders o id d :
  folders_ok (folders d) -> folders_ok (folders (RestoreFolder o id d).2).
Proof.
  intros Hok. pose proof Hok as (Ht & Hl & Hn & Hc). pose proof Ht as (Hnd & _).
  destruct (exists_where (fun f => has_id id f && owned_by o f && trashed f) (folders d)) eqn:Ee.
  2: { rewrite RestoreFolder_none; [done|]. intros f Hf <- <-. rewrite exists_where_false in Ee.
       specialize (Ee f Hf). rewrite has_id_self, (proj2 (owned_by_true _ f) eq_refl) in Ee. by apply negb_false_iff. }
  apply exists_where_true in Ee as (f & Hf & [[Hid%has_id_true Ho%owned_by_true]%andb_true_iff Htr]%andb_true_iff).
  destruct (RestoreFolder_result o id d f Ht Hl Hf Hid Ho Htr) as (rows & Hrows & ->). cbn [snd with_folders folders].
  set (t := folders d) in *. set (t' := update_where (in_rows rows) (set_deleted None) t).
  assert (Ht' : tree_ok t') by (eapply tree_ok_shape; [by apply shape_update|done]).
  assert (Hn' : names_ok t') by (by apply names_ok_update).
  assert (Hc' : columns_ok t').
  { apply columns_ok_update; [done| |done]. intros x Hx _. by destruct (Hc x Hx). }
  split_and!; [by apply tree_ok_unparent| |by apply names_ok_update
    |apply columns_ok_update; [done| |done]; intros x Hx _; by destruct (Hc' x Hx)].
  intros x'' g'' (x' & Hx' & ->)%elem_of_update_where (g' & Hg' & ->)%elem_of_update_where Hp Hlx.
  assert (Hp' : orphan_rows id o t' x' = false /\ f_parent x' = Some (f_id g')).
  { destruct (orphan_rows id o t' x'); [done|]. by destruct (orphan_rows id o t' g'). }
  destruct Hp' as [Hno Hp']. rewrite Hno in Hlx. enough (Hlg : live g' = true) by (by destruct (orphan_rows _ _ _ g')).
  clear Hp. apply updated_elem in Hx' as (x & Hx & Hxid & ->), Hg' as (g & Hg & Hgid & ->); try done.
  rewrite Hgid in Hp'.
  assert (Hup : f_parent x = Some (f_id g)) by (by destruct (in_rows rows x)).
  destruct (in_rows rows g) eqn:Eg; [done|]. cbn. destruct (in_rows rows x) eqn:Ex; [|by apply (Hl x g)].
  pose proof (proj1 (Hrows x Hx) Ex) as Hpath. apply rtc_inv in Hpath as [E|(c & Hc1 & Hc2)].
  - (* the root: kept only under a live parent *)
    assert (x = f) as -> by (apply (folder_unique t); congruence).
    change (has_id id f && owned_by o f && match f_parent f with
      | None => false | Some p => negb (exists_where (fun y => has_id p y && live y) t') end = false) in Hno.
    rewrite Hup in Hno.
    rewrite (proj2 (has_id_true id _) Hid), (proj2 (owned_by_true o _) Ho) in Hno. cbn [andb] in Hno.
    apply negb_false_iff, exists_where_true in Hno as (y' & Hy' & [Hyid%has_id_true Hyl]%andb_true_iff).
    apply updated_elem in Hy' as (y & Hy & Hyid' & ->); [|done]. assert (y = g) as -> by (apply (folder_unique t); congruence).
    by rewrite Eg in Hyl.
  - assert (c = f_id g) as -> by (apply (up_functional t (f_id x)); [done..|]; exists x; eauto).
    by rewrite (proj2 (Hrows g Hg) Hc2) in Eg.
Qed.

(** ** Cascading deletes *)

Definition row_up (t : list folder) (f g : folder) : Prop := f ∈ t /\ g ∈ t /\ f_parent f = Some (f_id g).

Lemma cascades_spec n p t f :
  f ∈ t -> cascades n p t f = true <-> exists k a, (k <= n)%nat /\ nsteps (row_up t) k f a /\ p a = true.
Proof.
  revert f. induction n as [|n IH]; intros f Hf; cbn; rewrite orb_true_iff.
  - split.
    + intros [H|H]; [|by destruct (f_parent f)]. exists 0%nat, f. split; [lia|]. split; [constructor|done].
    + intros (k & a & Hk & Hs & Ha). assert (k = 0%nat) as -> by lia. inversion Hs; subst. by left.
  - split.
    + intros [H|H].
      * exists 0%nat, f. split; [lia|]. split; [constructor|done].
      * destruct (f_parent f) as [q|] eqn:Eq; [|done].
        apply existsb_exists in H as (g & Hg & [<-%has_id_true Hc]%andb_true_iff). apply list_elem_of_In in Hg.
        apply (IH g Hg) in Hc as (k & a & Hk & Hs & Ha). exists (S k), a. split; [lia|]. split; [|done].
        eapply nsteps_l; [|exact Hs]. done.
    + intros (k & a & Hk & Hs & Ha). inversion Hs as [|k' ? g ? Hfg Hs']; subst; [by left|right].
      destruct Hfg as (_ & Hg & ->). apply existsb_exists. exists g. split; [by apply list_elem_of_In|].
      rewrite has_id_self. cbn. apply (IH g Hg). exists k', a. split; [lia|done].
Qed.

Lemma row_up_bound t k f a : tree_ok t -> f ∈ t -> nsteps (row_up t) k f a -> (k < length t)%nat.
Proof.
  intros (_ & _ & [rank Hr]) Hf Hk. rewrite <- (length_map f_id).
  eapply (nsteps_bound (row_up t) f_id rank); [| | |exact Hk].
  - intros x y (Hx & Hy & Hp). apply Hr. exists x. auto.
  - intros x y (_ & Hy & _). apply list_elem_of_fmap. eauto.
  - apply list_elem_of_fmap. eauto.
Qed.

(** A row goes exactly when it lies at or below a deleted one. *)
Lemma cascades_below p t f :
  tree_ok t -> f ∈ t ->
  cascades (query_fuel t) p t f = true <-> exists a, a ∈ t /\ p a = true /\ rtc (up t) (f_id f) (f_id a).
Proof.
  intros Ht Hf. rewrite cascades_spec by done. split.
  - intros (k & a & _ & Hs & Ha). exists a.
    enough (a ∈ t /\ rtc (up t) (f_id f) (f_id a)) by tauto. clear Ha. induction Hs as [f|k f g a (_ & Hg & Hp) _ IH]; [by split|].
    destruct (IH Hg) as [? ?]. split; [done|]. eapply rtc_l; [exists f; eauto|done].
  - intros (a & Ha & Hpa & Hp). enough (exists k, nsteps (row_up t) k f a) as [k Hk].
    { exists k, a. split_and!; [|done..]. pose proof (row_up_bound t k f a Ht Hf Hk). unfold query_fuel. lia. }
    remember (f_id f) as i eqn:Ei. remember (f_id a) as j eqn:Ej. revert f Ei Hf.
    induction Hp as [i|i c j Hic _ IH]; intros f -> Hf.
    + exists 0%nat. assert (f = a) as -> by (destruct Ht; by apply (folder_unique t)). constructor.
    + destruct (up_row t f c Ht Hf Hic) as (g & Hg & <- & _ & Hp). destruct (IH Ej g) as [k Hk]; [done..|].
      exists (S k). by eapply nsteps_l.
Qed.

(** Whatever the parent links, cycles included, the fuel reaches every row
    above: a path need not visit a row twice. *)
#[global] Instance folder_eq_dec : EqDecision folder.
Proof. solve_decision. Defined.

Lemma short_path (R : folder -> folder -> Prop) n (l : list folder) x a :
  (length l <= n)%nat -> rtc (fun f g => R f g /\ g ∈ l) x a -> exists k, (k <= n)%nat /\ nsteps R k x a.
Proof.
  revert l x. induction n as [|n IH]; intros l x Hl Hp;
    (apply rtc_inv in Hp as [->|(y & [Hxy Hy] & Hp)]; [exists 0%nat; split; [lia|constructor]|]).
  - destruct l; [by apply elem_of_nil in Hy|]. cbn in Hl. lia.
  - set (l' := delete_where (fun z => bool_decide (z = y)) l).
    assert (Hlt : (length l' < length l)%nat).
    { unfold l', delete_where. clear -Hy. induction l as [|z l IH]; [by apply elem_of_nil in Hy|]. cbn.
      pose proof (List.filter_length_le (fun z => negb (bool_decide (z = y))) l).
      apply elem_of_cons in Hy as [->|Hy]; [rewrite bool_decide_true by done; cbn; lia|].
      specialize (IH Hy). destruct (negb _); cbn; lia. }
    destruct (IH l' y) as (k & Hk & Hs); [lia| |exists (S k); split; [lia|by eapply nsteps_l]].
    clear -Hp. revert a Hp. refine (rtc_ind_r _ _ _ _); [constructor|]. intros b c _ [Hbc Hc] IH.
    destruct (decide (c = y)) as [->|Hne]; [constructor|]. eapply rtc_r; [exact IH|]. split; [done|].
    apply elem_of_delete_where. split; [done|]. by apply bool_decide_eq_false.
Qed.

Lemma cascades_reach p t f :
  f ∈ t -> cascades (query_fuel t) p t f = true <-> exists a, rtc (row_up t) f a /\ p a = true.
Proof.
  intros Hf. rewrite cascades_spec by done. split.
  - intros (k & a & _ & Hs & Ha). exists a. split; [by eapply rtc_nsteps_2|done].
  - intros (a & Hp & Ha). destruct (short_path (row_up t) (length t) t f a) as (k & Hk & Hs); [done| |].
    + clear Ha. induction Hp as [|x y z Hxy _ IH]; [constructor|]. eapply rtc_l; [split; [exact Hxy|apply Hxy]|].
      apply IH, Hxy.
    + exists k, a. unfold query_fuel. split_and!; [lia|done..].
Qed.

Lemma cascades_closed p t f g :
  f ∈ t -> g ∈ t -> f_parent f = Some (f_id g) ->
  cascades (query_fuel t) p t g = true -> cascades (query_fuel t) p t f = true.
Proof.
  intros Hf Hg Hp. rewrite !cascades_reach by done. intros (a & Hr & Ha). exists a. split; [|done].
  by eapply rtc_l.
Qed.

Lemma delete_folders_ok p d : folders_ok (folders d) -> folders_ok (folders (delete_folders p d).2).
Proof.
  intros Hok. unfold delete_folders. cbn [snd folders]. apply folders_ok_delete; [|done].
  intros f g. apply cascades_closed.
Qed.

Lemma delete_folders_rows p d : rows_ok (folders d) -> rows_ok (folders (delete_folders p d).2).
Proof.
  intros Hok. unfold delete_folders. cbn [snd folders]. apply rows_ok_delete; [|done].
  intros f g. apply cascades_closed.
Qed.

(** ** Memberships *)

Lemma filing_ok_folders t d :
  (forall i, i ∈ map f_id (folders d) -> i ∈ map f_id t) -> filing_ok d -> filing_ok (with_folders t d).
Proof. intros Hi (H1 & H2 & H3). split_and!; [done..|]. intros m Hm. destruct (H3 m Hm). auto. Qed.

Lemma write_positions_ids o order pos t :
  map f_id (write_positions (fun pos sid => update_where (fun f => has_id sid f && owned_by o f) (set_position pos))
    pos order t) = map f_id t.
Proof. revert pos t. induction order as [|sid order IH]; intros pos t; cbn; [done|]. by rewrite IH, map_update_where. Qed.

Definition nf_key (m : note_folder) : string * string := (nf_note m, nf_folder m).

Lemma write_nf_positions_keys folderID order pos t :
  map nf_key (write_positions (fun pos sid => update_where (membership sid folderID) (set_nf_position pos))
    pos order t) = map nf_key t.
Proof.
  revert pos t. induction order as [|sid order IH]; intros pos t; cbn; [done|]. rewrite IH.
  unfold update_where. rewrite map_map. apply map_ext. intros m. by destruct (membership sid folderID m).
Qed.

Lemma filing_ok_keys t d : map nf_key t = map nf_key (note_folders d) -> filing_ok d -> filing_ok (with_note_folders t d).
Proof.
  intros E (H1 & H2 & H3). split_and!; [done| |].
  - cbn. change (NoDup (map nf_key t)). by rewrite E.
  - cbn. intros m Hm. assert (Hk : nf_key m ∈ map nf_key (note_folders d)) by (rewrite <- E; apply list_elem_of_fmap; eauto).
    apply list_elem_of_fmap in Hk as (m' & [= -> ->] & Hm'). by apply H3.
Qed.

Lemma delete_folders_filing p d : filing_ok d -> filing_ok (delete_folders p d).2.
Proof.
  intros (H1 & H2 & H3). split_and!; [done|by apply NoDup_map_filter|]. cbn.
  intros m [Hm Hno]%elem_of_delete_where. destruct (H3 m Hm) as [? Hf]. split; [done|].
  apply list_elem_of_fmap in Hf as (f & E & Hf). apply list_elem_of_fmap. exists f. split; [done|].
  apply elem_of_delete_where. split; [done|]. rewrite exists_where_false in Hno. specialize (Hno f Hf).
  rewrite E, has_id_self in Hno. done.
Qed.

(** What the visibility checks of the filing handlers guarantee. *)
Lemma noteVisible_exists c req : noteVisible c req = true -> noteExists c = true.
Proof. by intros [? _]%andb_true_iff. Qed.

Lemma load_exists req n f d :
  (noteExists (loadNoteFolderAuthContext req n f d) = true -> n ∈ map n_id (notes d)) /\
  (folderExists (loadNoteFolderAuthContext req n f d) = true -> f ∈ map f_id (folders d)).
Proof.
  unfold loadNoteFolderAuthContext. cbn. rewrite !bool_decide_eq_true. split; intros [x Hx].
  - apply head_Some_elem_of, elem_of_select_where in Hx as [Hx [<-%String.eqb_eq _]%andb_true_iff].
    apply list_elem_of_fmap. eauto.
  - apply head_Some_elem_of, elem_of_select_where in Hx as [Hx [<-%has_id_true _]%andb_true_iff].
    apply list_elem_of_fmap. eauto.
Qed.

Lemma AddNoteFolder_filing req n f d : filing_ok d -> filing_ok (AddNoteFolder req n f d).2.
Proof.
  intros Hok. pose proof Hok as (H1 & H2 & H3). unfold AddNoteFolder.
  destruct (_ || _) eqn:Ev; [done|]. apply orb_false_iff in Ev as [[Hn _]%negb_false_iff%andb_true_iff
    [Hf _]%negb_false_iff%andb_true_iff].
  apply load_exists in Hn, Hf. destruct (negb _); [done|]. cbn [snd].
  destruct (exists_where _ _) eqn:Ee; [done|]. rewrite exists_where_false in Ee. split_and!; [done| |].
  - cbn. rewrite map_app. apply NoDup_app. split; [done|]. split; [|apply NoDup_singleton].
    intros k (m & -> & Hm)%list_elem_of_fmap [= E1 E2]%list_elem_of_singleton. specialize (Ee m Hm).
    unfold membership in Ee. by rewrite E1, E2, !String.eqb_refl in Ee.
  - cbn. intros m [Hm|Hm%list_elem_of_singleton]%elem_of_app; [by apply H3|]. by subst m.
Qed.

(** ** Histories *)

Inductive folder_op :=
| OpCreate (uuid : string) (now : Z) (owner name : string) (parent : option string)
| OpUpdate (req id name : string) (parent : option string)
| OpVisibility (req id visibility : string)
| OpReorder (req id : string) (after : option string)
| OpReorderNote (req folderID noteID : string) (after : option string)
| OpDelete (req id : string) (now : Z)
| OpRestore (owner id : string)
| OpPurge (owner id : string)
| OpPurgeExpired (now olderThan : Z)
| OpAddNote (req noteID folderID : string)
| OpRemoveNote (req noteID folderID : string).

Definition outcome {A} (r : result store_error A * db) : result store_error unit * db :=
  (match r.1 with Ok _ => Ok tt | Err e => Err e end, r.2).

(** What the reads of a request outside its writing transaction saw: for the
    authorization of [UpdateFolder] and for [validateParent]. *)
Record view := mkView { v_asked : list folder; v_seen : list folder }.

Definition perform_on (v : view) (o : folder_op) (d : db) : result store_error unit * db :=
  match o with
  | OpCreate uuid now owner name parent => outcome (CreateFolder_on lower (v_seen v) uuid now owner name parent d)
  | OpUpdate req id name parent => outcome (UpdateFolder_on lower (v_asked v) (v_seen v) req id name parent d)
  | OpVisibility req id v => outcome (SetFolderVisibility req id v d)
  | OpReorder req id after => ReorderFolder lower name_lt req id after d
  | OpReorderNote req f n after => ReorderNoteInFolder req f n after d
  | OpDelete req id now => DeleteFolder req id now d
  | OpRestore owner id => RestoreFolder owner id d
  | OpPurge owner id => PurgeFolder owner id d
  | OpPurgeExpired now older => (Ok tt, snd (PurgeExpiredFolders now older d))
  | OpAddNote req n f => AddNoteFolder req n f d
  | OpRemoveNote req n f => RemoveNoteFolder req n f d
  end.

(** A request that nothing overtakes. *)
Definition current (d : db) : view := mkView (folders d) (folders d).
Definition perform (o : folder_op) (d : db) : result store_error unit * db := perform_on (current d) o d.

(** Fresh uuids are never empty. *)
Definition op_wf (o : folder_op) : Prop :=
  match o with OpCreate uuid _ _ _ _ => uuid <> ""%string | _ => True end.

(** The check of the request, as a question to the tables. *)
Definition check_of (o : folder_op) (t : list folder) : result store_error unit :=
  match o with
  | OpCreate _ _ owner _ parent => validateParent owner "" parent t
  | OpUpdate req id _ parent => validateParent req id parent t
  | _ => Ok tt
  end.

(** Nothing written since the check has changed its answer. *)
Definition undisturbed (v : view) (o : folder_op) (t : list folder) : Prop :=
  check_of o (v_seen v) = check_of o t.

(** The tables the check read may be of any age: ids are not reused for
    another owner's folder. *)
Definition same_owners (v : view) (o : folder_op) (t : list folder) : Prop :=
  forall f g, f ∈ v_seen v -> g ∈ t -> f_id f = f_id g -> f_owner f = f_owner g.

Fixpoint perform_all (os : list (view * folder_op)) (d : db) : db :=
  match os with
  | [] => d
  | (v, o) :: rest => perform_all rest (perform_on v o d).2
  end.

(** [P] holds of each request and the tables it writes to. *)
Fixpoint along (P : view -> folder_op -> list folder -> Prop) (os : list (view * folder_op)) (d : db) : Prop :=
  match os with
  | [] => True
  | (v, o) :: rest => P v o (folders d) /\ along P rest (perform_on v o d).2
  end.

Lemma PurgeFolder_db o id d :
  (PurgeFolder o id d).2 = (delete_folders (fun f => has_id id f && owned_by o f && trashed f) d).2.
Proof. unfold PurgeFolder. destruct (delete_folders _ d) as [n d']. by destruct (n =? 0)%nat. Qed.

Lemma AddNoteFolder_folders req n f d : folders (AddNoteFolder req n f d).2 = folders d.
Proof. unfold AddNoteFolder. repeat case_match; done. Qed.

Lemma RemoveNoteFolder_folders req n f d : folders (RemoveNoteFolder req n f d).2 = folders d.
Proof. unfold RemoveNoteFolder. repeat case_match; done. Qed.

Lemma ReorderNote_folders req f n after d : folders (ReorderNoteInFolder req f n after d).2 = folders d.
Proof. unfold ReorderNoteInFolder. repeat case_match; done. Qed.

Lemma perform_folders v o d :
  op_wf o -> undisturbed v o (folders d) -> folders_ok (folders d) -> folders_ok (folders (perform_on v o d).2).
Proof.
  intros Hwf Hu Hok. unfold undisturbed in Hu. destruct o; cbn [perform_on outcome snd check_of] in *.
  - by apply CreateFolder_folders.
  - by apply UpdateFolder_folders.
  - by apply SetFolderVisibility_folders.
  - by apply ReorderFolder_folders.
  - by rewrite ReorderNote_folders.
  - by apply DeleteFolder_folders.
  - by apply RestoreFolder_folders.
  - rewrite PurgeFolder_db. by apply delete_folders_ok.
  - by apply delete_folders_ok.
  - by rewrite AddNoteFolder_folders.
  - by rewrite RemoveNoteFolder_folders.
Qed.

Lemma set_deleted_rows p x t : rows_ok t -> rows_ok (update_where p (set_deleted x) t).
Proof. intros Hok. apply rows_ok_update; [by auto| |done]. intros f Hf _. cbn. by apply Hok. Qed.

Lemma write_positions_rows o order pos t :
  rows_ok t ->
  rows_ok (write_positions
    (fun pos sid => update_where (fun f => has_id sid f && owned_by o f) (set_position pos)) pos order t).
Proof.
  revert pos t. induction order as [|sid order IH]; intros pos t Hok; cbn; [done|].
  apply IH, rows_ok_update; [by auto| |done]. intros f Hf _. cbn. by apply Hok.
Qed.

Lemma perform_rows v o d :
  op_wf o -> same_owners v o (folders d) -> rows_ok (folders d) -> rows_ok (folders (perform_on v o d).2).
Proof.
  intros Hwf Hs Hok. destruct o; cbn [perform_on outcome snd] in *.
  - by apply CreateFolder_rows.
  - by apply UpdateFolder_rows.
  - unfold SetFolderVisibility. destruct (_ && _) eqn:Ev; [done|]. repeat (case_match; try done). cbn [snd folders with_folders].
    apply rows_ok_update; [by auto| |done]. intros ? _ _. cbn.
    apply andb_false_iff in Ev as [H'%negb_false_iff|H'%negb_false_iff]; apply String.eqb_eq in H'; auto.
  - unfold ReorderFolder. repeat (case_match; try done). by apply write_positions_rows.
  - by rewrite ReorderNote_folders.
  - unfold DeleteFolder. repeat (case_match; try done). by apply set_deleted_rows.
  - unfold RestoreFolder. repeat (case_match; try done). cbn [snd folders with_folders].
    apply rows_ok_update; [by auto| |by apply set_deleted_rows].
    intros f' Hf' _. cbn. eapply set_deleted_rows; [exact Hok|exact Hf'].
  - rewrite PurgeFolder_db. by apply delete_folders_rows.
  - by apply delete_folders_rows.
  - by rewrite AddNoteFolder_folders.
  - by rewrite RemoveNoteFolder_folders.
Qed.

(** Operations on folders alone keep every id, apart from deletes. *)
Ltac keeps_ids :=
  apply filing_ok_folders; [|done]; intros i; rewrite ?map_update_where by done; try done.

Lemma perform_filing v o d : filing_ok d -> filing_ok (perform_on v o d).2.
Proof.
  intros Hok. destruct o; cbn [perform_on outcome snd] in *.
  - unfold CreateFolder_on. repeat (case_match; try done); cbn [snd];
      apply filing_ok_folders; try done; intros i Hi; rewrite map_app; apply elem_of_app; by left.
  - unfold UpdateFolder_on, update_folder. repeat (case_match; try done); cbn [snd]; keeps_ids;
      (rewrite map_update_where; [done|]; intros ?; unfold updated_folder; by case_match).
  - unfold SetFolderVisibility. repeat (case_match; try done); cbn [snd]; keeps_ids.
  - unfold ReorderFolder. repeat (case_match; try done); cbn [snd]; keeps_ids. by rewrite write_positions_ids.
  - unfold ReorderNoteInFolder. repeat (case_match; try done); cbn [snd].
    apply filing_ok_keys; [|done]. apply write_nf_positions_keys.
  - unfold DeleteFolder. repeat (case_match; try done); cbn [snd]; keeps_ids.
  - unfold RestoreFolder. repeat (case_match; try done); cbn [snd]; keeps_ids.
  - rewrite PurgeFolder_db. by apply delete_folders_filing.
  - by apply delete_folders_filing.
  - by apply AddNoteFolder_filing.
  - unfold RemoveNoteFolder. repeat (case_match; try done); cbn [snd]. destruct Hok as (H1 & H2 & H3).
    split_and!; [done|by apply NoDup_map_filter|]. cbn. intros m [Hm _]%elem_of_delete_where. by apply H3.
Qed.

(** C5. The folder tables through any history of requests, each creation and
    each move validated on tables of any age, since [validateParent] reads
    outside the transaction that writes.  Always: rows are identified by their
    id, a parent is an existing folder of the same owner, names are unique per
    owner without regard to case, visibilities are legal, and memberships are
    unique and refer to existing notes and folders.  As long as no request
    overtakes a check so as to change its answer before the write, the folders
    moreover form a forest in which a live folder never lies in a trashed one;
    without that proviso two moves can close a cycle
    ([concurrent_moves_hang]). *)
Theorem folder_tables_invariant os d :
  Forall (fun vo => op_wf vo.2) os ->
  (tables_ok d -> along same_owners os d -> tables_ok (perform_all os d)) /\
  (db_ok d -> along undisturbed os d -> db_ok (perform_all os d)).
Proof.
  intros Hos. revert d. induction Hos as [|[v o] os Ho _ IH]; intros d; cbn; [done|].
  split; intros [H1 H2] [Hv Hr]; (apply IH; [split|done]); by apply perform_rows || by apply perform_folders ||
    by apply perform_filing.
Qed.

(** ** Termination of the queries *)

Lemma descendants_total req t : tree_ok t -> exists ds, descendants req t = Ok ds.
Proof.
  intros Ht. unfold descendants.
  destruct (down_query_total snd (descendants_next t) t Ht
    (map (fun f => (f, f)) (select_where (visible req) t))) as [ds ->]; [| |eauto].
  - intros [r a] [r' b] Hb. apply list_elem_of_fmap in Hb as (b' & [= -> ->] & Hb).
    apply live_children_spec in Hb as [Hb _]. by apply children_sound in Hb as (? & ? & _).
  - intros rr (x & -> & Hx)%list_elem_of_fmap. by apply elem_of_select_where in Hx as [].
Qed.

Lemma authorize_err req id t e :
  authorizeLiveFolderOwnerMutation req id t = Err e -> e = ErrNotFound \/ e = ErrForbidden.
Proof. unfold authorizeLiveFolderOwnerMutation. repeat case_match; intros; simplify_eq; auto. Qed.

Lemma UpdateFolder_no_db_error req id name parentID d :
  folders_ok (folders d) -> (UpdateFolder lower req id name parentID d).1 <> Err DbError.
Proof.
  intros (Ht & _). pose proof Ht as (Hnd & _). unfold UpdateFolder, UpdateFolder_on.
  destruct (authorizeLiveFolderOwnerMutation _ _ _) as [[]|e] eqn:Ea.
  2: { cbn. intros [= ->]. apply authorize_err in Ea. naive_solver. }
  apply authorize_ok in Ea as (f & Hf & <- & <- & Hl).
  destruct (validateFolderName name) as [name'|e] eqn:En.
  2: { cbn. intros [= ->]. unfold validateFolderName in En. by case_match. }
  destruct (validateParent _ _ _ _) as [[]|e] eqn:Ev.
  2: { cbn. intros [= ->]. apply validateParent_total in Ev; [done|done|right; eauto]. }
  destruct (select_live_row _ f Hnd Hf Hl) as [l1 ->]. unfold update_folder.
  destruct (select_mine_row _ f Hnd Hf Hl) as [l2 ->]. case_match; [done|].
  rewrite (updated_parent name' parentID). destruct parentID as [p|]; [|done].
  apply validateParent_parent in Ev as (g & Hg & Hid & _).
  rewrite (proj2 (exists_where_true _ _)); [done|]. exists g. by rewrite has_id_true.
Qed.

Lemma CreateFolder_no_db_error uuid now o name parentID d :
  folders_ok (folders d) -> (CreateFolder lower uuid now o name parentID d).1 <> Err DbError.
Proof.
  intros (Ht & _). unfold CreateFolder, CreateFolder_on. destruct (validateFolderName name) as [name'|e] eqn:En.
  2: { cbn. intros [= ->]. unfold validateFolderName in En. by case_match. }
  destruct (validateParent _ _ _ _) as [[]|e] eqn:Ev.
  2: { cbn. intros [= ->]. apply validateParent_total in Ev; [done|done|by left]. }
  case_match; [done|]. destruct parentID as [p|]; [|done].
  apply validateParent_create in Ev as [(g & Hg & Hid & _) _].
  rewrite (proj2 (exists_where_true _ _)); [done|]. exists g. by rewrite has_id_true.
Qed.

Lemma SetFolderVisibility_no_db_error req id v d : (SetFolderVisibility req id v d).1 <> Err DbError.
Proof.
  unfold SetFolderVisibility. case_match; [done|].
  destruct (authorizeLiveFolderOwnerMutation _ _ _) as [[]|e] eqn:Ea; [by case_match|].
  cbn. intros [= ->]. apply authorize_err in Ea. naive_solver.
Qed.

Lemma outcome_err {A} (r : result store_error A * db) e : r.1 <> Err e -> (outcome r).1 <> Err e.
Proof. destruct r as [[a|e'] d]; cbn; congruence. Qed.

(** On well-formed tables every recursive query ends: no folder operation
    that nothing overtakes fails with a database error, and listing always returns. *)
Theorem folder_operations_terminate o d req :
  db_ok d -> (perform o d).1 <> Err DbError /\ exists fs, ListFolders lower name_lt req d = Ok fs.
Proof.
  intros [Hok _]. pose proof Hok as (Ht & Hlive & _). pose proof Ht as (Hnd & _). split.
  2: { unfold ListFolders. destruct (descendants_total req _ Ht) as [ds ->]. cbn. eauto. }
  unfold perform. destruct o; cbn [perform_on].
  - by apply outcome_err, CreateFolder_no_db_error.
  - by apply outcome_err, UpdateFolder_no_db_error.
  - by apply outcome_err, SetFolderVisibility_no_db_error.
  - unfold ReorderFolder. destruct (authorizeLiveFolderOwnerMutation _ _ _) as [[]|e] eqn:Ea.
    2: { cbn. intros [= ->]. apply authorize_err in Ea. naive_solver. }
    apply authorize_ok in Ea as (f & Hf & <- & <- & Hl). destruct (select_live_row _ f Hnd Hf Hl) as [l1 ->].
    unfold check_after. repeat case_match; simplify_eq; done.
  - unfold ReorderNoteInFolder. destruct (authorizeLiveFolderOwnerMutation _ _ _) as [[]|e] eqn:Ea.
    2: { cbn. intros [= ->]. apply authorize_err in Ea. naive_solver. }
    unfold check_after. repeat case_match; simplify_eq; done.
  - destruct (authorizeLiveFolderOwnerMutation req0 id (folders d)) as [[]|e] eqn:Ea.
    2: { unfold DeleteFolder. rewrite Ea. cbn. intros [= ->]. apply authorize_err in Ea. naive_solver. }
    apply authorize_ok in Ea as (f & Hf & Hid & Ho & Hlf).
    by destruct (DeleteFolder_result req0 id now d f Ht Hf Hid Ho Hlf) as (rows & _ & ->).
  - destruct (exists_where (fun f => has_id id f && owned_by owner f && trashed f) (folders d)) eqn:Ee.
    + apply exists_where_true in Ee as (f & Hf & [[Hid%has_id_true Ho%owned_by_true]%andb_true_iff Htr]%andb_true_iff).
      by destruct (RestoreFolder_result owner id d f Ht Hlive Hf Hid Ho Htr) as (rows & _ & ->).
    + rewrite RestoreFolder_none; [done|]. intros f Hf <- <-. rewrite exists_where_false in Ee.
      specialize (Ee f Hf). rewrite has_id_self, (proj2 (owned_by_true _ f) eq_refl) in Ee. by apply negb_false_iff.
  - unfold PurgeFolder. destruct (delete_folders _ d). by case_match.
  - done.
  - unfold AddNoteFolder. repeat case_match; done.
  - unfold RemoveNoteFolder. repeat case_match; done.
Qed.

(** ** Moving *)

Lemma UpdateFolder_result req id name parentID d r d' :
  folders_ok (folders d) -> UpdateFolder lower req id name parentID d = (Ok r, d') ->
  exists f h, f ∈ folders d /\ f_id f = id /\ f_owner f = req /\ live f = true /\
    validateParent req id parentID (folders d) = Ok tt /\
    f_id h = id /\ f_parent h = parentID /\ live h = true /\
    folders d' = update_where (has_id id) (fun _ => h) (folders d).
Proof.
  intros (Ht & _). pose proof Ht as (Hnd & _). unfold UpdateFolder, UpdateFolder_on.
  destruct (authorizeLiveFolderOwnerMutation _ _ _) as [[]|] eqn:Ea; [|done].
  apply authorize_ok in Ea as (f & Hf & <- & <- & Hl).
  destruct (validateFolderName name) as [name'|]; [|done].
  destruct (validateParent _ _ _ _) as [[]|] eqn:Ev; [|done].
  destruct (select_live_row _ f Hnd Hf Hl) as [l1 ->]. unfold update_folder.
  destruct (select_mine_row _ f Hnd Hf Hl) as [l2 ->].
  set (g := updated_folder _ _ _ _). destruct (name_taken lower (g f) (folders d)); [done|].
  destruct (match f_parent (g f) with None => true | Some _ => _ end); [|done].
  intros [= _ <-]. exists f, (g f).
  assert (Hg : f_id (g f) = f_id f /\ f_parent (g f) = parentID /\ live (g f) = live f)
    by (unfold g, updated_folder; by destruct (negb _)).
  destruct Hg as (? & ? & ->). split_and!; try done. cbn [with_folders folders].
  apply update_one; [done..| |].
  - by rewrite has_id_self, Hl, (proj2 (owned_by_true _ f) eq_refl).
  - by intros x [[Hx%has_id_true _]%andb_true_iff _]%andb_true_iff.
Qed.

Lemma up_moved t f h a b :
  f ∈ t -> f_id h = f_id f ->
  up (update_where (has_id (f_id f)) (fun _ => h) t) a b <->
  (a = f_id f /\ f_parent h = Some b) \/ (a <> f_id f /\ up t a b).
Proof.
  intros Hf Hid. split.
  - intros (x' & (x & Hx & ->)%elem_of_update_where & <- & Hp). destruct (has_id (f_id f) x) eqn:E; [by left|right].
    split; [|by exists x]. intros E'. by rewrite (proj2 (has_id_true _ _) E') in E.
  - intros [[-> Hp]|[Hne (x & Hx & <- & Hp)]].
    + exists h. split; [|done]. apply elem_of_update_where. exists f. by rewrite has_id_self.
    + exists x. split; [|done]. apply elem_of_update_where. exists x. split; [done|].
      destruct (has_id (f_id f) x) eqn:E; [by apply has_id_true in E|done].
Qed.

(** Above a folder outside the moved subtree nothing changes. *)
Lemma outside_path t f h k p b :
  f ∈ t -> f_id h = f_id f -> ~ rtc (up t) p (f_id f) ->
  nsteps (up (update_where (has_id (f_id f)) (fun _ => h) t)) k p b -> nsteps (up t) k p b.
Proof.
  intros Hf Hid Hno Hk. induction Hk as [p|k p c b Hpc _ IH]; [constructor|].
  apply (up_moved t f h) in Hpc as [[-> _]|[Hne Hpc]]; [by contradict Hno| |done..].
  eapply nsteps_l; [done|]. apply IH. intros Hc. apply Hno. by eapply rtc_l.
Qed.

(** Below the moved folder, paths grow by what lies above its new place. *)
Lemma moved_path t f h n x :
  NoDup (map f_id t) -> f ∈ t -> f_id h = f_id f ->
  let t' := update_where (has_id (f_id f)) (fun _ => h) t in
  (forall k b, nsteps (up t') k (f_id f) b -> (k <= n)%nat) ->
  rtc (up t') x (f_id f) ->
  exists j, nsteps (up t) j x (f_id f) /\ forall k b, nsteps (up t') k x b -> (k <= j + n)%nat.
Proof.
  intros Hnd Hf Hid t' Hroot. revert x.
  refine (rtc_ind_l (fun x => exists j, nsteps (up t) j x (f_id f) /\
    forall k b, nsteps (up t') k x b -> (k <= j + n)%nat) _ _ _).
  { exists 0%nat. split; [constructor|exact Hroot]. }
  intros a c Hac _ (j & Hj & Hle).
  destruct (decide (a = f_id f)) as [->|Hne]; [exists 0%nat; split; [constructor|exact Hroot]|].
  unfold t' in Hac. apply up_moved in Hac as [[? _]|[_ Hac]]; [done| |done..].
  exists (S j). split; [by eapply nsteps_l|]. intros k b Hk. inversion Hk as [|k1 ? c' ? Hstep Hrest]; subst; [lia|].
  unfold t' in Hstep. apply up_moved in Hstep as [[? _]|[_ Hstep]]; [done| |done..].
  rewrite (up_functional t a c' c) in Hrest by done. apply Hle in Hrest. lia.
Qed.

(** The depth limit: after a folder has been moved under a parent, no live
    folder of the moved subtree has more than [maxFolderDepth - 1] folders
    above it. *)
Theorem moved_subtree_depth req id name p d r d' :
  db_ok d -> UpdateFolder lower req id name (Some p) d = (Ok r, d') ->
  forall x k b, x ∈ folders d' -> live x = true -> rtc (up (folders d')) (f_id x) id ->
    nsteps (up (folders d')) k (f_id x) b -> (k < maxFolderDepth)%nat.
Proof.
  intros [Hok _] Hu x k b Hx Hlx Hpath Hk. pose proof Hok as (Ht & Hlive & _ & Hc). pose proof Ht as (Hnd & _).
  destruct (UpdateFolder_result _ _ _ _ _ _ _ Hok Hu) as (f & h & Hf & <- & Ho & Hl & Hv & Hhid & Hhp & Hhl & Ed).
  rewrite Ed in *. apply (validateParent_move _ _ _ _ f Ht Hf eq_refl Ho) in Hv
    as ((g & Hg & <- & Hgo & _) & Hno & n & m & Hn & Hm & Hle); [|by apply Hc].
  assert (Hx' : exists x0, x0 ∈ folders d /\ f_id x0 = f_id x /\ live x0 = true).
  { apply elem_of_update_where in Hx as (x0 & Hx0 & ->). destruct (has_id (f_id f) x0) eqn:E; [|by exists x0].
    exists f. split_and!; congruence. }
  destruct Hx' as (x0 & Hx0 & Ex & Hlx0). rewrite <- Ex in *.
  destruct (moved_path (folders d) f h n (f_id x0)) as (j & Hj & Hbound); [done..| |done|].
  { intros k' b' Hk'. inversion Hk' as [|k1 ? c ? Hstep Hrest]; subst; [lia|].
    apply (up_moved _ f h) in Hstep as [[_ Hstep]|[Hne _]]; [|done..].
    assert (c = f_id g) as -> by congruence.
    apply (outside_path _ f h) in Hrest; [|done..]. by apply (folder_depth_spec _ _ g n Ht Hg Hgo Hn) in Hrest. }
  pose proof (subtreeHeight_spec _ _ f m x0 j Ht Hlive Hf Ho Hl Hm Hx0 Hlx0 Hj). specialize (Hbound k b Hk).
  unfold maxFolderDepth in *. lia.
Qed.

(** ** Denials *)

Definition owner_only (o : folder_op) : option (string * string) :=
  match o with
  | OpUpdate req id _ _ | OpReorder req id _ | OpReorderNote req id _ _ | OpDelete req id _ => Some (req, id)
  | _ => None
  end.

Lemma authorize_denied req id t :
  NoDup (map f_id t) -> (forall f, f ∈ t -> f_id f = id -> live f = true -> f_owner f <> req) ->
  authorizeLiveFolderOwnerMutation req id t =
    Err (if exists_where (fun f => has_id id f && live f && is_shared f) t then ErrForbidden else ErrNotFound).
Proof.
  intros Hnd Hno. unfold authorizeLiveFolderOwnerMutation.
  destruct (exists_where (fun f => has_id id f && live f) t) eqn:E.
  - apply exists_where_true in E as (f & Hf & [<-%has_id_true Hl]%andb_true_iff).
    destruct (select_live_row t f Hnd Hf Hl) as [l ->].
    destruct (owned_by req f) eqn:Eo; [apply owned_by_true in Eo; by apply Hno in Eo|].
    destruct (is_shared f) eqn:Es.
    + rewrite (proj2 (exists_where_true _ _)); [done|]. exists f. by rewrite has_id_self, Hl, Es.
    + rewrite (proj2 (exists_where_false _ _)); [done|]. intros g Hg.
      destruct (has_id (f_id f) g) eqn:Eg; [|done]. apply has_id_true in Eg.
      assert (g = f) as -> by (by apply (folder_unique t)). by rewrite Hl, Es.
  - rewrite exists_where_false in E. assert (select_where (fun f => has_id id f && live f) t = []) as ->.
    { destruct (select_where _ t) as [|f l] eqn:Es; [done|]. assert (Hf : f ∈ select_where (fun f => has_id id f && live f) t)
        by (rewrite Es; left). apply elem_of_select_where in Hf as [Hf Hq]. by rewrite (E f Hf) in Hq. }
    rewrite (proj2 (exists_where_false _ _)); [done|]. intros g Hg. by rewrite (E g Hg).
Qed.

(** No existence oracle: whatever else it passes, a requester who does not
    own the live folder changes nothing and learns only whether the folder is
    live and shared ([ErrForbidden]); an absent, a trashed and a private
    foreign folder all answer [ErrNotFound], before any other input is
    validated. *)
Theorem non_owner_denied o d req id :
  db_ok d -> owner_only o = Some (req, id) ->
  (forall f, f ∈ folders d -> f_id f = id -> live f = true -> f_owner f <> req) ->
  perform o d =
    (Err (if exists_where (fun f => has_id id f && live f && is_shared f) (folders d)
          then ErrForbidden else ErrNotFound), d).
Proof.
  intros [((Hnd & _) & _) _] Ho Hno. pose proof (authorize_denied req id (folders d) Hnd Hno) as Ha.
  destruct o; try done; injection Ho as -> ->; unfold perform, current; cbn [perform_on v_asked v_seen].
  - unfold UpdateFolder_on. by rewrite Ha.
  - unfold ReorderFolder. by rewrite Ha.
  - unfold ReorderNoteInFolder. by rewrite Ha.
  - unfold DeleteFolder. by rewrite Ha.
Qed.

(** ** Trash *)

(** Purging a trashed folder removes exactly the folders at or below it,
    all of them trashed, with their memberships: neither [PurgeFolder] nor the
    purge job ever deletes a live folder or a filing in one. *)
Theorem purge_spares_live d o id now olderThan :
  db_ok d ->
  (forall f, f ∈ folders (PurgeFolder o id d).2 <->
     f ∈ folders d /\ ~ exists a, a ∈ folders d /\ f_id a = id /\ f_owner a = o /\ trashed a = true /\
                                rtc (up (folders d)) (f_id f) id) /\
  (forall d', d' = (PurgeFolder o id d).2 \/ d' = (PurgeExpiredFolders now olderThan d).2 ->
     (forall f, f ∈ folders d -> live f = true -> f ∈ folders d') /\
     (forall m f, m ∈ note_folders d -> f ∈ folders d -> nf_folder m = f_id f -> live f = true -> m ∈ note_folders d')).
Proof.
  intros [(Ht & Hlive & _) _]. pose proof Ht as (Hnd & _).
  assert (Hspare : forall p, (forall f, p f = true -> trashed f = true) -> forall f, f ∈ folders d -> live f = true ->
    cascades (query_fuel (folders d)) p (folders d) f = false).
  { intros p Hp f Hf Hl. destruct (cascades _ _ _ f) eqn:E; [|done].
    apply cascades_below in E as (a & Ha & Hpa & Hr); [|done..].
    pose proof (below_trashed _ a f Ht Hlive Ha Hf (Hp a Hpa) Hr) as Htr. unfold trashed in Htr. by rewrite Hl in Htr. }
  split.
  - intros f. rewrite PurgeFolder_db. unfold delete_folders. cbn [snd folders]. rewrite elem_of_delete_where. split.
    + intros [Hf Hno]. split; [done|]. intros (a & Ha & Hid & Ho & Htr & Hr).
      enough (cascades (query_fuel (folders d)) (fun f => has_id id f && owned_by o f && trashed f) (folders d) f = true)
        by congruence.
      apply cascades_below; [done..|]. exists a. rewrite Hid. split_and!; [done| |done].
      by rewrite (proj2 (has_id_true id a) Hid), (proj2 (owned_by_true o a) Ho), Htr.
    + intros [Hf Hno]. split; [done|]. destruct (cascades _ _ _ f) eqn:E; [|done]. contradict Hno.
      apply cascades_below in E as (a & Ha & [[Hid%has_id_true Ho%owned_by_true]%andb_true_iff Htr]%andb_true_iff & Hr);
        [|done..]. exists a. rewrite Hid in Hr. done.
  - assert (Hdel : forall p, (forall f, p f = true -> trashed f = true) ->
      (forall f, f ∈ folders d -> live f = true -> f ∈ folders (delete_folders p d).2) /\
      (forall m f, m ∈ note_folders d -> f ∈ folders d -> nf_folder m = f_id f -> live f = true ->
         m ∈ note_folders (delete_folders p d).2)).
    { intros p Hp. unfold delete_folders. cbn [snd folders note_folders]. split.
      - intros f Hf Hl. apply elem_of_delete_where. split; [done|]. by apply Hspare.
      - intros m f Hm Hf E Hl. apply elem_of_delete_where. split; [done|]. apply exists_where_false. intros g Hg.
        destruct (has_id (nf_folder m) g) eqn:Eg; [|done]. apply has_id_true in Eg.
        assert (g = f) as -> by (apply (folder_unique (folders d)); congruence). by apply Hspare. }
    intros d' [-> | ->].
    + rewrite PurgeFolder_db. apply Hdel. by intros f [_ ?]%andb_true_iff.
    + apply Hdel. intros f Hf. unfold trashed, live. by destruct (f_deleted f).
Qed.

Lemma up_acyclic t a b : acyclic t -> up t a b -> ~ rtc (up t) b a.
Proof.
  intros [rank Hr] Hab Hba.
  assert (H : forall x y, rtc (up t) x y -> (rank y <= rank x)%nat).
  { intros x y. induction 1 as [|x y z Hxy _ IH]; [lia|]. apply Hr in Hxy. lia. }
  apply H in Hba. apply Hr in Hab. lia.
Qed.

Lemma shape_rtc t t' a b : shape t = shape t' -> rtc (up t) a b -> rtc (up t') a b.
Proof. intros E. apply rtc_subrel. intros x y. by apply shape_up. Qed.

Lemma update_where_id p (g : folder -> folder) t : (forall f, f ∈ t -> p f = false) -> update_where p g t = t.
Proof.
  intros H. unfold update_where. etrans; [|apply map_id]. apply map_ext_in. intros f Hf%list_elem_of_In. by rewrite H.
Qed.

(** C6. Trash and restore: deleting a live folder and restoring it brings
    every folder of its subtree to life, those trashed before it included, and
    gives back every other column, position and filing unchanged. *)
Theorem delete_then_restore req id now d f :
  db_ok d -> f ∈ folders d -> f_id f = id -> f_owner f = req -> live f = true ->
  exists s, folderDescendants req id (folders d) = Ok s /\
    let '(r1, d1) := DeleteFolder req id now d in
    let '(r2, d2) := RestoreFolder req id d1 in
    r1 = Ok tt /\ r2 = Ok tt /\
    (forall x, x ∈ folders d1 -> f_id x ∈ s -> live x = false) /\
    d2 = with_folders (update_where (fun x => bool_decide (f_id x ∈ s)) (set_deleted None) (folders d)) d.
Proof.
  intros [Hok _] Hf Hid Ho Hl. pose proof Hok as (Ht & Hlive & _). pose proof Ht as (Hnd & Hcl & Hac).
  destruct (folderDescendants_spec _ req id f Ht Hf Hid Ho) as (s & Es & Hs). exists s. split; [done|].
  destruct (DeleteFolder_result req id now d f Ht Hf Hid Ho Hl) as (rows & Hrows & Ed). rewrite Ed.
  pose proof (DeleteFolder_folders req id now d Hok) as Hok1. rewrite Ed in Hok1. cbn [snd] in Hok1.
  set (t := folders d) in *. set (hit := fun x => in_rows rows x && live x) in *.
  set (t1 := update_where hit (set_deleted (Some now)) t) in *. set (d1 := with_folders t1 d) in *.
  change (folders d1) with t1 in *. destruct Hok1 as (Ht1 & Hlive1 & _).
  assert (Hshape : shape t1 = shape t) by (by apply shape_update).
  assert (Hhitf : hit f = true).
  { unfold hit. rewrite Hl, andb_true_r. apply Hrows; [done|]. by rewrite Hid. }
  set (f1 := set_deleted (Some now) f).
  assert (Hf1 : f1 ∈ t1) by (apply elem_of_update_where; exists f; by rewrite Hhitf).
  destruct (RestoreFolder_result req id d1 f1 Ht1 Hlive1 Hf1 Hid Ho eq_refl) as (rows2 & Hrows2 & Er).
  rewrite Er. clear Er. change (folders d1) with t1 in *. split_and!; [done..| |].
  - intros x' Hx'. apply updated_elem in Hx' as (x & Hx & E & ->); [|done]. rewrite E, Hs. intros Hp.
    apply (Hrows x Hx) in Hp. destruct (hit x) eqn:Eh; [done|]. unfold hit in Eh. by rewrite Hp in Eh.
  - assert (Hin2 : forall x, x ∈ t -> in_rows rows2 (if hit x then set_deleted (Some now) x else x) = bool_decide (f_id x ∈ s)).
    { intros x Hx. assert (Hx1 : (if hit x then set_deleted (Some now) x else x) ∈ t1)
        by (apply elem_of_update_where; eauto).
      apply eq_true_iff_eq. rewrite (Hrows2 _ Hx1), bool_decide_eq_true, Hs.
      assert (f_id (if hit x then set_deleted (Some now) x else x) = f_id x) as -> by (by destruct (hit x)).
      split; by apply shape_rtc. }
    assert (Et2 : update_where (in_rows rows2) (set_deleted None) t1 =
                  update_where (fun x => bool_decide (f_id x ∈ s)) (set_deleted None) t).
    { unfold t1, update_where. rewrite map_map. apply map_ext_in. intros x Hx%list_elem_of_In.
      rewrite (Hin2 x Hx). destruct (bool_decide (f_id x ∈ s)) eqn:Eb; [by destruct (hit x)|].
      destruct (hit x) eqn:Eh; [|done]. apply bool_decide_eq_false in Eb. contradict Eb.
      apply Hs, (Hrows x Hx). unfold hit in Eh. by apply andb_true_iff in Eh as []. }
    rewrite Et2. set (t2 := update_where _ (set_deleted None) t). rewrite update_where_id; [done|].
    intros x' Hx'. apply updated_elem in Hx' as (x & Hx & E & ->); [|done]. unfold orphan_rows.
    destruct (has_id id _) eqn:Eid; [|done]. apply has_id_true in Eid. rewrite E in Eid.
    assert (x = f) as -> by (apply (folder_unique t); congruence). destruct (owned_by req _); [|done]. cbn [andb].
    assert (f_parent (if bool_decide (f_id f ∈ s) then set_deleted None f else f) = f_parent f) as ->
      by (by case_match).
    destruct (f_parent f) as [p|] eqn:Ep; [|done]. apply negb_false_iff, exists_where_true.
    destruct (Hcl f p Hf Ep) as (g & Hg & <- & _). exists g. split.
    + unfold t2. apply elem_of_update_where. exists g. split; [done|]. rewrite bool_decide_eq_false_2; [done|].
      rewrite Hs, <- Hid. apply (up_acyclic t); [done|]. exists f. auto.
    + rewrite has_id_self. by rewrite (Hlive f g Hf Hg Ep Hl).
Qed.

(** ** Reordering *)

Definition others (id : string) (l : list string) : list string := List.filter (fun s => negb (s =? id)%string) l.

#[local] Arguments others : simpl never.

Lemma others_cons id x l : others id (x :: l) = if (x =? id)%string then others id l else x :: others id l.
Proof. unfold others. cbn. by destruct (x =? id)%string. Qed.

Lemma rebuild_others id after l : others id (rebuild_order id after l) = others id l.
Proof.
  induction l as [|x l IH]; cbn [rebuild_order]; [done|]. rewrite others_cons.
  destruct (x =? id)%string eqn:E; [done|].
  case_match; rewrite !others_cons, E, ?String.eqb_refl; by rewrite IH.
Qed.

Lemma rebuild_absent id after l : (forall a, after = Some a -> a ∉ l) -> rebuild_order id after l = others id l.
Proof.
  intros Ha. induction l as [|x l IH]; cbn [rebuild_order]; [done|].
  rewrite others_cons, IH by (intros a E Hin; apply (Ha a E); by right).
  destruct (x =? id)%string; [done|]. rewrite bool_decide_eq_false_2; [done|].
  intros E. apply (Ha x E). left.
Qed.

Lemma others_id id l : id ∉ others id l.
Proof.
  unfold others. rewrite list_elem_of_In, filter_In. intros [_ H]. by rewrite String.eqb_refl in H.
Qed.

Lemma others_absent id l : id ∉ l -> others id l = l.
Proof.
  induction l as [|x l IH]; [done|]. intros [Hx Hl]%not_elem_of_cons.
  rewrite others_cons, (proj2 (String.eqb_neq x id)) by congruence. by rewrite IH.
Qed.

Lemma others_app id l1 l2 : others id (l1 ++ l2) = others id l1 ++ others id l2.
Proof. apply List.filter_app. Qed.

Lemma others_perm id l : NoDup l -> id ∈ l -> id :: others id l ≡ₚ l.
Proof.
  induction l as [|x l IH]; [by intros _ ?%elem_of_nil|]. intros [Hx Hnd]%NoDup_cons Hin. rewrite others_cons.
  destruct (String.eqb_spec x id) as [->|Hne]; [by rewrite others_absent|].
  apply elem_of_cons in Hin as [->|Hin]; [done|]. rewrite <- (IH Hnd Hin) at 2. constructor.
Qed.

Lemma rebuild_app id after l1 l2 : rebuild_order id after (l1 ++ l2) = rebuild_order id after l1 ++ rebuild_order id after l2.
Proof. induction l1 as [|x l1 IH]; cbn; [done|]. by destruct (x =? id)%string; [|case_match]; cbn; rewrite IH. Qed.

(** The new order: a permutation that moves only [id], to the front or right
    after [after]. *)
Lemma new_order_spec id after l :
  NoDup l -> id ∈ l -> check_after id after l = Ok tt ->
  new_order id after l ≡ₚ l /\ others id (new_order id after l) = others id l /\
  match after with
  | None => head (new_order id after l) = Some id
  | Some a => exists l1 l2, new_order id after l = l1 ++ a :: id :: l2
  end.
Proof.
  intros Hnd Hid Hc. destruct after as [a|]; cbn in Hc |- *.
  - destruct (String.eqb_spec a id) as [|Hne]; [done|]. destruct (bool_decide (a ∈ l)) eqn:Ea; [|done].
    apply bool_decide_eq_true, list_elem_of_split in Ea as (l1 & l2 & ->).
    apply NoDup_app in Hnd as (Hnd1 & Hdis & [Ha2 Hnd2]%NoDup_cons).
    assert (Ha1 : a ∉ l1) by (intros H; apply (Hdis a H); left).
    unfold new_order. rewrite rebuild_app. cbn. rewrite (proj2 (String.eqb_neq a id) Hne), bool_decide_eq_true_2 by done.
    rewrite !rebuild_absent by (intros ? [= <-]; done). split_and!.
    + rewrite elem_of_app, elem_of_cons in Hid. rewrite <- Permutation_middle.
      transitivity (a :: (l1 ++ l2)); [constructor|by rewrite Permutation_middle].
      rewrite <- Permutation_middle, <- others_app. apply others_perm; [|rewrite elem_of_app; naive_solver].
      apply NoDup_app. split_and!; [done| |done]. intros x Hx Hx2. apply (Hdis x Hx). by right.
    + rewrite !others_app, !others_cons, (proj2 (String.eqb_neq a id) Hne), String.eqb_refl.
      by rewrite !(others_absent id (others id _)) by apply others_id.
    + eauto.
  - unfold new_order. rewrite rebuild_absent by done. split_and!; [by apply others_perm| |done].
    rewrite others_cons, String.eqb_refl. apply others_absent, others_id.
Qed.

(** The position loop writes every listed folder's index. *)
Definition placed (o : string) (order : list string) (pos : Z) (f : folder) : folder :=
  match (if owned_by o f then index_in (f_id f) order else None) with
  | Some i => set_position (pos + Z.of_nat i) f
  | None => f
  end.

Lemma write_positions_spec o order pos t :
  NoDup order ->
  write_positions (fun pos sid => update_where (fun f => has_id sid f && owned_by o f) (set_position pos)) pos order t
  = map (placed o order pos) t.
Proof.
  revert pos t. induction order as [|sid order IH]; intros pos t Hnd; cbn [write_positions].
  - etrans; [symmetry; apply map_id|]. apply map_ext. intros f. unfold placed. cbn. by destruct (owned_by o f).
  - apply NoDup_cons in Hnd as [Hs Hnd]. rewrite IH by done. unfold update_where. rewrite map_map. apply map_ext.
    intros f. unfold placed, has_id. cbn [index_in]. rewrite (String.eqb_sym sid (f_id f)).
    destruct (String.eqb_spec (f_id f) sid) as [E|Hne]; cbn [andb].
    + destruct (owned_by o f) eqn:Eo.
      * change (owned_by o (set_position pos f)) with (owned_by o f). rewrite Eo. cbn [f_id set_position]. rewrite E.
        destruct (index_in sid order) as [i|] eqn:Ei; [exfalso; apply Hs, index_in_some; eauto|].
        f_equal. lia.
      * by rewrite Eo.
    + destruct (owned_by o f); [|done]. destruct (index_in (f_id f) order) as [i|]; cbn; [|done].
      f_equal. lia.
Qed.

Lemma placed_same o order pos f :
  f_id (placed o order pos f) = f_id f /\ f_owner (placed o order pos f) = f_owner f /\
  f_parent (placed o order pos f) = f_parent f /\ live (placed o order pos f) = live f.
Proof. unfold placed. by destruct (if owned_by o f then _ else _). Qed.

Lemma siblings_elem o p t f :
  f ∈ siblings o p t <-> f ∈ t /\ f_owner f = o /\ f_parent f = p /\ live f = true.
Proof.
  unfold siblings. rewrite elem_of_select_where, !andb_true_iff, owned_by_true, parent_is_true. tauto.
Qed.

Lemma siblings_placed o p order pos t :
  siblings o p (map (placed o order pos) t) = map (placed o order pos) (siblings o p t).
Proof.
  unfold siblings, select_where. induction t as [|f t IH]; cbn; [done|].
  destruct (placed_same o order pos f) as (_ & Ho & Hp & Hl).
  assert (owned_by o (placed o order pos f) && parent_is p (placed o order pos f) && live (placed o order pos f)
    = owned_by o f && parent_is p f && live f) as ->.
  { unfold owned_by, parent_is. by rewrite Ho, Hp, Hl. }
  destruct (_ && _); cbn; by rewrite IH.
Qed.

Lemma sibling_ids_perm o p t : sibling_ids lower name_lt o p t ≡ₚ map f_id (siblings o p t).
Proof. unfold sibling_ids. apply Permutation_map, order_by_perm. Qed.

(** Siblings given the positions [0, 1, ...] of an order are listed in it. *)
Lemma sibling_ids_placed o p t order :
  NoDup (map f_id t) -> NoDup order -> order ≡ₚ map f_id (siblings o p t) ->
  sibling_ids lower name_lt o p (map (placed o order 0) t) = order.
Proof.
  intros Hnd Hno Hperm. unfold sibling_ids. rewrite siblings_placed. set (l := map (placed o order 0) (siblings o p t)).
  assert (Hl : forall f, f ∈ l -> exists i, index_in (f_id f) order = Some i /\ f_position f = Z.of_nat i).
  { intros f (f0 & -> & Hf0)%list_elem_of_fmap.
    assert (Hin : f_id f0 ∈ order) by (rewrite Hperm; apply list_elem_of_fmap; eauto).
    apply index_in_some in Hin as [i Hi]. exists i. destruct (placed_same o order 0 f0) as (-> & _).
    split; [done|]. unfold placed. apply siblings_elem in Hf0 as (_ & Ho & _).
    by rewrite (proj2 (owned_by_true o f0) Ho), Hi. }
  assert (Hids : map f_id l ≡ₚ order).
  { unfold l. rewrite map_map, Hperm. erewrite map_ext; [done|]. intros f. by destruct (placed_same o order 0 f). }
  assert (Hsort : StronglySorted (fun a b => (f_position a < f_position b)%Z) (order_by (sibling_before lower name_lt) l)).
  { apply order_by_sorted.
    - assert (Hndl : NoDup (map f_id l)) by (by rewrite Hids). revert Hl Hndl. clear Hids. generalize l. clear.
      induction l as [|f l IH]; cbn; intros Hl Hnd; [constructor|]. apply NoDup_cons in Hnd as [Hf Hnd].
      constructor; [|apply IH; [intros g Hg; apply Hl; by right|done]].
      rewrite list_elem_of_fmap. intros (g & E & Hg). apply Hf, list_elem_of_fmap. exists g. split; [|done].
      destruct (Hl f) as (i & Hi & Ei); [left|]. destruct (Hl g) as (j & Hj & Ej); [by right|].
      apply (index_in_inj order _ _ i); [done|]. rewrite Hj. f_equal. lia.
    - intros a b _ _ Hne. unfold sibling_before. destruct (Z.ltb_spec (f_position a) (f_position b)); [done|].
      rewrite (proj2 (Z.eqb_neq _ _) Hne). done. }
  apply (StronglySorted_unique (index_lt order)).
  - assert (Hl' : forall f, f ∈ order_by (sibling_before lower name_lt) l -> f ∈ l) by (intros f; by rewrite elem_of_order_by).
    revert Hsort Hl'. generalize (order_by (sibling_before lower name_lt) l). induction 1 as [|f k Hk IH Hf]; intros Hin; cbn; [constructor|].
    constructor; [apply IH; intros g Hg; apply Hin; by right|]. apply Forall_forall.
    intros s (g & -> & Hg)%list_elem_of_fmap. pose proof (proj1 (Forall_forall _ _) Hf g Hg) as Hlt.
    destruct (Hl f) as (i & Hi & Ei); [apply Hin; left|]. destruct (Hl g) as (j & Hj & Ej); [apply Hin; by right|].
    cbn in Hlt. exists i, j. split_and!; [done..|lia].
  - by apply index_sorted.
  - by rewrite order_by_perm.
Qed.

(** [ReorderFolder] moves one folder among its siblings: they keep their
    set and, apart from the moved one, their order; the folder comes first, or
    directly after [afterID]; and no folder outside that sibling list changes. *)
Theorem ReorderFolder_order req id after d d' f :
  db_ok d -> f ∈ folders d -> f_id f = id -> ReorderFolder lower name_lt req id after d = (Ok tt, d') ->
  let old := sibling_ids lower name_lt req (f_parent f) (folders d) in
  let new := sibling_ids lower name_lt req (f_parent f) (folders d') in
  new ≡ₚ old /\ others id new = others id old /\
  match after with
  | None => head new = Some id
  | Some a => exists l1 l2, new = l1 ++ a :: id :: l2
  end /\
  (forall g, g ∈ folders d -> f_id g ∉ old -> g ∈ folders d').
Proof.
  intros [((Hnd & _) & _) _] Hf Hid Hr old new. unfold ReorderFolder in Hr.
  destruct (authorizeLiveFolderOwnerMutation _ _ _) as [[]|] eqn:Ea; [|done].
  apply authorize_ok in Ea as (f0 & Hf0 & Hid0 & Ho & Hl).
  assert (f0 = f) as -> by (apply (folder_unique (folders d)); congruence).
  destruct (select_live_row _ f Hnd Hf Hl) as [l Esel]. rewrite Hid in Esel. rewrite Esel in Hr. fold old in Hr.
  destruct (check_after id after old) as [[]|] eqn:Ec; [|done]. injection Hr as <-. cbn [with_folders folders] in new.
  assert (Hold : old ≡ₚ map f_id (siblings req (f_parent f) (folders d))) by apply sibling_ids_perm.
  assert (Hndo : NoDup old) by (rewrite Hold; by apply NoDup_map_filter).
  assert (Hin : id ∈ old) by (rewrite Hold; apply list_elem_of_fmap; exists f; by rewrite siblings_elem).
  destruct (new_order_spec id after old Hndo Hin Ec) as (Hperm & Hothers & Hplace).
  assert (Hndn : NoDup (new_order id after old)) by (by rewrite Hperm).
  assert (Enew : new = new_order id after old).
  { unfold new. rewrite write_positions_spec by done. apply sibling_ids_placed; [done..|]. by rewrite Hperm. }
  rewrite Enew. split_and!; [done..|].
  intros g Hg Hno. cbn. rewrite write_positions_spec by done. apply list_elem_of_fmap. exists g. split; [|done].
  unfold placed. destruct (owned_by req g); [|done].
  destruct (index_in (f_id g) (new_order id after old)) as [i|] eqn:Ei; [|done].
  exfalso. apply Hno. rewrite <- Hperm. apply index_in_some. eauto.
Qed.

(** ** Listing *)

Lemma descendants_spec req t ds :
  tree_ok t -> live_ok t -> descendants req t = Ok ds ->
  forall r g, (r, g) ∈ ds <->
    r ∈ t /\ visible req r = true /\ g ∈ t /\ live g = true /\ rtc (up t) (f_id g) (f_id r).
Proof.
  intros Ht Hl Hd r g. unfold descendants in Hd. destruct (with_recursive _ _ _) as [out|] eqn:E; [|done].
  injection Hd as <-. rewrite (with_recursive_spec _ _ _ _ E). split.
  - intros ([r0 g0] & (x & [= -> ->] & [Hx Hv]%elem_of_select_where)%list_elem_of_fmap & Hp).
    assert (Hlx : live x = true) by (by apply andb_true_iff in Hv as []).
    enough (forall a b, rtc (joined (descendants_next t)) a b -> b = (r, g) -> a.2 ∈ t -> live a.2 = true ->
      a.1 = r /\ g ∈ t /\ live g = true /\ rtc (up t) (f_id g) (f_id a.2)) as H.
    { destruct (H _ _ Hp eq_refl) as (E1 & ? & ? & ?); [done..|]. cbn in E1. by subst x. }
    intros a b. induction 1 as [a|a b c Hab _ IH]; intros -> Ha Hla.
    + cbn in *. split_and!; done.
    + apply list_elem_of_fmap in Hab as (y & -> & [Hy Hly]%live_children_spec).
      apply children_sound in Hy as (Hy & Hpy & _). destruct (IH eq_refl) as (E1 & ? & ? & ?); [done..|]. cbn in *.
      split_and!; try done. eapply rtc_r; [done|]. exists y. auto.
  - intros (Hr & Hv & Hg & Hlg & Hp). exists (r, r). split.
    { apply list_elem_of_fmap. exists r. by rewrite elem_of_select_where. }
    remember (f_id g) as a eqn:Ea. remember (f_id r) as b eqn:Eb. revert g Ea Hg Hlg.
    induction Hp as [a|a c b Hac Hp IH]; intros g -> Hg Hlg.
    + assert (g = r) as -> by (destruct Ht as [Hnd _]; by apply (folder_unique t)). done.
    + destruct (up_row t g c Ht Hg Hac) as (h & Hh & <- & Ho & Hpar).
      assert (Hlh : live h = true) by (by apply (Hl g h)).
      eapply rtc_r; [by apply (IH Eb h)|]. apply list_elem_of_fmap. exists g. split; [done|].
      apply live_children_spec. split; [|done]. by apply children_complete.
Qed.

(** A listing shows the requester exactly the live folders they own or
    that are shared; a shown parent is itself shown, so no hidden folder's id
    leaks; and each count is the number of distinct live notes filed at or
    below the folder in folders the requester can read. *)
Theorem ListFolders_readable req d fs :
  db_ok d -> ListFolders lower name_lt req d = Ok fs ->
  map ID fs ≡ₚ map f_id (select_where (visible req) (folders d)) /\
  (forall F, F ∈ fs -> exists f, f ∈ folders d /\ visible req f = true /\ ID F = f_id f /\
     (forall p, ParentID F = Some p -> f_parent f = Some p /\ p ∈ map ID fs) /\
     exists ns, NoDup ns /\ length ns = NoteCount F /\
       forall n, n ∈ ns <-> exists m g, m ∈ note_folders d /\ nf_note m = n /\
         (exists x, x ∈ notes d /\ n_id x = n /\ note_live x = true) /\
         g ∈ folders d /\ nf_folder m = f_id g /\ visible req g = true /\ rtc (up (folders d)) (f_id g) (f_id f)).
Proof.
  intros [(Ht & Hlive & _) _] Hlist. pose proof Ht as (Hnd & _).
  apply result_bind_ok in Hlist as (ds & Hds & [= <-]). set (out := order_by _ _).
  assert (Hout : forall f, f ∈ out <-> f ∈ folders d /\ visible req f = true).
  { intros f. unfold out. by rewrite elem_of_order_by, elem_of_select_where. }
  rewrite map_map. cbn [ID]. split; [apply Permutation_map, order_by_perm|].
  intros F (f & -> & Hf)%list_elem_of_fmap. apply Hout in Hf as [Hf Hv]. exists f. cbn [ID ParentID NoteCount].
  split_and!; [done..| |].
  - intros p Hp. destruct (f_parent f) as [q|]; [|done]. destruct (bool_decide _) eqn:E; [|done].
    injection Hp as <-. by apply bool_decide_eq_true in E.
  - unfold note_count. set (gs := map snd _). exists (remove_dups (notes_in d gs)).
    split; [apply NoDup_remove_dups|]. split; [done|]. intros n. rewrite elem_of_remove_dups.
    assert (Hgs : forall g, g ∈ gs <-> g ∈ folders d /\ visible req g = true /\ rtc (up (folders d)) (f_id g) (f_id f)).
    { intros g. unfold gs. rewrite list_elem_of_fmap. split.
      - intros ([r g'] & -> & [Hd [Hr Hown]%andb_true_iff]%elem_of_select_where).
        apply (descendants_spec req _ ds Ht Hlive Hds) in Hd as (? & ? & ? & Hl & Hp). apply has_id_true in Hr.
        cbn [fst snd] in *. rewrite Hr in Hp. split_and!; [done| |done]. unfold visible. by rewrite Hl, Hown.
      - intros (Hg & Hvg & Hp). exists (f, g). split; [done|]. unfold visible in Hvg.
        apply andb_true_iff in Hvg as [Hl Hown]. apply elem_of_select_where. split.
        + by apply (descendants_spec req _ ds Ht Hlive Hds).
        + cbn. by rewrite has_id_self. }
    unfold notes_in. rewrite elem_of_flat_map. split.
    + intros (g & Hg & (m & -> & [Hm [E Hn]%andb_true_iff]%elem_of_select_where)%list_elem_of_fmap).
      apply Hgs in Hg as (? & ? & ?). apply String.eqb_eq in E.
      apply exists_where_true in Hn as (x & Hx & [Ex%String.eqb_eq Hlx]%andb_true_iff). exists m, g. split_and!; eauto.
    + intros (m & g & Hm & <- & (x & Hx & Ex & Hlx) & Hg & E & Hvg & Hp). exists g. split; [by apply Hgs|].
      apply list_elem_of_fmap. exists m. split; [done|]. apply elem_of_select_where. split; [done|].
      rewrite E, String.eqb_refl. apply exists_where_true. exists x. split; [done|]. by rewrite Ex, String.eqb_refl.
Qed.

End Invariant.

(** ** Concrete trees *)

Module FolderDemo.

Definition lower : string -> string := fun s => s.
Definition name_lt : string -> string -> bool := String.ltb.

Definition row (id name : string) (parent : option string) (vis : string) (pos : Z) : folder :=
  mkFolder id "o" name parent vis 0 None pos.

(** [a] with a child [c], and [b]; [b] is shared and holds a note. *)
Definition base : db := {|
  folders := [row "a" "A" None FolderPrivate 0; row "b" "B" None FolderShared 1; row "c" "C" (Some "a") FolderPrivate 0];
  notes := [mkNote "n" "o" 0 None];
  note_folders := [mkNF "n" "b" 0] |}.

Lemma base_ok : db_ok lower base.
Proof.
  split; [split_and!|split_and!].
  - split; [apply (bool_decide_unpack _); by vm_compute|]. split.
    + intros f p Hf. repeat (apply elem_of_cons in Hf as [->|Hf]); [done|done| |by apply elem_of_nil in Hf].
      intros [= <-]. exists (row "a" "A" None FolderPrivate 0). split; [left|done].
    + exists (fun i => if (i =? "c")%string then 1%nat else 0%nat).
      intros x y (f & Hf & <- & Hp). repeat (apply elem_of_cons in Hf as [->|Hf]); try done; [|by apply elem_of_nil in Hf].
      injection Hp as <-. cbn. lia.
  - intros f g Hf Hg. repeat (apply elem_of_cons in Hg as [->|Hg]); done || by apply elem_of_nil in Hg.
  - intros f g Hf Hg. repeat (apply elem_of_cons in Hf as [->|Hf]); [..|by apply elem_of_nil in Hf];
      repeat (apply elem_of_cons in Hg as [->|Hg]); done || by apply elem_of_nil in Hg.
  - intros f Hf. repeat (apply elem_of_cons in Hf as [->|Hf]); [..|by apply elem_of_nil in Hf];
      (split; [done|]); (by left) || by right.
  - apply (bool_decide_unpack _); by vm_compute.
  - apply (bool_decide_unpack _); by vm_compute.
  - intros m Hm. apply list_elem_of_singleton in Hm as ->. split; [left|right; left].
Qed.

(** The results of the operations of a history. *)
Fixpoint results (os : list folder_op) (d : db) : list (result store_error unit) :=
  match os with
  | [] => []
  | o :: rest => (perform lower name_lt o d).1 :: results rest (perform lower name_lt o d).2
  end.

Definition empty : db := mkDB [] [] [].

(** One request after the other. *)
Definition run_serial (os : list folder_op) (d : db) : db := fold_left (fun d o => (perform lower name_lt o d).2) os d.

(** A chain of five folders, all but the first trashed; the first moves below
    another chain of four; then the trash is restored. *)
Definition deepen : list folder_op :=
  [OpCreate "a" 0 "o" "a" None; OpCreate "b" 0 "o" "b" (Some "a"); OpCreate "c" 0 "o" "c" (Some "b");
   OpCreate "d" 0 "o" "d" (Some "c"); OpCreate "e" 0 "o" "e" (Some "d"); OpDelete "o" "b" 1;
   OpCreate "w" 0 "o" "w" None; OpCreate "x" 0 "o" "x" (Some "w"); OpCreate "y" 0 "o" "y" (Some "x");
   OpCreate "z" 0 "o" "z" (Some "y"); OpUpdate "o" "a" "a" (Some "z"); OpRestore "o" "b"].

End FolderDemo.
Import FolderDemo.

(** Deciding [up] on concrete tables. *)
Definition up_b (t : list folder) (a b : string) : bool :=
  existsb (fun f => (f_id f =? a)%string && bool_decide (f_parent f = Some b)) t.

Lemma up_b_true t a b : up_b t a b = true -> up t a b.
Proof.
  intros (f & Hf%list_elem_of_In & [Ha%String.eqb_eq Hb%bool_decide_eq_true]%andb_true_iff)%existsb_exists.
  by exists f.
Qed.

(** The depth limit does not survive restoring: trashed folders are not
    counted when their live ancestor is moved, so a history of accepted
    operations leaves a live folder with eight folders above it. *)
Theorem restore_exceeds_depth :
  Forall (fun r => r = Ok tt) (results deepen empty) /\
  let t := folders (run_serial deepen empty) in
  exists x, x ∈ t /\ live x = true /\ nsteps (up t) 8 (f_id x) "w" /\ (maxFolderDepth < 9)%nat.
Proof.
  split; [vm_compute; repeat constructor|]. intros t.
  exists (mkFolder "e" "o" "e" (Some "d"%string) FolderPrivate 0 None 0). split_and!; [|done| |unfold maxFolderDepth; lia].
  - apply list_elem_of_lookup. exists 4%nat. vm_compute. reflexivity.
  - cbn [f_id].
    let up_to y := apply (nsteps_l _ _ _ y); [apply up_b_true; vm_compute; reflexivity|] in
    up_to "d"%string; up_to "c"%string; up_to "b"%string; up_to "a"%string;
    up_to "z"%string; up_to "y"%string; up_to "x"%string; up_to "w"%string.
    constructor.
Qed.

(** The parent check is not isolated from concurrent moves: it reads
    outside the transaction, so two moves validated on the same state both
    succeed and leave each folder inside the other, after which the listing
    query never ends, however long it runs. *)
Theorem concurrent_moves_hang :
  let '(r1, d1) := UpdateFolder_on lower (folders base) (folders base) "o" "a" "A" (Some "b") base in
  let '(r2, d2) := UpdateFolder_on lower (folders base) (folders base) "o" "b" "B" (Some "a") d1 in
  is_ok r1 = true /\ is_ok r2 = true /\ up (folders d2) "a" "b" /\ up (folders d2) "b" "a" /\
  forall fuel, with_recursive (descendants_next (folders d2)) fuel
    (map (fun f => (f, f)) (select_where (visible "o") (folders d2))) = None.
Proof.
  destruct (UpdateFolder_on lower (folders base) (folders base) "o" "a" "A" (Some "b"%string) base) as [r1 d1] eqn:E1.
  destruct (UpdateFolder_on lower (folders base) (folders base) "o" "b" "B" (Some "a"%string) d1) as [r2 d2] eqn:E2.
  vm_compute in E1. injection E1 as <- <-. vm_compute in E2. injection E2 as <- <-.
  split_and!; [done|done|by apply up_b_true|by apply up_b_true|]. intros fuel.
  set (fa := mkFolder "a" "o" "A" (Some "b"%string) FolderPrivate 0 None 0).
  set (fb := mkFolder "b" "o" "B" (Some "a"%string) FolderShared 0 None 1).
  apply (with_recursive_loops _ (fun rd => rd.2 = fa \/ rd.2 = fb)).
  - intros [r f] [Hf|Hf]; cbn in Hf; subst f; [exists (r, fb)|exists (r, fa)]; (split; [|by (left + right)]);
      apply list_elem_of_fmap; [exists fb|exists fa]; (split; [done|]); apply list_elem_of_lookup; exists 0%nat; vm_compute; reflexivity.
  - exists (fa, fa). split; [|by left]. apply list_elem_of_lookup. exists 0%nat. vm_compute. reflexivity.
Qed.

Module FolderWitness.
Definition row_a : folder := row "a" "A" None FolderPrivate 0.
Definition trashed_base : db := (DeleteFolder "o" "a" 5 base).2.
Lemma trashed_base_ok : db_ok lower trashed_base.
Proof. exact (conj (perform_folders lower name_lt (current base) (OpDelete "o" "a" 5) base I eq_refl (proj1 base_ok))
                   (perform_filing lower name_lt (current base) (OpDelete "o" "a" 5) base (proj2 base_ok))). Qed.

(** Two moves checked on the same tables, each overtaking the other. *)
Definition overtaken : list (view * folder_op) :=
  [(current base, OpUpdate "o" "a" "A" (Some "b"%string)); (current base, OpUpdate "o" "b" "B" (Some "a"%string))].

(** A creation and a move checked before other requests wrote. *)
Definition spaced : list (view * folder_op) :=
  [(current base, OpVisibility "o" "a" FolderShared); (current base, OpCreate "e" 0 "o" "E" (Some "c"%string));
   (current base, OpUpdate "o" "a" "Z" (Some "b"%string)); (current base, OpDelete "o" "a" 3)].
End FolderWitness.
Import FolderWitness.

Lemma all_owned o (t1 t2 : list folder) :
  Forall (fun f => f_owner f = o) t1 /\ Forall (fun f => f_owner f = o) t2 ->
  forall f g, f ∈ t1 -> g ∈ t2 -> f_owner f = f_owner g.
Proof. rewrite !Forall_forall. intros [H1 H2] f g Hf Hg. by rewrite (H1 f Hf), (H2 g Hg). Qed.

Lemma folder_tables_invariant_witness :
  (let t := folders (perform_all lower name_lt overtaken base) in
   up t "a" "b" /\ up t "b" "a" /\ tables_ok lower (perform_all lower name_lt overtaken base)) /\
  db_ok lower (perform_all lower name_lt spaced base).
Proof.
  split; [intros t; split; [|split]|].
  - apply up_b_true. by vm_compute.
  - apply up_b_true. by vm_compute.
  - apply (folder_tables_invariant lower name_lt overtaken base); [by repeat constructor|..].
    + split; [apply folders_ok_rows|]; apply base_ok.
    + split; [|split; [|done]]; intros f g Hf Hg _; revert f g Hf Hg; apply (all_owned "o");
        (split; repeat constructor).
  - apply (folder_tables_invariant lower name_lt spaced base); [by repeat constructor|apply base_ok|].
    split_and!; by vm_compute.
Defined.

Lemma folder_operations_terminate_witness :
  (perform lower name_lt (OpUpdate "o" "a" "Z" (Some "b"%string)) base).1 <> Err DbError /\
  exists fs, ListFolders lower name_lt "p" base = Ok fs.
Proof. apply (folder_operations_terminate lower name_lt (OpUpdate "o" "a" "Z" (Some "b"%string)) base "p" base_ok). Defined.

Lemma moved_subtree_depth_witness :
  match UpdateFolder lower "o" "a" "A" (Some "b"%string) base with
  | (Ok _, d') => forall x k b, x ∈ folders d' -> live x = true -> rtc (up (folders d')) (f_id x) "a" ->
      nsteps (up (folders d')) k (f_id x) b -> (k < maxFolderDepth)%nat
  | _ => False
  end.
Proof.
  destruct (UpdateFolder lower "o" "a" "A" (Some "b"%string) base) as [[r|e] d'] eqn:E; [|vm_compute in E; discriminate].
  exact (moved_subtree_depth lower "o" "a" "A" "b" base r d' base_ok E).
Defined.

Lemma non_owner_denied_witness :
  perform lower name_lt (OpUpdate "p" "b" "" None) base = (Err ErrForbidden, base) /\
  perform lower name_lt (OpUpdate "p" "a" "" None) base = (Err ErrNotFound, base).
Proof.
  split.
  - refine (non_owner_denied lower name_lt (OpUpdate "p" "b" "" None) base "p" "b" base_ok eq_refl _).
    intros f Hf _ _. repeat (apply elem_of_cons in Hf as [->|Hf]); [done..|by apply elem_of_nil in Hf].
  - refine (non_owner_denied lower name_lt (OpUpdate "p" "a" "" None) base "p" "a" base_ok eq_refl _).
    intros f Hf _ _. repeat (apply elem_of_cons in Hf as [->|Hf]); [done..|by apply elem_of_nil in Hf].
Defined.

Lemma purge_spares_live_witness :
  map f_id (folders (PurgeFolder "o" "a" trashed_base).2) = ["b"%string] /\
  (forall f, f ∈ folders (PurgeFolder "o" "a" trashed_base).2 <->
     f ∈ folders trashed_base /\ ~ exists a, a ∈ folders trashed_base /\ f_id a = "a"%string /\ f_owner a = "o"%string /\
       trashed a = true /\ rtc (up (folders trashed_base)) (f_id f) "a").
Proof.
  split; [by vm_compute|]. exact (proj1 (purge_spares_live lower trashed_base "o" "a" 9 0 trashed_base_ok)).
Defined.

Lemma delete_then_restore_witness :
  exists s, folderDescendants "o" "a" (folders base) = Ok s /\
    let '(r1, d1) := DeleteFolder "o" "a" 5 base in
    let '(r2, d2) := RestoreFolder "o" "a" d1 in
    r1 = Ok tt /\ r2 = Ok tt /\ (forall x, x ∈ folders d1 -> f_id x ∈ s -> live x = false) /\
    d2 = with_folders (update_where (fun x => bool_decide (f_id x ∈ s)) (set_deleted None) (folders base)) base.
Proof. apply (delete_then_restore lower "o" "a" 5 base row_a base_ok); [left|reflexivity..]. Defined.

Lemma ReorderFolder_order_witness :
  match ReorderFolder lower name_lt "o" "a" (Some "b"%string) base with
  | (Ok _, d') =>
      let old := sibling_ids lower name_lt "o" None (folders base) in
      let new := sibling_ids lower name_lt "o" None (folders d') in
      new = ["b"; "a"]%string /\
      (new ≡ₚ old /\ others "a" new = others "a" old /\ (exists l1 l2, new = l1 ++ "b"%string :: "a"%string :: l2) /\
       (forall g, g ∈ folders base -> f_id g ∉ old -> g ∈ folders d'))
  | _ => False
  end.
Proof.
  destruct (ReorderFolder lower name_lt "o" "a" (Some "b"%string) base) as [[[]|e] d'] eqn:E; [|vm_compute in E; discriminate].
  split; [vm_compute in E; injection E as <-; by vm_compute|].
  refine (ReorderFolder_order lower name_lt "o" "a" (Some "b"%string) base d' row_a base_ok _ eq_refl E). left.
Defined.

Lemma ListFolders_readable_witness :
  match ListFolders lower name_lt "p" base with
  | Ok fs => map NoteCount fs = [1%nat] /\ map ID fs ≡ₚ map f_id (select_where (visible "p") (folders base))
  | Err _ => False
  end.
Proof.
  destruct (ListFolders lower name_lt "p" base) as [fs|e] eqn:E; [|vm_compute in E; discriminate].
  split; [vm_compute in E; injection E as <-; reflexivity|].
  exact (proj1 (ListFolders_readable lower name_lt "p" base fs base_ok E)).
Defined.
