(* ===== verification/Execution.v ===== *)
(** Template execution: [internal/execution] ([executor.go], [prompt.go],
    [admission.go]).

    The agent plugin is the argument [Generate]; an error it returns (timeouts
    and cancellation included) is [Err].  The JSON decoding of the admission
    config is an argument too.  Strings are the bytes the code sends. *)

From stdpp Require Import base list strings sets gmap.
From Stdlib Require Import Ascii ZArith Lia SpecFloat.
From S2P Require Import GoInt GoStrings.

Local Open Scope string_scope.

(** ** Data ([internal/model], [internal/plugin]) *)

Record Word := { w_Text : string; w_StartMS : Z; w_EndMS : Z }.

Record Segment := {
  seg_ID : string; StartMS : Z; EndMS : Z; Text : string; seg_Source : string; Speaker : string;
  Words : list Word; Confidence : option spec_float; Boundary : string; Provisional : bool }.

Record TemplateSection := { Heading : string; Instruction : string }.

Record SummarySection := { s_Heading : string; ContentMarkdown : string; Refs : list Z }.

Record Document := {
  NoteID : string; Title : string; OccurredAt : string; TranscriptGeneration : Z;
  Segments : list Segment; NotesMarkdown : string }.

Inductive Mode := ModeCrossAnalysis | ModeSingleNoteSummary.
#[export] Instance Mode_eq_dec : EqDecision Mode.
Proof. solve_decision. Defined.

Record ExecutionInput := {
  Sections : list TemplateSection;   (* [Template.Sections] *)
  input_Mode : Mode; Documents : list Document; RunInstruction : string;
  Config : string; SystemPrompt : string; Model : string; Temperature : option spec_float }.

Record SourceRef := {
  N : Z; src_NoteID : string; src_Generation : Z; SegmentIndex : nat; Timestamp : Z; Snippet : string }.

Record SectionPrompt := { p_Heading : string; Prompt : string }.

Record PreparedExecution := {
  Input : ExecutionInput; Corpus : string; SectionPrompts : list SectionPrompt;
  Sources : list SourceRef; Generations : gmap string Z }.

Inductive execution_error :=
| ErrEmptyDocuments
| ErrEmptyTemplate
| ErrSingleNoteModeRequiresOneDocument
| ErrSectionMismatch
| ErrEmptyOutput
| ErrInvalidAdmissionConfig
| ErrContextBudget
| GenerateError (e : string).

(** ** The prompt ([prompt.go]) *)

Definition SystemDirective : string :=
  "You are analyzing multiple distinct meetings together. " ++
  "Base every claim strictly on the meetings below; do not use outside knowledge or speculate beyond what they say. " ++
  "Treat each meeting as a separate, distinct source; never merge, conflate, or assume continuity between them unless the text itself says so. " ++
  "Cite the source(s) supporting each claim inline with bracketed markers matching the numbers shown, e.g. [1] or [2][3]. " ++
  "Use speaker names exactly as given verbatim; do not infer, abbreviate, or merge names.".

Definition noFocusNotice : string := "(none)".

Definition newline : string := String (byte_of 10) "".

(** [fmt.Sprintf("%s\x00%d", noteID, segIdx)] *)
Definition source_key (noteID : string) (segIdx : nat) : string :=
  noteID ++ String (byte_of 0) (Itoa (Z.of_nat segIdx)).

Definition number_of (sources : list SourceRef) : gmap string Z :=
  fold_left (fun m s => <[source_key (src_NoteID s) (SegmentIndex s) := N s]> m) sources ∅.

(** The line of segment [segIdx]; a missing map entry reads as zero. *)
Definition segment_line (numberOf : gmap string Z) (noteID : string) (segIdx : nat) (seg : Segment) : string :=
  let n := default 0%Z (numberOf !! source_key noteID segIdx) in
  if negb (Speaker seg =? "")%string
  then "[" ++ Itoa n ++ "] " ++ Speaker seg ++ ": " ++ Text seg ++ newline
  else "[" ++ Itoa n ++ "] " ++ Text seg ++ newline.

Definition concat_strings (l : list string) : string := foldr String.append "" l.

Definition document_block (numberOf : gmap string Z) (i : nat) (doc : Document) : string :=
  let occurred := if (OccurredAt doc =? "")%string then "date unknown" else OccurredAt doc in
  "--- MEETING " ++ Itoa (Z.of_nat i + 1) ++ ": " ++ Title doc ++ " | " ++ occurred ++ " | note_id=" ++ NoteID doc
    ++ " ---" ++ newline ++
  (if negb (NotesMarkdown doc =? "")%string then NotesMarkdown doc ++ newline else "") ++
  concat_strings (imap (segment_line numberOf (NoteID doc)) (Segments doc)).

Definition buildCorpus (input : ExecutionInput) (sources : list SourceRef) : string :=
  let numberOf := number_of sources in
  let focus := TrimSpace (RunInstruction input) in
  SystemDirective ++ newline ++ newline ++ "MEETINGS:" ++ newline ++
  concat_strings (imap (document_block numberOf) (Documents input)) ++
  newline ++ "FOCUS: " ++ (if (focus =? "")%string then noFocusNotice else focus) ++
  newline ++ newline ++ "CITATIONS: Cite claims using the bracketed numbers shown above, e.g. [1], [2]. " ++
  "Only use numbers that appear above; do not invent new ones.".

Definition quote : string := String (byte_of 34) "".

Definition documentsOutputInstruction : string :=
  "Return a JSON object with " ++ quote ++ "content_markdown" ++ quote ++ " (the content for this section, " ++
  "citing sources with the bracketed numbers given in the corpus above, e.g. " ++
  "[1] or [2][3]) and optional " ++ quote ++ "refs" ++ quote ++ " (always omit or leave empty for a " ++
  "cross-meeting analysis run -- citations live inline in content_markdown, not in refs).".

Definition buildSectionPrompt (corpus : string) (section : TemplateSection) : string :=
  corpus ++ newline ++ newline ++ "## The section to write" ++ newline ++ Heading section ++ " — " ++
  Instruction section ++ newline ++ newline ++ "## Output" ++ newline ++ documentsOutputInstruction.

(** ** [PrepareDocuments] *)

Definition prepare_state : Type := list SourceRef * gmap string Z.

Definition add_segment (doc : Document) (st : prepare_state) (segIdx : nat) (seg : Segment) : prepare_state :=
  let '(sources, seen) := st in
  let key := source_key (NoteID doc) segIdx in
  match seen !! key with
  | Some _ => st
  | None =>
      let n := (len sources + 1)%Z in
      ((sources ++ [{| N := n; src_NoteID := NoteID doc; src_Generation := TranscriptGeneration doc;
                      SegmentIndex := segIdx; Timestamp := StartMS seg; Snippet := Text seg |}])%list,
       <[key := n]> seen)
  end.

(** [for segIdx, seg := range doc.Segments] *)
Fixpoint add_segments (doc : Document) (segIdx : nat) (segs : list Segment) (st : prepare_state) : prepare_state :=
  match segs with
  | [] => st
  | seg :: rest => add_segments doc (S segIdx) rest (add_segment doc st segIdx seg)
  end.

Fixpoint add_documents (docs : list Document) (st : prepare_state) : prepare_state :=
  match docs with
  | [] => st
  | doc :: rest => add_documents rest (add_segments doc 0 (Segments doc) st)
  end.

Definition generations_of (docs : list Document) : gmap string Z :=
  fold_left (fun m doc => <[NoteID doc := TranscriptGeneration doc]> m) docs ∅.

Definition PrepareDocuments (input : ExecutionInput) : result execution_error PreparedExecution :=
  match Documents input with
  | [] => Err ErrEmptyDocuments
  | first :: _ =>
      if (length (Sections input) =? 0)%nat then Err ErrEmptyTemplate
      else if bool_decide (input_Mode input = ModeSingleNoteSummary) && negb (length (Documents input) =? 1)%nat
      then Err ErrSingleNoteModeRequiresOneDocument
      else
        let '(sources, _) := add_documents (Documents input) ([], ∅) in
        let '(corpus, sectionPrompts) :=
          match input_Mode input with
          | ModeSingleNoteSummary => (NotesMarkdown first, [])
          | ModeCrossAnalysis =>
              let corpus := buildCorpus input sources in
              (corpus, map (fun sec => {| p_Heading := Heading sec; Prompt := buildSectionPrompt corpus sec |})
                         (Sections input))
          end in
        Ok {| Input := input; Corpus := corpus; SectionPrompts := sectionPrompts; Sources := sources;
              Generations := generations_of (Documents input) |}
  end.

(** ** Admission ([admission.go]) *)

Record AdmissionConfig := {
  ContextTokens : Z; OutputReserveTokens : Z; ProviderFramingTokens : Z; ByteFallbackTokenizer : bool }.

(** [int] subtraction wraps. *)
Definition effective_ceiling (cfg : AdmissionConfig) : Z :=
  wrap64 (wrap64 (ContextTokens cfg - OutputReserveTokens cfg) - ProviderFramingTokens cfg).

Definition Admit (prepared : PreparedExecution) (cfg : AdmissionConfig) : result execution_error unit :=
  if (ContextTokens cfg <=? 0)%Z then Err ErrInvalidAdmissionConfig
  else if (OutputReserveTokens cfg <? 0)%Z || (ProviderFramingTokens cfg <? 0)%Z then Err ErrInvalidAdmissionConfig
  else if negb (ByteFallbackTokenizer cfg) then Err ErrInvalidAdmissionConfig
  else
    let effective := effective_ceiling cfg in
    if (effective <=? 0)%Z then Err ErrInvalidAdmissionConfig
    else if existsb (fun sp => (effective <? slen (Prompt sp))%Z) (SectionPrompts prepared) then Err ErrContextBudget
    else Ok tt.

Record admissionConfigJSON := {
  j_ContextTokens : option Z; j_OutputReserveTokens : option Z; j_ProviderFramingTokens : option Z;
  j_ByteFallbackTokenizer : option bool }.

Section Parse.
(** [json.Unmarshal] into [admissionConfigJSON]; [None] is malformed JSON. *)
Variable unmarshal : string -> option admissionConfigJSON.

Definition ParseAdmissionConfig (raw : string) : result execution_error AdmissionConfig :=
  if (slen raw =? 0)%Z then Err ErrInvalidAdmissionConfig
  else
    match unmarshal raw with
    | Some {| j_ContextTokens := Some c; j_OutputReserveTokens := Some o; j_ProviderFramingTokens := Some f;
              j_ByteFallbackTokenizer := Some b |} =>
        let cfg := {| ContextTokens := c; OutputReserveTokens := o; ProviderFramingTokens := f;
                      ByteFallbackTokenizer := b |} in
        if (c <=? 0)%Z || (o <? 0)%Z || (f <? 0)%Z || negb b then Err ErrInvalidAdmissionConfig
        else if (effective_ceiling cfg <=? 0)%Z then Err ErrInvalidAdmissionConfig
        else Ok cfg
    | _ => Err ErrInvalidAdmissionConfig
    end.
End Parse.

(** ** [Run] *)

Record GenerateUsage := { u_TokensUsed : Z; MaxTokens : Z }.

Record GenerateRequest := {
  Transcript : list Segment; req_NotesMarkdown : string; req_Sections : list TemplateSection;
  req_Config : string; req_SystemPrompt : string; req_Model : string; req_Temperature : option spec_float;
  req_Documents : list Document }.

Record GenerateResponse := {
  resp_Sections : list SummarySection; resp_Model : string; resp_Usage : option GenerateUsage }.

Record Result := {
  res_Sections : list SummarySection; res_Sources : list SourceRef; res_Model : string;
  TokensUsed : option Z; Usage : option GenerateUsage }.

(** The loop of [validateSections], with the headings seen so far. *)
Fixpoint check_sections (want : list TemplateSection) (got : list SummarySection) (seen : gset string)
  : result execution_error unit :=
  match want, got with
  | w :: want', sec :: got' =>
      if negb (s_Heading sec =? Heading w)%string then Err ErrSectionMismatch
      else if bool_decide (s_Heading sec ∈ seen) then Err ErrSectionMismatch
      else if (TrimSpace (ContentMarkdown sec) =? "")%string then Err ErrEmptyOutput
      else check_sections want' got' ({[ s_Heading sec ]} ∪ seen)
  | _, _ => Ok tt
  end.

Definition validateSections (want : list TemplateSection) (got : list SummarySection)
  : result execution_error (list SummarySection) :=
  if negb (length got =? length want)%nat then Err ErrSectionMismatch
  else match check_sections want got ∅ with
       | Err e => Err e
       | Ok _ => Ok got
       end.

(** The wire request of a prepared run. *)
Definition request_of (prepared : PreparedExecution) : GenerateRequest :=
  let input := Input prepared in
  let single := bool_decide (input_Mode input = ModeSingleNoteSummary) in
  {| Transcript := if single then match Documents input with doc :: _ => Segments doc | [] => [] end else [];
     req_NotesMarkdown := Corpus prepared; req_Sections := Sections input; req_Config := Config input;
     req_SystemPrompt := SystemPrompt input; req_Model := Model input; req_Temperature := Temperature input;
     req_Documents := if single then [] else Documents input |}.

Definition Run (Generate : GenerateRequest -> result string GenerateResponse) (prepared : PreparedExecution)
  : result execution_error Result :=
  match Generate (request_of prepared) with
  | Err e => Err (GenerateError e)
  | Ok resp =>
      match (if bool_decide (input_Mode (Input prepared) = ModeSingleNoteSummary) then Ok (resp_Sections resp)
             else validateSections (Sections (Input prepared)) (resp_Sections resp)) with
      | Err e => Err e
      | Ok sections =>
          Ok {| res_Sections := sections; res_Sources := Sources prepared; res_Model := resp_Model resp;
                TokensUsed := u_TokensUsed <$> resp_Usage resp; Usage := resp_Usage resp |}
      end
  end.
