(* ===== verification/ExecutionProps.v ===== *)
(** Correctness of template execution: the theorems about [Execution]. *)

From stdpp Require Import base list strings sets gmap.
From Stdlib Require Import Ascii ZArith Lia DecimalString DecimalPos DecimalZ.
From S2P Require Import GoInt GoStrings Execution.

Local Open Scope string_scope.

(** ** Citation keys *)

Fixpoint no_byte (c : ascii) (s : string) : bool :=
  match s with
  | EmptyString => true
  | String a s' => negb (Ascii.eqb a c) && no_byte c s'
  end.

Lemma no_byte_not_app c u v : no_byte c (u ++ String c v) = false.
Proof. induction u as [|a u IH]; cbn; [by rewrite Ascii.eqb_refl|]. by rewrite IH, andb_false_r. Qed.

(** The last separator splits a string in one way. *)
Lemma split_unique c x y u v :
  no_byte c u = true -> no_byte c v = true -> x ++ String c u = y ++ String c v -> x = y /\ u = v.
Proof.
  revert y. induction x as [|a x IH]; intros [|b y] Hu Hv; cbn; intros E; inversion E; subst; try done.
  - by rewrite no_byte_not_app in Hu.
  - by rewrite no_byte_not_app in Hv.
  - by destruct (IH y Hu Hv) as [-> ->].
Qed.

Lemma uint_no_nul d : no_byte (byte_of 0) (NilEmpty.string_of_uint d) = true.
Proof. induction d; cbn; done. Qed.

Lemma Itoa_no_nul n : no_byte (byte_of 0) (Itoa (Z.of_nat n)) = true.
Proof.
  unfold Itoa. destruct (Z.to_int (Z.of_nat n)) as [d|d] eqn:E; cbn.
  - destruct d; try apply uint_no_nul; done.
  - destruct n; cbn in E; discriminate.
Qed.

Lemma to_int_not_nil z : Z.to_int z <> Decimal.Pos Decimal.Nil /\ Z.to_int z <> Decimal.Neg Decimal.Nil.
Proof.
  destruct z as [|p|p]; cbn; [done| |]; split; try done; intros [= E];
    by apply (DecimalPos.Unsigned.to_uint_nonnil p).
Qed.

Lemma Itoa_inj a b : Itoa a = Itoa b -> a = b.
Proof.
  intros E. apply (f_equal NilZero.int_of_string) in E. unfold Itoa in E.
  destruct (to_int_not_nil a), (to_int_not_nil b). rewrite !NilZero.isi in E by done. injection E as E.
  apply (f_equal Z.of_int) in E. by rewrite !DecimalZ.of_to in E.
Qed.

Lemma source_key_inj a i b j : source_key a i = source_key b j -> a = b /\ i = j.
Proof.
  intros E. apply split_unique in E as [-> E]; [|apply Itoa_no_nul..]. apply Itoa_inj in E. split; [done|lia].
Qed.

(** ** The numbering loop *)

Definition key_of (s : SourceRef) : string := source_key (src_NoteID s) (SegmentIndex s).

(** What a source cites among the documents. *)
Definition cites (docs : list Document) (s : SourceRef) : Prop :=
  exists doc seg, doc ∈ docs /\ NoteID doc = src_NoteID s /\ TranscriptGeneration doc = src_Generation s /\
    Segments doc !! SegmentIndex s = Some seg /\ StartMS seg = Timestamp s /\ Text seg = Snippet s.

Definition prepare_inv (docs : list Document) (st : prepare_state) : Prop :=
  (forall i s, st.1 !! i = Some s -> N s = (Z.of_nat i + 1)%Z) /\
  (forall k, is_Some (st.2 !! k) <-> k ∈ map key_of st.1) /\
  NoDup (map key_of st.1) /\
  Forall (cites docs) st.1.

Lemma add_segment_inv docs doc st idx seg :
  doc ∈ docs -> Segments doc !! idx = Some seg -> prepare_inv docs st ->
  prepare_inv docs (add_segment doc st idx seg) /\ source_key (NoteID doc) idx ∈ map key_of (add_segment doc st idx seg).1 /\
  (forall k, k ∈ map key_of st.1 -> k ∈ map key_of (add_segment doc st idx seg).1).
Proof.
  destruct st as [sources seen]. intros Hdoc Hseg (H1 & H2 & H3 & H4). cbn [fst snd] in *. unfold add_segment.
  destruct (seen !! source_key (NoteID doc) idx) as [n|] eqn:E.
  { split_and!; try done. apply H2. eauto. }
  assert (Hnew : source_key (NoteID doc) idx ∉ map key_of sources).
  { intros H. apply H2 in H as [? H]. by rewrite E in H. }
  cbn [fst]. rewrite !map_app. split_and!.
  - split_and!; cbn [fst snd].
    + intros i s [Hs|[Hge Hs]]%lookup_app_Some; [by apply H1|].
      apply list_lookup_singleton_Some in Hs as [Hi <-]. cbn. unfold len. lia.
    + intros k. rewrite map_app, elem_of_app. cbn. rewrite list_elem_of_singleton.
      rewrite lookup_insert_is_Some, H2. unfold key_of at 2. cbn. destruct (decide (source_key (NoteID doc) idx = k)); naive_solver.
    + rewrite map_app. apply NoDup_app. split_and!; [done| |apply NoDup_singleton].
      intros k Hk ->%list_elem_of_singleton. done.
    + apply Forall_app. split; [done|]. constructor; [|constructor]. exists doc, seg. done.
  - apply elem_of_app. right. left.
  - intros k Hk. apply elem_of_app. by left.
Qed.

Lemma add_segments_inv docs doc segs st idx :
  doc ∈ docs -> (forall j seg, segs !! j = Some seg -> Segments doc !! (idx + j)%nat = Some seg) ->
  prepare_inv docs st ->
  prepare_inv docs (add_segments doc idx segs st) /\
  (forall j, (j < length segs)%nat -> source_key (NoteID doc) (idx + j) ∈ map key_of (add_segments doc idx segs st).1) /\
  (forall k, k ∈ map key_of st.1 -> k ∈ map key_of (add_segments doc idx segs st).1).
Proof.
  intros Hdoc. revert idx st. induction segs as [|seg segs IH]; intros idx st Hsegs Hinv; cbn [add_segments].
  { split_and!; [done| |done]. cbn. lia. }
  destruct (add_segment_inv docs doc st idx seg Hdoc) as (Hinv1 & Hin1 & Hmono1); [|done|].
  { rewrite <- (Nat.add_0_r idx). by apply Hsegs. }
  destruct (IH (S idx) (add_segment doc st idx seg)) as (Hinv2 & Hin2 & Hmono2); [|done|].
  { intros j s Hj. rewrite Nat.add_succ_comm. by apply Hsegs. }
  split_and!; [done| |auto]. intros [|j] Hj; [rewrite Nat.add_0_r; auto|].
  rewrite <- Nat.add_succ_comm. apply Hin2. cbn in Hj. lia.
Qed.

Lemma add_documents_inv all docs st :
  (forall doc, doc ∈ docs -> doc ∈ all) -> prepare_inv all st ->
  prepare_inv all (add_documents docs st) /\
  (forall doc idx, doc ∈ docs -> (idx < length (Segments doc))%nat ->
     source_key (NoteID doc) idx ∈ map key_of (add_documents docs st).1) /\
  (forall k, k ∈ map key_of st.1 -> k ∈ map key_of (add_documents docs st).1).
Proof.
  revert st. induction docs as [|doc docs IH]; intros st Hsub Hinv; cbn [add_documents].
  { split_and!; [done| |done]. by intros ? ? ?%elem_of_nil. }
  destruct (add_segments_inv all doc (Segments doc) st 0) as (Hinv1 & Hin1 & Hmono1); [apply Hsub; left|done|done|].
  destruct (IH (add_segments doc 0 (Segments doc) st)) as (Hinv2 & Hin2 & Hmono2); [|done|].
  { intros d Hd. apply Hsub. by right. }
  split_and!; [done| |auto]. intros d idx [->|Hd]%elem_of_cons Hidx; [|by apply Hin2]. apply Hmono2. by apply (Hin1 idx).
Qed.

Lemma prepare_inv_nil docs : prepare_inv docs ([], ∅).
Proof.
  split_and!; cbn; [done| |constructor|constructor]. intros k. rewrite lookup_empty, elem_of_nil. by split; [intros []|].
Qed.

(** What a successful preparation holds. *)
Lemma PrepareDocuments_ok input p :
  PrepareDocuments input = Ok p ->
  Input p = input /\ Documents input <> [] /\ Sections input <> [] /\
  prepare_inv (Documents input) (Sources p, snd (add_documents (Documents input) ([], ∅))) /\
  (forall doc idx, doc ∈ Documents input -> (idx < length (Segments doc))%nat ->
     source_key (NoteID doc) idx ∈ map key_of (Sources p)) /\
  match input_Mode input with
  | ModeSingleNoteSummary => exists doc, Documents input = [doc] /\ Corpus p = NotesMarkdown doc /\ SectionPrompts p = []
  | ModeCrossAnalysis => Corpus p = buildCorpus input (Sources p) /\
      SectionPrompts p = map (fun sec => {| p_Heading := Heading sec; Prompt := buildSectionPrompt (Corpus p) sec |}) (Sections input)
  end.
Proof.
  unfold PrepareDocuments. destruct (Documents input) as [|doc docs] eqn:Ed; [done|].
  destruct (_ =? 0)%nat eqn:Es; [done|]. apply Nat.eqb_neq in Es. destruct (_ && _) eqn:Em; [done|]. rewrite <- Ed.
  destruct (add_documents_inv (Documents input) (Documents input) ([], ∅)) as (Hinv & Hin & _); [done|apply prepare_inv_nil|].
  destruct (add_documents (Documents input) ([], ∅)) as [sources seen]. cbn [fst snd] in *.
  assert (Hd : Documents input <> []) by congruence. assert (Hs : Sections input <> []) by (intros E; by rewrite E in Es).
  destruct (input_Mode input) eqn:E; intros [= <-]; cbn; split_and!; try done.
  exists doc. split_and!; [|done..]. destruct docs; [done|]. by vm_compute in Em.
Qed.

(** Citations are stable and resolvable: a prepared run numbers its sources
    [1, 2, ...] in order; each names one document's segment with that
    segment's time, text and generation; no segment of a note is numbered
    twice; and every segment of every document has a number. *)
Theorem sources_numbered input p :
  PrepareDocuments input = Ok p ->
  (forall i s, Sources p !! i = Some s -> N s = (Z.of_nat i + 1)%Z) /\
  Forall (cites (Documents input)) (Sources p) /\
  NoDup (map (fun s => (src_NoteID s, SegmentIndex s)) (Sources p)) /\
  (forall doc idx seg, doc ∈ Documents input -> Segments doc !! idx = Some seg ->
     exists s, s ∈ Sources p /\ src_NoteID s = NoteID doc /\ SegmentIndex s = idx).
Proof.
  intros (_ & _ & _ & (H1 & _ & H3 & H4) & Hall & _)%PrepareDocuments_ok. cbn [fst] in *. split_and!; [done..| |].
  - apply (NoDup_fmap_1 (fun ni => source_key ni.1 ni.2)).
    enough ((fun ni => source_key ni.1 ni.2) <$> map (fun s => (src_NoteID s, SegmentIndex s)) (Sources p)
      = map key_of (Sources p)) as -> by done.
    change (map (fun ni => source_key ni.1 ni.2) (map (fun s => (src_NoteID s, SegmentIndex s)) (Sources p))
      = map key_of (Sources p)). by rewrite map_map.
  - intros doc idx seg Hdoc Hseg. specialize (Hall doc idx Hdoc (lookup_lt_Some _ _ _ Hseg)).
    apply list_elem_of_fmap in Hall as (s & E & Hs). apply source_key_inj in E as [-> ->]. eauto.
Qed.

(** ** The corpus *)

Lemma fold_insert_other (m : gmap string Z) (l : list SourceRef) k :
  k ∉ map key_of l -> fold_left (fun m s => <[key_of s := N s]> m) l m !! k = m !! k.
Proof.
  revert m. induction l as [|s l IH]; intros m; cbn; [done|]. intros [Hne Hk]%not_elem_of_cons.
  by rewrite IH, lookup_insert_ne by congruence.
Qed.

Lemma number_of_source l s : NoDup (map key_of l) -> s ∈ l -> number_of l !! key_of s = Some (N s).
Proof.
  unfold number_of. generalize (∅ : gmap string Z). induction l as [|x l IH]; intros m Hnd Hs; [by apply elem_of_nil in Hs|].
  cbn in *. apply NoDup_cons in Hnd as [Hx Hnd]. apply elem_of_cons in Hs as [->|Hs]; [|by apply IH].
  change (source_key (src_NoteID x) (SegmentIndex x)) with (key_of x).
  etrans; [by apply (fold_insert_other _ l)|]. apply lookup_insert_eq.
Qed.

Lemma concat_strings_elem l x : x ∈ l -> exists a b, concat_strings l = a ++ x ++ b.
Proof.
  induction l as [|y l IH]; [by intros ?%elem_of_nil|]. intros [->|Hx]%elem_of_cons;
    cbn [concat_strings foldr]; fold (concat_strings l).
  - by exists "", (concat_strings l).
  - destruct (IH Hx) as (a & b & ->). exists (y ++ a), b. by rewrite !str_app_assoc.
Qed.

Definition substring (x s : string) : Prop := exists a b, s = a ++ x ++ b.

Lemma substring_app_r x s u : substring x s -> substring x (u ++ s).
Proof. intros (a & b & ->). exists (u ++ a), b. by rewrite !str_app_assoc. Qed.

Lemma substring_app_l x s u : substring x s -> substring x (s ++ u).
Proof. intros (a & b & ->). exists a, (b ++ u). by rewrite !str_app_assoc. Qed.

Lemma substring_trans x y z : substring x y -> substring y z -> substring x z.
Proof. intros Hx (a & b & ->). by apply substring_app_r, substring_app_l. Qed.

Lemma substring_concat x l : x ∈ l -> substring x (concat_strings l).
Proof. apply concat_strings_elem. Qed.

Lemma segment_in_block m i doc idx seg :
  Segments doc !! idx = Some seg -> substring (segment_line m (NoteID doc) idx seg) (document_block m i doc).
Proof.
  intros Hseg.
  assert (Hin : segment_line m (NoteID doc) idx seg ∈ imap (segment_line m (NoteID doc)) (Segments doc)).
  { apply elem_of_lookup_imap. eauto. }
  unfold document_block. do 11 apply substring_app_r. by apply substring_concat.
Qed.

Lemma block_in_corpus input sources i doc :
  Documents input !! i = Some doc -> substring (document_block (number_of sources) i doc) (buildCorpus input sources).
Proof.
  intros Hd.
  assert (Hin : document_block (number_of sources) i doc ∈ imap (document_block (number_of sources)) (Documents input)).
  { apply elem_of_lookup_imap. eauto. }
  unfold buildCorpus. do 5 apply substring_app_r. apply substring_app_l. by apply substring_concat.
Qed.

(** In a cross-meeting corpus every segment of every document appears on
    its own line after the number of the source that cites exactly this
    segment, with its speaker when it has one. *)
Theorem corpus_cites_segments input p doc idx seg :
  PrepareDocuments input = Ok p -> input_Mode input = ModeCrossAnalysis ->
  doc ∈ Documents input -> Segments doc !! idx = Some seg ->
  exists s, s ∈ Sources p /\ src_NoteID s = NoteID doc /\ SegmentIndex s = idx /\
    substring ("[" ++ Itoa (N s) ++ "] " ++
               (if (Speaker seg =? "")%string then "" else Speaker seg ++ ": ") ++ Text seg ++ newline) (Corpus p).
Proof.
  intros (_ & _ & _ & (_ & _ & H3 & _) & Hall & Hm)%PrepareDocuments_ok Hmode Hdoc Hseg. cbn [fst] in *.
  rewrite Hmode in Hm. destruct Hm as [-> _].
  specialize (Hall doc idx Hdoc (lookup_lt_Some _ _ _ Hseg)). apply list_elem_of_fmap in Hall as (s & E & Hs).
  assert (E' := E). apply source_key_inj in E' as [En Ei]. exists s. split_and!; [done..|].
  apply list_elem_of_lookup in Hdoc as [i Hi].
  eapply substring_trans; [|by eapply block_in_corpus]. 
  replace (_ ++ _) with (segment_line (number_of (Sources p)) (NoteID doc) idx seg); [by apply segment_in_block|].
  unfold segment_line. rewrite E, (number_of_source _ s H3 Hs). cbn [default].
  destruct (Speaker seg =? "")%string; cbn [negb]; [done|]. by rewrite !str_app_assoc.
Qed.

(** ** Admission *)

(** Admission is exact on reserves that fit an [int]: a run is admitted if
    and only if the tokenizer capability is declared, the reserves are not
    negative and leave room, and every complete section prompt together with
    both reserves fits the context, one token per byte; and a parsed config is
    never rejected as invalid. *)
Theorem Admit_exact p cfg :
  in_int64 (ContextTokens cfg) ->
  (OutputReserveTokens cfg + ProviderFramingTokens cfg <= int64_max)%Z ->
  (Admit p cfg = Ok tt <->
   (ByteFallbackTokenizer cfg = true /\ 0 <= OutputReserveTokens cfg /\ 0 <= ProviderFramingTokens cfg /\
    OutputReserveTokens cfg + ProviderFramingTokens cfg < ContextTokens cfg /\
    forall sp, sp ∈ SectionPrompts p ->
      slen (Prompt sp) + OutputReserveTokens cfg + ProviderFramingTokens cfg <= ContextTokens cfg)%Z) /\
  (forall unmarshal raw, ParseAdmissionConfig unmarshal raw = Ok cfg -> Admit p cfg <> Err ErrInvalidAdmissionConfig).
Proof.
  intros Hc Hr. split.
  - unfold Admit. destruct (Z.leb_spec (ContextTokens cfg) 0); [split; [done|lia]|].
    destruct (Z.ltb_spec (OutputReserveTokens cfg) 0); [split; [done|lia]|].
    destruct (Z.ltb_spec (ProviderFramingTokens cfg) 0); [split; [done|lia]|].
    destruct (ByteFallbackTokenizer cfg); cbn; [|split; [done|intros [? _]; done]].
    assert (E : effective_ceiling cfg = (ContextTokens cfg - OutputReserveTokens cfg - ProviderFramingTokens cfg)%Z).
    { unfold effective_ceiling. unfold in_int64, int64_min, int64_max in *. rewrite !wrap64_id; [done| |];
        unfold in_int64, int64_min, int64_max; rewrite ?wrap64_id; unfold in_int64, int64_min, int64_max; lia. }
    rewrite E. destruct (Z.leb_spec (ContextTokens cfg - OutputReserveTokens cfg - ProviderFramingTokens cfg) 0);
      [split; [done|lia]|]. destruct (existsb _ _) eqn:Ee.
    + split; [done|]. intros (_ & _ & _ & _ & Hall). apply existsb_exists in Ee as (sp & Hsp & Hlt).
      apply Z.ltb_lt in Hlt. apply list_elem_of_In in Hsp. specialize (Hall sp Hsp). lia.
    + split; [|done]. intros _. split_and!; [done|lia..|]. intros sp Hsp. apply not_true_iff_false in Ee.
      apply Z.nlt_ge. intros Hlt. apply Ee, existsb_exists. exists sp. split; [by apply list_elem_of_In|].
      apply Z.ltb_lt. lia.
  - intros unmarshal raw Hp. unfold ParseAdmissionConfig in Hp. destruct (_ =? 0)%Z; [done|].
    destruct (unmarshal raw) as [[[c|] [o|] [f|] [b|]]|]; try done.
    destruct (_ || _) eqn:Eb; [done|].
    apply orb_false_iff in Eb as [[[Ec Eo]%orb_false_iff Ef]%orb_false_iff Eb].
    destruct (_ <=? 0)%Z eqn:Ee in Hp; [done|]. injection Hp as <-. unfold Admit. cbn [ContextTokens
      OutputReserveTokens ProviderFramingTokens ByteFallbackTokenizer].
    rewrite Ec, Eo, Ef, Eb. cbn [orb]. rewrite Ee. by destruct (existsb _ _).
Qed.

(** Without that bound the subtraction wraps: reserves of [2^63-1] each pass
    as two extra tokens. *)
Lemma reserves_wrap :
  let cfg := {| ContextTokens := 5000; OutputReserveTokens := int64_max; ProviderFramingTokens := int64_max;
                ByteFallbackTokenizer := true |} in
  effective_ceiling cfg = 5002%Z /\ forall p, SectionPrompts p = [] -> Admit p cfg = Ok tt.
Proof. split; [by vm_compute|]. intros p Hp. unfold Admit. rewrite Hp. by vm_compute. Qed.

(** ** Running *)

Lemma check_sections_ok want got seen :
  length got = length want ->
  check_sections want got seen = Ok tt <->
  map s_Heading got = map Heading want /\ NoDup (map s_Heading got) /\
  (forall h, h ∈ map s_Heading got -> h ∉ seen) /\ Forall (fun s => TrimSpace (ContentMarkdown s) <> "") got.
Proof.
  revert got seen. induction want as [|w want IH]; intros [|sec got] seen Hlen; try done; cbn.
  { split; [intros _; split_and!; try done; [constructor|by intros ? ?%elem_of_nil]|done]. }
  destruct (String.eqb_spec (s_Heading sec) (Heading w)) as [Eh|Hne]; cbn; [|split; [done|]; intros ([= ] & _); done].
  destruct (decide (s_Heading sec ∈ seen)) as [Hin|Hnin].
  { rewrite bool_decide_eq_true_2 by done. split; [done|]. intros (_ & _ & H & _). exfalso. apply (H (s_Heading sec)); [left|done]. }
  rewrite bool_decide_eq_false_2 by done.
  destruct (String.eqb_spec (TrimSpace (ContentMarkdown sec)) "") as [Ec|Hnc].
  { split; [done|]. intros (_ & _ & _ & H). by apply Forall_cons in H as [? _]. }
  rewrite IH by (cbn in Hlen; lia). rewrite NoDup_cons, Forall_cons, Eh. split.
  - intros (-> & Hnd & Hseen & Hf). split_and!; try done.
    + intros Hin. apply (Hseen _ Hin). set_solver.
    + intros h [->|Hh]%elem_of_cons; [by rewrite <- Eh|]. specialize (Hseen h Hh). set_solver.
  - intros ([= ->] & [Hn Hnd] & Hseen & _ & Hf). split_and!; try done.
    intros h Hh. rewrite not_elem_of_union, not_elem_of_singleton. split; [|apply Hseen; by right].
    intros ->. by apply Hn.
Qed.

(** A cross-meeting run succeeds exactly when the plugin's one reply has
    the template's headings in the template's order, all different, and no
    blank section; the result is then that reply with the prepared sources.
    So a template with a repeated heading can never be run to success. *)
Theorem Run_cross_validates Generate p resp :
  input_Mode (Input p) = ModeCrossAnalysis -> Generate (request_of p) = Ok resp ->
  (forall r, Run Generate p = Ok r <->
     r = {| res_Sections := resp_Sections resp; res_Sources := Sources p; res_Model := resp_Model resp;
            TokensUsed := u_TokensUsed <$> resp_Usage resp; Usage := resp_Usage resp |} /\
     map s_Heading (resp_Sections resp) = map Heading (Sections (Input p)) /\
     NoDup (map Heading (Sections (Input p))) /\
     Forall (fun s => TrimSpace (ContentMarkdown s) <> "") (resp_Sections resp)) /\
  (forall e, Run Generate p = Err e -> e = ErrSectionMismatch \/ e = ErrEmptyOutput).
Proof.
  intros Hm Hg. unfold Run. rewrite Hg, bool_decide_eq_false_2 by (by rewrite Hm). unfold validateSections.
  destruct (Nat.eqb_spec (length (resp_Sections resp)) (length (Sections (Input p)))) as [El|Hl]; cbn [negb].
  2: { split; [|naive_solver]. intros r. split; [done|]. intros (_ & E & _). apply (f_equal length) in E.
       rewrite !length_map in E. congruence. }
  pose proof (check_sections_ok (Sections (Input p)) (resp_Sections resp) ∅ El) as Hok.
  destruct (check_sections _ _ _) as [[]|e] eqn:Ec.
  - split; [|done]. intros r. destruct (proj1 Hok eq_refl) as (Eh & Hnd & _ & Hf). rewrite Eh in Hnd. naive_solver.
  - split.
    + intros r. split; [done|]. intros (_ & Eh & Hnd & Hf). exfalso.
      enough (Err e = @Ok execution_error unit tt) by done. apply Hok. rewrite Eh. split_and!; [done..| |done].
      intros h _. apply not_elem_of_empty.
    + intros e' [= <-]. clear Hok Hg El. revert Ec. generalize (∅ : gset string).
      generalize (resp_Sections resp). induction (Sections (Input p)) as [|w want IH]; intros [|sec got] seen; cbn; try done.
      repeat (case_match; [naive_solver|]). apply IH.
Qed.

(** The two modes keep their wire formats apart: a prepared single-note run
    sends its only document's segments and notes verbatim and no documents, a
    cross-meeting run sends all documents in order and no transcript; a
    single-note run returns the plugin's sections as they are. *)
Theorem modes_keep_wire_formats input p Generate resp :
  PrepareDocuments input = Ok p ->
  req_Sections (request_of p) = Sections input /\
  match input_Mode input with
  | ModeCrossAnalysis => req_Documents (request_of p) = Documents input /\ Transcript (request_of p) = []
  | ModeSingleNoteSummary => exists doc, Documents input = [doc] /\
      req_Documents (request_of p) = [] /\ Transcript (request_of p) = Segments doc /\
      req_NotesMarkdown (request_of p) = NotesMarkdown doc /\
      (Generate (request_of p) = Ok resp ->
         exists r, Run Generate p = Ok r /\ res_Sections r = resp_Sections resp)
  end.
Proof.
  intros (Hi & _ & _ & _ & _ & Hm)%PrepareDocuments_ok. split; [unfold request_of; by rewrite Hi|].
  destruct (input_Mode input) eqn:Em.
  - unfold request_of. by rewrite Hi, Em.
  - destruct Hm as (doc & Hd & Hc & _). exists doc.
    split_and!; [done|by unfold request_of; rewrite Hi, Em|by unfold request_of; rewrite Hi, Em, Hd|done|].
    intros Hg. unfold Run. rewrite Hg, Hi, Em. cbn. eauto.
Qed.

(** ** Concrete runs *)

Module RunDemo.
Definition seg (t : Z) (who text : string) : Segment := {|
  seg_ID := ""; StartMS := t; EndMS := t + 10; Text := text; seg_Source := "mic"; Speaker := who; Words := [];
  Confidence := None; Boundary := ""; Provisional := false |}.
Definition doc1 : Document := {|
  NoteID := "n1"; Title := "Standup"; OccurredAt := ""; TranscriptGeneration := 3;
  Segments := [seg 0 "Ann" "hello"; seg 10 "" "bye"]; NotesMarkdown := "notes" |}.
Definition doc2 : Document := {|
  NoteID := "n2"; Title := "Review"; OccurredAt := "2026-01-01T00:00:00Z"; TranscriptGeneration := 1;
  Segments := [seg 5 "Bob" "ok"]; NotesMarkdown := "" |}.
Definition input (m : Mode) (docs : list Document) : ExecutionInput := {|
  Sections := [{| Heading := "Summary"; Instruction := "Be brief" |}]; input_Mode := m; Documents := docs;
  RunInstruction := " risks "; Config := "{}"; SystemPrompt := ""; Model := ""; Temperature := None |}.
Definition cross : ExecutionInput := input ModeCrossAnalysis [doc1; doc2].
Definition single : ExecutionInput := input ModeSingleNoteSummary [doc1].
Definition reply : GenerateResponse := {|
  resp_Sections := [{| s_Heading := "Summary"; ContentMarkdown := "all [1]"; Refs := [] |}];
  resp_Model := "m"; resp_Usage := None |}.
Definition agent : GenerateRequest -> result string GenerateResponse := fun _ => Ok reply.
Definition cfg : AdmissionConfig := {|
  ContextTokens := 8192; OutputReserveTokens := 1024; ProviderFramingTokens := 64; ByteFallbackTokenizer := true |}.
Definition prepared : PreparedExecution :=
  match PrepareDocuments cross with Ok p => p | Err _ => {| Input := cross; Corpus := ""; SectionPrompts := [];
    Sources := []; Generations := ∅ |} end.
Lemma prepared_ok : PrepareDocuments cross = Ok prepared.
Proof. reflexivity. Qed.
End RunDemo.
Import RunDemo.

Lemma sources_numbered_witness :
  length (Sources prepared) = 3%nat /\
  (forall i s, Sources prepared !! i = Some s -> N s = (Z.of_nat i + 1)%Z).
Proof. split; [reflexivity|]. exact (proj1 (sources_numbered cross prepared prepared_ok)). Defined.

Lemma corpus_cites_segments_witness :
  exists s, s ∈ Sources prepared /\ src_NoteID s = "n1" /\ SegmentIndex s = 1%nat /\
    substring ("[" ++ Itoa (N s) ++ "] " ++ "" ++ "bye" ++ newline) (Corpus prepared).
Proof.
  apply (corpus_cites_segments cross prepared doc1 1 (seg 10 "" "bye") prepared_ok eq_refl); [left|reflexivity].
Defined.

Lemma Admit_exact_witness : Admit prepared cfg = Ok tt /\
  (forall sp, sp ∈ SectionPrompts prepared -> (slen (Prompt sp) + 1024 + 64 <= 8192)%Z).
Proof.
  assert (H : Admit prepared cfg = Ok tt) by (vm_compute; reflexivity). split; [exact H|].
  apply (Admit_exact prepared cfg) in H; [by destruct H as (_ & _ & _ & _ & H)| |];
    unfold in_int64, int64_min, int64_max; cbn; lia.
Defined.

Lemma Run_cross_validates_witness : exists r, Run agent prepared = Ok r /\ res_Sections r = resp_Sections reply.
Proof.
  eexists. split; [apply (Run_cross_validates agent prepared reply eq_refl eq_refl); split; [reflexivity|]|reflexivity].
  split; [reflexivity|]. split.
  - apply (bool_decide_unpack _). by vm_compute.
  - constructor; [|constructor]. vm_compute. discriminate.
Defined.

Lemma modes_keep_wire_formats_witness :
  match PrepareDocuments single with
  | Ok p => exists r, Run agent p = Ok r /\ res_Sections r = resp_Sections reply
  | Err _ => False
  end.
Proof.
  destruct (PrepareDocuments single) as [p|e] eqn:E; [|discriminate].
  destruct (modes_keep_wire_formats single p agent reply E) as [_ H]. cbn in H.
  destruct H as (doc & _ & _ & _ & _ & H). exact (H eq_refl).
Defined.
