(* ===== verification/Notes.v ===== *)
(** Notes and their tags: [internal/store/notes.go], [internal/store/tags.go].

    [note_row], [tag], ... are rows of the tables of those names, [Note] is the
    Go struct of [internal/model].  A handler that runs in one statement or
    transaction is one function on the tables; [now] is the database clock,
    [uuid] a fresh id.  The folder tables are those of Folders.v, which
    [folder_db] hands over.  [DeleteNote]'s end of the live stream works on
    other tables: its outcome is an argument, as is the outcome of
    [SetRetentionStateDiscardedIfCurrent]'s [deleteAudio]. *)

From stdpp Require Import base list strings sets gmap.
From Stdlib Require Import Ascii ZArith Lia.
From S2P Require Import GoInt GoStrings Sql Folders.

Local Open Scope string_scope.
Local Open Scope go_scope.

Definition NoteDraft : string := "draft".
Definition NoteRecording : string := "recording".
Definition NoteUploaded : string := "uploaded".
Definition NoteTranscribing : string := "transcribing".
Definition NoteSummarizing : string := "summarizing".
Definition NoteReady : string := "ready".
Definition NoteFailed : string := "failed".

Definition maxTagNameLen : Z := 64.

(** ** Tables *)

Record note_row := mkRow {
  row_id : string; row_owner : string; row_title : string; row_status : string; row_pinned : bool;
  row_started : option Z; row_ended : option Z; row_partial : bool; row_audio : option string;
  row_retention : string; row_created : Z; row_updated : Z; row_event : option string;
  row_deleted : option Z; row_job : option string;   (* [transcribing_job_id] *)
  row_audio_hash : option string; row_normalized_hash : option string }.

Record note_body := mkBody { nb_note : string; nb_content : string }.
Record tag := mkTag { tag_id : string; tag_owner : string; tag_name : string }.
Record note_tag := mkNT { nt_note : string; nt_tag : string }.
Record transcript := mkTranscript { tr_note : string; tr_generation : Z }.

(** [ev_emails] is [attendee->>'email'] of each attendee. *)
Record calendar_event := mkEvent { ev_id : string; ev_owner : string; ev_emails : list (option string) }.
Record person := mkPerson { pe_id : string; pe_owner : string; pe_email : string }.
Record speaker_alias := mkAlias { al_note : string; al_owner : string; al_person : option string }.

Record tables := mkTables {
  t_notes : list note_row; t_bodies : list note_body; t_tags : list tag; t_note_tags : list note_tag;
  t_transcripts : list transcript; t_events : list calendar_event; t_people : list person;
  t_aliases : list speaker_alias; t_folders : list folder; t_filings : list note_folder }.

Definition with_notes (x : list note_row) (d : tables) : tables :=
  mkTables x (t_bodies d) (t_tags d) (t_note_tags d) (t_transcripts d) (t_events d) (t_people d) (t_aliases d)
    (t_folders d) (t_filings d).
Definition with_bodies (x : list note_body) (d : tables) : tables :=
  mkTables (t_notes d) x (t_tags d) (t_note_tags d) (t_transcripts d) (t_events d) (t_people d) (t_aliases d)
    (t_folders d) (t_filings d).
Definition with_tags (x : list tag) (d : tables) : tables :=
  mkTables (t_notes d) (t_bodies d) x (t_note_tags d) (t_transcripts d) (t_events d) (t_people d) (t_aliases d)
    (t_folders d) (t_filings d).
Definition with_note_tags (x : list note_tag) (d : tables) : tables :=
  mkTables (t_notes d) (t_bodies d) (t_tags d) x (t_transcripts d) (t_events d) (t_people d) (t_aliases d)
    (t_folders d) (t_filings d).

(** What the folder queries read. *)
Definition folder_note (r : note_row) : note := mkNote (row_id r) (row_owner r) (row_created r) (row_deleted r).
Definition folder_db (d : tables) : db := mkDB (t_folders d) (map folder_note (t_notes d)) (t_filings d).
Definition with_folder_db (x : db) (d : tables) : tables :=
  mkTables (t_notes d) (t_bodies d) (t_tags d) (t_note_tags d) (t_transcripts d) (t_events d) (t_people d)
    (t_aliases d) (folders x) (note_folders x).

(** *** [SET] clauses *)

Definition set_status (x : string) (r : note_row) : note_row :=
  let 'mkRow i o t _ p s e pa a re c u ev d j h n := r in mkRow i o t x p s e pa a re c u ev d j h n.
Definition set_title (x : string) (r : note_row) : note_row :=
  let 'mkRow i o _ st p s e pa a re c u ev d j h n := r in mkRow i o x st p s e pa a re c u ev d j h n.
Definition set_pinned (x : bool) (r : note_row) : note_row :=
  let 'mkRow i o t st _ s e pa a re c u ev d j h n := r in mkRow i o t st x s e pa a re c u ev d j h n.
Definition set_partial (x : bool) (r : note_row) : note_row :=
  let 'mkRow i o t st p s e _ a re c u ev d j h n := r in mkRow i o t st p s e x a re c u ev d j h n.
Definition set_audio (x : string) (r : note_row) : note_row :=
  let 'mkRow i o t st p s e pa _ re c u ev d j h n := r in mkRow i o t st p s e pa (Some x) re c u ev d j h n.
Definition set_retention (x : string) (r : note_row) : note_row :=
  let 'mkRow i o t st p s e pa a _ c u ev d j h n := r in mkRow i o t st p s e pa a x c u ev d j h n.
Definition touch (now : Z) (r : note_row) : note_row :=
  let 'mkRow i o t st p s e pa a re c _ ev d j h n := r in mkRow i o t st p s e pa a re c now ev d j h n.
Definition set_event (x : option string) (r : note_row) : note_row :=
  let 'mkRow i o t st p s e pa a re c u _ d j h n := r in mkRow i o t st p s e pa a re c u x d j h n.
Definition set_trashed (x : option Z) (r : note_row) : note_row :=
  let 'mkRow i o t st p s e pa a re c u ev _ j h n := r in mkRow i o t st p s e pa a re c u ev x j h n.
Definition set_job (x : option string) (r : note_row) : note_row :=
  let 'mkRow i o t st p s e pa a re c u ev d _ h n := r in mkRow i o t st p s e pa a re c u ev d x h n.
(** [NULLIF(x, '')] *)
Definition nullif_empty (x : string) : option string := if (x =? "")%string then None else Some x.
Definition set_hashes (x y : string) (r : note_row) : note_row :=
  let 'mkRow i o t st p s e pa a re c u ev d j _ _ := r in
  mkRow i o t st p s e pa a re c u ev d j (Some x) (nullif_empty y).

Definition note_is (id : string) (r : note_row) : bool := (row_id r =? id)%string.
Definition owned (o : string) (r : note_row) : bool := (row_owner r =? o)%string.
Definition row_live (r : note_row) : bool := match row_deleted r with None => true | Some _ => false end.
Definition row_trashed (r : note_row) : bool := match row_deleted r with None => false | Some _ => true end.
Definition status_is (s : string) (r : note_row) : bool := (row_status r =? s)%string.

(** [UPDATE notes SET g WHERE p]; [e] when no row matched. *)
Definition update_notes (p : note_row -> bool) (g : note_row -> note_row) (e : store_error) (d : tables)
  : result store_error unit * tables :=
  if (rows_affected p (t_notes d) =? 0)%nat then (Err e, d)
  else (Ok tt, with_notes (update_where p g (t_notes d)) d).

(** ** [model.Note] *)

Record Note := {
  note_ID : string; note_OwnerID : string; note_Title : string; Status : string; Pinned : bool;
  StartedAt : option Z; EndedAt : option Z; AudioObjectKey : string; AudioHash : option string;
  NormalizedAudioHash : option string; RetentionState : string; note_CreatedAt : Z; UpdatedAt : Z;
  note_DeletedAt : option Z; note_Snippet : string; Tags : list string; FolderIDs : list string;
  PartialTranscript : bool; EventID : option string; note_IsOwner : option bool }.

(** The columns of [getNoteSelectQuery]. *)
Definition scan_note (r : note_row) : Note := {|
  note_ID := row_id r; note_OwnerID := row_owner r; note_Title := row_title r; Status := row_status r;
  Pinned := row_pinned r; StartedAt := row_started r; EndedAt := row_ended r;
  AudioObjectKey := default "" (row_audio r); AudioHash := None; NormalizedAudioHash := None;
  RetentionState := row_retention r; note_CreatedAt := row_created r; UpdatedAt := row_updated r;
  note_DeletedAt := None; note_Snippet := ""; Tags := []; FolderIDs := []; PartialTranscript := row_partial r;
  EventID := row_event r; note_IsOwner := None |}.

Definition with_payload (tags folderIDs : list string) (isOwner : option bool) (n : Note) : Note := {|
  note_ID := note_ID n; note_OwnerID := note_OwnerID n; note_Title := note_Title n; Status := Status n;
  Pinned := Pinned n; StartedAt := StartedAt n; EndedAt := EndedAt n; AudioObjectKey := AudioObjectKey n;
  AudioHash := AudioHash n; NormalizedAudioHash := NormalizedAudioHash n; RetentionState := RetentionState n;
  note_CreatedAt := note_CreatedAt n; UpdatedAt := UpdatedAt n; note_DeletedAt := note_DeletedAt n;
  note_Snippet := note_Snippet n; Tags := tags; FolderIDs := folderIDs;
  PartialTranscript := PartialTranscript n; EventID := EventID n; note_IsOwner := isOwner |}.

(** ** Previews *)

(** [line[:i]] is the number of an ordered-list prefix. *)
Definition strip_ordered (line : string) : string :=
  let i := digits_len line in
  match drop_str i line with
  | String c rest =>
      if negb (i =? 0)%nat && Ascii.eqb c "."%char
      then match rest with
           | EmptyString => ""
           | String c' rest' => if Ascii.eqb c' " "%char then TrimSpace rest' else line
           end
      else line
  | EmptyString => line
  end.

Definition preview_line (line : string) : string := strip_ordered (TrimSpace (TrimLeft "#> -*" line)).

(** The loop over the lines, [b] the builder. *)
Fixpoint snippet_lines (maxRunes : Z) (fields : list string) (b : string) : string :=
  match fields with
  | [] => b
  | line :: rest =>
      let line := preview_line line in
      if (line =? "")%string then snippet_lines maxRunes rest b
      else
        let b := (if (0 <? slen b)%Z then b ++ " " else b) ++ line in
        if (maxRunes <=? RuneCount b)%Z then b else snippet_lines maxRunes rest b
  end.

Definition line_ends : string := bytes_string [10; 13].

Definition snippetN (body : string) (maxRunes : nat) : string :=
  let b := snippet_lines (Z.of_nat maxRunes) (FieldsFunc line_ends body) "" in
  let r := runes b in
  if (maxRunes <? length r)%nat then of_runes (take maxRunes r) else of_runes r.

Definition snippet (body : string) : string := snippetN body 160.

(** ** Single notes *)

Definition CreateNote (uuid : string) (now : Z) (ownerID title : string) (d : tables) : result store_error Note * tables :=
  if exists_where (note_is uuid) (t_notes d) then (Err DbError, d)
  else
    let r := mkRow uuid ownerID title NoteDraft false None None false None "pending" now now None None None None None in
    let n := {|
      note_ID := uuid; note_OwnerID := ownerID; note_Title := title; Status := NoteDraft; Pinned := false;
      StartedAt := None; EndedAt := None; AudioObjectKey := ""; AudioHash := None; NormalizedAudioHash := None;
      RetentionState := ""; note_CreatedAt := now; UpdatedAt := now; note_DeletedAt := None; note_Snippet := "";
      Tags := []; FolderIDs := []; PartialTranscript := false; EventID := None; note_IsOwner := None |} in
    (Ok n, with_bodies (t_bodies d ++ [mkBody uuid ""])%list (with_notes (t_notes d ++ [r])%list d)).

Definition GetNote (ownerID noteID : string) (d : tables) : result store_error Note :=
  match select_where (fun r => note_is noteID r && owned ownerID r && row_live r) (t_notes d) with
  | [] => Err ErrNotFound
  | r :: _ => Ok (scan_note r)
  end.

Definition StartNoteCapture (now : Z) (ownerID noteID : string) (d : tables) : result store_error Note * tables :=
  let hit r := note_is noteID r && owned ownerID r && row_live r && status_is NoteDraft r in
  let g r := touch now (set_status NoteRecording r) in
  match select_where hit (t_notes d) with
  | [] => (GetNote ownerID noteID d, d)
  | r :: _ => (Ok (scan_note (g r)), with_notes (update_where hit g (t_notes d)) d)
  end.

(** The note lies in a live shared folder ([canReadNoteSQL]). *)
Definition canRead (requesterID : string) (d : tables) (r : note_row) : bool :=
  owned requesterID r || note_shared (folder_db d) (row_id r).

Definition getReadableNoteTx (requesterID noteID : string) (d : tables) : result store_error Note :=
  match select_where (fun r => note_is noteID r && row_live r && canRead requesterID d r) (t_notes d) with
  | [] => Err ErrNotFound
  | r :: _ => Ok (with_payload [] [] (Some (owned requesterID r)) (scan_note r))
  end.

Definition SetNoteAudio (now : Z) (ownerID noteID audioKey : string) (d : tables) : result store_error unit * tables :=
  update_notes (fun r => note_is noteID r && owned ownerID r)
    (fun r => touch now (set_status NoteUploaded (set_audio audioKey r))) ErrNotFound d.

Definition UpdateNoteTitle (now : Z) (ownerID noteID title : string) (d : tables) : result store_error unit * tables :=
  update_notes (fun r => note_is noteID r && owned ownerID r) (fun r => touch now (set_title title r)) ErrNotFound d.

Definition body_of (noteID : string) (b : note_body) : bool := (nb_note b =? noteID)%string.

Definition UpdateNoteBody (ownerID noteID content : string) (d : tables) : result store_error unit * tables :=
  let hit b := body_of noteID b && exists_where (fun r => note_is (nb_note b) r && owned ownerID r) (t_notes d) in
  if (rows_affected hit (t_bodies d) =? 0)%nat then (Err ErrNotFound, d)
  else (Ok tt, with_bodies (update_where hit (fun b => mkBody (nb_note b) content) (t_bodies d)) d).

Definition SetNotePinned (now : Z) (ownerID noteID : string) (pinned : bool) (d : tables)
  : result store_error unit * tables :=
  update_notes (fun r => note_is noteID r && owned ownerID r) (fun r => touch now (set_pinned pinned r)) ErrNotFound d.

Definition SetNoteEvent (now : Z) (ownerID noteID eventID : string) (d : tables) : result store_error unit * tables :=
  if negb (exists_where (fun e => (ev_id e =? eventID)%string && (ev_owner e =? ownerID)%string) (t_events d))
  then (Err ErrNotFound, d)
  else update_notes (fun r => note_is noteID r && owned ownerID r)
         (fun r => touch now (set_event (Some eventID) r)) ErrNotFound d.

Definition ClearNoteEvent (now : Z) (ownerID noteID : string) (d : tables) : result store_error unit * tables :=
  update_notes (fun r => note_is noteID r && owned ownerID r) (fun r => touch now (set_event None r)) ErrNotFound d.

Definition GetNoteBody (ownerID noteID : string) (d : tables) : result store_error string :=
  match select_where (fun b => body_of noteID b &&
          exists_where (fun r => note_is (nb_note b) r && owned ownerID r) (t_notes d)) (t_bodies d) with
  | [] => Err ErrNotFound
  | b :: _ => Ok (nb_content b)
  end.

Definition NoteBody (noteID : string) (d : tables) : string :=
  match select_where (body_of noteID) (t_bodies d) with [] => "" | b :: _ => nb_content b end.

(** ** The worker's writes *)

Definition SetNoteStatus (now : Z) (noteID status : string) (d : tables) : result store_error unit * tables :=
  update_notes (note_is noteID) (fun r => touch now (set_status status r)) ErrNotFound d.

(** [cur.transcribing_job_id = $3]; SQL's [NULL] is not equal to anything. *)
Definition claimed_by (jobID : string) (r : note_row) : bool := bool_decide (row_job r = Some jobID).

Definition ClaimNoteForTranscription (now : Z) (noteID jobID : string) (d : tables) : result store_error string * tables :=
  match select_where (note_is noteID) (t_notes d) with
  | [] => (Err ErrNotFound, d)
  | cur :: _ =>
      let g r := touch now (set_job (Some jobID) (if claimed_by jobID cur then r else set_status NoteTranscribing r)) in
      (Ok (if claimed_by jobID cur then "" else row_status cur),
       with_notes (update_where (note_is noteID) g (t_notes d)) d)
  end.

Definition ReleaseNoteTranscriptionClaim (now : Z) (noteID jobID prior : string) (d : tables) : tables :=
  with_notes (update_where (fun r => note_is noteID r && status_is NoteTranscribing r && claimed_by jobID r)
    (fun r => touch now (set_job None (set_status prior r))) (t_notes d)) d.

Definition MarkNoteReady (now : Z) (noteID : string) (d : tables) : bool * tables :=
  let hit r := note_is noteID r && negb (status_is NoteReady r) in
  ((rows_affected hit (t_notes d) =? 1)%nat,
   with_notes (update_where hit (fun r => touch now (set_status NoteReady r)) (t_notes d)) d).

Definition SetNoteHashes (now : Z) (noteID audioHash normalizedAudioHash : string) (d : tables)
  : result store_error unit * tables :=
  update_notes (note_is noteID) (fun r => touch now (set_hashes audioHash normalizedAudioHash r)) ErrNotFound d.

(** [EXISTS (SELECT 1 FROM transcripts t WHERE t.note_id = n.id AND t.generation = $4)] *)
Definition generation_is (expected : Z) (d : tables) (r : note_row) : bool :=
  exists_where (fun t => (tr_note t =? row_id r)%string && (tr_generation t =? expected)%Z) (t_transcripts d).

Definition SetNoteHashesIfCurrent (now : Z) (noteID audioHash normalizedAudioHash : string) (expectedGeneration : Z)
    (d : tables) : result store_error unit * tables :=
  update_notes (fun r => note_is noteID r && generation_is expectedGeneration d r)
    (fun r => touch now (set_hashes audioHash normalizedAudioHash r)) ErrGenerationMismatch d.

Definition SetNoteHashesForOwner (now : Z) (ownerID noteID audioHash normalizedAudioHash : string) (d : tables)
  : result store_error unit * tables :=
  update_notes (fun r => note_is noteID r && owned ownerID r)
    (fun r => touch now (set_hashes audioHash normalizedAudioHash r)) ErrNotFound d.

Definition GetNoteByID (noteID : string) (d : tables) : result store_error Note :=
  match select_where (note_is noteID) (t_notes d) with
  | [] => Err ErrNotFound
  | r :: _ => Ok (scan_note r)
  end.

Definition NoteIsTrashed (noteID : string) (d : tables) : bool :=
  match select_where (note_is noteID) (t_notes d) with [] => true | r :: _ => row_trashed r end.

Definition SetRetentionState (now : Z) (noteID state : string) (d : tables) : tables :=
  with_notes (update_where (note_is noteID) (fun r => touch now (set_retention state r)) (t_notes d)) d.

Definition SetRetentionStateIfCurrent (now : Z) (noteID state : string) (expectedGeneration : Z) (d : tables)
  : result store_error unit * tables :=
  update_notes (fun r => note_is noteID r && generation_is expectedGeneration d r)
    (fun r => touch now (set_retention state r)) ErrGenerationMismatch d.

(** [deleteAudio] is what the callback returns when it is called; the second
    component tells whether it was.  A transcript-less note has generation 0. *)
Definition SetRetentionStateDiscardedIfCurrent (now : Z) (noteID : string) (expectedGeneration : Z)
    (deleteAudio : result store_error unit) (d : tables) : result store_error unit * bool * tables :=
  let generation := match select_where (fun t => (tr_note t =? noteID)%string) (t_transcripts d) with
                    | [] => 0%Z
                    | t :: _ => tr_generation t
                    end in
  if negb (generation =? expectedGeneration)%Z then (Err ErrGenerationMismatch, false, d)
  else match deleteAudio with
       | Err e => (Err e, true, d)
       | Ok _ => (Ok tt, true, with_notes (update_where (note_is noteID)
                    (fun r => touch now (set_retention "discarded" r)) (t_notes d)) d)
       end.

Definition SetNotePartialTranscript (now : Z) (noteID : string) (partial : bool) (d : tables) : tables :=
  with_notes (update_where (note_is noteID) (fun r => touch now (set_partial partial r)) (t_notes d)) d.

Definition SetNotePartialTranscriptIfCurrent (now : Z) (noteID : string) (partial : bool) (expectedGeneration : Z)
    (d : tables) : result store_error unit * tables :=
  update_notes (fun r => note_is noteID r && generation_is expectedGeneration d r)
    (fun r => touch now (set_partial partial r)) ErrGenerationMismatch d.

(** [SELECT id, status] and [SELECT id, title, status, created_at]. *)
Definition scan_columns (id title status : string) (created : Z) : Note := {|
  note_ID := id; note_OwnerID := ""; note_Title := title; Status := status; Pinned := false; StartedAt := None;
  EndedAt := None; AudioObjectKey := ""; AudioHash := None; NormalizedAudioHash := None; RetentionState := "";
  note_CreatedAt := created; UpdatedAt := 0; note_DeletedAt := None; note_Snippet := ""; Tags := [];
  FolderIDs := []; PartialTranscript := false; EventID := None; note_IsOwner := None |}.

Definition GetNoteAdmin (noteID : string) (d : tables) : result store_error Note :=
  match select_where (fun r => note_is noteID r && row_live r) (t_notes d) with
  | [] => Err ErrNotFound
  | r :: _ => Ok (scan_columns (row_id r) "" (row_status r) 0)
  end.

Definition FindNotesByAudioHash (ownerID audioHash normalizedAudioHash : string) (d : tables) : list Note :=
  if (audioHash =? "")%string && (normalizedAudioHash =? "")%string then []
  else
    let hit r := owned ownerID r && row_live r &&
      ((negb (audioHash =? "")%string && bool_decide (row_audio_hash r = Some audioHash)) ||
       (negb (normalizedAudioHash =? "")%string && bool_decide (row_normalized_hash r = Some normalizedAudioHash))) in
    map (fun r => scan_columns (row_id r) (row_title r) (row_status r) (row_created r)) (select_where hit (t_notes d)).

(** ** Trash *)

(** [endStream] is what ending the note's live stream returns; an error rolls
    the transaction back. *)
Definition DeleteNote (now : Z) (endStream : result store_error unit) (ownerID id : string) (d : tables)
  : result store_error unit * tables :=
  match update_notes (fun r => note_is id r && owned ownerID r && row_live r)
          (fun r => touch now (set_trashed (Some now) r)) ErrNotFound d with
  | (Err e, _) => (Err e, d)
  | (Ok _, d') => match endStream with Err e => (Err e, d) | Ok _ => (Ok tt, d') end
  end.

Definition RestoreNote (now : Z) (ownerID id : string) (d : tables) : result store_error unit * tables :=
  update_notes (fun r => note_is id r && owned ownerID r && row_trashed r)
    (fun r => touch now (set_trashed None r)) ErrNotFound d.

(** [DELETE FROM notes WHERE p]: the rows of the tables that reference [notes]
    go with them. *)
Definition delete_notes (p : note_row -> bool) (d : tables) : tables :=
  let gone id := exists_where (fun r => note_is id r && p r) (t_notes d) in
  mkTables (delete_where p (t_notes d)) (delete_where (fun b => gone (nb_note b)) (t_bodies d)) (t_tags d)
    (delete_where (fun x => gone (nt_note x)) (t_note_tags d)) (delete_where (fun t => gone (tr_note t)) (t_transcripts d))
    (t_events d) (t_people d) (delete_where (fun a => gone (al_note a)) (t_aliases d)) (t_folders d)
    (delete_where (fun m => gone (nf_note m)) (t_filings d)).

Definition PurgeNote (ownerID id : string) (d : tables) : result store_error string * tables :=
  let hit r := note_is id r && owned ownerID r && row_trashed r in
  match select_where hit (t_notes d) with
  | [] => (Err ErrNotFound, d)
  | r :: _ => (Ok (default "" (row_audio r)), delete_notes hit d)
  end.

Definition expired (cutoff : Z) (r : note_row) : bool :=
  match row_deleted r with Some x => (x <? cutoff)%Z | None => false end.

(** Times are in nanoseconds; [int64(olderThan.Seconds())] is whole seconds. *)
Definition PurgeExpired (now olderThan : Z) (d : tables) : list string * tables :=
  let hit := expired (now - Z.quot olderThan second * second)%Z in
  (select_where (fun key => negb (key =? "")%string)
     (map (fun r => default "" (row_audio r)) (select_where hit (t_notes d))), delete_notes hit d).

Section Operations.
(** Postgres's [lower] and the order of text in the database's collation. *)
Variable lower : string -> string.
Variable name_lt : string -> string -> bool.

(** [lower(title)=lower($2) ... LIMIT 2] *)
Definition FindNoteByTitleCI (ownerID title : string) (d : tables) : result store_error Note :=
  if (TrimSpace title =? "")%string then Err ErrNotFound
  else
    let hit r := owned ownerID r && row_live r && (lower (row_title r) =? lower title)%string in
    match take 2 (order_by (fun a b => String.ltb (row_id a) (row_id b)) (select_where hit (t_notes d))) with
    | [r] => Ok (scan_note r)
    | _ => Err ErrNotFound
    end.

(** ** Tags *)

Definition named (ownerID name : string) (t : tag) : bool :=
  (tag_owner t =? ownerID)%string && (lower (tag_name t) =? lower name)%string.

Definition tag_is (id : string) (t : tag) : bool := (tag_id t =? id)%string.

Definition tagged (noteID tagID : string) (x : note_tag) : bool :=
  (nt_note x =? noteID)%string && (nt_tag x =? tagID)%string.

(** [model.Tag]: id and name. *)
Definition Tag : Type := string * string.

Definition check_tag_name (name : string) : result store_error string :=
  let name := TrimSpace name in
  if (name =? "")%string then Err ErrTagNameInvalid
  else if (maxTagNameLen <? RuneCount name)%Z then Err ErrTagNameInvalid
  else Ok name.

Definition AddNoteTag (uuid ownerID noteID name : string) (d : tables) : result store_error Tag * tables :=
  match check_tag_name name with
  | Err e => (Err e, d)
  | Ok name =>
      if negb (exists_where (fun r => note_is noteID r && owned ownerID r) (t_notes d)) then (Err ErrNotFound, d)
      else if negb (exists_where (named ownerID name) (t_tags d)) && exists_where (tag_is uuid) (t_tags d)
      then (Err DbError, d)
      else
        let ts := (if exists_where (named ownerID name) (t_tags d) then t_tags d
                   else t_tags d ++ [mkTag uuid ownerID name])%list in
        match select_where (named ownerID name) ts with
        | [] => (Err DbError, d)
        | t :: _ =>
            let nts := t_note_tags d in
            (Ok (tag_id t, tag_name t),
             with_note_tags (if exists_where (tagged noteID (tag_id t)) nts then nts
                             else nts ++ [mkNT noteID (tag_id t)])%list (with_tags ts d))
        end
  end.

Definition RemoveNoteTag (ownerID noteID name : string) (d : tables) : result store_error unit * tables :=
  match select_where (named ownerID name) (t_tags d) with
  | [] => (Err ErrNotFound, d)
  | t :: _ =>
      let hit x := tagged noteID (tag_id t) x &&
        exists_where (fun r => note_is (nt_note x) r && owned ownerID r) (t_notes d) in
      if (rows_affected hit (t_note_tags d) =? 0)%nat then (Err ErrNotFound, d)
      else
        let nts := delete_where hit (t_note_tags d) in
        let orphan u := tag_is (tag_id t) u && (tag_owner u =? ownerID)%string &&
          negb (exists_where (fun x => (nt_tag x =? tag_id t)%string) nts) in
        (Ok tt, with_tags (delete_where orphan (t_tags d)) (with_note_tags nts d))
  end.

(** [note_tags nt JOIN tags t ... ORDER BY lower(t.name)] *)
Definition joined_tags (hit : note_tag -> bool) (d : tables) : list (note_tag * tag) :=
  order_by (fun a b => name_lt (lower (tag_name a.2)) (lower (tag_name b.2)))
    (flat_map (fun x => map (fun t => (x, t)) (select_where (tag_is (nt_tag x)) (t_tags d)))
      (select_where hit (t_note_tags d))).

Definition noteTagsTx (noteID : string) (d : tables) : list string :=
  map (fun xt => tag_name xt.2) (joined_tags (fun x => (nt_note x =? noteID)%string) d).

Definition NoteTags (noteID : string) (d : tables) : list string := noteTagsTx noteID d.

(** A tag and the number of its live notes; tags without one are dropped. *)
Definition live_notes_of (t : tag) (d : tables) : nat :=
  length (flat_map (fun x => select_where (fun r => note_is (nt_note x) r && row_live r) (t_notes d))
            (select_where (fun x => (nt_tag x =? tag_id t)%string) (t_note_tags d))).

Definition ListTags (ownerID : string) (d : tables) : list (Tag * nat) :=
  map (fun t => ((tag_id t, tag_name t), live_notes_of t d))
    (order_by (fun a b => name_lt (lower (tag_name a)) (lower (tag_name b)))
      (select_where (fun t => (tag_owner t =? ownerID)%string && (0 <? live_notes_of t d)%nat) (t_tags d))).

Definition RenameTag (ownerID tagID name : string) (d : tables) : result store_error Tag * tables :=
  match check_tag_name name with
  | Err e => (Err e, d)
  | Ok name =>
      let hit t := tag_is tagID t && (tag_owner t =? ownerID)%string in
      match select_where hit (t_tags d) with
      | [] => (Err ErrNotFound, d)
      | t :: _ =>
          if exists_where (fun u => negb (tag_is tagID u) && named ownerID name u) (t_tags d)
          then (Err ErrDuplicate, d)
          else (Ok (tag_id t, name),
                with_tags (update_where hit (fun t => mkTag (tag_id t) (tag_owner t) name) (t_tags d)) d)
      end
  end.

Definition DeleteTag (ownerID tagID : string) (d : tables) : result store_error unit * tables :=
  let hit t := tag_is tagID t && (tag_owner t =? ownerID)%string in
  if negb (exists_where hit (t_tags d)) then (Err ErrNotFound, d)
  else (Ok tt, with_tags (delete_where hit (t_tags d))
         (with_note_tags (delete_where (fun x => (nt_tag x =? tagID)%string) (t_note_tags d)) d)).

(** [out\[id\] = append(out\[id\], name)] over the rows. *)
Definition tagsForNotesTx (noteIDs : list string) (d : tables) : gmap string (list string) :=
  fold_left (fun out xt => <[nt_note xt.1 := default [] (out !! nt_note xt.1) ++ [tag_name xt.2]]> out)%list
    (joined_tags (fun x => bool_decide (nt_note x ∈ noteIDs)) d) ∅.

(** ** Lists of notes *)

Record ListNotesFilter := {
  f_Tag : string; f_Status : string; f_FolderID : string; FolderIDSet : bool; PersonID : string;
  PersonIDSet : bool; CreatedFrom : option Z; CreatedTo : option Z }.

(** [EXISTS (... lower(t.name) = lower($n) AND t.owner_id = n.owner_id)] *)
Definition carries_tag (name : string) (d : tables) (r : note_row) : bool :=
  exists_where (fun x => (nt_note x =? row_id r)%string &&
    exists_where (fun t => tag_is (nt_tag x) t && named (row_owner r) name t) (t_tags d)) (t_note_tags d).

Definition attends (d : tables) (personID : string) (r : note_row) : bool :=
  exists_where (fun e =>
    exists_where (fun p => (pe_id p =? personID)%string && (pe_owner p =? row_owner r)%string &&
      bool_decide (row_event r = Some (ev_id e)) && (ev_owner e =? row_owner r)%string &&
      existsb (fun email => match email with
                            | Some email => (lower email =? lower (pe_email p))%string
                            | None => false
                            end) (ev_emails e)) (t_people d)) (t_events d).

Definition speaks (d : tables) (personID : string) (r : note_row) : bool :=
  exists_where (fun a => (al_note a =? row_id r)%string && (al_owner a =? row_owner r)%string &&
    bool_decide (al_person a = Some personID)) (t_aliases d).

(** The conditions both list queries share. *)
Definition common_filter (f : ListNotesFilter) (d : tables) (r : note_row) : bool :=
  row_live r &&
  ((f_Tag f =? "")%string || carries_tag (f_Tag f) d r) &&
  ((f_Status f =? "")%string || status_is (f_Status f) r) &&
  match CreatedFrom f with Some x => (x <=? row_created r)%Z | None => true end &&
  match CreatedTo f with Some x => (row_created r <=? x)%Z | None => true end.

Definition noteFilterSQL (ownerID : string) (f : ListNotesFilter) (d : tables) (r : note_row) : bool :=
  owned ownerID r && common_filter f d r &&
  (negb (PersonIDSet f) || attends d (PersonID f) r || speaks d (PersonID f) r).

Definition readableNoteFilterSQL (f : ListNotesFilter) (d : tables) (r : note_row) : bool := common_filter f d r.

(** The rows joined to their memberships in [folderID]. *)
Definition filed_in (folderID : string) (d : tables) (rows : list note_row) : list (Z * note_row) :=
  flat_map (fun r => map (fun m => (nf_position m, r))
    (select_where (membership (row_id r) folderID) (t_filings d))) rows.

(** [n.pinned DESC, nf.position, n.created_at DESC, n.id]; without a folder
    every position is 0. *)
Definition notesOrderClause (a b : Z * note_row) : bool :=
  (row_pinned a.2 && negb (row_pinned b.2)) ||
  (Bool.eqb (row_pinned a.2) (row_pinned b.2) &&
   ((a.1 <? b.1)%Z || ((a.1 =? b.1)%Z &&
    ((row_created b.2 <? row_created a.2)%Z || ((row_created a.2 =? row_created b.2)%Z &&
     String.ltb (row_id a.2) (row_id b.2)))))).

(** The columns of a list query; the body's snippet comes with them. *)
Definition scan_listed (d : tables) (isOwner : option bool) (deleted : bool) (tags folderIDs : gmap string (list string))
    (r : note_row) : Note := {|
  note_ID := row_id r; note_OwnerID := row_owner r; note_Title := row_title r; Status := row_status r;
  Pinned := row_pinned r; StartedAt := row_started r; EndedAt := row_ended r; AudioObjectKey := "";
  AudioHash := None; NormalizedAudioHash := None; RetentionState := ""; note_CreatedAt := row_created r;
  UpdatedAt := row_updated r; note_DeletedAt := if deleted then row_deleted r else None;
  note_Snippet := snippet (NoteBody (row_id r) d); Tags := default [] (tags !! row_id r);
  FolderIDs := default [] (folderIDs !! row_id r); PartialTranscript := row_partial r; EventID := row_event r;
  note_IsOwner := isOwner |}.

Definition list_rows (f : ListNotesFilter) (d : tables) (rows : list note_row) : list note_row :=
  map snd (order_by notesOrderClause
    (if FolderIDSet f then filed_in (f_FolderID f) d rows else map (pair 0%Z) rows)).

Definition ListNotes (ownerID : string) (f : ListNotesFilter) (d : tables) : list Note :=
  let rows := list_rows f d (select_where (noteFilterSQL ownerID f d) (t_notes d)) in
  let ids := map row_id rows in
  map (scan_listed d None false (tagsForNotesTx ids d) (foldersForNotes ids (folder_db d))) rows.

(** [seen] is what the preliminary check reads, [d] the snapshot of the
    transaction that loads the rows. *)
Definition ListReadableNotes_on (seen : list folder) (requesterID : string) (f : ListNotesFilter) (d : tables)
  : result store_error (list Note) :=
  if negb (FolderIDSet f) then Err ErrNotFound
  else
    match select_where (fun g => has_id (f_FolderID f) g && live g) seen with
    | [] => Err ErrNotFound
    | g :: _ =>
        if negb (owned_by requesterID g) && negb (is_shared g) then Err ErrNotFound
        else
          let readable := exists_where (fun g => has_id (f_FolderID f) g && visible requesterID g) (t_folders d) in
          let rows := if readable then list_rows f d (select_where (readableNoteFilterSQL f d) (t_notes d)) else [] in
          let ids := map row_id rows in
          let tags := tagsForNotesTx ids d in
          let folderIDs := readableFoldersForNotesTx requesterID ids (folder_db d) in
          Ok (map (fun r => scan_listed d (Some (owned requesterID r)) false tags folderIDs r) rows)
    end.

Definition ListReadableNotes requesterID f (d : tables) : result store_error (list Note) :=
  ListReadableNotes_on (t_folders d) requesterID f d.

Definition GetReadableNote (requesterID noteID : string) (d : tables) : result store_error Note :=
  let? n := getReadableNoteTx requesterID noteID d in
  Ok (with_payload (noteTagsTx noteID d) (readableNoteFolderIDsTx requesterID noteID (folder_db d)) (note_IsOwner n) n).

Definition ListTrash (ownerID : string) (d : tables) : list Note :=
  let rows := order_by (fun a b => (default 0 (row_deleted b) <? default 0 (row_deleted a))%Z)
    (select_where (fun r => owned ownerID r && row_trashed r) (t_notes d)) in
  let ids := map row_id rows in
  map (scan_listed d None true (tagsForNotesTx ids d) (foldersForNotes ids (folder_db d))) rows.

(** ** Duplication *)

(** [for _, tag := range tags { AddNoteTag }] and the loop over the folders;
    each call is its own transaction, so an error keeps the earlier ones. *)
Fixpoint add_tags (fresh : nat -> string) (ownerID noteID : string) (tags : list string) (d : tables)
  : result store_error unit * tables :=
  match tags with
  | [] => (Ok tt, d)
  | t :: rest =>
      match AddNoteTag (fresh (length tags)) ownerID noteID t d with
      | (Err e, d') => (Err e, d')
      | (Ok _, d') => add_tags fresh ownerID noteID rest d'
      end
  end.

Fixpoint add_folders (liveFolderSet : gset string) (ownerID noteID : string) (ids : list string) (d : tables)
  : result store_error unit * tables :=
  match ids with
  | [] => (Ok tt, d)
  | id :: rest =>
      if negb (bool_decide (id ∈ liveFolderSet)) then add_folders liveFolderSet ownerID noteID rest d
      else
        match AddNoteFolder ownerID noteID id (folder_db d) with
        | (Err e, x) => (Err e, with_folder_db x d)
        | (Ok _, x) => add_folders liveFolderSet ownerID noteID rest (with_folder_db x d)
        end
  end.

(** [uuid] is the copy's id, [fresh] the ids [AddNoteTag] draws. *)
Definition DuplicateNote (uuid : string) (fresh : nat -> string) (now : Z) (ownerID noteID : string) (d : tables)
  : result store_error Note * tables :=
  match GetNote ownerID noteID d with
  | Err e => (Err e, d)
  | Ok orig =>
      let body := NoteBody noteID d in
      let tags := NoteTags noteID d in
      let folderIDs := NoteFolderIDs noteID (folder_db d) in
      match ListFolders lower name_lt ownerID (folder_db d) with
      | Err e => (Err e, d)
      | Ok liveFolders =>
      match CreateNote uuid now ownerID ("Copy of " ++ note_Title orig) d with
      | (Err e, d) => (Err e, d)
      | (Ok copyNote, d) =>
      match UpdateNoteBody ownerID (note_ID copyNote) body d with
      | (Err e, d) => (Err e, d)
      | (Ok _, d) =>
      match add_tags fresh ownerID (note_ID copyNote) tags d with
      | (Err e, d) => (Err e, d)
      | (Ok _, d) =>
      match add_folders (list_to_set (map ID liveFolders)) ownerID (note_ID copyNote) folderIDs d with
      | (Err e, d) => (Err e, d)
      | (Ok _, d) => (Ok (with_payload tags folderIDs (note_IsOwner copyNote) copyNote), d)
      end end end end end
  end.

End Operations.
