(* ===== verification/NotesProps.v ===== *)
(** Properties of notes and tags: the tables' invariant, who reads which note,
    claims and races of the worker's writes, the trash, previews. *)

From stdpp Require Import base list strings sets gmap.
From Stdlib Require Import Ascii ZArith Lia.
From S2P Require Import GoInt GoStrings Sql Folders FoldersProps Notes.

Local Open Scope string_scope.

(** ** Rows *)

Lemma note_is_true id r : note_is id r = true <-> row_id r = id.
Proof. apply String.eqb_eq. Qed.

Lemma note_is_self r : note_is (row_id r) r = true.
Proof. by apply note_is_true. Qed.

Lemma owned_true o r : owned o r = true <-> row_owner r = o.
Proof. apply String.eqb_eq. Qed.

Lemma tag_is_true id t : tag_is id t = true <-> tag_id t = id.
Proof. apply String.eqb_eq. Qed.

Lemma tagged_true n t x : tagged n t x = true <-> nt_note x = n /\ nt_tag x = t.
Proof. unfold tagged. by rewrite andb_true_iff, !String.eqb_eq. Qed.

Lemma row_trashed_live r : row_trashed r = negb (row_live r).
Proof. unfold row_trashed, row_live. by destruct (row_deleted r). Qed.

Section Rows.
Context (d : tables).
Hypothesis Hids : NoDup (map row_id (t_notes d)).

(** The one row of an id, under a further condition. *)
Lemma select_note (q : note_row -> bool) r :
  r ∈ t_notes d -> q r = true -> (forall x, q x = true -> note_is (row_id r) x = true) ->
  select_where q (t_notes d) = [r].
Proof.
  intros Hr Hq Hk. apply (select_key row_id); [done..|]. intros x _ Hx. by apply note_is_true, Hk.
Qed.

Lemma note_unique r r' : r ∈ t_notes d -> r' ∈ t_notes d -> row_id r = row_id r' -> r = r'.
Proof. by apply key_unique. Qed.
End Rows.

(** ** The invariant *)

(** Statements that leave ids, owners and the columns the folders read. *)
Definition keeps_keys (g : note_row -> note_row) : Prop :=
  forall r, row_id (g r) = row_id r /\ row_owner (g r) = row_owner r.

Definition tag_key (lower : string -> string) (t : tag) : string * string := (tag_owner t, lower (tag_name t)).

Definition bodies_ok (d : tables) : Prop :=
  NoDup (map nb_note (t_bodies d)) /\ forall id, id ∈ map nb_note (t_bodies d) <-> id ∈ map row_id (t_notes d).

(** Every tag of a note is its owner's. *)
Definition note_tags_ok (d : tables) : Prop :=
  NoDup (t_note_tags d) /\
  forall x, x ∈ t_note_tags d -> exists r t, r ∈ t_notes d /\ t ∈ t_tags d /\
    row_id r = nt_note x /\ tag_id t = nt_tag x /\ row_owner r = tag_owner t.

Definition tags_ok (lower : string -> string) (ts : list tag) : Prop :=
  NoDup (map tag_id ts) /\ NoDup (map (tag_key lower) ts) /\
  forall t, t ∈ ts -> tag_name t <> "" /\ (RuneCount (tag_name t) <= maxTagNameLen)%Z.

(** The invariant of the folder table is [P]. *)
Definition filed_ok (P : list folder -> Prop) (x : db) : Prop := P (folders x) /\ filing_ok x.

Definition notes_ok_with (P : list folder -> Prop) (lower : string -> string) (d : tables) : Prop :=
  NoDup (map row_id (t_notes d)) /\ bodies_ok d /\ tags_ok lower (t_tags d) /\ note_tags_ok d /\
  filed_ok P (folder_db d).

(** The folders as a forest. *)
Definition notes_ok (lower : string -> string) : tables -> Prop := notes_ok_with (folders_ok lower) lower.

Section Invariant.
Variable lower : string -> string.
Variable name_lt : string -> string -> bool.
Variable P : list folder -> Prop.

Lemma folder_db_ids d : map n_id (notes (folder_db d)) = map row_id (t_notes d).
Proof. cbn. by rewrite map_map. Qed.

Lemma db_ok_notes x d :
  (forall m, m ∈ t_filings d -> nf_note m ∈ map row_id x) -> NoDup (map row_id x) ->
  filed_ok P (folder_db d) -> filed_ok P (folder_db (with_notes x d)).
Proof.
  intros Hm Hnd [Hf (_ & H2 & H3)]. split; [done|]. split_and!; [by rewrite folder_db_ids|done|].
  rewrite folder_db_ids. cbn in *. intros m Hin. split; [by apply Hm|]. by destruct (H3 m Hin).
Qed.

Lemma filing_note d m : filed_ok P (folder_db d) -> m ∈ t_filings d -> nf_note m ∈ map row_id (t_notes d).
Proof. intros [_ (_ & _ & H)] Hm. rewrite <- folder_db_ids. by apply H. Qed.

Lemma notes_ok_update p g d : keeps_keys g -> notes_ok_with P lower d -> notes_ok_with P lower (with_notes (update_where p g (t_notes d)) d).
Proof.
  intros Hg (H1 & H2 & H3 & H4 & H5).
  assert (E : map row_id (update_where p g (t_notes d)) = map row_id (t_notes d))
    by (apply map_update_where; intros r; apply Hg).
  split_and!; [by cbn; rewrite E| |done| |].
  - destruct H2 as [? H2]. split; [done|]. intros id. cbn [t_notes with_notes]. rewrite E. apply H2.
  - destruct H4 as [? H4]. split; [done|]. intros x (r & t & Hr & Ht & E1 & E2 & E3)%H4.
    exists (if p r then g r else r), t. split_and!; [|done|..].
    + apply elem_of_update_where. eauto.
    + destruct (p r); [by rewrite (proj1 (Hg r))|done].
    + done.
    + destruct (p r); [by rewrite (proj2 (Hg r))|done].
  - apply db_ok_notes; [|by rewrite E|done]. intros m Hm. rewrite E. by apply filing_note.
Qed.

Lemma update_notes_ok p g e d : keeps_keys g -> notes_ok_with P lower d -> notes_ok_with P lower (update_notes p g e d).2.
Proof. intros Hg Hok. unfold update_notes. case_match; [done|]. by apply notes_ok_update. Qed.

Lemma create_ok uuid now o title d : notes_ok_with P lower d -> notes_ok_with P lower (CreateNote uuid now o title d).2.
Proof.
  intros Hok. pose proof Hok as (H1 & [Hb Hbi] & H3 & H4 & H5). unfold CreateNote. case_match eqn:Ee; [done|]. cbn [snd].
  rewrite exists_where_false in Ee.
  assert (Hnew : uuid ∉ map row_id (t_notes d)).
  { intros (r & -> & Hr)%list_elem_of_fmap. specialize (Ee r Hr). by rewrite note_is_self in Ee. }
  split_and!; [| |done| |].
  - cbn. rewrite map_app. by apply NoDup_snoc.
  - split; cbn; rewrite map_app; [apply NoDup_snoc; [done|by rewrite Hbi]|].
    intros id. rewrite map_app, !elem_of_app, Hbi. done.
  - destruct H4 as [? H4]. split; [done|]. intros x (r & t & Hr & Hrest)%H4. exists r, t. split; [|done].
    cbn. apply elem_of_app. by left.
  - change (filed_ok P (folder_db (with_notes (t_notes d ++ [mkRow uuid o title NoteDraft false None None false None
      "pending" now now None None None None None]) d))).
    apply db_ok_notes; [|rewrite map_app; by apply NoDup_snoc|done].
    intros m Hm. rewrite map_app. apply elem_of_app. left. by apply filing_note.
Qed.

Lemma with_tables_ok bs ts nts d :
  NoDup (map nb_note bs) -> (forall id, id ∈ map nb_note bs <-> id ∈ map row_id (t_notes d)) ->
  tags_ok lower ts -> note_tags_ok (with_note_tags nts (with_tags ts d)) ->
  notes_ok_with P lower d -> notes_ok_with P lower (with_bodies bs (with_note_tags nts (with_tags ts d))).
Proof. intros ? ? ? ? (H1 & _ & _ & _ & H5). split_and!; try done. Qed.

Lemma update_body_ok o n c d : notes_ok_with P lower d -> notes_ok_with P lower (UpdateNoteBody o n c d).2.
Proof.
  intros Hok. pose proof Hok as (H1 & [Hb Hbi] & H3 & H4 & H5). unfold UpdateNoteBody. case_match; [done|]. cbn [snd].
  change (with_bodies ?x d) with (with_bodies x (with_note_tags (t_note_tags d) (with_tags (t_tags d) d))).
  match goal with |- context [update_where ?p ?g (t_bodies d)] =>
    assert (E : map nb_note (update_where p g (t_bodies d)) = map nb_note (t_bodies d)) by by apply map_update_where end.
  apply with_tables_ok; rewrite ?E; done.
Qed.

(** *** Tags *)

Lemma check_tag_name_ok name n :
  check_tag_name name = Ok n -> n = TrimSpace name /\ n <> "" /\ (RuneCount n <= maxTagNameLen)%Z.
Proof.
  unfold check_tag_name. destruct (String.eqb_spec (TrimSpace name) ""); [done|].
  destruct (Z.ltb_spec maxTagNameLen (RuneCount (TrimSpace name))); [done|]. intros [= <-]. done.
Qed.

Lemma named_key o name t : named lower o name t = true <-> tag_key lower t = (o, lower name).
Proof. unfold named, tag_key. rewrite andb_true_iff, !String.eqb_eq. split; [by intros [-> ->]|by intros [= -> ->]]. Qed.

(** What [AddNoteTag] leaves when it succeeds. *)
Lemma AddNoteTag_result uuid o n name d x :
  notes_ok_with P lower d -> (AddNoteTag lower uuid o n name d).1 = Ok x ->
  exists r t ts nts, (AddNoteTag lower uuid o n name d).2 = with_note_tags nts (with_tags ts d) /\
    r ∈ t_notes d /\ row_id r = n /\ row_owner r = o /\ tags_ok lower ts /\ t ∈ ts /\
    tag_key lower t = (o, lower (TrimSpace name)) /\ x = (tag_id t, tag_name t) /\
    (ts = t_tags d \/ ts = (t_tags d ++ [t])%list) /\
    (forall u, u ∈ t_tags d -> tag_id u = tag_id t -> u = t) /\
    nts = (if exists_where (tagged n (tag_id t)) (t_note_tags d) then t_note_tags d
           else (t_note_tags d ++ [mkNT n (tag_id t)])%list).
Proof.
  intros (_ & _ & (Ht1 & Ht2 & Ht3) & _). unfold AddNoteTag.
  destruct (check_tag_name name) as [nm|e] eqn:Ec; [|done]. apply check_tag_name_ok in Ec as (-> & Hne & Hlen).
  destruct (negb _) eqn:Er; [done|]. apply negb_false_iff, exists_where_true in Er as (r & Hr & Hr').
  apply andb_true_iff in Hr' as [Hid%note_is_true Ho%owned_true].
  destruct (negb _ && _) eqn:Ef; [done|]. destruct (exists_where (named _ _ _) (t_tags d)) eqn:En.
  - destruct (select_where _ _) as [|t l] eqn:Es; [done|]. intros [= <-].
    assert (Ht : t ∈ select_where (named lower o (TrimSpace name)) (t_tags d)) by (rewrite Es; left).
    apply elem_of_select_where in Ht as [Ht Hk%named_key].
    exists r, t. do 2 eexists. split_and!; try done; try by left.
    intros u Hu E. by apply (key_unique tag_id (t_tags d)).
  - cbn [negb andb] in Ef. rewrite exists_where_false in En, Ef.
    set (t := mkTag uuid o (TrimSpace name)).
    assert (Hkt : named lower o (TrimSpace name) t = true) by by apply named_key.
    assert (Es : select_where (named lower o (TrimSpace name)) (t_tags d ++ [t]) = [t]).
    { unfold select_where. rewrite List.filter_app. fold (select_where (named lower o (TrimSpace name)) (t_tags d)).
      rewrite select_none by done. cbn [List.filter app]. by rewrite Hkt. }
    assert (Hts : tags_ok lower (t_tags d ++ [t])).
    { split_and!.
      - rewrite map_app. apply NoDup_snoc; [done|]. intros (u & E & Hu)%list_elem_of_fmap. specialize (Ef u Hu).
        apply not_true_iff_false in Ef. apply Ef, tag_is_true. by rewrite <- E.
      - rewrite map_app. apply NoDup_snoc; [done|]. intros (u & E & Hu)%list_elem_of_fmap. specialize (En u Hu).
        apply not_true_iff_false in En. apply En, named_key. by rewrite <- E.
      - intros u [Hu|Hu%list_elem_of_singleton]%elem_of_app; [by apply Ht3|]. by subst u. }
    rewrite Es. intros [= <-]. exists r, t. do 2 eexists. split_and!; try done.
    + apply elem_of_app. right. by apply list_elem_of_singleton.
    + by right.
    + intros u Hu E. specialize (Ef u Hu). apply not_true_iff_false in Ef. destruct Ef. by apply tag_is_true.
Qed.

Lemma AddNoteTag_err uuid o n name d e :
  (AddNoteTag lower uuid o n name d).1 = Err e -> (AddNoteTag lower uuid o n name d).2 = d.
Proof. unfold AddNoteTag. by repeat (case_match; try done). Qed.

Lemma AddNoteTag_ok uuid o n name d : notes_ok_with P lower d -> notes_ok_with P lower (AddNoteTag lower uuid o n name d).2.
Proof.
  intros Hok. destruct (AddNoteTag lower uuid o n name d).1 as [x|e] eqn:E; [|by rewrite (AddNoteTag_err _ _ _ _ _ _ E)].
  destruct (AddNoteTag_result _ _ _ _ _ _ Hok E) as (r & t & ts & nts & -> & Hr & Hid & Ho & Hts & Ht & Hk & _ & Hcase & _ & ->).
  destruct Hok as (H1 & [Hb Hbi] & H3 & [H4 H4'] & H5).
  assert (Hold : forall u, u ∈ t_tags d -> u ∈ ts) by (destruct Hcase as [-> | ->]; intros; rewrite ?elem_of_app; auto).
  assert (Hl : forall x, x ∈ t_note_tags d -> exists r t, r ∈ t_notes d /\ t ∈ ts /\ row_id r = nt_note x /\
    tag_id t = nt_tag x /\ row_owner r = tag_owner t).
  { intros y (r' & t' & Hr' & Ht' & Hrest)%H4'. exists r', t'. split_and!; try apply Hrest; auto. }
  split_and!; try done. split; cbn [t_note_tags with_note_tags].
  - case_match eqn:Ee; [done|]. apply NoDup_snoc; [done|]. rewrite exists_where_false in Ee. intros Hin%Ee.
    apply not_true_iff_false in Hin. by apply Hin, tagged_true.
  - intros y. case_match; [apply Hl|]. intros [Hy|Hy%list_elem_of_singleton]%elem_of_app; [by apply Hl|]. subst y.
    exists r, t. unfold tag_key in Hk. split_and!; try done. congruence.
Qed.

(** Fewer links, and only tags without a link left out. *)
Lemma drop_tags_ok p q d :
  notes_ok_with P lower d ->
  (forall x t, x ∈ t_note_tags d -> q x = false -> t ∈ t_tags d -> tag_id t = nt_tag x -> p t = false) ->
  notes_ok_with P lower (with_tags (delete_where p (t_tags d)) (with_note_tags (delete_where q (t_note_tags d)) d)).
Proof.
  intros (H1 & H2 & (T1 & T2 & T3) & [H4 H4'] & H5) Hpq. split_and!; try done.
  - split_and!; [by apply NoDup_map_delete..|]. intros t [Ht _]%elem_of_delete_where. by apply T3.
  - split; cbn [t_note_tags t_notes t_tags with_tags with_note_tags].
    + rewrite <- (list_fmap_id (delete_where _ _)). apply (NoDup_map_delete id). by rewrite map_id.
    + intros x [Hx Hq]%elem_of_delete_where. destruct (H4' x Hx) as (r & t & Hr & Ht & Hrest).
      exists r, t. split_and!; try done; [|apply Hrest..]. apply elem_of_delete_where. split; [done|].
      by apply (Hpq x); [done..|apply Hrest].
Qed.

Lemma RemoveNoteTag_ok o n name d : notes_ok_with P lower d -> notes_ok_with P lower (RemoveNoteTag lower o n name d).2.
Proof.
  intros Hok. unfold RemoveNoteTag. destruct (select_where _ _) as [|t l] eqn:Es; [done|]. case_match; [done|]. cbn [snd].
  apply drop_tags_ok; [done|]. intros x u Hx Hq Hu E. apply andb_false_iff.
  destruct (exists_where _ (delete_where _ _)) eqn:Ee; [by right|left].
  rewrite exists_where_false in Ee. apply andb_false_iff. left. apply not_true_iff_false. intros Hid%tag_is_true.
  assert (Hx' := Ee x ltac:(by apply elem_of_delete_where)). apply not_true_iff_false in Hx'. apply Hx', String.eqb_eq.
  congruence.
Qed.

Lemma DeleteTag_ok o id d : notes_ok_with P lower d -> notes_ok_with P lower (DeleteTag o id d).2.
Proof.
  intros Hok. unfold DeleteTag. case_match; [done|]. cbn [snd]. apply drop_tags_ok; [done|]. intros x t Hx Hq Ht E.
  apply andb_false_iff. left. apply not_true_iff_false. intros Hid%tag_is_true.
  apply not_true_iff_false in Hq. apply Hq, String.eqb_eq. congruence.
Qed.

(** A name that no other tag of the owner has keeps the index unique. *)
Lemma renamed_keys o id nm (ts : list tag) t :
  NoDup (map tag_id ts) -> NoDup (map (tag_key lower) ts) -> t ∈ ts -> tag_id t = id -> tag_owner t = o ->
  exists_where (fun u => negb (tag_is id u) && named lower o nm u) ts = false ->
  NoDup (map (tag_key lower) (update_where (fun t => tag_is id t && (tag_owner t =? o)%string)
    (fun t => mkTag (tag_id t) (tag_owner t) nm) ts)).
Proof.
  intros Hi Hk Ht Eid Eo Hno. rewrite exists_where_false in Hno.
  assert (Hother : forall u, u ∈ ts -> tag_id u <> id -> tag_key lower u <> (o, lower nm)).
  { intros u Hu Hne E%named_key. specialize (Hno u Hu). rewrite E, andb_true_r in Hno. apply negb_false_iff, tag_is_true in Hno.
    done. }
  clear Hno Ht Eid Eo. revert Hother. induction ts as [|u ts IH]; cbn; [constructor|]. intros Hother.
  apply NoDup_cons in Hi as [Hui Hi]. apply NoDup_cons in Hk as [Huk Hk].
  apply NoDup_cons. split; [|apply IH; [done..|intros v Hv; apply Hother; by right]].
  intros (v & E & Hv)%list_elem_of_fmap. apply elem_of_update_where in Hv as (w & Hw & ->).
  assert (Hwu : tag_id w <> tag_id u) by (intros Eq; apply Hui, list_elem_of_fmap; exists w; split; [by rewrite Eq|done]).
  destruct (_ && _) eqn:Eu in E; [apply andb_true_iff in Eu as [Eu%tag_is_true Eou%String.eqb_eq]|];
    destruct (_ && _) eqn:Ew in E; try (apply andb_true_iff in Ew as [Ew%tag_is_true Eow%String.eqb_eq]).
  - congruence.
  - apply (Hother w); [by right|congruence|]. rewrite <- E. unfold tag_key. cbn. by rewrite Eou.
  - apply (Hother u); [left|congruence|]. rewrite E. unfold tag_key. cbn. by rewrite Eow.
  - apply Huk, list_elem_of_fmap. eauto.
Qed.

Lemma RenameTag_ok o id name d : notes_ok_with P lower d -> notes_ok_with P lower (RenameTag lower o id name d).2.
Proof.
  intros Hok. pose proof Hok as (H1 & H2 & (T1 & T2 & T3) & [H4 H4'] & H5). unfold RenameTag.
  destruct (check_tag_name name) as [nm|] eqn:Ec; [|done]. apply check_tag_name_ok in Ec as (_ & Hne & Hlen).
  destruct (select_where _ _) as [|t l] eqn:Es; [done|]. case_match eqn:Ex; [done|]. cbn [snd].
  assert (Ht : t ∈ t :: l) by left. rewrite <- Es in Ht. apply elem_of_select_where in Ht as [Ht
    [Hid%tag_is_true Ho%String.eqb_eq]%andb_true_iff].
  split_and!; try done.
  - split_and!; [by cbn; rewrite map_update_where|cbn; by eapply renamed_keys|]. cbn.
    intros u (v & Hv & ->)%elem_of_update_where. destruct (_ && _); [done|by apply T3].
  - split; [done|]. intros x (r & u & Hr & Hu & E1 & E2 & E3)%H4'. cbn [t_tags with_tags].
    eexists r, _. split_and!; [done|apply elem_of_update_where; by exists u|..]; try done; by destruct (_ && _).
Qed.

(** *** Deletion with its cascades *)

Lemma gone_id p (t : list note_row) id :
  NoDup (map row_id t) ->
  exists_where (fun r => note_is id r && p r) t = false -> id ∈ map row_id t -> id ∈ map row_id (delete_where p t).
Proof.
  intros _ Hno (r & -> & Hr)%list_elem_of_fmap. rewrite exists_where_false in Hno. specialize (Hno r Hr).
  rewrite note_is_self in Hno. apply list_elem_of_fmap. exists r. split; [done|]. by apply elem_of_delete_where.
Qed.

Lemma kept_id p (t : list note_row) id :
  NoDup (map row_id t) -> id ∈ map row_id (delete_where p t) ->
  id ∈ map row_id t /\ exists_where (fun r => note_is id r && p r) t = false.
Proof.
  intros Hnd (r & -> & Hr)%list_elem_of_fmap. apply elem_of_delete_where in Hr as [Hr Hp].
  split; [apply list_elem_of_fmap; eauto|]. apply exists_where_false. intros x Hx. apply not_true_iff_false.
  intros [Hid%note_is_true Hpx]%andb_true_iff. assert (x = r) by by apply (key_unique row_id t). congruence.
Qed.

Lemma delete_notes_ok p d : notes_ok_with P lower d -> notes_ok_with P lower (delete_notes p d).
Proof.
  intros (H1 & [Hb Hbi] & H3 & [H4 H4'] & [H5 (H6 & H7 & H8)]).
  assert (Hnd : NoDup (map row_id (delete_where p (t_notes d)))) by by apply NoDup_map_delete.
  split_and!; [done| |done| |].
  - split; [by apply NoDup_map_delete|]. intros id. cbn. split.
    + intros (b & -> & Hb')%list_elem_of_fmap. apply elem_of_delete_where in Hb' as [Hb' Hno].
      apply gone_id; [done..|]. apply Hbi, list_elem_of_fmap. eauto.
    + intros [Hin Hno]%kept_id; [|done]. apply Hbi, list_elem_of_fmap in Hin as (b & -> & Hb').
      apply list_elem_of_fmap. exists b. split; [done|]. by apply elem_of_delete_where.
  - split; cbn.
    + rewrite <- (list_fmap_id (delete_where _ _)). apply (NoDup_map_delete id). by rewrite map_id.
    + intros x [Hx Hno]%elem_of_delete_where. destruct (H4' x Hx) as (r & t & Hr & Ht & E & Hrest).
      exists r, t. split; [|done]. apply elem_of_delete_where. split; [done|].
      rewrite exists_where_false in Hno. specialize (Hno r Hr). by rewrite <- E, note_is_self in Hno.
  - split; [done|]. split_and!; [by rewrite folder_db_ids|by apply NoDup_map_delete|].
    rewrite folder_db_ids. cbn in *. intros m [Hm Hno]%elem_of_delete_where. destruct (H8 m Hm) as [Hn Hf].
    split; [|done]. rewrite map_map in Hn. by apply gone_id.
Qed.

(** *** Folder operations *)

Lemma perform_notes v o x : notes (perform_on lower name_lt v o x).2 = notes x.
Proof.
  destruct o; cbn [perform_on outcome snd];
    unfold CreateFolder_on, UpdateFolder_on, update_folder, SetFolderVisibility, ReorderFolder,
      ReorderNoteInFolder, DeleteFolder, RestoreFolder, PurgeFolder, PurgeExpiredFolders, delete_folders, AddNoteFolder,
      RemoveNoteFolder; by repeat (case_match; try done).
Qed.

Lemma with_folder_db_ok x d :
  notes x = notes (folder_db d) -> filed_ok P x -> notes_ok_with P lower d -> notes_ok_with P lower (with_folder_db x d).
Proof.
  intros E Hx (H1 & H2 & H3 & H4 & _). split_and!; try done.
  replace (folder_db (with_folder_db x d)) with x; [done|]. destruct x as [f n m]. cbn in *. by subst n.
Qed.

Lemma folder_op_ok v o d :
  (P (t_folders d) -> P (folders (perform_on lower name_lt v o (folder_db d)).2)) ->
  notes_ok_with P lower d -> notes_ok_with P lower (with_folder_db (perform_on lower name_lt v o (folder_db d)).2 d).
Proof.
  intros Ho Hok. apply with_folder_db_ok; [apply perform_notes| |done]. destruct Hok as (_ & _ & _ & _ & [H1 H2]).
  split; [by apply Ho|by apply perform_filing].
Qed.

(** *** Duplication *)

Lemma add_tags_ok fresh o n tags d : notes_ok_with P lower d -> notes_ok_with P lower (add_tags lower fresh o n tags d).2.
Proof.
  revert d. induction tags as [|t tags IH]; intros d Hok; cbn [add_tags]; [done|].
  pose proof (AddNoteTag_ok (fresh (length (t :: tags))) o n t d Hok) as H.
  destruct (AddNoteTag _ _ _ _ _ _) as [[]]; [by apply IH|done].
Qed.

Lemma add_folders_ok ls o n ids d : notes_ok_with P lower d -> notes_ok_with P lower (add_folders ls o n ids d).2.
Proof.
  revert d. induction ids as [|f ids IH]; intros d Hok; cbn [add_folders]; [done|].
  case_match; [by apply IH|]. pose proof (folder_op_ok (mkView [] []) (OpAddNote o n f) d) as Hf. cbn [perform_on] in Hf.
  rewrite AddNoteFolder_folders in Hf. specialize (Hf id Hok).
  destruct (AddNoteFolder _ _ _ _) as [[]]; [by apply IH|done].
Qed.

Lemma DuplicateNote_ok uuid fresh now o n d :
  notes_ok_with P lower d -> notes_ok_with P lower (DuplicateNote lower name_lt uuid fresh now o n d).2.
Proof.
  intros Hok. unfold DuplicateNote. destruct (GetNote _ _ _) as [orig|]; [|done].
  destruct (ListFolders _ _ _ _) as [fs|]; [|done].
  pose proof (create_ok uuid now o ("Copy of " ++ note_Title orig) d Hok) as H1.
  destruct (CreateNote _ _ _ _ _) as [[c|] d1]; [|done].
  pose proof (update_body_ok o (note_ID c) (NoteBody n d) d1 H1) as H2.
  destruct (UpdateNoteBody _ _ _ _) as [[] d2]; [|done].
  pose proof (add_tags_ok fresh o (note_ID c) (NoteTags lower name_lt n d) d2 H2) as H3.
  destruct (add_tags _ _ _ _ _ _) as [[] d3]; [|done].
  pose proof (add_folders_ok (list_to_set (map ID fs)) o (note_ID c) (NoteFolderIDs n (folder_db d)) d3 H3) as H4.
  by destruct (add_folders _ _ _ _ _) as [[] d4].
Qed.
End Invariant.

(** ** Histories *)

Inductive note_op :=
| NCreate (uuid : string) (now : Z) (o title : string)
| NDuplicate (uuid : string) (fresh : nat -> string) (now : Z) (o n : string)
| NStart (now : Z) (o n : string)
| NAudio (now : Z) (o n key : string)
| NTitle (now : Z) (o n title : string)
| NBody (o n content : string)
| NPinned (now : Z) (o n : string) (pinned : bool)
| NEvent (now : Z) (o n event : string)
| NClearEvent (now : Z) (o n : string)
| NStatus (now : Z) (n status : string)
| NClaim (now : Z) (n job : string)
| NRelease (now : Z) (n job prior : string)
| NReady (now : Z) (n : string)
| NHashes (now : Z) (n h h' : string)
| NHashesCurrent (now : Z) (n h h' : string) (gen : Z)
| NHashesOwner (now : Z) (o n h h' : string)
| NRetention (now : Z) (n state : string)
| NRetentionCurrent (now : Z) (n state : string) (gen : Z)
| NDiscard (now : Z) (n : string) (gen : Z) (deleteAudio : result store_error unit)
| NPartial (now : Z) (n : string) (partial : bool)
| NPartialCurrent (now : Z) (n : string) (partial : bool) (gen : Z)
| NDelete (now : Z) (endStream : result store_error unit) (o n : string)
| NRestore (now : Z) (o n : string)
| NPurge (o n : string)
| NPurgeExpired (now olderThan : Z)
| NAddTag (uuid o n name : string)
| NRemoveTag (o n name : string)
| NRenameTag (o tag name : string)
| NDeleteTag (o tag : string)
| NFolder (v : view) (op : folder_op).

Definition note_perform (lower : string -> string) (name_lt : string -> string -> bool) (op : note_op) (d : tables) : tables :=
  match op with
  | NCreate uuid now o title => (CreateNote uuid now o title d).2
  | NDuplicate uuid fresh now o n => (DuplicateNote lower name_lt uuid fresh now o n d).2
  | NStart now o n => (StartNoteCapture now o n d).2
  | NAudio now o n key => (SetNoteAudio now o n key d).2
  | NTitle now o n title => (UpdateNoteTitle now o n title d).2
  | NBody o n content => (UpdateNoteBody o n content d).2
  | NPinned now o n pinned => (SetNotePinned now o n pinned d).2
  | NEvent now o n event => (SetNoteEvent now o n event d).2
  | NClearEvent now o n => (ClearNoteEvent now o n d).2
  | NStatus now n status => (SetNoteStatus now n status d).2
  | NClaim now n job => (ClaimNoteForTranscription now n job d).2
  | NRelease now n job prior => ReleaseNoteTranscriptionClaim now n job prior d
  | NReady now n => (MarkNoteReady now n d).2
  | NHashes now n h h' => (SetNoteHashes now n h h' d).2
  | NHashesCurrent now n h h' gen => (SetNoteHashesIfCurrent now n h h' gen d).2
  | NHashesOwner now o n h h' => (SetNoteHashesForOwner now o n h h' d).2
  | NRetention now n state => SetRetentionState now n state d
  | NRetentionCurrent now n state gen => (SetRetentionStateIfCurrent now n state gen d).2
  | NDiscard now n gen deleteAudio => (SetRetentionStateDiscardedIfCurrent now n gen deleteAudio d).2
  | NPartial now n partial => SetNotePartialTranscript now n partial d
  | NPartialCurrent now n partial gen => (SetNotePartialTranscriptIfCurrent now n partial gen d).2
  | NDelete now endStream o n => (DeleteNote now endStream o n d).2
  | NRestore now o n => (RestoreNote now o n d).2
  | NPurge o n => (PurgeNote o n d).2
  | NPurgeExpired now olderThan => (PurgeExpired now olderThan d).2
  | NAddTag uuid o n name => (AddNoteTag lower uuid o n name d).2
  | NRemoveTag o n name => (RemoveNoteTag lower o n name d).2
  | NRenameTag o t name => (RenameTag lower o t name d).2
  | NDeleteTag o t => (DeleteTag o t d).2
  | NFolder v op => with_folder_db (perform_on lower name_lt v op (folder_db d)).2 d
  end.

Definition note_op_wf (op : note_op) : Prop := match op with NFolder _ op => op_wf op | _ => True end.

Fixpoint note_perform_all lower name_lt (ops : list note_op) (d : tables) : tables :=
  match ops with [] => d | op :: rest => note_perform_all lower name_lt rest (note_perform lower name_lt op d) end.

(** [Q] holds of each folder request and the folders it writes to. *)
Definition folder_step (Q : view -> folder_op -> list folder -> Prop) (op : note_op) (d : tables) : Prop :=
  match op with NFolder v o => Q v o (t_folders d) | _ => True end.

Fixpoint note_along lower name_lt Q (ops : list note_op) (d : tables) : Prop :=
  match ops with
  | [] => True
  | op :: rest => folder_step Q op d /\ note_along lower name_lt Q rest (note_perform lower name_lt op d)
  end.

Ltac keeps := let r := fresh in intros r; by destruct r.

Section History.
Variable lower : string -> string.
Variable name_lt : string -> string -> bool.

Section Step.
Variable P : list folder -> Prop.
Variable Q : view -> folder_op -> list folder -> Prop.
Hypothesis folders_step : forall v o x, op_wf o -> Q v o (folders x) -> P (folders x) -> P (folders (perform_on lower name_lt v o x).2).

Lemma keeps_update p g d :
  (forall r, row_id (g r) = row_id r /\ row_owner (g r) = row_owner r) ->
  notes_ok_with P lower d -> notes_ok_with P lower (with_notes (update_where p g (t_notes d)) d).
Proof. intros Hg. by apply notes_ok_update. Qed.

Lemma note_perform_ok op d :
  note_op_wf op -> folder_step Q op d -> notes_ok_with P lower d -> notes_ok_with P lower (note_perform lower name_lt op d).
Proof.
  intros Hop Hq Hok. destruct op; cbn [note_perform];
    try (apply update_notes_ok; [keeps|done]); try (apply keeps_update; [keeps|done]).
  - by apply create_ok.
  - by apply DuplicateNote_ok.
  - unfold StartNoteCapture. destruct (select_where _ _); [done|]. apply keeps_update; [keeps|done].
  - by apply update_body_ok.
  - unfold SetNoteEvent. case_match; [done|]. apply update_notes_ok; [keeps|done].
  - unfold ClaimNoteForTranscription. destruct (select_where _ _) as [|cur l]; [done|]. apply keeps_update; [|done].
    intros r. destruct (claimed_by job cur); by destruct r.
  - unfold SetRetentionStateDiscardedIfCurrent. destruct (negb _); [done|]. destruct deleteAudio; [|done]. apply keeps_update; [keeps|done].
  - unfold DeleteNote. destruct (update_notes _ _ _ _) as [[] d'] eqn:E; [|done]. destruct endStream; [|done].
    change (notes_ok_with P lower (Ok (E:=store_error) tt, d').2). cbn [snd]. replace d' with (update_notes
      (fun r => note_is n r && owned o r && row_live r) (fun r => touch now (set_trashed (Some now) r)) ErrNotFound d).2
      by by rewrite E.
    apply update_notes_ok; [keeps|done].
  - unfold PurgeNote. destruct (select_where _ _); [done|]. by apply delete_notes_ok.
  - by apply delete_notes_ok.
  - by apply AddNoteTag_ok.
  - by apply RemoveNoteTag_ok.
  - by apply RenameTag_ok.
  - by apply DeleteTag_ok.
  - apply folder_op_ok; [|done]. by apply (folders_step v op (folder_db d)).
Qed.

Lemma note_history_ok ops d :
  Forall note_op_wf ops -> note_along lower name_lt Q ops d ->
  notes_ok_with P lower d -> notes_ok_with P lower (note_perform_all lower name_lt ops d).
Proof.
  intros Hops. revert d. induction Hops as [|op ops Hop _ IH]; intros d; cbn; [done|].
  intros [Hq Hr] Hok. by apply IH, note_perform_ok.
Qed.
End Step.

(** C7. The note, tag and folder tables through any history of the operations
    of [notes.go], [tags.go] and [folders.go], each folder creation and move
    validated on folders of any age: every note has exactly one body; tag
    names are unique per owner without regard to case, never blank and at most
    64 runes; a note carries only its owner's tags, each once; filings are
    unique and refer to existing notes and folders while notes are created,
    purged and filed.  Of the folder table itself [rows_ok] holds always, and
    the forest of [folders_ok] as long as no request overtakes a parent check
    so as to change its answer before the write. *)
Theorem note_tables_invariant ops d :
  Forall note_op_wf ops ->
  (notes_ok_with (rows_ok lower) lower d -> note_along lower name_lt same_owners ops d ->
     notes_ok_with (rows_ok lower) lower (note_perform_all lower name_lt ops d)) /\
  (notes_ok lower d -> note_along lower name_lt undisturbed ops d ->
     notes_ok lower (note_perform_all lower name_lt ops d)).
Proof.
  intros Hops. split; intros Hok Hr.
  - apply (note_history_ok _ same_owners); [|done..]. intros v o x. apply perform_rows.
  - apply (note_history_ok _ undisturbed); [|done..]. intros v o x. apply perform_folders.
Qed.
End History.

(** ** Reading *)

(** [CanReadNote(requester, note)]. *)
Definition CanReadNote (requesterID : string) (d : tables) (r : note_row) : Prop :=
  row_owner r = requesterID \/
  exists m f, m ∈ t_filings d /\ f ∈ t_folders d /\ nf_note m = row_id r /\ f_id f = nf_folder m /\
    f_visibility f = FolderShared /\ f_deleted f = None.

(** A live folder the requester owns or that is shared. *)
Definition CanSeeFolder (requesterID : string) (t : list folder) (folderID : string) : Prop :=
  exists f, f ∈ t /\ f_id f = folderID /\ f_deleted f = None /\
    (f_owner f = requesterID \/ f_visibility f = FolderShared).

Lemma live_true f : live f = true <-> f_deleted f = None.
Proof. unfold live. by destruct (f_deleted f). Qed.

Lemma row_live_true r : row_live r = true <-> row_deleted r = None.
Proof. unfold row_live. by destruct (row_deleted r). Qed.

Lemma is_shared_true f : is_shared f = true <-> f_visibility f = FolderShared.
Proof. apply String.eqb_eq. Qed.

Lemma visible_spec req t i :
  exists_where (fun f => has_id i f && visible req f) t = true <-> CanSeeFolder req t i.
Proof.
  rewrite exists_where_true. unfold CanSeeFolder, visible. split; intros (f & Hf & H); exists f;
    rewrite !andb_true_iff, orb_true_iff, has_id_true, live_true, owned_by_true, is_shared_true in *; naive_solver.
Qed.

Lemma canRead_spec req d r : canRead req d r = true <-> CanReadNote req d r.
Proof.
  unfold canRead, CanReadNote, note_shared. rewrite orb_true_iff, owned_true, exists_where_true. f_equiv. split.
  - intros (m & Hm & [Hn%String.eqb_eq (f & Hf & Hc)%exists_where_true]%andb_true_iff). exists m, f.
    rewrite !andb_true_iff, has_id_true, live_true, is_shared_true in Hc. naive_solver.
  - intros (m & f & Hm & Hf & E1 & E2 & E3 & E4). exists m. split; [done|]. apply andb_true_iff.
    split; [by apply String.eqb_eq|]. apply exists_where_true. exists f. split; [done|].
    by rewrite !andb_true_iff, has_id_true, live_true, is_shared_true.
Qed.

Lemma select_elem {A} (q : A -> bool) t r l : select_where q t = r :: l -> r ∈ t /\ q r = true.
Proof. intros E. apply elem_of_select_where. rewrite E. left. Qed.

Lemma select_nil {A} (q : A -> bool) t r : select_where q t = [] -> r ∈ t -> q r = true -> False.
Proof. intros E Hr Hq. apply (elem_of_nil (A:=A) r). rewrite <- E. by apply elem_of_select_where. Qed.

Lemma readable_folders req n d i :
  i ∈ readableNoteFolderIDsTx req n (folder_db d) <->
  CanSeeFolder req (t_folders d) i /\ exists m, m ∈ t_filings d /\ nf_note m = n /\ nf_folder m = i.
Proof.
  unfold readableNoteFolderIDsTx. rewrite list_elem_of_fmap. unfold readable_membership.
  setoid_rewrite elem_of_select_where. setoid_rewrite andb_true_iff. setoid_rewrite String.eqb_eq. split.
  - intros (m & -> & Hm & E & Hv%visible_spec). eauto.
  - intros (Hv & m & Hm & E1 & E2). exists m. subst. split_and!; try done. by apply visible_spec.
Qed.

Section Reading.
Variable lower : string -> string.
Variable name_lt : string -> string -> bool.

(** Reading a note is exactly [CanReadNote]: [GetReadableNote] succeeds if
    and only if the note is live and the requester owns it or it lies in a
    live shared folder; otherwise the answer is [ErrNotFound], as for a note
    that does not exist.  The folder ids it reveals are the note's folders the
    requester can see, and [IsOwner] is right. *)
Theorem GetReadableNote_exact req id d :
  match GetReadableNote lower name_lt req id d with
  | Ok n => exists r, r ∈ t_notes d /\ row_id r = id /\ row_deleted r = None /\ CanReadNote req d r /\
      note_ID n = id /\ note_Title n = row_title r /\ note_OwnerID n = row_owner r /\
      (note_IsOwner n = Some true <-> row_owner r = req) /\
      forall i, i ∈ FolderIDs n <-> CanSeeFolder req (t_folders d) i /\ exists m, m ∈ t_filings d /\ nf_note m = id /\ nf_folder m = i
  | Err e => e = ErrNotFound /\
      forall r, r ∈ t_notes d -> row_id r = id -> row_deleted r = None -> ~ CanReadNote req d r
  end.
Proof.
  unfold GetReadableNote, getReadableNoteTx.
  destruct (select_where _ _) as [|r l] eqn:Es; cbn [result_bind].
  - split; [done|]. intros r Hr Hid Hl Hc. apply (select_nil _ _ r Es Hr).
    by rewrite !andb_true_iff, note_is_true, row_live_true, canRead_spec.
  - apply select_elem in Es as [Hr [[Hid%note_is_true Hl%row_live_true]%andb_true_iff Hc%canRead_spec]%andb_true_iff].
    exists r. split_and!; try done; cbn [note_IsOwner with_payload FolderIDs].
    + rewrite <- owned_true. split; [by intros [= ->]|by intros ->].
    + intros i. apply readable_folders.
Qed.

(** *** Lists *)

Lemma group_elem rows n i :
  i ∈ default [] (group_by_note rows !! n) <-> exists m, m ∈ rows /\ nf_note m = n /\ nf_folder m = i.
Proof.
  unfold group_by_note. induction rows as [|m rows IH] using rev_ind.
  { cbn. rewrite lookup_empty. cbn. split; [by intros ?%elem_of_nil|by intros (? & ?%elem_of_nil & _)]. }
  rewrite fold_left_app. cbn [fold_left]. setoid_rewrite elem_of_app. setoid_rewrite list_elem_of_singleton.
  destruct (decide (nf_note m = n)) as [<-|Hne].
  - rewrite lookup_insert_eq. cbn [default from_option id]. rewrite elem_of_app, list_elem_of_singleton, IH. split.
    + intros [(m' & ? & ? & ?)| ->]; [exists m'|exists m]; auto.
    + intros (m' & [Hm'| ->] & E & <-); [left; eauto|by right].
  - rewrite lookup_insert_ne by done. rewrite IH. split; intros (m' & Hm' & E & E'); exists m'; [auto|].
    destruct Hm' as [?| ->]; auto. done.
Qed.

Lemma filed_in_elem fid d rows p r :
  (p, r) ∈ filed_in fid d rows <->
  r ∈ rows /\ exists m, m ∈ t_filings d /\ nf_note m = row_id r /\ nf_folder m = fid /\ p = nf_position m.
Proof.
  unfold filed_in. rewrite elem_of_flat_map. setoid_rewrite list_elem_of_fmap. setoid_rewrite elem_of_select_where.
  unfold membership. setoid_rewrite andb_true_iff. setoid_rewrite String.eqb_eq. split.
  - intros (r' & Hr & m & [= -> ->] & Hm & E1 & E2). eauto 10.
  - intros (Hr & m & Hm & E1 & E2 & ->). exists r. split; [done|]. exists m. done.
Qed.

(** A note is filed in a folder at most once, so no list repeats it. *)
Lemma list_rows_NoDup f d q :
  notes_ok lower d -> NoDup (map row_id (list_rows f d (select_where q (t_notes d)))).
Proof.
  intros (Hids & _ & _ & _ & [_ (_ & Hk & _)]). unfold list_rows. rewrite map_map.
  assert (Hs : NoDup (map row_id (select_where q (t_notes d)))) by by apply NoDup_map_filter.
  rewrite (Permutation_map _ (order_by_perm _ _)). destruct (FolderIDSet f).
  2: { rewrite map_map. cbn [snd]. by change (NoDup (map row_id (select_where q (t_notes d)))). }
  revert Hs. cbn in Hk. induction (select_where q (t_notes d)) as [|r rows IH]; cbn; [constructor|].
  intros [Hr Hnd]%NoDup_cons. rewrite map_app. apply NoDup_app. split_and!; [| |by apply IH].
  - rewrite map_map. cbn [snd]. clear -Hk. revert Hk. induction (t_filings d) as [|m ms IH]; cbn; [constructor|].
    intros [Hm Hk]%NoDup_cons. case_match eqn:Em; [|by apply IH]. cbn. apply NoDup_cons. split; [|by apply IH].
    apply andb_true_iff in Em as [E1%String.eqb_eq E2%String.eqb_eq].
    intros (m' & _ & [Hm' [E1'%String.eqb_eq E2'%String.eqb_eq]%andb_true_iff]%elem_of_select_where)%list_elem_of_fmap.
    apply Hm, list_elem_of_fmap. exists m'. split; [congruence|done].
  - rewrite map_map. cbn [snd]. intros i (m & -> & _)%list_elem_of_fmap ([p r'] & E & [Hr' _]%filed_in_elem)%list_elem_of_fmap.
    apply Hr, list_elem_of_fmap. exists r'. done.
Qed.

Lemma list_rows_elem f d rows r :
  r ∈ list_rows f d rows <-> r ∈ rows /\
    (FolderIDSet f = true -> exists m, m ∈ t_filings d /\ nf_note m = row_id r /\ nf_folder m = f_FolderID f).
Proof.
  unfold list_rows. rewrite list_elem_of_fmap. setoid_rewrite elem_of_order_by. destruct (FolderIDSet f).
  - split.
    + intros ([p r'] & -> & (Hr & m & Hm & E1 & E2 & _)%filed_in_elem). split; [done|]. eauto.
    + intros [Hr Hm]. destruct (Hm eq_refl) as (m & ? & ? & ?). exists (nf_position m, r). split; [done|].
      apply filed_in_elem. split; [done|]. eauto.
  - split; [|intros [Hr _]; exists (0%Z, r); split; [done|by apply list_elem_of_fmap; eauto]].
    intros (x & -> & (r' & -> & Hr)%list_elem_of_fmap). done.
Qed.

(** A folder's list is authorised by the snapshot it is loaded from:
    whatever the preliminary check saw before, the notes returned are exactly
    the live notes filed in the folder that pass the filter, and none at all
    if the requester cannot see the folder in that snapshot.  No note is
    listed twice, [IsOwner] is right, and no note reveals a folder the
    requester cannot see. *)
Theorem ListReadableNotes_exact seen req f d :
  notes_ok lower d -> NoDup (map f_id seen) ->
  match ListReadableNotes_on lower name_lt seen req f d with
  | Err e => e = ErrNotFound /\ (FolderIDSet f = true -> ~ CanSeeFolder req seen (f_FolderID f))
  | Ok ns =>
      NoDup (map note_ID ns) /\
      (forall i, i ∈ map note_ID ns <-> CanSeeFolder req (t_folders d) (f_FolderID f) /\
         exists r m, r ∈ t_notes d /\ m ∈ t_filings d /\ row_id r = i /\ nf_note m = i /\
           nf_folder m = f_FolderID f /\ readableNoteFilterSQL lower f d r = true) /\
      forall n, n ∈ ns -> (note_IsOwner n = Some true <-> note_OwnerID n = req) /\
        forall i, i ∈ FolderIDs n -> CanSeeFolder req (t_folders d) i
  end.
Proof.
  intros Hok Hseen. unfold ListReadableNotes_on. destruct (FolderIDSet f) eqn:Ef; cbn [negb]; [|done].
  destruct (select_where _ seen) as [|g l] eqn:Es.
  { split; [done|]. intros _ (g & Hg & Hid & Hl & _). apply (select_nil _ _ g Es Hg).
    by rewrite andb_true_iff, has_id_true, live_true. }
  apply select_elem in Es as [Hg [Hid%has_id_true Hl%live_true]%andb_true_iff]. destruct (_ && _) eqn:Ev.
  { split; [done|]. intros _ (g' & Hg' & Hid' & _ & Hv).
    assert (g' = g) as -> by (apply (key_unique f_id seen); congruence).
    apply andb_true_iff in Ev as [Hno%negb_true_iff%not_true_iff_false Hns%negb_true_iff%not_true_iff_false].
    rewrite owned_by_true in Hno. rewrite is_shared_true in Hns. naive_solver. }
  clear Hid Hl Ev Hg g l. set (rows := if exists_where _ _ then list_rows f d _ else []). split_and!.
  - rewrite map_map. cbn [note_ID scan_listed]. unfold rows. case_match; [by apply list_rows_NoDup|constructor].
  - intros i. rewrite map_map. cbn [note_ID scan_listed]. rewrite list_elem_of_fmap, <- visible_spec. unfold rows.
    destruct (exists_where _ _); [|split; [by intros (? & _ & ?%elem_of_nil)|by intros []]].
    setoid_rewrite list_rows_elem. setoid_rewrite elem_of_select_where. split.
    + intros (r & -> & [Hr Hq] & Hm). destruct (Hm Ef) as (m & ? & ? & ?). split; [done|]. eauto 10.
    + intros (_ & r & m & Hr & Hm & <- & E1 & E2 & Hq). exists r. eauto 10.
  - intros n (r & -> & Hr)%list_elem_of_fmap. cbn [note_IsOwner note_OwnerID scan_listed FolderIDs]. split.
    + rewrite <- owned_true. split; [by intros [= ->]|by intros ->].
    + intros i (m & [Hm [_ Hv]%andb_true_iff]%elem_of_select_where & _ & <-)%group_elem. by apply visible_spec.
Qed.
End Reading.

(** ** The worker's writes *)

Definition unique_notes (d : tables) : Prop := NoDup (map row_id (t_notes d)).

Definition note_at (id : string) (d : tables) : option note_row := head (select_where (note_is id) (t_notes d)).

Lemma note_at_elem id d r : note_at id d = Some r -> r ∈ t_notes d /\ row_id r = id.
Proof.
  unfold note_at. destruct (select_where _ _) eqn:E; [done|]. intros [= ->].
  apply select_elem in E as [? ?%note_is_true]. done.
Qed.

Lemma note_at_intro id d r : NoDup (map row_id (t_notes d)) -> r ∈ t_notes d -> row_id r = id -> note_at id d = Some r.
Proof.
  intros Hnd Hr <-. unfold note_at. by rewrite (select_note d Hnd _ r) by (try apply note_is_self; done).
Qed.

Lemma note_at_none id d r : note_at id d = None -> r ∈ t_notes d -> row_id r <> id.
Proof.
  unfold note_at. destruct (select_where _ _) eqn:E; [|done]. intros _ Hr Hid. apply (select_nil _ _ r E Hr). by apply note_is_true.
Qed.

(** What an [UPDATE] does to one note. *)
Lemma note_at_update id p g d :
  (forall r, row_id (g r) = row_id r) ->
  note_at id (with_notes (update_where p g (t_notes d)) d) = (fun r => if p r then g r else r) <$> note_at id d.
Proof.
  intros Hg. unfold note_at. cbn. unfold select_where, update_where. induction (t_notes d) as [|r t IH]; cbn; [done|].
  assert (E : note_is id (if p r then g r else r) = note_is id r) by (unfold note_is; destruct (p r); by rewrite ?Hg).
  rewrite E. destruct (note_is id r); cbn; [done|apply IH].
Qed.

Ltac keeps_id := let r := fresh in intros r; by destruct r.

(** An [UPDATE] that matches no row leaves the tables. *)
Lemma update_none p g d : (forall r, r ∈ t_notes d -> p r = false) -> with_notes (update_where p g (t_notes d)) d = d.
Proof.
  intros H. rewrite update_where_none; [by destruct d|]. unfold rows_affected.
  change (length (select_where p (t_notes d)) = 0%nat). by rewrite select_none.
Qed.

Lemma ClaimNote_at now n j d cur :
  note_at n d = Some cur ->
  (ClaimNoteForTranscription now n j d).1 = Ok (if claimed_by j cur then "" else row_status cur) /\
  forall i, note_at i (ClaimNoteForTranscription now n j d).2 =
    (fun r => if note_is n r then touch now (set_job (Some j) (if claimed_by j cur then r else set_status NoteTranscribing r))
              else r) <$> note_at i d.
Proof.
  unfold note_at, ClaimNoteForTranscription. destruct (select_where (note_is n) _) as [|c l] eqn:E; [done|]. intros [= ->].
  split; [done|]. intros i. cbn [snd].
  apply (note_at_update i (note_is n)
    (fun r => touch now (set_job (Some j) (if claimed_by j cur then r else set_status NoteTranscribing r)))).
  intros r. destruct (claimed_by j cur); by destruct r.
Qed.

Lemma Release_at now n j prior d i :
  note_at i (ReleaseNoteTranscriptionClaim now n j prior d) =
  (fun r => if note_is n r && status_is NoteTranscribing r && claimed_by j r
            then touch now (set_job None (set_status prior r)) else r) <$> note_at i d.
Proof. apply note_at_update. keeps_id. Qed.

(** A transcribe job's claim can be undone.  A first claim returns the note's
    status and stores [transcribing] with the job's id; a claim repeated by
    the same job returns the empty string and leaves both.  Whatever happened
    in between, a release with the first claim's answer restores that status
    if the job's claim still stands, and otherwise changes nothing.  Other
    notes are never touched. *)
Theorem claim_release n j now d r :
  note_at n d = Some r -> row_job r <> Some j ->
  (ClaimNoteForTranscription now n j d).1 = Ok (row_status r) /\
  (exists r1, note_at n (ClaimNoteForTranscription now n j d).2 = Some r1 /\
     row_status r1 = NoteTranscribing /\ row_job r1 = Some j) /\
  (forall d' r' now', note_at n d' = Some r' -> row_status r' = NoteTranscribing -> row_job r' = Some j ->
     (ClaimNoteForTranscription now' n j d').1 = Ok "" /\
     note_at n (ClaimNoteForTranscription now' n j d').2 = Some (touch now' r') /\
     note_at n (ReleaseNoteTranscriptionClaim now' n j (row_status r) d')
       = Some (touch now' (set_job None (set_status (row_status r) r')))) /\
  (forall d' now', unique_notes d' -> (forall r', note_at n d' = Some r' ->
       ~ (row_status r' = NoteTranscribing /\ row_job r' = Some j)) ->
     ReleaseNoteTranscriptionClaim now' n j (row_status r) d' = d') /\
  (forall i, i <> n -> note_at i (ClaimNoteForTranscription now n j d).2 = note_at i d).
Proof.
  intros Hr Hj. destruct (ClaimNote_at now n j d r Hr) as [E1 E2].
  assert (Hc : claimed_by j r = false) by by apply bool_decide_eq_false. rewrite Hc in E1, E2.
  assert (Hn : note_is n r = true) by (apply note_is_true; by apply note_at_elem in Hr as [_ ?]).
  split_and!; [done| | | |].
  - rewrite E2, Hr. cbn. rewrite Hn. eexists. split; [done|]. by destruct r.
  - intros d' r' now' Hr' Es Ej. destruct (ClaimNote_at now' n j d' r' Hr') as [E1' E2'].
    assert (Hc' : claimed_by j r' = true) by by apply bool_decide_eq_true. rewrite Hc' in E1', E2'.
    assert (Hn' : note_is n r' = true) by (apply note_is_true; by apply note_at_elem in Hr' as [_ ?]).
    split_and!; [done| |].
    + rewrite E2', Hr'. cbn. rewrite Hn'. destruct r'. cbn in *. by subst.
    + rewrite Release_at, Hr'. cbn. unfold status_is. by rewrite Hn', Es, Hc', String.eqb_refl.
  - intros d' now' Hnd Hno. apply update_none. intros x Hx. apply not_true_iff_false.
    rewrite !andb_true_iff, note_is_true. unfold status_is, claimed_by. rewrite String.eqb_eq, bool_decide_eq_true.
    intros [[Hid Hs] Hjob]. apply (Hno x); [by apply note_at_intro|done].
  - intros i Hi. rewrite E2. destruct (note_at i d) as [x|] eqn:Ex; [|done]. cbn. apply note_at_elem in Ex as [_ Hx].
    destruct (note_is n x) eqn:En; [|done]. apply note_is_true in En. congruence.
Qed.

(** Any number of finalize calls, each at its own time. *)
Fixpoint finalize (n : string) (nows : list Z) (d : tables) : list bool * tables :=
  match nows with
  | [] => ([], d)
  | now :: rest => let '(won, d1) := MarkNoteReady now n d in
                   let '(wins, d2) := finalize n rest d1 in (won :: wins, d2)
  end.

Lemma MarkNoteReady_loses now n d :
  unique_notes d -> (forall r, note_at n d = Some r -> row_status r = NoteReady) -> MarkNoteReady now n d = (false, d).
Proof.
  intros Hnd Hr. unfold MarkNoteReady. assert (H : forall r, r ∈ t_notes d ->
    note_is n r && negb (status_is NoteReady r) = false).
  { intros x Hx. apply not_true_iff_false. intros [Hid%note_is_true Hs%negb_true_iff%String.eqb_neq]%andb_true_iff.
    apply Hs, Hr. by apply note_at_intro. }
  rewrite update_none by done. f_equal. unfold rows_affected.
  fold (select_where (fun r => note_is n r && negb (status_is NoteReady r)) (t_notes d)). by rewrite select_none.
Qed.

Lemma MarkNoteReady_wins now n d r :
  unique_notes d -> note_at n d = Some r -> row_status r <> NoteReady ->
  (MarkNoteReady now n d).1 = true /\ unique_notes (MarkNoteReady now n d).2 /\
  note_at n (MarkNoteReady now n d).2 = Some (touch now (set_status NoteReady r)).
Proof.
  intros Hnd Hr Hs. destruct (note_at_elem _ _ _ Hr) as [Hin Hid].
  assert (Hq : note_is n r && negb (status_is NoteReady r) = true).
  { apply andb_true_iff. split; [by apply note_is_true|]. by apply negb_true_iff, String.eqb_neq. }
  unfold MarkNoteReady. split_and!; cbn [fst snd].
  - unfold rows_affected. fold (select_where (fun r => note_is n r && negb (status_is NoteReady r)) (t_notes d)).
    rewrite (select_key row_id _ _ r Hnd Hin Hq); [done|]. intros x _ [Hx%note_is_true _]%andb_true_iff. congruence.
  - unfold unique_notes. cbn. rewrite map_update_where by keeps_id. done.
  - rewrite note_at_update by keeps_id. rewrite Hr. cbn. by rewrite Hq.
Qed.

(** However many finalize calls race, exactly one is told that it performed
    the transition to [ready], and none if the note was ready already or does
    not exist; and the note ends up ready. *)
Theorem ready_won_once n nows d :
  unique_notes d -> nows <> [] ->
  (forall r, note_at n d = Some r -> row_status r <> NoteReady ->
     (finalize n nows d).1 = true :: replicate (length nows - 1) false) /\
  ((forall r, note_at n d = Some r -> row_status r = NoteReady) ->
     (finalize n nows d).1 = replicate (length nows) false) /\
  (forall r, note_at n d = Some r -> exists r', note_at n (finalize n nows d).2 = Some r' /\ row_status r' = NoteReady).
Proof.
  assert (Hlose : forall nows d, unique_notes d -> (forall r, note_at n d = Some r -> row_status r = NoteReady) ->
    finalize n nows d = (replicate (length nows) false, d)).
  { clear. intros nows d Hok Hr. induction nows as [|now nows IH]; cbn [finalize]; [done|].
    rewrite MarkNoteReady_loses by done. by rewrite IH. }
  intros Hok Hne. destruct nows as [|now nows]; [done|].
  assert (Hwin : forall r, note_at n d = Some r -> row_status r <> NoteReady -> exists d1, finalize n (now :: nows) d =
    (true :: replicate (length nows) false, d1) /\ note_at n d1 = Some (touch now (set_status NoteReady r))).
  { intros r Hr Hs. destruct (MarkNoteReady_wins now n d r Hok Hr Hs) as (E1 & Hok' & E2). cbn [finalize].
    destruct (MarkNoteReady now n d) as [won d1]. cbn [fst snd] in *. subst won. exists d1. rewrite Hlose; [done..|].
    intros r1 Hr1. rewrite E2 in Hr1. injection Hr1 as <-. by destruct r. }
  split_and!.
  - intros r Hr Hs. destruct (Hwin r Hr Hs) as (d1 & -> & _). cbn [fst length]. by rewrite Nat.sub_succ, Nat.sub_0_r.
  - intros Hr. by rewrite Hlose.
  - intros r Hr. destruct (decide (row_status r = NoteReady)) as [E|Hs].
    + rewrite Hlose; [eauto|done|]. intros r' Hr'. congruence.
    + destruct (Hwin r Hr Hs) as (d1 & -> & H1). eexists. split; [exact H1|]. by destruct r.
Qed.

(** ** Writes fenced by the transcript's generation *)

(** The note's current generation; 0 without a transcript. *)
Definition generation_of (n : string) (d : tables) : Z :=
  match select_where (fun t => (tr_note t =? n)%string) (t_transcripts d) with [] => 0%Z | t :: _ => tr_generation t end.

Lemma generation_is_of gen d r :
  NoDup (map tr_note (t_transcripts d)) ->
  generation_is gen d r = true <->
  generation_of (row_id r) d = gen /\ row_id r ∈ map tr_note (t_transcripts d).
Proof.
  intros Hnd. unfold generation_is, generation_of. rewrite exists_where_true.
  assert (Hsel : forall t, t ∈ t_transcripts d -> tr_note t = row_id r ->
    select_where (fun t => (tr_note t =? row_id r)%string) (t_transcripts d) = [t]).
  { intros t Ht E. apply (select_key tr_note); [done..|by apply String.eqb_eq|].
    intros x _ Hx%String.eqb_eq. congruence. }
  split.
  - intros (t & Ht & [E%String.eqb_eq Eg%Z.eqb_eq]%andb_true_iff). rewrite (Hsel t) by done. split; [done|].
    apply list_elem_of_fmap. eauto.
  - intros [Eg (t & E & Ht)%list_elem_of_fmap]. rewrite (Hsel t) in Eg by done. exists t. split; [done|].
    by rewrite E, String.eqb_refl, Eg, Z.eqb_refl.
Qed.

Lemma update_notes_none p g e d : (forall r, r ∈ t_notes d -> p r = false) -> update_notes p g e d = (Err e, d).
Proof.
  intros H. unfold update_notes, rows_affected. fold (select_where p (t_notes d)). by rewrite select_none.
Qed.

(** An [UPDATE] of one note by id under a condition that holds of it. *)
Lemma update_notes_one (c : note_row -> bool) g e n d r :
  (forall r, row_id (g r) = row_id r) -> note_at n d = Some r -> c r = true ->
  exists d', update_notes (fun r => note_is n r && c r) g e d = (Ok tt, d') /\ note_at n d' = Some (g r) /\
    forall i, i <> n -> note_at i d' = note_at i d.
Proof.
  intros Hg Hr Hc. destruct (note_at_elem _ _ _ Hr) as [Hin Hid]. unfold update_notes.
  assert (Hn : note_is n r = true) by by apply note_is_true.
  assert (Hpos : (0 < rows_affected (fun r => note_is n r && c r) (t_notes d))%nat)
    by (apply rows_affected_pos; exists r; by rewrite Hn, Hc).
  destruct (Nat.eqb_spec (rows_affected (fun r => note_is n r && c r) (t_notes d)) 0) as [E|_]; [lia|].
  eexists. split_and!; [done| |].
  - rewrite note_at_update by done. rewrite Hr. cbn. by rewrite Hn, Hc.
  - intros i Hi. rewrite note_at_update by done. destruct (note_at i d) as [x|] eqn:Ex; [|done]. cbn.
    apply note_at_elem in Ex as [_ Hx]. destruct (note_is n x) eqn:En; [|done]. apply note_is_true in En. congruence.
Qed.

(** A worker's write that is bound to a transcript generation is a no-op once
    the transcript has moved on: it fails with [ErrGenerationMismatch], the
    tables stay as they were and the audio is not deleted.  While the
    generation is current it writes exactly its columns of exactly that note;
    and ["discarded"] is recorded only after the audio was deleted. *)
Theorem generation_fence now n gen h h' state partial del d :
  NoDup (map tr_note (t_transcripts d)) ->
  (generation_of n d <> gen ->
     SetNoteHashesIfCurrent now n h h' gen d = (Err ErrGenerationMismatch, d) /\
     SetRetentionStateIfCurrent now n state gen d = (Err ErrGenerationMismatch, d) /\
     SetNotePartialTranscriptIfCurrent now n partial gen d = (Err ErrGenerationMismatch, d) /\
     SetRetentionStateDiscardedIfCurrent now n gen del d = (Err ErrGenerationMismatch, false, d)) /\
  (forall r, generation_of n d = gen -> n ∈ map tr_note (t_transcripts d) -> note_at n d = Some r ->
     (exists d', SetNoteHashesIfCurrent now n h h' gen d = (Ok tt, d') /\
        note_at n d' = Some (touch now (set_hashes h h' r)) /\ forall i, i <> n -> note_at i d' = note_at i d) /\
     (exists d', SetRetentionStateIfCurrent now n state gen d = (Ok tt, d') /\
        note_at n d' = Some (touch now (set_retention state r)) /\ forall i, i <> n -> note_at i d' = note_at i d) /\
     (exists d', SetNotePartialTranscriptIfCurrent now n partial gen d = (Ok tt, d') /\
        note_at n d' = Some (touch now (set_partial partial r)) /\ forall i, i <> n -> note_at i d' = note_at i d) /\
     match del with
     | Err e => SetRetentionStateDiscardedIfCurrent now n gen del d = (Err e, true, d)
     | Ok _ => exists d', SetRetentionStateDiscardedIfCurrent now n gen del d = (Ok tt, true, d') /\
         note_at n d' = Some (touch now (set_retention "discarded" r))
     end).
Proof.
  intros Hnd. split.
  - intros Hgen. assert (Hno : forall r, r ∈ t_notes d -> note_is n r && generation_is gen d r = false).
    { intros r _. apply not_true_iff_false. intros [<-%note_is_true [E _]%generation_is_of]%andb_true_iff; done. }
    split_and!; [by apply update_notes_none..|]. unfold SetRetentionStateDiscardedIfCurrent.
    fold (generation_of n d). by rewrite (proj2 (Z.eqb_neq _ _) Hgen).
  - intros r Hgen Hin Hr. assert (Hc : generation_is gen d r = true).
    { apply generation_is_of; [done|]. apply note_at_elem in Hr as [_ ->]. done. }
    split_and!.
    { by apply (update_notes_one (generation_is gen d) (fun r => touch now (set_hashes h h' r))); [keeps_id|..]. }
    { by apply (update_notes_one (generation_is gen d) (fun r => touch now (set_retention state r))); [keeps_id|..]. }
    { by apply (update_notes_one (generation_is gen d) (fun r => touch now (set_partial partial r))); [keeps_id|..]. }
    unfold SetRetentionStateDiscardedIfCurrent. fold (generation_of n d). rewrite Hgen, Z.eqb_refl. cbn [negb].
    destruct del as [u|e]; [|done]. eexists. split; [done|]. rewrite note_at_update by keeps_id. rewrite Hr. cbn.
    apply note_at_elem in Hr as [_ Hid]. by rewrite (proj2 (note_is_true n r) Hid).
Qed.

(** ** The trash *)

Definition trash_row (now : Z) (r : note_row) : note_row := touch now (set_trashed (Some now) r).

(** [DeleteNote]'s statement is the update of one row. *)
Lemma DeleteNote_one now o n d r :
  unique_notes d -> note_at n d = Some r -> row_owner r = o -> row_deleted r = None ->
  DeleteNote now (Ok tt) o n d = (Ok tt, with_notes (update_where (note_is n) (trash_row now) (t_notes d)) d) /\
  forall e, DeleteNote now (Err e) o n d = (Err e, d).
Proof.
  intros Hnd Hr Ho Hl. destruct (note_at_elem _ _ _ Hr) as [Hin Hid]. unfold DeleteNote, update_notes.
  assert (Hq : note_is n r && owned o r && row_live r = true)
    by (by rewrite !andb_true_iff, note_is_true, owned_true, row_live_true).
  assert (Hpos : (0 < rows_affected (fun r => note_is n r && owned o r && row_live r) (t_notes d))%nat)
    by (apply rows_affected_pos; eauto).
  destruct (Nat.eqb_spec (rows_affected (fun r => note_is n r && owned o r && row_live r) (t_notes d)) 0); [lia|].
  split; [|done]. do 2 f_equal. unfold update_where. apply map_ext_in. intros x Hx%list_elem_of_In.
  destruct (note_is n x) eqn:En; [|done]. apply note_is_true in En.
  assert (x = r) as -> by (apply (note_unique d Hnd); congruence).
  apply andb_true_iff in Hq as [[_ ->]%andb_true_iff ->]. done.
Qed.

Lemma trashed_not_live now n d x :
  x ∈ t_notes (with_notes (update_where (note_is n) (trash_row now) (t_notes d)) d) -> row_id x = n -> row_live x = false.
Proof.
  intros (r & Hr & ->)%elem_of_update_where. destruct (note_is n r) eqn:En; [by destruct r|].
  intros Hid%note_is_true. congruence.
Qed.

Lemma common_filter_live lower f d r : common_filter lower f d r = true -> row_live r = true.
Proof. unfold common_filter. rewrite !andb_true_iff. by intros [[[[? _] _] _] _]. Qed.

(** Restoring a note trashed at [now] undoes the trashing. *)
Lemma RestoreNote_undoes now now' o n d r :
  unique_notes d -> note_at n d = Some r -> row_owner r = o -> row_deleted r = None ->
  RestoreNote now' o n (with_notes (update_where (note_is n) (trash_row now) (t_notes d)) d) =
  (Ok tt, with_notes (update_where (note_is n) (touch now') (t_notes d)) d).
Proof.
  intros Hnd Hr Ho Hl. destruct (note_at_elem _ _ _ Hr) as [Hin Hid]. unfold RestoreNote, update_notes.
  set (p := fun r => note_is n r && owned o r && row_trashed r). set (d1 := with_notes _ d).
  assert (Hq : p (trash_row now r) = true)
    by (unfold p; rewrite !andb_true_iff, note_is_true, owned_true; destruct r; cbn in *; by subst).
  assert (Hpos : (0 < rows_affected p (t_notes d1))%nat).
  { apply rows_affected_pos. exists (trash_row now r). split; [|done]. apply elem_of_update_where. exists r.
    split; [done|]. by rewrite (proj2 (note_is_true n r) Hid). }
  destruct (Nat.eqb_spec (rows_affected p (t_notes d1)) 0); [lia|].
  f_equal. unfold d1, with_notes. cbn. f_equal. unfold update_where. rewrite map_map. apply map_ext_in.
  intros x Hx%list_elem_of_In. destruct (note_is n x) eqn:En.
  - assert (x = r) as -> by (apply (note_unique d Hnd); [done..|]; apply note_is_true in En; congruence).
    rewrite Hq. destruct r. cbn in *. by subst.
  - unfold p. by rewrite En.
Qed.

Section Trash.
Variable lower : string -> string.
Variable name_lt : string -> string -> bool.

(** The trash hides and gives back.  Trashing a live note (ending its live
    stream included; if that fails nothing changes) removes it from every
    read, for its owner too, except the owner's trash; the worker skips it;
    restoring it gives back the tables as they were, but for [updated_at].  A
    live note cannot be purged. *)
Theorem trash_roundtrip now now' o n d r :
  unique_notes d -> note_at n d = Some r -> row_owner r = o -> row_deleted r = None ->
  (forall e, DeleteNote now (Err e) o n d = (Err e, d)) /\
  PurgeNote o n d = (Err ErrNotFound, d) /\
  exists d1, DeleteNote now (Ok tt) o n d = (Ok tt, d1) /\
    GetNote o n d1 = Err ErrNotFound /\ GetNoteAdmin n d1 = Err ErrNotFound /\ NoteIsTrashed n d1 = true /\
    (forall req, GetReadableNote lower name_lt req n d1 = Err ErrNotFound) /\
    (forall o' f, n ∉ map note_ID (ListNotes lower name_lt o' f d1)) /\
    (forall seen req f ns, ListReadableNotes_on lower name_lt seen req f d1 = Ok ns -> n ∉ map note_ID ns) /\
    n ∈ map note_ID (ListTrash lower name_lt o d1) /\
    RestoreNote now' o n d1 = (Ok tt, with_notes (update_where (note_is n) (touch now') (t_notes d)) d).
Proof.
  intros Hnd Hr Ho Hl. destruct (DeleteNote_one now o n d r Hnd Hr Ho Hl) as [HD HE].
  destruct (note_at_elem _ _ _ Hr) as [Hin Hid]. split; [done|]. split.
  { unfold PurgeNote. rewrite select_none; [done|]. intros x Hx. apply not_true_iff_false.
    rewrite !andb_true_iff, note_is_true. intros [[Hxn _] Ht].
    assert (x = r) as -> by (apply (note_unique d Hnd); congruence). rewrite row_trashed_live in Ht.
    by rewrite (proj2 (row_live_true r) Hl) in Ht. }
  eexists. split; [exact HD|]. set (d1 := with_notes _ d).
  assert (Hdead : forall x, x ∈ t_notes d1 -> row_id x = n -> row_live x = false) by apply trashed_not_live.
  assert (H1 : note_at n d1 = Some (trash_row now r)).
  { unfold d1. rewrite note_at_update by keeps_id. rewrite Hr. cbn. by rewrite (proj2 (note_is_true n r) Hid). }
  assert (Hlist : forall f q, (forall x, q x = true -> row_live x = true) ->
      n ∉ map row_id (list_rows f d1 (select_where q (t_notes d1)))).
  { intros f q Hq (x & E & [[Hx Hqx]%elem_of_select_where _]%list_rows_elem)%list_elem_of_fmap.
    apply Hq in Hqx. by rewrite (Hdead x) in Hqx. }
  split_and!.
  - unfold GetNote. rewrite select_none; [done|]. intros x Hx. apply not_true_iff_false.
    rewrite !andb_true_iff, note_is_true. intros [[E _] Hlx]. by rewrite (Hdead x) in Hlx.
  - unfold GetNoteAdmin. rewrite select_none; [done|]. intros x Hx. apply not_true_iff_false.
    rewrite !andb_true_iff, note_is_true. intros [E Hlx]. by rewrite (Hdead x) in Hlx.
  - unfold NoteIsTrashed. unfold note_at in H1. destruct (select_where _ _); [done|]. injection H1 as ->. by destruct r.
  - intros req. unfold GetReadableNote, getReadableNoteTx. rewrite select_none; [done|]. intros x Hx.
    apply not_true_iff_false. rewrite !andb_true_iff, note_is_true. intros [[E Hlx] _]. by rewrite (Hdead x) in Hlx.
  - intros o' f. unfold ListNotes. rewrite map_map. cbn [note_ID scan_listed]. apply Hlist. intros x.
    unfold noteFilterSQL. by intros [[_ Hx%common_filter_live]%andb_true_iff _]%andb_true_iff.
  - intros seen req f ns. unfold ListReadableNotes_on. repeat (case_match; try done); intros [= <-];
      rewrite ?map_map; try apply not_elem_of_nil. cbn [note_ID scan_listed]. apply Hlist, common_filter_live.
  - unfold ListTrash. rewrite map_map. cbn [note_ID scan_listed]. apply list_elem_of_fmap. exists (trash_row now r).
    split; [by destruct r|]. apply elem_of_order_by, elem_of_select_where. destruct (note_at_elem _ _ _ H1) as [H1i _].
    split; [exact H1i|]. apply andb_true_iff. split; [apply owned_true|]; by destruct r.
  - by apply (RestoreNote_undoes now now' o n d r).
Qed.
End Trash.

(** The rows of [gone] notes are removed from every table, and nothing else. *)
Definition removed (gone : string -> Prop) (d d' : tables) : Prop :=
  (forall r, r ∈ t_notes d' <-> r ∈ t_notes d /\ ~ gone (row_id r)) /\
  (forall b, b ∈ t_bodies d' <-> b ∈ t_bodies d /\ ~ gone (nb_note b)) /\
  (forall x, x ∈ t_note_tags d' <-> x ∈ t_note_tags d /\ ~ gone (nt_note x)) /\
  (forall t, t ∈ t_transcripts d' <-> t ∈ t_transcripts d /\ ~ gone (tr_note t)) /\
  (forall a, a ∈ t_aliases d' <-> a ∈ t_aliases d /\ ~ gone (al_note a)) /\
  (forall m, m ∈ t_filings d' <-> m ∈ t_filings d /\ ~ gone (nf_note m)) /\
  t_tags d' = t_tags d /\ t_events d' = t_events d /\ t_people d' = t_people d /\ t_folders d' = t_folders d.

Lemma delete_notes_removed p d :
  unique_notes d -> removed (fun id => exists r, note_at id d = Some r /\ p r = true) d (delete_notes p d).
Proof.
  intros Hnd.
  assert (Hgone : forall id, exists_where (fun r => note_is id r && p r) (t_notes d) = false <->
    ~ exists r, note_at id d = Some r /\ p r = true).
  { intros id. rewrite <- not_true_iff_false, exists_where_true. f_equiv. split.
    - intros (r & Hr & [Hid%note_is_true Hp]%andb_true_iff). exists r. split; [by apply note_at_intro|done].
    - intros (r & [Hr Hid]%note_at_elem & Hp). exists r. split; [done|]. by rewrite andb_true_iff, note_is_true. }
  split_and!; try done; intros x; cbn; rewrite elem_of_delete_where; try by rewrite Hgone.
  rewrite <- Hgone, exists_where_false. split; intros [Hx Hp]; (split; [done|]).
  - intros y Hy. apply not_true_iff_false. intros [Hid%note_is_true Hpy]%andb_true_iff.
    assert (y = x) as -> by by apply (note_unique d Hnd). congruence.
  - specialize (Hp x Hx). by rewrite note_is_self in Hp.
Qed.

(** Purging is exact.  [PurgeNote] removes a note only when it is its owner's
    and in the trash, with every row that belongs to it and no other, and
    returns its audio key; [PurgeExpired] does the same to exactly the notes
    trashed before the cut-off and returns their non-empty keys. *)
Theorem purge_exact o n now olderThan d :
  unique_notes d ->
  match PurgeNote o n d with
  | (Ok key, d') => exists r, note_at n d = Some r /\ row_owner r = o /\ row_deleted r <> None /\
      key = default "" (row_audio r) /\ removed (fun id => id = n) d d'
  | (Err e, d') => e = ErrNotFound /\ d' = d /\
      forall r, note_at n d = Some r -> row_owner r = o -> row_deleted r = None
  end /\
  let cutoff := (now - Z.quot olderThan second * second)%Z in
  let gone id := exists r x, note_at id d = Some r /\ row_deleted r = Some x /\ (x < cutoff)%Z in
  removed gone d (PurgeExpired now olderThan d).2 /\
  forall key, key ∈ (PurgeExpired now olderThan d).1 <->
    key <> "" /\ exists r, r ∈ t_notes d /\ gone (row_id r) /\ row_audio r = Some key.
Proof.
  intros Hnd. split; [|intros cutoff gone].
  - unfold PurgeNote. destruct (select_where _ _) as [|r l] eqn:Es.
    + split_and!; [done..|]. intros r [Hin Hid]%note_at_elem Ho. destruct (row_deleted r) eqn:Ed; [|done]. exfalso.
      apply (select_nil _ _ r Es Hin). rewrite !andb_true_iff, note_is_true, owned_true. unfold row_trashed. by rewrite Ed.
    + apply select_elem in Es as [Hin [[Hid%note_is_true Ho%owned_true]%andb_true_iff Ht]%andb_true_iff].
      assert (Hr : note_at n d = Some r) by by apply note_at_intro.
      exists r. split_and!; [done..| |done|]. { unfold row_trashed in Ht. by destruct (row_deleted r). }
      pose proof (delete_notes_removed (fun r => note_is n r && owned o r && row_trashed r) d Hnd) as Hrem.
      assert (Hiff : forall id, (exists r, note_at id d = Some r /\ note_is n r && owned o r && row_trashed r = true) <-> id = n).
      { intros id. split.
        - intros (x & [_ Hx]%note_at_elem & [[Hxn%note_is_true _]%andb_true_iff _]%andb_true_iff). congruence.
        - intros ->. exists r. split; [done|]. by rewrite !andb_true_iff, note_is_true, owned_true. }
      unfold removed in *. setoid_rewrite Hiff in Hrem. exact Hrem.
  - assert (Hiff : forall id, (exists r, note_at id d = Some r /\ expired cutoff r = true) <-> gone id).
    { intros id. unfold gone, expired. split.
      - intros (r & Hr & He). destruct (row_deleted r) as [x|] eqn:Ed; [|done]. exists r, x. by rewrite <- Z.ltb_lt.
      - intros (r & x & Hr & Ed & Hx%Z.ltb_lt). exists r. by rewrite Ed. }
    split.
    + pose proof (delete_notes_removed (expired cutoff) d Hnd) as Hrem.
      unfold removed in *. setoid_rewrite Hiff in Hrem. exact Hrem.
    + intros key. cbn [fst PurgeExpired]. rewrite elem_of_select_where, negb_true_iff, String.eqb_neq, list_elem_of_fmap.
      setoid_rewrite elem_of_select_where. setoid_rewrite <- Hiff. split.
      * intros [(r & -> & Hr & He) Hne]. split; [done|]. exists r. split_and!; [done| |].
        -- exists r. split; [by apply note_at_intro|done].
        -- destruct (row_audio r); [done|]. by destruct Hne.
      * intros (Hne & r & Hr & (x & Hx & He) & Ea). split; [|done]. exists r.
        apply note_at_elem in Hx as [Hx Hid]. assert (x = r) as -> by by apply (note_unique d Hnd).
        split_and!; [by rewrite Ea|done..].
Qed.

(** ** Previews *)

Definition in_line (a : ascii) : bool := negb (in_set line_ends a).

Lemma preview_line_bytes line : all_bytes in_line line = true -> all_bytes in_line (preview_line line) = true.
Proof.
  intros H. unfold preview_line, strip_ordered.
  assert (Ht : all_bytes in_line (TrimSpace (TrimLeft "#> -*" line)) = true)
    by by apply all_bytes_TrimSpace, all_bytes_TrimLeft.
  revert Ht. generalize (TrimSpace (TrimLeft "#> -*" line)). intros s Hs.
  pose proof (all_bytes_drop in_line (digits_len s) s Hs) as Hd.
  destruct (drop_str (digits_len s) s) as [|c [|c' rest]]; [done|by case_match|].
  repeat (case_match; try done). apply all_bytes_TrimSpace. by apply andb_true_iff in Hd as [_ [_ Hd]%andb_true_iff].
Qed.

Lemma snippet_lines_bytes n fields b :
  Forall (fun f => all_bytes in_line f = true) fields -> all_bytes in_line b = true ->
  all_bytes in_line (snippet_lines n fields b) = true.
Proof.
  intros Hf. revert b. induction Hf as [|f fields Hf _ IH]; intros b Hb; cbn [snippet_lines]; [done|].
  assert (Hp := preview_line_bytes f Hf). case_match; [by apply IH|].
  assert (Hb' : all_bytes in_line ((if (0 <? slen b)%Z then b ++ " " else b) ++ preview_line f) = true).
  { rewrite all_bytes_app, Hp, andb_true_r. destruct (0 <? slen b)%Z; [by rewrite all_bytes_app, Hb|done]. }
  destruct (n <=? RuneCount _)%Z; [done|by apply IH].
Qed.

Lemma take_all_runes n s : (length (runes s) <= n)%nat -> of_runes (runes s) = of_runes (take n (runes s)).
Proof. intros H. by rewrite firstn_all2. Qed.

(** A preview is one line and short: [snippetN] returns at most [maxRunes]
    runes of valid UTF-8, with no line break, whatever the body holds. *)
Theorem snippetN_bounded body maxRunes :
  (RuneCount (snippetN body maxRunes) <= Z.of_nat maxRunes)%Z /\
  all_bytes (fun a => negb (in_set line_ends a)) (snippetN body maxRunes) = true /\
  exists rs, Forall is_rune rs /\ snippetN body maxRunes = of_runes rs.
Proof.
  unfold snippetN. set (b := snippet_lines _ _ _).
  assert (Hb : all_bytes in_line b = true) by (apply snippet_lines_bytes; [apply FieldsFunc_no_separator|done]).
  assert (E : (if (maxRunes <? length (runes b))%nat then of_runes (take maxRunes (runes b)) else of_runes (runes b))
    = of_runes (take maxRunes (runes b))).
  { destruct (Nat.ltb_spec maxRunes (length (runes b))); [done|]. by apply take_all_runes. }
  rewrite E. assert (Hr : Forall is_rune (take maxRunes (runes b))) by apply Forall_take, runes_from_are.
  split_and!; [|by apply all_bytes_runes|eauto]. rewrite RuneCount_of_runes by done. unfold len.
  rewrite length_take. lia.
Qed.

(** ** Tags on notes *)

Section Tags.
Variable lower : string -> string.
Variable name_lt : string -> string -> bool.

Lemma noteTags_elem s n d :
  s ∈ noteTagsTx lower name_lt n d <->
  exists x t, x ∈ t_note_tags d /\ t ∈ t_tags d /\ nt_note x = n /\ nt_tag x = tag_id t /\ tag_name t = s.
Proof.
  unfold noteTagsTx, joined_tags. rewrite list_elem_of_fmap. setoid_rewrite elem_of_order_by.
  setoid_rewrite elem_of_flat_map. setoid_rewrite list_elem_of_fmap. setoid_rewrite elem_of_select_where. split.
  - intros ([x t] & -> & x' & [Hx Hn%String.eqb_eq] & t' & [= -> ->] & Ht & Hid%tag_is_true). cbn. eauto 10.
  - intros (x & t & Hx & Ht & Hn & Hid & <-). exists (x, t). split; [done|]. exists x. rewrite String.eqb_eq.
    split; [done|]. exists t. by rewrite tag_is_true.
Qed.

(** The tag of a name, when the tables hold it. *)
Lemma select_named o nm ts t :
  tags_ok lower ts -> t ∈ ts -> tag_key lower t = (o, lower nm) -> select_where (named lower o nm) ts = [t].
Proof.
  intros (_ & Tk & _) Ht Hk. apply (select_key (tag_key lower)); [done..|by apply named_key|].
  intros u _ Hu%named_key. by rewrite Hu, Hk.
Qed.

Section Linked.
Context (d : tables) (o n : string) (r : note_row) (t : tag).
Hypothesis Hts : tags_ok lower (t_tags d).
Hypothesis Hr : r ∈ t_notes d.
Hypothesis Hid : row_id r = n.
Hypothesis Ho : row_owner r = o.
Hypothesis Ht : t ∈ t_tags d.
Hypothesis Hlink : mkNT n (tag_id t) ∈ t_note_tags d.

Lemma AddNoteTag_again uuid name nm :
  check_tag_name name = Ok nm -> tag_key lower t = (o, lower nm) ->
  AddNoteTag lower uuid o n name d = (Ok (tag_id t, tag_name t), d).
Proof.
  intros Hc Hk. unfold AddNoteTag. rewrite Hc.
  assert (E1 : exists_where (fun r => note_is n r && owned o r) (t_notes d) = true)
    by (apply exists_where_true; exists r; by rewrite andb_true_iff, note_is_true, owned_true).
  assert (E2 : exists_where (named lower o nm) (t_tags d) = true)
    by (apply exists_where_true; exists t; split; [done|by apply named_key]).
  assert (E3 : exists_where (tagged n (tag_id t)) (t_note_tags d) = true)
    by (apply exists_where_true; eexists; split; [exact Hlink|by apply tagged_true]).
  rewrite E1, E2, (select_named _ _ _ t) by done. cbn [negb andb]. rewrite E3. by destruct d.
Qed.

Lemma RemoveNoteTag_result name :
  tag_key lower t = (o, lower name) ->
  exists d2, RemoveNoteTag lower o n name d = (Ok tt, d2) /\
    (forall y, y ∈ t_note_tags d2 <-> y ∈ t_note_tags d /\ ~ (nt_note y = n /\ nt_tag y = tag_id t)) /\
    (forall u, u ∈ t_tags d2 <-> u ∈ t_tags d /\
       ~ (tag_id u = tag_id t /\ forall y, y ∈ t_note_tags d -> nt_tag y = tag_id t -> nt_note y = n)).
Proof.
  intros Hk. unfold RemoveNoteTag. rewrite (select_named _ _ _ t) by done. set (hit := fun x => tagged n (tag_id t) x && _).
  assert (Hhit : forall y, hit y = true <-> nt_note y = n /\ nt_tag y = tag_id t).
  { intros y. unfold hit. rewrite andb_true_iff, tagged_true. split; [by intros [? _]|]. intros [E3 E4].
    split; [done|]. apply exists_where_true. exists r. split; [done|]. by rewrite andb_true_iff, note_is_true, owned_true, E3. }
  assert (Hpos : (0 < rows_affected hit (t_note_tags d))%nat)
    by (apply rows_affected_pos; eexists; split; [exact Hlink|by apply Hhit]).
  destruct (Nat.eqb_spec (rows_affected hit (t_note_tags d)) 0); [lia|]. eexists. split; [done|].
  assert (Hdel : forall y, y ∈ delete_where hit (t_note_tags d) <-> y ∈ t_note_tags d /\ ~ (nt_note y = n /\ nt_tag y = tag_id t))
    by (intros y; by rewrite elem_of_delete_where, <- Hhit, not_true_iff_false).
  split; [exact Hdel|]. intros u. cbn [t_tags with_tags]. rewrite elem_of_delete_where.
  enough (Horph : u ∈ t_tags d -> tag_is (tag_id t) u && (tag_owner u =? o)%string &&
      negb (exists_where (fun y => (nt_tag y =? tag_id t)%string) (delete_where hit (t_note_tags d))) = true <->
    tag_id u = tag_id t /\ forall y, y ∈ t_note_tags d -> nt_tag y = tag_id t -> nt_note y = n).
  { split; intros [Hu H]; (split; [done|]); [|apply not_true_iff_false]; rewrite <- ?Horph, ?H; naive_solver. }
  intros Hu. rewrite !andb_true_iff, tag_is_true, String.eqb_eq, negb_true_iff, exists_where_false. split.
  - intros [[E3 _] Hno]. split; [done|]. intros y Hy Ey. destruct (decide (nt_note y = n)) as [|Hne]; [done|].
    assert (Hy' : y ∈ delete_where hit (t_note_tags d)) by (apply Hdel; naive_solver). specialize (Hno y Hy').
    by apply String.eqb_neq in Hno.
  - intros [E3 Hall]. assert (u = t) as -> by by apply (key_unique tag_id (t_tags d)); [apply Hts|..].
    split_and!; [done| |].
    + unfold tag_key in Hk. congruence.
    + intros y [Hy Hno]%Hdel. apply String.eqb_neq. intros Ey. apply Hno. split; [by apply Hall|done].
Qed.
End Linked.

(** Tagging works by name, whatever its case.  After [AddNoteTag] the note
    carries a tag of that name, other notes carry what they carried, and
    tagging again changes nothing and answers the same.  [RemoveNoteTag] with
    any spelling then unlinks it, and the tag itself is dropped exactly when
    no other note carries it. *)
Theorem tagging uuid o n name d x d1 :
  notes_ok lower d -> AddNoteTag lower uuid o n name d = (Ok x, d1) ->
  lower x.2 = lower (TrimSpace name) /\ x.2 ∈ noteTagsTx lower name_lt n d1 /\
  (forall i s, i <> n -> s ∈ noteTagsTx lower name_lt i d1 <-> s ∈ noteTagsTx lower name_lt i d) /\
  (forall uuid', AddNoteTag lower uuid' o n name d1 = (Ok x, d1)) /\
  forall name', lower name' = lower (TrimSpace name) ->
    exists d2, RemoveNoteTag lower o n name' d1 = (Ok tt, d2) /\
      (forall y, y ∈ t_note_tags d2 <-> y ∈ t_note_tags d1 /\ ~ (nt_note y = n /\ nt_tag y = x.1)) /\
      (forall t, t ∈ t_tags d2 <-> t ∈ t_tags d1 /\
         ~ (tag_id t = x.1 /\ forall y, y ∈ t_note_tags d1 -> nt_tag y = x.1 -> nt_note y = n)).
Proof.
  intros Hok E. assert (E1 : (AddNoteTag lower uuid o n name d).1 = Ok x) by by rewrite E.
  destruct (AddNoteTag_result lower _ _ _ _ _ _ _ Hok E1) as
    (r & t & ts & nts & E2 & Hr & Hid & Ho & Hts & Ht & Hk & -> & Hcase & _ & Hnts).
  rewrite E in E2. cbn [fst snd] in *. pose proof Hts as (Ti & _).
  assert (Hin : forall y, y ∈ nts <-> y ∈ t_note_tags d \/ y = mkNT n (tag_id t)).
  { intros y. rewrite Hnts. case_match eqn:Ee; [|by rewrite elem_of_app, list_elem_of_singleton].
    split; [by left|]. intros [?| ->]; [done|].
    apply exists_where_true in Ee as ([] & Hy & [E3 E4]%tagged_true). cbn in *. by subst. }
  assert (Hlink : mkNT n (tag_id t) ∈ nts) by (apply Hin; by right).
  assert (Hsub : forall u, u ∈ t_tags d -> u ∈ ts) by (destruct Hcase as [-> | ->]; intros; rewrite ?elem_of_app; auto).
  subst d1. split_and!.
  - unfold tag_key in Hk. congruence.
  - apply noteTags_elem. exists (mkNT n (tag_id t)), t. done.
  - intros i s Hi. rewrite !noteTags_elem. cbn. split.
    + intros (y & u & Hy & Hu & E3 & E4 & E5). apply Hin in Hy as [Hy| ->]; [|cbn in *; congruence].
      destruct Hok as (_ & _ & _ & [_ Hnt] & _). destruct (Hnt y Hy) as (_ & v & _ & Hv & _ & Ev & _).
      assert (v = u) as -> by (apply (key_unique tag_id ts); [done|by apply Hsub|done|congruence]). eauto 10.
    + intros (y & u & Hy & Hu & E3). exists y, u. split_and!; [apply Hin; by left|by apply Hsub|apply E3..].
  - intros uuid'. destruct (check_tag_name name) as [nm|] eqn:Ec; [|unfold AddNoteTag in E; by rewrite Ec in E].
    destruct (check_tag_name_ok _ _ Ec) as (-> & _). by apply (AddNoteTag_again (with_note_tags nts (with_tags ts d)) o n r t Hts Hr Hid Ho Ht Hlink _ _ _ Ec).
  - intros name' Hn'. apply (RemoveNoteTag_result (with_note_tags nts (with_tags ts d)) o n r t Hts Hr Hid Ho Ht Hlink). by rewrite Hk, Hn'.
Qed.
End Tags.

(** ** Concrete tables *)

Module NoteDemo.
Definition lower_byte (a : ascii) : ascii := if in_range 65 90 a then byte_of (nat_of_ascii a + 32) else a.
Fixpoint lower (s : string) : string :=
  match s with EmptyString => "" | String a s' => String (lower_byte a) (lower s') end.
Definition name_lt : string -> string -> bool := String.ltb.

Definition empty : tables := mkTables [] [] [] [] [mkTranscript "n" 3] [] [] [] [] [].

(** Ann shares her folder [f]; Bob files his tagged note [n] there. *)
Definition filed : list note_op :=
  [NFolder (mkView [] []) (OpCreate "f" 0 "ann" "Team" None); NFolder (mkView [] []) (OpVisibility "ann" "f" FolderShared);
   NCreate "n" 1 "bob" "Plan"; NBody "bob" "n" "# Secret plan"; NFolder (mkView [] []) (OpAddNote "bob" "n" "f");
   NAddTag "t" "bob" "n" " Work "; NAudio 2 "bob" "n" "audio/n"; NStatus 3 "n" NoteFailed].
Definition base : tables := note_perform_all lower name_lt filed empty.
Definition row : note_row :=
  mkRow "n" "bob" "Plan" NoteFailed false None None false (Some "audio/n") "pending" 1 3 None None None None None.

Definition in_f : ListNotesFilter := {|
  f_Tag := ""; f_Status := ""; f_FolderID := "f"; FolderIDSet := true; PersonID := ""; PersonIDSet := false;
  CreatedFrom := None; CreatedTo := None |}.

(** Then Ann makes the folder private again. *)
Definition unshared : tables := note_perform lower name_lt (NFolder (mkView [] []) (OpVisibility "ann" "f" FolderPrivate)) base.

Lemma empty_ok : notes_ok lower empty.
Proof.
  split_and!; [constructor|split; [constructor|done]|split_and!; [constructor..|by intros t ?%elem_of_nil]| |].
  - split; [constructor|by intros x ?%elem_of_nil].
  - split; [split_and!; [split_and!; [constructor|by intros f p ?%elem_of_nil|]|..]|split_and!; [constructor..|]].
    + exists (fun _ => 0%nat). intros a b (f & ?%elem_of_nil & _). done.
    + intros f ? ?%elem_of_nil. done.
    + intros f g ?%elem_of_nil. done.
    + by intros f ?%elem_of_nil.
    + by intros m ?%elem_of_nil.
Qed.

Lemma demo_ok : notes_ok lower base.
Proof.
  apply (note_history_ok lower name_lt (folders_ok lower) undisturbed); [intros v o x; apply perform_folders|by repeat constructor| |exact empty_ok].
  split_and!; by vm_compute.
Qed.

Lemma demo_row : note_at "n" base = Some row.
Proof. by vm_compute. Qed.

Lemma demo_unique : unique_notes base.
Proof. apply demo_ok. Qed.
End NoteDemo.

Module NoteWitness.
Import NoteDemo.

(** Two of Ann's folders are moved into each other, both moves checked first. *)
Definition two : list folder := t_folders (note_perform_all lower name_lt [NFolder (mkView [] []) (OpCreate "g" 0 "ann" "Lab" None)] base).
Definition crossed : list note_op :=
  [NFolder (mkView [] []) (OpCreate "g" 0 "ann" "Lab" None); NFolder (mkView two two) (OpUpdate "ann" "f" "Team" (Some "g"));
   NFolder (mkView two two) (OpUpdate "ann" "g" "Lab" (Some "f")); NPurge "bob" "n"].

Lemma note_tables_invariant_witness :
  notes_ok lower base /\ notes_ok_with (rows_ok lower) lower (note_perform_all lower name_lt crossed base) /\
  map f_parent (t_folders (note_perform_all lower name_lt crossed base)) = [Some "g"; Some "f"].
Proof.
  split; [|split; [|by vm_compute]].
  - apply (note_tables_invariant lower name_lt filed empty); [by repeat constructor|exact empty_ok|]. split_and!; by vm_compute.
  - apply (note_tables_invariant lower name_lt crossed base); [by repeat constructor| |].
    + destruct demo_ok as (H1 & H2 & H3 & H4 & [H5 H6]). split_and!; try done. by split; [apply folders_ok_rows|].
    + split; [|split; [|split; [|done]]]; intros x y Hx Hy _; revert x y Hx Hy; apply (all_owned "ann");
        (split; vm_compute; repeat constructor).
Defined.

Lemma ListReadableNotes_exact_witness :
  exists ns, ListReadableNotes_on lower name_lt (t_folders base) "ann" in_f base = Ok ns /\ "n" ∈ map note_ID ns.
Proof.
  pose proof (ListReadableNotes_exact lower name_lt (t_folders base) "ann" in_f base demo_ok
    ltac:(apply (bool_decide_unpack _); by vm_compute)) as H.
  destruct (ListReadableNotes_on _ _ _ _ _ _) as [ns|e] eqn:E; [|by vm_compute in E]. exists ns. split; [done|].
  destruct H as (_ & H & _). apply H. split.
  - apply visible_spec. by vm_compute.
  - exists row, (mkNF "n" "f" 0). split; [apply (note_at_elem "n"), demo_row|].
    split; [vm_compute; left|]. by repeat split.
Defined.

Lemma claim_release_witness :
  (ClaimNoteForTranscription 5 "n" "job" base).1 = Ok NoteFailed /\
  note_at "n" (ReleaseNoteTranscriptionClaim 6 "n" "job" NoteFailed (ClaimNoteForTranscription 5 "n" "job" base).2)
    = Some (touch 6 row).
Proof.
  destruct (claim_release "n" "job" 5 base row demo_row ltac:(discriminate)) as (H1 & (r & Hr & Hs & Hj) & H3 & _).
  split; [exact H1|]. destruct (H3 _ _ 6%Z Hr Hs Hj) as (_ & _ & H). eapply eq_trans; [exact H|].
  vm_compute in Hr. injection Hr as <-. reflexivity.
Defined.

Lemma ready_won_once_witness : (finalize "n" [5; 6; 7]%Z base).1 = [true; false; false].
Proof.
  apply (proj1 (ready_won_once "n" [5; 6; 7]%Z base demo_unique ltac:(discriminate)) row demo_row). discriminate.
Defined.

Lemma generation_fence_witness :
  SetRetentionStateDiscardedIfCurrent 9 "n" 2 (Ok tt) base = (Err ErrGenerationMismatch, false, base) /\
  exists d', SetNoteHashesIfCurrent 9 "n" "h" "" 3 base = (Ok tt, d') /\
    note_at "n" d' = Some (touch 9 (set_hashes "h" "" row)) /\ forall i, i <> "n" -> note_at i d' = note_at i base.
Proof.
  assert (Hnd : NoDup (map tr_note (t_transcripts base))) by (apply (bool_decide_unpack _); by vm_compute). split.
  - apply (proj1 (generation_fence 9 "n" 2 "" "" "" false (Ok tt) base Hnd)). by vm_compute.
  - apply (proj2 (generation_fence 9 "n" 3 "h" "" "" false (Ok tt) base Hnd) row);
      [reflexivity|vm_compute; left|exact demo_row].
Defined.

Lemma trash_roundtrip_witness :
  exists d1, DeleteNote 10 (Ok tt) "bob" "n" base = (Ok tt, d1) /\ GetNote "bob" "n" d1 = Err ErrNotFound.
Proof.
  destruct (trash_roundtrip lower name_lt 10 11 "bob" "n" base row demo_unique demo_row eq_refl eq_refl)
    as (_ & _ & d1 & H1 & H2 & _). eauto.
Defined.

Lemma purge_exact_witness :
  let d := (DeleteNote 10 (Ok tt) "bob" "n" base).2 in
  (PurgeNote "bob" "n" d).1 = Ok "audio/n" /\ removed (fun id => id = "n") d (PurgeNote "bob" "n" d).2.
Proof.
  intros d. assert (Hd : unique_notes d) by (apply (bool_decide_unpack _); by vm_compute).
  pose proof (purge_exact "bob" "n" 0 0 d Hd) as [H _]. assert (E : (PurgeNote "bob" "n" d).1 = Ok "audio/n") by by vm_compute.
  split; [exact E|]. destruct (PurgeNote "bob" "n" d) as [[key|e] d']; [|discriminate].
  destruct H as (r & _ & _ & _ & _ & H). exact H.
Defined.

Lemma tagging_witness :
  exists x d1, AddNoteTag lower "t2" "bob" "n" "work" base = (Ok x, d1) /\ "Work" ∈ noteTagsTx lower name_lt "n" d1 /\
    exists d2, RemoveNoteTag lower "bob" "n" "WORK" d1 = (Ok tt, d2) /\ t_tags d2 = [].
Proof.
  destruct (AddNoteTag lower "t2" "bob" "n" "work" base) as [[x|e] d1] eqn:E; [|vm_compute in E; discriminate].
  destruct (tagging lower name_lt "t2" "bob" "n" "work" base x d1 demo_ok E) as (_ & Hin & _ & _ & Hrem).
  exists x, d1. split; [done|]. assert (Hx : x = ("t", "Work")) by (vm_compute in E; congruence). subst x.
  split; [exact Hin|]. destruct (Hrem "WORK" eq_refl) as (d2 & H2 & _). exists d2. split; [exact H2|].
  assert (Hd1 : d1 = (AddNoteTag lower "t2" "bob" "n" "work" base).2) by by rewrite E. rewrite Hd1 in H2.
  assert (Hd2 : d2 = (RemoveNoteTag lower "bob" "n" "WORK" (AddNoteTag lower "t2" "bob" "n" "work" base).2).2) by by rewrite H2.
  rewrite Hd2. vm_compute. reflexivity.
Defined.
End NoteWitness.

(** The comment on [ListReadableNotes] says a private folder only ever holds
    the requester's own notes.  It does not: after Ann makes her folder
    private, it still lists Bob's note to her with its preview, which
    [GetReadableNote] denies her. *)
Lemma unshared_folder_leaks :
  match ListReadableNotes NoteDemo.lower NoteDemo.name_lt "ann" NoteDemo.in_f NoteDemo.unshared with
  | Ok ns => map (fun n => (note_ID n, note_OwnerID n, note_Snippet n)) ns = [("n", "bob", "Secret plan")]
  | Err _ => False
  end /\
  GetReadableNote NoteDemo.lower NoteDemo.name_lt "ann" "n" NoteDemo.unshared = Err ErrNotFound.
Proof. split; vm_compute; reflexivity. Qed.

(** [DuplicateNote] answers with the original's folder ids although it files
    the copy only in those of them the owner can see. *)
Lemma duplicate_reports_unfiled :
  let '(r, d) := DuplicateNote NoteDemo.lower NoteDemo.name_lt "copy" (fun _ => "fresh") 20 "bob" "n" NoteDemo.unshared in
  (match r with Ok n => FolderIDs n | Err _ => [] end, NoteFolderIDs "copy" (folder_db d)) = (["f"], []).
Proof. vm_compute. reflexivity. Qed.
