(* ===== verification/Transcripts.v ===== *)
(** Transcripts: [internal/store/transcripts.go].

    [transcript_row], [segment_row] and [gap_row] are rows of [transcripts],
    [transcript_segments] and [transcript_gaps]; [Transcript] and
    [TranscriptGap] are the Go structs.  A segment's row keeps its words as the
    list that its JSON encodes.  [uuid] and [fresh] are fresh ids.  A handler
    that runs in one transaction is one function; one that reads and writes in
    separate statements takes the state each of them sees.  Ending and
    scheduling live prompts runs in savepoints whose failure is ignored and
    writes none of these tables.  Numbers fit their columns. *)

From stdpp Require Import base list strings sets gmap.
From Stdlib Require Import Ascii ZArith Lia SpecFloat.
From S2P Require Import GoInt GoStrings Sql Folders Execution Notes.

Local Open Scope string_scope.
Local Open Scope go_scope.

Definition ReviewStatePending : string := "pending".
Definition ReviewStateInReview : string := "in_review".
Definition ReviewStateCompleted : string := "completed".
Definition SpeakerYou : string := "You".
Definition SpeakerThem : string := "Them".

(** ** Tables *)

Record transcript_row := mkTranscriptRow {
  ts_id : string; ts_note : string; ts_plugin : string; ts_model : string; ts_review : string;
  ts_stream : option string; ts_sealed : bool; ts_generation : Z }.

Record segment_row := mkSegmentRow { sg_transcript : string; sg_data : Segment }.

Record gap_row := mkGapRow {
  gp_id : string; gp_transcript : string; gp_stream : string; gp_start : Z; gp_dropped : option Z; gp_origin : string }.

Record tdb := mkTdb {
  d_notes : list note_row; d_transcripts : list transcript_row; d_segments : list segment_row; d_gaps : list gap_row }.

Definition set_review (v : string) (x : transcript_row) : transcript_row :=
  mkTranscriptRow (ts_id x) (ts_note x) (ts_plugin x) (ts_model x) v (ts_stream x) (ts_sealed x) (ts_generation x).
Definition seal (x : transcript_row) : transcript_row :=
  mkTranscriptRow (ts_id x) (ts_note x) (ts_plugin x) (ts_model x) (ts_review x) (ts_stream x) true (ts_generation x).

Definition sg_id (s : segment_row) : string := seg_ID (sg_data s).

Definition with_speaker (v : string) (s : Segment) : Segment := {|
  seg_ID := seg_ID s; StartMS := StartMS s; EndMS := EndMS s; Text := Text s; seg_Source := seg_Source s; Speaker := v;
  Words := Words s; Confidence := Confidence s; Boundary := Boundary s; Provisional := Provisional s |}.
Definition set_speaker (v : string) (s : segment_row) : segment_row := mkSegmentRow (sg_transcript s) (with_speaker v (sg_data s)).

(** The columns an [INSERT] of a segment writes. *)
Definition stored_segment (id boundary : string) (provisional : bool) (s : Segment) : Segment := {|
  seg_ID := id; StartMS := StartMS s; EndMS := EndMS s; Text := Text s; seg_Source := seg_Source s; Speaker := Speaker s;
  Words := Words s; Confidence := Confidence s; Boundary := boundary; Provisional := provisional |}.

(** ** Go structs *)

Record TranscriptGap := {
  gap_ID : string; TranscriptID : string; gap_StreamID : string; StartSample : Z; DroppedSamples : option Z;
  Origin : string }.

Record Transcript := {
  T_ID : string; T_NoteID : string; TranscriberPlugin : string; T_Model : string; T_Segments : list Segment;
  ReviewState : string; StreamID : option string; Sealed : bool; Generation : Z; Gaps : list TranscriptGap }.

Record DiarizationReview := {
  review_NoteID : string; review_State : string; Turns : list Segment; review_Generation : Z }.

(** [^Speaker \d+$] *)
Definition numbered_speaker (speaker : string) : bool :=
  match strip_prefix "Speaker " speaker with
  | Some r => (0 <? digits_len r)%nat && (digits_len r =? String.length r)%nat
  | None => false
  end.

Definition isDeterministicChannelSpeaker (speaker : string) : bool :=
  (speaker =? SpeakerYou)%string || (speaker =? SpeakerThem)%string || numbered_speaker speaker.

(** The loop that decides whether the labels need a review. *)
Definition review_state_of (segments : list Segment) : string :=
  if existsb (fun seg => negb (Speaker seg =? "")%string && negb (isDeterministicChannelSpeaker (Speaker seg))) segments
  then ReviewStatePending else ReviewStateCompleted.

(** ** Replacement *)

Definition of_note (noteID : string) (x : transcript_row) : bool := (ts_note x =? noteID)%string.

Definition prior_transcript (noteID : string) (d : tdb) : option transcript_row :=
  head (select_where (of_note noteID) (d_transcripts d)).

Definition CurrentTranscriptGeneration (noteID : string) (d : tdb) : Z :=
  match prior_transcript noteID d with None => 0%Z | Some x => ts_generation x end.

Definition delete_transcripts (p : transcript_row -> bool) (d : tdb) : tdb :=
  let gone id := exists_where (fun x => (ts_id x =? id)%string && p x) (d_transcripts d) in
  mkTdb (d_notes d) (delete_where p (d_transcripts d)) (delete_where (fun s => gone (sg_transcript s)) (d_segments d))
    (delete_where (fun g => gone (gp_transcript g)) (d_gaps d)).

Definition seal_prior (prior : option transcript_row) (d : tdb) : tdb :=
  match prior with
  | None => d
  | Some p => mkTdb (d_notes d) (update_where (fun x => (ts_id x =? ts_id p)%string) seal (d_transcripts d))
                (d_segments d) (d_gaps d)
  end.

(** [INSERT INTO transcripts] under the primary key, the unique index on the
    note and the foreign key. *)
Definition insert_transcript (x : transcript_row) (d : tdb) : option tdb :=
  if exists_where (fun y => (ts_id y =? ts_id x)%string || of_note (ts_note x) y) (d_transcripts d) then None
  else if negb (exists_where (note_is (ts_note x)) (d_notes d)) then None
  else Some (mkTdb (d_notes d) (d_transcripts d ++ [x])%list (d_segments d) (d_gaps d)).

Definition insert_segment (s : segment_row) (d : tdb) : option tdb :=
  if exists_where (fun y => (sg_id y =? sg_id s)%string) (d_segments d) then None
  else if negb (exists_where (fun x => (ts_id x =? sg_transcript s)%string) (d_transcripts d)) then None
  else Some (mkTdb (d_notes d) (d_transcripts d) (d_segments d ++ [s])%list (d_gaps d)).

(** [for i := range tr.Segments]: the segments with their new ids. *)
Fixpoint insert_segments (fresh : nat -> string) (i : nat) (transcriptID : string) (segs : list Segment) (d : tdb)
  : option (list Segment * tdb) :=
  match segs with
  | [] => Some ([], d)
  | seg :: rest =>
      d ← insert_segment (mkSegmentRow transcriptID (stored_segment (fresh i) "" false seg)) d;
      '(out, d) ← insert_segments fresh (S i) transcriptID rest d;
      Some (stored_segment (fresh i) (Boundary seg) (Provisional seg) seg :: out, d)
  end.

Definition SaveTranscript (uuid : string) (fresh : nat -> string) (tr : Transcript) (expectedGeneration : Z) (d : tdb)
  : result store_error Transcript * tdb :=
  let noteID := T_NoteID tr in
  let d1 := mkTdb (update_where (note_is noteID) (set_job None) (d_notes d)) (d_transcripts d) (d_segments d) (d_gaps d) in
  let prior := prior_transcript noteID d1 in
  let priorGeneration := match prior with None => 0%Z | Some x => ts_generation x end in
  let nextGeneration := match prior with None => 1%Z | Some _ => (priorGeneration + 1)%Z end in
  if negb (priorGeneration =? expectedGeneration)%Z then (Err ErrGenerationMismatch, d)
  else
    let d2 := delete_transcripts (of_note noteID) (seal_prior prior d1) in
    let reviewState := review_state_of (T_Segments tr) in
    match (d3 ← insert_transcript (mkTranscriptRow uuid noteID (TranscriberPlugin tr) (T_Model tr) reviewState None false
                                    nextGeneration) d2;
           insert_segments fresh 0 uuid (T_Segments tr) d3) with
    | None => (Err DbError, d)
    | Some (segs, d4) =>
        (Ok {| T_ID := uuid; T_NoteID := noteID; TranscriberPlugin := TranscriberPlugin tr; T_Model := T_Model tr;
               T_Segments := segs; ReviewState := reviewState; StreamID := StreamID tr; Sealed := Sealed tr;
               Generation := nextGeneration; Gaps := Gaps tr |}, d4)
    end.

Definition CreateStreamTranscript (uuid noteID streamID plugin modelName : string) (expectedGeneration : Z) (d : tdb)
  : result store_error Transcript * tdb :=
  let prior := prior_transcript noteID d in
  let priorGeneration := match prior with None => 0%Z | Some x => ts_generation x end in
  if match prior with Some x => bool_decide (ts_stream x = None) | None => false end
  then (Err ErrBatchTranscriptExists, d)
  else if negb (priorGeneration =? expectedGeneration)%Z then (Err ErrGenerationMismatch, d)
  else
    let d1 := match prior with
              | Some _ => delete_transcripts (of_note noteID) (seal_prior prior d)
              | None => d
              end in
    match insert_transcript (mkTranscriptRow uuid noteID plugin modelName ReviewStateCompleted (Some streamID) false
                               (priorGeneration + 1)) d1 with
    | None => (Err DbError, d)
    | Some d2 =>
        (Ok {| T_ID := uuid; T_NoteID := noteID; TranscriberPlugin := plugin; T_Model := modelName; T_Segments := [];
               ReviewState := ReviewStateCompleted; StreamID := Some streamID; Sealed := false;
               Generation := (priorGeneration + 1)%Z; Gaps := [] |}, d2)
    end.

(** ** The live stream's writes *)

(** [WHERE id=$1 AND stream_id=$2 AND sealed=FALSE] *)
Definition streaming_to (transcriptID streamID : string) (x : transcript_row) : bool :=
  (ts_id x =? transcriptID)%string && bool_decide (ts_stream x = Some streamID) && negb (ts_sealed x).

Definition AppendStreamSegment (uuid transcriptID streamID : string) (seg : Segment) (d : tdb)
  : result store_error unit * tdb :=
  if negb (exists_where (streaming_to transcriptID streamID) (d_transcripts d)) then (Err ErrStreamSuperseded, d)
  else match insert_segment (mkSegmentRow transcriptID (stored_segment uuid (Boundary seg) true seg)) d with
       | None => (Err DbError, d)
       | Some d' => (Ok tt, d')
       end.

Definition AppendTranscriptGap (uuid transcriptID streamID : string) (g : TranscriptGap) (d : tdb)
  : result store_error unit * tdb :=
  if negb (exists_where (streaming_to transcriptID streamID) (d_transcripts d)) then (Err ErrStreamSuperseded, d)
  else if exists_where (fun h => (gp_id h =? uuid)%string) (d_gaps d) then (Err DbError, d)
  else (Ok tt, mkTdb (d_notes d) (d_transcripts d) (d_segments d)
    (d_gaps d ++ [mkGapRow uuid transcriptID streamID (StartSample g) (DroppedSamples g) (Origin g)])%list).

(** ** Reading *)

Definition gap_of (g : gap_row) : TranscriptGap := {|
  gap_ID := gp_id g; TranscriptID := gp_transcript g; gap_StreamID := gp_stream g; StartSample := gp_start g;
  DroppedSamples := gp_dropped g; Origin := gp_origin g |}.

(** [ORDER BY start_ms], [ORDER BY start_sample] *)
Definition starts_before (a b : segment_row) : bool := (StartMS (sg_data a) <? StartMS (sg_data b))%Z.
Definition gap_before (a b : gap_row) : bool := (gp_start a <? gp_start b)%Z.

Definition segments_of (transcriptID : string) (d : tdb) : list segment_row :=
  select_where (fun s => (sg_transcript s =? transcriptID)%string) (d_segments d).

Definition getTranscriptTx (noteID : string) (d : tdb) : result store_error Transcript :=
  match prior_transcript noteID d with
  | None => Err ErrNotFound
  | Some x => Ok {|
      T_ID := ts_id x; T_NoteID := ts_note x; TranscriberPlugin := ts_plugin x; T_Model := ts_model x;
      T_Segments := map sg_data (order_by starts_before (segments_of (ts_id x) d));
      ReviewState := ts_review x; StreamID := ts_stream x; Sealed := ts_sealed x; Generation := ts_generation x;
      Gaps := map gap_of (order_by gap_before
                (select_where (fun g => (gp_transcript g =? ts_id x)%string) (d_gaps d))) |}
  end.

Definition GetTranscript (noteID : string) (d : tdb) : result store_error Transcript := getTranscriptTx noteID d.

(** [transcripts t JOIN notes n ... WHERE t.note_id=$1 AND n.owner_id=$2] *)
Definition owned_transcript (ownerID noteID : string) (d : tdb) : option transcript_row :=
  head (select_where (fun x => of_note noteID x &&
    exists_where (fun r => note_is (ts_note x) r && owned ownerID r) (d_notes d)) (d_transcripts d)).

(** Postgres orders [NaN] above every other number, and [NULLS LAST]. *)
Definition is_nan (a : spec_float) : bool := match a with S754_nan => true | _ => false end.
Definition float_lt (a b : spec_float) : bool :=
  match SFcompare a b with
  | Some Lt => true
  | Some _ => false
  | None => is_nan b && negb (is_nan a)
  end.
Definition confidence_lt (a b : option spec_float) : bool :=
  match a, b with
  | Some x, Some y => float_lt x y
  | Some _, None => true
  | None, _ => false
  end.

(** [ORDER BY confidence ASC NULLS LAST, start_ms ASC] *)
Definition review_before (a b : segment_row) : bool :=
  confidence_lt (Confidence (sg_data a)) (Confidence (sg_data b)) ||
  (negb (confidence_lt (Confidence (sg_data b)) (Confidence (sg_data a))) && starts_before a b).

(** The columns the review reads: [provisional] and [boundary] are left out. *)
Definition turn_of (s : segment_row) : Segment := stored_segment (sg_id s) "" false (sg_data s).

Definition GetDiarizationReview (ownerID noteID : string) (d : tdb) : result store_error DiarizationReview :=
  match owned_transcript ownerID noteID d with
  | None => Err ErrNotFound
  | Some x => Ok {| review_NoteID := noteID; review_State := ts_review x;
      Turns := map turn_of (order_by review_before (segments_of (ts_id x) d)); review_Generation := ts_generation x |}
  end.

(** ** Reviewing *)

(** [ts.id = $2 AND ts.transcript_id = t.id AND t.note_id = $3 AND n.owner_id =
    $4 AND t.generation = $5] *)
Definition confirmable (ownerID noteID segmentID : string) (expectedGeneration : Z) (d : tdb) (s : segment_row) : bool :=
  (sg_id s =? segmentID)%string &&
  exists_where (fun x => (ts_id x =? sg_transcript s)%string && of_note noteID x &&
    (ts_generation x =? expectedGeneration)%Z &&
    exists_where (fun r => note_is (ts_note x) r && owned ownerID r) (d_notes d)) (d_transcripts d).

(** [seen] is the state of the first read, [d] that of the write, and [later]
    what other sessions do before the re-classifying read. *)
Definition ConfirmSegmentSpeaker_on (seen : tdb) (later : tdb -> tdb) (ownerID noteID segmentID speaker : string)
    (expectedGeneration : Z) (d : tdb) : result store_error unit * tdb :=
  match owned_transcript ownerID noteID seen with
  | None => (Err ErrNotFound, d)
  | Some x =>
      if negb (ts_generation x =? expectedGeneration)%Z then (Err ErrGenerationMismatch, d)
      else
        let hit := confirmable ownerID noteID segmentID expectedGeneration d in
        if negb (rows_affected hit (d_segments d) =? 0)%nat
        then (Ok tt, mkTdb (d_notes d) (d_transcripts d) (update_where hit (set_speaker speaker) (d_segments d)) (d_gaps d))
        else
          let d' := later d in
          match owned_transcript ownerID noteID d' with
          | None => (Err ErrNotFound, d')
          | Some y => if negb (ts_generation y =? expectedGeneration)%Z then (Err ErrGenerationMismatch, d')
                      else (Err ErrNotFound, d')
          end
  end.

Definition ConfirmSegmentSpeaker ownerID noteID segmentID speaker expectedGeneration (d : tdb) : result store_error unit * tdb :=
  ConfirmSegmentSpeaker_on d (fun d => d) ownerID noteID segmentID speaker expectedGeneration d.

Definition isLegalTransition (from to : string) : bool :=
  if (from =? ReviewStatePending)%string then (to =? ReviewStateInReview)%string
  else if (from =? ReviewStateInReview)%string then (to =? ReviewStateCompleted)%string || (to =? ReviewStatePending)%string
  else if (from =? ReviewStateCompleted)%string then (to =? ReviewStateInReview)%string
  else false.

Definition update_review (noteID state : string) (expectedGeneration : Z) (d : tdb) : result store_error unit * tdb :=
  let hit x := of_note noteID x && (ts_generation x =? expectedGeneration)%Z in
  if (rows_affected hit (d_transcripts d) =? 0)%nat then (Err ErrGenerationMismatch, d)
  else (Ok tt, mkTdb (d_notes d) (update_where hit (set_review state) (d_transcripts d)) (d_segments d) (d_gaps d)).

(** [seen] is the state of the read, [d] that of the write. *)
Definition UpdateReviewState_on (seen : tdb) (ownerID noteID newState : string) (expectedGeneration : Z) (d : tdb)
  : result store_error unit * tdb :=
  match owned_transcript ownerID noteID seen with
  | None => (Err ErrNotFound, d)
  | Some x =>
      if negb (ts_generation x =? expectedGeneration)%Z then (Err ErrGenerationMismatch, d)
      else if negb (isLegalTransition (ts_review x) newState) then (Err ErrInvalidTransition, d)
      else update_review noteID newState expectedGeneration d
  end.

Definition UpdateReviewState ownerID noteID newState expectedGeneration (d : tdb) : result store_error unit * tdb :=
  UpdateReviewState_on d ownerID noteID newState expectedGeneration d.

Definition SetReviewState (noteID state : string) (expectedGeneration : Z) (d : tdb) : result store_error unit * tdb :=
  update_review noteID state expectedGeneration d.

(** The tables as the generation-bound writes of [notes.go] see them. *)
Definition note_tables (rest : tables) (d : tdb) : tables :=
  mkTables (d_notes d) (t_bodies rest) (t_tags rest) (t_note_tags rest)
    (map (fun x => mkTranscript (ts_note x) (ts_generation x)) (d_transcripts d)) (t_events rest) (t_people rest)
    (t_aliases rest) (t_folders rest) (t_filings rest).
