(* ===== verification/TranscriptsProps.v ===== *)
(** Properties of transcripts: what a replacement leaves, what it fences off,
    and the reviewer's edits. *)

From stdpp Require Import base list strings sets gmap sorting.
From Stdlib Require Import Ascii ZArith Lia SpecFloat.
From S2P Require Import GoInt GoStrings Sql Folders Execution Notes NotesProps Transcripts.

Local Open Scope string_scope.

(** ** The invariant *)

Definition transcript_ok (d : tdb) (x : transcript_row) : Prop :=
  ts_note x ∈ map row_id (d_notes d) /\ ts_sealed x = false /\ (1 <= ts_generation x)%Z.

(** A segment is provisional exactly when a stream wrote it. *)
Definition segment_ok (d : tdb) (s : segment_row) : Prop :=
  exists x, x ∈ d_transcripts d /\ ts_id x = sg_transcript s /\
    (Provisional (sg_data s) = true <-> ts_stream x <> None).

Definition gap_ok (d : tdb) (g : gap_row) : Prop :=
  exists x, x ∈ d_transcripts d /\ ts_id x = gp_transcript g /\ ts_stream x = Some (gp_stream g).

Definition tdb_ok (d : tdb) : Prop :=
  NoDup (map ts_id (d_transcripts d)) /\ NoDup (map ts_note (d_transcripts d)) /\ NoDup (map sg_id (d_segments d)) /\
  (forall x, x ∈ d_transcripts d -> transcript_ok d x) /\
  (forall s, s ∈ d_segments d -> segment_ok d s) /\ (forall g, g ∈ d_gaps d -> gap_ok d g).

Lemma of_note_true n x : of_note n x = true <-> ts_note x = n.
Proof. apply String.eqb_eq. Qed.

(** *** Deletion *)

Lemma gone_false p d x :
  NoDup (map ts_id (d_transcripts d)) -> x ∈ d_transcripts d ->
  exists_where (fun y => (ts_id y =? ts_id x)%string && p y) (d_transcripts d) = p x.
Proof.
  intros Hnd Hx. destruct (p x) eqn:Ep.
  - apply exists_where_true. exists x. by rewrite String.eqb_refl.
  - apply exists_where_false. intros y Hy. apply not_true_iff_false.
    intros [Hid%String.eqb_eq Hp]%andb_true_iff. assert (y = x) as -> by by apply (key_unique ts_id (d_transcripts d)).
    congruence.
Qed.

Lemma delete_transcripts_ok p d : tdb_ok d -> tdb_ok (delete_transcripts p d).
Proof.
  intros (H1 & H2 & H3 & H4 & H5 & H6). split_and!; cbn; try (by apply NoDup_map_delete).
  - intros x [Hx _]%elem_of_delete_where. by apply H4.
  - intros s [Hs Hno]%elem_of_delete_where. destruct (H5 s Hs) as (x & Hx & E & Hp). exists x. split; [|done].
    cbn. apply elem_of_delete_where. split; [done|]. by rewrite <- E, gone_false in Hno.
  - intros g [Hg Hno]%elem_of_delete_where. destruct (H6 g Hg) as (x & Hx & E & Hp). exists x. split; [|done].
    cbn. apply elem_of_delete_where. split; [done|]. by rewrite <- E, gone_false in Hno.
Qed.

(** Sealing a row that the same transaction deletes leaves no trace. *)
Lemma seal_then_delete n d p :
  NoDup (map ts_id (d_transcripts d)) -> prior_transcript n d = Some p ->
  delete_transcripts (of_note n) (seal_prior (Some p) d) = delete_transcripts (of_note n) d.
Proof.
  intros Hnd Hp. unfold prior_transcript in Hp. destruct (select_where _ _) as [|q l] eqn:E; [done|]. injection Hp as ->.
  apply select_elem in E as [Hp Hn%of_note_true].
  unfold delete_transcripts, seal_prior. cbn [d_notes d_transcripts d_segments d_gaps].
  assert (Hgone : forall id, exists_where (fun x => (ts_id x =? id)%string && of_note n x)
      (update_where (fun x => (ts_id x =? ts_id p)%string) seal (d_transcripts d))
    = exists_where (fun x => (ts_id x =? id)%string && of_note n x) (d_transcripts d)) by (intros id; by apply exists_update).
  assert (E : forall {A} (h : A -> string) t,
    delete_where (fun s => exists_where (fun x => (ts_id x =? h s)%string && of_note n x)
      (update_where (fun x => (ts_id x =? ts_id p)%string) seal (d_transcripts d))) t =
    delete_where (fun s => exists_where (fun x => (ts_id x =? h s)%string && of_note n x) (d_transcripts d)) t).
  { intros A h t. unfold delete_where. apply filter_ext. intros s. by rewrite Hgone. }
  rewrite (E _ sg_transcript), (E _ gp_transcript), delete_update; [done|done|].
  intros x Hx Hid%String.eqb_eq. apply of_note_true.
  assert (x = p) as -> by by apply (key_unique ts_id (d_transcripts d)). done.
Qed.

(** *** Insertion *)

Lemma insert_transcript_ok x d d' :
  tdb_ok d -> ts_sealed x = false -> (1 <= ts_generation x)%Z -> insert_transcript x d = Some d' ->
  tdb_ok d' /\ d' = mkTdb (d_notes d) (d_transcripts d ++ [x])%list (d_segments d) (d_gaps d) /\
  (forall y, y ∈ d_transcripts d -> ts_id y <> ts_id x /\ ts_note y <> ts_note x).
Proof.
  intros (H1 & H2 & H3 & H4 & H5 & H6) Hs Hg. unfold insert_transcript.
  destruct (exists_where _ (d_transcripts d)) eqn:Ee; [done|]. destruct (negb _) eqn:En; [done|]. intros [= <-].
  rewrite exists_where_false in Ee. apply negb_false_iff, exists_where_true in En as (r & Hr & Hid%note_is_true).
  assert (Hne : forall y, y ∈ d_transcripts d -> ts_id y <> ts_id x /\ ts_note y <> ts_note x).
  { intros y Hy. specialize (Ee y Hy). apply orb_false_iff in Ee as [?%String.eqb_neq ?%String.eqb_neq]. done. }
  split; [|done]. split_and!; cbn.
  - rewrite map_app. apply NoDup_snoc; [done|]. intros (y & E & Hy)%list_elem_of_fmap. by destruct (Hne y Hy).
  - rewrite map_app. apply NoDup_snoc; [done|]. intros (y & E & Hy)%list_elem_of_fmap. by destruct (Hne y Hy).
  - done.
  - intros y [Hy|Hy%list_elem_of_singleton]%elem_of_app; [by apply H4|]. subst y. split; [|done].
    rewrite <- Hid. apply list_elem_of_fmap. eauto.
  - intros s Hs'. destruct (H5 s Hs') as (y & Hy & ?). exists y. split; [apply elem_of_app; by left|done].
  - intros g Hg'. destruct (H6 g Hg') as (y & Hy & ?). exists y. split; [apply elem_of_app; by left|done].
Qed.

Lemma insert_segment_ok s d d' x :
  tdb_ok d -> x ∈ d_transcripts d -> ts_id x = sg_transcript s ->
  (Provisional (sg_data s) = true <-> ts_stream x <> None) -> insert_segment s d = Some d' ->
  tdb_ok d' /\ d' = mkTdb (d_notes d) (d_transcripts d) (d_segments d ++ [s])%list (d_gaps d).
Proof.
  intros (H1 & H2 & H3 & H4 & H5 & H6) Hx Hid Hp. unfold insert_segment.
  destruct (exists_where _ (d_segments d)) eqn:Ee; [done|]. destruct (negb _); [done|]. intros [= <-].
  rewrite exists_where_false in Ee. split; [|done]. split_and!; cbn; try done.
  - rewrite map_app. apply NoDup_snoc; [done|]. intros (y & E & Hy)%list_elem_of_fmap. specialize (Ee y Hy).
    apply String.eqb_neq in Ee. congruence.
  - intros y [Hy|Hy%list_elem_of_singleton]%elem_of_app; [by apply H5|]. subst y. by exists x.
Qed.

(** The rows a batch save inserts, and the segments it returns. *)
Fixpoint batch_rows (fresh : nat -> string) (i : nat) (tid : string) (segs : list Segment) : list segment_row :=
  match segs with
  | [] => []
  | seg :: rest => mkSegmentRow tid (stored_segment (fresh i) "" false seg) :: batch_rows fresh (S i) tid rest
  end.

Lemma batch_rows_transcript fresh i tid segs s : s ∈ batch_rows fresh i tid segs -> sg_transcript s = tid.
Proof.
  revert i. induction segs as [|seg segs IH]; intros i; cbn; [by intros ?%elem_of_nil|].
  intros [->|H]%elem_of_cons; [done|by eapply IH].
Qed.

Lemma insert_segments_ok fresh i tid segs d out d' x :
  tdb_ok d -> x ∈ d_transcripts d -> ts_id x = tid -> ts_stream x = None ->
  insert_segments fresh i tid segs d = Some (out, d') ->
  tdb_ok d' /\ d' = mkTdb (d_notes d) (d_transcripts d) (d_segments d ++ batch_rows fresh i tid segs)%list (d_gaps d).
Proof.
  revert i d out. induction segs as [|seg segs IH]; intros i d out Hok Hx Hid Hstr; cbn [insert_segments].
  { intros [= <- <-]. split; [done|]. cbn. rewrite app_nil_r. by destruct d. }
  destruct (insert_segment _ d) as [d1|] eqn:E1; [|done]. cbn [mbind option_bind].
  apply (insert_segment_ok _ _ _ x) in E1 as [Hok1 ->]; [|done..|cbn; rewrite Hstr; by split].
  destruct (insert_segments _ _ _ _ _) as [[out' d2]|] eqn:E2; [|done]. intros [= _ <-].
  apply IH in E2 as [Hok2 ->]; [|done..]. split; [done|]. cbn. by rewrite <- app_assoc.
Qed.

(** *** The two replacements *)

Lemma prior_elem n d x : prior_transcript n d = Some x -> x ∈ d_transcripts d /\ ts_note x = n.
Proof.
  unfold prior_transcript. destruct (select_where _ _) as [|y l] eqn:E; [done|]. intros [= ->].
  by apply select_elem in E as [? ?%of_note_true].
Qed.

Lemma prior_intro n d x : tdb_ok d -> x ∈ d_transcripts d -> ts_note x = n -> prior_transcript n d = Some x.
Proof.
  intros (_ & H2 & _) Hx <-. unfold prior_transcript.
  by rewrite (select_key ts_note _ _ x H2 Hx (proj2 (of_note_true _ _) eq_refl)) by (by intros y _ ->%of_note_true).
Qed.

Lemma CurrentGeneration_nonneg n d : tdb_ok d -> (0 <= CurrentTranscriptGeneration n d)%Z.
Proof.
  intros (_ & _ & _ & H4 & _). unfold CurrentTranscriptGeneration.
  destruct (prior_transcript n d) as [x|] eqn:E; [|done]. apply prior_elem in E as [Hx _]. destruct (H4 x Hx) as (_ & _ & ?).
  lia.
Qed.

Lemma tdb_ok_notes p d :
  tdb_ok d -> tdb_ok (mkTdb (update_where p (set_job None) (d_notes d)) (d_transcripts d) (d_segments d) (d_gaps d)).
Proof.
  intros (H1 & H2 & H3 & H4 & H5 & H6). split_and!; try done. cbn. intros x Hx. destruct (H4 x Hx) as (Hn & ? & ?).
  split; [|done]. cbn. rewrite map_update_where; [done|]. intros r. by destruct r.
Qed.

(** Replacing a note's transcript by a new row of the next generation. *)
Definition replaced (n : string) (x : transcript_row) (segs : list segment_row) (notes' : list note_row) (d d' : tdb) : Prop :=
  exists d1, d1 = delete_transcripts (of_note n) d /\
    d' = mkTdb notes' (d_transcripts d1 ++ [x])%list (d_segments d1 ++ segs)%list (d_gaps d1) /\
    (forall y, y ∈ d_transcripts d1 -> ts_id y <> ts_id x).

Lemma delete_none n d : tdb_ok d -> prior_transcript n d = None -> delete_transcripts (of_note n) d = d.
Proof.
  intros Hok Hp. assert (Hno : forall x, x ∈ d_transcripts d -> of_note n x = false).
  { intros x Hx. apply not_true_iff_false. intros Hn%of_note_true. by rewrite (prior_intro n d x) in Hp. }
  assert (E : forall {A} (q : A -> bool) t, (forall x, x ∈ t -> q x = false) -> delete_where q t = t).
  { intros A q t. unfold delete_where. induction t as [|x t IH]; cbn; [done|]. intros H. rewrite (H x) by left. cbn.
    rewrite IH; [done|]. intros y Hy. apply H. by right. }
  assert (Hgone : forall id, exists_where (fun x => (ts_id x =? id)%string && of_note n x) (d_transcripts d) = false).
  { intros id. apply exists_where_false. intros x Hx. by rewrite Hno, andb_false_r. }
  unfold delete_transcripts. rewrite !E; [by destruct d|..]; auto.
Qed.

Lemma SaveTranscript_ok uuid fresh tr g d t :
  tdb_ok d -> (SaveTranscript uuid fresh tr g d).1 = Ok t ->
  let n := T_NoteID tr in
  let x := mkTranscriptRow uuid n (TranscriberPlugin tr) (T_Model tr) (review_state_of (T_Segments tr)) None false (g + 1) in
  CurrentTranscriptGeneration n d = g /\ Generation t = (g + 1)%Z /\ tdb_ok (SaveTranscript uuid fresh tr g d).2 /\
  replaced n x (batch_rows fresh 0 uuid (T_Segments tr)) (update_where (note_is n) (set_job None) (d_notes d)) d
    (SaveTranscript uuid fresh tr g d).2.
Proof.
  intros Hok. cbn zeta. unfold SaveTranscript. set (d1 := mkTdb _ _ _ _).
  assert (Hok1 : tdb_ok d1) by by apply tdb_ok_notes.
  change (prior_transcript (T_NoteID tr) d1) with (prior_transcript (T_NoteID tr) d).
  change (match prior_transcript (T_NoteID tr) d with None => 0%Z | Some x => ts_generation x end)
    with (CurrentTranscriptGeneration (T_NoteID tr) d).
  destruct (Z.eqb_spec (CurrentTranscriptGeneration (T_NoteID tr) d) g) as [<-|Hne]; cbn [negb]; [|done].
  set (g := CurrentTranscriptGeneration (T_NoteID tr) d).
  replace (match prior_transcript (T_NoteID tr) d with None => 1%Z | Some _ => (g + 1)%Z end) with (g + 1)%Z
    by (unfold g, CurrentTranscriptGeneration; by destruct (prior_transcript _ _)).
  assert (Ed : delete_transcripts (of_note (T_NoteID tr)) (seal_prior (prior_transcript (T_NoteID tr) d) d1)
    = delete_transcripts (of_note (T_NoteID tr)) d1).
  { destruct (prior_transcript (T_NoteID tr) d) as [p|] eqn:Ep; [|done]. apply seal_then_delete; [apply Hok1|exact Ep]. }
  rewrite Ed. clear Ed. destruct (insert_transcript _ _) as [d3|] eqn:E3; [|done]. cbn [mbind option_bind].
  assert (Hg := CurrentGeneration_nonneg (T_NoteID tr) d Hok).
  apply insert_transcript_ok in E3 as (Hok3 & -> & Hfresh); [|by apply delete_transcripts_ok|done|cbn; lia].
  destruct (insert_segments _ _ _ _ _) as [[segs d4]|] eqn:E4; [|done]. intros [= <-].
  eapply insert_segments_ok in E4 as [Hok4 ->]; [|done|apply elem_of_app; right; by apply list_elem_of_singleton|done..].
  split_and!; [done..|]. exists (delete_transcripts (of_note (T_NoteID tr)) d). split_and!; [done..|].
  intros y Hy. by destruct (Hfresh y Hy).
Qed.

Lemma SaveTranscript_err uuid fresh tr g d e :
  (SaveTranscript uuid fresh tr g d).1 = Err e -> (SaveTranscript uuid fresh tr g d).2 = d.
Proof.
  unfold SaveTranscript. destruct (negb _); [done|]. by destruct (_ ≫= _) as [[]|].
Qed.

Lemma CreateStream_ok uuid n sid plugin model g d t :
  tdb_ok d -> (CreateStreamTranscript uuid n sid plugin model g d).1 = Ok t ->
  let x := mkTranscriptRow uuid n plugin model ReviewStateCompleted (Some sid) false (g + 1) in
  CurrentTranscriptGeneration n d = g /\ tdb_ok (CreateStreamTranscript uuid n sid plugin model g d).2 /\
  (forall p, prior_transcript n d = Some p -> ts_stream p <> None) /\
  replaced n x [] (d_notes d) d (CreateStreamTranscript uuid n sid plugin model g d).2.
Proof.
  intros Hok. cbn zeta. unfold CreateStreamTranscript.
  change (match prior_transcript n d with None => 0%Z | Some x => ts_generation x end) with (CurrentTranscriptGeneration n d).
  destruct (match prior_transcript n d with Some x => bool_decide (ts_stream x = None) | None => false end) eqn:Eb; [done|].
  destruct (Z.eqb_spec (CurrentTranscriptGeneration n d) g) as [<-|Hne]; cbn [negb]; [|done].
  set (d1 := match prior_transcript n d with Some _ => _ | None => d end).
  assert (Ed : d1 = delete_transcripts (of_note n) d).
  { unfold d1. destruct (prior_transcript n d) as [p|] eqn:Ep; [apply seal_then_delete; [apply Hok|exact Ep]|].
    by rewrite delete_none. }
  rewrite Ed. clear d1 Ed. assert (Hg := CurrentGeneration_nonneg n d Hok).
  destruct (insert_transcript _ _) as [d2|] eqn:E2; [|done]. intros _. cbn [snd].
  apply insert_transcript_ok in E2 as (Hok2 & -> & Hfresh); [|by apply delete_transcripts_ok|done|cbn; lia].
  split_and!; [done..| |].
  - intros p Ep. rewrite Ep in Eb. by apply bool_decide_eq_false in Eb.
  - exists (delete_transcripts (of_note n) d). rewrite app_nil_r. split_and!; [done..|]. intros y Hy. by destruct (Hfresh y Hy).
Qed.

Lemma CreateStream_err uuid n sid plugin model g d e :
  (CreateStreamTranscript uuid n sid plugin model g d).1 = Err e ->
  (CreateStreamTranscript uuid n sid plugin model g d).2 = d.
Proof. unfold CreateStreamTranscript. by repeat (case_match; try done). Qed.

(** What readers see of a replacement. *)
Lemma replaced_prior n x segs ns d d' :
  replaced n x segs ns d d' -> ts_note x = n ->
  prior_transcript n d' = Some x /\ (forall m, m <> n -> prior_transcript m d' = prior_transcript m d).
Proof.
  intros (d1 & -> & -> & _) Hn. unfold prior_transcript. cbn [d_transcripts]. split; [|intros m Hm];
    rewrite select_app; cbn [delete_transcripts d_transcripts].
  - rewrite select_none; [cbn; by rewrite (proj2 (of_note_true n x) Hn)|].
    intros y [_ Hy]%elem_of_delete_where. done.
  - rewrite select_delete; [|intros y _ Hy%of_note_true; apply not_true_iff_false; intros Hy'%of_note_true; congruence].
    unfold select_where at 2. cbn [List.filter]. destruct (of_note m x) eqn:E; [|by rewrite app_nil_r].
    apply of_note_true in E. congruence.
Qed.

Lemma replaced_segments n x segs ns d d' y :
  tdb_ok d -> replaced n x segs ns d d' -> (forall s, s ∈ segs -> sg_transcript s = ts_id x) ->
  y ∈ d_transcripts d -> ts_note y <> n -> segments_of (ts_id y) d' = segments_of (ts_id y) d /\
    select_where (fun g => (gp_transcript g =? ts_id y)%string) (d_gaps d') =
    select_where (fun g => (gp_transcript g =? ts_id y)%string) (d_gaps d).
Proof.
  intros (H1 & _) (d1 & -> & -> & Hfresh) Hsegs Hy Hn.
  assert (Hkeep : of_note n y = false) by (apply not_true_iff_false; by intros ?%of_note_true).
  assert (Hne : ts_id y <> ts_id x) by (apply Hfresh; cbn; by apply elem_of_delete_where).
  split; [unfold segments_of|]; cbn [d_segments d_gaps delete_transcripts].
  - rewrite select_app, select_delete.
    + rewrite (select_none _ segs), app_nil_r; [done|]. intros s Hs. apply String.eqb_neq. rewrite (Hsegs s Hs). done.
    + intros s _ Hs%String.eqb_eq. by rewrite Hs, gone_false.
  - apply select_delete. intros g _ Hg%String.eqb_eq. by rewrite Hg, gone_false.
Qed.

Lemma replaced_own n x segs ns d d' :
  tdb_ok d -> replaced n x segs ns d d' -> (forall s, s ∈ segs -> sg_transcript s = ts_id x) ->
  segments_of (ts_id x) d' = segs /\ select_where (fun g => (gp_transcript g =? ts_id x)%string) (d_gaps d') = [].
Proof.
  intros Hok (d1 & -> & -> & Hfresh) Hsegs. destruct (delete_transcripts_ok (of_note n) d Hok) as (_ & _ & _ & _ & H5 & H6).
  unfold segments_of. cbn [d_segments d_gaps]. rewrite select_app. split.
  - rewrite select_none; [|intros s Hs; apply String.eqb_neq; destruct (H5 s Hs) as (y & Hy & <- & _); by apply Hfresh].
    cbn. clear -Hsegs. induction segs as [|s segs IH]; cbn; [done|].
    rewrite (Hsegs s) by left. rewrite String.eqb_refl. f_equal. apply IH. intros y Hy. apply Hsegs. by right.
  - apply select_none. intros g Hg. apply String.eqb_neq. destruct (H6 g Hg) as (y & Hy & <- & _). by apply Hfresh.
Qed.

(** ** Saving *)

(** What a batch save stores of a segment under its new id. *)
Definition saved (fresh : nat -> string) (i : nat) (seg : Segment) : Segment := stored_segment (fresh i) "" false seg.

Lemma batch_rows_data fresh tid segs : forall i,
  map sg_data (batch_rows fresh i tid segs) = imap (fun k seg => saved fresh (i + k) seg) segs.
Proof.
  induction segs as [|seg segs IH]; intros i; cbn; [done|]. rewrite Nat.add_0_r, IH. f_equal.
  apply imap_ext. intros k x _. cbn. unfold saved. by rewrite Nat.add_succ_r.
Qed.

(** Saving a transcript is optimistic and whole.  It fails with
    [ErrGenerationMismatch] exactly when the note's generation is not the
    expected one, and then (and on any error) changes nothing.  Otherwise the
    note has the new transcript only, one generation up, with no gap and all
    its segments in order of time, and needs a review exactly when some speaker
    label is not one that channels determine; the job's claim on the note is
    cleared, its status kept; other notes' transcripts stay as they were. *)
Theorem SaveTranscript_replaces uuid fresh tr g d :
  tdb_ok d ->
  let n := T_NoteID tr in
  match SaveTranscript uuid fresh tr g d with
  | (Ok t, d') =>
      CurrentTranscriptGeneration n d = g /\ Generation t = (g + 1)%Z /\ CurrentTranscriptGeneration n d' = (g + 1)%Z /\
      (exists t', GetTranscript n d' = Ok t' /\ T_ID t' = uuid /\ StreamID t' = None /\ Gaps t' = [] /\
         T_Segments t' ≡ₚ imap (saved fresh) (T_Segments tr) /\
         StronglySorted (fun a b => (StartMS a <= StartMS b)%Z) (T_Segments t') /\
         ReviewState t' = (if existsb (fun seg => negb (Speaker seg =? "")%string &&
                              negb (isDeterministicChannelSpeaker (Speaker seg))) (T_Segments tr)
                           then ReviewStatePending else ReviewStateCompleted)) /\
      d_notes d' = update_where (note_is n) (set_job None) (d_notes d) /\
      (forall m, m <> n -> GetTranscript m d' = GetTranscript m d)
  | (Err e, d') => d' = d /\ (e = ErrGenerationMismatch <-> CurrentTranscriptGeneration n d <> g)
  end.
Proof.
  intros Hok. cbn zeta. pose proof (SaveTranscript_ok uuid fresh tr g d) as HOk.
  pose proof (SaveTranscript_err uuid fresh tr g d) as HErr.
  assert (HE : forall e, (SaveTranscript uuid fresh tr g d).1 = Err e ->
    e = ErrGenerationMismatch <-> CurrentTranscriptGeneration (T_NoteID tr) d <> g).
  { clear. intros e. unfold SaveTranscript.
    change (prior_transcript (T_NoteID tr) (mkTdb _ (d_transcripts d) (d_segments d) (d_gaps d))) with (prior_transcript (T_NoteID tr) d).
    change (match prior_transcript (T_NoteID tr) d with None => 0%Z | Some x => ts_generation x end)
      with (CurrentTranscriptGeneration (T_NoteID tr) d).
    destruct (Z.eqb_spec (CurrentTranscriptGeneration (T_NoteID tr) d) g) as [E|Hne]; cbn [negb]; [|by intros [= <-]].
    destruct (_ ≫= _) as [[]|]; [done|]. intros [= <-]. split; [done|]. congruence. }
  destruct (SaveTranscript uuid fresh tr g d) as [[t|e] d']; cbn [fst snd] in *.
  2: { split; [by eapply HErr|by apply HE]. }
  destruct (HOk t Hok eq_refl) as (E1 & E2 & Hok' & Hrep). clear HOk HErr HE.
  set (x := mkTranscriptRow _ _ _ _ _ _ _ _) in *. destruct (replaced_prior _ _ _ _ _ _ Hrep eq_refl) as [Hp Hother].
  assert (Hsegs : forall s, s ∈ batch_rows fresh 0 uuid (T_Segments tr) -> sg_transcript s = ts_id x)
    by (intros s Hs; by eapply batch_rows_transcript).
  destruct (replaced_own _ _ _ _ _ _ Hok Hrep Hsegs) as [Hs Hg].
  split_and!; [done|done|unfold CurrentTranscriptGeneration; by rewrite Hp| | |].
  - unfold GetTranscript, getTranscriptTx. rewrite Hp. eexists. split; [done|]. cbn [T_ID StreamID Gaps T_Segments ReviewState].
    rewrite Hs, Hg. split_and!; [done..| | |done].
    + rewrite (Permutation_map _ (order_by_perm _ _)), batch_rows_data. done.
    + pose proof (order_by_le starts_before (fun s => StartMS (sg_data s)) (batch_rows fresh 0 uuid (T_Segments tr))
        ltac:(done)) as Hsort.
      induction Hsort as [|s l Hl IH Hh]; cbn; constructor; [done|]. apply Forall_map. exact Hh.
  - destruct Hrep as (d1 & _ & -> & _). done.
  - intros m Hm. unfold GetTranscript, getTranscriptTx. rewrite (Hother m Hm).
    destruct (prior_transcript m d) as [y|] eqn:Ey; [|done]. apply prior_elem in Ey as [Hy Hym].
    destruct (replaced_segments _ _ _ _ _ _ y Hok Hrep Hsegs Hy) as [-> ->]; [congruence|done].
Qed.

(** ** Histories *)

(** The reads that precede a write in a statement of their own may be of any
    earlier state [seen]. *)
Inductive transcript_op :=
| TSave (uuid : string) (fresh : nat -> string) (tr : Transcript) (g : Z)
| TStream (uuid n sid plugin model : string) (g : Z)
| TSegment (uuid tid sid : string) (seg : Segment)
| TGap (uuid tid sid : string) (gap : TranscriptGap)
| TConfirm (seen : tdb) (o n seg speaker : string) (g : Z)
| TReview (seen : tdb) (o n state : string) (g : Z)
| TSetReview (n state : string) (g : Z).

Definition transcript_perform (op : transcript_op) (d : tdb) : tdb :=
  match op with
  | TSave uuid fresh tr g => (SaveTranscript uuid fresh tr g d).2
  | TStream uuid n sid plugin model g => (CreateStreamTranscript uuid n sid plugin model g d).2
  | TSegment uuid tid sid seg => (AppendStreamSegment uuid tid sid seg d).2
  | TGap uuid tid sid gap => (AppendTranscriptGap uuid tid sid gap d).2
  | TConfirm seen o n seg speaker g => (ConfirmSegmentSpeaker_on seen (fun d => d) o n seg speaker g d).2
  | TReview seen o n state g => (UpdateReviewState_on seen o n state g d).2
  | TSetReview n state g => (SetReviewState n state g d).2
  end.

Fixpoint transcript_history (ops : list transcript_op) (d : tdb) : tdb :=
  match ops with [] => d | op :: rest => transcript_history rest (transcript_perform op d) end.

Lemma update_review_ok n state g d : tdb_ok d -> tdb_ok (update_review n state g d).2.
Proof.
  intros Hok. unfold update_review. destruct (_ =? 0)%nat; [done|]. cbn [snd].
  destruct Hok as (H1 & H2 & H3 & H4 & H5 & H6).
  assert (Hin : forall x, x ∈ d_transcripts d -> exists y, ts_id y = ts_id x /\ ts_stream y = ts_stream x /\
    y ∈ update_where (fun x => of_note n x && (ts_generation x =? g)%Z) (set_review state) (d_transcripts d)).
  { intros x Hx. eexists. split_and!; [..|apply elem_of_update_where; by exists x]; by destruct (_ && _). }
  split_and!; cbn; try (by rewrite map_update_where); try done.
  - intros x (y & Hy & ->)%elem_of_update_where. destruct (H4 y Hy) as (? & ? & ?). by destruct (_ && _).
  - intros s Hs. destruct (H5 s Hs) as (x & Hx & E & Hp). destruct (Hin x Hx) as (y & E1 & E2 & Hy). exists y.
    cbn. by rewrite E1, E2.
  - intros s Hs. destruct (H6 s Hs) as (x & Hx & E & Hp). destruct (Hin x Hx) as (y & E1 & E2 & Hy). exists y.
    cbn. by rewrite E1, E2.
Qed.

Lemma set_speakers_ok hit speaker d :
  tdb_ok d -> tdb_ok (mkTdb (d_notes d) (d_transcripts d) (update_where hit (set_speaker speaker) (d_segments d)) (d_gaps d)).
Proof.
  intros (H1 & H2 & H3 & H4 & H5 & H6). split_and!; cbn; try done; [by rewrite map_update_where|].
  intros s (y & Hy & ->)%elem_of_update_where. destruct (H5 y Hy) as (x & Hx & E & Hp). exists x. by destruct (hit y).
Qed.

Lemma Confirm_state seen o n seg speaker g d :
  (ConfirmSegmentSpeaker_on seen (fun d => d) o n seg speaker g d).2 = d \/
  (ConfirmSegmentSpeaker_on seen (fun d => d) o n seg speaker g d).2 =
    mkTdb (d_notes d) (d_transcripts d) (update_where (confirmable o n seg g d) (set_speaker speaker) (d_segments d)) (d_gaps d).
Proof. unfold ConfirmSegmentSpeaker_on. cbn zeta. repeat (case_match; try by left). by right. Qed.

Lemma streaming_to_true tid sid d :
  tdb_ok d -> exists_where (streaming_to tid sid) (d_transcripts d) = true <->
  exists x, x ∈ d_transcripts d /\ ts_id x = tid /\ ts_stream x = Some sid.
Proof.
  intros (_ & _ & _ & H4 & _). rewrite exists_where_true. unfold streaming_to. split.
  - intros (x & Hx & [[Hid%String.eqb_eq Hs%bool_decide_eq_true]%andb_true_iff _]%andb_true_iff). eauto.
  - intros (x & Hx & Hid & Hs). exists x. destruct (H4 x Hx) as (_ & Hseal & _).
    by rewrite !andb_true_iff, String.eqb_eq, bool_decide_eq_true, Hseal.
Qed.

(** The result of a live append, when the stream still owns the transcript. *)
Lemma AppendStreamSegment_ok uuid tid sid seg d :
  tdb_ok d -> tdb_ok (AppendStreamSegment uuid tid sid seg d).2 /\
  d_transcripts (AppendStreamSegment uuid tid sid seg d).2 = d_transcripts d.
Proof.
  intros Hok. unfold AppendStreamSegment. destruct (exists_where _ _) eqn:Ee; cbn [negb]; [|done].
  apply streaming_to_true in Ee as (x & Hx & Hid & Hs); [|done]. destruct (insert_segment _ _) as [d'|] eqn:E; [|done].
  eapply insert_segment_ok in E as [Hok' ->]; [done|done|exact Hx|done|]. cbn. by rewrite Hs.
Qed.

Lemma AppendTranscriptGap_ok uuid tid sid g d :
  tdb_ok d -> tdb_ok (AppendTranscriptGap uuid tid sid g d).2 /\
  d_transcripts (AppendTranscriptGap uuid tid sid g d).2 = d_transcripts d.
Proof.
  intros Hok. unfold AppendTranscriptGap. destruct (exists_where _ (d_transcripts d)) eqn:Ee; cbn [negb]; [|done].
  apply streaming_to_true in Ee as (x & Hx & Hid & Hs); [|done]. case_match; [done|]. cbn [snd]. split; [|done].
  destruct Hok as (H1 & H2 & H3 & H4 & H5 & H6). split_and!; try done. cbn.
  intros h [Hh|Hh%list_elem_of_singleton]%elem_of_app; [by apply H6|]. subst h. by exists x.
Qed.

Lemma transcript_perform_ok op d : tdb_ok d -> tdb_ok (transcript_perform op d).
Proof.
  intros Hok. destruct op; cbn [transcript_perform].
  - destruct (SaveTranscript uuid fresh tr g d).1 as [t|e] eqn:E; [by eapply SaveTranscript_ok|].
    by rewrite (SaveTranscript_err _ _ _ _ _ _ E).
  - destruct (CreateStreamTranscript uuid n sid plugin model g d).1 as [t|e] eqn:E; [by eapply CreateStream_ok|].
    by rewrite (CreateStream_err _ _ _ _ _ _ _ _ E).
  - by apply AppendStreamSegment_ok.
  - by apply AppendTranscriptGap_ok.
  - destruct (Confirm_state seen o n seg speaker g d) as [-> | ->]; [done|by apply set_speakers_ok].
  - unfold UpdateReviewState_on. repeat (case_match; try done). by apply update_review_ok.
  - by apply update_review_ok.
Qed.

(** C8. Through any history of saves, streams, live appends and reviews, also when
    a request's reads are of older states than its write: each note has at most
    one transcript, never a sealed one; every segment and gap belongs to a
    transcript; a batch transcript holds no provisional segment and no gap; and
    a gap carries its transcript's stream. *)
Theorem transcript_tables_invariant ops d : tdb_ok d -> tdb_ok (transcript_history ops d).
Proof.
  revert d. induction ops as [|op ops IH]; intros d Hok; cbn; [done|]. by apply IH, transcript_perform_ok.
Qed.

(** ** Fences *)

(** What a step makes of a note's transcript [x]: the same one, perhaps with
    another review state, or one of the next generation. *)
Definition follows (x : transcript_row) (o : option transcript_row) : Prop :=
  match o with
  | Some y => (ts_id y = ts_id x /\ ts_generation y = ts_generation x /\ ts_stream y = ts_stream x) \/
              ts_generation y = (ts_generation x + 1)%Z
  | None => False
  end.

Section Follows.
Context (d : tdb) (n : string) (x : transcript_row).
Hypothesis Hx : prior_transcript n d = Some x.

Lemma follows_same d' : d_transcripts d' = d_transcripts d -> follows x (prior_transcript n d').
Proof. intros E. unfold prior_transcript in *. rewrite E, Hx. by left. Qed.

Lemma follows_replaced m y segs ns d' :
  replaced m y segs ns d d' -> ts_note y = m -> ts_generation y = (CurrentTranscriptGeneration m d + 1)%Z ->
  follows x (prior_transcript n d').
Proof.
  intros Hr Hn Hg. destruct (replaced_prior _ _ _ _ _ _ Hr Hn) as [Hp Ho]. destruct (decide (n = m)) as [<-|Hne].
  - rewrite Hp. right. rewrite Hg. unfold CurrentTranscriptGeneration. by rewrite Hx.
  - rewrite Ho, Hx by done. by left.
Qed.

Lemma prior_update p state :
  head (select_where (of_note n) (update_where p (set_review state) (d_transcripts d))) =
  Some (if p x then set_review state x else x).
Proof.
  revert Hx. unfold prior_transcript, select_where, update_where. induction (d_transcripts d) as [|r t IH]; cbn; [done|].
  assert (E : of_note n (if p r then set_review state r else r) = of_note n r) by by destruct (p r).
  rewrite E. destruct (of_note n r); cbn; [by intros [= ->]|done].
Qed.

Lemma follows_review m state g : follows x (prior_transcript n (update_review m state g d).2).
Proof.
  unfold update_review. destruct (_ =? 0)%nat; [by apply follows_same|]. cbn [snd]. unfold prior_transcript.
  cbn [d_transcripts]. rewrite prior_update. left. by destruct (_ && _).
Qed.
End Follows.

Lemma step_follows op d n x :
  tdb_ok d -> prior_transcript n d = Some x -> follows x (prior_transcript n (transcript_perform op d)).
Proof.
  intros Hok Hx. destruct op; cbn [transcript_perform].
  - destruct (SaveTranscript uuid fresh tr g d).1 as [t|e] eqn:E;
      [|rewrite (SaveTranscript_err _ _ _ _ _ _ E); by apply (follows_same d)].
    destruct (SaveTranscript_ok _ _ _ _ _ _ Hok E) as (E1 & _ & _ & Hr).
    eapply (follows_replaced d); [done|exact Hr|done|cbn; congruence].
  - destruct (CreateStreamTranscript uuid n0 sid plugin model g d).1 as [t|e] eqn:E;
      [|rewrite (CreateStream_err _ _ _ _ _ _ _ _ E); by apply (follows_same d)].
    destruct (CreateStream_ok _ _ _ _ _ _ _ _ Hok E) as (E1 & _ & _ & Hr).
    eapply (follows_replaced d); [done|exact Hr|done|cbn; congruence].
  - by apply (follows_same d), AppendStreamSegment_ok.
  - by apply (follows_same d), AppendTranscriptGap_ok.
  - apply (follows_same d); [done|]. by destruct (Confirm_state seen o n0 seg speaker g d) as [-> | ->].
  - unfold UpdateReviewState_on. destruct (owned_transcript _ _ _); [|by apply (follows_same d)].
    destruct (negb _); [by apply (follows_same d)|]. destruct (negb _); [by apply (follows_same d)|].
    by apply follows_review.
  - by apply follows_review.
Qed.

(** Generations never decrease. *)
Lemma history_generation ops d n g :
  tdb_ok d -> (1 <= g <= CurrentTranscriptGeneration n d)%Z -> (g <= CurrentTranscriptGeneration n (transcript_history ops d))%Z.
Proof.
  revert d. induction ops as [|op ops IH]; intros d Hok Hg; cbn; [lia|].
  apply IH; [by apply transcript_perform_ok|]. unfold CurrentTranscriptGeneration in *.
  destruct (prior_transcript n d) as [x|] eqn:Ex; [|lia]. pose proof (step_follows op d n x Hok Ex) as Hf.
  destruct (prior_transcript n (transcript_perform op d)) as [y|]; [|done].
  destruct Hf as [(_ & -> & _)| ->]; lia.
Qed.

(** A write bound to another generation than the note's. *)
Lemma stale_save uuid fresh tr g d :
  CurrentTranscriptGeneration (T_NoteID tr) d <> g -> SaveTranscript uuid fresh tr g d = (Err ErrGenerationMismatch, d).
Proof.
  intros Hne. unfold SaveTranscript.
  change (prior_transcript (T_NoteID tr) (mkTdb _ (d_transcripts d) (d_segments d) (d_gaps d))) with (prior_transcript (T_NoteID tr) d).
  change (match prior_transcript (T_NoteID tr) d with None => 0%Z | Some x => ts_generation x end)
    with (CurrentTranscriptGeneration (T_NoteID tr) d).
  by rewrite (proj2 (Z.eqb_neq _ _) Hne).
Qed.

Lemma stale_stream uuid n sid plugin model g d :
  CurrentTranscriptGeneration n d <> g -> exists e,
  CreateStreamTranscript uuid n sid plugin model g d = (Err e, d) /\ (e = ErrGenerationMismatch \/ e = ErrBatchTranscriptExists).
Proof.
  intros Hne. unfold CreateStreamTranscript.
  change (match prior_transcript n d with None => 0%Z | Some x => ts_generation x end) with (CurrentTranscriptGeneration n d).
  rewrite (proj2 (Z.eqb_neq _ _) Hne). case_match; eauto.
Qed.

Lemma confirmable_generation o n seg g d s :
  tdb_ok d -> confirmable o n seg g d s = true -> CurrentTranscriptGeneration n d = g.
Proof.
  intros Hok [_ (x & Hx & Hc)%exists_where_true]%andb_true_iff.
  rewrite !andb_true_iff, of_note_true, Z.eqb_eq in Hc. destruct Hc as [[[_ Hn] Hg] _].
  unfold CurrentTranscriptGeneration. by rewrite (prior_intro n d x).
Qed.

Lemma stale_confirm seen later o n seg speaker g d :
  tdb_ok d -> CurrentTranscriptGeneration n d <> g -> exists e,
  ConfirmSegmentSpeaker_on seen later o n seg speaker g d = (Err e, d) \/
  ConfirmSegmentSpeaker_on seen later o n seg speaker g d = (Err e, later d).
Proof.
  intros Hok Hne. unfold ConfirmSegmentSpeaker_on. destruct (owned_transcript _ _ seen); [|eauto].
  destruct (negb _); [eauto|].
  assert (E : rows_affected (confirmable o n seg g d) (d_segments d) = 0%nat).
  { unfold rows_affected. fold (select_where (confirmable o n seg g d) (d_segments d)). rewrite select_none; [done|].
    intros s _. apply not_true_iff_false. intros Hc. by apply Hne, (confirmable_generation o n seg g d s). }
  rewrite E. cbn [negb Nat.eqb]. cbn zeta. repeat case_match; eauto.
Qed.

Lemma stale_review n state g d :
  tdb_ok d -> CurrentTranscriptGeneration n d <> g -> update_review n state g d = (Err ErrGenerationMismatch, d).
Proof.
  intros Hok Hne. unfold update_review, rows_affected.
  fold (select_where (fun x => of_note n x && (ts_generation x =? g)%Z) (d_transcripts d)). rewrite select_none; [done|].
  intros x Hx. apply not_true_iff_false. intros [Hn%of_note_true Hg%Z.eqb_eq]%andb_true_iff. apply Hne.
  unfold CurrentTranscriptGeneration. by rewrite (prior_intro n d x).
Qed.

Lemma note_tables_generation rest n d : generation_of n (note_tables rest d) = CurrentTranscriptGeneration n d.
Proof.
  unfold generation_of, CurrentTranscriptGeneration, prior_transcript. cbn [note_tables t_transcripts].
  unfold select_where. induction (d_transcripts d) as [|x t IH]; cbn; [done|].
  unfold of_note at 1. by destruct (ts_note x =? n)%string.
Qed.

(** A replaced transcript's id never comes back, as new ids are fresh. *)
Definition creates (op : transcript_op) : option string :=
  match op with TSave uuid _ _ _ | TStream uuid _ _ _ _ _ => Some uuid | _ => None end.

Lemma step_ids op d id :
  tdb_ok d -> creates op <> Some id -> id ∉ map ts_id (d_transcripts d) ->
  id ∉ map ts_id (d_transcripts (transcript_perform op d)).
Proof.
  intros Hok Hc Hid.
  assert (Hrep : forall m y segs ns d', replaced m y segs ns d d' -> ts_id y <> id -> id ∉ map ts_id (d_transcripts d')).
  { intros m y segs ns d' (d1 & -> & -> & _) Hy. cbn. rewrite map_app.
    intros [(r & -> & [Hr _]%elem_of_delete_where)%list_elem_of_fmap|E%list_elem_of_singleton]%elem_of_app; [|done].
    apply Hid, list_elem_of_fmap. eauto. }
  assert (Hreview : forall m state g, id ∉ map ts_id (d_transcripts (update_review m state g d).2)).
  { intros m state g. unfold update_review. case_match; [done|]. cbn. by rewrite map_update_where. }
  destruct op; cbn [transcript_perform creates] in *.
  - destruct (SaveTranscript uuid fresh tr g d).1 as [t|e] eqn:E; [|by rewrite (SaveTranscript_err _ _ _ _ _ _ E)].
    destruct (SaveTranscript_ok _ _ _ _ _ _ Hok E) as (_ & _ & _ & Hr). eapply Hrep; [exact Hr|]. cbn. congruence.
  - destruct (CreateStreamTranscript uuid n sid plugin model g d).1 as [t|e] eqn:E; [|by rewrite (CreateStream_err _ _ _ _ _ _ _ _ E)].
    destruct (CreateStream_ok _ _ _ _ _ _ _ _ Hok E) as (_ & _ & _ & Hr). eapply Hrep; [exact Hr|]. cbn. congruence.
  - by rewrite (proj2 (AppendStreamSegment_ok _ _ _ _ _ Hok)).
  - by rewrite (proj2 (AppendTranscriptGap_ok _ _ _ _ _ Hok)).
  - by destruct (Confirm_state seen o n seg speaker g d) as [-> | ->].
  - unfold UpdateReviewState_on. repeat (case_match; try done).
  - apply Hreview.
Qed.

Lemma history_ids ops d id :
  tdb_ok d -> Forall (fun op => creates op <> Some id) ops -> id ∉ map ts_id (d_transcripts d) ->
  id ∉ map ts_id (d_transcripts (transcript_history ops d)).
Proof.
  intros Hok Hops. revert d Hok. induction Hops as [|op ops Hop _ IH]; intros d Hok Hid; cbn; [done|].
  apply IH; [by apply transcript_perform_ok|by apply step_ids].
Qed.

(** A successful replacement of [n]'s transcript that expected generation [g],
    under a fresh id. *)
Definition replaces (n : string) (g : Z) (d d1 : tdb) : Prop :=
  exists uuid t, (uuid ∉ map ts_id (d_transcripts d)) /\
    ((exists fresh tr, T_NoteID tr = n /\ SaveTranscript uuid fresh tr g d = (Ok t, d1)) \/
     (exists sid plugin model, CreateStreamTranscript uuid n sid plugin model g d = (Ok t, d1))).

Lemma replaces_result n g d d1 :
  tdb_ok d -> replaces n g d d1 ->
  tdb_ok d1 /\ CurrentTranscriptGeneration n d = g /\ CurrentTranscriptGeneration n d1 = (g + 1)%Z /\
  forall x, prior_transcript n d = Some x -> ts_id x ∉ map ts_id (d_transcripts d1).
Proof.
  intros Hok (uuid & t & Hfresh & Hcase).
  assert (H : exists y segs ns, ts_id y = uuid /\ ts_note y = n /\ ts_generation y = (g + 1)%Z /\
    CurrentTranscriptGeneration n d = g /\ tdb_ok d1 /\ replaced n y segs ns d d1).
  { destruct Hcase as [(fresh & tr & Hn & E)|(sid & plugin & model & E)].
    - destruct (SaveTranscript_ok uuid fresh tr g d t Hok) as (E1 & _ & Hok1 & Hr); [by rewrite E|].
      rewrite E in Hok1, Hr. cbn [snd] in Hok1, Hr. rewrite Hn in E1, Hr. do 3 eexists. split_and!; [| | | | |exact Hr]; done.
    - destruct (CreateStream_ok uuid n sid plugin model g d t Hok) as (E1 & Hok1 & _ & Hr); [by rewrite E|].
      rewrite E in Hok1, Hr. cbn [snd] in Hok1, Hr. do 3 eexists. split_and!; [| | | | |exact Hr]; done. }
  destruct H as (y & segs & ns & Hy & Hn & Hg & E1 & Hok1 & Hr). destruct (replaced_prior _ _ _ _ _ _ Hr Hn) as [Hp _].
  split_and!; [done|done|unfold CurrentTranscriptGeneration; by rewrite Hp|]. intros x [Hx Hxn]%prior_elem.
  destruct Hr as (d0 & -> & -> & _). cbn. rewrite map_app.
  intros [(r & E & [Hr Hk]%elem_of_delete_where)%list_elem_of_fmap|E%list_elem_of_singleton]%elem_of_app.
  - assert (x = r) as -> by (apply (key_unique ts_id (d_transcripts d)); [apply Hok|done..]).
    apply not_true_iff_false in Hk. by apply Hk, of_note_true.
  - apply Hfresh, list_elem_of_fmap. exists x. split; [by rewrite E, Hy|done].
Qed.

(** C9. A replacement fences off everything bound to what it replaced, for good.
    Once a save or a stream start that expected generation [g] has succeeded,
    after any later history: no other writer that expected [g] succeeds, be it
    a save, a stream start, a reviewer's edit that was checked before, or a
    worker's note write; and the replaced transcript's stream can append
    neither segment nor gap.  None of these attempts changes anything. *)
Theorem replacement_fences n g d d1 ops :
  tdb_ok d -> replaces n g d d1 ->
  let d2 := transcript_history ops d1 in
  (forall uuid fresh tr, T_NoteID tr = n -> SaveTranscript uuid fresh tr g d2 = (Err ErrGenerationMismatch, d2)) /\
  (forall uuid sid plugin model, exists e, CreateStreamTranscript uuid n sid plugin model g d2 = (Err e, d2)) /\
  (forall seen o seg speaker, exists e, ConfirmSegmentSpeaker_on seen (fun d => d) o n seg speaker g d2 = (Err e, d2)) /\
  (forall seen o state, exists e, UpdateReviewState_on seen o n state g d2 = (Err e, d2)) /\
  (forall now rest h h', SetNoteHashesIfCurrent now n h h' g (note_tables rest d2) = (Err ErrGenerationMismatch, note_tables rest d2)) /\
  (forall x, prior_transcript n d = Some x -> Forall (fun op => creates op <> Some (ts_id x)) ops ->
     forall uuid sid seg gap, AppendStreamSegment uuid (ts_id x) sid seg d2 = (Err ErrStreamSuperseded, d2) /\
       AppendTranscriptGap uuid (ts_id x) sid gap d2 = (Err ErrStreamSuperseded, d2)).
Proof.
  intros Hok Hrep. cbn zeta. destruct (replaces_result _ _ _ _ Hok Hrep) as (Hok1 & Hg & Hg1 & Hids).
  assert (Hg0 := CurrentGeneration_nonneg n d Hok). set (d2 := transcript_history ops d1).
  assert (Hok2 : tdb_ok d2).
  { unfold d2. clear -Hok1. revert d1 Hok1. induction ops as [|op ops IH]; intros d1 Hok1; cbn; [done|].
    by apply IH, transcript_perform_ok. }
  assert (Hne : CurrentTranscriptGeneration n d2 <> g).
  { pose proof (history_generation ops d1 n (g + 1) Hok1 ltac:(lia)) as H. fold d2 in H. lia. }
  split_and!.
  - intros uuid fresh tr <-. by apply stale_save.
  - intros uuid sid plugin model. destruct (stale_stream uuid n sid plugin model g d2 Hne) as (e & E & _). eauto.
  - intros seen o seg speaker. destruct (stale_confirm seen (fun d => d) o n seg speaker g d2 Hok2 Hne) as (e & [E|E]); eauto.
  - intros seen o state. unfold UpdateReviewState_on. rewrite (stale_review n state g d2 Hok2 Hne). repeat case_match; eauto.
  - intros now rest h h'. apply update_notes_none. intros r _. apply not_true_iff_false.
    intros [Hid%note_is_true Hgen]%andb_true_iff. apply generation_is_of in Hgen as [E _].
    + rewrite Hid, note_tables_generation in E. done.
    + cbn [note_tables t_transcripts]. rewrite map_map. cbn [tr_note]. apply Hok2.
  - intros x Hx Hops uuid sid seg gap.
    assert (Hno : exists_where (streaming_to (ts_id x) sid) (d_transcripts d2) = false).
    { apply not_true_iff_false. intros (y & Hy & E & _)%streaming_to_true; [|done].
      apply (history_ids ops d1 (ts_id x) Hok1 Hops (Hids x Hx)). rewrite <- E. apply list_elem_of_fmap. eauto. }
    unfold AppendStreamSegment, AppendTranscriptGap. by rewrite Hno.
Qed.

(** ** Reviews *)

Lemma owned_transcript_spec o n d :
  tdb_ok d ->
  match owned_transcript o n d with
  | Some x => prior_transcript n d = Some x /\ exists r, r ∈ d_notes d /\ row_id r = n /\ row_owner r = o
  | None => forall r, r ∈ d_notes d -> row_id r = n -> row_owner r = o -> prior_transcript n d = None
  end.
Proof.
  intros Hok. unfold owned_transcript. destruct (select_where _ _) as [|x l] eqn:E; cbn [head].
  - intros r Hr Hid Ho. destruct (prior_transcript n d) as [x|] eqn:Ex; [|done]. exfalso. apply prior_elem in Ex as [Hx Hn].
    apply (select_nil _ _ x E Hx). apply andb_true_iff. split; [by apply of_note_true|]. apply exists_where_true.
    exists r. by rewrite andb_true_iff, note_is_true, owned_true, Hn.
  - apply select_elem in E as [Hx [Hn%of_note_true (r & Hr & Hc)%exists_where_true]%andb_true_iff].
    rewrite andb_true_iff, note_is_true, owned_true in Hc. split; [by apply prior_intro|]. exists r.
    by rewrite <- Hn.
Qed.

Lemma Confirm_cases seen o n seg speaker g d :
  tdb_ok seen -> tdb_ok d ->
  match ConfirmSegmentSpeaker_on seen (fun d => d) o n seg speaker g d with
  | (Ok _, d') => CurrentTranscriptGeneration n d = g /\
      (exists s x, s ∈ d_segments d /\ sg_id s = seg /\ prior_transcript n d = Some x /\ sg_transcript s = ts_id x) /\
      (exists r, r ∈ d_notes d /\ row_id r = n /\ row_owner r = o) /\
      d' = mkTdb (d_notes d) (d_transcripts d)
             (update_where (fun s => (sg_id s =? seg)%string) (set_speaker speaker) (d_segments d)) (d_gaps d)
  | (Err e, d') => d' = d /\ (e = ErrNotFound \/ e = ErrGenerationMismatch) /\
      ((forall r, r ∈ d_notes seen -> row_id r = n -> row_owner r <> o) -> e = ErrNotFound)
  end.
Proof.
  intros Hseen Hok.
  unfold ConfirmSegmentSpeaker_on. pose proof (owned_transcript_spec o n seen Hseen) as Hs.
  destruct (owned_transcript o n seen) as [x|]; [|by split_and!; auto].
  destruct (negb _); [split_and!; [done|by right|]; intros Hno; destruct Hs as (_ & r & Hr & Hi & Ho); by destruct (Hno r Hr Hi)|].
  set (hit := confirmable o n seg g d). destruct (Nat.eqb_spec (rows_affected hit (d_segments d)) 0) as [E0|Hpos]; cbn [negb].
  { cbn zeta. assert (Hcl : (forall r, r ∈ d_notes seen -> row_id r = n -> row_owner r <> o) -> False).
    { intros Hno. destruct Hs as (_ & r & Hr & Hi & Ho). by destruct (Hno r Hr Hi). }
    destruct (owned_transcript o n d); [destruct (negb _)|]; (split_and!; [done|auto|by intros ?%Hcl]). }
  assert (Hhit : (0 < rows_affected hit (d_segments d))%nat) by lia.
  apply rows_affected_pos in Hhit as (s & Hs' & Hc). pose proof Hc as Hc'. unfold hit in Hc'.
  apply andb_true_iff in Hc' as [Hid%String.eqb_eq (y & Hy & Hcy)%exists_where_true].
  rewrite !andb_true_iff, of_note_true, Z.eqb_eq, exists_where_true, String.eqb_eq in Hcy.
  destruct Hcy as [[[Ey Hn] Hg] (r & Hr & [Hi%note_is_true Ho%owned_true]%andb_true_iff)].
  split_and!; [by eapply confirmable_generation|exists s, y; split_and!; auto; by apply prior_intro|exists r; by rewrite <- Hn|].
  f_equal. unfold update_where. apply map_ext_in. intros s2 Hs2%list_elem_of_In.
  destruct (String.eqb_spec (sg_id s2) seg) as [E2|Hne].
  + assert (s2 = s) as -> by (apply (key_unique sg_id (d_segments d)); [apply Hok|done..|congruence]). by rewrite Hc.
  + unfold hit, confirmable. by rewrite (proj2 (String.eqb_neq _ _) Hne).
Qed.

Lemma UpdateReview_cases o n state g d :
  tdb_ok d ->
  match owned_transcript o n d with
  | None => UpdateReviewState o n state g d = (Err ErrNotFound, d)
  | Some x =>
      if negb (ts_generation x =? g)%Z then UpdateReviewState o n state g d = (Err ErrGenerationMismatch, d)
      else if negb (isLegalTransition (ts_review x) state) then UpdateReviewState o n state g d = (Err ErrInvalidTransition, d)
      else exists d', UpdateReviewState o n state g d = (Ok tt, d') /\ prior_transcript n d' = Some (set_review state x) /\
        (forall m, m <> n -> prior_transcript m d' = prior_transcript m d) /\ d_segments d' = d_segments d
  end.
Proof.
  intros Hok.
  unfold UpdateReviewState, UpdateReviewState_on. pose proof (owned_transcript_spec o n d Hok) as Hx.
  destruct (owned_transcript o n d) as [x|]; [|done]. destruct Hx as [Hx _].
  destruct (Z.eqb_spec (ts_generation x) g) as [Hg|Hne]; cbn [negb]; [|done].
  destruct (negb _); [done|]. pose proof (prior_elem _ _ _ Hx) as [Hin Hn]. unfold update_review.
  set (hit := fun x => of_note n x && (ts_generation x =? g)%Z).
  assert (Hh : hit x = true) by (apply andb_true_iff; by rewrite of_note_true, Z.eqb_eq).
  assert (Hpos : (0 < rows_affected hit (d_transcripts d))%nat) by (apply rows_affected_pos; eauto).
  destruct (Nat.eqb_spec (rows_affected hit (d_transcripts d)) 0); [lia|]. eexists. split; [done|]. split_and!; [| |done].
  - unfold prior_transcript. cbn [d_transcripts]. rewrite (prior_update d n x Hx). by rewrite Hh.
  - intros m Hm. unfold prior_transcript. cbn [d_transcripts]. unfold select_where, update_where, hit.
    clear -Hm. induction (d_transcripts d) as [|y t IH]; cbn; [done|].
    assert (E : of_note m (if of_note n y && (ts_generation y =? g)%Z then set_review state y else y) = of_note m y)
      by by destruct (_ && _).
    rewrite E. destruct (of_note m y) eqn:Em; cbn; [|done]. apply of_note_true in Em.
    destruct (of_note n y) eqn:En; [|done]. apply of_note_true in En. congruence.
Qed.

(** A reviewer edits only what the reviewer was shown.  Whatever happened
    between its checks and its write, confirming a speaker either renames
    exactly that segment of the owner's note at the expected generation or
    changes nothing; a requester who does not own the note always gets
    [ErrNotFound].  A review state moves only along a legal transition of the
    current transcript, and each refusal is the documented one. *)
Theorem reviews_fenced seen o n seg speaker state g d :
  tdb_ok seen -> tdb_ok d ->
  match ConfirmSegmentSpeaker_on seen (fun d => d) o n seg speaker g d with
  | (Ok _, d') => CurrentTranscriptGeneration n d = g /\
      (exists s x, s ∈ d_segments d /\ sg_id s = seg /\ prior_transcript n d = Some x /\ sg_transcript s = ts_id x) /\
      (exists r, r ∈ d_notes d /\ row_id r = n /\ row_owner r = o) /\
      d' = mkTdb (d_notes d) (d_transcripts d)
             (update_where (fun s => (sg_id s =? seg)%string) (set_speaker speaker) (d_segments d)) (d_gaps d)
  | (Err e, d') => d' = d /\ (e = ErrNotFound \/ e = ErrGenerationMismatch) /\
      ((forall r, r ∈ d_notes seen -> row_id r = n -> row_owner r <> o) -> e = ErrNotFound)
  end /\
  match owned_transcript o n d with
  | None => UpdateReviewState o n state g d = (Err ErrNotFound, d)
  | Some x =>
      if negb (ts_generation x =? g)%Z then UpdateReviewState o n state g d = (Err ErrGenerationMismatch, d)
      else if negb (isLegalTransition (ts_review x) state) then UpdateReviewState o n state g d = (Err ErrInvalidTransition, d)
      else exists d', UpdateReviewState o n state g d = (Ok tt, d') /\ prior_transcript n d' = Some (set_review state x) /\
        (forall m, m <> n -> prior_transcript m d' = prior_transcript m d) /\ d_segments d' = d_segments d
  end.
Proof. intros Hseen Hok. split; [by apply Confirm_cases|by apply UpdateReview_cases]. Qed.

(** ** Concrete tables *)

Module TranscriptDemo.
Definition row : note_row :=
  mkRow "n" "ann" "Plan" NoteTranscribing false None None false None "pending" 1 1 None None (Some "job") None None.
Definition empty : tdb := mkTdb [row] [] [] [].
Definition seg (t : Z) (who : string) : Segment := {|
  seg_ID := ""; StartMS := t; EndMS := t + 10; Text := "hi"; seg_Source := "mic"; Speaker := who; Words := [];
  Confidence := None; Boundary := ""; Provisional := false |}.
Definition batch (segs : list Segment) : Transcript := {|
  T_ID := ""; T_NoteID := "n"; TranscriberPlugin := "whisper"; T_Model := "base"; T_Segments := segs;
  ReviewState := ""; StreamID := None; Sealed := false; Generation := 0; Gaps := [] |}.
Definition fresh (p : string) (i : nat) : string := p ++ Itoa (Z.of_nat i).

(** A stream with one segment, which a batch transcription replaces. *)
Definition streamed : tdb :=
  transcript_history [TStream "t1" "n" "s1" "live" "base" 0; TSegment "g1" "t1" "s1" (seg 5 "You")] empty.
Definition saved_batch : tdb :=
  transcript_perform (TSave "t2" (fresh "g2-") (batch [seg 20 "SPEAKER_00"; seg 0 "Speaker 3"]) 1) streamed.

Lemma no_transcripts_ok : tdb_ok empty.
Proof.
  split_and!; cbn; [apply NoDup_nil_2..| | |]; by intros x ?%elem_of_nil.
Qed.
Lemma streamed_ok : tdb_ok streamed.
Proof. unfold streamed. cbn [transcript_history]. do 2 (apply transcript_perform_ok). apply no_transcripts_ok. Qed.
Lemma saved_ok : tdb_ok saved_batch.
Proof. apply transcript_perform_ok, streamed_ok. Qed.

Lemma saved_replaces : replaces "n" 1 streamed saved_batch.
Proof.
  destruct (SaveTranscript "t2" (fresh "g2-") (batch [seg 20 "SPEAKER_00"; seg 0 "Speaker 3"]) 1 streamed) as [[t|e] d] eqn:E;
    [|vm_compute in E; discriminate].
  exists "t2", t. split; [apply (bool_decide_unpack _); by vm_compute|]. left. exists (fresh "g2-"), (batch [seg 20 "SPEAKER_00"; seg 0 "Speaker 3"]).
  split; [done|]. unfold saved_batch. cbn [transcript_perform]. by rewrite E.
Qed.
End TranscriptDemo.

Module TranscriptWitness.
Import TranscriptDemo.

Lemma SaveTranscript_replaces_witness :
  CurrentTranscriptGeneration "n" saved_batch = 2%Z /\
  match GetTranscript "n" saved_batch with
  | Ok t => (map StartMS (T_Segments t), ReviewState t) = ([0; 20]%Z, ReviewStatePending)
  | Err _ => False
  end.
Proof.
  pose proof (SaveTranscript_replaces "t2" (fresh "g2-") (batch [seg 20 "SPEAKER_00"; seg 0 "Speaker 3"]) 1 streamed streamed_ok) as H.
  destruct (SaveTranscript _ _ _ _ _) as [[t|e] d'] eqn:E; [|vm_compute in E; discriminate].
  assert (Ed : saved_batch = d') by (unfold saved_batch; cbn [transcript_perform]; by rewrite E).
  destruct H as (_ & _ & H & _). rewrite Ed at 1. split; [exact H|]. vm_compute. reflexivity.
Defined.

Lemma transcript_tables_invariant_witness : tdb_ok (transcript_history [TGap "p1" "t1" "s1" {|
    gap_ID := ""; TranscriptID := ""; gap_StreamID := ""; StartSample := 3; DroppedSamples := None; Origin := "queue" |}] streamed).
Proof. exact (transcript_tables_invariant _ streamed streamed_ok). Defined.

Lemma replacement_fences_witness :
  (AppendStreamSegment "g9" "t1" "s1" (seg 30 "You") saved_batch = (Err ErrStreamSuperseded, saved_batch)) /\
  (SaveTranscript "t3" (fresh "g3-") (batch []) 1 saved_batch = (Err ErrGenerationMismatch, saved_batch)).
Proof.
  destruct (replacement_fences "n" 1 streamed saved_batch [] streamed_ok saved_replaces) as (H1 & _ & _ & _ & _ & H).
  split; [|by apply H1]. destruct (prior_transcript "n" streamed) as [x|] eqn:Ex; [|vm_compute in Ex; discriminate].
  assert (Hid : ts_id x = "t1") by (vm_compute in Ex; by injection Ex as <-). specialize (H x eq_refl). rewrite Hid in H.
  apply H; [constructor|]. exact {| gap_ID := ""; TranscriptID := ""; gap_StreamID := ""; StartSample := 0; DroppedSamples := None; Origin := "" |}.
Defined.

Lemma reviews_fenced_witness :
  exists d', UpdateReviewState "ann" "n" ReviewStateInReview 2 saved_batch = (Ok tt, d').
Proof.
  destruct (reviews_fenced saved_batch "ann" "n" "g2-0" "Ann" ReviewStateInReview 2 saved_batch saved_ok saved_ok) as [_ H].
  destruct (owned_transcript "ann" "n" saved_batch) as [x|] eqn:Ex; [|vm_compute in Ex; discriminate].
  vm_compute in Ex. injection Ex as <-. destruct H as (d' & H & _). exists d'. exact H.
Defined.
End TranscriptWitness.

(** Two requests that both read [in_review] both succeed, although after the
    first has completed the review the second's transition is illegal: the
    write repeats the check of the generation but not that of the state. *)
Lemma review_state_race :
  let d0 := (UpdateReviewState "ann" "n" ReviewStateInReview 2 TranscriptDemo.saved_batch).2 in
  let '(r1, d1) := UpdateReviewState_on d0 "ann" "n" ReviewStateCompleted 2 d0 in
  let '(r2, d2) := UpdateReviewState_on d0 "ann" "n" ReviewStatePending 2 d1 in
  (r1, r2) = (Ok tt, Ok tt) /\
  (option_map ts_review (prior_transcript "n" d1), option_map ts_review (prior_transcript "n" d2)) =
    (Some ReviewStateCompleted, Some ReviewStatePending) /\
  isLegalTransition ReviewStateCompleted ReviewStatePending = false.
Proof. vm_compute. done. Qed.
