(* ===== verification/Templates.v ===== *)
(** Templates: [internal/store/templates.go], the part that reads, validates
    and seeds them.

    [template_row] is a row of the table [templates]; [tp_owner] is [NULL] for
    the built-in ones.  [Template] is the Go struct of [internal/model].  The
    sections are kept as the list their JSON encodes.  A temperature is the
    binary64 number of the column. *)

From stdpp Require Import base list strings sets gmap.
From Stdlib Require Import ZArith Lia SpecFloat.
From S2P Require Import GoInt GoStrings Sql Execution.

Local Open Scope string_scope.

Definition templatePhaseAfter : string := "after".
Definition templatePhasePre : string := "pre".
Definition templatePhaseDuring : string := "during".
Definition templatePhaseCross : string := "cross".

(** ** Data *)

Record Template := {
  tm_ID : string; tm_Name : string; tm_Phase : string; tm_Sections : list TemplateSection; BuiltIn : bool;
  AutoRun : bool; tm_SystemPrompt : string; tm_Model : string; tm_Temperature : option spec_float }.

Record template_row := mkTemplate {
  tp_id : string; tp_owner : option string; tp_name : string; tp_phase : string;
  tp_sections : list TemplateSection; tp_auto_run : bool; tp_system_prompt : option string;
  tp_model : option string; tp_temperature : option spec_float }.

Definition built_in (r : template_row) : bool := match tp_owner r with None => true | Some _ => false end.

(** [owner_id IS NULL OR owner_id=$1] *)
Definition sees (ownerID : string) (r : template_row) : bool :=
  built_in r || bool_decide (tp_owner r = Some ownerID).

Definition template_is (id : string) (r : template_row) : bool := (tp_id r =? id)%string.

(** [applyTemplateOverrides]: [NULL] reads as the unset override. *)
Definition applyTemplateOverrides (systemPrompt modelName : option string) (temperature : option spec_float)
    (tm : Template) : Template := {|
  tm_ID := tm_ID tm; tm_Name := tm_Name tm; tm_Phase := tm_Phase tm; tm_Sections := tm_Sections tm;
  BuiltIn := BuiltIn tm; AutoRun := AutoRun tm;
  tm_SystemPrompt := default (tm_SystemPrompt tm) systemPrompt; tm_Model := default (tm_Model tm) modelName;
  tm_Temperature := temperature |}.

(** The columns of the queries; [BuiltInTemplates] does not select [built_in]. *)
Definition scan_template (with_built_in : bool) (r : template_row) : Template :=
  applyTemplateOverrides (tp_system_prompt r) (tp_model r) (tp_temperature r) {|
    tm_ID := tp_id r; tm_Name := tp_name r; tm_Phase := tp_phase r; tm_Sections := tp_sections r;
    BuiltIn := with_built_in && built_in r; AutoRun := tp_auto_run r; tm_SystemPrompt := ""; tm_Model := "";
    tm_Temperature := None |}.

(** ** Validation *)

Definition nullableTemplateStr (v : string) : option string :=
  let v := TrimSpace v in if (v =? "")%string then None else Some v.

(** The binary64 numbers 0 and 2. *)
Definition float_zero : spec_float := S754_zero false.
Definition float_two : spec_float := S754_finite false 4503599627370496 (-51).

Definition validateTemplateOverrides (systemPrompt modelName : string) (temperature : option spec_float)
  : result store_error unit :=
  if (4000 <? RuneCount (TrimSpace systemPrompt))%Z then Err (ValidationError "template system prompt too long")
  else if (200 <? RuneCount (TrimSpace modelName))%Z then Err (ValidationError "template model invalid")
  else match temperature with
       | Some t => if SFltb t float_zero || SFltb float_two t
                   then Err (ValidationError "template temperature must be between 0 and 2") else Ok tt
       | None => Ok tt
       end.

(** The loop over the sections. *)
Fixpoint validate_sections (sections : list TemplateSection) : result store_error unit :=
  match sections with
  | [] => Ok tt
  | s :: rest =>
      let h := TrimSpace (Heading s) in
      let ins := TrimSpace (Instruction s) in
      if (h =? "")%string || (80 <? RuneCount h)%Z then Err (ValidationError "section heading invalid")
      else if (ins =? "")%string || (500 <? RuneCount ins)%Z then Err (ValidationError "section instruction invalid")
      else validate_sections rest
  end.

Definition validateTemplate (name : string) (sections : list TemplateSection) : result store_error unit :=
  let name := TrimSpace name in
  if (name =? "")%string || (80 <? RuneCount name)%Z then Err (ValidationError "template name invalid")
  else if (length sections <? 1)%nat || (12 <? length sections)%nat
  then Err (ValidationError "template must have 1-12 sections")
  else validate_sections sections.

Definition normalizeTemplatePhase (phase : string) : string :=
  if (phase =? "")%string then templatePhaseAfter else phase.

Definition validateTemplatePhase (phase : string) : result store_error unit :=
  if (phase =? templatePhaseAfter)%string || (phase =? templatePhasePre)%string ||
     (phase =? templatePhaseDuring)%string || (phase =? templatePhaseCross)%string
  then Ok tt else Err (ValidationError "template phase invalid").

Definition validateCrossAutoRun (phase : string) (autoRun : bool) : result store_error unit :=
  if (phase =? templatePhaseCross)%string && autoRun
  then Err (ValidationError "cross-phase templates cannot be auto-run") else Ok tt.

(** ** Built-in templates *)

Definition builtInTemplates : list (string * list TemplateSection) := [
  ("General meeting",
    [{| Heading := "Overview";
        Instruction := "Summarise the meeting in 2-3 sentences." |};
     {| Heading := "Key points";
        Instruction := "List the main discussion points as concise bullets." |};
     {| Heading := "Decisions";
        Instruction := "List concrete decisions made, if any." |}]);
  ("Action items",
    [{| Heading := "Action items";
        Instruction := "List each action item with its owner and any deadline mentioned." |}]);
  ("1:1",
    [{| Heading := "Talking points";
        Instruction := "Capture the main topics, personal updates, and anything either person wants to discuss." |};
     {| Heading := "Decisions";
        Instruction := "List agreements, commitments, or other decisions made in the conversation." |};
     {| Heading := "Action items";
        Instruction := "List tasks assigned to either person, with owners and deadlines if mentioned." |};
     {| Heading := "Follow-ups";
        Instruction := "Note open questions, check-ins, or follow-up conversations to revisit later." |}]);
  ("Standup",
    [{| Heading := "Yesterday";
        Instruction := "Summarize what was completed since the last standup, focusing on shipped work and progress." |};
     {| Heading := "Today";
        Instruction := "Summarize what the speaker plans to work on next, including immediate priorities." |};
     {| Heading := "Blockers";
        Instruction := "List blockers, risks, dependencies, or anything preventing progress." |}]);
  ("Interview",
    [{| Heading := "Candidate summary";
        Instruction := "Summarize the candidate's background, experience, and the overall shape of the interview." |};
     {| Heading := "Strengths";
        Instruction := "List the strongest signals, relevant skills, and positive evidence from the discussion." |};
     {| Heading := "Concerns";
        Instruction := "Note gaps, risks, unclear areas, or follow-up topics that need more evaluation." |};
     {| Heading := "Recommendation";
        Instruction := "State the hiring recommendation and brief rationale, grounded in the conversation." |}]);
  ("Sales call",
    [{| Heading := "Needs";
        Instruction := "Summarize the prospect's goals, pain points, requirements, and buying context." |};
     {| Heading := "Objections";
        Instruction := "List objections, hesitation, or blockers raised by the prospect." |};
     {| Heading := "Next steps";
        Instruction := "Capture agreed follow-ups, meetings, trials, or information to send." |};
     {| Heading := "Decision-makers";
        Instruction := "Identify who is involved in the decision, their roles, and any approval process mentioned." |}])
].

Definition is_built_in_named (name : string) (r : template_row) : bool := built_in r && (tp_name r =? name)%string.

(** One [INSERT ... WHERE NOT EXISTS]; [auto_run] has the default true. *)
Definition seed_one (uuid : string) (name : string) (sections : list TemplateSection) (t : list template_row)
  : result store_error unit * list template_row :=
  if exists_where (is_built_in_named name) t then (Ok tt, t)
  else if exists_where (template_is uuid) t then (Err DbError, t)
  else (Ok tt, (t ++ [mkTemplate uuid None name templatePhaseAfter sections true None None None])%list).

(** The loop; an error keeps what the earlier statements inserted. *)
Fixpoint seed_from (fresh : nat -> string) (todo : list (string * list TemplateSection)) (t : list template_row)
  : result store_error unit * list template_row :=
  match todo with
  | [] => (Ok tt, t)
  | (name, sections) :: rest =>
      match seed_one (fresh (length todo)) name sections t with
      | (Err e, t') => (Err e, t')
      | (Ok _, t') => seed_from fresh rest t'
      end
  end.

Definition SeedBuiltInTemplates (fresh : nat -> string) (t : list template_row)
  : result store_error unit * list template_row :=
  seed_from fresh builtInTemplates t.

(** ** Reading *)

Section Reading.
(** Postgres's [lower] and the order of text in the database's collation. *)
Variable lower : string -> string.
Variable name_lt : string -> string -> bool.

Definition BuiltInTemplates (t : list template_row) : list Template :=
  map (scan_template false) (order_by (fun a b => name_lt (tp_name a) (tp_name b)) (select_where built_in t)).

Definition BuiltInTemplateNames (t : list template_row) : list string :=
  map tp_name (order_by (fun a b => name_lt (tp_name a) (tp_name b)) (select_where built_in t)).

(** [ORDER BY (owner_id IS NULL) DESC, lower(name)] *)
Definition template_before (a b : template_row) : bool :=
  (built_in a && negb (built_in b)) ||
  (Bool.eqb (built_in a) (built_in b) && name_lt (lower (tp_name a)) (lower (tp_name b))).

Definition ListTemplates (ownerID : string) (t : list template_row) : list Template :=
  map (scan_template true) (order_by template_before (select_where (sees ownerID) t)).

Definition getTemplateTx (ownerID id : string) (t : list template_row) : result store_error Template :=
  match select_where (fun r => template_is id r && sees ownerID r) t with
  | [] => Err ErrNotFound
  | r :: _ => Ok (scan_template true r)
  end.

Definition GetTemplate (ownerID id : string) (t : list template_row) : result store_error Template :=
  getTemplateTx ownerID id t.

Definition TemplatesForPhase (ownerID phase : string) (autoRun : bool) (t : list template_row) : list Template :=
  List.filter (fun tmpl => (tm_Phase tmpl =? phase)%string && Bool.eqb (AutoRun tmpl) autoRun)
    (ListTemplates ownerID t).

Definition TemplatesForSummary (ownerID : string) (t : list template_row) : list Template :=
  TemplatesForPhase ownerID templatePhaseAfter true t.

(** With an empty [excludeID] every template of the owner counts. *)
Definition nameTaken (ownerID name excludeID : string) (t : list template_row) : bool :=
  exists_where (fun r => bool_decide (tp_owner r = Some ownerID) && (lower (tp_name r) =? lower name)%string &&
    ((excludeID =? "")%string || negb (template_is excludeID r))) t.

End Reading.
