(* ===== verification/Summaries.v ===== *)
(** Summaries: [internal/store/summaries.go].

    [summary_row] is a row of the table [summaries], whose JSON column is
    [summary_content] (a key an older row lacks is [None]); [Summary] is the Go
    struct.  A nil slice and an empty one are the same list.  [sdb] holds the
    tables these operations touch.  [marshal] is the encoding of a summarize
    job's payload; ids are fresh through [fresh_summary] and [fresh_job], [now]
    is the database clock. *)

From stdpp Require Import base list strings sets gmap.
From Stdlib Require Import ZArith Lia.
From S2P Require Import GoInt GoStrings Sql Jobs Folders Execution Notes Transcripts Templates.

Local Open Scope string_scope.

Definition SummaryPending : string := "pending".
Definition SummaryReady : string := "ready".
Definition SummaryFailed : string := "failed".

(** ** Tables *)

Record summary_content := {
  c_status : option string; c_sections : option (list SummarySection); c_truncated : option bool }.

Record summary_row := mkSummary {
  su_id : string; su_note : string; su_template : option string; su_plugin : string; su_model : string;
  su_content : summary_content }.

Record Summary := {
  sum_ID : string; sum_NoteID : string; sum_TemplateID : string; TemplateName : string; AgentPlugin : string;
  sum_Model : string; sum_Status : string; sum_Sections : list SummarySection; Truncated : bool }.

Record summarizePayload := { pl_TemplateID : string; pl_SummaryID : string }.

Record sdb := mkSdb {
  s_tdb : tdb; s_jobs : jobs; s_templates : list template_row; s_summaries : list summary_row }.

Definition with_tdb (x : tdb) (d : sdb) : sdb := mkSdb x (s_jobs d) (s_templates d) (s_summaries d).
Definition with_jobs (x : jobs) (d : sdb) : sdb := mkSdb (s_tdb d) x (s_templates d) (s_summaries d).
Definition with_summaries (x : list summary_row) (d : sdb) : sdb := mkSdb (s_tdb d) (s_jobs d) (s_templates d) x.

(** *** The operations of Notes.v on these tables: they see the notes and the
    transcripts' generations and change the notes. *)

Definition no_tables : tables := mkTables [] [] [] [] [] [] [] [] [] [].
Definition notes_view (d : sdb) : tables := note_tables no_tables (s_tdb d).
Definition set_notes (x : list note_row) (d : sdb) : sdb :=
  with_tdb (mkTdb x (d_transcripts (s_tdb d)) (d_segments (s_tdb d)) (d_gaps (s_tdb d))) d.
Definition on_notes {A} (f : tables -> A * tables) (d : sdb) : A * sdb :=
  let '(a, t) := f (notes_view d) in (a, set_notes (t_notes t) d).

Definition summary_is (id : string) (s : summary_row) : bool := (su_id s =? id)%string.
Definition summary_of (noteID : string) (s : summary_row) : bool := (su_note s =? noteID)%string.

(** [note_id IN (SELECT id FROM notes WHERE owner_id=$2)] *)
Definition owns_note (ownerID : string) (d : sdb) (noteID : string) : bool :=
  exists_where (fun r => note_is noteID r && owned ownerID r) (d_notes (s_tdb d)).

(** The note a job or a summary refers to exists. *)
Definition note_exists (d : sdb) (noteID : string) : bool := exists_where (note_is noteID) (d_notes (s_tdb d)).
Definition job_keys_ok (d : sdb) (r : job_row) : bool :=
  match r_note_id r with Some n => note_exists d n | None => true end.

Section Operations.
Variable marshal : summarizePayload -> string.
(** The order of text in the database's collation, and [lower]. *)
Variable lower : string -> string.
Variable name_lt : string -> string -> bool.

(** ** One summary *)

Definition pending_content : summary_content :=
  {| c_status := Some SummaryPending; c_sections := Some []; c_truncated := Some false |}.

(** [INSERT INTO summaries] under the primary and foreign keys. *)
Definition insert_summary (id noteID templateID : string) (d : sdb) : option sdb :=
  if exists_where (summary_is id) (s_summaries d) then None
  else if negb (note_exists d noteID) then None
  else if negb (exists_where (template_is templateID) (s_templates d)) then None
  else Some (with_summaries (s_summaries d ++ [mkSummary id noteID (Some templateID) "" "" pending_content])%list d).

Definition CreatePendingSummary (uuid noteID templateID : string) (d : sdb) : result store_error string * sdb :=
  match insert_summary uuid noteID templateID d with
  | None => (Err DbError, d)
  | Some d' => (Ok uuid, d')
  end.

Definition update_summary (id : string) (g : summary_row -> summary_row) (d : sdb) : result store_error unit * sdb :=
  if (rows_affected (summary_is id) (s_summaries d) =? 0)%nat then (Err ErrNotFound, d)
  else (Ok tt, with_summaries (update_where (summary_is id) g (s_summaries d)) d).

Definition complete (plugin modelName : string) (sections : list SummarySection) (truncated : bool) (s : summary_row)
  : summary_row :=
  mkSummary (su_id s) (su_note s) (su_template s) plugin modelName
    {| c_status := Some SummaryReady; c_sections := Some sections; c_truncated := Some truncated |}.

Definition CompleteSummary (id agentPlugin modelName : string) (sections : list SummarySection) (truncated : bool)
    (d : sdb) : result store_error unit * sdb :=
  update_summary id (complete agentPlugin modelName sections truncated) d.

Definition fail (s : summary_row) : summary_row :=
  mkSummary (su_id s) (su_note s) (su_template s) (su_plugin s) (su_model s)
    {| c_status := Some SummaryFailed; c_sections := c_sections (su_content s); c_truncated := c_truncated (su_content s) |}.

Definition FailSummary (id : string) (d : sdb) : result store_error unit * sdb := update_summary id fail d.

(** ** The summaries of a note *)

Definition template_name (d : sdb) (s : summary_row) : option string :=
  id ← su_template s; tp_name <$> head (select_where (template_is id) (s_templates d)).

(** [ORDER BY t.name], [NULL]s last. *)
Definition name_before (a b : option string) : bool :=
  match a, b with
  | Some x, Some y => name_lt x y
  | Some _, None => true
  | None, _ => false
  end.

Definition scan_summary (d : sdb) (s : summary_row) : Summary := {|
  sum_ID := su_id s; sum_NoteID := su_note s; sum_TemplateID := default "" (su_template s);
  TemplateName := default "" (template_name d s); AgentPlugin := su_plugin s; sum_Model := su_model s;
  sum_Status := default SummaryReady (c_status (su_content s));
  sum_Sections := default [] (c_sections (su_content s)); Truncated := default false (c_truncated (su_content s)) |}.

Definition getSummariesTx (noteID : string) (d : sdb) : list Summary :=
  map (scan_summary d)
    (order_by (fun a b => name_before (template_name d a) (template_name d b))
      (select_where (summary_of noteID) (s_summaries d))).

Definition GetSummaries (noteID : string) (d : sdb) : list Summary := getSummariesTx noteID d.

Definition DeleteNoteSummaries (ownerID noteID : string) (d : sdb) : sdb :=
  with_summaries (delete_where (fun s => summary_of noteID s && owns_note ownerID d (su_note s)) (s_summaries d)) d.

Definition deleteNoteTemplateSummary (ownerID noteID templateID : string) (d : sdb) : sdb :=
  with_summaries (delete_where (fun s => summary_of noteID s && bool_decide (su_template s = Some templateID) &&
    owns_note ownerID d (su_note s)) (s_summaries d)) d.

(** One transaction: the notes row is locked, the generation read under that
    lock; a note without a transcript has generation 0. *)
Definition DeleteNoteSummariesIfCurrent (ownerID noteID : string) (expectedGeneration : Z) (d : sdb)
  : result store_error unit * sdb :=
  if negb (CurrentTranscriptGeneration noteID (s_tdb d) =? expectedGeneration)%Z then (Err ErrGenerationMismatch, d)
  else (Ok tt, DeleteNoteSummaries ownerID noteID d).

(** ** The fan-out *)

Definition summarize_payload (templateID summaryID : string) : string :=
  marshal {| pl_TemplateID := templateID; pl_SummaryID := summaryID |}.

(** The row the transaction inserts into [jobs]. *)
Definition summarize_job (uuid : string) (now : Z) (noteID payload : string) : job_row :=
  Jobs.mkRow uuid (Some noteID) None None None None None None None JobSummarize JobPending 0 None 0 payload
    None None None now now.

(** [for _, tmpl := range templates] inside the transaction; [None] is an
    error, which rolls all of it back. *)
Fixpoint fan_out (fresh_summary fresh_job : nat -> string) (i : nat) (now : Z) (noteID : string)
    (templates : list Template) (d : sdb) : option sdb :=
  match templates with
  | [] => Some d
  | tmpl :: rest =>
      d ← insert_summary (fresh_summary i) noteID (tm_ID tmpl) d;
      match insert_job (job_keys_ok d)
              (summarize_job (fresh_job i) now noteID (summarize_payload (tm_ID tmpl) (fresh_summary i))) (s_jobs d) with
      | (Err _, _) => None
      | (Ok _, t) => fan_out fresh_summary fresh_job (S i) now noteID rest (with_jobs t d)
      end
  end.

(** [templates] is what [TemplatesForSummary] answered before the transaction. *)
Definition EnqueueSummarizeJobsIfCurrent_on (templates : list Template) (fresh_summary fresh_job : nat -> string)
    (now : Z) (noteID : string) (expectedGeneration : Z) (d : sdb) : result store_error unit * sdb :=
  if negb (CurrentTranscriptGeneration noteID (s_tdb d) =? expectedGeneration)%Z then (Err ErrGenerationMismatch, d)
  else
    let newStatus := if (length templates =? 0)%nat then NoteReady else NoteSummarizing in
    let d1 := set_notes (update_where (note_is noteID) (fun r => touch now (Notes.set_status newStatus r))
                           (d_notes (s_tdb d))) d in
    match fan_out fresh_summary fresh_job 0 now noteID templates d1 with
    | None => (Err DbError, d)
    | Some d2 => (Ok tt, d2)
    end.

Definition EnqueueSummarizeJobsIfCurrent (fresh_summary fresh_job : nat -> string) (now : Z) (ownerID noteID : string)
    (expectedGeneration : Z) (d : sdb) : result store_error unit * sdb :=
  EnqueueSummarizeJobsIfCurrent_on (TemplatesForSummary lower name_lt ownerID (s_templates d))
    fresh_summary fresh_job now noteID expectedGeneration d.

Definition enqueue_job (uuid : string) (now : Z) (noteID payload : string) (d : sdb) : result store_error unit * sdb :=
  let '(r, t) := EnqueueNoteJob (job_keys_ok d) uuid now noteID JobSummarize payload (s_jobs d) in
  (let? _ := r in Ok tt, with_jobs t d)%go.

(** The loop of [EnqueueSummarizeJobs]: each call is its own transaction, so an
    error keeps what came before. *)
Fixpoint enqueue_each (fresh_summary fresh_job : nat -> string) (i : nat) (now : Z) (noteID : string)
    (templates : list Template) (d : sdb) : result store_error unit * sdb :=
  match templates with
  | [] => (Ok tt, d)
  | tmpl :: rest =>
      match CreatePendingSummary (fresh_summary i) noteID (tm_ID tmpl) d with
      | (Err e, d') => (Err e, d')
      | (Ok sumID, d') =>
          match enqueue_job (fresh_job i) now noteID (summarize_payload (tm_ID tmpl) sumID) d' with
          | (Err e, d'') => (Err e, d'')
          | (Ok _, d'') => enqueue_each fresh_summary fresh_job (S i) now noteID rest d''
          end
      end
  end.

Definition EnqueueSummarizeJobs (fresh_summary fresh_job : nat -> string) (now : Z) (ownerID noteID : string) (d : sdb)
  : result store_error unit * sdb :=
  let templates := TemplatesForSummary lower name_lt ownerID (s_templates d) in
  match on_notes (SetNoteStatus now noteID NoteSummarizing) d with
  | (Err e, d') => (Err e, d')
  | (Ok _, d1) =>
      match enqueue_each fresh_summary fresh_job 0 now noteID templates d1 with
      | (Err e, d') => (Err e, d')
      | (Ok _, d2) =>
          if (length templates =? 0)%nat then on_notes (SetNoteStatus now noteID NoteReady) d2 else (Ok tt, d2)
      end
  end.

Definition EnqueueTemplateSummarizeJob (sumID jobID : string) (now : Z) (ownerID noteID templateID : string) (d : sdb)
  : result store_error unit * sdb :=
  match GetTemplate ownerID templateID (s_templates d) with
  | Err e => (Err e, d)
  | Ok _ =>
      let d1 := deleteNoteTemplateSummary ownerID noteID templateID d in
      match on_notes (SetNoteStatus now noteID NoteSummarizing) d1 with
      | (Err e, d') => (Err e, d')
      | (Ok _, d2) =>
          match CreatePendingSummary sumID noteID templateID d2 with
          | (Err e, d') => (Err e, d')
          | (Ok id, d3) => enqueue_job jobID now noteID (summarize_payload templateID id) d3
          end
      end
  end.

End Operations.
