(* ===== verification/SummariesProps.v ===== *)
(** What the fan-out of summaries ([Summaries]) leaves behind. *)

From stdpp Require Import base list strings sets gmap.
From Stdlib Require Import ZArith Lia.
From S2P Require Import GoInt GoStrings Sql Jobs Execution Notes Transcripts Templates Summaries.

Local Open Scope string_scope.

(** ** Templates *)

Section TemplateLists.
Variable lower : string -> string.
Variable name_lt : string -> string -> bool.

(** The templates a note of the owner is summarized with. *)
Definition summarizing_template (ownerID : string) (r : template_row) : Prop :=
  sees ownerID r = true /\ tp_phase r = templatePhaseAfter /\ tp_auto_run r = true.

Lemma TemplatesForSummary_spec ownerID t tm :
  tm ∈ TemplatesForSummary lower name_lt ownerID t <->
  exists r, r ∈ t /\ summarizing_template ownerID r /\ tm = scan_template true r.
Proof.
  unfold TemplatesForSummary, TemplatesForPhase, ListTemplates, summarizing_template.
  rewrite list_elem_of_In, filter_In, <- list_elem_of_In. rewrite list_elem_of_fmap. split.
  - intros [(r & -> & Hr) Hc]. apply elem_of_order_by, elem_of_select_where in Hr as [Hr Hs]. exists r.
    apply andb_true_iff in Hc as [Hp%String.eqb_eq Ha%eqb_prop]. done.
  - intros (r & Hr & (Hs & Hp & Ha) & ->). split.
    + exists r. split; [done|]. by apply elem_of_order_by, elem_of_select_where.
    + cbn. by rewrite Hp, Ha.
Qed.
End TemplateLists.

(** ** The fan-out *)

Section FanOut.
Variable marshal : summarizePayload -> string.
Variables fresh_summary fresh_job : nat -> string.
Variables (now : Z) (noteID : string).

Abbreviation fan := (fan_out marshal fresh_summary fresh_job).

(** One pending summary and one pending job for each template, in order. *)
Fixpoint pending_summaries (i : nat) (ts : list Template) : list summary_row :=
  match ts with
  | [] => []
  | tm :: rest => mkSummary (fresh_summary i) noteID (Some (tm_ID tm)) "" "" pending_content :: pending_summaries (S i) rest
  end.

Fixpoint pending_jobs (i : nat) (ts : list Template) : list job_row :=
  match ts with
  | [] => []
  | tm :: rest => summarize_job (fresh_job i) now noteID (summarize_payload marshal (tm_ID tm) (fresh_summary i))
                  :: pending_jobs (S i) rest
  end.

Definition fanned (i : nat) (ts : list Template) (d : sdb) : sdb :=
  mkSdb (s_tdb d) (s_jobs d ++ pending_jobs i ts)%list (s_templates d) (s_summaries d ++ pending_summaries i ts)%list.

Lemma insert_summary_some id tid d d' :
  insert_summary id noteID tid d = Some d' ->
  d' = with_summaries (s_summaries d ++ [mkSummary id noteID (Some tid) "" "" pending_content])%list d.
Proof. unfold insert_summary. repeat case_match; [done..|]. by intros [= <-]. Qed.

Lemma fan_out_spec i ts d d' : fan i now noteID ts d = Some d' -> d' = fanned i ts d.
Proof.
  revert i d. induction ts as [|tm ts IH]; intros i d; cbn [fan_out].
  - intros [= <-]. unfold fanned. cbn. rewrite !app_nil_r. by destruct d.
  - destruct (insert_summary _ _ _ d) as [d1|] eqn:E1; [|done]. cbn [mbind option_bind].
    apply insert_summary_some in E1 as ->. unfold insert_job. destruct (_ && _); [|done].
    intros ->%IH. unfold fanned. cbn. by rewrite <- !app_assoc.
Qed.

Lemma unique_ok_snoc t r : unique_ok (t ++ [r]) = unique_ok t && negb (existsb (fun x => conflicts x r) t).
Proof.
  induction t as [|x t IH]; cbn; [done|]. rewrite IH, existsb_app. cbn. rewrite orb_false_r.
  destruct (existsb (conflicts x) t), (conflicts x r), (unique_ok t), (existsb _ t); done.
Qed.

Lemma summarize_no_conflict id payload t : existsb (fun x => conflicts x (summarize_job id now noteID payload)) t = false.
Proof.
  induction t as [|x t IH]; cbn [existsb]; [done|]. rewrite IH. unfold conflicts. cbn.
  destruct (r_brief_id x); cbn; by rewrite ?andb_false_r.
Qed.

(** Ids not used before, and templates the foreign key admits. *)
Record fresh_for (i : nat) (ts : list Template) (d : sdb) : Prop := {
  ff_note : note_exists d noteID = true;
  ff_unique : unique_ok (s_jobs d) = true;
  ff_templates : forall tm, tm ∈ ts -> exists r, r ∈ s_templates d /\ tp_id r = tm_ID tm;
  ff_summaries : forall j s, i <= j -> s ∈ s_summaries d -> su_id s <> fresh_summary j;
  ff_jobs : forall j r, i <= j -> r ∈ s_jobs d -> r_id r <> fresh_job j }.

Hypothesis fresh_summary_inj : forall j k, fresh_summary j = fresh_summary k -> j = k.
Hypothesis fresh_job_inj : forall j k, fresh_job j = fresh_job k -> j = k.

Lemma fan_out_total i ts d : fresh_for i ts d -> fan i now noteID ts d = Some (fanned i ts d).
Proof.
  intros H. destruct (fan i now noteID ts d) as [d'|] eqn:E; [by rewrite (fan_out_spec _ _ _ _ E)|]. exfalso.
  revert i d H E. induction ts as [|tm ts IH]; intros i d [Hn Hu Ht Hs Hj]; cbn [fan_out]; [done|].
  unfold insert_summary.
  assert (E1 : exists_where (summary_is (fresh_summary i)) (s_summaries d) = false).
  { apply exists_where_false. intros s Hin. apply String.eqb_neq. by apply (Hs i). }
  rewrite E1, Hn. cbn [negb]. destruct (Ht tm ltac:(by left)) as (r & Hr & Hid).
  assert (E2 : exists_where (template_is (tm_ID tm)) (s_templates d) = true).
  { apply exists_where_true. exists r. split; [done|]. by apply String.eqb_eq. }
  rewrite E2. cbn [negb mbind option_bind]. set (d1 := with_summaries _ d).
  assert (E3 : forall p, (insert_job (job_keys_ok d1) (summarize_job (fresh_job i) now noteID p) (s_jobs d1)) =
                          (Ok tt, s_jobs d1 ++ [summarize_job (fresh_job i) now noteID p])%list).
  { intros p. unfold insert_job. assert (Hk : exists_where (Jobs.has_id (fresh_job i)) (s_jobs d1) = false).
    { apply exists_where_false. intros x Hx. apply String.eqb_neq. by apply (Hj i). }
    cbn [r_id summarize_job]. rewrite Hk, unique_ok_snoc, summarize_no_conflict. change (s_jobs d1) with (s_jobs d). rewrite Hu.
    unfold job_keys_ok. cbn [r_note_id summarize_job]. change (note_exists d1 noteID) with (note_exists d noteID). by rewrite Hn. }
  rewrite E3. apply IH. split; cbn; [exact Hn| |intros; apply Ht; by right| |].
  - by rewrite unique_ok_snoc, summarize_no_conflict, Hu.
  - intros j s Hij [Hin| ->%list_elem_of_singleton]%elem_of_app; [apply Hs; [lia|done]|].
    intros Hf%fresh_summary_inj. cbn in Hf. lia.
  - intros j x Hij [Hin| ->%list_elem_of_singleton]%elem_of_app; [apply Hj; [lia|done]|].
    intros Hf%fresh_job_inj. cbn in Hf. lia.
Qed.
End FanOut.

(** ** Properties *)

Section Resummarize.
Variable marshal : summarizePayload -> string.
Variable lower : string -> string.
Variable name_lt : string -> string -> bool.
Variables fresh_summary fresh_job : nat -> string.

Abbreviation enqueue := (EnqueueSummarizeJobsIfCurrent marshal lower name_lt fresh_summary fresh_job).
Abbreviation templates_of := (TemplatesForSummary lower name_lt).

(** The note as the fan-out leaves it. *)
Definition enqueued_status (ts : list Template) : string := if (length ts =? 0)%nat then NoteReady else NoteSummarizing.
Definition mark_note (now : Z) (n : string) (ts : list Template) (r : note_row) : note_row :=
  if note_is n r then touch now (Notes.set_status (enqueued_status ts) r) else r.

Lemma pending_summaries_note n i ts s : s ∈ pending_summaries fresh_summary n i ts -> su_note s = n.
Proof.
  revert i. induction ts as [|tm ts IH]; intros i; cbn; [by intros ?%elem_of_nil|]. intros [->|H]%elem_of_cons; [done|by eapply IH].
Qed.

Lemma pending_summaries_template n i ts id :
  (exists s, s ∈ pending_summaries fresh_summary n i ts /\ su_template s = Some id) <-> exists tm, tm ∈ ts /\ tm_ID tm = id.
Proof.
  revert i. induction ts as [|tm ts IH]; intros i; cbn.
  - split; intros (? & ?%elem_of_nil & _); done.
  - split.
    + intros (s & [->|H]%elem_of_cons & Hs); [exists tm; split; [by left|by injection Hs]|].
      destruct (proj1 (IH (S i))) as (tm' & ? & ?); [by exists s|]. exists tm'. split; [by right|done].
    + intros (tm' & [->|H]%elem_of_cons & Hs).
      * eexists. split; [by left|]. cbn. by rewrite Hs.
      * destruct (proj2 (IH (S i))) as (s & ? & ?); [by exists tm'|]. exists s. split; [by right|done].
Qed.

Lemma deleted_generation o n d : CurrentTranscriptGeneration n (s_tdb (DeleteNoteSummaries o n d)) = CurrentTranscriptGeneration n (s_tdb d).
Proof. done. Qed.

Lemma select_all {A} (q : A -> bool) l : (forall x, x ∈ l -> q x = true) -> select_where q l = l.
Proof.
  unfold select_where. induction l as [|x l IH]; cbn; intros H; [done|]. rewrite H by (by left). f_equal. apply IH.
  intros y Hy. apply H. by right.
Qed.

Lemma delete_all {A} (q : A -> bool) l : (forall x, x ∈ l -> q x = true) -> delete_where q l = [].
Proof.
  unfold delete_where. induction l as [|x l IH]; cbn; intros H; [done|]. rewrite H by (by left). apply IH.
  intros y Hy. apply H. by right.
Qed.

Lemma templates_listed o t id :
  (exists tm, tm ∈ templates_of o t /\ tm_ID tm = id) <-> exists r, r ∈ t /\ summarizing_template o r /\ tp_id r = id.
Proof.
  split.
  - intros (tm & (r & Hr & Hs & ->)%TemplatesForSummary_spec & <-). by exists r.
  - intros (r & Hr & Hs & <-). exists (scan_template true r). split; [|done]. apply TemplatesForSummary_spec. by exists r.
Qed.

Lemma delete_summaries_none o n d : owns_note o d n = true ->
  select_where (summary_of n) (s_summaries (DeleteNoteSummaries o n d)) = [] /\
  delete_where (summary_of n) (s_summaries (DeleteNoteSummaries o n d)) = delete_where (summary_of n) (s_summaries d).
Proof.
  intros Ho. assert (E : s_summaries (DeleteNoteSummaries o n d) = delete_where (summary_of n) (s_summaries d)).
  { unfold DeleteNoteSummaries, delete_where. cbn. apply List.filter_ext_in. intros s _. unfold summary_of.
    destruct (String.eqb_spec (su_note s) n) as [->|]; [by rewrite Ho|done]. }
  rewrite E. split.
  - apply select_none. by intros s [_ Hs]%elem_of_delete_where.
  - unfold delete_where. generalize (s_summaries d). clear. intros l. induction l as [|s l IH]; cbn; [done|].
    destruct (summary_of n s) eqn:Es; cbn; [done|]. by rewrite Es; cbn; rewrite IH.
Qed.

(** Regenerating a note's summaries is exact.  On a stale generation neither
    the deletion nor the fan-out changes anything.  On the current one the
    owner's note is left with exactly one pending summary for each after-phase
    auto-run template its owner sees, in their order, and nothing older; each
    has one new pending summarize job carrying its template and its id; the
    note is summarizing, or ready when there is no template; every other
    summary, job, note and all transcripts are as before. *)
Theorem resummarize_exact now o n g d ts :
  ts = templates_of o (s_templates d) -> owns_note o d n = true ->
  fresh_for fresh_summary fresh_job n 0 ts d ->
  (forall j k, fresh_summary j = fresh_summary k -> j = k) -> (forall j k, fresh_job j = fresh_job k -> j = k) ->
  let '(r1, d1) := DeleteNoteSummariesIfCurrent o n g d in
  let '(r2, d2) := enqueue now o n g d1 in
  (CurrentTranscriptGeneration n (s_tdb d) <> g ->
     r1 = Err ErrGenerationMismatch /\ r2 = Err ErrGenerationMismatch /\ d2 = d) /\
  (CurrentTranscriptGeneration n (s_tdb d) = g ->
     r1 = Ok tt /\ r2 = Ok tt /\
     select_where (summary_of n) (s_summaries d2) = pending_summaries fresh_summary n 0 ts /\
     (forall id, (exists s, s ∈ s_summaries d2 /\ su_note s = n /\ su_template s = Some id) <->
                 exists r, r ∈ s_templates d /\ summarizing_template o r /\ tp_id r = id) /\
     delete_where (summary_of n) (s_summaries d2) = delete_where (summary_of n) (s_summaries d) /\
     s_jobs d2 = (s_jobs d ++ pending_jobs marshal fresh_summary fresh_job now n 0 ts)%list /\
     d_notes (s_tdb d2) = map (mark_note now n ts) (d_notes (s_tdb d)) /\
     d_transcripts (s_tdb d2) = d_transcripts (s_tdb d) /\ s_templates d2 = s_templates d).
Proof.
  intros Hts Ho Hf Is Ij. unfold DeleteNoteSummariesIfCurrent, EnqueueSummarizeJobsIfCurrent, EnqueueSummarizeJobsIfCurrent_on.
  destruct (Z.eqb_spec (CurrentTranscriptGeneration n (s_tdb d)) g) as [Hg|Hg]; cbn [negb].
  2: { apply Z.eqb_neq in Hg as Hb. rewrite Hb. cbn [negb]. split; [done|]. intros E. congruence. }
  rewrite deleted_generation. apply Z.eqb_eq in Hg as Hb. rewrite Hb. cbn [negb].
  change (s_templates (DeleteNoteSummaries o n d)) with (s_templates d). rewrite <- Hts.
  destruct (delete_summaries_none o n d Ho) as [Hsel Hdel].
  set (d1 := set_notes _ _).
  assert (Hf1 : fresh_for fresh_summary fresh_job n 0 ts d1).
  { destruct Hf as [Hn Hu Ht Hs Hj]. split; [|exact Hu|exact Ht| |exact Hj].
    - unfold note_exists in *. cbn. rewrite exists_update; [done|]. intros r. by destruct r.
    - intros j s Hl Hin. apply (Hs j s Hl). by apply elem_of_delete_where in Hin as [? _]. }
  rewrite fan_out_total by done. split; [done|]. intros _. cbn [fanned s_summaries s_jobs s_tdb s_templates].
  change (s_summaries d1) with (s_summaries (DeleteNoteSummaries o n d)).
  assert (Hp : forall s, s ∈ pending_summaries fresh_summary n 0 ts -> summary_of n s = true)
    by (intros s Hs; apply String.eqb_eq; by eapply pending_summaries_note).
  assert (Hnew : select_where (summary_of n) (pending_summaries fresh_summary n 0 ts) = pending_summaries fresh_summary n 0 ts)
    by (by apply select_all).
  split_and!; try done.
  - by rewrite select_app, Hsel, Hnew.
  - intros id. rewrite <- templates_listed, <- Hts, <- (pending_summaries_template n 0 ts id). split.
    + intros (s & [Hin|Hin]%elem_of_app & Hn & Hs); [|by exists s].
      assert (Hc : s ∈ select_where (summary_of n) (s_summaries (DeleteNoteSummaries o n d)))
        by (apply elem_of_select_where; split; [done|by apply String.eqb_eq]).
      rewrite Hsel in Hc. by apply elem_of_nil in Hc.
    + intros (s & Hin & Hs). exists s. split; [apply elem_of_app; by right|]. split; [by eapply pending_summaries_note|done].
  - unfold delete_where. rewrite List.filter_app. fold (delete_where (summary_of n) (s_summaries (DeleteNoteSummaries o n d))).
    fold (delete_where (summary_of n) (pending_summaries fresh_summary n 0 ts)).
    rewrite Hdel, (delete_all _ (pending_summaries _ _ _ _)), app_nil_r; done.
Qed.
End Resummarize.

(** ** Witnesses *)

Module SummaryDemo.
Fixpoint tally (i : nat) : string := match i with 0 => "" | S i => "x" ++ tally i end.
Definition fresh_id (p : string) (i : nat) : string := p ++ tally i.

Lemma tally_inj i j : tally i = tally j -> i = j.
Proof. revert j. induction i as [|i IH]; intros [|j]; cbn; try done. intros [= ?]. f_equal. auto. Qed.
Lemma fresh_id_inj p i j : fresh_id p i = fresh_id p j -> i = j.
Proof. unfold fresh_id. induction p; cbn; [apply tally_inj|]. intros [= ?]. auto. Qed.

Definition encode (p : summarizePayload) : string := pl_TemplateID p ++ "/" ++ pl_SummaryID p.
Definition noted : note_row :=
  Notes.mkRow "n" "ann" "Plan" NoteTranscribing false None None false None "pending" 1 1 None None None None None.
Definition template_named (id : string) (owner : option string) (phase : string) : template_row :=
  mkTemplate id owner id phase [] true None None None.
(** Two templates ann sees, one of bob's, one for another phase; an old summary. *)
Definition tables : sdb := mkSdb
  (mkTdb [noted] [mkTranscriptRow "t" "n" "p" "m" ReviewStateCompleted None false 2] [] []) []
  [template_named "ta" None templatePhaseAfter; template_named "tb" (Some "ann") templatePhaseAfter;
   template_named "tc" (Some "bob") templatePhaseAfter; template_named "td" None templatePhasePre]
  [mkSummary "old" "n" (Some "ta") "" "" pending_content].

Abbreviation chosen := (TemplatesForSummary (fun s => s) String.ltb "ann" (s_templates tables)).

Lemma resummarize_exact_witness :
  map tm_ID chosen = ["ta"; "tb"] /\
  let '(r1, d1) := DeleteNoteSummariesIfCurrent "ann" "n" 2 tables in
  let '(r2, d2) := EnqueueSummarizeJobsIfCurrent encode (fun s => s) String.ltb (fresh_id "s") (fresh_id "j") 5 "ann" "n" 2 d1 in
  (CurrentTranscriptGeneration "n" (s_tdb tables) <> 2%Z ->
     r1 = Err ErrGenerationMismatch /\ r2 = Err ErrGenerationMismatch /\ d2 = tables) /\
  (CurrentTranscriptGeneration "n" (s_tdb tables) = 2%Z ->
     r1 = Ok tt /\ r2 = Ok tt /\
     select_where (summary_of "n") (s_summaries d2) = pending_summaries (fresh_id "s") "n" 0 chosen /\
     (forall id, (exists s, s ∈ s_summaries d2 /\ su_note s = "n" /\ su_template s = Some id) <->
                 exists r, r ∈ s_templates tables /\ summarizing_template "ann" r /\ tp_id r = id) /\
     delete_where (summary_of "n") (s_summaries d2) = delete_where (summary_of "n") (s_summaries tables) /\
     s_jobs d2 = (s_jobs tables ++ pending_jobs encode (fresh_id "s") (fresh_id "j") 5 "n" 0 chosen)%list /\
     d_notes (s_tdb d2) = map (mark_note 5 "n" chosen) (d_notes (s_tdb tables)) /\
     d_transcripts (s_tdb d2) = d_transcripts (s_tdb tables) /\ s_templates d2 = s_templates tables).
Proof.
  split; [by vm_compute|].
  apply (resummarize_exact encode (fun s => s) String.ltb (fresh_id "s") (fresh_id "j") 5 "ann" "n" 2 tables chosen);
    [done|by vm_compute| |apply fresh_id_inj|apply fresh_id_inj].
  split; [by vm_compute..| | |].
  - intros tm (r & Hr & _ & ->)%TemplatesForSummary_spec. by exists r.
  - intros j s _ ->%list_elem_of_singleton. done.
  - intros j r _ ?%elem_of_nil. done.
Defined.
End SummaryDemo.
