(* ===== verification/Plugins.v ===== *)
(** The plugin registry: [internal/store/plugins.go].

    [plugin_row] is a row of the table [plugins]; its config is stored sealed.
    [Plugin] is the Go struct.  [internal/crypto] wraps AES-GCM: [seal] and
    [open] are arguments.  JSON is an argument too: whether a text is valid, the
    fields of an object (in the order [json.Marshal] prints a map's keys) and
    the properties of a config schema. *)

From stdpp Require Import base list strings sets gmap.
From Stdlib Require Import ZArith Lia.
From S2P Require Import GoInt GoStrings Sql.

Local Open Scope string_scope.

Definition PluginTranscriber : string := "transcriber".
Definition PluginStreamingTranscriber : string := "streaming-transcriber".
Definition PluginAgent : string := "agent".

Record plugin_row := mkPlugin {
  pg_id : string; pg_kind : string; pg_name : string; pg_endpoint : string; pg_token : string;
  pg_config : string; pg_schema : string; pg_enabled : bool; pg_default : bool }.

Record Plugin := {
  plugin_ID : string; Kind : string; plugin_Name : string; EndpointURL : string; Token : string;
  plugin_Config : string; ConfigSchema : string; Enabled : bool; IsDefault : bool }.

(** A property of a config schema: [writeOnly] and [format]. *)
Record schema_property := { WriteOnly : bool; Format : string }.

Definition plugin_is (id : string) (r : plugin_row) : bool := (pg_id r =? id)%string.
Definition of_kind (kind : string) (r : plugin_row) : bool := (pg_kind r =? kind)%string.

(** [CHECK (kind IN ...)] *)
Definition kind_ok (kind : string) : bool :=
  (kind =? PluginTranscriber)%string || (kind =? PluginStreamingTranscriber)%string || (kind =? PluginAgent)%string.

Definition set_default (v : bool) (r : plugin_row) : plugin_row :=
  mkPlugin (pg_id r) (pg_kind r) (pg_name r) (pg_endpoint r) (pg_token r) (pg_config r) (pg_schema r) (pg_enabled r) v.

Section Registry.
Variable seal : string -> result store_error string.
Variable open : string -> option string.
Variable json_valid : string -> bool.
(** [json.Unmarshal] into a map of raw values, and [json.Marshal] of it. *)
Variable object_of : string -> option (list (string * string)).
Variable print_object : list (string * string) -> string.
(** The [properties] of a schema; [None] when it does not decode or has none. *)
Variable properties_of : string -> option (list (string * schema_property)).

Definition sealConfig (cfg : string) : result store_error string :=
  seal (if (slen cfg =? 0)%Z then "{}" else cfg).

Definition openConfig (stored : string) : option string := open stored.

Definition or_empty_object (schema : string) : string := if (slen schema =? 0)%Z then "{}" else schema.

Definition CreatePlugin (uuid : string) (p : Plugin) (t : list plugin_row) : result store_error Plugin * list plugin_row :=
  match sealConfig (plugin_Config p) with
  | Err e => (Err e, t)
  | Ok stored =>
      let schema := or_empty_object (ConfigSchema p) in
      if exists_where (plugin_is uuid) t || negb (kind_ok (Kind p)) then (Err DbError, t)
      else
        (Ok {| plugin_ID := uuid; Kind := Kind p; plugin_Name := plugin_Name p; EndpointURL := EndpointURL p;
               Token := Token p; plugin_Config := plugin_Config p; ConfigSchema := schema; Enabled := Enabled p;
               IsDefault := IsDefault p |},
         (t ++ [mkPlugin uuid (Kind p) (plugin_Name p) (EndpointURL p) (Token p) stored schema (Enabled p)
                  (IsDefault p)])%list)
  end.

(** The [SET] list of an update. *)
Definition write_fields (p : Plugin) (stored : string) (r : plugin_row) : plugin_row :=
  mkPlugin (pg_id r) (pg_kind r) (plugin_Name p) (EndpointURL p) (Token p) stored (or_empty_object (ConfigSchema p))
    (Enabled p) (pg_default r).

Definition update_fields (p : Plugin) (t : list plugin_row) : result store_error unit * list plugin_row :=
  match sealConfig (plugin_Config p) with
  | Err e => (Err e, t)
  | Ok stored =>
      if (rows_affected (plugin_is (plugin_ID p)) t =? 0)%nat then (Err ErrNotFound, t)
      else (Ok tt, update_where (plugin_is (plugin_ID p)) (write_fields p stored) t)
  end.

Definition UpdatePlugin (p : Plugin) (t : list plugin_row) : result store_error unit * list plugin_row :=
  update_fields p t.

(** The two [UPDATE]s: first no default of the kind, then this one. *)
Definition make_default (id : string) (t : list plugin_row) : result store_error unit * list plugin_row :=
  match select_where (plugin_is id) t with
  | [] => (Err ErrNotFound, t)
  | r :: _ => (Ok tt, update_where (plugin_is id) (set_default true)
                        (update_where (of_kind (pg_kind r)) (set_default false) t))
  end.

Definition SetDefaultPlugin (id : string) (t : list plugin_row) : result store_error unit * list plugin_row :=
  make_default id t.

(** One transaction: an error of either part leaves the table alone. *)
Definition PatchPlugin (p : Plugin) (makeDefault updateFields : bool) (t : list plugin_row)
  : result store_error unit * list plugin_row :=
  match (if makeDefault then make_default (plugin_ID p) t else (Ok tt, t)) with
  | (Err e, _) => (Err e, t)
  | (Ok _, t1) =>
      match (if updateFields then update_fields p t1 else (Ok tt, t1)) with
      | (Err e, _) => (Err e, t)
      | (Ok _, t2) => (Ok tt, t2)
      end
  end.

Definition DeletePlugin (id : string) (t : list plugin_row) : result store_error unit * list plugin_row :=
  if (rows_affected (plugin_is id) t =? 0)%nat then (Err ErrNotFound, t) else (Ok tt, delete_where (plugin_is id) t).

Definition scan_plugin (r : plugin_row) (cfg : string) : Plugin := {|
  plugin_ID := pg_id r; Kind := pg_kind r; plugin_Name := pg_name r; EndpointURL := pg_endpoint r; Token := pg_token r;
  plugin_Config := cfg; ConfigSchema := pg_schema r; Enabled := pg_enabled r; IsDefault := pg_default r |}.

Definition GetPlugin (id : string) (t : list plugin_row) : result store_error Plugin :=
  match select_where (plugin_is id) t with
  | [] => Err ErrNotFound
  | r :: _ => match openConfig (pg_config r) with None => Err DbError | Some cfg => Ok (scan_plugin r cfg) end
  end.

(** [None] is the nil map. *)
Definition schemaPasswordKeys (schema : string) : list string :=
  if (slen schema =? 0)%Z then []
  else match properties_of schema with
       | None => []
       | Some props => map fst (List.filter (fun kv => WriteOnly (snd kv) || (Format (snd kv) =? "password")%string) props)
       end.

Definition star : string := String (byte_of 34) ("*" ++ String (byte_of 34) "").

(** [for k := range keys { if present { m[k] = star } }] *)
Definition redact_fields (keys : list string) (m : list (string * string)) : list (string * string) :=
  map (fun kv => if bool_decide (fst kv ∈ keys) then (fst kv, star) else kv) m.

Definition redacted_config (schema stored : string) : string :=
  let keys := schemaPasswordKeys schema in
  if (length keys =? 0)%nat then "{}"
  else match openConfig stored with
       | None => "{}"
       | Some plain => match object_of plain with None => "{}" | Some m => print_object (redact_fields keys m) end
       end.

(** The columns of the admin list: no token. *)
Definition scan_listed_plugin (r : plugin_row) : Plugin := {|
  plugin_ID := pg_id r; Kind := pg_kind r; plugin_Name := pg_name r; EndpointURL := pg_endpoint r; Token := "";
  plugin_Config := redacted_config (pg_schema r) (pg_config r); ConfigSchema := pg_schema r;
  Enabled := pg_enabled r; IsDefault := pg_default r |}.

(** The order of text in the database's collation. *)
Variable text_lt : string -> string -> bool.

(** [ORDER BY kind, name] *)
Definition plugin_before (a b : plugin_row) : bool :=
  text_lt (pg_kind a) (pg_kind b) || ((pg_kind a =? pg_kind b)%string && text_lt (pg_name a) (pg_name b)).

Definition ListPlugins (t : list plugin_row) : list Plugin := map scan_listed_plugin (order_by plugin_before t).

Definition named_plugin (kind name : string) (r : plugin_row) : bool := of_kind kind r && (pg_name r =? name)%string.

(** The statements are separate transactions; an error keeps what came before. *)
Definition EnsureDefaultPlugin (uuid kind name endpointURL token configJSON : string) (t : list plugin_row)
  : result store_error unit * list plugin_row :=
  let configJSON := if (configJSON =? "")%string then "{}" else configJSON in
  if negb (json_valid configJSON) then (Err (ValidationError "EnsureDefaultPlugin: configJSON is not valid JSON"), t)
  else
    match select_where (named_plugin kind name) t with
    | [] =>
        match CreatePlugin uuid {| plugin_ID := ""; Kind := kind; plugin_Name := name; EndpointURL := endpointURL;
                                   Token := token; plugin_Config := configJSON; ConfigSchema := ""; Enabled := true;
                                   IsDefault := false |} t with
        | (Err e, t') => (Err e, t')
        | (Ok created, t') => SetDefaultPlugin (plugin_ID created) t'
        end
    | r :: _ =>
        PatchPlugin {| plugin_ID := pg_id r; Kind := ""; plugin_Name := name; EndpointURL := endpointURL;
                       Token := token; plugin_Config := configJSON; ConfigSchema := pg_schema r; Enabled := true;
                       IsDefault := false |} true true t
    end.

Definition default_of (kind : string) (r : plugin_row) : bool := of_kind kind r && pg_default r && pg_enabled r.

Definition DefaultPlugin (kind : string) (t : list plugin_row) : result store_error Plugin :=
  match select_where (default_of kind) t with
  | [] => Err ErrNotFound
  | r :: _ => GetPlugin (pg_id r) t
  end.

End Registry.

(** ** Defaults *)

(** At most one default plugin of a kind. *)
Definition one_default (t : list plugin_row) : Prop :=
  forall a b, a ∈ t -> b ∈ t -> pg_kind a = pg_kind b -> pg_default a = true -> pg_default b = true -> pg_id a = pg_id b.

Definition plugins_ok (t : list plugin_row) : Prop := NoDup (map pg_id t) /\ one_default t.

Section Defaults.
Variable seal : string -> result store_error string.
Variable open : string -> option string.
Variable json_valid : string -> bool.
Abbreviation patch := (PatchPlugin seal).

Lemma make_default_ok id t : plugins_ok t -> plugins_ok (make_default id t).2.
Proof.
  intros [Hnd Ho]. unfold make_default. destruct (select_where (plugin_is id) t) as [|r l] eqn:E; [done|].
  assert (Hr : r ∈ t /\ plugin_is id r = true) by (apply elem_of_select_where; rewrite E; by left).
  destruct Hr as [Hr Hi]. apply String.eqb_eq in Hi. split; cbn [snd].
  { by rewrite !map_update_where. }
  assert (Hx : forall x, x ∈ update_where (plugin_is id) (set_default true) (update_where (of_kind (pg_kind r)) (set_default false) t) ->
    pg_default x = true -> pg_kind x = pg_kind r -> pg_id x = id).
  { intros x (y & (z & Hz & ->)%elem_of_update_where & ->)%elem_of_update_where. unfold of_kind, plugin_is.
    destruct (String.eqb_spec (pg_kind z) (pg_kind r)) as [Hk|Hk]; cbn [set_default pg_id];
      destruct (String.eqb_spec (pg_id z) id); cbn; done. }
  assert (Hy : forall x, x ∈ update_where (plugin_is id) (set_default true) (update_where (of_kind (pg_kind r)) (set_default false) t) ->
    pg_default x = true -> pg_kind x <> pg_kind r -> exists z, z ∈ t /\ pg_id z = pg_id x /\ pg_kind z = pg_kind x /\ pg_default z = true).
  { intros x (y & (z & Hz & ->)%elem_of_update_where & ->)%elem_of_update_where. unfold of_kind, plugin_is.
    destruct (String.eqb_spec (pg_kind z) (pg_kind r)) as [Hk|Hk]; cbn [set_default pg_id];
      destruct (String.eqb_spec (pg_id z) id) as [Hz'|]; cbn; try done; [|by exists z].
    intros _ Hne. rewrite (key_unique pg_id t z r) in Hk; [done..|congruence]. }
  intros a b Ha Hb Hk Hda Hdb. destruct (decide (pg_kind a = pg_kind r)) as [E1|E1].
  - rewrite (Hx a), (Hx b); [done..|congruence|done|done|done].
  - destruct (Hy a) as (x & Hx1 & <- & Hkx & Hdx); [done..|]. destruct (Hy b) as (y & Hy1 & <- & Hky & Hdy); [done|done|congruence|].
    apply Ho; [done..|congruence|done|done].
Qed.

Lemma update_fields_ok p t : plugins_ok t -> plugins_ok (update_fields seal p t).2.
Proof.
  intros [Hnd Ho]. unfold update_fields. destruct (sealConfig _ _) as [stored|]; [|done]. destruct (_ =? 0)%nat; [done|]. split; cbn [snd].
  { by rewrite map_update_where. }
  intros a b (x & Hx & ->)%elem_of_update_where (y & Hy & ->)%elem_of_update_where.
  assert (E : forall z, pg_id (if plugin_is (plugin_ID p) z then write_fields p stored z else z) = pg_id z /\
                        pg_kind (if plugin_is (plugin_ID p) z then write_fields p stored z else z) = pg_kind z /\
                        pg_default (if plugin_is (plugin_ID p) z then write_fields p stored z else z) = pg_default z)
    by (intros z; by destruct (plugin_is _ z)).
  destruct (E x) as (-> & -> & ->), (E y) as (-> & -> & ->). by apply Ho.
Qed.

Lemma PatchPlugin_ok p b b' t : plugins_ok t -> plugins_ok (patch p b b' t).2.
Proof.
  intros Ht. unfold PatchPlugin.
  assert (H1 : plugins_ok (if b then make_default (plugin_ID p) t else (Ok tt, t)).2) by (destruct b; [by apply make_default_ok|done]).
  destruct (if b then make_default (plugin_ID p) t else (Ok tt, t)) as [[[]|e] t1]; cbn in H1; [|done].
  assert (H2 : plugins_ok (if b' then update_fields seal p t1 else (Ok tt, t1)).2) by (destruct b'; [by apply update_fields_ok|done]).
  by destruct (if b' then update_fields seal p t1 else (Ok tt, t1)) as [[[]|e] t2].
Qed.

Lemma CreatePlugin_ok uuid p t : IsDefault p = false -> plugins_ok t -> plugins_ok (CreatePlugin seal uuid p t).2.
Proof.
  intros Hp [Hnd Ho]. unfold CreatePlugin. destruct (sealConfig _ _) as [stored|]; [|done].
  destruct (exists_where (plugin_is uuid) t) eqn:E; [done|]. destruct (negb _); [done|]. cbn [orb snd]. split.
  - rewrite map_app. apply NoDup_snoc; [done|]. intros (x & Hx & Hin)%list_elem_of_fmap. cbn in Hx.
    apply (exists_where_false _ t) with (r := x) in E; [|done]. by apply String.eqb_neq in E.
  - intros a b [Ha| ->%list_elem_of_singleton]%elem_of_app [Hb| ->%list_elem_of_singleton]%elem_of_app; cbn;
      rewrite ?Hp; [by apply Ho|done..].
Qed.

Lemma DeletePlugin_ok id t : plugins_ok t -> plugins_ok (DeletePlugin id t).2.
Proof.
  intros [Hnd Ho]. unfold DeletePlugin. destruct (_ =? 0)%nat; [done|]. split; [by apply NoDup_map_delete|].
  intros a b [Ha _]%elem_of_delete_where [Hb _]%elem_of_delete_where. by apply Ho.
Qed.

Lemma EnsureDefaultPlugin_ok uuid kind name url token config t :
  plugins_ok t -> plugins_ok (EnsureDefaultPlugin seal json_valid uuid kind name url token config t).2.
Proof.
  intros Ht. unfold EnsureDefaultPlugin. destruct (negb _); [done|].
  destruct (select_where (named_plugin kind name) t) as [|r l]; [|by apply PatchPlugin_ok].
  set (p := Build_Plugin _ _ _ _ _ _ _ _ _).
  assert (H := CreatePlugin_ok uuid p t eq_refl Ht). destruct (CreatePlugin seal uuid p t) as [[created|e] t']; [|done].
  by apply make_default_ok.
Qed.

(** The enabled default of its kind is the one served. *)
Lemma served kind t r :
  plugins_ok t -> r ∈ t -> default_of kind r = true ->
  DefaultPlugin open kind t = match open (pg_config r) with None => Err DbError | Some cfg => Ok (scan_plugin r cfg) end.
Proof.
  intros [Hnd Ho] Hr Hd. unfold DefaultPlugin, GetPlugin, openConfig.
  rewrite (select_key pg_id (default_of kind) t r); [|done..|].
  - rewrite (select_key pg_id (plugin_is (pg_id r)) t r); [done|done..|apply String.eqb_refl|].
    intros x _ Hx. by apply String.eqb_eq.
  - intros x Hx Hdx. unfold default_of, of_kind in Hd, Hdx.
    apply andb_true_iff in Hd as [[Hk%String.eqb_eq Hd]%andb_true_iff _].
    apply andb_true_iff in Hdx as [[Hkx%String.eqb_eq Hdx]%andb_true_iff _]. apply Ho; [done..|congruence|done|done].
Qed.

Lemma make_default_in r t :
  r ∈ t -> NoDup (map pg_id t) -> (make_default (pg_id r) t).1 = Ok tt /\ set_default true r ∈ (make_default (pg_id r) t).2.
Proof.
  intros Hr Hnd. unfold make_default.
  rewrite (select_key pg_id (plugin_is (pg_id r)) t r); [|done|done|apply String.eqb_refl|intros x _ Hx; by apply String.eqb_eq].
  split; [done|]. apply elem_of_update_where. exists (set_default false r). split.
  - apply elem_of_update_where. exists r. split; [done|]. unfold of_kind. by rewrite String.eqb_refl.
  - unfold plugin_is. cbn. by rewrite String.eqb_refl.
Qed.

(** [p] is served as the kind's default, with these fields. *)
Definition serves (kind name url token config : string) (t' : list plugin_row) (p : Plugin) : Prop :=
  DefaultPlugin open kind t' = Ok p /\ Kind p = kind /\ plugin_Name p = name /\ EndpointURL p = url /\
  Token p = token /\ plugin_Config p = config /\ Enabled p = true.

Hypothesis open_seal : forall x y, seal x = Ok y -> open y = Some x.

Lemma seal_config c : (slen c =? 0)%Z = false -> sealConfig seal c = seal c.
Proof. unfold sealConfig. by intros ->. Qed.

Lemma created_served uuid kind name url token c t t' :
  (slen c =? 0)%Z = false -> plugins_ok t -> plugins_ok t' ->
  match CreatePlugin seal uuid (Build_Plugin "" kind name url token c "" true false) t with
  | (Err e, t') => (Err e, t')
  | (Ok created, t') => SetDefaultPlugin (plugin_ID created) t'
  end = (Ok tt, t') ->
  exists p, serves kind name url token c t' p /\ forall r, r ∈ t -> pg_id r <> plugin_ID p.
Proof.
  intros Hc [Hnd _] Ht' He. unfold CreatePlugin in He. cbn [plugin_Config] in He. rewrite seal_config in He by done.
  destruct (seal c) as [stored|] eqn:Ec; [|done].
  destruct (exists_where (plugin_is uuid) t) eqn:Ex; [done|]. cbn [orb Kind] in He. destruct (negb (kind_ok kind)); [done|].
  cbn in He. set (row := mkPlugin uuid _ _ _ _ _ _ _ _) in He.
  assert (Hnew : forall x, x ∈ t -> pg_id x <> uuid)
    by (intros x Hx; apply (exists_where_false _ t) with (r := x) in Ex; [|done]; by apply String.eqb_neq in Ex).
  assert (Hnd' : NoDup (map pg_id (t ++ [row]))).
  { rewrite map_app. apply NoDup_snoc; [done|]. intros (x & Hx & Hin)%list_elem_of_fmap. by destruct (Hnew x Hin). }
  destruct (make_default_in row (t ++ [row])) as [_ Hin]; [apply elem_of_app; right; by left|done|].
  unfold SetDefaultPlugin in He. change uuid with (pg_id row) in He. rewrite He in Hin. cbn [snd] in Hin.
  eexists. unfold serves. rewrite (served kind t' _ Ht' Hin); [|unfold default_of, of_kind; cbn; by rewrite String.eqb_refl].
  cbn. rewrite (open_seal _ _ Ec). split; [by split_and!|]. cbn. exact Hnew.
Qed.

Lemma patched_served r kind name url token c t t' :
  (slen c =? 0)%Z = false -> plugins_ok t -> plugins_ok t' -> r ∈ t -> pg_kind r = kind ->
  patch (Build_Plugin (pg_id r) "" name url token c (pg_schema r) true false) true true t = (Ok tt, t') ->
  exists p, serves kind name url token c t' p /\ plugin_ID p = pg_id r /\ ConfigSchema p = or_empty_object (pg_schema r).
Proof.
  intros Hc [Hnd _] Ht' Hr <- He. unfold PatchPlugin in He. cbn [plugin_ID] in He.
  destruct (make_default_in r t Hr Hnd) as [H1 H2]. destruct (make_default (pg_id r) t) as [x t1]. cbn in H1, H2. subst x.
  unfold update_fields in He. cbn [plugin_Config plugin_ID] in He. rewrite seal_config in He by done.
  destruct (seal c) as [stored|] eqn:Ec; [|done]. destruct (_ =? 0)%nat; [done|]. injection He as <-.
  assert (Hin : write_fields (Build_Plugin (pg_id r) "" name url token c (pg_schema r) true false) stored (set_default true r) ∈
    update_where (plugin_is (pg_id r)) (write_fields (Build_Plugin (pg_id r) "" name url token c (pg_schema r) true false) stored) t1).
  { apply elem_of_update_where. exists (set_default true r). split; [done|]. unfold plugin_is. cbn. by rewrite String.eqb_refl. }
  eexists. unfold serves. rewrite (served (pg_kind r) _ _ Ht' Hin); [|unfold default_of, of_kind; cbn; by rewrite String.eqb_refl].
  cbn. rewrite (open_seal _ _ Ec). split; [by split_and!|]. done.
Qed.
End Defaults.

(** The plugin the configuration names is the one served.  When
    [EnsureDefaultPlugin] succeeds, on first boot or any later one, the default
    plugin of its kind is enabled and carries the name, endpoint, token and
    config given; a schema registered before is kept; and there is still at most
    one default of each kind.  [open] undoes [seal]. *)
Theorem EnsureDefaultPlugin_serves seal open json_valid uuid kind name url token config t t' :
  (forall x y, seal x = Ok y -> open y = Some x) ->
  plugins_ok t -> EnsureDefaultPlugin seal json_valid uuid kind name url token config t = (Ok tt, t') ->
  plugins_ok t' /\
  exists p, serves open kind name url token (if (config =? "")%string then "{}" else config) t' p /\
    (forall r, r ∈ t -> pg_id r = plugin_ID p -> ConfigSchema p = or_empty_object (pg_schema r)).
Proof.
  intros Hopen Ht He. assert (Ht' := EnsureDefaultPlugin_ok seal json_valid uuid kind name url token config t Ht).
  rewrite He in Ht'. split; [exact Ht'|]. cbn [snd] in Ht'. unfold EnsureDefaultPlugin in He.
  set (c := if (config =? "")%string then "{}" else config) in *.
  assert (Hc : (slen c =? 0)%Z = false) by (unfold c; destruct (String.eqb_spec config ""); [done|]; by destruct config).
  destruct (negb (json_valid c)); [done|]. destruct (select_where (named_plugin kind name) t) as [|r l] eqn:Es.
  - destruct (created_served seal open Hopen uuid kind name url token c t t' Hc Ht Ht' He) as (p & Hp & Hnew).
    exists p. split; [done|]. intros r Hr E. by destruct (Hnew r Hr).
  - assert (Hr : r ∈ t /\ named_plugin kind name r = true) by (apply elem_of_select_where; rewrite Es; by left).
    destruct Hr as [Hr [Hk%String.eqb_eq _]%andb_true_iff].
    destruct (patched_served seal open Hopen r kind name url token c t t' Hc Ht Ht' Hr Hk He) as (p & Hp & Hi & Hs).
    exists p. split; [done|]. intros r' Hr' E. rewrite Hi in E.
    by rewrite (key_unique pg_id t r' r (proj1 Ht) Hr' Hr E).
Qed.

Module PluginDemo.
Definition sealed (x : string) : result store_error string := Ok ("!" ++ x).
Definition opened (y : string) : option string := match y with String _ x => Some x | EmptyString => None end.
Definition old_default : plugin_row := mkPlugin "p1" PluginTranscriber "old" "http://old" "" "!{}" "{}" true true.
Definition configured : plugin_row := mkPlugin "p2" PluginTranscriber "whisper" "http://w" "" "!{}" "{s}" false false.

Lemma opened_sealed x y : sealed x = Ok y -> opened y = Some x.
Proof. by intros [= <-]. Qed.

Lemma demo_plugins_ok : plugins_ok [old_default; configured].
Proof.
  split; [apply (bool_decide_unpack _); by vm_compute|].
  by intros a b [->| ->%list_elem_of_singleton]%elem_of_cons [->| ->%list_elem_of_singleton]%elem_of_cons.
Qed.

Definition ensured : result store_error unit * list plugin_row :=
  EnsureDefaultPlugin sealed (fun _ => true) "p3" PluginTranscriber "whisper" "http://new" "tok" "{m}" [old_default; configured].

Lemma EnsureDefaultPlugin_serves_witness :
  map pg_default ensured.2 = [false; true] /\
  plugins_ok ensured.2 /\
  exists p, serves opened PluginTranscriber "whisper" "http://new" "tok" "{m}" ensured.2 p /\
    (forall r, r ∈ [old_default; configured] -> pg_id r = plugin_ID p -> ConfigSchema p = or_empty_object (pg_schema r)).
Proof.
  split; [by vm_compute|].
  apply (EnsureDefaultPlugin_serves sealed opened (fun _ => true) "p3" PluginTranscriber "whisper" "http://new" "tok" "{m}"
           [old_default; configured]); [apply opened_sealed|apply demo_plugins_ok|by vm_compute].
Defined.
End PluginDemo.
