(* ===== verification/Webhooks.v ===== *)
(** Outbound webhooks: [internal/store/webhooks.go] and the delivery worker
    [internal/webhook/deliver.go].

    [webhook] and [delivery] are rows of [webhooks] and [webhook_deliveries].
    Times are nanoseconds.  The check of the URL, the HTTP exchange and the
    keyed hash are arguments of the worker's step. *)

From stdpp Require Import base list strings sets gmap.
From Stdlib Require Import ZArith Lia.
From S2P Require Import GoInt GoStrings Sql.

Local Open Scope string_scope.

Definition DeliveryPending : string := "pending".
Definition DeliveryInFlight : string := "in_flight".
Definition DeliveryDelivered : string := "delivered".
Definition DeliveryFailed : string := "failed".

Record webhook := mkWebhook {
  wh_id : string; wh_owner : string; wh_url : string; wh_secret : string; wh_enabled : bool; wh_created : Z;
  wh_updated : Z }.

Record delivery := mkDelivery {
  dl_id : string; dl_webhook : string; dl_payload : string; dl_status : string; dl_attempts : Z;
  dl_max_attempts : Z; dl_next : option Z; dl_error : option string; dl_created : Z; dl_updated : Z }.

Record hooks := mkHooks { h_webhooks : list webhook; h_deliveries : list delivery }.

Definition with_deliveries (x : list delivery) (d : hooks) : hooks := mkHooks (h_webhooks d) x.

(** The [SET] lists. *)
Definition set_state (status : string) (now : Z) (r : delivery) : delivery :=
  mkDelivery (dl_id r) (dl_webhook r) (dl_payload r) status (dl_attempts r) (dl_max_attempts r) (dl_next r) (dl_error r)
    (dl_created r) now.
Definition failed_once (status lastErr : string) (next : option Z) (now : Z) (r : delivery) : delivery :=
  mkDelivery (dl_id r) (dl_webhook r) (dl_payload r) status (dl_attempts r + 1) (dl_max_attempts r) next (Some lastErr)
    (dl_created r) now.
Definition requeued (now : Z) (r : delivery) : delivery :=
  mkDelivery (dl_id r) (dl_webhook r) (dl_payload r) DeliveryPending 0 (dl_max_attempts r) None None (dl_created r) now.

Definition delivery_is (id : string) (r : delivery) : bool := (dl_id r =? id)%string.
Definition in_state (status : string) (r : delivery) : bool := (dl_status r =? status)%string.

(** ** [WebhookDelivery]: the columns of a delivery, [COALESCE(last_error,'')]. *)

Record WebhookDelivery := {
  del_ID : string; WebhookID : string; Payload : string; del_Status : string; del_Attempts : Z; MaxAttempts : Z;
  NextAttemptAt : option Z; del_LastError : string; del_CreatedAt : Z; del_UpdatedAt : Z }.

Definition scan_delivery (r : delivery) : WebhookDelivery := {|
  del_ID := dl_id r; WebhookID := dl_webhook r; Payload := dl_payload r; del_Status := dl_status r;
  del_Attempts := dl_attempts r; MaxAttempts := dl_max_attempts r; NextAttemptAt := dl_next r;
  del_LastError := default "" (dl_error r); del_CreatedAt := dl_created r; del_UpdatedAt := dl_updated r |}.

(** ** Operations *)

Definition due (now : Z) (r : delivery) : bool :=
  in_state DeliveryPending r && match dl_next r with None => true | Some t => (t <=? now)%Z end.

(** [locked] are the rows other transactions hold a lock on ([SKIP LOCKED]). *)
Definition ListPendingDeliveries (now : Z) (locked : delivery -> bool) (limit : nat) (d : hooks) : list WebhookDelivery :=
  map scan_delivery
    (take limit (order_by (fun a b => (dl_created a <? dl_created b)%Z)
      (select_where (fun r => due now r && negb (locked r)) (h_deliveries d)))).

(** [UPDATE webhook_deliveries SET g WHERE p]; no row is [ErrNotFound]. *)
Definition update_deliveries (p : delivery -> bool) (g : delivery -> delivery) (d : hooks) : result store_error unit * hooks :=
  if (rows_affected p (h_deliveries d) =? 0)%nat then (Err ErrNotFound, d)
  else (Ok tt, with_deliveries (update_where p g (h_deliveries d)) d).

Definition ClaimDelivery (now : Z) (id : string) (d : hooks) : result store_error unit * hooks :=
  update_deliveries (fun r => delivery_is id r && in_state DeliveryPending r) (set_state DeliveryInFlight now) d.

Definition MarkDelivered (now : Z) (id : string) (d : hooks) : result store_error unit * hooks :=
  update_deliveries (delivery_is id) (set_state DeliveryDelivered now) d.

Definition MarkFailed (now : Z) (id lastErr : string) (nextAttempt : option Z) (d : hooks) : result store_error unit * hooks :=
  match nextAttempt with
  | None => update_deliveries (delivery_is id) (failed_once DeliveryFailed lastErr None now) d
  | Some t => update_deliveries (delivery_is id) (failed_once DeliveryPending lastErr (Some t) now) d
  end.

Definition ResetInflightDeliveries (now : Z) (d : hooks) : hooks :=
  with_deliveries (update_where (in_state DeliveryInFlight) (set_state DeliveryPending now) (h_deliveries d)) d.

Definition ListEnabledWebhooksForOwner (ownerID : string) (d : hooks) : list webhook :=
  select_where (fun w => (wh_owner w =? ownerID)%string && wh_enabled w) (h_webhooks d).

(** [uuid] is the default [gen_random_uuid()]; the other columns take the
    defaults of the migration. *)
Definition CreateDelivery (uuid : string) (now : Z) (webhookID payload : string) (d : hooks) : result store_error unit * hooks :=
  if exists_where (delivery_is uuid) (h_deliveries d) then (Err DbError, d)
  else if negb (exists_where (fun w => (wh_id w =? webhookID)%string) (h_webhooks d)) then (Err DbError, d)
  else (Ok tt, with_deliveries (h_deliveries d ++
          [mkDelivery uuid webhookID payload DeliveryPending 0 5 None None now now])%list d).

Definition webhook_of (d : hooks) (r : delivery) : option webhook :=
  head (select_where (fun w => (wh_id w =? dl_webhook r)%string) (h_webhooks d)).

Definition GetDeliveryWebhook (deliveryID : string) (d : hooks) : result store_error webhook :=
  match r ← head (select_where (delivery_is deliveryID) (h_deliveries d)); webhook_of d r with
  | None => Err ErrNotFound
  | Some w => Ok w
  end.

Definition delivery_owned (ownerID : string) (d : hooks) (r : delivery) : bool :=
  match webhook_of d r with Some w => (wh_owner w =? ownerID)%string | None => false end.

Definition ListDeliveriesForOwner (ownerID : string) (limit : nat) (d : hooks) : list WebhookDelivery :=
  map scan_delivery
    (take limit (order_by (fun a b => (dl_created b <? dl_created a)%Z)
      (select_where (delivery_owned ownerID d) (h_deliveries d)))).

(** [None] is [ErrInvalidState]. *)
Definition RetryDelivery (now : Z) (ownerID deliveryID : string) (d : hooks) : result (option store_error) string * hooks :=
  match select_where (fun r => delivery_is deliveryID r && delivery_owned ownerID d r) (h_deliveries d) with
  | [] => (Err (Some ErrNotFound), d)
  | r :: _ =>
      if in_state DeliveryDelivered r then (Ok DeliveryDelivered, d)
      else if in_state DeliveryFailed r
      then (Ok DeliveryPending, with_deliveries (update_where (delivery_is deliveryID) (requeued now) (h_deliveries d)) d)
      else (Err None, d)
  end.

(** ** The delivery worker *)

Definition maxBackoff : Z := (3600 * second)%Z.

(** [time.Duration(5<<uint(attempts)) * time.Second]; both wrap.  A negative
    [attempts] converts to a shift past the width, which is 0. *)
Definition backoff (attempts : Z) : Z :=
  let shifted := if (attempts <? 0)%Z || (64 <=? attempts)%Z then 0%Z else wrap64 (Z.shiftl 5 attempts) in
  let b := wrap64 (shifted * second) in
  if (maxBackoff <? b)%Z then maxBackoff else b.

(** What the HTTP exchange of one attempt comes to. *)
Inductive exchange :=
| BadRequest (e : string)
| TransportError (e : string)
| Response (code : Z).

Section Worker.
Variable validateURL : string -> option string.   (* an error, if any *)
Variable post : webhook -> string -> exchange.
Variable error_text : store_error -> string.

Definition giveUp (now : Z) (del : WebhookDelivery) (errStr : string) (d : hooks) : hooks :=
  snd (MarkFailed now (del_ID del) errStr None d).

Definition fail_delivery (now clock : Z) (del : WebhookDelivery) (errStr : string) (d : hooks) : hooks :=
  let nextAttempts := (del_Attempts del + 1)%Z in
  if (MaxAttempts del <=? nextAttempts)%Z then giveUp now del errStr d
  else snd (MarkFailed now (del_ID del) errStr (Some (clock + backoff (del_Attempts del))%Z) d).

(** The request that was posted, if one was, and the tables. *)
Definition dispatch (now clock : Z) (del : WebhookDelivery) (d : hooks) : option (string * string) * hooks :=
  match ClaimDelivery now (del_ID del) d with
  | (Err _, d) => (None, d)
  | (Ok _, d) =>
      match GetDeliveryWebhook (del_ID del) d with
      | Err e => (None, fail_delivery now clock del ("get webhook: " ++ error_text e) d)
      | Ok wh =>
          match validateURL (wh_url wh) with
          | Some e => (None, giveUp now del ("ssrf validation: " ++ e) d)
          | None =>
              match post wh (Payload del) with
              | BadRequest e => (None, fail_delivery now clock del ("build request: " ++ e) d)
              | TransportError e => (Some (wh_url wh, Payload del), fail_delivery now clock del ("http: " ++ e) d)
              | Response code =>
                  (Some (wh_url wh, Payload del),
                   if (200 <=? code)%Z && (code <? 300)%Z then snd (MarkDelivered now (del_ID del) d)
                   else fail_delivery now clock del ("non-2xx response: " ++ Itoa code) d)
              end
          end
      end
  end.

(** [poll]: at most ten deliveries, one after the other. *)
Fixpoint dispatch_all (now clock : Z) (dels : list WebhookDelivery) (d : hooks) : list (string * string) * hooks :=
  match dels with
  | [] => ([], d)
  | del :: rest =>
      let '(sent, d) := dispatch now clock del d in
      let '(sents, d) := dispatch_all now clock rest d in
      ((match sent with Some s => [s] | None => [] end ++ sents)%list, d)
  end.

Definition poll (now clock : Z) (locked : delivery -> bool) (d : hooks) : list (string * string) * hooks :=
  dispatch_all now clock (ListPendingDeliveries now locked 10 d) d.

(** [signPayload]: the keyed hash over the timestamp, a dot and the body. *)
Variable hmac_sha256_hex : string -> string -> string.

Definition signPayload (secret : string) (timestamp : Z) (body : string) : string :=
  "sha256=" ++ hmac_sha256_hex secret (Itoa timestamp ++ "." ++ body).

End Worker.

(** ** What one attempt does *)

Lemma select_delivery d r : NoDup (map dl_id (h_deliveries d)) -> r ∈ h_deliveries d ->
  select_where (delivery_is (dl_id r)) (h_deliveries d) = [r].
Proof.
  intros Hnd Hr. apply (select_key dl_id); [done..|apply String.eqb_refl|]. intros x _ Hx. by apply String.eqb_eq.
Qed.

(** [d] with the delivery's row changed. *)
Definition with_row (id : string) (g : delivery -> delivery) (d : hooks) : hooks :=
  with_deliveries (update_where (delivery_is id) g (h_deliveries d)) d.

Lemma update_deliveries_row d r g :
  r ∈ h_deliveries d -> update_deliveries (delivery_is (dl_id r)) g d = (Ok tt, with_row (dl_id r) g d).
Proof.
  intros Hr. unfold update_deliveries. destruct (rows_affected _ _ =? 0)%nat eqn:E; [|done]. exfalso.
  apply Nat.eqb_eq in E. assert (H : (0 < rows_affected (delivery_is (dl_id r)) (h_deliveries d))%nat); [|lia].
  apply rows_affected_pos. exists r. split; [done|]. by apply String.eqb_eq.
Qed.

Lemma with_row_twice id g h d :
  (forall r, dl_id (g r) = dl_id r) -> with_row id h (with_row id g d) = with_row id (fun r => h (g r)) d.
Proof.
  intros Hg. unfold with_row, with_deliveries. cbn. f_equal. unfold update_where. rewrite map_map. apply map_ext. intros r.
  destruct (delivery_is id r) eqn:E; [|by rewrite E]. assert (E' : delivery_is id (g r) = true) by (unfold delivery_is in *; by rewrite Hg).
  by rewrite E'.
Qed.

(** The delay grows from five seconds and stays within the hour: no attempt
    the table's [max_attempts] admits makes it wrap. *)
Lemma backoff_exact a : (0 <= a < 29)%Z -> backoff a = Z.min (5 * 2 ^ a * second) maxBackoff.
Proof.
  intros Ha. unfold backoff. destruct (Z.ltb_spec a 0); [lia|]. destruct (Z.leb_spec 64 a); [lia|]. cbn [orb].
  assert (Hp : (1 <= 2 ^ a < 2 ^ 29)%Z) by (split; [apply (Z.pow_le_mono_r 2 0 a); lia|apply Z.pow_lt_mono_r; lia]).
  assert (E1 : wrap64 (Z.shiftl 5 a) = (5 * 2 ^ a)%Z) by (rewrite Z.shiftl_mul_pow2 by lia; apply wrap64_id; unfold in_int64, int64_min, int64_max; lia).
  rewrite E1. assert (E2 : wrap64 (5 * 2 ^ a * second) = (5 * 2 ^ a * second)%Z) by (apply wrap64_id; unfold in_int64, int64_min, int64_max, second; lia).
  rewrite E2. destruct (Z.ltb_spec maxBackoff (5 * 2 ^ a * second)); lia.
Qed.

(** Past that it does wrap: the 32nd retry would not wait at all. *)
Example backoff_wraps : (backoff 31 < 0)%Z.
Proof. by vm_compute. Qed.

Inductive verdict := Accepted | Transient (e : string) | Refused (e : string).

(** The row after an attempt. *)
Definition after_attempt (now clock : Z) (v : verdict) (r : delivery) : delivery :=
  match v with
  | Accepted => set_state DeliveryDelivered now r
  | Refused e => failed_once DeliveryFailed e None now r
  | Transient e =>
      if (dl_max_attempts r <=? dl_attempts r + 1)%Z then failed_once DeliveryFailed e None now r
      else failed_once DeliveryPending e (Some (clock + Z.min (5 * 2 ^ dl_attempts r * second) maxBackoff)%Z) now r
  end.

Section Attempt.
Variable validateURL : string -> option string.
Variable post : webhook -> string -> exchange.
Variable error_text : store_error -> string.

(** Whether the request is posted, and how the attempt is judged. *)
Definition judge (w : webhook) (body : string) : bool * verdict :=
  match validateURL (wh_url w) with
  | Some e => (false, Refused ("ssrf validation: " ++ e))
  | None =>
      match post w body with
      | BadRequest e => (false, Transient ("build request: " ++ e))
      | TransportError e => (true, Transient ("http: " ++ e))
      | Response code =>
          (true, if (200 <=? code)%Z && (code <? 300)%Z then Accepted else Transient ("non-2xx response: " ++ Itoa code))
      end
  end.

Lemma claim_pending d r now :
  NoDup (map dl_id (h_deliveries d)) -> r ∈ h_deliveries d ->
  ClaimDelivery now (dl_id r) d =
  if in_state DeliveryPending r then (Ok tt, with_row (dl_id r) (set_state DeliveryInFlight now) d) else (Err ErrNotFound, d).
Proof.
  intros Hnd Hr. unfold ClaimDelivery, update_deliveries.
  assert (Hu : forall x, x ∈ h_deliveries d -> delivery_is (dl_id r) x && in_state DeliveryPending x =
                                              delivery_is (dl_id r) x && in_state DeliveryPending r).
  { intros x Hx. destruct (delivery_is (dl_id r) x) eqn:E; [|done]. apply String.eqb_eq in E.
    by rewrite (key_unique dl_id (h_deliveries d) x r). }
  assert (Hs : select_where (fun x => delivery_is (dl_id r) x && in_state DeliveryPending x) (h_deliveries d) =
               if in_state DeliveryPending r then [r] else []).
  { unfold select_where. rewrite (List.filter_ext_in _ (fun x => delivery_is (dl_id r) x && in_state DeliveryPending r))
      by (intros x Hx%list_elem_of_In; by apply Hu).
    destruct (in_state DeliveryPending r).
    - rewrite (List.filter_ext _ (delivery_is (dl_id r))) by (intros; by rewrite andb_true_r). exact (select_delivery d r Hnd Hr).
    - rewrite (List.filter_ext _ (fun _ => false)) by (intros; by rewrite andb_false_r). by apply (select_none (fun _ => false)). }
  unfold rows_affected. unfold select_where in Hs. rewrite Hs. destruct (in_state DeliveryPending r); cbn; [|done].
  f_equal. unfold with_row. f_equal. unfold update_where. apply map_ext_in. intros x Hx%list_elem_of_In.
  rewrite Hu by done. by rewrite andb_true_r.
Qed.

Lemma row_in d r g : r ∈ h_deliveries d -> g r ∈ h_deliveries (with_row (dl_id r) g d).
Proof.
  intros Hr. apply elem_of_update_where. exists r. split; [done|]. unfold delivery_is. by rewrite String.eqb_refl.
Qed.

(** Writes to a row that is claimed. *)
Lemma claimed_update d r now g :
  r ∈ h_deliveries d ->
  (update_deliveries (delivery_is (dl_id r)) g (with_row (dl_id r) (set_state DeliveryInFlight now) d)).2 =
  with_row (dl_id r) (fun x => g (set_state DeliveryInFlight now x)) d.
Proof.
  intros Hr. assert (Hin := row_in d r (set_state DeliveryInFlight now) Hr).
  assert (E := update_deliveries_row _ _ g Hin). cbn [dl_id set_state] in E. rewrite E. cbn [snd]. by apply with_row_twice.
Qed.

Lemma with_row_ext d r g h : NoDup (map dl_id (h_deliveries d)) -> r ∈ h_deliveries d -> g r = h r ->
  with_row (dl_id r) g d = with_row (dl_id r) h d.
Proof.
  intros Hnd Hr E. unfold with_row. f_equal. unfold update_where. apply map_ext_in. intros x Hx%list_elem_of_In.
  destruct (delivery_is (dl_id r) x) eqn:Ex; [|done]. apply String.eqb_eq in Ex. by rewrite (key_unique dl_id (h_deliveries d) x r).
Qed.

Lemma fail_row d r now clock e :
  NoDup (map dl_id (h_deliveries d)) -> r ∈ h_deliveries d -> (0 <= dl_attempts r < 29)%Z ->
  fail_delivery now clock (scan_delivery r) e (with_row (dl_id r) (set_state DeliveryInFlight now) d) =
  with_row (dl_id r) (after_attempt now clock (Transient e)) d.
Proof.
  intros Hnd Hr Ha. unfold fail_delivery, giveUp, MarkFailed. cbn [scan_delivery del_Attempts MaxAttempts del_ID].
  destruct (dl_max_attempts r <=? dl_attempts r + 1)%Z eqn:E; rewrite claimed_update by done; apply with_row_ext; try done; cbn;
    rewrite E; by rewrite ?backoff_exact.
Qed.
End Attempt.

(** C16. One delivery attempt is exact.  Only a pending delivery is claimed and
    posted, each at most once; the body posted is the delivery's, to its
    webhook's URL, after the URL has been validated.  A 2xx answer delivers it;
    anything transient puts it back with one attempt more and the delay of five
    seconds doubled per attempt up to the hour, until the attempts run out; a
    refused URL fails it at once.  No other delivery changes. *)
Theorem dispatch_exact validateURL post error_text now clock d r w :
  NoDup (map dl_id (h_deliveries d)) -> r ∈ h_deliveries d -> webhook_of d r = Some w -> (0 <= dl_attempts r < 29)%Z ->
  dispatch validateURL post error_text now clock (scan_delivery r) d =
  if in_state DeliveryPending r then
    (if (judge validateURL post w (dl_payload r)).1 then Some (wh_url w, dl_payload r) else None,
     with_row (dl_id r) (after_attempt now clock (judge validateURL post w (dl_payload r)).2) d)
  else (None, d).
Proof.
  intros Hnd Hr Hw Ha. unfold dispatch. cbn [scan_delivery del_ID]. rewrite claim_pending by done.
  destruct (in_state DeliveryPending r); [|done].
  assert (Hg : GetDeliveryWebhook (dl_id r) (with_row (dl_id r) (set_state DeliveryInFlight now) d) = Ok w).
  { unfold GetDeliveryWebhook. cbn [with_row with_deliveries h_deliveries].
    assert (Hs := select_delivery (with_row (dl_id r) (set_state DeliveryInFlight now) d) (set_state DeliveryInFlight now r)).
    cbn [dl_id set_state] in Hs. cbn [with_row with_deliveries h_deliveries] in Hs. rewrite Hs; [cbn; change (webhook_of _ _) with (webhook_of d r); by rewrite Hw| |].
    - rewrite map_update_where; [done|]. by intros [].
    - by apply row_in. }
  rewrite Hg. unfold judge. destruct (validateURL (wh_url w)) as [e|].
  { unfold giveUp, MarkFailed. cbn [scan_delivery del_ID]. rewrite claimed_update by done. f_equal. }
  cbn [scan_delivery Payload]. destruct (post w (dl_payload r)) as [e|e|code]; cbn [fst snd].
  1-2: f_equal; by apply fail_row.
  destruct (_ && _); cbn; f_equal; [|by apply fail_row]. unfold MarkDelivered. by rewrite claimed_update.
Qed.

Module WebhookDemo.
Definition hook : webhook := mkWebhook "w" "ann" "https://hook" "secret" true 1 1.
Definition sent (attempts : Z) : delivery := mkDelivery "d1" "w" "{}" DeliveryPending attempts 5 None None 1 1.
Definition demo (attempts : Z) : hooks := mkHooks [hook] [sent attempts; mkDelivery "d2" "w" "{}" DeliveryFailed 5 5 None None 1 1].
Definition answers (code : Z) (_ : webhook) (_ : string) : exchange := Response code.

Lemma dispatch_exact_witness :
  (map dl_status (h_deliveries (dispatch (fun _ => None) (answers 503) (fun _ => "") 7 100 (scan_delivery (sent 2)) (demo 2)).2),
   map dl_next (h_deliveries (dispatch (fun _ => None) (answers 503) (fun _ => "") 7 100 (scan_delivery (sent 2)) (demo 2)).2)) =
  ([DeliveryPending; DeliveryFailed], [Some (100 + 20 * second)%Z; None]) /\
  dispatch (fun _ => None) (answers 503) (fun _ => "") 7 100 (scan_delivery (sent 2)) (demo 2) =
  (Some ("https://hook", "{}"),
   with_row "d1" (after_attempt 7 100 (judge (fun _ => None) (answers 503) hook "{}").2) (demo 2)).
Proof.
  split; [by vm_compute|].
  apply (dispatch_exact (fun _ => None) (answers 503) (fun _ => "") 7 100 (demo 2) (sent 2) hook).
  - apply NoDup_cons. split; [by intros ?%list_elem_of_singleton|]. apply NoDup_singleton.
  - by left.
  - done.
  - cbn. lia.
Defined.
End WebhookDemo.
