(* ===== verification/Speakers.v ===== *)
(** Speaker names: the table of aliases ([internal/store/speaker_aliases.go])
    and their substitution into what a plugin is sent
    ([internal/store/aliases.go], [internal/worker/speaker_alias.go]).

    [alias_row] is a row of [note_speaker_aliases].  A Go map from labels to
    names is a [gmap]. *)

From stdpp Require Import base list strings sets gmap.
From Stdlib Require Import ZArith Lia.
From S2P Require Import GoInt GoStrings Sql Execution Notes Transcripts.

Local Open Scope string_scope.

Record alias_row := mkAliasRow {
  ar_note : string; ar_owner : string; ar_label : string; ar_name : string; ar_person : option string }.

Record SpeakerAlias := {
  alias_NoteID : string; alias_PersonID : option string; SpeakerLabel : string; AliasName : string }.

Definition scan_alias (r : alias_row) : SpeakerAlias := {|
  alias_NoteID := ar_note r; alias_PersonID := ar_person r; SpeakerLabel := ar_label r; AliasName := ar_name r |}.

(** ** The table *)

Definition aliases_for (ownerID noteID : string) (r : alias_row) : bool :=
  (ar_owner r =? ownerID)%string && (ar_note r =? noteID)%string.
Definition alias_key (noteID label : string) (r : alias_row) : bool :=
  (ar_note r =? noteID)%string && (ar_label r =? label)%string.
Definition alias_of (ownerID noteID label : string) (r : alias_row) : bool :=
  aliases_for ownerID noteID r && (ar_label r =? label)%string.

Section Aliases.
(** The order of text in the database's collation. *)
Variable text_lt : string -> string -> bool.

Definition listSpeakerAliasesTx (ownerID noteID : string) (t : list alias_row) : list SpeakerAlias :=
  map scan_alias (order_by (fun a b => text_lt (ar_label a) (ar_label b)) (select_where (aliases_for ownerID noteID) t)).

Definition ListSpeakerAliases (ownerID noteID : string) (t : list alias_row) : list SpeakerAlias :=
  listSpeakerAliasesTx ownerID noteID t.

Definition NoteOwnedBy (ownerID noteID : string) (notes : list note_row) : bool :=
  exists_where (fun r => note_is noteID r && owned ownerID r && row_live r) notes.

(** [ON CONFLICT (note_id, speaker_label) DO UPDATE SET alias_name]: the owner
    and the person of an existing row stay. *)
Definition UpsertSpeakerAlias (ownerID noteID speakerLabel aliasName : string) (notes : list note_row)
    (t : list alias_row) : result store_error unit * list alias_row :=
  if negb (NoteOwnedBy ownerID noteID notes) then (Err ErrNotFound, t)
  else if exists_where (alias_key noteID speakerLabel) t
  then (Ok tt, update_where (alias_key noteID speakerLabel)
                 (fun r => mkAliasRow (ar_note r) (ar_owner r) (ar_label r) aliasName (ar_person r)) t)
  else (Ok tt, (t ++ [mkAliasRow noteID ownerID speakerLabel aliasName None])%list).

Definition DeleteSpeakerAlias (ownerID noteID speakerLabel : string) (t : list alias_row)
  : result store_error unit * list alias_row :=
  if (rows_affected (alias_of ownerID noteID speakerLabel) t =? 0)%nat then (Err ErrNotFound, t)
  else (Ok tt, delete_where (alias_of ownerID noteID speakerLabel) t).

(** [people] are the ids the foreign key admits. *)
Definition SetSpeakerAliasPerson (people : list string) (ownerID noteID speakerLabel : string) (personID : option string)
    (t : list alias_row) : result store_error unit * list alias_row :=
  if (rows_affected (alias_of ownerID noteID speakerLabel) t =? 0)%nat then (Err ErrNotFound, t)
  else if match personID with Some p => negb (bool_decide (p ∈ people)) | None => false end then (Err DbError, t)
  else (Ok tt, update_where (alias_of ownerID noteID speakerLabel)
                 (fun r => mkAliasRow (ar_note r) (ar_owner r) (ar_label r) (ar_name r) personID) t).

(** [m[a.SpeakerLabel] = a.AliasName] over the list. *)
Definition speakerAliasMapTx (ownerID noteID : string) (t : list alias_row) : gmap string string :=
  fold_left (fun m a => <[SpeakerLabel a := AliasName a]> m) (listSpeakerAliasesTx ownerID noteID t) ∅.

Definition SpeakerAliasMap (ownerID noteID : string) (t : list alias_row) : gmap string string :=
  speakerAliasMapTx ownerID noteID t.
End Aliases.

(** ** Substitution *)

Definition speakerAliasDirective : string :=
  "Use the provided speaker names verbatim; do not infer, abbreviate, or merge names.".

(** The loop that collects the aliases of labels that occur. *)
Definition applied_aliases (segments : list Segment) (aliases : gmap string string) : gmap string string :=
  fold_left (fun m seg =>
    if (Speaker seg =? "")%string then m
    else match aliases !! Speaker seg with
         | Some alias => if (alias =? "")%string then m else <[Speaker seg := alias]> m
         | None => m
         end) segments ∅.

Definition substitute (applied : gmap string string) (seg : Segment) : Segment :=
  match applied !! Speaker seg with Some alias => with_speaker alias seg | None => seg end.

(** [ApplyAliases]; the nil map is [None]. *)
Definition ApplyAliases (segments : list Segment) (aliases : gmap string string)
  : list Segment * option (gmap string string) :=
  if (size aliases =? 0)%nat then (segments, None)
  else
    let applied := applied_aliases segments aliases in
    if (size applied =? 0)%nat then (segments, None)
    else (map (substitute applied) segments, Some applied).

(** [sort.Strings] of the keys: bytewise. *)
Definition raw_labels (applied : gmap string string) : list string :=
  order_by String.ltb (map fst (map_to_list applied)).

Definition alias_pair (applied : gmap string string) (raw : string) : string :=
  raw ++ " -> " ++ default "" (applied !! raw).

Definition AliasPreface (applied : gmap string string) : string :=
  "Speakers: " ++ String.concat ", " (map (alias_pair applied) (raw_labels applied)) ++ newline ++ speakerAliasDirective.

(** The worker's own copy of the two. *)
Definition applySpeakerAliases (segments : list Segment) (notesMarkdown : string) (aliases : gmap string string)
  : list Segment * string :=
  if (size aliases =? 0)%nat then (segments, notesMarkdown)
  else
    let applied := applied_aliases segments aliases in
    if (size applied =? 0)%nat then (segments, notesMarkdown)
    else
      let preface := "Speakers: " ++ String.concat ", " (map (alias_pair applied) (raw_labels applied)) ++ newline
        ++ speakerAliasDirective in
      (map (substitute applied) segments, preface ++ newline ++ newline ++ notesMarkdown).

(** ** What the substitution does *)

Definition occurs (segments : list Segment) (k : string) : bool := existsb (fun seg => (Speaker seg =? k)%string) segments.

Lemma occurs_spec segments k : occurs segments k = true <-> exists seg, seg ∈ segments /\ Speaker seg = k.
Proof.
  unfold occurs. rewrite existsb_exists. setoid_rewrite String.eqb_eq. by setoid_rewrite list_elem_of_In.
Qed.

(** Collecting keeps exactly the non-empty aliases of labels that occur. *)
Lemma collect_lookup (segments : list Segment) (aliases m : gmap string string) k :
  fold_left (fun m seg =>
    if (Speaker seg =? "")%string then m
    else match aliases !! Speaker seg with
         | Some alias => if (alias =? "")%string then m else <[Speaker seg := alias]> m
         | None => m
         end) segments m !! k =
  match aliases !! k with
  | Some a => if negb (a =? "")%string && negb (k =? "")%string && occurs segments k then Some a else m !! k
  | None => m !! k
  end.
Proof.
  revert m. induction segments as [|seg rest IH]; intros m; cbn.
  { destruct (aliases !! k); [by rewrite andb_false_r|done]. }
  rewrite IH. clear IH. unfold occurs. cbn. destruct (String.eqb_spec (Speaker seg) k) as [->|Hne]; cbn.
  - destruct (String.eqb_spec k ""); cbn; [destruct (aliases !! k); by rewrite ?andb_false_r|].
    destruct (aliases !! k) as [a|]; [|done].
    destruct (String.eqb_spec a ""); cbn; [done|]. rewrite lookup_insert_eq. by destruct existsb.
  - assert (E : (if (Speaker seg =? "")%string then m
                 else match aliases !! Speaker seg with
                      | Some alias => if (alias =? "")%string then m else <[Speaker seg:=alias]> m
                      | None => m
                      end) !! k = m !! k)
      by (repeat case_match; by rewrite ?lookup_insert_ne).
    by rewrite E.
Qed.

Lemma applied_lookup segments aliases k v :
  applied_aliases segments aliases !! k = Some v <->
  aliases !! k = Some v /\ v <> "" /\ k <> "" /\ exists seg, seg ∈ segments /\ Speaker seg = k.
Proof.
  unfold applied_aliases. rewrite collect_lookup, <- occurs_spec, lookup_empty.
  destruct (aliases !! k) as [a|]; [|naive_solver].
  destruct (String.eqb_spec a ""), (String.eqb_spec k ""), (occurs segments k); naive_solver.
Qed.

(** A label is replaced by its alias, in segments and nowhere else. *)
Lemma substitute_speaker segments aliases seg :
  seg ∈ segments ->
  Speaker (substitute (applied_aliases segments aliases) seg) =
  match aliases !! Speaker seg with
  | Some a => if (a =? "")%string || (Speaker seg =? "")%string then Speaker seg else a
  | None => Speaker seg
  end.
Proof.
  intros Hin. unfold substitute.
  assert (Ho : occurs segments (Speaker seg) = true) by (apply occurs_spec; eauto).
  unfold applied_aliases. rewrite collect_lookup, Ho, lookup_empty. destruct (aliases !! Speaker seg) as [a|]; [|done].
  destruct (a =? "")%string, (Speaker seg =? "")%string; done.
Qed.

(** The name a label is shown under. *)
Definition display_name (aliases : gmap string string) (label : string) : string :=
  match aliases !! label with
  | Some a => if (a =? "")%string || (label =? "")%string then label else a
  | None => label
  end.

Definition renamed (aliases : gmap string string) (seg : Segment) : Segment := with_speaker (display_name aliases (Speaker seg)) seg.

Lemma with_own_speaker seg : with_speaker (Speaker seg) seg = seg.
Proof. by destruct seg. Qed.

Lemma substitute_renamed segments aliases seg :
  seg ∈ segments -> substitute (applied_aliases segments aliases) seg = renamed aliases seg.
Proof.
  intros Hin. assert (H := substitute_speaker segments aliases seg Hin). unfold renamed, display_name. rewrite <- H.
  unfold substitute. destruct (applied_aliases segments aliases !! Speaker seg) as [a|]; [done|]. by rewrite with_own_speaker.
Qed.

(** Nothing to apply: no segment changes. *)
Lemma nothing_applied segments aliases seg :
  size (applied_aliases segments aliases) = 0%nat -> seg ∈ segments -> renamed aliases seg = seg.
Proof.
  intros Hs Hin. rewrite <- (substitute_renamed segments aliases seg Hin). apply map_size_empty_inv in Hs.
  unfold substitute. by rewrite Hs, lookup_empty.
Qed.

Lemma ApplyAliases_cases segments aliases :
  (ApplyAliases segments aliases = (segments, None) /\ (forall seg, seg ∈ segments -> renamed aliases seg = seg)) \/
  (ApplyAliases segments aliases = (map (substitute (applied_aliases segments aliases)) segments,
     Some (applied_aliases segments aliases)) /\ applied_aliases segments aliases <> ∅ /\
   forall b, applySpeakerAliases segments b aliases = (map (substitute (applied_aliases segments aliases)) segments,
     AliasPreface (applied_aliases segments aliases) ++ newline ++ newline ++ b)).
Proof.
  unfold ApplyAliases, applySpeakerAliases. destruct (Nat.eqb_spec (size aliases) 0) as [Hs|_].
  { left. split; [done|]. intros seg _. apply map_size_empty_inv in Hs. subst aliases. unfold renamed, display_name.
    by rewrite lookup_empty, with_own_speaker. }
  destruct (Nat.eqb_spec (size (applied_aliases segments aliases)) 0) as [Hs|Hs].
  - left. split; [done|]. intros seg. by apply nothing_applied.
  - right. split; [done|]. split; [intros E; by rewrite E, map_size_empty in Hs|done].
Qed.

(** Speakers' names reach a prompt exactly.  In what [ApplyAliases] returns
    every segment whose label has a non-empty alias carries that alias as its
    speaker and is otherwise as before, in the same order; the returned map, and
    so the preface, names exactly the labels that occur and have an alias, each
    once; and the worker's own copy of the routine sends the same segments and
    the same preface as the one live generation uses. *)
Theorem aliases_exact segments notesMarkdown aliases :
  let '(out, applied) := ApplyAliases segments aliases in
  out = map (renamed aliases) segments /\
  applySpeakerAliases segments notesMarkdown aliases =
    (out, match applied with Some m => AliasPreface m ++ newline ++ newline ++ notesMarkdown | None => notesMarkdown end) /\
  (forall k v, default ∅ applied !! k = Some v <->
     aliases !! k = Some v /\ v <> "" /\ k <> "" /\ exists seg, seg ∈ segments /\ Speaker seg = k) /\
  NoDup (raw_labels (default ∅ applied)) /\
  (forall k, k ∈ raw_labels (default ∅ applied) <-> is_Some (default ∅ applied !! k)).
Proof.
  assert (Hraw : forall m : gmap string string, NoDup (raw_labels m) /\ forall k, k ∈ raw_labels m <-> is_Some (m !! k)).
  { intros m. unfold raw_labels. split; [rewrite order_by_perm; apply NoDup_fst_map_to_list|]. intros k.
    rewrite elem_of_order_by, list_elem_of_fmap. split.
    - intros ([k' v] & -> & H%elem_of_map_to_list). by exists v.
    - intros [v Hv]. exists (k, v). split; [done|]. by apply elem_of_map_to_list. }
  destruct (ApplyAliases_cases segments aliases) as [(E & Hsame)|(E & _ & Hw)]; rewrite E.
  - split_and!.
    + rewrite <- (map_id segments) at 1. apply map_ext_in. intros seg Hin%list_elem_of_In. symmetry. by apply Hsame.
    + unfold applySpeakerAliases. unfold ApplyAliases in E.
      destruct (size aliases =? 0)%nat; [done|]. by destruct (size (applied_aliases segments aliases) =? 0)%nat.
    + intros k v. cbn [default]. rewrite lookup_empty. split; [done|]. intros (Hk & Hv & Hne & seg & Hin & <-).
      assert (H := Hsame seg Hin). unfold renamed, display_name in H. rewrite Hk in H.
      destruct (String.eqb_spec v ""); [done|]. destruct (String.eqb_spec (Speaker seg) ""); [done|].
      exfalso. assert (Hl : applied_aliases segments aliases !! Speaker seg = Some v)
        by (apply applied_lookup; eauto 6). 
      unfold ApplyAliases in E. destruct (Nat.eqb_spec (size aliases) 0) as [Hs|_].
      { apply map_size_empty_inv in Hs. subst. by rewrite lookup_empty in Hk. }
      destruct (Nat.eqb_spec (size (applied_aliases segments aliases)) 0) as [Hs|_]; [|done].
      apply map_size_empty_inv in Hs. by rewrite Hs, lookup_empty in Hl.
    + apply Hraw.
    + apply Hraw.
  - split_and!; [|apply Hw|intros; apply applied_lookup|apply Hraw|apply Hraw].
    apply map_ext_in. intros seg Hin%list_elem_of_In. by apply substitute_renamed.
Qed.
