(* ===== verification/ActionItems.v ===== *)
(** Action items and decisions of a note: [internal/store/actionitems.go].

    [item_row] and [decision_row] are rows of [action_items] and [decisions];
    [ActionItem] and [Decision] are the Go structs, whose fields are those of
    the rows. *)

From stdpp Require Import base list strings sets gmap.
From Stdlib Require Import ZArith Lia.
From S2P Require Import GoInt GoStrings Sql Notes Speakers.

Local Open Scope string_scope.

Definition ActionItemOpen : string := "open".

Record ActionItem := mkItem {
  ai_ID : string; ai_NoteID : string; ai_OwnerID : string; ai_Text : string; OwnerPersonID : option string;
  ai_Status : string; DueHint : string; ai_CreatedAt : Z }.

Record Decision := mkDecision {
  dc_ID : string; dc_NoteID : string; dc_OwnerID : string; dc_Text : string; dc_CreatedAt : Z }.

Record items := mkItems { i_items : list ActionItem; i_decisions : list Decision }.

Definition item_of (ownerID noteID : string) (x : ActionItem) : bool :=
  (ai_NoteID x =? noteID)%string && (ai_OwnerID x =? ownerID)%string.
Definition decision_of (ownerID noteID : string) (x : Decision) : bool :=
  (dc_NoteID x =? noteID)%string && (dc_OwnerID x =? ownerID)%string.

(** The [INSERT] loops; [None] is a duplicate id. *)
Fixpoint insert_items (fresh : nat -> string) (i : nat) (now : Z) (ownerID noteID : string)
    (new : list (string * string)) (t : list ActionItem) : option (list ActionItem) :=
  match new with
  | [] => Some t
  | (text, dueHint) :: rest =>
      if exists_where (fun x => (ai_ID x =? fresh i)%string) t then None
      else insert_items fresh (S i) now ownerID noteID rest
             (t ++ [mkItem (fresh i) noteID ownerID text None ActionItemOpen dueHint now])%list
  end.

Fixpoint insert_decisions (fresh : nat -> string) (i : nat) (now : Z) (ownerID noteID : string)
    (new : list string) (t : list Decision) : option (list Decision) :=
  match new with
  | [] => Some t
  | text :: rest =>
      if exists_where (fun x => (dc_ID x =? fresh i)%string) t then None
      else insert_decisions fresh (S i) now ownerID noteID rest
             (t ++ [mkDecision (fresh i) noteID ownerID text now])%list
  end.

(** [new_items] carries the text and the due hint of each item, [new_decisions]
    the texts: the other fields of the arguments are not stored. *)
Definition ReplaceActionItemsForNote (fresh_i fresh_d : nat -> string) (now : Z) (ownerID noteID : string)
    (new_items : list (string * string)) (new_decisions : list string) (notes : list note_row) (d : items)
  : result store_error unit * items :=
  if negb (NoteOwnedBy ownerID noteID notes) then (Err ErrNotFound, d)
  else
    match insert_items fresh_i 0 now ownerID noteID new_items (delete_where (item_of ownerID noteID) (i_items d)),
          insert_decisions fresh_d 0 now ownerID noteID new_decisions (delete_where (decision_of ownerID noteID) (i_decisions d)) with
    | Some a, Some b => (Ok tt, mkItems a b)
    | _, _ => (Err DbError, d)
    end.

(** [ORDER BY created_at, id] *)
Definition item_before (a b : ActionItem) : bool :=
  (ai_CreatedAt a <? ai_CreatedAt b)%Z ||
  ((ai_CreatedAt a =? ai_CreatedAt b)%Z && String.ltb (ai_ID a) (ai_ID b)).
Definition decision_before (a b : Decision) : bool :=
  (dc_CreatedAt a <? dc_CreatedAt b)%Z ||
  ((dc_CreatedAt a =? dc_CreatedAt b)%Z && String.ltb (dc_ID a) (dc_ID b)).

Definition ListForNote (ownerID noteID : string) (notes : list note_row) (d : items)
  : result store_error (list ActionItem * list Decision) :=
  if negb (NoteOwnedBy ownerID noteID notes) then Err ErrNotFound
  else Ok (order_by item_before (select_where (item_of ownerID noteID) (i_items d)),
           order_by decision_before (select_where (decision_of ownerID noteID) (i_decisions d))).

(** [ai.owner_id=$1 AND n.owner_id=$1 AND n.deleted_at IS NULL] *)
Definition item_live (ownerID : string) (notes : list note_row) (x : ActionItem) : bool :=
  (ai_OwnerID x =? ownerID)%string && NoteOwnedBy ownerID (ai_NoteID x) notes.

Definition ListForOwner (ownerID status : string) (notes : list note_row) (d : items) : list ActionItem :=
  order_by item_before (select_where (fun x => item_live ownerID notes x &&
    ((status =? "")%string || (ai_Status x =? status)%string)) (i_items d)).

Definition reachable_item (ownerID id : string) (notes : list note_row) (x : ActionItem) : bool :=
  (ai_ID x =? id)%string && item_live ownerID notes x.

(** [UPDATE ... RETURNING] *)
Definition update_item (hit : ActionItem -> bool) (g : ActionItem -> ActionItem) (d : items)
  : result store_error ActionItem * items :=
  match select_where hit (i_items d) with
  | [] => (Err ErrNotFound, d)
  | x :: _ => (Ok (g x), mkItems (update_where hit g (i_items d)) (i_decisions d))
  end.

Definition with_item (text status : string) (person : option string) (x : ActionItem) : ActionItem :=
  mkItem (ai_ID x) (ai_NoteID x) (ai_OwnerID x) text person status (DueHint x) (ai_CreatedAt x).

Definition SetStatus (ownerID id status : string) (notes : list note_row) (d : items)
  : result store_error ActionItem * items :=
  update_item (reachable_item ownerID id notes) (fun x => with_item (ai_Text x) status (OwnerPersonID x) x) d.

Definition UpdateActionItem (ownerID id : string) (text status : option string) (notes : list note_row) (d : items)
  : result store_error ActionItem * items :=
  update_item (reachable_item ownerID id notes)
    (fun x => with_item (default (ai_Text x) text) (default (ai_Status x) status) (OwnerPersonID x) x) d.

(** [None] is [ErrInvalidOwner].  [person_owned] is [GetPerson]'s answer. *)
Definition AssignOwner (person_owned : string -> bool) (ownerID id : string) (personID : option string)
    (notes : list note_row) (d : items) : result (option store_error) ActionItem * items :=
  if negb (exists_where (reachable_item ownerID id notes) (i_items d)) then (Err (Some ErrNotFound), d)
  else if match personID with Some p => negb (person_owned p) | None => false end then (Err None, d)
  else
    match update_item (reachable_item ownerID id notes) (fun x => with_item (ai_Text x) (ai_Status x) personID x) d with
    | (Ok x, d') => (Ok x, d')
    | (Err e, d') => (Err (Some e), d')
    end.
