(* ===== verification/Pipeline.v ===== *)
(** The worker's pipeline: [internal/worker/pipeline.go].

    [Processor.Process] runs one claimed job.  Its methods make one store call
    after the other; in between, other workers and requests change the tables,
    calls fail, and the process may die.  A method is therefore a program of
    the monad [M]: every store call takes one [turn], which says what the others
    did since the last call, what the clocks show and how the call comes out.
    When no turn is left the process has died.  The [log] keeps what each call
    of this job found and left.

    Plugins, audio storage and JSON are arguments. *)

From stdpp Require Import base list strings sets gmap.
From Stdlib Require Import Ascii ZArith Lia SpecFloat.
From S2P Require Import GoInt GoStrings Sql Jobs Folders Execution Notes Transcripts Templates Summaries.
From S2P Require Import Plugins Webhooks Speakers ActionItems.

Local Open Scope string_scope.

(** ** The worker's tables, and the stored audio objects *)

Record wdb := mkWdb {
  w_sdb : sdb; w_bodies : list note_body; w_aliases : list alias_row; w_plugins : list plugin_row; w_hooks : hooks;
  w_items : items; w_objects : gset string }.

Definition set_sdb (x : sdb) (d : wdb) : wdb :=
  mkWdb x (w_bodies d) (w_aliases d) (w_plugins d) (w_hooks d) (w_items d) (w_objects d).
Definition set_hooks (x : hooks) (d : wdb) : wdb :=
  mkWdb (w_sdb d) (w_bodies d) (w_aliases d) (w_plugins d) x (w_items d) (w_objects d).
Definition set_items (x : items) (d : wdb) : wdb :=
  mkWdb (w_sdb d) (w_bodies d) (w_aliases d) (w_plugins d) (w_hooks d) x (w_objects d).
Definition set_objects (x : gset string) (d : wdb) : wdb :=
  mkWdb (w_sdb d) (w_bodies d) (w_aliases d) (w_plugins d) (w_hooks d) (w_items d) x.

Definition w_tdb (d : wdb) : tdb := s_tdb (w_sdb d).
Definition w_jobs (d : wdb) : jobs := s_jobs (w_sdb d).
Definition w_notes (d : wdb) : list note_row := d_notes (w_tdb d).

Definition lift_sdb {A} (f : sdb -> A * sdb) (d : wdb) : A * wdb := let '(a, x) := f (w_sdb d) in (a, set_sdb x d).
Definition lift_tdb {A} (f : tdb -> A * tdb) : wdb -> A * wdb :=
  lift_sdb (fun s => let '(a, x) := f (s_tdb s) in (a, with_tdb x s)).
Definition lift_jobs {A} (f : jobs -> A * jobs) : wdb -> A * wdb :=
  lift_sdb (fun s => let '(a, x) := f (s_jobs s) in (a, with_jobs x s)).
Definition lift_notes {A} (f : tables -> A * tables) : wdb -> A * wdb := lift_sdb (on_notes f).
Definition lift_hooks {A} (f : hooks -> A * hooks) (d : wdb) : A * wdb := let '(a, x) := f (w_hooks d) in (a, set_hooks x d).
Definition reads {A} (f : wdb -> A) (d : wdb) : A * wdb := (f d, d).

(** ** Programs *)

(** How a call comes out: it runs; it fails and leaves the tables; its commit
    fails, which undoes the tables but not the audio storage; it commits, but
    the answer is lost. *)
Inductive fault := Runs | Fails | CommitFails | AnswerLost.

Record turn := { others : wdb -> wdb; now : Z; clock : Z; outcome_of : fault }.

(** What a call is for. *)
Inductive op :=
| OpRead | OpClaim | OpRelease | OpPayload | OpSave | OpHashes | OpPartial | OpReview | OpDeleteSummaries
| OpEnqueueSummaries | OpRetention | OpSettle | OpStatus | OpSummary | OpReady | OpEmbed | OpItems | OpDelivery.

#[export] Instance op_eq_dec : EqDecision op.
Proof. solve_decision. Defined.

Record call_record := mkCall { c_op : op; c_before : wdb; c_after : wdb }.

Record world := { db : wdb; turns : list turn; log : list call_record }.

Definition M (A : Type) : Type := world -> option A * world.

Definition ret {A} (a : A) : M A := fun w => (Some a, w).
Definition bind {A B} (m : M A) (k : A -> M B) : M B :=
  fun w => match m w with (Some a, w') => k a w' | (None, w') => (None, w') end.

Definition call {A} (o : op) (f : turn -> wdb -> result store_error A * wdb) : M (result store_error A) :=
  fun w =>
    match turns w with
    | [] => (None, w)
    | t :: rest =>
        let d := others t (db w) in
        let '(a, d') := f t d in
        let '(a, d') := match outcome_of t with
                        | Runs => (a, d')
                        | Fails => (Err DbError, d)
                        | CommitFails => (Err DbError, set_objects (w_objects d') d)
                        | AnswerLost => (Err DbError, d')
                        end in
        (Some a, {| db := d'; turns := rest; log := log w ++ [mkCall o d d'] |})
    end.

(** The tables as the last call left them: what a step outside the store sees. *)
Definition peek {A} (f : wdb -> A) : M A := fun w => (Some (f (db w)), w).

Declare Scope prog_scope.
Delimit Scope prog_scope with prog.
Notation "'let!' x := m 'in' k" := (bind m (fun x => k))
  (at level 10, x pattern, m at level 100, k at level 200) : prog_scope.
Local Open Scope prog_scope.

(** ** Errors and outcomes *)

Inductive plugin_error :=
| ResponseError
| HTTPError (code : Z)
| Transport (e : string).

Definition Retryable (code : Z) : bool := (500 <=? code)%Z || (code =? 429)%Z.

Definition isRetryable (e : plugin_error) : bool :=
  match e with
  | ResponseError => false
  | HTTPError code => Retryable code
  | Transport _ => true
  end.

Inductive run_error :=
| InvalidPayload
| StoreFailed (e : store_error)
| NoAudioKey
| ErrPluginNotConfigured
| StorageFailed (e : string)
| BadPluginConfig
| PluginFailed (e : plugin_error)
| PartialTranscript (reason : string)
| TemplateNotFound (id : string)
| ExecutionFailed (e : execution_error)
| UnknownJobType (t : string)
| OtherJobFailed (e : string).

(** Go's [(retryable, err)]. *)
Abbreviation outcome := (bool * option run_error)%type.

(** A program with early returns. *)
Abbreviation P A := (M (result outcome A)).

Definition stop {A} (o : outcome) : P A := ret (Err o).
Definition continue {A} (a : A) : P A := ret (Ok a).
Definition andthen {A B} (m : P A) (k : A -> P B) : P B :=
  bind m (fun r => match r with Ok a => k a | Err o => ret (Err o) end).
Notation "'do!' x := m 'in' k" := (andthen m (fun x => k))
  (at level 10, x pattern, m at level 100, k at level 200) : prog_scope.

(** [if err != nil { return retryable, err }] *)
Definition or_return {A} (retryable : bool) (m : M (result store_error A)) : P A :=
  bind m (fun r => match r with Ok a => continue a | Err e => stop (retryable, Some (StoreFailed e)) end).

(** The value a method returns. *)
Definition returned (m : P outcome) : M outcome := bind m (fun r => match r with Ok o => ret o | Err o => ret o end).

(** ** Payloads, requests and configuration *)

Record transcribePayload := {
  AudioKey : string; tp_Model : string; Language : string; ExpectedGeneration : Z; ClaimedPriorStatus : string;
  Published : bool; PublishedGeneration : Z }.

Record TranscribeRequest := {
  AudioURL : string; LanguageHint : string; Options : string; rq_Config : string }.

Record TranscribeResponse := {
  rs_Segments : list Segment; rs_Language : string; rs_Model : string; DurationMS : Z; Partial : bool;
  PartialReason : string }.

Record config := {
  TranscribeLanguage : string; Diarization : bool; Embedded : bool; AudioRetention : string; has_embedder : bool;
  has_extractor : bool }.

(** The body of a [note.completed] delivery. *)
Record webhookSegment := { ws_StartMS : Z; ws_EndMS : Z; ws_Text : string; ws_Speaker : string }.
Record webhookNotePayload := {
  Event : string; wn_ID : string; wn_Title : string; wn_Sections : list SummarySection;
  wn_Segments : list webhookSegment }.

(** ** What lies outside the store *)

Class Outside := {
  cfg : config;
  (** JSON: payloads of jobs, deliveries, and [m["model"] = override] on a config. *)
  marshalT : transcribePayload -> string;
  unmarshalT : string -> option transcribePayload;
  marshalS : summarizePayload -> string;
  unmarshalS : string -> option summarizePayload;
  marshalW : webhookNotePayload -> string;
  with_model : string -> string -> option string;
  (** Audio storage, plugins and the extraction of action items. *)
  presign : string -> result string string;
  hash_object : string -> result string (string * string);
  delete_object : string -> result store_error unit;
  Transcribe : Plugin -> TranscribeRequest -> result plugin_error TranscribeResponse;
  Generate : Plugin -> GenerateRequest -> result plugin_error GenerateResponse;
  plugin_text : plugin_error -> string;
  extract : list Segment -> list SummarySection -> result string (list (string * string) * list string);
  (** Decryption of a plugin's config, [lower] and the order of text in the database. *)
  open_sealed : string -> option string;
  lower : string -> string;
  name_lt : string -> string -> bool;
  (** Fresh ids: of a transcript, its segments, summaries, jobs, deliveries, items. *)
  fresh_transcript : string;
  fresh_segment : nat -> string;
  fresh_summary : nat -> string;
  fresh_job : nat -> string;
  fresh_delivery : nat -> string;
  fresh_item : nat -> string;
  fresh_decision : nat -> string;
  fresh_embed : string }.

Section Processor.
Context {Out : Outside}.

Definition mergeModelOverride (baseConfig modelOverride : string) : option string :=
  if (modelOverride =? "")%string then Some baseConfig else with_model baseConfig modelOverride.

Definition diarize_options : string := "{" ++ quote ++ "diarize" ++ quote ++ ":true}".

Definition buildTranscribeRequest (signedURL : string) (plug : Plugin) (pl : transcribePayload)
  : option TranscribeRequest :=
  let hint := if negb (Language pl =? "")%string then Language pl else TranscribeLanguage cfg in
  c ← (if negb (tp_Model pl =? "")%string then mergeModelOverride (plugin_Config plug) (tp_Model pl)
       else Some (plugin_Config plug));
  Some {| AudioURL := signedURL; LanguageHint := hint; Options := if Diarization cfg then diarize_options else "";
          rq_Config := c |}.

Definition with_prior (s : string) (pl : transcribePayload) : transcribePayload := {|
  AudioKey := AudioKey pl; tp_Model := tp_Model pl; Language := Language pl;
  ExpectedGeneration := ExpectedGeneration pl; ClaimedPriorStatus := s; Published := Published pl;
  PublishedGeneration := PublishedGeneration pl |}.

Definition with_published (g : Z) (pl : transcribePayload) : transcribePayload := {|
  AudioKey := AudioKey pl; tp_Model := tp_Model pl; Language := Language pl;
  ExpectedGeneration := ExpectedGeneration pl; ClaimedPriorStatus := ClaimedPriorStatus pl; Published := true;
  PublishedGeneration := g |}.

(** ** Store calls *)

Definition call_generation (noteID : string) : M (result store_error Z) :=
  call OpRead (fun _ => reads (fun d => Ok (CurrentTranscriptGeneration noteID (w_tdb d)))).

Definition persistTranscribePayload (jobID : string) (pl : transcribePayload) : M (result store_error unit) :=
  call OpPayload (fun t => lift_jobs (UpdateJobPayload (now t) jobID (marshalT pl))).

Definition releaseTranscribeClaim (job : Job) (priorStatus : string) : M unit :=
  if (priorStatus =? "")%string then ret tt
  else let! _ := call OpRelease (fun t => lift_notes (fun x =>
                   (Ok tt, ReleaseNoteTranscriptionClaim (now t) (Jobs.NoteID job) (Jobs.ID job) priorStatus x))) in
       ret tt.

(** The job's transcript was replaced: release the claim and return cleanly. *)
Definition abortStaleNoteWrite {A} (job : Job) (priorStatus : string) : P A :=
  let! _ := releaseTranscribeClaim job priorStatus in stop (false, None).

Definition transcriptStillCurrent (noteID : string) (publishedGeneration : Z) : M (result store_error bool) :=
  let! r := call_generation noteID in
  ret (let? current := r in Ok (current =? publishedGeneration)%Z)%go.

(** A note write bound to the generation: [ErrGenerationMismatch] aborts, any
    other error is handed to [k]. *)
Definition guarded {A} (job : Job) (priorStatus : string) (m : M (result store_error A))
    (k : result store_error A -> P unit) : P unit :=
  let! r := m in
  match r with
  | Err ErrGenerationMismatch => abortStaleNoteWrite job priorStatus
  | _ => k r
  end.

(** Logged and swallowed. *)
Definition swallow {A} (r : result store_error A) : P unit := continue tt.
Definition retry_on_error {A} (r : result store_error A) : P unit :=
  match r with Ok _ => continue tt | Err e => stop (true, Some (StoreFailed e)) end.

(** ** [runTranscribe] *)

(** The check before anything is written. *)
Definition check_generation (job : Job) (pl : transcribePayload) : P unit :=
  let required := if Published pl then PublishedGeneration pl else ExpectedGeneration pl in
  do! current := or_return true (call_generation (Jobs.NoteID job)) in
  if negb (current =? required)%Z then
    let! _ := if negb (ClaimedPriorStatus pl =? "")%string then releaseTranscribeClaim job (ClaimedPriorStatus pl)
              else ret tt in
    stop (false, None)
  else continue tt.

(** The claim; a fresh one records the status it displaced in the payload. *)
Definition claim_note (job : Job) (pl : transcribePayload) : P transcribePayload :=
  do! freshPrior := or_return true (call OpClaim (fun t =>
        lift_notes (ClaimNoteForTranscription (now t) (Jobs.NoteID job) (Jobs.ID job)))) in
  if negb (freshPrior =? "")%string then
    let pl := with_prior freshPrior pl in
    do! _ := or_return true (persistTranscribePayload (Jobs.ID job) pl) in
    continue pl
  else continue pl.

Definition audio_key (job : Job) (pl : transcribePayload) : P string :=
  do! note := or_return false (call OpRead (fun _ => lift_notes (fun x => (GetNoteByID (Jobs.NoteID job) x, x)))) in
  let audioKey := if negb (AudioKey pl =? "")%string then AudioKey pl else AudioObjectKey note in
  if (audioKey =? "")%string then stop (false, Some NoAudioKey) else continue audioKey.

(** The transcript this job owns from here on. *)
Record publication := { pb_generation : Z; pb_review : string; pb_partial : bool; pb_reason : string }.

(** A retry after publication reads the row its save left behind. *)
Definition resume (job : Job) (pl : transcribePayload) : P publication :=
  do! current := or_return true (call OpRead (fun _ => reads (fun d => GetTranscript (Jobs.NoteID job) (w_tdb d)))) in
  continue {| pb_generation := PublishedGeneration pl; pb_review := ReviewState current; pb_partial := false;
              pb_reason := "" |}.

Definition default_plugin (kind : string) : M (result store_error Plugin) :=
  call OpRead (fun _ => reads (fun d => DefaultPlugin open_sealed kind (w_plugins d))).

Definition save_transcript (job : Job) (plug : Plugin) (resp : TranscribeResponse) (expected : Z)
  : M (result store_error Transcript) :=
  call OpSave (fun _ => lift_tdb (SaveTranscript fresh_transcript fresh_segment
    {| T_ID := ""; T_NoteID := Jobs.NoteID job; TranscriberPlugin := plugin_Name plug; T_Model := rs_Model resp;
       T_Segments := rs_Segments resp; ReviewState := ""; StreamID := None; Sealed := false; Generation := 0;
       Gaps := [] |} expected)).

(** Transcribe, save, and checkpoint the publication in the payload. *)
Definition publish (job : Job) (pl : transcribePayload) (audioKey : string) : P publication :=
  let! r := default_plugin PluginTranscriber in
  match r with
  | Err ErrNotFound => stop (false, Some ErrPluginNotConfigured)
  | Err e => stop (true, Some (StoreFailed e))
  | Ok plug =>
      match presign audioKey with
      | Err e => stop (true, Some (StorageFailed e))
      | Ok signedURL =>
          match buildTranscribeRequest signedURL plug pl with
          | None => stop (true, Some BadPluginConfig)
          | Some req =>
              match Transcribe plug req with
              | Err e => stop (isRetryable e, Some (PluginFailed e))
              | Ok resp =>
                  let! r := save_transcript job plug resp (ExpectedGeneration pl) in
                  match r with
                  | Err ErrGenerationMismatch => abortStaleNoteWrite job (ClaimedPriorStatus pl)
                  | Err e => stop (true, Some (StoreFailed e))
                  | Ok saved =>
                      do! _ := or_return true
                                 (persistTranscribePayload (Jobs.ID job) (with_published (Generation saved) pl)) in
                      continue {| pb_generation := Generation saved; pb_review := ReviewState saved;
                                  pb_partial := Partial resp; pb_reason := PartialReason resp |}
                  end
              end
          end
      end
  end.

(** [hashNoteAudio]: the object must still be there. *)
Definition hashNoteAudio (audioKey : string) (d : wdb) : result string (string * string) :=
  if bool_decide (audioKey ∈ w_objects d) then hash_object audioKey else Err "no such object".

Definition hash_step (job : Job) (priorStatus audioKey : string) (generation : Z) : P unit :=
  let! h := peek (hashNoteAudio audioKey) in
  match h with
  | Err _ => continue tt
  | Ok (rawHash, normalizedHash) =>
      if (rawHash =? "")%string then continue tt
      else guarded job priorStatus (call OpHashes (fun t =>
             lift_notes (SetNoteHashesIfCurrent (now t) (Jobs.NoteID job) rawHash normalizedHash generation))) swallow
  end.

(** A partial transcript is marked and fails the job for good; a whole one
    clears the mark. *)
Definition partial_step (job : Job) (priorStatus : string) (p : publication) : P unit :=
  let mark b := call OpPartial (fun t =>
        lift_notes (SetNotePartialTranscriptIfCurrent (now t) (Jobs.NoteID job) b (pb_generation p))) in
  if pb_partial p then
    do! _ := guarded job priorStatus (mark true) swallow in
    stop (false, Some (PartialTranscript (pb_reason p)))
  else guarded job priorStatus (mark false) swallow.

(** The retention callback deletes the object inside the transaction. *)
Definition discard_audio (noteID audioKey : string) (generation : Z) (t : turn) (d : wdb) : result store_error unit * wdb :=
  let '((r, invoked), x) := SetRetentionStateDiscardedIfCurrent (now t) noteID generation (delete_object audioKey)
                              (notes_view (w_sdb d)) in
  let d := set_sdb (set_notes (t_notes x) (w_sdb d)) d in
  (r, if invoked && is_ok (delete_object audioKey) then set_objects (w_objects d ∖ {[ audioKey ]}) d else d).

Definition applyAudioRetention (job : Job) (priorStatus audioKey : string) (generation : Z) : P unit :=
  if (AudioRetention cfg =? "discard")%string
  then guarded job priorStatus (call OpRetention (discard_audio (Jobs.NoteID job) audioKey generation)) swallow
  else guarded job priorStatus (call OpRetention (fun t =>
         lift_notes (SetRetentionStateIfCurrent (now t) (Jobs.NoteID job) "kept" generation))) swallow.

Definition NoteOwnerID (noteID : string) (d : wdb) : result store_error string :=
  match select_where (note_is noteID) (w_notes d) with [] => Err ErrNotFound | r :: _ => Ok (row_owner r) end.

(** Old summaries go, one summarize job per template comes.  The templates are
    read by a call of their own. *)
Definition summarize_step (job : Job) (priorStatus : string) (generation : Z) : P unit :=
  do! owner := or_return true (call OpRead (fun _ => reads (NoteOwnerID (Jobs.NoteID job)))) in
  do! _ := guarded job priorStatus (call OpDeleteSummaries (fun _ =>
             lift_sdb (DeleteNoteSummariesIfCurrent owner (Jobs.NoteID job) generation))) retry_on_error in
  do! templates := or_return true (call OpRead (fun _ => reads (fun d =>
                     Ok (TemplatesForSummary lower name_lt owner (s_templates (w_sdb d)))))) in
  guarded job priorStatus (call OpEnqueueSummaries (fun t =>
    lift_sdb (EnqueueSummarizeJobsIfCurrent_on marshalS templates fresh_summary fresh_job (now t) (Jobs.NoteID job)
                generation))) retry_on_error.

(** A transcript under review holds the summaries back; the embedded build
    completes the review itself. *)
Definition review_step (job : Job) (priorStatus audioKey : string) (p : publication) : P unit :=
  if negb (pb_review p =? ReviewStateCompleted)%string then
    if Embedded cfg then
      do! _ := or_return true (call OpReview (fun _ =>
                 lift_tdb (SetReviewState (Jobs.NoteID job) ReviewStateCompleted (pb_generation p)))) in
      continue tt
    else
      do! _ := applyAudioRetention job priorStatus audioKey (pb_generation p) in
      stop (false, None)
  else continue tt.

(** Everything after the transcript is durable. *)
Definition note_work (job : Job) (priorStatus audioKey : string) (p : publication) : P outcome :=
  do! stillOurs := or_return true (transcriptStillCurrent (Jobs.NoteID job) (pb_generation p)) in
  do! _ := if stillOurs then continue tt else abortStaleNoteWrite job priorStatus in
  do! _ := hash_step job priorStatus audioKey (pb_generation p) in
  do! _ := partial_step job priorStatus p in
  do! _ := review_step job priorStatus audioKey p in
  do! _ := summarize_step job priorStatus (pb_generation p) in
  do! _ := applyAudioRetention job priorStatus audioKey (pb_generation p) in
  continue (false, None).

Definition transcribe_body (job : Job) (pl : transcribePayload) : P outcome :=
  do! _ := check_generation job pl in
  do! pl := claim_note job pl in
  do! audioKey := audio_key job pl in
  do! p := if Published pl then resume job pl else publish job pl audioKey in
  note_work job (ClaimedPriorStatus pl) audioKey p.

Definition runTranscribe (job : Job) : M outcome :=
  match unmarshalT (Jobs.Payload job) with
  | None => ret (false, Some InvalidPayload)
  | Some pl => returned (transcribe_body job pl)
  end.

(** ** [DetectTruncation] ([internal/worker/truncation.go]) *)

(** The binary64 number 0.95. *)
Definition truncationUsageThreshold : spec_float := S754_finite false 8556839292003942 (-53).
Definition float64_of (z : Z) : spec_float := binary_normalize 53 1024 z 0 false.

Definition terminalPunctuation : string := ".!?" ++ quote ++ ")]".
Definition trailing_space : string := bytes_string [32; 9; 10; 13; 11; 12].

Definition TrimRight (cutset s : string) : string := rev_str (TrimLeft cutset (rev_str s)).

(** The terminal punctuation is ASCII, so the last rune is in the set exactly
    when the last byte is. *)
Definition DetectTruncation (sections : list SummarySection) (usage : option GenerateUsage) : bool :=
  match usage with
  | Some u => (0 <? MaxTokens u)%Z &&
      SFleb (SFmul 53 1024 truncationUsageThreshold (float64_of (MaxTokens u))) (float64_of (u_TokensUsed u))
  | None => false
  end ||
  match rev_str (TrimRight trailing_space (concat_strings (map ContentMarkdown sections))) with
  | EmptyString => false
  | String last _ => negb (in_set terminalPunctuation last)
  end.

(** ** [runSummarize] *)

Definition resolveDefaultAgent : P Plugin :=
  let! r := default_plugin PluginAgent in
  match r with
  | Err ErrNotFound => stop (false, Some ErrPluginNotConfigured)
  | Err e => stop (true, Some (StoreFailed e))
  | Ok plug => continue plug
  end.

(** Only an error of the plugin call carries a class; any other is retried. *)
Definition run_retryable (plug : Plugin) (prepared : PreparedExecution) : bool :=
  match Generate plug (request_of prepared) with Err e => isRetryable e | Ok _ => true end.

Definition single_note_input (noteID : string) (segments : list Segment) (notesMarkdown : string) (plug : Plugin)
    (tmpl : Template) : ExecutionInput := {|
  Sections := tm_Sections tmpl; input_Mode := ModeSingleNoteSummary;
  Documents := [{| NoteID := noteID; Title := ""; OccurredAt := ""; TranscriptGeneration := 0; Segments := segments;
                   NotesMarkdown := notesMarkdown |}];
  RunInstruction := ""; Config := plugin_Config plug; SystemPrompt := tm_SystemPrompt tmpl; Model := tm_Model tmpl;
  Temperature := tm_Temperature tmpl |}.

Definition summarize_body (job : Job) (pl : summarizePayload) : P outcome :=
  do! transcript := or_return false (call OpRead (fun _ => reads (fun d => GetTranscript (Jobs.NoteID job) (w_tdb d)))) in
  do! body := or_return true (call OpRead (fun _ => reads (fun d =>
                Ok (default "" (nb_content <$> head (select_where (body_of (Jobs.NoteID job)) (w_bodies d))))))) in
  do! noteOwner := or_return true (call OpRead (fun _ => reads (NoteOwnerID (Jobs.NoteID job)))) in
  let! r := call OpRead (fun _ => reads (fun d => GetTemplate noteOwner (pl_TemplateID pl) (s_templates (w_sdb d)))) in
  do! tmpl := match r with
              | Err ErrNotFound => stop (false, Some (TemplateNotFound (pl_TemplateID pl)))
              | Err e => stop (true, Some (StoreFailed e))
              | Ok tmpl => continue tmpl
              end in
  do! plug := resolveDefaultAgent in
  do! aliasMap := or_return true (call OpRead (fun _ => reads (fun d =>
                    Ok (SpeakerAliasMap name_lt noteOwner (Jobs.NoteID job) (w_aliases d))))) in
  let '(segments, notesMarkdown) := applySpeakerAliases (T_Segments transcript) body aliasMap in
  match PrepareDocuments (single_note_input (Jobs.NoteID job) segments notesMarkdown plug tmpl) with
  | Err e => stop (false, Some (ExecutionFailed e))
  | Ok prepared =>
      match Run (fun req => match Generate plug req with Ok resp => Ok resp | Err e => Err (plugin_text e) end) prepared with
      | Err e => stop (run_retryable plug prepared, Some (ExecutionFailed e))
      | Ok result =>
          do! _ := or_return true (call OpSummary (fun _ =>
                     lift_sdb (CompleteSummary (pl_SummaryID pl) (plugin_Name plug) (res_Model result)
                                 (res_Sections result) (DetectTruncation (res_Sections result) (Usage result))))) in
          continue (false, None)
      end
  end.

Definition runSummarize (job : Job) : M outcome :=
  match unmarshalS (Jobs.Payload job) with
  | None => ret (false, Some InvalidPayload)
  | Some pl =>
      if (pl_SummaryID pl =? "")%string || (pl_TemplateID pl =? "")%string then ret (false, Some InvalidPayload)
      else returned (summarize_body job pl)
  end.

(** ** [FinalizeNote] *)

(** A method whose errors are logged: it stops at the first one. *)
Definition unless_error {A} (m : M (result store_error A)) (k : A -> M unit) : M unit :=
  let! r := m in match r with Ok a => k a | Err _ => ret tt end.

Definition get_summaries (noteID : string) : M (result store_error (list Summary)) :=
  call OpRead (fun _ => reads (fun d => Ok (GetSummaries name_lt noteID (w_sdb d)))).

(** The sections of the first ready summary. *)
Definition first_ready (summaries : list Summary) : option (list SummarySection) :=
  sum_Sections <$> head (List.filter (fun sm => (sum_Status sm =? SummaryReady)%string) summaries).

Definition readySummarySections (noteID : string) : M (option (list SummarySection)) :=
  let! r := get_summaries noteID in
  ret (match r with Ok summaries => first_ready summaries | Err _ => None end).

Definition maybeExtractActionItems (noteID : string) (transcript : Transcript) : M unit :=
  if negb (has_extractor cfg) then ret tt
  else
    let! sections := readySummarySections noteID in
    match sections with
    | None => ret tt
    | Some sections =>
        match extract (T_Segments transcript) sections with
        | Err _ => ret tt
        | Ok (new_items, new_decisions) =>
            unless_error (call OpRead (fun _ => reads (NoteOwnerID noteID))) (fun ownerID =>
            let! _ := call OpItems (fun t d =>
              let '(r, x) := ReplaceActionItemsForNote fresh_item fresh_decision (now t) ownerID noteID new_items
                               new_decisions (w_notes d) (w_items d) in (r, set_items x d)) in
            ret tt)
        end
    end.

Definition webhook_segment (seg : Segment) : webhookSegment := {|
  ws_StartMS := StartMS seg; ws_EndMS := EndMS seg; ws_Text := Text seg; ws_Speaker := Speaker seg |}.

(** [for _, wh := range webhooks]; a failed delivery does not stop the others. *)
Fixpoint create_deliveries (i : nat) (webhooks : list webhook) (body : string) : M unit :=
  match webhooks with
  | [] => ret tt
  | wh :: rest =>
      let! _ := call OpDelivery (fun t => lift_hooks (CreateDelivery (fresh_delivery i) (now t) (wh_id wh) body)) in
      create_deliveries (S i) rest body
  end.

Definition enqueueNoteCompletedWebhooks (noteID : string) (transcript : Transcript) : M unit :=
  unless_error (call OpRead (fun _ => lift_notes (fun x => (GetNoteByID noteID x, x)))) (fun note =>
  unless_error (call OpRead (fun _ => reads (fun d => Ok (ListEnabledWebhooksForOwner (note_OwnerID note) (w_hooks d)))))
    (fun webhooks =>
  if (length webhooks =? 0)%nat then ret tt
  else
    let! r := get_summaries noteID in
    let sections := match r with Ok summaries => default [] (first_ready summaries) | Err _ => [] end in
    create_deliveries 0 webhooks (marshalW {|
      Event := "note.completed"; wn_ID := note_ID note; wn_Title := note_Title note; wn_Sections := sections;
      wn_Segments := map webhook_segment (T_Segments transcript) |}))).

Definition mark_ready (noteID : string) : M (result store_error bool) :=
  call OpReady (fun t => lift_notes (fun x => let '(won, x) := MarkNoteReady (now t) noteID x in (Ok won, x))).

Definition FinalizeNote (noteID : string) : M unit :=
  unless_error (call OpRead (fun _ => reads (fun d => GetTranscript noteID (w_tdb d)))) (fun transcript =>
  unless_error (call OpRead (fun _ => reads (fun d => Ok (CountActiveSummarizeJobs noteID (w_jobs d))))) (fun pending =>
  if (0 <? pending)%nat then ret tt
  else
    unless_error (mark_ready noteID) (fun won =>
    if negb won then ret tt
    else
      let! _ := maybeExtractActionItems noteID transcript in
      let! _ := if has_embedder cfg
                then let! _ := call OpEmbed (fun t => lift_sdb (fun s =>
                       let '(r, x) := EnqueueNoteJob (job_keys_ok s) fresh_embed (now t) noteID JobEmbed "" (s_jobs s) in
                       (r, with_jobs x s))) in ret tt
                else ret tt in
      enqueueNoteCompletedWebhooks noteID transcript))).

(** ** [Process] *)

(** The methods for the other job types, and what their terminal failures do. *)
Variable run_other : Job -> M outcome.
Variable other_terminal : Job -> run_error -> M unit.
Variable error_text : run_error -> string.

Definition run_job (job : Job) : M outcome :=
  if (Type_ job =? JobTranscribe)%string then runTranscribe job
  else if (Type_ job =? JobSummarize)%string then runSummarize job
  else if bool_decide (Type_ job ∈ job_types) then run_other job
  else ret (false, Some (UnknownJobType (Type_ job))).

Definition handleTerminalFailure (job : Job) (err : run_error) : M unit :=
  if (Type_ job =? JobTranscribe)%string then
    let! _ := call OpStatus (fun t => lift_notes (SetNoteStatus (now t) (Jobs.NoteID job) NoteFailed)) in ret tt
  else if (Type_ job =? JobSummarize)%string then
    let! _ := match unmarshalS (Jobs.Payload job) with
              | Some pl => if (pl_SummaryID pl =? "")%string then ret tt
                           else let! _ := call OpSummary (fun _ => lift_sdb (FailSummary (pl_SummaryID pl))) in ret tt
              | None => ret tt
              end in
    FinalizeNote (Jobs.NoteID job)
  else other_terminal job err.

(** Settle the job's row first; what happens to the note is decided after. *)
Definition settle (job : Job) (o : outcome) : M unit :=
  match o with
  | (retryable, Some err) =>
      unless_error (call OpSettle (fun t => lift_jobs (FailJob (now t) (clock t) (Jobs.ID job) (error_text err) retryable)))
        (fun _ =>
      let terminal := negb retryable || (MaxJobAttempts <=? Attempts job)%Z in
      if negb terminal then ret tt else handleTerminalFailure job err)
  | (_, None) =>
      unless_error (call OpSettle (fun t => lift_jobs (CompleteJob (now t) (Jobs.ID job)))) (fun _ =>
      if (Type_ job =? JobSummarize)%string then FinalizeNote (Jobs.NoteID job) else ret tt)
  end.

(** An error of [NoteIsTrashed] counts as "not trashed". *)
Definition ProcessJob (job : Job) : M unit :=
  let! trashed := if negb (Jobs.NoteID job =? "")%string
                  then let! r := call OpRead (fun _ => lift_notes (fun x => (Ok (NoteIsTrashed (Jobs.NoteID job) x), x))) in
                       ret (match r with Ok b => b | Err _ => false end)
                  else ret false in
  if trashed then
    let! _ := call OpSettle (fun t => lift_jobs (CompleteJob (now t) (Jobs.ID job))) in ret tt
  else
    let! o := run_job job in
    settle job o.

End Processor.
