(* ===== verification/PipelineLogic.v ===== *)
(** A logic for the worker's programs ([Pipeline]): what a program may do to the
    tables, whatever the other sessions do and however its calls come out.

    [emits Phi Psi m]: every store call [m] makes satisfies [Phi] (a statement
    about the tables before and after the call), and a value it returns
    satisfies [Psi].  The rules follow the program's syntax; the base cases say
    what each store operation leaves alone. *)

From stdpp Require Import base list strings sets gmap.
From Stdlib Require Import ZArith Lia.
From S2P Require Import GoInt GoStrings Sql Jobs Folders Execution Notes Transcripts Templates Summaries.
From S2P Require Import Plugins Webhooks Speakers ActionItems Pipeline.

Local Open Scope prog_scope.

Create HintDb emits discriminated.

(** ** Rules *)

Section Rules.
Variable Phi : call_record -> Prop.

Definition emits {A} (Psi : A -> Prop) (m : M A) : Prop :=
  forall w, exists l, log (m w).2 = log w ++ l /\ Forall Phi l /\ forall a, (m w).1 = Some a -> Psi a.

(** The outcomes a call that finds [d] may leave. *)
Definition call_leaves {A} (f : turn -> wdb -> result store_error A * wdb) (t : turn) (d d' : wdb) : Prop :=
  d' = (f t d).2 \/ d' = d \/ d' = set_objects (w_objects (f t d).2) d.

Lemma emits_ret {A} (Psi : A -> Prop) (a : A) : Psi a -> emits Psi (ret a).
Proof. intros Ha w. exists []. rewrite app_nil_r. split_and!; [done..|]. by intros ? [= <-]. Qed.

Lemma emits_bind {A B} (Psi : A -> Prop) (Chi : B -> Prop) (m : M A) (k : A -> M B) :
  emits Psi m -> (forall a, Psi a -> emits Chi (k a)) -> emits Chi (bind m k).
Proof.
  intros Hm Hk w. destruct (Hm w) as (l & Hl & Hf & Hp). unfold bind.
  destruct (m w) as [[a|] w1]; cbn in *; [|exists l; naive_solver].
  destruct (Hk a (Hp a eq_refl) w1) as (l' & Hl' & Hf' & Hp').
  exists (l ++ l'). rewrite app_assoc, <- Hl. split_and!; [done|by apply Forall_app|done].
Qed.

Lemma emits_weaken {A} (Psi Chi : A -> Prop) (m : M A) : (forall a, Psi a -> Chi a) -> emits Psi m -> emits Chi m.
Proof. intros H Hm w. destruct (Hm w) as (l & ? & ? & ?). exists l. naive_solver. Qed.

Lemma emits_call {A} (Psi : result store_error A -> Prop) o (f : turn -> wdb -> result store_error A * wdb) :
  (forall t d d', call_leaves f t d d' -> Phi (mkCall o d d')) ->
  (forall t d, Psi (f t d).1) -> Psi (Err DbError) ->
  emits Psi (call o f).
Proof.
  intros Hc Hv He w. unfold call. destruct (turns w) as [|t rest].
  { exists []. rewrite app_nil_r. done. }
  destruct (f t (others t (db w))) as [a d'] eqn:Ef. unfold call_leaves in Hc.
  specialize (Hc t (others t (db w))). specialize (Hv t (others t (db w))). rewrite Ef in Hc, Hv. cbn in Hc, Hv.
  destruct (outcome_of t); cbn; (eexists [_]; split; [done|split; [repeat constructor; apply Hc; tauto|]]);
    by intros ? [= <-].
Qed.

Lemma emits_peek {A} (f : wdb -> A) : emits (fun _ => True) (peek f).
Proof. intros w. exists []. rewrite app_nil_r. done. Qed.

(** *** Early returns: [Psi] of a value that goes on *)

Definition goes_on {A} (Psi : A -> Prop) (r : result outcome A) : Prop := match r with Ok a => Psi a | Err _ => True end.

Lemma emits_stop {A} (Psi : A -> Prop) o : emits (goes_on Psi) (stop o).
Proof. by apply emits_ret. Qed.

Lemma emits_continue {A} (Psi : A -> Prop) a : Psi a -> emits (goes_on Psi) (continue a).
Proof. intros. by apply emits_ret. Qed.

Lemma emits_andthen {A B} (Psi : A -> Prop) (Chi : B -> Prop) (m : P A) (k : A -> P B) :
  emits (goes_on Psi) m -> (forall a, Psi a -> emits (goes_on Chi) (k a)) -> emits (goes_on Chi) (andthen m k).
Proof.
  intros Hm Hk. apply (emits_bind _ _ _ _ Hm). intros [a|o] Ha; [by apply Hk|by apply emits_ret].
Qed.

Lemma emits_or_return {A} (Psi : A -> Prop) retryable (m : M (result store_error A)) :
  emits (fun r => match r with Ok a => Psi a | Err _ => True end) m -> emits (goes_on Psi) (or_return retryable m).
Proof.
  intros Hm. apply (emits_bind _ _ _ _ Hm). intros [a|e] Ha; [by apply emits_continue|by apply emits_stop].
Qed.

Lemma emits_returned (m : P outcome) : emits (fun _ => True) m -> emits (fun _ => True) (returned m).
Proof. intros Hm. apply (emits_bind _ _ _ _ Hm). intros [a|o] _; by apply emits_ret. Qed.

Lemma emits_any {A} (Psi : A -> Prop) (m : M A) : emits Psi m -> emits (fun _ => True) m.
Proof. by apply emits_weaken. Qed.

Lemma emits_goes_on {A} (m : P A) : emits (goes_on (fun _ => True)) m -> emits (fun _ => True) m.
Proof. by apply emits_weaken. Qed.

Lemma emits_unless_error {A} (m : M (result store_error A)) (k : A -> M unit) :
  emits (fun _ => True) m -> (forall a, emits (fun _ => True) (k a)) -> emits (fun _ => True) (unless_error m k).
Proof. intros Hm Hk. apply (emits_bind _ _ _ _ Hm). intros [a|e] _; [apply Hk|by apply emits_ret]. Qed.

(** A call whose tables after it are the ones before. *)
Definition only_reads {A} (f : wdb -> result store_error A * wdb) : Prop := forall d, (f d).2 = d.

Lemma set_objects_same d : set_objects (w_objects d) d = d.
Proof. by destruct d. Qed.

Lemma call_leaves_read {A} (f : turn -> wdb -> result store_error A * wdb) t d d' :
  only_reads (f t) -> call_leaves f t d d' -> d' = d.
Proof. intros Hf [->|[->| ->]]; rewrite ?Hf, ?set_objects_same; done. Qed.

Lemma emits_read {A} (Psi : A -> Prop) o (f : turn -> wdb -> result store_error A * wdb) :
  (forall d, Phi (mkCall o d d)) -> (forall t, only_reads (f t)) ->
  (forall t d a, (f t d).1 = Ok a -> Psi a) ->
  emits (fun r => match r with Ok a => Psi a | Err _ => True end) (call o f).
Proof.
  intros Hp Hf Hv. apply emits_call; [|intros t d|done].
  - intros t d d' H. apply call_leaves_read in H; [|done]. by rewrite H.
  - destruct ((f t d).1) eqn:E; [by apply (Hv t d)|done].
Qed.

End Rules.

(** ** Histories: what a program has logged when it returns

    [triple I P m Q]: started on a log whose new part satisfies [I] and [P], the
    program keeps [I] at every point where it may stop, and a value it returns
    satisfies [Q] together with the new part of the log. *)

Section Triples.
Variable I : list call_record -> Prop.

Definition triple {A} (P : list call_record -> Prop) (m : M A) (Q : A -> list call_record -> Prop) : Prop :=
  forall w base l, log w = base ++ l -> I l -> P l ->
  exists l', log (m w).2 = base ++ l' /\ I l' /\ forall a, (m w).1 = Some a -> Q a l'.

Lemma triple_ret {A} P (Q : A -> list call_record -> Prop) a : (forall l, P l -> Q a l) -> triple P (ret a) Q.
Proof. intros H w base l Hl HI HP. exists l. split_and!; [done..|]. intros ? [= <-]. by apply H. Qed.

Lemma triple_bind {A B} P (Q : A -> list call_record -> Prop) (R : B -> list call_record -> Prop) m k :
  triple P m Q -> (forall a, triple (Q a) (k a) R) -> triple P (bind m k) R.
Proof.
  intros Hm Hk w base l Hl HI HP. destruct (Hm w base l Hl HI HP) as (l1 & Hl1 & HI1 & HQ). unfold bind.
  destruct (m w) as [[a|] w1]; cbn in *; [|by exists l1].
  by apply (Hk a w1 base l1); auto.
Qed.

Lemma triple_conseq {A} (P P' : list call_record -> Prop) (Q Q' : A -> list call_record -> Prop) m :
  (forall l, P' l -> P l) -> (forall a l, Q a l -> Q' a l) -> triple P m Q -> triple P' m Q'.
Proof.
  intros HP HQ Hm w base l Hl HI HP'. destruct (Hm w base l Hl HI (HP l HP')) as (l' & ? & ? & H).
  exists l'. split_and!; [done..|]. auto.
Qed.

(** Calls that neither endanger [I] nor undo [P]. *)
Lemma triple_emits {A} Phi (Psi : A -> Prop) (P : list call_record -> Prop) m :
  (forall l c, I l -> Phi c -> I (l ++ [c])) -> (forall l c, P l -> P (l ++ [c])) ->
  emits Phi Psi m -> triple P m (fun a l => P l /\ Psi a).
Proof.
  intros HI HP Hm w base l Hl Hi Hp. destruct (Hm w) as (l' & Hl' & Hf & Hv).
  exists (l ++ l'). rewrite Hl', Hl, app_assoc. split; [done|].
  assert (H : I (l ++ l') /\ P (l ++ l')).
  { clear Hl' Hv Hl. revert l Hi Hp. induction Hf as [|c l' Hc Hf IH]; intros l Hi Hp; [by rewrite app_nil_r|].
    change (c :: l') with ([c] ++ l'). rewrite app_assoc. apply IH; auto. }
  split; [apply H|]. intros a Ha. split; [apply H|auto].
Qed.

(** Every call of a history satisfies [D], given the calls before it. *)
Definition each (D : list call_record -> call_record -> Prop) (l : list call_record) : Prop :=
  forall l1 c l2, l = l1 ++ c :: l2 -> D l1 c.

Lemma each_nil D : each D [].
Proof. by intros []. Qed.

Lemma each_snoc D l c : each D l -> D l c -> each D (l ++ [c]).
Proof.
  intros Hl Hc l1 c' l2 E. destruct l2 as [|x l2 _] using rev_ind.
  - by apply app_inj_tail in E as [-> ->].
  - change (c' :: l2 ++ [x]) with ((c' :: l2) ++ [x]) in E. rewrite app_assoc in E.
    apply app_inj_tail in E as [-> _]. by apply (Hl l1 c' l2).
Qed.

(** How a call comes out. *)
Definition comes_out {A} (f : turn -> wdb -> result store_error A * wdb) (t : turn) (d : wdb)
    (a : result store_error A) (d' : wdb) : Prop :=
  (a, d') = f t d \/ (a = Err DbError /\ call_leaves f t d d').

Lemma comes_out_leaves {A} (f : turn -> wdb -> result store_error A * wdb) t d a d' :
  comes_out f t d a d' -> call_leaves f t d d'.
Proof. intros [E|[_ H]]; [left; by rewrite <- E|exact H]. Qed.

Lemma triple_call {A} (P : list call_record -> Prop) (Q : result store_error A -> list call_record -> Prop) o f :
  (forall t d a d' l, comes_out f t d a d' -> I l -> P l ->
     I (l ++ [mkCall o d d']) /\ Q a (l ++ [mkCall o d d'])) ->
  triple P (call o f) Q.
Proof.
  intros H w base l Hl HI HP. unfold call. destruct (turns w) as [|t rest]; [by exists l|].
  specialize (H t (others t (db w))). unfold comes_out, call_leaves in H.
  destruct (f t (others t (db w))) as [a d'] eqn:Ef. cbn in H.
  destruct (outcome_of t); cbn;
    match goal with |- exists l', log w ++ [mkCall o ?x ?y] = _ /\ _ /\ (forall b, Some ?r = Some b -> _) =>
      destruct (H r y l) as [HI' HQ]; [tauto|done|done|]; exists (l ++ [mkCall o x y]); rewrite Hl, app_assoc;
      split_and!; [done..|]; by intros ? [= <-]
    end.
Qed.

Definition so_far {A} (Q : A -> list call_record -> Prop) (r : result outcome A) (l : list call_record) : Prop :=
  match r with Ok a => Q a l | Err _ => True end.

Lemma triple_stop {A} P (Q : A -> list call_record -> Prop) o : triple P (stop o) (so_far Q).
Proof. by apply triple_ret. Qed.

Lemma triple_continue {A} P (Q : A -> list call_record -> Prop) a :
  (forall l, P l -> Q a l) -> triple P (continue a) (so_far Q).
Proof. intros H. by apply triple_ret. Qed.

Lemma triple_andthen {A B} P (Q : A -> list call_record -> Prop) (R : B -> list call_record -> Prop) m k :
  triple P m (so_far Q) -> (forall a, triple (Q a) (k a) (so_far R)) -> triple P (andthen m k) (so_far R).
Proof. intros Hm Hk. apply (triple_bind _ _ _ _ _ Hm). intros [a|o]; [apply Hk|by apply triple_ret]. Qed.

(** A stage that needs no more than its calls' footprint. *)
Lemma triple_stage {A} Phi (Psi : A -> Prop) (Pre : list call_record -> Prop) (m : P A) :
  (forall l c, I l -> Phi c -> I (l ++ [c])) -> (forall l c, Pre l -> Pre (l ++ [c])) ->
  emits Phi (goes_on Psi) m -> triple Pre m (so_far (fun a l => Pre l /\ Psi a)).
Proof.
  intros HI HP Hm. eapply triple_conseq; [done| |by apply (triple_emits Phi (goes_on Psi) Pre)].
  intros [a|o] l [? ?]; done.
Qed.

Lemma triple_or_return {A} P (Q : A -> list call_record -> Prop) b (m : M (result store_error A)) :
  triple P m (fun r l => match r with Ok a => Q a l | Err _ => True end) -> triple P (or_return b m) (so_far Q).
Proof.
  intros Hm. apply (triple_bind _ _ _ _ _ Hm). intros [a|e]; [by apply triple_continue|].
  eapply triple_conseq; [..|apply triple_stop]; [|done]. intros l _. exact Logic.I.
Qed.

End Triples.

(** ** What the lifted operations touch *)

(** Operations on notes that change nothing leave everything. *)
Lemma set_notes_same s : set_notes (d_notes (s_tdb s)) s = s.
Proof. by destruct s as [[] ? ? ?]. Qed.
Lemma set_sdb_same d : set_sdb (w_sdb d) d = d.
Proof. by destruct d. Qed.
Lemma with_tdb_same s : with_tdb (s_tdb s) s = s.
Proof. by destruct s. Qed.
Lemma with_jobs_same s : with_jobs (s_jobs s) s = s.
Proof. by destruct s. Qed.

Definition notes_tables (d : wdb) : tables := notes_view (w_sdb d).

Lemma notes_tables_notes d : t_notes (notes_tables d) = w_notes d.
Proof. done. Qed.

(** The tables with other notes; lifted note operations end there. *)
Definition put_notes (x : list note_row) (d : wdb) : wdb := set_sdb (set_notes x (w_sdb d)) d.
Definition put_jobs (x : jobs) (d : wdb) : wdb := set_sdb (with_jobs x (w_sdb d)) d.

Lemma lift_notes_eq {A} (f : tables -> A * tables) d :
  lift_notes f d = ((f (notes_tables d)).1, put_notes (t_notes (f (notes_tables d)).2) d).
Proof. unfold lift_notes, lift_sdb, on_notes, notes_tables. by destruct (f _). Qed.

Lemma lift_jobs_eq {A} (f : jobs -> A * jobs) d : lift_jobs f d = ((f (w_jobs d)).1, put_jobs (f (w_jobs d)).2 d).
Proof. unfold lift_jobs, lift_sdb, w_jobs. by destruct (f _). Qed.

Lemma lift_tdb_eq {A} (f : tdb -> A * tdb) d :
  lift_tdb f d = ((f (w_tdb d)).1, set_sdb (with_tdb (f (w_tdb d)).2 (w_sdb d)) d).
Proof. unfold lift_tdb, lift_sdb, w_tdb. by destruct (f _). Qed.

Lemma lift_sdb_eq {A} (f : sdb -> A * sdb) d : lift_sdb f d = ((f (w_sdb d)).1, set_sdb (f (w_sdb d)).2 d).
Proof. unfold lift_sdb. by destruct (f _). Qed.

Lemma put_notes_same d : put_notes (w_notes d) d = d.
Proof. unfold put_notes, w_notes, w_tdb. by rewrite set_notes_same, set_sdb_same. Qed.

Lemma put_notes_objects x d : w_objects (put_notes x d) = w_objects d.
Proof. done. Qed.

Lemma reads_only {A} (f : wdb -> result store_error A) : only_reads (reads f).
Proof. done. Qed.

Lemma lift_notes_reads {A} (f : tables -> result store_error A) : only_reads (lift_notes (fun x => (f x, x))).
Proof. intros d. rewrite lift_notes_eq. apply put_notes_same. Qed.

#[export] Hint Resolve reads_only lift_notes_reads : emits.

(** ** The generation a note's transcript carries *)

(** Some transcript of the note carries [g]; a note without one is at 0. *)
Definition at_generation (n : string) (g : Z) (d : wdb) : Prop :=
  (exists x, x ∈ d_transcripts (w_tdb d) /\ ts_note x = n /\ ts_generation x = g) \/
  (g = 0%Z /\ forall x, x ∈ d_transcripts (w_tdb d) -> ts_note x <> n).

Lemma current_at n g d : CurrentTranscriptGeneration n (w_tdb d) = g -> at_generation n g d.
Proof.
  unfold CurrentTranscriptGeneration, prior_transcript.
  destruct (select_where (of_note n) (d_transcripts (w_tdb d))) as [|x l] eqn:E; cbn; intros <-.
  - right. split; [done|]. intros x Hx Hn.
    assert (Hq : x ∈ select_where (of_note n) (d_transcripts (w_tdb d)))
      by (apply elem_of_select_where; split; [done|]; by apply String.eqb_eq).
    rewrite E in Hq. by apply elem_of_nil in Hq.
  - left. exists x. assert (Hq : x ∈ select_where (of_note n) (d_transcripts (w_tdb d))) by (rewrite E; left).
    apply elem_of_select_where in Hq as [Hx Hn]. apply String.eqb_eq in Hn. done.
Qed.

Lemma generation_is_at g d r : generation_is g (notes_tables d) r = true -> at_generation (row_id r) g d.
Proof.
  unfold generation_is. rewrite exists_where_true. intros (t & Ht & Hc). apply andb_true_iff in Hc as [Hn Hg].
  apply String.eqb_eq in Hn. apply Z.eqb_eq in Hg. unfold notes_tables, notes_view, note_tables in Ht. cbn in Ht.
  apply list_elem_of_fmap in Ht as (x & -> & Hx). cbn in *. left. by exists x.
Qed.

(** A note write bound to [g] finds the note there or leaves the tables. *)
Lemma guarded_write n g c (h : note_row -> note_row) e d :
  (forall r, c r = true -> row_id r = n /\ generation_is g (notes_tables d) r = true) ->
  (lift_notes (update_notes c h e) d).2 = d \/ at_generation n g d.
Proof.
  intros Hc. rewrite lift_notes_eq. cbn. unfold update_notes.
  destruct (rows_affected c (t_notes (notes_tables d)) =? 0)%nat eqn:Er; cbn.
  - left. apply put_notes_same.
  - right. apply Nat.eqb_neq in Er. assert (Hp : (0 < rows_affected c (t_notes (notes_tables d)))%nat) by lia.
    apply rows_affected_pos in Hp as (r & _ & Hr). apply Hc in Hr as [<- Hr]. by apply generation_is_at.
Qed.
