(* ===== verification/PipelineDemo.v ===== *)
(** Concrete tables, plugins and payloads on which the theorems of
    [PipelineProps] and [PipelineRuns] are tried. *)

From stdpp Require Import base list strings sets gmap.
From Stdlib Require Import Ascii ZArith Lia SpecFloat.
From S2P Require Import GoInt GoStrings Sql Jobs Folders Execution Notes Transcripts Templates Summaries.
From S2P Require Import Plugins Webhooks Speakers ActionItems Pipeline.

Local Open Scope string_scope.

Definition demo_lower_byte (a : ascii) : ascii := if in_range 65 90 a then byte_of (nat_of_ascii a + 32) else a.
Fixpoint demo_lower (s : string) : string :=
  match s with EmptyString => "" | String a s' => String (demo_lower_byte a) (demo_lower s') end.

Definition demo_id (p : string) (i : nat) : string := p ++ Itoa (Z.of_nat i).

(** ** Payloads *)

Definition new_payload (g : Z) : transcribePayload := {|
  AudioKey := ""; tp_Model := ""; Language := ""; ExpectedGeneration := g; ClaimedPriorStatus := "";
  Published := false; PublishedGeneration := 0 |}.
Definition claimed_payload (g : Z) : transcribePayload := with_prior NoteUploaded (new_payload g).
Definition published_payload (g : Z) : transcribePayload := with_published (g + 1) (claimed_payload g).

Definition print_transcribe (pl : transcribePayload) : string :=
  ClaimedPriorStatus pl ++ "/" ++ Itoa (ExpectedGeneration pl) ++ "/" ++
  (if Published pl then Itoa (PublishedGeneration pl) else "").
Definition print_summarize (pl : summarizePayload) : string := pl_TemplateID pl ++ "/" ++ pl_SummaryID pl.

Definition payloads : list transcribePayload :=
  [new_payload 0; claimed_payload 0; published_payload 0; new_payload 1; claimed_payload 1; published_payload 1].
Definition summarize_payloads : list summarizePayload :=
  [{| pl_TemplateID := "tm1"; pl_SummaryID := "sum0" |}; {| pl_TemplateID := "tm2"; pl_SummaryID := "sum1" |}].

(** ** What lies outside the store: a server that discards audio *)

Definition demo_segment (t : Z) (who text : string) : Segment := {|
  seg_ID := ""; StartMS := t; EndMS := t + 10; Text := text; seg_Source := "mic"; Speaker := who; Words := [];
  Confidence := None; Boundary := ""; Provisional := false |}.

Definition demo_response (partial : bool) : TranscribeResponse := {|
  rs_Segments := [demo_segment 20 "You" "Hello."; demo_segment 0 "Them" "Hi."]; rs_Language := "en"; rs_Model := "base";
  DurationMS := 30; Partial := partial; PartialReason := "" |}.

Definition demo_generate (plug : Plugin) (req : GenerateRequest) : result plugin_error GenerateResponse :=
  Ok {| resp_Sections := map (fun h => {| s_Heading := Heading h; ContentMarkdown := "All agreed."; Refs := [] |}) (req_Sections req);
        resp_Model := "small"; resp_Usage := None |}.

Definition demo_config : config := {|
  TranscribeLanguage := "en"; Diarization := false; Embedded := false; AudioRetention := "discard";
  has_embedder := true; has_extractor := true |}.

(** [partial]: the transcriber broke off. *)
Definition demo_with (partial : bool) : Outside := {|
  cfg := demo_config;
  marshalT := print_transcribe;
  unmarshalT := fun s => List.find (fun pl => (print_transcribe pl =? s)%string) payloads;
  marshalS := print_summarize;
  unmarshalS := fun s => List.find (fun pl => (print_summarize pl =? s)%string) summarize_payloads;
  marshalW := fun w => Event w ++ ":" ++ wn_ID w;
  with_model := fun c m => Some (c ++ m);
  presign := fun key => Ok ("https://" ++ key);
  hash_object := fun key => Ok ("h1", "h2");
  delete_object := fun _ => Ok tt;
  Transcribe := fun _ _ => Ok (demo_response partial);
  Generate := demo_generate;
  plugin_text := fun _ => "plugin error";
  extract := fun _ _ => Ok ([("call Bob", "Friday")], ["ship it"]);
  open_sealed := Some;
  lower := demo_lower;
  name_lt := String.ltb;
  fresh_transcript := "t-new";
  fresh_segment := demo_id "seg";
  fresh_summary := demo_id "sum";
  fresh_job := demo_id "sj";
  fresh_delivery := demo_id "del";
  fresh_item := demo_id "item";
  fresh_decision := demo_id "dec";
  fresh_embed := "ej" |}.

#[export] Instance demo_outside : Outside := demo_with false.

(** ** Tables: an uploaded note with audio, two templates, two plugins, a webhook *)

Definition demo_note (status : string) (claim : option string) : note_row :=
  Notes.mkRow "n" "ann" "Plan" status false None None false (Some "audio/n") "pending" 1 1 None None claim None None.

Definition demo_job_row (payload : string) : job_row :=
  Jobs.mkRow "job" (Some "n") None None None None None None None JobTranscribe JobRunning 1 None 0 payload
    (Some 100%Z) None None 1 1.

Definition demo_template (id name : string) : template_row :=
  mkTemplate id None name templatePhaseAfter [{| Heading := "Overview"; Instruction := "Summarise." |}] true None None None.

Definition demo_plugin (id kind : string) : plugin_row := mkPlugin id kind id "http://plugin" "" "{}" "{}" true true.

Definition demo_tables (note : note_row) (transcripts : list transcript_row) (jobs : list job_row)
    (summaries : list summary_row) : wdb :=
  mkWdb (mkSdb (mkTdb [note] transcripts [] []) jobs [demo_template "tm1" "General"; demo_template "tm2" "Standup"] summaries)
    [] [] [demo_plugin "p1" PluginTranscriber; demo_plugin "p2" PluginAgent]
    (mkHooks [mkWebhook "w" "ann" "https://hook" "secret" true 1 1] []) (mkItems [] []) {["audio/n"]}.

(** Before the first run of the job. *)
Definition uploaded : wdb := demo_tables (demo_note NoteUploaded None) [] [demo_job_row (print_transcribe (new_payload 0))] [].

(** ** Schedules *)

Definition step : turn := {| others := id; now := 5; clock := 5; outcome_of := Runs |}.
Definition failing (f : fault) : turn := {| others := id; now := 5; clock := 5; outcome_of := f |}.
Definition in_world (d : wdb) (ts : list turn) : world := {| db := d; turns := ts; log := [] |}.

Definition demo_run (payload : transcribePayload) : Job := scan_claim (demo_job_row (print_transcribe payload)).
