(* ===== verification/PipelineProps.v ===== *)
(** What the worker's pipeline ([Pipeline]) guarantees, with the other workers
    and requests interleaved at every store call and any call allowed to fail. *)

From stdpp Require Import base list strings sets gmap.
From Stdlib Require Import ZArith Lia.
From S2P Require Import GoInt GoStrings Sql Jobs Folders Execution Notes Transcripts Templates Summaries.
From S2P Require Import Plugins Webhooks Speakers ActionItems Pipeline PipelineLogic PipelineDemo.

Local Open Scope prog_scope.

(** The generation of the transcript a job owns once it has published. *)
Definition published_generation (pl : transcribePayload) : Z :=
  if Published pl then PublishedGeneration pl else (ExpectedGeneration pl + 1)%Z.

(** ** Bookkeeping: what claiming, releasing and checkpointing write *)

Definition erase_claim (n : string) (r : note_row) : note_row :=
  if note_is n r then touch 0 (set_job None (Notes.set_status "" r)) else r.
Definition erase_payload (j : string) (r : job_row) : job_row := if Jobs.has_id j r then set_payload "" 0 r else r.

(** The tables without the note's status, claim and time of update and without
    the job's payload and time of update. *)
Definition scrub (n j : string) (d : wdb) : wdb :=
  put_jobs (map (erase_payload j) (w_jobs d)) (put_notes (map (erase_claim n) (w_notes d)) d).

(** The calls of a transcribe job are fenced: its bookkeeping touches its own
    claim and payload only, it saves over the generation it was enqueued for
    only, and it writes anything else of the note only while the transcript is
    the one it published. *)
Definition fenced (n j : string) (pl : transcribePayload) (c : call_record) : Prop :=
  match c_op c with
  | OpClaim | OpRelease | OpPayload => scrub n j (c_after c) = scrub n j (c_before c)
  | OpSave => c_after c = c_before c \/
              (Published pl = false /\ at_generation n (ExpectedGeneration pl) (c_before c))
  | _ => c_after c = c_before c \/ at_generation n (published_generation pl) (c_before c)
  end.

Lemma map_erase_update {A} (q c : A -> bool) (g e : A -> A) t :
  (forall r, c r = true -> q r = true /\ q (g r) = true /\ e (g r) = e r) ->
  map (fun r => if q r then e r else r) (update_where c g t) = map (fun r => if q r then e r else r) t.
Proof.
  intros H. unfold update_where. rewrite map_map. apply map_ext. intros r.
  destruct (c r) eqn:E; [|done]. destruct (H r E) as (-> & -> & ->). done.
Qed.

Lemma scrub_notes n j c (g : note_row -> note_row) d :
  (forall r, c r = true -> note_is n r = true) ->
  (forall r, touch 0 (set_job None (Notes.set_status "" (g r))) = touch 0 (set_job None (Notes.set_status "" r))
             /\ row_id (g r) = row_id r) ->
  scrub n j (put_notes (update_where c g (w_notes d)) d) = scrub n j d.
Proof.
  intros Hc Hg. unfold scrub. unfold w_notes at 1. cbn. unfold erase_claim.
  rewrite (map_erase_update (note_is n) c g (fun r => touch 0 (set_job None (Notes.set_status "" r)))); [done|].
  intros r Hr. destruct (Hg r) as [He Hi]. specialize (Hc r Hr). unfold note_is in *. by rewrite Hi.
Qed.

Lemma scrub_jobs n j p now d : scrub n j (put_jobs (update_where (Jobs.has_id j) (set_payload p now) (w_jobs d)) d) = scrub n j d.
Proof.
  unfold scrub. unfold w_jobs at 1. cbn. unfold erase_payload.
  rewrite (map_erase_update (Jobs.has_id j) (Jobs.has_id j) (set_payload p now) (set_payload "" 0)); [done|].
  intros r Hr. split_and!; [done| |done]. exact Hr.
Qed.

(** ** The calls, one by one *)

(** A call that never touches the audio storage runs or leaves the tables. *)
Lemma call_leaves_cases {A} (f : turn -> wdb -> result store_error A * wdb) t d d' :
  w_objects (f t d).2 = w_objects d -> call_leaves f t d d' -> d' = (f t d).2 \/ d' = d.
Proof. intros Ho [->|[->| ->]]; [by left|by right|]. rewrite Ho, set_objects_same. by right. Qed.

Section Fenced.
Variables (n j : string) (pl : transcribePayload).
Abbreviation Phi := (fenced n j pl).

Lemma fenced_same o d : o <> OpClaim -> o <> OpRelease -> o <> OpPayload -> Phi (mkCall o d d).
Proof. unfold fenced. cbn. destruct o; auto; done. Qed.

Lemma fenced_read d : Phi (mkCall OpRead d d).
Proof. by left. Qed.

Lemma fenced_book o d : o = OpClaim \/ o = OpRelease \/ o = OpPayload -> Phi (mkCall o d d).
Proof. by intros [->|[->| ->]]. Qed.

Lemma fenced_claim now d : Phi (mkCall OpClaim d (lift_notes (ClaimNoteForTranscription now n j) d).2).
Proof.
  unfold fenced. cbn [c_op c_before c_after]. rewrite lift_notes_eq. cbn. unfold ClaimNoteForTranscription.
  rewrite notes_tables_notes. destruct (select_where (note_is n) (w_notes d)) as [|cur l]; cbn.
  - change (d_notes (s_tdb (w_sdb d))) with (w_notes d). by rewrite put_notes_same.
  - apply scrub_notes; [done|]. intros r. destruct (claimed_by j cur); by destruct r.
Qed.

Lemma fenced_release now prior d :
  Phi (mkCall OpRelease d (lift_notes (fun x => (@Ok store_error _ tt, ReleaseNoteTranscriptionClaim now n j prior x)) d).2).
Proof.
  unfold fenced. cbn [c_op c_before c_after]. rewrite lift_notes_eq. cbn.
  apply scrub_notes; [by intros r [[? ?]%andb_true_iff ?]%andb_true_iff|]. intros r. by destruct r.
Qed.

Lemma fenced_payload now p d : Phi (mkCall OpPayload d (lift_jobs (UpdateJobPayload now j p) d).2).
Proof.
  unfold fenced. cbn [c_op c_before c_after]. rewrite lift_jobs_eq. unfold UpdateJobPayload. destruct (_ =? 0)%nat; cbn.
  - unfold put_jobs, w_jobs. by rewrite with_jobs_same, set_sdb_same.
  - apply scrub_jobs.
Qed.

Lemma Save_generation uuid fresh tr g d t d' :
  SaveTranscript uuid fresh tr g d = (Ok t, d') -> Generation t = (g + 1)%Z /\ CurrentTranscriptGeneration (T_NoteID tr) d = g.
Proof.
  unfold SaveTranscript, CurrentTranscriptGeneration.
  change (prior_transcript (T_NoteID tr) (mkTdb (update_where (note_is (T_NoteID tr)) (set_job None) (d_notes d))
    (d_transcripts d) (d_segments d) (d_gaps d))) with (prior_transcript (T_NoteID tr) d).
  destruct (prior_transcript (T_NoteID tr) d) as [x|]; cbv zeta iota beta.
  - destruct (Z.eqb_spec (ts_generation x) g) as [<-|]; cbn [negb]; [|done].
    destruct (insert_transcript _ _ ≫= _) as [[segs d4]|]; [|done]. by intros [= <- <-].
  - destruct (Z.eqb_spec 0 g) as [<-|]; cbn [negb]; [|done].
    destruct (insert_transcript _ _ ≫= _) as [[segs d4]|]; [|done]. by intros [= <- <-].
Qed.

Lemma Save_unchanged uuid fresh tr g d : is_ok (SaveTranscript uuid fresh tr g d).1 = false ->
  (SaveTranscript uuid fresh tr g d).2 = d.
Proof. unfold SaveTranscript. cbn zeta. repeat case_match; simplify_eq/=; done. Qed.

Lemma fenced_save uuid fresh tr d :
  Published pl = false -> T_NoteID tr = n ->
  Phi (mkCall OpSave d (lift_tdb (SaveTranscript uuid fresh tr (ExpectedGeneration pl)) d).2).
Proof.
  intros Hp <-. unfold fenced. cbn. rewrite lift_tdb_eq. cbn.
  destruct (SaveTranscript uuid fresh tr (ExpectedGeneration pl) (w_tdb d)) as [[t|e] d'] eqn:E.
  - right. split; [done|]. apply current_at. by apply Save_generation in E as [_ E].
  - left. assert (Hd : d' = w_tdb d).
    { assert (H := Save_unchanged uuid fresh tr (ExpectedGeneration pl) (w_tdb d)). rewrite E in H. by apply H. }
    rewrite Hd. unfold w_tdb. cbn. by rewrite with_tdb_same, set_sdb_same.
Qed.

(** Any other operation is fine if it finds the generation or leaves the tables. *)
Lemma fenced_write o d d' :
  o <> OpClaim -> o <> OpRelease -> o <> OpPayload -> o <> OpSave ->
  d' = d \/ at_generation n (published_generation pl) d -> Phi (mkCall o d d').
Proof. unfold fenced. destruct o; done. Qed.

End Fenced.

(** Writes bound to a generation find it or leave the tables. *)

Section Writes.
Context {Out : Outside}.
Variables (n : string) (g : Z).

Lemma write_hashes now a b d :
  (lift_notes (SetNoteHashesIfCurrent now n a b g) d).2 = d \/ at_generation n g d.
Proof.
  apply guarded_write. intros r [Hn Hg]%andb_true_iff. apply String.eqb_eq in Hn. done.
Qed.

Lemma write_partial now b d :
  (lift_notes (SetNotePartialTranscriptIfCurrent now n b g) d).2 = d \/ at_generation n g d.
Proof. apply guarded_write. intros r [Hn Hg]%andb_true_iff. apply String.eqb_eq in Hn. done. Qed.

Lemma write_retention now s d :
  (lift_notes (SetRetentionStateIfCurrent now n s g) d).2 = d \/ at_generation n g d.
Proof. apply guarded_write. intros r [Hn Hg]%andb_true_iff. apply String.eqb_eq in Hn. done. Qed.

Lemma write_review s d : (lift_tdb (SetReviewState n s g) d).2 = d \/ at_generation n g d.
Proof.
  rewrite lift_tdb_eq. unfold SetReviewState, update_review. cbn [fst snd].
  destruct (rows_affected _ _ =? 0)%nat eqn:E; cbn [fst snd].
  - left. unfold w_tdb. by rewrite with_tdb_same, set_sdb_same.
  - right. apply Nat.eqb_neq in E. assert (Hp : (0 < rows_affected (fun x => of_note n x && (ts_generation x =? g)%Z)
      (d_transcripts (w_tdb d)))%nat) by lia.
    apply rows_affected_pos in Hp as (x & Hx & [Hn Hg]%andb_true_iff). apply String.eqb_eq in Hn. apply Z.eqb_eq in Hg.
    left. by exists x.
Qed.

Lemma write_delete o d : (lift_sdb (DeleteNoteSummariesIfCurrent o n g) d).2 = d \/ at_generation n g d.
Proof.
  rewrite lift_sdb_eq. unfold DeleteNoteSummariesIfCurrent. destruct (Z.eqb_spec (CurrentTranscriptGeneration n (w_tdb d)) g).
  - right. by apply current_at.
  - left. unfold w_tdb in *. destruct (_ =? _)%Z eqn:E; [by apply Z.eqb_eq in E|]. apply set_sdb_same.
Qed.

Lemma write_enqueue ts now d :
  (lift_sdb (EnqueueSummarizeJobsIfCurrent_on marshalS ts fresh_summary fresh_job now n g) d).2 = d \/ at_generation n g d.
Proof.
  rewrite lift_sdb_eq. unfold EnqueueSummarizeJobsIfCurrent_on. destruct (Z.eqb_spec (CurrentTranscriptGeneration n (w_tdb d)) g).
  - right. by apply current_at.
  - left. unfold w_tdb in *. destruct (_ =? _)%Z eqn:E; [by apply Z.eqb_eq in E|]. apply set_sdb_same.
Qed.

(** The callback deletes audio only under the lock that found the generation. *)
Lemma discard_cases key t d :
  (discard_audio n key g t d).2 = d \/ CurrentTranscriptGeneration n (w_tdb d) = g.
Proof.
  unfold discard_audio, SetRetentionStateDiscardedIfCurrent.
  replace (match select_where (fun t => (tr_note t =? n)%string) (t_transcripts (notes_view (w_sdb d))) with
           | [] => 0%Z | t :: _ => tr_generation t end) with (CurrentTranscriptGeneration n (w_tdb d)).
  2:{ unfold CurrentTranscriptGeneration, prior_transcript, notes_view, note_tables, w_tdb. cbn [t_transcripts].
      induction (d_transcripts (s_tdb (w_sdb d))) as [|x l IH]; [done|]. cbn. unfold of_note.
      by destruct (ts_note x =? n)%string. }
  destruct (Z.eqb_spec (CurrentTranscriptGeneration n (w_tdb d)) g) as [|Hne]; cbn; [by right|]. left.
  apply put_notes_same.
Qed.

End Writes.

(** ** The stages of [runTranscribe] *)

Section Transcribe.
Context {Out : Outside}.
Variable job : Job.
Variable pl : transcribePayload.
(** Whether the job may have come to the retention of its audio. *)
Variable late : bool.
Abbreviation n := (Jobs.NoteID job).
Abbreviation j := (Jobs.ID job).
Abbreviation g1 := (published_generation pl).

(** What a call of the job may be, and the tables it leaves when it runs. *)
Inductive transcribe_op : op -> turn -> wdb -> wdb -> Prop :=
| to_read t d : transcribe_op OpRead t d d
| to_claim t d : transcribe_op OpClaim t d (lift_notes (ClaimNoteForTranscription (now t) n j) d).2
| to_release t d prior : transcribe_op OpRelease t d
    (lift_notes (fun x => (@Ok store_error _ tt, ReleaseNoteTranscriptionClaim (now t) n j prior x)) d).2
| to_payload t d p : transcribe_op OpPayload t d (lift_jobs (UpdateJobPayload (now t) j p) d).2
| to_save t d uuid fresh tr : Published pl = false -> T_NoteID tr = n ->
    transcribe_op OpSave t d (lift_tdb (SaveTranscript uuid fresh tr (ExpectedGeneration pl)) d).2
| to_hashes t d a b : transcribe_op OpHashes t d (lift_notes (SetNoteHashesIfCurrent (now t) n a b g1) d).2
| to_partial t d b : transcribe_op OpPartial t d (lift_notes (SetNotePartialTranscriptIfCurrent (now t) n b g1) d).2
| to_review t d : Embedded cfg = true ->
    transcribe_op OpReview t d (lift_tdb (SetReviewState n ReviewStateCompleted g1) d).2
| to_delete t d o : transcribe_op OpDeleteSummaries t d (lift_sdb (DeleteNoteSummariesIfCurrent o n g1) d).2
| to_enqueue t d ts : transcribe_op OpEnqueueSummaries t d
    (lift_sdb (EnqueueSummarizeJobsIfCurrent_on marshalS ts fresh_summary fresh_job (now t) n g1) d).2
| to_keep t d s : late = true -> transcribe_op OpRetention t d (lift_notes (SetRetentionStateIfCurrent (now t) n s g1) d).2
| to_discard t d key : late = true -> AudioRetention cfg = "discard"%string -> transcribe_op OpRetention t d (discard_audio n key g1 t d).2.

Definition transcribe_call (c : call_record) : Prop :=
  exists t d, transcribe_op (c_op c) t (c_before c) d /\
    (c_after c = d \/ c_after c = c_before c \/ c_after c = set_objects (w_objects d) (c_before c)).

Abbreviation Phi := transcribe_call.

Lemma is_call {A} o (f : turn -> wdb -> result store_error A * wdb) t d d' :
  (forall t d, transcribe_op o t d (f t d).2) -> call_leaves f t d d' -> Phi (mkCall o d d').
Proof. intros Hf H. exists t, (f t d).2. split; [apply Hf|exact H]. Qed.

Lemma emits_op {A} o (f : turn -> wdb -> result store_error A * wdb) :
  (forall t d, transcribe_op o t d (f t d).2) -> emits Phi (fun _ => True) (call o f).
Proof. intros Hf. apply emits_call; [|done|done]. intros t d d'. by apply is_call. Qed.

Lemma read_call d : Phi (mkCall OpRead d d).
Proof. exists {| others := id; now := 0; clock := 0; outcome_of := Runs |}, d. split; [constructor|by left]. Qed.

(** The payload after the claim: same generations. *)
Definition same_target (pl' : transcribePayload) : Prop :=
  ExpectedGeneration pl' = ExpectedGeneration pl /\ Published pl' = Published pl /\
  PublishedGeneration pl' = PublishedGeneration pl.

(** A call that only reads, with nothing to remember of what it read. *)
Lemma emits_reading {A} (f : turn -> wdb -> result store_error A * wdb) :
  (forall t, only_reads (f t)) -> emits Phi (fun r => match r with Ok _ => True | Err _ => True end) (call OpRead f).
Proof. intros Hf. apply (emits_read Phi (fun _ => True)); [intros d; apply read_call|done|done]. Qed.

Lemma emits_generation : emits Phi (fun r => match r with Ok _ => True | Err _ => True end) (call_generation n).
Proof. apply emits_reading. intros t. apply reads_only. Qed.

Lemma emits_release prior : emits Phi (fun _ => True) (releaseTranscribeClaim job prior).
Proof.
  unfold releaseTranscribeClaim. destruct (prior =? "")%string; [by apply emits_ret|].
  apply (emits_bind _ (fun _ => True)); [|intros; by apply emits_ret]. apply emits_op. intros. constructor.
Qed.

Lemma emits_abort {A} (Psi : A -> Prop) prior : emits Phi (goes_on Psi) (abortStaleNoteWrite job prior).
Proof. apply (emits_bind _ (fun _ => True)); [apply emits_release|]. intros ? _. apply emits_stop. Qed.

Lemma emits_persist pl' : emits Phi (fun r => match r with Ok _ => True | Err _ => True end) (persistTranscribePayload j pl').
Proof.
  eapply emits_weaken; [|apply emits_op; intros; constructor]. by intros [].
Qed.

Lemma emits_guarded {A} prior (m : M (result store_error A)) k :
  emits Phi (fun _ => True) m -> (forall r, emits Phi (goes_on (fun _ => True)) (k r)) ->
  emits Phi (goes_on (fun _ => True)) (guarded job prior m k).
Proof.
  intros Hm Hk. apply (emits_bind _ _ _ _ _ Hm). intros [a|e] _; [apply Hk|].
  destruct e; first [apply emits_abort|apply Hk].
Qed.

Lemma emits_swallow {A} (r : result store_error A) : emits Phi (goes_on (fun _ => True)) (swallow r).
Proof. by apply emits_continue. Qed.

Lemma emits_retry {A} (r : result store_error A) : emits Phi (goes_on (fun _ => True)) (retry_on_error r).
Proof. destruct r; [by apply emits_continue|apply emits_stop]. Qed.

Hint Resolve emits_swallow emits_retry : emits.

Lemma emits_check : emits Phi (goes_on (fun _ => True)) (check_generation job pl).
Proof.
  apply (emits_andthen _ (fun _ => True)); [apply emits_or_return, emits_generation|]. intros g _.
  destruct (negb _); [|by apply emits_continue]. apply (emits_bind _ (fun _ => True)); [|intros; apply emits_stop].
  destruct (negb _); [apply emits_release|by apply emits_ret].
Qed.

Lemma emits_claim : emits Phi (goes_on same_target) (claim_note job pl).
Proof.
  apply (emits_andthen _ (fun _ => True)).
  - apply emits_or_return. eapply emits_weaken; [|apply emits_op; intros; constructor]. by intros [].
  - intros p _. destruct (negb _); [|by apply emits_continue].
    apply (emits_andthen _ (fun _ => True)); [apply emits_or_return, emits_persist|]. intros ? _. by apply emits_continue.
Qed.

Lemma emits_audio_key pl' : emits Phi (goes_on (fun _ => True)) (audio_key job pl').
Proof.
  apply (emits_andthen _ (fun _ => True)).
  - apply emits_or_return. apply emits_reading. intros t. apply lift_notes_reads.
  - intros note _. cbv zeta. destruct (_ =? "")%string; [apply emits_stop|by apply emits_continue].
Qed.

Definition owns_generation (p : publication) : Prop := pb_generation p = g1.

Lemma emits_resume pl' : Published pl = true -> same_target pl' -> emits Phi (goes_on owns_generation) (resume job pl').
Proof.
  intros Hp (_ & _ & Hg). apply (emits_andthen _ (fun _ => True)).
  - apply emits_or_return. apply emits_reading. intros t. apply reads_only.
  - intros tr _. apply emits_continue. unfold owns_generation, published_generation. by rewrite Hp.
Qed.

Lemma emits_default_plugin kind :
  emits Phi (fun r => match r with Ok _ => True | Err _ => True end) (default_plugin kind).
Proof. apply emits_reading. intros t. apply reads_only. Qed.

Lemma emits_save plug resp :
  Published pl = false ->
  emits Phi (fun r => match r with Ok t => Generation t = g1 | Err _ => True end)
    (save_transcript job plug resp (ExpectedGeneration pl)).
Proof.
  intros Hp. apply emits_call; [| |done].
  - intros t d d'. apply is_call. intros. by constructor.
  - intros t d. rewrite lift_tdb_eq. cbn. destruct (SaveTranscript _ _ _ _ _) as [[s|e] d'] eqn:E; [|done].
    cbn. apply Save_generation in E as [-> _]. unfold published_generation. by rewrite Hp.
Qed.

Lemma emits_publish pl' key : Published pl = false -> same_target pl' -> emits Phi (goes_on owns_generation) (publish job pl' key).
Proof.
  intros Hp (He & _). unfold publish. apply (emits_bind _ _ _ _ _ (emits_default_plugin _)). intros [plug|e] _.
  2:{ destruct e; apply emits_stop. }
  destruct (presign key); [|apply emits_stop]. destruct (buildTranscribeRequest _ _ _); [|apply emits_stop].
  destruct (Transcribe _ _) as [resp|]; [|apply emits_stop]. rewrite He.
  apply (emits_bind _ _ _ _ _ (emits_save plug resp Hp)). intros [saved|e] Hs.
  2:{ destruct e; first [apply emits_abort|apply emits_stop]. }
  apply (emits_andthen _ (fun _ => True)); [apply emits_or_return, emits_persist|]. intros ? _. by apply emits_continue.
Qed.

(** *** After the transcript is durable *)

Lemma emits_retention prior key :
  late = true -> emits Phi (goes_on (fun _ => True)) (applyAudioRetention job prior key g1).
Proof.
  intros Hl. unfold applyAudioRetention. destruct (String.eqb_spec (AudioRetention cfg) "discard");
    (apply emits_guarded; [|apply emits_swallow]); apply emits_op; intros; by constructor.
Qed.

Lemma emits_hash prior key : emits Phi (goes_on (fun _ => True)) (hash_step job prior key g1).
Proof.
  apply (emits_bind _ _ _ _ _ (emits_peek _ _)). intros [[a b]|] _; [|by apply emits_continue].
  destruct (a =? "")%string; [by apply emits_continue|]. apply emits_guarded; [|apply emits_swallow].
  apply emits_op. intros. constructor.
Qed.

Lemma emits_partial prior p : owns_generation p -> emits Phi (goes_on (fun _ => True)) (partial_step job prior p).
Proof.
  unfold owns_generation, partial_step. intros ->.
  assert (Hm : forall b, emits Phi (fun _ => True) (call OpPartial (fun t =>
      lift_notes (SetNotePartialTranscriptIfCurrent (now t) n b g1))))
    by (intros b; apply emits_op; intros; constructor).
  destruct (pb_partial p).
  - apply (emits_andthen _ (fun _ => True)); [|intros; apply emits_stop]. apply emits_guarded; auto using emits_swallow.
  - apply emits_guarded; auto using emits_swallow.
Qed.

Lemma emits_review prior key p : late = true -> owns_generation p -> emits Phi (goes_on (fun _ => True)) (review_step job prior key p).
Proof.
  unfold owns_generation, review_step. intros Hlate ->. destruct (negb _); [|by apply emits_continue].
  destruct (Embedded cfg) eqn:E.
  - apply (emits_andthen _ (fun _ => True)); [|intros; by apply emits_continue]. apply emits_or_return.
    eapply emits_weaken; [|apply emits_op; intros; by constructor]. by intros [].
  - apply (emits_andthen _ (fun _ => True)); [by apply emits_retention|]. intros. apply emits_stop.
Qed.

Lemma emits_summarize prior : emits Phi (goes_on (fun _ => True)) (summarize_step job prior g1).
Proof.
  apply (emits_andthen _ (fun _ => True)); [apply emits_or_return, emits_reading; intros; apply reads_only|].
  intros owner _. apply (emits_andthen _ (fun _ => True)).
  { apply emits_guarded; auto using emits_retry. apply emits_op. intros. constructor. }
  intros _ _. apply (emits_andthen _ (fun _ => True)); [apply emits_or_return, emits_reading; intros; apply reads_only|].
  intros ts _. apply emits_guarded; auto using emits_retry. apply emits_op. intros. constructor.
Qed.

Lemma emits_note_work prior key p : late = true -> owns_generation p -> emits Phi (goes_on (fun _ => True)) (note_work job prior key p).
Proof.
  intros Hlate Hp. unfold note_work. assert (Hg := Hp). unfold owns_generation in Hg. rewrite Hg.
  apply (emits_andthen _ (fun _ => True)).
  { apply emits_or_return. apply (emits_bind _ _ _ _ _ emits_generation). intros [] _; by apply emits_ret. }
  intros b _. apply (emits_andthen _ (fun _ => True)); [destruct b; [by apply emits_continue|apply emits_abort]|].
  intros _ _. apply (emits_andthen _ (fun _ => True)); [apply emits_hash|].
  intros _ _. apply (emits_andthen _ (fun _ => True)); [by apply emits_partial|].
  intros _ _. apply (emits_andthen _ (fun _ => True)); [by apply emits_review|].
  intros _ _. apply (emits_andthen _ (fun _ => True)); [apply emits_summarize|].
  intros _ _. apply (emits_andthen _ (fun _ => True)); [by apply emits_retention|]. intros. by apply emits_continue.
Qed.

Lemma emits_body : late = true -> emits Phi (goes_on (fun _ => True)) (transcribe_body job pl).
Proof.
  intros Hlate. apply (emits_andthen _ (fun _ => True)); [apply emits_check|]. intros _ _.
  apply (emits_andthen _ same_target); [apply emits_claim|]. intros pl' Hpl.
  apply (emits_andthen _ (fun _ => True)); [apply emits_audio_key|]. intros key _.
  apply (emits_andthen _ owns_generation); [|intros; by apply emits_note_work].
  assert (Hp : Published pl' = Published pl) by apply Hpl. rewrite Hp.
  destruct (Published pl) eqn:E; [by apply emits_resume|by apply emits_publish].
Qed.

End Transcribe.

(** Every call of [runTranscribe] is one of the above. *)
Lemma runTranscribe_calls {Out : Outside} job pl w :
  unmarshalT (Jobs.Payload job) = Some pl ->
  exists l, log (runTranscribe job w).2 = log w ++ l /\ Forall (transcribe_call job pl true) l.
Proof.
  intros Hp. unfold runTranscribe. rewrite Hp.
  destruct (emits_returned _ _ (emits_goes_on _ _ (emits_body job pl true eq_refl)) w) as (l & Hl & Hf & _). by exists l.
Qed.

(** ** What the calls leave alone *)

(** Only the retention call touches the audio storage. *)
Lemma transcribe_op_objects {Out : Outside} job pl late o t d d' :
  transcribe_op job pl late o t d d' -> o <> OpRetention -> w_objects d' = w_objects d.
Proof. destruct 1; intros; by rewrite ?lift_notes_eq, ?lift_jobs_eq, ?lift_tdb_eq, ?lift_sdb_eq. Qed.

Lemma retention_call_fenced {Out : Outside} job pl late c t d :
  c_op c = OpRetention -> transcribe_op job pl late OpRetention t (c_before c) d ->
  (c_after c = d \/ c_after c = c_before c \/ c_after c = set_objects (w_objects d) (c_before c)) ->
  c_after c = c_before c \/ at_generation (Jobs.NoteID job) (published_generation pl) (c_before c).
Proof.
  intros _ Ho Hc. inversion Ho; subst.
  - rewrite lift_notes_eq in Hc. cbn [snd] in Hc. rewrite put_notes_objects, set_objects_same in Hc.
    destruct (write_retention (Jobs.NoteID job) (published_generation pl) (now t) s (c_before c)) as [E|]; [left|by right].
    rewrite lift_notes_eq in E. cbn [snd] in E.
    destruct Hc as [Hc|[Hc|Hc]]; rewrite Hc; done.
  - destruct (discard_cases (Jobs.NoteID job) (published_generation pl) key t (c_before c)) as [E|E].
    + left. rewrite E, set_objects_same in Hc. destruct Hc as [Hc|[Hc|Hc]]; rewrite Hc; done.
    + right. by apply current_at.
Qed.

Lemma transcribe_call_fenced {Out : Outside} job pl late c :
  transcribe_call job pl late c -> fenced (Jobs.NoteID job) (Jobs.ID job) pl c.
Proof.
  destruct c as [o d d'']. intros (t & d' & Ho & Hc). cbn [c_op c_before c_after] in *.
  destruct (decide (o = OpRetention)) as [->|Hne].
  { by apply (retention_call_fenced job pl late (mkCall OpRetention d d'') t d'). }
  rewrite (transcribe_op_objects _ _ _ _ _ _ _ Ho Hne), set_objects_same in Hc.
  assert (Hc' : d'' = d' \/ d'' = d) by tauto. destruct Hc' as [-> | ->].
  2:{ destruct o; try (by left); done. }
  destruct Ho; [by left|apply fenced_claim|apply fenced_release|apply fenced_payload|by apply fenced_save|..];
    apply fenced_write; auto using write_hashes, write_partial, write_review, write_delete, write_enqueue; done.
Qed.

(** The transcripts but for their review state, their segments and gaps. *)
Definition transcript_content (d : wdb) : list transcript_row * list segment_row * list gap_row :=
  (map (set_review "") (d_transcripts (w_tdb d)), d_segments (w_tdb d), d_gaps (w_tdb d)).

Lemma fan_out_tdb marshal fs fj i now n ts s s' : fan_out marshal fs fj i now n ts s = Some s' -> s_tdb s' = s_tdb s.
Proof.
  revert i s. induction ts as [|tm ts IH]; intros i s; cbn; [by intros [= <-]|].
  unfold insert_summary. repeat case_match; try done. cbn. repeat case_match; try done.
  intros H'. apply IH in H'. exact H'.
Qed.

Lemma op_content {Out : Outside} job pl late o t d d' :
  transcribe_op job pl late o t d d' -> o <> OpSave ->
  transcript_content d' = transcript_content d /\ (Embedded cfg = false -> d_transcripts (w_tdb d') = d_transcripts (w_tdb d)).
Proof.
  destruct 1; intros Ho; try done; rewrite ?lift_notes_eq, ?lift_jobs_eq, ?lift_sdb_eq; try done.
  - split; [|congruence]. rewrite lift_tdb_eq. unfold SetReviewState, update_review, transcript_content, w_tdb.
    destruct (_ =? 0)%nat; [done|]. cbn. f_equal. f_equal. by apply map_update_where.
  - unfold DeleteNoteSummariesIfCurrent. by destruct (negb _).
  - unfold EnqueueSummarizeJobsIfCurrent_on. destruct (negb _); [done|]. cbv zeta.
    destruct (fan_out _ _ _ _ _ _ _ _) as [s'|] eqn:E; [|done]. apply fan_out_tdb in E. cbn in E.
    unfold transcript_content, w_tdb. cbn. by rewrite E.
  - unfold discard_audio. by repeat case_match.
Qed.

(** ** When audio is deleted *)

Section Audio.
Context {Out : Outside}.
Variable job : Job.
Variable pl : transcribePayload.
Abbreviation n := (Jobs.NoteID job).
Abbreviation g1 := (published_generation pl).

Definition removes (c : call_record) : Prop := w_objects (c_after c) <> w_objects (c_before c).

(** The fan-out of the summaries committed, at the published generation. *)
Definition enqueued (l : list call_record) : Prop :=
  exists c ts t, c ∈ l /\ c_op c = OpEnqueueSummaries /\
    EnqueueSummarizeJobsIfCurrent_on marshalS ts fresh_summary fresh_job t n g1 (w_sdb (c_before c)) =
      (Ok tt, w_sdb (c_after c)).

(** A call met the note's transcript in review state [v]. *)
Definition met_review (v : string) (l : list call_record) : Prop :=
  exists c x, c ∈ l /\ prior_transcript n (w_tdb (c_after c)) = Some x /\ ts_review x = v.

Definition parked (l : list call_record) : Prop :=
  Embedded cfg = false /\ exists v, v <> ReviewStateCompleted /\ met_review v l.

Definition deletion_due (l : list call_record) (c : call_record) : Prop :=
  AudioRetention cfg = "discard"%string /\ CurrentTranscriptGeneration n (w_tdb (c_before c)) = g1 /\
  (exists key, w_objects (c_after c) = w_objects (c_before c) ∖ {[ key ]}) /\ (enqueued l \/ parked l).

Definition deletions_due : list call_record -> Prop := each (fun l c => removes c -> deletion_due l c).

Lemma due_snoc l c : deletions_due l -> (removes c -> deletion_due l c) -> deletions_due (l ++ [c]).
Proof. intros. by apply each_snoc. Qed.

Lemma early_call l c : deletions_due l -> transcribe_call job pl false c -> deletions_due (l ++ [c]).
Proof.
  intros Hl (t & d & Ho & Hc). apply due_snoc; [done|]. intros []. 
  assert (Hne : c_op c <> OpRetention) by (intros E; rewrite E in Ho; inversion Ho; done).
  assert (E := transcribe_op_objects _ _ _ _ _ _ _ Ho Hne). destruct Hc as [->|[->| ->]]; done.
Qed.

Lemma met_review_snoc v l c : met_review v l -> met_review v (l ++ [c]).
Proof. intros (c' & x & ? & ?). exists c', x. set_solver. Qed.
Lemma enqueued_snoc l c : enqueued l -> enqueued (l ++ [c]).
Proof. intros (c' & ts & t & ? & ?). exists c', ts, t. set_solver. Qed.
Lemma parked_snoc l c : parked l -> parked (l ++ [c]).
Proof. intros (? & v & ? & ?). split; [done|]. exists v. eauto using met_review_snoc. Qed.

(** Stages before the retention keep what is known and delete nothing. *)
Lemma early_stage {A} (Psi : A -> Prop) (Pre : list call_record -> Prop) (m : P A) :
  (forall l c, Pre l -> Pre (l ++ [c])) -> emits (transcribe_call job pl false) (goes_on Psi) m ->
  triple deletions_due Pre m (so_far (fun a l => Pre l /\ Psi a)).
Proof. intros. apply (triple_stage _ (transcribe_call job pl false)); auto using early_call. Qed.

Lemma early_stage_unit (Pre : list call_record -> Prop) (m : P unit) :
  (forall l c, Pre l -> Pre (l ++ [c])) -> emits (transcribe_call job pl false) (goes_on (fun _ => True)) m ->
  triple deletions_due Pre m (so_far (fun _ => Pre)).
Proof.
  intros. eapply triple_conseq; [done| |by apply (early_stage (fun _ => True) Pre)]. intros [] ?; cbn; naive_solver.
Qed.

Lemma stopped {A} (Pre : list call_record -> Prop) (m : P A) (Q : A -> list call_record -> Prop) :
  emits (transcribe_call job pl false) (goes_on (fun _ => False)) m -> triple deletions_due Pre m (so_far Q).
Proof.
  intros Hm. apply (triple_conseq _ (fun _ => True) _ (so_far (fun _ l => True /\ False))); [done| |by apply early_stage].
  intros [] ?; cbn; naive_solver.
Qed.

Lemma abort_stops {A} prior : emits (transcribe_call job pl false) (goes_on (fun _ : A => False)) (abortStaleNoteWrite job prior).
Proof. apply emits_abort. Qed.

(** A retention once the deletion is due. *)
Lemma retention_due prior key :
  triple deletions_due (fun l => enqueued l \/ parked l) (applyAudioRetention job prior key g1) (so_far (fun _ _ => True)).
Proof.
  assert (Hk : forall r : result store_error unit, triple deletions_due (fun _ => True) (swallow r) (so_far (fun _ _ => True)))
    by (intros; by apply triple_continue).
  unfold applyAudioRetention, guarded. destruct (String.eqb_spec (AudioRetention cfg) "discard") as [Hd|].
  - apply (triple_bind _ _ (fun _ _ => True)); [|intros [|[]]; first [apply Hk|apply stopped, abort_stops]].
    apply triple_call. intros t d a d' l Hco Hl Hp. split; [|done]. apply due_snoc; [done|]. intros Hr.
    assert (Hg := discard_cases n g1 key t d). unfold removes in Hr. cbn in Hr.
    assert (Hc := comes_out_leaves _ _ _ _ _ Hco).
    destruct Hg as [E|Hg].
    { destruct Hr, Hc as [->|[->| ->]]; cbn; by rewrite ?E. }
    split_and!; [done..| |done]. exists key. cbn.
    assert (Ho : w_objects (discard_audio n key g1 t d).2 = w_objects d ∖ {[key]} \/
                 w_objects (discard_audio n key g1 t d).2 = w_objects d)
      by (unfold discard_audio; repeat case_match; auto).
    destruct Hc as [->|[->| ->]]; cbn in *; destruct Ho; congruence.
  - apply (triple_bind _ _ (fun _ _ => True)); [|intros [|[]]; first [apply Hk|apply stopped, abort_stops]].
    apply (triple_conseq _ (fun l => enqueued l \/ parked l) _ (fun _ l => (enqueued l \/ parked l) /\ True)); [done..|].
    apply (triple_emits _ (fun c => w_objects (c_after c) = w_objects (c_before c)) (fun _ => True)
             (fun l => enqueued l \/ parked l)).
    + intros l c Hl Hc. apply due_snoc; [done|]. by intros [].
    + intros l c [?|?]; [left; by apply enqueued_snoc|right; by apply parked_snoc].
    + apply emits_call; [|done|done]. intros t d d' Hc.
      apply call_leaves_cases in Hc as [->| ->]; by rewrite ?lift_notes_eq.
Qed.

Lemma prior_review n' d t : GetTranscript n' d = Ok t -> exists x, prior_transcript n' d = Some x /\ ts_review x = ReviewState t.
Proof. unfold GetTranscript, getTranscriptTx. destruct (prior_transcript n' d) as [x|]; [|done]. intros [= <-]. by exists x. Qed.

Lemma insert_segments_frame fresh i tid segs d out d' :
  insert_segments fresh i tid segs d = Some (out, d') -> d_transcripts d' = d_transcripts d /\ d_notes d' = d_notes d.
Proof.
  revert i d out d'. induction segs as [|sg segs IH]; intros i d out d'; cbn; [by intros [= <- <-]|].
  unfold insert_segment. repeat case_match; try done. cbn.
  destruct (insert_segments fresh (S i) tid segs _) as [[o x]|] eqn:E; [|done]. cbn. intros [= <- <-].
  by apply IH in E.
Qed.

(** The saved transcript is the note's transcript. *)
Lemma Save_review uuid fresh tr g d t d' :
  SaveTranscript uuid fresh tr g d = (Ok t, d') ->
  exists x, prior_transcript (T_NoteID tr) d' = Some x /\ ts_review x = ReviewState t /\ ts_generation x = Generation t.
Proof.
  unfold SaveTranscript. cbv zeta. destruct (negb _); [done|].
  set (d2 := delete_transcripts _ _). set (row := mkTranscriptRow _ _ _ _ _ _ _ _).
  assert (Hnone : forall y, y ∈ d_transcripts d2 -> of_note (T_NoteID tr) y = false)
    by (intros y Hy; by apply elem_of_delete_where in Hy as [_ Hy]). clearbody d2.
  destruct (insert_transcript row d2) as [d3|] eqn:E; cbn; [|done].
  destruct (insert_segments fresh 0 uuid (T_Segments tr) d3) as [[segs d4]|] eqn:Es; [|done]. intros [= <- <-].
  apply insert_segments_frame in Es as [Es _]. unfold insert_transcript in E.
  destruct (exists_where _ (d_transcripts d2)); [done|]. destruct (negb _); [done|]. injection E as <-.
  exists row. split; [|done]. unfold prior_transcript. rewrite Es. cbn [d_transcripts]. rewrite select_app.
  rewrite (select_none _ _ Hnone). cbn. unfold of_note. cbn. by rewrite String.eqb_refl.
Qed.

Lemma Save_current uuid fresh tr g d t d' :
  SaveTranscript uuid fresh tr g d = (Ok t, d') -> CurrentTranscriptGeneration (T_NoteID tr) d' = (g + 1)%Z.
Proof.
  intros H. assert (Hg := H). apply Save_generation in Hg as [<- _]. apply Save_review in H as (x & Hx & _ & <-).
  unfold CurrentTranscriptGeneration. by rewrite Hx.
Qed.

Definition owned_seen (p : publication) (l : list call_record) : Prop := owns_generation pl p /\ met_review (pb_review p) l.

Lemma met_review_last v l o d d' x :
  prior_transcript n (w_tdb d') = Some x -> ts_review x = v -> met_review v (l ++ [mkCall o d d']).
Proof. intros. exists (mkCall o d d'), x. set_solver. Qed.

Lemma resume_seen pl' :
  Published pl = true -> same_target pl pl' -> triple deletions_due (fun _ => True) (resume job pl') (so_far owned_seen).
Proof.
  intros Hp (_ & _ & Hg). unfold resume.
  apply (triple_andthen _ _ (fun t l => met_review (ReviewState t) l)).
  - apply triple_or_return, triple_call. intros t d a d' l Hco Hl _.
    assert (Hd : d' = d) by (destruct Hco as [E|[_ E]]; [by injection E|by apply call_leaves_read in E]).
    split; [apply early_call; [done|]; subst d'; apply read_call|]. destruct a as [tr|]; [|done].
    destruct Hco as [E|[? _]]; [|done]. injection E as E _. symmetry in E. apply prior_review in E as (x & Hx & Hr).
    rewrite Hd. by apply (met_review_last _ _ _ _ _ x).
  - intros tr. apply triple_continue. intros l Hl. split; [|done].
    unfold owns_generation, published_generation. cbn. by rewrite Hp.
Qed.

Lemma publish_seen pl' key :
  Published pl = false -> same_target pl pl' -> triple deletions_due (fun _ => True) (publish job pl' key) (so_far owned_seen).
Proof.
  intros Hp (He & _). unfold publish.
  apply (triple_bind _ _ (fun _ _ => True)).
  { apply (triple_conseq _ (fun _ => True) _ (fun r _ => True /\ match r with Ok _ => True | Err _ => True end)); [done..|].
    apply (triple_emits _ (transcribe_call job pl false) _ (fun _ => True)); auto using early_call, emits_default_plugin. }
  intros [plug|e]; [|destruct e; apply triple_stop].
  destruct (presign key) as [url|]; [|apply triple_stop].
  destruct (buildTranscribeRequest _ _ _) as [req|]; [|apply triple_stop].
  destruct (Transcribe _ _) as [resp|]; [|apply triple_stop]. rewrite He.
  apply (triple_bind _ _ (fun r l => match r with
                                     | Ok tr => Generation tr = g1 /\ met_review (ReviewState tr) l
                                     | Err _ => True end)).
  - apply triple_call. intros t d a d' l Hco Hl _. split.
    { apply early_call; [done|]. eapply (is_call job pl false); [|by apply comes_out_leaves in Hco].
      intros; by apply to_save. }
    destruct a as [s|]; [|done]. destruct Hco as [E|[? _]]; [|done]. rewrite lift_tdb_eq in E.
    destruct (SaveTranscript _ _ _ _ _) as [r x] eqn:Es. injection E as <- Hd. cbn [fst snd] in Hd.
    assert (Hr := Es). apply Save_review in Hr as (y & Hy & Hv & _). apply Save_generation in Es as [Hg _].
    split; [unfold published_generation; by rewrite Hp|]. apply (met_review_last _ _ _ _ _ y); [|done].
    subst d'. exact Hy.
  - intros [saved|e]; [|destruct e; first [apply stopped, abort_stops|apply triple_stop]].
    apply (triple_andthen _ _ (fun _ l => Generation saved = g1 /\ met_review (ReviewState saved) l)).
    + apply early_stage_unit; [intros l c [? ?]; eauto using met_review_snoc|].
      apply emits_or_return, emits_persist.
    + intros _. apply triple_continue. intros l [Hg Hl]. done.
Qed.

Lemma summarize_due prior :
  triple deletions_due (fun _ => True) (summarize_step job prior g1) (so_far (fun _ => enqueued)).
Proof.
  assert (Hearly : forall {A} (m : P A), emits (transcribe_call job pl false) (goes_on (fun _ => True)) m ->
    triple deletions_due (fun _ => True) m (so_far (fun _ _ => True))).
  { intros A m Hm. apply (triple_conseq _ (fun _ => True) _ (so_far (fun _ _ => True /\ True))); [done| |by apply early_stage].
    intros [] ?; done. }
  apply (triple_andthen _ _ (fun _ _ => True)); [apply Hearly, emits_or_return, emits_reading; intros; apply reads_only|].
  intros owner. apply (triple_andthen _ _ (fun _ _ => True)).
  { apply Hearly. apply emits_guarded; auto using emits_retry. apply emits_op. intros. constructor. }
  intros _. apply (triple_andthen _ _ (fun _ _ => True)); [apply Hearly, emits_or_return, emits_reading; intros; apply reads_only|].
  intros ts. apply (triple_bind _ _ (fun r l => match r with Ok _ => enqueued l | Err _ => True end)).
  - apply triple_call. intros t d a d' l Hco Hl _. split.
    { apply early_call; [done|]. apply (is_call job pl false _ (fun t => lift_sdb (EnqueueSummarizeJobsIfCurrent_on
        marshalS ts fresh_summary fresh_job (now t) n g1)) t); [intros; by constructor|].
      by apply comes_out_leaves in Hco. }
    destruct a as [[]|]; [|done]. destruct Hco as [E|[? _]]; [|done]. rewrite lift_sdb_eq in E.
    exists (mkCall OpEnqueueSummaries d d'), ts, (now t). split; [set_solver|]. split; [done|]. cbn [c_before c_after].
    destruct (EnqueueSummarizeJobsIfCurrent_on _ _ _ _ _ _ _ _) as [r s] eqn:Es. cbn in E. by injection E as -> ->.
  - intros [u|e]; [by apply triple_continue|]. destruct e; first [apply stopped, abort_stops|apply triple_stop].
Qed.

Lemma review_due prior key p :
  owns_generation pl p ->
  triple deletions_due (met_review (pb_review p)) (review_step job prior key p) (so_far (fun _ _ => True)).
Proof.
  intros Hp. unfold review_step. assert (Hg : pb_generation p = g1) by exact Hp. rewrite Hg. destruct (String.eqb_spec (pb_review p) ReviewStateCompleted) as [|Hne]; cbn [negb].
  { by apply triple_continue. }
  destruct (Embedded cfg) eqn:Ee.
  - apply (triple_andthen _ _ (fun _ => met_review (pb_review p))); [|intros; by apply triple_continue].
    apply early_stage_unit; [intros; by apply met_review_snoc|]. apply emits_or_return.
    eapply emits_weaken; [|apply emits_op; intros; by constructor]. by intros [].
  - apply (triple_andthen _ _ (fun _ _ => True)); [|intros; apply triple_stop].
    apply (triple_conseq _ (fun l => enqueued l \/ parked l) _ (so_far (fun _ _ => True))); [|done|apply retention_due].
    intros l Hl. right. split; [done|]. by exists (pb_review p).
Qed.

Lemma note_work_due prior key p :
  owns_generation pl p ->
  triple deletions_due (met_review (pb_review p)) (note_work job prior key p) (so_far (fun _ _ => True)).
Proof.
  intros Hp. unfold note_work. assert (Hg : pb_generation p = g1) by exact Hp. rewrite Hg.
  assert (Hs := fun l c => met_review_snoc (pb_review p) l c).
  apply (triple_andthen _ _ (fun _ => met_review (pb_review p))).
  { apply (triple_conseq _ (met_review (pb_review p)) _ (so_far (fun _ l => met_review (pb_review p) l /\ True)));
      [done|by intros [] ? []|]. apply early_stage; [done|]. apply emits_or_return.
    apply (emits_bind _ _ _ _ _ (emits_generation _ _ _)). intros [] _; by apply emits_ret. }
  intros b. apply (triple_andthen _ _ (fun _ => met_review (pb_review p))).
  { apply early_stage_unit; [done|]. destruct b; [by apply emits_continue|apply emits_abort]. }
  intros _. apply (triple_andthen _ _ (fun _ => met_review (pb_review p))); [apply early_stage_unit; [done|apply emits_hash]|].
  intros _. apply (triple_andthen _ _ (fun _ => met_review (pb_review p)));
    [apply early_stage_unit; [done|by apply emits_partial]|].
  intros _. apply (triple_andthen _ _ (fun _ _ => True)); [by apply review_due|].
  intros _. apply (triple_andthen _ _ (fun _ => enqueued)); [apply summarize_due|].
  intros _. apply (triple_andthen _ _ (fun _ _ => True)); [|intros; by apply triple_continue].
  apply (triple_conseq _ (fun l => enqueued l \/ parked l) _ (so_far (fun _ _ => True))); [by left|done|apply retention_due].
Qed.

Lemma body_due : triple deletions_due (fun _ => True) (transcribe_body job pl) (so_far (fun _ _ => True)).
Proof.
  apply (triple_andthen _ _ (fun _ _ => True)); [apply early_stage_unit; [done|apply emits_check]|]. intros _.
  apply (triple_andthen _ _ (fun pl' _ => same_target pl pl')).
  { apply (triple_conseq _ (fun _ => True) _ (so_far (fun pl' _ => True /\ same_target pl pl'))); [done|by intros [] ?; cbn; naive_solver|].
    apply early_stage; [done|apply emits_claim]. }
  intros pl'. apply (triple_andthen _ _ (fun _ _ => same_target pl pl')).
  { apply (triple_conseq _ (fun _ => same_target pl pl') _ (so_far (fun _ _ => same_target pl pl' /\ True)));
      [done|by intros [] ?; cbn; naive_solver|]. apply early_stage; [done|apply emits_audio_key]. }
  intros key. apply (triple_andthen _ _ owned_seen).
  - intros w base l Hl HI Ht. assert (Hp : Published pl' = Published pl) by apply Ht. rewrite Hp.
    destruct (Published pl) eqn:E;
      [exact (resume_seen pl' E Ht w base l Hl HI Logic.I)|exact (publish_seen pl' key E Ht w base l Hl HI Logic.I)].
  - intros p w base l Hl HI [Hp Hm]. by apply (note_work_due _ key p Hp w base l).
Qed.

End Audio.

(** ** Properties *)

(** C10. A transcribe job is fenced by generations, whatever other workers and
    requests do between its calls, however the calls come out and wherever the
    process dies: its claim, release and checkpoint touch nothing but the
    note's status and claim and its own payload; it saves a transcript only over
    the generation it was enqueued for, and never once it has published; every
    other write, the deletion of audio included, happens only while the note's
    transcript carries the generation this job published. *)
Theorem runTranscribe_fenced {Out : Outside} job pl w :
  unmarshalT (Jobs.Payload job) = Some pl ->
  exists l, log (runTranscribe job w).2 = log w ++ l /\ Forall (fenced (Jobs.NoteID job) (Jobs.ID job) pl) l.
Proof.
  intros Hp. destruct (runTranscribe_calls job pl w Hp) as (l & Hl & Hf). exists l. split; [done|].
  eapply Forall_impl; [exact Hf|]. intros c. apply transcribe_call_fenced.
Qed.

(** A retry that resumes after publication never publishes again: whatever
    else happens meanwhile, none of its calls changes a transcript, its
    segments or its gaps, and outside the embedded build none changes a review
    state either, so it cannot undo a review made since. *)
Theorem resume_keeps_review {Out : Outside} job pl w :
  unmarshalT (Jobs.Payload job) = Some pl -> Published pl = true ->
  exists l, log (runTranscribe job w).2 = log w ++ l /\
    Forall (fun c => c_op c <> OpSave /\ transcript_content (c_after c) = transcript_content (c_before c) /\
      (Embedded cfg = false -> d_transcripts (w_tdb (c_after c)) = d_transcripts (w_tdb (c_before c)))) l.
Proof.
  intros Hp Hpub. destruct (runTranscribe_calls job pl w Hp) as (l & Hl & Hf). exists l. split; [done|].
  eapply Forall_impl; [exact Hf|]. intros [o d d''] (t & d' & Ho & Hc). cbn in *.
  assert (Hs : o <> OpSave) by (intros ->; inversion Ho; congruence). split; [done|].
  destruct (op_content _ _ _ _ _ _ _ Ho Hs) as [He Hr]. destruct Hc as [->|[->| ->]]; done.
Qed.

(** C11. Audio is deleted only when nothing will need it: if any call of a
    transcribe job removes an audio object, the server is configured to discard
    audio, the note's transcript carries the generation this job published, and
    earlier in the same run either the summarize jobs of that generation were
    committed or the job met the transcript under review and holds the summaries
    back.  A retry can therefore not be stranded without the audio. *)
Theorem audio_deleted_last {Out : Outside} job pl w :
  unmarshalT (Jobs.Payload job) = Some pl ->
  exists l, log (runTranscribe job w).2 = log w ++ l /\ deletions_due job pl l.
Proof.
  intros Hp. unfold runTranscribe. rewrite Hp.
  destruct (body_due job pl w (log w) []) as (l & Hl & HI & _); [by rewrite app_nil_r|by intros [] |done|].
  exists l. split; [|done]. rewrite <- Hl. unfold returned, bind. by destruct (transcribe_body job pl w) as [[[]|] ?].
Qed.

(** ** Witnesses *)

Module TranscribeWitness.
Definition first_run : Job := demo_run (new_payload 0).
Definition first_world : world := in_world uploaded (repeat step 20).

Lemma runTranscribe_fenced_witness :
  map c_op (log (runTranscribe first_run first_world).2) =
    [OpRead; OpClaim; OpPayload; OpRead; OpRead; OpSave; OpPayload; OpRead; OpHashes; OpPartial; OpRead;
     OpDeleteSummaries; OpRead; OpEnqueueSummaries; OpRetention] /\
  exists l, log (runTranscribe first_run first_world).2 = [] ++ l /\ Forall (fenced "n" "job" (new_payload 0)) l.
Proof. split; [by vm_compute|]. by apply (runTranscribe_fenced first_run (new_payload 0) first_world). Defined.

(** The first run stops after the checkpoint; the second resumes there. *)
Definition stopped_world : wdb := db (runTranscribe first_run (in_world uploaded (repeat step 7))).2.
Definition second_run : Job := demo_run (published_payload 0).

Lemma resume_keeps_review_witness :
  map r_payload (w_jobs stopped_world) = [print_transcribe (published_payload 0)] /\
  exists l, log (runTranscribe second_run (in_world stopped_world (repeat step 20))).2 = [] ++ l /\
    Forall (fun c => c_op c <> OpSave /\ transcript_content (c_after c) = transcript_content (c_before c) /\
      (Embedded cfg = false -> d_transcripts (w_tdb (c_after c)) = d_transcripts (w_tdb (c_before c)))) l.
Proof.
  split; [by vm_compute|].
  by apply (resume_keeps_review second_run (published_payload 0) (in_world stopped_world (repeat step 20))).
Defined.

Lemma audio_deleted_last_witness :
  w_objects (db (runTranscribe first_run first_world).2) = ∅ /\
  exists l, log (runTranscribe first_run first_world).2 = [] ++ l /\ deletions_due first_run (new_payload 0) l.
Proof. split; [by vm_compute|]. by apply (audio_deleted_last first_run (new_payload 0) first_world). Defined.
End TranscribeWitness.
