(* ===== verification/PipelineRuns.v ===== *)
(** What becomes of a note when its jobs settle ([Pipeline]): finalization,
    and runs in which every store call succeeds. *)

From stdpp Require Import base list strings sets gmap.
From Stdlib Require Import ZArith Lia.
From S2P Require Import GoInt GoStrings Sql Jobs Folders Execution Notes Transcripts Templates Summaries.
From S2P Require Import Plugins Webhooks Speakers ActionItems Pipeline PipelineLogic PipelineDemo.
From S2P Require Import PipelineProps.

Local Open Scope prog_scope.

(** ** Finalization *)

(** The call moved the note from another status to ready. *)
Definition readied (n : string) (c : call_record) : Prop :=
  c_op c = OpReady /\
  (exists r, r ∈ w_notes (c_before c) /\ row_id r = n /\ row_status r <> NoteReady) /\
  (forall r, r ∈ w_notes (c_after c) -> row_id r = n -> row_status r = NoteReady).

(** The call read the note's jobs and found no active summarize job. *)
Definition counted_none (n : string) (c : call_record) : Prop :=
  c_op c = OpRead /\ CountActiveSummarizeJobs n (w_jobs (c_before c)) = 0%nat.

Definition finalize_call (n : string) (l : list call_record) (c : call_record) : Prop :=
  match c_op c with
  | OpReady => exists r, r ∈ l /\ counted_none n r
  | OpEmbed | OpItems | OpDelivery => exists r, r ∈ l /\ readied n r
  | _ => c_after c = c_before c
  end.

Section Finalize.
Context {Out : Outside}.
Variable n : string.

Abbreviation I := (each (finalize_call n)).
Abbreviation counted := (fun l => exists r, r ∈ l /\ counted_none n r).
Abbreviation won := (fun l => exists r, r ∈ l /\ readied n r).

Lemma exists_snoc (Q : call_record -> Prop) l c : (exists r, r ∈ l /\ Q r) -> exists r, r ∈ l ++ [c] /\ Q r.
Proof. intros (r & ? & ?). exists r. set_solver. Qed.

Lemma read_step {A} (Pre : list call_record -> Prop) (f : turn -> wdb -> result store_error A * wdb) :
  (forall t, only_reads (f t)) -> (forall l c, Pre l -> Pre (l ++ [c])) ->
  triple I Pre (call OpRead f) (fun _ => Pre).
Proof.
  intros Hf HP. apply triple_call. intros t d a d' l Hco Hl Hp.
  apply comes_out_leaves, call_leaves_read in Hco; [|done]. subst d'. split; [by apply each_snoc|auto].
Qed.

(** Steps that only a win may make. *)
Lemma won_step {A} o (f : turn -> wdb -> result store_error A * wdb) :
  o = OpEmbed \/ o = OpItems \/ o = OpDelivery -> triple I won (call o f) (fun _ => won).
Proof.
  intros Ho. apply triple_call. intros t d a d' l _ Hl Hw.
  split; [apply each_snoc; [done|]; by destruct Ho as [->|[->| ->]]|by apply exists_snoc].
Qed.

Lemma unless_step {A} (Pre : list call_record -> Prop) (m : M (result store_error A)) (Q : A -> list call_record -> Prop) k :
  triple I Pre m (fun r l => match r with Ok a => Q a l | Err _ => True end) ->
  (forall a, triple I (Q a) (k a) (fun _ _ => True)) -> triple I Pre (unless_error m k) (fun _ _ => True).
Proof.
  intros Hm Hk. apply (triple_bind _ _ _ _ _ _ Hm). intros [a|e]; [apply Hk|by apply triple_ret].
Qed.

Lemma reads_won {A} (f : turn -> wdb -> result store_error A * wdb) :
  (forall t, only_reads (f t)) -> triple I won (call OpRead f) (fun _ => won).
Proof. intros. apply read_step; [done|]. intros. by apply exists_snoc. Qed.

Lemma unless_read {A} (f : turn -> wdb -> result store_error A * wdb) k :
  (forall t, only_reads (f t)) -> (forall a, triple I won (k a) (fun _ _ => True)) ->
  triple I won (unless_error (call OpRead f) k) (fun _ _ => True).
Proof.
  intros Hf Hk. apply (unless_step _ _ (fun _ => won)); [|done].
  apply (triple_conseq _ won _ (fun _ => won)); [done| |by apply reads_won]. by intros [].
Qed.

Lemma then_ret {A} (m : M A) (R : list call_record -> Prop) :
  triple I R m (fun _ => R) -> triple I R (let! _ := m in ret tt) (fun _ => R).
Proof. intros Hm. apply (triple_bind _ _ _ _ _ _ Hm). intros ?. by apply triple_ret. Qed.

Lemma extraction_step tr : triple I won (maybeExtractActionItems n tr) (fun _ => won).
Proof.
  unfold maybeExtractActionItems. destruct (negb _); [by apply triple_ret|].
  apply (triple_bind _ _ (fun _ => won)).
  { apply (triple_bind _ _ (fun _ => won)); [apply reads_won; intros; apply reads_only|intros []; by apply triple_ret]. }
  intros [sections|]; [|by apply triple_ret]. destruct (extract _ _) as [[new_items new_decisions]|]; [|by apply triple_ret].
  apply (triple_bind _ _ (fun _ => won)); [apply reads_won; intros; apply reads_only|].
  intros [owner|]; [|by apply triple_ret]. apply then_ret, won_step. auto.
Qed.

Lemma deliveries_step i hooks body : triple I won (create_deliveries i hooks body) (fun _ _ => True).
Proof.
  revert i. induction hooks as [|wh rest IH]; intros i; cbn [create_deliveries]; [by apply triple_ret|].
  apply (triple_bind _ _ (fun _ => won)); [apply won_step; auto|]. intros ?. apply IH.
Qed.

Lemma webhooks_step tr : triple I won (enqueueNoteCompletedWebhooks n tr) (fun _ _ => True).
Proof.
  unfold enqueueNoteCompletedWebhooks. apply unless_read; [intros; apply lift_notes_reads|]. intros note.
  apply unless_read; [intros; apply reads_only|]. intros hooks. destruct (_ =? 0)%nat; [by apply triple_ret|].
  apply (triple_bind _ _ (fun _ => won)); [apply reads_won; intros; apply reads_only|]. intros ?. apply deliveries_step.
Qed.

(** A win did move the note. *)
Lemma MarkNoteReady_readied now' d :
  (MarkNoteReady now' n (notes_tables d)).1 = true ->
  readied n (mkCall OpReady d (put_notes (t_notes (MarkNoteReady now' n (notes_tables d)).2) d)).
Proof.
  unfold MarkNoteReady. cbn [fst snd]. rewrite notes_tables_notes. intros Hw%Nat.eqb_eq. split; [done|]. cbn. split.
  - assert (Hp : (0 < rows_affected (fun r => note_is n r && negb (status_is NoteReady r)) (w_notes d))%nat) by lia.
    apply rows_affected_pos in Hp as (r & Hr & [Hi%String.eqb_eq Hs%negb_true_iff%String.eqb_neq]%andb_true_iff).
    by exists r.
  - intros r (r0 & Hr0 & ->)%elem_of_update_where Hi.
    destruct (note_is n r0 && negb (status_is NoteReady r0)) eqn:E; [by destruct r0|].
    apply andb_false_iff in E as [E%String.eqb_neq|E%negb_false_iff%String.eqb_eq]; [by destruct r0|done].
Qed.

Lemma ready_step :
  triple I counted (mark_ready n) (fun r l => match r with Ok b => if b : bool then won l else True | Err _ => True end).
Proof.
  apply triple_call. intros t d a d' l Hco Hl Hc. split; [by apply each_snoc|].
  destruct a as [b|]; [|done]. destruct b; [|done]. destruct Hco as [E|[? _]]; [|done].
  rewrite lift_notes_eq in E. assert (Hr := MarkNoteReady_readied (now t) d).
  destruct (MarkNoteReady (now t) n (notes_tables d)) as [b x]. cbn in E, Hr. injection E as <- ->.
  eexists. split; [|by apply Hr]. set_solver.
Qed.

Lemma finalize_step : triple I (fun _ => True) (FinalizeNote n) (fun _ _ => True).
Proof.
  unfold FinalizeNote. apply (unless_step _ _ (fun _ _ => True)).
  { apply (triple_conseq _ (fun _ => True) _ (fun _ _ => True)); [done|by intros []|].
    apply read_step; [intros; apply reads_only|done]. }
  intros tr. apply (unless_step _ _ (fun pending l => pending = 0%nat -> counted l)).
  { apply triple_call. intros t d a d' l Hco Hl _. assert (Hd := Hco).
    apply comes_out_leaves, call_leaves_read in Hd; [|apply reads_only]. subst d'. split; [by apply each_snoc|].
    destruct a as [pending|]; [|done]. intros ->. destruct Hco as [E|[? _]]; [|done]. injection E as E.
    exists (mkCall OpRead d d). split; [set_solver|]. split; [done|]. cbn. by rewrite <- E. }
  intros pending. destruct (Nat.ltb_spec 0 pending); [by apply triple_ret|].
  apply (unless_step _ _ (fun (b : bool) l => if b then won l else True)).
  { apply (triple_conseq _ counted _ (fun r l => match r with Ok b => if b : bool then won l else True | Err _ => True end));
      [intros l Hl; apply Hl; lia|done|apply ready_step]. }
  intros [|]; cbn [negb]; [|by apply triple_ret]. apply (triple_bind _ _ (fun _ => won)); [apply extraction_step|].
  intros _. apply (triple_bind _ _ (fun _ => won)); [|intros _; apply webhooks_step].
  destruct (has_embedder cfg); [|by apply triple_ret]. apply then_ret, won_step. auto.
Qed.
End Finalize.

(** ** Runs whose calls succeed *)

(** The call is not disturbed: it runs, whatever the others did before. *)
Definition undisturbed (t : turn) : Prop := outcome_of t = Runs.
(** Nobody else does anything. *)
Definition quiet (t : turn) : Prop := outcome_of t = Runs /\ forall d, others t d = d.

Lemma call_runs {A} o (f : turn -> wdb -> result store_error A * wdb) w t rest :
  turns w = t :: rest -> undisturbed t ->
  let d := others t (db w) in
  call o f w = (Some (f t d).1, {| db := (f t d).2; turns := rest; log := log w ++ [mkCall o d (f t d).2] |}).
Proof. intros Ht Hr d. unfold call. rewrite Ht. fold d. rewrite Hr. by destruct (f t d). Qed.

Lemma call_quiet {A} o (f : turn -> wdb -> result store_error A * wdb) w t rest :
  turns w = t :: rest -> quiet t ->
  call o f w = (Some (f t (db w)).1, {| db := (f t (db w)).2; turns := rest; log := log w ++ [mkCall o (db w) (f t (db w)).2] |}).
Proof. intros Ht [Hr Ho]. rewrite (call_runs _ _ _ _ _ Ht Hr). cbn zeta. by rewrite Ho. Qed.

Lemma bind_step {A B} (m : M A) (k : A -> M B) a w w' : m w = (Some a, w') -> bind m k w = k a w'.
Proof. intros E. unfold bind. by rewrite E. Qed.

(** ** A lost checkpoint *)

Section Lost.
Context {Out : Outside}.

Lemma seal_prior_notes p d : d_notes (seal_prior p d) = d_notes d.
Proof. unfold seal_prior. by repeat case_match. Qed.

Lemma Save_clears_claim uuid fresh tr g d t d' r :
  SaveTranscript uuid fresh tr g d = (Ok t, d') -> r ∈ d_notes d' -> row_id r = T_NoteID tr -> row_job r = None.
Proof.
  unfold SaveTranscript. cbv zeta. destruct (negb _); [done|]. unfold insert_transcript.
  set (d2 := delete_transcripts _ _). destruct (exists_where _ (d_transcripts d2)); [done|]. destruct (negb _); [done|]. cbn.
  destruct (insert_segments _ _ _ _ _) as [[segs d4]|] eqn:Es; [|done]. intros [= _ <-] Hr Hi.
  assert (E : d_notes d4 = d_notes d2) by (by apply insert_segments_frame in Es as [_ Es]). rewrite E in Hr. unfold d2 in Hr. cbn in Hr.
  rewrite seal_prior_notes in Hr. cbn in Hr.
  apply elem_of_update_where in Hr as (r0 & _ & ->). destruct (note_is (T_NoteID tr) r0) eqn:En; [by destruct r0|].
  apply String.eqb_neq in En. done.
Qed.

(** On quiet turns, of which it takes at most [k], the program answers [a] and
    leaves the tables. *)
Definition idle {A} (k : nat) (m : M A) (a : A) (w : world) : Prop :=
  Forall quiet (turns w) -> (k <= length (turns w))%nat ->
  exists w', m w = (Some a, w') /\ db w' = db w /\ Forall quiet (turns w') /\ (length (turns w) <= length (turns w') + k)%nat.

Lemma idle_ret {A} (a : A) w : idle 0 (ret a) a w.
Proof. intros ? _. exists w. split_and!; [done..|lia]. Qed.

Lemma idle_more {A} k k' (m : M A) a w : idle k m a w -> (k <= k')%nat -> idle k' m a w.
Proof. intros Hm Hk Hq Hl. destruct (Hm Hq ltac:(lia)) as (w' & ? & ? & ? & ?). exists w'. split_and!; [done..|lia]. Qed.

Lemma idle_bind {A B} k k' (m : M A) (f : A -> M B) a b w :
  idle k m a w -> (forall w', db w' = db w -> idle k' (f a) b w') -> idle (k + k') (bind m f) b w.
Proof.
  intros Hm Hf Hq Hl. destruct (Hm Hq ltac:(lia)) as (w1 & E1 & Hd1 & Hq1 & Hl1).
  destruct (Hf w1 Hd1 Hq1 ltac:(lia)) as (w2 & E2 & Hd2 & Hq2 & Hl2).
  exists w2. unfold bind. rewrite E1, Hd2. split_and!; [done..|lia].
Qed.

Lemma idle_call {A} o (f : turn -> wdb -> result store_error A * wdb) a w :
  (forall t, f t (db w) = (a, db w)) -> idle 1 (call o f) a w.
Proof.
  intros Hf Hq Hl. destruct (turns w) as [|t rest] eqn:Et; [cbn in Hl; lia|]. inversion Hq; subst.
  rewrite (call_quiet _ _ _ _ _ Et) by done. rewrite Hf. eexists. split; [done|]. cbn. split_and!; [done..|lia].
Qed.

(** Nothing is claimed: the release finds no row. *)
Lemma idle_release job prior w :
  (forall r, r ∈ w_notes (db w) -> row_id r = Jobs.NoteID job -> row_job r = None) -> idle 1 (releaseTranscribeClaim job prior) tt w.
Proof.
  intros Hc. unfold releaseTranscribeClaim. destruct (prior =? "")%string; [by apply (idle_more 0), Nat.le_0_l; apply idle_ret|].
  apply (idle_bind 1 0 _ _ (Ok tt)); [|intros; apply idle_ret]. apply idle_call. intros t. rewrite lift_notes_eq. f_equal.
  unfold ReleaseNoteTranscriptionClaim. cbn [snd]. rewrite update_where_unmatched; [apply put_notes_same|].
  intros r Hr. apply not_true_iff_false.
  intros [[Hi%String.eqb_eq _]%andb_true_iff Hj]%andb_true_iff. specialize (Hc r Hr Hi). unfold claimed_by in Hj.
  apply bool_decide_eq_true in Hj. congruence.
Qed.

(** The job of a note that is at another generation and that nobody claims. *)
Lemma idle_stale job pl w :
  unmarshalT (Jobs.Payload job) = Some pl -> Published pl = false ->
  CurrentTranscriptGeneration (Jobs.NoteID job) (w_tdb (db w)) <> ExpectedGeneration pl ->
  (forall r, r ∈ w_notes (db w) -> row_id r = Jobs.NoteID job -> row_job r = None) ->
  idle 2 (runTranscribe job) (false, None) w.
Proof.
  intros Hp Hpub Hg Hc. unfold runTranscribe. rewrite Hp. apply (idle_bind 2 0 _ _ (Err (false, None))); [|intros; apply idle_ret].
  unfold transcribe_body. apply (idle_bind 2 0 _ _ (Err (false, None))); [|intros; apply idle_ret].
  unfold check_generation. rewrite Hpub. apply (idle_bind 1 1 _ _ (Ok (CurrentTranscriptGeneration (Jobs.NoteID job) (w_tdb (db w))))).
  { apply (idle_bind 1 0 _ _ (Ok (CurrentTranscriptGeneration (Jobs.NoteID job) (w_tdb (db w)))));
      [by apply idle_call|intros; apply idle_ret]. }
  intros w' Hd. destruct (Z.eqb_spec (CurrentTranscriptGeneration (Jobs.NoteID job) (w_tdb (db w))) (ExpectedGeneration pl)); [done|].
  cbn [negb]. apply (idle_bind 1 0 _ _ tt); [|intros; apply idle_ret].
  destruct (negb _); [|by apply (idle_more 0), Nat.le_0_l; apply idle_ret]. apply idle_release. by rewrite Hd.
Qed.

(** [w'] has the tables of [w], the job's row apart, which is done. *)
Definition only_completed (job : Job) (w w' : world) : Prop :=
  exists at_, db w' = put_jobs (CompleteJob at_ (Jobs.ID job) (w_jobs (db w))).2 (db w).

Lemma only_completed_from job w1 w w' : db w1 = db w -> only_completed job w1 w' -> only_completed job w w'.
Proof. intros E [at_ H]. exists at_. by rewrite <- E. Qed.

Lemma completes job w :
  (1 <= length (turns w))%nat -> Forall quiet (turns w) ->
  exists r w', call OpSettle (fun t => lift_jobs (CompleteJob (now t) (Jobs.ID job))) w = (Some r, w') /\ only_completed job w w'.
Proof.
  intros Hl Hq. destruct (turns w) as [|t rest] eqn:Et; [cbn in Hl; lia|]. inversion Hq; subst.
  rewrite (call_quiet _ _ _ _ _ Et) by done. rewrite lift_jobs_eq. eexists _, _. split; [done|]. by exists (now t).
Qed.

Variable run_other : Job -> M outcome.
Variable other_terminal : Job -> run_error -> M unit.
Variable error_text : run_error -> string.

(** A job that stops without an error is completed and that is all. *)
Lemma clean_stop_completes job w :
  Type_ job = JobTranscribe -> Forall quiet (turns w) -> (4 <= length (turns w))%nat ->
  (forall w', db w' = db w -> idle 2 (runTranscribe job) (false, None) w') ->
  (ProcessJob run_other other_terminal error_text job w).1 = Some tt /\
  only_completed job w (ProcessJob run_other other_terminal error_text job w).2.
Proof.
  intros Ht Hq Hl Hrun. unfold ProcessJob.
  assert (Htr : exists b, idle 1 (if negb (Jobs.NoteID job =? "")%string
    then let! r := call OpRead (fun _ => lift_notes (fun x => (@Ok store_error _ (NoteIsTrashed (Jobs.NoteID job) x), x))) in
         ret (match r with Ok b => b | Err _ => false end) else ret false) b w).
  { destruct (negb _); [|exists false; by apply (idle_more 0), Nat.le_0_l; apply idle_ret].
    exists (NoteIsTrashed (Jobs.NoteID job) (notes_tables (db w))).
    apply (idle_bind 1 0 _ _ (Ok (NoteIsTrashed (Jobs.NoteID job) (notes_tables (db w))))); [|intros; apply idle_ret].
    apply idle_call. intros t. rewrite lift_notes_eq. f_equal. apply put_notes_same. }
  destruct Htr as [b Htr]. destruct (Htr Hq ltac:(lia)) as (w1 & E1 & Hd1 & Hq1 & Hl1). rewrite (bind_step _ _ _ _ _ E1).
  destruct b.
  - destruct (completes job w1) as (r & w' & E & Hc); [lia|done|]. rewrite (bind_step _ _ _ _ _ E).
    split; [done|]. exact (only_completed_from _ _ _ _ Hd1 Hc).
  - destruct (Hrun w1 Hd1 Hq1 ltac:(lia)) as (w2 & E2 & Hd2 & Hq2 & Hl2).
    assert (E2' : run_job run_other job w1 = (Some (false, None), w2)) by (unfold run_job; by rewrite Ht).
    rewrite (bind_step _ _ _ _ _ E2'). destruct (completes job w2) as (r & w' & E & Hc); [lia|done|].
    unfold settle, unless_error. rewrite (bind_step _ _ _ _ _ E), Ht.
    assert (Hd := only_completed_from _ _ _ _ (eq_trans Hd2 Hd1) Hc). by destruct r.
Qed.
End Lost.

(** ** The last summarize job *)

Section Last.
Context {Out : Outside}.
Variable n : string.

(** The note is there with its transcript, and no summarize job of it is active. *)
Definition finishable (d : wdb) : Prop :=
  prior_transcript n (w_tdb d) <> None /\ CountActiveSummarizeJobs n (w_jobs d) = 0%nat /\
  exists r, r ∈ w_notes d /\ row_id r = n.

(** The others leave it so. *)
Definition respectful (t : turn) : Prop := undisturbed t /\ forall d, finishable d -> finishable (others t d).

(** A call found the note ready or made it so. *)
Definition seen_ready (w : world) : Prop :=
  exists c r, c ∈ log w /\ c_op c = OpReady /\ r ∈ w_notes (c_after c) /\ row_id r = n /\ row_status r = NoteReady.

Definition ready_to_finish (k : nat) (w : world) : Prop :=
  Forall respectful (turns w) /\ (k <= length (turns w))%nat /\ finishable (db w).

Lemma next_call {A} o (f : turn -> wdb -> result store_error A * wdb) k w :
  ready_to_finish (S k) w -> (forall t d, finishable d -> finishable (f t d).2) ->
  exists t d w', finishable d /\ call o f w = (Some (f t d).1, w') /\ ready_to_finish k w' /\
    log w' = log w ++ [mkCall o d (f t d).2].
Proof.
  intros (Hq & Hl & Hf) Hk. destruct (turns w) as [|t rest] eqn:Et; [cbn in Hl; lia|]. inversion Hq as [|? ? [Hr Ho] Hq']; subst.
  exists t, (others t (db w)). eexists. split; [by apply Ho|]. split; [by apply call_runs|]. cbn.
  split; [|done]. split; [done|]. split; [cbn in *; lia|]. by apply Hk, Ho.
Qed.

Lemma log_grows {A} (m : M A) w : emits (fun _ => True) (fun _ => True) m -> exists l, log (m w).2 = log w ++ l.
Proof. intros Hm. destruct (Hm w) as (l & ? & _). by exists l. Qed.

Lemma any_call {A} o (f : turn -> wdb -> result store_error A * wdb) : emits (fun _ => True) (fun _ => True) (call o f).
Proof. by apply emits_call. Qed.

Lemma any_then {A B} (m : M A) (k : A -> M B) :
  emits (fun _ => True) (fun _ => True) m -> (forall a, emits (fun _ => True) (fun _ => True) (k a)) ->
  emits (fun _ => True) (fun _ => True) (bind m k).
Proof. intros Hm Hk. apply (emits_bind _ (fun _ => True)); auto. Qed.

Lemma any_ret {A} (a : A) : emits (fun _ => True) (fun _ => True) (ret a).
Proof. by apply emits_ret. Qed.

Lemma any_deliveries i hooks body : emits (fun _ => True) (fun _ => True) (create_deliveries i hooks body).
Proof.
  revert i. induction hooks as [|wh rest IH]; intros i; cbn [create_deliveries]; [apply any_ret|].
  apply any_then; [apply any_call|]. intros. apply IH.
Qed.

Ltac any_calls :=
  repeat first
    [apply any_call | apply any_ret | apply any_deliveries
    | apply any_then; [|intros] | apply emits_unless_error; [|intros]
    | match goal with |- emits _ _ (match ?x with _ => _ end) => destruct x end].

Lemma after_ready_calls tr : emits (fun _ => True) (fun _ => True)
  (let! _ := maybeExtractActionItems n tr in
   let! _ := if has_embedder cfg
             then let! _ := call OpEmbed (fun t => lift_sdb (fun s =>
                    let '(r, x) := EnqueueNoteJob (job_keys_ok s) fresh_embed (now t) n JobEmbed "" (s_jobs s) in
                    (r, with_jobs x s))) in ret tt
             else ret tt in
   enqueueNoteCompletedWebhooks n tr).
Proof. unfold maybeExtractActionItems, enqueueNoteCompletedWebhooks, readySummarySections, get_summaries. any_calls. Qed.

Lemma seen_ready_grows {A} (m : M A) w : emits (fun _ => True) (fun _ => True) m -> seen_ready w -> seen_ready (m w).2.
Proof.
  intros Hm (c & r & Hc & H). destruct (log_grows m w Hm) as [l Hl]. exists c, r. rewrite Hl. set_solver.
Qed.

(** Whoever readies the note leaves it ready, won or lost. *)
Lemma MarkNoteReady_leaves now' d :
  finishable d -> exists r, r ∈ t_notes (MarkNoteReady now' n (notes_tables d)).2 /\ row_id r = n /\ row_status r = NoteReady.
Proof.
  intros (_ & _ & r & Hr & Hi). unfold MarkNoteReady. cbn [snd]. rewrite notes_tables_notes.
  destruct (note_is n r && negb (status_is NoteReady r)) eqn:E.
  - exists (touch now' (set_status NoteReady r)). split; [|by destruct r]. apply elem_of_update_where. exists r. by rewrite E.
  - exists r. split; [apply elem_of_update_where; exists r; by rewrite E|]. split; [done|].
    apply andb_false_iff in E as [E%String.eqb_neq|E%negb_false_iff%String.eqb_eq]; done.
Qed.

Lemma finishable_notes now' d : finishable d -> finishable (put_notes (t_notes (MarkNoteReady now' n (notes_tables d)).2) d).
Proof.
  intros Hf. destruct (MarkNoteReady_leaves now' d Hf) as (r & Hr & Hi & _). destruct Hf as (Ht & Hc & _).
  split_and!; [done..|]. by exists r.
Qed.

Lemma FinalizeNote_readies w : ready_to_finish 3 w -> seen_ready (FinalizeNote n w).2.
Proof.
  intros Hw. unfold FinalizeNote, unless_error.
  destruct (next_call OpRead (fun _ => reads (fun d => GetTranscript n (w_tdb d))) 2 w Hw) as (t1 & d1 & w1 & Hf1 & E1 & Hw1 & _);
    [done|].
  rewrite (bind_step _ _ _ _ _ E1). cbn [fst reads]. unfold GetTranscript, getTranscriptTx.
  destruct (prior_transcript n (w_tdb d1)) as [x|] eqn:Ex; [|by destruct Hf1].
  destruct (next_call OpRead (fun _ => reads (fun d => @Ok store_error _ (CountActiveSummarizeJobs n (w_jobs d)))) 1 w1 Hw1)
    as (t2 & d2 & w2 & Hf2 & E2 & Hw2 & _); [done|].
  rewrite (bind_step _ _ _ _ _ E2). cbn [fst reads]. destruct Hf2 as (_ & -> & _). cbn [Nat.ltb Nat.leb].
  destruct (next_call OpReady (fun t => lift_notes (fun x => let '(won, x) := MarkNoteReady (now t) n x in (@Ok store_error _ won, x)))
    0 w2 Hw2) as (t3 & d3 & w3 & Hf3 & E3 & _ & Hl3).
  { intros t d Hd. rewrite lift_notes_eq. assert (H := finishable_notes (now t) d Hd). by destruct (MarkNoteReady _ _ _). }
  rewrite (bind_step _ _ _ _ _ E3).
  assert (Hs : seen_ready w3).
  { destruct (MarkNoteReady_leaves (now t3) d3 Hf3) as (r & Hr & Hi & Hs). eexists _, r. rewrite Hl3.
    split; [apply elem_of_app; right; by left|].
    split; [done|]. cbn [c_after]. rewrite lift_notes_eq. cbn [snd]. destruct (MarkNoteReady _ _ _). done. }
  destruct (lift_notes _ d3).1 as [[]|]; cbn [negb]; [|done..].
  apply seen_ready_grows; [|done]. apply after_ready_calls.
Qed.

(** *** Settling *)

Variable other_terminal : Job -> run_error -> M unit.
Variable error_text : run_error -> string.

(** What the call that settles the job's row answers and leaves. *)
Definition settles (job : Job) (o : outcome) (t : turn) (d : wdb) : result store_error unit * wdb :=
  match o with
  | (retryable, Some err) => lift_jobs (FailJob (now t) (clock t) (Jobs.ID job) (error_text err) retryable) d
  | (_, None) => lift_jobs (CompleteJob (now t) (Jobs.ID job)) d
  end.

(** The job is the one in the table, a summarize job of the note. *)
Definition job_row_of (job : Job) (d : wdb) : Prop :=
  exists r, select_where (Jobs.has_id (Jobs.ID job)) (w_jobs d) = [r] /\
    r_type r = JobSummarize /\ r_note_id r = Some n /\ r_attempts r = Attempts job.

(** A failed job that is not terminal is still active. *)
Lemma failed_still_active job retryable err now' clock' t t' :
  (exists r, select_where (Jobs.has_id (Jobs.ID job)) t = [r] /\
    r_type r = JobSummarize /\ r_note_id r = Some n /\ r_attempts r = Attempts job) ->
  FailJob now' clock' (Jobs.ID job) err retryable t = (Ok tt, t') -> CountActiveSummarizeJobs n t' = 0%nat ->
  negb retryable || (MaxJobAttempts <=? Attempts job)%Z = true.
Proof.
  intros (r & Hr & Ht & Hn & Ha). unfold FailJob, job_attempts, fail_write. rewrite Hr. destruct (unique_ok _); [|done]. intros [= <-] Hc.
  apply not_false_iff_true. intros [Hy%negb_false_iff Hm%Z.leb_gt]%orb_false_iff. subst retryable.
  assert (Hx : r ∈ t /\ Jobs.has_id (Jobs.ID job) r = true) by (apply elem_of_select_where; rewrite Hr; by left).
  unfold CountActiveSummarizeJobs in Hc.
  assert (Hp : (0 < rows_affected (is_active_summarize n) (update_where (Jobs.has_id (Jobs.ID job))
    (failed_row now' err (fail_status clock' (r_attempts r) true)) t))%nat); [|lia].
  apply rows_affected_pos. eexists. split; [apply elem_of_update_where; exists r; split; [apply Hx|]; by rewrite (proj2 Hx)|].
  unfold fail_status. rewrite Ha. apply Z.ltb_lt in Hm. rewrite Hm. cbn.
  unfold is_active_summarize. cbn. rewrite Ht, Hn. by rewrite bool_decide_true.
Qed.

Lemma summary_call_finishable id d : finishable d -> finishable (lift_sdb (FailSummary id) d).2.
Proof.
  intros Hf. rewrite lift_sdb_eq. cbn [snd]. unfold FailSummary, update_summary. destruct (_ =? 0)%nat; cbn [snd]; [by rewrite set_sdb_same|].
  exact Hf.
Qed.

Lemma settle_readies job o w t0 rest :
  n = Jobs.NoteID job -> Type_ job = JobSummarize -> turns w = t0 :: rest -> undisturbed t0 ->
  job_row_of job (others t0 (db w)) ->
  (settles job o t0 (others t0 (db w))).1 = Ok tt -> finishable (settles job o t0 (others t0 (db w))).2 ->
  Forall respectful rest -> (4 <= length rest)%nat ->
  seen_ready (settle other_terminal error_text job o w).2.
Proof.
  intros Hn Hty Ht Hr Hrow Hok Hf Hq Hl. unfold settle, unless_error. destruct o as [retryable [err|]]; cbn [settles] in *.
  - rewrite (bind_step _ _ _ _ _ (call_runs _ _ _ _ _ Ht Hr)). cbn [fst]. rewrite Hok.
    set (w1 := {| db := _ |}). assert (Hw1 : ready_to_finish 4 w1) by (by split_and!).
    rewrite lift_jobs_eq in Hok, Hf. cbn [fst snd] in Hok, Hf.
    destruct (FailJob (now t0) (clock t0) (Jobs.ID job) (error_text err) retryable (w_jobs (others t0 (db w)))) as [r js] eqn:Ef.
    cbn in Hok, Hf. subst r. clearbody w1.
    rewrite (failed_still_active job retryable (error_text err) (now t0) (clock t0) _ js Hrow Ef (proj1 (proj2 Hf))). cbn [negb].
    unfold handleTerminalFailure. rewrite Hty. cbn [String.eqb]. rewrite <- Hn. cbn -[call FinalizeNote].
    assert (Hfin : forall w2, ready_to_finish 3 w2 -> seen_ready (FinalizeNote n w2).2) by apply FinalizeNote_readies.
    assert (Hless : ready_to_finish 3 w1) by (destruct Hw1 as (? & ? & ?); split_and!; [done|lia|done]).
    destruct (unmarshalS (Jobs.Payload job)) as [pl|]; [|by apply Hfin].
    destruct (pl_SummaryID pl =? "")%string; [by apply Hfin|].
    destruct (next_call OpSummary (fun _ => lift_sdb (FailSummary (pl_SummaryID pl))) 3 w1 Hw1) as (t2 & d2 & w2 & _ & E2 & Hw2 & _);
      [intros ? ?; apply summary_call_finishable|].
    assert (E : (let! _ := call OpSummary (fun _ => lift_sdb (FailSummary (pl_SummaryID pl))) in ret tt) w1 = (Some tt, w2))
      by (by rewrite (bind_step _ _ _ _ _ E2)).
    rewrite (bind_step _ _ _ _ _ E). by apply Hfin.
  - rewrite (bind_step _ _ _ _ _ (call_runs _ _ _ _ _ Ht Hr)). cbn [fst]. rewrite Hok, Hty. cbn [String.eqb]. rewrite <- Hn.
    apply FinalizeNote_readies. split_and!; [done|cbn; lia|done].
Qed.
End Last.

(** ** Properties *)

(** C15. A lost checkpoint strands the note.  Suppose a transcribe job saved its
    transcript but the record of that in its payload was lost (its write failed,
    or the process died before it).  The retry then finds the generation its own
    save produced, takes the transcript for a foreign one and returns without an
    error: the job is completed and nothing else is changed, so no summaries are
    enqueued, and the note keeps the status it had, which is transcribing. *)
Theorem lost_checkpoint_strands {Out : Outside} run_other other_terminal error_text job pl uuid fresh tr d t d' w :
  unmarshalT (Jobs.Payload job) = Some pl -> Published pl = false -> Type_ job = JobTranscribe ->
  T_NoteID tr = Jobs.NoteID job -> SaveTranscript uuid fresh tr (ExpectedGeneration pl) d = (Ok t, d') ->
  w_tdb (db w) = d' -> Forall quiet (turns w) -> (4 <= length (turns w))%nat ->
  (ProcessJob run_other other_terminal error_text job w).1 = Some tt /\
  only_completed job w (ProcessJob run_other other_terminal error_text job w).2.
Proof.
  intros Hp Hpub Ht Hn Hs Hd Hq Hl. apply clean_stop_completes; [done..|]. intros w' Hw'.
  assert (Hg := Hs). apply Save_current in Hg. rewrite Hn in Hg.
  apply (idle_stale job pl); [done..| |]; rewrite Hw'; [rewrite Hd; lia|].
  intros r Hr Hi. rewrite <- Hn in Hi. unfold w_notes in Hr. rewrite Hd in Hr. by eapply Save_clears_claim.
Qed.

(** C14. The last summarize job readies the note, if no store call of its
    settlement fails.  The job's own row is settled before the note's active
    summarize jobs are counted.  So suppose that the write of the settlement
    succeeds and after it the note is there with its transcript and no summarize
    job of it is active; that the other sessions, whatever they do between the
    calls, keep it so; and that none of the next calls fails ([FinalizeNote]
    returns silently when one does, and the note is then not readied).  Then
    before the settlement is over the note has been ready, with five store calls
    at most up to there. *)
Theorem last_summary_readies {Out : Outside} n other_terminal error_text job o w t0 rest :
  n = Jobs.NoteID job -> Type_ job = JobSummarize -> turns w = t0 :: rest -> undisturbed t0 ->
  job_row_of n job (others t0 (db w)) ->
  (settles error_text job o t0 (others t0 (db w))).1 = Ok tt ->
  finishable n (settles error_text job o t0 (others t0 (db w))).2 ->
  Forall (respectful n) rest -> (4 <= length rest)%nat ->
  seen_ready n (settle other_terminal error_text job o w).2.
Proof. apply settle_readies. Qed.

(** Finalization happens once per transition.  [FinalizeNote] readies a note
    only after it counted its active summarize jobs and found none; and it
    extracts action items, enqueues the embedding and creates webhook deliveries
    only after its own call moved the note from another status to ready.  It
    writes nothing else. *)
Theorem finalize_follows_win {Out : Outside} n w :
  exists l, log (FinalizeNote n w).2 = log w ++ l /\ each (finalize_call n) l.
Proof.
  destruct (finalize_step n w (log w) []) as (l & Hl & HI & _); [by rewrite app_nil_r|apply each_nil|done|].
  by exists l.
Qed.

(** ** Witnesses and examples *)

Module RunsDemo.
Open Scope string_scope.

Definition nothing (_ : Job) : M outcome := ret (false, None).
Definition no_terminal (_ : Job) (_ : run_error) : M unit := ret tt.
Definition no_text (_ : run_error) : string := "error".

(** The checkpoint's write fails. *)
Definition first_run : Job := demo_run (new_payload 0).
Definition broken : world := (runTranscribe first_run (in_world uploaded (repeat step 6 ++ [failing Fails]))).2.
Definition saving : wdb := c_before (List.nth 5 (log broken) (mkCall OpRead uploaded uploaded)).
Definition saved_batch : Transcript := {|
  T_ID := ""; T_NoteID := "n"; TranscriberPlugin := "p1"; T_Model := "base"; T_Segments := rs_Segments (demo_response false);
  ReviewState := ""; StreamID := None; Sealed := false; Generation := 0; Gaps := [] |}.
Definition stored := SaveTranscript fresh_transcript fresh_segment saved_batch 0 (w_tdb saving).
Definition saved : Transcript := match stored.1 with Ok t => t | Err _ => saved_batch end.
Definition retried : Job := demo_run (claimed_payload 0).

Lemma lost_checkpoint_strands_witness :
  (runTranscribe first_run (in_world uploaded (repeat step 6 ++ [failing Fails]))).1 = Some (true, Some (StoreFailed DbError)) /\
  map r_payload (w_jobs (db broken)) = [print_transcribe (claimed_payload 0)] /\
  map row_status (w_notes (db broken)) = [NoteTranscribing] /\
  (ProcessJob nothing no_terminal no_text retried (in_world (db broken) (repeat step 4))).1 = Some tt /\
  only_completed retried (in_world (db broken) (repeat step 4))
    (ProcessJob nothing no_terminal no_text retried (in_world (db broken) (repeat step 4))).2.
Proof.
  split; [by vm_compute|]. split; [by vm_compute|]. split; [by vm_compute|].
  apply (lost_checkpoint_strands nothing no_terminal no_text retried (claimed_payload 0) fresh_transcript fresh_segment
           saved_batch (w_tdb saving) saved stored.2 (in_world (db broken) (repeat step 4)));
    [by vm_compute..| |cbn; lia]. by repeat constructor.
Defined.

(** A transcriber that broke off: the checkpoint is written, the check that
    follows it fails, and the retry clears the flag it should have set and
    summarizes the partial transcript. *)
Definition interrupted : world :=
  (@runTranscribe (demo_with true) first_run (in_world uploaded (repeat step 7 ++ [failing Fails]))).2.
Definition resumed : world :=
  (@runTranscribe (demo_with true) (demo_run (published_payload 0)) (in_world (db interrupted) (repeat step 20))).2.

Example partial_transcript_summarised :
  (@runTranscribe (demo_with true) first_run (in_world uploaded (repeat step 20))).1
    = Some (false, Some (PartialTranscript "")) /\
  map row_partial (w_notes (db (@runTranscribe (demo_with true) first_run (in_world uploaded (repeat step 20))).2)) = [true] /\
  map r_payload (w_jobs (db interrupted)) = [print_transcribe (published_payload 0)] /\
  map row_partial (w_notes (db resumed)) = [false] /\ map row_status (w_notes (db resumed)) = [NoteSummarizing] /\
  length (s_summaries (w_sdb (db resumed))) = 2%nat.
Proof. by vm_compute. Qed.

(** Both summarize jobs are running; the other worker completes [sj1] just before
    this one settles [sj0]. *)
Definition started (r : job_row) : job_row := Jobs.set_status JobRunning (Some 900%Z) None 5 r.
Definition fanned_out : wdb :=
  let d := db (runTranscribe first_run (in_world uploaded (repeat step 20))).2 in put_jobs (map started (w_jobs d)) d.
Definition other_worker : turn := {|
  others := fun d => put_jobs (CompleteJob 6 "sj1" (w_jobs d)).2 d; now := 7; clock := 7; outcome_of := Runs |}.
Definition sj0 : Job :=
  scan_claim (hd (demo_job_row "") (select_where (Jobs.has_id "sj0") (w_jobs fanned_out))).

Lemma steps_respectful n k : Forall (respectful n) (repeat step k).
Proof. induction k; cbn; [constructor|]. constructor; [by split|done]. Qed.

Lemma last_summary_readies_witness :
  map row_status (w_notes fanned_out) = [NoteSummarizing] /\
  CountActiveSummarizeJobs "n" (w_jobs fanned_out) = 2%nat /\
  seen_ready "n" (settle no_terminal no_text sj0 (false, None) (in_world fanned_out (other_worker :: repeat step 12))).2.
Proof.
  split; [by vm_compute|]. split; [by vm_compute|].
  apply (last_summary_readies "n" no_terminal no_text sj0 (false, None)
           (in_world fanned_out (other_worker :: repeat step 12)) other_worker (repeat step 12));
    try by vm_compute.
  - eexists. vm_compute. by repeat split.
  - split_and!; [by vm_compute..|]. eexists. vm_compute. by repeat split; [left|].
  - apply steps_respectful.
  - cbn. lia.
Defined.
End RunsDemo.
