(* ===== verification/AgentTables.v ===== *)
(** The tables of templates and of what templates generate: calendar events and
    their briefs ([event_briefs]), live transcripts and their prompts
    ([live_template_outputs]), and the jobs of both.

    [output_row] is a row of [live_template_outputs].  The columns of
    [event_briefs], [calendar_events] and [calendar_sources] are not nullable
    where the Go structs are not, so [EventBrief], [CalendarEvent] and
    [CalendarSource] are rows and structs at once; JSON columns are kept as what
    they encode.  [k_drawn] counts the fresh ids drawn so far and [k_notified]
    lists the payloads of the [NOTIFY]s that have been committed, latest last. *)

From stdpp Require Import base list strings sets gmap.
From Stdlib Require Import ZArith Lia.
From S2P Require Import GoInt GoStrings Sql Transactions Jobs Folders Execution Notes Transcripts Templates Summaries.

Local Open Scope string_scope.

Record output_row := mkOutput {
  lo_id : string; lo_note : string; lo_template : string; lo_stream : string; lo_owner : string;
  lo_desired : Z; lo_rendered : Z; lo_version : Z; lo_status : string; lo_visible : bool; lo_cancel : option Z;
  lo_sections : list SummarySection; lo_agent : option string; lo_model : option string; lo_error : option string;
  lo_started : option Z; lo_demand : Z; lo_updated : Z; lo_ended : option Z; lo_job : option string }.

Record Attendee := { at_Name : string; at_Email : string; Response : string }.

Record CalendarEvent := mkCalendarEvent {
  ce_ID : string; ce_OwnerID : string; ce_SourceID : string; ExternalID : string; ce_Title : string;
  StartsAt : Z; EndsAt : Z; Description : string; Location : string; ConferencingURL : string;
  Attendees : list Attendee; ce_UpdatedAt : Z }.

Record CalendarSource := mkSource {
  cs_ID : string; cs_OwnerID : string; cs_Kind : string; DisplayName : string; cs_credentials : string;
  SelectedCalendars : gmap string bool; cs_Status : string; LastSyncedAt : option Z; cs_CreatedAt : Z }.

Record EventBrief := mkBrief {
  br_ID : string; br_EventID : string; br_TemplateID : string; br_TemplateName : string; InputHash : option string;
  br_Generation : Z; br_Status : string; br_AgentPlugin : string; br_Model : string; br_Sections : list SummarySection;
  br_CreatedAt : Z; br_UpdatedAt : Z }.

Record adb := mkAdb {
  k_templates : list template_row; k_summaries : list summary_row; k_notes : list note_row;
  k_transcripts : list transcript_row; k_segments : list segment_row; k_outputs : list output_row;
  k_jobs : jobs; k_sources : list CalendarSource; k_events : list CalendarEvent; k_briefs : list EventBrief;
  k_drawn : nat; k_notified : list string }.

Definition put_templates (x : list template_row) (d : adb) : adb :=
  let 'mkAdb _ u n t s o j c e b f l := d in mkAdb x u n t s o j c e b f l.
Definition put_summaries (x : list summary_row) (d : adb) : adb :=
  let 'mkAdb m _ n t s o j c e b f l := d in mkAdb m x n t s o j c e b f l.
Definition put_notes (x : list note_row) (d : adb) : adb :=
  let 'mkAdb m u _ t s o j c e b f l := d in mkAdb m u x t s o j c e b f l.
Definition put_outputs (x : list output_row) (d : adb) : adb :=
  let 'mkAdb m u n t s _ j c e b f l := d in mkAdb m u n t s x j c e b f l.
Definition put_jobs (x : jobs) (d : adb) : adb :=
  let 'mkAdb m u n t s o _ c e b f l := d in mkAdb m u n t s o x c e b f l.
Definition put_sources (x : list CalendarSource) (d : adb) : adb :=
  let 'mkAdb m u n t s o j _ e b f l := d in mkAdb m u n t s o j x e b f l.
Definition put_events (x : list CalendarEvent) (d : adb) : adb :=
  let 'mkAdb m u n t s o j c _ b f l := d in mkAdb m u n t s o j c x b f l.
Definition put_briefs (x : list EventBrief) (d : adb) : adb :=
  let 'mkAdb m u n t s o j c e _ f l := d in mkAdb m u n t s o j c e x f l.
Definition draw (d : adb) : adb :=
  let 'mkAdb m u n t s o j c e b f l := d in mkAdb m u n t s o j c e b (S f) l.
Definition notify (noteID : string) (d : adb) : adb :=
  let 'mkAdb m u n t s o j c e b f l := d in mkAdb m u n t s o j c e b f (l ++ [noteID])%list.

(** The tables of [Transcripts]. *)
Definition put_tdb (x : tdb) (d : adb) : adb :=
  let 'mkAdb m u _ _ _ o j c e b f l := d in mkAdb m u (d_notes x) (d_transcripts x) (d_segments x) o j c e b f l.

(** [uuid.NewString()]: the next id of the process's supply. *)
Definition NewString (uuid : nat -> string) : Tx adb string :=
  fun d => Ok (uuid (k_drawn d), draw d).

Definition event_is (id : string) (e : CalendarEvent) : bool := (ce_ID e =? id)%string.
Definition brief_is (id : string) (b : EventBrief) : bool := (br_ID b =? id)%string.
Definition output_is (id : string) (o : output_row) : bool := (lo_id o =? id)%string.

(** The foreign keys of a new job. *)
Definition job_references (d : adb) (r : job_row) : bool :=
  match r_note_id r with None => true | Some n => exists_where (note_is n) (k_notes d) end &&
  match r_calendar_event_id r with None => true | Some e => exists_where (event_is e) (k_events d) end &&
  match r_live_output_id r with None => true | Some o => exists_where (output_is o) (k_outputs d) end.

Definition insert_job_tx (r : job_row) : Tx adb unit := fun d =>
  match insert_job (job_references d) r (k_jobs d) with
  | (Ok _, t) => Ok (tt, put_jobs t d)
  | (Err e, _) =>
      if row_checks r && (exists_where (Jobs.has_id (r_id r)) (k_jobs d) || negb (unique_ok (k_jobs d ++ [r])))
      then Err UniqueViolation else Err e
  end.
