(* ===== verification/TablesProps.v ===== *)
(** Laws of [AgentTables]: what each setter leaves of the other tables (the
    rewrite database [tables]), and inserting and deleting jobs. *)

From stdpp Require Import base list strings sets gmap.
From Stdlib Require Import ZArith Lia.
From S2P Require Import GoInt GoStrings Sql Transactions Jobs JobsProps Folders Execution Notes Transcripts Templates.
From S2P Require Import Summaries AgentTables.

Local Open Scope string_scope.
Local Open Scope list_scope.

Create Rewrite HintDb tables.

(** ** Setters *)

Lemma put_templates_templates x d : k_templates (put_templates x d) = x.
Proof. by destruct d. Qed.
Lemma put_templates_summaries x d : k_summaries (put_templates x d) = k_summaries d.
Proof. by destruct d. Qed.
Lemma put_templates_notes x d : k_notes (put_templates x d) = k_notes d.
Proof. by destruct d. Qed.
Lemma put_templates_transcripts x d : k_transcripts (put_templates x d) = k_transcripts d.
Proof. by destruct d. Qed.
Lemma put_templates_segments x d : k_segments (put_templates x d) = k_segments d.
Proof. by destruct d. Qed.
Lemma put_templates_outputs x d : k_outputs (put_templates x d) = k_outputs d.
Proof. by destruct d. Qed.
Lemma put_templates_jobs x d : k_jobs (put_templates x d) = k_jobs d.
Proof. by destruct d. Qed.
Lemma put_templates_sources x d : k_sources (put_templates x d) = k_sources d.
Proof. by destruct d. Qed.
Lemma put_templates_events x d : k_events (put_templates x d) = k_events d.
Proof. by destruct d. Qed.
Lemma put_templates_briefs x d : k_briefs (put_templates x d) = k_briefs d.
Proof. by destruct d. Qed.
Lemma put_templates_drawn x d : k_drawn (put_templates x d) = k_drawn d.
Proof. by destruct d. Qed.
Lemma put_templates_notified x d : k_notified (put_templates x d) = k_notified d.
Proof. by destruct d. Qed.
Lemma put_summaries_templates x d : k_templates (put_summaries x d) = k_templates d.
Proof. by destruct d. Qed.
Lemma put_summaries_summaries x d : k_summaries (put_summaries x d) = x.
Proof. by destruct d. Qed.
Lemma put_summaries_notes x d : k_notes (put_summaries x d) = k_notes d.
Proof. by destruct d. Qed.
Lemma put_summaries_transcripts x d : k_transcripts (put_summaries x d) = k_transcripts d.
Proof. by destruct d. Qed.
Lemma put_summaries_segments x d : k_segments (put_summaries x d) = k_segments d.
Proof. by destruct d. Qed.
Lemma put_summaries_outputs x d : k_outputs (put_summaries x d) = k_outputs d.
Proof. by destruct d. Qed.
Lemma put_summaries_jobs x d : k_jobs (put_summaries x d) = k_jobs d.
Proof. by destruct d. Qed.
Lemma put_summaries_sources x d : k_sources (put_summaries x d) = k_sources d.
Proof. by destruct d. Qed.
Lemma put_summaries_events x d : k_events (put_summaries x d) = k_events d.
Proof. by destruct d. Qed.
Lemma put_summaries_briefs x d : k_briefs (put_summaries x d) = k_briefs d.
Proof. by destruct d. Qed.
Lemma put_summaries_drawn x d : k_drawn (put_summaries x d) = k_drawn d.
Proof. by destruct d. Qed.
Lemma put_summaries_notified x d : k_notified (put_summaries x d) = k_notified d.
Proof. by destruct d. Qed.
Lemma put_notes_templates x d : k_templates (put_notes x d) = k_templates d.
Proof. by destruct d. Qed.
Lemma put_notes_summaries x d : k_summaries (put_notes x d) = k_summaries d.
Proof. by destruct d. Qed.
Lemma put_notes_notes x d : k_notes (put_notes x d) = x.
Proof. by destruct d. Qed.
Lemma put_notes_transcripts x d : k_transcripts (put_notes x d) = k_transcripts d.
Proof. by destruct d. Qed.
Lemma put_notes_segments x d : k_segments (put_notes x d) = k_segments d.
Proof. by destruct d. Qed.
Lemma put_notes_outputs x d : k_outputs (put_notes x d) = k_outputs d.
Proof. by destruct d. Qed.
Lemma put_notes_jobs x d : k_jobs (put_notes x d) = k_jobs d.
Proof. by destruct d. Qed.
Lemma put_notes_sources x d : k_sources (put_notes x d) = k_sources d.
Proof. by destruct d. Qed.
Lemma put_notes_events x d : k_events (put_notes x d) = k_events d.
Proof. by destruct d. Qed.
Lemma put_notes_briefs x d : k_briefs (put_notes x d) = k_briefs d.
Proof. by destruct d. Qed.
Lemma put_notes_drawn x d : k_drawn (put_notes x d) = k_drawn d.
Proof. by destruct d. Qed.
Lemma put_notes_notified x d : k_notified (put_notes x d) = k_notified d.
Proof. by destruct d. Qed.
Lemma put_outputs_templates x d : k_templates (put_outputs x d) = k_templates d.
Proof. by destruct d. Qed.
Lemma put_outputs_summaries x d : k_summaries (put_outputs x d) = k_summaries d.
Proof. by destruct d. Qed.
Lemma put_outputs_notes x d : k_notes (put_outputs x d) = k_notes d.
Proof. by destruct d. Qed.
Lemma put_outputs_transcripts x d : k_transcripts (put_outputs x d) = k_transcripts d.
Proof. by destruct d. Qed.
Lemma put_outputs_segments x d : k_segments (put_outputs x d) = k_segments d.
Proof. by destruct d. Qed.
Lemma put_outputs_outputs x d : k_outputs (put_outputs x d) = x.
Proof. by destruct d. Qed.
Lemma put_outputs_jobs x d : k_jobs (put_outputs x d) = k_jobs d.
Proof. by destruct d. Qed.
Lemma put_outputs_sources x d : k_sources (put_outputs x d) = k_sources d.
Proof. by destruct d. Qed.
Lemma put_outputs_events x d : k_events (put_outputs x d) = k_events d.
Proof. by destruct d. Qed.
Lemma put_outputs_briefs x d : k_briefs (put_outputs x d) = k_briefs d.
Proof. by destruct d. Qed.
Lemma put_outputs_drawn x d : k_drawn (put_outputs x d) = k_drawn d.
Proof. by destruct d. Qed.
Lemma put_outputs_notified x d : k_notified (put_outputs x d) = k_notified d.
Proof. by destruct d. Qed.
Lemma put_jobs_templates x d : k_templates (put_jobs x d) = k_templates d.
Proof. by destruct d. Qed.
Lemma put_jobs_summaries x d : k_summaries (put_jobs x d) = k_summaries d.
Proof. by destruct d. Qed.
Lemma put_jobs_notes x d : k_notes (put_jobs x d) = k_notes d.
Proof. by destruct d. Qed.
Lemma put_jobs_transcripts x d : k_transcripts (put_jobs x d) = k_transcripts d.
Proof. by destruct d. Qed.
Lemma put_jobs_segments x d : k_segments (put_jobs x d) = k_segments d.
Proof. by destruct d. Qed.
Lemma put_jobs_outputs x d : k_outputs (put_jobs x d) = k_outputs d.
Proof. by destruct d. Qed.
Lemma put_jobs_jobs x d : k_jobs (put_jobs x d) = x.
Proof. by destruct d. Qed.
Lemma put_jobs_sources x d : k_sources (put_jobs x d) = k_sources d.
Proof. by destruct d. Qed.
Lemma put_jobs_events x d : k_events (put_jobs x d) = k_events d.
Proof. by destruct d. Qed.
Lemma put_jobs_briefs x d : k_briefs (put_jobs x d) = k_briefs d.
Proof. by destruct d. Qed.
Lemma put_jobs_drawn x d : k_drawn (put_jobs x d) = k_drawn d.
Proof. by destruct d. Qed.
Lemma put_jobs_notified x d : k_notified (put_jobs x d) = k_notified d.
Proof. by destruct d. Qed.
Lemma put_sources_templates x d : k_templates (put_sources x d) = k_templates d.
Proof. by destruct d. Qed.
Lemma put_sources_summaries x d : k_summaries (put_sources x d) = k_summaries d.
Proof. by destruct d. Qed.
Lemma put_sources_notes x d : k_notes (put_sources x d) = k_notes d.
Proof. by destruct d. Qed.
Lemma put_sources_transcripts x d : k_transcripts (put_sources x d) = k_transcripts d.
Proof. by destruct d. Qed.
Lemma put_sources_segments x d : k_segments (put_sources x d) = k_segments d.
Proof. by destruct d. Qed.
Lemma put_sources_outputs x d : k_outputs (put_sources x d) = k_outputs d.
Proof. by destruct d. Qed.
Lemma put_sources_jobs x d : k_jobs (put_sources x d) = k_jobs d.
Proof. by destruct d. Qed.
Lemma put_sources_sources x d : k_sources (put_sources x d) = x.
Proof. by destruct d. Qed.
Lemma put_sources_events x d : k_events (put_sources x d) = k_events d.
Proof. by destruct d. Qed.
Lemma put_sources_briefs x d : k_briefs (put_sources x d) = k_briefs d.
Proof. by destruct d. Qed.
Lemma put_sources_drawn x d : k_drawn (put_sources x d) = k_drawn d.
Proof. by destruct d. Qed.
Lemma put_sources_notified x d : k_notified (put_sources x d) = k_notified d.
Proof. by destruct d. Qed.
Lemma put_events_templates x d : k_templates (put_events x d) = k_templates d.
Proof. by destruct d. Qed.
Lemma put_events_summaries x d : k_summaries (put_events x d) = k_summaries d.
Proof. by destruct d. Qed.
Lemma put_events_notes x d : k_notes (put_events x d) = k_notes d.
Proof. by destruct d. Qed.
Lemma put_events_transcripts x d : k_transcripts (put_events x d) = k_transcripts d.
Proof. by destruct d. Qed.
Lemma put_events_segments x d : k_segments (put_events x d) = k_segments d.
Proof. by destruct d. Qed.
Lemma put_events_outputs x d : k_outputs (put_events x d) = k_outputs d.
Proof. by destruct d. Qed.
Lemma put_events_jobs x d : k_jobs (put_events x d) = k_jobs d.
Proof. by destruct d. Qed.
Lemma put_events_sources x d : k_sources (put_events x d) = k_sources d.
Proof. by destruct d. Qed.
Lemma put_events_events x d : k_events (put_events x d) = x.
Proof. by destruct d. Qed.
Lemma put_events_briefs x d : k_briefs (put_events x d) = k_briefs d.
Proof. by destruct d. Qed.
Lemma put_events_drawn x d : k_drawn (put_events x d) = k_drawn d.
Proof. by destruct d. Qed.
Lemma put_events_notified x d : k_notified (put_events x d) = k_notified d.
Proof. by destruct d. Qed.
Lemma put_briefs_templates x d : k_templates (put_briefs x d) = k_templates d.
Proof. by destruct d. Qed.
Lemma put_briefs_summaries x d : k_summaries (put_briefs x d) = k_summaries d.
Proof. by destruct d. Qed.
Lemma put_briefs_notes x d : k_notes (put_briefs x d) = k_notes d.
Proof. by destruct d. Qed.
Lemma put_briefs_transcripts x d : k_transcripts (put_briefs x d) = k_transcripts d.
Proof. by destruct d. Qed.
Lemma put_briefs_segments x d : k_segments (put_briefs x d) = k_segments d.
Proof. by destruct d. Qed.
Lemma put_briefs_outputs x d : k_outputs (put_briefs x d) = k_outputs d.
Proof. by destruct d. Qed.
Lemma put_briefs_jobs x d : k_jobs (put_briefs x d) = k_jobs d.
Proof. by destruct d. Qed.
Lemma put_briefs_sources x d : k_sources (put_briefs x d) = k_sources d.
Proof. by destruct d. Qed.
Lemma put_briefs_events x d : k_events (put_briefs x d) = k_events d.
Proof. by destruct d. Qed.
Lemma put_briefs_briefs x d : k_briefs (put_briefs x d) = x.
Proof. by destruct d. Qed.
Lemma put_briefs_drawn x d : k_drawn (put_briefs x d) = k_drawn d.
Proof. by destruct d. Qed.
Lemma put_briefs_notified x d : k_notified (put_briefs x d) = k_notified d.
Proof. by destruct d. Qed.
Lemma draw_templates d : k_templates (draw d) = k_templates d.
Proof. by destruct d. Qed.
Lemma draw_summaries d : k_summaries (draw d) = k_summaries d.
Proof. by destruct d. Qed.
Lemma draw_notes d : k_notes (draw d) = k_notes d.
Proof. by destruct d. Qed.
Lemma draw_transcripts d : k_transcripts (draw d) = k_transcripts d.
Proof. by destruct d. Qed.
Lemma draw_segments d : k_segments (draw d) = k_segments d.
Proof. by destruct d. Qed.
Lemma draw_outputs d : k_outputs (draw d) = k_outputs d.
Proof. by destruct d. Qed.
Lemma draw_jobs d : k_jobs (draw d) = k_jobs d.
Proof. by destruct d. Qed.
Lemma draw_sources d : k_sources (draw d) = k_sources d.
Proof. by destruct d. Qed.
Lemma draw_events d : k_events (draw d) = k_events d.
Proof. by destruct d. Qed.
Lemma draw_briefs d : k_briefs (draw d) = k_briefs d.
Proof. by destruct d. Qed.
Lemma draw_drawn d : k_drawn (draw d) = S (k_drawn d).
Proof. by destruct d. Qed.
Lemma draw_notified d : k_notified (draw d) = k_notified d.
Proof. by destruct d. Qed.
Lemma notify_templates n d : k_templates (notify n d) = k_templates d.
Proof. by destruct d. Qed.
Lemma notify_summaries n d : k_summaries (notify n d) = k_summaries d.
Proof. by destruct d. Qed.
Lemma notify_notes n d : k_notes (notify n d) = k_notes d.
Proof. by destruct d. Qed.
Lemma notify_transcripts n d : k_transcripts (notify n d) = k_transcripts d.
Proof. by destruct d. Qed.
Lemma notify_segments n d : k_segments (notify n d) = k_segments d.
Proof. by destruct d. Qed.
Lemma notify_outputs n d : k_outputs (notify n d) = k_outputs d.
Proof. by destruct d. Qed.
Lemma notify_jobs n d : k_jobs (notify n d) = k_jobs d.
Proof. by destruct d. Qed.
Lemma notify_sources n d : k_sources (notify n d) = k_sources d.
Proof. by destruct d. Qed.
Lemma notify_events n d : k_events (notify n d) = k_events d.
Proof. by destruct d. Qed.
Lemma notify_briefs n d : k_briefs (notify n d) = k_briefs d.
Proof. by destruct d. Qed.
Lemma notify_drawn n d : k_drawn (notify n d) = k_drawn d.
Proof. by destruct d. Qed.
Lemma notify_notified n d : k_notified (notify n d) = (k_notified d ++ [n])%list.
Proof. by destruct d. Qed.
Lemma put_templates_same d : put_templates (k_templates d) d = d.
Proof. by destruct d. Qed.
Lemma put_summaries_same d : put_summaries (k_summaries d) d = d.
Proof. by destruct d. Qed.
Lemma keep_notes d : put_notes (k_notes d) d = d.
Proof. by destruct d. Qed.
Lemma put_outputs_same d : put_outputs (k_outputs d) d = d.
Proof. by destruct d. Qed.
Lemma put_jobs_same d : put_jobs (k_jobs d) d = d.
Proof. by destruct d. Qed.
Lemma put_sources_same d : put_sources (k_sources d) d = d.
Proof. by destruct d. Qed.
Lemma put_events_same d : put_events (k_events d) d = d.
Proof. by destruct d. Qed.
Lemma put_briefs_same d : put_briefs (k_briefs d) d = d.
Proof. by destruct d. Qed.

#[export] Hint Rewrite put_templates_templates put_templates_summaries put_templates_notes put_templates_transcripts
  put_templates_segments put_templates_outputs put_templates_jobs put_templates_sources put_templates_events
  put_templates_briefs put_templates_drawn put_templates_notified put_summaries_templates
  put_summaries_summaries put_summaries_notes put_summaries_transcripts put_summaries_segments
  put_summaries_outputs put_summaries_jobs put_summaries_sources put_summaries_events put_summaries_briefs
  put_summaries_drawn put_summaries_notified put_notes_templates put_notes_summaries put_notes_notes
  put_notes_transcripts put_notes_segments put_notes_outputs put_notes_jobs put_notes_sources put_notes_events
  put_notes_briefs put_notes_drawn put_notes_notified put_outputs_templates put_outputs_summaries
  put_outputs_notes put_outputs_transcripts put_outputs_segments put_outputs_outputs put_outputs_jobs
  put_outputs_sources put_outputs_events put_outputs_briefs put_outputs_drawn put_outputs_notified
  put_jobs_templates put_jobs_summaries put_jobs_notes put_jobs_transcripts put_jobs_segments put_jobs_outputs
  put_jobs_jobs put_jobs_sources put_jobs_events put_jobs_briefs put_jobs_drawn put_jobs_notified
  put_sources_templates put_sources_summaries put_sources_notes put_sources_transcripts put_sources_segments
  put_sources_outputs put_sources_jobs put_sources_sources put_sources_events put_sources_briefs
  put_sources_drawn put_sources_notified put_events_templates put_events_summaries put_events_notes
  put_events_transcripts put_events_segments put_events_outputs put_events_jobs put_events_sources
  put_events_events put_events_briefs put_events_drawn put_events_notified put_briefs_templates
  put_briefs_summaries put_briefs_notes put_briefs_transcripts put_briefs_segments put_briefs_outputs
  put_briefs_jobs put_briefs_sources put_briefs_events put_briefs_briefs put_briefs_drawn put_briefs_notified
  draw_templates draw_summaries draw_notes draw_transcripts draw_segments draw_outputs draw_jobs draw_sources
  draw_events draw_briefs draw_drawn draw_notified notify_templates notify_summaries notify_notes
  notify_transcripts notify_segments notify_outputs notify_jobs notify_sources notify_events notify_briefs
  notify_drawn notify_notified put_templates_same put_summaries_same keep_notes put_outputs_same
  put_jobs_same put_sources_same put_events_same put_briefs_same : tables.

Ltac tables := autorewrite with tables in *.

(** ** Jobs *)

Lemma unique_ok_delete p (t : jobs) : unique_ok t = true -> unique_ok (delete_where p t) = true.
Proof.
  unfold delete_where. induction t as [|r t IH]; [done|]. cbn. intros [Hn Hu]%andb_true_iff.
  destruct (p r); cbn; [auto|]. rewrite (IH Hu), andb_true_r. apply negb_true_iff in Hn. apply negb_true_iff. rewrite <- not_true_iff_false in *.
  intros (x & Hx & Hc)%existsb_exists. apply Hn, existsb_exists. exists x. by apply filter_In in Hx as [? _].
Qed.

Lemma jobs_inv_delete p (t : jobs) : jobs_inv t -> jobs_inv (delete_where p t).
Proof.
  intros (Hall & Hnd & Hu). split; [|split; [by apply NoDup_map_delete|by apply unique_ok_delete]].
  rewrite Forall_forall in *. intros x [Hx _]%elem_of_delete_where. auto.
Qed.

Lemma insert_job_ok r d u d' :
  insert_job_tx r d = Ok (u, d') ->
  d' = put_jobs (k_jobs d ++ [r]) d /\ job_references d r = true /\
  insert_job (job_references d) r (k_jobs d) = (Ok tt, k_jobs d ++ [r]).
Proof.
  unfold insert_job_tx. destruct (insert_job _ r _) as [[u'|e] t] eqn:Ei; [|by destruct (row_checks r && _)].
  intros [=]. subst. assert (H : t = k_jobs d ++ [r] /\ job_references d r = true).
  { revert Ei. unfold insert_job. destruct (row_checks r && _ && _ && _) eqn:E; [|done]. intros [= _ <-].
    by apply andb_true_iff in E as [[[_ E]%andb_true_iff _]%andb_true_iff _]. }
  destruct H as [-> H]. by destruct u'.
Qed.

Lemma unique_ok_append (t : jobs) r : unique_ok t = true -> (forall x, x ∈ t -> conflicts x r = false) -> unique_ok (t ++ [r]) = true.
Proof.
  induction t as [|x t IH]; [done|]. cbn. intros [Hn Hu]%andb_true_iff Hc. rewrite IH by (done || (intros; apply Hc; by right)).
  rewrite existsb_app. cbn. rewrite (Hc x) by left. by rewrite !orb_false_r, andb_true_r.
Qed.

Lemma insert_job_total r d :
  row_checks r = true -> job_references d r = true -> (forall x, x ∈ k_jobs d -> r_id x <> r_id r) ->
  jobs_inv (k_jobs d) -> (forall x, x ∈ k_jobs d -> conflicts x r = false) ->
  insert_job_tx r d = Ok (tt, put_jobs (k_jobs d ++ [r]) d).
Proof.
  intros Hc Hr Hid (_ & _ & Hu) Hx. unfold insert_job_tx, insert_job. rewrite Hc, Hr, (unique_ok_append _ _ Hu Hx).
  assert (exists_where (Jobs.has_id (r_id r)) (k_jobs d) = false) as ->; [|done].
  apply exists_where_false. intros x Hin. by apply String.eqb_neq, Hid.
Qed.

Lemma unique_ok_no_conflict (t : jobs) r x : unique_ok (t ++ [r]) = true -> conflicts x r = true -> x ∈ t -> False.
Proof.
  induction t as [|y t IH]; [by intros _ _ ?%elem_of_nil|]. cbn. intros [Hn Hu]%andb_true_iff Hc [->|Hx]%elem_of_cons; [|by apply IH].
  rewrite existsb_app in Hn. cbn in Hn. by rewrite Hc, orb_true_r in Hn.
Qed.
