(* ===== verification/Live.v ===== *)
(** Live prompts: [internal/store/live_templates.go] and
    [internal/store/live_subscriptions.go].

    While a note is being recorded, each of the owner's live templates (phase
    "during", [auto_run]) keeps one output per transcript stream up to date.  A
    handler's transaction is a [Tx] on the tables of [AgentTables]; [dbnow] is
    the database clock, [now] the process's, [uuid] its supply of fresh ids.
    Revisions count segments and fit their columns. *)

From stdpp Require Import base list strings sets gmap.
From Stdlib Require Import ZArith Lia.
From S2P Require Import GoInt GoStrings Sql Transactions Jobs Folders Execution Notes Transcripts Templates Summaries.
From S2P Require Import AgentTables.

Local Open Scope string_scope.
Local Open Scope tx_scope.

Definition MaxLiveTemplates : nat := 8.
Definition LiveScheduleCadence : Z := (15 * second)%Z.
Definition LiveStaleRecoveryAge : Z := (3600 * second)%Z.

Definition LiveOutputPending : string := "pending".
Definition LiveOutputRunning : string := "running".
Definition LiveOutputReady : string := "ready".
Definition LiveOutputFailed : string := "failed".
Definition live_statuses : list string := [LiveOutputPending; LiveOutputRunning; LiveOutputReady; LiveOutputFailed].

Record LiveTemplateOutput := {
  out_ID : string; out_NoteID : string; out_TemplateID : string; out_TemplateName : string; out_StreamID : string;
  out_OwnerID : string; DesiredRevision : Z; RenderedRevision : Z; EventVersion : Z; out_Status : string;
  ClientVisible : bool; CancellationRequestedAt : option Z; out_Sections : list SummarySection;
  out_AgentPlugin : string; out_Model : string; ErrorCode : string; LastStartedAt : option Z; LastDemandAt : Z;
  out_UpdatedAt : Z; out_EndedAt : option Z; ActiveJobID : string }.

Definition scanLiveOutput (name : string) (r : output_row) : LiveTemplateOutput := {|
  out_ID := lo_id r; out_NoteID := lo_note r; out_TemplateID := lo_template r; out_TemplateName := name;
  out_StreamID := lo_stream r; out_OwnerID := lo_owner r; DesiredRevision := lo_desired r;
  RenderedRevision := lo_rendered r; EventVersion := lo_version r; out_Status := lo_status r;
  ClientVisible := lo_visible r; CancellationRequestedAt := lo_cancel r; out_Sections := lo_sections r;
  out_AgentPlugin := default "" (lo_agent r); out_Model := default "" (lo_model r);
  ErrorCode := default "" (lo_error r); LastStartedAt := lo_started r; LastDemandAt := lo_demand r;
  out_UpdatedAt := lo_updated r; out_EndedAt := lo_ended r; ActiveJobID := default "" (lo_job r) |}.

(** ** [SET] clauses *)

Definition hide (now : Z) (r : output_row) : output_row :=
  let 'mkOutput i n t s o de re v st _ _ se ag mo er sa dm _ en j := r in
  mkOutput i n t s o de re (v + 1)%Z st false (Some now) se ag mo er sa dm now en j.
Definition demand (revision now : Z) (r : output_row) : output_row :=
  let 'mkOutput i n t s o _ re v st vi ca se ag mo er sa _ _ en j := r in
  mkOutput i n t s o revision re (v + 1)%Z st vi ca se ag mo er sa now now en j.
Definition queue (jobID : string) (now : Z) (r : output_row) : output_row :=
  let 'mkOutput i n t s o de re v _ vi ca se ag mo er sa dm _ en _ := r in
  mkOutput i n t s o de re v LiveOutputPending vi ca se ag mo er sa dm now en (Some jobID).
Definition start (now : Z) (r : output_row) : output_row :=
  let 'mkOutput i n t s o de re v _ vi ca se ag mo er _ dm _ en j := r in
  mkOutput i n t s o de re (v + 1)%Z LiveOutputRunning vi ca se ag mo er (Some now) dm now en j.
Definition publish (agent model : string) (sections : list SummarySection) (target now : Z) (r : output_row) : output_row :=
  let 'mkOutput i n t s o de _ v _ vi ca _ _ _ _ sa dm _ en _ := r in
  mkOutput i n t s o de target (v + 1)%Z LiveOutputReady vi ca sections (Some agent) (Some model) None sa dm now en None.
Definition record_failure (code : string) (now : Z) (r : output_row) : output_row :=
  let 'mkOutput i n t s o de re v _ vi ca se ag mo _ sa dm _ en _ := r in
  mkOutput i n t s o de re (v + 1)%Z LiveOutputFailed vi ca se ag mo (Some code) sa dm now en None.

(** ** Statements *)

Definition update_output (id : string) (f : output_row -> output_row) : Tx adb unit :=
  tx_write (fun d => put_outputs (update_where (output_is id) f (k_outputs d)) d).

(** [jobs.live_output_id] is a foreign key with [ON DELETE CASCADE]. *)
Definition job_of_output (id : string) (r : job_row) : bool := bool_decide (r_live_output_id r = Some id).
Definition delete_output (id : string) : Tx adb unit :=
  tx_write (fun d => put_jobs (delete_where (job_of_output id) (k_jobs d))
    (put_outputs (delete_where (output_is id) (k_outputs d)) d)).

Definition same_output (r r' : output_row) : bool :=
  (lo_note r =? lo_note r')%string && (lo_template r =? lo_template r')%string && (lo_stream r =? lo_stream r')%string.

Definition insert_output (r : output_row) : Tx adb unit := fun d =>
  if negb (bool_decide (lo_status r ∈ live_statuses)) then Err DbError
  else if exists_where (output_is (lo_id r)) (k_outputs d) || exists_where (same_output r) (k_outputs d)
  then Err UniqueViolation
  else if exists_where (note_is (lo_note r)) (k_notes d) && exists_where (template_is (lo_template r)) (k_templates d)
  then Ok (tt, put_outputs (k_outputs d ++ [r])%list d)
  else Err DbError.

Definition update_jobs (p : job_row -> bool) (f : job_row -> job_row) : Tx adb unit :=
  tx_write (fun d => put_jobs (update_where p f (k_jobs d)) d).

Definition cancelled_row (dbnow : Z) (r : job_row) : job_row :=
  Jobs.set_status JobCancelled (r_lease r) (r_finished r) dbnow r.

Definition notifyLiveNoteTx (noteID : string) : Tx adb unit := tx_write (notify noteID).

Section Live.
(** Postgres's [lower], the order of text and the order of uuids. *)
Variable lower : string -> string.
Variable name_lt id_lt : string -> string -> bool.
Variable uuid : nat -> string.

(** ** Eligible templates *)

(** [ORDER BY (owner_id IS NULL) DESC, lower(name), id] *)
Definition visible_before (a b : template_row) : bool :=
  template_before lower name_lt a b ||
  (Bool.eqb (built_in a) (built_in b) && negb (name_lt (lower (tp_name b)) (lower (tp_name a))) &&
   negb (name_lt (lower (tp_name a)) (lower (tp_name b))) && id_lt (tp_id a) (tp_id b)).

Definition is_live (ownerID : string) (r : template_row) : bool :=
  sees ownerID r && (tp_phase r =? templatePhaseDuring)%string && tp_auto_run r.

Definition visibleLiveEligibleTemplatesTx (ownerID : string) (t : list template_row) : list Template :=
  map (scan_template true) (order_by visible_before (select_where (is_live ownerID) t)).

Definition EligibleLiveTemplatesTx (ownerID : string) (t : list template_row) : list Template * list Template :=
  let all := visibleLiveEligibleTemplatesTx ownerID t in
  if (MaxLiveTemplates <? length all)%nat then (take MaxLiveTemplates all, drop MaxLiveTemplates all) else (all, []).

Definition countOtherEligibleLiveTemplatesTx (ownerID excludeID : string) (t : list template_row) : nat :=
  if (excludeID =? "")%string then rows_affected (is_live ownerID) t
  else rows_affected (fun r => is_live ownerID r && negb (template_is excludeID r)) t.

Definition validateLiveTemplateCap (ownerID excludeID phase : string) (autoRun : bool) (t : list template_row)
  : result store_error unit :=
  if negb (phase =? templatePhaseDuring)%string || negb autoRun then Ok tt
  else if (MaxLiveTemplates <=? countOtherEligibleLiveTemplatesTx ownerID excludeID t)%nat
  then Err (ValidationError "at most 8 live (during-phase, auto-run) templates may be enabled")
  else Ok tt.

(** ** Streams *)

Record activeLiveStream := { st_NoteID : string; st_TranscriptID : string; st_StreamID : string }.

(** [notes n JOIN transcripts t]: the pairs in the order of the notes. *)
Definition activeLiveStreamsForOwnerTx (ownerID : string) (d : adb) : list activeLiveStream :=
  flat_map (fun n => flat_map (fun t =>
      match ts_stream t with
      | Some s => if (ts_note t =? row_id n)%string && negb (ts_sealed t)
                  then [{| st_NoteID := row_id n; st_TranscriptID := ts_id t; st_StreamID := s |}] else []
      | None => []
      end) (k_transcripts d))
    (select_where (fun n => owned ownerID n && row_live n) (k_notes d)).

(** The transcript and stream, or [None] for [ok=false]. *)
Definition currentStreamForNoteTx (noteID : string) (d : adb) : option (string * string) :=
  match head (select_where (of_note noteID) (k_transcripts d)) with
  | None => None
  | Some t => match ts_stream t with
              | None => None
              | Some s => if ts_sealed t then None else Some (ts_id t, s)
              end
  end.

Definition finalizedRevisionTx (transcriptID : string) (d : adb) : Z :=
  Z.of_nat (rows_affected (fun s => (sg_transcript s =? transcriptID)%string) (k_segments d)).

Definition output_on (noteID streamID : string) (r : output_row) : bool :=
  (lo_note r =? noteID)%string && (lo_stream r =? streamID)%string.

Definition lockLiveOutputsForStreamTx (noteID streamID : string) (d : adb) : list LiveTemplateOutput :=
  map (scanLiveOutput "") (order_by (fun a b => id_lt (lo_template a) (lo_template b))
    (select_where (output_on noteID streamID) (k_outputs d))).

(** ** Scheduling *)

Definition not_before (started : option Z) (now : Z) : Z :=
  match started with
  | None => now
  | Some s => let cand := (s + LiveScheduleCadence)%Z in if (now <? cand)%Z then cand else now
  end.

Definition live_job (jobID : string) (o : LiveTemplateOutput) (lease dbnow : Z) : job_row :=
  Jobs.mkRow jobID (Some (out_NoteID o)) None None None (Some (out_TemplateID o)) (Some (out_StreamID o))
    (Some (out_ID o)) None JobLiveGenerate JobPending 0 None 0 "{}" (Some lease) None None dbnow dbnow.

Definition scheduleLiveJobTx (dbnow now : Z) (o : LiveTemplateOutput) : Tx adb unit :=
  tx! jobID := NewString uuid in
  tx! _ := insert_job_tx (live_job jobID o (not_before (LastStartedAt o) now) dbnow) in
  update_output (out_ID o) (queue jobID now).

(** ** Reconciliation *)

(** The branches for a row whose template is not eligible, or whose stream
    has ended; each of them changes a row. *)
Definition retire (dbnow now : Z) (o : LiveTemplateOutput) : Tx adb bool :=
  if negb (ActiveJobID o =? "")%string && (out_Status o =? LiveOutputRunning)%string then
    tx! _ := update_output (out_ID o) (hide now) in
    tx_ret true
  else if negb (ActiveJobID o =? "")%string then
    tx! _ := update_jobs (pending_with_id (ActiveJobID o)) (cancelled_row dbnow) in
    tx! _ := delete_output (out_ID o) in
    tx_ret true
  else
    tx! _ := delete_output (out_ID o) in
    tx_ret true.

Definition new_output (id noteID templateID streamID ownerID : string) (revision now : Z) : output_row :=
  mkOutput id noteID templateID streamID ownerID revision 0 1 LiveOutputPending true None [] None None None None now now
    None None.

(** The body of the loop over the eligible templates. *)
Definition advance (dbnow now revision : Z) (ownerID noteID streamID : string) (existing : list LiveTemplateOutput)
    (t : Template) : Tx adb bool :=
  match List.find (fun o => (out_TemplateID o =? tm_ID t)%string) existing with
  | None =>
      if (revision <=? 0)%Z then tx_ret false
      else
        tx! id := NewString uuid in
        let r := new_output id noteID (tm_ID t) streamID ownerID revision now in
        tx! _ := insert_output r in
        tx! _ := scheduleLiveJobTx dbnow now (scanLiveOutput "" r) in
        tx_ret true
  | Some o =>
      tx! changed := (if (DesiredRevision o <? revision)%Z
                      then tx! _ := update_output (out_ID o) (demand revision now) in tx_ret true
                      else tx_ret false) in
      if (ActiveJobID o =? "")%string && (0 <? revision)%Z
      then tx! _ := scheduleLiveJobTx dbnow now o in tx_ret true
      else tx_ret changed
  end.

Definition applyEligibilityTx (dbnow now : Z) (ownerID noteID transcriptID streamID : string) : Tx adb bool :=
  tx! revision := tx_read (finalizedRevisionTx transcriptID) in
  tx! eligible := tx_read (fun d => (EligibleLiveTemplatesTx ownerID (k_templates d)).1) in
  tx! existing := tx_read (lockLiveOutputsForStreamTx noteID streamID) in
  let stays o := existsb (fun t => (tm_ID t =? out_TemplateID o)%string) eligible in
  tx! retired := tx_any (retire dbnow now) (List.filter (fun o => negb (stays o)) existing) in
  tx! advanced := tx_any (advance dbnow now revision ownerID noteID streamID existing) eligible in
  let changed := retired || advanced in
  tx! _ := (if changed then notifyLiveNoteTx noteID else tx_ret tt) in
  tx_ret changed.

Definition ReconcileStreamDemandTx (dbnow now : Z) (ownerID noteID transcriptID streamID : string) : Tx adb bool :=
  tx! row := tx_read (fun d => head (select_where (fun t => (ts_id t =? transcriptID)%string) (k_transcripts d))) in
  match row with
  | None => tx_ret false
  | Some t => if negb (bool_decide (ts_stream t = Some streamID)) || ts_sealed t then tx_ret false
              else applyEligibilityTx dbnow now ownerID noteID transcriptID streamID
  end.

Definition ReconcileOwnerEligibilityTx (dbnow now : Z) (ownerID : string) : Tx adb unit :=
  tx! streams := tx_read (activeLiveStreamsForOwnerTx ownerID) in
  tx_each (fun st => tx! _ := applyEligibilityTx dbnow now ownerID (st_NoteID st) (st_TranscriptID st) (st_StreamID st) in
                     tx_ret tt) streams.

Definition EndLiveTemplateStream (dbnow now : Z) (noteID streamID : string) : Tx adb bool :=
  tx! rows := tx_read (lockLiveOutputsForStreamTx noteID streamID) in
  tx! changed := tx_any (retire dbnow now) rows in
  tx! _ := (if changed then notifyLiveNoteTx noteID else tx_ret tt) in
  tx_ret changed.

(** ** Reading *)

(** [live_template_outputs o JOIN templates t JOIN notes n], in the order of the
    templates. *)
Definition listVisibleLiveTemplateOutputsTx (ownerID noteID : string) (d : adb) : list LiveTemplateOutput :=
  flat_map (fun t => map (scanLiveOutput (tp_name t))
      (select_where (fun o => (lo_template o =? tp_id t)%string && (lo_owner o =? ownerID)%string &&
          (lo_note o =? noteID)%string && lo_visible o &&
          exists_where (fun n => note_is (lo_note o) n && row_live n) (k_notes d)) (k_outputs d)))
    (order_by visible_before (k_templates d)).

Definition ListVisibleLiveTemplateOutputs (ownerID noteID : string) (d : adb) : list LiveTemplateOutput :=
  listVisibleLiveTemplateOutputsTx ownerID noteID d.

Record LiveNoteSnapshot := { snap_StreamID : string; snap_Active : bool; snap_Items : list LiveTemplateOutput }.

(** One repeatable-read transaction. *)
Definition liveNoteSnapshot (ownerID noteID : string) (d : adb) : result store_error LiveNoteSnapshot :=
  if negb (exists_where (fun n => note_is noteID n && owned ownerID n && row_live n) (k_notes d)) then Err ErrNotFound
  else
    let stream := currentStreamForNoteTx noteID d in
    Ok {| snap_StreamID := match stream with Some (_, s) => s | None => "" end;
          snap_Active := match stream with Some _ => true | None => false end;
          snap_Items := listVisibleLiveTemplateOutputsTx ownerID noteID d |}.

Definition CurrentLiveStreamID (noteID : string) (d : adb) : string * bool :=
  match currentStreamForNoteTx noteID d with Some (_, s) => (s, true) | None => ("", false) end.

(** [ORDER BY start_ms, id LIMIT $2] *)
Definition prefix_before (a b : segment_row) : bool :=
  starts_before a b || (negb (starts_before b a) && id_lt (sg_id a) (sg_id b)).

Definition LiveTranscriptPrefix (transcriptID : string) (limit : nat) (d : adb) : list Segment :=
  map sg_data (take limit (order_by prefix_before
    (select_where (fun s => (sg_transcript s =? transcriptID)%string) (k_segments d)))).

(** ** Recovery *)

(** [LEFT JOIN transcripts t ... WHERE t.id IS NULL OR o.last_demand_at < cutoff] *)
Definition stale (cutoff : Z) (d : adb) (o : output_row) : bool :=
  negb (exists_where (fun t => of_note (lo_note o) t && bool_decide (ts_stream t = Some (lo_stream o)) &&
          negb (ts_sealed t)) (k_transcripts d)) || (lo_demand o <? cutoff)%Z.

Definition recovery_page (now : Z) (limit : Z) (locked : output_row -> bool) (d : adb) : list output_row :=
  let limit := if (limit <=? 0)%Z then 200%Z else limit in
  take (Z.to_nat limit) (order_by (fun a b => id_lt (lo_id a) (lo_id b))
    (select_where (fun o => stale (now - LiveStaleRecoveryAge) d o && negb (locked o)) (k_outputs d))).

Definition pending_of_output (id : string) (r : job_row) : bool :=
  job_of_output id r && (r_status r =? JobPending)%string.

(** The ids in the order of their first occurrence. *)
Definition first_seen (l : list string) : list string :=
  foldl (fun seen x => if bool_decide (x ∈ seen) then seen else (seen ++ [x])%list) [] l.

(** [locked] are the rows other transactions hold ([SKIP LOCKED]). *)
Definition RecoverLiveTemplateOutputs (dbnow now limit : Z) (locked : output_row -> bool)
  : Tx adb (list string * nat) :=
  tx! page := tx_read (recovery_page now limit locked) in
  tx! _ := tx_each (fun o =>
      tx! _ := update_jobs (pending_of_output (lo_id o)) (cancelled_row dbnow) in
      delete_output (lo_id o)) page in
  let noteIDs := first_seen (map lo_note page) in
  tx! _ := tx_each notifyLiveNoteTx noteIDs in
  tx_ret (noteIDs, length page).

(** ** Claiming and completing a run *)

Definition get_output (id : string) (d : adb) : option output_row :=
  head (select_where (output_is id) (k_outputs d)).

Definition is_eligible (ownerID templateID : string) (d : adb) : bool :=
  existsb (fun t => (tm_ID t =? templateID)%string) (EligibleLiveTemplatesTx ownerID (k_templates d)).1.

(** [None] is [Valid=false]. *)
Record LiveClaimResult := { claim_Output : LiveTemplateOutput; claim_Target : Z; claim_TranscriptID : string }.

Definition with_started (now : Z) (o : LiveTemplateOutput) : LiveTemplateOutput := {|
  out_ID := out_ID o; out_NoteID := out_NoteID o; out_TemplateID := out_TemplateID o;
  out_TemplateName := out_TemplateName o; out_StreamID := out_StreamID o; out_OwnerID := out_OwnerID o;
  DesiredRevision := DesiredRevision o; RenderedRevision := RenderedRevision o; EventVersion := EventVersion o;
  out_Status := LiveOutputRunning; ClientVisible := ClientVisible o;
  CancellationRequestedAt := CancellationRequestedAt o; out_Sections := out_Sections o;
  out_AgentPlugin := out_AgentPlugin o; out_Model := out_Model o; ErrorCode := ErrorCode o;
  LastStartedAt := Some now; LastDemandAt := LastDemandAt o; out_UpdatedAt := out_UpdatedAt o;
  out_EndedAt := out_EndedAt o; ActiveJobID := ActiveJobID o |}.

(** [UPDATE jobs SET target_revision = COALESCE(...) RETURNING target_revision];
    no row is an error of the scan. *)
Definition capture_target (dbnow : Z) (jobID : string) (revision : Z) : Tx adb Z := fun d =>
  match SetJobTargetRevisionIfNull dbnow jobID revision (k_jobs d) with
  | (Ok v, t) => Ok (v, put_jobs t d)
  | (Err _, _) => Err DbError
  end.

(** The transcript a claim of [output] reads, if the claim is valid. *)
Definition claim_stream (job : Job) (output : LiveTemplateOutput) (d : adb) : option string :=
  if negb (ActiveJobID output =? Jobs.ID job)%string then None
  else match currentStreamForNoteTx (out_NoteID output) d with
       | None => None
       | Some (transcriptID, streamID) =>
           if (streamID =? Jobs.StreamID job)%string && (streamID =? out_StreamID output)%string &&
              is_eligible (out_OwnerID output) (out_TemplateID output) d
           then Some transcriptID else None
       end.

Definition ClaimLiveGenerateJobTx (dbnow now : Z) (job : Job) : Tx adb (option LiveClaimResult) :=
  tx! row := tx_read (get_output (LiveOutputID job)) in
  match scanLiveOutput "" <$> row with
  | None => tx_ret None
  | Some output =>
      tx! stream := tx_read (claim_stream job output) in
      match stream with
      | None => tx! _ := delete_output (out_ID output) in tx_ret None
      | Some transcriptID =>
          tx! target := capture_target dbnow (Jobs.ID job) (DesiredRevision output) in
          tx! _ := update_output (out_ID output) (start now) in
          tx! _ := notifyLiveNoteTx (out_NoteID output) in
          tx_ret (Some {| claim_Output := with_started now output; claim_Target := target;
                          claim_TranscriptID := transcriptID |})
      end
  end.

(** [None] is [ok=false]; otherwise the output if its row is still there, the
    job's target and whether the run may publish. *)
Definition liveCompletionFenceTx (jobID : string) (d : adb)
  : option (option LiveTemplateOutput * option Z * bool) :=
  match head (select_where (Jobs.has_id jobID) (k_jobs d)) with
  | None => None
  | Some j =>
      match r_live_output_id j with
      | None => None
      | Some outputID =>
          match scanLiveOutput "" <$> get_output outputID d with
          | None => Some (None, r_target_revision j, false)
          | Some output =>
              let current := match currentStreamForNoteTx (out_NoteID output) d with
                             | Some (_, streamID) => (streamID =? out_StreamID output)%string
                             | None => false
                             end in
              Some (Some output, r_target_revision j,
                (ActiveJobID output =? jobID)%string && current &&
                is_eligible (out_OwnerID output) (out_TemplateID output) d)
          end
      end
  end.

(** A job's last columns: [lease_expires_at=NULL, finished_at=now()]. *)
Definition finished_row (st : string) (dbnow : Z) (r : job_row) : job_row :=
  Jobs.set_status st None (Some dbnow) dbnow r.

Definition discardIneligibleLiveRowTx (dbnow : Z) (jobID : string) (output : option LiveTemplateOutput) : Tx adb unit :=
  tx! _ := (match output with
            | Some o => tx! _ := delete_output (out_ID o) in notifyLiveNoteTx (out_NoteID o)
            | None => tx_ret tt
            end) in
  update_jobs (Jobs.has_id jobID) (finished_row JobDone dbnow).

(** The follow-up after a run: [out.LastStartedAt = &now]. *)
Definition follow_up (dbnow now : Z) (o : LiveTemplateOutput) : Tx adb unit :=
  scheduleLiveJobTx dbnow now (with_started now o).

Definition CompleteLiveGenerateSuccessTx (dbnow now : Z) (jobID : string) (targetRevision : Z)
    (agentPlugin modelName : string) (sections : list SummarySection) : Tx adb bool :=
  tx! fence := tx_read (liveCompletionFenceTx jobID) in
  match fence with
  | None => tx_ret false
  | Some (Some output, _, true) =>
      tx! _ := update_output (out_ID output) (publish agentPlugin modelName sections targetRevision now) in
      tx! _ := update_jobs (Jobs.has_id jobID) (fun r => set_error None (finished_row JobDone dbnow r)) in
      tx! _ := (if (targetRevision <? DesiredRevision output)%Z then follow_up dbnow now output else tx_ret tt) in
      tx! _ := notifyLiveNoteTx (out_NoteID output) in
      tx_ret true
  | Some (output, _, _) => tx! _ := discardIneligibleLiveRowTx dbnow jobID output in tx_ret false
  end.

Definition CompleteLiveGenerateFailureTx (dbnow now : Z) (jobID errorCode : string) : Tx adb bool :=
  tx! fence := tx_read (liveCompletionFenceTx jobID) in
  match fence with
  | None => tx_ret false
  | Some (Some output, target, true) =>
      tx! _ := update_output (out_ID output) (record_failure errorCode now) in
      tx! _ := update_jobs (Jobs.has_id jobID) (finished_row JobFailed dbnow) in
      tx! _ := (match target with
                | Some t => if (t <? DesiredRevision output)%Z then follow_up dbnow now output else tx_ret tt
                | None => tx_ret tt
                end) in
      tx! _ := notifyLiveNoteTx (out_NoteID output) in
      tx_ret true
  | Some (output, _, _) => tx! _ := discardIneligibleLiveRowTx dbnow jobID output in tx_ret false
  end.

End Live.

(** ** Subscribers *)

Module Subscriptions.

Definition MaxLiveNoteSubscribers : nat := 40.

Record subscription := mkSubscription {
  sub_connection : string; sub_note : string; sub_owner : string; sub_lease : Z }.

Definition connection_is (id : string) (s : subscription) : bool := (sub_connection s =? id)%string.
Definition watches (noteID : string) (s : subscription) : bool := (sub_note s =? noteID)%string.

(** The capacity row serializes admissions for one note, so an admission is one
    step.  [dbnow] is the database clock, [clock] the process's. *)
Definition AcquireLiveNoteSubscription (connectionID : string) (dbnow clock ttl : Z) (noteID ownerID : string)
    (notes : list note_row) (t : list subscription) : result store_error (option string) * list subscription :=
  let t' := delete_where (fun s => watches noteID s && (sub_lease s <? dbnow)%Z) t in
  if negb (exists_where (note_is noteID) notes) then (Err DbError, t)
  else if (MaxLiveNoteSubscribers <=? rows_affected (watches noteID) t')%nat then (Ok None, t')
  else if exists_where (connection_is connectionID) t' then (Err DbError, t)
  else (Ok (Some connectionID), (t' ++ [mkSubscription connectionID noteID ownerID (clock + ttl)])%list).

Definition RenewLiveNoteSubscription (clock ttl : Z) (connectionID : string) (t : list subscription)
  : bool * list subscription :=
  (negb (rows_affected (connection_is connectionID) t =? 0)%nat,
   update_where (connection_is connectionID)
     (fun s => mkSubscription (sub_connection s) (sub_note s) (sub_owner s) (clock + ttl)) t).

Definition ReleaseLiveNoteSubscription (connectionID : string) (t : list subscription) : list subscription :=
  delete_where (connection_is connectionID) t.

End Subscriptions.
