(* ===== verification/LiveProps.v ===== *)
(** What holds of the live prompts of [Live]. *)

From stdpp Require Import base list strings sets gmap.
From Stdlib Require Import ZArith Lia.
From S2P Require Import GoInt GoStrings Sql Transactions Jobs JobsProps Folders Execution Notes Transcripts Templates.
From S2P Require Import Summaries AgentTables TablesProps Live.

Local Open Scope string_scope.
Local Open Scope list_scope.

(** ** The tables' invariant *)

Definition lo_key (r : output_row) : string * string * string := (lo_note r, lo_template r, lo_stream r).

(** An output's active job is a row of [jobs] that belongs to the output. *)
Definition active_job_ok (js : jobs) (r : output_row) : Prop :=
  forall j, lo_job r = Some j -> j <> "" /\ exists x, x ∈ js /\ r_id x = j /\ r_live_output_id x = Some (lo_id r).

(** What a job was told to render has been asked for. *)
Definition target_ok (os : list output_row) (x : job_row) : Prop :=
  forall o v, o ∈ os -> r_live_output_id x = Some (lo_id o) -> r_target_revision x = Some v -> (0 <= v <= lo_desired o)%Z.

Record live_ok (d : adb) : Prop := {
  lv_jobs : jobs_inv (k_jobs d);
  lv_ids : NoDup (map lo_id (k_outputs d));
  lv_keys : NoDup (map lo_key (k_outputs d));
  lv_status : Forall (fun r => lo_status r ∈ live_statuses) (k_outputs d);
  lv_refs : forall x o, x ∈ k_jobs d -> r_live_output_id x = Some o -> o ∈ map lo_id (k_outputs d);
  lv_active : Forall (active_job_ok (k_jobs d)) (k_outputs d);
  lv_revisions : Forall (fun r => 0 <= lo_rendered r <= lo_desired r)%Z (k_outputs d);
  lv_targets : Forall (target_ok (k_outputs d)) (k_jobs d) }.

(** The tables these operations only read, and with them the notifications. *)
Definition readonly (d : adb) :=
  (k_templates d, k_summaries d, k_notes d, k_transcripts d, k_segments d, k_sources d, k_events d, k_briefs d).
Definition base (d : adb) := (readonly d, k_notified d).

(** ** Reading an output with its jobs *)

Definition at_key (k : string * string * string) (d : adb) : option output_row :=
  head (select_where (fun r => bool_decide (lo_key r = k)) (k_outputs d)).

Definition jobs_of (id : string) (d : adb) : list job_row := select_where (job_of_output id) (k_jobs d).

Definition prompt (d : adb) (k : string * string * string) : option (output_row * list job_row) :=
  (fun r => (r, jobs_of (lo_id r) d)) <$> at_key k d.

Lemma at_key_spec d k r : NoDup (map lo_key (k_outputs d)) -> at_key k d = Some r <-> r ∈ k_outputs d /\ lo_key r = k.
Proof.
  intros Hnd. unfold at_key. split.
  - intros H. assert (Hr : r ∈ select_where (fun r => bool_decide (lo_key r = k)) (k_outputs d)).
    { destruct (select_where _ _); [done|]. injection H as ->. left. }
    apply elem_of_select_where in Hr as [? Hr]. by apply bool_decide_eq_true in Hr.
  - intros [Hr <-]. rewrite (select_key lo_key _ (k_outputs d) r Hnd Hr); [done|by apply bool_decide_eq_true|].
    intros r' _ H. by apply bool_decide_eq_true in H.
Qed.

Lemma at_key_none d k : at_key k d = None <-> forall r, r ∈ k_outputs d -> lo_key r <> k.
Proof.
  unfold at_key. split.
  - intros H r Hr Hk. destruct (select_where _ _) as [|x l] eqn:E; [|done].
    assert (Hin : r ∈ select_where (fun r => bool_decide (lo_key r = k)) (k_outputs d)).
    { apply elem_of_select_where. split; [done|by apply bool_decide_eq_true]. }
    rewrite E in Hin. by apply elem_of_nil in Hin.
  - intros H. rewrite select_none; [done|]. intros r Hr. apply bool_decide_eq_false. auto.
Qed.

(** Two tables whose rows correspond by key agree on a key. *)
Lemma at_key_eq d d' k k' :
  NoDup (map lo_key (k_outputs d)) -> NoDup (map lo_key (k_outputs d')) ->
  (forall r, r ∈ k_outputs d /\ lo_key r = k <-> r ∈ k_outputs d' /\ lo_key r = k') -> at_key k d = at_key k' d'.
Proof.
  intros H1 H2 H. destruct (at_key k' d') as [r|] eqn:E.
  - apply at_key_spec; [done|]. apply H. by apply at_key_spec.
  - apply at_key_none. intros r Hr Hk. rewrite at_key_none in E. apply (E r); by apply H.
Qed.

Lemma prompt_some d k r js : NoDup (map lo_key (k_outputs d)) ->
  prompt d k = Some (r, js) <-> r ∈ k_outputs d /\ lo_key r = k /\ js = jobs_of (lo_id r) d.
Proof.
  intros Hnd. unfold prompt. split.
  - destruct (at_key k d) as [r'|] eqn:E; [|done]. intros [= <- <-]. apply at_key_spec in E as [? ?]; done.
  - intros (Hr & Hk & ->). assert (at_key k d = Some r) as -> by by apply at_key_spec. done.
Qed.

Lemma prompt_none d k : prompt d k = None <-> forall r, r ∈ k_outputs d -> lo_key r <> k.
Proof. unfold prompt. rewrite fmap_None. apply at_key_none. Qed.

(** ** Statements *)

Lemma base_put_outputs x d : base (put_outputs x d) = base d.
Proof. by destruct d. Qed.
Lemma base_put_jobs x d : base (put_jobs x d) = base d.
Proof. by destruct d. Qed.
Lemma base_draw d : base (draw d) = base d.
Proof. by destruct d. Qed.
Lemma readonly_notify n d : readonly (notify n d) = readonly d.
Proof. by destruct d. Qed.
Lemma notified_notify n d : k_notified (notify n d) = k_notified d ++ [n].
Proof. by destruct d. Qed.

#[export] Hint Rewrite base_put_outputs base_put_jobs base_draw readonly_notify notified_notify : tables.

(** The invariant and the view mention only these two tables. *)
Lemma live_ok_tables d d' : k_outputs d' = k_outputs d -> k_jobs d' = k_jobs d -> live_ok d -> live_ok d'.
Proof. intros E1 E2 []. split; by rewrite ?E1, ?E2. Qed.

Lemma prompt_tables d d' k : k_outputs d' = k_outputs d -> k_jobs d' = k_jobs d -> prompt d' k = prompt d k.
Proof. intros E1 E2. unfold prompt, at_key, jobs_of. by rewrite E1, E2. Qed.

(** *** [UPDATE live_template_outputs ... WHERE id=] *)

(** An update that keeps the columns of the keys. *)
Definition keeps_keys (f : output_row -> output_row) : Prop :=
  forall r, lo_id (f r) = lo_id r /\ lo_key (f r) = lo_key r /\ (lo_status r ∈ live_statuses -> lo_status (f r) ∈ live_statuses).

Lemma live_ok_update id f d :
  live_ok d -> keeps_keys f ->
  (forall r, r ∈ k_outputs d -> lo_id r = id ->
     active_job_ok (k_jobs d) (f r) /\ (0 <= lo_rendered (f r) <= lo_desired (f r))%Z /\ (lo_desired r <= lo_desired (f r))%Z) ->
  live_ok (put_outputs (update_where (output_is id) f (k_outputs d)) d).
Proof.
  intros [] Hk Hf. split; autorewrite with tables; try done.
  - rewrite map_update_where by (intros r; by apply Hk). done.
  - rewrite map_update_where by (intros r; by apply Hk). done.
  - apply Forall_forall. intros r (r0 & Hr0 & ->)%elem_of_update_where. rewrite Forall_forall in lv_status0.
    destruct (output_is id r0); [apply Hk|]; auto.
  - rewrite map_update_where by (intros r; by apply Hk). done.
  - apply Forall_forall. intros r (r0 & Hr0 & ->)%elem_of_update_where. rewrite Forall_forall in lv_active0.
    destruct (output_is id r0) eqn:E; [|auto]. apply String.eqb_eq in E. by apply Hf.
  - apply Forall_forall. intros r (r0 & Hr0 & ->)%elem_of_update_where. rewrite Forall_forall in lv_revisions0.
    destruct (output_is id r0) eqn:E; [|auto]. apply String.eqb_eq in E. by apply Hf.
  - rewrite Forall_forall in lv_targets0. apply Forall_forall.
    intros x Hx o v (o0 & Ho0 & ->)%elem_of_update_where Hl Hv. destruct (output_is id o0) eqn:E; [|by eapply lv_targets0].
    apply String.eqb_eq in E. rewrite (proj1 (Hk o0)) in Hl. pose proof (lv_targets0 x Hx o0 v Ho0 Hl Hv).
    pose proof (proj2 (proj2 (Hf o0 Ho0 E))). lia.
Qed.

Lemma prompt_update id f d k :
  NoDup (map lo_key (k_outputs d)) -> keeps_keys f ->
  prompt (put_outputs (update_where (output_is id) f (k_outputs d)) d) k =
  (fun '(r, js) => (if output_is id r then f r else r, js)) <$> prompt d k.
Proof.
  intros Hnd Hk. assert (Hid : forall r, lo_id (if output_is id r then f r else r) = lo_id r).
  { intros r. destruct (output_is id r); [apply Hk|done]. }
  destruct (prompt d k) as [[r js]|] eqn:E; cbn.
  - apply prompt_some in E as (Hr & <- & ->); [|done]. apply prompt_some; autorewrite with tables.
    { by rewrite map_update_where by (intros r0; apply Hk). }
    split; [apply elem_of_update_where; by exists r|]. unfold jobs_of. autorewrite with tables. rewrite Hid.
    split; [|done]. destruct (output_is id r); [apply Hk|done].
  - rewrite prompt_none in E. apply prompt_none. autorewrite with tables.
    intros r (r0 & Hr0 & ->)%elem_of_update_where. destruct (output_is id r0); [rewrite (proj1 (proj2 (Hk r0)))|]; auto.
Qed.

(** *** [DELETE FROM live_template_outputs WHERE id=] *)

Definition without_output (id : string) (d : adb) : adb :=
  put_jobs (delete_where (job_of_output id) (k_jobs d)) (put_outputs (delete_where (output_is id) (k_outputs d)) d).

Lemma job_of_output_true id x : job_of_output id x = true <-> r_live_output_id x = Some id.
Proof. apply bool_decide_eq_true. Qed.

Lemma live_ok_delete id d : live_ok d -> live_ok (without_output id d).
Proof.
  intros []. unfold without_output. split; autorewrite with tables.
  - by apply jobs_inv_delete.
  - by apply NoDup_map_delete.
  - by apply NoDup_map_delete.
  - rewrite Forall_forall in *. intros r [Hr _]%elem_of_delete_where. auto.
  - intros x o [Hx Hne]%elem_of_delete_where Ho. pose proof (lv_refs0 x o Hx Ho) as Hin.
    apply list_elem_of_fmap in Hin as (r & -> & Hr). apply list_elem_of_fmap. exists r. split; [done|].
    apply elem_of_delete_where. split; [done|]. apply String.eqb_neq. intros E. subst id.
    apply not_true_iff_false in Hne. by apply Hne, job_of_output_true.
  - rewrite Forall_forall in *. intros r [Hr Hne]%elem_of_delete_where j Hj.
    destruct (lv_active0 r Hr j Hj) as (Hj0 & x & Hx & Hxj & Ho). split; [done|]. exists x. split; [|done].
    apply elem_of_delete_where. split; [done|]. apply bool_decide_eq_false. rewrite Ho. intros [= E].
    apply String.eqb_neq in Hne. by apply Hne.
  - rewrite Forall_forall in *. intros r [Hr _]%elem_of_delete_where. auto.
  - rewrite Forall_forall in *. intros x [Hx _]%elem_of_delete_where o v [Ho _]%elem_of_delete_where. by apply lv_targets0.
Qed.

Lemma jobs_of_delete id id' d : id <> id' -> jobs_of id' (without_output id d) = jobs_of id' d.
Proof.
  intros Hne. unfold jobs_of, without_output. autorewrite with tables. apply select_delete.
  intros x _ E. apply job_of_output_true in E. apply bool_decide_eq_false. rewrite E. by intros [= ->].
Qed.

Lemma prompt_delete id d k :
  NoDup (map lo_key (k_outputs d)) ->
  prompt (without_output id d) k =
  match prompt d k with Some (r, js) => if output_is id r then None else Some (r, js) | None => None end.
Proof.
  intros Hnd. assert (Hnd' : NoDup (map lo_key (k_outputs (without_output id d)))).
  { unfold without_output. autorewrite with tables. by apply NoDup_map_delete. }
  assert (Hin : forall r, r ∈ k_outputs (without_output id d) <-> r ∈ k_outputs d /\ output_is id r = false).
  { intros r. unfold without_output. autorewrite with tables. apply elem_of_delete_where. }
  destruct (prompt d k) as [[r js]|] eqn:E.
  - apply prompt_some in E as (Hr & Hk & ->); [|done]. destruct (output_is id r) eqn:Ei.
    + apply prompt_none. intros r' [Hr' Hne]%Hin Hk'. rewrite (key_unique lo_key (k_outputs d) r' r) in Hne by congruence.
      by rewrite Ei in Hne.
    + apply prompt_some; [done|]. split; [by apply Hin|]. split; [done|]. symmetry. apply jobs_of_delete.
      apply String.eqb_neq in Ei. congruence.
  - rewrite prompt_none in E. apply prompt_none. intros r [Hr _]%Hin. auto.
Qed.

(** *** [INSERT INTO live_template_outputs] *)

Lemma insert_output_ok r d u d' :
  insert_output r d = Ok (u, d') ->
  d' = put_outputs (k_outputs d ++ [r]) d /\ (lo_status r ∈ live_statuses) /\ (lo_id r ∉ map lo_id (k_outputs d)) /\
  (lo_key r ∉ map lo_key (k_outputs d)).
Proof.
  unfold insert_output. destruct (bool_decide _) eqn:Es; [|done]. apply bool_decide_eq_true in Es. cbn.
  destruct (exists_where (output_is _) _) eqn:Ei; [done|]. destruct (exists_where (same_output r) _) eqn:Ek; [done|]. cbn.
  destruct (_ && _); [|done]. intros [=]. subst. split; [done|]. split; [done|].
  rewrite exists_where_false in Ei, Ek. rewrite !list_elem_of_fmap.
  split; intros (r' & E & Hr').
  - specialize (Ei r' Hr'). unfold output_is in Ei. by rewrite <- E, String.eqb_refl in Ei.
  - specialize (Ek r' Hr'). unfold same_output in Ek. unfold lo_key in E. injection E as E1 E2 E3.
    by rewrite E1, E2, E3, !String.eqb_refl in Ek.
Qed.

Lemma no_jobs_of_fresh id d : live_ok d -> id ∉ map lo_id (k_outputs d) -> jobs_of id d = [].
Proof.
  intros Hd Hid. apply select_none. intros x Hx. apply not_true_iff_false. intros E%job_of_output_true.
  by apply Hid, (lv_refs d Hd x).
Qed.

Lemma live_ok_insert r d u d' :
  live_ok d -> lo_job r = None -> (0 <= lo_rendered r <= lo_desired r)%Z -> insert_output r d = Ok (u, d') -> live_ok d'.
Proof.
  intros Hd Hj Hr (-> & Hst & Hid & Hkey)%insert_output_ok. pose proof (no_jobs_of_fresh _ _ Hd Hid) as Hno.
  destruct Hd. split; autorewrite with tables; try done.
  - rewrite map_app. by apply NoDup_snoc.
  - rewrite map_app. by apply NoDup_snoc.
  - apply Forall_app. by split; [|constructor].
  - intros x o Hx Ho. rewrite map_app. apply elem_of_app. left. by eapply lv_refs0.
  - apply Forall_app. split; [done|]. constructor; [|done]. intros j. by rewrite Hj.
  - apply Forall_app. by split; [|constructor].
  - rewrite Forall_forall in *. intros x Hx o v [Ho| ->%list_elem_of_singleton]%elem_of_app Hl; [by apply lv_targets0|].
    assert (Hin : x ∈ jobs_of (lo_id r) d) by (apply elem_of_select_where; split; [done|by apply job_of_output_true]).
    rewrite Hno in Hin. by apply elem_of_nil in Hin.
Qed.

Lemma prompt_insert r d u d' k :
  live_ok d -> insert_output r d = Ok (u, d') ->
  prompt d' k = (if bool_decide (k = lo_key r) then Some (r, []) else prompt d k) /\ prompt d (lo_key r) = None.
Proof.
  intros Hd (-> & _ & Hid & Hkey)%insert_output_ok. set (d' := put_outputs _ d).
  assert (Hnd : NoDup (map lo_key (k_outputs d'))).
  { unfold d'. autorewrite with tables. rewrite map_app. by apply NoDup_snoc; [apply lv_keys|]. }
  assert (Hin : forall x, x ∈ k_outputs d' <-> x ∈ k_outputs d \/ x = r).
  { intros x. unfold d'. autorewrite with tables. by rewrite elem_of_app, list_elem_of_singleton. }
  assert (Hjobs : forall id, jobs_of id d' = jobs_of id d) by (intros id; unfold jobs_of, d'; by autorewrite with tables).
  assert (Hnew : forall x, x ∈ k_outputs d -> lo_key x <> lo_key r).
  { intros x Hx E. apply Hkey. rewrite <- E. by apply list_elem_of_fmap_2. }
  split; [|by apply prompt_none]. destruct (bool_decide_reflect (k = lo_key r)) as [->|Hne].
  - apply prompt_some; [done|]. split; [apply Hin; by right|]. by rewrite Hjobs, no_jobs_of_fresh.
  - destruct (prompt d k) as [[x js]|] eqn:E.
    + apply prompt_some in E as (Hx & Hk & ->); [|by apply lv_keys]. apply prompt_some; [done|].
      split; [apply Hin; by left|]. by rewrite Hjobs.
    + rewrite prompt_none in E. apply prompt_none. intros x [Hx| ->]%Hin; [auto|congruence].
Qed.

(** *** [INSERT INTO jobs] *)

Lemma job_references_output d r o :
  job_references d r = true -> r_live_output_id r = Some o -> o ∈ map lo_id (k_outputs d).
Proof.
  unfold job_references. intros [_ H]%andb_true_iff Ho. rewrite Ho in H. apply exists_where_true in H as (x & Hx & E).
  apply String.eqb_eq in E. rewrite <- E. by apply list_elem_of_fmap_2.
Qed.

Lemma live_ok_insert_job r d u d' :
  live_ok d -> row_inv r -> r_target_revision r = None -> insert_job_tx r d = Ok (u, d') -> live_ok d'.
Proof.
  intros [] Hr Ht (-> & Href & Hi)%insert_job_ok.
  split; autorewrite with tables; try done.
  - pose proof (insert_job_inv (job_references d) r (k_jobs d) Hr lv_jobs0) as H. by rewrite Hi in H.
  - intros x o [Hx| ->%list_elem_of_singleton]%elem_of_app Ho; [by eapply lv_refs0|by eapply job_references_output].
  - rewrite Forall_forall in *. intros o Ho j Hj. destruct (lv_active0 o Ho j Hj) as (? & x & Hx & ?).
    split; [done|]. exists x. split; [|done]. apply elem_of_app. by left.
  - apply Forall_app. split; [done|]. constructor; [|done]. intros o v _ _. by rewrite Ht.
Qed.

Lemma prompt_insert_job r d u d' k :
  insert_job_tx r d = Ok (u, d') ->
  prompt d' k = (fun '(o, js) => (o, js ++ (if job_of_output (lo_id o) r then [r] else []))%list) <$> prompt d k.
Proof.
  intros (-> & _ & _)%insert_job_ok. unfold prompt, at_key, jobs_of. autorewrite with tables.
  destruct (head _) as [o|]; [|done]. cbn. rewrite select_app. cbn. by destruct (job_of_output _ r).
Qed.

(** *** [UPDATE jobs] *)

(** Updates of columns other than the keys and the target. *)
Definition keeps_job (f : job_row -> job_row) : Prop := forall r, same_keys r (f r) /\ r_target_revision (f r) = r_target_revision r.

Lemma live_ok_jobs t d :
  live_ok d -> jobs_inv t ->
  (forall x', x' ∈ t -> exists x, x ∈ k_jobs d /\ r_live_output_id x' = r_live_output_id x /\
     (forall o v, o ∈ k_outputs d -> r_live_output_id x = Some (lo_id o) -> r_target_revision x' = Some v ->
       r_target_revision x = Some v \/ (0 <= v <= lo_desired o)%Z)) ->
  (forall x, x ∈ k_jobs d -> exists x', x' ∈ t /\ r_id x' = r_id x /\ r_live_output_id x' = r_live_output_id x) ->
  live_ok (put_jobs t d).
Proof.
  intros [] Ht Hback Hforth. split; autorewrite with tables; try done.
  - intros x' o Hx' Ho. destruct (Hback x' Hx') as (x & Hx & E & _). apply (lv_refs0 x); congruence.
  - rewrite Forall_forall in *. intros o Ho j Hj. destruct (lv_active0 o Ho j Hj) as (? & x & Hx & Hid & Hl).
    split; [done|]. destruct (Hforth x Hx) as (x' & Hx' & ? & ?). exists x'. split; [done|]. split; congruence.
  - rewrite Forall_forall in *. intros x' Hx' o v Ho Hl Hv. destruct (Hback x' Hx') as (x & Hx & E & Hv').
    rewrite E in Hl. destruct (Hv' o v Ho Hl Hv) as [Hv''|Hv'']; [|done]. by apply (lv_targets0 x Hx o v).
Qed.

Lemma live_ok_update_jobs p f d :
  live_ok d -> keeps_job f -> (forall r, p r = true -> active (f r) = true -> active r = true) ->
  (forall r, row_inv r -> row_inv (f r)) -> live_ok (put_jobs (update_where p f (k_jobs d)) d).
Proof.
  intros Hd Hf Ha Hi. apply live_ok_jobs; [done| | |].
  - apply update_inv; [intros; by apply Hi| |apply Hd]. intros r Hp. split; [apply Hf|by apply Ha].
  - intros x' (x & Hx & ->)%elem_of_update_where. exists x. destruct (Hf x) as [(_ & _ & _ & _ & _ & _ & _ & E & _) Et].
    destruct (p x); rewrite ?E, ?Et; repeat split; auto.
  - intros x Hx. exists (if p x then f x else x). split; [apply elem_of_update_where; eauto|].
    destruct (Hf x) as [(E1 & _ & _ & _ & _ & _ & _ & E & _) _]. by destruct (p x).
Qed.

Lemma prompt_update_jobs p f d k :
  (forall r, same_keys r (f r)) -> prompt (put_jobs (update_where p f (k_jobs d)) d) k =
  (fun '(o, js) => (o, update_where p f js)) <$> prompt d k.
Proof.
  intros Hf. unfold prompt, at_key, jobs_of. autorewrite with tables. destruct (head _) as [o|]; [|done]. cbn.
  do 2 f_equal. unfold select_where, update_where. induction (k_jobs d) as [|x t IH]; [done|]. cbn.
  assert (Hx : job_of_output (lo_id o) (if p x then f x else x) = job_of_output (lo_id o) x).
  { destruct (p x); [|done]. unfold job_of_output. by destruct (Hf x) as (_ & _ & _ & _ & _ & _ & _ & -> & _). }
  rewrite Hx. destruct (job_of_output (lo_id o) x); cbn; by rewrite IH.
Qed.

(** ** What an iteration of the reconciliation does *)

Definition runs (r : output_row) : bool := negb (bool_decide (lo_job r = None)) && (lo_status r =? LiveOutputRunning)%string.

(** What is left of a prompt whose template is not eligible. *)
Definition retired (now : Z) (v : option (output_row * list job_row)) : option (output_row * list job_row) :=
  match v with
  | Some (r, js) => if runs r then Some (hide now r, js) else None
  | None => None
  end.

Lemma active_id d r name : live_ok d -> r ∈ k_outputs d ->
  (ActiveJobID (scanLiveOutput name r) =? "")%string = bool_decide (lo_job r = None).
Proof.
  intros Hd Hr. cbn. pose proof (lv_active d Hd) as Ha. rewrite Forall_forall in Ha. specialize (Ha r Hr).
  destruct (lo_job r) as [j|] eqn:Ej; [|done]. destruct (Ha j Ej) as [Hj _]. cbn.
  by apply String.eqb_neq.
Qed.

Lemma keeps_hide now : keeps_keys (hide now).
Proof. by intros []. Qed.

Lemma keeps_cancelled now : keeps_job (cancelled_row now).
Proof. done. Qed.

Lemma live_ok_hide id now d : live_ok d -> live_ok (put_outputs (update_where (output_is id) (hide now) (k_outputs d)) d).
Proof.
  intros Hd. apply live_ok_update; [done|apply keeps_hide|]. intros r Hr _.
  pose proof (lv_active d Hd) as Ha. pose proof (lv_revisions d Hd) as Hv. rewrite Forall_forall in Ha, Hv.
  specialize (Ha r Hr). specialize (Hv r Hr). destruct r; cbn in *. split; [exact Ha|]. lia.
Qed.

Lemma live_ok_cancel now j d : live_ok d -> live_ok (put_jobs (update_where (pending_with_id j) (cancelled_row now) (k_jobs d)) d).
Proof.
  intros Hd. apply live_ok_update_jobs; [done|apply keeps_cancelled|done|].
  intros r []. split; try done; cbn; [by apply (bool_decide_unpack _); vm_compute|by intros [|]].
Qed.

(** The output a key shows is the only one with its id. *)
Lemma prompt_id d k r js k' r' js' : live_ok d -> prompt d k = Some (r, js) -> prompt d k' = Some (r', js') ->
  output_is (lo_id r) r' = bool_decide (k' = k).
Proof.
  intros Hd (Hr & <- & _)%prompt_some (Hr' & <- & _)%prompt_some; try by apply lv_keys.
  unfold output_is. destruct (String.eqb_spec (lo_id r') (lo_id r)) as [E|E].
  - rewrite (key_unique lo_id (k_outputs d) r' r (lv_ids d Hd) Hr' Hr E). symmetry. by apply bool_decide_eq_true.
  - symmetry. apply bool_decide_eq_false. intros E'. apply E.
    by rewrite (key_unique lo_key (k_outputs d) r' r (lv_keys d Hd) Hr' Hr E').
Qed.

(** A statement on the output a key shows touches that key only. *)
Lemma prompt_update_at f d k r js k' : live_ok d -> keeps_keys f -> prompt d k = Some (r, js) ->
  prompt (put_outputs (update_where (output_is (lo_id r)) f (k_outputs d)) d) k' =
  if bool_decide (k' = k) then Some (f r, js) else prompt d k'.
Proof.
  intros Hd Hf Hk. rewrite prompt_update by (done || apply lv_keys, Hd).
  destruct (prompt d k') as [[r' js']|] eqn:E; cbn.
  - rewrite (prompt_id d k r js k' r' js') by done. destruct (bool_decide_reflect (k' = k)) as [->|]; [|done]. congruence.
  - destruct (bool_decide_reflect (k' = k)) as [->|]; [congruence|done].
Qed.

Lemma prompt_delete_at d k r js k' : live_ok d -> prompt d k = Some (r, js) ->
  prompt (without_output (lo_id r) d) k' = if bool_decide (k' = k) then None else prompt d k'.
Proof.
  intros Hd Hk. rewrite prompt_delete by apply lv_keys, Hd.
  destruct (prompt d k') as [[r' js']|] eqn:E; cbn.
  - rewrite (prompt_id d k r js k' r' js') by done. by destruct (bool_decide (k' = k)).
  - by destruct (bool_decide (k' = k)).
Qed.

(** Cancelling the pending jobs of an output before it is deleted with them. *)
Lemma without_cancelled now j id d :
  (forall x, x ∈ k_jobs d -> r_id x = j -> r_live_output_id x = Some id) ->
  without_output id (put_jobs (update_where (pending_with_id j) (cancelled_row now) (k_jobs d)) d) = without_output id d.
Proof.
  intros H. unfold without_output. rewrite put_jobs_jobs. rewrite delete_update.
  - by destruct d.
  - done.
  - intros x Hx [Ej _]%andb_true_iff. apply String.eqb_eq in Ej. by apply job_of_output_true, H.
Qed.

Lemma retire_effect dbnow now d r js c d' :
  live_ok d -> prompt d (lo_key r) = Some (r, js) -> retire dbnow now (scanLiveOutput "" r) d = Ok (c, d') ->
  c = true /\ live_ok d' /\ base d' = base d /\
  (forall k, prompt d' k = if bool_decide (k = lo_key r) then retired now (Some (r, js)) else prompt d k).
Proof.
  intros Hd Hp. pose proof Hp as (Hr & _ & _)%prompt_some; [|apply lv_keys, Hd].
  unfold retire. rewrite (active_id d r "" Hd Hr). unfold retired, runs. cbn [out_Status out_ID scanLiveOutput].
  destruct (bool_decide_reflect (lo_job r = None)) as [Hj|Hj]; cbn [negb andb].
  - unfold tx_bind, delete_output, tx_write, tx_ret. intros [=]. subst. fold (without_output (lo_id r) d).
    split; [done|]. split; [by apply live_ok_delete|]. split; [unfold without_output; by autorewrite with tables|].
    intros k. by rewrite (prompt_delete_at d (lo_key r) r js).
  - destruct (lo_status r =? LiveOutputRunning)%string eqn:Est.
    + unfold tx_bind, update_output, tx_write, tx_ret. intros [=]. subst.
      split; [done|]. split; [by apply live_ok_hide|]. split; [by autorewrite with tables|].
      intros k. rewrite (prompt_update_at _ d (lo_key r) r js); [done|done|apply keeps_hide|done].
    + unfold tx_bind, delete_output, update_jobs, tx_write, tx_ret. intros [=]. subst.
      set (d1 := put_jobs _ d). fold (without_output (lo_id r) d1). unfold d1. rewrite without_cancelled.
      2:{ destruct (lo_job r) as [j|] eqn:Ej; [|done]. pose proof (lv_active d Hd) as Ha. rewrite Forall_forall in Ha.
          destruct (Ha r Hr j Ej) as (_ & x & Hx & Hxj & Hxo). cbn. intros x' Hx' E'.
          assert (x' = x) as -> by (apply (unique_row (k_jobs d)); [apply (lv_jobs d Hd)|done|done|congruence]). done. }
      split; [done|]. split; [by apply live_ok_delete|]. split; [unfold without_output; by autorewrite with tables|].
      intros k. by rewrite (prompt_delete_at d (lo_key r) r js).
Qed.

Section Reconciliation.
Variable lower : string -> string.
Variable name_lt id_lt : string -> string -> bool.
Variable uuid : nat -> string.
Hypothesis uuid_named : forall n, uuid n <> "".

Lemma row_inv_live_job j o lease dbnow : row_inv (live_job j o lease dbnow).
Proof. split; cbn; try done; [by apply (bool_decide_unpack _); vm_compute|by intros [|]]. Qed.

Lemma keeps_queue j now : keeps_keys (queue j now).
Proof. intros []. split; [done|]. split; [done|]. intros _. by apply (bool_decide_unpack _); vm_compute. Qed.

Lemma schedule_effect dbnow now o d r js u d' :
  live_ok d -> prompt d (lo_key r) = Some (r, js) -> out_ID o = lo_id r ->
  scheduleLiveJobTx uuid dbnow now o d = Ok (u, d') ->
  exists j, live_ok d' /\ base d' = base d /\
    (forall k, prompt d' k = if bool_decide (k = lo_key r)
       then Some (queue j now r, js ++ [live_job j o (not_before (LastStartedAt o) now) dbnow]) else prompt d k).
Proof.
  intros Hd Hp Hid. unfold scheduleLiveJobTx. set (j := uuid (k_drawn d)).
  intros (j' & d1 & [= <- <-] & H)%tx_bind_ok. fold j in H.
  apply tx_bind_ok in H as (u1 & d2 & Hi & H). injection H as _ <-.
  assert (Hd1 : live_ok (draw d)) by (apply (live_ok_tables d); autorewrite with tables; done).
  pose proof (live_ok_insert_job _ _ _ _ Hd1 (row_inv_live_job _ _ _ _) eq_refl Hi) as Hd2.
  assert (Hp2 : forall k, prompt d2 k = if bool_decide (k = lo_key r)
    then Some (r, js ++ [live_job j o (not_before (LastStartedAt o) now) dbnow]) else prompt d k).
  { intros k. rewrite (prompt_insert_job _ _ _ _ k Hi), (prompt_tables d (draw d)) by (by autorewrite with tables).
    destruct (prompt d k) as [[r' js']|] eqn:E; cbn.
    - unfold job_of_output. cbn. rewrite Hid. pose proof (prompt_id d (lo_key r) r js k r' js' Hd Hp E) as Hi'.
      destruct (bool_decide_reflect (k = lo_key r)) as [->|Hne].
      + rewrite Hp in E. injection E as <- <-. by rewrite bool_decide_eq_true_2.
      + rewrite bool_decide_eq_false_2; [by rewrite app_nil_r|]. intros [= Ee]. unfold output_is in Hi'.
        by rewrite Ee, String.eqb_refl in Hi'.
    - destruct (bool_decide_reflect (k = lo_key r)) as [->|]; [congruence|done]. }
  exists j. rewrite Hid. pose proof (Hp2 (lo_key r)) as Hpr. rewrite bool_decide_eq_true_2 in Hpr by done.
  assert (Hbase : base d2 = base d) by (apply insert_job_ok in Hi as [-> _]; by autorewrite with tables).
  split; [|split; [by autorewrite with tables|]].
  - apply live_ok_update; [done|apply keeps_queue|]. intros r' Hr' E.
    apply prompt_some in Hpr as (Hr & _ & Hjs); [|apply lv_keys, Hd2].
    assert (r' = r) as -> by (apply (key_unique lo_id (k_outputs d2)); [apply (lv_ids d2 Hd2)|done..]).
    pose proof (lv_revisions d2 Hd2) as Hv. rewrite Forall_forall in Hv. specialize (Hv r Hr). split; [|destruct r; cbn in *; lia].
    intros j' Hj'. assert (j' = j) as -> by (destruct r; cbn in Hj'; congruence). split; [apply uuid_named|].
    apply insert_job_ok in Hi as (-> & _). exists (live_job j o (not_before (LastStartedAt o) now) dbnow).
    autorewrite with tables. split; [apply elem_of_app; right; by apply list_elem_of_singleton|]. cbn. rewrite Hid. by destruct r.
  - intros k. rewrite (prompt_update_at _ d2 (lo_key r) r _ k Hd2 (keeps_queue j now) Hpr). rewrite Hp2.
    by destruct (bool_decide (k = lo_key r)).
Qed.

(** What an eligible template's prompt becomes, and whether it changed. *)
Definition advanced (dbnow now rev : Z) (owner : string) (k : string * string * string)
    (v : option (output_row * list job_row)) (changed : bool) (v' : option (output_row * list job_row)) : Prop :=
  match v with
  | None =>
      if (rev <=? 0)%Z then changed = false /\ v' = None
      else exists id j, let r := new_output id k.1.1 k.1.2 k.2 owner rev now in
        changed = true /\ v' = Some (queue j now r, [live_job j (scanLiveOutput "" r) now dbnow])
  | Some (r, js) =>
      let r' := if (lo_desired r <? rev)%Z then demand rev now r else r in
      if bool_decide (lo_job r = None) && (0 <? rev)%Z
      then exists j, changed = true /\
        v' = Some (queue j now r', js ++ [live_job j (scanLiveOutput "" r) (not_before (lo_started r) now) dbnow])
      else changed = (lo_desired r <? rev)%Z /\ v' = Some (r', js)
  end.

Lemma find_existing noteID streamID t d : live_ok d ->
  List.find (fun o => (out_TemplateID o =? t)%string) (lockLiveOutputsForStreamTx id_lt noteID streamID d) =
  scanLiveOutput "" <$> at_key (noteID, t, streamID) d.
Proof.
  intros Hd. unfold lockLiveOutputsForStreamTx. set (l := order_by _ _).
  assert (Hl : forall r, r ∈ l <-> r ∈ k_outputs d /\ lo_note r = noteID /\ lo_stream r = streamID).
  { intros r. unfold l. rewrite elem_of_order_by, elem_of_select_where. unfold output_on.
    rewrite andb_true_iff, !String.eqb_eq. done. }
  destruct (List.find _ (map _ l)) as [o|] eqn:E.
  - apply find_some in E as [Ho Et]. apply in_map_iff in Ho as (r & <- & Hr). apply list_elem_of_In, Hl in Hr as (Hr & <- & <-).
    apply String.eqb_eq in Et. cbn in Et. subst t.
    assert (at_key (lo_note r, lo_template r, lo_stream r) d = Some r) as -> by by apply at_key_spec; [apply lv_keys|].
    done.
  - destruct (at_key _ d) as [r|] eqn:Er; [|done]. apply at_key_spec in Er as [Hr Hk]; [|apply lv_keys, Hd].
    injection Hk as Hn Ht Hs. assert (Hin : r ∈ l) by by apply Hl.
    pose proof (find_none _ _ E (scanLiveOutput "" r)) as Hnone. cbn in Hnone. rewrite Ht, String.eqb_refl in Hnone.
    discriminate Hnone. apply in_map. by apply list_elem_of_In.
Qed.

Lemma keeps_demand rev now : keeps_keys (demand rev now).
Proof. by intros []. Qed.

Lemma live_ok_demand id rev now d r :
  live_ok d -> r ∈ k_outputs d -> lo_id r = id -> (lo_desired r <= rev)%Z ->
  live_ok (put_outputs (update_where (output_is id) (demand rev now) (k_outputs d)) d).
Proof.
  intros Hd Hr <- Hrev. apply live_ok_update; [done|apply keeps_demand|]. intros r' Hr' E.
  rewrite (key_unique lo_id (k_outputs d) r' r (lv_ids d Hd) Hr' Hr E).
  pose proof (lv_active d Hd) as Ha. pose proof (lv_revisions d Hd) as Hv. rewrite Forall_forall in Ha, Hv.
  specialize (Ha r Hr). specialize (Hv r Hr). destruct r; cbn in *. split; [exact Ha|]. lia.
Qed.

Lemma advance_demand rev now d r js c d' :
  live_ok d -> prompt d (lo_key r) = Some (r, js) ->
  (if (lo_desired r <? rev)%Z then tx_bind (update_output (lo_id r) (demand rev now)) (fun _ => tx_ret true)
   else tx_ret false) d = Ok (c, d') ->
  let r' := if (lo_desired r <? rev)%Z then demand rev now r else r in
  c = (lo_desired r <? rev)%Z /\ live_ok d' /\ base d' = base d /\ lo_key r' = lo_key r /\ lo_id r' = lo_id r /\
  (forall k, prompt d' k = if bool_decide (k = lo_key r) then Some (r', js) else prompt d k).
Proof.
  intros Hd Hp. pose proof Hp as (Hr & _ & _)%prompt_some; [|apply lv_keys, Hd].
  destruct (lo_desired r <? rev)%Z eqn:E.
  - unfold update_output, tx_bind, tx_write, tx_ret. intros [=]. subst. apply Z.ltb_lt in E.
    split; [done|]. split; [by apply (live_ok_demand _ _ _ _ r); [..|lia]|]. split; [by autorewrite with tables|].
    split; [by destruct r|]. split; [by destruct r|]. intros k. by apply prompt_update_at; [..|apply keeps_demand|].
  - intros [=]. subst. do 5 (split; [done|]). intros k. by destruct (bool_decide_reflect (k = lo_key r)) as [->|].
Qed.

(** The two cases of [advance], for a template with and without an output. *)
Lemma advance_existing dbnow now rev owner noteID streamID existing d r js t c d' :
  List.find (fun o => (out_TemplateID o =? tm_ID t)%string) existing = Some (scanLiveOutput "" r) ->
  live_ok d -> prompt d (lo_key r) = Some (r, js) ->
  advance uuid dbnow now rev owner noteID streamID existing t d = Ok (c, d') ->
  live_ok d' /\ base d' = base d /\ advanced dbnow now rev owner (lo_key r) (Some (r, js)) c (prompt d' (lo_key r)) /\
  (forall k', k' <> lo_key r -> prompt d' k' = prompt d k').
Proof.
  intros Hf Hd Hp. unfold advance. rewrite Hf. intros (c1 & d1 & H1 & H)%tx_bind_ok.
  destruct (advance_demand rev now d r js c1 d1 Hd Hp H1) as (-> & Hd1 & Hb1 & Hk1 & Hid1 & Hp1).
  unfold advanced. set (r' := if (lo_desired r <? rev)%Z then demand rev now r else r) in *.
  rewrite (active_id d r "" Hd) in H by by apply (prompt_some d (lo_key r) r js) in Hp as [? _]; [|apply lv_keys].
  pose proof (Hp1 (lo_key r)) as Hpr. rewrite bool_decide_eq_true_2 in Hpr by done.
  destruct (bool_decide (lo_job r = None) && (0 <? rev)%Z).
  - apply tx_bind_ok in H as (u & d2 & Hs & [= <- <-]). rewrite <- Hk1 in Hpr.
    destruct (schedule_effect dbnow now (scanLiveOutput "" r) d1 r' js u d2 Hd1 Hpr (eq_sym Hid1) Hs) as (j & Hd2 & Hb2 & Hp2).
    rewrite Hk1 in Hp2. split; [done|]. split; [congruence|]. split.
    + exists j. split; [done|]. by rewrite Hp2, bool_decide_eq_true_2.
    + intros k' Hne. by rewrite Hp2, bool_decide_eq_false_2, Hp1, bool_decide_eq_false_2.
  - injection H as <- <-. split; [done|]. split; [done|]. split; [done|].
    intros k' Hne. by rewrite Hp1, bool_decide_eq_false_2.
Qed.

Lemma advance_new dbnow now rev owner noteID streamID existing d t c d' :
  let k := (noteID, tm_ID t, streamID) in
  List.find (fun o => (out_TemplateID o =? tm_ID t)%string) existing = None -> live_ok d -> prompt d k = None ->
  advance uuid dbnow now rev owner noteID streamID existing t d = Ok (c, d') ->
  live_ok d' /\ base d' = base d /\ advanced dbnow now rev owner k None c (prompt d' k) /\
  (forall k', k' <> k -> prompt d' k' = prompt d k').
Proof.
  intros k Hf Hd Hp. unfold advance. rewrite Hf. unfold advanced.
  destruct (rev <=? 0)%Z eqn:E; [intros [=]; by subst|].
  intros (id & d1 & [= <- <-] & H)%tx_bind_ok. set (id := uuid (k_drawn d)) in *.
  set (r := new_output id noteID (tm_ID t) streamID owner rev now) in *.
  apply tx_bind_ok in H as (u & d2 & Hi & H). apply tx_bind_ok in H as (u' & d3 & Hs & [= <- <-]).
  assert (Hd1 : live_ok (draw d)) by (apply (live_ok_tables d); autorewrite with tables; done).
  assert (Hd2 : live_ok d2).
  { apply (live_ok_insert r _ _ _ Hd1 eq_refl) in Hi; [done|]. cbn. apply Z.leb_gt in E. lia. }
  assert (Hp2 : forall k', prompt d2 k' = if bool_decide (k' = k) then Some (r, []) else prompt d k').
  { intros k'. destruct (prompt_insert _ _ _ _ k' Hd1 Hi) as [-> _].
    by rewrite (prompt_tables d (draw d)) by by autorewrite with tables. }
  pose proof (Hp2 k) as Hpr. rewrite bool_decide_eq_true_2 in Hpr by done.
  destruct (schedule_effect dbnow now (scanLiveOutput "" r) d2 r [] u' d3 Hd2 Hpr eq_refl Hs) as (j & Hd3 & Hb3 & Hp3).
  change (lo_key r) with k in Hp3. split; [done|]. split.
  { rewrite Hb3. apply insert_output_ok in Hi as [-> _]. by autorewrite with tables. }
  split; [exists id, j; split; [done|]; by rewrite Hp3, bool_decide_eq_true_2|].
  intros k' Hne. by rewrite Hp3, bool_decide_eq_false_2, Hp2, bool_decide_eq_false_2.
Qed.

Lemma advance_effect dbnow now rev owner noteID streamID d0 d t c d' :
  let k := (noteID, tm_ID t, streamID) in
  live_ok d0 -> live_ok d -> prompt d k = prompt d0 k ->
  advance uuid dbnow now rev owner noteID streamID (lockLiveOutputsForStreamTx id_lt noteID streamID d0) t d = Ok (c, d') ->
  live_ok d' /\ base d' = base d /\ advanced dbnow now rev owner k (prompt d0 k) c (prompt d' k) /\
  (forall k', k' <> k -> prompt d' k' = prompt d k').
Proof.
  intros k Hd0 Hd Hw. pose proof (find_existing noteID streamID (tm_ID t) d0 Hd0) as Hf. fold k in Hf.
  rewrite <- Hw. destruct (prompt d k) as [[r js]|] eqn:Hp.
  - symmetry in Hw. pose proof Hw as (Hr & Hk & _)%prompt_some; [|apply lv_keys, Hd0].
    rewrite (proj2 (at_key_spec d0 k r (lv_keys d0 Hd0))) in Hf by done. rewrite <- Hk in *. by eapply advance_existing.
  - symmetry in Hw. rewrite prompt_none in Hw. apply at_key_none in Hw. rewrite Hw in Hf. by apply advance_new.
Qed.

(** ** The whole reconciliation *)

Definition loop_inv (d0 d : adb) : Prop := live_ok d /\ base d = base d0.

Lemma retire_unchanged dbnow now o d d' : retire dbnow now o d = Ok (false, d') -> d' = d.
Proof.
  unfold retire, tx_bind, update_output, update_jobs, delete_output, tx_write, tx_ret.
  by destruct (negb _ && _); [|destruct (negb _)].
Qed.

Lemma advance_unchanged dbnow now rev owner noteID streamID existing t d d' :
  advance uuid dbnow now rev owner noteID streamID existing t d = Ok (false, d') -> d' = d.
Proof.
  unfold advance. destruct (List.find _ _) as [o|].
  - intros (c & d1 & H1 & H)%tx_bind_ok. destruct (_ && _).
    + by apply tx_bind_ok in H as (? & ? & _ & [=]).
    + injection H as -> <-. destruct (_ <? _)%Z; [by apply tx_bind_ok in H1 as (? & ? & _ & [=])|by injection H1 as <-].
  - destruct (rev <=? 0)%Z; [by intros [=]|]. intros (? & ? & _ & H)%tx_bind_ok.
    apply tx_bind_ok in H as (? & ? & _ & H). by apply tx_bind_ok in H as (? & ? & _ & [=]).
Qed.

Lemma NoDup_sublist_keys {A B} (f : A -> B) (l : list A) n : NoDup (map f l) -> NoDup (map f (take n l)).
Proof. rewrite <- (take_drop n l) at 1. rewrite map_app. by intros [? _]%NoDup_app. Qed.

Lemma NoDup_eligible owner t : NoDup (map tp_id t) ->
  NoDup (map tm_ID (EligibleLiveTemplatesTx lower name_lt id_lt owner t).1).
Proof.
  intros Hnd. unfold EligibleLiveTemplatesTx, visibleLiveEligibleTemplatesTx.
  assert (H : NoDup (map tm_ID (map (scan_template true)
    (order_by (visible_before lower name_lt id_lt) (select_where (is_live owner) t))))).
  { rewrite map_map. eapply NoDup_Permutation_proper; [apply Permutation_map, order_by_perm|].
    by apply NoDup_map_filter. }
  destruct (_ <? _)%nat; cbn [fst]; [by apply NoDup_sublist_keys|done].
Qed.

(** The loop over the rows to retire. *)
Lemma retire_loop dbnow now l d0 b d' :
  live_ok d0 -> (forall r, r ∈ l -> r ∈ k_outputs d0) -> NoDup (map lo_key l) ->
  tx_any (retire dbnow now) (map (scanLiveOutput "") l) d0 = Ok (b, d') ->
  loop_inv d0 d' /\
  (forall r, r ∈ l -> prompt d' (lo_key r) = retired now (prompt d0 (lo_key r)) /\ b = true) /\
  (forall k, k ∉ map lo_key l -> prompt d' k = prompt d0 k).
Proof.
  intros Hd0 Hl Hnd H. set (key := fun o => (out_NoteID o, out_TemplateID o, out_StreamID o)).
  assert (Hkey : map key (map (scanLiveOutput "") l) = map lo_key l) by by rewrite map_map.
  edestruct (tx_any_pointwise prompt key (loop_inv d0) (prompt d0)
    (fun o c v => c = true /\ v = retired now (prompt d0 (key o)))) as (HI & Hall & Hfr); [..|exact H|].
  - intros o Ho d1 c d2 [Hd1 Hb1] Hw Hr. apply list_elem_of_fmap in Ho as (r & -> & Hr0%Hl).
    change (key (scanLiveOutput "" r)) with (lo_key r) in *.
    assert (Hp0 : prompt d0 (lo_key r) = Some (r, jobs_of (lo_id r) d0)) by by apply prompt_some; [apply lv_keys|].
    rewrite Hp0 in Hw. destruct (retire_effect dbnow now d1 r _ c d2 Hd1 Hw Hr) as (-> & Hd2 & Hb2 & Hp2).
    split; [split; [done|congruence]|]. split.
    + by rewrite Hp2, bool_decide_eq_true_2, Hp0.
    + intros k Hk. by rewrite Hp2, bool_decide_eq_false_2.
  - by rewrite Hkey.
  - done.
  - done.
  - rewrite Hkey in Hfr. split; [done|]. split; [|done]. intros r Hr.
    destruct (Hall (scanLiveOutput "" r)) as (c & [-> E] & Hc); [by apply list_elem_of_fmap_2|]. by split; [|apply Hc].
Qed.

(** The loop over the eligible templates. *)
Lemma advance_loop dbnow now rev owner noteID streamID l d0 d1 b d' :
  let k t := (noteID, tm_ID t, streamID) in
  live_ok d0 -> loop_inv d0 d1 -> (forall t, t ∈ l -> prompt d1 (k t) = prompt d0 (k t)) -> NoDup (map tm_ID l) ->
  tx_any (advance uuid dbnow now rev owner noteID streamID (lockLiveOutputsForStreamTx id_lt noteID streamID d0)) l d1 = Ok (b, d') ->
  loop_inv d0 d' /\
  (forall t, t ∈ l -> exists c, advanced dbnow now rev owner (k t) (prompt d0 (k t)) c (prompt d' (k t)) /\ (c = true -> b = true)) /\
  (forall k', (forall t, t ∈ l -> k' <> k t) -> prompt d' k' = prompt d1 k').
Proof.
  intros k Hd0 HI Hw Hnd H.
  edestruct (tx_any_pointwise prompt k (loop_inv d0) (prompt d0)
    (fun t c v => advanced dbnow now rev owner (k t) (prompt d0 (k t)) c v)) as (HI' & Hall & Hfr); [..|exact H|].
  - intros t Ht d2 c d3 [Hd2 Hb2] Hw2 Ha.
    destruct (advance_effect dbnow now rev owner noteID streamID d0 d2 t c d3 Hd0 Hd2 Hw2 Ha) as (Hd3 & Hb3 & Hadv & Hfr).
    split; [split; [done|congruence]|]. by split.
  - assert (map k l = map (fun x => (noteID, x, streamID)) (map tm_ID l)) as -> by by rewrite map_map.
    apply NoDup_fmap_2; [|done]. by intros ?? [= ->].
  - done.
  - done.
  - split; [done|]. split; [done|]. intros k' Hk. apply Hfr. intros (t & -> & Ht)%list_elem_of_fmap. by apply (Hk t).
Qed.

(** The rows the reconciliation retires. *)
Definition ineligible_rows (owner noteID streamID : string) (d : adb) : list output_row :=
  List.filter (fun r => negb (is_eligible lower name_lt id_lt owner (lo_template r) d))
    (order_by (fun a b => id_lt (lo_template a) (lo_template b)) (select_where (output_on noteID streamID) (k_outputs d))).

Lemma ineligible_rows_map owner noteID streamID d :
  List.filter (fun o => negb (existsb (fun t => (tm_ID t =? out_TemplateID o)%string)
      (EligibleLiveTemplatesTx lower name_lt id_lt owner (k_templates d)).1)) (lockLiveOutputsForStreamTx id_lt noteID streamID d) =
  map (scanLiveOutput "") (ineligible_rows owner noteID streamID d).
Proof.
  unfold lockLiveOutputsForStreamTx, ineligible_rows. induction (order_by _ _) as [|r l IH]; [done|]. cbn.
  unfold is_eligible. destruct (existsb _ _); cbn; [|f_equal]; apply IH.
Qed.

Lemma elem_of_ineligible owner noteID streamID d r :
  r ∈ ineligible_rows owner noteID streamID d <->
  r ∈ k_outputs d /\ lo_note r = noteID /\ lo_stream r = streamID /\ is_eligible lower name_lt id_lt owner (lo_template r) d = false.
Proof.
  unfold ineligible_rows. rewrite list_elem_of_In, filter_In, <- list_elem_of_In, elem_of_order_by, elem_of_select_where.
  unfold output_on. rewrite andb_true_iff, !String.eqb_eq, negb_true_iff. naive_solver.
Qed.

Lemma NoDup_ineligible owner noteID streamID d : live_ok d -> NoDup (map lo_key (ineligible_rows owner noteID streamID d)).
Proof.
  intros Hd. apply NoDup_map_filter. eapply NoDup_Permutation_proper; [apply Permutation_map, order_by_perm|].
  apply NoDup_map_filter, lv_keys, Hd.
Qed.

Definition eligible_templates (owner : string) (d : adb) : list Template :=
  (EligibleLiveTemplatesTx lower name_lt id_lt owner (k_templates d)).1.

Lemma applyEligibility_split dbnow now owner noteID transcriptID streamID d changed d' :
  applyEligibilityTx lower name_lt id_lt uuid dbnow now owner noteID transcriptID streamID d = Ok (changed, d') ->
  exists b1 d1 b2 d2,
    tx_any (retire dbnow now) (map (scanLiveOutput "") (ineligible_rows owner noteID streamID d)) d = Ok (b1, d1) /\
    tx_any (advance uuid dbnow now (finalizedRevisionTx transcriptID d) owner noteID streamID
      (lockLiveOutputsForStreamTx id_lt noteID streamID d)) (eligible_templates owner d) d1 = Ok (b2, d2) /\
    changed = b1 || b2 /\ d' = (if changed then notify noteID d2 else d2).
Proof.
  unfold applyEligibilityTx. intros (rev & d1 & [= <- <-] & H)%tx_bind_ok.
  apply tx_bind_ok in H as (el & d1 & [= <- <-] & H). apply tx_bind_ok in H as (ex & d1 & [= <- <-] & H).
  rewrite ineligible_rows_map in H. apply tx_bind_ok in H as (b1 & d1 & H1 & H).
  apply tx_bind_ok in H as (b2 & d2 & H2 & H). apply tx_bind_ok in H as (u & d3 & Hn & [= <- <-]).
  exists b1, d1, b2, d2. split; [done|]. split; [done|]. split; [done|]. destruct (b1 || b2); by injection Hn as _ <-.
Qed.

Lemma eligible_spec owner t d : is_eligible lower name_lt id_lt owner t d = true <->
  exists tm, tm ∈ eligible_templates owner d /\ tm_ID tm = t.
Proof.
  unfold is_eligible. rewrite existsb_exists. fold (eligible_templates owner d).
  setoid_rewrite String.eqb_eq. setoid_rewrite <- list_elem_of_In. done.
Qed.

(** What both loops together leave at each key. *)
Lemma loops_spec dbnow now rev owner noteID streamID d b1 d1 b2 d2 :
  live_ok d -> NoDup (map tp_id (k_templates d)) ->
  tx_any (retire dbnow now) (map (scanLiveOutput "") (ineligible_rows owner noteID streamID d)) d = Ok (b1, d1) ->
  tx_any (advance uuid dbnow now rev owner noteID streamID (lockLiveOutputsForStreamTx id_lt noteID streamID d))
    (eligible_templates owner d) d1 = Ok (b2, d2) ->
  loop_inv d d2 /\
  (forall t, let k := (noteID, t, streamID) in
     if is_eligible lower name_lt id_lt owner t d
     then exists c, advanced dbnow now rev owner k (prompt d k) c (prompt d2 k) /\ (c = true -> b1 || b2 = true)
     else prompt d2 k = retired now (prompt d k) /\ (is_Some (prompt d k) -> b1 || b2 = true)) /\
  (forall k, (k.1.1, k.2) <> (noteID, streamID) -> prompt d2 k = prompt d k).
Proof.
  intros Hd Hnt H1 H2.
  destruct (retire_loop dbnow now _ d b1 d1 Hd (fun r Hr => proj1 (proj1 (elem_of_ineligible _ _ _ _ _) Hr))
    (NoDup_ineligible owner noteID streamID d Hd) H1) as (HI1 & Hret & Hfr1).
  assert (Hin : forall t, t ∈ eligible_templates owner d -> is_eligible lower name_lt id_lt owner (tm_ID t) d = true).
  { intros t Ht. apply eligible_spec. by exists t. }
  destruct (advance_loop dbnow now rev owner noteID streamID (eligible_templates owner d) d d1 b2 d2 Hd HI1)
    as (HI2 & Hadv & Hfr2); [|by apply NoDup_eligible|done|].
  { intros t Ht. apply Hfr1. intros (r & E & Hr)%list_elem_of_fmap. apply elem_of_ineligible in Hr as (_ & _ & _ & He).
    injection E as _ E _. rewrite <- E, Hin in He by done. done. }
  split; [done|]. split.
  - intros t k. destruct (is_eligible lower name_lt id_lt owner t d) eqn:He.
    + apply eligible_spec in He as (tm & Htm & <-). destruct (Hadv tm Htm) as (c & Ha & Hc).
      exists c. split; [exact Ha|]. intros ->. by rewrite Hc, orb_true_r.
    + rewrite Hfr2 by (intros tm Htm%Hin [= ->]; congruence). destruct (prompt d k) as [[r js]|] eqn:Ep.
      * pose proof Ep as (Hr & Hk & ->)%prompt_some; [|apply lv_keys, Hd]. destruct (Hret r) as [Hp ->].
        { injection Hk as ? ? ?. apply elem_of_ineligible. by subst t. }
        split; [|done]. by rewrite <- Ep, <- Hk.
      * rewrite Hfr1; [by rewrite Ep; split; [|by intros []]|]. rewrite prompt_none in Ep.
        intros (r & E & Hr)%list_elem_of_fmap. apply elem_of_ineligible in Hr as (Hr & _). by apply (Ep r).
  - intros k Hk. rewrite Hfr2, Hfr1; [done| |].
    + intros (r & -> & Hr)%list_elem_of_fmap. apply elem_of_ineligible in Hr as (_ & <- & <- & _). by apply Hk.
    + intros t _ ->. by apply Hk.
Qed.

Lemma applyEligibility_spec dbnow now owner noteID transcriptID streamID d changed d' :
  live_ok d -> NoDup (map tp_id (k_templates d)) ->
  applyEligibilityTx lower name_lt id_lt uuid dbnow now owner noteID transcriptID streamID d = Ok (changed, d') ->
  live_ok d' /\ readonly d' = readonly d /\
  (forall t, let k := (noteID, t, streamID) in
     if is_eligible lower name_lt id_lt owner t d
     then exists c, advanced dbnow now (finalizedRevisionTx transcriptID d) owner k (prompt d k) c (prompt d' k) /\
                    (c = true -> changed = true)
     else prompt d' k = retired now (prompt d k) /\ (is_Some (prompt d k) -> changed = true)) /\
  (forall k, (k.1.1, k.2) <> (noteID, streamID) -> prompt d' k = prompt d k) /\
  (changed = false -> d' = d) /\ k_notified d' = k_notified d ++ (if changed then [noteID] else []).
Proof.
  intros Hd Hnt (b1 & d1 & b2 & d2 & H1 & H2 & Hc & Hd')%applyEligibility_split.
  destruct (loops_spec dbnow now _ owner noteID streamID d b1 d1 b2 d2 Hd Hnt H1 H2) as ([Hd2 Hb2] & Hkeys & Hother).
  apply pair_eq in Hb2 as [Hro Hno]. rewrite <- Hc in Hkeys.
  assert (Hp : forall k, prompt d' k = prompt d2 k).
  { intros k. subst d'. destruct changed; [|done]. apply prompt_tables; by autorewrite with tables. }
  split; [|split; [|split; [|split; [|split]]]].
  - subst d'. destruct changed; [|done]. apply (live_ok_tables d2); by autorewrite with tables.
  - subst d'. by destruct changed; autorewrite with tables.
  - intros t k. rewrite Hp. apply Hkeys.
  - intros k Hk. rewrite Hp. by apply Hother.
  - intros ->. symmetry in Hc. apply orb_false_iff in Hc as [-> ->]. subst d'.
    rewrite (tx_any_unchanged _ _ d1 d2 (fun x e1 e2 _ => advance_unchanged _ _ _ _ _ _ _ x e1 e2) H2).
    exact (tx_any_unchanged _ _ d d1 (fun x e1 e2 _ => retire_unchanged _ _ x e1 e2) H1).
  - subst d'. destruct changed; autorewrite with tables; by rewrite Hno, ?app_nil_r.
Qed.

(** ** Ending a stream, recovery *)

Lemma EndLiveTemplateStream_spec dbnow now noteID streamID d changed d' :
  live_ok d -> EndLiveTemplateStream id_lt dbnow now noteID streamID d = Ok (changed, d') ->
  live_ok d' /\ readonly d' = readonly d /\
  (forall k, prompt d' k = if bool_decide ((k.1.1, k.2) = (noteID, streamID)) then retired now (prompt d k) else prompt d k).
Proof.
  intros Hd. unfold EndLiveTemplateStream. intros (rows & d1 & [= <- <-] & H)%tx_bind_ok.
  apply tx_bind_ok in H as (b & d2 & H1 & H). apply tx_bind_ok in H as (u & d3 & Hn & [= <- <-]).
  unfold lockLiveOutputsForStreamTx in H1. set (l := order_by _ _) in H1.
  assert (Hl : forall r, r ∈ l <-> r ∈ k_outputs d /\ lo_note r = noteID /\ lo_stream r = streamID).
  { intros r. unfold l. rewrite elem_of_order_by, elem_of_select_where. unfold output_on.
    by rewrite andb_true_iff, !String.eqb_eq. }
  destruct (retire_loop dbnow now l d b d2 Hd) as ([Hd2 Hb2] & Hret & Hfr); [by intros r [? _]%Hl| |done|].
  { unfold l. eapply NoDup_Permutation_proper; [apply Permutation_map, order_by_perm|].
    apply NoDup_map_filter, lv_keys, Hd. }
  apply pair_eq in Hb2 as [Hro _].
  assert (Hp : forall k, prompt d3 k = prompt d2 k).
  { intros k. destruct b; injection Hn as _ <-; [|done]. apply prompt_tables; by autorewrite with tables. }
  split; [|split].
  - destruct b; injection Hn as _ <-; [|done]. apply (live_ok_tables d2); by autorewrite with tables.
  - destruct b; injection Hn as _ <-; by autorewrite with tables.
  - intros k. rewrite Hp. destruct (bool_decide_reflect ((k.1.1, k.2) = (noteID, streamID))) as [E|E].
    + destruct (prompt d k) as [[r js]|] eqn:Ep.
      * pose proof Ep as (Hr & <- & _)%prompt_some; [|apply lv_keys, Hd]. rewrite <- Ep. apply Hret, Hl.
        by injection E.
      * rewrite Hfr; [by rewrite Ep|]. rewrite prompt_none in Ep. intros (r & -> & [Hr _]%Hl)%list_elem_of_fmap.
        by apply (Ep r).
    + apply Hfr. intros (r & -> & (_ & Hn1 & Hs)%Hl)%list_elem_of_fmap. apply E. cbn. by rewrite Hn1, Hs.
Qed.

Lemma recover_one dbnow o d :
  tx_bind (update_jobs (pending_of_output (lo_id o)) (cancelled_row dbnow)) (fun _ => delete_output (lo_id o)) d =
  Ok (tt, without_output (lo_id o) d).
Proof.
  unfold tx_bind, update_jobs, delete_output, tx_write. fold (without_output (lo_id o) (put_jobs
    (update_where (pending_of_output (lo_id o)) (cancelled_row dbnow) (k_jobs d)) d)). do 2 f_equal.
  unfold without_output. rewrite put_jobs_jobs, delete_update; [by destruct d|done|].
  by intros x _ [? _]%andb_true_iff.
Qed.

Lemma notify_all l d : exists d', tx_each notifyLiveNoteTx l d = Ok (tt, d') /\ k_outputs d' = k_outputs d /\ k_jobs d' = k_jobs d /\
  readonly d' = readonly d.
Proof.
  revert d. induction l as [|n l IH]; intros d; cbn [tx_each]; [by exists d|].
  destruct (IH (notify n d)) as (d' & E & ? & ? & ?). exists d'. unfold tx_bind, notifyLiveNoteTx at 1, tx_write. rewrite E.
  autorewrite with tables in *. done.
Qed.

Lemma recover_loop dbnow l d : live_ok d ->
  exists d', tx_each (fun o => tx_bind (update_jobs (pending_of_output (lo_id o)) (cancelled_row dbnow))
      (fun _ => delete_output (lo_id o))) l d = Ok (tt, d') /\
  live_ok d' /\ readonly d' = readonly d /\
  (forall k, prompt d' k = match prompt d k with
                           | Some (r, js) => if bool_decide (lo_id r ∈ map lo_id l) then None else Some (r, js)
                           | None => None
                           end).
Proof.
  revert d. induction l as [|o l IH]; intros d Hd; cbn [tx_each].
  - exists d. do 3 (split; [done|]). intros k. by destruct (prompt d k) as [[]|].
  - unfold tx_bind at 1. rewrite recover_one.
    destruct (IH (without_output (lo_id o) d)) as (d' & E & Hd' & Hro & Hp); [by apply live_ok_delete|].
    exists d'. split; [done|]. split; [done|]. split; [rewrite Hro; by destruct d|].
    intros k. rewrite Hp, prompt_delete by apply lv_keys, Hd. destruct (prompt d k) as [[r js]|]; [|done].
    unfold output_is. cbn [map]. destruct (String.eqb_spec (lo_id r) (lo_id o)) as [Eo|Eo].
    + rewrite bool_decide_eq_true_2; [done|]. rewrite Eo. left.
    + assert (bool_decide (lo_id r ∈ lo_id o :: map lo_id l) = bool_decide (lo_id r ∈ map lo_id l)) as ->; [|done].
      apply bool_decide_ext. rewrite elem_of_cons. naive_solver.
Qed.

(** The sweep deletes the rows of its page, with their jobs, and nothing else. *)
Lemma RecoverLiveTemplateOutputs_spec dbnow now limit locked d :
  let page := recovery_page id_lt now limit locked d in
  live_ok d -> exists d',
  RecoverLiveTemplateOutputs id_lt dbnow now limit locked d = Ok ((first_seen (map lo_note page), length page), d') /\
  live_ok d' /\ readonly d' = readonly d /\
  (forall k, prompt d' k = match prompt d k with
                           | Some (r, js) => if bool_decide (lo_id r ∈ map lo_id page) then None else Some (r, js)
                           | None => None
                           end).
Proof.
  intros page Hd. unfold RecoverLiveTemplateOutputs. destruct (recover_loop dbnow page d Hd) as (d1 & E1 & Hd1 & Hro1 & Hp1).
  destruct (notify_all (first_seen (map lo_note page)) d1) as (d2 & E2 & Ho & Hj & Hro2).
  exists d2. split; [|split; [by apply (live_ok_tables d1)|split; [congruence|]]].
  - unfold tx_bind at 1, tx_read. fold page. unfold tx_bind at 1. rewrite E1. unfold tx_bind. by rewrite E2.
  - intros k. by rewrite (prompt_tables d1 d2) by done.
Qed.

(** ** Completing a run *)

(** The run of job [jobID] may publish to output [r]. *)
Definition may_publish (jobID : string) (r : output_row) (d : adb) : Prop :=
  r ∈ k_outputs d /\ lo_job r = Some jobID /\
  (exists transcriptID, currentStreamForNoteTx (lo_note r) d = Some (transcriptID, lo_stream r)) /\
  is_eligible lower name_lt id_lt (lo_owner r) (lo_template r) d = true.

Abbreviation fence jobID d := (liveCompletionFenceTx lower name_lt id_lt jobID d).

Lemma get_output_spec d id r : live_ok d -> get_output id d = Some r <-> r ∈ k_outputs d /\ lo_id r = id.
Proof.
  intros Hd. unfold get_output. split.
  - intros H. assert (Hr : r ∈ select_where (output_is id) (k_outputs d)) by (destruct (select_where _ _); [done|]; injection H as ->; left).
    apply elem_of_select_where in Hr as [? Hr]. by apply String.eqb_eq in Hr.
  - intros [Hr <-]. rewrite (select_key lo_id _ (k_outputs d) r (lv_ids d Hd) Hr); [done|apply String.eqb_refl|].
    intros x _ E. by apply String.eqb_eq in E.
Qed.

Lemma get_job_spec d id x : live_ok d -> head (select_where (Jobs.has_id id) (k_jobs d)) = Some x <-> x ∈ k_jobs d /\ r_id x = id.
Proof.
  intros Hd. split.
  - intros H. assert (Hr : x ∈ select_where (Jobs.has_id id) (k_jobs d)) by (destruct (select_where _ _); [done|]; injection H as ->; left).
    apply elem_of_select_where in Hr as [? Hr]. by apply String.eqb_eq in Hr.
  - intros [Hr <-]. rewrite (select_key r_id _ (k_jobs d) x); [done|apply (lv_jobs d Hd)|done|apply String.eqb_refl|].
    intros y _ E. by apply String.eqb_eq in E.
Qed.

Lemma active_is d r jobID : live_ok d -> r ∈ k_outputs d -> jobID <> "" ->
  (ActiveJobID (scanLiveOutput "" r) =? jobID)%string = true <-> lo_job r = Some jobID.
Proof.
  intros Hd Hr Hj. rewrite String.eqb_eq. cbn. destruct (lo_job r) as [j|]; cbn; [naive_solver|]. split; [congruence|done].
Qed.

(** The fence passes exactly the runs that may publish. *)
Lemma fence_passes jobID d o t : live_ok d -> jobID <> "" ->
  fence jobID d = Some (Some o, t, true) <->
  exists r x, may_publish jobID r d /\ o = scanLiveOutput "" r /\ x ∈ k_jobs d /\ r_id x = jobID /\
    r_live_output_id x = Some (lo_id r) /\ t = r_target_revision x.
Proof.
  intros Hd Hne. unfold liveCompletionFenceTx. split.
  - destruct (head _) as [x|] eqn:Ex; [|done]. apply get_job_spec in Ex as [Hx Hxj]; [|done].
    destruct (r_live_output_id x) as [oid|] eqn:El; [|done]. destruct (get_output oid d) as [r|] eqn:Er; [|done].
    apply get_output_spec in Er as [Hr <-]; [|done]. cbn [fmap option_fmap option_map]. intros [= <- <- H].
    exists r, x. split; [|done]. apply andb_true_iff in H as [[Hj Hs]%andb_true_iff He].
    split; [done|]. split; [by apply (active_is d)|]. split; [|done]. cbn in Hs.
    destruct (currentStreamForNoteTx (lo_note r) d) as [[tid s]|]; [|done]. apply String.eqb_eq in Hs as ->. by exists tid.
  - intros (r & x & (Hr & Hj & (tid & Hs) & He) & -> & Hx & Hxj & Hl & ->).
    assert (head (select_where (Jobs.has_id jobID) (k_jobs d)) = Some x) as -> by by apply get_job_spec.
    rewrite Hl. assert (get_output (lo_id r) d = Some r) as -> by by apply get_output_spec. cbn [fmap option_fmap option_map].
    apply (active_is d r jobID Hd Hr Hne) in Hj. rewrite Hj. cbn [out_NoteID out_StreamID out_OwnerID out_TemplateID scanLiveOutput].
    by rewrite Hs, String.eqb_refl, He.
Qed.

(** [may_publish] determines the output and needs the job's row. *)
Lemma may_publish_job jobID r d : live_ok d -> may_publish jobID r d ->
  exists x, x ∈ k_jobs d /\ r_id x = jobID /\ r_live_output_id x = Some (lo_id r).
Proof.
  intros Hd (Hr & Hj & _). pose proof (lv_active d Hd) as Ha. rewrite Forall_forall in Ha.
  destruct (Ha r Hr jobID Hj) as (_ & x & Hx). by exists x.
Qed.

Lemma keeps_finished st now : keeps_job (finished_row st now).
Proof. done. Qed.

Lemma live_ok_finish st dbnow (f : job_row -> job_row) jobID d :
  st = JobDone \/ st = JobFailed -> (forall r, f r = finished_row st dbnow r \/ f r = set_error None (finished_row st dbnow r)) ->
  live_ok d -> live_ok (put_jobs (update_where (Jobs.has_id jobID) f (k_jobs d)) d).
Proof.
  intros Hst Hf Hd. apply live_ok_update_jobs; [done| | |].
  - intros r. by destruct (Hf r) as [-> | ->].
  - intros r _. by destruct (Hf r) as [-> | ->]; destruct Hst as [-> | ->].
  - intros r []. destruct (Hf r) as [-> | ->]; destruct Hst as [-> | ->]; split; try done;
      by apply (bool_decide_unpack _); vm_compute.
Qed.

(** What is left when the fence stops a run: its output, with all its jobs. *)
Lemma discard_spec dbnow jobID r x d u d' :
  live_ok d -> r ∈ k_outputs d -> x ∈ k_jobs d -> r_id x = jobID -> r_live_output_id x = Some (lo_id r) ->
  discardIneligibleLiveRowTx dbnow jobID (Some (scanLiveOutput "" r)) d = Ok (u, d') ->
  k_outputs d' = k_outputs (without_output (lo_id r) d) /\ k_jobs d' = k_jobs (without_output (lo_id r) d) /\
  readonly d' = readonly d.
Proof.
  intros Hd Hr Hx Hxj Hl. unfold discardIneligibleLiveRowTx, tx_bind, delete_output, notifyLiveNoteTx, update_jobs, tx_write.
  cbn [out_ID out_NoteID scanLiveOutput]. fold (without_output (lo_id r) d). intros [= _ <-].
  autorewrite with tables. split; [done|]. split; [|by destruct d].
  apply update_where_unmatched. intros y Hy. apply not_true_iff_false. intros E%String.eqb_eq.
  unfold without_output in Hy. autorewrite with tables in Hy. apply elem_of_delete_where in Hy as [Hy Hyo].
  rewrite (unique_row (k_jobs d) y x (proj1 (proj2 (lv_jobs d Hd))) Hy Hx) in Hyo by congruence.
  by rewrite (proj2 (job_of_output_true _ _) Hl) in Hyo.
Qed.

(** The prompt after a run that publishes: the result, and a follow-up when more
    has been asked for since. *)
Definition completed (dbnow now : Z) (more : bool) (r1 : output_row) (js1 : list job_row)
    (v : option (output_row * list job_row)) : Prop :=
  if more then exists j, v = Some (queue j now r1, js1 ++ [live_job j (scanLiveOutput "" r1) (now + LiveScheduleCadence)%Z dbnow])
  else v = Some (r1, js1).

Lemma follow_up_effect dbnow now (more : bool) r r1 js1 d u d' :
  live_ok d -> prompt d (lo_key r1) = Some (r1, js1) -> lo_id r1 = lo_id r -> lo_key r1 = lo_key r ->
  (if more then follow_up uuid dbnow now (scanLiveOutput "" r) else tx_ret tt) d = Ok (u, d') ->
  live_ok d' /\ base d' = base d /\ completed dbnow now more r1 js1 (prompt d' (lo_key r)) /\
  (forall k, k <> lo_key r -> prompt d' k = prompt d k).
Proof.
  intros Hd Hp Hid Hk. destruct more; unfold completed.
  - unfold follow_up. intros Hs.
    destruct (schedule_effect dbnow now (with_started now (scanLiveOutput "" r)) d r1 js1 u d' Hd Hp (eq_sym Hid) Hs) as (j & Hd' & Hb & Hp').
    split; [done|]. split; [done|]. rewrite Hk in Hp'. split.
    + exists j. rewrite Hp', bool_decide_eq_true_2 by done. do 4 f_equal.
      unfold lo_key in Hk. injection Hk as Hn Ht Hs'. unfold live_job. cbn.
      unfold not_before, LiveScheduleCadence. cbn. rewrite Hid, Hn, Ht, Hs'.
      assert ((now <? now + 15 * second)%Z = true) as -> by (apply Z.ltb_lt; unfold second; lia). done.
    + intros k Hne. by rewrite Hp', bool_decide_eq_false_2.
  - intros [= _ <-]. split; [done|]. split; [done|]. split; [by rewrite <- Hk|done].
Qed.

(** An update of an output's job touches that output's prompt only. *)
Lemma prompt_update_job g jobID r x js d k :
  live_ok d -> prompt d (lo_key r) = Some (r, js) -> x ∈ k_jobs d -> r_id x = jobID -> r_live_output_id x = Some (lo_id r) ->
  (forall y, same_keys y (g y)) ->
  prompt (put_jobs (update_where (Jobs.has_id jobID) g (k_jobs d)) d) k =
  if bool_decide (k = lo_key r) then Some (r, update_where (Jobs.has_id jobID) g js) else prompt d k.
Proof.
  intros Hd Hp Hx Hxj Hl Hg. pose proof Hp as (Hr & _ & _)%prompt_some; [|apply lv_keys, Hd].
  rewrite prompt_update_jobs by done. destruct (bool_decide_reflect (k = lo_key r)) as [->|Hne]; [by rewrite Hp|].
  destruct (prompt d k) as [[r' js']|] eqn:E; [|done]. cbn. do 2 f_equal. apply update_where_unmatched.
  intros y Hy. apply not_true_iff_false. intros Ey%String.eqb_eq.
  apply prompt_some in E as (Hr' & <- & ->); [|apply lv_keys, Hd]. apply elem_of_select_where in Hy as [Hy Hyo%job_of_output_true].
  rewrite (unique_row (k_jobs d) y x (proj1 (proj2 (lv_jobs d Hd))) Hy Hx) in Hyo by congruence.
  apply Hne. f_equal. apply (key_unique lo_id (k_outputs d)); [apply (lv_ids d Hd)|done..|congruence].
Qed.

(** Settling the output and the job touches one prompt. *)
Lemma settle_effect f g st dbnow jobID r x js d :
  live_ok d -> prompt d (lo_key r) = Some (r, js) -> x ∈ k_jobs d -> r_id x = jobID -> r_live_output_id x = Some (lo_id r) ->
  keeps_keys f -> lo_job (f r) = None -> (0 <= lo_rendered (f r) <= lo_desired (f r))%Z -> lo_desired (f r) = lo_desired r ->
  st = JobDone \/ st = JobFailed -> (forall y, g y = finished_row st dbnow y \/ g y = set_error None (finished_row st dbnow y)) ->
  let d1 := put_outputs (update_where (output_is (lo_id r)) f (k_outputs d)) d in
  let d2 := put_jobs (update_where (Jobs.has_id jobID) g (k_jobs d1)) d1 in
  live_ok d2 /\ base d2 = base d /\
  (forall k, prompt d2 k = if bool_decide (k = lo_key r) then Some (f r, update_where (Jobs.has_id jobID) g js) else prompt d k).
Proof.
  intros Hd Hp Hx Hxj Hl Hf Hfj Hfr Hfd Hst Hg d1 d2.
  pose proof Hp as (Hr & _ & Hjs)%prompt_some; [|apply lv_keys, Hd].
  assert (Hd1 : live_ok d1).
  { apply live_ok_update; [done..|]. intros r' Hr' E. rewrite (key_unique lo_id (k_outputs d) r' r (lv_ids d Hd) Hr' Hr E).
    split; [intros j; by rewrite Hfj|]. by rewrite Hfd in *. }
  assert (Hd2 : live_ok d2) by by eapply live_ok_finish.
  split; [done|]. split; [by unfold d2, d1; autorewrite with tables|].
  assert (Hgk : forall y, same_keys y (g y)) by (intros y; by destruct (Hg y) as [-> | ->]).
  assert (Hp1 : forall k, prompt d1 k = if bool_decide (k = lo_key r) then Some (f r, js) else prompt d k)
    by (intros k; by apply prompt_update_at).
  pose proof (Hp1 (lo_key r)) as Hpr. rewrite bool_decide_eq_true_2 in Hpr by done.
  pose proof (Hf r) as (Hid & Hk & _). intros k. unfold d2.
  rewrite (prompt_update_job g jobID (f r) x js d1 k Hd1); [|by rewrite Hk|unfold d1; by autorewrite with tables|done|by rewrite Hid|done].
  rewrite Hk, Hp1. by destruct (bool_decide (k = lo_key r)).
Qed.

(** The prompts after a run whose result is discarded. *)
Definition discarded (jobID : string) (v : option (output_row * list job_row)) : option (output_row * list job_row) :=
  match v with
  | Some (r, js) => if exists_where (Jobs.has_id jobID) js then None else Some (r, js)
  | None => None
  end.

Lemma job_in_prompt jobID d k r js : live_ok d -> prompt d k = Some (r, js) ->
  exists_where (Jobs.has_id jobID) js = true <-> exists x, x ∈ k_jobs d /\ r_id x = jobID /\ r_live_output_id x = Some (lo_id r).
Proof.
  intros Hd (Hr & _ & ->)%prompt_some; [|apply lv_keys, Hd]. rewrite exists_where_true. unfold jobs_of.
  setoid_rewrite elem_of_select_where. setoid_rewrite job_of_output_true. setoid_rewrite String.eqb_eq. naive_solver.
Qed.

(** The outcomes of the fence that do not publish. *)
Lemma fence_stops dbnow jobID (kont : LiveTemplateOutput -> option Z -> Tx adb bool) d b d' :
  live_ok d ->
  (forall o t, fence jobID d <> Some (Some o, t, true)) ->
  match fence jobID d with
  | None => tx_ret false
  | Some (Some output, t, true) => kont output t
  | Some (output, _, _) => tx_bind (discardIneligibleLiveRowTx dbnow jobID output) (fun _ => tx_ret false)
  end d = Ok (b, d') ->
  b = false /\ live_ok d' /\ readonly d' = readonly d /\ (forall k, prompt d' k = discarded jobID (prompt d k)).
Proof.
  intros Hd Hno. unfold liveCompletionFenceTx in *.
  destruct (head (select_where (Jobs.has_id jobID) (k_jobs d))) as [x|] eqn:Ex.
  - apply get_job_spec in Ex as [Hx Hxj]; [|done]. destruct (r_live_output_id x) as [oid|] eqn:El.
    + pose proof (lv_refs d Hd x oid Hx El) as (r & Eid & Hr)%list_elem_of_fmap. subst oid.
      assert (get_output (lo_id r) d = Some r) as Eg by by apply get_output_spec. rewrite Eg in *.
      cbn [fmap option_fmap option_map] in *. destruct (_ && _ && _); [by edestruct Hno|]. clear Hno.
      intros (u & d1 & H & [= <- <-])%tx_bind_ok. apply (discard_spec dbnow jobID r x) in H as (Ho & Hj & Hro); [|done..].
      split; [done|]. split; [eapply live_ok_tables; [..|by apply (live_ok_delete (lo_id r))]; done|]. split; [done|].
      intros k. rewrite (prompt_tables _ _ k Ho Hj), prompt_delete by apply lv_keys, Hd.
      destruct (prompt d k) as [[r' js]|] eqn:Ep; [|done]. cbn. pose proof (job_in_prompt jobID d k r' js Hd Ep) as Hin.
      destruct (exists_where _ js).
      * destruct Hin as [(y & Hy & Hyj & Hyo) _]; [done|]. rewrite (unique_row (k_jobs d) y x) in Hyo; [|apply (lv_jobs d Hd)|done..|congruence].
        unfold output_is. rewrite (proj2 (String.eqb_eq _ _)); [done|]. congruence.
      * destruct (output_is (lo_id r) r') eqn:E; [|done]. apply String.eqb_eq in E. destruct Hin as [_ Hin]. discriminate Hin.
        exists x. by rewrite E.
    + intros [= <- <-]. do 3 (split; [done|]). intros k. destruct (prompt d k) as [[r' js]|] eqn:Ep; [|done]. cbn.
      destruct (exists_where _ js) eqn:E; [|done]. apply (job_in_prompt jobID d k r' js Hd Ep) in E as (y & Hy & Hyj & Hyo).
      rewrite (unique_row (k_jobs d) y x) in Hyo; [congruence|apply (lv_jobs d Hd)|done..|congruence].
  - intros [= <- <-]. do 3 (split; [done|]). intros k. destruct (prompt d k) as [[r' js]|] eqn:Ep; [|done]. cbn.
    destruct (exists_where _ js) eqn:E; [|done]. apply (job_in_prompt jobID d k r' js Hd Ep) in E as (y & Hy & Hyj & Hyo).
    assert (head (select_where (Jobs.has_id jobID) (k_jobs d)) = Some y) by by apply get_job_spec. congruence.
Qed.

Lemma stopped_run jobID d r : live_ok d -> jobID <> "" ->
  (forall o t, fence jobID d <> Some (Some o, t, true)) -> ~ may_publish jobID r d.
Proof.
  intros Hd Hne Hno Hm. destruct (may_publish_job jobID r d Hd Hm) as (x & Hx & Hxj & Hl).
  apply (Hno (scanLiveOutput "" r) (r_target_revision x)). apply fence_passes; [done..|]. by exists r, x.
Qed.

Lemma keeps_publish agent model sections target now : keeps_keys (publish agent model sections target now).
Proof. intros []. split; [done|]. split; [done|]. intros _. by apply (bool_decide_unpack _); vm_compute. Qed.
Lemma keeps_failure code now : keeps_keys (record_failure code now).
Proof. intros []. split; [done|]. split; [done|]. intros _. by apply (bool_decide_unpack _); vm_compute. Qed.

(** A run ends: [f] and [g] settle the output and the job, [more r] says whether
    a follow-up is due. *)
Lemma settled_run f g st dbnow now jobID r x (more : bool) d b d' :
  live_ok d -> may_publish jobID r d -> x ∈ k_jobs d -> r_id x = jobID -> r_live_output_id x = Some (lo_id r) ->
  keeps_keys f -> lo_job (f r) = None -> (0 <= lo_rendered (f r) <= lo_desired (f r))%Z -> lo_desired (f r) = lo_desired r ->
  st = JobDone \/ st = JobFailed -> (forall y, g y = finished_row st dbnow y \/ g y = set_error None (finished_row st dbnow y)) ->
  tx_bind (update_output (lo_id r) f) (fun _ => tx_bind (update_jobs (Jobs.has_id jobID) g) (fun _ =>
    tx_bind (if more then follow_up uuid dbnow now (scanLiveOutput "" r) else tx_ret tt) (fun _ =>
    tx_bind (notifyLiveNoteTx (lo_note r)) (fun _ => tx_ret true)))) d = Ok (b, d') ->
  b = true /\ live_ok d' /\ readonly d' = readonly d /\
  exists js, prompt d (lo_key r) = Some (r, js) /\
    completed dbnow now more (f r) (update_where (Jobs.has_id jobID) g js) (prompt d' (lo_key r)) /\
    (forall k, k <> lo_key r -> prompt d' k = prompt d k).
Proof.
  intros Hd Hm Hx Hxj Hl Hf Hfj Hfr Hfd Hst Hg H. set (js := jobs_of (lo_id r) d).
  assert (Hp : prompt d (lo_key r) = Some (r, js)) by (apply prompt_some; [apply lv_keys, Hd|split; [apply Hm|done]]).
  destruct (settle_effect f g st dbnow jobID r x js d) as (Hd2 & Hb2 & Hp2); [done..|]. cbv zeta in Hd2, Hb2, Hp2.
  apply tx_bind_ok in H as (u1 & d1 & [= _ <-] & H). apply tx_bind_ok in H as (u2 & d2 & [= _ <-] & H).
  apply tx_bind_ok in H as (u3 & d3 & Hfu & H). apply tx_bind_ok in H as (u4 & d4 & [= _ <-] & [= <- <-]).
  pose proof (Hp2 (lo_key r)) as Hpr. rewrite bool_decide_eq_true_2 in Hpr by done.
  rewrite <- (proj1 (proj2 (Hf r))) in Hpr at 1.
  destruct (follow_up_effect dbnow now more r _ _ _ u3 d3 Hd2 Hpr (proj1 (Hf r)) (proj1 (proj2 (Hf r))) Hfu) as (Hd3 & Hb3 & Hc & Hfr3).
  rewrite Hb2 in Hb3. apply pair_eq in Hb3 as [Hro _].
  split; [done|]. split; [by apply (live_ok_tables d3); autorewrite with tables|]. split; [by autorewrite with tables|].
  assert (Hp4 : forall k, prompt (notify (lo_note r) d3) k = prompt d3 k) by (intros k; apply prompt_tables; by autorewrite with tables).
  exists js. split; [done|]. rewrite Hp4. split; [done|]. intros k Hne. by rewrite Hp4, Hfr3, Hp2, bool_decide_eq_false_2.
Qed.

Lemma CompleteLiveGenerateSuccessTx_spec dbnow now jobID target agent model sections d published d' :
  live_ok d -> jobID <> "" -> (forall r, may_publish jobID r d -> (0 <= target <= lo_desired r)%Z) ->
  CompleteLiveGenerateSuccessTx lower name_lt id_lt uuid dbnow now jobID target agent model sections d = Ok (published, d') ->
  live_ok d' /\ readonly d' = readonly d /\
  if published then exists r js, may_publish jobID r d /\ prompt d (lo_key r) = Some (r, js) /\
    completed dbnow now (target <? lo_desired r)%Z (publish agent model sections target now r)
      (update_where (Jobs.has_id jobID) (fun y => set_error None (finished_row JobDone dbnow y)) js) (prompt d' (lo_key r)) /\
    (forall k, k <> lo_key r -> prompt d' k = prompt d k)
  else (forall r, ~ may_publish jobID r d) /\ (forall k, prompt d' k = discarded jobID (prompt d k)).
Proof.
  intros Hd Hne Ht. unfold CompleteLiveGenerateSuccessTx. intros (fen & d0 & [= <- <-] & H)%tx_bind_ok.
  destruct (fence jobID d) as [[[[o|] t] [|]]|] eqn:Ef.
  1:{ pose proof Ef as (r & x & Hm & -> & Hx & Hxj & Hl & ->)%fence_passes; [|done..]. cbn [out_ID out_NoteID DesiredRevision scanLiveOutput] in H.
      eapply (settled_run (publish agent model sections target now) (fun y => set_error None (finished_row JobDone dbnow y)) JobDone) in H
        as (-> & Hd' & Hro & js & Hp & Hc & Hfr); [|done..| | | | | |].
      - split; [done|]. split; [done|]. exists r, js. done.
      - apply keeps_publish.
      - by destruct r.
      - specialize (Ht r Hm). by destruct r.
      - by destruct r.
      - by left.
      - by right. }
  all: assert (Hno : forall o t, fence jobID d <> Some (Some o, t, true)) by (rewrite Ef; by intros ? ? [=]).
  all: pose proof (fence_stops dbnow jobID (fun _ _ => tx_ret true) d published d' Hd Hno) as Hs; rewrite Ef in Hs;
    destruct (Hs H) as (-> & Hd' & Hro & Hp); split; [done|]; split; [done|]; split; [|done]; intros r';
    by apply stopped_run.
Qed.

Lemma CompleteLiveGenerateFailureTx_spec dbnow now jobID code d recorded d' :
  live_ok d -> jobID <> "" ->
  CompleteLiveGenerateFailureTx lower name_lt id_lt uuid dbnow now jobID code d = Ok (recorded, d') ->
  live_ok d' /\ readonly d' = readonly d /\
  if recorded then exists r js x, may_publish jobID r d /\ prompt d (lo_key r) = Some (r, js) /\ x ∈ js /\ r_id x = jobID /\
    completed dbnow now (match r_target_revision x with Some t => (t <? lo_desired r)%Z | None => false end)
      (record_failure code now r) (update_where (Jobs.has_id jobID) (finished_row JobFailed dbnow) js) (prompt d' (lo_key r)) /\
    (forall k, k <> lo_key r -> prompt d' k = prompt d k)
  else (forall r, ~ may_publish jobID r d) /\ (forall k, prompt d' k = discarded jobID (prompt d k)).
Proof.
  intros Hd Hne. unfold CompleteLiveGenerateFailureTx. intros (fen & d0 & [= <- <-] & H)%tx_bind_ok.
  destruct (fence jobID d) as [[[[o|] t] [|]]|] eqn:Ef.
  1:{ pose proof Ef as (r & x & Hm & -> & Hx & Hxj & Hl & ->)%fence_passes; [|done..].
      assert (Hmore : forall m : bool, (match r_target_revision x with
          | Some t => if (t <? DesiredRevision (scanLiveOutput "" r))%Z then follow_up uuid dbnow now (scanLiveOutput "" r) else tx_ret tt
          | None => tx_ret tt end) =
        (if (match r_target_revision x with Some t => (t <? lo_desired r)%Z | None => false end)
         then follow_up uuid dbnow now (scanLiveOutput "" r) else tx_ret tt)) by (intros _; by destruct (r_target_revision x)).
      rewrite (Hmore true) in H.
      eapply (settled_run (record_failure code now) (finished_row JobFailed dbnow) JobFailed) in H
        as (-> & Hd' & Hro & js & Hp & Hc & Hfr); [|done..| | | | | |].
      - split; [done|]. split; [done|]. exists r, js, x. split; [done|]. split; [done|]. split; [|done].
        apply prompt_some in Hp as (_ & _ & ->); [|apply lv_keys, Hd]. apply elem_of_select_where. split; [done|].
        by apply job_of_output_true.
      - apply keeps_failure.
      - by destruct r.
      - pose proof (lv_revisions d Hd) as Hv. rewrite Forall_forall in Hv. specialize (Hv r (proj1 Hm)). by destruct r.
      - by destruct r.
      - by right.
      - by left. }
  all: assert (Hno : forall o t, fence jobID d <> Some (Some o, t, true)) by (rewrite Ef; by intros ? ? [=]).
  all: pose proof (fence_stops dbnow jobID (fun _ _ => tx_ret true) d recorded d' Hd Hno) as Hs; rewrite Ef in Hs;
    destruct (Hs H) as (-> & Hd' & Hro & Hp); split; [done|]; split; [done|]; split; [|done]; intros r';
    by apply stopped_run.
Qed.

(** ** Claiming a run *)

Definition captured (dbnow : Z) (jobID : string) (revision : Z) (js : list job_row) : list job_row :=
  update_where (Jobs.has_id jobID) (revision_if_null revision dbnow) js.

Lemma keeps_start now : keeps_keys (start now).
Proof. intros []. split; [done|]. split; [done|]. intros _. by apply (bool_decide_unpack _); vm_compute. Qed.

Lemma row_inv_captured revision dbnow y : row_inv y -> row_inv (revision_if_null revision dbnow y).
Proof. by intros []; split. Qed.

(** Capturing the target of an output's active job. *)
Lemma capture_effect dbnow jobID r x js d v d' :
  live_ok d -> prompt d (lo_key r) = Some (r, js) -> x ∈ k_jobs d -> r_id x = jobID -> r_live_output_id x = Some (lo_id r) ->
  capture_target dbnow jobID (lo_desired r) d = Ok (v, d') ->
  v = default (lo_desired r) (r_target_revision x) /\ live_ok d' /\ base d' = base d /\
  (forall k, prompt d' k = if bool_decide (k = lo_key r) then Some (r, captured dbnow jobID (lo_desired r) js) else prompt d k).
Proof.
  intros Hd Hp Hx Hxj Hl. pose proof Hp as (Hr & _ & Hjs)%prompt_some; [|apply lv_keys, Hd].
  pose proof (lv_jobs d Hd) as (Hinv & Hnd & Hu).
  unfold capture_target, SetJobTargetRevisionIfNull. destruct (select_where (Jobs.has_id jobID) (k_jobs d)) as [|x' l] eqn:E; [done|].
  assert (x' = x) as ->.
  { assert (Hh : head (select_where (Jobs.has_id jobID) (k_jobs d)) = Some x') by by rewrite E.
    apply get_job_spec in Hh as [Hx' Hxj']; [|done]. apply (unique_row (k_jobs d)); congruence. }
  intros [= <- <-]. split; [done|]. set (f := revision_if_null (lo_desired r) dbnow).
  assert (Hx1 : forall y, y ∈ k_jobs d -> Jobs.has_id jobID y = true -> y = x).
  { intros y Hy Ey%String.eqb_eq. apply (unique_row (k_jobs d)); congruence. }
  split; [|split; [by autorewrite with tables|]].
  - apply live_ok_jobs; [done| | |].
    + apply update_inv; [intros y _ _; apply row_inv_captured| |done]. intros y _. by split.
    + intros y' (y & Hy & ->)%elem_of_update_where. exists y. split; [done|]. destruct (Jobs.has_id jobID y) eqn:Ey; [|by eauto].
      split; [done|]. pose proof (Hx1 y Hy Ey) as ->. intros o w Ho Hlo. rewrite Hl in Hlo. injection Hlo as Hlo.
      assert (o = r) as -> by (symmetry; apply (key_unique lo_id (k_outputs d)); [apply (lv_ids d Hd)|done..]).
      cbn. intros [= <-]. destruct (r_target_revision x); [by left|right]. cbn.
      pose proof (lv_revisions d Hd) as Hv. rewrite Forall_forall in Hv. specialize (Hv r Hr). lia.
    + intros y Hy. exists (if Jobs.has_id jobID y then f y else y). split; [apply elem_of_update_where; eauto|].
      by destruct (Jobs.has_id jobID y).
  - intros k. by apply (prompt_update_job f jobID r x js d k).
Qed.

(** The claim of output [r] by [job] is valid. *)
Definition claimable_by (job : Job) (r : output_row) (transcriptID : string) (d : adb) : Prop :=
  may_publish (Jobs.ID job) r d /\ currentStreamForNoteTx (lo_note r) d = Some (transcriptID, lo_stream r) /\
  lo_stream r = Jobs.StreamID job.

Lemma claim_stream_spec job r d tid : live_ok d -> r ∈ k_outputs d -> Jobs.ID job <> "" ->
  claim_stream lower name_lt id_lt job (scanLiveOutput "" r) d = Some tid <-> claimable_by job r tid d.
Proof.
  intros Hd Hr Hne. unfold claim_stream, claimable_by, may_publish. cbn [out_NoteID out_StreamID out_OwnerID out_TemplateID scanLiveOutput].
  destruct (ActiveJobID (scanLiveOutput "" r) =? Jobs.ID job)%string eqn:Ej; cbn [negb].
  - apply (active_is d r _ Hd Hr Hne) in Ej. destruct (currentStreamForNoteTx (lo_note r) d) as [[t s]|]; [|split; [done|by intros (_ & [=] & _)]].
    destruct (_ && _ && _) eqn:E.
    + apply andb_true_iff in E as [[E1%String.eqb_eq E2%String.eqb_eq]%andb_true_iff E3]. split.
      * intros [= <-]. split; [|split; congruence]. split; [done|]. split; [done|]. split; [exists t; congruence|done].
      * intros (_ & [= -> _] & _). done.
    + split; [done|]. intros ((_ & _ & (t' & [= -> ->]) & He) & [= ->] & Hs).
      by rewrite Hs, He, !String.eqb_refl in E.
  - split; [done|]. intros ((_ & Hj & _) & _). apply (active_is d r _ Hd Hr Hne) in Hj. congruence.
Qed.

(** A valid claim: the target is captured and the output starts. *)
Lemma claim_effect dbnow now job r tid d res d' :
  live_ok d -> claimable_by job r tid d ->
  tx_bind (capture_target dbnow (Jobs.ID job) (lo_desired r)) (fun target =>
    tx_bind (update_output (lo_id r) (start now)) (fun _ => tx_bind (notifyLiveNoteTx (lo_note r)) (fun _ =>
    tx_ret (Some {| claim_Output := with_started now (scanLiveOutput "" r); claim_Target := target; claim_TranscriptID := tid |})))) d
    = Ok (res, d') ->
  live_ok d' /\ readonly d' = readonly d /\ exists js x, prompt d (lo_key r) = Some (r, js) /\ x ∈ js /\ r_id x = Jobs.ID job /\
    res = Some {| claim_Output := with_started now (scanLiveOutput "" r);
                  claim_Target := default (lo_desired r) (r_target_revision x); claim_TranscriptID := tid |} /\
    (forall k, prompt d' k = if bool_decide (k = lo_key r)
       then Some (start now r, captured dbnow (Jobs.ID job) (lo_desired r) js) else prompt d k).
Proof.
  intros Hd Hc H. destruct (may_publish_job _ r d Hd (proj1 Hc)) as (x & Hx & Hxj & Hl).
  assert (Hp : prompt d (lo_key r) = Some (r, jobs_of (lo_id r) d)) by (apply prompt_some; [by apply lv_keys|by split; [apply Hc|]]).
  apply tx_bind_ok in H as (v & d1 & Hcap & H).
  destruct (capture_effect dbnow _ r x _ d v d1 Hd Hp Hx Hxj Hl Hcap) as (-> & Hd1 & Hb1 & Hp1).
  apply tx_bind_ok in H as (u & d2 & [= _ <-] & H). apply tx_bind_ok in H as (u' & d3 & [= _ <-] & [= <- <-]).
  apply pair_eq in Hb1 as [Hro _]. split; [|split; [by autorewrite with tables; destruct d1|]].
  - eapply live_ok_tables; [..|apply (live_ok_update (lo_id r) (start now) d1 Hd1 (keeps_start now))]; [by autorewrite with tables..|].
    intros r' Hr' _. pose proof (lv_active d1 Hd1) as Ha. pose proof (lv_revisions d1 Hd1) as Hv. rewrite Forall_forall in Ha, Hv.
    specialize (Ha r' Hr'). specialize (Hv r' Hr'). destruct r'; cbn in *. split; [exact Ha|]. lia.
  - exists (jobs_of (lo_id r) d), x. split; [done|].
    split; [apply elem_of_select_where; split; [done|by apply job_of_output_true]|]. do 2 (split; [done|]). intros k.
    pose proof (Hp1 (lo_key r)) as Hpr. rewrite bool_decide_eq_true_2 in Hpr by done.
    rewrite (prompt_tables (put_outputs (update_where (output_is (lo_id r)) (start now) (k_outputs d1)) d1)) by by autorewrite with tables.
    rewrite (prompt_update_at _ d1 (lo_key r) r _ k Hd1 (keeps_start now) Hpr), Hp1. by destruct (bool_decide (k = lo_key r)).
Qed.

Lemma ClaimLiveGenerateJobTx_spec dbnow now job d res d' :
  live_ok d -> Jobs.ID job <> "" ->
  ClaimLiveGenerateJobTx lower name_lt id_lt dbnow now job d = Ok (res, d') ->
  live_ok d' /\ readonly d' = readonly d /\
  match res with
  | Some c => exists r js x, lo_id r = LiveOutputID job /\ claimable_by job r (claim_TranscriptID c) d /\
      claim_Output c = with_started now (scanLiveOutput "" r) /\
      prompt d (lo_key r) = Some (r, js) /\ x ∈ js /\ r_id x = Jobs.ID job /\
      claim_Target c = default (lo_desired r) (r_target_revision x) /\
      (forall k, prompt d' k = if bool_decide (k = lo_key r)
        then Some (start now r, captured dbnow (Jobs.ID job) (lo_desired r) js) else prompt d k)
  | None => (forall r tid, lo_id r = LiveOutputID job -> ~ claimable_by job r tid d) /\
      (forall k, prompt d' k = match prompt d k with
         | Some (r, js) => if output_is (LiveOutputID job) r then None else Some (r, js) | None => None end)
  end.
Proof.
  intros Hd Hne. unfold ClaimLiveGenerateJobTx. intros (row & d0 & [= <- <-] & H)%tx_bind_ok.
  destruct (get_output (LiveOutputID job) d) as [r|] eqn:Er; cbn [fmap option_fmap option_map] in H.
  - apply get_output_spec in Er as [Hr Hid]; [|done]. apply tx_bind_ok in H as (st & d0 & [= <- <-] & H).
    destruct (claim_stream _ _ _ job _ d) as [tid|] eqn:Ec.
    + apply claim_stream_spec in Ec as Hc; [|done..].
      apply (claim_effect dbnow now job r tid) in H as (Hd' & Hro & js & x & Hp & Hx & Hxj & -> & Hp'); [|done..].
      split; [done|]. split; [done|]. exists r, js, x. done.
    + apply tx_bind_ok in H as (u & d1 & [= _ <-] & [= <- <-]). cbn [out_ID scanLiveOutput]. fold (without_output (lo_id r) d). rewrite Hid.
      split; [by apply live_ok_delete|]. split; [by destruct d|]. split; [|intros k; apply prompt_delete, lv_keys, Hd].
      intros r' tid Hid' Hc. assert (r' = r) as -> by (apply (key_unique lo_id (k_outputs d)); [apply (lv_ids d Hd)|apply Hc|done|congruence]).
      apply claim_stream_spec in Hc; [congruence|done..].
  - injection H as <- <-. split; [done|]. split; [done|]. split.
    + intros r tid Hid Hc. assert (get_output (LiveOutputID job) d = Some r); [|congruence].
      apply get_output_spec; [done|]. split; [apply Hc|done].
    + intros k. destruct (prompt d k) as [[r js]|] eqn:Ep; [|done]. destruct (output_is _ r) eqn:Eo; [|done].
      apply String.eqb_eq in Eo. apply prompt_some in Ep as (Hr & _); [|apply lv_keys, Hd].
      assert (get_output (LiveOutputID job) d = Some r); [|congruence]. by apply get_output_spec.
Qed.

End Reconciliation.
