(* ===== verification/LiveRuns.v ===== *)
(** Histories of the live prompts ([Live]), and what a run that completes or a
    stream that is reconciled leaves behind. *)

From stdpp Require Import base list strings sets gmap relations.
From Stdlib Require Import ZArith Lia.
From S2P Require Import GoInt GoStrings Sql Transactions Jobs JobsProps Folders Execution Notes Transcripts Templates.
From S2P Require Import Summaries AgentTables TablesProps Live LiveProps.

Local Open Scope string_scope.
Local Open Scope list_scope.

(** ** The queue's operations, seen from the prompts *)

Lemma live_ok_queue o d :
  (forall id rev, op_of o <> OpRevision id rev) -> live_ok d -> live_ok (put_jobs (apply_op (job_references d) o (k_jobs d)) d).
Proof.
  intros Hr Hd. assert (Hinv : jobs_inv (apply_op (job_references d) o (k_jobs d))) by (apply apply_op_inv, Hd).
  destruct (op_of o) as [uuid spec| | | | | | | | |] eqn:Eo.
  1:{ destruct o as [now clock oo]. cbn in Eo. subst oo. unfold apply_op in *. cbn [op_of op_now op_clock] in *.
      destruct (EnqueueJob_appends (job_references d) uuid now spec (k_jobs d)) as [E|[E Hfk]]; rewrite E in *.
      { apply (live_ok_tables d); [by destruct d..|done]. }
      destruct Hd. split; autorewrite with tables; try done.
      - intros x o [Hx| ->%list_elem_of_singleton]%elem_of_app Ho; [by eapply lv_refs|by eapply job_references_output].
      - rewrite Forall_forall in *. intros r Hr0 j Hj. destruct (lv_active r Hr0 j Hj) as (? & x & Hx & ?).
        split; [done|]. exists x. split; [|done]. apply elem_of_app. by left.
      - apply Forall_app. split; [done|]. constructor; [|done]. by intros r v _ _ [=]. }
  all: destruct (apply_op_updates (job_references d) o (k_jobs d)) as (p & f & Hk & Ht & E); [rewrite Eo; by intros|];
    assert (Hf : keeps_job f) by (intros x; split; [by apply Hk|by apply Ht; rewrite Eo]); rewrite E in *; apply live_ok_jobs; [done|done| |].
  all: try (intros x' (x & Hx & ->)%elem_of_update_where; exists x; split; [done|];
    destruct (Hf x) as [(_ & _ & _ & _ & _ & _ & _ & E1 & _) Et]; destruct (p x); rewrite ?E1, ?Et; split; auto).
  all: intros x Hx; exists (if p x then f x else x); split; [apply elem_of_update_where; eauto|];
    destruct (Hf x) as [(E2 & _ & _ & _ & _ & _ & _ & E1 & _) _]; by destruct (p x).
Qed.

Section Histories.
Variable lower : string -> string.
Variable name_lt id_lt : string -> string -> bool.
Variable uuid : nat -> string.
Hypothesis uuid_named : forall n, uuid n <> "".

Abbreviation reconcile := (ReconcileStreamDemandTx lower name_lt id_lt uuid).
Abbreviation reconcile_owner := (ReconcileOwnerEligibilityTx lower name_lt id_lt uuid).
Abbreviation claim_live := (ClaimLiveGenerateJobTx lower name_lt id_lt).
Abbreviation succeed := (CompleteLiveGenerateSuccessTx lower name_lt id_lt uuid).
Abbreviation settle_failed := (CompleteLiveGenerateFailureTx lower name_lt id_lt uuid).
Abbreviation eligible := (is_eligible lower name_lt id_lt).
Abbreviation publishes := (may_publish lower name_lt id_lt).

(** The target a worker renders is the one its job captured. *)
Definition captured_target (jobID : string) (target : Z) (d : adb) : Prop :=
  exists x, x ∈ k_jobs d /\ r_id x = jobID /\ r_target_revision x = Some target.

(** The committed transactions of the live prompts, the queue's operations, the
    changes of other tables, and deletions that cascade ([p] the outputs, [q]
    the jobs that go). *)
Inductive live_step : adb -> adb -> Prop :=
| st_segment dbnow now owner note transcript stream d b d' :
    reconcile dbnow now owner note transcript stream d = Ok (b, d') -> live_step d d'
| st_owner dbnow now owner d u d' : reconcile_owner dbnow now owner d = Ok (u, d') -> live_step d d'
| st_end dbnow now note stream d b d' : EndLiveTemplateStream id_lt dbnow now note stream d = Ok (b, d') -> live_step d d'
| st_recover dbnow now limit locked d r d' :
    RecoverLiveTemplateOutputs id_lt dbnow now limit locked d = Ok (r, d') -> live_step d d'
| st_claim dbnow now job d c d' : Jobs.ID job <> "" -> claim_live dbnow now job d = Ok (c, d') -> live_step d d'
| st_success dbnow now jobID target agent model sections d b d' :
    jobID <> "" -> captured_target jobID target d ->
    succeed dbnow now jobID target agent model sections d = Ok (b, d') -> live_step d d'
| st_failure dbnow now jobID code d b d' : jobID <> "" -> settle_failed dbnow now jobID code d = Ok (b, d') -> live_step d d'
| st_queue o d : (forall id rev, op_of o <> OpRevision id rev) -> live_step d (put_jobs (apply_op (job_references d) o (k_jobs d)) d)
| st_elsewhere d d' :
    k_outputs d' = k_outputs d -> k_jobs d' = k_jobs d -> NoDup (map tp_id (k_templates d')) -> live_step d d'
| st_cascade p q d :
    (forall x o, x ∈ k_jobs d -> o ∈ k_outputs d -> r_live_output_id x = Some (lo_id o) -> q x = p o) ->
    live_step d (put_jobs (delete_where q (k_jobs d)) (put_outputs (delete_where p (k_outputs d)) d)).

Definition live_inv (d : adb) : Prop := live_ok d /\ NoDup (map tp_id (k_templates d)).

Lemma live_ok_cascade p q d :
  (forall x o, x ∈ k_jobs d -> o ∈ k_outputs d -> r_live_output_id x = Some (lo_id o) -> q x = p o) -> live_ok d ->
  live_ok (put_jobs (delete_where q (k_jobs d)) (put_outputs (delete_where p (k_outputs d)) d)).
Proof.
  intros Hpq []. split; autorewrite with tables.
  - by apply jobs_inv_delete.
  - by apply NoDup_map_delete.
  - by apply NoDup_map_delete.
  - rewrite Forall_forall in *. intros r [Hr _]%elem_of_delete_where. auto.
  - intros x o [Hx Hq]%elem_of_delete_where Ho. pose proof (lv_refs x o Hx Ho) as (r & -> & Hr)%list_elem_of_fmap.
    apply list_elem_of_fmap_2, elem_of_delete_where. split; [done|]. by rewrite <- (Hpq x r).
  - rewrite Forall_forall in *. intros r [Hr Hp]%elem_of_delete_where j Hj.
    destruct (lv_active r Hr j Hj) as (? & x & Hx & ? & Ho). split; [done|]. exists x. split; [|done].
    apply elem_of_delete_where. split; [done|]. by rewrite (Hpq x r).
  - rewrite Forall_forall in *. intros r [Hr _]%elem_of_delete_where. auto.
  - rewrite Forall_forall in *. intros x [Hx _]%elem_of_delete_where o v [Ho _]%elem_of_delete_where. by apply lv_targets.
Qed.

Lemma reconcile_inv dbnow now owner note transcript stream d b d' :
  live_inv d -> applyEligibilityTx lower name_lt id_lt uuid dbnow now owner note transcript stream d = Ok (b, d') ->
  live_inv d' /\ readonly d' = readonly d.
Proof.
  intros [Hd Hnt] H. apply applyEligibility_spec in H as (Hd' & Hro & _); [|done..]. split; [|done].
  split; [done|]. unfold readonly in Hro. injection Hro as -> _. done.
Qed.

Lemma reconcile_owner_inv dbnow now owner d u d' :
  live_inv d -> reconcile_owner dbnow now owner d = Ok (u, d') -> live_inv d' /\ readonly d' = readonly d.
Proof.
  intros Hd. unfold ReconcileOwnerEligibilityTx. intros (streams & d1 & [= <- <-] & H)%tx_bind_ok.
  apply (after_each (fun x => live_inv x /\ readonly x = readonly d)) in H; [done| |by split].
  intros st _ x a x' [Hx Hro] (b & x1 & Ha & [= _ <-])%tx_bind_ok. apply reconcile_inv in Ha as [? ->]; done.
Qed.

Lemma captured_ok jobID target d r : live_ok d -> captured_target jobID target d -> publishes jobID r d -> (0 <= target <= lo_desired r)%Z.
Proof.
  intros Hd (x & Hx & Hxj & Ht) Hm. destruct (may_publish_job _ _ _ jobID r d Hd Hm) as (y & Hy & Hyj & Hl).
  rewrite (unique_row (k_jobs d) y x) in Hl; [|apply (lv_jobs d Hd)|done..|congruence].
  pose proof (lv_targets d Hd) as H. rewrite Forall_forall in H. by apply (H x Hx r target); [apply Hm|..].
Qed.

Lemma live_step_inv d d' : live_step d d' -> live_inv d -> live_inv d'.
Proof.
  intros Hs [Hd Hnt]. assert (Hro : readonly d' = readonly d -> NoDup (map tp_id (k_templates d'))).
  { unfold readonly. by intros [= -> _]. }
  destruct Hs as [dbnow now owner note transcript stream d b d' H|dbnow now owner d u d' H|dbnow now note stream d b d' H|
    dbnow now limit locked d r d' H|dbnow now job d c d' Hj H|dbnow now jobID target agent model sections d b d' Hj Ht H|
    dbnow now jobID code d b d' Hj H|o d Ho|d d' E1 E2 Hnt'|p q d Hpq].
  - unfold ReconcileStreamDemandTx in H. apply tx_bind_ok in H as (row & d1 & [= <- <-] & H).
    destruct (head _) as [t|]; [|by injection H as _ <-]. destruct (_ || _); [by injection H as _ <-|].
    by eapply reconcile_inv.
  - by eapply reconcile_owner_inv.
  - apply EndLiveTemplateStream_spec in H as (? & ? & _); [|done]. by split; [|apply Hro].
  - destruct (RecoverLiveTemplateOutputs_spec id_lt dbnow now limit locked d Hd) as (d1 & E & ? & ? & _).
    rewrite E in H. injection H as _ <-. by split; [|apply Hro].
  - apply ClaimLiveGenerateJobTx_spec in H as (? & ? & _); [|done..]. by split; [|apply Hro].
  - apply CompleteLiveGenerateSuccessTx_spec in H as (? & ? & _); [|done..|intros; by eapply captured_ok]. by split; [|apply Hro].
  - apply CompleteLiveGenerateFailureTx_spec in H as (? & ? & _); [|done..]. by split; [|apply Hro].
  - split; [by apply live_ok_queue|]. by destruct d.
  - split; [by apply (live_ok_tables d)|done].
  - split; [by apply live_ok_cascade|]. by destruct d.
Qed.

(** The live prompts' tables stay well formed through any history of their
    own transactions, the queue's operations, changes of other tables and
    cascading deletions: one output per note, template and stream, whose active
    job is a job of that output, at most one of them pending or running; every
    job of an output refers to one that is there; an output never shows more
    than was asked for, and no job is told to render more than that. *)
Theorem live_tables_invariant d d' : live_inv d -> rtc live_step d d' -> live_inv d'.
Proof. intros Hd Hs. induction Hs as [|d d1 d2 H1 _ IH]; [done|]. by apply IH, (live_step_inv d). Qed.

(** The transcript is unsealed and the stream's. *)
Definition streams_to (transcript stream : string) (d : adb) : bool :=
  match head (select_where (fun t => (ts_id t =? transcript)%string) (k_transcripts d)) with
  | Some t => bool_decide (ts_stream t = Some stream) && negb (ts_sealed t)
  | None => false
  end.

(** A finalized segment reconciles the prompts of its stream, if that is
    still the transcript's unsealed stream: each of the owner's first eight live
    templates has an output that asks for every segment and, unless a run is
    under way, one new job, which may not start before the cadence allows; other
    outputs of the stream are deleted with their jobs or, while running, hidden;
    prompts of other streams are untouched; listeners are notified exactly when
    something changed. *)
Theorem reconcile_exact dbnow now owner note transcript stream d changed d' :
  live_inv d -> reconcile dbnow now owner note transcript stream d = Ok (changed, d') ->
  let rev := finalizedRevisionTx transcript d in
  if streams_to transcript stream d
  then (forall t, let k := (note, t, stream) in
          if eligible owner t d
          then exists c, advanced dbnow now rev owner k (prompt d k) c (prompt d' k) /\ (c = true -> changed = true)
          else prompt d' k = retired now (prompt d k) /\ (is_Some (prompt d k) -> changed = true)) /\
       (forall k, (k.1.1, k.2) <> (note, stream) -> prompt d' k = prompt d k) /\
       readonly d' = readonly d /\ k_notified d' = k_notified d ++ (if changed then [note] else []) /\
       (changed = false -> d' = d)
  else changed = false /\ d' = d.
Proof.
  intros [Hd Hnt] H. unfold ReconcileStreamDemandTx in H. apply tx_bind_ok in H as (row & d1 & [= <- <-] & H).
  unfold streams_to. destruct (head _) as [t|]; [|by injection H as <- <-].
  destruct (bool_decide (ts_stream t = Some stream)), (ts_sealed t); cbn in H |- *; try by injection H as <- <-.
  apply applyEligibility_spec in H as (_ & Hro & Hk & Ho & Hc & Hn); done.
Qed.

(** Jobs of no output, and the listeners told, after a run that was successful
    or not published. *)
Lemma elem_of_other_jobs (p : job_row -> bool) f t y :
  NoDup (map r_id t) -> (forall x, x ∈ t -> p x = true -> r_live_output_id x <> None) ->
  (forall x, r_live_output_id (f x) = r_live_output_id x) ->
  r_live_output_id y = None -> y ∈ update_where p f t <-> y ∈ t.
Proof.
  intros Hnd Hp Hf Hy. rewrite elem_of_update_where. split.
  - intros (x & Hx & ->). destruct (p x) eqn:E; [|done]. rewrite Hf in Hy. by apply Hp in E.
  - intros Hin. exists y. split; [done|]. destruct (p y) eqn:E; [|done]. by apply Hp in E.
Qed.

Lemma schedule_others dbnow now o d u d' :
  scheduleLiveJobTx uuid dbnow now o d = Ok (u, d') ->
  k_notified d' = k_notified d /\ forall y, r_live_output_id y = None -> y ∈ k_jobs d' <-> y ∈ k_jobs d.
Proof.
  unfold scheduleLiveJobTx. intros (j & d1 & [= <- <-] & H)%tx_bind_ok.
  apply tx_bind_ok in H as (u1 & d2 & Hi & [= _ <-]). apply insert_job_ok in Hi as (-> & _).
  split; [by destruct d|]. intros y Hy. autorewrite with tables. rewrite elem_of_app, list_elem_of_singleton.
  split; [|by left]. intros [?| ->]; [done|]. by cbn in Hy.
Qed.

Lemma run_others dbnow now jobID target agent model sections d published d' :
  live_ok d -> succeed dbnow now jobID target agent model sections d = Ok (published, d') ->
  (forall y, r_live_output_id y = None -> y ∈ k_jobs d' <-> y ∈ k_jobs d) /\
  (forall r x, r ∈ k_outputs d -> x ∈ k_jobs d -> r_id x = jobID -> r_live_output_id x = Some (lo_id r) ->
     k_notified d' = k_notified d ++ [lo_note r]) /\
  ((forall x, x ∈ k_jobs d -> r_id x = jobID -> r_live_output_id x = None) -> d' = d).
Proof.
  intros Hd H. pose proof (proj1 (proj2 (lv_jobs d Hd))) as Hnd.
  unfold CompleteLiveGenerateSuccessTx in H. apply tx_bind_ok in H as (fen & d0 & [= <- <-] & H).
  unfold liveCompletionFenceTx in H.
  destruct (head (select_where (Jobs.has_id jobID) (k_jobs d))) as [x|] eqn:Ex.
  2:{ injection H as _ <-. split; [done|]. split; [|done]. intros r x _ Hx Hxj _.
      assert (head (select_where (Jobs.has_id jobID) (k_jobs d)) = Some x) by by apply get_job_spec. congruence. }
  apply get_job_spec in Ex as [Hx Hxj]; [|done].
  assert (Hthe : forall y, y ∈ k_jobs d -> r_id y = jobID -> y = x) by (intros y Hy Hyj; apply (unique_row (k_jobs d)); congruence).
  destruct (r_live_output_id x) as [oid|] eqn:El.
  2:{ injection H as _ <-. split; [done|]. split; [|done]. intros r y _ Hy Hyj Hl. rewrite (Hthe y Hy Hyj) in Hl. congruence. }
  pose proof (lv_refs d Hd x oid Hx El) as (r & -> & Hr)%list_elem_of_fmap.
  assert (get_output (lo_id r) d = Some r) as Eg by by apply get_output_spec. rewrite Eg in H.
  cbn [fmap option_fmap option_map] in H.
  assert (Hown : forall y, y ∈ k_jobs d -> Jobs.has_id jobID y = true -> r_live_output_id y <> None).
  { intros y Hy Hyj%String.eqb_eq. rewrite (Hthe y Hy Hyj). congruence. }
  enough (Hgo : k_notified d' = k_notified d ++ [lo_note r] /\ forall y, r_live_output_id y = None -> y ∈ k_jobs d' <-> y ∈ k_jobs d).
  { destruct Hgo as [Hn Hj]. split; [done|]. split.
    - intros r' y Hr' Hy Hyj Hl. rewrite (Hthe y Hy Hyj), El in Hl.
      assert (r' = r) as ->; [|done]. apply (key_unique lo_id (k_outputs d)); [apply (lv_ids d Hd)|congruence..].
    - intros Hno. by rewrite (Hno x Hx Hxj) in El. }
  destruct (_ && _ && _).
  - apply tx_bind_ok in H as (u1 & d1 & [= _ <-] & H). apply tx_bind_ok in H as (u2 & d2 & [= _ <-] & H).
    apply tx_bind_ok in H as (u3 & d3 & Hf & H). apply tx_bind_ok in H as (u4 & d4 & [= _ <-] & [= _ <-]).
    assert (Hf' : k_notified d3 = k_notified d /\ forall y, r_live_output_id y = None -> y ∈ k_jobs d3 <->
      y ∈ update_where (Jobs.has_id jobID) (fun y => set_error None (finished_row JobDone dbnow y)) (k_jobs d)).
    { destruct (_ <? _)%Z.
      - apply schedule_others in Hf as [-> Hj]. split; [by destruct d|]. intros y Hy. rewrite Hj by done. by autorewrite with tables.
      - injection Hf as _ <-. split; [by destruct d|]. intros y _. by autorewrite with tables. }
    destruct Hf' as [En Hj]. split; [autorewrite with tables; by rewrite En|]. intros y Hy.
    autorewrite with tables. rewrite Hj by done. by apply elem_of_other_jobs.
  - apply tx_bind_ok in H as (u1 & d1 & H & [= _ <-]).
    unfold discardIneligibleLiveRowTx, tx_bind, delete_output, notifyLiveNoteTx, update_jobs, tx_write in H.
    injection H as _ <-. cbn [out_ID out_NoteID scanLiveOutput]. split; [by destruct d|]. intros y Hy.
    autorewrite with tables. rewrite elem_of_other_jobs; [|by apply NoDup_map_delete| |done|done].
    + rewrite elem_of_delete_where. split; [by intros []|]. intros Hin. split; [done|].
      unfold job_of_output. rewrite Hy. by apply bool_decide_eq_false.
    + intros z [Hz _]%elem_of_delete_where. by apply Hown.
Qed.

(** C18. A run that completes a live job with the target the job captured
    publishes if and only if the job is still the active job of an output whose
    stream is the note's current one and whose template is among the owner's
    first eight.  Then that output shows the result at the captured revision,
    the job is done, and a follow-up is queued exactly when more has been asked
    for since; every other output is as before, with its jobs.  Otherwise the
    result is discarded: the output the job belongs to is deleted with its
    jobs, and every other output is as before, with its jobs.  Either way no
    other table changes and no job of another kind does, the listeners of the
    output's note are told, and a job of no output changes nothing at all. *)
Theorem publish_fenced dbnow now jobID target agent model sections d published d' :
  live_inv d -> jobID <> "" -> captured_target jobID target d ->
  succeed dbnow now jobID target agent model sections d = Ok (published, d') ->
  (published = true <-> exists r, publishes jobID r d) /\
  (forall r, publishes jobID r d -> exists js, prompt d (lo_key r) = Some (r, js) /\
     completed dbnow now (target <? lo_desired r)%Z (publish agent model sections target now r)
       (update_where (Jobs.has_id jobID) (fun y => set_error None (finished_row JobDone dbnow y)) js) (prompt d' (lo_key r)) /\
     (forall k, k <> lo_key r -> prompt d' k = prompt d k)) /\
  (published = false -> forall k,
     prompt d' k = match prompt d k with
                   | Some (r, js) => if exists_where (Jobs.has_id jobID) js then None else Some (r, js)
                   | None => None
                   end) /\
  readonly d' = readonly d /\
  (forall y, r_live_output_id y = None -> y ∈ k_jobs d' <-> y ∈ k_jobs d) /\
  (forall r x, r ∈ k_outputs d -> x ∈ k_jobs d -> r_id x = jobID -> r_live_output_id x = Some (lo_id r) ->
     k_notified d' = k_notified d ++ [lo_note r]) /\
  ((forall x, x ∈ k_jobs d -> r_id x = jobID -> r_live_output_id x = None) -> d' = d).
Proof.
  intros [Hd _] Hj Ht H. pose proof (run_others _ _ _ _ _ _ _ _ _ _ Hd H) as Hrest.
  apply CompleteLiveGenerateSuccessTx_spec in H as (_ & Hro & H); [|done..|intros; by eapply captured_ok].
  destruct published.
  - destruct H as (r & js & Hm & Hp & Hc & Hfr). split; [by split; [exists r|]|]. split; [|done].
    intros r' Hm'. assert (r' = r) as ->; [|by exists js].
    destruct (may_publish_job _ _ _ jobID r d Hd Hm) as (x & Hx & Hxj & Hl).
    destruct (may_publish_job _ _ _ jobID r' d Hd Hm') as (y & Hy & Hyj & Hl').
    apply (key_unique lo_id (k_outputs d)); [apply (lv_ids d Hd)|apply Hm'|apply Hm|].
    rewrite (unique_row (k_jobs d) y x) in Hl'; [congruence|apply (lv_jobs d Hd)|done..|congruence].
  - destruct H as [Hno Hp]. split; [split; [done|by intros (r & ?%Hno)]|]. split; [by intros r ?%Hno|].
    split; [intros _ k; apply Hp|done].
Qed.

(** *** What a discarded run takes with it *)

Lemma discard_total dbnow now jobID target agent model sections d r x :
  live_ok d -> jobID <> "" -> r ∈ k_outputs d -> x ∈ k_jobs d -> r_id x = jobID -> r_live_output_id x = Some (lo_id r) ->
  ~ publishes jobID r d ->
  exists d', succeed dbnow now jobID target agent model sections d = Ok (false, d') /\
    (forall k, prompt d' k = if bool_decide (k = lo_key r) then None else prompt d k) /\
    (forall y, y ∈ k_jobs d' -> r_id y <> jobID).
Proof.
  intros Hd Hj Hr Hx Hxj Hl Hno. unfold CompleteLiveGenerateSuccessTx, tx_bind at 1, tx_read.
  destruct (liveCompletionFenceTx lower name_lt id_lt jobID d) as [[[o t] pass]|] eqn:Ef.
  2:{ exfalso. unfold liveCompletionFenceTx in Ef. rewrite (proj2 (get_job_spec d jobID x Hd)), Hl in Ef by done.
      by rewrite (proj2 (get_output_spec d (lo_id r) r Hd)) in Ef by done. }
  assert (o = Some (scanLiveOutput "" r) /\ pass = false) as [-> ->].
  { pose proof Ef as Ef'. unfold liveCompletionFenceTx in Ef'. rewrite (proj2 (get_job_spec d jobID x Hd)), Hl in Ef' by done.
    rewrite (proj2 (get_output_spec d (lo_id r) r Hd)) in Ef' by done. cbn [fmap option_fmap option_map] in Ef'.
    injection Ef' as <- _ Epass. split; [done|]. destruct pass; [|done]. exfalso.
    apply fence_passes in Ef as (r' & y & Hm & E & Hy & Hyj & Hyl & _); [|done..].
    rewrite (unique_row (k_jobs d) y x) in Hyl; [|apply (lv_jobs d Hd)|done..|congruence]. apply Hno.
    assert (r = r') as ->; [|done]. apply (key_unique lo_id (k_outputs d)); [apply (lv_ids d Hd)|done|apply Hm|congruence]. }
  destruct (discardIneligibleLiveRowTx dbnow jobID (Some (scanLiveOutput "" r)) d) as [[u d']|e] eqn:E; [|done].
  exists d'. unfold tx_bind. rewrite E. split; [done|]. apply (discard_spec dbnow jobID r x) in E as (Ho & Hjs & _); [|done..].
  split.
  - intros k. rewrite (prompt_tables _ _ k Ho Hjs). apply (prompt_delete_at d (lo_key r) r (jobs_of (lo_id r) d)); [done|].
    by apply prompt_some; [apply lv_keys|].
  - rewrite Hjs. unfold without_output. autorewrite with tables. intros y [Hy Hyo]%elem_of_delete_where Eid.
    rewrite (unique_row (k_jobs d) y x) in Hyo; [|apply (lv_jobs d Hd)|done..|congruence].
    by rewrite (proj2 (job_of_output_true _ _) Hl) in Hyo.
Qed.

(** A run whose result is discarded deletes its output, and the job that ran
    with it: settling the job afterwards finds no row, although the discard
    says it marks the job done. *)
Theorem discard_forgets_job dbnow now jobID target agent model sections d r x :
  live_inv d -> jobID <> "" -> r ∈ k_outputs d -> x ∈ k_jobs d -> r_id x = jobID -> r_live_output_id x = Some (lo_id r) ->
  ~ publishes jobID r d ->
  exists d', succeed dbnow now jobID target agent model sections d = Ok (false, d') /\
    (forall k, prompt d' k = if bool_decide (k = lo_key r) then None else prompt d k) /\
    CompleteJob dbnow jobID (k_jobs d') = (Err ErrNotFound, k_jobs d').
Proof.
  intros [Hd _] Hj Hr Hx Hxj Hl Hno.
  destruct (discard_total dbnow now jobID target agent model sections d r x Hd Hj Hr Hx Hxj Hl Hno) as (d' & E & Hp & Hgone).
  exists d'. split; [done|]. split; [done|]. unfold CompleteJob.
  assert (rows_affected (Jobs.has_id jobID) (k_jobs d') = 0)%nat as ->; [|done].
  destruct (rows_affected _ _) eqn:En; [done|]. exfalso.
  assert (0 < rows_affected (Jobs.has_id jobID) (k_jobs d'))%nat as (y & Hy & Ey%String.eqb_eq)%rows_affected_pos by (rewrite En; lia).
  by apply (Hgone y).
Qed.

(** A prompt right after its run published: the run's job is no longer active. *)
Lemma published_not_active dbnow now jobID target agent model sections d d' :
  live_ok d -> jobID <> "" -> captured_target jobID target d ->
  succeed dbnow now jobID target agent model sections d = Ok (true, d') ->
  live_ok d' /\ exists r r' x, publishes jobID r d /\ lo_key r' = lo_key r /\ r' ∈ k_outputs d' /\ lo_sections r' = sections /\
    x ∈ k_jobs d' /\ r_id x = jobID /\ r_live_output_id x = Some (lo_id r') /\ ~ publishes jobID r' d'.
Proof.
  intros Hd Hj Ht H. apply CompleteLiveGenerateSuccessTx_spec in H as (Hd' & _ & r & js & Hm & Hp & Hc & _);
    [|done..|intros; by eapply captured_ok]. split; [done|].
  destruct (may_publish_job _ _ _ jobID r d Hd Hm) as (x & Hx & Hxj & Hl).
  set (g := fun y => set_error None (finished_row JobDone dbnow y)) in *.
  set (r1 := publish agent model sections target now r) in *.
  assert (Hr1 : lo_key r1 = lo_key r /\ lo_id r1 = lo_id r /\ lo_sections r1 = sections /\ lo_job r1 = None) by (unfold r1; by destruct r).
  destruct Hr1 as (Hk1 & Hid1 & Hs1 & Hj1).
  assert (Hgx : g x ∈ update_where (Jobs.has_id jobID) g js).
  { apply elem_of_update_where. exists x. split; [|unfold Jobs.has_id; by rewrite (proj2 (String.eqb_eq _ _) Hxj)].
    apply prompt_some in Hp as (_ & _ & ->); [|apply lv_keys, Hd]. apply elem_of_select_where. split; [done|by apply job_of_output_true]. }
  unfold completed in Hc. destruct (target <? lo_desired r)%Z.
  - destruct Hc as (j & Hc). apply prompt_some in Hc as (Hr' & _ & Hjs); [|apply lv_keys, Hd'].
    assert (Hq : lo_id (queue j now r1) = lo_id r /\ lo_key (queue j now r1) = lo_key r /\ lo_sections (queue j now r1) = sections /\
      lo_job (queue j now r1) = Some j) by (rewrite <- Hid1, <- Hk1, <- Hs1; by destruct r1). destruct Hq as (Hqi & Hqk & Hqs & Hqj).
    assert (Hin : forall y, y ∈ update_where (Jobs.has_id jobID) g js ++ [live_job j (scanLiveOutput "" r1) (now + LiveScheduleCadence)%Z dbnow] ->
      y ∈ k_jobs d') by (intros y Hy; rewrite Hjs in Hy; by apply elem_of_select_where in Hy as [? _]).
    exists r, (queue j now r1), (g x). do 4 (split; [done|]). split; [apply Hin, elem_of_app; by left|]. split; [done|].
    split; [by rewrite Hqi|]. intros (_ & Ej & _). rewrite Hqj in Ej. injection Ej as ->.
    pose proof (jobs_inv_delete (fun y => negb (job_of_output (lo_id (queue jobID now r1)) y)) _ (lv_jobs d' Hd')) as (_ & Hnd & _).
    assert (Ed : delete_where (fun y => negb (job_of_output (lo_id (queue jobID now r1)) y)) (k_jobs d') = jobs_of (lo_id (queue jobID now r1)) d').
    { unfold delete_where, jobs_of, select_where. apply List.filter_ext. intros y. apply negb_involutive. }
    rewrite Ed, <- Hjs, map_app in Hnd. apply NoDup_app in Hnd as (_ & Hdis & _). apply (Hdis jobID); [|by apply list_elem_of_singleton].
    apply list_elem_of_fmap. by exists (g x).
  - apply prompt_some in Hc as (Hr' & _ & Hjs); [|apply lv_keys, Hd']. exists r, r1, (g x). do 4 (split; [done|]).
    split; [rewrite Hjs in Hgx; by apply elem_of_select_where in Hgx as [? _]|]. split; [done|]. split; [by rewrite Hid1|].
    intros (_ & Ej & _). congruence.
Qed.

(** When two workers run the same job, as they do after its lease expired,
    the second one to finish removes what the first has published, with the
    follow-up that may have been queued: the output is gone although its stream
    is current and its template eligible. *)
Theorem late_duplicate_discards dbnow now jobID target agent model sections d d1 dbnow2 now2 target2 agent2 model2 sections2 :
  live_inv d -> jobID <> "" -> captured_target jobID target d ->
  succeed dbnow now jobID target agent model sections d = Ok (true, d1) ->
  exists r r1 d2, publishes jobID r d /\ at_key (lo_key r) d1 = Some r1 /\ lo_sections r1 = sections /\
    succeed dbnow2 now2 jobID target2 agent2 model2 sections2 d1 = Ok (false, d2) /\ prompt d2 (lo_key r) = None.
Proof.
  intros [Hd _] Hj Ht H. apply published_not_active in H as (Hd1 & r & r1 & x & Hm & Hk & Hr1 & Hs & Hx & Hxj & Hl & Hno); [|done..].
  destruct (discard_total dbnow2 now2 jobID target2 agent2 model2 sections2 d1 r1 x Hd1 Hj Hr1 Hx Hxj Hl Hno) as (d2 & E & Hp & _).
  exists r, r1, d2. split; [done|]. split; [by apply at_key_spec; [apply lv_keys|]|]. split; [done|]. split; [done|].
  by rewrite Hp, Hk, bool_decide_eq_true_2.
Qed.

(** *** Hidden prompts *)

Definition hidden (v : option (output_row * list job_row)) : Prop :=
  match v with Some (r, _) => lo_visible r = false | None => False end.
Definition hidden_or_gone (v : option (output_row * list job_row)) : Prop := v = None \/ hidden v.

Lemma demand_visible rev now r : lo_visible (demand rev now r) = lo_visible r.
Proof. by destruct r. Qed.
Lemma queue_visible j now r : lo_visible (queue j now r) = lo_visible r.
Proof. by destruct r. Qed.

Lemma advanced_hidden dbnow now rev owner k v c v' : advanced dbnow now rev owner k v c v' -> hidden v -> hidden v'.
Proof.
  destruct v as [[r js]|]; [|done]. unfold advanced, hidden at 1. intros Ha Hh.
  set (r' := if (lo_desired r <? rev)%Z then demand rev now r else r) in Ha.
  assert (Hr : lo_visible r' = false) by (unfold r'; destruct (lo_desired r <? rev)%Z; by rewrite ?demand_visible).
  destruct (_ && _).
  - destruct Ha as (j & _ & ->). cbn. by rewrite queue_visible.
  - by destruct Ha as [_ ->].
Qed.

Lemma retired_hidden now v : hidden_or_gone (retired now v).
Proof. destruct v as [[r js]|]; [|by left]. cbn. destruct (runs r); [right; by destruct r|by left]. Qed.

Lemma completed_hidden dbnow now more r1 js1 v : completed dbnow now more r1 js1 v -> lo_visible r1 = false -> hidden v.
Proof. unfold completed. destruct more; [intros (j & ->)|intros ->]; by destruct r1. Qed.

(** What an owner's reconciliation keeps about one key. *)
Definition settled (owner t : string) (v : option (output_row * list job_row)) (d : adb) : Prop :=
  if eligible owner t d then hidden v else hidden_or_gone v.

Lemma reconcile_settled dbnow now owner note transcript stream k d b d' :
  live_inv d -> applyEligibilityTx lower name_lt id_lt uuid dbnow now owner note transcript stream d = Ok (b, d') ->
  settled owner k.1.2 (prompt d k) d -> settled owner k.1.2 (prompt d' k) d'.
Proof.
  intros [Hd Hnt] H. apply applyEligibility_spec in H as (_ & Hro & Hk & Hother & _); [|done..].
  assert (He : eligible owner k.1.2 d' = eligible owner k.1.2 d) by (unfold is_eligible; unfold readonly in Hro; by injection Hro as -> _).
  unfold settled. rewrite He. destruct (decide ((k.1.1, k.2) = (note, stream))) as [E|Hne]; [|by rewrite Hother].
  destruct k as [[n t] s]. cbn in E. injection E as -> ->. specialize (Hk t). cbv zeta in Hk. cbn [fst snd].
  destruct (eligible owner t d).
  - destruct Hk as (c & Ha & _). by eapply advanced_hidden.
  - destruct Hk as [-> _]. intros _. apply retired_hidden.
Qed.

Lemma hidden_settled owner t v d : hidden v -> settled owner t v d.
Proof. unfold settled. destruct (eligible owner t d); [done|]. by right. Qed.

Lemma settled_hidden owner t v d : settled owner t v d -> hidden_or_gone v.
Proof. unfold settled. destruct (eligible owner t d); [by right|done]. Qed.

Lemma discarded_hidden jobID v : hidden v -> hidden_or_gone (discarded jobID v).
Proof. destruct v as [[r js]|]; [|done]. cbn. destruct (exists_where _ js); [by left|by right]. Qed.

Lemma outputs_hidden d d' k : k_outputs d' = k_outputs d -> hidden (prompt d k) -> hidden_or_gone (prompt d' k).
Proof. intros E. unfold prompt, at_key. rewrite E. destruct (head _); [by right|done]. Qed.

(** A prompt that was hidden is never shown again: whatever happens next, it
    stays hidden until its row is deleted.  In particular a template that is
    disabled and enabled again while it runs publishes to a hidden output. *)
Theorem hidden_for_good d d' k :
  live_inv d -> live_step d d' -> hidden (prompt d k) -> prompt d' k = None \/ hidden (prompt d' k).
Proof.
  intros [Hd Hnt] Hs Hh. fold (hidden_or_gone (prompt d' k)). assert (Hsame : hidden_or_gone (prompt d k)) by by right.
  destruct Hs as [dbnow now owner note transcript stream d b d' H|dbnow now owner d u d' H|dbnow now note stream d b d' H|
    dbnow now limit locked d r d' H|dbnow now job d c d' Hj H|dbnow now jobID target agent model sections d b d' Hj Ht H|
    dbnow now jobID code d b d' Hj H|o d Ho|d d' E1 E2 Hnt'|p q d Hpq].
  - unfold ReconcileStreamDemandTx in H. apply tx_bind_ok in H as (row & d1 & [= <- <-] & H).
    destruct (head _) as [t|]; [|by injection H as _ <-]. destruct (_ || _); [by injection H as _ <-|].
    apply (reconcile_settled _ _ _ _ _ _ k) in H; [by apply settled_hidden in H|done|by apply hidden_settled].
  - unfold ReconcileOwnerEligibilityTx in H. apply tx_bind_ok in H as (streams & d1 & [= <- <-] & H).
    apply (after_each (fun x => live_inv x /\ settled owner k.1.2 (prompt x k) x)) in H;
      [by destruct H as [_ H%settled_hidden]| |split; [done|by apply hidden_settled]].
    intros st _ x a x' [Hx Hset] (b & x1 & Ha & [= _ <-])%tx_bind_ok. split; [by apply reconcile_inv in Ha as [? _]|].
    by eapply reconcile_settled.
  - apply EndLiveTemplateStream_spec in H as (_ & _ & Hp); [|done]. rewrite Hp. case_bool_decide; [apply retired_hidden|done].
  - destruct (RecoverLiveTemplateOutputs_spec id_lt dbnow now limit locked d Hd) as (d1 & E & _ & _ & Hp).
    rewrite E in H. injection H as _ <-. rewrite Hp. destruct (prompt d k) as [[r0 js]|]; [|done].
    by case_bool_decide; [left|].
  - apply ClaimLiveGenerateJobTx_spec in H as (_ & _ & H); [|done..]. destruct c as [c|].
    + destruct H as (r & js & x & _ & _ & _ & Hp0 & _ & _ & _ & Hp). rewrite Hp. case_bool_decide; [subst k|done].
      rewrite Hp0 in Hh. right. by destruct r.
    + destruct H as [_ Hp]. rewrite Hp. destruct (prompt d k) as [[r0 js]|]; [|done]. by destruct (output_is _ r0); [left|].
  - apply CompleteLiveGenerateSuccessTx_spec in H as (_ & _ & H); [|done..|intros; by eapply captured_ok]. destruct b.
    + destruct H as (r & js & _ & Hp0 & Hc & Hfr). destruct (decide (k = lo_key r)) as [->|Hne]; [|by rewrite Hfr].
      right. eapply completed_hidden; [done|]. rewrite Hp0 in Hh. by destruct r.
    + destruct H as [_ ->]. by apply discarded_hidden.
  - apply CompleteLiveGenerateFailureTx_spec in H as (_ & _ & H); [|done..]. destruct b.
    + destruct H as (r & js & x & _ & Hp0 & _ & _ & Hc & Hfr). destruct (decide (k = lo_key r)) as [->|Hne]; [|by rewrite Hfr].
      right. eapply completed_hidden; [done|]. rewrite Hp0 in Hh. by destruct r.
    + destruct H as [_ ->]. by apply discarded_hidden.
  - apply (outputs_hidden d); [by destruct d|done].
  - by apply (outputs_hidden d).
  - destruct (prompt d k) as [[r js]|] eqn:E; [|done]. apply prompt_some in E as (Hr & Hk & _); [|apply lv_keys, Hd].
    set (d' := put_jobs _ _). destruct (prompt d' k) as [[r' js']|] eqn:E'; [right|by left].
    apply prompt_some in E' as (Hr' & Hk' & _); [|by apply lv_keys, live_ok_cascade].
    unfold d' in Hr'. autorewrite with tables in Hr'. apply elem_of_delete_where in Hr' as [Hr' _].
    by rewrite (key_unique lo_key (k_outputs d) r' r (lv_keys d Hd) Hr' Hr) by congruence.
Qed.

End Histories.

(** ** A recording with one live template *)

Module LiveDemo.

Definition demo_uuid (i : nat) : string := ("u" ++ Itoa (Z.of_nat i))%string.
Definition demo_lower (s : string) : string := s.
Definition demo_lt (a b : string) : bool := match String.compare a b with Lt => true | _ => false end.

Definition live_template (auto_run : bool) : template_row :=
  mkTemplate "t1" (Some "ann") "Questions" templatePhaseDuring [{| Heading := "Open"; Instruction := "List them." |}] auto_run
    None None None.
Definition demo_note : note_row := Notes.mkRow "n1" "ann" "Standup" NoteRecording false (Some 0%Z) None false None "" 0 0 None None None None None.
Definition demo_transcript : transcript_row := mkTranscriptRow "tr1" "n1" "stream" "m" ReviewStateCompleted (Some "s1") false 1.
Definition demo_segment (id : string) (t : Z) : segment_row := mkSegmentRow "tr1" {|
  seg_ID := id; StartMS := t; EndMS := t + 900; Text := "hello"; seg_Source := "mic"; Speaker := ""; Words := [];
  Confidence := None; Boundary := ""; Provisional := true |}.

Definition recording : adb :=
  mkAdb [live_template true] [] [demo_note] [demo_transcript] [demo_segment "g1" 0] [] [] [] [] [] 0 [].

Definition state_after {A} (m : Tx adb A) (d : adb) : adb := match m d with Ok (_, d') => d' | Err _ => d end.

Definition at_time (t : Z) : Z := (t * second)%Z.
Definition on_segment (t : Z) : Tx adb bool :=
  ReconcileStreamDemandTx demo_lower demo_lt demo_lt demo_uuid (at_time t) (at_time t) "ann" "n1" "tr1" "s1".
Definition on_template_change (t : Z) : Tx adb unit :=
  ReconcileOwnerEligibilityTx demo_lower demo_lt demo_lt demo_uuid (at_time t) (at_time t) "ann".

(** The segment queues job u1 for output u0; a worker claims it. *)
Definition queued : adb := state_after (on_segment 1) recording.
Definition claim_op (t : Z) : timed_op := At (at_time t) (at_time t) (OpClaim (at_time 60) (fun _ => false)).
Definition leased : adb := put_jobs (apply_op (job_references queued) (claim_op 2) (k_jobs queued)) queued.
Definition live_worker_job : Job := {|
  Jobs.ID := "u1"; Jobs.NoteID := "n1"; CalendarEventID := ""; BriefID := ""; BriefGeneration := 0; TemplateID := "t1";
  Jobs.StreamID := "s1"; LiveOutputID := "u0"; TargetRevision := None; Type_ := JobLiveGenerate; Jobs.Status := JobRunning;
  Attempts := 1; LastError := ""; Priority := 0; Jobs.StartedAt := Some (at_time 2); FinishedAt := None; Payload := "{}" |}.
Definition claim_run : Tx adb (option LiveClaimResult) :=
  ClaimLiveGenerateJobTx demo_lower demo_lt demo_lt (at_time 2) (at_time 2) live_worker_job.
Definition running : adb := state_after claim_run leased.

Definition answer : list SummarySection := [{| s_Heading := "Open"; ContentMarkdown := "none"; Refs := [] |}].
Definition finish (t : Z) : Tx adb bool :=
  CompleteLiveGenerateSuccessTx demo_lower demo_lt demo_lt demo_uuid (at_time t) (at_time t) "u1" 1 "agent" "m" answer.

(** Meanwhile the template is disabled, and then enabled again. *)
Definition disabled : adb := state_after (on_template_change 3) (put_templates [live_template false] running).
Definition enabled : adb := state_after (on_template_change 4) (put_templates [live_template true] disabled).

Example claimed_for_worker : (ClaimJob (at_time 2) (at_time 2) (at_time 60) (fun _ => false) (k_jobs queued)).1 = Some live_worker_job.
Proof. reflexivity. Qed.

Example published_and_shown : option_map (fun o => (out_Sections o, RenderedRevision o))
  (head (ListVisibleLiveTemplateOutputs demo_lower demo_lt demo_lt "ann" "n1" (state_after (finish 5) running))) = Some (answer, 1%Z).
Proof. reflexivity. Qed.

(** The run of the re-enabled template publishes to nobody. *)
Example published_and_hidden :
  exists d', finish 5 enabled = Ok (true, d') /\ map lo_sections (k_outputs d') = [answer] /\
    is_eligible demo_lower demo_lt demo_lt "ann" "t1" d' = true /\
    ListVisibleLiveTemplateOutputs demo_lower demo_lt demo_lt "ann" "n1" d' = [].
Proof. eexists. split; [vm_compute; reflexivity|]. by split. Qed.

(** *** The theorems at work *)

Lemma demo_uuid_named n : demo_uuid n <> "".
Proof. done. Qed.

Abbreviation demo_step := (live_step demo_lower demo_lt demo_lt demo_uuid).

Lemma recording_inv : live_inv recording.
Proof.
  split; [|apply NoDup_singleton]. split; cbn; try constructor; try (by constructor).
  - by split; [constructor|].
  - by intros x o ?%elem_of_nil.
Qed.

Lemma to_queued : demo_step recording queued.
Proof. apply (st_segment _ _ _ _ (at_time 1) (at_time 1) "ann" "n1" "tr1" "s1" _ true). vm_compute. reflexivity. Qed.
Lemma to_leased : demo_step queued leased.
Proof. by apply st_queue. Qed.
Lemma to_running : demo_step leased running.
Proof. apply (st_claim _ _ _ _ (at_time 2) (at_time 2) live_worker_job _ (match claim_run leased with Ok (c, _) => c | Err _ => None end)); [done|]. vm_compute. reflexivity. Qed.
Lemma switched b d : k_templates d = k_templates d -> demo_step d (put_templates [live_template b] d).
Proof. intros _. apply st_elsewhere; [by destruct d..|]. destruct d. apply NoDup_singleton. Qed.
Lemma to_disabled : demo_step (put_templates [live_template false] running) disabled.
Proof. apply (st_owner _ _ _ _ (at_time 3) (at_time 3) "ann" _ tt). vm_compute. reflexivity. Qed.
Lemma to_enabled : demo_step (put_templates [live_template true] disabled) enabled.
Proof. apply (st_owner _ _ _ _ (at_time 4) (at_time 4) "ann" _ tt). vm_compute. reflexivity. Qed.

Lemma history d d' : demo_step d d' -> live_inv d -> live_inv d'.
Proof. apply live_step_inv, demo_uuid_named. Qed.

Lemma running_live_inv : live_inv running.
Proof. eapply history; [apply to_running|]. eapply history; [apply to_leased|]. eapply history; [apply to_queued|]. apply recording_inv. Qed.
Lemma enabled_inv : live_inv enabled.
Proof.
  eapply history; [apply to_enabled|]. eapply history; [by apply switched|]. eapply history; [apply to_disabled|].
  eapply history; [by apply switched|]. apply running_live_inv.
Qed.
Lemma captured_u1 d : running = d \/ enabled = d -> captured_target "u1" 1 d.
Proof.
  intros [<- | <-]; [exists (hd (live_job "" (scanLiveOutput "" (new_output "" "" "" "" "" 0 0)) 0 0) (k_jobs running))
    |exists (hd (live_job "" (scanLiveOutput "" (new_output "" "" "" "" "" 0 0)) 0 0) (k_jobs enabled))]; (split; [vm_compute; left|done]).
Qed.

Lemma live_tables_invariant_witness : live_inv recording /\ rtc demo_step recording running /\ live_inv running.
Proof.
  assert (H : rtc demo_step recording running).
  { eapply rtc_l; [apply to_queued|]. eapply rtc_l; [apply to_leased|]. apply rtc_once, to_running. }
  split; [apply recording_inv|]. split; [exact H|].
  exact (live_tables_invariant demo_lower demo_lt demo_lt demo_uuid demo_uuid_named _ _ recording_inv H).
Defined.

Lemma reconcile_exact_witness : on_segment 1 recording = Ok (true, queued) /\
  exists c, advanced (at_time 1) (at_time 1) 1 "ann" ("n1", "t1", "s1") None c (prompt queued ("n1", "t1", "s1")) /\ (c = true -> true = true).
Proof.
  assert (H : on_segment 1 recording = Ok (true, queued)) by (vm_compute; reflexivity). split; [exact H|].
  exact (proj1 (reconcile_exact demo_lower demo_lt demo_lt demo_uuid demo_uuid_named _ _ _ _ _ _ _ _ _ recording_inv H) "t1").
Defined.

(** Disabled while it runs: the result is discarded. *)
Definition the_output (d : adb) : output_row := hd (new_output "" "" "" "" "" 0 0) (k_outputs d).
Definition the_job (d : adb) : job_row := hd (live_job "" (scanLiveOutput "" (the_output d)) 0 0) (k_jobs d).

Lemma disabled_inv : live_inv disabled.
Proof. eapply history; [apply to_disabled|]. eapply history; [by apply switched|]. apply running_live_inv. Qed.

Lemma captured_disabled : captured_target "u1" 1 disabled.
Proof. exists (the_job disabled). split; [vm_compute; left|done]. Qed.

(** One run publishes; another, whose template was disabled, is discarded. *)
Lemma publish_fenced_witness :
  (finish 5 running = Ok (true, state_after (finish 5) running) /\ exists r, may_publish demo_lower demo_lt demo_lt "u1" r running) /\
  finish 5 disabled = Ok (false, state_after (finish 5) disabled) /\
  prompt disabled ("n1", "t1", "s1") <> None /\ prompt (state_after (finish 5) disabled) ("n1", "t1", "s1") = None.
Proof.
  assert (H : finish 5 running = Ok (true, state_after (finish 5) running)) by (vm_compute; reflexivity).
  assert (H' : finish 5 disabled = Ok (false, state_after (finish 5) disabled)) by (vm_compute; reflexivity).
  split; [split; [exact H|]|split; [exact H'|split; [by vm_compute|]]].
  - exact (proj1 (proj1 (publish_fenced demo_lower demo_lt demo_lt demo_uuid demo_uuid_named _ _ "u1" 1 "agent" "m" answer running true _
      running_live_inv ltac:(done) (captured_u1 running (or_introl eq_refl)) H)) eq_refl).
  - rewrite (proj1 (proj2 (proj2 (publish_fenced demo_lower demo_lt demo_lt demo_uuid demo_uuid_named (at_time 5) (at_time 5) "u1" 1 "agent" "m" answer disabled false _
      disabled_inv ltac:(done) captured_disabled H'))) eq_refl). by vm_compute.
Defined.

Lemma late_duplicate_discards_witness : finish 5 running = Ok (true, state_after (finish 5) running) /\
  exists r r1 d2, may_publish demo_lower demo_lt demo_lt "u1" r running /\
    at_key (lo_key r) (state_after (finish 5) running) = Some r1 /\ lo_sections r1 = answer /\
    finish 6 (state_after (finish 5) running) = Ok (false, d2) /\ prompt d2 (lo_key r) = None.
Proof.
  assert (H : finish 5 running = Ok (true, state_after (finish 5) running)) by (vm_compute; reflexivity). split; [exact H|].
  exact (late_duplicate_discards demo_lower demo_lt demo_lt demo_uuid demo_uuid_named _ _ "u1" 1 "agent" "m" answer running _
    (at_time 6) (at_time 6) 1 "agent" "m" answer running_live_inv ltac:(done) (captured_u1 running (or_introl eq_refl)) H).
Defined.

Lemma discard_forgets_job_witness : exists d', finish 5 disabled = Ok (false, d') /\
  (forall k, prompt d' k = if bool_decide (k = lo_key (the_output disabled)) then None else prompt disabled k) /\
  CompleteJob (at_time 5) "u1" (k_jobs d') = (Err ErrNotFound, k_jobs d').
Proof.
  apply (discard_forgets_job demo_lower demo_lt demo_lt demo_uuid (at_time 5) (at_time 5) "u1" 1 "agent" "m" answer disabled
    (the_output disabled) (the_job disabled) disabled_inv); [done|vm_compute; left|vm_compute; left|done|done|].
  intros (_ & _ & _ & He). vm_compute in He. discriminate He.
Defined.

Lemma to_published : demo_step enabled (state_after (finish 5) enabled).
Proof.
  assert (H : finish 5 enabled = Ok (true, state_after (finish 5) enabled)) by (vm_compute; reflexivity).
  refine (st_success _ _ _ _ (at_time 5) (at_time 5) "u1" 1 "agent" "m" answer enabled true _ _ _ H); [done|].
  apply (captured_u1 enabled). by right.
Qed.

Lemma hidden_for_good_witness : hidden (prompt enabled ("n1", "t1", "s1")) /\
  (prompt (state_after (finish 5) enabled) ("n1", "t1", "s1") = None \/ hidden (prompt (state_after (finish 5) enabled) ("n1", "t1", "s1"))).
Proof.
  assert (Hh : hidden (prompt enabled ("n1", "t1", "s1"))) by (vm_compute; reflexivity). split; [exact Hh|].
  exact (hidden_for_good demo_lower demo_lt demo_lt demo_uuid demo_uuid_named enabled _ ("n1", "t1", "s1") enabled_inv to_published Hh).
Defined.

End LiveDemo.

(** ** Subscribers *)

Module SubscriptionProps.
Import Subscriptions.

Inductive sub_step (notes : list note_row) : list subscription -> list subscription -> Prop :=
| sub_acquire id dbnow clock ttl noteID ownerID t :
    sub_step notes t (AcquireLiveNoteSubscription id dbnow clock ttl noteID ownerID notes t).2
| sub_renew clock ttl id t : sub_step notes t (RenewLiveNoteSubscription clock ttl id t).2
| sub_release id t : sub_step notes t (ReleaseLiveNoteSubscription id t).

Definition capped (t : list subscription) : Prop := forall n, (rows_affected (watches n) t <= MaxLiveNoteSubscribers)%nat.

Lemma capped_step notes t t' : sub_step notes t t' -> capped t -> capped t'.
Proof.
  intros Hs Ht n. destruct Hs as [id dbnow clock ttl noteID ownerID t|clock ttl id t|id t]; specialize (Ht n).
  - unfold AcquireLiveNoteSubscription. destruct (negb _); [done|]. set (t1 := delete_where _ t).
    assert (H1 : (rows_affected (watches n) t1 <= rows_affected (watches n) t)%nat) by apply rows_affected_delete.
    destruct (_ <=? _)%nat eqn:E; [cbn [snd]; lia|]. apply Nat.leb_gt in E. destruct (exists_where _ t1); [done|]. cbn [snd].
    rewrite rows_affected_snoc. unfold watches at 2. cbn [sub_note]. destruct (String.eqb_spec noteID n) as [->|]; lia.
  - cbn. unfold rows_affected, update_where in *.
    assert (E : forall f, (forall s, sub_note (f s) = sub_note s) ->
      length (List.filter (watches n) (map (fun s => if connection_is id s then f s else s) t)) = length (List.filter (watches n) t)).
    { intros f Hf. clear Ht. induction t as [|s t IH]; [done|]. cbn.
      assert (watches n (if connection_is id s then f s else s) = watches n s) as ->
        by (unfold watches; destruct (connection_is id s); by rewrite ?Hf).
      destruct (watches n s); cbn; by rewrite IH. }
    by rewrite E.
  - etransitivity; [apply rows_affected_delete|done].
Qed.

(** However subscribers come, renew and go, across all server processes, a
    note never has more than forty of them; a subscriber is turned away only
    when forty leases of the note are still running. *)
Theorem subscribers_capped notes t t' :
  capped t -> rtc (sub_step notes) t t' ->
  capped t' /\ (forall id dbnow clock ttl noteID ownerID t'',
    AcquireLiveNoteSubscription id dbnow clock ttl noteID ownerID notes t' = (Ok None, t'') ->
    rows_affected (fun s => watches noteID s && negb (sub_lease s <? dbnow)%Z) t' = MaxLiveNoteSubscribers).
Proof.
  intros Ht Hs. assert (Ht' : capped t') by (induction Hs as [|a b c H1 _ IH]; [done|]; by apply IH, (capped_step notes a)).
  split; [done|]. intros id dbnow clock ttl noteID ownerID t''. unfold AcquireLiveNoteSubscription.
  destruct (negb _); [done|]. set (t1 := delete_where _ t').
  assert (E1 : rows_affected (fun s => watches noteID s && negb (sub_lease s <? dbnow)%Z) t' = rows_affected (watches noteID) t1).
  { unfold t1, rows_affected, delete_where. clear. induction t' as [|s t IH]; [done|]. cbn.
    destruct (watches noteID s) eqn:Ew, (sub_lease s <? dbnow)%Z; cbn; rewrite ?Ew; cbn; by rewrite ?IH. }
  destruct (_ <=? _)%nat eqn:E; [|by destruct (exists_where _ t1)]. intros _. apply Nat.leb_le in E. rewrite E1.
  specialize (Ht' noteID). pose proof (rows_affected_delete (watches noteID) (fun s => watches noteID s && (sub_lease s <? dbnow)%Z) t').
  fold t1 in H. lia.
Qed.

Definition one_viewer : list subscription := [mkSubscription "c1" "n1" "ann" 30].

Lemma subscribers_capped_witness :
  capped [] /\ rtc (sub_step [LiveDemo.demo_note]) [] one_viewer /\ capped one_viewer.
Proof.
  assert (H : capped []) by (intros n; unfold MaxLiveNoteSubscribers; cbn; lia).
  assert (Hs : rtc (sub_step [LiveDemo.demo_note]) [] one_viewer).
  { eapply rtc_l; [|apply rtc_refl]. exact (sub_acquire [LiveDemo.demo_note] "c1" 0 0 30 "n1" "ann" []). }
  split; [exact H|]. split; [exact Hs|]. apply (proj1 (subscribers_capped [LiveDemo.demo_note] [] one_viewer H Hs)).
Defined.

End SubscriptionProps.
