(* ===== verification/Calendar.v ===== *)
(** Calendar sources and their events: [internal/store/calendar.go].

    Handlers are functions on the tables of [AgentTables]; [now] is the database
    clock.  Deleting an event deletes its briefs and its jobs, and unlinks the
    notes taken at it, through the foreign keys. *)

From stdpp Require Import base list strings sets gmap.
From Stdlib Require Import ZArith Lia.
From S2P Require Import GoInt GoStrings Sql Transactions Jobs JobsProps Folders Execution Notes Transcripts Templates.
From S2P Require Import Summaries AgentTables TablesProps.

Local Open Scope string_scope.

Definition source_kinds : list string := ["ics"; "caldav"; "google"; "microsoft"].
Definition source_statuses : list string := ["ok"; "auth_error"; "error"].

Definition source_is (id : string) (s : CalendarSource) : bool := (cs_ID s =? id)%string.
Definition owned_source (ownerID : string) (s : CalendarSource) : bool := (cs_OwnerID s =? ownerID)%string.

Record NormalizedEvent := {
  ne_ExternalID : string; ne_Title : string; ne_StartsAt : Z; ne_EndsAt : Z; ne_Description : string;
  ne_Location : string; ne_ConferencingURL : string; ne_Attendees : list Attendee }.

(** ** Sources *)

Definition CreateSource (uuid : string) (now : Z) (ownerID kind displayName sealedCreds : string) (d : adb)
  : result store_error CalendarSource * adb :=
  let s := mkSource uuid ownerID kind displayName sealedCreds ∅ "ok" None now in
  if negb (bool_decide (kind ∈ source_kinds)) || exists_where (source_is uuid) (k_sources d) then (Err DbError, d)
  else (Ok s, put_sources (k_sources d ++ [s])%list d).

(** The column of credentials is not selected. *)
Definition listed_source (s : CalendarSource) : CalendarSource :=
  mkSource (cs_ID s) (cs_OwnerID s) (cs_Kind s) (DisplayName s) "" (SelectedCalendars s) (cs_Status s) (LastSyncedAt s)
    (cs_CreatedAt s).

Section Sources.
(** The order of uuids. *)
Variable id_lt : string -> string -> bool.

(** [ORDER BY created_at DESC, id], [ORDER BY created_at, id] *)
Definition newest_source (a b : CalendarSource) : bool :=
  (cs_CreatedAt b <? cs_CreatedAt a)%Z || ((cs_CreatedAt a =? cs_CreatedAt b)%Z && id_lt (cs_ID a) (cs_ID b)).
Definition oldest_source (a b : CalendarSource) : bool :=
  (cs_CreatedAt a <? cs_CreatedAt b)%Z || ((cs_CreatedAt a =? cs_CreatedAt b)%Z && id_lt (cs_ID a) (cs_ID b)).

Definition ListSources (ownerID : string) (d : adb) : list CalendarSource :=
  map listed_source (order_by newest_source (select_where (owned_source ownerID) (k_sources d))).

Definition ListAllSourceIDs (d : adb) : list string := map cs_ID (order_by oldest_source (k_sources d)).
End Sources.

Definition GetSourceCreds (sourceID : string) (d : adb) : result store_error (string * string * string) :=
  match select_where (source_is sourceID) (k_sources d) with
  | [] => Err ErrNotFound
  | s :: _ => Ok (cs_Kind s, cs_credentials s, cs_OwnerID s)
  end.

Definition GetSourceSelectedCalendars (sourceID : string) (d : adb) : result store_error (gmap string bool) :=
  match select_where (source_is sourceID) (k_sources d) with
  | [] => Err ErrNotFound
  | s :: _ => Ok (SelectedCalendars s)
  end.

Definition update_sources (p : CalendarSource -> bool) (f : CalendarSource -> CalendarSource) (d : adb)
  : result store_error unit * adb :=
  if (rows_affected p (k_sources d) =? 0)%nat then (Err ErrNotFound, d)
  else (Ok tt, put_sources (update_where p f (k_sources d)) d).

Definition UpdateSourceStatus (sourceID status : string) (syncedAt : Z) (d : adb) : result store_error unit * adb :=
  if exists_where (source_is sourceID) (k_sources d) && negb (bool_decide (status ∈ source_statuses)) then (Err DbError, d)
  else update_sources (source_is sourceID)
    (fun s => mkSource (cs_ID s) (cs_OwnerID s) (cs_Kind s) (DisplayName s) (cs_credentials s) (SelectedCalendars s) status
                (Some syncedAt) (cs_CreatedAt s)) d.

Definition SetSelectedCalendars (ownerID sourceID : string) (sel : gmap string bool) (d : adb)
  : result store_error unit * adb :=
  update_sources (fun s => source_is sourceID s && owned_source ownerID s)
    (fun s => mkSource (cs_ID s) (cs_OwnerID s) (cs_Kind s) (DisplayName s) (cs_credentials s) sel (cs_Status s)
                (LastSyncedAt s) (cs_CreatedAt s)) d.

(** ** Events *)

(** [DELETE FROM calendar_events WHERE p], with what the foreign keys do. *)
Definition delete_events (p : CalendarEvent -> bool) (d : adb) : adb :=
  let gone id := exists_where (fun e => event_is id e && p e) (k_events d) in
  let gone_opt o := match o with Some id => gone id | None => false end in
  put_events (delete_where p (k_events d))
    (put_briefs (delete_where (fun b => gone (br_EventID b)) (k_briefs d))
    (put_jobs (delete_where (fun r => gone_opt (r_calendar_event_id r)) (k_jobs d))
    (put_notes (update_where (fun n => gone_opt (row_event n)) (set_event None) (k_notes d)) d))).

Definition DeleteSource (ownerID sourceID : string) (d : adb) : result store_error unit * adb :=
  let p s := source_is sourceID s && owned_source ownerID s in
  if (rows_affected p (k_sources d) =? 0)%nat then (Err ErrNotFound, d)
  else (Ok tt, put_sources (delete_where p (k_sources d)) (delete_events (fun e => (ce_SourceID e =? sourceID)%string) d)).

Definition same_external (sourceID externalID : string) (e : CalendarEvent) : bool :=
  (ce_SourceID e =? sourceID)%string && (ExternalID e =? externalID)%string.

Definition event_row (id ownerID sourceID : string) (ev : NormalizedEvent) (now : Z) : CalendarEvent :=
  mkCalendarEvent id ownerID sourceID (ne_ExternalID ev) (ne_Title ev) (ne_StartsAt ev) (ne_EndsAt ev) (ne_Description ev)
    (ne_Location ev) (ne_ConferencingURL ev) (ne_Attendees ev) now.

(** The loop's [INSERT ... ON CONFLICT (source_id, external_id) DO UPDATE]. *)
Definition upsert_event (uuid : nat -> string) (now : Z) (ownerID sourceID : string) (ev : NormalizedEvent) : Tx adb unit :=
  tx_bind (NewString uuid) (fun id d =>
    if exists_where (same_external sourceID (ne_ExternalID ev)) (k_events d)
    then Ok (tt, put_events (update_where (same_external sourceID (ne_ExternalID ev))
                   (fun e => event_row (ce_ID e) ownerID sourceID ev now) (k_events d)) d)
    else if exists_where (event_is id) (k_events d) then Err UniqueViolation
    else Ok (tt, put_events (k_events d ++ [event_row id ownerID sourceID ev now])%list d)).

Definition UpsertEvents (uuid : nat -> string) (now : Z) (ownerID sourceID : string) (evs : list NormalizedEvent) : Tx adb unit :=
  tx_bind (tx_read (fun d => exists_where (fun s => source_is sourceID s && owned_source ownerID s) (k_sources d))) (fun owned =>
  if negb owned then tx_fail ErrNotFound else tx_each (upsert_event uuid now ownerID sourceID) evs).

(** An empty list deletes every event of the source, as the general case would. *)
Definition PruneEvents (sourceID : string) (keepExternalIDs : list string) (d : adb) : adb :=
  match keepExternalIDs with
  | [] => delete_events (fun e => (ce_SourceID e =? sourceID)%string) d
  | _ => delete_events (fun e => (ce_SourceID e =? sourceID)%string && negb (bool_decide (ExternalID e ∈ keepExternalIDs))) d
  end.

Definition getCalendarEventByIDTx (eventID : string) (d : adb) : result store_error CalendarEvent :=
  match select_where (event_is eventID) (k_events d) with
  | [] => Err ErrNotFound
  | e :: _ => Ok e
  end.

Definition GetCalendarEventByID (eventID : string) (d : adb) : result store_error CalendarEvent :=
  getCalendarEventByIDTx eventID d.

(** What a sync makes of a source's events ([UpsertEvents] and [PruneEvents]
    of [Calendar]), and of the notes and briefs that belong to them. *)

Local Open Scope list_scope.

Definition ev_key (e : CalendarEvent) : string * string := (ce_SourceID e, ExternalID e).
Definition event_at (k : string * string) (d : adb) : option CalendarEvent := head (select_where (same_external k.1 k.2) (k_events d)).

Lemma same_external_true k e : same_external k.1 k.2 e = true <-> ev_key e = k.
Proof.
  unfold same_external, ev_key. rewrite andb_true_iff, !String.eqb_eq. destruct k as [s x]; cbn. split; [by intros [-> ->]|by intros [=]].
Qed.

(** The tables an upsert does not write. *)
Definition event_frame (d : adb) :=
  (k_templates d, k_summaries d, k_notes d, k_transcripts d, k_segments d, k_outputs d, k_jobs d, k_sources d, k_briefs d, k_notified d).

Section Sync.
Context (uuid : nat -> string) `{Huuid : !Inj (=) (=) uuid}.

(** One event per id, and per source and external id. *)
Record events_ok (d : adb) : Prop := {
  eo_ids : NoDup (map ce_ID (k_events d));
  eo_keys : NoDup (map ev_key (k_events d));
  eo_fresh n : (k_drawn d <= n)%nat -> uuid n ∉ map ce_ID (k_events d) }.

Lemma event_at_spec d k e : events_ok d -> event_at k d = Some e <-> e ∈ k_events d /\ ev_key e = k.
Proof.
  intros Hd. unfold event_at. split.
  - destruct (select_where _ _) as [|x l] eqn:E; [done|]. intros [= ->].
    assert (H : e ∈ select_where (same_external k.1 k.2) (k_events d)) by (rewrite E; left).
    by apply elem_of_select_where in H as [? ?%same_external_true].
  - intros [He Hk]. rewrite (select_key ev_key (same_external k.1 k.2) (k_events d) e); [done|apply Hd|done|by apply same_external_true|].
    intros x _ Hx%same_external_true. congruence.
Qed.

Lemma event_at_none d k : event_at k d = None <-> forall e, e ∈ k_events d -> ev_key e <> k.
Proof.
  unfold event_at. split.
  - intros H e He Hk. assert (Hx : e ∈ select_where (same_external k.1 k.2) (k_events d)) by by apply elem_of_select_where; rewrite same_external_true.
    destruct (select_where _ _); [by apply elem_of_nil in Hx|done].
  - intros H. rewrite select_none; [done|]. intros e He. destruct (same_external k.1 k.2 e) eqn:E; [|done].
    apply same_external_true in E. by destruct (H e He).
Qed.

Lemma event_at_ext d d' k k' : events_ok d -> events_ok d' ->
  (forall e, e ∈ k_events d' /\ ev_key e = k' <-> e ∈ k_events d /\ ev_key e = k) -> event_at k' d' = event_at k d.
Proof.
  intros Hd Hd' H. destruct (event_at k d) as [e|] eqn:E.
  - apply event_at_spec; [done|]. by apply H, event_at_spec.
  - rewrite event_at_none in E. apply event_at_none. intros e He Hk. destruct (proj1 (H e)) as [? ?]; [done|]. by apply (E e).
Qed.

(** The id a fetched event gets: the stored one's, if there is one. *)
Definition kept_id (fresh : string) (v : option CalendarEvent) : string := match v with Some e => ce_ID e | None => fresh end.

Lemma upsert_effect now ownerID sourceID ev d : events_ok d ->
  let k := (sourceID, ne_ExternalID ev) in
  exists d', upsert_event uuid now ownerID sourceID ev d = Ok (tt, d') /\ events_ok d' /\ event_frame d' = event_frame d /\
    event_at k d' = Some (event_row (kept_id (uuid (k_drawn d)) (event_at k d)) ownerID sourceID ev now) /\
    (forall k', k' <> k -> event_at k' d' = event_at k' d).
Proof.
  intros Hd k. unfold upsert_event, NewString, tx_bind. tables.
  assert (Hse : forall x, same_external sourceID (ne_ExternalID ev) x = true <-> ev_key x = k) by apply (same_external_true k).
  assert (Hfresh : exists_where (event_is (uuid (k_drawn d))) (k_events d) = false).
  { apply exists_where_false. intros e He. apply String.eqb_neq. intros E. apply (eo_fresh d Hd (k_drawn d)); [done|].
    rewrite <- E. by apply (list_elem_of_fmap_2 ce_ID). }
  assert (Hgo : forall evs, events_ok (put_events evs (draw d)) ->
    (forall e, e ∈ evs <-> e = event_row (kept_id (uuid (k_drawn d)) (event_at k d)) ownerID sourceID ev now \/ (e ∈ k_events d /\ ev_key e <> k)) ->
    let d' := put_events evs (draw d) in events_ok d' /\ event_frame d' = event_frame d /\
    event_at k d' = Some (event_row (kept_id (uuid (k_drawn d)) (event_at k d)) ownerID sourceID ev now) /\
    (forall k', k' <> k -> event_at k' d' = event_at k' d)).
  { intros evs Hok Hin. cbn. split; [done|]. split; [by destruct d|]. split.
    - apply event_at_spec; [done|]. tables. split; [|done]. apply Hin. by left.
    - intros k' Hk'. apply event_at_ext; [done|done|]. intros e. tables. rewrite Hin. split.
      + intros [[->|[? ?]] Hk]; [by destruct Hk'|done].
      + intros [He Hk]. split; [right; split; [done|congruence]|done]. }
  destruct (event_at k d) as [e0|] eqn:E0.
  - apply event_at_spec in E0 as [He0 Hk0]; [|done].
    assert (exists_where (same_external sourceID (ne_ExternalID ev)) (k_events d) = true) as ->.
    { apply exists_where_true. exists e0. split; [done|]. by apply Hse. }
    eexists. split; [reflexivity|]. apply Hgo.
    + split; tables; rewrite ?map_update_where by done; [apply Hd| |].
      * unfold update_where. rewrite map_map. erewrite map_ext_in; [apply Hd|]. intros e _. cbn.
        destruct (same_external sourceID (ne_ExternalID ev) e) eqn:E; [|done]. by apply Hse in E.
      * intros n Hn. apply Hd. lia.
    + intros e. rewrite elem_of_update_where. cbn [kept_id]. split.
      * intros (x & Hx & ->). destruct (same_external sourceID (ne_ExternalID ev) x) eqn:E.
        -- apply Hse in E. left. by rewrite (key_unique ev_key (k_events d) x e0) by (done || apply Hd || congruence).
        -- right. split; [done|]. intros Hk. by rewrite (proj2 (Hse x) Hk) in E.
      * intros [->|[He Hk]]; [exists e0; split; [done|]; by rewrite (proj2 (Hse e0) Hk0)|].
        exists e. split; [done|]. destruct (same_external _ _ e) eqn:E; [|done]. by apply Hse in E.
  - rewrite event_at_none in E0.
    assert (exists_where (same_external sourceID (ne_ExternalID ev)) (k_events d) = false) as ->.
    { apply exists_where_false. intros e He. destruct (same_external _ _ e) eqn:E; [|done]. apply Hse in E. by destruct (E0 e He). }
    rewrite Hfresh. eexists. split; [reflexivity|]. apply Hgo.
    + split; tables; rewrite ?map_app.
      * apply NoDup_snoc; [apply Hd|]. by apply Hd.
      * apply NoDup_snoc; [apply Hd|]. intros (e & E & He)%list_elem_of_fmap. by apply (E0 e He).
      * intros n Hn [Hx|Hx%list_elem_of_singleton]%elem_of_app; [by apply (eo_fresh d Hd n) in Hx; [|lia]|]. apply Huuid in Hx. lia.
    + intros e. rewrite elem_of_app, list_elem_of_singleton. cbn [kept_id]. split.
      * intros [He| ->]; [right; split; [done|by apply E0]|by left].
      * intros [->|[He _]]; [by right|by left].
Qed.

(** What was fetched last for an external id. *)
Definition last_fetched (evs : list NormalizedEvent) (x : string) : option NormalizedEvent :=
  last (select_where (fun ev => (ne_ExternalID ev =? x)%string) evs).

Lemma last_fetched_cons ev evs x :
  last_fetched (ev :: evs) x = match last_fetched evs x with Some ev' => Some ev' | None => if (ne_ExternalID ev =? x)%string then Some ev else None end.
Proof.
  unfold last_fetched, select_where. cbn. destruct (ne_ExternalID ev =? x)%string; [|by destruct (last _)].
  destruct (List.filter _ evs) as [|y l]; [done|]. cbn. destruct (last (y :: l)) eqn:E; [done|]. by apply last_None in E.
Qed.

Lemma last_fetched_some evs x : is_Some (last_fetched evs x) <-> x ∈ map ne_ExternalID evs.
Proof.
  induction evs as [|ev evs IH].
  - split; [by intros []|by intros ?%elem_of_nil].
  - rewrite last_fetched_cons. cbn. rewrite elem_of_cons, <- IH. destruct (last_fetched evs x) as [y|].
    + split; intros _; [right|]; by eexists.
    + destruct (String.eqb_spec (ne_ExternalID ev) x) as [->|Hne]; split; intros H.
      * by left.
      * by eexists.
      * by destruct H.
      * destruct H as [->|[? [=]]]. by destruct Hne.
Qed.

(** The stored event of a key after a fetch. *)
Definition stored (now : Z) (ownerID sourceID : string) (ev : option NormalizedEvent) (v v' : option CalendarEvent) : Prop :=
  match ev with
  | Some ev => exists fresh, v' = Some (event_row (kept_id fresh v) ownerID sourceID ev now)
  | None => v' = v
  end.

Lemma upserts_effect now ownerID sourceID evs d : events_ok d ->
  exists d', tx_each (upsert_event uuid now ownerID sourceID) evs d = Ok (tt, d') /\ events_ok d' /\ event_frame d' = event_frame d /\
    (forall k, stored now ownerID sourceID (if (k.1 =? sourceID)%string then last_fetched evs k.2 else None) (event_at k d) (event_at k d')).
Proof.
  revert d. induction evs as [|ev evs IH]; intros d Hd.
  - exists d. split; [done|]. split; [done|]. split; [done|]. intros k. by destruct (k.1 =? sourceID)%string.
  - destruct (upsert_effect now ownerID sourceID ev d Hd) as (d1 & E1 & Hd1 & HF1 & Hk1 & Hfr1).
    destruct (IH d1 Hd1) as (d2 & E2 & Hd2 & HF2 & Hall). exists d2. split; [cbn; unfold tx_bind; by rewrite E1|].
    split; [done|]. split; [congruence|]. intros [s x]. specialize (Hall (s, x)). cbn [fst snd] in *.
    destruct (String.eqb_spec s sourceID) as [->|Hs].
    + rewrite last_fetched_cons. destruct (String.eqb_spec (ne_ExternalID ev) x) as [<-|Hx].
      * destruct (last_fetched evs (ne_ExternalID ev)) as [ev'|]; cbn in Hall |- *.
        -- destruct Hall as (fresh & E). rewrite Hk1 in E. cbn in E. eexists. exact E.
        -- rewrite Hall, Hk1. by eexists.
      * rewrite Hfr1 in Hall by congruence. by destruct (last_fetched evs x).
    + rewrite Hfr1 in Hall by congruence. exact Hall.
Qed.

(** *** Pruning *)

Lemma delete_events_ext p q d : (forall e, p e = q e) -> delete_events p d = delete_events q d.
Proof.
  intros H. unfold delete_events.
  assert (Hg : forall id, exists_where (fun e => event_is id e && p e) (k_events d) = exists_where (fun e => event_is id e && q e) (k_events d)).
  { intros id. unfold exists_where. induction (k_events d) as [|e l IH]; cbn; [done|]. by rewrite H, IH. }
  f_equal; [unfold delete_where; apply List.filter_ext; intros e; by rewrite H|]. f_equal.
  - apply List.filter_ext. intros b. by rewrite Hg.
  - f_equal.
    + apply List.filter_ext. intros r. destruct (r_calendar_event_id r); [by rewrite Hg|done].
    + f_equal. unfold update_where. apply map_ext. intros n. destruct (row_event n); [by rewrite Hg|done].
Qed.

Lemma PruneEvents_eq sourceID keep d :
  PruneEvents sourceID keep d = delete_events (fun e => (ce_SourceID e =? sourceID)%string && negb (bool_decide (ExternalID e ∈ keep))) d.
Proof.
  unfold PruneEvents. destruct keep; [|done]. apply delete_events_ext. intros e. rewrite bool_decide_eq_false_2 by by intros ?%elem_of_nil.
  by rewrite andb_true_r.
Qed.

Lemma delete_events_effect p d : events_ok d ->
  events_ok (delete_events p d) /\
  (forall k, event_at k (delete_events p d) = match event_at k d with Some e => if p e then None else Some e | None => None end) /\
  (forall id, id ∈ map ce_ID (k_events d) ->
     (exists_where (fun e => event_is id e && p e) (k_events d) = false <-> id ∈ map ce_ID (k_events (delete_events p d)))).
Proof.
  intros Hd. assert (Ee : k_events (delete_events p d) = delete_where p (k_events d)) by (unfold delete_events; by tables).
  assert (En : k_drawn (delete_events p d) = k_drawn d) by (unfold delete_events; by tables).
  assert (Hok : events_ok (delete_events p d)).
  { split; rewrite ?Ee, ?En; [apply NoDup_map_delete, Hd|apply NoDup_map_delete, Hd|]. intros n Hn (e & E & [He _]%elem_of_delete_where)%list_elem_of_fmap.
    apply (eo_fresh d Hd n Hn). rewrite E. by apply (list_elem_of_fmap_2 ce_ID). }
  split; [done|]. split.
  - intros k. destruct (event_at k d) as [e|] eqn:E.
    + apply event_at_spec in E as [He Hk]; [|done]. destruct (p e) eqn:Ep.
      * apply event_at_none. rewrite Ee. intros x [Hx Hpx]%elem_of_delete_where Hkx.
        rewrite (key_unique ev_key (k_events d) x e) in Hpx; [congruence|apply Hd|done|done|congruence].
      * apply event_at_spec; [done|]. rewrite Ee. by rewrite elem_of_delete_where.
    + rewrite event_at_none in E. apply event_at_none. rewrite Ee. intros x [Hx _]%elem_of_delete_where. auto.
  - intros id (e & -> & He)%list_elem_of_fmap. rewrite Ee, exists_where_false. split.
    + intros H. apply (list_elem_of_fmap_2 ce_ID), elem_of_delete_where. split; [done|]. specialize (H e He). unfold event_is in H.
      by rewrite String.eqb_refl in H.
    + intros (e' & E & [He' Hp]%elem_of_delete_where)%list_elem_of_fmap x Hx. unfold event_is. destruct (String.eqb_spec (ce_ID x) (ce_ID e)); [|done].
      by rewrite (key_unique ce_ID (k_events d) x e') by (done || apply Hd || congruence).
Qed.

(** After a fetch has been stored, the source has exactly one event for
    each fetched external id, with what was fetched last and under its old id
    if it had one; every other stored event of the source is gone — whenever it
    takes place — and other sources' events are untouched.  Briefs go with their
    events, notes lose the link to theirs, and nothing else of a note changes. *)
Theorem sync_events_exact now ownerID sourceID evs d :
  events_ok d -> exists_where (fun s => source_is sourceID s && owned_source ownerID s) (k_sources d) = true ->
  (forall b, b ∈ k_briefs d -> br_EventID b ∈ map ce_ID (k_events d)) ->
  (forall r id, r ∈ k_notes d -> row_event r = Some id -> id ∈ map ce_ID (k_events d)) ->
  exists d1, UpsertEvents uuid now ownerID sourceID evs d = Ok (tt, d1) /\
    let d2 := PruneEvents sourceID (map ne_ExternalID evs) d1 in
    let there id := bool_decide (id ∈ map ce_ID (k_events d2)) in
    events_ok d2 /\
    (forall k, if (k.1 =? sourceID)%string
       then match last_fetched evs k.2 with
            | Some ev => exists fresh, event_at k d2 = Some (event_row (kept_id fresh (event_at k d)) ownerID sourceID ev now)
            | None => event_at k d2 = None
            end
       else event_at k d2 = event_at k d) /\
    k_briefs d2 = select_where (fun b => there (br_EventID b)) (k_briefs d) /\
    k_notes d2 = map (fun r => match row_event r with Some id => if there id then r else set_event None r | None => r end) (k_notes d).
Proof.
  intros Hd Hown Hbr Hno. destruct (upserts_effect now ownerID sourceID evs d Hd) as (d1 & E1 & Hd1 & HF1 & Hall).
  exists d1. split; [unfold UpsertEvents, tx_bind, tx_read; by rewrite Hown|]. cbn zeta. rewrite PruneEvents_eq. set (p := fun e => _ && _).
  destruct (delete_events_effect p d1 Hd1) as (Hd2 & Hv2 & Hthere). split; [done|].
  assert (Hids : forall id, id ∈ map ce_ID (k_events d) -> id ∈ map ce_ID (k_events d1)).
  { intros id (e & -> & He)%list_elem_of_fmap. specialize (Hall (ev_key e)). rewrite (proj2 (event_at_spec d (ev_key e) e Hd)) in Hall by done.
    assert (H : exists e', event_at (ev_key e) d1 = Some e' /\ ce_ID e' = ce_ID e).
    { unfold stored in Hall. destruct (if _ : bool then _ else _); [destruct Hall as (f & ->)|rewrite Hall]; by eexists. }
    destruct H as (e' & [He' _]%event_at_spec & <-); [by apply (list_elem_of_fmap_2 ce_ID)|done]. }
  unfold event_frame in HF1. injection HF1 as _ _ En _ _ _ _ _ Eb _. split; [|split].
  - intros k. rewrite Hv2. specialize (Hall k). destruct (String.eqb_spec k.1 sourceID) as [Ek|Ek].
    + destruct (last_fetched evs k.2) as [ev|] eqn:El; cbn in Hall.
      * destruct Hall as (f & ->). exists f. assert (Hin : ne_ExternalID ev ∈ map ne_ExternalID evs).
        { unfold last_fetched in El. apply last_Some in El as (l' & El). apply (list_elem_of_fmap_2 ne_ExternalID).
          assert (H : ev ∈ select_where (fun ev => (ne_ExternalID ev =? k.2)%string) evs) by (rewrite El; apply elem_of_app; right; left).
          by apply elem_of_select_where in H as [? _]. }
        assert (Hp : forall e, ExternalID e = ne_ExternalID ev -> p e = false).
        { intros e Hx. unfold p. rewrite Hx, bool_decide_eq_true_2 by done. apply andb_false_r. }
        by rewrite Hp.
      * rewrite Hall. destruct (event_at k d) as [e|] eqn:Ee; [|done]. apply event_at_spec in Ee as [_ Hk]; [|done]. subst k. cbn in Ek, El.
        unfold p. rewrite Ek, String.eqb_refl, bool_decide_eq_false_2; [done|]. intros Hin%last_fetched_some. rewrite El in Hin. by destruct Hin.
    + cbn in Hall. rewrite Hall. destruct (event_at k d) as [e|] eqn:Ee; [|done]. apply event_at_spec in Ee as [_ Hk]; [|done]. subst k. cbn in Ek.
      unfold p. by rewrite (proj2 (String.eqb_neq _ _) Ek).
  - assert (k_briefs (delete_events p d1) = delete_where (fun b => exists_where (fun e => event_is (br_EventID b) e && p e) (k_events d1)) (k_briefs d1))
      as -> by (unfold delete_events; by tables). rewrite Eb. unfold delete_where, select_where. apply filter_ext_in. intros b Hb%list_elem_of_In.
    specialize (Hthere (br_EventID b) (Hids _ (Hbr b Hb))). cbv beta.
    destruct (exists_where (fun e => event_is (br_EventID b) e && p e) _); cbn; symmetry; [apply bool_decide_eq_false_2; intros H%Hthere; done|].
    by apply bool_decide_eq_true_2, Hthere.
  - assert (k_notes (delete_events p d1) = update_where (fun n => match row_event n with Some id => exists_where (fun e => event_is id e && p e) (k_events d1) | None => false end)
      (set_event None) (k_notes d1)) as -> by (unfold delete_events; by tables). rewrite En. unfold update_where. apply map_ext_in. intros r Hr%list_elem_of_In.
    destruct (row_event r) as [id|] eqn:Er; [|done]. specialize (Hthere id (Hids _ (Hno r id Hr Er))).
    destruct (exists_where (fun e => event_is id e && p e) _); [rewrite bool_decide_eq_false_2; [done|]; intros H%Hthere; done|]. by rewrite bool_decide_eq_true_2 by by apply Hthere.
Qed.

End Sync.
