(* ===== verification/Briefs.v ===== *)
(** Pre-meeting briefs: [internal/store/event_briefs.go].

    Every upcoming event of a calendar source has one brief per live "pre"
    template.  A brief's generation counts the changes of its input; a job
    carries the generation it writes for.  Payloads of jobs are the structs
    their JSON encodes: [marshal] and [unmarshal] are arguments. *)

From stdpp Require Import base list strings sets gmap.
From Stdlib Require Import ZArith Lia.
From S2P Require Import GoInt GoStrings Sql Transactions Jobs Folders Execution Notes Transcripts Templates Summaries.
From S2P Require Import AgentTables Calendar.

Local Open Scope string_scope.
Local Open Scope tx_scope.

Definition BriefPending : string := "pending".
Definition BriefReady : string := "ready".
Definition BriefFailed : string := "failed".
Definition brief_statuses : list string := [BriefPending; BriefReady; BriefFailed].

Definition preGenerateJobsQueuedStatus : string := JobPending.
Definition preBriefEligibilityHorizon : Z := (7 * 24 * 3600 * second)%Z.
Definition templateCleanupOwnerBatchSize : nat := 100.

Record prebriefPayload := { pb_BriefID : string; pb_TemplateID : string; pb_Generation : Z }.

(** ** Reading *)

Definition preBriefWindow (now : Z) : Z * Z := (now, now + preBriefEligibilityHorizon)%Z.

(** [starts_at > lo AND starts_at <= hi] *)
Definition in_window (now : Z) (e : CalendarEvent) : bool :=
  let '(lo, hi) := preBriefWindow now in (lo <? StartsAt e)%Z && (StartsAt e <=? hi)%Z.

Definition event_of (id : string) (d : adb) : option CalendarEvent := head (select_where (event_is id) (k_events d)).

(** [event_briefs b JOIN calendar_events e ON e.id = b.event_id WHERE p]: [event_id]
    is a foreign key to a primary key. *)
Definition brief_joins (p : CalendarEvent -> bool) (d : adb) (b : EventBrief) : bool :=
  match event_of (br_EventID b) d with Some e => p e | None => false end.

Definition owned_event (ownerID : string) (e : CalendarEvent) : bool := (ce_OwnerID e =? ownerID)%string.

Section Reading.
(** The order of text and of uuids. *)
Variable name_lt id_lt : string -> string -> bool.

(** The map from event ids, in the order of the rows. *)
Definition EventBriefsForEvents (ownerID : string) (eventIDs : list string) (d : adb) : gmap string (list EventBrief) :=
  fold_left (fun m b => <[br_EventID b := (default [] (m !! br_EventID b) ++ [b])%list]> m)
    (order_by (fun a b => name_lt (br_TemplateName a) (br_TemplateName b))
      (select_where (fun b => brief_joins (owned_event ownerID) d b && bool_decide (br_EventID b ∈ eventIDs)) (k_briefs d))) ∅.

Definition after_id (afterID : option string) (id : string) : bool :=
  match afterID with None => true | Some a => id_lt a id end.

Definition UpcomingEventsForSourceBatch (ownerID sourceID : string) (now : Z) (afterID : option string) (limit : nat) (d : adb)
  : list CalendarEvent :=
  let limit := if (limit =? 0)%nat then 100%nat else limit in
  take limit (order_by (fun a b => id_lt (ce_ID a) (ce_ID b))
    (select_where (fun e => owned_event ownerID e && (ce_SourceID e =? sourceID)%string && in_window now e &&
                            after_id afterID (ce_ID e)) (k_events d))).

(** The rows of [ListEvents]'s first query. *)
Definition events_between (ownerID : string) (from to : Z) (events : list CalendarEvent) : list CalendarEvent :=
  order_by (fun a b => (StartsAt a <? StartsAt b)%Z ||
                       ((StartsAt a =? StartsAt b)%Z && name_lt (ExternalID a) (ExternalID b)))
    (select_where (fun e => owned_event ownerID e && (StartsAt e <=? to)%Z && (from <=? EndsAt e)%Z) events).

(** The events of [ListEvents] with their briefs. *)
Definition ListEvents (ownerID : string) (from to : Z) (d : adb) : list (CalendarEvent * list EventBrief) :=
  let events := events_between ownerID from to (k_events d) in
  let briefs := EventBriefsForEvents ownerID (map ce_ID events) d in
  map (fun e => (e, default [] (briefs !! ce_ID e))) events.

End Reading.

(** ** Cleanup *)

Definition queued_pre_job (briefIDs : list string) (r : job_row) : bool :=
  (r_type r =? JobPreGenerate)%string && (r_status r =? preGenerateJobsQueuedStatus)%string &&
  match r_brief_id r with Some b => bool_decide (b ∈ briefIDs) | None => false end.

(** [DELETE FROM event_briefs WHERE p RETURNING id] *)
Definition deleteBriefsReturningIDs (p : adb -> EventBrief -> bool) : Tx adb (list string) := fun d =>
  Ok (map br_ID (select_where (p d) (k_briefs d)), put_briefs (delete_where (p d) (k_briefs d)) d).

Definition deleteQueuedPreJobsForBriefs (briefIDs : list string) : Tx adb unit :=
  match briefIDs with
  | [] => tx_ret tt
  | _ => tx_write (fun d => put_jobs (delete_where (queued_pre_job briefIDs) (k_jobs d)) d)
  end.

(** The two statements every cleanup consists of. *)
Definition delete_briefs (p : adb -> EventBrief -> bool) : Tx adb nat :=
  tx! ids := deleteBriefsReturningIDs p in
  tx! _ := deleteQueuedPreJobsForBriefs ids in
  tx_ret (length ids).

Definition DeleteIneligibleEventBriefs (eventIDs eligibleTemplateIDs : list string) : Tx adb nat :=
  match eventIDs with
  | [] => tx_ret 0%nat
  | _ => delete_briefs (fun _ b => bool_decide (br_EventID b ∈ eventIDs) && negb (bool_decide (br_TemplateID b ∈ eligibleTemplateIDs)))
  end.

Definition DeleteEventBriefsOutsideWindow (ownerID sourceID : string) (now : Z) : Tx adb nat :=
  delete_briefs (fun d => brief_joins (fun e => owned_event ownerID e && (ce_SourceID e =? sourceID)%string && negb (in_window now e)) d).

Definition DeleteEventBriefsForTemplate (templateID : string) (ownerIDs : list string) : Tx adb nat :=
  match ownerIDs with
  | [] => tx_ret 0%nat
  | _ => delete_briefs (fun d b => (br_TemplateID b =? templateID)%string && brief_joins (fun e => bool_decide (ce_OwnerID e ∈ ownerIDs)) d b)
  end.

Section Cleanup.
Variable id_lt : string -> string -> bool.

(** [SELECT DISTINCT]: the last of several equal values stays. *)
Definition distinct (l : list string) : list string := remove_dups l.

Definition affectedOwnersForTemplateBatch (templateID : string) (afterOwnerID : option string) (limit : nat) (d : adb) : list string :=
  let limit := if (limit =? 0)%nat then templateCleanupOwnerBatchSize else limit in
  take limit (order_by id_lt (distinct (omap (fun b =>
      match event_of (br_EventID b) d with
      | Some e => if (br_TemplateID b =? templateID)%string && after_id id_lt afterOwnerID (ce_OwnerID e)
                  then Some (ce_OwnerID e) else None
      | None => None
      end) (k_briefs d)))).

(** The loop; [fuel] bounds the number of pages. *)
Fixpoint cleanup_pages (fuel : nat) (templateID : string) (afterOwnerID : option string) (total : nat) : Tx adb nat :=
  match fuel with
  | O => tx_fail DbError
  | S fuel =>
      tx! owners := tx_read (affectedOwnersForTemplateBatch templateID afterOwnerID templateCleanupOwnerBatchSize) in
      match last owners with
      | None => tx_ret total
      | Some l =>
          tx! n := DeleteEventBriefsForTemplate templateID owners in
          let total := (total + n)%nat in
          if (length owners <? templateCleanupOwnerBatchSize)%nat then tx_ret total
          else cleanup_pages fuel templateID (Some l) total
      end
  end.

(** Every page but the last deletes a brief of each of its owners. *)
Definition cleanupBriefsForTemplateAllOwners (templateID : string) : Tx adb nat := fun d =>
  cleanup_pages (S (length (k_briefs d))) templateID None 0 d.

End Cleanup.

(** ** Reconciliation of a pair *)

Definition same_pair (eventID templateID : string) (b : EventBrief) : bool :=
  (br_EventID b =? eventID)%string && (br_TemplateID b =? templateID)%string.

Definition new_brief (id eventID templateID templateName : string) (hash : option string) (status : string) (generation now : Z)
  : EventBrief :=
  mkBrief id eventID templateID templateName hash generation status "" "" [] now now.

Definition insertEventBriefWithID (b : EventBrief) : Tx adb unit := fun d =>
  if negb (bool_decide (br_Status b ∈ brief_statuses)) || (br_Generation b <=? 0)%Z then Err DbError
  else if exists_where (brief_is (br_ID b)) (k_briefs d) || exists_where (same_pair (br_EventID b) (br_TemplateID b)) (k_briefs d)
  then Err UniqueViolation
  else if exists_where (event_is (br_EventID b)) (k_events d) && exists_where (template_is (br_TemplateID b)) (k_templates d)
  then Ok (tt, put_briefs (k_briefs d ++ [b])%list d)
  else Err DbError.

(** The [UPDATE] of a brief whose input changed. *)
Definition restart_brief (hash : option string) (generation : Z) (status templateName : string) (now : Z) (b : EventBrief) : EventBrief :=
  mkBrief (br_ID b) (br_EventID b) (br_TemplateID b) templateName hash generation status "" "" [] (br_CreatedAt b) now.

Definition update_briefs (p : EventBrief -> bool) (f : EventBrief -> EventBrief) : Tx adb unit :=
  tx_write (fun d => put_briefs (update_where p f (k_briefs d)) d).

Definition pre_job (id eventID briefID : string) (generation : Z) (payload : string) (now : Z) : job_row :=
  Jobs.mkRow id None (Some eventID) (Some briefID) (Some generation) None None None None JobPreGenerate JobPending 0 None 0 payload
    None None None now now.

Section Pairs.
Variable uuid : nat -> string.
Variable marshal : prebriefPayload -> string.
Variable unmarshal : string -> option prebriefPayload.

Definition enqueuePreGenerateJobTx (now : Z) (eventID briefID templateID : string) (generation : Z) : Tx adb string :=
  let payload := marshal {| pb_BriefID := briefID; pb_TemplateID := templateID; pb_Generation := generation |} in
  tx! id := NewString uuid in
  tx! _ := insert_job_tx (pre_job id eventID briefID generation payload now) in
  tx_ret id.

(** The transaction reads the pair's row under a lock.  When there is none
    nothing is locked: [between] is what other sessions commit before the
    insert. *)
Definition reconcileEventBriefPairOnce (between : adb -> adb) (now : Z) (eventID templateID templateName : string)
    (hash : option string) : Tx adb bool :=
  tx! row := tx_read (fun d => head (select_where (same_pair eventID templateID) (k_briefs d))) in
  match row with
  | None =>
      tx! _ := tx_write between in
      match hash with
      | None =>
          tx! id := NewString uuid in
          tx! _ := insertEventBriefWithID (new_brief id eventID templateID templateName None BriefFailed 1 now) in
          tx_ret false
      | Some _ =>
          tx! newID := NewString uuid in
          tx! _ := insertEventBriefWithID (new_brief newID eventID templateID templateName hash BriefPending 1 now) in
          tx! _ := enqueuePreGenerateJobTx now eventID newID templateID 1 in
          tx_ret true
      end
  | Some b =>
      if bool_decide (InputHash b = hash) then tx_ret false
      else
        let newGeneration := (br_Generation b + 1)%Z in
        let status := match hash with None => BriefFailed | Some _ => BriefPending end in
        tx! _ := update_briefs (brief_is (br_ID b)) (restart_brief hash newGeneration status templateName now) in
        match hash with
        | None => tx_ret false
        | Some _ => tx! _ := enqueuePreGenerateJobTx now eventID (br_ID b) templateID newGeneration in tx_ret true
        end
  end.

(** One attempt.  What others committed while it ran stays when it is rolled
    back. *)
Definition attempt_pair (between : adb -> adb) (now : Z) (eventID templateID templateName : string) (hash : option string) (d : adb)
  : result store_error bool * adb :=
  match reconcileEventBriefPairOnce between now eventID templateID templateName hash d with
  | Ok (b, d') => (Ok b, d')
  | Err e => (Err e, if exists_where (same_pair eventID templateID) (k_briefs d) then d else between d)
  end.

(** Three attempts; [between i] is the interference with the [i]-th. *)
Fixpoint reconcile_attempts (n : nat) (between : nat -> adb -> adb) (now : Z) (eventID templateID templateName : string)
    (hash : option string) (d : adb) : result store_error bool * adb :=
  match n with
  | O => (Err UniqueViolation, d)
  | S n =>
      match attempt_pair (between n) now eventID templateID templateName hash d with
      | (Err UniqueViolation, d') => reconcile_attempts n between now eventID templateID templateName hash d'
      | r => r
      end
  end.

Definition ReconcileEventBriefPair (between : nat -> adb -> adb) (now : Z) (eventID templateID templateName : string)
    (hash : option string) (d : adb) : result store_error bool * adb :=
  reconcile_attempts 3 between now eventID templateID templateName hash d.

(** ** Publication *)

Definition getEventBriefByIDTx (briefID : string) (d : adb) : option EventBrief := head (select_where (brief_is briefID) (k_briefs d)).
Definition GetEventBriefByID (briefID : string) (d : adb) : option EventBrief := getEventBriefByIDTx briefID d.

Definition current_brief (briefID : string) (generation : Z) (b : EventBrief) : bool :=
  brief_is briefID b && (br_Generation b =? generation)%Z.

Definition with_sections (agent model : string) (sections : list SummarySection) (now : Z) (b : EventBrief) : EventBrief :=
  mkBrief (br_ID b) (br_EventID b) (br_TemplateID b) (br_TemplateName b) (InputHash b) (br_Generation b) BriefReady agent model sections
    (br_CreatedAt b) now.
Definition with_brief_status (status : string) (now : Z) (b : EventBrief) : EventBrief :=
  mkBrief (br_ID b) (br_EventID b) (br_TemplateID b) (br_TemplateName b) (InputHash b) (br_Generation b) status (br_AgentPlugin b) (br_Model b)
    (br_Sections b) (br_CreatedAt b) now.

Definition PublishEventBrief (now : Z) (briefID : string) (generation : Z) (agentPlugin modelName : string) (sections : list SummarySection)
    (d : adb) : bool * adb :=
  (negb (rows_affected (current_brief briefID generation) (k_briefs d) =? 0)%nat,
   put_briefs (update_where (current_brief briefID generation) (with_sections agentPlugin modelName sections now) (k_briefs d)) d).

Definition FailEventBriefIfCurrent (now : Z) (briefID : string) (generation : Z) (d : adb) : bool * adb :=
  (negb (rows_affected (current_brief briefID generation) (k_briefs d) =? 0)%nat,
   put_briefs (update_where (current_brief briefID generation) (with_brief_status BriefFailed now) (k_briefs d)) d).

Definition CleanupIneligibleEventBriefIfCurrent (briefID : string) (generation : Z) : Tx adb bool :=
  tx! n := tx_read (fun d => rows_affected (current_brief briefID generation) (k_briefs d)) in
  tx! _ := tx_write (fun d => put_briefs (delete_where (current_brief briefID generation) (k_briefs d)) d) in
  if (n =? 0)%nat then tx_ret false
  else tx! _ := deleteQueuedPreJobsForBriefs [briefID] in tx_ret true.

(** ** Retry by an administrator *)

Definition well_formed (pl : prebriefPayload) : bool :=
  negb (pb_BriefID pl =? "")%string && negb (pb_TemplateID pl =? "")%string && negb (pb_Generation pl <=? 0)%Z.

(** [clock] is [RetryPreBriefClock]. *)
Definition RetryPreBriefJob (now clock : Z) (jobID : string) : Tx adb string :=
  tx! job := tx_read (fun d => getJobTx jobID (k_jobs d)) in
  match job with
  | Err e => tx_fail e
  | Ok job =>
      match TargetKind job with
      | Some JobTargetCalendarEvent =>
          match unmarshal (Payload job) with
          | None => tx_fail ErrNotFound
          | Some pl =>
              if negb (well_formed pl) then tx_fail ErrNotFound
              else
                tx! event := tx_read (getCalendarEventByIDTx (CalendarEventID job)) in
                match event with
                | Err e => tx_fail e
                | Ok event =>
                    if negb (clock <? StartsAt event)%Z then tx_fail ErrIneligible
                    else
                      tx! tmpl := tx_read (fun d => getTemplateTx (ce_OwnerID event) (pb_TemplateID pl) (k_templates d)) in
                      match tmpl with
                      | Err e => tx_fail e
                      | Ok tmpl =>
                          if negb (tm_Phase tmpl =? templatePhasePre)%string || negb (AutoRun tmpl) then tx_fail ErrIneligible
                          else
                            tx! brief := tx_read (getEventBriefByIDTx (pb_BriefID pl)) in
                            match brief with
                            | None => tx_fail ErrNotFound
                            | Some brief =>
                                if negb (br_EventID brief =? CalendarEventID job)%string || negb (br_TemplateID brief =? pb_TemplateID pl)%string
                                then tx_fail ErrNotFound
                                else if negb (br_Generation brief =? pb_Generation pl)%Z then tx_fail ErrIneligible
                                else
                                  tx! _ := update_briefs (current_brief (pb_BriefID pl) (pb_Generation pl)) (with_brief_status BriefPending now) in
                                  enqueuePreGenerateJobTx now (CalendarEventID job) (pb_BriefID pl) (pb_TemplateID pl) (pb_Generation pl)
                            end
                      end
                end
          end
      | _ => tx_fail ErrNotFound
      end
  end.

End Pairs.
