(* ===== verification/BriefsProps.v ===== *)
(** Correctness of the briefs ([Briefs]): the tables' invariant, what one
    reconciliation of a pair leaves behind and how it behaves in a race, why a
    superseded generation can no longer write, and what the clean-ups remove. *)

From stdpp Require Import base list strings sets gmap relations.
From Stdlib Require Import ZArith Lia.
From S2P Require Import GoInt GoStrings Sql Paging Transactions Jobs JobsProps Folders Execution Notes Transcripts Templates.
From S2P Require Import Summaries AgentTables TablesProps Calendar Briefs.

Local Open Scope string_scope.
Local Open Scope list_scope.

(** ** The tables, seen from the briefs *)

Definition br_pair (b : EventBrief) : string * string := (br_EventID b, br_TemplateID b).
Definition pair_is (k : string * string) : EventBrief -> bool := same_pair k.1 k.2.
Definition job_of_brief (id : string) (r : job_row) : bool := bool_decide (r_brief_id r = Some id).

Definition pair_at (k : string * string) (d : adb) : option EventBrief := head (select_where (pair_is k) (k_briefs d)).
Definition brief_jobs (id : string) (d : adb) : list job_row := select_where (job_of_brief id) (k_jobs d).

(** A pair's brief with its jobs. *)
Definition brief_view (d : adb) (k : string * string) : option (EventBrief * list job_row) :=
  (fun b => (b, brief_jobs (br_ID b) d)) <$> pair_at k d.

(** The tables no operation on briefs writes. *)
Definition brief_frame (d : adb) :=
  (k_templates d, k_summaries d, k_notes d, k_transcripts d, k_segments d, k_outputs d, k_sources d, k_events d, k_notified d).

Lemma pair_is_true k b : pair_is k b = true <-> br_pair b = k.
Proof.
  unfold pair_is, same_pair, br_pair. rewrite andb_true_iff, !String.eqb_eq. destruct k as [e t]; cbn.
  split; [by intros [-> ->]|by intros [=]].
Qed.

Lemma brief_is_true id b : brief_is id b = true <-> br_ID b = id.
Proof. apply String.eqb_eq. Qed.

Lemma job_of_brief_true id r : job_of_brief id r = true <-> r_brief_id r = Some id.
Proof. apply bool_decide_eq_true. Qed.

Lemma frame_put_briefs x d : brief_frame (put_briefs x d) = brief_frame d.
Proof. by destruct d. Qed.
Lemma frame_put_jobs x d : brief_frame (put_jobs x d) = brief_frame d.
Proof. by destruct d. Qed.
Lemma frame_draw d : brief_frame (draw d) = brief_frame d.
Proof. by destruct d. Qed.

#[export] Hint Rewrite frame_put_briefs frame_put_jobs frame_draw : tables.

Lemma frame_events d d' : brief_frame d' = brief_frame d -> k_events d' = k_events d.
Proof. intros H. unfold brief_frame in H. congruence. Qed.
Lemma frame_templates d d' : brief_frame d' = brief_frame d -> k_templates d' = k_templates d.
Proof. intros H. unfold brief_frame in H. congruence. Qed.

(** Nobody interferes. *)
Abbreviation quiet := (fun (_ : nat) (d : adb) => d).

Section Uuids.
(** Fresh ids are never drawn twice. *)
Context (uuid : nat -> string) `{Huuid : !Inj (=) (=) uuid}.

(** ** Well-formed tables *)

(** A job of a brief targets the brief's event and writes for a generation the
    brief has reached. *)
Definition job_bound (bs : list EventBrief) (x : job_row) : Prop := forall b,
  b ∈ bs -> r_brief_id x = Some (br_ID b) ->
  r_calendar_event_id x = Some (br_EventID b) /\ exists g, r_brief_generation x = Some g /\ (g <= br_Generation b)%Z.

Record briefs_ok (d : adb) : Prop := {
  bo_events : NoDup (map ce_ID (k_events d));
  bo_ids : NoDup (map br_ID (k_briefs d));
  bo_pairs : NoDup (map br_pair (k_briefs d));
  bo_event b : b ∈ k_briefs d -> br_EventID b ∈ map ce_ID (k_events d);
  bo_row b : b ∈ k_briefs d -> br_Status b ∈ brief_statuses /\ (0 < br_Generation b)%Z;
  bo_jobs : jobs_inv (k_jobs d);
  bo_bound x : x ∈ k_jobs d -> job_bound (k_briefs d) x;
  bo_fresh_brief n : (k_drawn d <= n)%nat -> uuid n ∉ map br_ID (k_briefs d);
  bo_fresh_job n x : (k_drawn d <= n)%nat -> x ∈ k_jobs d -> r_id x <> uuid n /\ r_brief_id x <> Some (uuid n) }.

(** Nothing ever takes a brief back: each one was there before, with the same
    pair and no later generation, or its id is fresh. *)
Definition evolves (d d' : adb) : Prop :=
  (k_drawn d <= k_drawn d')%nat /\
  forall b', b' ∈ k_briefs d' ->
    (exists b, b ∈ k_briefs d /\ br_ID b' = br_ID b /\ br_pair b' = br_pair b /\ (br_Generation b <= br_Generation b')%Z) \/
    (exists n, (k_drawn d <= n)%nat /\ br_ID b' = uuid n).

#[export] Instance evolves_preorder : PreOrder evolves.
Proof.
  split.
  - intros d. split; [done|]. intros b Hb. left. exists b. repeat split; [done|lia].
  - intros d d1 d2 [H1 K1] [H2 K2]. split; [lia|]. intros b2 Hb2. destruct (K2 b2 Hb2) as [(b1 & Hb1 & I2 & P2 & G2)|(n & Hn & I2)].
    + destruct (K1 b1 Hb1) as [(b & Hb & I1 & P1 & G1)|(n & Hn & I1)].
      * left. exists b. repeat split; [done|congruence|congruence|lia].
      * right. exists n. split; [done|congruence].
    + right. exists n. split; [lia|done].
Qed.

Lemma evolves_id d d' b b' : evolves d d' -> briefs_ok d -> b ∈ k_briefs d -> b' ∈ k_briefs d' -> br_ID b' = br_ID b ->
  br_pair b' = br_pair b /\ (br_Generation b <= br_Generation b')%Z.
Proof.
  intros [_ H] Hd Hb Hb' E. destruct (H b' Hb') as [(b0 & Hb0 & I & P & G)|(n & Hn & I)].
  - rewrite (key_unique br_ID (k_briefs d) b b0) by (done || apply Hd || congruence). done.
  - destruct (bo_fresh_brief d Hd n Hn). rewrite <- I, E. by apply list_elem_of_fmap_2.
Qed.

Lemma pair_at_spec d k b : briefs_ok d -> pair_at k d = Some b <-> b ∈ k_briefs d /\ br_pair b = k.
Proof.
  intros Hd. unfold pair_at. split.
  - intros H. destruct (select_where (pair_is k) (k_briefs d)) as [|x l] eqn:E; [done|]. injection H as ->.
    assert (Hb : b ∈ select_where (pair_is k) (k_briefs d)) by (rewrite E; left).
    apply elem_of_select_where in Hb as [Hb Hp]. by apply pair_is_true in Hp.
  - intros [Hb Hp]. rewrite (select_key br_pair (pair_is k) (k_briefs d) b); [done|apply Hd|done|by apply pair_is_true|].
    intros x _ Hx%pair_is_true. congruence.
Qed.

Lemma pair_at_none d k : pair_at k d = None <-> forall b, b ∈ k_briefs d -> br_pair b <> k.
Proof.
  unfold pair_at. split.
  - intros H b Hb Hp. apply pair_is_true in Hp. assert (Hs : b ∈ select_where (pair_is k) (k_briefs d)) by by apply elem_of_select_where.
    destruct (select_where _ _); [by apply elem_of_nil in Hs|done].
  - intros H. rewrite select_none; [done|]. intros b Hb. destruct (pair_is k b) eqn:E; [|done].
    apply pair_is_true in E. by destruct (H b Hb).
Qed.

(** ** Deleting *)

(** Rows go; no brief outlives its event. *)
Lemma briefs_ok_shrink pe pb pj d d' : briefs_ok d ->
  k_events d' = delete_where pe (k_events d) -> k_briefs d' = delete_where pb (k_briefs d) ->
  k_jobs d' = delete_where pj (k_jobs d) -> k_drawn d' = k_drawn d ->
  (forall b, b ∈ k_briefs d -> pb b = false -> forall e, e ∈ k_events d -> ce_ID e = br_EventID b -> pe e = false) ->
  briefs_ok d'.
Proof.
  intros [] Ee Eb Ej En Hev. split; rewrite ?Ee, ?Eb, ?Ej, ?En.
  - by apply NoDup_map_delete.
  - by apply NoDup_map_delete.
  - by apply NoDup_map_delete.
  - intros b [Hb Hp]%elem_of_delete_where. pose proof (bo_event0 b Hb) as (e & E & He)%list_elem_of_fmap.
    rewrite E. apply list_elem_of_fmap_2, elem_of_delete_where. split; [done|]. by eapply Hev.
  - intros b [Hb _]%elem_of_delete_where. auto.
  - by apply jobs_inv_delete.
  - intros x [Hx _]%elem_of_delete_where b [Hb _]%elem_of_delete_where. by apply bo_bound0.
  - intros n Hn Hin. apply (bo_fresh_brief0 n Hn). apply list_elem_of_fmap in Hin as (b & E & [Hb _]%elem_of_delete_where).
    rewrite E. by apply list_elem_of_fmap_2.
  - intros n x Hn [Hx _]%elem_of_delete_where. auto.
Qed.

Lemma evolves_shrink pb d d' : k_briefs d' = delete_where pb (k_briefs d) -> k_drawn d' = k_drawn d -> evolves d d'.
Proof.
  intros Eb En. split; [lia|]. intros b. rewrite Eb. intros [Hb _]%elem_of_delete_where. left. exists b.
  repeat split; [done|lia].
Qed.

(** The briefs that match [p] and the queued jobs of those. *)
Definition without_briefs (p : EventBrief -> bool) (d : adb) : adb :=
  put_jobs (delete_where (queued_pre_job (map br_ID (select_where p (k_briefs d)))) (k_jobs d))
    (put_briefs (delete_where p (k_briefs d)) d).

Lemma delete_absent {row} (p : row -> bool) t : (forall r, r ∈ t -> p r = false) -> delete_where p t = t.
Proof.
  unfold delete_where. induction t as [|r t IH]; intros H; cbn; [done|]. rewrite (H r) by left. cbn. f_equal.
  apply IH. intros x Hx. apply H. by right.
Qed.

Lemma queued_of_none : forall r, queued_pre_job [] r = false.
Proof. intros r. unfold queued_pre_job. destruct (r_brief_id r); apply andb_false_r. Qed.

Lemma delete_briefs_eq p d : delete_briefs p d = Ok (rows_affected (p d) (k_briefs d), without_briefs (p d) d).
Proof.
  unfold delete_briefs, deleteBriefsReturningIDs, deleteQueuedPreJobsForBriefs, without_briefs, tx_bind, tx_ret, tx_write.
  rewrite length_map. destruct (map br_ID (select_where (p d) (k_briefs d))) as [|i l]; [|by tables].
  rewrite (delete_absent (queued_pre_job [])) by (intros; apply queued_of_none). by destruct d.
Qed.

Lemma without_briefs_ok p d : briefs_ok d -> briefs_ok (without_briefs p d).
Proof.
  intros Hd. eapply (briefs_ok_shrink (fun _ => false)); [exact Hd|unfold without_briefs; tables; try reflexivity..|done].
  by rewrite delete_absent.
Qed.

Lemma without_briefs_evolves p d : evolves d (without_briefs p d).
Proof. eapply evolves_shrink; unfold without_briefs; by tables. Qed.

Lemma frame_without_briefs p d : brief_frame (without_briefs p d) = brief_frame d.
Proof. unfold without_briefs. by tables. Qed.

Lemma drawn_without_briefs p d : k_drawn (without_briefs p d) = k_drawn d.
Proof. unfold without_briefs. by tables. Qed.

Lemma queued_pre_job_brief ids r : queued_pre_job ids r = true -> exists i, i ∈ ids /\ r_brief_id r = Some i.
Proof.
  unfold queued_pre_job. intros [_ H]%andb_true_iff. destruct (r_brief_id r) as [i|]; [|done].
  apply bool_decide_eq_true in H. eauto.
Qed.

(** A deletion takes the pairs that match, and leaves the others their jobs. *)
Lemma view_without_briefs p d k : briefs_ok d ->
  brief_view (without_briefs p d) k =
  match brief_view d k with Some (b, js) => if p b then None else Some (b, js) | None => None end.
Proof.
  intros Hd. unfold brief_view. destruct (pair_at k d) as [b|] eqn:E; cbn.
  - apply pair_at_spec in E as [Hb Hk]; [|done]. destruct (p b) eqn:Ep.
    + assert (pair_at k (without_briefs p d) = None) as ->; [|done]. apply pair_at_none. unfold without_briefs. tables.
      intros x [Hx Hpx]%elem_of_delete_where Hkx.
      rewrite (key_unique br_pair (k_briefs d) x b) in Hpx; [congruence|apply Hd|done|done|congruence].
    + assert (pair_at k (without_briefs p d) = Some b) as ->.
      { apply pair_at_spec; [by apply without_briefs_ok|]. split; [|done]. unfold without_briefs. tables.
        by apply elem_of_delete_where. }
      cbn. do 2 f_equal. unfold brief_jobs, without_briefs. tables. apply select_delete. intros r _ Hr%job_of_brief_true.
      destruct (queued_pre_job _ r) eqn:Eq; [|done]. apply queued_pre_job_brief in Eq as (i & Hi & Ei).
      apply list_elem_of_fmap in Hi as (x & -> & [Hx Hpx]%elem_of_select_where).
      rewrite (key_unique br_ID (k_briefs d) x b) in Hpx; [congruence|apply Hd|done|done|congruence].
  - rewrite pair_at_none in E. assert (pair_at k (without_briefs p d) = None) as ->; [|done]. apply pair_at_none.
    unfold without_briefs. tables. intros x [Hx _]%elem_of_delete_where. auto.
Qed.

(** ** Writing briefs and jobs *)

Lemma briefs_ok_draw d : briefs_ok d -> briefs_ok (draw d).
Proof. intros []. split; tables; try done; intros n **; [apply bo_fresh_brief0|apply bo_fresh_job0]; (lia || done). Qed.

(** Updates that keep a brief's keys and never take its generation back. *)
Definition keeps_brief (f : EventBrief -> EventBrief) : Prop := forall b,
  br_ID (f b) = br_ID b /\ br_pair (f b) = br_pair b.

Lemma map_update_briefs {A} (h : EventBrief -> A) p f bs :
  (forall b, h (f b) = h b) -> map h (update_where p f bs) = map h bs.
Proof. intros H. unfold update_where. rewrite map_map. apply map_ext. intros b. by destruct (p b). Qed.

Lemma briefs_ok_update p f d : briefs_ok d -> keeps_brief f ->
  (forall b, b ∈ k_briefs d -> p b = true -> br_Status (f b) ∈ brief_statuses /\ (br_Generation b <= br_Generation (f b))%Z) ->
  let d' := put_briefs (update_where p f (k_briefs d)) d in briefs_ok d' /\ evolves d d'.
Proof.
  intros Hd Hf Hg. cbn. assert (He : forall b, br_EventID (f b) = br_EventID b).
  { intros b. destruct (Hf b) as [_ E]. unfold br_pair in E. congruence. }
  split; [destruct Hd; split; tables; try done|].
  - rewrite map_update_briefs; [done|]. intros b. apply Hf.
  - rewrite map_update_briefs; [done|]. intros b. apply Hf.
  - intros b' (b & Hb & ->)%elem_of_update_where. destruct (p b); rewrite ?He; auto.
  - intros b' (b & Hb & ->)%elem_of_update_where. destruct (p b) eqn:Ep; [|auto]. destruct (Hg b Hb Ep). split; [done|].
    destruct (bo_row0 b Hb). lia.
  - intros x Hx b' (b & Hb & ->)%elem_of_update_where Hi. destruct (p b) eqn:Ep; [|by apply bo_bound0].
    destruct (Hf b) as [Ei _]. rewrite Ei in Hi. rewrite He. destruct (bo_bound0 x Hx b Hb Hi) as (? & g & ? & ?).
    split; [done|]. exists g. split; [done|]. destruct (Hg b Hb Ep). lia.
  - intros n Hn. rewrite map_update_briefs; [auto|]. intros b. apply Hf.
  - split; [by tables|]. tables. intros b' (b & Hb & ->)%elem_of_update_where. left. exists b. split; [done|].
    destruct (p b) eqn:Ep; [|repeat split; lia]. destruct (Hf b), (Hg b Hb Ep). auto.
Qed.

Lemma briefs_ok_insert b d : briefs_ok d -> br_EventID b ∈ map ce_ID (k_events d) -> br_Status b ∈ brief_statuses ->
  (0 < br_Generation b)%Z -> br_ID b ∉ map br_ID (k_briefs d) -> br_pair b ∉ map br_pair (k_briefs d) ->
  (forall x, x ∈ k_jobs d -> r_brief_id x <> Some (br_ID b)) -> (forall n, (k_drawn d <= n)%nat -> br_ID b <> uuid n) ->
  briefs_ok (put_briefs (k_briefs d ++ [b]) d).
Proof.
  intros [] He Hs Hg Hi Hp Hj Hu. split; tables; try done; rewrite ?map_app.
  - by apply NoDup_snoc.
  - by apply NoDup_snoc.
  - intros x [Hx| ->%list_elem_of_singleton]%elem_of_app; auto.
  - intros x [Hx| ->%list_elem_of_singleton]%elem_of_app; auto.
  - intros x Hx y [Hy| ->%list_elem_of_singleton]%elem_of_app E; [by apply bo_bound0|by destruct (Hj x Hx)].
  - intros n Hn [Hx|Hx%list_elem_of_singleton]%elem_of_app; [by eapply bo_fresh_brief0|]. by apply (Hu n Hn).
Qed.

Lemma row_inv_pre_job id e b g payload now : row_inv (pre_job id e b g payload now).
Proof.
  split; cbn; try done. by apply (bool_decide_unpack _); vm_compute.
Qed.

Section Payloads.
Variable marshal : prebriefPayload -> string.

(** The job of a brief's current generation. *)
Definition job_for (id : string) (now : Z) (b : EventBrief) : job_row :=
  pre_job id (br_EventID b) (br_ID b) (br_Generation b)
    (marshal {| pb_BriefID := br_ID b; pb_TemplateID := br_TemplateID b; pb_Generation := br_Generation b |}) now.

Definition with_job (id : string) (now : Z) (b : EventBrief) (d : adb) : adb := put_jobs (k_jobs d ++ [job_for id now b]) d.

(** A fresh id and a generation that no unsettled job writes for. *)
Lemma enqueue_total now b d : briefs_ok d -> b ∈ k_briefs d ->
  (forall x, x ∈ k_jobs d -> r_brief_id x = Some (br_ID b) -> r_brief_generation x = Some (br_Generation b) -> active x = false) ->
  let d' := with_job (uuid (k_drawn d)) now b (draw d) in
  enqueuePreGenerateJobTx uuid marshal now (br_EventID b) (br_ID b) (br_TemplateID b) (br_Generation b) d = Ok (uuid (k_drawn d), d') /\
  briefs_ok d'.
Proof.
  intros Hd Hb Ha. cbn. assert (Hno : forall x, x ∈ k_jobs d -> conflicts x (job_for (uuid (k_drawn d)) now b) = false).
  { intros x Hx. unfold conflicts. destruct (active x) eqn:Ex; [|done]. cbn. rewrite andb_false_r, orb_false_r.
    destruct (bool_decide (r_brief_id x = _)) eqn:E1; [|by rewrite andb_false_r].
    destruct (bool_decide (r_brief_generation x = _)) eqn:E2; [|by rewrite andb_false_r].
    apply bool_decide_eq_true in E1, E2. by rewrite (Ha x Hx E1 E2) in Ex. }
  assert (Hi : insert_job_tx (job_for (uuid (k_drawn d)) now b) (draw d) = Ok (tt, with_job (uuid (k_drawn d)) now b (draw d))).
  { unfold with_job. rewrite insert_job_total; tables; try done.
    - unfold job_references. cbn. tables. rewrite andb_true_r. apply exists_where_true.
      pose proof (bo_event d Hd b Hb) as (e & E & He)%list_elem_of_fmap. exists e. split; [done|]. by apply String.eqb_eq.
    - intros x Hx. cbn. by apply (bo_fresh_job d Hd).
    - apply Hd. }
  split; [unfold enqueuePreGenerateJobTx, NewString, tx_bind; unfold job_for in Hi at 1; by rewrite Hi|].
  apply briefs_ok_draw in Hd as Hd1. apply insert_job_ok in Hi as (_ & Href & Hins).
  pose proof (insert_job_inv (job_references (draw d)) (job_for (uuid (k_drawn d)) now b) (k_jobs (draw d)) (row_inv_pre_job _ _ _ _ _ _)
    (bo_jobs _ Hd1)) as Hinv. rewrite Hins in Hinv. destruct Hd1. unfold with_job. split; tables; try done.
  - intros x [Hx| ->%list_elem_of_singleton]%elem_of_app y Hy E; [by apply bo_bound0|]. cbn in E. injection E as E.
    rewrite (key_unique br_ID (k_briefs d) y b) by (done || congruence). split; [done|]. exists (br_Generation b). split; [done|lia].
  - intros n x Hn [Hx| ->%list_elem_of_singleton]%elem_of_app; [auto|]. cbn. split; [intros E%Huuid; lia|].
    intros [= E]. apply (bo_fresh_brief0 n Hn). rewrite <- E. by apply list_elem_of_fmap_2.
Qed.

(** ** Reconciling a pair *)

Lemma view_update p f d k : keeps_brief f ->
  brief_view (put_briefs (update_where p f (k_briefs d)) d) k =
  (fun '(b, js) => (if p b then f b else b, js)) <$> brief_view d k.
Proof.
  intros Hf. unfold brief_view, pair_at, brief_jobs. tables.
  assert (E : select_where (pair_is k) (update_where p f (k_briefs d)) = update_where p f (select_where (pair_is k) (k_briefs d))).
  { induction (k_briefs d) as [|b bs IH]; [done|]. unfold update_where, select_where in *. cbn.
    assert (pair_is k (if p b then f b else b) = pair_is k b) as ->.
    { destruct (p b); [|done]. apply eq_iff_eq_true. rewrite !pair_is_true. destruct (Hf b) as [_ ->]. done. }
    destruct (pair_is k b); cbn; by rewrite IH. }
  rewrite E. destruct (select_where (pair_is k) (k_briefs d)) as [|b l]; [done|]. cbn. destruct (p b); [|done].
  by destruct (Hf b) as [-> _].
Qed.

Lemma view_insert b d k : briefs_ok d -> br_pair b ∉ map br_pair (k_briefs d) -> (forall x, x ∈ k_jobs d -> r_brief_id x <> Some (br_ID b)) ->
  brief_view (put_briefs (k_briefs d ++ [b]) d) k = if bool_decide (k = br_pair b) then Some (b, []) else brief_view d k.
Proof.
  intros Hd Hp Hj. unfold brief_view, pair_at, brief_jobs. tables. rewrite select_app. case_bool_decide as E.
  - assert (pair_at k d = None) as En.
    { apply pair_at_none. intros x Hx Ex. apply Hp. rewrite <- E, <- Ex. by apply list_elem_of_fmap_2. }
    unfold pair_at in En. destruct (select_where (pair_is k) (k_briefs d)); [|done]. cbn.
    rewrite (proj2 (pair_is_true k b)) by done. cbn. do 2 f_equal. apply select_none. intros x Hx.
    apply bool_decide_eq_false. auto.
  - assert (select_where (pair_is k) [b] = []) as ->; [|by rewrite app_nil_r]. cbn.
    destruct (pair_is k b) eqn:Ek; [|done]. apply pair_is_true in Ek. by destruct E.
Qed.

Lemma view_with_job id now b d k :
  brief_view (with_job id now b d) k =
  (fun '(b', js) => (b', js ++ (if bool_decide (br_ID b' = br_ID b) then [job_for id now b] else []))) <$> brief_view d k.
Proof.
  unfold brief_view, pair_at, brief_jobs, with_job. tables. destruct (head _) as [b'|]; [|done]. cbn. rewrite select_app. cbn.
  unfold job_of_brief at 2. cbn. repeat case_bool_decide; congruence.
Qed.

Lemma view_draw d k : brief_view (draw d) k = brief_view d k.
Proof. unfold brief_view, pair_at, brief_jobs. by tables. Qed.

(** What a reconciliation makes of a pair: nothing when the hash is the stored
    one; else a brief of the next generation without text, and one queued job for
    it if there is an agent.  [n] ids have been drawn so far. *)
Definition due (hash : option string) (v : option EventBrief) : bool :=
  match v with None => true | Some b => negb (bool_decide (InputHash b = hash)) end.
Definition status_for (hash : option string) : string := match hash with None => BriefFailed | Some _ => BriefPending end.
Definition next_brief (now : Z) (name : string) (hash : option string) (k : string * string) (n : nat) (v : option EventBrief) : EventBrief :=
  match v with
  | None => new_brief (uuid n) k.1 k.2 name hash (status_for hash) 1 now
  | Some b => restart_brief hash (br_Generation b + 1) (status_for hash) name now b
  end.
Definition new_jobs (now : Z) (hash : option string) (n : nat) (v : option EventBrief) (b : EventBrief) : list job_row :=
  match hash with
  | None => []
  | Some _ => [job_for (uuid (match v with None => S n | Some _ => n end)) now b]
  end.
Definition refreshed (now : Z) (name : string) (hash : option string) (k : string * string) (n : nat)
    (v : option (EventBrief * list job_row)) : option (EventBrief * list job_row) :=
  let old := fst <$> v in
  if due hash old
  then let b := next_brief now name hash k n old in Some (b, from_option snd [] v ++ new_jobs now hash n old b)
  else v.

(** What else changes: the queue, by the same jobs, and the count of drawn ids. *)
Definition queued_by (now : Z) (name : string) (hash : option string) (k : string * string) (n : nat) (v : option EventBrief) : list job_row :=
  if due hash v then new_jobs now hash n v (next_brief now name hash k n v) else [].

Definition reconciled (now : Z) (name : string) (hash : option string) (k : string * string) (d d' : adb) : Prop :=
  briefs_ok d' /\ evolves d d' /\ brief_frame d' = brief_frame d /\
  (forall k', brief_view d' k' = if bool_decide (k' = k) then refreshed now name hash k (k_drawn d) (brief_view d k) else brief_view d k') /\
  k_jobs d' = k_jobs d ++ queued_by now name hash k (k_drawn d) (pair_at k d) /\
  (due hash (pair_at k d) = false -> d' = d).

Abbreviation reconcile_once := (reconcileEventBriefPairOnce uuid marshal (fun d => d)).

(** A pair's new brief [b] in the tables [d1], where no job writes for its
    generation yet: the rest of the transaction. *)
Definition queue_for (now : Z) (hash : option string) (b : EventBrief) : Tx adb bool :=
  match hash with
  | None => tx_ret false
  | Some _ => tx_bind (enqueuePreGenerateJobTx uuid marshal now (br_EventID b) (br_ID b) (br_TemplateID b) (br_Generation b))
                (fun _ => tx_ret true)
  end.

Lemma queue_for_effect now hash b js d1 : briefs_ok d1 -> brief_view d1 (br_pair b) = Some (b, js) ->
  (forall x g, x ∈ js -> r_brief_generation x = Some g -> (g < br_Generation b)%Z) ->
  exists d', queue_for now hash b d1 = Ok (bool_decide (is_Some hash), d') /\ briefs_ok d' /\ k_briefs d' = k_briefs d1 /\
    (k_drawn d1 <= k_drawn d')%nat /\ brief_frame d' = brief_frame d1 /\
    let js' := match hash with None => [] | Some _ => [job_for (uuid (k_drawn d1)) now b] end in
    k_jobs d' = k_jobs d1 ++ js' /\
    (forall k, brief_view d' k = if bool_decide (k = br_pair b) then Some (b, js ++ js') else brief_view d1 k).
Proof.
  intros Hd Hv Hg. assert (Hvs := Hv). unfold brief_view in Hv. destruct (pair_at _ d1) as [b0|] eqn:Hp; [|done]. injection Hv as -> Hjs.
  apply pair_at_spec in Hp as [Hb _]; [|done]. destruct hash as [h|]; cbn [queue_for].
  - destruct (enqueue_total now b d1 Hd Hb) as [He Hok].
    { intros x Hx Hi Hgx. exfalso. assert (Hxj : x ∈ js) by by rewrite <- Hjs; apply elem_of_select_where; rewrite job_of_brief_true.
      specialize (Hg x _ Hxj Hgx). lia. }
    exists (with_job (uuid (k_drawn d1)) now b (draw d1)). unfold tx_bind. rewrite He. split; [done|]. split; [done|].
    split; [unfold with_job; by tables|]. split; [unfold with_job; tables; lia|]. split; [unfold with_job; by tables|].
    split; [unfold with_job; by tables|]. intros k. rewrite view_with_job, view_draw.
    case_bool_decide as Ek; [subst k; rewrite Hvs; cbn; by rewrite bool_decide_eq_true_2|].
    unfold brief_view. destruct (pair_at k d1) as [b'|] eqn:Ek'; [|done]. cbn. apply pair_at_spec in Ek' as [Hb' Hk']; [|done].
    rewrite bool_decide_eq_false_2; [by rewrite app_nil_r|]. intros Ei. apply Ek. rewrite <- Hk'. f_equal.
    by apply (key_unique br_ID (k_briefs d1)); [apply Hd|..].
  - exists d1. split; [done|]. split; [done|]. split; [done|]. split; [lia|]. split; [done|]. rewrite app_nil_r. split; [done|]. intros k.
    case_bool_decide as Ek; [by subst k; rewrite Hvs, app_nil_r|done].
Qed.

Lemma pair_at_view d k : pair_at k d = fst <$> brief_view d k.
Proof. unfold brief_view. by destruct (pair_at k d). Qed.

Lemma keeps_restart hash g st name now : keeps_brief (restart_brief hash g st name now).
Proof. done. Qed.

Lemma status_for_ok hash : status_for hash ∈ brief_statuses.
Proof. destruct hash; apply (bool_decide_unpack _); by vm_compute. Qed.

Lemma reconcile_existing now k name hash b d : briefs_ok d -> pair_at k d = Some b ->
  exists d', reconcile_once now k.1 k.2 name hash d = Ok (bool_decide (is_Some hash) && due hash (Some b), d') /\
    reconciled now name hash k d d'.
Proof.
  intros Hd Hp. assert (Hv : brief_view d k = Some (b, brief_jobs (br_ID b) d)) by (unfold brief_view; by rewrite Hp).
  unfold reconcileEventBriefPairOnce, reconciled. change (tx_read _) with (tx_read (pair_at k)). unfold tx_bind at 1, tx_read.
  rewrite Hp, Hv. unfold queued_by, refreshed. cbn [fst snd due from_option fmap option_fmap option_map].
  case_bool_decide as Eh; cbn [negb].
  - exists d. rewrite andb_false_r. split; [done|]. split; [done|]. split; [reflexivity|]. split; [done|].
    split; [intros k'; case_bool_decide as Ek; [by rewrite Ek|done]|]. split; [by rewrite app_nil_r|done].
  - apply pair_at_spec in Hp as Hbk; [|done]. destruct Hbk as [Hb Hk]. set (b' := next_brief now name hash k (k_drawn d) (Some b)).
    destruct (briefs_ok_update (brief_is (br_ID b)) (restart_brief hash (br_Generation b + 1) (status_for hash) name now) d Hd) as [Hd1 He1].
    { apply keeps_restart. } { intros x Hx Hi%brief_is_true. cbn. split; [apply status_for_ok|].
      rewrite (key_unique br_ID (k_briefs d) x b) by (done || apply Hd). lia. }
    set (d1 := put_briefs _ d) in *.
    assert (Hv1 : forall k', brief_view d1 k' = if bool_decide (k' = k) then Some (b', brief_jobs (br_ID b) d) else brief_view d k').
    { intros k'. unfold d1. rewrite view_update by apply keeps_restart. case_bool_decide as Ek.
      - subst k'. rewrite Hv. cbn. by rewrite (proj2 (brief_is_true _ _)).
      - unfold brief_view. destruct (pair_at k' d) as [x|] eqn:Ex; [|done]. cbn. apply pair_at_spec in Ex as [Hx Hkx]; [|done].
        destruct (brief_is (br_ID b) x) eqn:Ei; [|done]. apply brief_is_true in Ei. destruct Ek. rewrite <- Hk, <- Hkx. f_equal.
        by apply (key_unique br_ID (k_briefs d)); [apply Hd|..]. }
    assert (Hkb : br_pair b' = k) by done.
    destruct (queue_for_effect now hash b' (brief_jobs (br_ID b) d) d1) as (d' & Hq & Hd' & Eb & En & Ef & Ej & Hv'); [done| | |].
    { rewrite Hkb, Hv1. by rewrite bool_decide_eq_true_2. }
    { intros x g [Hx Hi%job_of_brief_true]%elem_of_select_where Hgx. destruct (bo_bound d Hd x Hx b Hb Hi) as (_ & g' & Hg' & ?).
      assert (g' = g) as -> by congruence. cbn. lia. }
    exists d'. rewrite andb_true_r. split.
    { rewrite <- Hq. unfold update_briefs, tx_bind, tx_write. fold d1. destruct k as [e t]. cbn in Hkb |- *. unfold br_pair in Hkb.
      injection Hkb as <- <-. unfold queue_for. by destruct hash. }
    split; [done|]. split; [etransitivity; [exact He1|]; split; [done|]; intros x; rewrite Eb; left; exists x; repeat split; [done|lia]|].
    split; [rewrite Ef; unfold d1; by tables|]. split; [|split; [|done]].
    + intros k'. rewrite Hv', Hkb, Hv1. destruct (bool_decide (k' = k)); [|done]. unfold b', new_jobs. unfold d1. by tables.
    + rewrite Ej. unfold d1, b', new_jobs. by tables.
Qed.

Lemma insert_brief_total b d : briefs_ok d -> br_Status b ∈ brief_statuses -> (0 < br_Generation b)%Z ->
  br_ID b ∉ map br_ID (k_briefs d) -> br_pair b ∉ map br_pair (k_briefs d) -> br_EventID b ∈ map ce_ID (k_events d) ->
  exists_where (template_is (br_TemplateID b)) (k_templates d) = true ->
  insertEventBriefWithID b d = Ok (tt, put_briefs (k_briefs d ++ [b]) d).
Proof.
  intros Hd Hs Hg Hi Hp He Ht. unfold insertEventBriefWithID. rewrite bool_decide_eq_true_2 by done. cbn.
  destruct (Z.leb_spec (br_Generation b) 0); [lia|].
  assert (exists_where (brief_is (br_ID b)) (k_briefs d) = false) as ->.
  { apply exists_where_false. intros x Hx. destruct (brief_is _ x) eqn:E; [|done]. apply brief_is_true in E. destruct Hi.
    rewrite <- E. by apply list_elem_of_fmap_2. }
  assert (exists_where (same_pair (br_EventID b) (br_TemplateID b)) (k_briefs d) = false) as ->.
  { apply exists_where_false. intros x Hx. change (pair_is (br_pair b) x = false). destruct (pair_is _ x) eqn:E; [|done].
    apply pair_is_true in E. destruct Hp. rewrite <- E. by apply list_elem_of_fmap_2. }
  cbn. rewrite Ht. apply list_elem_of_fmap in He as (e & E & He).
  assert (exists_where (event_is (br_EventID b)) (k_events d) = true) as ->; [|done].
  apply exists_where_true. exists e. split; [done|]. by apply String.eqb_eq.
Qed.

Lemma reconcile_new now k name hash d : briefs_ok d -> pair_at k d = None -> k.1 ∈ map ce_ID (k_events d) ->
  exists_where (template_is k.2) (k_templates d) = true ->
  exists d', reconcile_once now k.1 k.2 name hash d = Ok (bool_decide (is_Some hash), d') /\ reconciled now name hash k d d'.
Proof.
  intros Hd Hp He Ht. assert (Hv : brief_view d k = None) by (unfold brief_view; by rewrite Hp).
  unfold reconcileEventBriefPairOnce, reconciled. change (tx_read _) with (tx_read (pair_at k)). unfold tx_bind at 1, tx_read.
  rewrite Hp, Hv. unfold queued_by, refreshed. cbn [fst snd due from_option fmap option_fmap option_map].
  set (b := next_brief now name hash k (k_drawn d) None). assert (Hkb : br_pair b = k) by by destruct k.
  assert (Hnp : br_pair b ∉ map br_pair (k_briefs d)).
  { intros (x & E & Hx)%list_elem_of_fmap. rewrite pair_at_none in Hp. by apply (Hp x Hx); rewrite <- E. }
  assert (Hni : br_ID b ∉ map br_ID (k_briefs d)) by by apply (bo_fresh_brief d Hd).
  assert (Hnj : forall x, x ∈ k_jobs d -> r_brief_id x <> Some (br_ID b)).
  { intros x Hx. by apply (bo_fresh_job d Hd (k_drawn d) x). }
  apply briefs_ok_draw in Hd as Hd0. set (d1 := put_briefs (k_briefs d ++ [b]) (draw d)).
  assert (Hins : insertEventBriefWithID b (draw d) = Ok (tt, d1)).
  { unfold d1. rewrite <- (draw_briefs d). apply insert_brief_total; tables; try done. apply status_for_ok. }
  assert (Hd1 : briefs_ok d1).
  { unfold d1. rewrite <- (draw_briefs d). apply briefs_ok_insert; tables; try done; [apply status_for_ok|]. intros n Hn E%Huuid. lia. }
  assert (Hv1 : forall k', brief_view d1 k' = if bool_decide (k' = k) then Some (b, []) else brief_view d k').
  { intros k'. unfold d1. rewrite <- (draw_briefs d), view_insert, view_draw, Hkb by (tables; done). done. }
  destruct (queue_for_effect now hash b [] d1) as (d' & Hq & Hd' & Eb & En & Ef & Ej & Hv'); [done| | |].
  { rewrite Hkb, Hv1. by rewrite bool_decide_eq_true_2. } { by intros x g ?%elem_of_nil. }
  exists d'. split.
  { rewrite <- Hq. unfold tx_bind, tx_write, NewString. unfold queue_for. destruct hash; cbn in b |- *; subst b; by rewrite Hins. }
  split; [done|]. split.
  { split; [unfold d1 in En; tables; lia|]. intros x. rewrite Eb. unfold d1. tables. intros [Hx| ->%list_elem_of_singleton]%elem_of_app.
    - left. exists x. repeat split; done || lia.
    - right. by exists (k_drawn d). }
  split; [rewrite Ef; unfold d1; by tables|]. split; [|split; [|done]].
  - intros k'. rewrite Hv', Hkb, Hv1. destruct (bool_decide (k' = k)); [|done]. unfold new_jobs. unfold d1. tables. by destruct hash.
  - rewrite Ej. unfold d1, new_jobs. tables. by destruct hash.
Qed.

(** ** A reconciliation, and races *)

(** Whatever another session commits between the read of a missing pair and
    its insert, the call does what it would have done after that commit. *)
Lemma attempt_race f now k name hash d :
  exists_where (pair_is k) (k_briefs d) = false -> exists_where (pair_is k) (k_briefs (f d)) = false ->
  attempt_pair uuid marshal f now k.1 k.2 name hash d = attempt_pair uuid marshal (fun x => x) now k.1 k.2 name hash (f d).
Proof.
  intros E1 E2. unfold attempt_pair, reconcileEventBriefPairOnce. unfold pair_is in E1, E2 |- *. rewrite E1, E2.
  assert (Hn : forall x, exists_where (pair_is k) (k_briefs x) = false -> head (select_where (same_pair k.1 k.2) (k_briefs x)) = None).
  { intros x Hx. apply (pair_at_none x k). intros b Hb Hk%pair_is_true. rewrite exists_where_false in Hx. by rewrite Hx in Hk. }
  unfold tx_bind, tx_read, tx_write. rewrite (Hn d E1), (Hn (f d) E2). reflexivity.
Qed.

(** An insert that lost the race. *)
Lemma attempt_lost f now k name hash d :
  exists_where (pair_is k) (k_briefs d) = false -> exists_where (pair_is k) (k_briefs (f d)) = true ->
  attempt_pair uuid marshal f now k.1 k.2 name hash d = (Err UniqueViolation, f d).
Proof.
  intros E1 E2. unfold attempt_pair, reconcileEventBriefPairOnce. unfold pair_is in E1, E2 |- *. rewrite E1.
  assert (Hn : head (select_where (same_pair k.1 k.2) (k_briefs d)) = None).
  { apply (pair_at_none d k). intros b Hb Hk%pair_is_true. rewrite exists_where_false in E1. unfold pair_is in Hk. by rewrite E1 in Hk. }
  unfold tx_bind, tx_read, tx_write. rewrite Hn. destruct hash; cbn; unfold insertEventBriefWithID; cbn; tables.
  all: by rewrite E2, orb_true_r.
Qed.

Lemma attempt_present f now k name hash d :
  exists_where (pair_is k) (k_briefs d) = true ->
  attempt_pair uuid marshal f now k.1 k.2 name hash d = attempt_pair uuid marshal (fun x => x) now k.1 k.2 name hash d /\
  (forall e, (attempt_pair uuid marshal f now k.1 k.2 name hash d).1 = Err e ->
     (attempt_pair uuid marshal f now k.1 k.2 name hash d).2 = d).
Proof.
  intros E. assert (Hs : is_Some (head (select_where (same_pair k.1 k.2) (k_briefs d)))).
  { apply exists_where_true in E as (b & Hb & Hk). assert (H : b ∈ select_where (same_pair k.1 k.2) (k_briefs d)) by by apply elem_of_select_where.
    destruct (select_where _ _); [by apply elem_of_nil in H|]. by eexists. }
  assert (Hf : reconcileEventBriefPairOnce uuid marshal f now k.1 k.2 name hash d = reconcile_once now k.1 k.2 name hash d).
  { destruct Hs as [b Hs]. unfold reconcileEventBriefPairOnce, tx_bind, tx_read. rewrite Hs. reflexivity. }
  unfold attempt_pair. unfold pair_is in E. rewrite Hf, E. split; [done|]. intros e. by destruct (reconcile_once _ _ _ _ _ d) as [[]|].
Qed.

(** The first attempt races, the others do not. *)
Definition one_race (f : adb -> adb) (i : nat) : adb -> adb := if (i =? 2)%nat then f else fun d => d.

(** A reconciliation that races with another session over a pair that had
    no brief when it was read — the other one may insert it, or do anything
    else — ends exactly as if it had run after the other session's commit. *)
Theorem reconcile_race f now k name hash d :
  ReconcileEventBriefPair uuid marshal (one_race f) now k.1 k.2 name hash d =
  ReconcileEventBriefPair uuid marshal quiet now k.1 k.2 name hash (if exists_where (pair_is k) (k_briefs d) then d else f d).
Proof.
  unfold ReconcileEventBriefPair. cbn [reconcile_attempts]. unfold one_race at 1 2 3. cbn [Nat.eqb].
  destruct (exists_where (pair_is k) (k_briefs d)) eqn:E1.
  - destruct (attempt_present f now k name hash d E1) as [-> _]. reflexivity.
  - destruct (exists_where (pair_is k) (k_briefs (f d))) eqn:E2.
    + rewrite (attempt_lost f now k name hash d E1 E2). pose proof (attempt_present (fun x => x) now k name hash (f d) E2) as [_ Hst].
      destruct (attempt_pair uuid marshal (fun x => x) now k.1 k.2 name hash (f d)) as [[b|e] d'] eqn:Ea; [done|].
      cbn in Hst. rewrite (Hst e eq_refl) in *. destruct e; try done. by rewrite Ea, Ea.
    + by rewrite (attempt_race f now k name hash d E1 E2).
Qed.

(** A reconciliation that commits. *)
Lemma reconcile_once_ok now k name hash d r d' :
  briefs_ok d -> reconcile_once now k.1 k.2 name hash d = Ok (r, d') -> reconciled now name hash k d d'.
Proof.
  intros Hd H. destruct (pair_at k d) as [b|] eqn:Hp.
  - destruct (reconcile_existing now k name hash b d Hd Hp) as (d1 & E & Hr). rewrite E in H. by injection H as _ <-.
  - assert (Hex : k.1 ∈ map ce_ID (k_events d) /\ exists_where (template_is k.2) (k_templates d) = true).
    { revert H. unfold reconcileEventBriefPairOnce. change (tx_read _) with (tx_read (pair_at k)).
      unfold tx_bind at 1, tx_read. rewrite Hp. unfold tx_bind, tx_write, NewString.
      assert (Hi : forall b d1 u d2, insertEventBriefWithID b d1 = Ok (u, d2) -> br_pair b = k -> k_events d1 = k_events d ->
        k_templates d1 = k_templates d -> k.1 ∈ map ce_ID (k_events d) /\ exists_where (template_is k.2) (k_templates d) = true).
      { intros b d1 u d2 Hi <- Ee Et. unfold insertEventBriefWithID in Hi. destruct (_ || _); [done|]. destruct (_ || _); [done|].
        destruct (exists_where (event_is _) _ && _) eqn:E; [|done]. apply andb_true_iff in E as [E1 E2]. rewrite Ee in E1. rewrite Et in E2.
        split; [|done]. apply exists_where_true in E1 as (e & He & Ei%String.eqb_eq). cbn. rewrite <- Ei. by apply list_elem_of_fmap_2. }
      destruct hash; (destruct (insertEventBriefWithID _ _) as [[u d2]|] eqn:E; [|done]); intros _;
        (eapply Hi; [exact E|by destruct k|by tables..]). }
    destruct Hex as [He Ht]. destruct (reconcile_new now k name hash d Hd Hp He Ht) as (d1 & E & Hr). rewrite E in H. by injection H as _ <-.
Qed.

Lemma reconcile_quiet_inv now k name hash d r d' : briefs_ok d ->
  ReconcileEventBriefPair uuid marshal quiet now k.1 k.2 name hash d = (r, d') -> d' = d \/ reconciled now name hash k d d'.
Proof.
  intros Hd. unfold ReconcileEventBriefPair. generalize 3%nat as n. induction n as [|n IH]; cbn; [by intros [= _ <-]; left|].
  unfold attempt_pair at 1. destruct (reconcile_once now k.1 k.2 name hash d) as [[b d1]|e] eqn:E.
  - intros [= _ <-]. right. by eapply reconcile_once_ok.
  - assert ((if exists_where (same_pair k.1 k.2) (k_briefs d) then d else d) = d) as -> by by destruct (exists_where _ _).
    destruct e; try (intros [= _ <-]; by left). exact IH.
Qed.

(** Reconciling a pair never fails on well-formed tables.  When the hash
    is the one of the last reconciliation nothing changes; otherwise the
    pair's brief, new or restarted, is without text at the next generation,
    pending with exactly one new job if there is an agent and failed with none
    if not.  No other pair, and no other table, is touched, and reconciling
    again is a no-op. *)
Theorem reconcile_pair_exact now k name hash d :
  briefs_ok d -> k.1 ∈ map ce_ID (k_events d) -> exists_where (template_is k.2) (k_templates d) = true ->
  exists d', ReconcileEventBriefPair uuid marshal quiet now k.1 k.2 name hash d =
      (Ok (bool_decide (is_Some hash) && due hash (pair_at k d)), d') /\
    reconciled now name hash k d d' /\
    forall now' name', ReconcileEventBriefPair uuid marshal quiet now' k.1 k.2 name' hash d' = (Ok false, d').
Proof.
  intros Hd He Ht. assert (H : exists d', reconcile_once now k.1 k.2 name hash d =
    Ok (bool_decide (is_Some hash) && due hash (pair_at k d), d') /\ reconciled now name hash k d d').
  { destruct (pair_at k d) as [b|] eqn:Hp; [by apply reconcile_existing|]. cbn. rewrite andb_true_r. by apply reconcile_new. }
  destruct H as (d' & E & Hr). exists d'. split; [|split; [done|]].
  - unfold ReconcileEventBriefPair. cbn. unfold attempt_pair. by rewrite E.
  - intros now' name'. destruct Hr as (Hd' & _ & _ & Hv & _). specialize (Hv k). rewrite bool_decide_eq_true_2 in Hv by done.
    assert (Hp : exists b, pair_at k d' = Some b /\ InputHash b = hash).
    { rewrite pair_at_view, Hv. unfold refreshed. destruct (brief_view d k) as [[b js]|]; cbn; [|by eexists].
      destruct (bool_decide (InputHash b = hash)) eqn:Eb; cbn; [apply bool_decide_eq_true in Eb|]; by eexists. }
    destruct Hp as (b & Hp & Hh). destruct (reconcile_existing now' k name' hash b d' Hd' Hp) as (d2 & E2 & _ & _ & _ & _ & _ & Hsame).
    assert (Hdue : due hash (Some b) = false) by (cbn; by rewrite bool_decide_eq_true_2).
    rewrite Hp in Hsame. rewrite Hsame, Hdue, andb_false_r in E2 by done.
    unfold ReconcileEventBriefPair. cbn [reconcile_attempts]. unfold attempt_pair. by rewrite E2.
Qed.

End Payloads.

End Uuids.
