(* ===== verification/BriefRuns.v ===== *)
(** Histories of the briefs ([Briefs]): which steps there are, that all of
    them keep the tables well formed, and what no history can do; what a
    template's clean-up, a retry and a sync of the events leave behind. *)

From stdpp Require Import base list strings sets gmap relations.
From Stdlib Require Import ZArith Lia.
From S2P Require Import GoInt GoStrings Sql Paging Transactions Jobs JobsProps Folders Execution Notes Transcripts Templates.
From S2P Require Import Summaries AgentTables TablesProps Calendar Briefs BriefsProps.

Local Open Scope string_scope.
Local Open Scope list_scope.
Local Open Scope tx_scope.

(** ** Events *)

Lemma delete_events_tables p d :
  let gone b := exists_where (fun e => event_is (br_EventID b) e && p e) (k_events d) in
  k_events (delete_events p d) = delete_where p (k_events d) /\
  k_briefs (delete_events p d) = delete_where gone (k_briefs d) /\
  (exists q, k_jobs (delete_events p d) = delete_where q (k_jobs d)) /\ k_drawn (delete_events p d) = k_drawn d.
Proof. cbn. unfold delete_events. tables. repeat split. by eexists. Qed.

Section Events.
Context (uuid : nat -> string) `{Huuid : !Inj (=) (=) uuid}.

Lemma delete_events_ok p d : briefs_ok uuid d -> briefs_ok uuid (delete_events p d) /\ evolves uuid d (delete_events p d).
Proof.
  intros Hd. destruct (delete_events_tables p d) as (Ee & Eb & (q & Ej) & En). split.
  - eapply briefs_ok_shrink; [exact Hd|exact Ee|exact Eb|exact Ej|exact En|]. cbn. intros b Hb Hg e He Ei.
    rewrite exists_where_false in Hg. specialize (Hg e He). unfold event_is in Hg. by rewrite Ei, String.eqb_refl in Hg.
  - by eapply evolves_shrink.
Qed.

Lemma event_is_true id e : event_is id e = true <-> ce_ID e = id.
Proof. apply String.eqb_eq. Qed.

(** One upsert: the row of the external id, under its old id if there was one. *)
Lemma upsert_ok now ownerID sourceID ev d u d' : briefs_ok uuid d ->
  upsert_event uuid now ownerID sourceID ev d = Ok (u, d') -> briefs_ok uuid d' /\ evolves uuid d d'.
Proof.
  intros Hd. unfold upsert_event, NewString, tx_bind. tables.
  assert (Hgrow : forall evs, NoDup (map ce_ID evs) -> (forall i, i ∈ map ce_ID (k_events d) -> i ∈ map ce_ID evs) ->
    briefs_ok uuid (put_events evs (draw d)) /\ evolves uuid d (put_events evs (draw d))).
  { intros evs Hnd Hin. split.
    - apply (briefs_ok_draw uuid) in Hd as []. split; tables; try done. intros b Hb. by apply Hin, bo_event.
    - split; tables; [lia|]. intros b Hb. left. exists b. repeat split; done || lia. }
  destruct (exists_where (same_external sourceID _) (k_events d)) eqn:E.
  - intros [= _ <-]. apply Hgrow.
    + rewrite (map_update_where ce_ID); [apply Hd|done].
    + by rewrite (map_update_where ce_ID).
  - destruct (exists_where (event_is (uuid (k_drawn d))) (k_events d)) eqn:Ei; [done|]. intros [= _ <-]. apply Hgrow.
    + rewrite map_app. apply NoDup_snoc; [apply Hd|]. intros (e & Ee & He)%list_elem_of_fmap. rewrite exists_where_false in Ei.
      specialize (Ei e He). cbn in Ee. unfold event_is in Ei. by rewrite <- Ee, String.eqb_refl in Ei.
    + intros i Hi. rewrite map_app. apply elem_of_app. by left.
Qed.

Lemma UpsertEvents_ok now ownerID sourceID evs d u d' : briefs_ok uuid d ->
  UpsertEvents uuid now ownerID sourceID evs d = Ok (u, d') -> briefs_ok uuid d' /\ evolves uuid d d'.
Proof.
  intros Hd H. unfold UpsertEvents in H. apply tx_bind_ok in H as (owned & d1 & [= <- <-] & H). destruct (negb _); [done|].
  apply (after_each (fun x => briefs_ok uuid x /\ evolves uuid d x)) in H; [done| |by split].
  intros ev _ x [] x' [Hx He] Hu. apply upsert_ok in Hu as [? ?]; [|done]. split; [done|]. by etransitivity.
Qed.

End Events.

Section Histories.
Context (uuid : nat -> string) `{Huuid : !Inj (=) (=) uuid}.
Variable marshal : prebriefPayload -> string.
Variable unmarshal : string -> option prebriefPayload.
Variable name_lt id_lt : string -> string -> bool.

(** ** Publication *)

Lemma current_brief_true id g b : current_brief id g b = true <-> br_ID b = id /\ br_Generation b = g.
Proof. unfold current_brief. by rewrite andb_true_iff, brief_is_true, Z.eqb_eq. Qed.

(** The guarded updates: a status and perhaps the text. *)
Definition writes_status (f : EventBrief -> EventBrief) : Prop := forall b,
  br_ID (f b) = br_ID b /\ br_pair (f b) = br_pair b /\ br_Generation (f b) = br_Generation b /\ br_Status (f b) ∈ brief_statuses.

Lemma writes_sections a m s now : writes_status (with_sections a m s now).
Proof. intros b. repeat split. by apply (bool_decide_unpack _); vm_compute. Qed.

Lemma writes_brief_status st now : st ∈ brief_statuses -> writes_status (with_brief_status st now).
Proof. by intros H b. Qed.

Lemma guarded_update_ok id g f d : briefs_ok uuid d -> writes_status f ->
  let d' := put_briefs (update_where (current_brief id g) f (k_briefs d)) d in briefs_ok uuid d' /\ evolves uuid d d'.
Proof.
  intros Hd Hf. apply briefs_ok_update; [done|intros b; split; apply Hf|]. intros b _ _. destruct (Hf b) as (_ & _ & -> & ?). by split.
Qed.

Lemma CleanupIneligible_eq id g d :
  CleanupIneligibleEventBriefIfCurrent id g d =
  Ok (if (rows_affected (current_brief id g) (k_briefs d) =? 0)%nat then (false, d) else
      (true, put_jobs (delete_where (queued_pre_job [id]) (k_jobs d)) (put_briefs (delete_where (current_brief id g) (k_briefs d)) d))).
Proof.
  unfold CleanupIneligibleEventBriefIfCurrent, tx_bind, tx_read, tx_write, tx_ret, deleteQueuedPreJobsForBriefs.
  destruct (rows_affected _ _ =? 0)%nat eqn:E; [|unfold tx_write; by tables]. rewrite delete_absent; [by tables|]. intros b Hb.
  destruct (current_brief id g b) eqn:Ec; [|done]. apply Nat.eqb_eq in E.
  assert (0 < rows_affected (current_brief id g) (k_briefs d))%nat by (apply rows_affected_pos; eauto). lia.
Qed.

(** ** Retrying *)

(** The checks of a retry, and what it does when all of them pass. *)
Definition may_retry (clock : Z) (jobID : string) (b : EventBrief) (d : adb) : Prop := exists job pl event tmpl,
  getJobTx jobID (k_jobs d) = Ok job /\ TargetKind job = Some JobTargetCalendarEvent /\ unmarshal (Payload job) = Some pl /\
  getCalendarEventByIDTx (CalendarEventID job) d = Ok event /\ (clock < StartsAt event)%Z /\
  getTemplateTx (ce_OwnerID event) (pb_TemplateID pl) (k_templates d) = Ok tmpl /\
  tm_Phase tmpl = templatePhasePre /\ AutoRun tmpl = true /\
  b ∈ k_briefs d /\ br_ID b = pb_BriefID pl /\ br_pair b = (CalendarEventID job, pb_TemplateID pl) /\ br_Generation b = pb_Generation pl.

Lemma getEventBrief_some id d b : getEventBriefByIDTx id d = Some b -> b ∈ k_briefs d /\ br_ID b = id.
Proof.
  unfold getEventBriefByIDTx. destruct (select_where _ _) as [|x l] eqn:E; [done|]. intros [= ->].
  assert (H : b ∈ select_where (brief_is id) (k_briefs d)) by (rewrite E; left).
  by apply elem_of_select_where in H as [? ?%brief_is_true].
Qed.

Lemma retry_ok now clock jobID d i d' : RetryPreBriefJob uuid marshal unmarshal now clock jobID d = Ok (i, d') ->
  exists b, may_retry clock jobID b d /\
    enqueuePreGenerateJobTx uuid marshal now (br_EventID b) (br_ID b) (br_TemplateID b) (br_Generation b)
      (put_briefs (update_where (current_brief (br_ID b) (br_Generation b)) (with_brief_status BriefPending now) (k_briefs d)) d) = Ok (i, d').
Proof.
  unfold RetryPreBriefJob. unfold tx_bind at 1, tx_read. destruct (getJobTx jobID (k_jobs d)) as [job|] eqn:Ej; [|done].
  destruct (TargetKind job) as [[]|] eqn:Ek; try done. destruct (unmarshal (Payload job)) as [pl|] eqn:Ep; [|done].
  destruct (negb (well_formed pl)); [done|]. unfold tx_bind at 1.
  destruct (getCalendarEventByIDTx (CalendarEventID job) d) as [event|] eqn:Ee; [|done].
  destruct (clock <? StartsAt event)%Z eqn:Ec; [|done]. cbn [negb]. unfold tx_bind at 1.
  destruct (getTemplateTx (ce_OwnerID event) (pb_TemplateID pl) (k_templates d)) as [tmpl|] eqn:Et; [|done].
  destruct (negb (tm_Phase tmpl =? templatePhasePre)%string || negb (AutoRun tmpl)) eqn:Eph; [done|]. unfold tx_bind at 1.
  destruct (getEventBriefByIDTx (pb_BriefID pl) d) as [b|] eqn:Eb; [|done].
  destruct (negb (br_EventID b =? _)%string || _) eqn:Epair; [done|]. destruct (br_Generation b =? pb_Generation pl)%Z eqn:Eg; [|done]. cbn [negb].
  apply orb_false_iff in Eph as [Eph%negb_false_iff%String.eqb_eq Ea%negb_false_iff].
  apply orb_false_iff in Epair as [E1%negb_false_iff%String.eqb_eq E2%negb_false_iff%String.eqb_eq].
  apply Z.eqb_eq in Eg. apply Z.ltb_lt in Ec. apply getEventBrief_some in Eb as [Hb Hi]. intros H. exists b. split.
  - exists job, pl, event, tmpl. unfold br_pair. by rewrite E1, E2.
  - unfold tx_bind, update_briefs, tx_write in H. by rewrite E1, E2, Hi, Eg.
Qed.

(** ** Histories *)

(** The queue's operations; an enqueue targets no brief, and its id is not one
    that is drawn later. *)
Definition queue_step_ok (o : timed_op) (d : adb) : Prop := forall i spec,
  op_of o = OpEnqueue i spec -> e_BriefID spec = "" /\ forall n, (k_drawn d <= n)%nat -> i <> uuid n.

Lemma queue_ok o d : briefs_ok uuid d -> queue_step_ok o d ->
  let d' := put_jobs (apply_op (job_references d) o (k_jobs d)) d in briefs_ok uuid d' /\ evolves uuid d d'.
Proof.
  intros Hd Ho. cbn. split; [|split; [by tables|]; tables; intros b Hb; left; exists b; repeat split; done || lia].
  pose proof (apply_op_inv (job_references d) o (k_jobs d) (bo_jobs uuid d Hd)) as Hinv.
  assert (Hrows : forall x', x' ∈ apply_op (job_references d) o (k_jobs d) ->
    (exists x, x ∈ k_jobs d /\ same_keys x x') \/ (r_brief_id x' = None /\ forall n, (k_drawn d <= n)%nat -> r_id x' <> uuid n)).
  { intros x' Hx'. destruct (op_of o) as [i spec| | | | | | | | |] eqn:Eo.
    1:{ destruct o as [now clock oo]. cbn in Eo. subst oo. unfold apply_op in Hx'. cbn [op_of op_now op_clock] in Hx'.
        destruct (EnqueueJob_appends (job_references d) i now spec (k_jobs d)) as [E|[E _]]; rewrite E in Hx'.
        { left. exists x'. split; [done|]. by repeat split. }
        apply elem_of_app in Hx' as [Hx'| ->%list_elem_of_singleton]; [left; exists x'; split; [done|]; by repeat split|right].
        destruct (Ho i spec eq_refl) as [Eb Hi]. cbn. by rewrite Eb. }
    all: destruct (apply_op_updates (job_references d) o (k_jobs d)) as (p & f & Hk & _ & E); [rewrite Eo; by intros|].
    all: rewrite E in Hx'; apply elem_of_update_where in Hx' as (x & Hx & ->); left; exists x; split; [done|].
    all: destruct (p x); [apply Hk|by repeat split]. }
  destruct Hd. split; tables; try done.
  - intros x' Hx' b Hb Ei. destruct (Hrows x' Hx') as [(x & Hx & _ & _ & E1 & E2 & E3 & _)|[E _]]; [|congruence].
    rewrite E1, E3. rewrite E2 in Ei. by apply bo_bound.
  - intros n x' Hn Hx'. destruct (Hrows x' Hx') as [(x & Hx & E0 & _ & _ & E2 & _)|[E E']].
    + rewrite E0, E2. by apply bo_fresh_job.
    + rewrite E. split; [by apply E'|done].
Qed.

(** The committed transactions of the briefs, of the events they belong to and
    of the queue; deletions that cascade from other tables ([p] briefs and [q]
    jobs go); anything that touches neither briefs, events nor jobs. *)
Inductive brief_step : adb -> adb -> Prop :=
| bs_reconcile now k name hash d r d' :
    ReconcileEventBriefPair uuid marshal quiet now k.1 k.2 name hash d = (r, d') -> brief_step d d'
| bs_ineligible events templates d n d' : DeleteIneligibleEventBriefs events templates d = Ok (n, d') -> brief_step d d'
| bs_window owner source now d n d' : DeleteEventBriefsOutsideWindow owner source now d = Ok (n, d') -> brief_step d d'
| bs_template template owners d n d' : DeleteEventBriefsForTemplate template owners d = Ok (n, d') -> brief_step d d'
| bs_publish now id g agent model sections d : brief_step d (PublishEventBrief now id g agent model sections d).2
| bs_fail now id g d : brief_step d (FailEventBriefIfCurrent now id g d).2
| bs_cleanup id g d c d' : CleanupIneligibleEventBriefIfCurrent id g d = Ok (c, d') -> brief_step d d'
| bs_retry now clock jobID d i d' : RetryPreBriefJob uuid marshal unmarshal now clock jobID d = Ok (i, d') -> brief_step d d'
| bs_upsert now owner source evs d u d' : UpsertEvents uuid now owner source evs d = Ok (u, d') -> brief_step d d'
| bs_prune source keep d : brief_step d (PruneEvents source keep d)
| bs_source owner source d : brief_step d (DeleteSource owner source d).2
| bs_queue o d : queue_step_ok o d -> brief_step d (put_jobs (apply_op (job_references d) o (k_jobs d)) d)
| bs_cascade p q d : brief_step d (put_jobs (delete_where q (k_jobs d)) (put_briefs (delete_where p (k_briefs d)) d))
| bs_elsewhere d d' : k_briefs d' = k_briefs d -> k_events d' = k_events d -> k_jobs d' = k_jobs d ->
    (k_drawn d <= k_drawn d')%nat -> brief_step d d'.

Lemma deleted_ok p q d : briefs_ok uuid d ->
  let d' := put_jobs (delete_where q (k_jobs d)) (put_briefs (delete_where p (k_briefs d)) d) in
  briefs_ok uuid d' /\ evolves uuid d d'.
Proof.
  intros Hd. cbn. split; [|eapply evolves_shrink; by tables].
  eapply (briefs_ok_shrink uuid (fun _ => false)); [exact Hd|tables; try reflexivity..|done]. by rewrite delete_absent.
Qed.

Lemma retry_tables now clock jobID d i d' : briefs_ok uuid d -> RetryPreBriefJob uuid marshal unmarshal now clock jobID d = Ok (i, d') ->
  exists b, may_retry clock jobID b d /\ i = uuid (k_drawn d) /\ let b' := with_brief_status BriefPending now b in
    let d1 := put_briefs (update_where (current_brief (br_ID b) (br_Generation b)) (with_brief_status BriefPending now) (k_briefs d)) d in
    d' = with_job marshal (uuid (k_drawn d)) now b' (draw d1) /\ briefs_ok uuid d' /\ evolves uuid d d'.
Proof.
  intros Hd (b & Hm & H)%retry_ok. exists b. split; [done|].
  assert (Hb : b ∈ k_briefs d) by by destruct Hm as (? & ? & ? & ? & ? & ? & ? & ? & ? & ? & ? & ? & ? & ?).
  destruct (guarded_update_ok (br_ID b) (br_Generation b) (with_brief_status BriefPending now) d Hd) as [Hd1 He1].
  { apply writes_brief_status. by apply (bool_decide_unpack _); vm_compute. }
  set (d1 := put_briefs _ d) in *. set (b' := with_brief_status BriefPending now b).
  assert (Hb' : b' ∈ k_briefs d1).
  { unfold d1. tables. apply elem_of_update_where. exists b. split; [done|]. by rewrite (proj2 (current_brief_true _ _ _)). }
  unfold enqueuePreGenerateJobTx in H. apply tx_bind_ok in H as (j & d2 & [= <- <-] & (u & d3 & Hi & [= <- <-])%tx_bind_ok).
  replace (k_drawn d1) with (k_drawn d) in * by (unfold d1; by tables). split; [done|].
  change (insert_job_tx (job_for marshal (uuid (k_drawn d)) now b') (draw d1) = Ok (u, d3)) in Hi.
  apply insert_job_ok in Hi as (E & _ & Hins). split; [exact E|]. subst d3.
  assert (Hact : forall x, x ∈ k_jobs d1 -> r_brief_id x = Some (br_ID b') -> r_brief_generation x = Some (br_Generation b') -> active x = false).
  { intros x Hx Ei Eg. unfold insert_job in Hins. destruct (_ && unique_ok _) eqn:Eu; [|done].
    apply andb_true_iff in Eu as [_ Eu]. tables. destruct (active x) eqn:Ea; [|done]. exfalso.
    assert (Hc : conflicts x (job_for marshal (uuid (k_drawn d)) now b') = true).
    { unfold conflicts. rewrite Ea, Ei, Eg. cbn. by rewrite (bool_decide_eq_true_2 (Some (br_ID b) = _)), bool_decide_eq_true_2. }
    by apply (unique_ok_no_conflict _ _ _ Eu Hc). }
  destruct (enqueue_total uuid marshal now b' d1 Hd1 Hb' Hact) as [_ Hok]. replace (k_drawn d1) with (k_drawn d) in Hok by (unfold d1; by tables).
  split; [exact Hok|]. etransitivity; [exact He1|]. split; [unfold with_job; tables; lia|]. unfold with_job. tables. intros x Hx.
  left. exists x. repeat split; done || lia.
Qed.

Lemma brief_step_ok d d' : briefs_ok uuid d -> brief_step d d' -> briefs_ok uuid d' /\ evolves uuid d d'.
Proof.
  intros Hd Hs. assert (Hdel : forall p x n d2, delete_briefs p x = Ok (n, d2) -> briefs_ok uuid x -> briefs_ok uuid d2 /\ evolves uuid x d2).
  { intros p x n d2 E Hx. rewrite delete_briefs_eq in E. injection E as _ <-. by apply deleted_ok. }
  assert (Hsame : briefs_ok uuid d /\ evolves uuid d d) by by split.
  destruct Hs as [now k name hash d r d' H|evs ts d n d' H|owner source now d n d' H|t owners d n d' H|now id g a m secs d|now id g d|
    id g d c d' H|now clock j d i d' H|now owner source evs d u d' H|source keep d|owner source d|o d Ho|p q d|d d' E1 E2 E3 E4].
  - apply (reconcile_quiet_inv uuid marshal) in H as [->|H]; [done| |done]. by destruct H as (? & ? & _).
  - unfold DeleteIneligibleEventBriefs in H. destruct evs; [by injection H as _ <-|by eapply Hdel].
  - by eapply Hdel.
  - unfold DeleteEventBriefsForTemplate in H. destruct owners; [by injection H as _ <-|by eapply Hdel].
  - apply guarded_update_ok; [done|apply writes_sections].
  - apply guarded_update_ok; [done|apply writes_brief_status]. by apply (bool_decide_unpack _); vm_compute.
  - rewrite CleanupIneligible_eq in H. injection H as H. destruct (_ =? 0)%nat; injection H as _ <-; [done|by apply deleted_ok].
  - apply retry_tables in H as (b & _ & _ & _ & ? & ?); done.
  - by apply UpsertEvents_ok in H.
  - unfold PruneEvents. destruct keep; by apply delete_events_ok.
  - unfold DeleteSource. destruct (_ =? 0)%nat; [done|]. cbn. destruct (delete_events_ok uuid (fun e => (ce_SourceID e =? source)%string) d Hd) as [[] He].
    split; [split; tables; done|]. etransitivity; [exact He|]. split; tables; [done|]. intros b Hb. left. exists b. repeat split; done || lia.
  - by apply queue_ok.
  - by apply deleted_ok.
  - split.
    + destruct Hd. split; rewrite ?E1, ?E2, ?E3; try done; intros n **; [apply bo_fresh_brief|apply bo_fresh_job]; done || lia.
    + split; [done|]. rewrite E1. intros b Hb. left. exists b. repeat split; done || lia.
Qed.

Lemma history_ok d d' : briefs_ok uuid d -> rtc brief_step d d' -> briefs_ok uuid d' /\ evolves uuid d d'.
Proof.
  intros Hd Hs. induction Hs as [|d d1 d2 H1 _ IH]; [by split|]. destruct (brief_step_ok d d1 Hd H1) as [Hd1 He].
  destruct (IH Hd1) as [? ?]. split; [done|]. by etransitivity.
Qed.

(** C19. The briefs' tables stay well formed through any history: one brief
    per event and template, whose event exists; generations positive; every job
    of a brief targets the brief's event and writes for a generation that the
    brief has reached, no two unsettled ones for the same; and an id drawn in
    the future names neither a brief nor a job. *)
Theorem brief_tables_invariant d d' : briefs_ok uuid d -> rtc brief_step d d' -> briefs_ok uuid d'.
Proof. intros Hd Hs. by apply (history_ok d d'). Qed.

(** C20. Once a brief has moved past a generation, that generation is dead:
    after any further history a worker that still runs for it can neither
    publish, nor fail, nor clean up the brief, and changes nothing by trying. *)
Theorem stale_generation_fenced d d' b g :
  briefs_ok uuid d -> b ∈ k_briefs d -> (g < br_Generation b)%Z -> rtc brief_step d d' ->
  (forall now agent model sections, PublishEventBrief now (br_ID b) g agent model sections d' = (false, d')) /\
  (forall now, FailEventBriefIfCurrent now (br_ID b) g d' = (false, d')) /\
  CleanupIneligibleEventBriefIfCurrent (br_ID b) g d' = Ok (false, d').
Proof.
  intros Hd Hb Hg Hs. destruct (history_ok d d' Hd Hs) as [Hd' He].
  assert (Hno : forall b', b' ∈ k_briefs d' -> current_brief (br_ID b) g b' = false).
  { intros b' Hb'. destruct (current_brief _ _ b') eqn:E; [|done]. apply current_brief_true in E as [Ei Eg].
    destruct (evolves_id uuid d d' b b') as [_ H]; [done..|]. lia. }
  assert (E0 : rows_affected (current_brief (br_ID b) g) (k_briefs d') = 0%nat).
  { destruct (rows_affected _ _) eqn:E; [done|]. assert (0 < rows_affected (current_brief (br_ID b) g) (k_briefs d'))%nat
      as (x & Hx & Ex)%rows_affected_pos by lia. by rewrite Hno in Ex. }
  unfold PublishEventBrief, FailEventBriefIfCurrent. rewrite CleanupIneligible_eq, E0. cbn.
  split; [|split; [|done]]; intros; rewrite update_where_unmatched by done; by tables.
Qed.

(** An administrator's retry queues exactly one job, for the brief that
    the old job names and that belongs to the old job's own event, at that
    brief's current generation; it makes the brief pending and touches no other
    brief and no other table.  It succeeds only while the event is ahead and the
    template, as the event's owner sees it, still generates briefs. *)
Theorem retry_exact now clock jobID d i d' :
  briefs_ok uuid d -> RetryPreBriefJob uuid marshal unmarshal now clock jobID d = Ok (i, d') ->
  exists b, may_retry clock jobID b d /\ i = uuid (k_drawn d) /\
    let b' := with_brief_status BriefPending now b in
    (forall k, brief_view d' k = if bool_decide (k = br_pair b) then Some (b', brief_jobs (br_ID b) d ++ [job_for marshal i now b'])
                                 else brief_view d k) /\
    k_jobs d' = k_jobs d ++ [job_for marshal i now b'] /\ brief_frame d' = brief_frame d.
Proof.
  intros Hd (b & Hm & -> & E & _ & _)%retry_tables; [|done]. exists b. split; [done|]. split; [done|].
  assert (Hb : b ∈ k_briefs d) by by destruct Hm as (? & ? & ? & ? & ? & ? & ? & ? & ? & ? & ? & ? & ? & ?).
  cbn in E |- *. rewrite E. unfold with_job at 2 3. tables. split; [|done]. intros k. rewrite view_with_job, view_draw, view_update by done.
  assert (Hcur : forall x, x ∈ k_briefs d -> br_pair x = br_pair b \/ br_ID x = br_ID b -> x = b).
  { intros x Hx [H|H]; [by apply (key_unique br_pair (k_briefs d)); [apply Hd|..]|by apply (key_unique br_ID (k_briefs d)); [apply Hd|..]]. }
  unfold brief_view. destruct (pair_at k d) as [x|] eqn:Ex; cbn.
  - apply (pair_at_spec uuid) in Ex as [Hx Hk]; [|done]. destruct (decide (k = br_pair b)) as [->|Hne].
    + rewrite (Hcur x) by auto. rewrite (bool_decide_eq_true_2 (br_pair b = _)), (proj2 (current_brief_true _ _ _)) by done.
      by rewrite bool_decide_eq_true_2.
    + assert (Hxb : br_ID x <> br_ID b) by (intros H; apply Hne; rewrite <- Hk, (Hcur x); auto).
      rewrite (bool_decide_eq_false_2 (k = _)) by done. destruct (current_brief _ _ x) eqn:Ec; [by apply current_brief_true in Ec as [? _]|].
      rewrite bool_decide_eq_false_2 by done. by rewrite app_nil_r.
  - rewrite pair_at_none in Ex. rewrite bool_decide_eq_false_2; [done|]. intros ->. by apply (Ex b).
Qed.

End Histories.
