(* ===== verification/BriefCleanup.v ===== *)
(** Cleaning up a template's briefs owner by owner, in pages
    ([cleanupBriefsForTemplateAllOwners] of [Briefs]): the pages end and
    together they delete exactly the template's briefs. *)

From stdpp Require Import base list strings sets gmap.
From Stdlib Require Import ZArith Lia.
From S2P Require Import GoInt GoStrings Sql Paging Transactions Jobs JobsProps Folders Execution Notes Transcripts Templates.
From S2P Require Import Summaries AgentTables TablesProps Calendar Briefs BriefsProps.

Local Open Scope string_scope.
Local Open Scope list_scope.

(** ** Deletions compose *)

Lemma delete_where_delete {row} (p q : row -> bool) t : delete_where q (delete_where p t) = delete_where (fun r => p r || q r) t.
Proof.
  unfold delete_where. induction t as [|r t IH]; cbn; [done|]. destruct (p r); cbn; [done|]. destruct (q r); cbn; by rewrite IH.
Qed.

Lemma select_every {row} (t : list row) : select_where (fun _ => true) t = t.
Proof. unfold select_where. induction t as [|r t IH]; cbn; [done|]. by rewrite IH. Qed.

Lemma queued_pre_job_ext ids ids' r : (forall i, i ∈ ids <-> i ∈ ids') -> queued_pre_job ids r = queued_pre_job ids' r.
Proof.
  intros H. unfold queued_pre_job. destruct (r_brief_id r) as [i|]; [|done]. f_equal. by apply bool_decide_ext.
Qed.

Lemma without_briefs_ext p q d : (forall b, b ∈ k_briefs d -> p b = q b) -> without_briefs p d = without_briefs q d.
Proof. intros H. unfold without_briefs. by rewrite (select_where_ext p q), (delete_where_ext p q). Qed.

Lemma without_briefs_none p d : (forall b, b ∈ k_briefs d -> p b = false) -> without_briefs p d = d.
Proof.
  intros H. unfold without_briefs. rewrite select_none, (delete_absent p) by done. cbn. rewrite delete_absent by (intros; apply queued_of_none).
  by tables.
Qed.

Lemma without_briefs_twice p q d : without_briefs q (without_briefs p d) = without_briefs (fun b => p b || q b) d.
Proof.
  unfold without_briefs. tables. rewrite !delete_where_delete. destruct d as [m u n t s o j c e b f l]. cbn [k_jobs k_briefs put_jobs put_briefs]. f_equal.
  apply delete_where_ext. intros r _. unfold queued_pre_job. destruct (r_brief_id r) as [i|]; [|by rewrite !andb_false_r].
  rewrite <- andb_orb_distrib_r. f_equal. rewrite <- bool_decide_or. apply bool_decide_ext. rewrite !list_elem_of_fmap.
  setoid_rewrite elem_of_select_where. setoid_rewrite elem_of_delete_where. split.
  - intros [(x & E & ? & Hp)|(x & E & [? ?] & Hq)]; exists x; (split; [done|]; split; [done|]); apply orb_true_iff; auto.
  - intros (x & E & ? & H). destruct (p x) eqn:Ep; [left|right]; exists x; repeat split; auto.
Qed.

Lemma rows_affected_split {row} (p q : row -> bool) t : (forall r, r ∈ t -> p r = true -> q r = true) ->
  rows_affected q t = (rows_affected p t + rows_affected q (delete_where p t))%nat.
Proof.
  unfold rows_affected, delete_where. induction t as [|r t IH]; intros H; cbn; [done|].
  specialize (IH (fun x Hx => H x (list_elem_of_further _ _ _ Hx))). destruct (p r) eqn:Ep; cbn.
  - rewrite (H r) by (left || done). cbn. lia.
  - destruct (q r); cbn; lia.
Qed.

(** ** The pages *)

Section Cleanup.
Context (uuid : nat -> string) (id_lt : string -> string -> bool) `{Hlt : !StrictTotalOrder id_lt}.

Definition of_template (templateID : string) (b : EventBrief) : bool := (br_TemplateID b =? templateID)%string.
Definition owner_of (d : adb) (b : EventBrief) : option string := ce_OwnerID <$> event_of (br_EventID b) d.

Lemma owner_exists d b : briefs_ok uuid d -> b ∈ k_briefs d -> exists o, owner_of d b = Some o.
Proof.
  intros Hd Hb. pose proof (bo_event uuid d Hd b Hb) as (e & E & He)%list_elem_of_fmap. unfold owner_of, event_of.
  assert (H : e ∈ select_where (event_is (br_EventID b)) (k_events d)) by by apply elem_of_select_where; rewrite E; split; [|apply String.eqb_refl].
  destruct (select_where _ _); [by apply elem_of_nil in H|]. by eexists.
Qed.

Lemma owner_without p d b : owner_of (without_briefs p d) b = owner_of d b.
Proof. unfold owner_of, event_of, without_briefs. by tables. Qed.

(** The owners of the template's briefs, from [after] on. *)
Definition owners_after (templateID : string) (after : option string) (d : adb) : list string :=
  omap (fun b => match event_of (br_EventID b) d with
    | Some e => if of_template templateID b && after_id id_lt after (ce_OwnerID e) then Some (ce_OwnerID e) else None
    | None => None
    end) (k_briefs d).

Lemma elem_of_owners_after t after d o :
  o ∈ owners_after t after d <-> exists b, b ∈ k_briefs d /\ of_template t b = true /\ owner_of d b = Some o /\ after_id id_lt after o = true.
Proof.
  unfold owners_after, owner_of. rewrite list_elem_of_omap. split.
  - intros (b & Hb & E). exists b. destruct (event_of _ d) as [e|]; [|done]. destruct (of_template t b) eqn:Et; [|done].
    destruct (after_id _ _ _) eqn:Ea; [|done]. cbn in E. injection E as <-. done.
  - intros (b & Hb & Et & Eo & Ea). exists b. split; [done|]. destruct (event_of _ d) as [e|]; [|done]. cbn in Eo. injection Eo as ->.
    by rewrite Et, Ea.
Qed.

Lemma owners_page t after d :
  affectedOwnersForTemplateBatch id_lt t after templateCleanupOwnerBatchSize d =
  page id_lt (fun o => o) templateCleanupOwnerBatchSize (fun _ => true) (remove_dups (owners_after t after d)).
Proof.
  unfold page. rewrite select_every. reflexivity.
Qed.

Lemma brief_joins_owners (owners : list string) d b : brief_joins (fun e => bool_decide (ce_OwnerID e ∈ owners)) d b =
  match owner_of d b with Some o => bool_decide (o ∈ owners) | None => false end.
Proof. unfold brief_joins, owner_of. by destruct (event_of _ d). Qed.

(** The briefs one page deletes. *)
Definition owned_of_template (t : string) (owners : list string) (d : adb) (b : EventBrief) : bool :=
  of_template t b && match owner_of d b with Some o => bool_decide (o ∈ owners) | None => false end.

Lemma delete_for_template t owners d : owners <> [] ->
  DeleteEventBriefsForTemplate t owners d =
  Ok (rows_affected (owned_of_template t owners d) (k_briefs d), without_briefs (owned_of_template t owners d) d).
Proof.
  intros Hne. unfold DeleteEventBriefsForTemplate. destruct owners as [|o owners]; [done|]. rewrite delete_briefs_eq.
  assert (Hp : forall b, of_template t b && brief_joins (fun e => bool_decide (ce_OwnerID e ∈ o :: owners)) d b = owned_of_template t (o :: owners) d b).
  { intros b. unfold owned_of_template. by rewrite brief_joins_owners. }
  rewrite (without_briefs_ext _ (owned_of_template t (o :: owners) d)) by (intros b _; apply Hp). do 2 f_equal. unfold rows_affected. f_equal.
  apply (select_where_ext _ (owned_of_template t (o :: owners) d)). intros b _. apply Hp.
Qed.

Lemma cleanup_pages_exact t fuel after total d : briefs_ok uuid d ->
  (forall b o, b ∈ k_briefs d -> of_template t b = true -> owner_of d b = Some o -> after_id id_lt after o = true) ->
  (rows_affected (of_template t) (k_briefs d) < fuel)%nat ->
  cleanup_pages id_lt fuel t after total d =
  Ok ((total + rows_affected (of_template t) (k_briefs d))%nat, without_briefs (of_template t) d).
Proof.
  revert after total d. induction fuel as [|fuel IH]; intros after total d Hd Hafter Hfuel; [lia|]. cbn [cleanup_pages].
  unfold tx_bind at 1, tx_read. rewrite owners_page. set (owners := page _ _ _ _ _).
  assert (Hin : forall o, o ∈ owners -> o ∈ owners_after t after d).
  { intros o [Ho _]%elem_of_page. by rewrite elem_of_remove_dups in Ho. }
  assert (Hnd : NoDup (map (fun o : string => o) (remove_dups (owners_after t after d)))) by (rewrite map_id; apply NoDup_remove_dups).
  assert (Hall : forall b o, b ∈ k_briefs d -> of_template t b = true -> owner_of d b = Some o -> o ∈ remove_dups (owners_after t after d)).
  { intros b o Hb Ht Ho. apply elem_of_remove_dups, elem_of_owners_after. exists b. repeat split; [done..|]. by eapply Hafter. }
  destruct (last owners) as [l|] eqn:El.
  - assert (Hl : l ∈ owners) by (apply last_Some in El as (l' & ->); apply elem_of_app; right; left).
    assert (Hdel := delete_for_template t owners d). set (p := owned_of_template t owners d) in *.
    assert (Hpe : forall b, p b = of_template t b && match owner_of d b with Some o => bool_decide (o ∈ owners) | None => false end) by done.
    assert (Hp : forall b, b ∈ k_briefs d -> p b = true -> of_template t b = true) by (intros b _; rewrite Hpe; by intros [? _]%andb_true_iff).
    unfold tx_bind. rewrite Hdel by (intros E; rewrite E in Hl; by apply elem_of_nil in Hl). destruct (Nat.ltb_spec (length owners) templateCleanupOwnerBatchSize) as [Hs|_].
    + assert (Heq : forall b, b ∈ k_briefs d -> p b = of_template t b).
      { intros b Hb. rewrite Hpe. destruct (of_template t b) eqn:Et; [|done]. destruct (owner_exists d b Hd Hb) as [o Ho]. rewrite Ho, andb_true_l.
        apply bool_decide_eq_true. apply (short_page id_lt (fun o => o) templateCleanupOwnerBatchSize (fun _ => true)); [done|by eapply Hall|done]. }
      rewrite (without_briefs_ext p (of_template t)) by done. unfold tx_ret. do 3 f_equal.
      unfold rows_affected. f_equal. by apply (select_where_ext p).
    + rewrite IH.
      * rewrite without_briefs_twice. unfold without_briefs at 1. tables.
        rewrite (rows_affected_split p (of_template t) (k_briefs d) Hp), Nat.add_assoc. do 2 f_equal. apply without_briefs_ext.
        intros b Hb. destruct (p b) eqn:Ep; [cbn; by rewrite Hp|done].
      * by apply without_briefs_ok.
      * intros b o Hb Ht. rewrite owner_without. intros Ho. unfold without_briefs in Hb. tables. apply elem_of_delete_where in Hb as [Hb Hpb].
        destruct (page_last id_lt (fun o => o) templateCleanupOwnerBatchSize (fun _ => true) _ l o Hnd El) as [Hpg|Hlt']; [by eapply Hall|done| |done].
        rewrite Hpe in Hpb. by rewrite Ht, Ho, bool_decide_eq_true_2 in Hpb.
      * unfold without_briefs. tables. rewrite (rows_affected_split p (of_template t) (k_briefs d) Hp) in Hfuel.
        assert (0 < rows_affected p (k_briefs d))%nat; [|lia]. apply rows_affected_pos.
        pose proof (Hin l Hl) as (b & Hb & Ht & Ho & _)%elem_of_owners_after. exists b. split; [done|]. rewrite Hpe. by rewrite Ht, Ho, bool_decide_eq_true_2.
  - assert (Hnone : forall b, b ∈ k_briefs d -> of_template t b = false).
    { intros b Hb. destruct (of_template t b) eqn:Et; [|done]. destruct (owner_exists d b Hd Hb) as [o Ho].
      apply last_None in El. assert (Hp : o ∈ owners); [|rewrite El in Hp; by apply elem_of_nil in Hp].
      apply (short_page id_lt (fun o => o) templateCleanupOwnerBatchSize (fun _ => true)); [|by eapply Hall|done]. fold owners. rewrite El. cbn. unfold templateCleanupOwnerBatchSize. lia. }
    rewrite without_briefs_none by done. assert (rows_affected (of_template t) (k_briefs d) = 0%nat) as ->; [|by rewrite Nat.add_0_r].
    unfold rows_affected. change (length (select_where (of_template t) (k_briefs d)) = 0%nat). by rewrite select_none.
Qed.

Lemma cleanup_template_eq t d : briefs_ok uuid d ->
  cleanupBriefsForTemplateAllOwners id_lt t d = Ok (rows_affected (of_template t) (k_briefs d), without_briefs (of_template t) d).
Proof.
  intros Hd. unfold cleanupBriefsForTemplateAllOwners. rewrite cleanup_pages_exact; [done|done| |].
  - by intros b o _ _ _.
  - unfold rows_affected. pose proof (List.filter_length_le (of_template t) (k_briefs d)). lia.
Qed.

(** When a template stops generating briefs, the clean-up across all
    owners ends and, however many pages of owners there are, deletes exactly the
    template's briefs with their queued jobs, and reports how many. *)
Theorem cleanup_template_exact t d : briefs_ok uuid d ->
  cleanupBriefsForTemplateAllOwners id_lt t d = Ok (rows_affected (of_template t) (k_briefs d), without_briefs (of_template t) d).
Proof. intros Hd. by rewrite cleanup_template_eq. Qed.

End Cleanup.
