(* ===== verification/Calls.v ===== *)
(** Store calls made one after the other, as the workers and the packages above
    the store make them.

    Each call is a transaction of its own: before call [n] other users of the
    tables do [others n], and the database may refuse it ([fails n]).  A [Pass]
    threads the number of calls made and the tables. *)

From stdpp Require Import base list.
From S2P Require Import GoInt Sql.

Definition Pass (St A : Type) : Type := nat * St -> result store_error A * (nat * St).

Section Calls.
Context {St : Type}.
Variable others : nat -> St -> St.
Variable fails : nat -> bool.

Definition pass_ret {A} (a : A) : Pass St A := fun s => (Ok a, s).
Definition pass_fail {A} (e : store_error) : Pass St A := fun s => (Err e, s).
Definition pass_bind {A B} (m : Pass St A) (k : A -> Pass St B) : Pass St B :=
  fun s => match m s with (Ok a, s') => k a s' | (Err e, s') => (Err e, s') end.

Definition store_call {A} (f : nat -> St -> result store_error A * St) : Pass St A :=
  fun '(n, d) =>
    let d := others n d in
    if fails n then (Err DbError, (S n, d)) else let '(r, d') := f n d in (r, (S n, d')).

(** An error that is logged and dropped. *)
Definition ignoring {A} (m : Pass St A) : Pass St unit := fun s => (Ok tt, (m s).2).

(** An error that the caller keeps and goes on after. *)
Definition attempt {A} (m : Pass St A) : Pass St (result store_error A) := fun s => let '(r, s') := m s in (Ok r, s').

Fixpoint pass_each {X} (f : X -> Pass St unit) (l : list X) : Pass St unit :=
  match l with
  | [] => pass_ret tt
  | x :: rest => pass_bind (f x) (fun _ => pass_each f rest)
  end.

(** ** What every call keeps, the pass keeps *)

Definition pass_keeps {A} (I : St -> Prop) (m : Pass St A) : Prop := forall n d, I d -> I (m (n, d)).2.2.

Section Keeps.
Variable I : St -> Prop.
Hypothesis others_keep : forall n d, I d -> I (others n d).

Lemma pass_keeps_ret {A} (a : A) : pass_keeps I (pass_ret a).
Proof. by intros n d Hd. Qed.

Lemma pass_keeps_fail {A} e : pass_keeps I (pass_fail (A := A) e).
Proof. by intros n d Hd. Qed.

Lemma pass_keeps_bind {A B} (m : Pass St A) (k : A -> Pass St B) :
  pass_keeps I m -> (forall a, pass_keeps I (k a)) -> pass_keeps I (pass_bind m k).
Proof.
  intros Hm Hk n d Hd. unfold pass_bind. specialize (Hm n d Hd). destruct (m (n, d)) as [[a|e] [n' d']]; [by apply Hk|done].
Qed.

Lemma pass_keeps_call {A} (f : nat -> St -> result store_error A * St) :
  (forall n d, I d -> I (f n d).2) -> pass_keeps I (store_call f).
Proof.
  intros Hf n d Hd. unfold store_call. destruct (fails n); [by apply others_keep|].
  specialize (Hf n (others n d) (others_keep n d Hd)). by destruct (f n (others n d)).
Qed.

Lemma pass_keeps_attempt {A} (m : Pass St A) : pass_keeps I m -> pass_keeps I (attempt m).
Proof. intros Hm n d Hd. unfold attempt. specialize (Hm n d Hd). by destruct (m (n, d)). Qed.

Lemma pass_keeps_ignoring {A} (m : Pass St A) : pass_keeps I m -> pass_keeps I (ignoring m).
Proof. intros Hm n d Hd. by apply Hm. Qed.

Lemma pass_keeps_each {X} (f : X -> Pass St unit) l : (forall x, x ∈ l -> pass_keeps I (f x)) -> pass_keeps I (pass_each f l).
Proof.
  induction l as [|x l IH]; intros H; [apply pass_keeps_ret|]. apply pass_keeps_bind; [apply H; left|].
  intros _. apply IH. intros y Hy. apply H. by right.
Qed.

(** [m] keeps [I] and answers what satisfies [Q]. *)
Definition pass_ensures {A} (Q : A -> Prop) (m : Pass St A) : Prop :=
  forall n d, I d -> I (m (n, d)).2.2 /\ match (m (n, d)).1 with Ok a => Q a | Err _ => True end.

Lemma pass_keeps_bind_ensures {A B} (Q : A -> Prop) (m : Pass St A) (k : A -> Pass St B) :
  pass_ensures Q m -> (forall a, Q a -> pass_keeps I (k a)) -> pass_keeps I (pass_bind m k).
Proof.
  intros Hm Hk n d Hd. unfold pass_bind. specialize (Hm n d Hd). destruct (m (n, d)) as [[a|e] [n' d']]; [apply Hk; apply Hm|apply Hm].
Qed.

Lemma ensures_ret {A} (Q : A -> Prop) a : Q a -> pass_ensures Q (pass_ret a).
Proof. by intros Ha n d Hd. Qed.

(** A read that is kept, refused or not. *)
Lemma ensures_read {A} (Q : A -> Prop) (f : St -> result store_error A) :
  (forall d a, I d -> f d = Ok a -> Q a) ->
  pass_ensures (fun r => match r with Ok a => Q a | Err _ => True end) (attempt (store_call (fun _ d => (f d, d)))).
Proof.
  intros Hf n d Hd. unfold attempt, store_call. assert (Hd' := others_keep n d Hd). destruct (fails n); [done|]. cbn.
  split; [done|]. destruct (f (others n d)) eqn:E; [by eapply Hf|done].
Qed.
End Keeps.
End Calls.
