(* ===== verification/CalendarSync.v ===== *)
(** The calendar worker: [internal/worker/calendarsync.go] and
    [internal/worker/prebriefs.go].

    A pass over one source is a sequence of store calls.  [others n] is what
    other sessions commit before the [n]-th call, [fails n] whether that call
    fails, [races n i] what they commit inside the [i]-th attempt at a pair.
    Fetching, decryption, JSON, hashing and the text of times are arguments;
    deriving people from the events is left out. *)

From stdpp Require Import base list strings sets gmap.
From Stdlib Require Import ZArith Lia SpecFloat.
From S2P Require Import GoInt GoStrings Sql Transactions Jobs Folders Execution Notes Transcripts Templates Summaries.
From S2P Require Import Plugins AgentTables Calendar Briefs Calls.

Local Open Scope string_scope.

Definition preBriefBatchSize : nat := 100.
Definition calendarSyncLookback : Z := (24 * 3600 * second)%Z.
Definition calendarSyncLookahead : Z := (14 * 24 * 3600 * second)%Z.

(** ** The freshness hash *)

Record nonSecretPluginConfig := { ns_Model : string; ns_Temperature : option spec_float }.
Record preBriefAgentIdentity := { ag_ID : string; ag_Name : string; ag_Model : string; ag_Temperature : option spec_float }.

Record hashedAttendee := { ha_Name : string; ha_Email : string; ha_Response : string }.
Record hashedCalendarEvent := {
  he_Title : string; he_StartsAt : string; he_EndsAt : string; he_Description : string; he_Location : string;
  he_ConferencingURL : string; he_Attendees : list hashedAttendee }.
Record hashedTemplate := {
  ht_Name : string; ht_Sections : list TemplateSection; ht_SystemPrompt : string; ht_Model : string; ht_Temperature : option spec_float }.
Record preBriefHashInput := { hi_Event : hashedCalendarEvent; hi_Template : hashedTemplate; hi_Agent : preBriefAgentIdentity }.

Definition hashed_attendee (a : Attendee) : hashedAttendee := {|
  ha_Name := at_Name a; ha_Email := at_Email a; ha_Response := Response a |}.

(** The comparison [sort.Slice] is given. *)
Definition attendee_less (a b : hashedAttendee) : bool :=
  if negb (ha_Email a =? ha_Email b)%string then String.ltb (ha_Email a) (ha_Email b) else String.ltb (ha_Name a) (ha_Name b).

Section Hash.
(** [sort.Slice] is not stable: any sorted permutation may come out. *)
Variable sort_attendees : list hashedAttendee -> list hashedAttendee.
Variable rfc3339 : Z -> string.
Variable marshal_input : preBriefHashInput -> string.
Variable sha256_hex : string -> string.

Definition hash_input (ev : CalendarEvent) (tmpl : Template) (agent : preBriefAgentIdentity) : preBriefHashInput := {|
  hi_Event := {|
    he_Title := ce_Title ev; he_StartsAt := rfc3339 (AgentTables.StartsAt ev); he_EndsAt := rfc3339 (EndsAt ev);
    he_Description := Description ev; he_Location := Location ev; he_ConferencingURL := ConferencingURL ev;
    he_Attendees := sort_attendees (map hashed_attendee (Attendees ev)) |};
  hi_Template := {|
    ht_Name := tm_Name tmpl; ht_Sections := tm_Sections tmpl; ht_SystemPrompt := tm_SystemPrompt tmpl; ht_Model := tm_Model tmpl;
    ht_Temperature := tm_Temperature tmpl |};
  hi_Agent := agent |}.

Definition computePreBriefHash (ev : CalendarEvent) (tmpl : Template) (agent : preBriefAgentIdentity) : string :=
  sha256_hex (marshal_input (hash_input ev tmpl agent)).
End Hash.

(** [decode] is the decoding of the two fields; malformed text leaves them unset. *)
Definition extractNonSecretPluginConfig (decode : string -> nonSecretPluginConfig) (raw : string) : nonSecretPluginConfig := decode raw.

(** [None]: no default agent, or its lookup failed. *)
Definition resolveDefaultAgentIdentity (decode : string -> nonSecretPluginConfig) (lookup : result store_error Plugin)
  : option preBriefAgentIdentity :=
  match lookup with
  | Err _ => None
  | Ok plug =>
      let cfg := extractNonSecretPluginConfig decode (plugin_Config plug) in
      Some {| ag_ID := plugin_ID plug; ag_Name := plugin_Name plug; ag_Model := ns_Model cfg; ag_Temperature := ns_Temperature cfg |}
  end.

(** ** Store calls one after the other *)

Section Pass.
Variable others : nat -> adb -> adb.
Variable fails : nat -> bool.
Variable races : nat -> nat -> adb -> adb.

Local Notation "'pass!' x := m 'in' k" := (pass_bind m (fun x => k))
  (at level 10, x pattern, m at level 100, k at level 200, only parsing).

Definition asks {A} (f : adb -> A) : nat -> adb -> result store_error A * adb := fun _ d => (Ok (f d), d).
Definition runs_tx {A} (m : Tx adb A) : nat -> adb -> result store_error A * adb := fun _ d => transact m d.

(** *** Reconciling the briefs of a source *)

Variable lower : string -> string.
Variable name_lt id_lt : string -> string -> bool.
Variable uuid : nat -> string.
Variable marshal : prebriefPayload -> string.
(** The hash of a pair, for the agent of this pass. *)
Variable pair_hash : CalendarEvent -> Template -> preBriefAgentIdentity -> string.
(** The answer of [DefaultPlugin] and the decoding of its config. *)
Variable default_agent : nat -> result store_error Plugin.
Variable decode : string -> nonSecretPluginConfig.

Definition hash_for (agent : option preBriefAgentIdentity) (ev : CalendarEvent) (tmpl : Template) : option string :=
  match agent with Some a => Some (pair_hash ev tmpl a) | None => None end.

Definition reconcile_pair (now : Z) (agent : option preBriefAgentIdentity) (ev : CalendarEvent) (tmpl : Template) : Pass adb unit :=
  pass! _ := store_call others fails (fun n => ReconcileEventBriefPair uuid marshal (races n) now (ce_ID ev) (tm_ID tmpl) (tm_Name tmpl)
                                    (hash_for agent ev tmpl)) in
  pass_ret tt.

(** One batch of events. *)
Definition reconcile_batch (now : Z) (templates : list Template) (agent : option preBriefAgentIdentity) (events : list CalendarEvent)
  : Pass adb unit :=
  pass! _ := store_call others fails (runs_tx (DeleteIneligibleEventBriefs (map ce_ID events) (map tm_ID templates))) in
  if (0 <? length templates)%nat
  then pass_each (fun ev => pass_each (reconcile_pair now agent ev) templates) events
  else pass_ret tt.

(** The loop over the pages; [fuel] bounds their number. *)
Fixpoint reconcile_pages (fuel : nat) (now : Z) (ownerID sourceID : string) (templates : list Template)
    (agent : option preBriefAgentIdentity) (afterID : option string) : Pass adb unit :=
  match fuel with
  | O => pass_fail DbError
  | S fuel =>
      pass! events := store_call others fails (asks (UpcomingEventsForSourceBatch id_lt ownerID sourceID now afterID preBriefBatchSize)) in
      match last events with
      | None => pass_ret tt
      | Some l =>
          pass! _ := reconcile_batch now templates agent events in
          if (length events <? preBriefBatchSize)%nat then pass_ret tt
          else reconcile_pages fuel now ownerID sourceID templates agent (Some (ce_ID l))
      end
  end.

Definition ReconcilePreBriefs (fuel : nat) (ownerID sourceID : string) (now : Z) : Pass adb unit :=
  pass! templates := store_call others fails (asks (fun d => TemplatesForPhase lower name_lt ownerID templatePhasePre true (k_templates d))) in
  (fun s =>
    let agent := resolveDefaultAgentIdentity decode (default_agent s.1) in
    (pass! _ := store_call others fails (runs_tx (DeleteEventBriefsOutsideWindow ownerID sourceID now)) in
     reconcile_pages fuel now ownerID sourceID templates agent None) s).

(** *** A sync *)

Inductive fetch_error :=
| HTTPError (status : Z)
| RetrieveError (code : string) (status : option Z)
| OtherError.

Definition auth_status (status : Z) : bool := (status =? 401)%Z || (status =? 403)%Z.

Definition isAuthError (e : fetch_error) : bool :=
  match e with
  | HTTPError status => auth_status status
  | RetrieveError code status =>
      bool_decide (code ∈ ["invalid_grant"; "invalid_client"; "unauthorized_client"]) ||
      match status with Some s => auth_status s | None => false end
  | OtherError => false
  end.

(** [decode_creds kind text] tells whether the credentials decode;
    [fetch] is the upstream calendar. *)
Variable open_sealed : string -> option string.
Variable decode_creds : string -> string -> bool.
Variable fetch : string -> string -> gmap string bool -> Z -> Z -> result fetch_error (list NormalizedEvent).

Definition DiffExternalIDs (fetched : list NormalizedEvent) : list string := map ne_ExternalID fetched.

Definition markSourceStatus (clock : Z) (sourceID status : string) : Pass adb unit :=
  ignoring (store_call others fails (fun _ => UpdateSourceStatus sourceID status clock)).

Definition failed_sync {A} (clock : Z) (sourceID status : string) (e : store_error) : Pass adb A :=
  pass! _ := markSourceStatus clock sourceID status in pass_fail e.

(** The errors that only carry text are [DbError]. *)
Definition SyncSource (fuel : nat) (clock : Z) (sourceID : string) : Pass adb unit :=
  pass! creds := store_call others fails (fun _ d => (GetSourceCreds sourceID d, d)) in
  let '(kind, sealedCreds, ownerID) := creds in
  match open_sealed sealedCreds with
  | None => failed_sync clock sourceID "auth_error" DbError
  | Some plaintext =>
      pass! selected := (if (kind =? "google")%string || (kind =? "microsoft")%string
        then fun s => match store_call others fails (fun _ d => (GetSourceSelectedCalendars sourceID d, d)) s with
                      | (Ok sel, s') => (Ok sel, s')
                      | (Err e, s') => failed_sync clock sourceID "error" e s'
                      end
        else pass_ret ∅) in
      if negb (bool_decide (kind ∈ source_kinds)) || negb (decode_creds kind plaintext)
      then failed_sync clock sourceID "error" DbError
      else match fetch kind plaintext selected (clock - calendarSyncLookback)%Z (clock + calendarSyncLookahead)%Z with
           | Err e => failed_sync clock sourceID (if isAuthError e then "auth_error" else "error") DbError
           | Ok events =>
               pass! _ := store_call others fails (runs_tx (UpsertEvents uuid clock ownerID sourceID events)) in
               pass! _ := store_call others fails (fun _ d => (Ok tt, PruneEvents sourceID (DiffExternalIDs events) d)) in
               pass! _ := (fun s => match ReconcilePreBriefs fuel ownerID sourceID clock s with
                                    | (Ok _, s') => (Ok tt, s')
                                    | (Err e, s') => failed_sync clock sourceID "error" e s'
                                    end) in
               store_call others fails (fun _ => UpdateSourceStatus sourceID "ok" clock)
           end
  end.

End Pass.
