(* ===== verification/CalendarSyncProps.v ===== *)
(** Correctness of the calendar worker ([CalendarSync]): what a pass over a
    source leaves behind when nothing interferes, what a sync makes of the
    events, and when the freshness hash changes. *)

From stdpp Require Import base list strings sets gmap.
From Stdlib Require Import ZArith Lia SpecFloat Sorted.
From S2P Require Import GoInt GoStrings Sql Paging Transactions Jobs JobsProps Folders Execution Notes Transcripts Templates.
From S2P Require Import Summaries Plugins AgentTables TablesProps Calendar Briefs BriefsProps BriefRuns BriefCleanup Calls CalendarSync.

Local Open Scope string_scope.
Local Open Scope list_scope.

#[local] Arguments in_window : simpl never.

(** ** Loops of store calls *)

Lemma pass_each_app {X} (f : X -> Pass adb unit) l l' s :
  pass_each f (l ++ l') s = pass_bind (pass_each f l) (fun _ => pass_each f l') s.
Proof.
  revert s. induction l as [|x l IH]; intros s; cbn; [done|]. unfold pass_bind. destruct (f x s) as [[]s']; [|done].
  rewrite IH. unfold pass_bind. by destruct (pass_each f l s') as [[]].
Qed.

(** A loop in a loop is one loop over pairs. *)
Definition pairs {X Y} (l : list X) (l' : list Y) : list (X * Y) := flat_map (fun x => map (fun y => (x, y)) l') l.

Lemma pass_each_pairs {X Y} (f : X -> Y -> Pass adb unit) l l' s :
  pass_each (fun x => pass_each (f x) l') l s = pass_each (fun z => f z.1 z.2) (pairs l l') s.
Proof.
  assert (Hmap : forall x (m : list Y) s, pass_each (f x) m s = pass_each (fun z => f z.1 z.2) (map (fun y => (x, y)) m) s).
  { intros x m. induction m as [|y m IH]; intros s0; cbn; [done|]. unfold pass_bind. destruct (f x y s0) as [[]s']; [apply IH|done]. }
  revert s. induction l as [|x l IH]; intros s; [done|]. cbn [pass_each pairs flat_map]. rewrite pass_each_app. unfold pass_bind.
  rewrite Hmap. destruct (pass_each _ (map _ l') s) as [[]s']; [apply IH|done].
Qed.

Lemma elem_of_pairs {X Y} (l : list X) (l' : list Y) x y : (x, y) ∈ pairs l l' <-> x ∈ l /\ y ∈ l'.
Proof.
  unfold pairs. rewrite elem_of_flat_map. split.
  - intros (x0 & Hx & (y0 & [= <- <-] & Hy)%list_elem_of_fmap). done.
  - intros [Hx Hy]. exists x. split; [done|]. by apply (list_elem_of_fmap_2 (fun y => (x, y))).
Qed.

Lemma NoDup_pairs {X Y A B} (f : X -> A) (g : Y -> B) (l : list X) (l' : list Y) :
  NoDup (map f l) -> NoDup (map g l') -> NoDup (map (fun z => (f z.1, g z.2)) (pairs l l')).
Proof.
  intros Hl Hl'. induction l as [|x l IH]; cbn; [constructor|]. apply NoDup_cons in Hl as [Hx Hl]. rewrite map_app, map_map. cbn.
  apply NoDup_app. split; [|split; [|by apply IH]].
  - rewrite <- (map_map g (fun b => (f x, b))). apply NoDup_fmap_2; [by intros ? ? [= ->]|done].
  - intros [a b] (y & [= -> ->] & Hy)%list_elem_of_fmap ([x' y'] & [= E1 E2] & [Hx' _]%elem_of_pairs)%list_elem_of_fmap.
    apply Hx. rewrite E1. by apply list_elem_of_fmap_2.
Qed.

(** A loop whose iterations each touch one key of a view. *)
Section Pointwise.
Context {X K V : Type} (view : adb -> K -> V) (key : X -> K) (Inv : adb -> Prop) (Eff : X -> V -> V -> Prop) (f : X -> Pass adb unit).

Definition settles (x : X) : Prop := forall n d, Inv d -> exists n' d', f x (n, d) = (Ok tt, (n', d')) /\ Inv d' /\
  Eff x (view d (key x)) (view d' (key x)) /\ forall k, k <> key x -> view d' k = view d k.

Lemma pass_each_settles l n d : (forall x, x ∈ l -> settles x) -> NoDup (map key l) -> Inv d ->
  exists n' d', pass_each f l (n, d) = (Ok tt, (n', d')) /\ Inv d' /\
    (forall x, x ∈ l -> Eff x (view d (key x)) (view d' (key x))) /\ (forall k, k ∉ map key l -> view d' k = view d k).
Proof.
  revert n d. induction l as [|x l IH]; intros n d Hf Hnd Hd.
  - exists n, d. split; [done|]. split; [done|]. split; [by intros x ?%elem_of_nil|done].
  - apply NoDup_cons in Hnd as [Hx Hnd]. destruct (Hf x (list_elem_of_here _ _) n d Hd) as (n1 & d1 & E1 & Hd1 & He & Hfr).
    destruct (IH n1 d1) as (n2 & d2 & E2 & Hd2 & Hall & Hfr2); [by intros y Hy; apply Hf; right|done|done|].
    exists n2, d2. split; [cbn; unfold pass_bind; by rewrite E1|]. split; [done|]. split.
    + intros y [->|Hy]%elem_of_cons; [by rewrite Hfr2|]. rewrite <- Hfr; [by apply Hall|]. intros E. apply Hx. rewrite <- E.
      by apply list_elem_of_fmap_2.
    + intros k Hk. cbn [map] in Hk. apply not_elem_of_cons in Hk as [? ?]. by rewrite Hfr2, Hfr.
Qed.
End Pointwise.

(** ** A pass that nothing interferes with *)

Section Quiet.
Context (uuid : nat -> string) `{Huuid : !Inj (=) (=) uuid}.
Context (lower : string -> string) (name_lt id_lt : string -> string -> bool) `{Hlt : !StrictTotalOrder id_lt}.
Variable marshal : prebriefPayload -> string.
Variable pair_hash : CalendarEvent -> Template -> preBriefAgentIdentity -> string.
Variable default_agent : nat -> result store_error Plugin.
Variable decode : string -> nonSecretPluginConfig.

Abbreviation alone := (fun (_ : nat) (d : adb) => d).
Abbreviation never := (fun _ : nat => false).
Abbreviation no_race := (fun (_ _ : nat) (d : adb) => d).
Abbreviation pair_alone := (reconcile_pair alone never no_race uuid marshal pair_hash).
Abbreviation batch_alone := (reconcile_batch alone never no_race uuid marshal pair_hash).
Abbreviation pages_alone := (reconcile_pages alone never no_race id_lt uuid marshal pair_hash).

(** The tables keep their frame [F]; templates have keys. *)
Definition stable (F : adb) (d : adb) : Prop := briefs_ok uuid d /\ brief_frame d = brief_frame F.

(** The pair's brief after the pass: the one of the current input. *)
Definition up_to_date (now : Z) (agent : option preBriefAgentIdentity) (ev : CalendarEvent) (tmpl : Template)
    (v v' : option (EventBrief * list job_row)) : Prop :=
  exists n, v' = refreshed uuid marshal now (tm_Name tmpl) (hash_for pair_hash agent ev tmpl) (ce_ID ev, tm_ID tmpl) n v.

Lemma pair_settles F now agent ev tmpl :
  ev ∈ k_events F -> exists_where (template_is (tm_ID tmpl)) (k_templates F) = true ->
  settles brief_view (fun z => (ce_ID z.1, tm_ID z.2)) (stable F) (fun z => up_to_date now agent z.1 z.2)
    (fun z => pair_alone now agent z.1 z.2) (ev, tmpl).
Proof.
  intros Hev Ht n d [Hd HF]. cbn.
  destruct (reconcile_pair_exact uuid marshal now (ce_ID ev, tm_ID tmpl) (tm_Name tmpl) (hash_for pair_hash agent ev tmpl) d)
    as (d' & E & Hr & _); [done|..].
  { rewrite (frame_events F d) by done. by apply (list_elem_of_fmap_2 ce_ID). }
  { by rewrite (frame_templates F d). }
  destruct Hr as (Hd' & _ & HF' & Hv & _). exists (S n), d'. split.
  { unfold reconcile_pair, pass_bind, store_call. cbn. cbn in E. by rewrite E. }
  split; [split; [done|congruence]|]. split.
  - eexists. rewrite Hv. by rewrite bool_decide_eq_true_2.
  - intros k Hk. rewrite Hv. by rewrite bool_decide_eq_false_2.
Qed.

(** *** One batch *)

Definition template_keys (templates : list Template) (F : adb) : Prop :=
  NoDup (map tm_ID templates) /\ forall t, t ∈ templates -> exists_where (template_is (tm_ID t)) (k_templates F) = true.

(** What has become of a pair of a handled event. *)
Definition handled (now : Z) (agent : option preBriefAgentIdentity) (templates : list Template) (ev : CalendarEvent) (t : string)
    (v v' : option (EventBrief * list job_row)) : Prop :=
  (forall tmpl, tmpl ∈ templates -> tm_ID tmpl = t -> up_to_date now agent ev tmpl v v') /\
  (t ∉ map tm_ID templates -> v' = None).

Lemma batch_settles F now templates agent events n d :
  stable F d -> template_keys templates F -> events <> [] -> NoDup (map ce_ID events) -> (forall e, e ∈ events -> e ∈ k_events F) ->
  exists n' d', batch_alone now templates agent events (n, d) = (Ok tt, (n', d')) /\ stable F d' /\
    (forall ev t, ev ∈ events -> handled now agent templates ev t (brief_view d (ce_ID ev, t)) (brief_view d' (ce_ID ev, t))) /\
    (forall k, k.1 ∉ map ce_ID events -> brief_view d' k = brief_view d k).
Proof.
  intros [Hd HF] [Hnt Ht] Hne Hnd Hin. set (p := fun b => bool_decide (br_EventID b ∈ map ce_ID events) && negb (bool_decide (br_TemplateID b ∈ map tm_ID templates))).
  assert (E1 : DeleteIneligibleEventBriefs (map ce_ID events) (map tm_ID templates) d = Ok (rows_affected p (k_briefs d), without_briefs p d)).
  { unfold DeleteIneligibleEventBriefs. destruct events; [done|]. apply delete_briefs_eq. }
  assert (Hv1 := fun k => view_without_briefs uuid p d k Hd). assert (Hd1 := without_briefs_ok uuid p d Hd).
  assert (HF1 : brief_frame (without_briefs p d) = brief_frame F) by by rewrite frame_without_briefs. set (d1 := without_briefs p d) in *.
  assert (Hpv : forall k, brief_view d1 k = if bool_decide (k.1 ∈ map ce_ID events) && negb (bool_decide (k.2 ∈ map tm_ID templates)) then None else brief_view d k).
  { intros k. rewrite Hv1. unfold brief_view. destruct (pair_at k d) as [b|] eqn:Eb; cbn; [|by destruct (_ && _)].
    apply (pair_at_spec uuid) in Eb as [_ Hk]; [|done]. unfold p. by rewrite <- Hk. }
  destruct (pass_each_settles brief_view (fun z => (ce_ID z.1, tm_ID z.2)) (stable F) (fun z => up_to_date now agent z.1 z.2)
    (fun z => pair_alone now agent z.1 z.2) (pairs events templates) (S n) d1) as (n2 & d2 & E2 & Hd2 & Hall & Hfr).
  { intros [ev tmpl] [Hev Htm]%elem_of_pairs. apply pair_settles; auto. }
  { by apply NoDup_pairs. } { done. }
  exists n2, d2. split.
  { unfold reconcile_batch, pass_bind, store_call, runs_tx, transact. cbn. rewrite E1. fold d1. destruct templates as [|t0 ts].
    - assert (pairs events (@nil Template) = []) as En by (clear; unfold pairs; induction events; [done|]; done).
      rewrite En in E2. cbn in E2 |- *. unfold pass_ret in *. by injection E2 as <- <-.
    - cbn [length]. rewrite pass_each_pairs. exact E2. }
  split; [done|]. split.
  - intros ev t Hev. split.
    + intros tmpl Htm <-. specialize (Hall (ev, tmpl)). cbn in Hall. rewrite Hpv in Hall. cbn in Hall.
      rewrite (bool_decide_eq_true_2 (tm_ID tmpl ∈ _)), andb_false_r in Hall by by apply list_elem_of_fmap_2.
      apply Hall. by apply elem_of_pairs.
    + intros Htn. rewrite Hfr.
      * rewrite Hpv. cbn. rewrite bool_decide_eq_true_2 by by apply list_elem_of_fmap_2. by rewrite bool_decide_eq_false_2.
      * intros ([ev' tm'] & [= _ ->] & [_ Htm]%elem_of_pairs)%list_elem_of_fmap. by apply Htn, list_elem_of_fmap_2.
  - intros k Hk. rewrite Hfr, Hpv.
    + by rewrite bool_decide_eq_false_2.
    + intros ([ev' tm'] & -> & [Hev _]%elem_of_pairs)%list_elem_of_fmap. cbn in Hk. by apply Hk, (list_elem_of_fmap_2 ce_ID).
Qed.

(** *** The pages *)

Definition of_source (ownerID sourceID : string) (e : CalendarEvent) : bool := owned_event ownerID e && (ce_SourceID e =? sourceID)%string.
Definition in_scope (ownerID sourceID : string) (now : Z) (after : option string) (e : CalendarEvent) : bool :=
  of_source ownerID sourceID e && in_window now e && after_id id_lt after (ce_ID e).

Lemma events_page ownerID sourceID now after d :
  UpcomingEventsForSourceBatch id_lt ownerID sourceID now after preBriefBatchSize d =
  page id_lt ce_ID preBriefBatchSize (in_scope ownerID sourceID now after) (k_events d).
Proof. reflexivity. Qed.

Lemma pages_settle F fuel now ownerID sourceID templates agent after n d :
  stable F d -> template_keys templates F ->
  (rows_affected (in_scope ownerID sourceID now after) (k_events F) < fuel)%nat ->
  exists n' d', pages_alone fuel now ownerID sourceID templates agent after (n, d) = (Ok tt, (n', d')) /\ stable F d' /\
    (forall ev t, ev ∈ k_events F -> in_scope ownerID sourceID now after ev = true ->
       handled now agent templates ev t (brief_view d (ce_ID ev, t)) (brief_view d' (ce_ID ev, t))) /\
    (forall k, (forall ev, ev ∈ k_events F -> ce_ID ev = k.1 -> in_scope ownerID sourceID now after ev = false) -> brief_view d' k = brief_view d k).
Proof.
  revert after n d. induction fuel as [|fuel IH]; intros after n d Hs Ht Hfuel; [lia|]. cbn [reconcile_pages].
  assert (Ee : k_events d = k_events F) by by apply frame_events, Hs.
  assert (Hnd : NoDup (map ce_ID (k_events F))) by (rewrite <- Ee; apply (bo_events uuid d), Hs).
  unfold pass_bind at 1, store_call, asks. cbv beta iota. rewrite events_page, Ee. set (events := page _ _ _ _ _).
  assert (Hin : forall e, e ∈ events -> e ∈ k_events F /\ in_scope ownerID sourceID now after e = true) by (intros e; apply elem_of_page).
  destruct (last events) as [l|] eqn:El.
  - assert (Hl : l ∈ events) by (apply last_Some in El as (l' & ->); apply elem_of_app; right; left).
    destruct (batch_settles F now templates agent events (S n) d) as (n1 & d1 & E1 & Hs1 & Hev1 & Hfr1); [done|done| |by apply NoDup_page|by intros e [? _]%Hin|].
    { intros E. rewrite E in Hl. by apply elem_of_nil in Hl. }
    unfold pass_bind. rewrite E1. destruct (Nat.ltb_spec (length events) preBriefBatchSize) as [Hshort|_].
    + exists n1, d1. split; [done|]. split; [done|]. split.
      * intros ev t He Hsc. apply Hev1. by apply (short_page id_lt ce_ID preBriefBatchSize).
      * intros k Hk. apply Hfr1. intros (e & Ek & [He Hsc]%Hin)%list_elem_of_fmap. by rewrite (Hk e He) in Hsc.
    + set (rest := in_scope ownerID sourceID now (Some (ce_ID l))).
      assert (Hlater : forall e, e ∈ k_events F -> in_scope ownerID sourceID now after e = true -> e ∈ events \/ rest e = true).
      { intros e He Hsc. destruct (page_last id_lt ce_ID preBriefBatchSize _ (k_events F) l e Hnd El He Hsc) as [|Hlt']; [by left|right].
        unfold rest, in_scope in *. apply andb_true_iff in Hsc as [Hsc _]. by rewrite Hsc. }
      assert (Hafter : forall e, rest e = true -> in_scope ownerID sourceID now after e = true).
      { intros e. unfold rest, in_scope. intros [-> Ha]%andb_true_iff. cbn in Ha |- *. destruct after as [a|]; [|done]. cbn.
        apply sto_trans with (ce_ID l); [|done]. apply Hin in Hl as [_ Hl]. unfold in_scope in Hl. by apply andb_true_iff in Hl as [_ Hl]. }
      assert (Hgone : forall e, e ∈ events -> rest e = false).
      { intros e He. unfold rest, in_scope. cbn. rewrite (page_upto id_lt ce_ID preBriefBatchSize _ _ l e Hnd El He). by rewrite andb_false_r. }
      destruct (IH (Some (ce_ID l)) n1 d1) as (n2 & d2 & E2 & Hs2 & Hev2 & Hfr2); [done|done| |].
      { fold rest. rewrite (rows_affected_split rest (in_scope ownerID sourceID now after) (k_events F)) in Hfuel by (intros; by apply Hafter).
        assert (0 < rows_affected (in_scope ownerID sourceID now after) (delete_where rest (k_events F)))%nat; [|lia].
        apply rows_affected_pos. destruct (Hin l Hl). exists l. split; [|done]. apply elem_of_delete_where. auto. }
      exists n2, d2. split; [exact E2|]. split; [done|]. split.
      * intros ev t He Hsc. destruct (Hlater ev He Hsc) as [Hpg|Hr].
        -- rewrite Hfr2; [by apply Hev1|]. cbn. intros ev' He' Ei. rewrite (key_unique ce_ID (k_events F) ev' ev) by done. by apply Hgone.
        -- rewrite <- (Hfr1 (ce_ID ev, t)); [by apply Hev2|]. cbn. intros (e & Ek & Hpe)%list_elem_of_fmap.
           rewrite (key_unique ce_ID (k_events F) ev e) in Hr; [by rewrite Hgone in Hr|done|done|by apply Hin|done].
      * intros k Hk. rewrite Hfr2.
        -- apply Hfr1. intros (e & Ek & [He Hsc]%Hin)%list_elem_of_fmap. by rewrite (Hk e He) in Hsc.
        -- intros ev He Ei. destruct (in_scope _ _ _ (Some _) ev) eqn:Er; [|done]. apply Hafter in Er.
           by rewrite (Hk ev He Ei) in Er.
  - apply last_None in El. exists (S n), d. split; [done|]. split; [done|]. split; [|done]. intros ev t He Hsc.
    assert (Hp : ev ∈ events); [|rewrite El in Hp; by apply elem_of_nil in Hp].
    apply (short_page id_lt ce_ID preBriefBatchSize); [|done|done]. fold events. rewrite El. cbn. unfold preBriefBatchSize. lia.
Qed.

(** *** The pass *)

Abbreviation ReconcilePreBriefs_alone :=
  (ReconcilePreBriefs alone never no_race lower name_lt id_lt uuid marshal pair_hash default_agent decode).

Lemma templates_keyed ownerID phase b d : NoDup (map tp_id (k_templates d)) ->
  template_keys (TemplatesForPhase lower name_lt ownerID phase b (k_templates d)) d.
Proof.
  intros Hnd. unfold TemplatesForPhase, ListTemplates. set (rows := order_by _ _). split.
  - apply NoDup_map_filter. rewrite map_map. change (NoDup (map tp_id rows)). unfold rows. rewrite order_by_perm. by apply NoDup_map_filter.
  - intros t [Ht _]%elem_of_select_where. apply list_elem_of_fmap in Ht as (r & -> & Hr). apply exists_where_true. exists r.
    unfold rows in Hr. rewrite elem_of_order_by, elem_of_select_where in Hr. split; [apply Hr|apply String.eqb_refl].
Qed.

(** What a pass makes of a pair. *)
Definition pass_result (now : Z) (ownerID sourceID : string) (templates : list Template) (agent : option preBriefAgentIdentity)
    (d : adb) (k : string * string) (v v' : option (EventBrief * list job_row)) : Prop :=
  match event_of k.1 d with
  | None => v' = v
  | Some ev =>
      if of_source ownerID sourceID ev
      then if in_window now ev then handled now agent templates ev k.2 v v' else v' = None
      else v' = v
  end.

(** When nothing interferes, a pass over a source's events succeeds,
    whatever the number of pages.  Afterwards every event of the source in the
    window has, for each of the owner's automatic pre-meeting templates, the
    brief of its current input — untouched if it already was, restarted with
    one new job if not — and no other brief; the source's events outside the
    window have none; briefs of other events are as before, and so is every
    other table. *)
Lemma pass_complete fuel ownerID sourceID now n d :
  briefs_ok uuid d -> NoDup (map tp_id (k_templates d)) -> (length (k_events d) < fuel)%nat ->
  exists n' d', ReconcilePreBriefs_alone fuel ownerID sourceID now (n, d) = (Ok tt, (n', d')) /\
    briefs_ok uuid d' /\ brief_frame d' = brief_frame d /\
    forall k, pass_result now ownerID sourceID (TemplatesForPhase lower name_lt ownerID templatePhasePre true (k_templates d))
      (resolveDefaultAgentIdentity decode (default_agent (S n))) d k (brief_view d k) (brief_view d' k).
Proof.
  intros Hd Hnt Hfuel. set (templates := TemplatesForPhase _ _ _ _ _ _). set (agent := resolveDefaultAgentIdentity _ _).
  set (p := brief_joins (fun e => owned_event ownerID e && (ce_SourceID e =? sourceID)%string && negb (in_window now e)) d).
  assert (E1 : DeleteEventBriefsOutsideWindow ownerID sourceID now d = Ok (rows_affected p (k_briefs d), without_briefs p d)) by apply delete_briefs_eq.
  assert (Hv1 := fun k => view_without_briefs uuid p d k Hd).
  assert (Hs1 : stable d (without_briefs p d)) by (split; [by apply without_briefs_ok|by rewrite frame_without_briefs]).
  destruct (pages_settle d fuel now ownerID sourceID templates agent None (S (S n)) (without_briefs p d) Hs1) as (n2 & d2 & E2 & [Hd2 HF2] & Hev & Hfr).
  { by apply templates_keyed. }
  { pose proof (List.filter_length_le (in_scope ownerID sourceID now None) (k_events d)). unfold rows_affected. lia. }
  exists n2, d2. split.
  { unfold ReconcilePreBriefs, pass_bind, store_call, asks, runs_tx, transact. fold templates agent. cbn [fst]. by rewrite E1. }
  split; [done|]. split; [done|]. intros k. unfold pass_result.
  assert (Hid : forall ev, event_of k.1 d = Some ev -> ev ∈ k_events d /\ ce_ID ev = k.1).
  { intros ev H. unfold event_of in H. destruct (select_where _ _) as [|x l] eqn:E; [done|]. injection H as ->.
    assert (Hx : ev ∈ select_where (event_is k.1) (k_events d)) by (rewrite E; left).
    by apply elem_of_select_where in Hx as [? ?%String.eqb_eq]. }
  assert (Hpk : brief_view (without_briefs p d) k =
    match event_of k.1 d with Some ev => if of_source ownerID sourceID ev && negb (in_window now ev) then None else brief_view d k | None => brief_view d k end).
  { rewrite Hv1. unfold brief_view. destruct (pair_at k d) as [b|] eqn:Eb; cbn.
    - apply (pair_at_spec uuid) in Eb as [_ Hk]; [|done]. unfold p, brief_joins. rewrite <- Hk. cbn. by destruct (event_of (br_EventID b) d).
    - destruct (event_of k.1 d); [by destruct (_ && _)|done]. }
  destruct (event_of k.1 d) as [ev|] eqn:Ee.
  - destruct (Hid ev eq_refl) as [He Ei]. destruct (of_source ownerID sourceID ev && in_window now ev) eqn:Esc.
    + apply andb_true_iff in Esc as [Es Ew]. rewrite Es, Ew in *. cbn in Hpk. rewrite <- Hpk. destruct k as [e t]. cbn in Ei |- *. subst e.
      apply Hev; [done|]. unfold in_scope. by rewrite Es, Ew.
    + rewrite Hfr.
      * rewrite Hpk. destruct (of_source ownerID sourceID ev); [|done]. cbn in Esc. by rewrite Esc.
      * intros ev' He' Ei'. rewrite (key_unique ce_ID (k_events d) ev' ev) by (done || apply Hd || congruence). unfold in_scope. by rewrite Esc.
  - rewrite Hfr; [done|]. intros ev He Ei. exfalso. unfold event_of in Ee.
    assert (Hx : ev ∈ select_where (event_is k.1) (k_events d)) by (apply elem_of_select_where; split; [done|by apply String.eqb_eq]).
    destruct (select_where _ _); [by apply elem_of_nil in Hx|done].
Qed.

(** *** A sync *)

Variable open_sealed : string -> option string.
Variable decode_creds : string -> string -> bool.
Variable fetch : string -> string -> gmap string bool -> Z -> Z -> result fetch_error (list NormalizedEvent).

Abbreviation SyncSource_alone :=
  (SyncSource alone never no_race lower name_lt id_lt uuid marshal pair_hash default_agent decode open_sealed decode_creds fetch).

(** The source's row, and what upstream answers a sync at [clock]. *)
Definition row_of_source (sourceID : string) (d : adb) : option CalendarSource := head (select_where (source_is sourceID) (k_sources d)).
Definition selection (s : CalendarSource) : gmap string bool :=
  if (cs_Kind s =? "google")%string || (cs_Kind s =? "microsoft")%string then SelectedCalendars s else ∅.
Definition answer_of (clock : Z) (s : CalendarSource) : option (result fetch_error (list NormalizedEvent)) :=
  match open_sealed (cs_credentials s) with
  | None => None
  | Some plaintext =>
      if bool_decide (cs_Kind s ∈ source_kinds) && decode_creds (cs_Kind s) plaintext
      then Some (fetch (cs_Kind s) plaintext (selection s)
             (clock - calendarSyncLookback)%Z (clock + calendarSyncLookahead)%Z)
      else None
  end.

Definition with_source_status (clock : Z) (sourceID status : string) (d : adb) : adb :=
  put_sources (update_where (source_is sourceID)
    (fun s => mkSource (cs_ID s) (cs_OwnerID s) (cs_Kind s) (DisplayName s) (cs_credentials s) (SelectedCalendars s) status
                (Some clock) (cs_CreatedAt s)) (k_sources d)) d.

Lemma source_owned sourceID s d : row_of_source sourceID d = Some s ->
  exists_where (fun s' => source_is sourceID s' && owned_source (cs_OwnerID s) s') (k_sources d) = true.
Proof.
  unfold row_of_source. destruct (select_where _ _) as [|x l] eqn:E; [done|]. intros [= ->]. apply exists_where_true. exists s.
  assert (H : s ∈ select_where (source_is sourceID) (k_sources d)) by (rewrite E; left). apply elem_of_select_where in H as [? Hi].
  split; [done|]. rewrite Hi. apply String.eqb_refl.
Qed.

Lemma mark_status clock sourceID status s d : row_of_source sourceID d = Some s -> status ∈ source_statuses ->
  UpdateSourceStatus sourceID status clock d = (Ok tt, with_source_status clock sourceID status d).
Proof.
  intros Hs Hst. assert (Hin : s ∈ k_sources d /\ source_is sourceID s = true).
  { unfold row_of_source in Hs. destruct (select_where _ _) as [|x l] eqn:E; [done|]. injection Hs as ->.
    assert (H : s ∈ select_where (source_is sourceID) (k_sources d)) by (rewrite E; left). by apply elem_of_select_where in H. }
  unfold UpdateSourceStatus. rewrite (bool_decide_eq_true_2 (status ∈ _)) by done. rewrite andb_false_r. unfold update_sources.
  assert (0 < rows_affected (source_is sourceID) (k_sources d))%nat by (apply rows_affected_pos; eauto).
  destruct (rows_affected _ _); [lia|done].
Qed.

Lemma source_creds sourceID s d : row_of_source sourceID d = Some s ->
  GetSourceCreds sourceID d = Ok (cs_Kind s, cs_credentials s, cs_OwnerID s) /\ GetSourceSelectedCalendars sourceID d = Ok (SelectedCalendars s).
Proof.
  unfold row_of_source, GetSourceCreds, GetSourceSelectedCalendars. destruct (select_where _ _); [done|]. by intros [= ->].
Qed.

Lemma reads_selection clock sourceID s d : row_of_source sourceID d = Some s -> forall (k : gmap string bool -> Pass adb unit) n,
  exists m, pass_bind (if (cs_Kind s =? "google")%string || (cs_Kind s =? "microsoft")%string
    then fun st => match store_call alone never (fun _ d => (GetSourceSelectedCalendars sourceID d, d)) st with
                   | (Ok x, st') => (Ok x, st')
                   | (Err e, st') => failed_sync alone never clock sourceID "error" e st'
                   end
    else pass_ret ∅) k (n, d) = k (selection s) (m, d).
Proof.
  intros [_ Hsel]%source_creds k n. unfold selection, pass_bind, store_call. destruct (_ || _); cbn; [rewrite Hsel|]; by eexists.
Qed.

(** A sync whose source cannot be read — credentials that do not open or
    decode, an unknown kind, an upstream error — fails and changes nothing but
    the source's status, which becomes "auth_error" exactly when the credentials
    do not open or upstream rejects them: no event is pruned and no brief is
    touched. *)
Theorem sync_failure_isolated fuel clock sourceID s n d :
  row_of_source sourceID d = Some s -> (forall evs, answer_of clock s <> Some (Ok evs)) ->
  let rejected := match answer_of clock s with
                  | Some (Err e) => isAuthError e
                  | _ => bool_decide (open_sealed (cs_credentials s) = None)
                  end in
  exists n', SyncSource_alone fuel clock sourceID (n, d) =
    (Err DbError, (n', with_source_status clock sourceID (if rejected then "auth_error" else "error") d)).
Proof.
  intros Hs Hno. destruct (source_creds sourceID s d Hs) as [Hc Hsel]. cbn zeta.
  assert (Hmark : forall m st, st ∈ source_statuses -> failed_sync alone never clock sourceID st DbError (A := unit) (m, d) =
    (Err DbError, (S m, with_source_status clock sourceID st d))).
  { intros m st Hst. unfold failed_sync, markSourceStatus, pass_bind, ignoring, store_call. cbn. by rewrite (mark_status clock sourceID st s). }
  assert (Hst : forall b : bool, (if b then "auth_error" else "error") ∈ source_statuses).
  { intros []; apply (bool_decide_unpack _); by vm_compute. }
  unfold SyncSource. unfold pass_bind at 1, store_call. rewrite Hc. cbv beta iota. unfold answer_of in *.
  destruct (open_sealed (cs_credentials s)) as [plain|]; [|rewrite bool_decide_eq_true_2 by done; eexists; by apply (Hmark _ "auth_error"), (Hst true)].
  rewrite (bool_decide_eq_false_2 (Some plain = None)) by done.
  pose proof (reads_selection clock sourceID s d) as Hpre. specialize (Hpre Hs). set (sel := selection s) in *.
  match goal with |- exists _, pass_bind ?p ?k ?st = _ =>
    let E := fresh in destruct (Hpre k (S n)) as (m & E); assert (pass_bind p k st = k sel (m, d)) as -> by exact E; clear E end.
  destruct (bool_decide (cs_Kind s ∈ source_kinds)) eqn:Ek, (decode_creds (cs_Kind s) plain) eqn:Ed; cbn [negb orb andb] in *;
    try (eexists; by apply (Hmark _ "error"), (Hst false)).
  destruct (fetch _ _ _ _ _) as [evs|e] eqn:Ef; [by edestruct Hno|]. eexists. apply Hmark, Hst.
Qed.

Lemma upserts_length now ownerID sid evs x u x' : tx_each (upsert_event uuid now ownerID sid) evs x = Ok (u, x') ->
  (length (k_events x') <= length (k_events x) + length evs)%nat.
Proof.
  revert x. induction evs as [|ev evs IH]; intros x; cbn [tx_each]; [intros [= _ <-]; lia|].
  intros ([] & x1 & E & H%IH)%tx_bind_ok. cbn. enough (length (k_events x1) <= S (length (k_events x)))%nat by lia.
  revert E. unfold upsert_event, NewString, tx_bind. tables. destruct (exists_where _ _); [intros [= <-]; tables; rewrite length_update_where; lia|].
  destruct (exists_where _ _); [done|]. intros [= <-]. tables. rewrite length_app. cbn. lia.
Qed.

(** C21. When nothing interferes and upstream answers, a sync succeeds: it
    stores the fetched events, prunes the source's others, brings the briefs
    of the events that are left up to date with the templates and the default
    agent, and marks the source "ok". *)
Theorem sync_source_complete fuel clock sourceID s evs n d :
  briefs_ok uuid d -> events_ok uuid d -> NoDup (map tp_id (k_templates d)) ->
  row_of_source sourceID d = Some s -> answer_of clock s = Some (Ok evs) -> (length (k_events d) + length evs < fuel)%nat ->
  exists n' d1 d', UpsertEvents uuid clock (cs_OwnerID s) sourceID evs d = Ok (tt, d1) /\
    let d2 := PruneEvents sourceID (DiffExternalIDs evs) d1 in
    SyncSource_alone fuel clock sourceID (n, d) = (Ok tt, (n', with_source_status clock sourceID "ok" d')) /\
    briefs_ok uuid d' /\ brief_frame d' = brief_frame d2 /\
    exists m, forall k, pass_result clock (cs_OwnerID s) sourceID
      (TemplatesForPhase lower name_lt (cs_OwnerID s) templatePhasePre true (k_templates d))
      (resolveDefaultAgentIdentity decode (default_agent m)) d2 k (brief_view d2 k) (brief_view d' k).
Proof.
  intros Hd Hev Hnt Hs Ha Hfuel. destruct (source_creds sourceID s d Hs) as [Hc _].
  destruct (upserts_effect uuid clock (cs_OwnerID s) sourceID evs d Hev) as (d1 & E1 & Hev1 & HF1 & _).
  assert (Hu : UpsertEvents uuid clock (cs_OwnerID s) sourceID evs d = Ok (tt, d1)).
  { unfold UpsertEvents, tx_bind at 1, tx_read. rewrite (source_owned sourceID s d Hs). exact E1. }
  destruct (UpsertEvents_ok uuid _ _ _ _ _ _ _ Hd Hu) as [Hd1 _]. set (d2 := PruneEvents sourceID (DiffExternalIDs evs) d1).
  assert (Hd2 : briefs_ok uuid d2 /\ k_templates d2 = k_templates d1 /\ k_sources d2 = k_sources d1 /\ (length (k_events d2) <= length (k_events d1))%nat).
  { unfold d2. rewrite PruneEvents_eq. split; [by apply delete_events_ok|]. unfold delete_events. tables. repeat split.
    unfold delete_where. apply List.filter_length_le. }
  destruct Hd2 as (Hd2 & Et2 & Es2 & El2). unfold event_frame in HF1. injection HF1 as Et1 _ _ _ _ _ _ Es1 _ _.
  pose proof (upserts_length _ _ _ _ _ _ _ E1) as El1.
  unfold answer_of in Ha. destruct (open_sealed (cs_credentials s)) as [plain|] eqn:Eo; [|done].
  destruct (bool_decide (cs_Kind s ∈ source_kinds) && decode_creds (cs_Kind s) plain) eqn:Ek; [|done]. injection Ha as Ef.
  apply andb_true_iff in Ek as [Ek Edec]. pose proof (reads_selection clock sourceID s d Hs) as Hpre.
  assert (Hsync : exists m, SyncSource_alone fuel clock sourceID (n, d) =
    pass_bind (store_call alone never (runs_tx (UpsertEvents uuid clock (cs_OwnerID s) sourceID evs))) (fun _ =>
    pass_bind (store_call alone never (fun _ d => (Ok tt, PruneEvents sourceID (DiffExternalIDs evs) d))) (fun _ =>
    pass_bind (fun st => match ReconcilePreBriefs_alone fuel (cs_OwnerID s) sourceID clock st with
                         | (Ok _, s') => (Ok tt, s') | (Err e, s') => failed_sync alone never clock sourceID "error" e s' end) (fun _ =>
    store_call alone never (fun _ => UpdateSourceStatus sourceID "ok" clock)))) (m, d)).
  { unfold SyncSource. unfold pass_bind at 1, store_call at 1. rewrite Hc. cbv beta iota. rewrite Eo.
    match goal with |- exists m, pass_bind ?p ?k ?st = _ => destruct (Hpre k (S n)) as (m & E) end.
    exists m. etransitivity; [exact E|]. by rewrite Ek, Edec, Ef. }
  destruct Hsync as (m & Hsync).
  destruct (pass_complete fuel (cs_OwnerID s) sourceID clock (S (S m)) d2 Hd2) as (n2 & d3 & E3 & Hd3 & HF3 & Hres); [by rewrite Et2, Et1|lia|].
  assert (Hs3 : row_of_source sourceID d3 = Some s).
  { unfold row_of_source. assert (k_sources d3 = k_sources d) as ->; [|done]. unfold brief_frame in HF3. congruence. }
  exists (S n2), d1, d3. split; [done|]. cbn zeta. fold d2. split.
  - rewrite Hsync. unfold pass_bind, store_call, runs_tx, transact. cbv beta iota. rewrite Hu. fold d2. rewrite E3.
    rewrite (mark_status clock sourceID "ok" s); [done|done|]. by apply (bool_decide_unpack _); vm_compute.
  - split; [done|]. split; [done|]. exists (S (S (S m))). rewrite Et2, Et1 in Hres. exact Hres.
Qed.

End Quiet.

(** ** The freshness hash *)

Definition attendee_key (a : hashedAttendee) : string * string := (ha_Email a, ha_Name a).

Lemma attendee_less_key a b : attendee_less a b = key_lt (pair_lt String.ltb String.ltb) attendee_key a b.
Proof.
  unfold attendee_less, key_lt, pair_lt, attendee_key. cbn. destruct (String.eqb_spec (ha_Email a) (ha_Email b)) as [E|E]; cbn.
  - by rewrite bool_decide_eq_true_2.
  - by rewrite bool_decide_eq_false_2.
Qed.

(** What [sort.Slice] promises of its result. *)
Definition sorts (sort : list hashedAttendee -> list hashedAttendee) : Prop := forall l,
  sort l ≡ₚ l /\ StronglySorted (fun a b => attendee_less b a = false) (sort l).

Definition insertion_sort (l : list hashedAttendee) : list hashedAttendee := order_by attendee_less l.

Lemma insertion_sorts : sorts insertion_sort.
Proof.
  intros l. split; [apply order_by_perm|]. unfold insertion_sort.
  assert (E : forall t, order_by attendee_less t = order_by (key_lt (pair_lt String.ltb String.ltb) attendee_key) t).
  { assert (Hi : forall r t, insert_sorted attendee_less r t = insert_sorted (key_lt (pair_lt String.ltb String.ltb) attendee_key) r t).
    { intros r t. induction t as [|x t IH]; cbn; [done|]. by rewrite attendee_less_key, IH. }
    intros t. induction t as [|r t IH]; cbn; [done|]. by rewrite IH, Hi. }
  rewrite E. eapply sorted_impl; [|apply (order_by_no_later (pair_lt String.ltb String.ltb) attendee_key)].
  intros a b H. by rewrite attendee_less_key.
Qed.

Section Hash.
Variables (sort sort' : list hashedAttendee -> list hashedAttendee) (rfc3339 : Z -> string).
Variables (marshal_input : preBriefHashInput -> string) (sha256_hex : string -> string).

(** The columns of an event the hash is about, apart from who attends. *)
Definition same_text (ev ev' : CalendarEvent) : Prop :=
  ce_Title ev = ce_Title ev' /\ AgentTables.StartsAt ev = AgentTables.StartsAt ev' /\ EndsAt ev = EndsAt ev' /\
  Description ev = Description ev' /\ Location ev = Location ev' /\ ConferencingURL ev = ConferencingURL ev'.

(** The freshness hash does not depend on the order in which the upstream
    calendar lists the attendees, nor on how ties are sorted, as long as no two
    of them share both address and name; nor on ids and times of the row. *)
Theorem hash_ignores_order ev ev' tmpl agent :
  sorts sort -> sorts sort' -> same_text ev ev' -> Attendees ev ≡ₚ Attendees ev' ->
  NoDup (map (fun a => (at_Email a, at_Name a)) (Attendees ev)) ->
  computePreBriefHash sort rfc3339 marshal_input sha256_hex ev tmpl agent =
  computePreBriefHash sort' rfc3339 marshal_input sha256_hex ev' tmpl agent.
Proof.
  intros Hs Hs' (E1 & E2 & E3 & E4 & E5 & E6) Hp Hnd. unfold computePreBriefHash, hash_input.
  rewrite E1, E2, E3, E4, E5, E6. do 4 f_equal. set (l := map hashed_attendee (Attendees ev)). set (l' := map hashed_attendee (Attendees ev')).
  assert (Hl : l ≡ₚ l') by (unfold l, l'; by rewrite Hp).
  destruct (Hs l) as [P1 S1], (Hs' l') as [P2 S2].
  assert (Hle : forall a b, attendee_less b a = false -> no_later (pair_lt String.ltb String.ltb) attendee_key a b).
  { intros a b. by rewrite attendee_less_key. }
  apply (sorted_unique (pair_lt String.ltb String.ltb) attendee_key).
  - rewrite P1. unfold l. by rewrite map_map.
  - by rewrite P1, P2.
  - eapply sorted_impl; [exact Hle|exact S1].
  - eapply sorted_impl; [exact Hle|exact S2].
Qed.
End Hash.

(** Two attendees with one address and one name, who answered differently: their
    order shows in what is hashed. *)
Definition guest (response : string) : Attendee := {| at_Name := "Bo"; at_Email := "bo@x.org"; Response := response |}.
Definition meeting (attendees : list Attendee) : CalendarEvent :=
  mkCalendarEvent "e1" "ann" "src" "x1" "Review" 10 20 "" "" "" attendees 0.

Lemma hash_sees_order_of_ties rfc3339 tmpl agent :
  [guest "accepted"; guest "declined"] ≡ₚ [guest "declined"; guest "accepted"] /\
  hash_input insertion_sort rfc3339 (meeting [guest "accepted"; guest "declined"]) tmpl agent <>
  hash_input insertion_sort rfc3339 (meeting [guest "declined"; guest "accepted"]) tmpl agent.
Proof. split; [apply perm_swap|]. unfold hash_input. intros [=]. Qed.
