(* ===== verification/TemplateWrites.v ===== *)
(** Changing templates: [CreateTemplate], [UpdateTemplate] and [DeleteTemplate]
    of [internal/store/templates.go].

    Each is one transaction on the tables of [AgentTables], which cleans up what
    the template generated — briefs across all owners, live prompts of the owner's
    streams — before it commits.  The advisory lock that serialises an owner's
    writers makes the transactions atomic; what [UpdateTemplate] reads before
    it takes the lock is the argument [seen].  The owner's row in [users], which
    is not modelled, exists. *)

From stdpp Require Import base list strings sets gmap.
From Stdlib Require Import ZArith Lia SpecFloat.
From S2P Require Import GoInt GoStrings Sql Transactions Jobs Folders Execution Notes Transcripts Templates Summaries.
From S2P Require Import AgentTables Live Calendar Briefs.

Local Open Scope string_scope.
Local Open Scope tx_scope.

(** The arguments of the two writers. *)
Record template_form := {
  tf_name : string; tf_phase : string; tf_sections : list TemplateSection; tf_autoRun : bool;
  tf_systemPrompt : string; tf_model : string; tf_temperature : option spec_float }.

(** The checks both start with. *)
Definition validate_form (a : template_form) : result store_error unit :=
  let phase := normalizeTemplatePhase (tf_phase a) in
  result_bind (validateTemplate (tf_name a) (tf_sections a)) (fun _ =>
  result_bind (validateTemplatePhase phase) (fun _ =>
  result_bind (validateCrossAutoRun phase (tf_autoRun a)) (fun _ =>
  validateTemplateOverrides (tf_systemPrompt a) (tf_model a) (tf_temperature a)))).

(** The columns they write. *)
Definition form_row (id ownerID : string) (a : template_form) : template_row :=
  mkTemplate id (Some ownerID) (TrimSpace (tf_name a)) (normalizeTemplatePhase (tf_phase a)) (tf_sections a) (tf_autoRun a)
    (nullableTemplateStr (TrimSpace (tf_systemPrompt a))) (nullableTemplateStr (TrimSpace (tf_model a))) (tf_temperature a).

(** What [CreateTemplate] returns. *)
Definition form_template (id : string) (a : template_form) : Template := {|
  tm_ID := id; tm_Name := TrimSpace (tf_name a); tm_Phase := normalizeTemplatePhase (tf_phase a);
  tm_Sections := tf_sections a; BuiltIn := false; AutoRun := tf_autoRun a;
  tm_SystemPrompt := TrimSpace (tf_systemPrompt a); tm_Model := TrimSpace (tf_model a);
  tm_Temperature := tf_temperature a |}.

Definition owned_template (ownerID id : string) (r : template_row) : bool :=
  template_is id r && bool_decide (tp_owner r = Some ownerID).

Definition insert_template (r : template_row) : Tx adb unit := fun d =>
  if exists_where (template_is (tp_id r)) (k_templates d) then Err UniqueViolation
  else Ok (tt, put_templates (k_templates d ++ [r])%list d).

Definition checked (c : adb -> result store_error unit) : Tx adb unit :=
  fun d => match c d with Ok _ => Ok (tt, d) | Err e => Err e end.

(** [DELETE FROM templates]: briefs and live outputs go with their template,
    jobs with their output; a summary keeps its text and forgets the template. *)
Definition su_forget (templateID : string) (s : summary_row) : summary_row :=
  if bool_decide (su_template s = Some templateID)
  then mkSummary (su_id s) (su_note s) None (su_plugin s) (su_model s) (su_content s) else s.

Definition output_of_template (templateID : string) (o : output_row) : bool := (lo_template o =? templateID)%string.
Definition brief_of_template (templateID : string) (b : EventBrief) : bool := (br_TemplateID b =? templateID)%string.

Definition delete_template (templateID : string) (d : adb) : adb :=
  let gone r := match r_live_output_id r with
                | Some o => exists_where (fun x => output_is o x && output_of_template templateID x) (k_outputs d)
                | None => false
                end in
  put_templates (delete_where (template_is templateID) (k_templates d))
    (put_summaries (map (su_forget templateID) (k_summaries d))
      (put_jobs (delete_where gone (k_jobs d))
        (put_outputs (delete_where (output_of_template templateID) (k_outputs d))
          (put_briefs (delete_where (brief_of_template templateID) (k_briefs d)) d)))).

Section Writes.
Variable lower : string -> string.
Variable name_lt id_lt : string -> string -> bool.
Variable uuid : nat -> string.

Abbreviation reconcile_owner := (ReconcileOwnerEligibilityTx lower name_lt id_lt uuid).

Definition CreateTemplate (dbnow now : Z) (ownerID : string) (a : template_form) : Tx adb Template :=
  tx! _ := checked (fun _ => validate_form a) in
  tx! taken := tx_read (fun d => nameTaken lower ownerID (TrimSpace (tf_name a)) "" (k_templates d)) in
  if taken then tx_fail ErrDuplicate
  else
    tx! _ := checked (fun d => validateLiveTemplateCap ownerID "" (normalizeTemplatePhase (tf_phase a)) (tf_autoRun a) (k_templates d)) in
    tx! id := NewString uuid in
    tx! _ := insert_template (form_row id ownerID a) in
    tx! _ := reconcile_owner dbnow now ownerID in
    tx_ret (form_template id a).

(** Only a template that generated briefs and no longer does has any to clean
    up. *)
Definition generates_briefs (phase : string) (autoRun : bool) : bool := (phase =? templatePhasePre)%string && autoRun.

Definition update_transaction (dbnow now : Z) (ownerID id : string) (a : template_form) : Tx adb unit :=
  tx! row := tx_read (fun d => head (select_where (owned_template ownerID id) (k_templates d))) in
  match row with
  | None => tx_fail ErrNotFound
  | Some old =>
      let phase := normalizeTemplatePhase (tf_phase a) in
      tx! _ := checked (fun d => validateLiveTemplateCap ownerID id phase (tf_autoRun a) (k_templates d)) in
      tx! _ := tx_write (fun d => put_templates (update_where (owned_template ownerID id) (fun _ => form_row id ownerID a) (k_templates d)) d) in
      tx! _ := (if generates_briefs (tp_phase old) (tp_auto_run old) && negb (generates_briefs phase (tf_autoRun a))
                then tx! _ := cleanupBriefsForTemplateAllOwners id_lt id in tx_ret tt
                else tx_ret tt) in
      reconcile_owner dbnow now ownerID
  end.

Definition UpdateTemplate_on (seen : adb) (dbnow now : Z) (ownerID id : string) (a : template_form) : Tx adb unit :=
  tx! _ := checked (fun _ => validate_form a) in
  if nameTaken lower ownerID (TrimSpace (tf_name a)) id (k_templates seen) then tx_fail ErrDuplicate
  else update_transaction dbnow now ownerID id a.

(** Nobody commits between the check of the name and the transaction. *)
Definition UpdateTemplate (dbnow now : Z) (ownerID id : string) (a : template_form) : Tx adb unit :=
  fun d => UpdateTemplate_on d dbnow now ownerID id a d.

Definition DeleteTemplate (dbnow now : Z) (ownerID id : string) : Tx adb unit :=
  tx! row := tx_read (fun d => head (select_where (owned_template ownerID id) (k_templates d))) in
  match row with
  | None => tx_fail ErrNotFound
  | Some _ =>
      tx! _ := cleanupBriefsForTemplateAllOwners id_lt id in
      tx! _ := tx_write (delete_template id) in
      reconcile_owner dbnow now ownerID
  end.

End Writes.
