(* ===== verification/LiveFrames.v ===== *)
(** What the live prompts' transactions leave alone: briefs, events and the keys
    of every job that is not theirs. *)

From stdpp Require Import base list strings sets gmap relations.
From Stdlib Require Import ZArith Lia.
From S2P Require Import GoInt GoStrings Sql Transactions Jobs JobsProps Folders Execution Notes Transcripts Templates.
From S2P Require Import Summaries AgentTables TablesProps Live LiveProps Calendar Briefs BriefsProps.

Local Open Scope string_scope.
Local Open Scope list_scope.
Local Open Scope tx_scope.

(** ** The live prompts' transactions and the briefs *)

(** Jobs keep their keys, go, or are new jobs of no brief under a fresh id. *)
Definition prompts_only (uuid : nat -> string) (d d' : adb) : Prop :=
  k_briefs d' = k_briefs d /\ k_events d' = k_events d /\ (k_drawn d <= k_drawn d')%nat /\
  forall x', x' ∈ k_jobs d' -> (exists x, x ∈ k_jobs d /\ same_keys x x') \/
    (r_brief_id x' = None /\ exists n, (k_drawn d <= n < k_drawn d')%nat /\ r_id x' = uuid n).

#[export] Instance prompts_only_preorder uuid : PreOrder (prompts_only uuid).
Proof.
  split.
  - intros d. split; [done|]. split; [done|]. split; [done|]. intros x Hx. left. exists x. split; [done|]. by repeat split.
  - intros d d1 d2 (B1 & E1 & N1 & J1) (B2 & E2 & N2 & J2). split; [congruence|]. split; [congruence|]. split; [lia|].
    intros x2 Hx2. destruct (J2 x2 Hx2) as [(x1 & Hx1 & K)|(Hn & n & Hr & Hi)].
    + destruct (J1 x1 Hx1) as [(x & Hx & K1)|(Hn & n & Hr & Hi)].
      * left. exists x. split; [done|]. unfold same_keys in *. decompose [and] K. decompose [and] K1. repeat split; congruence.
      * right. destruct K as (K0 & _ & _ & K1 & _). split; [congruence|]. exists n. split; [lia|congruence].
    + right. split; [done|]. exists n. split; [lia|done].
Qed.

Lemma prompts_only_briefs uuid `{!Inj (=) (=) uuid} d d' : briefs_ok uuid d -> jobs_inv (k_jobs d') -> prompts_only uuid d d' -> briefs_ok uuid d'.
Proof.
  intros Hd Hj (EB & EE & EN & EJ). destruct (id Hd). split; rewrite ?EB, ?EE; try done.
  - intros x' Hx' b Hb Ei. destruct (EJ x' Hx') as [(x & Hx & _ & _ & E1 & E2 & E3 & _)|[E _]]; [|congruence].
    rewrite E1, E3. rewrite E2 in Ei. by apply (bo_bound x).
  - intros n Hn. apply bo_fresh_brief. lia.
  - intros n x' Hn Hx'. destruct (EJ x' Hx') as [(x & Hx & E0 & _ & _ & E2 & _)|(E & m & Hm & E0)].
    + rewrite E0, E2. apply bo_fresh_job; [lia|done].
    + rewrite E, E0. split; [|done]. intros Eq%(inj uuid). lia.
Qed.

Section Keeping.
Variable lower : string -> string.
Variable name_lt id_lt : string -> string -> bool.
Variable uuid : nat -> string.

Abbreviation po := (prompts_only uuid).

Lemma po_tables d d' : k_briefs d' = k_briefs d -> k_events d' = k_events d -> (k_drawn d <= k_drawn d')%nat ->
  (forall x', x' ∈ k_jobs d' -> exists x, x ∈ k_jobs d /\ same_keys x x') -> po d d'.
Proof. intros EB EE EN EJ. split; [done|]. split; [done|]. split; [done|]. intros x' Hx'. left. by apply EJ. Qed.

Lemma same_keys_refl x : same_keys x x.
Proof. by repeat split. Qed.

Lemma po_update_output id f : keeps po (update_output id f).
Proof.
  apply keeps_write. intros d. apply po_tables; tables; try done. intros x Hx. exists x. by split; [|apply same_keys_refl].
Qed.

Lemma po_delete_output id : keeps po (delete_output id).
Proof.
  apply keeps_write. intros d. apply po_tables; tables; try done. intros x [Hx _]%elem_of_delete_where.
  exists x. by split; [|apply same_keys_refl].
Qed.

Lemma po_insert_output r : keeps po (insert_output r).
Proof.
  intros d u d' (-> & _)%insert_output_ok. apply po_tables; tables; try done. intros x Hx. exists x. by split; [|apply same_keys_refl].
Qed.

Lemma po_cancel dbnow j : keeps po (update_jobs (pending_with_id j) (cancelled_row dbnow)).
Proof.
  apply keeps_write. intros d. apply po_tables; tables; try done. intros x' (x & Hx & ->)%elem_of_update_where.
  exists x. split; [done|]. destruct (pending_with_id j x); [apply keeps_cancelled|apply same_keys_refl].
Qed.

Lemma po_notify n : keeps po (notifyLiveNoteTx n).
Proof.
  apply keeps_write. intros d. apply po_tables; tables; try done. intros x Hx. exists x. by split; [|apply same_keys_refl].
Qed.

Lemma po_schedule dbnow now o : keeps po (scheduleLiveJobTx uuid dbnow now o).
Proof.
  unfold scheduleLiveJobTx. intros d u d' (j & d1 & [= <- <-] & (u1 & d2 & Hi & H)%tx_bind_ok)%tx_bind_ok.
  etransitivity; [|exact (po_update_output _ _ _ _ _ H)]. apply insert_job_ok in Hi as (-> & _).
  split; [by tables|]. split; [by tables|]. tables. split; [lia|].
  intros x [Hx| ->%list_elem_of_singleton]%elem_of_app; [left; exists x; by split; [|apply same_keys_refl]|].
  right. split; [done|]. exists (k_drawn d). split; [lia|done].
Qed.

Lemma po_draw : keeps po (NewString uuid).
Proof.
  intros d i d' [= _ <-]. apply po_tables; tables; try done; [lia|]. intros x Hx. exists x. by split; [|apply same_keys_refl].
Qed.

End Keeping.

#[export] Hint Resolve po_update_output po_delete_output po_insert_output po_cancel po_notify po_schedule po_draw : tx.
#[export] Hint Extern 1 (PreOrder _) => apply prompts_only_preorder : tx.

Ltac kept := repeat first [ solve [eauto with tx]
  | match goal with
    | |- keeps ?R (tx_bind _ _) => apply (keeps_bind R); [|intros ?]
    | |- keeps ?R (tx_any _ _) => apply (keeps_any R); intros ?
    | |- keeps ?R (tx_each _ _) => apply (keeps_each R); intros ?
    | |- keeps _ (if ?b then _ else _) => destruct b
    | |- keeps _ (match ?o with Some _ => _ | None => _ end) => destruct o
    | |- keeps _ (let '(_, _) := ?o in _) => destruct o
    end ].

Section Transactions.
Variable lower : string -> string.
Variable name_lt id_lt : string -> string -> bool.
Variable uuid : nat -> string.
Abbreviation po := (prompts_only uuid).

Lemma po_reconcile_owner dbnow now owner : keeps po (ReconcileOwnerEligibilityTx lower name_lt id_lt uuid dbnow now owner).
Proof. unfold ReconcileOwnerEligibilityTx, applyEligibilityTx, retire, advance. kept. Qed.


Lemma po_update_jobs p f : keeps_job f -> keeps po (update_jobs p f).
Proof.
  intros Hf. apply keeps_write. intros d. apply po_tables; tables; try done. intros x' (x & Hx & ->)%elem_of_update_where.
  exists x. split; [done|]. destruct (p x); [apply Hf|apply same_keys_refl].
Qed.

Lemma po_capture dbnow jobID revision : keeps po (capture_target dbnow jobID revision).
Proof.
  intros d v d'. unfold capture_target, SetJobTargetRevisionIfNull.
  destruct (select_where _ (k_jobs d)) as [|r l]; [done|]. intros [= _ <-]. apply po_tables; tables; try done.
  intros x' (x & Hx & ->)%elem_of_update_where. exists x. split; [done|]. destruct (Jobs.has_id jobID x); [by destruct x|apply same_keys_refl].
Qed.

Lemma po_finish st dbnow jobID : keeps po (update_jobs (Jobs.has_id jobID) (finished_row st dbnow)).
Proof. apply po_update_jobs, keeps_finished. Qed.
Lemma po_finish_error st dbnow jobID : keeps po (update_jobs (Jobs.has_id jobID) (fun y => set_error None (finished_row st dbnow y))).
Proof. apply po_update_jobs. intros []. by repeat split. Qed.

#[local] Hint Resolve po_capture po_finish po_finish_error : tx.

Lemma po_claim dbnow now job : keeps po (ClaimLiveGenerateJobTx lower name_lt id_lt dbnow now job).
Proof. unfold ClaimLiveGenerateJobTx. kept. Qed.
Lemma po_success dbnow now jobID target agent model sections :
  keeps po (CompleteLiveGenerateSuccessTx lower name_lt id_lt uuid dbnow now jobID target agent model sections).
Proof. unfold CompleteLiveGenerateSuccessTx, follow_up, discardIneligibleLiveRowTx. kept. Qed.
Lemma po_failure dbnow now jobID code : keeps po (CompleteLiveGenerateFailureTx lower name_lt id_lt uuid dbnow now jobID code).
Proof. unfold CompleteLiveGenerateFailureTx, follow_up, discardIneligibleLiveRowTx. kept. Qed.

End Transactions.
