(* ===== verification/TemplateWritesProps.v ===== *)
(** What holds of changing templates ([TemplateWrites]): the cap on live
    templates is never exceeded, the other tables stay well formed, and what a
    template generated goes when it stops generating it. *)

From stdpp Require Import base list strings sets gmap relations.
From Stdlib Require Import ZArith Lia SpecFloat.
From S2P Require Import GoInt GoStrings Sql Paging Transactions Jobs JobsProps Folders Execution Notes Transcripts Templates.
From S2P Require Import Summaries AgentTables TablesProps Live LiveProps LiveRuns Calendar Briefs BriefsProps BriefRuns BriefCleanup.
From S2P Require Import LiveFrames TemplateWrites.

Local Open Scope string_scope.
Local Open Scope list_scope.
Local Open Scope tx_scope.

(** ** Loops over the streams of an owner *)

(** What each iteration establishes and every other one keeps holds in the end
    of all of them. *)
Lemma tx_each_establishes {S X} (P : S -> Prop) (G : X -> S -> Prop) (f : X -> Tx S unit) l d u d' :
  (forall x, x ∈ l -> after P (f x) (fun _ d1 => P d1 /\ G x d1)) ->
  (forall x y, x ∈ l -> y ∈ l -> after (fun d1 => P d1 /\ G y d1) (f x) (fun _ d1 => G y d1)) ->
  P d -> tx_each f l d = Ok (u, d') -> P d' /\ forall x, x ∈ l -> G x d'.
Proof.
  intros Hf Hkeep. assert (H : forall l1 l2 x0, l = l1 ++ l2 -> P x0 /\ (forall x, x ∈ l1 -> G x x0) ->
    tx_each f l2 x0 = Ok (u, d') -> P d' /\ forall x, x ∈ l -> G x d').
  { intros l1 l2. revert l1. induction l2 as [|x l2 IH]; intros l1 x0 -> [HP HG]; cbn [tx_each].
    - intros [= _ <-]. split; [done|]. intros x Hx. rewrite app_nil_r in Hx. by apply HG.
    - intros (v & x1 & E & H)%tx_bind_ok. assert (Hx : x ∈ l1 ++ x :: l2) by (apply elem_of_app; right; left).
      destruct (Hf x Hx x0 v x1 HP E) as [HP1 HG1]. apply (IH (l1 ++ [x]) x1); [by rewrite <- app_assoc| |done].
      split; [done|]. intros y [Hy| ->%list_elem_of_singleton]%elem_of_app; [|done].
      apply (Hkeep x y Hx ltac:(apply elem_of_app; by left) x0 v x1); [split; [done|by apply HG]|done]. }
  intros HP E. apply (H [] l d); [done|split; [done|by intros x ?%elem_of_nil]|done].
Qed.

(** ** Templates by id *)

Lemma template_is_true id r : template_is id r = true <-> tp_id r = id.
Proof. apply String.eqb_eq. Qed.

Lemma owned_template_true owner id r : owned_template owner id r = true <-> tp_id r = id /\ tp_owner r = Some owner.
Proof. unfold owned_template. by rewrite andb_true_iff, template_is_true, bool_decide_eq_true. Qed.

(** The owner's template is the only one with its id. *)
Lemma owned_is owner id (t : list template_row) old : NoDup (map tp_id t) -> head (select_where (owned_template owner id) t) = Some old ->
  old ∈ t /\ tp_id old = id /\ tp_owner old = Some owner /\
  (forall r, r ∈ t -> owned_template owner id r = template_is id r) /\ exists_where (owned_template owner id) t = true.
Proof.
  intros Hnd H. destruct (select_where _ t) as [|x l] eqn:E; [done|]. injection H as ->.
  assert (Ho : old ∈ select_where (owned_template owner id) t) by (rewrite E; left).
  apply elem_of_select_where in Ho as [Ho Hp]. pose proof Hp as [Hi Hw]%owned_template_true. repeat split; try done.
  - intros r Hr. unfold owned_template. destruct (template_is id r) eqn:Ei; [|done]. apply template_is_true in Ei.
    rewrite (key_unique tp_id t r old) by (done || congruence). by apply bool_decide_eq_true.
  - apply exists_where_true. eauto.
Qed.

(** Counting after one row was replaced. *)
Lemma replaced_count (p : template_row -> bool) id n t : NoDup (map tp_id t) ->
  (rows_affected p (update_where (template_is id) (fun _ => n) t) <=
   rows_affected (fun r => p r && negb (template_is id r)) t + if p n then 1 else 0)%nat.
Proof.
  assert (Hno : forall t, (forall r, r ∈ t -> template_is id r = false) ->
    rows_affected p (update_where (template_is id) (fun _ => n) t) = rows_affected (fun r => p r && negb (template_is id r)) t).
  { clear t. intros t H. rewrite update_where_unmatched by done. unfold rows_affected. f_equal.
    apply (select_where_ext p). intros r Hr. by rewrite (H r Hr), andb_true_r. }
  unfold rows_affected, update_where in *. induction t as [|r t IH]; cbn [map List.filter]; [cbn; lia|].
  intros [Hr Hnd]%NoDup_cons. destruct (template_is id r) eqn:E.
  - rewrite andb_false_r. assert (Hrest : forall x, x ∈ t -> template_is id x = false).
    { intros x Hx. destruct (template_is id x) eqn:Ex; [|done]. apply template_is_true in E, Ex. destruct Hr.
      rewrite E, <- Ex. by apply list_elem_of_fmap_2. }
    rewrite <- (Hno t Hrest). destruct (p n); cbn [length]; lia.
  - rewrite andb_true_r. specialize (IH Hnd). destruct (p r); cbn [length]; lia.
Qed.

Lemma count_le {row} (p q : row -> bool) t : (forall r, r ∈ t -> p r = true -> q r = true) -> (rows_affected p t <= rows_affected q t)%nat.
Proof.
  unfold rows_affected. induction t as [|r t IH]; intros H; cbn; [lia|]. assert (Hr : forall x, x ∈ t -> p x = true -> q x = true) by (intros x Hx; apply H; by right). specialize (IH Hr).
  destruct (p r) eqn:Ep; [rewrite (H r ltac:(left) Ep); cbn; lia|destruct (q r); cbn; lia].
Qed.

(** ** The cap on live templates *)

(** No owner has more than eight live templates, the built-in ones included. *)
Definition cap_kept (t : list template_row) : Prop := forall owner, (rows_affected (is_live owner) t <= MaxLiveTemplates)%nat.

Definition live_form (a : template_form) : bool :=
  (normalizeTemplatePhase (tf_phase a) =? templatePhaseDuring)%string && tf_autoRun a.

Lemma is_live_form owner id a owner' : is_live owner' (form_row id owner a) = bool_decide (owner = owner') && live_form a.
Proof.
  unfold is_live, sees, live_form, form_row, built_in. cbn. rewrite <- andb_assoc. f_equal. apply bool_decide_ext. split; [by intros [=]|by intros ->].
Qed.

Lemma validated owner id a t :
  validateLiveTemplateCap owner id (normalizeTemplatePhase (tf_phase a)) (tf_autoRun a) t = Ok tt -> live_form a = true ->
  (rows_affected (fun r => is_live owner r && negb (template_is id r)) t < MaxLiveTemplates)%nat /\
  (id = "" -> (rows_affected (is_live owner) t < MaxLiveTemplates)%nat).
Proof.
  unfold validateLiveTemplateCap, live_form. intros H [Hp Ha]%andb_true_iff. rewrite Hp, Ha in H. cbn [negb orb] in H.
  destruct (MaxLiveTemplates <=? _)%nat eqn:E in H; [done|]. apply Nat.leb_gt in E. unfold countOtherEligibleLiveTemplatesTx in E.
  destruct (String.eqb_spec id "") as [->|]; [|done]. split; [|done]. eapply Nat.le_lt_trans; [|exact E].
  apply count_le. by intros r _ [? _]%andb_true_iff.
Qed.

Lemma cap_create owner id a t :
  validateLiveTemplateCap owner "" (normalizeTemplatePhase (tf_phase a)) (tf_autoRun a) t = Ok tt ->
  cap_kept t -> cap_kept (t ++ [form_row id owner a]).
Proof.
  intros Hv Ht owner'. rewrite rows_affected_snoc, is_live_form. specialize (Ht owner').
  destruct (bool_decide_reflect (owner = owner')) as [<-|]; [|cbn; lia]. destruct (live_form a) eqn:El; [|cbn; lia].
  pose proof (proj2 (validated _ _ _ _ Hv El) eq_refl). cbn. lia.
Qed.

Lemma cap_update owner id a t : NoDup (map tp_id t) ->
  validateLiveTemplateCap owner id (normalizeTemplatePhase (tf_phase a)) (tf_autoRun a) t = Ok tt ->
  cap_kept t -> cap_kept (update_where (template_is id) (fun _ => form_row id owner a) t).
Proof.
  intros Hnd Hv Ht owner'. eapply Nat.le_trans; [by apply replaced_count|]. rewrite is_live_form. specialize (Ht owner').
  assert (Hle : (rows_affected (fun r => is_live owner' r && negb (template_is id r)) t <= rows_affected (is_live owner') t)%nat).
  { apply count_le. by intros r _ [? _]%andb_true_iff. }
  destruct (bool_decide_reflect (owner = owner')) as [<-|]; [|cbn; lia]. destruct (live_form a) eqn:El; [|cbn; lia].
  pose proof (proj1 (validated _ _ _ _ Hv El)). cbn. lia.
Qed.

Lemma cap_delete p t : cap_kept t -> cap_kept (delete_where p t).
Proof. intros Ht owner. etransitivity; [apply rows_affected_delete|apply Ht]. Qed.

Lemma seed_one_adds uuid name sections t r t' : seed_one uuid name sections t = (r, t') ->
  t' = t \/ (t' = t ++ [mkTemplate uuid None name templatePhaseAfter sections true None None None] /\ uuid ∉ map tp_id t).
Proof.
  unfold seed_one. destruct (exists_where (is_built_in_named name) t); [intros [=]; by left|].
  destruct (exists_where (template_is uuid) t) eqn:E; intros [=]; [by left|]. subst. right. split; [done|].
  intros (x & Ex & Hx)%list_elem_of_fmap. rewrite exists_where_false in E. specialize (E x Hx).
  unfold template_is in E. by rewrite <- Ex, String.eqb_refl in E.
Qed.

(** Seeding adds no live template. *)
Lemma seed_inv fresh todo t r t' : seed_from fresh todo t = (r, t') -> NoDup (map tp_id t) -> cap_kept t ->
  NoDup (map tp_id t') /\ cap_kept t'.
Proof.
  revert t. induction todo as [|[name sections] rest IH]; intros t; cbn [seed_from]; [by intros [= _ <-]|].
  destruct (seed_one _ name sections t) as [[u|e] t1] eqn:E; apply seed_one_adds in E as [->|[-> Hi]];
    intros H Hnd Ht; try (by eapply IH); try (by injection H as _ <-).
  all: assert (Hnd' : NoDup (map tp_id (t ++ [mkTemplate (fresh (length ((name, sections) :: rest))) None name templatePhaseAfter sections true None None None])))
    by (rewrite map_app; by apply NoDup_snoc).
  all: assert (Ht' : cap_kept (t ++ [mkTemplate (fresh (length ((name, sections) :: rest))) None name templatePhaseAfter sections true None None None]))
    by (intros owner; rewrite rows_affected_snoc; specialize (Ht owner); cbn; lia).
  - by eapply IH.
  - by injection H as _ <-.
Qed.

(** With the cap kept no live template of an owner is left out. *)
Lemma nothing_suppressed lower name_lt id_lt owner t : cap_kept t -> (EligibleLiveTemplatesTx lower name_lt id_lt owner t).2 = [].
Proof.
  intros Ht. unfold EligibleLiveTemplatesTx, visibleLiveEligibleTemplatesTx. set (l := map _ _).
  assert (Hl : length l = rows_affected (is_live owner) t).
  { unfold l, rows_affected. rewrite length_map. apply Permutation_length, order_by_perm. }
  specialize (Ht owner). destruct (MaxLiveTemplates <? length l)%nat eqn:E; [apply Nat.ltb_lt in E; lia|done].
Qed.

(** ** The transactions *)

Section Writing.
Variable lower : string -> string.
Variable name_lt id_lt : string -> string -> bool.
Context (uuid : nat -> string) `{Huuid : !Inj (=) (=) uuid} (uuid_named : forall n, uuid n <> "").
Context `{Horder : !StrictTotalOrder id_lt}.

Abbreviation reconcile_owner := (ReconcileOwnerEligibilityTx lower name_lt id_lt uuid).
Abbreviation create := (CreateTemplate lower name_lt id_lt uuid).
Abbreviation update := (UpdateTemplate_on lower name_lt id_lt uuid).
Abbreviation delete := (DeleteTemplate lower name_lt id_lt uuid).
Abbreviation eligible := (is_eligible lower name_lt id_lt).

(** Everything the writers rely on: the invariants of the live prompts and of
    the briefs, the cap, and that no job serves both. *)
Record templates_ok (d : adb) : Prop := {
  to_live : live_inv d;
  to_briefs : briefs_ok uuid d;
  to_cap : cap_kept (k_templates d);
  to_apart x : x ∈ k_jobs d -> r_live_output_id x <> None -> r_brief_id x = None }.

Lemma templates_ok_put t d : NoDup (map tp_id t) -> cap_kept t -> templates_ok d -> templates_ok (put_templates t d).
Proof.
  intros Hnd Hc [[Hl _] Hb _ Ha]. split.
  - split; [by apply (live_ok_tables d); tables|by tables].
  - by destruct Hb; split; tables.
  - by tables.
  - by tables.
Qed.

Lemma templates_ok_draw d : templates_ok d -> templates_ok (draw d).
Proof.
  intros [[Hl Hn] Hb Hc Ha]. split.
  - split; [by apply (live_ok_tables d); tables|by tables].
  - by apply briefs_ok_draw.
  - by tables.
  - by tables.
Qed.

Lemma reconcile_owner_ok dbnow now owner d u d' : templates_ok d -> reconcile_owner dbnow now owner d = Ok (u, d') ->
  templates_ok d' /\ readonly d' = readonly d /\ prompts_only uuid d d'.
Proof.
  intros Hd H. pose proof (po_reconcile_owner lower name_lt id_lt uuid dbnow now owner d u d' H) as Hpo.
  apply reconcile_owner_inv in H as [Hl Hro]; [|done|apply Hd]. split; [|done]. split.
  - done.
  - apply (prompts_only_briefs uuid d); [apply Hd|apply Hl|done].
  - unfold readonly in Hro. injection Hro as -> _. apply Hd.
  - intros x' Hx' Ho. destruct (proj2 (proj2 (proj2 Hpo)) x' Hx') as [(x & Hx & K)|[E _]]; [|done].
    unfold same_keys in K. decompose [and] K. assert (r_brief_id x = None); [|congruence]. apply (to_apart d Hd x Hx). congruence.
Qed.

(** Deleting a template's briefs and their queued jobs. *)
Lemma templates_ok_without p d : templates_ok d -> templates_ok (without_briefs p d).
Proof.
  intros Hd. destruct (id Hd) as [[Hl Hn] Hb Hc Ha]. split.
  - split; [|unfold without_briefs; by tables].
    pose proof (live_ok_cascade (fun _ => false) (queued_pre_job (map br_ID (select_where p (k_briefs d)))) d) as H.
    rewrite (delete_absent (fun _ => false)) in H by done.
    eapply live_ok_tables; [| |apply H; [|exact Hl]]; [unfold without_briefs; by tables..|].
    intros x o Hx Ho Eo. unfold queued_pre_job. rewrite (Ha x Hx) by congruence. apply andb_false_r.
  - by apply deleted_ok.
  - unfold without_briefs. by tables.
  - unfold without_briefs. tables. intros x [Hx _]%elem_of_delete_where. by apply Ha.
Qed.

Lemma cleanup_ok id d n d' : templates_ok d -> cleanupBriefsForTemplateAllOwners id_lt id d = Ok (n, d') ->
  d' = without_briefs (of_template id) d /\ templates_ok d'.
Proof.
  intros Hd. rewrite (cleanup_template_eq uuid id_lt) by apply Hd. intros [= _ <-]. split; [done|]. by apply templates_ok_without.
Qed.

Lemma delete_template_ok id d : templates_ok d -> templates_ok (delete_template id d).
Proof.
  intros Hd. pose proof Hd as [[Hl Hn] Hb Hc Ha]. unfold delete_template.
  set (gone := fun r : job_row => match r_live_output_id r with Some o => _ | None => false end). split.
  - split; [|tables; by apply NoDup_map_delete].
    eapply live_ok_tables; [| |apply (live_ok_cascade (output_of_template id) gone d); [|exact Hl]]; [by tables..|].
    intros x o Hx Ho Eo. unfold gone. rewrite Eo. destruct (output_of_template id o) eqn:E.
    + apply exists_where_true. exists o. split; [done|]. rewrite E, andb_true_r. by apply String.eqb_eq.
    + apply exists_where_false. intros o' Ho'. destruct (output_is (lo_id o) o') eqn:Ei; [|done]. apply String.eqb_eq in Ei.
      rewrite (key_unique lo_id (k_outputs d) o' o) by (done || apply Hl). by rewrite E.
  - destruct (deleted_ok uuid (brief_of_template id) gone d Hb) as [[] _]. split; tables; done.
  - tables. by apply cap_delete.
  - tables. intros x [Hx _]%elem_of_delete_where. by apply Ha.
Qed.

(** The steps: each writer's transaction, an update under whatever it saw
    when it checked the name, and the start-up seeding. *)
Inductive template_step : adb -> adb -> Prop :=
| ts_create dbnow now owner a d tm d' : create dbnow now owner a d = Ok (tm, d') -> template_step d d'
| ts_update seen dbnow now owner id a d u d' : update seen dbnow now owner id a d = Ok (u, d') -> template_step d d'
| ts_delete dbnow now owner id d u d' : delete dbnow now owner id d = Ok (u, d') -> template_step d d'
| ts_seed fresh d r t : SeedBuiltInTemplates fresh (k_templates d) = (r, t) -> template_step d (put_templates t d).

Lemma checked_ok c d u d' : checked c d = Ok (u, d') <-> c d = Ok tt /\ d' = d.
Proof. unfold checked. destruct (c d) as [[]|e], u; (split; [by intros [= <-]|by intros [[=] ->]]). Qed.

(** What a successful create went through. *)
Lemma created_ok dbnow now owner a d tm d' : create dbnow now owner a d = Ok (tm, d') ->
  exists u, validate_form a = Ok tt /\ nameTaken lower owner (TrimSpace (tf_name a)) "" (k_templates d) = false /\
    validateLiveTemplateCap owner "" (normalizeTemplatePhase (tf_phase a)) (tf_autoRun a) (k_templates d) = Ok tt /\
    (uuid (k_drawn d) ∉ map tp_id (k_templates d)) /\ tm = form_template (uuid (k_drawn d)) a /\
    reconcile_owner dbnow now owner (put_templates (k_templates d ++ [form_row (uuid (k_drawn d)) owner a]) (draw d)) = Ok (u, d').
Proof.
  unfold CreateTemplate. intros (u0 & d0 & [Hv ->]%checked_ok & H)%tx_bind_ok.
  apply tx_bind_ok in H as (taken & d1 & [= <- <-] & H). destruct (nameTaken _ _ _ _ _) eqn:En; [done|].
  apply tx_bind_ok in H as (u1 & d1 & [Hc ->]%checked_ok & H). apply tx_bind_ok in H as (i & d1 & [= <- <-] & H).
  apply tx_bind_ok in H as (u2 & d2 & Hi & H). apply tx_bind_ok in H as (u3 & d3 & Hr & [= <- <-]).
  unfold insert_template in Hi. destruct (exists_where _ _) eqn:Ei; [done|]. injection Hi as _ <-. exists u3.
  replace (k_templates (draw d)) with (k_templates d) in * by by tables. repeat split; try done.
  intros (r & Er & Hr')%list_elem_of_fmap. rewrite exists_where_false in Ei. specialize (Ei r Hr'). unfold template_is in Ei.
  cbn in Ei. by rewrite <- Er, String.eqb_refl in Ei.
Qed.

(** What a successful update went through. *)
Lemma update_ok seen dbnow now owner id a d u d' : templates_ok d -> update seen dbnow now owner id a d = Ok (u, d') ->
  let t := update_where (template_is id) (fun _ => form_row id owner a) (k_templates d) in
  exists old, validate_form a = Ok tt /\ nameTaken lower owner (TrimSpace (tf_name a)) id (k_templates seen) = false /\
    old ∈ k_templates d /\ tp_id old = id /\ tp_owner old = Some owner /\
    validateLiveTemplateCap owner id (normalizeTemplatePhase (tf_phase a)) (tf_autoRun a) (k_templates d) = Ok tt /\
    let stops := (generates_briefs (tp_phase old) (tp_auto_run old) && negb (generates_briefs (normalizeTemplatePhase (tf_phase a)) (tf_autoRun a)))%bool in
    templates_ok (put_templates t d) /\
    reconcile_owner dbnow now owner (if stops then without_briefs (of_template id) (put_templates t d) else put_templates t d) = Ok (u, d').
Proof.
  intros Hd. unfold UpdateTemplate_on. intros (u0 & d0 & [Hv ->]%checked_ok & H)%tx_bind_ok.
  destruct (nameTaken _ _ _ _ _) eqn:En; [done|]. unfold update_transaction in H. apply tx_bind_ok in H as (row & d1 & [= <- <-] & H).
  destruct (head _) as [old|] eqn:Eh; [|done]. apply owned_is in Eh as (Ho & Hi & Hw & Hsame & _); [|apply Hd].
  apply tx_bind_ok in H as (u1 & d1 & [Hc ->]%checked_ok & H). apply tx_bind_ok in H as (u2 & d1 & [= _ <-] & H).
  rewrite (update_where_ext _ (template_is id)) in H by done. set (t := update_where _ _ _) in *. exists old.
  assert (Ht : templates_ok (put_templates t d)).
  { apply templates_ok_put; [|by apply cap_update; [apply Hd|..|apply Hd]|done]. unfold t.
    assert (map tp_id (update_where (template_is id) (fun _ => form_row id owner a) (k_templates d)) = map tp_id (k_templates d)) as ->; [|apply Hd].
    unfold update_where. rewrite map_map. apply map_ext_in. intros r _. destruct (template_is id r) eqn:E; [|done].
    apply template_is_true in E. by cbn. }
  do 7 (split; [done|]). destruct (generates_briefs _ _ && _).
  - apply tx_bind_ok in H as (u3 & d2 & H3 & H). apply tx_bind_ok in H3 as (n & d3 & H3 & [= _ <-]).
    apply cleanup_ok in H3 as [-> _]; done.
  - by apply tx_bind_ok in H as (u3 & d2 & [= _ <-] & H).
Qed.

Lemma delete_ok dbnow now owner id d u d' : templates_ok d -> delete dbnow now owner id d = Ok (u, d') ->
  exists_where (owned_template owner id) (k_templates d) = true /\
  templates_ok (delete_template id (without_briefs (of_template id) d)) /\
  reconcile_owner dbnow now owner (delete_template id (without_briefs (of_template id) d)) = Ok (u, d').
Proof.
  intros Hd. unfold DeleteTemplate. intros (row & d1 & [= <- <-] & H)%tx_bind_ok. destruct (head _) as [old|] eqn:Eh; [|done].
  apply owned_is in Eh as (_ & _ & _ & _ & He); [|apply Hd]. apply tx_bind_ok in H as (n & d1 & [-> H1]%cleanup_ok & H); [|done].
  apply tx_bind_ok in H as (u2 & d2 & [= _ <-] & H). split; [done|]. split; [by apply delete_template_ok|done].
Qed.

Lemma template_step_ok d d' : template_step d d' -> templates_ok d -> templates_ok d'.
Proof.
  intros Hs Hd. destruct Hs as [dbnow now owner a d tm d' H|seen dbnow now owner id a d u d' H|dbnow now owner id d u d' H|fresh d r t H].
  - apply created_ok in H as (u & _ & _ & Hc & Hi & _ & H). apply reconcile_owner_ok in H as [? _]; [done|].
    apply templates_ok_put; [|by apply cap_create; [|apply Hd]|by apply templates_ok_draw].
    rewrite map_app. apply NoDup_snoc; [apply Hd|done].
  - apply update_ok in H as (old & _ & _ & _ & _ & _ & _ & Ht & H); [|done]. apply reconcile_owner_ok in H as [? _]; [done|].
    destruct (generates_briefs _ _ && _); [by apply templates_ok_without|done].
  - apply delete_ok in H as (_ & Ht & H); [|done]. by apply reconcile_owner_ok in H as [? _].
  - apply seed_inv in H as [? ?]; [|apply Hd..]. by apply templates_ok_put.
Qed.

(** C22. Through any history of creating, updating, deleting and seeding
    templates, also when updates checked the name against older tables, the
    tables of templates, live prompts and briefs stay well formed and no owner
    has more than eight live templates, so none is ever left out. *)
Theorem template_cap_invariant d d' : templates_ok d -> rtc template_step d d' ->
  templates_ok d' /\ forall owner, (EligibleLiveTemplatesTx lower name_lt id_lt owner (k_templates d')).2 = [].
Proof.
  intros Hd Hs. assert (Hd' : templates_ok d') by (induction Hs as [|a b c H1 _ IH]; [done|]; by apply IH, (template_step_ok a)).
  split; [done|]. intros owner. apply nothing_suppressed, Hd'.
Qed.

(** ** What an owner's reconciliation does to the prompts *)

Definition steady (d x : adb) : Prop := live_inv x /\ readonly x = readonly d.

Lemma steady_eligible owner t d x : steady d x -> eligible owner t x = eligible owner t d.
Proof. intros [_ Hro]. unfold is_eligible. unfold readonly in Hro. by injection Hro as -> _. Qed.

Lemma steady_step dbnow now owner st d x u x' : steady d x ->
  (tx! _ := applyEligibilityTx lower name_lt id_lt uuid dbnow now owner (st_NoteID st) (st_TranscriptID st) (st_StreamID st) in tx_ret tt) x = Ok (u, x') ->
  steady d x' /\ forall k,
    if bool_decide ((st_NoteID st, st_StreamID st) = (k.1.1, k.2))
    then eligible owner k.1.2 d = false -> prompt x' k = retired now (prompt x k) else prompt x' k = prompt x k.
Proof.
  intros Hx (b & x1 & H & [= _ <-])%tx_bind_ok. pose proof H as H0. apply reconcile_inv in H0 as [Hi Hro]; [|done|apply Hx].
  pose proof (fun t => steady_eligible owner t d x Hx) as Hel. destruct Hx as [[Hl Hn] Hro0]. split; [split; [done|congruence]|]. intros k.
  apply applyEligibility_spec in H as (_ & _ & Hk & Hother & _); [|done..].
  destruct (bool_decide_reflect ((st_NoteID st, st_StreamID st) = (k.1.1, k.2))) as [[= E1 E2]|Hne].
  - intros He. rewrite E1, E2 in Hk. specialize (Hk k.1.2). cbv zeta in Hk. destruct k as [[n t] s]. cbn in *.
    rewrite Hel, He in Hk. by destruct Hk.
  - apply Hother. intros E. by apply Hne.
Qed.

Lemma steady_retired now v : hidden_or_gone v -> hidden_or_gone (retired now v).
Proof. intros _. apply retired_hidden. Qed.

Lemma reconcile_owner_prompts dbnow now owner d u d' : live_inv d -> reconcile_owner dbnow now owner d = Ok (u, d') ->
  (forall st t, st ∈ activeLiveStreamsForOwnerTx owner d -> eligible owner t d = false ->
     hidden_or_gone (prompt d' (st_NoteID st, t, st_StreamID st))) /\
  (forall k, (forall st, st ∈ activeLiveStreamsForOwnerTx owner d -> (st_NoteID st, st_StreamID st) <> (k.1.1, k.2)) ->
     prompt d' k = prompt d k) /\
  (forall k, eligible owner k.1.2 d = false -> prompt d k = None -> prompt d' k = None).
Proof.
  intros Hd. unfold ReconcileOwnerEligibilityTx. intros (streams & d1 & [= <- <-] & H)%tx_bind_ok.
  assert (Hst : steady d d) by by split. split; [|split].
  - intros st t Hst' He.
    apply (tx_each_establishes (steady d) (fun st x => hidden_or_gone (prompt x (st_NoteID st, t, st_StreamID st)))) in H as [_ H]; [by apply H|..|done].
    + intros y _ x v x' Hx E. apply steady_step with (d := d) in E as [Hx' Hk]; [|done]. split; [done|].
      specialize (Hk (st_NoteID y, t, st_StreamID y)). rewrite bool_decide_eq_true_2 in Hk by done. rewrite Hk by done. apply retired_hidden.
    + intros y z _ _ x v x' [Hx Hh] E. apply steady_step with (d := d) in E as [_ Hk]; [|done].
      specialize (Hk (st_NoteID z, t, st_StreamID z)). destruct (bool_decide _); rewrite Hk by done; [apply retired_hidden|done].
  - intros k Hk. apply (after_each (fun x => steady d x /\ prompt x k = prompt d k)) in H; [by apply H| |done].
    intros st Hin x v x' [Hx Hp] E. apply steady_step with (d := d) in E as [Hx' Hs]; [|done]. split; [done|].
    specialize (Hs k). rewrite bool_decide_eq_false_2 in Hs by by apply Hk. by rewrite Hs.
  - intros k He Hp. apply (after_each (fun x => steady d x /\ prompt x k = None)) in H; [by apply H| |done].
    intros st Hin x v x' [Hx Hp'] E. apply steady_step with (d := d) in E as [Hx' Hs]; [|done]. split; [done|].
    specialize (Hs k). destruct (bool_decide _); rewrite Hs by done; [by rewrite Hp'|done].
Qed.

Lemma eligible_template owner t d : eligible owner t d = true -> exists r, r ∈ k_templates d /\ tp_id r = t /\ is_live owner r = true.
Proof.
  intros (tm & Htm & <-)%eligible_spec. unfold eligible_templates, EligibleLiveTemplatesTx, visibleLiveEligibleTemplatesTx in Htm.
  assert (Hin : tm ∈ map (scan_template true) (order_by (visible_before lower name_lt id_lt) (select_where (is_live owner) (k_templates d)))).
  { destruct (_ <? _)%nat; [|done]. by apply subseteq_take in Htm. }
  apply list_elem_of_fmap in Hin as (r & -> & Hr). apply elem_of_order_by, elem_of_select_where in Hr as [Hr Hl]. by exists r.
Qed.

(** ** What an update and a deletion leave behind *)

(** The tables no writer of templates touches. *)
Definition untouched (d : adb) := (k_notes d, k_transcripts d, k_segments d, k_sources d, k_events d).

Lemma readonly_untouched d d' : readonly d' = readonly d ->
  untouched d' = untouched d /\ k_templates d' = k_templates d /\ k_summaries d' = k_summaries d /\ k_briefs d' = k_briefs d.
Proof. unfold readonly, untouched. intros [=]. repeat split; congruence. Qed.

Lemma streams_untouched owner d d' : untouched d' = untouched d -> activeLiveStreamsForOwnerTx owner d' = activeLiveStreamsForOwnerTx owner d.
Proof. unfold untouched, activeLiveStreamsForOwnerTx. by intros [= -> -> _ _ _]. Qed.

Lemma without_briefs_untouched p d : untouched (without_briefs p d) = untouched d /\ k_templates (without_briefs p d) = k_templates d /\
  k_summaries (without_briefs p d) = k_summaries d /\ k_outputs (without_briefs p d) = k_outputs d.
Proof. unfold without_briefs, untouched. by tables. Qed.

(** A queued job of a deleted brief. *)
Definition queued_for (p : EventBrief -> bool) (d : adb) (x : job_row) : Prop :=
  queued_pre_job (map br_ID (select_where p (k_briefs d))) x = true.

(** A deleted job does not come back under its id. *)
Lemma job_gone d d1 d' x : templates_ok d -> (k_drawn d <= k_drawn d1)%nat -> (forall y, y ∈ k_jobs d1 -> y ∈ k_jobs d) ->
  prompts_only uuid d1 d' -> x ∈ k_jobs d -> x ∉ k_jobs d1 -> r_id x ∉ map r_id (k_jobs d').
Proof.
  intros Hd Hn Hsub (_ & _ & _ & Hpo) Hx Hx1 (x' & E & Hx')%list_elem_of_fmap.
  destruct (Hpo x' Hx') as [(x0 & Hx0 & K)|(_ & n & Hr & Hi)].
  - destruct K as [K _]. assert (x = x0); [|congruence].
    apply (key_unique r_id (k_jobs d)); [apply (bo_jobs uuid d (to_briefs d Hd))|done|by apply Hsub|congruence].
  - destruct (bo_fresh_job uuid d (to_briefs d Hd) n x) as [Hne _]; [lia|done|]. congruence.
Qed.

Lemma prompt_without_briefs p d k : templates_ok d -> prompt (without_briefs p d) k = prompt d k.
Proof.
  intros Hd. unfold prompt, at_key. rewrite (proj2 (proj2 (proj2 (without_briefs_untouched p d)))).
  destruct (head _) as [r|]; [|done]. cbn. do 2 f_equal. unfold jobs_of, without_briefs. tables. apply select_delete.
  intros x Hx Hj%job_of_output_true.
  unfold queued_pre_job. rewrite (to_apart d Hd x Hx) by congruence. apply andb_false_r.
Qed.

(** An update by the owner puts the form in the template's row and
    changes no other template.  If the template no longer generates briefs all
    its briefs go, whoever owns the event, with their queued jobs; otherwise no
    brief does.  If it is not live afterwards no stream of the owner shows its
    prompt; prompts of others' streams stay as they are, and so do notes,
    transcripts, events and summaries.  Anyone else's update is refused. *)
Theorem update_template_exact seen dbnow now owner id a d : templates_ok d ->
  if exists_where (owned_template owner id) (k_templates d)
  then forall u d', update seen dbnow now owner id a d = Ok (u, d') ->
    exists old, old ∈ k_templates d /\ tp_id old = id /\
    let stops := generates_briefs (tp_phase old) (tp_auto_run old) &&
                 negb (generates_briefs (normalizeTemplatePhase (tf_phase a)) (tf_autoRun a)) in
    k_templates d' = update_where (template_is id) (fun _ => form_row id owner a) (k_templates d) /\
    k_briefs d' = (if stops then delete_where (brief_of_template id) (k_briefs d) else k_briefs d) /\
    (stops = true -> forall x, x ∈ k_jobs d -> queued_for (brief_of_template id) d x -> r_id x ∉ map r_id (k_jobs d')) /\
    (live_form a = false -> forall st, st ∈ activeLiveStreamsForOwnerTx owner d ->
       hidden_or_gone (prompt d' (st_NoteID st, id, st_StreamID st))) /\
    (forall k, (forall st, st ∈ activeLiveStreamsForOwnerTx owner d -> (st_NoteID st, st_StreamID st) <> (k.1.1, k.2)) ->
       prompt d' k = prompt d k) /\
    k_summaries d' = k_summaries d /\ untouched d' = untouched d
  else exists e, update seen dbnow now owner id a d = Err e.
Proof.
  intros Hd. destruct (exists_where _ _) eqn:Ex.
  - intros u d' H. apply update_ok in H as (old & _ & _ & Ho & Hi & Hw & _ & Ht & H); [|done]. exists old. split; [done|]. split; [done|].
    set (t := update_where _ _ _) in *. cbv zeta. set (stops := generates_briefs _ _ && _) in *.
    set (d1 := if stops then _ else _) in H.
    assert (Hd1 : templates_ok d1) by (unfold d1; destruct stops; [by apply templates_ok_without|done]).
    assert (Hu : untouched d1 = untouched d /\ k_templates d1 = t /\ k_summaries d1 = k_summaries d /\ k_outputs d1 = k_outputs d /\
                 k_briefs d1 = (if stops then delete_where (brief_of_template id) (k_briefs d) else k_briefs d)).
    { unfold d1, untouched, without_briefs. by destruct stops; tables. }
    destruct Hu as (Hu & Et & Es & Eo & Eb). pose proof (reconcile_owner_ok _ _ _ _ _ _ Hd1 H) as (_ & Hro & Hpo).
    apply readonly_untouched in Hro as (Hu' & Et' & Es' & Eb'). apply reconcile_owner_prompts in H as (Hhid & Hoth & _); [|apply Hd1].
    rewrite (streams_untouched owner d d1 Hu) in Hhid, Hoth.
    do 2 (split; [congruence|]). split; [|split; [|split; [|split; congruence]]].
    + intros Hs x Hx Hq. apply (job_gone d d1); [done| | |done|done|]; unfold d1; rewrite Hs; unfold without_briefs; tables.
      * lia.
      * by intros y [Hy _]%elem_of_delete_where.
      * intros [_ Hn]%elem_of_delete_where. unfold queued_for, brief_of_template, of_template in *. congruence.
    + intros Hl st Hst. apply Hhid; [done|]. destruct (eligible owner id d1) eqn:He; [|done].
      apply eligible_template in He as (r & Hr & Hri & Hlive). rewrite Et in Hr. unfold t in Hr.
      apply elem_of_update_where in Hr as (r0 & Hr0 & ->). destruct (template_is id r0) eqn:E.
      * by rewrite is_live_form, Hl, andb_false_r in Hlive.
      * apply template_is_true in Hri. congruence.
    + intros k Hk. rewrite Hoth by done. assert (Hp : prompt (put_templates t d) k = prompt d k) by (apply prompt_tables; by tables).
      unfold d1. destruct stops; [|done]. by rewrite prompt_without_briefs.
  - unfold UpdateTemplate_on, tx_bind at 1. destruct (checked _ d) as [[u d1]|e] eqn:Ec; [|by exists e].
    apply checked_ok in Ec as [_ ->]. destruct (nameTaken _ _ _ _ _); [by eexists|].
    unfold update_transaction, tx_bind at 1, tx_read. rewrite select_none; [by exists ErrNotFound|]. by apply exists_where_false.
Qed.

Lemma prompt_delete_template id d k : templates_ok d -> k.1.2 <> id -> prompt (delete_template id d) k = prompt d k.
Proof.
  intros Hd Hk. assert (Hl : live_ok d) by apply Hd. unfold prompt, at_key, delete_template. tables.
  assert (select_where (fun r => bool_decide (lo_key r = k)) (delete_where (output_of_template id) (k_outputs d)) =
          select_where (fun r => bool_decide (lo_key r = k)) (k_outputs d)) as ->.
  { apply select_delete. intros r _ E%bool_decide_eq_true. unfold output_of_template. apply String.eqb_neq. intros Er. apply Hk. by rewrite <- E. }
  destruct (head _) as [r|] eqn:Eh; [|done]. cbn. do 2 f_equal. unfold jobs_of. tables. apply select_delete.
  intros x Hx Hj%job_of_output_true. rewrite Hj. apply exists_where_false. intros o Ho.
  assert (Hr : r ∈ select_where (fun r => bool_decide (lo_key r = k)) (k_outputs d)) by (destruct (select_where _ _); [done|injection Eh as ->; left]).
  apply elem_of_select_where in Hr as [Hr E%bool_decide_eq_true]. unfold output_is, output_of_template.
  destruct (String.eqb_spec (lo_id o) (lo_id r)) as [Ei|]; [|done]. rewrite (key_unique lo_id (k_outputs d) o r) by (done || apply Hl).
  apply String.eqb_neq. intros Er. apply Hk. by rewrite <- E.
Qed.

(** A deletion by the owner removes the template with everything it
    generated: its briefs whoever owns the event, their queued jobs, and its live
    prompts with their jobs; summaries keep their text and only forget the
    template.  Other templates, briefs, prompts of others' streams and all other
    tables stay.  Anyone else's deletion is refused as for a template that does
    not exist. *)
Theorem delete_template_exact dbnow now owner id d : templates_ok d ->
  if exists_where (owned_template owner id) (k_templates d)
  then forall u d', delete dbnow now owner id d = Ok (u, d') ->
    k_templates d' = delete_where (template_is id) (k_templates d) /\
    k_briefs d' = delete_where (brief_of_template id) (k_briefs d) /\
    (forall x, x ∈ k_jobs d -> queued_for (brief_of_template id) d x \/
       (exists o, o ∈ k_outputs d /\ lo_template o = id /\ r_live_output_id x = Some (lo_id o)) -> r_id x ∉ map r_id (k_jobs d')) /\
    (forall o, o ∈ k_outputs d' -> lo_template o <> id) /\
    (forall k, k.1.2 <> id -> (forall st, st ∈ activeLiveStreamsForOwnerTx owner d -> (st_NoteID st, st_StreamID st) <> (k.1.1, k.2)) ->
       prompt d' k = prompt d k) /\
    k_summaries d' = map (su_forget id) (k_summaries d) /\ untouched d' = untouched d
  else delete dbnow now owner id d = Err ErrNotFound.
Proof.
  intros Hd. destruct (exists_where _ _) eqn:Ex.
  - intros u d' H. apply delete_ok in H as (_ & Hd1 & H); [|done]. set (d0 := without_briefs (of_template id) d) in *.
    assert (Hd0 : templates_ok d0) by by apply templates_ok_without.
    pose proof (reconcile_owner_ok _ _ _ _ _ _ Hd1 H) as (Hd' & Hro & Hpo). apply readonly_untouched in Hro as (Hu & Et & Es & Eb).
    apply reconcile_owner_prompts in H as (_ & Hoth & Hnone); [|apply Hd1].
    assert (Hu1 : untouched (delete_template id d0) = untouched d) by (unfold delete_template, d0, without_briefs, untouched; by tables).
    rewrite (streams_untouched owner d _ Hu1) in Hoth.
    split; [rewrite Et; unfold delete_template, d0, without_briefs; by tables|]. split.
    { rewrite Eb. unfold delete_template, d0, without_briefs. tables. rewrite delete_where_delete. apply delete_where_ext.
      intros b _. unfold brief_of_template, of_template. apply orb_diag. }
    split; [|split; [|split; [|split; [|congruence]]]].
    + intros x Hx Hc. apply (job_gone d (delete_template id d0)); [done| | |done|done|]; unfold delete_template, d0, without_briefs; tables.
      * lia.
      * by intros y [[Hy _]%elem_of_delete_where _]%elem_of_delete_where.
      * intros [[_ Hn]%elem_of_delete_where Hn']%elem_of_delete_where. destruct Hc as [Hq|(o & Ho & Hot & Hoj)].
        -- unfold queued_for, brief_of_template, of_template in *. congruence.
        -- rewrite Hoj in Hn'. rewrite exists_where_false in Hn'. specialize (Hn' o Ho). unfold output_is, output_of_template in Hn'.
           by rewrite Hot, !String.eqb_refl in Hn'.
    + intros o Ho Eo. assert (Hp : prompt d' (lo_key o) = None).
      { apply Hnone.
        - cbn. rewrite Eo. destruct (eligible owner id _) eqn:He; [|done]. apply eligible_template in He as (r & Hr & Hri & _).
          unfold delete_template in Hr. tables. apply elem_of_delete_where in Hr as [_ Hr].
          unfold template_is in Hr. by rewrite Hri, String.eqb_refl in Hr.
        - apply prompt_none. unfold delete_template. tables. intros r [_ Hr]%elem_of_delete_where Ek. unfold lo_key in Ek. injection Ek as _ Ek _.
          unfold output_of_template in Hr. by rewrite Ek, Eo, String.eqb_refl in Hr. }
      rewrite prompt_none in Hp. by apply (Hp o).
    + intros k Hk Hst. rewrite Hoth by done. transitivity (prompt d0 k); [|by apply prompt_without_briefs].
      by apply prompt_delete_template.
    + rewrite Es. unfold delete_template, d0, without_briefs. by tables.
  - unfold DeleteTemplate, tx_bind at 1, tx_read. rewrite select_none; [done|]. by apply exists_where_false.
Qed.

End Writing.
