(* ===== verification/BriefDemo.v ===== *)
(** Concrete tables for the briefs and the calendar, and the witnesses of
    their properties. *)

From stdpp Require Import base list strings sets gmap relations.
From Stdlib Require Import ZArith Lia SpecFloat.
From S2P Require Import GoInt GoStrings Sql Paging Transactions Jobs JobsProps Folders Execution Notes Transcripts Templates.
From S2P Require Import Summaries AgentTables TablesProps Live LiveProps LiveRuns Calendar Briefs BriefsProps BriefRuns BriefCleanup.
From S2P Require Import TemplateWrites TemplateWritesProps.
From S2P Require Import Plugins Calendar.
From S2P Require Import Calls CalendarSync CalendarSyncProps.

Local Open Scope string_scope.
Local Open Scope list_scope.

Module BriefDemo.

(** Fresh ids: tallies. *)
Fixpoint tally (n : nat) : string := match n with O => "" | S n => ("i" ++ tally n)%string end.
Definition demo_uuid (n : nat) : string := ("u" ++ tally n)%string.

#[export] Instance demo_uuid_inj : Inj (=) (=) demo_uuid.
Proof. intros n. induction n as [|n IH]; intros [|m] H; try done. f_equal. apply IH. unfold demo_uuid in *. cbn in H. by injection H as ->. Qed.

Definition demo_marshal (pl : prebriefPayload) : string :=
  (pb_BriefID pl ++ "/" ++ pb_TemplateID pl ++ "/" ++ Itoa (pb_Generation pl))%string.
Definition demo_unmarshal (s : string) : option prebriefPayload :=
  if (s =? "u/t1/2")%string then Some {| pb_BriefID := "u"; pb_TemplateID := "t1"; pb_Generation := 2 |} else None.

Definition pre_template : template_row :=
  mkTemplate "t1" (Some "ann") "Prep" templatePhasePre [{| Heading := "Who"; Instruction := "List them." |}] true None None None.
Definition demo_source : CalendarSource := mkSource "src" "ann" "ics" "Work" "sealed" ∅ "ok" None 0.
Definition review : CalendarEvent := mkCalendarEvent "e1" "ann" "src" "x1" "Review" 100 200 "" "" "" [] 0.
Definition planned : adb := mkAdb [pre_template] [] [] [] [] [] [] [demo_source] [review] [] 0 [].

(** The input of the pair changes twice. *)
Definition reconcile_at (now : Z) (hash : string) (d : adb) : adb :=
  (ReconcileEventBriefPair demo_uuid demo_marshal quiet now "e1" "t1" "Prep" (Some hash) d).2.
Definition first_brief : adb := reconcile_at 1 "h1" planned.
Definition second_brief : adb := reconcile_at 2 "h2" first_brief.
Definition current : EventBrief := mkBrief "u" "e1" "t1" "Prep" (Some "h2") 2 BriefPending "" "" [] 1 2.
Definition first_job : string := "ui".
Definition second_job : string := "uii".

Example two_generations :
  k_briefs second_brief = [current] /\
  map (fun r => (r_id r, r_brief_generation r, r_payload r)) (k_jobs second_brief) =
    [(first_job, Some 1%Z, "u/t1/1"); (second_job, Some 2%Z, "u/t1/2")].
Proof. split; reflexivity. Qed.

Example second_queued_only : (ReconcileEventBriefPair demo_uuid demo_marshal quiet 3 "e1" "t1" "Prep" (Some "h2") second_brief).1 = Ok false.
Proof. reflexivity. Qed.

Lemma planned_ok : briefs_ok demo_uuid planned.
Proof.
  split; cbn; try (by intros ? ?%elem_of_nil); try (by intros ? ? ? ?%elem_of_nil); try (by intros ? ? ?%elem_of_nil).
  - apply NoDup_singleton.
  - constructor.
  - constructor.
  - split; [constructor|]. split; [constructor|done].
Qed.

Lemma stepped now hash d : briefs_ok demo_uuid d -> briefs_ok demo_uuid (reconcile_at now hash d).
Proof.
  intros Hd. unfold reconcile_at. destruct (ReconcileEventBriefPair _ _ _ _ _ _ _ _ d) as [r d'] eqn:E.
  by apply (reconcile_quiet_inv demo_uuid demo_marshal now ("e1", "t1") "Prep" (Some hash) d r d' Hd) in E as [->|(? & _)].
Qed.

Lemma second_ok : briefs_ok demo_uuid second_brief.
Proof. unfold second_brief, first_brief. apply stepped, stepped, planned_ok. Qed.

Abbreviation demo_step := (brief_step demo_uuid demo_marshal demo_unmarshal).

Lemma published_late : demo_step second_brief (PublishEventBrief 5 "u" 2 "agent" "m" [] second_brief).2.
Proof. apply bs_publish. Qed.
Definition published : adb := (PublishEventBrief 5 "u" 2 "agent" "m" [] second_brief).2.

Lemma history_of_demo : rtc demo_step second_brief published.
Proof. eapply rtc_l; [exact published_late|apply rtc_refl]. Qed.

Lemma brief_tables_invariant_witness : briefs_ok demo_uuid second_brief /\ rtc demo_step second_brief published /\ briefs_ok demo_uuid published.
Proof.
  split; [exact second_ok|]. split; [exact history_of_demo|].
  exact (brief_tables_invariant demo_uuid demo_marshal demo_unmarshal second_brief published second_ok history_of_demo).
Defined.

(** The worker of generation 1 finishes after the brief moved on. *)
Lemma stale_generation_fenced_witness :
  (1 < br_Generation current)%Z /\ PublishEventBrief 9 "u" 1 "agent" "m" [] published = (false, published).
Proof.
  split; [reflexivity|].
  assert (Hb : current ∈ k_briefs second_brief) by (destruct two_generations as [-> _]; left).
  exact (proj1 (stale_generation_fenced demo_uuid demo_marshal demo_unmarshal second_brief published current 1 second_ok Hb
    (ltac:(done) : (1 < br_Generation current)%Z) history_of_demo) 9%Z "agent" "m" []).
Defined.

Lemma reconcile_pair_exact_witness :
  exists d', ReconcileEventBriefPair demo_uuid demo_marshal quiet 1 "e1" "t1" "Prep" (Some "h1") planned = (Ok true, d') /\
    reconciled demo_uuid demo_marshal 1 "Prep" (Some "h1") ("e1", "t1") planned d'.
Proof.
  assert (He : ("e1", "t1").1 ∈ map ce_ID (k_events planned)) by left.
  destruct (reconcile_pair_exact demo_uuid demo_marshal 1 ("e1", "t1") "Prep" (Some "h1") planned planned_ok He eq_refl) as (d' & E & Hr & _).
  exists d'. split; [exact E|exact Hr].
Defined.

(** The first run fails for good; an administrator retries it. *)
Definition failed_run : adb :=
  put_jobs (update_where (Jobs.has_id second_job) (Jobs.set_status JobFailed None (Some 6%Z) 6) (k_jobs second_brief)) second_brief.
Definition retried : result store_error (string * adb) :=
  RetryPreBriefJob demo_uuid demo_marshal demo_unmarshal 7 7 second_job failed_run.

Lemma failed_ok : briefs_ok demo_uuid failed_run.
Proof.
  pose proof second_ok as []. split; unfold failed_run; tables; try done.
  - apply update_inv; [|done|done]. intros r _ _ Hr. apply row_inv_status; [done|by apply (bool_decide_unpack _); vm_compute|done|done].
  - intros x (y & Hy & ->)%elem_of_update_where b Hb Ei. assert (Hx : r_brief_id y = Some (br_ID b)) by by destruct (Jobs.has_id second_job y).
    destruct (bo_bound y Hy b Hb Hx) as [? ?]. by destruct (Jobs.has_id second_job y).
  - intros n x Hn (y & Hy & ->)%elem_of_update_where. destruct (bo_fresh_job n y Hn Hy). by destruct (Jobs.has_id second_job y).
Qed.

Lemma retry_exact_witness : exists i d', retried = Ok (i, d') /\ i = "uiii" /\ brief_frame d' = brief_frame failed_run.
Proof.
  assert (E : exists d', retried = Ok ("uiii", d')) by (vm_compute; by eexists). destruct E as (d' & E). exists "uiii", d'.
  split; [exact E|]. split; [reflexivity|].
  destruct (retry_exact demo_uuid demo_marshal demo_unmarshal 7 7 second_job failed_run "uiii" d' failed_ok E) as (b & _ & _ & _ & _ & HF).
  exact HF.
Defined.

Lemma cleanup_template_exact_witness :
  cleanupBriefsForTemplateAllOwners String.ltb "t1" second_brief = Ok (1%nat, without_briefs (of_template "t1") second_brief).
Proof. exact (cleanup_template_exact demo_uuid String.ltb "t1" second_brief second_ok). Defined.

(** *** Syncing *)

Definition fetched_review : NormalizedEvent := {|
  ne_ExternalID := "x1"; ne_Title := "Review (moved)"; ne_StartsAt := 300; ne_EndsAt := 400; ne_Description := ""; ne_Location := "";
  ne_ConferencingURL := ""; ne_Attendees := [] |}.
Definition demo_fetch (answers : bool) : string -> string -> gmap string bool -> Z -> Z -> result fetch_error (list NormalizedEvent) :=
  fun _ _ _ _ _ => if answers then Ok [fetched_review] else Err (HTTPError 401).
Definition demo_hash (ev : CalendarEvent) (tmpl : Template) (agent : preBriefAgentIdentity) : string := ce_Title ev.
Definition no_agent : nat -> result store_error Plugin := fun _ => Err ErrNotFound.
Definition no_config : string -> nonSecretPluginConfig := fun _ => {| ns_Model := ""; ns_Temperature := None |}.
Definition demo_lower (s : string) : string := s.

Lemma planned_events_ok : events_ok demo_uuid planned.
Proof.
  split; cbn; [apply NoDup_singleton|apply NoDup_singleton|]. intros n _ H%list_elem_of_singleton. discriminate H.
Qed.

Lemma sync_events_exact_witness :
  exists d1, UpsertEvents demo_uuid 5 "ann" "src" [fetched_review] planned = Ok (tt, d1) /\ events_ok demo_uuid (PruneEvents "src" ["x1"] d1).
Proof.
  assert (Hb : forall b, b ∈ k_briefs planned -> br_EventID b ∈ map ce_ID (k_events planned)) by by intros b ?%elem_of_nil.
  assert (Hn : forall r id, r ∈ k_notes planned -> row_event r = Some id -> id ∈ map ce_ID (k_events planned)) by by intros r id ?%elem_of_nil.
  destruct (sync_events_exact demo_uuid 5 "ann" "src" [fetched_review] planned planned_events_ok eq_refl Hb Hn) as (d1 & E & Hok & _).
  exists d1. split; [exact E|exact Hok].
Defined.

Lemma planned_templates : NoDup (map tp_id (k_templates planned)).
Proof. apply NoDup_singleton. Qed.

Lemma sync_source_complete_witness : exists n' d1 d',
  UpsertEvents demo_uuid 5 "ann" "src" [fetched_review] planned = Ok (tt, d1) /\
  SyncSource quiet (fun _ => false) (fun _ => quiet) demo_lower String.ltb String.ltb demo_uuid demo_marshal demo_hash no_agent no_config
    (fun c => Some c) (fun _ _ => true) (demo_fetch true) 9 5 "src" (0%nat, planned) = (Ok tt, (n', with_source_status 5 "src" "ok" d')).
Proof.
  assert (Hlen : (length (k_events planned) + length [fetched_review] < 9)%nat) by (cbn; lia).
  destruct (sync_source_complete demo_uuid demo_lower String.ltb String.ltb demo_marshal demo_hash no_agent no_config
    (fun c => Some c) (fun _ _ => true) (demo_fetch true) 9 5 "src" demo_source [fetched_review] 0 planned
    planned_ok planned_events_ok planned_templates eq_refl eq_refl Hlen) as (n' & d1 & d' & Hu & Hs & _).
  exists n', d1, d'. split; [exact Hu|exact Hs].
Defined.

Lemma sync_failure_isolated_witness : exists n',
  SyncSource quiet (fun _ => false) (fun _ => quiet) demo_lower String.ltb String.ltb demo_uuid demo_marshal demo_hash no_agent no_config
    (fun c => Some c) (fun _ _ => true) (demo_fetch false) 9 5 "src" (0%nat, planned) =
  (Err DbError, (n', with_source_status 5 "src" "auth_error" planned)).
Proof.
  assert (Hno : forall evs, answer_of (fun c => Some c) (fun _ _ => true) (demo_fetch false) 5 demo_source <> Some (Ok evs)) by (intros evs H; vm_compute in H; discriminate H).
  exact (sync_failure_isolated demo_uuid demo_lower String.ltb String.ltb demo_marshal demo_hash no_agent no_config
    (fun c => Some c) (fun _ _ => true) (demo_fetch false) 9 5 "src" demo_source 0 planned eq_refl Hno).
Defined.

(** *** The hash *)

Definition person (name : string) : Attendee := {| at_Name := name; at_Email := "team@x.org"; Response := "accepted" |}.
Definition demo_template : Template := scan_template true pre_template.
Definition demo_agent : preBriefAgentIdentity := {| ag_ID := "p1"; ag_Name := "agent"; ag_Model := "m"; ag_Temperature := None |}.
Definition demo_input (i : preBriefHashInput) : string := String.concat "," (map ha_Name (he_Attendees (hi_Event i))).

Lemma hash_ignores_order_witness :
  computePreBriefHash insertion_sort (fun _ => "") demo_input (fun s => s) (meeting [person "Bo"; person "Al"]) demo_template demo_agent =
  computePreBriefHash insertion_sort (fun _ => "") demo_input (fun s => s) (meeting [person "Al"; person "Bo"]) demo_template demo_agent.
Proof.
  assert (Hp : Attendees (meeting [person "Bo"; person "Al"]) ≡ₚ Attendees (meeting [person "Al"; person "Bo"])) by apply perm_swap.
  assert (Hn : NoDup (map (fun a => (at_Email a, at_Name a)) (Attendees (meeting [person "Bo"; person "Al"])))).
  { apply (bool_decide_unpack _). vm_compute. exact I. }
  assert (Ht : same_text (meeting [person "Bo"; person "Al"]) (meeting [person "Al"; person "Bo"])) by by repeat split.
  exact (hash_ignores_order insertion_sort insertion_sort (fun _ => "") demo_input (fun s => s) _ _ demo_template demo_agent
    insertion_sorts insertion_sorts Ht Hp Hn).
Defined.

End BriefDemo.

(** Concrete tables for changing templates, the witnesses of the properties
    of [TemplateWritesProps], and a race they leave open. *)

Module TemplateDemo.
Import BriefDemo.

(** Ann records a note, and one of her templates generates briefs. *)
Definition desk : adb := mkAdb [pre_template] [] [LiveDemo.demo_note] [LiveDemo.demo_transcript] [LiveDemo.demo_segment "g1" 0] []
  (k_jobs second_brief) [demo_source] [review] (k_briefs second_brief) 3 [].

Definition form (name phase : string) (auto : bool) : template_form := {|
  tf_name := name; tf_phase := phase; tf_sections := [{| Heading := "Open"; Instruction := "List open points." |}];
  tf_autoRun := auto; tf_systemPrompt := ""; tf_model := ""; tf_temperature := None |}.

Abbreviation create := (CreateTemplate demo_lower String.ltb String.ltb demo_uuid).
Abbreviation update := (UpdateTemplate_on demo_lower String.ltb String.ltb demo_uuid).
Abbreviation delete := (DeleteTemplate demo_lower String.ltb String.ltb demo_uuid).

Lemma tally_named n : demo_uuid n <> "".
Proof. by destruct n. Qed.

Lemma desk_ok : templates_ok demo_uuid desk.
Proof.
  assert (Hj : jobs_inv (k_jobs desk)) by apply (bo_jobs demo_uuid second_brief second_ok).
  assert (Hno : forall x, x ∈ k_jobs desk -> r_live_output_id x = None).
  { intros x Hx. vm_compute in Hx. apply elem_of_cons in Hx as [->|[->|Hx]%elem_of_cons]; [done..|by apply elem_of_nil in Hx]. }
  split.
  - split; [|apply NoDup_singleton]. split; cbn; try constructor; try done; try apply Hj.
    + intros x o Hx Ho. by rewrite Hno in Ho.
    + apply Forall_forall. intros x Hx o v ?%elem_of_nil. done.
  - by destruct second_ok.
  - intros owner. etransitivity; [apply List.filter_length_le|]. cbn. unfold MaxLiveTemplates. lia.
  - intros x Hx H. by rewrite Hno in H.
Qed.

(** A live template is created while the recording runs: its prompt appears. *)
Definition live : adb := LiveDemo.state_after (create 1 1 "ann" (form "Open points" "during" true)) desk.
Definition live_id : string := demo_uuid 3.

Example a_prompt_appears :
  create 1 1 "ann" (form "Open points" "during" true) desk = Ok (form_template live_id (form "Open points" "during" true), live) /\
  map lo_template (k_outputs live) = [live_id].
Proof. split; vm_compute; reflexivity. Qed.

(** The template of the briefs becomes one for summaries. *)
Definition repurposed : adb := LiveDemo.state_after (update live 2 2 "ann" "t1" (form "Prep" "after" true)) live.
Definition deleted : adb := LiveDemo.state_after (delete 3 3 "ann" live_id) repurposed.

Lemma to_live : template_step demo_lower String.ltb String.ltb demo_uuid desk live.
Proof. eapply ts_create. exact (proj1 a_prompt_appears). Qed.

Lemma repurposes : update live 2 2 "ann" "t1" (form "Prep" "after" true) live = Ok (tt, repurposed).
Proof. vm_compute. reflexivity. Qed.

Lemma deletes : delete 3 3 "ann" live_id repurposed = Ok (tt, deleted).
Proof. vm_compute. reflexivity. Qed.

Lemma template_history : rtc (template_step demo_lower String.ltb String.ltb demo_uuid) desk deleted.
Proof.
  eapply rtc_l; [exact to_live|]. eapply rtc_l; [eapply ts_update, repurposes|]. eapply rtc_l; [eapply ts_delete, deletes|]. apply rtc_refl.
Qed.

Lemma template_cap_invariant_witness : templates_ok demo_uuid desk /\ rtc (template_step demo_lower String.ltb String.ltb demo_uuid) desk deleted /\
  (EligibleLiveTemplatesTx demo_lower String.ltb String.ltb "ann" (k_templates deleted)).2 = [].
Proof.
  split; [exact desk_ok|]. split; [exact template_history|].
  exact (proj2 (template_cap_invariant demo_lower String.ltb String.ltb demo_uuid tally_named desk deleted desk_ok template_history) "ann").
Defined.

Lemma live_tables_ok : templates_ok demo_uuid live.
Proof. exact (template_step_ok demo_lower String.ltb String.ltb demo_uuid tally_named desk live to_live desk_ok). Qed.

Lemma repurposed_ok : templates_ok demo_uuid repurposed.
Proof.
  assert (Hs : template_step demo_lower String.ltb String.ltb demo_uuid live repurposed) by (eapply ts_update, repurposes).
  exact (template_step_ok demo_lower String.ltb String.ltb demo_uuid tally_named live repurposed Hs live_tables_ok).
Qed.

Lemma update_template_exact_witness :
  length (k_briefs live) = 1%nat /\ update live 2 2 "ann" "t1" (form "Prep" "after" true) live = Ok (tt, repurposed) /\ k_briefs repurposed = [].
Proof.
  split; [reflexivity|]. split; [exact repurposes|].
  assert (He : exists_where (owned_template "ann" "t1") (k_templates live) = true) by (vm_compute; reflexivity).
  pose proof (update_template_exact demo_lower String.ltb String.ltb demo_uuid tally_named live 2 2 "ann" "t1"
    (form "Prep" "after" true) live live_tables_ok) as H.
  rewrite He in H. destruct (H tt repurposed repurposes) as (old & Ho & Hi & _ & Hb & _). rewrite Hb.
  assert (old = pre_template) as ->; [|vm_compute; reflexivity]. clear H Hb He. vm_compute in Ho.
  apply elem_of_cons in Ho as [->|[->|Ho]%elem_of_cons]; [reflexivity|vm_compute in Hi; discriminate Hi|by apply elem_of_nil in Ho].
Defined.

Lemma delete_template_exact_witness :
  length (k_outputs repurposed) = 1%nat /\ delete 3 3 "ann" live_id repurposed = Ok (tt, deleted) /\
  forall o, o ∈ k_outputs deleted -> lo_template o <> live_id.
Proof.
  split; [reflexivity|]. split; [exact deletes|].
  assert (He : exists_where (owned_template "ann" live_id) (k_templates repurposed) = true) by (vm_compute; reflexivity).
  pose proof (delete_template_exact demo_lower String.ltb String.ltb demo_uuid tally_named 3 3 "ann" live_id repurposed repurposed_ok) as H.
  rewrite He in H. destruct (H tt deleted deletes) as (_ & _ & _ & Ho & _). exact Ho.
Defined.

(** *** The race of two renames *)

Definition two_templates : adb := put_templates [pre_template; mkTemplate "t2" (Some "ann") "Other" "after" [] true None None None] planned.

(** Both updates check the name before either commits, and the index that
    would stop the second one does not exist: afterwards both templates have
    the name. *)
Lemma renames_race : exists d1 d2,
  update two_templates 1 1 "ann" "t1" (form "Same" "after" true) two_templates = Ok (tt, d1) /\
  update two_templates 2 2 "ann" "t2" (form "Same" "after" true) d1 = Ok (tt, d2) /\
  map (fun r => (tp_owner r, tp_name r)) (k_templates d2) = [(Some "ann", "Same"); (Some "ann", "Same")].
Proof. eexists. eexists. split; [vm_compute; reflexivity|]. split; vm_compute; reflexivity. Qed.

End TemplateDemo.
