(* ===== verification/GenerateJobs.v ===== *)
(** The workers' jobs for briefs and live prompts:
    [internal/worker/prebrief_job.go], [internal/worker/livegenerate.go], and the
    sweep of [internal/worker/recovery.go].

    A run is a sequence of store calls ([Pass] of [Calls]): [others n] is
    what other sessions commit before the [n]-th call and [fails n] whether that
    call fails; a process that dies is one whose later calls all fail.
    [dbnow n] and [clock n] are the clocks of the database and of the process at
    the [n]-th call.  The agent, JSON, the text of times and of errors, and the
    tables of note bodies and speaker aliases are arguments. *)

From stdpp Require Import base list strings sets gmap.
From Stdlib Require Import ZArith Lia SpecFloat.
From S2P Require Import GoInt GoStrings Sql Transactions Jobs Folders Execution Notes Transcripts Templates Summaries.
From S2P Require Import Plugins Speakers Pipeline AgentTables Live Calendar Briefs Calls CalendarSync.

Local Open Scope string_scope.

Definition LiveErrorAgentUnavailable : string := "agent_unavailable".
Definition LiveErrorProviderFailed : string := "provider_failed".
Definition LiveErrorInvalidOutput : string := "invalid_output".
Definition liveRecoveryPageSize : nat := 200.

(** ** Requests with a source *)

Record CalendarEventSource := {
  src_Title : string; src_StartsAt : string; src_EndsAt : string; src_Description : string; src_Location : string;
  src_ConferencingURL : string; src_Attendees : list Attendee }.

Inductive GenerateSource :=
| SourceCalendarEvent (event : CalendarEventSource)
| SourceTranscript (streamID : string) (targetRevision : Z).

(** [plugin.GenerateRequest] with its [Source]. *)
Record SourcedRequest := { sr_Request : GenerateRequest; sr_Source : GenerateSource }.

Definition buildCalendarEventSource (rfc3339 : Z -> string) (ev : CalendarEvent) : GenerateSource :=
  SourceCalendarEvent {|
    src_Title := ce_Title ev; src_StartsAt := rfc3339 (AgentTables.StartsAt ev); src_EndsAt := rfc3339 (EndsAt ev);
    src_Description := Description ev; src_Location := Location ev; src_ConferencingURL := ConferencingURL ev;
    src_Attendees := Attendees ev |}.

(** [applyTemplateOverrides] of the package [worker]: on a request whose fields
    are still unset an unset override leaves them so. *)
Definition templateRequest (transcript : list Segment) (notes : string) (plug : Plugin) (tmpl : Template) : GenerateRequest := {|
  Execution.Transcript := transcript; req_NotesMarkdown := notes; req_Sections := tm_Sections tmpl;
  req_Config := plugin_Config plug; req_SystemPrompt := tm_SystemPrompt tmpl; req_Model := tm_Model tmpl;
  req_Temperature := tm_Temperature tmpl; req_Documents := [] |}.

Definition classifyLiveError (e : run_error) : string :=
  match e with
  | ErrPluginNotConfigured => LiveErrorAgentUnavailable
  | PluginFailed ResponseError => LiveErrorInvalidOutput
  | _ => LiveErrorProviderFailed
  end.

Section Workers.
Variable others : nat -> adb -> adb.
Variable fails : nat -> bool.
Variable dbnow clock : nat -> Z.
Variable lower : string -> string.
Variable name_lt id_lt : string -> string -> bool.
Variable uuid : nat -> string.
Variable unmarshal : string -> option prebriefPayload.
Variable rfc3339 : Z -> string.
Variable error_text : run_error -> string.
Variable default_agent : nat -> result store_error Plugin.
Variable Generate : Plugin -> SourcedRequest -> result plugin_error GenerateResponse.
Variable bodies : nat -> list note_body.
Variable aliases : nat -> list alias_row.

Local Abbreviation call := (store_call others fails).

(** What a run does with the answer of a call. *)
Definition tried {A B} (m : Pass adb A) (k : result store_error A -> Pass adb B) : Pass adb B := fun s => let '(r, s') := m s in k r s'.

(** [if err != nil { return retryable, err }] *)
Definition or_retry {A} (retryable : bool) (m : Pass adb A) (k : A -> Pass adb outcome) : Pass adb outcome :=
  tried m (fun r => match r with Ok a => k a | Err e => pass_ret (retryable, Some (StoreFailed e)) end).

Definition done_run : Pass adb outcome := pass_ret (false, None).
Definition fail_run (retryable : bool) (e : run_error) : Pass adb outcome := pass_ret (retryable, Some e).

(** A call at the clocks of its turn. *)
Definition at_turn {A} (f : Z -> Z -> adb -> result store_error A * adb) : Pass adb A := call (fun n => f (dbnow n) (clock n)).

Definition resolve_agent (k : Plugin -> Pass adb outcome) : Pass adb outcome :=
  tried (call (fun n d => (default_agent n, d))) (fun r =>
  match r with
  | Ok plug => k plug
  | Err ErrNotFound => fail_run false ErrPluginNotConfigured
  | Err e => fail_run false (StoreFailed e)
  end).

(** ** [runPreGenerate] *)

Definition cleanupIneligiblePreBrief (briefID : string) (generation : Z) : Pass adb outcome :=
  or_retry true (call (runs_tx (CleanupIneligibleEventBriefIfCurrent briefID generation))) (fun _ => done_run).

(** From the call of the agent on. *)
Definition generate_brief (pl : prebriefPayload) (event : CalendarEvent) (tmpl : Template) : Pass adb outcome :=
  resolve_agent (fun plug =>
  match Generate plug {| sr_Request := templateRequest [] "" plug tmpl; sr_Source := buildCalendarEventSource rfc3339 event |} with
  | Err e => fail_run (isRetryable e) (PluginFailed e)
  | Ok resp =>
      or_retry true (at_turn (fun dbnow _ d =>
        let '(b, d') := PublishEventBrief dbnow (pb_BriefID pl) (pb_Generation pl) (plugin_Name plug) (resp_Model resp) (resp_Sections resp) d in
        (Ok b, d'))) (fun _ => done_run)
  end).

(** From the load of the template on. *)
Definition check_template (pl : prebriefPayload) (event : CalendarEvent) (brief : EventBrief) : Pass adb outcome :=
  tried (call (asks (fun d => GetTemplate (ce_OwnerID event) (pb_TemplateID pl) (k_templates d)))) (fun r =>
  match r with
  | Err e => fail_run true (StoreFailed e)
  | Ok (Err ErrNotFound) => cleanupIneligiblePreBrief (pb_BriefID pl) (pb_Generation pl)
  | Ok (Err e) => fail_run true (StoreFailed e)
  | Ok (Ok tmpl) =>
      if negb (tm_Phase tmpl =? templatePhasePre)%string || negb (AutoRun tmpl)
      then cleanupIneligiblePreBrief (pb_BriefID pl) (pb_Generation pl)
      else if negb (br_Generation brief =? pb_Generation pl)%Z then done_run
      else generate_brief pl event tmpl
  end).

Definition run_payload (job : Job) (pl : prebriefPayload) : Pass adb outcome :=
  tried (call (asks (getCalendarEventByIDTx (CalendarEventID job)))) (fun r =>
  match r with
  | Err e => fail_run true (StoreFailed e)
  | Ok (Err ErrNotFound) => done_run
  | Ok (Err e) => fail_run true (StoreFailed e)
  | Ok (Ok event) =>
      or_retry true (call (asks (GetEventBriefByID (pb_BriefID pl)))) (fun found =>
      match found with
      | None => done_run
      | Some brief =>
          if negb (br_EventID brief =? CalendarEventID job)%string || negb (br_TemplateID brief =? pb_TemplateID pl)%string
          then done_run
          else fun s =>
            (* [preJobClock()]: read between two calls *)
            (if negb (clock s.1 <? AgentTables.StartsAt event)%Z
             then cleanupIneligiblePreBrief (pb_BriefID pl) (pb_Generation pl)
             else check_template pl event brief) s
      end)
  end).

Definition runPreGenerate (job : Job) : Pass adb outcome :=
  match TargetKind job with
  | Some JobTargetCalendarEvent =>
      match unmarshal (Jobs.Payload job) with
      | None => fail_run false InvalidPayload
      | Some pl =>
          if negb (well_formed pl) then fail_run false InvalidPayload
          else if negb (Jobs.BriefID job =? pb_BriefID pl)%string || negb (BriefGeneration job =? pb_Generation pl)%Z
          then fail_run false InvalidPayload
          else run_payload job pl
      end
  | _ => fail_run false InvalidPayload
  end.

(** A method whose errors are logged. *)
Definition logged {A} (m : Pass adb A) (k : A -> Pass adb unit) : Pass adb unit :=
  tried m (fun r => match r with Ok a => k a | Err _ => pass_ret tt end).

Definition handlePreGenerateTerminalFailure (job : Job) : Pass adb unit :=
  match unmarshal (Jobs.Payload job) with
  | None => pass_ret tt
  | Some pl =>
      if (pb_BriefID pl =? "")%string || (pb_Generation pl <=? 0)%Z then pass_ret tt
      else
        logged (call (asks (GetEventBriefByID (pb_BriefID pl)))) (fun found =>
        match found with
        | None => pass_ret tt
        | Some brief =>
            if negb (br_EventID brief =? CalendarEventID job)%string ||
               (negb (pb_TemplateID pl =? "")%string && negb (br_TemplateID brief =? pb_TemplateID pl)%string)
            then pass_ret tt
            else logged (at_turn (fun dbnow _ d =>
                   let '(b, d') := FailEventBriefIfCurrent dbnow (pb_BriefID pl) (pb_Generation pl) d in (Ok b, d')))
                   (fun _ => pass_ret tt)
        end)
  end.

(** ** [runLiveGenerate] *)

Definition live_request (claim : LiveClaimResult) (plug : Plugin) (tmpl : Template) (segments : list Segment) (body : string)
    (aliasMap : gmap string string) : SourcedRequest :=
  let '(aliasedSegments, notesMarkdown) := applySpeakerAliases segments body aliasMap in
  {| sr_Request := templateRequest aliasedSegments notesMarkdown plug tmpl;
     sr_Source := SourceTranscript (out_StreamID (claim_Output claim)) (claim_Target claim) |}.

(** From the load of the template on. *)
Definition run_claim (job : Job) (claim : LiveClaimResult) : Pass adb outcome :=
  let out := claim_Output claim in
  tried (call (asks (fun d => GetTemplate (out_OwnerID out) (out_TemplateID out) (k_templates d)))) (fun r =>
  match r with
  | Err e => fail_run true (StoreFailed e)
  | Ok (Err ErrNotFound) => done_run
  | Ok (Err e) => fail_run true (StoreFailed e)
  | Ok (Ok tmpl) =>
      resolve_agent (fun plug =>
      or_retry true (call (asks (LiveTranscriptPrefix id_lt (claim_TranscriptID claim) (Z.to_nat (claim_Target claim))))) (fun segments =>
      or_retry true (call (fun n d => (Ok (default "" (nb_content <$> head (select_where (body_of (out_NoteID out)) (bodies n)))), d))) (fun body =>
      or_retry true (call (fun n d => (Ok (SpeakerAliasMap name_lt (out_OwnerID out) (out_NoteID out) (aliases n)), d))) (fun aliasMap =>
      match Generate plug (live_request claim plug tmpl segments body aliasMap) with
      | Err e => fail_run (isRetryable e) (PluginFailed e)
      | Ok resp =>
          or_retry true (at_turn (fun dbnow now => transact
            (CompleteLiveGenerateSuccessTx lower name_lt id_lt uuid dbnow now (Jobs.ID job) (claim_Target claim) (plugin_Name plug)
               (resp_Model resp) (resp_Sections resp)))) (fun _ => done_run)
      end))))
  end).

Definition runLiveGenerate (job : Job) : Pass adb outcome :=
  if (Jobs.TemplateID job =? "")%string || (Jobs.StreamID job =? "")%string || (LiveOutputID job =? "")%string
  then fail_run false InvalidPayload
  else
    or_retry true (at_turn (fun dbnow now => transact (ClaimLiveGenerateJobTx lower name_lt id_lt dbnow now job))) (fun claim =>
    match claim with
    | None => done_run
    | Some claim => run_claim job claim
    end).

(** The pipeline calls it with an error in hand. *)
Definition handleLiveGenerateTerminalFailure (job : Job) (terminalErr : run_error) : Pass adb unit :=
  if (LiveOutputID job =? "")%string then pass_ret tt
  else logged (at_turn (fun dbnow now => transact
         (CompleteLiveGenerateFailureTx lower name_lt id_lt uuid dbnow now (Jobs.ID job) (classifyLiveError terminalErr)))) (fun _ => pass_ret tt).

(** ** [Process], for these two types of jobs *)

Definition on_jobs {A} (f : jobs -> result store_error A * jobs) (d : adb) : result store_error A * adb :=
  let '(r, t) := f (k_jobs d) in (r, put_jobs t d).

Definition adb_notes (d : adb) : tables := note_tables no_tables (mkTdb (k_notes d) (k_transcripts d) (k_segments d) []).

Definition settle_generate (job : Job) (o : outcome) (terminal_failure : run_error -> Pass adb unit) : Pass adb unit :=
  match o with
  | (retryable, Some err) =>
      logged (at_turn (fun dbnow now => on_jobs (FailJob dbnow now (Jobs.ID job) (error_text err) retryable))) (fun _ =>
      let terminal := negb retryable || (MaxJobAttempts <=? Attempts job)%Z in
      if negb terminal then pass_ret tt else terminal_failure err)
  | (_, None) => logged (at_turn (fun dbnow _ => on_jobs (CompleteJob dbnow (Jobs.ID job)))) (fun _ => pass_ret tt)
  end.

Definition ProcessGenerate (job : Job) : Pass adb unit :=
  let complete := logged (at_turn (fun dbnow _ => on_jobs (CompleteJob dbnow (Jobs.ID job)))) (fun _ => pass_ret tt) in
  let work :=
    if (Type_ job =? JobPreGenerate)%string
    then tried (runPreGenerate job) (fun r =>
           match r with Ok o => settle_generate job o (fun _ => handlePreGenerateTerminalFailure job) | Err _ => pass_ret tt end)
    else tried (runLiveGenerate job) (fun r =>
           match r with Ok o => settle_generate job o (handleLiveGenerateTerminalFailure job) | Err _ => pass_ret tt end) in
  if negb (Jobs.NoteID job =? "")%string
  then tried (call (asks (fun d => NoteIsTrashed (Jobs.NoteID job) (adb_notes d)))) (fun r =>
         match r with Ok true => complete | _ => work end)
  else work.

(** ** The recovery sweep *)

(** One tick of [RunLiveRecoverySweep]; [fuel] bounds the pages, [locked n] are
    the rows other transactions hold at the [n]-th call. *)
Variable locked : nat -> output_row -> bool.

Fixpoint live_recovery_sweep (fuel : nat) : Pass adb unit :=
  match fuel with
  | O => pass_fail DbError
  | S fuel =>
      tried (call (fun n => transact (RecoverLiveTemplateOutputs id_lt (dbnow n) (clock n) (Z.of_nat liveRecoveryPageSize) (locked n)))) (fun r =>
      match r with
      | Err _ => pass_ret tt
      | Ok (_, removed) => if (removed <? liveRecoveryPageSize)%nat then pass_ret tt else live_recovery_sweep fuel
      end)
  end.

(** [recoverStartupJobs], and one tick of [runStaleSweep]: both log errors. *)
Definition recoverStartupJobs : Pass adb unit :=
  logged (at_turn (fun dbnow _ => on_jobs (fun t => let '(n, t') := ResetExpiredRunningJobs dbnow t in (Ok n, t')))) (fun _ => pass_ret tt).

Definition stale_sweep_tick : Pass adb unit := recoverStartupJobs.

End Workers.
