(* ===== verification/GenerateJobsProps.v ===== *)
(** What holds of the workers' jobs of [GenerateJobs]: whatever other sessions
    commit between their calls and whichever calls fail, a run for a brief
    touches only the brief it was leased for; what a run publishes; when the
    recovery sweep ends; and what an agent is shown of a growing transcript. *)

From stdpp Require Import base list strings sets gmap relations.
From Stdlib Require Import ZArith Lia SpecFloat.
From S2P Require Import GoInt GoStrings Sql Paging Transactions Jobs JobsProps Folders Execution Notes Transcripts Templates.
From S2P Require Import Summaries Plugins Speakers Pipeline AgentTables TablesProps Live LiveProps Calendar Briefs BriefsProps BriefRuns.
From S2P Require Import Calls CalendarSync GenerateJobs.

Local Open Scope string_scope.
Local Open Scope list_scope.

(** ** Runs between other sessions *)

(** From state to state, the others commit and then the run's own call does
    [R]. *)
Inductive interleaved (others : nat -> adb -> adb) (R : adb -> adb -> Prop) : nat * adb -> nat * adb -> Prop :=
| il_refl s : interleaved others R s s
| il_call n d d' s : R (others n d) d' -> interleaved others R (S n, d') s -> interleaved others R (n, d) s.

Lemma interleaved_trans others R s1 s2 s3 : interleaved others R s1 s2 -> interleaved others R s2 s3 -> interleaved others R s1 s3.
Proof. induction 1 as [|n d d' s HR _ IH]; [done|]. intros H. eapply il_call; [exact HR|by apply IH]. Qed.

Lemma interleaved_weaken others (R R' : adb -> adb -> Prop) s s' :
  (forall d d', R d d' -> R' d d') -> interleaved others R s s' -> interleaved others R' s s'.
Proof. intros HR. induction 1 as [|n d d' s H _ IH]; [apply il_refl|]. eapply il_call; [by apply HR|done]. Qed.

Section Rules.
Context (others : nat -> adb -> adb) (fails : nat -> bool) (R : adb -> adb -> Prop) (R_refl : forall d, R d d).

(** From tables that satisfy [K] every call of [m] does [R], and it ends with
    [Q]. *)
Definition safe {A} (K : adb -> Prop) (m : Pass adb A) (Q : result store_error A -> adb -> Prop) : Prop := forall n d,
  K d -> interleaved others R (n, d) (m (n, d)).2 /\ Q (m (n, d)).1 (m (n, d)).2.2.

Definition stable (K : adb -> Prop) : Prop := forall n d, K d -> K (others n d).

Lemma safe_ret {A} K (a : A) (Q : result store_error A -> adb -> Prop) : (forall d, K d -> Q (Ok a) d) -> safe K (pass_ret a) Q.
Proof. intros H n d Hd. split; [apply il_refl|by apply H]. Qed.

Lemma safe_call {A} K (f : nat -> adb -> result store_error A * adb) (Q : result store_error A -> adb -> Prop) : stable K ->
  (forall d, K d -> Q (Err DbError) d) ->
  (forall n d, K d -> R d (f n d).2 /\ Q (f n d).1 (f n d).2) -> safe K (store_call others fails f) Q.
Proof.
  intros Hs He Hf n d Hd. apply (Hs n) in Hd. unfold store_call. destruct (fails n); cbn.
  - split; [|by apply He]. eapply il_call; [apply R_refl|apply il_refl].
  - pose proof (Hf n _ Hd) as [HR HQ]. destruct (f n (others n d)) as [r d']. cbn in *. split; [|done].
    eapply il_call; [exact HR|apply il_refl].
Qed.

Lemma safe_tried {A B} K (m : Pass adb A) (k : result store_error A -> Pass adb B) (Q1 : result store_error A -> adb -> Prop)
    (Q : result store_error B -> adb -> Prop) :
  safe K m Q1 -> (forall r, safe (Q1 r) (k r) Q) -> safe K (tried m k) Q.
Proof.
  intros Hm Hk n d Hd. unfold tried. destruct (Hm n d Hd) as [H1 HQ]. destruct (m (n, d)) as [r [n1 d1]]. cbn in *.
  destruct (Hk r n1 d1 HQ) as [H2 HQ2]. split; [by eapply interleaved_trans|done].
Qed.

Lemma safe_weaken {A} (K K' : adb -> Prop) (m : Pass adb A) (Q Q' : result store_error A -> adb -> Prop) :
  (forall d, K d -> K' d) -> (forall r d, Q' r d -> Q r d) -> safe K' m Q' -> safe K m Q.
Proof. intros HK HQ H n d Hd. destruct (H n d (HK d Hd)) as [? ?]. split; [done|by apply HQ]. Qed.

(** A read that leaves a fact behind. *)
Lemma safe_read {A} K (f : adb -> A) (Q : result store_error A -> adb -> Prop) : stable K -> (forall d, K d -> Q (Err DbError) d) ->
  (forall d, K d -> Q (Ok (f d)) d) -> safe K (store_call others fails (asks f)) Q.
Proof. intros Hs He Hq. apply safe_call; [done..|]. intros n d Hd. split; [apply R_refl|by apply Hq]. Qed.
End Rules.

(** ** One brief at a time *)

(** At most the briefs that satisfy [P] are rewritten, keeping id, pair and
    generation, or removed with their queued jobs. *)
Definition confined (P : EventBrief -> Prop) (d d' : adb) : Prop :=
  brief_frame d' = brief_frame d /\ k_drawn d' = k_drawn d /\
  (forall b, b ∈ k_briefs d -> P b \/ b ∈ k_briefs d') /\
  (forall b', b' ∈ k_briefs d' -> b' ∈ k_briefs d \/
     exists b, b ∈ k_briefs d /\ P b /\ br_ID b' = br_ID b /\ br_pair b' = br_pair b /\ br_Generation b' = br_Generation b) /\
  (forall x, x ∈ k_jobs d' -> x ∈ k_jobs d) /\
  (forall x, x ∈ k_jobs d -> x ∈ k_jobs d' \/ exists b, b ∈ k_briefs d /\ P b /\ queued_pre_job [br_ID b] x = true).

Lemma confined_refl P d : confined P d d.
Proof. repeat split; auto. Qed.

Lemma confined_update P id g f d : writes_status f -> (forall b, b ∈ k_briefs d -> current_brief id g b = true -> P b) ->
  confined P d (put_briefs (update_where (current_brief id g) f (k_briefs d)) d).
Proof.
  intros Hf HP. split; [by tables|]. split; [by tables|]. split; [|split; [|split; tables; auto]]; tables.
  - intros b Hb. destruct (current_brief id g b) eqn:E; [left; by apply HP|right]. apply elem_of_update_where. exists b. by rewrite E.
  - intros b' (b & Hb & ->)%elem_of_update_where. destruct (current_brief id g b) eqn:E; [right|by left].
    exists b. split; [done|]. split; [by apply HP|]. destruct (Hf b) as (? & ? & ? & _). done.
Qed.

Lemma confined_cleanup P id g d : (forall b, b ∈ k_briefs d -> current_brief id g b = true -> P b) ->
  confined P d (transact (CleanupIneligibleEventBriefIfCurrent id g) d).2.
Proof.
  intros HP. unfold transact. rewrite CleanupIneligible_eq. destruct (_ =? 0)%nat eqn:E; [apply confined_refl|]. cbn.
  apply Nat.eqb_neq in E. assert (0 < rows_affected (current_brief id g) (k_briefs d))%nat as (b0 & Hb0 & Hc0)%rows_affected_pos by lia.
  split; [by tables|]. split; [by tables|]. split; [|split; [|split]]; tables.
  - intros b Hb. destruct (current_brief id g b) eqn:Ec; [left; by apply HP|right]. by apply elem_of_delete_where.
  - intros b' [Hb' _]%elem_of_delete_where. by left.
  - by intros x [Hx _]%elem_of_delete_where.
  - intros x Hx. destruct (queued_pre_job [id] x) eqn:Eq; [right|left; by apply elem_of_delete_where].
    exists b0. split; [done|]. split; [by apply HP|]. by apply current_brief_true in Hc0 as [-> _].
Qed.

Section Confinement.
Context (uuid : nat -> string) `{Huuid : !Inj (=) (=) uuid}.
Variable marshal : prebriefPayload -> string.
Variable unmarshal : string -> option prebriefPayload.
Variable name_lt id_lt : string -> string -> bool.
Variable others : nat -> adb -> adb.
Variable fails : nat -> bool.
Variable dbnow clock : nat -> Z.
Variable rfc3339 : Z -> string.
Variable default_agent : nat -> result store_error Plugin.
Variable Generate : Plugin -> SourcedRequest -> result plugin_error GenerateResponse.

Abbreviation run := (runPreGenerate others fails dbnow clock unmarshal rfc3339 default_agent Generate).
Abbreviation fail_terminally := (handlePreGenerateTerminalFailure others fails dbnow clock unmarshal).

(** The others: any history of the briefs, and anything elsewhere. *)
Hypothesis others_history : forall n d, briefs_ok uuid d -> rtc (brief_step uuid marshal unmarshal) d (others n d).

(** What a run knows since the tables [e]. *)
Definition since (e d : adb) : Prop := briefs_ok uuid d /\ evolves uuid e d.

Lemma since_stable e : stable others (since e).
Proof.
  intros n d [Hd He]. destruct (history_ok uuid marshal unmarshal d (others n d) Hd (others_history n d Hd)) as [? ?].
  split; [done|]. by etransitivity.
Qed.

Lemma since_step e d d' : since e d -> brief_step uuid marshal unmarshal d d' -> since e d'.
Proof. intros [Hd He] Hs. destruct (brief_step_ok uuid marshal unmarshal d d' Hd Hs) as [? ?]. split; [done|]. by etransitivity. Qed.

Lemma since_current e b id g P d : briefs_ok uuid e -> b ∈ k_briefs e -> br_ID b = id ->
  (forall b', br_pair b' = br_pair b -> br_Generation b' = g -> P b') -> since e d ->
  forall b', b' ∈ k_briefs d -> current_brief id g b' = true -> P b'.
Proof.
  intros He Hb Hi HP [_ Hev] b' Hb' [Ei Eg]%current_brief_true. apply HP; [|done].
  by destruct (evolves_id uuid e d b b') as [-> _]; [..|congruence|].
Qed.

(** The brief of the job's own event and of the payload's template and
    generation. *)
Definition leased_brief (job : Job) (pl : prebriefPayload) (b : EventBrief) : Prop :=
  br_pair b = (CalendarEventID job, pb_TemplateID pl) /\ br_Generation b = pb_Generation pl.

Abbreviation safe_run := (safe others (confined (leased_brief _ _))).

Section Payload.
Context (job : Job) (pl : prebriefPayload).
Abbreviation R := (confined (leased_brief job pl)).

(** The run has seen the brief, and it was the job's. *)
Definition seen_brief (d : adb) : Prop := exists e b, briefs_ok uuid e /\ b ∈ k_briefs e /\ br_ID b = pb_BriefID pl /\
  br_pair b = (CalendarEventID job, pb_TemplateID pl) /\ since e d.

Lemma seen_stable : stable others seen_brief.
Proof. intros n d (e & b & He & Hb & Hi & Hp & Hs). exists e, b. do 4 (split; [done|]). by apply since_stable. Qed.

Lemma seen_current d : seen_brief d -> forall b', b' ∈ k_briefs d -> current_brief (pb_BriefID pl) (pb_Generation pl) b' = true -> leased_brief job pl b'.
Proof.
  intros (e & b & He & Hb & Hi & Hp & Hs). eapply since_current; [done..| |done]. intros b' Hpb Hg. split; [congruence|done].
Qed.

Lemma seen_step d d' : seen_brief d -> brief_step uuid marshal unmarshal d d' -> seen_brief d'.
Proof. intros (e & b & He & Hb & Hi & Hp & Hs) H. exists e, b. do 4 (split; [done|]). by apply (since_step e d d'). Qed.

Definition anything {A} (r : result store_error A) (d : adb) : Prop := True.

Lemma cleanup_safe : safe others R seen_brief (cleanupIneligiblePreBrief others fails (pb_BriefID pl) (pb_Generation pl)) anything.
Proof.
  unfold cleanupIneligiblePreBrief, or_retry. eapply safe_tried with (Q1 := anything).
  - apply safe_call; [apply confined_refl|apply seen_stable|done|]. intros n d Hd. split; [|done].
    apply confined_cleanup. by apply seen_current.
  - intros [[]|e]; by apply safe_ret.
Qed.

Lemma generate_safe event tmpl :
  safe others R seen_brief (generate_brief others fails dbnow clock rfc3339 default_agent Generate pl event tmpl) anything.
Proof.
  unfold generate_brief, resolve_agent. eapply safe_tried with (Q1 := fun _ => seen_brief).
  { apply safe_call; [apply confined_refl|apply seen_stable|done|]. intros n d Hd. by split; [apply confined_refl|]. }
  intros [plug|[]]; try by apply safe_ret. destruct (Generate plug _) as [resp|e]; [|by apply safe_ret].
  unfold or_retry. eapply safe_tried with (Q1 := anything); [|intros [[]|e]; by apply safe_ret].
  apply safe_call; [apply confined_refl|apply seen_stable|done|]. intros n d Hd. split; [|done].
  apply confined_update; [apply writes_sections|by apply seen_current].
Qed.

Lemma check_template_safe event brief :
  safe others R seen_brief (check_template others fails dbnow clock rfc3339 default_agent Generate pl event brief) anything.
Proof.
  unfold check_template. eapply safe_tried with (Q1 := fun _ => seen_brief).
  { apply safe_read; [apply confined_refl|apply seen_stable|done..]. }
  intros [[tmpl|[]]|e]; try (by apply safe_ret); [|apply cleanup_safe].
  destruct (negb (tm_Phase tmpl =? _)%string || _); [apply cleanup_safe|]. destruct (negb _); [by apply safe_ret|apply generate_safe].
Qed.

Lemma run_payload_safe :
  safe others R (briefs_ok uuid) (run_payload others fails dbnow clock rfc3339 default_agent Generate job pl) anything.
Proof.
  assert (Hst : stable others (briefs_ok uuid)).
  { intros n d Hd. by destruct (history_ok uuid marshal unmarshal d (others n d) Hd (others_history n d Hd)). }
  unfold run_payload. eapply safe_tried with (Q1 := fun _ => briefs_ok uuid).
  { apply safe_read; [apply confined_refl|done..]. }
  intros [[event|[]]|e]; try (by apply safe_ret). unfold or_retry.
  eapply safe_tried with (Q1 := fun r d => briefs_ok uuid d /\ forall b, r = Ok (Some b) -> b ∈ k_briefs d /\ br_ID b = pb_BriefID pl).
  { apply safe_read; [apply confined_refl|done|by intros d ?|]. intros d Hd. split; [done|]. intros b [= E]. by apply getEventBrief_some. }
  intros [[brief|]|e]; try (by apply safe_ret). destruct (negb (br_EventID brief =? _)%string || _) eqn:Ep; [by apply safe_ret|].
  apply orb_false_iff in Ep as [E1%negb_false_iff%String.eqb_eq E2%negb_false_iff%String.eqb_eq].
  assert (Hseen : forall d, briefs_ok uuid d /\ (forall b, Ok (Some brief) = Ok (E := store_error) (Some b) -> b ∈ k_briefs d /\ br_ID b = pb_BriefID pl) -> seen_brief d).
  { intros d [Hd Hb]. destruct (Hb brief eq_refl) as [Hin Hi]. exists d, brief. unfold br_pair. rewrite E1, E2. do 4 (split; [done|]). split; [done|]. reflexivity. }
  intros n d Hd. apply Hseen in Hd. cbn [fst snd].
  destruct (negb _); [by apply cleanup_safe|by apply check_template_safe].
Qed.

End Payload.
(** Marking a terminal failure: the brief that was read belongs to the job's
    event. *)
Lemma fail_safe job pl :
  safe others (confined (fun b => br_EventID b = CalendarEventID job /\ br_Generation b = pb_Generation pl)) (briefs_ok uuid)
    (logged (store_call others fails (asks (GetEventBriefByID (pb_BriefID pl)))) (fun found =>
      match found with
      | None => pass_ret tt
      | Some brief =>
          if negb (br_EventID brief =? CalendarEventID job)%string ||
             (negb (pb_TemplateID pl =? "")%string && negb (br_TemplateID brief =? pb_TemplateID pl)%string)
          then pass_ret tt
          else logged (at_turn others fails dbnow clock (fun dbnow _ d =>
                 let '(b, d') := FailEventBriefIfCurrent dbnow (pb_BriefID pl) (pb_Generation pl) d in (Ok b, d')))
                 (fun _ => pass_ret tt)
      end)) (fun _ _ => True).
Proof.
  set (P := fun b => br_EventID b = CalendarEventID job /\ br_Generation b = pb_Generation pl). unfold logged at 1.
  eapply safe_tried with (Q1 := fun r d => briefs_ok uuid d /\ forall b, r = Ok (Some b) -> b ∈ k_briefs d /\ br_ID b = pb_BriefID pl).
  { apply safe_read; [apply confined_refl| |by intros d ?|].
    - intros n d Hd. by destruct (history_ok uuid marshal unmarshal d (others n d) Hd (others_history n d Hd)).
    - intros d Hd. split; [done|]. intros b [= E]. by apply getEventBrief_some. }
  intros [[brief|]|e]; try (by apply safe_ret). destruct (negb (br_EventID brief =? _)%string || _) eqn:Ep; [by apply safe_ret|].
  apply orb_false_iff in Ep as [E1%negb_false_iff%String.eqb_eq _].
  set (K := fun d => exists e b, briefs_ok uuid e /\ b ∈ k_briefs e /\ br_ID b = pb_BriefID pl /\ br_EventID b = CalendarEventID job /\ since e d).
  assert (HK : forall d, K d -> forall b', b' ∈ k_briefs d -> current_brief (pb_BriefID pl) (pb_Generation pl) b' = true -> P b').
  { intros d (e & b & He & Hb & Hi & Hev & Hs). eapply since_current; [done..| |done]. intros b' Hp Hg. split; [|done].
    unfold br_pair in Hp. congruence. }
  apply (safe_weaken _ _ _ K _ _ (fun _ _ => True)); [|done|].
  { intros d [Hd Hb]. destruct (Hb brief eq_refl) as [Hin Hi]. exists d, brief. do 4 (split; [done|]). split; [done|]. reflexivity. }
  unfold logged. eapply safe_tried with (Q1 := fun _ _ => True); [|intros [?|?]; by apply safe_ret].
  apply safe_call; [apply confined_refl| |done|].
  - intros n d (e & b & He & Hb & Hi & Hev & Hs). exists e, b. do 4 (split; [done|]). by apply since_stable.
  - intros n d Hd. split; [|done]. apply confined_update; [|by apply HK].
    apply writes_brief_status. by apply (bool_decide_unpack _); vm_compute.
Qed.

End Confinement.

Lemma update_where_same {row} (p : row -> bool) t : update_where p (fun r => r) t = t.
Proof. unfold update_where. rewrite <- (map_id t) at 2. apply map_ext. intros r. by destruct (p r). Qed.

(** The guarded update reaches the brief alone. *)
Lemma update_where_unique uuid d b id g (f : EventBrief -> EventBrief) : briefs_ok uuid d -> b ∈ k_briefs d -> br_ID b = id /\ br_Generation b = g ->
  update_where (current_brief id g) f (k_briefs d) = update_where (brief_is (br_ID b)) f (k_briefs d).
Proof.
  intros Hd Hb [<- <-]. unfold update_where. apply map_ext_in. intros b' Hb'%list_elem_of_In. unfold current_brief.
  destruct (brief_is (br_ID b) b') eqn:E; [|done]. apply brief_is_true in E.
  rewrite (key_unique br_ID (k_briefs d) b' b) by (done || apply Hd). by rewrite Z.eqb_refl.
Qed.

Section Exactly.
Context (uuid : nat -> string) `{Huuid : !Inj (=) (=) uuid}.
Variable marshal : prebriefPayload -> string.
Variable unmarshal : string -> option prebriefPayload.
Variable others : nat -> adb -> adb.
Variable fails : nat -> bool.
Variable dbnow clock : nat -> Z.
Variable rfc3339 : Z -> string.
Variable default_agent : nat -> result store_error Plugin.
Variable Generate : Plugin -> SourcedRequest -> result plugin_error GenerateResponse.

(** C23. Whatever other sessions commit between its calls and whichever calls
    fail, a job that generates a brief rewrites or removes at most the brief
    whose event is the job's own and whose template and generation the payload
    names, with that brief's queued jobs; marking the failure afterwards touches
    at most a brief of the job's own event at that generation.  A payload that
    does not decode, or disagrees with the job's columns, touches nothing. *)
Theorem pre_generate_confined job n d :
  (forall n d, briefs_ok uuid d -> rtc (brief_step uuid marshal unmarshal) d (others n d)) -> briefs_ok uuid d ->
  let run := runPreGenerate others fails dbnow clock unmarshal rfc3339 default_agent Generate job (n, d) in
  let fail_terminally := handlePreGenerateTerminalFailure others fails dbnow clock unmarshal job (n, d) in
  match unmarshal (Jobs.Payload job) with
  | Some pl =>
      interleaved others (confined (leased_brief job pl)) (n, d) run.2 /\
      interleaved others (confined (fun b => br_EventID b = CalendarEventID job /\ br_Generation b = pb_Generation pl)) (n, d) fail_terminally.2 /\
      (Jobs.BriefID job <> pb_BriefID pl \/ BriefGeneration job <> pb_Generation pl -> run = (Ok (false, Some InvalidPayload), (n, d)))
  | None => run = (Ok (false, Some InvalidPayload), (n, d)) /\ fail_terminally = (Ok tt, (n, d))
  end.
Proof.
  intros Hothers Hd run fail_terminally. unfold run, fail_terminally, runPreGenerate, handlePreGenerateTerminalFailure.
  destruct (unmarshal (Jobs.Payload job)) as [pl|].
  2: { split; [|done]. by destruct (TargetKind job) as [[]|]. }
  split; [|split].
  - destruct (TargetKind job) as [[]|]; try apply il_refl. destruct (negb (well_formed pl)); [apply il_refl|].
    destruct (_ || _); [apply il_refl|]. by apply (run_payload_safe uuid marshal unmarshal).
  - destruct (_ || _); [apply il_refl|]. by apply (fail_safe uuid marshal unmarshal).
  - intros Hne. assert (negb (Jobs.BriefID job =? pb_BriefID pl)%string || negb (BriefGeneration job =? pb_Generation pl)%Z = true) as ->.
    { destruct (String.eqb_spec (Jobs.BriefID job) (pb_BriefID pl)), (Z.eqb_spec (BriefGeneration job) (pb_Generation pl)); naive_solver. }
    by destruct (TargetKind job) as [[]|], (negb (well_formed pl)).
Qed.

(** *** Undisturbed *)

(** Everything the run checks before it calls the agent. *)
Record generates (job : Job) (pl : prebriefPayload) (event : CalendarEvent) (brief : EventBrief) (tmpl : Template) (time : Z) (d : adb) : Prop := {
  gn_target : TargetKind job = Some JobTargetCalendarEvent;
  gn_payload : unmarshal (Jobs.Payload job) = Some pl;
  gn_formed : well_formed pl = true;
  gn_columns : Jobs.BriefID job = pb_BriefID pl /\ BriefGeneration job = pb_Generation pl;
  gn_event : getCalendarEventByIDTx (CalendarEventID job) d = Ok event;
  gn_brief : brief ∈ k_briefs d;
  gn_leased : br_ID brief = pb_BriefID pl /\ leased_brief job pl brief;
  gn_future : (time < AgentTables.StartsAt event)%Z;
  gn_template : GetTemplate (ce_OwnerID event) (pb_TemplateID pl) (k_templates d) = Ok tmpl;
  gn_phase : tm_Phase tmpl = templatePhasePre /\ AutoRun tmpl = true }.

(** The agent's answer, or the run's error and whether it is retried. *)
Definition agent_answer (n : nat) (event : CalendarEvent) (tmpl : Template) : result (bool * run_error) (Plugin * GenerateResponse) :=
  match default_agent n with
  | Err ErrNotFound => Err (false, ErrPluginNotConfigured)
  | Err e => Err (false, StoreFailed e)
  | Ok plug =>
      match Generate plug {| sr_Request := templateRequest [] "" plug tmpl; sr_Source := buildCalendarEventSource rfc3339 event |} with
      | Ok resp => Ok (plug, resp)
      | Err e => Err (isRetryable e, PluginFailed e)
      end
  end.
Variable lower : string -> string.
Variable name_lt id_lt : string -> string -> bool.
Variable error_text : run_error -> string.
Variable bodies : nat -> list note_body.
Variable aliases : nat -> list alias_row.

Abbreviation alone := (fun (_ : nat) (d : adb) => d).
Abbreviation never := (fun _ : nat => false).

Lemma run_alone job pl event brief tmpl n d : briefs_ok uuid d -> generates job pl event brief tmpl (clock (S (S n))) d ->
  runPreGenerate alone never dbnow clock unmarshal rfc3339 default_agent Generate job (n, d) =
  match agent_answer (S (S (S n))) event tmpl with
  | Ok (plug, resp) =>
      (Ok (false, None), (5 + n, put_briefs (update_where (brief_is (br_ID brief)) (with_sections (plugin_Name plug) (resp_Model resp)
         (resp_Sections resp) (dbnow (4 + n))) (k_briefs d)) d))
  | Err (retryable, e) => (Ok (retryable, Some e), (4 + n, d))
  end.
Proof.
  intros Hd [Ht Hp Hf [Hc1 Hc2] He Hb [Hi [Hpair Hg]] Hfut Htm [Hph Hau]]. unfold runPreGenerate.
  rewrite Ht, Hp, Hf. cbn [negb]. rewrite Hc1, Hc2, String.eqb_refl, Z.eqb_refl. cbn [negb orb].
  unfold run_payload, tried, store_call, asks at 1. rewrite He. unfold or_retry, tried, asks at 1.
  assert (GetEventBriefByID (pb_BriefID pl) d = Some brief) as ->.
  { unfold GetEventBriefByID, getEventBriefByIDTx. rewrite (select_key br_ID (brief_is (pb_BriefID pl)) (k_briefs d) brief); [done|apply Hd|done| |].
    - by apply brief_is_true.
    - intros b _ E%brief_is_true. congruence. }
  unfold br_pair in Hpair. injection Hpair as -> ->. rewrite !String.eqb_refl. cbn [negb orb fst].
  destruct (clock (S (S n)) <? AgentTables.StartsAt event)%Z eqn:Ec; [|apply Z.ltb_ge in Ec; lia]. cbn [negb].
  unfold check_template, tried, store_call, asks. rewrite Htm, Hph, Hau, Hg, String.eqb_refl, Z.eqb_refl. cbn [negb orb].
  unfold generate_brief, resolve_agent, tried, store_call, agent_answer.
  destruct (default_agent (S (S (S n)))) as [plug|[]]; try reflexivity.
  destruct (Generate plug _) as [resp|e]; [|reflexivity].
  unfold or_retry, tried, at_turn, store_call, PublishEventBrief, done_run, pass_ret. do 3 f_equal.
  by rewrite (update_where_unique uuid d brief) by done.
Qed.

Lemma terminal_alone job pl event brief tmpl time t n d : briefs_ok uuid d -> generates job pl event brief tmpl time d ->
  handlePreGenerateTerminalFailure alone never dbnow clock unmarshal job (n, put_jobs t d) =
  (Ok tt, (2 + n, put_briefs (update_where (brief_is (br_ID brief)) (with_brief_status BriefFailed (dbnow (1 + n))) (k_briefs d)) (put_jobs t d))).
Proof.
  intros Hd [Ht Hp Hf _ _ Hb [Hi [Hpair Hg]] _ _ _]. unfold handlePreGenerateTerminalFailure. rewrite Hp.
  unfold well_formed in Hf. apply andb_true_iff in Hf as [[Hf1%negb_true_iff Hf2]%andb_true_iff Hf3%negb_true_iff]. rewrite Hf1, Hf3. cbn [orb].
  unfold logged, tried, store_call, asks at 1.
  assert (GetEventBriefByID (pb_BriefID pl) (put_jobs t d) = Some brief) as ->.
  { unfold GetEventBriefByID, getEventBriefByIDTx. tables. rewrite (select_key br_ID (brief_is (pb_BriefID pl)) (k_briefs d) brief); [done|apply Hd|done| |].
    - by apply brief_is_true.
    - intros b _ E%brief_is_true. congruence. }
  unfold br_pair in Hpair. injection Hpair as -> ->. rewrite !String.eqb_refl, andb_false_r. cbn [negb orb].
  unfold at_turn, store_call, FailEventBriefIfCurrent, pass_ret. tables. by rewrite (update_where_unique uuid d brief) by done.
Qed.

(** Undisturbed, the job of an eligible brief ends in one of three ways:
    the agent's answer is the brief's text and the job is done; or the job is
    queued again after its backoff, with the brief as it was; or, when retrying
    is no use or the attempts are used up, the job and the brief's current
    generation have failed.  Nothing else changes. *)
Theorem process_pre_generate_exact job pl event brief tmpl n d x :
  briefs_ok uuid d -> generates job pl event brief tmpl (clock (S (S n))) d -> Type_ job = JobPreGenerate ->
  x ∈ k_jobs d -> r_id x = Jobs.ID job -> active x = true -> r_attempts x = Attempts job ->
  exists n' d', ProcessGenerate alone never dbnow clock lower name_lt id_lt uuid unmarshal rfc3339 error_text default_agent Generate bodies aliases
      job (n, d) = (Ok tt, (n', d')) /\ brief_frame d' = brief_frame d /\
    let ends (f : EventBrief -> EventBrief) (g : job_row -> job_row) :=
      k_briefs d' = update_where (brief_is (br_ID brief)) f (k_briefs d) /\ k_jobs d' = update_where (Jobs.has_id (Jobs.ID job)) g (k_jobs d) in
    match agent_answer (S (S (S n))) event tmpl with
    | Ok (plug, resp) =>
        ends (with_sections (plugin_Name plug) (resp_Model resp) (resp_Sections resp) (dbnow (4 + n))) (completed_row (dbnow (5 + n)))
    | Err (retryable, e) =>
        if retryable && (Attempts job <? MaxJobAttempts)%Z
        then ends (fun b => b) (failed_row (dbnow (4 + n)) (error_text e) (JobPending, Some (clock (4 + n) + RetryBackoff (Attempts job))%Z))
        else ends (with_brief_status BriefFailed (dbnow (6 + n))) (failed_row (dbnow (4 + n)) (error_text e) (JobFailed, None))
    end.
Proof.
  intros Hd Hgen Hty Hx Hxi Hact Hatt. pose proof (run_alone job pl event brief tmpl n d Hd Hgen) as Hrun.
  assert (Hnote : Jobs.NoteID job = "").
  { pose proof (gn_target _ _ _ _ _ _ _ Hgen) as Ht. unfold TargetKind in Ht. by destruct (String.eqb_spec (Jobs.NoteID job) ""), (String.eqb_spec (CalendarEventID job) ""). }
  unfold ProcessGenerate. rewrite Hnote, Hty. cbn [negb String.eqb]. rewrite !String.eqb_refl. cbn [negb]. unfold tried at 1. rewrite Hrun.
  destruct (agent_answer _ event tmpl) as [[plug resp]|[retryable e]].
  - unfold settle_generate, logged, tried, at_turn, store_call, on_jobs. tables. unfold CompleteJob.
    assert (rows_affected (Jobs.has_id (Jobs.ID job)) (k_jobs d) =? 0 = false)%nat as ->.
    { apply Nat.eqb_neq. assert (0 < rows_affected (Jobs.has_id (Jobs.ID job)) (k_jobs d))%nat; [|lia]. apply rows_affected_pos. exists x.
      split; [done|]. unfold Jobs.has_id. by rewrite Hxi, String.eqb_refl. }
    cbn [pass_ret]. eexists _, _. split; [reflexivity|]. split; [by tables|]. split; by tables.
  - unfold settle_generate, logged at 1, tried, at_turn, store_call, on_jobs.
    rewrite <- Hxi, (FailJob_running _ _ _ _ (k_jobs d) x) by (apply Hd || done).
    unfold fail_status. rewrite Hatt. unfold MaxJobAttempts.
    destruct retryable; cbn [negb andb orb]; [rewrite (Z.leb_antisym (Attempts job)); destruct (Attempts job <? _)%Z eqn:Ea; cbn [negb]|].
    1: { eexists _, _. split; [reflexivity|]. split; [by tables|]. tables. split; [|done]. by rewrite update_where_same. }
    all: eexists _, _; (split; [by apply (terminal_alone job pl event brief tmpl (clock (S (S n))))|]); (split; [by tables|]); split; by tables.
Qed.
End Exactly.
