(* ===== verification/LiveJobsProps.v ===== *)
(** The workers' jobs for live prompts ([runLiveGenerate] of [GenerateJobs]):
    what a run may touch, what its agent sees of a transcript that grows, and
    the recovery sweep. *)

From stdpp Require Import base list strings sets gmap relations.
From Stdlib Require Import ZArith Lia SpecFloat.
From S2P Require Import GoInt GoStrings Sql Paging Transactions Jobs JobsProps Folders Execution Notes Transcripts Templates.
From S2P Require Import Summaries Plugins Speakers Pipeline AgentTables TablesProps Live LiveProps LiveRuns LiveFrames Calendar Briefs BriefsProps BriefCleanup.
From S2P Require Import Calls CalendarSync GenerateJobs GenerateJobsProps.

Local Open Scope string_scope.
Local Open Scope list_scope.

(** ** What a run touches *)

(** Only the prompt with this id changes. *)
Definition touches_output (id : string) (d d' : adb) : Prop :=
  readonly d' = readonly d /\
  forall k, prompt d' k = prompt d k \/ exists r js, prompt d k = Some (r, js) /\ lo_id r = id.

Lemma touches_refl id d : touches_output id d d.
Proof. split; [done|]. by left. Qed.

Section Leased.
Variable lower : string -> string.
Variable name_lt id_lt : string -> string -> bool.
Context (uuid : nat -> string) `{Huuid : !Inj (=) (=) uuid} (uuid_named : forall n, uuid n <> "").
Variable job : Job.

Abbreviation ID := (Jobs.ID job).
Abbreviation oid := (LiveOutputID job).

(** The tables are well formed, the job's row, while it is there, belongs to
    the job's output, and no future id is the job's. *)
Record leased (d : adb) : Prop := {
  le_live : live_inv d;
  le_named : ID <> "";
  le_output x : x ∈ k_jobs d -> r_id x = ID -> r_live_output_id x = Some oid;
  le_fresh n : (k_drawn d <= n)%nat -> uuid n <> ID }.

(** The job's row captured the target [t]. *)
Definition captured_at (t : Z) (d : adb) : Prop := forall x, x ∈ k_jobs d -> r_id x = ID -> r_target_revision x = Some t.

Lemma leased_step d d' : leased d -> live_inv d' -> prompts_only uuid d d' -> leased d'.
Proof.
  intros [Hl Hn Ho Hf] Hl' (_ & _ & Hd & Hj). split; [done|done| |].
  - intros x' Hx' Hi. destruct (Hj x' Hx') as [(x & Hx & K)|(_ & n & Hr & E)].
    + unfold same_keys in K. decompose [and] K. rewrite <- (Ho x Hx) by congruence. congruence.
    + exfalso. apply (Hf n); [lia|congruence].
  - intros n Hge. apply Hf. lia.
Qed.

Lemma live_inv_readonly d d' : live_inv d -> live_ok d' -> readonly d' = readonly d -> live_inv d'.
Proof. intros [_ Hn] Hl Hro. split; [done|]. unfold readonly in Hro. by injection Hro as -> _. Qed.

Lemma publishes_own d r : leased d -> may_publish lower name_lt id_lt ID r d -> lo_id r = oid.
Proof.
  intros Hd Hm. destruct (may_publish_job lower name_lt id_lt ID r d (proj1 (le_live d Hd)) Hm) as (x & Hx & Hi & Ho).
  rewrite (le_output d Hd x Hx Hi) in Ho. by injection Ho.
Qed.

Lemma discarded_own d d' k : leased d -> prompt d' k = discarded ID (prompt d k) ->
  prompt d' k = prompt d k \/ exists r js, prompt d k = Some (r, js) /\ lo_id r = oid.
Proof.
  intros Hd E. destruct (prompt d k) as [[r js]|] eqn:Ep; [|by left]. cbn in E. destruct (exists_where _ js) eqn:Ex; [right|by left].
  exists r, js. split; [done|]. apply (job_in_prompt lower name_lt id_lt ID d k r js (proj1 (le_live d Hd)) Ep) in Ex as (x & Hx & Hi & Ho).
  rewrite (le_output d Hd x Hx Hi) in Ho. by injection Ho.
Qed.

Lemma claim_step dbnow now d : leased d ->
  let r := transact (ClaimLiveGenerateJobTx lower name_lt id_lt dbnow now job) d in
  touches_output oid d r.2 /\ leased r.2 /\ forall c, r.1 = Ok (Some c) -> captured_at (claim_Target c) r.2.
Proof.
  intros Hd. unfold transact. destruct (ClaimLiveGenerateJobTx _ _ _ _ _ _ d) as [[res d']|e] eqn:E; cbn; [|by split; [apply touches_refl|]].
  pose proof (po_claim lower name_lt id_lt uuid dbnow now job d res d' E) as Hpo.
  apply ClaimLiveGenerateJobTx_spec in E as (Hl' & Hro & H); [|apply Hd..].
  assert (Hd' : leased d') by (apply (leased_step d); [done|by apply (live_inv_readonly d); [apply Hd|..]|done]).
  destruct res as [c|].
  - destruct H as (r & js & x & Hid & _ & _ & Hp & Hx & Hxi & Ht & Hp'). split; [split; [done|]|split; [done|]].
    + intros k. rewrite Hp'. destruct (bool_decide_reflect (k = lo_key r)) as [->|]; [right|by left]. by exists r, js.
    + intros c' [= <-] y Hy Hyi. pose proof (le_output d' Hd' y Hy Hyi) as Hyo.
      pose proof (Hp' (lo_key r)) as Hpk. rewrite bool_decide_eq_true_2 in Hpk by done.
      pose proof Hpk as (_ & _ & Hjs)%prompt_some; [|apply Hl'].
      assert (Hyj : y ∈ captured dbnow ID (lo_desired r) js).
      { rewrite Hjs. apply elem_of_select_where. split; [done|]. apply job_of_output_true. rewrite Hyo. f_equal. destruct r; cbn in *. congruence. }
      unfold captured in Hyj. apply elem_of_update_where in Hyj as (x0 & Hx0 & ->).
      assert (Hj0 : forall z, z ∈ js -> z ∈ k_jobs d).
      { apply prompt_some in Hp as (_ & _ & ->); [|apply Hd]. by intros z [? _]%elem_of_select_where. }
      assert (Hi0 : r_id x0 = ID) by (destruct (Jobs.has_id ID x0); destruct x0; done).
      assert (x0 = x) as -> by (apply (key_unique r_id (k_jobs d)); [apply (lv_jobs d (proj1 (le_live d Hd)))|by apply Hj0|by apply Hj0|congruence]).
      assert (Jobs.has_id ID x = true) as -> by (unfold Jobs.has_id; by rewrite Hi0, String.eqb_refl). rewrite Ht. by destruct x as [? ? ? ? ? ? ? ? []].
  - destruct H as [_ Hp']. split; [split; [done|]|by split]. intros k. rewrite Hp'. destruct (prompt d k) as [[r js]|]; [|by left].
    destruct (output_is oid r) eqn:Eo; [right|by left]. exists r, js. split; [done|]. by apply String.eqb_eq in Eo.
Qed.

Lemma success_step dbnow now t agent model sections d : leased d -> captured_at t d ->
  let r := transact (CompleteLiveGenerateSuccessTx lower name_lt id_lt uuid dbnow now ID t agent model sections) d in
  touches_output oid d r.2 /\ leased r.2.
Proof.
  intros Hd Ht. unfold transact. destruct (CompleteLiveGenerateSuccessTx _ _ _ _ _ _ _ _ _ _ _ d) as [[b d']|e] eqn:E; cbn; [|by split; [apply touches_refl|]].
  pose proof (po_success lower name_lt id_lt uuid dbnow now ID t agent model sections d b d' E) as Hpo.
  assert (Htgt : forall r, may_publish lower name_lt id_lt ID r d -> (0 <= t <= lo_desired r)%Z).
  { intros r Hm. destruct (may_publish_job lower name_lt id_lt ID r d (proj1 (le_live d Hd)) Hm) as (x & Hx & Hi & Ho).
    pose proof (lv_targets d (proj1 (le_live d Hd))) as HF. rewrite Forall_forall in HF. apply (HF x Hx r t); [apply Hm|done|by apply Ht]. }
  apply CompleteLiveGenerateSuccessTx_spec in E as (Hl' & Hro & H); [|exact uuid_named|apply Hd|apply Hd|exact Htgt].
  assert (Hd' : leased d') by (apply (leased_step d); [done|by apply (live_inv_readonly d); [apply Hd|..]|done]).
  split; [|done]. split; [done|]. intros k. destruct b.
  - destruct H as (r & js & Hm & Hp & _ & Hother). destruct (decide (k = lo_key r)) as [->|Hne]; [right|left; by apply Hother].
    exists r, js. split; [done|]. by apply (publishes_own d).
  - destruct H as [_ H]. by apply discarded_own.
Qed.

Lemma failure_step dbnow now code d : leased d ->
  let r := transact (CompleteLiveGenerateFailureTx lower name_lt id_lt uuid dbnow now ID code) d in
  touches_output oid d r.2 /\ leased r.2.
Proof.
  intros Hd. unfold transact. destruct (CompleteLiveGenerateFailureTx _ _ _ _ _ _ _ _ d) as [[b d']|e] eqn:E; cbn; [|by split; [apply touches_refl|]].
  pose proof (po_failure lower name_lt id_lt uuid dbnow now ID code d b d' E) as Hpo.
  apply CompleteLiveGenerateFailureTx_spec in E as (Hl' & Hro & H); [|exact uuid_named|apply Hd|apply Hd].
  assert (Hd' : leased d') by (apply (leased_step d); [done|by apply (live_inv_readonly d); [apply Hd|..]|done]).
  split; [|done]. split; [done|]. intros k. destruct b.
  - destruct H as (r & js & x & Hm & Hp & _ & _ & _ & Hother). destruct (decide (k = lo_key r)) as [->|Hne]; [right|left; by apply Hother].
    exists r, js. split; [done|]. by apply (publishes_own d).
  - destruct H as [_ H]. by apply discarded_own.
Qed.

(** ** The run *)

Variable others : nat -> adb -> adb.
Variable fails : nat -> bool.
Variable dbnow clock : nat -> Z.
Variable default_agent : nat -> result store_error Plugin.
Variable Generate : Plugin -> SourcedRequest -> result plugin_error GenerateResponse.
Variable bodies : nat -> list note_body.
Variable aliases : nat -> list alias_row.

(** The others keep the tables well formed and never hand the job's id to
    another output; a captured target stays. *)
Definition respectful : Prop := forall n d, leased d -> leased (others n d) /\ forall t, captured_at t d -> captured_at t (others n d).

Lemma run_claim_safe c : respectful ->
  safe others (touches_output oid) (fun d => leased d /\ captured_at (claim_Target c) d)
    (run_claim others fails dbnow clock lower name_lt id_lt uuid default_agent Generate bodies aliases job c) (fun _ _ => True).
Proof.
  intros Hr. set (K := fun d => leased d /\ captured_at (claim_Target c) d).
  assert (Hst : stable others K) by (intros n d [Hd Ht]; destruct (Hr n d Hd) as [? H]; split; [done|by apply H]).
  assert (Hread : forall A (f : nat -> result store_error A), safe others (touches_output oid) K (store_call others fails (fun n d => (f n, d))) (fun _ => K)).
  { intros A f. apply safe_call; [apply touches_refl|done|done|]. intros n d Hd. by split; [apply touches_refl|]. }
  assert (Hasks : forall A (f : adb -> A), safe others (touches_output oid) K (store_call others fails (asks f)) (fun _ => K)).
  { intros A f. apply safe_read; [apply touches_refl|done..]. }
  unfold run_claim. eapply safe_tried; [apply Hasks|]. intros [[tmpl|[]]|e]; try by apply safe_ret.
  unfold resolve_agent. eapply safe_tried; [apply Hread|]. intros [plug|[]]; try by apply safe_ret.
  unfold or_retry. eapply safe_tried; [apply Hasks|]. intros [segments|e]; [|by apply safe_ret].
  eapply safe_tried; [apply (Hread _ (fun n => Ok _))|]. intros [body|e]; [|by apply safe_ret].
  eapply safe_tried; [apply (Hread _ (fun n => Ok _))|]. intros [aliasMap|e]; [|by apply safe_ret].
  destruct (Generate plug _) as [resp|e]; [|by apply safe_ret].
  eapply safe_tried with (Q1 := fun _ _ => True); [|intros [?|?]; by apply safe_ret].
  apply safe_call; [apply touches_refl|done|done|]. intros n d [Hd Ht]. split; [|done]. by apply success_step.
Qed.

(** C24. Whatever other sessions commit between its calls and whichever calls
    fail, the run of a live prompt's job, and the publication of its failure,
    change no prompt but the job's own output, and nothing but prompts and
    their jobs. *)
Theorem live_run_confined n d e : respectful -> leased d ->
  interleaved others (touches_output oid) (n, d)
    (runLiveGenerate others fails dbnow clock lower name_lt id_lt uuid default_agent Generate bodies aliases job (n, d)).2 /\
  interleaved others (touches_output oid) (n, d)
    (handleLiveGenerateTerminalFailure others fails dbnow clock lower name_lt id_lt uuid job e (n, d)).2.
Proof.
  intros Hr Hd. assert (Hst : stable others leased) by (intros m x Hx; by apply Hr). split.
  - unfold runLiveGenerate. destruct (_ || _); [apply il_refl|]. unfold or_retry.
    assert (Hs : safe others (touches_output oid) leased (tried (at_turn others fails dbnow clock (fun dbnow now =>
      transact (ClaimLiveGenerateJobTx lower name_lt id_lt dbnow now job))) (fun r => match r with
        | Ok a => match a with None => done_run | Some claim =>
            run_claim others fails dbnow clock lower name_lt id_lt uuid default_agent Generate bodies aliases job claim end
        | Err e => pass_ret (true, Some (StoreFailed e)) end)) (fun _ _ => True)); [|by apply Hs].
    eapply safe_tried with (Q1 := fun r d => leased d /\ forall c, r = Ok (Some c) -> captured_at (claim_Target c) d).
    + apply safe_call; [apply touches_refl|done|by intros x Hx|]. intros m x Hx. by apply claim_step.
    + intros [[c|]|err]; try by apply safe_ret. eapply safe_weaken; [|done|by apply run_claim_safe]. intros x [Hx Hc]. split; [done|by apply Hc].
  - unfold handleLiveGenerateTerminalFailure. destruct (_ =? _)%string; [apply il_refl|]. unfold logged.
    assert (Hs : safe others (touches_output oid) leased (at_turn others fails dbnow clock (fun dbnow now =>
      transact (CompleteLiveGenerateFailureTx lower name_lt id_lt uuid dbnow now ID (classifyLiveError e)))) (fun _ _ => True)).
    { apply safe_call; [apply touches_refl|done|done|]. intros m x Hx. split; [|done]. by apply failure_step. }
    destruct (Hs n d Hd) as [H _]. unfold tried. destruct (at_turn _ _ _ _ _ (n, d)) as [[b|err] s']; exact H.
Qed.

End Leased.

(** ** A transcript that grows *)

(** Segments are appended that sort after all there are. *)
Definition appended_last (id_lt : string -> string -> bool) (transcriptID : string) (d d' : adb) : Prop := exists s,
  k_segments d' = k_segments d ++ [s] /\
  forall x, x ∈ k_segments d -> sg_transcript x = transcriptID -> prefix_before id_lt s x = false.

Lemma insert_last {row} (before : row -> row -> bool) x r l : before r x = false ->
  insert_sorted before x (l ++ [r]) = insert_sorted before x l ++ [r].
Proof.
  intros H. induction l as [|y l IH]; cbn; [by rewrite H|]. destruct (before y x); [by rewrite IH|done].
Qed.

Lemma order_by_last {row} (before : row -> row -> bool) t r : (forall x, x ∈ t -> before r x = false) ->
  order_by before (t ++ [r]) = order_by before t ++ [r].
Proof.
  induction t as [|x t IH]; intros H; cbn; [done|]. rewrite IH by (intros y Hy; apply H; by right).
  apply insert_last, H. by left.
Qed.

(** The prefix that a captured target names does not change while the
    transcript grows at its end. *)
Lemma prefix_kept id_lt transcriptID limit d d' : (Z.of_nat limit <= finalizedRevisionTx transcriptID d)%Z ->
  rtc (appended_last id_lt transcriptID) d d' ->
  LiveTranscriptPrefix id_lt transcriptID limit d' = LiveTranscriptPrefix id_lt transcriptID limit d.
Proof.
  intros Hl Hs. revert Hl. induction Hs as [|d d1 d2 (s & E & Hlast) _ IH]; intros Hl; [done|].
  set (mine := fun s : segment_row => (sg_transcript s =? transcriptID)%string) in *.
  assert (Es : select_where mine (k_segments d1) = select_where mine (k_segments d) ++ (if mine s then [s] else [])).
  { rewrite E, select_app. reflexivity. }
  assert (Hlen : (limit <= length (select_where mine (k_segments d)))%nat).
  { unfold finalizedRevisionTx, rows_affected in Hl. unfold select_where. fold mine in Hl. lia. }
  rewrite IH.
  - unfold LiveTranscriptPrefix. fold mine. rewrite Es. f_equal. destruct (mine s); [|by rewrite app_nil_r].
    rewrite order_by_last; [|by intros x [Hx Hm%String.eqb_eq]%elem_of_select_where; apply Hlast].
    rewrite take_app_le; [done|]. by rewrite (Permutation_length (order_by_perm _ _)).
  - unfold finalizedRevisionTx, rows_affected in *. fold mine in Hl |- *. rewrite E, List.filter_app, length_app. lia.
Qed.

(** ** The recovery sweep *)

Section Sweep.
Context (id_lt : string -> string -> bool) `{Horder : !StrictTotalOrder id_lt}.

Lemma recover_outputs dbnow l d d' :
  tx_each (fun o => tx_bind (update_jobs (pending_of_output (lo_id o)) (cancelled_row dbnow)) (fun _ => delete_output (lo_id o))) l d = Ok (tt, d') ->
  k_outputs d' = delete_where (fun o => bool_decide (lo_id o ∈ map lo_id l)) (k_outputs d).
Proof.
  revert d. induction l as [|o l IH]; intros d; cbn [tx_each map].
  - intros [= <-]. symmetry. by apply delete_absent.
  - intros ([] & d1 & E & H)%tx_bind_ok. rewrite recover_one in E. injection E as <-. rewrite (IH _ H). unfold without_output. tables.
    rewrite delete_where_delete. apply delete_where_ext. intros x _. unfold output_is.
    destruct (String.eqb_spec (lo_id x) (lo_id o)) as [->|Hne]; cbn.
    + symmetry. apply bool_decide_eq_true. by left.
    + apply bool_decide_ext. rewrite elem_of_cons. split; [by right|by intros [?|?]].
Qed.

(** One page deletes its rows from the outputs. *)
Lemma recover_page dbnow now locked d : live_ok d ->
  let page := recovery_page id_lt now (Z.of_nat liveRecoveryPageSize) locked d in
  exists d', RecoverLiveTemplateOutputs id_lt dbnow now (Z.of_nat liveRecoveryPageSize) locked d =
      Ok ((first_seen (map lo_note page), length page), d') /\
    live_ok d' /\ readonly d' = readonly d /\
    k_outputs d' = delete_where (fun o => bool_decide (lo_id o ∈ map lo_id page)) (k_outputs d).
Proof.
  intros Hd page. destruct (RecoverLiveTemplateOutputs_spec id_lt dbnow now (Z.of_nat liveRecoveryPageSize) locked d Hd) as (d' & E & Hd' & Hro & _).
  fold page in E. exists d'. split; [exact E|]. split; [done|]. split; [done|].
  unfold RecoverLiveTemplateOutputs in E. apply tx_bind_ok in E as (pg & d0 & [= <- <-] & E). fold page in E.
  apply tx_bind_ok in E as ([] & d1 & E1 & E). apply tx_bind_ok in E as (u & d2 & E2 & [= <-]).
  destruct (notify_all (first_seen (map lo_note page)) d1) as (d3 & E3 & Ho & _ & _). rewrite E3 in E2. injection E2 as _ <-.
  rewrite Ho. by apply (recover_outputs dbnow).
Qed.

Lemma page_is_page now d : recovery_page id_lt now (Z.of_nat liveRecoveryPageSize) (fun _ => false) d =
  page id_lt lo_id liveRecoveryPageSize (stale (now - LiveStaleRecoveryAge) d) (k_outputs d).
Proof.
  unfold recovery_page, page. change (Z.of_nat liveRecoveryPageSize <=? 0)%Z with false. cbv iota. rewrite Nat2Z.id. f_equal.
  unfold key_lt. f_equal. apply select_where_ext. intros o _. by rewrite andb_true_r.
Qed.

Lemma stale_readonly cutoff d d' o : readonly d' = readonly d -> stale cutoff d' o = stale cutoff d o.
Proof. intros Hro. unfold stale. unfold readonly in Hro. by injection Hro as _ _ _ -> _. Qed.

Lemma stale_later c c' d o : (c <= c')%Z -> stale c d o = true -> stale c' d o = true.
Proof.
  unfold stale. intros Hc [H|H]%orb_true_iff; apply orb_true_iff; [by left|right]. apply Z.ltb_lt in H. apply Z.ltb_lt. lia.
Qed.

Lemma removed_count {row} (f : row -> string) l t : NoDup (map f t) -> NoDup (map f l) -> (forall r, r ∈ l -> r ∈ t) ->
  (length (delete_where (fun o => bool_decide (f o ∈ map f l)) t) + length l)%nat = length t.
Proof.
  intros Ht Hl Hsub. set (p := fun o => bool_decide (f o ∈ map f l)).
  assert (Hsel : select_where p t ≡ₚ l).
  { apply NoDup_Permutation.
    - apply (NoDup_fmap_1 f). by apply NoDup_map_filter.
    - by apply (NoDup_fmap_1 f).
    - intros r. rewrite elem_of_select_where. unfold p. rewrite bool_decide_eq_true. split.
      + intros [Hr (r' & E & Hr')%list_elem_of_fmap]. by rewrite (key_unique f t r r') by (done || by apply Hsub).
      + intros Hr. split; [by apply Hsub|by apply list_elem_of_fmap_2]. }
  rewrite <- (Permutation_length Hsel). unfold delete_where, select_where. clear. induction t as [|r t IH]; cbn; [done|].
  destruct (p r); cbn; lia.
Qed.

Section Alone.
Variable dbnow clock : nat -> Z.
Hypothesis clock_forward : forall n, (clock n <= clock (S n))%Z.

Abbreviation sweep := (live_recovery_sweep (fun _ d => d) (fun _ => false) dbnow clock id_lt (fun _ _ => false)).

Lemma sweep_forward fuel n d n' r d' : sweep fuel (n, d) = (r, (n', d')) -> (clock n <= clock n')%Z.
Proof.
  revert n d. induction fuel as [|fuel IH]; intros n d; cbn [live_recovery_sweep]; [intros [= _ <- _]; lia|].
  unfold tried, store_call, transact. specialize (clock_forward n). destruct (RecoverLiveTemplateOutputs _ _ _ _ _ d) as [[[notes removed] d1]|e].
  - destruct (removed <? _)%nat; [intros [= _ <- _]; lia|]. intros H%IH. lia.
  - intros [= _ <- _]. lia.
Qed.

(** Undisturbed, the recovery sweep ends, whatever the number of pages:
    it deletes every output whose stream is no longer current or whose last
    demand was too old when it began, and none that was not so by the time
    it ended, and touches nothing else. *)
Theorem recovery_sweep_exact fuel n d : live_ok d -> (length (k_outputs d) < liveRecoveryPageSize * fuel)%nat ->
  exists n' d' p, sweep fuel (n, d) = (Ok tt, (n', d')) /\ live_ok d' /\ readonly d' = readonly d /\
    k_outputs d' = delete_where p (k_outputs d) /\
    forall o, o ∈ k_outputs d ->
      (stale (clock n - LiveStaleRecoveryAge) d o = true -> p o = true) /\
      (p o = true -> stale (clock n' - LiveStaleRecoveryAge) d o = true).
Proof.
  revert n d. induction fuel as [|fuel IH]; intros n d Hd Hlen; [lia|]. cbn [live_recovery_sweep].
  destruct (recover_page (dbnow n) (clock n) (fun _ => false) d Hd) as (d1 & E & Hd1 & Hro & Ho).
  rewrite page_is_page in E, Ho. set (pg := page _ _ _ _ _) in *.
  set (p := fun o => bool_decide (lo_id o ∈ map lo_id pg)) in *.
  assert (Hp : forall o, o ∈ k_outputs d -> p o = true -> stale (clock n - LiveStaleRecoveryAge) d o = true).
  { intros o Hin Hpo. unfold p in Hpo. apply bool_decide_eq_true in Hpo. apply list_elem_of_fmap in Hpo as (o' & Ei & Hpg).
    pose proof Hpg as [Hin' Hs]%elem_of_page. by rewrite (key_unique lo_id (k_outputs d) o o') by (done || apply Hd). }
  unfold tried, store_call, transact. rewrite E. destruct (length pg <? liveRecoveryPageSize)%nat eqn:El.
  - apply Nat.ltb_lt in El. exists (S n), d1, p. split; [reflexivity|]. split; [done|]. split; [done|]. split; [done|].
    intros o Hin. split.
    + intros Hs. unfold p. apply bool_decide_eq_true. apply list_elem_of_fmap_2. by apply (short_page id_lt lo_id).
    + intros Hpo. eapply stale_later; [|by apply Hp]. specialize (clock_forward n). lia.
  - apply Nat.ltb_ge in El. assert (Hcount : (length (k_outputs d1) + length pg)%nat = length (k_outputs d)).
    { rewrite Ho. apply removed_count; [apply Hd|apply NoDup_page, Hd|]. by intros r [? _]%elem_of_page. }
    destruct (IH (S n) d1 Hd1) as (n' & d' & q & E' & Hd' & Hro' & Ho' & Hq); [lia|].
    exists n', d', (fun o => p o || q o). split; [exact E'|]. split; [done|]. split; [congruence|].
    split; [by rewrite Ho', Ho, delete_where_delete|]. intros o Hin.
    assert (Hn' : (clock n <= clock n')%Z) by (etransitivity; [apply clock_forward|by eapply sweep_forward]).
    destruct (p o) eqn:Epo; cbn [orb].
    + split; [done|]. intros _. eapply stale_later; [|by apply Hp]. lia.
    + assert (Hin1 : o ∈ k_outputs d1) by (rewrite Ho; by apply elem_of_delete_where). destruct (Hq o Hin1) as [H1 H2].
      rewrite !(stale_readonly _ d d1 o Hro) in *. split; [|done]. intros Hs. apply H1. eapply stale_later; [|done].
      specialize (clock_forward n). lia.
Qed.
End Alone.
End Sweep.
