(* ===== verification/GenerateDemo.v ===== *)
(** Concrete runs of the jobs for briefs and live prompts, and the witnesses of
    their properties. *)

From stdpp Require Import base list strings sets gmap relations.
From Stdlib Require Import ZArith Lia SpecFloat.
From S2P Require Import GoInt GoStrings Sql Paging Transactions Jobs JobsProps Folders Execution Notes Transcripts Templates.
From S2P Require Import Summaries Plugins Speakers Pipeline AgentTables TablesProps Live LiveProps LiveRuns LiveFrames Calendar Briefs.
From S2P Require Import BriefsProps BriefRuns BriefCleanup Calls CalendarSync BriefDemo TemplateWrites TemplateWritesProps.
From S2P Require Import GenerateJobs GenerateJobsProps LiveJobsProps.

Local Open Scope string_scope.
Local Open Scope list_scope.

Module GenerateDemo.
Import BriefDemo.

Abbreviation alone := (fun (_ : nat) (d : adb) => d).
Abbreviation never := (fun _ : nat => false).

Definition agent_plugin : Plugin := {|
  plugin_ID := "p1"; Kind := PluginAgent; plugin_Name := "agent"; EndpointURL := "http://agent"; Token := ""; Enabled := true;
  plugin_Config := "{}"; ConfigSchema := ""; IsDefault := true |}.
Definition answers (ok : bool) : Plugin -> SourcedRequest -> result plugin_error GenerateResponse := fun _ _ =>
  if ok then Ok {| resp_Sections := [{| s_Heading := "Who"; ContentMarkdown := "Bo"; Refs := [] |}]; resp_Model := "m"; resp_Usage := None |}
  else Err (Pipeline.HTTPError 503).
Definition rfc (t : Z) : string := Itoa t.
Definition text (e : run_error) : string := "failed".
Definition found : nat -> result store_error Plugin := fun _ => Ok agent_plugin.
Definition at_ten (n : nat) : Z := 10%Z.

(** *** A brief *)

Definition brief_job (attempts : Z) : Job := {|
  Jobs.ID := second_job; Jobs.NoteID := ""; CalendarEventID := "e1"; Jobs.BriefID := "u"; BriefGeneration := 2; Jobs.TemplateID := "";
  Jobs.StreamID := ""; LiveOutputID := ""; TargetRevision := None; Type_ := JobPreGenerate; Jobs.Status := JobPending;
  Attempts := attempts; LastError := ""; Priority := 0; Jobs.StartedAt := None; FinishedAt := None; Payload := "u/t1/2" |}.

Definition brief_run (ok : bool) : result store_error unit * (nat * adb) :=
  ProcessGenerate alone never at_ten at_ten demo_lower String.ltb String.ltb demo_uuid demo_unmarshal rfc text found (answers ok)
    (fun _ => []) (fun _ => []) (brief_job 0) (0%nat, second_brief).

Example brief_written : map br_Status (k_briefs (brief_run true).2.2) = [BriefReady] /\ map br_Status (k_briefs (brief_run false).2.2) = [BriefPending].
Proof. split; vm_compute; reflexivity. Qed.

Lemma pre_generate_confined_witness :
  interleaved alone (confined (leased_brief (brief_job 0) {| pb_BriefID := "u"; pb_TemplateID := "t1"; pb_Generation := 2 |})) (0%nat, second_brief)
    (runPreGenerate alone never at_ten at_ten demo_unmarshal rfc found (answers true) (brief_job 0) (0%nat, second_brief)).2.
Proof.
  assert (Hothers : forall (n : nat) d, briefs_ok demo_uuid d -> rtc (brief_step demo_uuid demo_marshal demo_unmarshal) d d) by (intros; apply rtc_refl).
  pose proof (pre_generate_confined demo_uuid demo_marshal demo_unmarshal alone never at_ten at_ten rfc found (answers true) (brief_job 0) 0
    second_brief Hothers second_ok) as H.
  assert (E : demo_unmarshal (Payload (brief_job 0)) = Some {| pb_BriefID := "u"; pb_TemplateID := "t1"; pb_Generation := 2 |}) by reflexivity.
  cbv zeta in H. rewrite E in H. exact (proj1 H).
Defined.

Definition scanned_template : Template := scan_template true pre_template.
Definition second_row : job_row := hd (pre_job "" "" "" 0 "" 0) (tail (k_jobs second_brief)).

Lemma brief_generates : generates demo_unmarshal (brief_job 0) {| pb_BriefID := "u"; pb_TemplateID := "t1"; pb_Generation := 2 |} review current
  scanned_template 10 second_brief.
Proof.
  split; try reflexivity; try by split.
  destruct two_generations as [-> _]. left.
Qed.

Lemma process_pre_generate_exact_witness : exists n' d',
  brief_run true = (Ok tt, (n', d')) /\ k_briefs d' = [with_sections "agent" "m" [{| s_Heading := "Who"; ContentMarkdown := "Bo"; Refs := [] |}] 10 current].
Proof.
  assert (Hx : second_row ∈ k_jobs second_brief) by (vm_compute; right; left).
  destruct (process_pre_generate_exact demo_uuid demo_unmarshal at_ten at_ten rfc found (answers true) demo_lower String.ltb String.ltb text
    (fun _ => []) (fun _ => []) (brief_job 0) {| pb_BriefID := "u"; pb_TemplateID := "t1"; pb_Generation := 2 |} review current scanned_template 0
    second_brief second_row second_ok brief_generates eq_refl Hx eq_refl eq_refl eq_refl) as (n' & d' & E & _ & Hb & _).
  exists n', d'. split; [exact E|]. rewrite Hb. vm_compute. reflexivity.
Defined.

(** A database error while the default agent is looked up is not retried: the
    brief has failed after the first attempt. *)
Example lookup_error_is_terminal :
  let r := ProcessGenerate alone never at_ten at_ten demo_lower String.ltb String.ltb demo_uuid demo_unmarshal rfc text (fun _ => Err DbError)
    (answers true) (fun _ => []) (fun _ => []) (brief_job 1) (0%nat, second_brief) in
  map br_Status (k_briefs r.2.2) = [BriefFailed] /\ map r_status (tail (k_jobs r.2.2)) = [JobFailed].
Proof. split; vm_compute; reflexivity. Qed.

(** *** A live prompt *)

Definition live_job_of : Job := {|
  Jobs.ID := demo_uuid 5; Jobs.NoteID := "n1"; CalendarEventID := ""; Jobs.BriefID := ""; BriefGeneration := 0; Jobs.TemplateID := TemplateDemo.live_id;
  Jobs.StreamID := "s1"; LiveOutputID := demo_uuid 4; TargetRevision := None; Type_ := JobLiveGenerate; Jobs.Status := JobPending;
  Attempts := 1; LastError := ""; Priority := 0; Jobs.StartedAt := None; FinishedAt := None; Payload := "{}" |}.

Definition live_run : result store_error outcome * (nat * adb) :=
  runLiveGenerate alone never at_ten at_ten demo_lower String.ltb String.ltb demo_uuid found (answers true) (fun _ => []) (fun _ => [])
    live_job_of (0%nat, TemplateDemo.live).

Example prompt_written : map lo_status (k_outputs live_run.2.2) = [LiveOutputReady] /\ live_run.1 = Ok (false, None).
Proof. split; vm_compute; reflexivity. Qed.

Lemma live_leased : leased demo_uuid live_job_of TemplateDemo.live.
Proof.
  split.
  - apply TemplateDemo.live_tables_ok.
  - done.
  - intros x Hx Hi. vm_compute in Hx. apply elem_of_cons in Hx as [->|Hx]; [vm_compute in Hi; discriminate Hi|].
    apply elem_of_cons in Hx as [->|Hx]; [vm_compute in Hi; discriminate Hi|]. apply list_elem_of_singleton in Hx as ->. reflexivity.
  - intros n Hn E%(inj demo_uuid). vm_compute in Hn. lia.
Qed.

Lemma live_run_confined_witness :
  interleaved alone (touches_output (demo_uuid 4)) (0%nat, TemplateDemo.live) live_run.2.
Proof.
  assert (Hr : respectful demo_uuid live_job_of alone) by (intros n d Hd; by split).
  exact (proj1 (live_run_confined demo_lower String.ltb String.ltb demo_uuid TemplateDemo.tally_named live_job_of alone never at_ten at_ten
    found (answers true) (fun _ => []) (fun _ => []) 0 TemplateDemo.live ErrPluginNotConfigured Hr live_leased)).
Defined.

(** *** Recovery *)

Definition two_hours (n : nat) : Z := (7200 * second)%Z.

Lemma recovery_sweep_exact_witness : exists n' d',
  live_recovery_sweep alone never two_hours two_hours String.ltb (fun _ _ => false) 1 (0%nat, TemplateDemo.live) = (Ok tt, (n', d')) /\ k_outputs d' = [].
Proof.
  assert (Hl : live_ok TemplateDemo.live) by (apply TemplateDemo.live_tables_ok).
  assert (Hlen : (length (k_outputs TemplateDemo.live) < liveRecoveryPageSize * 1)%nat) by (vm_compute; lia).
  destruct (recovery_sweep_exact String.ltb two_hours two_hours (fun n => Z.le_refl _) 1 0 TemplateDemo.live Hl Hlen)
    as (n' & d' & p & E & _ & _ & Ho & Hp).
  exists n', d'. split; [exact E|]. rewrite Ho. set (os := k_outputs TemplateDemo.live) in *. vm_compute in os.
  assert (Hs : forall o, o ∈ os -> p o = true).
  { intros o Hin. apply Hp; [exact Hin|]. apply list_elem_of_singleton in Hin as ->. vm_compute. reflexivity. }
  unfold delete_where, os. cbn. rewrite Hs; [reflexivity|]. unfold os. left.
Defined.

(** *** The prefix is not immutable *)

Definition said (id : string) (start : Z) : segment_row := LiveDemo.demo_segment id start.
Definition heard (l : list segment_row) : adb := mkAdb [] [] [] [] l [] [] [] [] [] 0 [].

(** A segment that is stored later but starts earlier — of the other track of a
    recording, say — displaces one of the prefix. *)
Lemma prefix_displaced :
  map (fun s => StartMS s) (LiveTranscriptPrefix String.ltb "tr1" 1 (heard [said "g1" 2])) <>
  map (fun s => StartMS s) (LiveTranscriptPrefix String.ltb "tr1" 1 (heard ([said "g1" 2] ++ [said "g2" 1]))).
Proof. vm_compute. discriminate. Qed.

End GenerateDemo.
