(* ===== verification/PeopleNames.v ===== *)
(** Names, addresses and companies of people: [internal/people/company.go],
    [dedup.go] and [match.go].

    Go's maps from fixed strings are [gmap]s.  Unicode's lower case and
    canonical decomposition and the public suffix list are parameters. *)

From stdpp Require Import base list strings sets gmap.
From Stdlib Require Import Ascii ZArith Lia.
From S2P Require Import GoInt GoStrings Sql Folders Execution Notes Transcripts Jobs Templates Summaries Transactions AgentTables.

Local Open Scope string_scope.

(** ** Companies *)

Definition personalProviders : gset string := list_to_set
  [ "gmail.com"; "googlemail.com"; "outlook.com"; "hotmail.com"; "live.com"; "msn.com"; "yahoo.com"; "ymail.com";
    "icloud.com"; "me.com"; "mac.com"; "aol.com"; "proton.me"; "protonmail.com"; "pm.me"; "gmx.com"; "mail.com";
    "zoho.com"; "fastmail.com"; "hey.com" ].

Definition canonicalDomains : gmap string string := list_to_map
  [ ("youtube.com", "google.com"); ("youtu.be", "google.com"); ("office.com", "microsoft.com");
    ("microsoft365.com", "microsoft.com"); ("fb.com", "facebook.com"); ("instagram.com", "facebook.com");
    ("messenger.com", "facebook.com"); ("aws.amazon.com", "amazon.com") ].

Definition CanonicalCompanyDomain (domain : string) : string :=
  match canonicalDomains !! domain with Some canonical => canonical | None => domain end.

Section Names.
Variable unicode_lower : string -> string.
(** [publicsuffix.EffectiveTLDPlusOne]; [None] is its error. *)
Variable EffectiveTLDPlusOne : string -> option string.
(** [norm.NFD.String], and the runes of category [Mn]. *)
Variable NFD : string -> string.
Variable is_Mn : string -> bool.

Definition CompanyDomain (email : string) : string * bool :=
  let email := ToLower unicode_lower email in
  match LastIndexByte email "@"%char with
  | None => ("", false)
  | Some at_ =>
      if (at_ =? 0)%nat || (at_ =? String.length email - 1)%nat then ("", false)
      else
        match EffectiveTLDPlusOne (drop_str (S at_) email) with
        | None => ("", false)
        | Some domain =>
            let domain := CanonicalCompanyDomain domain in
            if bool_decide (domain ∈ personalProviders) then (domain, false) else (domain, true)
        end
  end.

(** ** Attendees without duplicates *)

Definition email_key (email : string) : string := ToLower unicode_lower (TrimSpace email).

Definition rename_attendee (name : string) (a : Attendee) : Attendee := {|
  at_Name := name; at_Email := at_Email a; Response := Response a |}.

(** One round of the loop on [seen] and [out]. *)
Definition dedup_step (st : gmap string nat * list Attendee) (attendee : Attendee) : gmap string nat * list Attendee :=
  let '(seen, out) := st in
  let key := email_key (at_Email attendee) in
  if (key =? "")%string then (seen, out)
  else
    match seen !! key with
    | Some idx =>
        match out !! idx with
        | Some first =>
            if (at_Name first =? "")%string && negb (at_Name attendee =? "")%string
            then (seen, <[idx := rename_attendee (at_Name attendee) first]> out)
            else (seen, out)
        | None => (seen, out)
        end
    | None => (<[key := length out]> seen, (out ++ [attendee])%list)
    end.

Definition DedupByEmail (attendees : list Attendee) : list Attendee :=
  (fold_left dedup_step attendees (∅, [])).2.

(** ** Matching names *)

Definition nicknameFold : gmap string string := list_to_map
  [ ("bob", "robert"); ("bill", "william"); ("mike", "michael"); ("liz", "elizabeth"); ("jim", "james") ].

Definition blanks : string := bytes_string [32; 9; 13; 10].

(** What is left of [s] after [title]; [None]: try the next one. *)
Definition strip_title (title s : string) : option string :=
  if (s =? title)%string then Some ""
  else
    match strip_prefix (title ++ ".") s with
    | Some rest => Some (TrimLeft blanks rest)
    | None =>
        match strip_prefix title s with
        | Some (String c rest) =>
            if in_set (bytes_string [32; 9; 10; 13]) c then Some (TrimLeft blanks (String c rest)) else None
        | Some EmptyString | None => None
        end
    end.

Fixpoint strip_titles (titles : list string) (s : string) : string :=
  match titles with
  | [] => s
  | title :: rest => match strip_title title s with Some r => r | None => strip_titles rest s end
  end.

Definition stripLeadingTitle (s : string) : string := strip_titles ["dr"; "mr"; "mrs"; "ms"; "prof"] s.

Definition reorderCommaName (s : string) : string :=
  let '(first, second, found) := Cut s ","%char in
  if negb found then s
  else
    let first := TrimSpace first in
    let second := TrimSpace second in
    if (first =? "")%string || (second =? "")%string then s else second ++ " " ++ first.

Definition foldDiacritics (s : string) : string :=
  of_runes (List.filter (fun r => negb (is_Mn r)) (runes (NFD s))).

Definition applyNicknameFold (s : string) : string :=
  match Fields s with
  | [] => ""
  | first :: rest => String.concat " " (default first (nicknameFold !! first) :: rest)
  end.

Definition NormalizeName (s : string) : string :=
  let s := ToLower unicode_lower (TrimSpace s) in
  if (s =? "")%string then ""
  else
    let s := stripLeadingTitle s in
    let s := reorderCommaName s in
    let s := stripLeadingTitle s in
    let s := foldDiacritics s in
    let s := applyNicknameFold s in
    let s := String.concat " " (Fields s) in
    TrimSpace s.

(** The loop over the people; it returns at the second match. *)
Fixpoint match_loop {P} (name_of id_of : P -> string) (normalizedName : string) (matched : option string) (people : list P)
  : option string :=
  match people with
  | [] => matched
  | p :: rest =>
      if negb (NormalizeName (name_of p) =? normalizedName)%string then match_loop name_of id_of normalizedName matched rest
      else
        match matched with
        | Some _ => None
        | None => match_loop name_of id_of normalizedName (Some (id_of p)) rest
        end
  end.

(** [None] is ["", false]. *)
Definition MatchPersonByName {P} (name_of id_of : P -> string) (name : string) (people : list P) : option string :=
  let normalizedName := NormalizeName name in
  if (normalizedName =? "")%string then None else match_loop name_of id_of normalizedName None people.

(** *** A match is the only one *)

Section Matching.
Context {P : Type}.
Variable name_of id_of : P -> string.

Definition same_name (name : string) (p : P) : bool := (NormalizeName (name_of p) =? NormalizeName name)%string.

Lemma match_loop_matched name matched people :
  match_loop name_of id_of (NormalizeName name) matched people =
  match matched, List.filter (same_name name) people with
  | m, [] => m
  | None, [p] => Some (id_of p)
  | _, _ => None
  end.
Proof.
  revert matched. induction people as [|p people IH]; intros matched; cbn; [by destruct matched|].
  fold (same_name name p). destruct (same_name name p); cbn; [|apply IH]. destruct matched; [done|]. rewrite IH.
  by destruct (List.filter (same_name name) people).
Qed.

Lemma MatchPersonByName_eq name people :
  MatchPersonByName name_of id_of name people =
  if (NormalizeName name =? "")%string then None
  else match List.filter (same_name name) people with [p] => Some (id_of p) | _ => None end.
Proof.
  unfold MatchPersonByName. destruct (_ =? "")%string; [done|]. rewrite match_loop_matched.
  by destruct (List.filter _ people) as [|? []].
Qed.
End Matching.

(** *** What is left after removing duplicates *)

(** The attendees with the key [k], in order. *)
Definition with_key (k : string) (l : list Attendee) : list Attendee :=
  List.filter (fun a => (email_key (at_Email a) =? k)%string) l.

(** The first attendee of a key, under the first non-empty name of it. *)
Definition first_name (l : list Attendee) : string :=
  match List.filter (fun a => negb (at_Name a =? "")%string) l with a :: _ => at_Name a | [] => "" end.

Definition representative (l : list Attendee) : option Attendee :=
  match l with
  | [] => None
  | a :: _ => Some (rename_attendee (first_name l) a)
  end.
End Names.
