(* ===== verification/People.v ===== *)
(** People and companies: [internal/store/people.go], and what derives and
    links them, [internal/people/derive.go] and [link.go].

    [pdb] holds the tables these read and write; notes and calendar events are
    only read.  The columns of [companies] and [people] are those of the Go
    structs.  A person is referenced by speaker aliases and by action items, a
    company by people, all [ON DELETE SET NULL].  [now] is the database clock. *)

From stdpp Require Import base list strings sets gmap.
From Stdlib Require Import Ascii ZArith Lia.
From S2P Require Import GoInt GoStrings Sql Folders Execution Notes Transcripts Jobs Templates Summaries Transactions AgentTables.
From S2P Require Import Speakers ActionItems Calls Briefs PeopleNames.

Local Open Scope string_scope.

Record Company := mkCompany {
  co_ID : string; co_OwnerID : string; co_Domain : string; co_Name : string; co_CreatedAt : Z; co_UpdatedAt : Z }.

Record Person := mkPerson {
  ps_ID : string; ps_OwnerID : string; PrimaryEmail : string; ps_DisplayName : string; CompanyID : option string;
  FirstSeenAt : Z; ps_UpdatedAt : Z }.

Record pdb := mkPdb {
  q_companies : list Company; q_people : list Person; q_aliases : list alias_row; q_items : list ActionItem;
  q_notes : list note_row; q_events : list CalendarEvent }.

Definition put_companies (x : list Company) (d : pdb) : pdb := let 'mkPdb _ p a i n e := d in mkPdb x p a i n e.
Definition put_people (x : list Person) (d : pdb) : pdb := let 'mkPdb c _ a i n e := d in mkPdb c x a i n e.
Definition put_aliases (x : list alias_row) (d : pdb) : pdb := let 'mkPdb c p _ i n e := d in mkPdb c p x i n e.
Definition put_items (x : list ActionItem) (d : pdb) : pdb := let 'mkPdb c p a _ n e := d in mkPdb c p a x n e.

Definition company_is (id : string) (c : Company) : bool := (co_ID c =? id)%string.
Definition person_is (id : string) (p : Person) : bool := (ps_ID p =? id)%string.
Definition company_owned (ownerID id : string) (c : Company) : bool := company_is id c && (co_OwnerID c =? ownerID)%string.
Definition person_owned (ownerID id : string) (p : Person) : bool := person_is id p && (ps_OwnerID p =? ownerID)%string.

Definition with_company (c : option string) (now : Z) (p : Person) : Person :=
  mkPerson (ps_ID p) (ps_OwnerID p) (PrimaryEmail p) (ps_DisplayName p) c (FirstSeenAt p) now.
Definition set_alias_person (x : option string) (r : alias_row) : alias_row :=
  mkAliasRow (ar_note r) (ar_owner r) (ar_label r) (ar_name r) x.
Definition set_item_person (x : option string) (i : ActionItem) : ActionItem := with_item (ai_Text i) (ai_Status i) x i.

(** *** Foreign keys *)

(** [DELETE FROM companies WHERE p] *)
Definition delete_companies (hit : Company -> bool) (d : pdb) : pdb :=
  let gone c := match c with Some id => exists_where (fun c => company_is id c && hit c) (q_companies d) | None => false end in
  put_people (update_where (fun p => gone (CompanyID p)) (fun p => with_company None (ps_UpdatedAt p) p) (q_people d))
    (put_companies (delete_where hit (q_companies d)) d).

(** [DELETE FROM people WHERE p] *)
Definition delete_people (hit : Person -> bool) (d : pdb) : pdb :=
  let gone x := match x with Some id => exists_where (fun p => person_is id p && hit p) (q_people d) | None => false end in
  put_items (update_where (fun i => gone (OwnerPersonID i)) (set_item_person None) (q_items d))
    (put_aliases (update_where (fun r => gone (ar_person r)) (set_alias_person None) (q_aliases d))
    (put_people (delete_where hit (q_people d)) d)).

Definition company_exists (c : option string) (d : pdb) : bool :=
  match c with Some id => exists_where (company_is id) (q_companies d) | None => true end.

(** ** Companies *)

Definition same_domain (ownerID domain : string) (c : Company) : bool :=
  (co_OwnerID c =? ownerID)%string && (co_Domain c =? domain)%string.

(** [COALESCE(NULLIF(new,''), old)] *)
Definition non_empty_or (new old : string) : string := if (new =? "")%string then old else new.

Definition UpsertCompany (uuid : string) (now : Z) (ownerID domain name : string) (d : pdb) : result store_error Company * pdb :=
  let hit := same_domain ownerID domain in
  let renamed c := mkCompany (co_ID c) (co_OwnerID c) (co_Domain c) (non_empty_or name (co_Name c)) (co_CreatedAt c) now in
  match select_where hit (q_companies d) with
  | c :: _ => (Ok (renamed c), put_companies (update_where hit renamed (q_companies d)) d)
  | [] =>
      if exists_where (company_is uuid) (q_companies d) then (Err UniqueViolation, d)
      else
        let c := mkCompany uuid ownerID domain name now now in
        (Ok c, put_companies (q_companies d ++ [c])%list d)
  end.

Definition GetCompany (ownerID id : string) (d : pdb) : result store_error Company :=
  match select_where (company_owned ownerID id) (q_companies d) with c :: _ => Ok c | [] => Err ErrNotFound end.

(** The transaction of [MergeCompanies], on the uuids the arguments denote. *)
Definition merge_companies_tx (now : Z) (ownerID fromID intoID : string) (d : pdb) : result store_error unit * pdb :=
  let fromOwned := exists_where (company_owned ownerID fromID) (q_companies d) in
  let intoOwned := exists_where (company_owned ownerID intoID) (q_companies d) in
  if negb fromOwned || negb intoOwned then (Err ErrNotFound, d)
  else
    let d1 := put_people (update_where (fun p => (ps_OwnerID p =? ownerID)%string && bool_decide (CompanyID p = Some fromID))
                            (with_company (Some intoID) now) (q_people d)) d in
    if (rows_affected (company_owned ownerID fromID) (q_companies d1) =? 0)%nat then (Err ErrNotFound, d)
    else (Ok tt, delete_companies (company_owned ownerID fromID) d1).

(** The ids are compared as text; [canon] is the uuid a text denotes. *)
Definition MergeCompanies (canon : string -> string) (now : Z) (ownerID fromID intoID : string) (d : pdb)
  : result store_error unit * pdb :=
  if (fromID =? intoID)%string then (Err ErrInvalidMerge, d)
  else merge_companies_tx now ownerID (canon fromID) (canon intoID) d.

(** ** People *)

Definition same_email (ownerID email : string) (p : Person) : bool :=
  (ps_OwnerID p =? ownerID)%string && (PrimaryEmail p =? email)%string.

(** [COALESCE(new, old)] *)
Definition coalesce {A} (new old : option A) : option A := match new with Some _ => new | None => old end.

Definition GetPerson (ownerID id : string) (d : pdb) : result store_error Person :=
  match select_where (person_owned ownerID id) (q_people d) with p :: _ => Ok p | [] => Err ErrNotFound end.

Section Names.
Variable unicode_lower : string -> string.

Definition UpsertPerson (uuid : string) (now : Z) (ownerID email name : string) (companyID : option string) (d : pdb)
  : result store_error Person * pdb :=
  let email := email_key unicode_lower email in
  let hit := same_email ownerID email in
  let updated p := mkPerson (ps_ID p) (ps_OwnerID p) (PrimaryEmail p) (non_empty_or name (ps_DisplayName p))
                     (coalesce companyID (CompanyID p)) (FirstSeenAt p) now in
  match select_where hit (q_people d) with
  | p :: _ =>
      if negb (company_exists companyID d) then (Err DbError, d)
      else (Ok (updated p), put_people (update_where hit updated (q_people d)) d)
  | [] =>
      if exists_where (person_is uuid) (q_people d) then (Err UniqueViolation, d)
      else if negb (company_exists companyID d) then (Err DbError, d)
      else
        let p := mkPerson uuid ownerID email name companyID now now in
        (Ok p, put_people (q_people d ++ [p])%list d)
  end.
End Names.

(** The two statements of [UpdatePerson]: the company is checked, then the
    person is written, under the foreign key on [company_id]. *)
Definition company_check (ownerID companyID : string) (d : pdb) : result store_error unit :=
  guard (exists_where (company_owned ownerID companyID) (q_companies d)) ErrNotFound.

Definition update_person (now : Z) (ownerID id : string) (displayName companyID : option string) (clearCompany : bool) (d : pdb)
  : result store_error Person * pdb :=
  let updated p := mkPerson (ps_ID p) (ps_OwnerID p) (PrimaryEmail p) (default (ps_DisplayName p) displayName)
    (if clearCompany then None else coalesce companyID (CompanyID p)) (FirstSeenAt p) now in
  match select_where (person_owned ownerID id) (q_people d) with
  | [] => (Err ErrNotFound, d)
  | p :: _ =>
      if negb clearCompany && negb (company_exists companyID d) then (Err DbError, d)
      else (Ok (updated p), put_people (update_where (person_owned ownerID id) updated (q_people d)) d)
  end.

Definition merge_people_tx (ownerID fromID intoID : string) (d : pdb) : result store_error Person * pdb :=
  let fromOwned := exists_where (person_owned ownerID fromID) (q_people d) in
  let intoOwned := exists_where (person_owned ownerID intoID) (q_people d) in
  if negb fromOwned || negb intoOwned then (Err ErrNotFound, d)
  else
    let d1 := put_aliases (update_where (fun r => (ar_owner r =? ownerID)%string && bool_decide (ar_person r = Some fromID))
                             (set_alias_person (Some intoID)) (q_aliases d)) d in
    if (rows_affected (person_owned ownerID fromID) (q_people d1) =? 0)%nat then (Err ErrNotFound, d)
    else
      let d2 := delete_people (person_owned ownerID fromID) d1 in
      match GetPerson ownerID intoID d2 with
      | Err e => (Err e, d)
      | Ok person => (Ok person, d2)
      end.

Definition MergePeople (canon : string -> string) (ownerID fromID intoID : string) (d : pdb) : result store_error Person * pdb :=
  if (fromID =? intoID)%string then (Err ErrInvalidMerge, d)
  else merge_people_tx ownerID (canon fromID) (canon intoID) d.

Definition DeletePerson (ownerID id : string) (d : pdb) : result store_error unit * pdb :=
  if (rows_affected (person_owned ownerID id) (q_people d) =? 0)%nat then (Err ErrNotFound, d)
  else (Ok tt, delete_people (person_owned ownerID id) d).

(** ** Lists *)

Section Reading.
Variable unicode_lower : string -> string.
(** The order of text in the database's collation, Postgres's [lower], and
    [value ILIKE pattern]. *)
Variable text_lt : string -> string -> bool.
Variable lower : string -> string.
Variable ilike : string -> string -> bool.

Definition by_domain (a b : Company) : bool := text_lt (co_Domain a) (co_Domain b).

(** [ORDER BY display_name, primary_email] *)
Definition by_name (a b : Person) : bool :=
  text_lt (ps_DisplayName a) (ps_DisplayName b) ||
  ((ps_DisplayName a =? ps_DisplayName b)%string && text_lt (PrimaryEmail a) (PrimaryEmail b)).

Definition company_of_owner (ownerID : string) (c : Company) : bool := (co_OwnerID c =? ownerID)%string.
Definition person_of_owner (ownerID : string) (p : Person) : bool := (ps_OwnerID p =? ownerID)%string.

Definition ListCompanies (ownerID : string) (d : pdb) : list Company :=
  order_by by_domain (select_where (company_of_owner ownerID) (q_companies d)).

Definition pattern (q : string) : string := "%" ++ q ++ "%".

(** [LEFT JOIN people ... COUNT(p.id)] *)
Definition people_count (c : Company) (d : pdb) : nat :=
  rows_affected (fun p => bool_decide (CompanyID p = Some (co_ID c)) && person_of_owner (co_OwnerID c) p) (q_people d).

Definition ListCompaniesWithPeopleCount (ownerID q : string) (d : pdb) : list (Company * nat) :=
  map (fun c => (c, people_count c d))
    (order_by by_domain (select_where (fun c => company_of_owner ownerID c &&
      ((q =? "")%string || ilike (co_Name c) (pattern q) || ilike (co_Domain c) (pattern q))) (q_companies d))).

Definition ListPeopleByCompany (ownerID companyID : string) (d : pdb) : list Person :=
  order_by by_name (select_where (fun p => person_of_owner ownerID p && bool_decide (CompanyID p = Some companyID)) (q_people d)).

Definition ListPeople (ownerID q : string) (d : pdb) : list Person :=
  order_by by_name (select_where (fun p => person_of_owner ownerID p &&
    ((q =? "")%string || ilike (ps_DisplayName p) (pattern q) || ilike (PrimaryEmail p) (pattern q))) (q_people d)).

(** The addresses of an event's attendees, each once. *)
Fixpoint attendee_emails (seen : gset string) (attendees : list Attendee) : list string :=
  match attendees with
  | [] => []
  | a :: rest =>
      let email := email_key unicode_lower (at_Email a) in
      if (email =? "")%string || bool_decide (email ∈ seen) then attendee_emails seen rest
      else email :: attendee_emails ({[email]} ∪ seen) rest
  end.

Definition PeopleForNoteEvent (ownerID noteID : string) (d : pdb) : result store_error (list Person) :=
  match select_where (fun r => note_is noteID r && owned ownerID r && row_live r) (q_notes d) with
  | [] => Err ErrNotFound
  | r :: _ =>
      match row_event r with
      | None => Ok []
      | Some eventID =>
          match select_where (fun e => event_is eventID e && owned_event ownerID e) (q_events d) with
          | [] => Err ErrNotFound
          | e :: _ =>
              let emails := attendee_emails ∅ (Attendees e) in
              if (length emails =? 0)%nat then Ok []
              else Ok (order_by by_name (select_where (fun p => person_of_owner ownerID p &&
                         bool_decide (lower (PrimaryEmail p) ∈ emails)) (q_people d)))
          end
      end
  end.

Definition PeopleForNoteSpeakers (ownerID noteID : string) (d : pdb) : list Person :=
  order_by by_name (select_where (fun p => person_of_owner ownerID p &&
    exists_where (fun r => bool_decide (ar_person r = Some (ps_ID p)) && aliases_for ownerID noteID r) (q_aliases d)) (q_people d)).

(** ** Derivation *)

Section Derive.
Variable others : nat -> pdb -> pdb.
Variable fails : nat -> bool.
Variable EffectiveTLDPlusOne : string -> option string.
(** The id and the database clock of a store call, by its number. *)
Variable uuid : nat -> string.
Variable dbnow : nat -> Z.

Local Notation "'pass!' x := m 'in' k" := (pass_bind m (fun x => k))
  (at level 10, x pattern, m at level 100, k at level 200, only parsing).
Local Abbreviation call := (store_call others fails).

Definition uniqueAttendeesFromEvents (events : list CalendarEvent) : list Attendee :=
  DedupByEmail unicode_lower (flat_map Attendees events).

Definition errors_of {A} (r : result store_error A) : list store_error := match r with Ok _ => [] | Err e => [e] end.

(** One round of the loop; the errors it adds to [errs]. *)
Definition derive_attendee (ownerID : string) (attendee : Attendee) : Pass pdb (list store_error) :=
  let email := at_Email attendee in
  pass! company := (match CompanyDomain unicode_lower EffectiveTLDPlusOne email with
                    | (domain, true) =>
                        pass! r := attempt (call (fun n => UpsertCompany (uuid n) (dbnow n) ownerID domain "")) in
                        pass_ret (Some r)
                    | (_, false) => pass_ret None
                    end) in
  let companyID := match company with Some (Ok c) => Some (co_ID c) | Some (Err _) | None => None end in
  pass! person := attempt (call (fun n => UpsertPerson unicode_lower (uuid n) (dbnow n) ownerID email (at_Name attendee) companyID)) in
  pass_ret (match company with Some r => errors_of r | None => [] end ++ errors_of person)%list.

Fixpoint derive_each (ownerID : string) (attendees : list Attendee) : Pass pdb (list store_error) :=
  match attendees with
  | [] => pass_ret []
  | a :: rest =>
      pass! errs := derive_attendee ownerID a in
      pass! more := derive_each ownerID rest in
      pass_ret (errs ++ more)%list
  end.

Definition derive_window : Z := (365 * 24 * 3600 * second)%Z.

(** The empty list is [nil]. *)
Definition DerivePeople (now : Z) (ownerID : string) : Pass pdb (list store_error) :=
  pass! events := attempt (call (fun _ d =>
    (Ok (events_between text_lt ownerID (now - derive_window)%Z (now + derive_window)%Z (q_events d)), d))) in
  match events with
  | Err e => pass_ret [e]
  | Ok events => derive_each ownerID (uniqueAttendeesFromEvents events)
  end.

(** ** Linking speakers *)

Variable NFD : string -> string.
Variable is_Mn : string -> bool.

Definition set_alias_person_call (ownerID noteID label : string) (personID : option string) (d : pdb)
  : result store_error unit * pdb :=
  let '(r, t) := SetSpeakerAliasPerson (map ps_ID (q_people d)) ownerID noteID label personID (q_aliases d) in
  (r, put_aliases t d).

Definition link_alias (ownerID noteID : string) (people : list Person) (firstErr : option store_error) (alias : SpeakerAlias)
  : Pass pdb (option store_error) :=
  if (AliasName alias =? "")%string || bool_decide (is_Some (alias_PersonID alias)) then pass_ret firstErr
  else
    match MatchPersonByName unicode_lower NFD is_Mn ps_DisplayName ps_ID (AliasName alias) people with
    | None => pass_ret firstErr
    | Some personID =>
        pass! r := attempt (call (fun _ => set_alias_person_call ownerID noteID (SpeakerLabel alias) (Some personID))) in
        pass_ret (match firstErr, r with None, Err e => Some e | _, _ => firstErr end)
    end.

Fixpoint link_each (ownerID noteID : string) (people : list Person) (firstErr : option store_error) (aliases : list SpeakerAlias)
  : Pass pdb (option store_error) :=
  match aliases with
  | [] => pass_ret firstErr
  | a :: rest =>
      pass! firstErr := link_alias ownerID noteID people firstErr a in
      link_each ownerID noteID people firstErr rest
  end.

Definition LinkNoteSpeakers (ownerID noteID : string) : Pass pdb (option store_error) :=
  pass! aliases := attempt (call (fun _ d => (Ok (ListSpeakerAliases text_lt ownerID noteID (q_aliases d)), d))) in
  pass! people := attempt (call (fun _ d => (PeopleForNoteEvent ownerID noteID d, d))) in
  pass! people := (match people with
                   | Ok [] => attempt (call (fun _ d => (Ok (ListPeople ownerID "" d), d)))
                   | r => pass_ret r
                   end) in
  let firstErr := match aliases, people with
                  | Err e, _ => Some e
                  | Ok _, Err e => Some e
                  | Ok _, Ok _ => None
                  end in
  link_each ownerID noteID (match people with Ok p => p | Err _ => [] end) firstErr
    (match aliases with Ok a => a | Err _ => [] end).
End Derive.
End Reading.
