(* ===== verification/PeopleProps.v ===== *)
(** What the tables of people keep: every reference stays within its owner.

    [people_ok] is the invariant of the tables of People.v; the first part
    proves that each store operation keeps it, the second what a merge and a
    deletion change. *)

From stdpp Require Import base list strings sets gmap.
From Stdlib Require Import Ascii ZArith Lia.
From S2P Require Import GoInt GoStrings Sql Folders Execution Notes Transcripts Jobs Templates Summaries Transactions AgentTables.
From S2P Require Import Speakers ActionItems Calls Briefs PeopleNames People.

Local Open Scope string_scope.

#[local] Arguments update_where {row} p f t : simpl never.
#[local] Arguments delete_where {row} p t : simpl never.
#[local] Arguments exists_where {row} p t : simpl never.
#[local] Arguments select_where {row} p t : simpl never.
#[local] Arguments rows_affected {row} p t : simpl never.

Definition company_key (c : Company) : string * string := (co_OwnerID c, co_Domain c).
Definition person_key (p : Person) : string * string := (ps_OwnerID p, PrimaryEmail p).

Definition has_company (d : pdb) (id ownerID : string) : Prop :=
  exists c, c ∈ q_companies d /\ co_ID c = id /\ co_OwnerID c = ownerID.
Definition has_person (d : pdb) (id ownerID : string) : Prop :=
  exists p, p ∈ q_people d /\ ps_ID p = id /\ ps_OwnerID p = ownerID.

Record people_ok (d : pdb) : Prop := mkOk {
  ok_company_ids : NoDup (map co_ID (q_companies d));
  ok_domains : NoDup (map company_key (q_companies d));
  ok_person_ids : NoDup (map ps_ID (q_people d));
  ok_emails : NoDup (map person_key (q_people d));
  ok_people : forall p c, p ∈ q_people d -> CompanyID p = Some c -> has_company d c (ps_OwnerID p);
  ok_aliases : forall r x, r ∈ q_aliases d -> ar_person r = Some x -> has_person d x (ar_owner r);
  ok_items : forall i x, i ∈ q_items d -> OwnerPersonID i = Some x -> has_person d x (ai_OwnerID i) }.

(** ** Conditions *)

Lemma company_owned_true o id c : company_owned o id c = true <-> co_ID c = id /\ co_OwnerID c = o.
Proof. unfold company_owned, company_is. by rewrite andb_true_iff, !String.eqb_eq. Qed.

Lemma person_owned_true o id p : person_owned o id p = true <-> ps_ID p = id /\ ps_OwnerID p = o.
Proof. unfold person_owned, person_is. by rewrite andb_true_iff, !String.eqb_eq. Qed.

Lemma same_domain_true o dom c : same_domain o dom c = true <-> company_key c = (o, dom).
Proof. unfold same_domain, company_key. rewrite andb_true_iff, !String.eqb_eq. split; [by intros [-> ->]|by intros [= -> ->]]. Qed.

Lemma same_email_true o e p : same_email o e p = true <-> person_key p = (o, e).
Proof. unfold same_email, person_key. rewrite andb_true_iff, !String.eqb_eq. split; [by intros [-> ->]|by intros [= -> ->]]. Qed.

Lemma exists_company_owned o id d : exists_where (company_owned o id) (q_companies d) = true <-> has_company d id o.
Proof. rewrite exists_where_true. unfold has_company. by setoid_rewrite company_owned_true. Qed.

Lemma exists_person_owned o id d : exists_where (person_owned o id) (q_people d) = true <-> has_person d id o.
Proof. rewrite exists_where_true. unfold has_person. by setoid_rewrite person_owned_true. Qed.

Lemma company_exists_has o c d : has_company d c o -> company_exists (Some c) d = true.
Proof.
  intros (k & Hk & <- & _). cbn. apply exists_where_true. exists k. split; [done|]. unfold company_is. apply String.eqb_refl.
Qed.

(** A row whose key no row has. *)
Lemma select_nil_key {row K} (h : row -> K) (hit : row -> bool) k t :
  (forall r, hit r = true <-> h r = k) -> select_where hit t = [] -> k ∉ map h t.
Proof.
  intros Hh Hs. rewrite list_elem_of_fmap. intros (r & E & Hr). assert (Hin : r ∈ select_where hit t); [|by rewrite Hs in Hin; apply elem_of_nil in Hin].
  apply elem_of_select_where. split; [done|]. by apply Hh.
Qed.

Lemma fresh_key {row} (h : row -> string) id t : exists_where (fun r => (h r =? id)%string) t = false -> id ∉ map h t.
Proof.
  intros He. rewrite list_elem_of_fmap. intros (r & E & Hr). rewrite exists_where_false in He. specialize (He r Hr).
  cbn in He. by rewrite <- E, String.eqb_refl in He.
Qed.

(** ** Companies and people that stay *)

Lemma has_company_update f (hit : Company -> bool) d id o :
  (forall c, co_ID (f c) = co_ID c /\ co_OwnerID (f c) = co_OwnerID c) ->
  has_company d id o -> has_company (put_companies (update_where hit f (q_companies d)) d) id o.
Proof.
  intros Hf (c & Hc & <- & <-). destruct d. cbn in *. exists (if hit c then f c else c). split; [apply elem_of_update_where; eauto|].
  destruct (hit c); [apply Hf|done].
Qed.

Lemma has_person_update f (hit : Person -> bool) d id o :
  (forall p, ps_ID (f p) = ps_ID p /\ ps_OwnerID (f p) = ps_OwnerID p) ->
  has_person (put_people (update_where hit f (q_people d)) d) id o <-> has_person d id o.
Proof.
  intros Hf. destruct d. unfold has_person. cbn. setoid_rewrite elem_of_update_where. split.
  - intros (p & (p0 & Hp & ->) & <- & <-). exists p0. split; [done|]. destruct (hit p0); [|done].
    by destruct (Hf p0) as [-> ->].
  - intros (p & Hp & <- & <-). exists (if hit p then f p else p). split; [eauto|]. destruct (hit p); [apply Hf|done].
Qed.

(** Changing the companies keeps the invariant when no company is lost. *)
Lemma ok_put_companies cs d :
  people_ok d -> NoDup (map co_ID cs) -> NoDup (map company_key cs) ->
  (forall id o, has_company d id o -> has_company (put_companies cs d) id o) -> people_ok (put_companies cs d).
Proof.
  intros [] Hi Hd Hc. destruct d. cbn in *. constructor; cbn; try done. intros p c Hp E. apply Hc. eauto.
Qed.

(** Changing the people keeps it when no person is lost and companies are of
    the owner. *)
Lemma ok_put_people ps d :
  people_ok d -> NoDup (map ps_ID ps) -> NoDup (map person_key ps) ->
  (forall id o, has_person d id o -> has_person (put_people ps d) id o) ->
  (forall p c, p ∈ ps -> CompanyID p = Some c -> has_company d c (ps_OwnerID p)) -> people_ok (put_people ps d).
Proof.
  intros [] Hi He Hp Hc. destruct d. cbn in *. constructor; cbn; try done; intros; apply Hp; eauto.
Qed.

(** An update of people that keeps ids, owners and addresses. *)
Lemma ok_update_people f (hit : Person -> bool) d :
  people_ok d -> (forall p, ps_ID (f p) = ps_ID p /\ person_key (f p) = person_key p) ->
  (forall p c, p ∈ q_people d -> hit p = true -> CompanyID (f p) = Some c -> has_company d c (ps_OwnerID p)) ->
  people_ok (put_people (update_where hit f (q_people d)) d).
Proof.
  intros Hok Hf Hc. assert (Ho : forall p, ps_OwnerID (f p) = ps_OwnerID p).
  { intros p. destruct (Hf p) as [_ E]. unfold person_key in E. by injection E. }
  apply ok_put_people; [done|rewrite map_update_where; [apply Hok|intros; apply Hf]..| |].
  - intros id o. apply has_person_update. intros p. split; [apply Hf|apply Ho].
  - intros p c (p0 & Hp0 & ->)%elem_of_update_where E. destruct (hit p0) eqn:Eh; [|by apply Hok].
    rewrite Ho. by apply Hc.
Qed.

(** ** The operations keep the invariant *)

Lemma UpsertCompany_ok uuid now o dom name d : people_ok d -> people_ok (UpsertCompany uuid now o dom name d).2.
Proof.
  intros Hok. unfold UpsertCompany. set (hit := same_domain o dom). destruct (select_where hit (q_companies d)) as [|c l] eqn:E; cbn.
  - destruct (exists_where _ _) eqn:Ei; [done|]. cbn.
    apply fresh_key in Ei. apply (select_nil_key company_key _ (o, dom)) in E; [|apply same_domain_true].
    apply ok_put_companies; [done|..].
    + rewrite map_app. apply NoDup_snoc; [apply Hok|done].
    + rewrite map_app. apply NoDup_snoc; [apply Hok|done].
    + intros id o' (k & Hk & ?). destruct d. exists k. split; [|done]. cbn in *. apply elem_of_app. by left.
  - apply ok_put_companies; [done|rewrite map_update_where by done; apply Hok..|]. intros id o'. by apply has_company_update.
Qed.

Lemma UpsertPerson_ok ul uuid now o email name c d :
  people_ok d -> (forall x, c = Some x -> company_exists c d = true -> has_company d x o) ->
  people_ok (UpsertPerson ul uuid now o email name c d).2.
Proof.
  intros Hok Hc. unfold UpsertPerson. set (hit := same_email o _). destruct (select_where hit (q_people d)) as [|p l] eqn:E; cbn.
  - destruct (exists_where _ _) eqn:Ei; [done|]. destruct (company_exists c d) eqn:Ec; [cbn|done].
    apply fresh_key in Ei. apply (select_nil_key person_key _ (o, email_key ul email)) in E; [|apply same_email_true].
    apply ok_put_people; [done|rewrite map_app; apply NoDup_snoc; [apply Hok|done]..| |].
    + intros id o' (k & Hk & ?). destruct d. exists k. split; [|done]. cbn in *. apply elem_of_app. by left.
    + intros q x [Hq| ->%list_elem_of_singleton]%elem_of_app; [by apply Hok|]. cbn. intros ->. by apply Hc.
  - destruct (company_exists c d) eqn:Ec; [cbn|done]. apply ok_update_people; [done..|].
    intros q x Hq Hh. cbn. destruct c as [y|]; cbn; [|by apply Hok]. intros [= ->].
    apply same_email_true in Hh. injection Hh as -> _. by apply Hc.
Qed.

Lemma update_person_ok now o id name c clear d :
  people_ok d -> (forall x, c = Some x -> company_exists c d = true -> has_company d x o) ->
  people_ok (update_person now o id name c clear d).2.
Proof.
  intros Hok Hc. unfold update_person. destruct (select_where _ _); [done|]. destruct (_ && _) eqn:Ec; [done|]. cbn.
  apply ok_update_people; [done..|]. intros q x Hq [_ Ho]%person_owned_true. cbn.
  destruct clear; [done|]. destruct c as [y|]; cbn; [|by apply Hok]. intros [= ->]. rewrite Ho.
  apply Hc; [done|]. cbn [negb andb] in Ec. by apply negb_false_iff.
Qed.

Lemma gone_unhit {row} (test : string -> row -> bool) (key : row -> string) (hit : row -> bool) t x r :
  (forall r, test x r = (key r =? x)%string) -> exists_where (fun r => test x r && hit r) t = false -> r ∈ t -> key r = x -> hit r = false.
Proof.
  intros His He Hr <-. rewrite exists_where_false in He. specialize (He r Hr). cbn in He. by rewrite His, String.eqb_refl in He.
Qed.

Lemma delete_companies_ok hit d : people_ok d -> people_ok (delete_companies hit d).
Proof.
  intros [H1 H2 H3 H4 H5 H6 H7]. unfold delete_companies. destruct d as [cs ps al it ns es]. cbn in *.
  constructor; cbn; [by apply NoDup_map_delete..| | | | |].
  - rewrite map_update_where by done. done.
  - rewrite map_update_where by done. done.
  - intros p c (q & Hq & ->)%elem_of_update_where E. destruct (CompanyID q) as [x|] eqn:Eq; [|by rewrite Eq in E].
    destruct (exists_where _ cs) eqn:Eg; [done|]. rewrite Eq in E. injection E as <-.
    destruct (H5 q x Hq Eq) as (k & Hk & <- & Ho). exists k. split; [|done]. cbn. apply elem_of_delete_where. split; [done|].
    by apply (gone_unhit company_is co_ID hit cs (co_ID k)).
  - intros r x Hr E. apply (has_person_update _ _ (mkPdb _ ps al it ns es)); [done|]. eauto.
  - intros r x Hr E. apply (has_person_update _ _ (mkPdb _ ps al it ns es)); [done|]. eauto.
Qed.

Lemma delete_people_ok hit d : people_ok d -> people_ok (delete_people hit d).
Proof.
  intros [H1 H2 H3 H4 H5 H6 H7]. unfold delete_people. destruct d as [cs ps al it ns es]. cbn in *.
  assert (Hstay : forall x o, exists_where (fun p => person_is x p && hit p) ps = false ->
    has_person (mkPdb cs ps al it ns es) x o ->
    exists p, p ∈ delete_where hit ps /\ ps_ID p = x /\ ps_OwnerID p = o).
  { intros x o Eg (p & Hp & <- & <-). exists p. split; [|done]. apply elem_of_delete_where. split; [done|].
    by apply (gone_unhit person_is ps_ID hit ps (ps_ID p)). }
  constructor; cbn; [done..|by apply NoDup_map_delete|by apply NoDup_map_delete| | |].
  - intros p c [Hp _]%elem_of_delete_where E. by apply (H5 p c).
  - intros r x (q & Hq & ->)%elem_of_update_where E. destruct (ar_person q) as [y|] eqn:Eq; [|by rewrite Eq in E].
    destruct (exists_where _ ps) eqn:Eg; [done|]. rewrite Eq in E. injection E as <-. apply Hstay; [done|]. by apply H6.
  - intros r x (q & Hq & ->)%elem_of_update_where E. destruct (OwnerPersonID q) as [y|] eqn:Eq; [|by rewrite Eq in E].
    destruct (exists_where _ ps) eqn:Eg; [done|]. rewrite Eq in E. injection E as <-. apply Hstay; [done|]. by apply H7.
Qed.

Lemma MergeCompanies_ok canon now o a b d : people_ok d -> people_ok (MergeCompanies canon now o a b d).2.
Proof.
  intros Hok. unfold MergeCompanies, merge_companies_tx. destruct (a =? b)%string; [done|].
  destruct (exists_where (company_owned o (canon a)) _); [|done].
  destruct (exists_where (company_owned o (canon b)) _) eqn:Eb; [cbn|done].
  destruct (_ =? 0)%nat; [done|]. apply delete_companies_ok, ok_update_people; [done..|].
  intros p c Hp [->%String.eqb_eq _]%andb_true_iff [= <-]. by apply exists_company_owned.
Qed.

(** Changing the aliases keeps it when their people are of the owner. *)
Lemma ok_put_aliases al d :
  people_ok d -> (forall r x, r ∈ al -> ar_person r = Some x -> has_person d x (ar_owner r)) -> people_ok (put_aliases al d).
Proof. intros [] H. destruct d. by constructor. Qed.

Lemma MergePeople_ok canon o a b d : people_ok d -> people_ok (MergePeople canon o a b d).2.
Proof.
  intros Hok. unfold MergePeople, merge_people_tx. destruct (a =? b)%string; [done|].
  destruct (exists_where (person_owned o (canon a)) _); [|done].
  destruct (exists_where (person_owned o (canon b)) _) eqn:Eb; [cbn|done].
  destruct (_ =? 0)%nat; [done|]. destruct (GetPerson _ _ _); [|done]. cbn. apply delete_people_ok, ok_put_aliases; [done|].
  intros r x (q & Hq & ->)%elem_of_update_where E.
  destruct (_ && _) eqn:Eh; [|by apply (ok_aliases d Hok q x)].
  cbn in *. injection E as <-. apply andb_true_iff in Eh as [->%String.eqb_eq _]. by apply exists_person_owned.
Qed.

Lemma DeletePerson_ok o id d : people_ok d -> people_ok (DeletePerson o id d).2.
Proof. intros Hok. unfold DeletePerson. destruct (_ =? 0)%nat; [done|]. by apply delete_people_ok. Qed.

(** ** What a merge changes *)

Lemma GetPerson_some o id d p : people_ok d -> p ∈ q_people d -> ps_ID p = id -> ps_OwnerID p = o -> GetPerson o id d = Ok p.
Proof.
  intros Hok Hp <- <-. unfold GetPerson. rewrite (select_key ps_ID _ _ p); [done|apply Hok|done| |].
  - by apply person_owned_true.
  - by intros x _ [-> _]%person_owned_true.
Qed.

Lemma update_where_with {row} (p : row -> bool) f g t :
  (forall r, r ∈ t -> p r = true -> f r = g r) -> update_where p f t = update_where p g t.
Proof. intros H. unfold update_where. apply map_ext_in. intros r Hr%list_elem_of_In. destruct (p r) eqn:E; auto. Qed.

Lemma update_where_idem {row} (p : row -> bool) f t :
  (forall r, f (f r) = f r) -> update_where p f (update_where p f t) = update_where p f t.
Proof.
  intros Hf. unfold update_where. rewrite map_map. apply map_ext. intros r. destruct (p r) eqn:E; [|by rewrite E].
  by destruct (p (f r)).
Qed.

(** With unique ids, [gone] of a single row is a test of the id. *)
Lemma gone_owned {row} (key : row -> string) (own : row -> bool) t id x :
  (exists r, r ∈ t /\ key r = id /\ own r = true) ->
  exists_where (fun r => (key r =? x)%string && ((key r =? id)%string && own r)) t = (x =? id)%string.
Proof.
  intros (r & Hr & Hk & Ho). apply eq_true_iff_eq. rewrite exists_where_true, String.eqb_eq.
  setoid_rewrite andb_true_iff. setoid_rewrite andb_true_iff. setoid_rewrite String.eqb_eq. naive_solver.
Qed.

Lemma person_owner d x o o' : people_ok d -> has_person d x o -> has_person d x o' -> o = o'.
Proof.
  intros Hok (p & Hp & <- & <-) (q & Hq & E & <-). f_equal. symmetry. by eapply (key_unique ps_ID); [apply Hok|..].
Qed.

Lemma company_owner d x o o' : people_ok d -> has_company d x o -> has_company d x o' -> o = o'.
Proof.
  intros Hok (p & Hp & <- & <-) (q & Hq & E & <-). f_equal. symmetry. by eapply (key_unique co_ID); [apply Hok|..].
Qed.

Lemma gone_person o id d x : has_person d id o ->
  exists_where (fun p => person_is x p && person_owned o id p) (q_people d) = (x =? id)%string.
Proof. intros (p & Hp & E & Eo). apply (gone_owned ps_ID). exists p. by rewrite Eo, String.eqb_refl. Qed.

Lemma gone_company o id d x : has_company d id o ->
  exists_where (fun c => company_is x c && company_owned o id c) (q_companies d) = (x =? id)%string.
Proof. intros (p & Hp & E & Eo). apply (gone_owned co_ID). exists p. by rewrite Eo, String.eqb_refl. Qed.

Lemma owned_affected {row} (hit : row -> bool) t : exists_where hit t = true -> (rows_affected hit t =? 0)%nat = false.
Proof. intros H. apply Nat.eqb_neq. apply exists_where_true, rows_affected_pos in H. lia. Qed.

Lemma delete_owned_person o id d : people_ok d -> has_person d id o ->
  delete_where (person_owned o id) (q_people d) = delete_where (person_is id) (q_people d).
Proof.
  intros Hok Hp. apply delete_where_ext. intros p Hin. unfold person_owned.
  destruct (person_is id p) eqn:E; [|done]. apply String.eqb_eq in E.
  assert (ps_OwnerID p = o) as ->; [|by rewrite String.eqb_refl].
  apply (person_owner d id); [done| |done]. by exists p.
Qed.

Definition references (id : string) (x : option string) : bool := bool_decide (x = Some id).

Lemma gone_reference o id d x : has_person d id o ->
  match x with Some y => exists_where (fun p => person_is y p && person_owned o id p) (q_people d) | None => false end = references id x.
Proof.
  intros Hp. unfold references. destruct x as [y|]; [|by rewrite bool_decide_eq_false_2]. rewrite (gone_person o id) by done.
  apply eq_true_iff_eq. rewrite String.eqb_eq, bool_decide_eq_true. naive_solver.
Qed.

(** [DELETE FROM people] of one person. *)
Lemma delete_person_eq o id d : people_ok d -> has_person d id o ->
  delete_people (person_owned o id) d =
  mkPdb (q_companies d) (delete_where (person_is id) (q_people d))
    (update_where (fun r => references id (ar_person r)) (set_alias_person None) (q_aliases d))
    (update_where (fun i => references id (OwnerPersonID i)) (set_item_person None) (q_items d)) (q_notes d) (q_events d).
Proof.
  intros Hok Hp. rewrite <- (delete_owned_person o) by done. destruct d as [cs ps al it ns es]. unfold delete_people. cbn.
  f_equal; apply update_where_ext; intros r _; by apply (gone_reference o id (mkPdb cs ps al it ns es)).
Qed.

(** Pointing the references of [from] to another id and then clearing those of
    [from] is pointing them. *)
Lemma repoint_then_clear (hit : alias_row -> bool) from into t :
  from <> into -> (forall r, r ∈ t -> references from (ar_person r) = true -> hit r = true) ->
  update_where (fun r => references from (ar_person r)) (set_alias_person None)
    (update_where (fun r => hit r && references from (ar_person r)) (set_alias_person (Some into)) t) =
  update_where (fun r => references from (ar_person r)) (set_alias_person (Some into)) t.
Proof.
  intros Hne Hhit. unfold update_where. rewrite map_map. apply map_ext_in. intros r Hr%list_elem_of_In.
  destruct (references from (ar_person r)) eqn:E; [|by rewrite andb_false_r, E]. rewrite (Hhit r Hr E). cbn.
  unfold references. cbn. by rewrite bool_decide_eq_false_2 by congruence.
Qed.

Lemma GetPerson_deleted o id d al it ns es :
  GetPerson o id (mkPdb (q_companies d) (delete_where (person_is id) (q_people d)) al it ns es) = Err ErrNotFound.
Proof.
  unfold GetPerson. rewrite select_none; [done|]. cbn. intros p [_ Hp]%elem_of_delete_where. unfold person_owned. by rewrite Hp.
Qed.

Lemma GetPerson_kept o id id' d al it ns es : id <> id' ->
  GetPerson o id (mkPdb (q_companies d) (delete_where (person_is id') (q_people d)) al it ns es) = GetPerson o id d.
Proof.
  intros Hne. unfold GetPerson. cbn. rewrite select_delete; [done|]. intros p _ [<- _]%person_owned_true.
  unfold person_is. by apply String.eqb_neq.
Qed.

(** Merging two people: the caller must own both, the two must not be the
    same, whatever the text of their ids; then every alias of the first names
    the second, the first is gone, and the action items it owned have no owner;
    everything else stays, and so does everything when the merge is refused. *)
Theorem MergePeople_exact canon o a b d : people_ok d ->
  MergePeople canon o a b d =
    if (a =? b)%string then (Err ErrInvalidMerge, d)
    else if negb (exists_where (person_owned o (canon a)) (q_people d)) || negb (exists_where (person_owned o (canon b)) (q_people d))
            || (canon a =? canon b)%string then (Err ErrNotFound, d)
    else (GetPerson o (canon b) d,
          mkPdb (q_companies d) (delete_where (person_is (canon a)) (q_people d))
            (update_where (fun r => references (canon a) (ar_person r)) (set_alias_person (Some (canon b))) (q_aliases d))
            (update_where (fun i => references (canon a) (OwnerPersonID i)) (set_item_person None) (q_items d))
            (q_notes d) (q_events d)).
Proof.
  intros Hok. unfold MergePeople. destruct (a =? b)%string; [done|]. generalize (canon a) (canon b). intros from into.
  unfold merge_people_tx. destruct (exists_where (person_owned o from) _) eqn:Ea; [|done].
  destruct (exists_where (person_owned o into) _) eqn:Eb; [|done]. cbn [negb orb].
  set (d1 := put_aliases _ d). assert (Hd1 : q_people d1 = q_people d /\ q_companies d1 = q_companies d /\ q_items d1 = q_items d /\
    q_notes d1 = q_notes d /\ q_events d1 = q_events d) by (by destruct d). destruct Hd1 as (E1 & E2 & E3 & E4 & E5).
  assert (Hok1 : people_ok d1).
  { apply ok_put_aliases; [done|]. intros r x (q & Hq & ->)%elem_of_update_where E.
    destruct (_ && _) eqn:Eh; [|by apply (ok_aliases d Hok q x)]. cbn in *. injection E as <-.
    apply andb_true_iff in Eh as [->%String.eqb_eq _]. by apply exists_person_owned. }
  assert (Hfrom : has_person d1 from o) by (apply exists_person_owned; by rewrite E1).
  rewrite owned_affected by (by apply exists_person_owned). rewrite (delete_person_eq o from d1) by done.
  rewrite E1, E2, E3, E4, E5. destruct (String.eqb_spec from into) as [<-|Hne]; [by rewrite GetPerson_deleted|].
  rewrite GetPerson_kept by done. apply exists_person_owned in Eb as (p & Hp & Hid & Ho).
  rewrite (GetPerson_some o into d p) by done. f_equal. f_equal.
  replace (q_aliases d1) with (update_where (fun r => (ar_owner r =? o)%string && references from (ar_person r))
    (set_alias_person (Some into)) (q_aliases d)) by (by destruct d). apply repoint_then_clear; [done|].
  intros r Hr Href%bool_decide_eq_true. apply String.eqb_eq, (person_owner d from); [done| |by apply exists_person_owned].
  by apply (ok_aliases d Hok).
Qed.

Lemma delete_company_eq o id d : people_ok d -> has_company d id o ->
  delete_companies (company_owned o id) d =
  mkPdb (delete_where (company_is id) (q_companies d))
    (update_where (fun p => references id (CompanyID p)) (fun p => with_company None (ps_UpdatedAt p) p) (q_people d))
    (q_aliases d) (q_items d) (q_notes d) (q_events d).
Proof.
  intros Hok Hc. assert (delete_where (company_owned o id) (q_companies d) = delete_where (company_is id) (q_companies d)) as Hd.
  { apply delete_where_ext. intros c Hin. unfold company_owned. destruct (company_is id c) eqn:E; [|done].
    apply String.eqb_eq in E. assert (co_OwnerID c = o) as ->; [|by rewrite String.eqb_refl].
    apply (company_owner d id); [done| |done]. by exists c. }
  unfold delete_companies. rewrite Hd. destruct d as [cs ps al it ns es]. cbn. f_equal. apply update_where_ext. intros p _.
  unfold references. destruct (CompanyID p) as [y|]; [|done]. pose proof (gone_company o id _ y Hc) as Hg. cbn in Hg. rewrite Hg.
  apply eq_true_iff_eq. rewrite String.eqb_eq, bool_decide_eq_true. naive_solver.
Qed.

(** Merging two companies moves the people of the first to the second and
    removes the first, when the caller owns both; nothing changes on an error.
    Two texts of one uuid are not recognised: then that company is removed and
    its people have none. *)
Theorem MergeCompanies_exact canon now o a b d : people_ok d ->
  MergeCompanies canon now o a b d =
    if (a =? b)%string then (Err ErrInvalidMerge, d)
    else if negb (exists_where (company_owned o (canon a)) (q_companies d)) ||
            negb (exists_where (company_owned o (canon b)) (q_companies d)) then (Err ErrNotFound, d)
    else (Ok tt,
          mkPdb (delete_where (company_is (canon a)) (q_companies d))
            (update_where (fun p => references (canon a) (CompanyID p))
               (with_company (if (canon a =? canon b)%string then None else Some (canon b)) now) (q_people d))
            (q_aliases d) (q_items d) (q_notes d) (q_events d)).
Proof.
  intros Hok. unfold MergeCompanies. destruct (a =? b)%string; [done|]. generalize (canon a) (canon b). intros from into.
  unfold merge_companies_tx. destruct (exists_where (company_owned o from) _) eqn:Ea; [|done].
  destruct (exists_where (company_owned o into) _) eqn:Eb; [|done]. cbn [negb orb].
  apply exists_company_owned in Ea, Eb. set (d1 := put_people _ d).
  assert (Hd1 : q_companies d1 = q_companies d) by (by destruct d).
  assert (Hok1 : people_ok d1).
  { apply ok_update_people; [done..|]. intros p c Hp [->%String.eqb_eq _]%andb_true_iff [= <-]. done. }
  assert (Hfrom : has_company d1 from o) by (by destruct d).
  rewrite owned_affected by (by apply exists_company_owned). rewrite (delete_company_eq o from d1) by done.
  assert (Hown : forall p, p ∈ q_people d -> references from (CompanyID p) = true -> (ps_OwnerID p =? o)%string = true).
  { intros p Hp Href%bool_decide_eq_true. apply String.eqb_eq, (company_owner d from); [done| |done]. by apply (ok_people d Hok). }
  subst d1. destruct d as [cs ps al it ns es]. cbn in *. do 2 f_equal. unfold update_where. rewrite map_map. apply map_ext_in.
  intros p Hp%list_elem_of_In. fold (references from (CompanyID p)). destruct (references from (CompanyID p)) eqn:E.
  - rewrite (Hown p Hp E). cbn. unfold references. cbn. destruct (String.eqb_spec from into) as [->|Hne].
    + by rewrite bool_decide_eq_true_2.
    + by rewrite bool_decide_eq_false_2 by congruence.
  - rewrite andb_false_r, E. done.
Qed.
