(* ===== verification/PeopleRuns.v ===== *)
(** Deriving people from attendees and linking speakers to them.

    The attendees left after removing duplicates are given by a reference
    definition; a derivation settles each attendee whose own store calls
    succeed, whatever happens to the others, and deriving again changes nothing
    but the times of update. *)

From stdpp Require Import base list strings sets gmap.
From Stdlib Require Import Ascii ZArith Lia.
From S2P Require Import GoInt GoStrings Sql Folders Execution Notes Transcripts Jobs Templates Summaries Transactions AgentTables.
From S2P Require Import Speakers ActionItems Calls Briefs PeopleNames People PeopleProps.

Local Open Scope string_scope.

#[local] Arguments update_where {row} p f t : simpl never.
#[local] Arguments delete_where {row} p t : simpl never.
#[local] Arguments exists_where {row} p t : simpl never.
#[local] Arguments select_where {row} p t : simpl never.

(** ** Attendees without duplicates *)

(** The elements of a list in the order of their first occurrences. *)
Definition firsts (l : list string) : list string :=
  fold_left (fun out k => if bool_decide (k ∈ out) then out else (out ++ [k])%list) l [].

Lemma firsts_snoc l k : firsts (l ++ [k]) = if bool_decide (k ∈ firsts l) then firsts l else (firsts l ++ [k])%list.
Proof. unfold firsts. by rewrite fold_left_app. Qed.

Lemma elem_of_firsts l k : k ∈ firsts l <-> k ∈ l.
Proof.
  revert k. induction l as [|x l IH] using rev_ind; intros k; [done|]. rewrite firsts_snoc, elem_of_app, list_elem_of_singleton, <- IH.
  case_bool_decide; [naive_solver|]. by rewrite elem_of_app, list_elem_of_singleton.
Qed.

Lemma NoDup_firsts l : NoDup (firsts l).
Proof.
  induction l as [|x l IH] using rev_ind; [constructor|]. rewrite firsts_snoc. case_bool_decide; [done|]. by apply NoDup_snoc.
Qed.

Section Dedup.
Variable unicode_lower : string -> string.
Local Abbreviation key a := (email_key unicode_lower (at_Email a)).
Local Abbreviation with_key := (with_key unicode_lower).

Definition attendee_keys (l : list Attendee) : list string :=
  firsts (List.filter (fun k => negb (k =? "")%string) (map (fun a => key a) l)).

Lemma attendee_keys_snoc l a : attendee_keys (l ++ [a]) =
  if (key a =? "")%string || bool_decide (key a ∈ attendee_keys l) then attendee_keys l else (attendee_keys l ++ [key a])%list.
Proof.
  unfold attendee_keys. rewrite map_app, List.filter_app. cbn. destruct (key a =? "")%string; cbn; [by rewrite app_nil_r|].
  apply firsts_snoc.
Qed.

Lemma elem_of_attendee_keys k l : k ∈ attendee_keys l <-> k <> "" /\ exists a, a ∈ l /\ key a = k.
Proof.
  unfold attendee_keys. rewrite elem_of_firsts, list_elem_of_In, filter_In, <- list_elem_of_In, negb_true_iff, String.eqb_neq, list_elem_of_fmap.
  naive_solver.
Qed.

Lemma with_key_snoc k l a : with_key k (l ++ [a]) = (with_key k l ++ if (key a =? k)%string then [a] else [])%list.
Proof. unfold PeopleNames.with_key. by rewrite List.filter_app. Qed.

Lemma first_name_snoc l a : first_name (l ++ [a]) = if (first_name l =? "")%string then at_Name a else first_name l.
Proof.
  unfold first_name. rewrite List.filter_app. cbn. destruct (List.filter _ l) as [|b m] eqn:E; cbn.
  - by destruct (String.eqb_spec (at_Name a) "") as [->|].
  - assert (Hb : b ∈ List.filter (fun a => negb (at_Name a =? "")%string) l) by (rewrite E; left).
    rewrite list_elem_of_In, filter_In in Hb. destruct Hb as [_ Hb%negb_true_iff]. by rewrite Hb.
Qed.

Lemma rename_same a : rename_attendee (at_Name a) a = a.
Proof. by destruct a. Qed.

Lemma representative_snoc l a b : representative l = Some b ->
  representative (l ++ [a]) =
  Some (if (at_Name b =? "")%string && negb (at_Name a =? "")%string then rename_attendee (at_Name a) b else b).
Proof.
  destruct l as [|x l]; [done|]. intros [= <-]. cbn [representative app]. f_equal.
  change (x :: l ++ [a])%list with ((x :: l) ++ [a])%list. rewrite first_name_snoc. cbn [at_Name rename_attendee].
  destruct (String.eqb_spec (first_name (x :: l)) "") as [E|E]; cbn; [|done]. destruct (String.eqb_spec (at_Name a) "") as [Ea|]; cbn; [|done].
  by rewrite E, Ea.
Qed.

Lemma representative_single a : representative [a] = Some a.
Proof. destruct a as [n e r]. cbn. unfold first_name. cbn. by destruct (String.eqb_spec n "") as [->|]. Qed.

(** What the loop has built after [l]. *)
Definition dedup_inv (l : list Attendee) (st : gmap string nat * list Attendee) : Prop :=
  map Some st.2 = map (fun k => representative (with_key k l)) (attendee_keys l) /\
  forall k i, st.1 !! k = Some i <-> attendee_keys l !! i = Some k.

Lemma with_key_none k l : k <> "" -> k ∉ attendee_keys l -> with_key k l = [].
Proof.
  intros Hk Hn. unfold PeopleNames.with_key. destruct (List.filter _ l) as [|a m] eqn:E; [done|]. destruct Hn.
  assert (Ha : a ∈ List.filter (fun a => (key a =? k)%string) l) by (rewrite E; left).
  rewrite list_elem_of_In, filter_In, <- list_elem_of_In, String.eqb_eq in Ha. apply elem_of_attendee_keys. naive_solver.
Qed.

Lemma dedup_step_inv l a st : dedup_inv l st -> dedup_inv (l ++ [a]) (dedup_step unicode_lower st a).
Proof.
  destruct st as [seen out]. intros [Hout Hseen]. cbn [fst snd] in *. unfold dedup_inv, dedup_step.
  rewrite attendee_keys_snoc. assert (Hnd : NoDup (attendee_keys l)) by apply NoDup_firsts.
  assert (Hother : forall k, k <> key a -> representative (with_key k (l ++ [a])) = representative (with_key k l)).
  { intros k Hk. rewrite with_key_snoc. rewrite (proj2 (String.eqb_neq (key a) k)) by done. by rewrite app_nil_r. }
  destruct (String.eqb_spec (key a) "") as [Ek|Ek]; cbn [orb].
  { split; [|done]. cbn. rewrite Hout. apply map_ext_in. intros k Hk%list_elem_of_In%elem_of_attendee_keys. symmetry. apply Hother. destruct Hk as [Hk _]. congruence. }
  destruct (seen !! key a) as [i|] eqn:Es.
  - assert (Hi := proj1 (Hseen _ _) Es). rewrite bool_decide_eq_true_2 by (by eapply list_elem_of_lookup_2).
    assert (Hrep : (Some <$> out) !! i = ((fun k => representative (with_key k l)) <$> attendee_keys l) !! i)
      by exact (f_equal (lookup i) Hout).
    rewrite !list_lookup_fmap, Hi in Hrep. cbn in Hrep.
    destruct (out !! i) as [b|] eqn:Eb; [|done]. injection Hrep as Hb.
    assert (Hnew : map Some (<[i := if (at_Name b =? "")%string && negb (at_Name a =? "")%string then rename_attendee (at_Name a) b else b]> out)
      = map (fun k => representative (with_key k (l ++ [a]))) (attendee_keys l)).
    { change (Some <$> <[i := if (at_Name b =? "")%string && negb (at_Name a =? "")%string then rename_attendee (at_Name a) b else b]> out
        = (fun k => representative (with_key k (l ++ [a]))) <$> attendee_keys l). apply list_eq. intros j.
      rewrite list_fmap_insert, list_lookup_fmap. destruct (decide (j = i)) as [->|Hji].
      - rewrite list_lookup_insert_eq by (rewrite length_fmap; by eapply lookup_lt_Some). rewrite Hi. cbn. f_equal.
        rewrite with_key_snoc, String.eqb_refl. symmetry. by apply representative_snoc.
      - rewrite list_lookup_insert_ne by done. change (Some <$> out) with (map Some out). rewrite Hout.
        change (map (fun k => representative (with_key k l)) (attendee_keys l)) with ((fun k => representative (with_key k l)) <$> attendee_keys l).
        rewrite list_lookup_fmap. destruct (attendee_keys l !! j) as [k|] eqn:Ej; [|done]. cbn. f_equal. symmetry. apply Hother.
        intros ->. apply Hji. by eapply (NoDup_lookup (attendee_keys l)). }
    destruct (_ && _); cbn; [by split|]. rewrite list_insert_id in Hnew by done. by split.
  - assert (Hn : key a ∉ attendee_keys l).
    { intros (i & Hi)%list_elem_of_lookup_1. by rewrite (proj2 (Hseen _ i)) in Es. }
    rewrite bool_decide_eq_false_2 by done. cbn. split.
    + rewrite !map_app. cbn. rewrite with_key_snoc, String.eqb_refl, with_key_none by done. cbn [app]. rewrite representative_single. f_equal.
      rewrite Hout. apply map_ext_in. intros k Hk%list_elem_of_In. symmetry. apply Hother. by intros ->.
    + assert (Hlen : length out = length (attendee_keys l)) by (rewrite <- (length_map Some out), Hout; apply length_map).
      intros k i. rewrite Hlen. destruct (decide (k = key a)) as [->|Hk].
      * rewrite lookup_insert_eq. split; [intros [= <-]; by rewrite list_lookup_middle|].
        intros [Hi|[Hge Hi]]%lookup_app_Some; [by apply list_elem_of_lookup_2 in Hi|]. f_equal.
        apply list_lookup_singleton_Some in Hi as [? _]. lia.
      * rewrite lookup_insert_ne by done. rewrite Hseen. split.
        -- intros Hi. by apply lookup_app_l_Some.
        -- intros [Hi|[Hge Hi]]%lookup_app_Some; [done|]. apply list_lookup_singleton_Some in Hi as [_ Hi]. congruence.
Qed.

(** [DedupByEmail] keeps one attendee per address, in the order in which the
    addresses first occur: the first attendee of the address, under the first
    name that is not empty; attendees without an address are dropped. *)
Theorem DedupByEmail_exact l :
  map Some (DedupByEmail unicode_lower l) = map (fun k => representative (with_key k l)) (attendee_keys l).
Proof.
  assert (H : dedup_inv l (fold_left (dedup_step unicode_lower) l (∅, []))); [|apply H].
  induction l as [|a l IH] using rev_ind; [by split|]. rewrite fold_left_app. by apply dedup_step_inv.
Qed.
End Dedup.

Lemma NoDup_dedup_keys ul l : NoDup (map (fun a => email_key ul (at_Email a)) (DedupByEmail ul l)).
Proof.
  pose proof (DedupByEmail_exact ul l) as H. assert (Hk : map (fun a => email_key ul (at_Email a)) (DedupByEmail ul l) = attendee_keys ul l);
    [|rewrite Hk; apply NoDup_firsts].
  assert (Hkey : forall k, k ∈ attendee_keys ul l -> forall b, representative (PeopleNames.with_key ul k l) = Some b -> email_key ul (at_Email b) = k).
  { intros k _ b Hb. unfold representative in Hb. destruct (PeopleNames.with_key ul k l) as [|a m] eqn:E; [done|]. injection Hb as <-. cbn.
    assert (Ha : a ∈ PeopleNames.with_key ul k l) by (rewrite E; left). unfold PeopleNames.with_key in Ha.
    rewrite list_elem_of_In, filter_In, String.eqb_eq in Ha. by destruct Ha. }
  revert H Hkey. generalize (attendee_keys ul l). generalize (DedupByEmail ul l). intros out. induction out as [|b out IH]; intros [|k ks]; try done.
  cbn. intros [= Hb H] Hkey. f_equal; [by apply (Hkey k); [left|]|]. apply IH; [done|]. intros k' Hk'. apply Hkey. by right.
Qed.

Lemma dedup_keys_nonempty ul l a : a ∈ DedupByEmail ul l -> email_key ul (at_Email a) <> "".
Proof.
  intros Ha. assert (Hin : Some a ∈ map Some (DedupByEmail ul l)) by (apply list_elem_of_fmap; eauto).
  rewrite DedupByEmail_exact in Hin. apply list_elem_of_fmap in Hin as (k & E & Hk). unfold representative in E.
  destruct (PeopleNames.with_key ul k l) as [|b m] eqn:Ew; [done|]. injection E as ->. cbn.
  assert (Hb : b ∈ PeopleNames.with_key ul k l) by (rewrite Ew; left). unfold PeopleNames.with_key in Hb.
  rewrite list_elem_of_In, filter_In, String.eqb_eq in Hb. destruct Hb as [_ ->]. by apply elem_of_attendee_keys in Hk as [Hk _].
Qed.

(** ** Derivation *)

(** What an update keeps of a company, and of a person with another key. *)
Definition keeps_companies (d d' : pdb) : Prop :=
  forall c, c ∈ q_companies d -> exists c', c' ∈ q_companies d' /\ co_ID c' = co_ID c /\ company_key c' = company_key c.
Definition keeps_people (but : string * string) (d d' : pdb) : Prop :=
  forall p, p ∈ q_people d -> person_key p <> but -> p ∈ q_people d'.

(** The rows without their times of update. *)
Definition undated_company (c : Company) : Company :=
  mkCompany (co_ID c) (co_OwnerID c) (co_Domain c) (co_Name c) (co_CreatedAt c) 0.
Definition undated_person (p : Person) : Person :=
  mkPerson (ps_ID p) (ps_OwnerID p) (PrimaryEmail p) (ps_DisplayName p) (CompanyID p) (FirstSeenAt p) 0.
Definition undated (d : pdb) : pdb :=
  mkPdb (map undated_company (q_companies d)) (map undated_person (q_people d)) (q_aliases d) (q_items d) (q_notes d) (q_events d).

Lemma select_hit {row} (hit : row -> bool) t r l : select_where hit t = r :: l -> r ∈ t /\ hit r = true.
Proof. intros E. apply elem_of_select_where. rewrite E. left. Qed.

Lemma undated_update_companies (hit : Company -> bool) f cs :
  (forall c, c ∈ cs -> hit c = true -> undated_company (f c) = undated_company c) ->
  map undated_company (update_where hit f cs) = map undated_company cs.
Proof.
  intros H. unfold update_where. rewrite map_map. apply map_ext_in. intros c Hc%list_elem_of_In. destruct (hit c) eqn:E; auto.
Qed.

Lemma undated_update_people (hit : Person -> bool) f ps :
  (forall p, p ∈ ps -> hit p = true -> undated_person (f p) = undated_person p) ->
  map undated_person (update_where hit f ps) = map undated_person ps.
Proof.
  intros H. unfold update_where. rewrite map_map. apply map_ext_in. intros c Hc%list_elem_of_In. destruct (hit c) eqn:E; auto.
Qed.

(** *** One upsert *)

Lemma UpsertCompany_spec uuid now o dom d r d' : UpsertCompany uuid now o dom "" d = (r, d') ->
  q_people d' = q_people d /\ keeps_companies d d' /\
  match r with Ok c => c ∈ q_companies d' /\ company_key c = (o, dom) | Err _ => d' = d end.
Proof.
  unfold UpsertCompany. destruct (select_where _ _) as [|c l] eqn:E.
  - destruct (exists_where _ _); intros [= <- <-]; [split; [done|]; split; [|done]; intros c Hc; by exists c|].
    destruct d. cbn. split; [done|]. split.
    + intros c Hc. exists c. split; [|done]. cbn. apply elem_of_app. by left.
    + split; [apply elem_of_app; right; left|done].
  - intros [= <- <-]. apply select_hit in E as [Hc Hh]. destruct d as [cs ps al it ns es]. cbn in *. split; [done|]. split.
    + intros x Hx. eexists. split; [cbn; apply elem_of_update_where; exists x; split; [exact Hx|reflexivity]|]. by destruct (same_domain _ _ x).
    + split; [apply elem_of_update_where; exists c; by rewrite Hh|]. by apply same_domain_true in Hh.
Qed.

Lemma UpsertPerson_spec ul uuid now o email name c d r d' : UpsertPerson ul uuid now o email name c d = (r, d') ->
  q_companies d' = q_companies d /\ keeps_people (o, email_key ul email) d d' /\
  match r with
  | Ok p => p ∈ q_people d' /\ person_key p = (o, email_key ul email) /\ (name = "" \/ ps_DisplayName p = name) /\
            forall x, c = Some x -> CompanyID p = Some x
  | Err _ => d' = d
  end.
Proof.
  unfold UpsertPerson. destruct (select_where _ _) as [|p l] eqn:E.
  - destruct (exists_where _ _); [intros [= <- <-]; split; [done|]; split; [by intros q Hq|done]|]. destruct (company_exists c d); [cbn|intros [= <- <-]; split; [done|]; split; [by intros q Hq|done]]. intros [= <- <-].
    destruct d. cbn. split; [done|]. split; [intros q Hq _; cbn; apply elem_of_app; by left|].
    split; [apply elem_of_app; right; left|]. split; [done|]. split; [by right|done].
  - destruct (company_exists c d); [cbn|intros [= <- <-]; split; [done|]; split; [by intros q Hq|done]]. intros [= <- <-]. apply select_hit in E as [Hp Hh].
    destruct d as [cs ps al it ns es]. cbn in *. split; [done|]. split.
    + intros q Hq Hk. cbn. apply elem_of_update_where. exists q. split; [done|].
      destruct (same_email _ _ q) eqn:Eq; [|done]. by apply same_email_true in Eq.
    + split; [apply elem_of_update_where; exists p; by rewrite Hh|]. split; [by apply same_email_true in Hh|]. split.
      * unfold non_empty_or. destruct (String.eqb_spec name ""); [by left|by right].
      * by intros x ->.
Qed.

(** *** A derivation that no other user of the tables disturbs *)

Definition undisturbed {St} (_ : nat) (d : St) : St := d.

Section Derive.
Variable unicode_lower : string -> string.
Variable text_lt : string -> string -> bool.
Variable fails : nat -> bool.
Variable EffectiveTLDPlusOne : string -> option string.
Variable uuid : nat -> string.
Variable dbnow : nat -> Z.

Local Abbreviation key a := (email_key unicode_lower (at_Email a)).
Local Abbreviation company_of a := (CompanyDomain unicode_lower EffectiveTLDPlusOne (at_Email a)).
Local Abbreviation round f := (derive_attendee unicode_lower undisturbed f EffectiveTLDPlusOne uuid dbnow).
Local Abbreviation rounds f := (derive_each unicode_lower undisturbed f EffectiveTLDPlusOne uuid dbnow).
Local Abbreviation derive f := (DerivePeople unicode_lower text_lt undisturbed f EffectiveTLDPlusOne uuid dbnow).

(** The attendee has a person of the owner, under its name if it has one, in
    the company of its domain if that is a company's. *)
Definition derived (ownerID : string) (a : Attendee) (d : pdb) : Prop :=
  exists p, p ∈ q_people d /\ person_key p = (ownerID, key a) /\ (at_Name a = "" \/ ps_DisplayName p = at_Name a) /\
    forall dom, company_of a = (dom, true) ->
      exists c, c ∈ q_companies d /\ company_key c = (ownerID, dom) /\ CompanyID p = Some (co_ID c).

Lemma derived_kept o a d d' but : derived o a d -> (o, key a) <> but -> keeps_companies d d' -> keeps_people but d d' -> derived o a d'.
Proof.
  intros (p & Hp & Hk & Hn & Hc) Hne Hcs Hps. exists p. split; [apply Hps; by rewrite ?Hk|]. split; [done|]. split; [done|].
  intros dom Hdom. destruct (Hc dom Hdom) as (c & Hin & Hck & Hid). destruct (Hcs c Hin) as (c' & Hin' & E1 & E2).
  exists c'. rewrite E1, E2. done.
Qed.

Lemma keeps_companies_trans d1 d2 d3 : keeps_companies d1 d2 -> keeps_companies d2 d3 -> keeps_companies d1 d3.
Proof.
  intros H1 H2 c Hc. destruct (H1 c Hc) as (x & Hx & <- & <-). exact (H2 x Hx).
Qed.

(** A kept call: it is refused, or answers. *)
Lemma attempt_call {A} f (g : nat -> pdb -> result store_error A * pdb) n d :
  attempt (store_call undisturbed f g) (n, d) =
  if f n then (Ok (Err DbError), (S n, d)) else (Ok (g n d).1, (S n, (g n d).2)).
Proof. unfold attempt, store_call, undisturbed. destruct (f n); [done|]. by destruct (g n d). Qed.

Lemma company_call f o dom n d : exists r d',
  attempt (store_call undisturbed f (fun n => UpsertCompany (uuid n) (dbnow n) o dom "")) (n, d) = (Ok r, (S n, d')) /\
  q_people d' = q_people d /\ keeps_companies d d' /\
  match r with Ok c => c ∈ q_companies d' /\ company_key c = (o, dom) | Err _ => d' = d end.
Proof.
  rewrite attempt_call. destruct (f n); [exists (Err DbError), d; split; [done|]; split; [done|]; split; [intros c Hc; by exists c|done]|].
  destruct (UpsertCompany _ _ _ _ _ d) as [r d'] eqn:E. exists r, d'. split; [done|]. by eapply UpsertCompany_spec.
Qed.

Lemma person_call f o a cid n d : exists r d',
  attempt (store_call undisturbed f (fun n => UpsertPerson unicode_lower (uuid n) (dbnow n) o (at_Email a) (at_Name a) cid)) (n, d) =
    (Ok r, (S n, d')) /\
  q_companies d' = q_companies d /\ keeps_people (o, key a) d d' /\
  (errors_of r = [] -> exists p, p ∈ q_people d' /\ person_key p = (o, key a) /\ (at_Name a = "" \/ ps_DisplayName p = at_Name a) /\
    forall x, cid = Some x -> CompanyID p = Some x).
Proof.
  rewrite attempt_call. destruct (f n); [exists (Err DbError), d; split; [done|]; split; [done|]; split; [by intros q Hq|done]|].
  destruct (UpsertPerson _ _ _ _ _ _ _ d) as [r d'] eqn:E. apply UpsertPerson_spec in E as (E1 & E2 & E3). exists r, d'.
  split; [done|]. split; [done|]. split; [done|]. destruct r as [p|e]; [|done]. intros _. by exists p.
Qed.

Lemma derive_round f o a n d : exists errs n' d',
  round f o a (n, d) = (Ok errs, (n', d')) /\ keeps_companies d d' /\ keeps_people (o, key a) d d' /\ (errs = [] -> derived o a d').
Proof.
  unfold derive_attendee, pass_bind. destruct (company_of a) as [dom is_company] eqn:Edom. destruct is_company.
  - destruct (company_call f o dom n d) as (r & d1 & -> & E1 & E2 & E3). cbn.
    destruct (person_call f o a (match r with Ok c => Some (co_ID c) | Err _ => None end) (S n) d1) as (r' & d' & -> & Ec & Hp & Hd).
    exists (errors_of r ++ errors_of r')%list, (S (S n)), d'. split; [done|]. split; [|split].
    + intros c Hc. rewrite Ec. by apply E2.
    + intros p Hin Hne. apply Hp; [by rewrite E1|done].
    + intros [He Hes]%app_nil. destruct r as [c|e]; [|done]. destruct (Hd Hes) as (p & Hin & Hk & Hn & Hcid). exists p.
      split; [done|]. split; [done|]. split; [done|]. intros dom'. rewrite Edom. intros [= <-]. exists c. rewrite Ec.
      split; [apply E3|]. split; [apply E3|]. by apply Hcid.
  - destruct (person_call f o a None n d) as (r & d' & E & Ec & Hp & Hd). cbn. rewrite E. exists (errors_of r), (S n), d'.
    split; [done|]. split; [intros c Hc; exists c; by rewrite Ec|]. split; [done|].
    intros He. destruct (Hd He) as (p & Hin & Hk & Hn & _). exists p. split; [done|]. split; [done|]. split; [done|].
    intros dom'. by rewrite Edom.
Qed.

Lemma derive_rounds_keep f o l n d b : b ∉ map (fun a => key a) l -> exists errs n' d',
  rounds f o l (n, d) = (Ok errs, (n', d')) /\ keeps_companies d d' /\
  forall p, p ∈ q_people d -> person_key p = (o, b) -> p ∈ q_people d'.
Proof.
  revert n d. induction l as [|a l IH]; intros n d Hb; cbn.
  { exists [], n, d. split; [done|]. split; [intros c Hc; by exists c|done]. }
  apply not_elem_of_cons in Hb as [Hne Hb]. destruct (derive_round f o a n d) as (errs & n1 & d1 & E & Hc & Hp & _).
  destruct (IH n1 d1 Hb) as (more & n2 & d2 & E2 & Hc2 & Hp2). exists (errs ++ more)%list, n2, d2. split; [|split].
  - unfold pass_bind. by rewrite E, E2.
  - by apply (keeps_companies_trans _ d1).
  - intros p Hin Hk. apply Hp2; [|done]. apply Hp; [done|]. rewrite Hk. by intros [= ->].
Qed.
(** An attendee whose own calls succeed is derived, whatever happens to the
    others. *)
Lemma rounds_isolated f o l1 a l2 n d e1 s1 s2 :
  NoDup (map (fun a => key a) (l1 ++ a :: l2)) -> rounds f o l1 (n, d) = (Ok e1, s1) -> round f o a s1 = (Ok [], s2) ->
  exists errs n' d', rounds f o (l1 ++ a :: l2) (n, d) = (Ok errs, (n', d')) /\ derived o a d'.
Proof.
  intros Hnd E1 E2. rewrite map_app in Hnd. apply NoDup_app in Hnd as (_ & _ & [Ha _]%NoDup_cons).
  destruct s1 as [n1 d1]. destruct (derive_round f o a n1 d1) as (e2 & n2 & d2 & E2' & Hc2 & Hp2 & Hd2).
  rewrite E2 in E2'. injection E2' as <- ->. specialize (Hd2 eq_refl) as (p & Hp & Hk & Hn & Hco).
  destruct (derive_rounds_keep f o l2 n2 d2 (key a) Ha) as (e3 & n3 & d3 & E3 & Hc3 & Hp3).
  exists (e1 ++ (([] ++ e3)%list))%list, n3, d3. split.
  - clear Hp3 Hc3 Hp2 Hc2. revert n d e1 E1. induction l1 as [|b l1 IH]; intros n d e1; cbn.
    + intros [= <- <- <-]. unfold pass_bind. by rewrite E2, E3.
    + unfold pass_bind. destruct (round f o b (n, d)) as [[eb|] [nb db]]; [|done].
      destruct (rounds f o l1 (nb, db)) as [[em|] sm] eqn:Em; [|done]. intros [= <- ->].
      by rewrite (IH _ _ _ Em), app_assoc.
  - exists p. split; [by apply Hp3|]. split; [done|]. split; [done|]. intros dom Hdom.
    destruct (Hco dom Hdom) as (c & Hc & Hck & Hid). destruct (Hc3 c Hc) as (c' & Hc' & Ei & Ek). exists c'. by rewrite Ei, Ek.
Qed.

(** *** Deriving again *)

Definition never (_ : nat) : bool := false.

(** The ids still to be drawn are new. *)
Definition fresh_ids (n : nat) (d : pdb) : Prop :=
  forall m, n <= m -> (uuid m ∉ map co_ID (q_companies d)) /\ (uuid m ∉ map ps_ID (q_people d)).

Lemma fresh_exists {row} (h : row -> string) id t : id ∉ map h t -> exists_where (fun r => (h r =? id)%string) t = false.
Proof. intros H. apply exists_where_false. intros r Hr. apply String.eqb_neq. intros <-. apply H, list_elem_of_fmap. eauto. Qed.

Lemma map_key_update {row} (h : row -> string) (hit : row -> bool) f t :
  (forall r, h (f r) = h r) -> map h (update_where hit f t) = map h t.
Proof. apply map_update_where. Qed.

Lemma UpsertCompany_total u now o dom d : u ∉ map co_ID (q_companies d) -> exists c, (UpsertCompany u now o dom "" d).1 = Ok c /\
  let d' := (UpsertCompany u now o dom "" d).2 in
  q_people d' = q_people d /\ forall x, x ∈ map co_ID (q_companies d') -> x = u \/ x ∈ map co_ID (q_companies d).
Proof.
  intros Hu. unfold UpsertCompany. destruct (select_where _ _) as [|c l] eqn:E.
  - rewrite (fresh_exists co_ID u (q_companies d) Hu : exists_where (company_is u) _ = false). eexists. split; [done|]. destruct d. cbn. split; [done|]. intros x. rewrite map_app, elem_of_app.
    intros [Hx|Hx%list_elem_of_singleton]; [by right|by left].
  - eexists. split; [done|]. destruct d. cbn. split; [done|]. intros x. rewrite map_key_update by done. by right.
Qed.

Lemma UpsertPerson_total u now o email name c d : u ∉ map ps_ID (q_people d) -> company_exists c d = true ->
  exists p, (UpsertPerson unicode_lower u now o email name c d).1 = Ok p /\
  let d' := (UpsertPerson unicode_lower u now o email name c d).2 in
  q_companies d' = q_companies d /\ forall x, x ∈ map ps_ID (q_people d') -> x = u \/ x ∈ map ps_ID (q_people d).
Proof.
  intros Hu Hc. unfold UpsertPerson. destruct (select_where _ _) as [|p l] eqn:E.
  - rewrite (fresh_exists ps_ID u (q_people d) Hu : exists_where (person_is u) _ = false). rewrite Hc. eexists. split; [done|]. destruct d. cbn. split; [done|]. intros x. rewrite map_app, elem_of_app.
    intros [Hx|Hx%list_elem_of_singleton]; [by right|by left].
  - rewrite Hc. eexists. split; [done|]. destruct d. cbn. split; [done|]. intros x. rewrite map_key_update by done. by right.
Qed.

Lemma person_total o a cid n d : fresh_ids n d -> (forall m, n < m -> uuid m <> uuid n) -> company_exists cid d = true ->
  exists p d', attempt (store_call undisturbed never
      (fun n => UpsertPerson unicode_lower (uuid n) (dbnow n) o (at_Email a) (at_Name a) cid)) (n, d) = (Ok (Ok p), (S n, d')) /\
    d' = (UpsertPerson unicode_lower (uuid n) (dbnow n) o (at_Email a) (at_Name a) cid d).2 /\ fresh_ids (S n) d'.
Proof.
  intros Hf Hinj Hc. rewrite attempt_call. cbn [never].
  destruct (UpsertPerson_total (uuid n) (dbnow n) o (at_Email a) (at_Name a) cid d) as (p & E & E1 & E2); [by apply Hf|done|].
  exists p. eexists. rewrite E. split; [done|]. split; [done|]. intros m Hm. rewrite E1. split; [apply Hf; lia|].
  intros [Heq|Hin]%E2; [by apply (Hinj m)|]. destruct (Hf m) as [? ?]; [lia|done].
Qed.

Hypothesis uuid_inj : forall m n, uuid m = uuid n -> m = n.

Lemma round_total o a n d : people_ok d -> fresh_ids n d -> exists n' d',
  round never o a (n, d) = (Ok [], (n', d')) /\ people_ok d' /\ fresh_ids n' d'.
Proof.
  intros Hok Hf. assert (Hinj : forall k m, k < m -> uuid m <> uuid k) by (intros k m Hlt E%uuid_inj; lia).
  unfold derive_attendee, pass_bind. destruct (company_of a) as [dom is_company] eqn:Edom. destruct is_company.
  - destruct (UpsertCompany_total (uuid n) (dbnow n) o dom d) as (c & Ec & Ep & Hids); [by apply Hf|].
    rewrite attempt_call. cbn [never]. rewrite Ec. cbn.
    set (d1 := (UpsertCompany (uuid n) (dbnow n) o dom "" d).2) in *.
    assert (Hok1 : people_ok d1) by by apply UpsertCompany_ok.
    assert (Hc1 : has_company d1 (co_ID c) o).
    { assert (E : UpsertCompany (uuid n) (dbnow n) o dom "" d = (Ok c, d1)) by (rewrite <- Ec; apply surjective_pairing).
      apply UpsertCompany_spec in E as (_ & _ & Hin & Hk). exists c. unfold company_key in Hk. by injection Hk. }
    assert (Hf1 : fresh_ids (S n) d1).
    { intros m Hm. rewrite Ep. split; [|apply Hf; lia]. intros [E|Hin]%Hids; [by apply (Hinj n m)|]. destruct (Hf m) as [? ?]; [lia|done]. }
    destruct (person_total o a (Some (co_ID c)) (S n) d1) as (p & d' & -> & -> & Hf'); [done|by intros m Hm; apply Hinj|by eapply company_exists_has|].
    do 2 eexists. split; [done|]. split; [|done]. apply UpsertPerson_ok; [done|]. by intros x [= <-].
  - cbn. destruct (person_total o a None n d) as (p & d' & -> & -> & Hf'); [done|by intros m Hm; apply Hinj|done|].
    do 2 eexists. split; [done|]. split; [|done]. by apply UpsertPerson_ok.
Qed.

Lemma rounds_total o l n d : people_ok d -> fresh_ids n d -> exists n' d',
  rounds never o l (n, d) = (Ok [], (n', d')) /\ people_ok d' /\ fresh_ids n' d'.
Proof.
  revert n d. induction l as [|a l IH]; intros n d Hok Hf; cbn; [by exists n, d|].
  destruct (round_total o a n d Hok Hf) as (n1 & d1 & E1 & Hok1 & Hf1). destruct (IH n1 d1 Hok1 Hf1) as (n2 & d2 & E2 & Hok2 & Hf2).
  exists n2, d2. unfold pass_bind. by rewrite E1, E2.
Qed.
Lemma undated_in {row} (u : row -> row) t t' x : map u t = map u t' -> x ∈ t -> exists y, y ∈ t' /\ u y = u x.
Proof.
  intros E Hx. assert (H : u x ∈ map u t) by (apply list_elem_of_fmap; eauto). rewrite E in H.
  apply list_elem_of_fmap in H as (y & Hy & Hin). eauto.
Qed.

Lemma derived_undated o a d d' : undated d = undated d' -> derived o a d -> derived o a d'.
Proof.
  intros E (p & Hp & Hk & Hn & Hc). injection E as Ecs Eps _ _ _ _.
  destruct (undated_in undated_person _ _ p Eps Hp) as (p' & Hp' & Eu). injection Eu as Ei Eo Em En Ec Ef.
  exists p'. unfold person_key in *. rewrite Eo, Em, En, Ec. split; [done|]. split; [done|]. split; [done|].
  intros dom Hdom. destruct (Hc dom Hdom) as (c & Hin & Hck & Hid).
  destruct (undated_in undated_company _ _ c Ecs Hin) as (c' & Hin' & Eu). injection Eu as Ei' Eo' Ed' En' Ec'.
  exists c'. unfold company_key in *. by rewrite Ei', Eo', Ed'.
Qed.

Lemma put_undated_companies f hit d : (forall c, c ∈ q_companies d -> hit c = true -> undated_company (f c) = undated_company c) ->
  undated (put_companies (update_where hit f (q_companies d)) d) = undated d.
Proof. intros H. destruct d. unfold undated. cbn in *. by rewrite undated_update_companies. Qed.

Lemma put_undated_people f hit d : (forall p, p ∈ q_people d -> hit p = true -> undated_person (f p) = undated_person p) ->
  undated (put_people (update_where hit f (q_people d)) d) = undated d.
Proof. intros H. destruct d. unfold undated. cbn in *. by rewrite undated_update_people. Qed.

(** The company of a derived attendee is found again, with the id its person
    has. *)
Lemma company_again u now o dom c d : people_ok d -> c ∈ q_companies d -> company_key c = (o, dom) ->
  exists c', UpsertCompany u now o dom "" d = (Ok c', (UpsertCompany u now o dom "" d).2) /\ co_ID c' = co_ID c /\
    undated (UpsertCompany u now o dom "" d).2 = undated d.
Proof.
  intros Hok Hc Hk. unfold UpsertCompany.
  rewrite (select_key company_key (same_domain o dom) (q_companies d) c); [|apply Hok|done|by apply same_domain_true|].
  - eexists. split; [done|]. split; [done|]. cbn. by apply put_undated_companies.
  - intros x _ Hx%same_domain_true. by rewrite Hk.
Qed.

Lemma person_again u now o a cid p d : people_ok d -> p ∈ q_people d -> person_key p = (o, key a) ->
  (at_Name a = "" \/ ps_DisplayName p = at_Name a) -> (forall x, cid = Some x -> CompanyID p = Some x) -> company_exists cid d = true ->
  exists p', UpsertPerson unicode_lower u now o (at_Email a) (at_Name a) cid d =
      (Ok p', (UpsertPerson unicode_lower u now o (at_Email a) (at_Name a) cid d).2) /\
    undated (UpsertPerson unicode_lower u now o (at_Email a) (at_Name a) cid d).2 = undated d.
Proof.
  intros Hok Hp Hk Hn Hc He. unfold UpsertPerson.
  rewrite (select_key person_key (same_email o (key a)) (q_people d) p); [|apply Hok|done|by apply same_email_true|].
  - rewrite He. eexists. split; [done|]. cbn. apply put_undated_people. intros q Hq Hh%same_email_true.
    assert (q = p) as -> by (apply (key_unique person_key (q_people d)); [apply Hok|done..|by rewrite Hk]).
    unfold undated_person. cbn. f_equal.
    + unfold non_empty_or. destruct (String.eqb_spec (at_Name a) ""); [done|]. destruct Hn as [Hn|Hn]; done.
    + destruct cid as [x|]; [|done]. symmetry. by apply Hc.
  - intros x _ Hx%same_email_true. by rewrite Hk.
Qed.

Lemma undated_company_exists cid d d' : undated d = undated d' -> company_exists cid d = true -> company_exists cid d' = true.
Proof.
  intros E. destruct cid as [x|]; [|done]. cbn. rewrite !exists_where_true. intros (c & Hc & Hx). injection E as Ecs _ _ _ _ _.
  destruct (undated_in undated_company _ _ c Ecs Hc) as (c' & Hc' & Eu). injection Eu as Ei _ _ _ _. exists c'. unfold company_is in *. by rewrite Ei.
Qed.

Lemma round_again o a n d : people_ok d -> derived o a d -> exists n' d',
  round never o a (n, d) = (Ok [], (n', d')) /\ people_ok d' /\ undated d' = undated d.
Proof.
  intros Hok Hd. assert (Hd' := Hd). destruct Hd' as (p & Hp & Hk & Hn & Hco).
  unfold derive_attendee, pass_bind. destruct (company_of a) as [dom is_company] eqn:Edom. destruct is_company.
  - destruct (Hco dom eq_refl) as (c & Hc & Hck & Hid).
    destruct (company_again (uuid n) (dbnow n) o dom c d Hok Hc Hck) as (c' & Ec & Ei & Eu). rewrite attempt_call. cbn [never]. rewrite Ec. cbn.
    set (d1 := (UpsertCompany (uuid n) (dbnow n) o dom "" d).2) in *.
    assert (Hok1 : people_ok d1) by by apply UpsertCompany_ok. rewrite Ei.
    destruct (derived_undated o a d d1 (eq_sym Eu) Hd) as (q & Hq & Hqk & Hqn & Hqc).
    destruct (Hqc dom Edom) as (c1 & Hc1 & Hck1 & Hqid).
    assert (E1 : co_ID c1 = co_ID c).
    { injection Eu as Ecs _ _ _ _ _. destruct (undated_in undated_company _ _ c1 Ecs Hc1) as (c2 & Hc2 & Eu2). injection Eu2 as Ei2 Eo2 Ed2 _ _.
      rewrite <- Ei2. f_equal. apply (key_unique company_key (q_companies d)); [apply Hok|done..|]. rewrite Hck, <- Hck1.
      unfold company_key. by rewrite Eo2, Ed2. }
    assert (Hcid : forall x, Some (co_ID c) = Some x -> CompanyID q = Some x) by (intros x [= <-]; by rewrite Hqid, E1).
    assert (Hex : company_exists (Some (co_ID c)) d1 = true).
    { apply (undated_company_exists _ d); [done|]. apply (company_exists_has o). exists c. unfold company_key in Hck. by injection Hck. }
    destruct (person_again (uuid (S n)) (dbnow (S n)) o a _ q d1 Hok1 Hq Hqk Hqn Hcid Hex) as (p' & Ep & Eup).
    rewrite attempt_call. cbn [never]. rewrite Ep. do 2 eexists. split; [done|]. split; [|exact (eq_trans Eup Eu)].
    apply UpsertPerson_ok; [done|]. intros x [= <-] _. exists c1. unfold company_key in Hck1. injection Hck1 as Eo1 _. done.
  - cbn. destruct (person_again (uuid n) (dbnow n) o a None p d Hok Hp Hk Hn) as (p' & Ep & Eup); [done..|].
    rewrite attempt_call. cbn [never]. rewrite Ep. do 2 eexists. split; [done|]. split; [|done]. by apply UpsertPerson_ok.
Qed.

Lemma rounds_again o l n d : people_ok d -> (forall a, a ∈ l -> derived o a d) -> exists n' d',
  rounds never o l (n, d) = (Ok [], (n', d')) /\ people_ok d' /\ undated d' = undated d.
Proof.
  revert n d. induction l as [|a l IH]; intros n d Hok Hd; cbn; [by exists n, d|].
  destruct (round_again o a n d Hok) as (n1 & d1 & E1 & Hok1 & Eu1); [apply Hd; left|].
  destruct (IH n1 d1 Hok1) as (n2 & d2 & E2 & Hok2 & Eu2); [intros b Hb; apply (derived_undated o b d); [done|apply Hd; by right]|].
  exists n2, d2. unfold pass_bind. rewrite E1, E2. split; [done|]. split; [done|]. by rewrite Eu2.
Qed.
End Derive.

(** *** What every derivation keeps, among other users of the tables *)

Section DeriveKeeps.
Variable unicode_lower : string -> string.
Variable text_lt : string -> string -> bool.
Variable others : nat -> pdb -> pdb.
Variable fails : nat -> bool.
Variable EffectiveTLDPlusOne : string -> option string.
Variable uuid : nat -> string.
Variable dbnow : nat -> Z.
Variable I : pdb -> Prop.
Variable ownerID : string.
Hypothesis others_keep : forall n d, I d -> I (others n d).
Hypothesis company_keeps : forall k now dom d, I d -> I (UpsertCompany (uuid k) now ownerID dom "" d).2.
Hypothesis person_keeps : forall k now email name c d, I d ->
  (forall x, c = Some x -> company_exists c d = true -> has_company d x ownerID) ->
  I (UpsertPerson unicode_lower (uuid k) now ownerID email name c d).2.
(** Ids are not used again for another owner's company. *)
Hypothesis others_owner : forall n d id o o', I d -> has_company d id o -> has_company (others n d) id o' -> o' = o.

Lemma derive_attendee_keeps a :
  pass_keeps I (derive_attendee unicode_lower others fails EffectiveTLDPlusOne uuid dbnow ownerID a).
Proof.
  unfold derive_attendee. destruct (CompanyDomain _ _ _) as [dom [|]].
  - intros n d Hd. unfold pass_bind at 1 2, attempt at 1, store_call at 1.
    assert (Hd1 := others_keep n d Hd). destruct (fails n); [cbn|].
    + revert Hd1. generalize (others n d). intros d1 Hd1. unfold pass_bind, attempt, store_call. assert (Hd2 := others_keep (S n) d1 Hd1).
      destruct (fails (S n)); [done|]. cbn.
      destruct (UpsertPerson _ _ _ _ _ _ _ _) as [r d'] eqn:E. cut (I (r, d').2); [by destruct r|]. rewrite <- E. by apply person_keeps.
    + assert (Hk := company_keeps n (dbnow n) dom _ Hd1). destruct (UpsertCompany _ _ _ _ _ _) as [r d1] eqn:E.
      apply UpsertCompany_spec in E as (_ & _ & Hr). cbn. unfold pass_bind, attempt, store_call.
      assert (Hd2 := others_keep (S n) d1 Hk). destruct (fails (S n)); [done|]. cbn.
      set (cid := match r with Ok c => Some (co_ID c) | Err _ => None end).
      assert (Hown : forall x, cid = Some x -> company_exists cid (others (S n) d1) = true -> has_company (others (S n) d1) x ownerID).
      { subst cid. destruct r as [c|]; [|done]. intros x [= <-]. cbn. rewrite exists_where_true. intros (c' & Hc' & Ei%String.eqb_eq).
        exists c'. split; [done|]. split; [done|]. destruct Hr as [Hin Hck]. unfold company_key in Hck. assert (Ho : co_OwnerID c = ownerID) by congruence.
        rewrite <- Ho.
        apply (others_owner (S n) d1 (co_ID c)); [done|by exists c|by exists c']. }
      destruct (UpsertPerson _ _ _ _ _ _ _ _) as [r' d'] eqn:E'. cut (I (r', d').2); [by destruct r'|]. rewrite <- E'. by apply person_keeps.
  - intros n0 d0 Hd0. unfold pass_bind at 1, pass_ret at 1. revert n0 d0 Hd0. refine (pass_keeps_bind I _ _ _ _); [|intros; apply pass_keeps_ret].
    apply pass_keeps_attempt, pass_keeps_call; [done|]. intros n d Hd. by apply person_keeps.
Qed.

Lemma DerivePeople_keeps now : pass_keeps I (DerivePeople unicode_lower text_lt others fails EffectiveTLDPlusOne uuid dbnow now ownerID).
Proof.
  unfold DerivePeople. apply pass_keeps_bind; [by apply pass_keeps_attempt, pass_keeps_call|]. intros [events|e]; [|apply pass_keeps_ret].
  induction (uniqueAttendeesFromEvents unicode_lower events) as [|a l IH]; cbn; [apply pass_keeps_ret|].
  apply pass_keeps_bind; [apply derive_attendee_keeps|]. intros errs. apply pass_keeps_bind; [done|]. intros; apply pass_keeps_ret.
Qed.
End DeriveKeeps.

Section Derivations.
Variable unicode_lower : string -> string.
Variable text_lt : string -> string -> bool.
Variable EffectiveTLDPlusOne : string -> option string.
Variable uuid : nat -> string.
Variable dbnow : nat -> Z.
Local Abbreviation derive f := (DerivePeople unicode_lower text_lt undisturbed f EffectiveTLDPlusOne uuid dbnow).
Local Abbreviation derived := (derived unicode_lower EffectiveTLDPlusOne).

(** The attendees a derivation at [now] works through. *)
Definition derivation_of (now : Z) (ownerID : string) (d : pdb) : list Attendee :=
  uniqueAttendeesFromEvents unicode_lower (events_between text_lt ownerID (now - derive_window)%Z (now + derive_window)%Z (q_events d)).

Lemma UpsertCompany_frame u now o dom d : let d' := (UpsertCompany u now o dom "" d).2 in
  q_events d' = q_events d /\ forall p, p ∈ q_people d -> p ∈ q_people d'.
Proof.
  unfold UpsertCompany. destruct (select_where _ _); [destruct (exists_where _ _)|]; by destruct d.
Qed.

Lemma UpsertPerson_frame u now o email name c d : let d' := (UpsertPerson unicode_lower u now o email name c d).2 in
  q_events d' = q_events d /\ forall p, p ∈ q_people d -> ps_OwnerID p <> o -> p ∈ q_people d'.
Proof.
  destruct (UpsertPerson unicode_lower u now o email name c d) as [r d'] eqn:E. cbn. split.
  - revert E. unfold UpsertPerson. destruct (select_where _ _); [destruct (exists_where _ _); [by intros [= _ <-]|]|];
      destruct (company_exists c d); cbn; intros [= _ <-]; by destruct d.
  - apply UpsertPerson_spec in E as (_ & Hp & _). intros p Hin Ho. apply Hp; [done|]. by intros [= ? _].
Qed.

(** What a derivation leaves alone: the events, and the people of others. *)
Lemma derive_frame f now o n d : people_ok d ->
  let d' := (derive f now o (n, d)).2.2 in
  people_ok d' /\ q_events d' = q_events d /\ forall p, p ∈ q_people d -> ps_OwnerID p <> o -> p ∈ q_people d'.
Proof.
  intros Hok. set (I := fun d' => people_ok d' /\ q_events d' = q_events d /\ forall p, p ∈ q_people d -> ps_OwnerID p <> o -> p ∈ q_people d').
  assert (H : pass_keeps I (derive f now o)); [|by apply H]. apply DerivePeople_keeps.
  - done.
  - intros k t dom d0 (H1 & H2 & H3). destruct (UpsertCompany_frame (uuid k) t o dom d0) as [F1 F2]. split; [by apply UpsertCompany_ok|].
    split; [by rewrite F1|]. auto.
  - intros k t email name c d0 (H1 & H2 & H3) Hc. destruct (UpsertPerson_frame (uuid k) t o email name c d0) as [F1 F2].
    split; [by apply UpsertPerson_ok|]. split; [by rewrite F1|]. auto.
  - intros n0 d0 id o1 o2 [H1 _] Ha Hb. by apply (company_owner d0 id).
Qed.

(** A derivation works through one attendee per address of the owner's
    events within a year of now, and each whose own store calls succeed ends
    with a person of the owner under the address, named as the attendee if the
    attendee has a name, in the company of the address's domain if that is a
    company's: whatever calls fail for the attendees before and after it. *)
Theorem DerivePeople_isolated f now o n d l1 a l2 errs1 s1 s2 :
  f n = false -> derivation_of now o d = (l1 ++ a :: l2)%list ->
  derive_each unicode_lower undisturbed f EffectiveTLDPlusOne uuid dbnow o l1 (S n, d) = (Ok errs1, s1) ->
  derive_attendee unicode_lower undisturbed f EffectiveTLDPlusOne uuid dbnow o a s1 = (Ok [], s2) ->
  exists errs n' d', derive f now o (n, d) = (Ok errs, (n', d')) /\ derived o a d'.
Proof.
  intros Hf Hl E1 E2. unfold DerivePeople, pass_bind. rewrite attempt_call, Hf. cbn [fst snd]. fold (derivation_of now o d). rewrite Hl.
  eapply rounds_isolated; [|exact E1|exact E2]. rewrite <- Hl. apply NoDup_dedup_keys.
Qed.

(** C26. With no failing call and new ids a derivation reports no error, derives
    every attendee, and leaves the events and the people of other owners as they
    were; deriving again changes nothing but times of update. *)
Theorem DerivePeople_complete now o n d :
  people_ok d -> fresh_ids uuid n d -> (forall i j, uuid i = uuid j -> i = j) ->
  exists n' d', derive never now o (n, d) = (Ok [], (n', d')) /\
    (forall a, a ∈ derivation_of now o d -> derived o a d') /\
    (forall p, p ∈ q_people d -> ps_OwnerID p <> o -> p ∈ q_people d') /\
    exists n2 d2, derive never now o (n', d') = (Ok [], (n2, d2)) /\ undated d2 = undated d'.
Proof.
  intros Hok Hf Hinj. pose proof (derive_frame never now o n d Hok) as (Hok' & He & Hp).
  assert (Hrun : forall m d0, derive never now o (m, d0) =
    derive_each unicode_lower undisturbed never EffectiveTLDPlusOne uuid dbnow o (derivation_of now o d0) (S m, d0)).
  { intros m d0. unfold DerivePeople, pass_bind. by rewrite attempt_call. }
  rewrite Hrun in Hok', He, Hp. rewrite Hrun. set (l := derivation_of now o d) in *.
  destruct (rounds_total unicode_lower EffectiveTLDPlusOne uuid dbnow Hinj o l (S n) d Hok) as (n' & d' & E & _ & _).
  { intros m Hm. apply Hf. lia. }
  rewrite E in *. cbn in Hok', He, Hp. exists n', d'. split; [done|].
  assert (Hall : forall a, a ∈ l -> derived o a d').
  { intros a (l1 & l2 & Hl)%list_elem_of_split. rewrite Hl in E.
    destruct (rounds_total unicode_lower EffectiveTLDPlusOne uuid dbnow Hinj o l1 (S n) d Hok) as (n1 & d1 & E1 & Hok1 & Hf1).
    { intros m Hm. apply Hf. lia. }
    destruct (round_total unicode_lower EffectiveTLDPlusOne uuid dbnow Hinj o a n1 d1 Hok1 Hf1) as (n2 & d2 & E2 & _).
    destruct (rounds_isolated unicode_lower EffectiveTLDPlusOne uuid dbnow never o l1 a l2 (S n) d [] _ _
      ltac:(rewrite <- Hl; apply NoDup_dedup_keys) E1 E2) as (errs & n3 & d3 & E3 & Hd3).
    rewrite E in E3. by injection E3 as _ <- <-. }
  split; [done|]. split; [done|]. rewrite Hrun. unfold derivation_of. rewrite He. fold (derivation_of now o d). fold l.
  destruct (rounds_again unicode_lower EffectiveTLDPlusOne uuid dbnow o l (S n') d' Hok' Hall) as (n2 & d2 & E2 & _ & Hu).
  by exists n2, d2.
Qed.
End Derivations.

(** ** Linking speakers *)

Section Link.
Variable unicode_lower : string -> string.
Variable text_lt : string -> string -> bool.
Variable lower : string -> string.
Variable ilike : string -> string -> bool.
Variable NFD : string -> string.
Variable is_Mn : string -> bool.

Local Abbreviation match_name := (MatchPersonByName unicode_lower NFD is_Mn ps_DisplayName ps_ID).
Local Abbreviation link := (LinkNoteSpeakers unicode_lower text_lt lower ilike undisturbed never NFD is_Mn).
Local Abbreviation link_all := (link_each unicode_lower undisturbed never NFD is_Mn).

Definition alias_row_key (r : alias_row) : string * string := (ar_note r, ar_label r).

(** The row with its person, if it has a name, no person yet, and exactly one
    candidate of that name. *)
Definition linked (people : list Person) (r : alias_row) : alias_row :=
  if (ar_name r =? "")%string || bool_decide (is_Some (ar_person r)) then r
  else match match_name (ar_name r) people with Some id => set_alias_person (Some id) r | None => r end.

(** The people a note's speakers are matched with, and the error of the search. *)
Definition candidates (ownerID noteID : string) (d : pdb) : list Person * option store_error :=
  match PeopleForNoteEvent unicode_lower text_lt lower ownerID noteID d with
  | Ok [] => (ListPeople text_lt ilike ownerID "" d, None)
  | Ok people => (people, None)
  | Err e => ([], Some e)
  end.

Lemma match_is_candidate name people id : match_name name people = Some id -> exists p, p ∈ people /\ ps_ID p = id.
Proof.
  rewrite MatchPersonByName_eq. destruct (_ =? "")%string; [done|]. destruct (List.filter _ people) as [|p [|]] eqn:E; [done| |done].
  intros [= <-]. exists p. split; [|done]. assert (H : p ∈ List.filter (same_name unicode_lower NFD is_Mn ps_DisplayName name) people) by (rewrite E; left).
  rewrite list_elem_of_In, filter_In, <- list_elem_of_In in H. apply H.
Qed.

Lemma alias_of_true o note label r : alias_of o note label r = true <-> aliases_for o note r = true /\ ar_label r = label.
Proof. unfold alias_of. by rewrite andb_true_iff, String.eqb_eq. Qed.

(** One alias: its row becomes the linked one. *)
Lemma link_alias_row o note people err r n d :
  NoDup (map alias_row_key (q_aliases d)) -> r ∈ q_aliases d -> aliases_for o note r = true ->
  (forall p, p ∈ people -> p ∈ q_people d) ->
  exists n', link_alias unicode_lower undisturbed never NFD is_Mn o note people err (scan_alias r) (n, d) =
    (Ok err, (n', put_aliases (update_where (alias_of o note (ar_label r)) (linked people) (q_aliases d)) d)).
Proof.
  intros Hnd Hr Hfor Hpeople. unfold link_alias. cbn.
  assert (Honly : forall x, x ∈ q_aliases d -> alias_of o note (ar_label r) x = true -> x = r).
  { intros x Hx [Hf Hl]%alias_of_true. apply (key_unique alias_row_key (q_aliases d)); [done..|]. unfold alias_row_key. rewrite Hl. f_equal.
    unfold aliases_for in *. rewrite !andb_true_iff, !String.eqb_eq in *. destruct Hf as [_ ->], Hfor as [_ ->]. done. }
  assert (Hsame : linked people r = r -> put_aliases (update_where (alias_of o note (ar_label r)) (linked people) (q_aliases d)) d = d).
  { intros E. assert (update_where (alias_of o note (ar_label r)) (linked people) (q_aliases d) = q_aliases d) as ->; [|by destruct d].
    unfold update_where. rewrite <- map_id. apply map_ext_in. intros x Hx%list_elem_of_In. destruct (alias_of _ _ _ x) eqn:Ex; [|done].
    by rewrite (Honly x Hx Ex). }
  destruct (_ || _) eqn:Eskip; [exists n; by rewrite Hsame by (unfold linked; by rewrite Eskip)|].
  destruct (match_name (ar_name r) people) as [id|] eqn:Em; [|exists n; by rewrite Hsame by (unfold linked; by rewrite Eskip, Em)].
  unfold pass_bind. rewrite attempt_call. cbn [never]. unfold set_alias_person_call, SetSpeakerAliasPerson.
  assert (Hhit : alias_of o note (ar_label r) r = true) by (by apply alias_of_true).
  rewrite owned_affected by (apply exists_where_true; by exists r).
  destruct (match_is_candidate _ _ _ Em) as (p & Hp & Hid).
  rewrite bool_decide_eq_true_2 by (apply list_elem_of_fmap; exists p; auto). cbn. exists (S n). unfold pass_ret.
  erewrite (update_where_with _ _ (linked people)); [by destruct err|]. intros x Hx Ex. rewrite (Honly x Hx Ex). unfold linked.
  by rewrite Eskip, Em.
Qed.

Lemma linked_key people r : alias_row_key (linked people r) = alias_row_key r /\ ar_owner (linked people r) = ar_owner r.
Proof. unfold linked. destruct (_ || _); [done|]. by destruct (match_name _ _). Qed.

(** Linking the row of a label and then the rows of others is linking them all. *)
Lemma linked_split o note people label labels t : label ∉ labels ->
  update_where (fun r => aliases_for o note r && bool_decide (ar_label r ∈ labels)) (linked people)
    (update_where (alias_of o note label) (linked people) t) =
  update_where (fun r => aliases_for o note r && bool_decide (ar_label r ∈ label :: labels)) (linked people) t.
Proof.
  intros Hn. unfold update_where. rewrite map_map. apply map_ext. intros x. unfold alias_of.
  destruct (aliases_for o note x) eqn:Ef; cbn [andb]; [|by rewrite Ef]. destruct (linked_key people x) as [Ek _].
  assert (Hk : ar_label (linked people x) = ar_label x) by (unfold alias_row_key in Ek; by injection Ek).
  destruct (String.eqb_spec (ar_label x) label) as [El|El].
  - rewrite Hk, El, bool_decide_eq_false_2, andb_false_r by done. by rewrite bool_decide_eq_true_2 by left.
  - rewrite Ef. cbn [andb]. by rewrite (bool_decide_ext (ar_label x ∈ labels) (ar_label x ∈ label :: labels)) by (rewrite elem_of_cons; naive_solver).
Qed.

Lemma link_each_rows o note people err l n d :
  NoDup (map alias_row_key (q_aliases d)) -> NoDup (map ar_label l) ->
  (forall r, r ∈ l -> r ∈ q_aliases d /\ aliases_for o note r = true) -> (forall p, p ∈ people -> p ∈ q_people d) ->
  exists n', link_all o note people err (map scan_alias l) (n, d) =
    (Ok err, (n', put_aliases (update_where (fun r => aliases_for o note r && bool_decide (ar_label r ∈ map ar_label l)) (linked people)
                                 (q_aliases d)) d)).
Proof.
  revert n d. induction l as [|r l IH]; intros n d Hnd Hl Hin Hpeople.
  { exists n. rewrite update_where_unmatched by (intros r _; by rewrite andb_false_r). by destruct d. }
  cbn in Hl. apply NoDup_cons in Hl as [Hr Hl]. destruct (Hin r ltac:(left)) as [Hrin Hrfor].
  destruct (link_alias_row o note people err r n d Hnd Hrin Hrfor Hpeople) as (n1 & E1).
  set (d1 := put_aliases _ d) in E1. assert (Ea : q_aliases d1 = update_where (alias_of o note (ar_label r)) (linked people) (q_aliases d)) by (by destruct d).
  destruct (IH n1 d1) as (n2 & E2).
  - rewrite Ea, map_update_where; [done|]. intros x. apply linked_key.
  - done.
  - intros x Hx. destruct (Hin x) as [Hxin Hxfor]; [by right|]. split; [|done]. rewrite Ea. apply elem_of_update_where. exists x. split; [done|].
    destruct (alias_of _ _ _ x) eqn:Ex; [|done]. apply alias_of_true in Ex as [_ Ex]. destruct Hr. rewrite <- Ex. apply list_elem_of_fmap. eauto.
  - intros p Hp. assert (q_people d1 = q_people d) as -> by (by destruct d). auto.
  - exists n2. cbn [map link_each]. unfold pass_bind. rewrite E1, E2, Ea, linked_split by done. unfold d1. by destruct d.
Qed.
Lemma candidates_are_people o note d p : p ∈ (candidates o note d).1 -> p ∈ q_people d.
Proof.
  assert (Hl : forall q, q ∈ ListPeople text_lt ilike o "" d -> q ∈ q_people d).
  { intros q. unfold ListPeople. rewrite elem_of_order_by, elem_of_select_where. naive_solver. }
  unfold candidates, PeopleForNoteEvent. destruct (select_where _ (q_notes d)) as [|r rs]; cbn; [by intros ?%elem_of_nil|].
  destruct (row_event r); [|apply Hl]. destruct (select_where _ (q_events d)) as [|e es]; cbn; [by intros ?%elem_of_nil|].
  destruct (_ =? 0)%nat; [apply Hl|]. destruct (order_by _ _) as [|q qs] eqn:E; [apply Hl|]. cbn. intros Hp.
  rewrite <- E, elem_of_order_by, elem_of_select_where in Hp. apply Hp.
Qed.

Lemma candidates_aliases o note al d : candidates o note (put_aliases al d) = candidates o note d.
Proof. by destruct d. Qed.

Lemma linked_idem people r : linked people (linked people r) = linked people r.
Proof.
  unfold linked at 2 3. destruct (_ || _) eqn:E.
  - unfold linked. by rewrite E.
  - destruct (match_name (ar_name r) people) as [id|] eqn:Em; unfold linked; [by rewrite orb_true_r|by rewrite E, Em].
Qed.

Lemma link_run o note n d :
  NoDup (map alias_row_key (q_aliases d)) ->
  exists n', link o note (n, d) = (Ok (candidates o note d).2,
    (n', put_aliases (update_where (aliases_for o note) (linked (candidates o note d).1) (q_aliases d)) d)).
Proof.
  intros Hnd. unfold LinkNoteSpeakers, pass_bind. rewrite attempt_call. cbn [never fst snd]. rewrite attempt_call. cbn [never fst snd].
  set (l := order_by (fun a b => text_lt (ar_label a) (ar_label b)) (select_where (aliases_for o note) (q_aliases d))).
  assert (Hl : forall r, r ∈ l <-> r ∈ q_aliases d /\ aliases_for o note r = true).
  { intros r. unfold l. by rewrite elem_of_order_by, elem_of_select_where. }
  assert (Hlabels : NoDup (map ar_label l)).
  { unfold l. rewrite (fmap_Permutation ar_label _ _ (order_by_perm _ _)). revert Hnd. clear. unfold select_where.
    induction (q_aliases d) as [|r t IH]; cbn; [constructor|]. intros [Hr Hnd]%NoDup_cons. destruct (aliases_for o note r) eqn:Ef; [cbn|auto].
    apply NoDup_cons. split; [|auto]. rewrite list_elem_of_fmap. intros (x & Ex & Hx). rewrite list_elem_of_In, filter_In, <- list_elem_of_In in Hx.
    destruct Hx as [Hx Hxf]. apply Hr, list_elem_of_fmap. exists x. split; [|done]. unfold alias_row_key. rewrite Ex. f_equal.
    unfold aliases_for in *. rewrite !andb_true_iff, !String.eqb_eq in *. destruct Ef as [_ ->], Hxf as [_ ->]. done. }
  assert (Hgo : forall people err m, (forall p, p ∈ people -> p ∈ q_people d) ->
    exists n', link_all o note people err (ListSpeakerAliases text_lt o note (q_aliases d)) (m, d) =
      (Ok err, (n', put_aliases (update_where (aliases_for o note) (linked people) (q_aliases d)) d))).
  { intros people err m Hp. destruct (link_each_rows o note people err l m d) as (n' & E); [done|done|by intros r ?%Hl|done|].
    exists n'. unfold ListSpeakerAliases, listSpeakerAliasesTx. fold l. rewrite E. do 3 f_equal. apply update_where_ext.
    intros r Hr. destruct (aliases_for o note r) eqn:Ef; [|done]. cbn. apply bool_decide_eq_true, list_elem_of_fmap. exists r. by rewrite Hl. }
  assert (Hcand := candidates_are_people o note d). unfold candidates in *. destruct (PeopleForNoteEvent _ _ _ _ _ d) as [[|p people]|e].
  - rewrite attempt_call. cbn [never fst snd]. by apply Hgo.
  - by apply Hgo.
  - by apply Hgo.
Qed.

(** Linking a note's speakers gives each of its aliases that has a name and
    no person the one candidate of that name, if there is exactly one, and
    changes nothing else: an existing link is never replaced.  The candidates
    are the people among the attendees of the note's event, or all people of
    the owner when there are none; an error of that search is returned, and
    then nothing is linked.  Linking again changes nothing. *)
Theorem LinkNoteSpeakers_exact o note n d :
  NoDup (map alias_row_key (q_aliases d)) ->
  exists n' d', link o note (n, d) = (Ok (candidates o note d).2, (n', d')) /\
    d' = put_aliases (update_where (aliases_for o note) (linked (candidates o note d).1) (q_aliases d)) d /\
    exists m, link o note (n', d') = (Ok (candidates o note d).2, (m, d')).
Proof.
  intros Hnd. destruct (link_run o note n d Hnd) as (n' & E). rewrite E. do 2 eexists. split; [done|]. split; [done|].
  set (d' := put_aliases _ d). assert (Ea : q_aliases d' = update_where (aliases_for o note) (linked (candidates o note d).1) (q_aliases d)) by (by destruct d).
  destruct (link_run o note n' d') as (m & E'); [rewrite Ea, map_update_where; [done|]; intros r; apply linked_key|].
  exists m. rewrite E', Ea. unfold d'. rewrite candidates_aliases, update_where_idem by apply linked_idem. by destruct d.
Qed.
End Link.
