(* ===== verification/PeopleApi.v ===== *)
(** The handlers over people, companies and speaker names:
    [internal/api/people.go] and [internal/api/notes_speaker_aliases.go], and
    [NotesForPerson] of [internal/store/people.go].

    A handler is a [Pass] over the tables of People.v that ends in a [reply]:
    the status with what is encoded, or the status with the error message.  The
    body of a request is what decoding it gave, [None] when it is not valid.  An
    id in a request is text: [valid_uuid] is [uuid.Parse], [canon] the uuid that
    Postgres reads in it. *)

From stdpp Require Import base list strings sets gmap.
From Stdlib Require Import Ascii ZArith Lia.
From S2P Require Import GoInt GoStrings Sql Folders Execution Notes Transcripts Jobs Templates Summaries Transactions AgentTables.
From S2P Require Import Speakers ActionItems Calls Briefs PeopleNames People.

Local Open Scope string_scope.
Local Open Scope Z_scope.

Inductive reply (A : Type) : Type :=
| Reply (status : Z) (body : A)
| Failure (status : Z) (message : string).
Arguments Reply {A} status body.
Arguments Failure {A} status message.

Definition internal {A} : reply A := Failure 500 "internal error".
Definition not_found {A} : reply A := Failure 404 "not found".
Definition bad {A} (message : string) : reply A := Failure 400 message.

(** ** The notes of a person

    [note_tables] hands the people and aliases to the tables of Notes.v. *)

Definition note_tables (d : pdb) (t : tables) : tables :=
  mkTables (t_notes t) (t_bodies t) (t_tags t) (t_note_tags t) (t_transcripts t) (t_events t)
    (map (fun p => Notes.mkPerson (ps_ID p) (ps_OwnerID p) (PrimaryEmail p)) (q_people d))
    (map (fun r => mkAlias (ar_note r) (ar_owner r) (ar_person r)) (q_aliases d)) (t_folders t) (t_filings t).

Section NotesForPerson.
Variable unicode_lower : string -> string.
Variable lower : string -> string.
Variable name_lt : string -> string -> bool.

Definition attends_as (email : string) (d : tables) (r : note_row) : bool :=
  exists_where (fun e => bool_decide (row_event r = Some (ev_id e)) && (ev_owner e =? row_owner r)%string &&
    existsb (fun x => match x with Some x => (lower x =? email)%string | None => false end) (ev_emails e)) (t_events d).

Definition speaks_as (ownerID personID : string) (d : tables) (r : note_row) : bool :=
  exists_where (fun a => (al_note a =? row_id r)%string && (al_owner a =? ownerID)%string &&
    bool_decide (al_person a = Some personID)) (t_aliases d).

Definition NotesForPerson (ownerID personID : string) (d : tables) : result store_error (list Note) :=
  match select_where (fun p => (pe_id p =? personID)%string && (pe_owner p =? ownerID)%string) (t_people d) with
  | [] => Err ErrNotFound
  | p :: _ =>
      let email := email_key unicode_lower (pe_email p) in
      let rows := order_by (fun a b => (row_created b <? row_created a)%Z)
        (select_where (fun r => owned ownerID r && row_live r && (attends_as email d r || speaks_as ownerID personID d r)) (t_notes d)) in
      let ids := map row_id rows in
      Ok (map (scan_listed d None false (tagsForNotesTx lower name_lt ids d) (foldersForNotes ids (folder_db d))) rows)
  end.
End NotesForPerson.

(** ** Handlers *)

Section Handlers.
Variable others : nat -> pdb -> pdb.
Variable fails : nat -> bool.
Variable dbnow : nat -> Z.
Variable unicode_lower : string -> string.
Variable text_lt : string -> string -> bool.
Variable lower : string -> string.
Variable ilike : string -> string -> bool.
Variable NFD : string -> string.
Variable is_Mn : string -> bool.
Variable valid_uuid : string -> bool.
Variable canon : string -> string.
(** [json.Unmarshal] of a raw message into a string. *)
Variable unquote : string -> option string.

Local Notation "'pass!' x := m 'in' k" := (pass_bind m (fun x => k))
  (at level 10, x pattern, m at level 100, k at level 200, only parsing).
Local Abbreviation call := (store_call others fails).
Local Abbreviation reads f := (store_call others fails (fun _ d => (f d, d))).
Local Abbreviation handler A := (Pass pdb (reply A)).

(** [ErrNotFound] is a 404, every other error a 500. *)
Definition found_or {A B} (m : Pass pdb A) (k : A -> handler B) : handler B :=
  pass! r := attempt m in
  match r with
  | Ok a => k a
  | Err ErrNotFound => pass_ret not_found
  | Err _ => pass_ret internal
  end.

(** Every error is a 500. *)
Definition or_internal {A B} (m : Pass pdb A) (k : A -> handler B) : handler B :=
  pass! r := attempt m in match r with Ok a => k a | Err _ => pass_ret internal end.

Definition lists_companies (uid : string) : Pass pdb (list Company) := reads (fun d => Ok (ListCompanies text_lt uid d)).

(** The company a reply shows with a person. *)
Definition company_in (companies : list Company) (id : option string) : option Company :=
  match id with Some id => List.find (fun c => (co_ID c =? id)%string) companies | None => None end.

(** The last company of the list with the id, as filling a map leaves it. *)
Definition company_map (companyIDs : gset string) (companies : list Company) : gmap string Company :=
  fold_left (fun m c => if bool_decide (co_ID c ∈ companyIDs) then <[co_ID c := c]> m else m) companies ∅.

Definition handleListPeople (uid q : string) : handler (list (Person * option Company)) :=
  or_internal (reads (fun d => Ok (ListPeople text_lt ilike uid q d))) (fun people =>
  let companyIDs : gset string := list_to_set (omap CompanyID people) in
  let answer companies := pass_ret (Reply 200 (map (fun p =>
    (p, match CompanyID p with Some id => companies !! id | None => None end)) people)) in
  if bool_decide (companyIDs = ∅) then answer (∅ : gmap string Company)
  else or_internal (lists_companies uid) (fun listed => answer (company_map companyIDs listed))).

Definition handleListCompanies (uid q : string) : handler (list (Company * nat)) :=
  or_internal (reads (fun d => Ok (ListCompaniesWithPeopleCount text_lt ilike uid q d))) (fun companies =>
  pass_ret (Reply 200 companies)).

(** A person with its company. *)
Definition person_reply (uid : string) (person : Person) : handler (Person * option Company) :=
  match CompanyID person with
  | None => pass_ret (Reply 200 (person, None))
  | Some _ => or_internal (lists_companies uid) (fun companies => pass_ret (Reply 200 (person, company_in companies (CompanyID person))))
  end.

Definition handleGetPerson (uid id : string) : handler (Person * option Company) :=
  if negb (valid_uuid id) then pass_ret (bad "invalid id")
  else found_or (reads (GetPerson uid (canon id))) (person_reply uid).

(** The fields of an update, [None]: an invalid body. *)
Definition name_field (raw : gmap string string) : option (option string) :=
  match raw !! "display_name" with
  | None => Some None
  | Some v => if (v =? "null")%string then None else match unquote v with Some s => Some (Some s) | None => None end
  end.

Definition company_field (raw : gmap string string) : option (option string * bool) :=
  match raw !! "company_id" with
  | None => Some (None, false)
  | Some v =>
      if (v =? "null")%string then Some (None, true)
      else
        match unquote v with
        | None => None
        | Some s =>
            let s := TrimSpace s in
            if (s =? "")%string || negb (valid_uuid s) then None else Some (Some s, false)
        end
  end.

(** The check and the update are separate statements of the pool, so others
    may write in between. *)
Definition UpdatePerson (ownerID id : string) (displayName companyID : option string) (clearCompany : bool) : Pass pdb Person :=
  match displayName, companyID, clearCompany with
  | None, None, false => reads (GetPerson ownerID id)
  | _, _, _ =>
      pass! _ := match companyID with Some c => reads (company_check ownerID c) | None => pass_ret tt end in
      call (fun n => update_person (dbnow n) ownerID id displayName companyID clearCompany)
  end.

Definition handleUpdatePerson (uid id : string) (body : option (gmap string string)) : handler (Person * option Company) :=
  if negb (valid_uuid id) then pass_ret (bad "invalid id")
  else
    match body with
    | None => pass_ret (bad "invalid body")
    | Some raw =>
        match name_field raw, company_field raw with
        | Some displayName, Some (companyID, clearCompany) =>
            found_or (UpdatePerson uid (canon id) displayName (canon <$> companyID) clearCompany) (person_reply uid)
        | _, _ => pass_ret (bad "invalid body")
        end
    end.

(** The checks of a merge request's body. *)
Definition merge_target (body : option string) : option string :=
  match body with
  | None => None
  | Some into => if (TrimSpace into =? "")%string || negb (valid_uuid into) then None else Some into
  end.

Definition handleMergePeople (uid fromID : string) (body : option string) : handler (Person * option Company) :=
  if negb (valid_uuid fromID) then pass_ret (bad "invalid id")
  else
    match merge_target body with
    | None => pass_ret (bad "invalid body")
    | Some into =>
        if (into =? fromID)%string then pass_ret (bad "invalid merge")
        else found_or (call (fun _ => MergePeople canon uid fromID into)) (person_reply uid)
    end.

Definition handleDeletePerson (uid id : string) : handler unit :=
  if negb (valid_uuid id) then pass_ret (bad "invalid id")
  else found_or (call (fun _ => DeletePerson uid (canon id))) (fun _ => pass_ret (Reply 200 tt)).

(** [t] holds the tables of notes that nothing here changes. *)
Definition handleListPersonNotes (name_lt : string -> string -> bool) (t : tables) (uid id : string) : handler (list Note) :=
  if negb (valid_uuid id) then pass_ret (bad "invalid id")
  else
    found_or (reads (GetPerson uid (canon id))) (fun person =>
    found_or (reads (fun d => NotesForPerson unicode_lower lower name_lt uid (ps_ID person) (note_tables d t))) (fun notes =>
    pass_ret (Reply 200 notes))).

(** A company with its people. *)
Definition company_reply (uid id : string) : handler (Company * list Person) :=
  found_or (reads (GetCompany uid (canon id))) (fun company =>
  or_internal (reads (fun d => Ok (ListPeopleByCompany text_lt uid (canon id) d))) (fun people =>
  pass_ret (Reply 200 (company, people)))).

Definition handleGetCompany (uid id : string) : handler (Company * list Person) :=
  if negb (valid_uuid id) then pass_ret (bad "invalid id") else company_reply uid id.

Definition handleMergeCompanies (uid fromID : string) (body : option string) : handler (Company * list Person) :=
  if negb (valid_uuid fromID) then pass_ret (bad "invalid id")
  else
    match merge_target body with
    | None => pass_ret (bad "invalid body")
    | Some into =>
        pass! r := attempt (call (fun n => MergeCompanies canon (dbnow n) uid fromID into)) in
        match r with
        | Err ErrInvalidMerge => pass_ret (bad "invalid merge")
        | Err ErrNotFound => pass_ret not_found
        | Err _ => pass_ret internal
        | Ok _ => company_reply uid into
        end
    end.

(** *** Speaker names of a note *)

Definition notes_reads {A} (f : pdb -> A) : Pass pdb A := reads (fun d => Ok (f d)).

(** The check of the note that the handlers start with. *)
Definition of_owned_note {A} (uid noteID : string) (k : handler A) : handler A :=
  if negb (valid_uuid noteID) then pass_ret not_found
  else or_internal (notes_reads (fun d => NoteOwnedBy uid (canon noteID) (q_notes d))) (fun is_owned =>
    if is_owned then k else pass_ret not_found).

Definition handleListSpeakerAliases (uid noteID : string) : handler (list SpeakerAlias) :=
  of_owned_note uid noteID (
  or_internal (notes_reads (fun d => ListSpeakerAliases text_lt uid (canon noteID) (q_aliases d))) (fun aliases =>
  pass_ret (Reply 200 aliases))).

Definition handleListNotePeople (uid noteID : string) : handler (list Person) :=
  of_owned_note uid noteID (
  or_internal (notes_reads (PeopleForNoteSpeakers text_lt uid (canon noteID))) (fun people => pass_ret (Reply 200 people))).

(** The relinking itself runs later, as a [LinkNoteSpeakers] of its own. *)
Definition handleRelinkNoteSpeakers (uid noteID : string) : handler unit :=
  of_owned_note uid noteID (pass_ret (Reply 202 tt)).

Definition on_aliases {A} (f : pdb -> result store_error A * list alias_row) (d : pdb) : result store_error A * pdb :=
  let '(r, t) := f d in (r, put_aliases t d).

Definition handleUpsertSpeakerAlias (uid noteID label : string) (body : option string) : handler unit :=
  if negb (valid_uuid noteID) then pass_ret not_found
  else
    match body with
    | None => pass_ret (bad "invalid body")
    | Some aliasName =>
        if (aliasName =? "")%string then pass_ret (bad "alias_name required")
        else
          found_or (call (fun _ => on_aliases (fun d => UpsertSpeakerAlias uid (canon noteID) label aliasName (q_notes d) (q_aliases d)))) (fun _ =>
          pass! _ := LinkNoteSpeakers unicode_lower text_lt lower ilike others fails NFD is_Mn uid (canon noteID) in
          pass_ret (Reply 200 tt))
    end.

Definition handleDeleteSpeakerAlias (uid noteID label : string) : handler unit :=
  if negb (valid_uuid noteID) then pass_ret not_found
  else found_or (call (fun _ => on_aliases (fun d => DeleteSpeakerAlias uid (canon noteID) label (q_aliases d)))) (fun _ =>
    pass_ret (Reply 204 tt)).

(** [body] is the decoded [person_id]. *)
Definition handleSetSpeakerAliasPerson (uid noteID label : string) (body : option (option string)) : handler unit :=
  if negb (valid_uuid noteID) then pass_ret not_found
  else
    match body with
    | None => pass_ret (bad "invalid body")
    | Some personID =>
        let set := found_or (call (fun _ => set_alias_person_call uid (canon noteID) label (canon <$> personID))) (fun _ =>
                     pass_ret (Reply 200 tt)) in
        match personID with
        | None => set
        | Some p =>
            if negb (valid_uuid p) then pass_ret (bad "invalid id")
            else found_or (reads (GetPerson uid (canon p))) (fun _ => set)
        end
    end.
End Handlers.
