(* ===== verification/PeopleSafety.v ===== *)
(** Every request over people and speaker names keeps each reference within its
    owner, and the two ways of listing a person's notes agree. *)

From stdpp Require Import base list strings sets gmap.
From Stdlib Require Import Ascii ZArith Lia.
From S2P Require Import GoInt GoStrings Sql Folders Execution Notes Transcripts Jobs Templates Summaries Transactions AgentTables.
From S2P Require Import Speakers ActionItems Calls Briefs PeopleNames People PeopleProps PeopleRuns PeopleApi.

Local Open Scope string_scope.

#[local] Arguments update_where {row} p f t : simpl never.
#[local] Arguments delete_where {row} p t : simpl never.
#[local] Arguments exists_where {row} p t : simpl never.
#[local] Arguments select_where {row} p t : simpl never.

(** The invariant of the tables: [people_ok], and one alias per label of a note. *)
Definition tables_ok (d : pdb) : Prop := people_ok d /\ NoDup (map alias_row_key (q_aliases d)).

(** ** Aliases *)

Lemma alias_key_true note label r : alias_key note label r = true <-> alias_row_key r = (note, label).
Proof. unfold alias_key, alias_row_key. rewrite andb_true_iff, !String.eqb_eq. split; [by intros [-> ->]|by intros [= -> ->]]. Qed.

Lemma put_aliases_ok al d : tables_ok d -> NoDup (map alias_row_key al) ->
  (forall r x, r ∈ al -> ar_person r = Some x -> has_person d x (ar_owner r)) -> tables_ok (put_aliases al d).
Proof. intros [H1 H2] Hnd Hp. split; [by apply ok_put_aliases|]. by destruct d. Qed.

Lemma upsert_alias_ok o note label name d :
  tables_ok d -> tables_ok (on_aliases (fun d => UpsertSpeakerAlias o note label name (q_notes d) (q_aliases d)) d).2.
Proof.
  intros Hok. assert (Hid : tables_ok (put_aliases (q_aliases d) d)) by (by destruct d). unfold on_aliases, UpsertSpeakerAlias.
  destruct (NoteOwnedBy _ _ _); [|done]. cbn [negb]. destruct (exists_where _ _) eqn:E; cbn.
  - apply put_aliases_ok; [done|by rewrite map_update_where; [apply Hok|]|].
    intros r x (r0 & Hr & ->)%elem_of_update_where Hx. destruct Hok as [Hok _]. destruct (alias_key _ _ r0); by apply (ok_aliases d Hok r0).
  - apply put_aliases_ok; [done| |].
    + rewrite map_app. apply NoDup_snoc; [apply Hok|]. rewrite list_elem_of_fmap. intros (r & Er & Hr). rewrite exists_where_false in E.
      specialize (E r Hr). by rewrite (proj2 (alias_key_true note label r)) in E.
    + intros r x [Hr| ->%list_elem_of_singleton]%elem_of_app; [|done]. by apply Hok.
Qed.

Lemma delete_alias_ok o note label d :
  tables_ok d -> tables_ok (on_aliases (fun d => DeleteSpeakerAlias o note label (q_aliases d)) d).2.
Proof.
  intros Hok. assert (Hid : tables_ok (put_aliases (q_aliases d) d)) by (by destruct d). unfold on_aliases, DeleteSpeakerAlias.
  destruct (_ =? 0)%nat; [done|]. cbn. apply put_aliases_ok; [done|by apply NoDup_map_delete, Hok|].
  intros r x [Hr _]%elem_of_delete_where. by apply Hok.
Qed.

(** The people set are the owner's, if they exist. *)
Lemma set_alias_ok o note label p d : tables_ok d -> (forall id o', p = Some id -> has_person d id o' -> o' = o) ->
  tables_ok (set_alias_person_call o note label p d).2.
Proof.
  intros Hok Hown. assert (Hid : tables_ok (put_aliases (q_aliases d) d)) by (by destruct d). unfold set_alias_person_call, SetSpeakerAliasPerson.
  destruct (_ =? 0)%nat; [done|]. destruct (match p with Some _ => _ | None => false end) eqn:Ep; [done|]. cbn.
  apply put_aliases_ok; [done|by rewrite map_update_where; [apply Hok|]|].
  intros r x (r0 & Hr & ->)%elem_of_update_where Hx. destruct (alias_of _ _ _ r0) eqn:E; [|by apply Hok]. cbn in *. subst p.
  rewrite negb_false_iff, bool_decide_eq_true in Ep. apply list_elem_of_fmap in Ep as (q & -> & Hq).
  apply alias_of_true in E as [E _]. unfold aliases_for in E. apply andb_true_iff in E as [->%String.eqb_eq _].
  assert (Hp : has_person d (ps_ID q) (ps_OwnerID q)) by (by exists q). by rewrite <- (Hown _ _ eq_refl Hp).
Qed.

(** ** Requests *)

Section Requests.
Variable others : nat -> pdb -> pdb.
Variable fails : nat -> bool.
Variable dbnow : nat -> Z.
Variable clock : Z.
Variable unicode_lower : string -> string.
Variable text_lt : string -> string -> bool.
Variable lower : string -> string.
Variable ilike : string -> string -> bool.
Variable NFD : string -> string.
Variable is_Mn : string -> bool.
Variable EffectiveTLDPlusOne : string -> option string.
Variable valid_uuid : string -> bool.
Variable canon : string -> string.
Variable unquote : string -> option string.

(** The requests that write, with the background runs they start. *)
Inductive request :=
| UpdatePersonRequest (uid id : string) (body : option (gmap string string))
| MergePeopleRequest (uid fromID : string) (body : option string)
| DeletePersonRequest (uid id : string)
| MergeCompaniesRequest (uid fromID : string) (body : option string)
| RefreshPeople (uid : string) (uuid : nat -> string)
| UpsertAliasRequest (uid noteID label : string) (body : option string)
| DeleteAliasRequest (uid noteID label : string)
| SetAliasPersonRequest (uid noteID label : string) (body : option (option string))
| RelinkNote (uid noteID : string).

Definition serve (q : request) : Pass pdb unit :=
  match q with
  | UpdatePersonRequest uid id body => ignoring (handleUpdatePerson others fails dbnow text_lt valid_uuid canon unquote uid id body)
  | MergePeopleRequest uid id body => ignoring (handleMergePeople others fails text_lt valid_uuid canon uid id body)
  | DeletePersonRequest uid id => ignoring (handleDeletePerson others fails valid_uuid canon uid id)
  | MergeCompaniesRequest uid id body => ignoring (handleMergeCompanies others fails dbnow text_lt valid_uuid canon uid id body)
  | RefreshPeople uid uuid => ignoring (DerivePeople unicode_lower text_lt others fails EffectiveTLDPlusOne uuid dbnow clock uid)
  | UpsertAliasRequest uid note label body =>
      ignoring (handleUpsertSpeakerAlias others fails unicode_lower text_lt lower ilike NFD is_Mn valid_uuid canon uid note label body)
  | DeleteAliasRequest uid note label => ignoring (handleDeleteSpeakerAlias others fails valid_uuid canon uid note label)
  | SetAliasPersonRequest uid note label body => ignoring (handleSetSpeakerAliasPerson others fails valid_uuid canon uid note label body)
  | RelinkNote uid note => ignoring (LinkNoteSpeakers unicode_lower text_lt lower ilike others fails NFD is_Mn uid note)
  end.

(** The owner an id names rows of: ids are drawn once. *)
Variable owner_of : string -> string.

Definition ids_owned (d : pdb) : Prop :=
  (forall p, p ∈ q_people d -> ps_OwnerID p = owner_of (ps_ID p)) /\
  (forall c, c ∈ q_companies d -> co_OwnerID c = owner_of (co_ID c)).

(** A refresh draws ids for its own user. *)
Definition draws_own (q : request) : Prop :=
  match q with RefreshPeople uid uuid => forall n, owner_of (uuid n) = uid | _ => True end.

Definition safe (d : pdb) : Prop := tables_ok d /\ ids_owned d.

Hypothesis others_keep : forall n d, safe d -> safe (others n d).

Local Abbreviation keeps m := (pass_keeps safe m).

Lemma has_person_owner d id o : ids_owned d -> has_person d id o -> o = owner_of id.
Proof. intros [Hp _] (p & Hin & <- & <-). by apply Hp. Qed.

Lemma has_company_owner d id o : ids_owned d -> has_company d id o -> o = owner_of id.
Proof. intros [_ Hc] (c & Hin & <- & <-). by apply Hc. Qed.

(** Tables whose rows have ids and owners of earlier rows. *)
Definition within (d d' : pdb) : Prop :=
  (forall p', p' ∈ q_people d' -> exists p, p ∈ q_people d /\ ps_ID p' = ps_ID p /\ ps_OwnerID p' = ps_OwnerID p) /\
  (forall c', c' ∈ q_companies d' -> exists c, c ∈ q_companies d /\ co_ID c' = co_ID c /\ co_OwnerID c' = co_OwnerID c).

Lemma within_refl d : within d d.
Proof. split; eauto. Qed.

Lemma within_trans d1 d2 d3 : within d1 d2 -> within d2 d3 -> within d1 d3.
Proof.
  intros [P1 C1] [P2 C2]. split.
  - intros p (q & Hq & -> & ->)%P2. by apply P1.
  - intros c (q & Hq & -> & ->)%C2. by apply C1.
Qed.

Lemma within_owned d d' : ids_owned d -> within d d' -> ids_owned d'.
Proof.
  intros [Hp Hc] [P C]. split.
  - intros p (q & Hq & -> & ->)%P. by apply Hp.
  - intros c (q & Hq & -> & ->)%C. by apply Hc.
Qed.

Lemma within_update f hit d : (forall p, ps_ID (f p) = ps_ID p /\ ps_OwnerID (f p) = ps_OwnerID p) ->
  within d (put_people (update_where hit f (q_people d)) d).
Proof.
  intros Hf. destruct d. split; cbn; [|eauto]. intros p (q & Hq & ->)%elem_of_update_where. exists q. split; [done|]. destruct (hit q); [apply Hf|done].
Qed.

Lemma within_delete_people hit d : within d (delete_people hit d).
Proof. destruct d. split; cbn; [|eauto]. intros p [Hp _]%elem_of_delete_where. eauto. Qed.

Lemma within_delete_companies hit d : within d (delete_companies hit d).
Proof.
  destruct d. split; cbn.
  - intros p (q & Hq & ->)%elem_of_update_where. exists q. split; [done|]. by destruct (match CompanyID q with Some _ => _ | None => _ end).
  - intros c [Hc _]%elem_of_delete_where. eauto.
Qed.

Lemma within_aliases al d : within d (put_aliases al d).
Proof. destruct d. split; cbn; eauto. Qed.

Lemma keeps_reads {A} (f : pdb -> result store_error A) : keeps (store_call others fails (fun _ d => (f d, d))).
Proof. by apply pass_keeps_call. Qed.

Lemma keeps_found {A B} (m : Pass pdb A) (k : A -> Pass pdb (reply B)) : keeps m -> (forall a, keeps (k a)) -> keeps (found_or m k).
Proof.
  intros Hm Hk. apply pass_keeps_bind; [by apply pass_keeps_attempt|]. intros [a|[]]; [apply Hk|apply pass_keeps_ret..].
Qed.

Lemma keeps_or_internal {A B} (m : Pass pdb A) (k : A -> Pass pdb (reply B)) :
  keeps m -> (forall a, keeps (k a)) -> keeps (or_internal m k).
Proof. intros Hm Hk. apply pass_keeps_bind; [by apply pass_keeps_attempt|]. intros [a|e]; [apply Hk|apply pass_keeps_ret]. Qed.

Lemma keeps_person_reply uid p : keeps (person_reply others fails text_lt uid p).
Proof.
  unfold person_reply. destruct (CompanyID p); [|apply pass_keeps_ret]. apply keeps_or_internal; [apply keeps_reads|]. intros. apply pass_keeps_ret.
Qed.

Lemma keeps_company_reply uid id : keeps (company_reply others fails text_lt canon uid id).
Proof.
  apply keeps_found; [apply keeps_reads|]. intros c. apply keeps_or_internal; [apply keeps_reads|]. intros. apply pass_keeps_ret.
Qed.

(** A store call that keeps the people and does not touch the keys of aliases. *)
Lemma ok_same_aliases d d' : tables_ok d -> people_ok d' -> map alias_row_key (q_aliases d') = map alias_row_key (q_aliases d) -> tables_ok d'.
Proof. intros [_ H] Hok E. split; [done|]. by rewrite E. Qed.

Lemma keys_delete_people hit d : map alias_row_key (q_aliases (delete_people hit d)) = map alias_row_key (q_aliases d).
Proof. destruct d. unfold delete_people. cbn. by apply map_update_where. Qed.

Lemma keys_delete_companies hit d : q_aliases (delete_companies hit d) = q_aliases d.
Proof. by destruct d. Qed.

Lemma safe_step d d' : safe d -> people_ok d' -> map alias_row_key (q_aliases d') = map alias_row_key (q_aliases d) -> within d d' -> safe d'.
Proof. intros [Hok Hid] Hok' E Hw. split; [by eapply ok_same_aliases|by eapply within_owned]. Qed.

(** A company id the caller was told of is the caller's, whenever it is used. *)
Lemma owned_company o c d : safe d -> (forall x, c = Some x -> owner_of x = o) ->
  forall x, c = Some x -> company_exists c d = true -> has_company d x o.
Proof.
  intros [_ [_ Hc]] Ho x -> (k & Hk & <-%String.eqb_eq)%exists_where_true. exists k. split_and!; [done..|].
  rewrite (Hc k Hk). by apply Ho.
Qed.

Lemma update_person_safe now o id name c clear d : safe d -> (forall x, c = Some x -> owner_of x = o) ->
  safe (update_person now o id name c clear d).2.
Proof.
  intros Hs Ho. apply (safe_step d); [done|by apply update_person_ok; [apply Hs|by apply owned_company]|..]; unfold update_person;
    repeat (case_match; cbn; try done); by (apply within_refl || apply within_update || destruct d).
Qed.

Lemma merge_people_safe o a b d : safe d -> safe (MergePeople canon o a b d).2.
Proof.
  intros Hs. apply (safe_step d); [done|by apply MergePeople_ok, Hs|..]; unfold MergePeople, merge_people_tx;
    repeat (case_match; cbn; try done; try apply within_refl).
  - rewrite keys_delete_people. destruct d. cbn. by apply map_update_where.
  - eapply within_trans; [apply within_aliases|apply within_delete_people].
Qed.

Lemma delete_person_safe o id d : safe d -> safe (DeletePerson o id d).2.
Proof.
  intros Hs. apply (safe_step d); [done|by apply DeletePerson_ok, Hs|..]; unfold DeletePerson; case_match; cbn; try done.
  - apply keys_delete_people.
  - apply within_refl.
  - apply within_delete_people.
Qed.

Lemma merge_companies_safe now o a b d : safe d -> safe (MergeCompanies canon now o a b d).2.
Proof.
  intros Hs. apply (safe_step d); [done|by apply MergeCompanies_ok, Hs|..]; unfold MergeCompanies, merge_companies_tx;
    repeat (case_match; cbn; try done; try apply within_refl).
  - rewrite keys_delete_companies. by destruct d.
  - eapply within_trans; [|apply within_delete_companies].
    by apply (within_update (with_company (Some (canon b)) now)).
Qed.

Lemma upsert_company_safe u now o dom d : owner_of u = o -> safe d -> safe (UpsertCompany u now o dom "" d).2.
Proof.
  intros Hu [Hok [Hp Hc]]. split.
  - eapply ok_same_aliases; [done|by apply UpsertCompany_ok, Hok|]. unfold UpsertCompany. repeat (case_match; cbn; try done); by destruct d.
  - unfold UpsertCompany. destruct (select_where _ _) as [|c l]; cbn.
    + case_match; [done|]. destruct d. split; [done|]. cbn in *. intros c [Hin| ->%list_elem_of_singleton]%elem_of_app; [by apply Hc|done].
    + destruct d. split; [done|]. cbn in *. intros x (y & Hy & ->)%elem_of_update_where. destruct (same_domain _ _ y); exact (Hc y Hy).
Qed.

Lemma upsert_person_safe u now o email name c d : owner_of u = o -> safe d ->
  (forall x, c = Some x -> company_exists c d = true -> has_company d x o) ->
  safe (UpsertPerson unicode_lower u now o email name c d).2.
Proof.
  intros Hu [Hok [Hp Hc]] Hco. split.
  - eapply ok_same_aliases; [done|by apply UpsertPerson_ok; [apply Hok|]|]. unfold UpsertPerson. repeat (case_match; cbn; try done); by destruct d.
  - unfold UpsertPerson. destruct (select_where _ _) as [|p l]; cbn.
    + repeat (case_match; cbn; try done). destruct d. split; [|done]. cbn in *.
      intros q [Hin| ->%list_elem_of_singleton]%elem_of_app; [by apply Hp|done].
    + case_match; [done|]. cbn. destruct d. split; [|done]. cbn in *.
      intros x (y & Hy & ->)%elem_of_update_where. destruct (same_email _ _ y); exact (Hp y Hy).
Qed.

Lemma on_aliases_safe {A} (f : pdb -> result store_error A * list alias_row) d :
  safe d -> tables_ok (on_aliases f d).2 -> safe (on_aliases f d).2.
Proof. intros [_ Hid] Hok. split; [done|]. unfold on_aliases. destruct (f d). eapply within_owned; [done|apply within_aliases]. Qed.

Lemma set_alias_safe o note label p d : safe d -> (forall id, p = Some id -> owner_of id = o) ->
  safe (set_alias_person_call o note label p d).2.
Proof.
  intros [Hok Hid] Hown. split.
  - apply set_alias_ok; [done|]. intros id o' E Hp. rewrite (has_person_owner d id o') by done. by apply Hown.
  - unfold set_alias_person_call. destruct (SetSpeakerAliasPerson _ _ _ _ _ _). eapply within_owned; [done|apply within_aliases].
Qed.

(** A read whose answer is kept track of. *)
Lemma keeps_found_read {A B} (f : pdb -> result store_error A) (Q : A -> Prop) (k : A -> Pass pdb (reply B)) :
  (forall d a, safe d -> f d = Ok a -> Q a) -> (forall a, Q a -> keeps (k a)) -> keeps (found_or (store_call others fails (fun _ d => (f d, d))) k).
Proof.
  intros Hf Hk. eapply pass_keeps_bind_ensures; [by apply ensures_read|]. intros [a|[]] Ha; [by apply Hk|apply pass_keeps_ret..].
Qed.

Lemma found_person d o id p : safe d -> GetPerson o id d = Ok p -> owner_of id = o.
Proof.
  intros Hs. unfold GetPerson. destruct (select_where _ _) as [|q l] eqn:E; [done|]. intros [= ->]. apply select_hit in E as [Hin [<- <-]%person_owned_true].
  symmetry. by apply Hs.
Qed.

Lemma UpdatePerson_safe o id name c clear : keeps (UpdatePerson others fails dbnow o id name c clear).
Proof.
  assert (Hgo : keeps (pass_bind (match c with Some c => store_call others fails (fun _ d => (company_check o c d, d)) | None => pass_ret tt end)
    (fun _ => store_call others fails (fun n => update_person (dbnow n) o id name c clear)))).
  { destruct c as [c|].
    - apply (pass_keeps_bind_ensures _ (fun _ => owner_of c = o)).
      + intros n d Hd. unfold store_call. assert (Hd' := others_keep n d Hd). destruct (fails n); [done|]. cbn. split; [done|].
        destruct (company_check o c (others n d)) as [u|] eqn:Ec; [|done]. apply guard_ok, exists_company_owned in Ec.
        symmetry. apply (has_company_owner (others n d)); [apply Hd'|done].
      + intros _ Hc. apply pass_keeps_call; [done|]. intros n d Hd. apply update_person_safe; [done|]. by intros x [= <-].
    - apply pass_keeps_bind; [apply pass_keeps_ret|]. intros _. apply pass_keeps_call; [done|]. intros n d Hd.
      by apply update_person_safe. }
  unfold UpdatePerson. destruct name, c, clear; try exact Hgo. apply keeps_reads.
Qed.

Lemma listed_people_owned o q d p : safe d -> p ∈ ListPeople text_lt ilike o q d -> owner_of (ps_ID p) = o.
Proof.
  intros Hs. unfold ListPeople. rewrite elem_of_order_by, elem_of_select_where. intros [Hin Ho].
  apply andb_true_iff in Ho as [Ho%String.eqb_eq _]. rewrite <- Ho. symmetry. by apply Hs.
Qed.

Lemma event_people_owned o note d people p : safe d -> PeopleForNoteEvent unicode_lower text_lt lower o note d = Ok people ->
  p ∈ people -> owner_of (ps_ID p) = o.
Proof.
  intros Hs. unfold PeopleForNoteEvent. repeat case_match; try done; intros [= <-]; try by intros ?%elem_of_nil.
  rewrite elem_of_order_by, elem_of_select_where. intros [Hin Ho]. apply andb_true_iff in Ho as [Ho%String.eqb_eq _]. rewrite <- Ho.
  symmetry. by apply Hs.
Qed.

Lemma link_each_safe o note people aliases err : (forall p, p ∈ people -> owner_of (ps_ID p) = o) ->
  keeps (link_each unicode_lower others fails NFD is_Mn o note people err aliases).
Proof.
  intros Hp. revert err. induction aliases as [|a l IH]; intros err; cbn; [apply pass_keeps_ret|]. apply pass_keeps_bind; [|done].
  unfold link_alias. case_match; [apply pass_keeps_ret|]. destruct (MatchPersonByName _ _ _ _ _ _ _) as [id|] eqn:E; [|apply pass_keeps_ret].
  apply pass_keeps_bind; [|intros; apply pass_keeps_ret]. apply pass_keeps_attempt, pass_keeps_call; [done|]. intros n d Hd. apply set_alias_safe; [done|].
  intros x [= <-]. apply match_is_candidate in E as (p & Hin & <-). by apply Hp.
Qed.

Lemma LinkNoteSpeakers_safe o note : keeps (LinkNoteSpeakers unicode_lower text_lt lower ilike others fails NFD is_Mn o note).
Proof.
  unfold LinkNoteSpeakers. apply pass_keeps_bind; [by apply pass_keeps_attempt, pass_keeps_call|]. intros aliases.
  apply (pass_keeps_bind_ensures _ (fun r : result store_error (list Person) => match r with Ok people => forall p, p ∈ people -> owner_of (ps_ID p) = o | Err _ => True end)).
  { apply (ensures_read others fails safe others_keep (fun people => forall p, p ∈ people -> owner_of (ps_ID p) = o)).
    intros d people Hd E p. by eapply event_people_owned. }
  intros people Hpeople.
  apply (pass_keeps_bind_ensures _ (fun r : result store_error (list Person) => match r with Ok people => forall p, p ∈ people -> owner_of (ps_ID p) = o | Err _ => True end)).
  { destruct people as [[|p people]|e]; [|by apply ensures_ret..].
    apply (ensures_read others fails safe others_keep (fun people => forall p, p ∈ people -> owner_of (ps_ID p) = o)
      (fun d => Ok (ListPeople text_lt ilike o "" d))).
    intros d l Hd [= <-] p. by apply listed_people_owned. }
  intros people' Hpeople'. apply link_each_safe. destruct people'; [done|]. by intros p ?%elem_of_nil.
Qed.

Lemma DerivePeople_safe o uuid : (forall n, owner_of (uuid n) = o) ->
  keeps (DerivePeople unicode_lower text_lt others fails EffectiveTLDPlusOne uuid dbnow clock o).
Proof.
  intros Hu. apply DerivePeople_keeps; [done|..].
  - intros k now dom d. by apply upsert_company_safe.
  - intros k now email name c d. by apply upsert_person_safe.
  - intros n d id o1 o2 Hd H1 H2. rewrite (has_company_owner d id o1), (has_company_owner (others n d) id o2); [done|apply others_keep, Hd|done|apply Hd|done].
Qed.

(** C25. Whatever request over people, companies and speaker names is served, and
    whatever other users of the tables do between its store calls as long as
    they keep the same, every reference stays valid and within its owner: the
    company of a person, the person of a speaker name and the owner of an
    action item belong to the owner of the row; addresses and domains stay
    unique per owner, and speaker labels per note. *)
Theorem requests_keep_tenancy q n d : draws_own q -> safe d -> safe (serve q (n, d)).2.2.
Proof.
  intros Hq Hd. revert n d Hd. change (keeps (serve q)).
  destruct q as [uid id body|uid id body|uid id|uid id body|uid uuid|uid note label body|uid note label|uid note label body|uid note];
    apply pass_keeps_ignoring.
  - unfold handleUpdatePerson. repeat case_match; try apply pass_keeps_ret. apply keeps_found; [|intros; apply keeps_person_reply].
    apply UpdatePerson_safe.
  - unfold handleMergePeople. repeat case_match; try apply pass_keeps_ret. apply keeps_found; [|intros; apply keeps_person_reply].
    apply pass_keeps_call; [done|]. intros; by apply merge_people_safe.
  - unfold handleDeletePerson. case_match; [apply pass_keeps_ret|]. apply keeps_found; [|intros; apply pass_keeps_ret].
    apply pass_keeps_call; [done|]. intros; by apply delete_person_safe.
  - unfold handleMergeCompanies. repeat case_match; try apply pass_keeps_ret. apply pass_keeps_bind.
    + apply pass_keeps_attempt, pass_keeps_call; [done|]. intros; by apply merge_companies_safe.
    + intros r. repeat case_match; try apply pass_keeps_ret. apply keeps_company_reply.
  - by apply DerivePeople_safe.
  - unfold handleUpsertSpeakerAlias. repeat case_match; try apply pass_keeps_ret. apply keeps_found.
    + apply pass_keeps_call; [done|]. intros k x Hx. apply on_aliases_safe; [done|]. apply upsert_alias_ok, Hx.
    + intros _. apply pass_keeps_bind; [apply LinkNoteSpeakers_safe|]. intros; apply pass_keeps_ret.
  - unfold handleDeleteSpeakerAlias. case_match; [apply pass_keeps_ret|]. apply keeps_found; [|intros; apply pass_keeps_ret].
    apply pass_keeps_call; [done|]. intros k x Hx. apply on_aliases_safe; [done|]. apply delete_alias_ok, Hx.
  - unfold handleSetSpeakerAliasPerson. destruct (negb _); [apply pass_keeps_ret|]. destruct body as [[p|]|]; [| |apply pass_keeps_ret].
    + destruct (negb _); [apply pass_keeps_ret|].
      apply (keeps_found_read (GetPerson uid (canon p)) (fun _ => owner_of (canon p) = uid)); [intros x person; by apply found_person|].
      intros _ Hown. apply keeps_found; [|intros; apply pass_keeps_ret]. apply pass_keeps_call; [done|]. intros k x Hx.
      apply set_alias_safe; [done|]. by intros y [= <-].
    + apply keeps_found; [|intros; apply pass_keeps_ret]. apply pass_keeps_call; [done|]. intros k x Hx. by apply set_alias_safe.
  - apply LinkNoteSpeakers_safe.
Qed.
End Requests.

(** ** Two ways to list a person's notes *)

Section PersonNotes.
Variable unicode_lower : string -> string.
Variable lower : string -> string.
Variable name_lt : string -> string -> bool.

(** [ListNotes] with a person and no other condition. *)
Definition of_person (personID : string) : ListNotesFilter := {|
  f_Tag := ""; f_Status := ""; f_FolderID := ""; FolderIDSet := false; PersonID := personID; PersonIDSet := true;
  CreatedFrom := None; CreatedTo := None |}.

Lemma tags_same_ids ids ids' d : (forall x, x ∈ ids <-> x ∈ ids') -> tagsForNotesTx lower name_lt ids d = tagsForNotesTx lower name_lt ids' d.
Proof.
  intros H. unfold tagsForNotesTx, joined_tags. rewrite (select_where_ext _ (fun x => bool_decide (nt_note x ∈ ids'))); [done|].
  intros r _. by apply bool_decide_ext.
Qed.

Lemma folders_same_ids ids ids' d : (forall x, x ∈ ids <-> x ∈ ids') -> foldersForNotes ids d = foldersForNotes ids' d.
Proof.
  intros H. unfold foldersForNotes. rewrite (select_where_ext _ (fun x => bool_decide (nf_note x ∈ ids'))); [done|].
  intros r _. by apply bool_decide_ext.
Qed.

(** Listing the same rows in another order is listing the same notes. *)
Lemma listed_perm d rows rows' : rows ≡ₚ rows' ->
  map (scan_listed d None false (tagsForNotesTx lower name_lt (map row_id rows) d) (foldersForNotes (map row_id rows) (folder_db d))) rows ≡ₚ
  map (scan_listed d None false (tagsForNotesTx lower name_lt (map row_id rows') d) (foldersForNotes (map row_id rows') (folder_db d))) rows'.
Proof.
  intros Hp. assert (Hids : forall x, x ∈ map row_id rows <-> x ∈ map row_id rows') by (intros x; by rewrite Hp).
  by rewrite (tags_same_ids _ _ _ Hids), (folders_same_ids _ _ _ Hids), Hp.
Qed.

Lemma list_rows_perm f d rows : FolderIDSet f = false -> list_rows f d rows ≡ₚ rows.
Proof.
  intros E. unfold list_rows. rewrite E, order_by_perm, map_map. cbn. by rewrite map_id.
Qed.

Definition note_person (p : Person) : person := Notes.mkPerson (ps_ID p) (ps_OwnerID p) (PrimaryEmail p).

Lemma attends_agree d t p r : NoDup (map ps_ID (q_people d)) -> p ∈ q_people d ->
  lower (PrimaryEmail p) = email_key unicode_lower (PrimaryEmail p) -> row_owner r = ps_OwnerID p ->
  attends lower (note_tables d t) (ps_ID p) r = attends_as lower (email_key unicode_lower (PrimaryEmail p)) (note_tables d t) r.
Proof.
  intros Hnd Hp Hl Ho. unfold attends, attends_as. cbn. apply eq_true_iff_eq. rewrite !exists_where_true. split; intros (e & He & H); exists e; (split; [done|]).
  - apply exists_where_true in H as (q & Hq & H). apply list_elem_of_fmap in Hq as (p' & -> & Hp'). cbn in H.
    rewrite !andb_true_iff, !String.eqb_eq in H. destruct H as ((((Hid & _) & Hev) & Heo) & Hem).
    assert (p' = p) as -> by (by apply (key_unique ps_ID (q_people d))).
    rewrite !andb_true_iff, String.eqb_eq. split; [done|]. by rewrite <- Hl.
  - rewrite !andb_true_iff in H. destruct H as ((Hev & Heo) & Hem). apply exists_where_true. exists (note_person p).
    split; [apply list_elem_of_fmap; by exists p|]. cbn. rewrite !andb_true_iff, !String.eqb_eq, Hl.
    apply String.eqb_eq in Heo. by rewrite <- Ho, Heo.
Qed.

(** The notes of a person are the same whether they are asked for through
    the person or through the list of notes filtered by the person, up to
    their order: those the person attended by its address, and those where a
    speaker is linked to it. *)
Theorem person_notes_agree d t p :
  people_ok d -> p ∈ q_people d -> lower (PrimaryEmail p) = email_key unicode_lower (PrimaryEmail p) ->
  exists notes, NotesForPerson unicode_lower lower name_lt (ps_OwnerID p) (ps_ID p) (note_tables d t) = Ok notes /\
    notes ≡ₚ ListNotes lower name_lt (ps_OwnerID p) (of_person (ps_ID p)) (note_tables d t).
Proof.
  intros Hok Hp Hl. unfold NotesForPerson.
  assert (select_where (fun q => (pe_id q =? ps_ID p)%string && (pe_owner q =? ps_OwnerID p)%string) (t_people (note_tables d t)) = [note_person p]) as ->.
  { apply (select_key pe_id).
    - cbn. rewrite map_map. apply Hok.
    - apply list_elem_of_fmap. by exists p.
    - cbn. by rewrite !String.eqb_refl.
    - intros q _ [->%String.eqb_eq _]%andb_true_iff. done. }
  cbn [pe_email note_person]. eexists. split; [done|]. unfold ListNotes. apply listed_perm.
  rewrite list_rows_perm by done. rewrite order_by_perm. erewrite select_where_ext; [done|]. intros r _. unfold noteFilterSQL, common_filter. cbn.
  rewrite !andb_true_r. destruct (owned (ps_OwnerID p) r) eqn:Eo; [|done]. cbn. destruct (row_live r); [|done]. cbn.
  apply String.eqb_eq in Eo. rewrite (attends_agree d t p r) by (done || apply Hok). f_equal. unfold speaks, speaks_as. by rewrite Eo.
Qed.
End PersonNotes.
