(* ===== verification/PeopleDemo.v ===== *)
(** Concrete people, companies and speaker names, and the witnesses of their
    properties. *)

From stdpp Require Import base list strings sets gmap.
From Stdlib Require Import Ascii ZArith Lia.
From S2P Require Import GoInt GoStrings Sql Folders Execution Notes Transcripts Jobs Templates Summaries Transactions AgentTables.
From S2P Require Import Speakers ActionItems Calls Briefs PeopleNames People PeopleProps PeopleRuns PeopleApi PeopleSafety.

Local Open Scope string_scope.
Local Open Scope list_scope.

Module PeopleDemo.

Fixpoint tally (n : nat) : string := match n with O => "" | S n => ("i" ++ tally n)%string end.
Definition new_id (n : nat) : string := ("u" ++ tally n)%string.

Lemma new_id_inj i j : new_id i = new_id j -> i = j.
Proof.
  revert j. induction i as [|i IH]; intros [|j] H; try done. f_equal. apply IH. unfold new_id in *. cbn in H. by injection H as ->.
Qed.

(** Lower case and the registrable domain, on what occurs here. *)
Definition no_unicode (s : string) : string := s.
Definition demo_etld (host : string) : option string := Some host.
Definition tick (n : nat) : Z := Z.of_nat n.

Definition live_note (id owner : string) (event : option string) : note_row :=
  Notes.mkRow id owner "Weekly" NoteReady false None None false None "" 5 5 event None None None None.
Definition guest (name email : string) : Attendee := {| at_Name := name; at_Email := email; Response := "" |}.
Definition meeting : CalendarEvent := mkCalendarEvent "e1" "ann" "src" "x1" "Weekly" 100 200 "" "" ""
  [guest "" "Bob@Acme.com"; guest "Bob Stone" "bob@acme.com"; guest "Eve" "eve@gmail.com"; guest "Room" ""] 0.

Definition demo_tables : pdb := mkPdb
  [mkCompany "c1" "ann" "acme.com" "Acme" 1 1; mkCompany "c2" "ann" "initech.com" "" 1 1; mkCompany "c3" "bob" "acme.com" "" 1 1]
  [mkPerson "p1" "ann" "bob@acme.com" "Bob Stone" (Some "c2") 1 1; mkPerson "p2" "ann" "robert@initech.com" "Stone, Robert" None 1 1;
   mkPerson "p3" "bob" "bob@acme.com" "Bob" (Some "c3") 1 1]
  [mkAliasRow "n1" "ann" "SPEAKER_00" "Dr. Robert Stone" None; mkAliasRow "n1" "ann" "SPEAKER_01" "Rob" (Some "p2")]
  [mkItem "i1" "n1" "ann" "Send the minutes" (Some "p2") ActionItemOpen "" 1]
  [live_note "n1" "ann" (Some "e1"); live_note "n2" "ann" None] [meeting].

Definition demo_owner (id : string) : string := if (id =? "c3")%string || (id =? "p3")%string then "bob" else "ann".

Ltac member := left + (right; member).
Ltac row_with := once (eexists; split; [cbn; member|split; reflexivity]).

Lemma tables_safe : safe demo_owner demo_tables.
Proof.
  assert (Hn : forall (l : list string), bool_decide (NoDup l) = true -> NoDup l) by (intros l; apply bool_decide_eq_true).
  assert (Hn2 : forall (l : list (string * string)), bool_decide (NoDup l) = true -> NoDup l) by (intros l; apply bool_decide_eq_true).
  split; [split; [|apply Hn2; by vm_compute]|].
  - constructor; [apply Hn; by vm_compute|apply Hn2; by vm_compute|apply Hn; by vm_compute|apply Hn2; by vm_compute| | |]; cbn.
    + intros p c Hp. repeat (apply elem_of_cons in Hp as [->|Hp]; [cbn; try done; intros [= <-]; row_with|]).
      by apply elem_of_nil in Hp.
    + intros r x Hr. repeat (apply elem_of_cons in Hr as [->|Hr]; [cbn; try done; intros [= <-]; row_with|]).
      by apply elem_of_nil in Hr.
    + intros i x Hi. repeat (apply elem_of_cons in Hi as [->|Hi]; [cbn; try done; intros [= <-]; row_with|]).
      by apply elem_of_nil in Hi.
  - split; cbn; intros x Hx; repeat (apply elem_of_cons in Hx as [->|Hx]; [done|]); by apply elem_of_nil in Hx.
Qed.

(** *** Merging *)

Definition merge_request : request := MergePeopleRequest "ann" "p2" (Some "p1").
Definition demo_serve (q : request) : Pass pdb unit :=
  serve undisturbed never tick 150 no_unicode String.ltb no_unicode (fun _ _ => false) no_unicode (fun _ => false) demo_etld
    (fun _ => true) no_unicode Some q.

Example merged :
  let d := (demo_serve merge_request (0, demo_tables)).2.2 in
  map ps_ID (q_people d) = ["p1"; "p3"] /\ map ar_person (q_aliases d) = [None; Some "p1"] /\ map OwnerPersonID (q_items d) = [None].
Proof. by vm_compute. Qed.

Lemma requests_keep_tenancy_witness :
  draws_own demo_owner merge_request /\ safe demo_owner demo_tables /\ safe demo_owner (demo_serve merge_request (0, demo_tables)).2.2.
Proof.
  split; [done|]. split; [exact tables_safe|].
  exact (requests_keep_tenancy undisturbed never tick 150 no_unicode String.ltb no_unicode (fun _ _ => false) no_unicode (fun _ => false)
    demo_etld (fun _ => true) no_unicode Some demo_owner (fun _ _ H => H) merge_request 0 demo_tables I tables_safe).
Defined.

Lemma MergePeople_exact_witness :
  people_ok demo_tables /\ (MergePeople no_unicode "ann" "p2" "p1" demo_tables).1 = Ok (mkPerson "p1" "ann" "bob@acme.com" "Bob Stone" (Some "c2") 1 1).
Proof. split; [apply tables_safe|]. rewrite (MergePeople_exact no_unicode "ann" "p2" "p1" demo_tables (proj1 (proj1 tables_safe))). reflexivity. Defined.

(** One uuid written in two ways. *)
Definition read_uuid (s : string) : string := if (s =? "C1")%string then "c1" else s.

Lemma MergeCompanies_exact_witness :
  people_ok demo_tables /\
  map co_ID (q_companies (MergeCompanies no_unicode 9 "ann" "c2" "c1" demo_tables).2) = ["c1"; "c3"] /\
  map co_ID (q_companies (MergeCompanies read_uuid 9 "ann" "C1" "c1" demo_tables).2) = ["c2"; "c3"].
Proof.
  split; [apply tables_safe|].
  rewrite (MergeCompanies_exact no_unicode 9 "ann" "c2" "c1" demo_tables (proj1 (proj1 tables_safe))).
  rewrite (MergeCompanies_exact read_uuid 9 "ann" "C1" "c1" demo_tables (proj1 (proj1 tables_safe))). split; reflexivity.
Defined.

(** *** Deriving *)

Example attendees_once : map at_Name (derivation_of no_unicode String.ltb 150 "ann" demo_tables) = ["Bob Stone"; "Eve"].
Proof. by vm_compute. Qed.

Lemma new_ids_fresh : fresh_ids new_id 0 demo_tables.
Proof.
  intros m _. split; cbn; intros H; repeat (apply elem_of_cons in H as [H|H]; [by unfold new_id in H|]); by apply elem_of_nil in H.
Qed.

Lemma DerivePeople_complete_witness :
  people_ok demo_tables /\ fresh_ids new_id 0 demo_tables /\
  exists n' d', DerivePeople no_unicode String.ltb undisturbed never demo_etld new_id tick 150 "ann" (0, demo_tables) = (Ok [], (n', d')) /\
    map (fun p => (PrimaryEmail p, ps_DisplayName p, CompanyID p)) (q_people d') =
      [("bob@acme.com", "Bob Stone", Some "c1"); ("robert@initech.com", "Stone, Robert", None); ("bob@acme.com", "Bob", Some "c3");
       ("eve@gmail.com", "Eve", None)].
Proof.
  split; [apply tables_safe|]. split; [exact new_ids_fresh|].
  destruct (DerivePeople_complete no_unicode String.ltb demo_etld new_id tick 150 "ann" 0 demo_tables (proj1 (proj1 tables_safe)) new_ids_fresh
    new_id_inj) as (n' & d' & E & _). exists n', d'. split; [exact E|]. vm_compute in E. injection E as _ <-. reflexivity.
Defined.

(** A derivation after a merge brings back the merged person's address. *)
Example merge_undone :
  map (fun p => (ps_ID p, PrimaryEmail p))
    (q_people (DerivePeople no_unicode String.ltb undisturbed never demo_etld new_id tick 150 "ann"
      (0, (MergePeople no_unicode "ann" "p1" "p2" demo_tables).2)).2.2) =
  [("p2", "robert@initech.com"); ("p3", "bob@acme.com"); ("uii", "bob@acme.com"); ("uiii", "eve@gmail.com")].
Proof. by vm_compute. Qed.

(** The first attendee's store call fails; the second is derived all the same. *)
Definition second_fails (n : nat) : bool := (n =? 2)%nat.
Definition demo_attendees : list Attendee := derivation_of no_unicode String.ltb 150 "ann" demo_tables.
Definition eve : Attendee := guest "Eve" "eve@gmail.com".

Lemma DerivePeople_isolated_witness :
  exists errs n' d', DerivePeople no_unicode String.ltb undisturbed second_fails demo_etld new_id tick 150 "ann" (0, demo_tables) =
      (Ok errs, (n', d')) /\ derived no_unicode demo_etld "ann" eve d'.
Proof.
  eapply (DerivePeople_isolated no_unicode String.ltb demo_etld new_id tick second_fails 150 "ann" 0 demo_tables
    [guest "Bob Stone" "Bob@Acme.com"] eve []); [reflexivity|by vm_compute|by vm_compute|by vm_compute].
Defined.

(** *** Linking *)

Lemma LinkNoteSpeakers_exact_witness :
  NoDup (map alias_row_key (q_aliases demo_tables)) /\
  exists n' d', LinkNoteSpeakers no_unicode String.ltb no_unicode (fun _ _ => false) undisturbed never no_unicode (fun _ => false) "ann" "n1"
      (0, demo_tables) = (Ok None, (n', d')) /\ map ar_person (q_aliases d') = [Some "p1"; Some "p2"].
Proof.
  split; [apply tables_safe|].
  destruct (LinkNoteSpeakers_exact no_unicode String.ltb no_unicode (fun _ _ => false) no_unicode (fun _ => false) "ann" "n1" 0 demo_tables
    (proj2 (proj1 tables_safe))) as (n' & d' & E & Hd & _). exists n', d'. split; [exact E|]. rewrite Hd. by vm_compute.
Defined.

(** *** The notes of a person *)

Definition note_side : tables :=
  mkTables (q_notes demo_tables) [] [] [] [] [mkEvent "e1" "ann" [Some "bob@acme.com"; Some "eve@gmail.com"]] [] [] [] [].
Definition bob_at_acme : Person := mkPerson "p1" "ann" "bob@acme.com" "Bob Stone" (Some "c2") 1 1.

Lemma person_notes_agree_witness :
  people_ok demo_tables /\ bob_at_acme ∈ q_people demo_tables /\
  exists notes, NotesForPerson no_unicode no_unicode String.ltb "ann" "p1" (note_tables demo_tables note_side) = Ok notes /\
    map note_ID notes = ["n1"] /\
    notes ≡ₚ ListNotes no_unicode String.ltb "ann" (of_person "p1") (note_tables demo_tables note_side).
Proof.
  assert (Hin : bob_at_acme ∈ q_people demo_tables) by (cbn; left).
  split; [apply tables_safe|]. split; [exact Hin|].
  destruct (person_notes_agree no_unicode no_unicode String.ltb demo_tables note_side bob_at_acme (proj1 (proj1 tables_safe)) Hin)
    as (notes & E & Hp); [by vm_compute|].
  exists notes. split; [exact E|]. split; [|exact Hp]. vm_compute in E. injection E as <-. reflexivity.
Defined.

End PeopleDemo.
