(* ===== verification/Outbound.v ===== *)
(** The mailbox between a note's live stream and its client:
    [internal/api/stream_outbound.go].

    [streamOutboundMailbox] is the struct; its three wake channels have room
    for one token and are booleans.  A method that runs under [q.mu] is one
    function.  The goroutine of [runWriter] is [pc]: one step per call on the
    mailbox, per [select] and per result of [write].  An execution is a run of
    [outbound_step], the writer's steps interleaved with other goroutines'
    [enqueue] and [close] in any order; [close] signals after it unlocked. *)

From stdpp Require Import base list strings.
From Stdlib Require Import ZArith Lia.
From S2P Require Import GoInt.

Local Open Scope list_scope.

(** ** Messages and decisions *)

Record streamSegmentMessage := mkMessage {
  msg_Type : string; msg_Text : string; msg_StartMS : Z; msg_EndMS : Z; msg_Speaker : option string;
  msg_Provisional : bool; msg_Final : bool; msg_StreamID : string; msg_NoteID : string; msg_DroppedMS : Z }.

Inductive streamOutboundMessageKind := MessagePartial | MessageFinal.

Record streamOutboundQueueState := mkQueueState { hasPendingFinal : bool; hasPendingPartial : bool }.

Inductive streamOutboundAction := QueuePartial | CoalescePartial | DropPartial | QueuePriority.

Definition decideStreamOutboundAction (state : streamOutboundQueueState) (kind : streamOutboundMessageKind)
  : streamOutboundAction :=
  match kind with
  | MessageFinal => QueuePriority
  | MessagePartial =>
      if hasPendingFinal state then DropPartial
      else if hasPendingPartial state then CoalescePartial
      else QueuePartial
  end.

Definition streamOutboundMessageKindFromMessage (msg : streamSegmentMessage) : streamOutboundMessageKind :=
  if msg_Final msg then MessageFinal else MessagePartial.

(** ** The mailbox *)

Record streamOutboundMailbox := mkMailbox {
  partialWake : bool; finalWake : bool; closeWake : bool;
  mb_partial : option streamSegmentMessage; mb_finals : list streamSegmentMessage; mb_closed : bool }.

Definition newStreamOutboundMailbox : streamOutboundMailbox := mkMailbox false false false None [] false.

Definition signalPartial (q : streamOutboundMailbox) : streamOutboundMailbox :=
  mkMailbox true (finalWake q) (closeWake q) (mb_partial q) (mb_finals q) (mb_closed q).
Definition signalFinal (q : streamOutboundMailbox) : streamOutboundMailbox :=
  mkMailbox (partialWake q) true (closeWake q) (mb_partial q) (mb_finals q) (mb_closed q).
Definition signalClose (q : streamOutboundMailbox) : streamOutboundMailbox :=
  mkMailbox (partialWake q) (finalWake q) true (mb_partial q) (mb_finals q) (mb_closed q).

Definition put_messages (p : option streamSegmentMessage) (f : list streamSegmentMessage) (q : streamOutboundMailbox)
  : streamOutboundMailbox := mkMailbox (partialWake q) (finalWake q) (closeWake q) p f (mb_closed q).

Definition enqueue (msg : streamSegmentMessage) (q : streamOutboundMailbox) : streamOutboundMailbox :=
  let state := mkQueueState (negb (bool_decide (mb_finals q = []))) (bool_decide (is_Some (mb_partial q))) in
  match decideStreamOutboundAction state (streamOutboundMessageKindFromMessage msg) with
  | QueuePriority => signalFinal (put_messages None (mb_finals q ++ [msg]) q)
  | QueuePartial | CoalescePartial => signalPartial (put_messages (Some msg) (mb_finals q) q)
  | DropPartial => q
  end.

(** The locked half of [close]. *)
Definition mark_closed (q : streamOutboundMailbox) : streamOutboundMailbox :=
  mkMailbox (partialWake q) (finalWake q) (closeWake q) (mb_partial q) (mb_finals q) true.

Definition closedAndEmpty (q : streamOutboundMailbox) : bool :=
  mb_closed q && bool_decide (mb_finals q = []) && bool_decide (mb_partial q = None).

Definition nextPriority (q : streamOutboundMailbox) : option (streamSegmentMessage * streamOutboundMailbox) :=
  match mb_finals q with
  | [] => None
  | msg :: rest => Some (msg, put_messages (mb_partial q) rest q)
  end.

Definition nextWritablePartial (q : streamOutboundMailbox) : option (streamSegmentMessage * streamOutboundMailbox) :=
  match mb_finals q, mb_partial q with
  | [], Some msg => Some (msg, put_messages None [] q)
  | _, _ => None
  end.

(** ** The writer *)

(** [partialTimer]: [nil], running, with its tick in its channel, or with the
    tick taken. *)
Inductive timer_state := NoTimer | TimerRunning | TimerFired | TimerDrained.

(** Where the goroutine is: before [nextPriority], in a [write], before
    [closedAndEmpty], before [hasPendingPartial], in either [select], after
    the tick or the close token was received, or returned with or without an
    error. *)
Inductive writer_pc :=
| AtPriority
| AtWrite (msg : streamSegmentMessage)
| AtClosedCheck
| AtPartialCheck
| AtTimedSelect
| AtTick
| AtSelect
| AtCloseToken
| Returned (failed : option streamSegmentMessage).

Record outbound := mkOutbound {
  box : streamOutboundMailbox; ob_pc : writer_pc; ob_timer : timer_state; ob_written : list streamSegmentMessage;
  ob_signalling : nat }.

Definition new_outbound : outbound := mkOutbound newStreamOutboundMailbox AtPriority NoTimer [] 0.

Inductive wake := WakeFinal | WakePartial | WakeTick | WakeClose.

Inductive outbound_action :=
| Enqueue (msg : streamSegmentMessage)
| MarkClosed
| SignalClose
| Tick
| Look
| Receive (w : wake)
| WriteReturns (ok : bool).

Definition take_final (q : streamOutboundMailbox) : option streamOutboundMailbox :=
  if finalWake q then Some (mkMailbox (partialWake q) false (closeWake q) (mb_partial q) (mb_finals q) (mb_closed q)) else None.
Definition take_partial (q : streamOutboundMailbox) : option streamOutboundMailbox :=
  if partialWake q then Some (mkMailbox false (finalWake q) (closeWake q) (mb_partial q) (mb_finals q) (mb_closed q)) else None.
Definition take_close (q : streamOutboundMailbox) : option streamOutboundMailbox :=
  if closeWake q then Some (mkMailbox (partialWake q) (finalWake q) false (mb_partial q) (mb_finals q) (mb_closed q)) else None.

(** A [select] that receives from the chosen channel; [timed] when a partial
    is pending, so that the timer's channel is one of its cases. *)
Definition receive (timed : bool) (w : wake) (o : outbound) : option outbound :=
  let 'mkOutbound q _ t out k := o in
  match w with
  | WakeFinal => q ← take_final q; Some (mkOutbound q AtPriority (if timed then NoTimer else t) out k)
  | WakePartial => q ← take_partial q; Some (mkOutbound q AtPriority t out k)
  | WakeClose =>
      q ← take_close q; Some (if timed then mkOutbound q AtPriority NoTimer out k else mkOutbound q AtCloseToken t out k)
  | WakeTick =>
      match timed, t with true, TimerFired => Some (mkOutbound q AtTick TimerDrained out k) | _, _ => None end
  end.

(** A step that calls a method of the mailbox. *)
Definition look (o : outbound) : option outbound :=
  let 'mkOutbound q pc t out k := o in
  match pc with
  | AtPriority =>
      Some match nextPriority q with
           | Some (msg, q) => mkOutbound q (AtWrite msg) NoTimer out k
           | None => mkOutbound q AtClosedCheck t out k
           end
  | AtClosedCheck => Some (mkOutbound q (if closedAndEmpty q then Returned None else AtPartialCheck) t out k)
  | AtPartialCheck =>
      Some (if bool_decide (is_Some (mb_partial q))
            then mkOutbound q AtTimedSelect (match t with NoTimer => TimerRunning | _ => t end) out k
            else mkOutbound q AtSelect NoTimer out k)
  | AtTick =>
      Some match nextWritablePartial q with
           | Some (msg, q) => mkOutbound q (AtWrite msg) NoTimer out k
           | None => mkOutbound q AtPriority NoTimer out k
           end
  | AtCloseToken => Some (mkOutbound q (if closedAndEmpty q then Returned None else AtPriority) t out k)
  | _ => None
  end.

Definition outbound_step (o : outbound) (a : outbound_action) : option outbound :=
  let 'mkOutbound q pc t out k := o in
  match a with
  | Enqueue msg => Some (mkOutbound (enqueue msg q) pc t out k)
  | MarkClosed => Some (mkOutbound (mark_closed q) pc t out (S k))
  | SignalClose => match k with O => None | S k => Some (mkOutbound (signalClose q) pc t out k) end
  | Tick => match t with TimerRunning => Some (mkOutbound q pc TimerFired out k) | _ => None end
  | Look => look o
  | Receive w =>
      match pc with AtTimedSelect => receive true w o | AtSelect => receive false w o | _ => None end
  | WriteReturns ok =>
      match pc with
      | AtWrite msg =>
          Some (if ok then mkOutbound q AtPriority t (out ++ [msg]) k else mkOutbound q (Returned (Some msg)) t out k)
      | _ => None
      end
  end.

(** The client of a live stream sees its messages in order and every final
    one, and the writer misses no wake-up. *)

#[export] Instance message_eq_dec : EqDecision streamSegmentMessage.
Proof. solve_decision. Defined.
#[export] Instance writer_pc_eq_dec : EqDecision writer_pc.
Proof. solve_decision. Defined.

(** ** What was queued and what became of it *)

Definition is_final (m : streamSegmentMessage) : bool := msg_Final m.

Definition queued_by (a : outbound_action) : list streamSegmentMessage := match a with Enqueue m => [m] | _ => [] end.

(** The messages queued in an execution, oldest first. *)
Definition queued (acts : list outbound_action) : list streamSegmentMessage := flat_map queued_by acts.

(** The message a [write] holds, also when the write failed. *)
Definition in_write (o : outbound) : list streamSegmentMessage :=
  match ob_pc o with AtWrite m => [m] | Returned (Some m) => [m] | _ => [] end.

Definition pending (o : outbound) : list streamSegmentMessage := mb_finals (box o) ++ option_list (mb_partial (box o)).

(** Everything the client got or may still get, in order. *)
Definition deliveries (o : outbound) : list streamSegmentMessage := ob_written o ++ in_write o ++ pending o.

Definition has_returned (o : outbound) : bool := match ob_pc o with Returned _ => true | _ => false end.

(** ** Only the lane of finals or the one partial is occupied *)

Record mailbox_ok (o : outbound) : Prop := {
  mo_lanes : mb_finals (box o) <> [] -> mb_partial (box o) = None;
  mo_partial : forall m, mb_partial (box o) = Some m -> is_final m = false;
  mo_finals : Forall is_final (mb_finals (box o)) }.

Lemma new_outbound_ok : mailbox_ok new_outbound.
Proof. split; cbn; [done|done|constructor]. Qed.

(** Cases of a step, its tests decided. *)
Ltac step_cases H :=
  repeat first
    [ progress (cbn in H; simplify_eq)
    | match type of H with
      | context [match ?x with _ => _ end] => destruct x eqn:?
      end
    | case_bool_decide ].

Lemma outbound_step_ok o a o' : mailbox_ok o -> outbound_step o a = Some o' -> mailbox_ok o'.
Proof.
  intros [HL HP HF] E. destruct o as [[wp wf wc p f c] pc t out k]. cbn in *.
  destruct a as [m| | | | |w|ok]; cbn in E; simplify_eq; try (split; cbn; assumption).
  - unfold enqueue, streamOutboundMessageKindFromMessage, decideStreamOutboundAction; cbn.
    destruct (msg_Final m) eqn:Em; cbn.
    + split; cbn; [done|done|]. apply Forall_app. split; [done|]. constructor; [unfold is_final; by rewrite Em|constructor].
    + case_bool_decide as Ef; cbn; [|split; cbn; assumption]. subst f.
      destruct (bool_decide (is_Some p)); split; cbn; try done; intros m' [= <-]; done.
  - destruct k; simplify_eq. split; cbn; assumption.
  - destruct t; simplify_eq. split; cbn; assumption.
  - destruct pc; simplify_eq; cbn; try (split; cbn; assumption).
    + destruct f as [|m f]; cbn; [split; cbn; assumption|]. apply Forall_cons in HF as [_ HF].
      split; cbn; [by rewrite HL|done|done].
    + destruct (bool_decide (is_Some p)); split; cbn; assumption.
    + destruct f as [|m f]; [|split; cbn; assumption]. destruct p; split; cbn; done.
  - destruct pc; simplify_eq; destruct w; cbn in E; unfold take_final, take_partial, take_close in E; step_cases E; split; cbn; assumption.
  - destruct pc; simplify_eq. destruct ok; split; cbn; assumption.
Qed.

(** ** Order *)

(** One step keeps what it does not queue, up to the partials it supersedes. *)
Lemma step_deliveries o a o' : mailbox_ok o -> outbound_step o a = Some o' ->
  sublist (deliveries o') (deliveries o ++ queued_by a) /\
  List.filter is_final (deliveries o') = List.filter is_final (deliveries o ++ queued_by a).
Proof.
  intros [HL HP HF] E. destruct o as [[wp wf wc p f c] pc t out k]. unfold deliveries, pending, in_write. cbn in *.
  destruct a as [m| | | | |w|ok]; cbn in E; simplify_eq; cbn; rewrite ?app_nil_r; try done.
  - unfold enqueue, streamOutboundMessageKindFromMessage, decideStreamOutboundAction; cbn.
    destruct (msg_Final m) eqn:Em; cbn.
    + split; rewrite ?app_nil_r, <- ?app_assoc.
      * repeat apply sublist_app; [done|done|done|]. apply (sublist_app [] _ [m] [m]); [apply sublist_nil_l|done].
      * rewrite !List.filter_app. f_equal. f_equal. f_equal. destruct p as [m'|]; cbn; [|done]. by rewrite (HP m').
    + case_bool_decide as Ef; cbn.
      * subst f. cbn. assert (is_final m = false) as Ei by done. destruct (bool_decide (is_Some p)); cbn; rewrite <- ?app_assoc.
        all: split; [repeat apply sublist_app; try done; by apply sublist_inserts_l|].
        all: rewrite !List.filter_app; f_equal; f_equal; cbn; rewrite Ei; destruct p as [m'|]; cbn; [by rewrite (HP m')|done].
      * split; [by apply sublist_inserts_r|]. rewrite (List.filter_app is_final _ [m]). cbn. replace (is_final m) with false by done. by rewrite app_nil_r.
  - destruct k; by simplify_eq.
  - destruct t; by simplify_eq.
  - destruct pc; simplify_eq; cbn; try done.
    + destruct f as [|m f]; cbn; done.
    + destruct (closedAndEmpty _); done.
    + destruct (bool_decide _); done.
    + destruct f as [|m f]; [destruct p|]; done.
    + destruct (closedAndEmpty _); done.
  - destruct pc; simplify_eq; destruct w; cbn in E; unfold take_final, take_partial, take_close in E; step_cases E; done.
  - destruct pc; simplify_eq. destruct ok; cbn; rewrite <- ?app_assoc; done.
Qed.

Lemma queued_snoc acts a : queued (acts ++ [a]) = queued acts ++ queued_by a.
Proof. unfold queued. rewrite flat_map_app. cbn. by rewrite app_nil_r. Qed.

(** The invariant of an execution from the empty mailbox. *)
Record execution_ok (o : outbound) (q : list streamSegmentMessage) : Prop := {
  eo_box : mailbox_ok o;
  eo_order : sublist (deliveries o) q;
  eo_finals : List.filter is_final (deliveries o) = List.filter is_final q;
  eo_latest : forall m, mb_partial (box o) = Some m -> last q = Some m }.

Lemma execution_step o q a o' : execution_ok o q -> outbound_step o a = Some o' -> execution_ok o' (q ++ queued_by a).
Proof.
  intros [HB HO HF HLa] E. destruct (step_deliveries o a o' HB E) as [S1 S2]. split.
  - by eapply outbound_step_ok.
  - etrans; [exact S1|]. by apply sublist_app.
  - rewrite S2, !List.filter_app. by f_equal.
  - intros m. destruct HB as [HL HP _]. destruct o as [[wp wf wc p f c] pc t out k]. cbn in *. clear S1 S2 HO HF.
    destruct a as [m'| | | | |w|ok]; cbn in E; simplify_eq; cbn; rewrite ?app_nil_r; try apply HLa.
    + unfold enqueue, streamOutboundMessageKindFromMessage, decideStreamOutboundAction; cbn.
      destruct (msg_Final m') eqn:Em; cbn; [done|]. rewrite last_snoc. case_bool_decide as Ef; cbn.
      * by destruct (bool_decide (is_Some p)).
      * rewrite HL by done. done.
    + destruct k; simplify_eq. apply HLa.
    + destruct t; simplify_eq. apply HLa.
    + destruct pc; simplify_eq; cbn; try apply HLa.
      * destruct f; apply HLa.
      * destruct (bool_decide (is_Some p)); apply HLa.
      * destruct f; [destruct p|]; cbn; try done; apply HLa.
    + destruct pc; simplify_eq; destruct w; cbn in E; unfold take_final, take_partial, take_close in E; step_cases E; apply HLa.
    + destruct pc; simplify_eq. destruct ok; apply HLa.
Qed.

Lemma execution_run acts : forall o q o', execution_ok o q -> run outbound_step o acts = Some o' -> execution_ok o' (q ++ queued acts).
Proof.
  induction acts as [|a acts IH]; intros o q o' H E; cbn in E; [simplify_eq; unfold queued; cbn; by rewrite app_nil_r|].
  destruct (outbound_step o a) as [o1|] eqn:E1; cbn in E; [|done].
  specialize (IH o1 _ o' (execution_step _ _ _ _ H E1) E). by rewrite <- app_assoc in IH.
Qed.

Lemma new_execution : execution_ok new_outbound [].
Proof. split; [apply new_outbound_ok|done|done|done]. Qed.

(** The writer leaves without an error only when all is written. *)
Lemma returns_empty o a o' : outbound_step o a = Some o' -> ob_pc o <> Returned None -> ob_pc o' = Returned None ->
  pending o' = [] /\ mb_closed (box o') = true.
Proof.
  intros E Hn Hr. destruct o as [[wp wf wc p f c] pc t out k]. cbn in *.
  assert (forall q, closedAndEmpty q = true -> (mb_finals q ++ option_list (mb_partial q)) = [] /\ mb_closed q = true) as Hq.
  { intros [? ? ? p' f' c']. unfold closedAndEmpty. cbn. rewrite !andb_true_iff, !bool_decide_eq_true. by intros [[-> ->] ->]. }
  destruct a as [m'| | | | |w|ok]; cbn in E; simplify_eq; cbn in *; try done.
  - destruct k; by simplify_eq.
  - destruct t; by simplify_eq.
  - destruct pc; simplify_eq; cbn in Hr; simplify_eq.
    + by destruct f.
    + destruct (closedAndEmpty _) eqn:Ec; [|done]. by apply Hq.
    + by destruct (bool_decide _).
    + destruct f; [destruct p|]; done.
    + destruct (closedAndEmpty _) eqn:Ec; [|done]. by apply Hq.
  - destruct pc; simplify_eq; destruct w; cbn in E; unfold take_final, take_partial, take_close in E; step_cases E; done.
  - destruct pc; simplify_eq. by destruct ok; simplify_eq.
Qed.

(** C30. Whatever the goroutines do and however they interleave, what the
    client got and may still get is the messages in the order they were queued,
    with every final one and some of the partials; a partial that waits is the
    newest message; and the writer returns without an error only when the
    mailbox is closed and everything is written. *)
Theorem messages_in_order acts o : run outbound_step new_outbound acts = Some o ->
  sublist (deliveries o) (queued acts) /\
  List.filter is_final (deliveries o) = List.filter is_final (queued acts) /\
  (forall m, mb_partial (box o) = Some m -> last (queued acts) = Some m) /\
  (forall a o', outbound_step o a = Some o' -> ob_pc o <> Returned None -> ob_pc o' = Returned None ->
    pending o' = [] /\ mb_closed (box o') = true).
Proof.
  intros E. destruct (execution_run acts _ [] o new_execution E) as [_ HO HF HLa]. cbn in *.
  split; [done|]. split; [done|]. split; [done|]. intros a o'. apply returns_empty.
Qed.

(** ** No wake-up is missed *)

(** What the writer may rely on where it is about to wait. *)
Record wake_ok (o : outbound) : Prop := {
  wo_final : match ob_pc o with AtPriority | AtWrite _ | Returned _ => True | _ => mb_finals (box o) <> [] -> finalWake (box o) = true end;
  wo_partial : ob_pc o = AtSelect -> mb_partial (box o) <> None -> partialWake (box o) = true;
  wo_check : ob_pc o = AtPartialCheck -> mb_closed (box o) = true ->
    closeWake (box o) = true \/ (0 < ob_signalling o)%nat \/ pending o <> [];
  wo_close : ob_pc o = AtSelect -> mb_closed (box o) = true ->
    closeWake (box o) = true \/ (0 < ob_signalling o)%nat \/ finalWake (box o) = true \/ partialWake (box o) = true;
  wo_timed : ob_pc o = AtTimedSelect \/ ob_pc o = AtTick -> pending o <> [];
  wo_timer : ob_pc o = AtTimedSelect -> ob_timer o = TimerRunning \/ ob_timer o = TimerFired;
  wo_drained : ob_timer o = TimerDrained -> ob_pc o = AtTick \/ has_returned o = true }.

Lemma pending_enqueue m q : (mb_finals q ++ option_list (mb_partial q) <> []) ->
  mb_finals (enqueue m q) ++ option_list (mb_partial (enqueue m q)) <> [].
Proof.
  intros H. destruct q as [wp wf wc p f c]. unfold enqueue, streamOutboundMessageKindFromMessage, decideStreamOutboundAction; cbn in *.
  destruct (msg_Final m); cbn; [by destruct f|]. case_bool_decide; cbn; [|done]. destruct (bool_decide _); cbn; by destruct f.
Qed.

Lemma enqueue_fields m q : partialWake q = true \/ finalWake q = true -> partialWake (enqueue m q) = true \/ finalWake (enqueue m q) = true.
Proof.
  destruct q as [wp wf wc p f c]. unfold enqueue, streamOutboundMessageKindFromMessage, decideStreamOutboundAction; cbn.
  destruct (msg_Final m); cbn; [tauto|]. case_bool_decide; cbn; [|done]. destruct (bool_decide _); cbn; tauto.
Qed.

Lemma enqueue_wakes m q :
  (finalWake q = true -> finalWake (enqueue m q) = true) /\ (partialWake q = true -> partialWake (enqueue m q) = true) /\
  closeWake (enqueue m q) = closeWake q /\ mb_closed (enqueue m q) = mb_closed q /\
  (mb_finals (enqueue m q) <> [] -> mb_finals q <> [] \/ finalWake (enqueue m q) = true) /\
  (mb_partial (enqueue m q) <> None -> mb_partial q <> None \/ partialWake (enqueue m q) = true).
Proof.
  destruct q as [wp wf wc p f c]. unfold enqueue, streamOutboundMessageKindFromMessage, decideStreamOutboundAction; cbn.
  destruct (msg_Final m); cbn; [naive_solver|]. case_bool_decide; cbn; [|naive_solver]. destruct (bool_decide _); cbn; naive_solver.
Qed.

Lemma closedAndEmpty_true q : closedAndEmpty q = true <-> mb_closed q = true /\ mb_finals q ++ option_list (mb_partial q) = [].
Proof.
  destruct q as [wp wf wc p f c]. unfold closedAndEmpty. cbn. rewrite !andb_true_iff, !bool_decide_eq_true. split.
  - by intros [[-> ->] ->].
  - intros [-> H]. apply app_eq_nil in H as [-> H]. by destruct p.
Qed.

Lemma wake_enqueue o m : wake_ok o -> wake_ok (mkOutbound (enqueue m (box o)) (ob_pc o) (ob_timer o) (ob_written o) (ob_signalling o)).
Proof.
  intros [W1 W2 W3 W4 W5 W6 W7]. destruct o as [q pc t out k]. unfold pending, has_returned in *. cbn in *.
  destruct (enqueue_wakes m q) as (E1 & E2 & E3 & E4 & E5 & E6). pose proof (pending_enqueue m q) as E7. split; unfold pending, has_returned; cbn; try done.
  - destruct pc; try done; naive_solver.
  - naive_solver.
  - intros Hp. rewrite E3, E4. intros Hc. destruct (W3 Hp Hc) as [?|[?|?]]; auto.
  - intros Hp. rewrite E3, E4. intros Hc. destruct (W4 Hp Hc) as [?|[?|[?|?]]]; auto.
  - auto.
Qed.

(** Closes the parts of [wake_ok] that do not concern the step at hand. *)
Ltac wake_rest :=
  try done; try (intros; discriminate); try (intros [?|?]; discriminate);
  try match goal with W7 : ?t = TimerDrained -> _ |- ?t = TimerDrained -> _ =>
        let H := fresh in intros H; destruct (W7 H) as [?|?]; first [discriminate | by left | by right] end.

Lemma wake_look o o' : mailbox_ok o -> wake_ok o -> look o = Some o' -> wake_ok o'.
Proof.
  intros [HL HP _] [W1 W2 W3 W4 W5 W6 W7] E. destruct o as [[wp wf wc p f c] pc t out k]. cbn in *.
  destruct pc; simplify_eq; unfold pending, has_returned in *; cbn in *.
  - destruct f as [|m f]; split; cbn; wake_rest.
  - destruct (closedAndEmpty _) eqn:Ec; split; unfold pending; cbn; wake_rest.
    intros _ ->. right; right. intros Hn. apply not_true_iff_false in Ec. by apply Ec, closedAndEmpty_true.
  - case_bool_decide as Ep; split; unfold pending; cbn; wake_rest.
    + intros _. destruct p; [by destruct f|by destruct Ep].
    + intros _. destruct t; auto. destruct W7; done.
    + destruct t; try done. intros ?. destruct W7; done.
    + intros _ Hp. destruct p; [|done]. by destruct Ep.
    + intros _ Hc. destruct (W3 eq_refl Hc) as [?|[?|Hn]]; auto. right; right; left. apply W1. intros ->.
      destruct p; [by destruct Ep|done].
  - destruct f as [|m f]; [destruct p|]; split; cbn; wake_rest.
  - destruct (closedAndEmpty _) eqn:Ec; split; cbn; wake_rest.
Qed.

Lemma wake_receive o w (timed : bool) o' : wake_ok o -> ob_pc o = (if timed then AtTimedSelect else AtSelect) -> receive timed w o = Some o' -> wake_ok o'.
Proof.
  intros [W1 W2 W3 W4 W5 W6 W7] Hpc E. destruct o as [[wp wf wc p f c] pc t out k]. cbn in *. subst pc.
  destruct timed; destruct w; cbn in E; unfold take_final, take_partial, take_close in E; step_cases E.
  all: split; unfold pending, has_returned in *; cbn in *; wake_rest.
  - intros _. apply W5. by left.
  - intros _. by left.
Qed.

Lemma wake_step o a o' : mailbox_ok o -> wake_ok o -> outbound_step o a = Some o' -> wake_ok o'.
Proof.
  intros HB HW E. destruct a as [m| | | | |w|ok].
  - pose proof (wake_enqueue o m HW) as H. destruct o. cbn in E. simplify_eq. exact H.
  - destruct HW as [W1 W2 W3 W4 W5 W6 W7]. destruct o as [q pc t out k]. cbn in *. simplify_eq.
    split; unfold pending, has_returned in *; cbn in *; try done; intros; right; left; lia.
  - destruct HW as [W1 W2 W3 W4 W5 W6 W7]. destruct o as [q pc t out k]. cbn in *. destruct k; simplify_eq.
    split; unfold pending, has_returned in *; cbn in *; try done; intros; by left.
  - destruct HW as [W1 W2 W3 W4 W5 W6 W7]. destruct o as [q pc t out k]. cbn in *. destruct t; simplify_eq.
    split; unfold pending, has_returned in *; cbn in *; try done. intros; by right.
  - apply (wake_look o o' HB HW). by destruct o.
  - destruct o as [q pc t out k]. cbn in E. destruct pc; try done.
    + by apply (wake_receive _ w true _ HW).
    + by apply (wake_receive _ w false _ HW).
  - destruct HW as [W1 W2 W3 W4 W5 W6 W7]. destruct o as [[wp wf wc p f c] pc t out k]. cbn in *.
    destruct pc; simplify_eq. destruct ok; simplify_eq; split; unfold pending, has_returned in *; cbn in *; wake_rest.
Qed.

Lemma new_wake : wake_ok new_outbound.
Proof. split; cbn; wake_rest. Qed.

Lemma box_run acts o o' : mailbox_ok o /\ wake_ok o -> run outbound_step o acts = Some o' -> mailbox_ok o' /\ wake_ok o'.
Proof.
  apply (run_invariant outbound_step (fun o => mailbox_ok o /\ wake_ok o)). intros s a s' [HB HW] E.
  split; [by eapply outbound_step_ok|by eapply wake_step].
Qed.

(** The final messages of an execution. *)
Lemma messages_kept acts o : run outbound_step new_outbound acts = Some o ->
  List.filter is_final (deliveries o) = List.filter is_final (queued acts) /\ sublist (deliveries o) (queued acts).
Proof. intros E. by destruct (execution_run acts _ [] o new_execution E) as [_ HO HF _]. Qed.

(** ** The writer's remaining work *)

(** The steps of the writer, of its timer and of a [close] under way. *)
Definition draining (a : outbound_action) : Prop := match a with Enqueue _ | MarkClosed => False | _ => True end.

Definition token (b : bool) : nat := if b then 10 else 0.

Definition timer_rank (t : timer_state) : nat :=
  match t with NoTimer => 3 | TimerRunning => 2 | TimerFired => 1 | TimerDrained => 0 end.

Definition pc_rank (o : outbound) : nat :=
  match ob_pc o with
  | AtPriority => match mb_finals (box o) with [] => 11 | _ => 0 end
  | AtWrite _ => 12 | AtClosedCheck => 10 | AtPartialCheck => 9 | AtTimedSelect => 5 | AtTick => 4 | AtSelect => 5
  | AtCloseToken => 12 | Returned _ => 0
  end.

Definition rank (o : outbound) : nat :=
  16 * length (pending o) + token (partialWake (box o)) + token (finalWake (box o)) + token (closeWake (box o)) +
  11 * ob_signalling o + timer_rank (ob_timer o) + pc_rank o.

#[local] Arguments Nat.mul : simpl never.
#[local] Arguments Nat.add : simpl never.

(** The decrease of a concrete step. *)
Ltac rank_lia := unfold rank, pc_rank, pending, token, timer_rank; cbn; rewrite ?length_app; cbn; repeat case_match; cbn; lia.

Lemma rank_look o o' : mailbox_ok o -> wake_ok o -> look o = Some o' -> (rank o' < rank o)%nat.
Proof.
  intros [HL _ _] [_ _ _ _ W5 _ _] E. destruct o as [[wp wf wc p f c] pc t out k]. cbn in *.
  destruct pc; simplify_eq; unfold pending in *; cbn in *.
  - destruct f as [|m f]; cbn; rank_lia.
  - destruct (closedAndEmpty _); rank_lia.
  - case_bool_decide; rank_lia.
  - destruct f as [|m f]; [destruct p|]; cbn in *; try rank_lia. destruct W5; auto.
  - destruct (closedAndEmpty _); rank_lia.
Qed.

Lemma rank_step o a o' : mailbox_ok o -> wake_ok o -> draining a -> outbound_step o a = Some o' -> (rank o' < rank o)%nat.
Proof.
  intros HB HW Ha E. destruct a as [m| | | | |w|ok]; try done.
  - destruct o as [q pc t out [|k]]; cbn in E; simplify_eq. rank_lia.
  - destruct o as [q pc t out k]; cbn in E. destruct t; simplify_eq. rank_lia.
  - apply (rank_look o o' HB HW). by destruct o.
  - destruct o as [[wp wf wc p f c] pc t out k]. cbn in E. destruct pc; simplify_eq; destruct w; cbn in E; unfold take_final, take_partial, take_close in E; step_cases E; rank_lia.
  - destruct o as [[wp wf wc p f c] pc t out k]. cbn in E. destruct pc; simplify_eq. destruct ok; simplify_eq; rank_lia.
Qed.

(** A writer that can go no further has returned or waits for messages that
    are not there. *)
Lemma stuck_waits o : mailbox_ok o -> wake_ok o -> (forall a, draining a -> outbound_step o a = None) ->
  has_returned o = true \/ (ob_pc o = AtSelect /\ pending o = [] /\ mb_closed (box o) = false).
Proof.
  intros HB [W1 W2 W3 W4 W5 W6 W7] Hs. destruct o as [[wp wf wc p f c] pc t out k]. unfold pending, has_returned in *. cbn in *.
  pose proof (Hs Look I) as Hl. pose proof (Hs SignalClose I) as Hk. pose proof (Hs Tick I) as Ht. cbn in Hl, Hk, Ht.
  destruct pc; try done; try (by left).
  - by specialize (Hs (WriteReturns true) I).
  - specialize (Hs (Receive WakeTick) I). cbn in Hs. by destruct (W6 eq_refl) as [->| ->].
  - right. destruct k; [|done].
    pose proof (Hs (Receive WakeFinal) I) as Hf. pose proof (Hs (Receive WakePartial) I) as Hp. pose proof (Hs (Receive WakeClose) I) as Hc.
    cbn in *. unfold take_final, take_partial, take_close in *. cbn in *.
    destruct wf, wp, wc; try done. split; [done|].
    assert (f = []) as ->. { destruct f; [done|]. by discriminate W1. }
    assert (p = None) as ->. { destruct p; [|done]. by discriminate W2. }
    split; [done|]. destruct c; [|done]. destruct (W4 eq_refl eq_refl) as [?|[?|[?|?]]]; try done. lia.
Qed.

(** A writer that returns without an error has nothing left, and while nothing
    is queued it stays so. *)
Lemma returned_drained acts : forall o o', (ob_pc o = Returned None -> pending o = [] /\ mb_closed (box o) = true) ->
  Forall draining acts -> run outbound_step o acts = Some o' ->
  ob_pc o' = Returned None -> pending o' = [] /\ mb_closed (box o') = true.
Proof.
  induction acts as [|a acts IH]; intros o o' H Ha E; cbn in E; [simplify_eq; exact H|].
  apply Forall_cons in Ha as [Hd Ha]. destruct (outbound_step o a) as [o1|] eqn:E1; cbn in E; [|done].
  apply (IH o1 o'); [|done|done]. intros Hr.
  destruct (decide (ob_pc o = Returned None)) as [Hp|Hp]; [|by eapply returns_empty].
  specialize (H Hp). destruct o as [[wp wf wc p f c] pc t out k]. unfold pending in *. cbn in *. subst pc.
  destruct a as [m| | | | |w|ok]; cbn in *; try done.
  - destruct k; by simplify_eq.
  - destruct t; by simplify_eq.
Qed.

(** C31. The writer is live.  Once nothing more is queued, any execution of
    the writer, its timer and the [close]s under way is at most [rank] steps
    long, whatever the channels' and the timer's order; and where it can go no
    further a write failed, or the client got every final message, nothing
    waits, and the writer has returned if the mailbox was closed. *)
Theorem writer_drains acts o acts' o' : run outbound_step new_outbound acts = Some o -> has_returned o = false ->
  Forall draining acts' -> run outbound_step o acts' = Some o' ->
  (length acts' <= rank o)%nat /\
  ((forall a, draining a -> outbound_step o' a = None) ->
   (exists m, ob_pc o' = Returned (Some m)) \/
   (pending o' = [] /\ List.filter is_final (ob_written o') = List.filter is_final (queued acts) /\
    ob_pc o' = if mb_closed (box o') then Returned None else AtSelect)).
Proof.
  intros E Hn Ha E'.
  destruct (box_run acts _ _ (conj new_outbound_ok new_wake) E) as [HB HW].
  destruct (box_run acts' _ _ (conj HB HW) E') as [HB' HW'].
  split.
  { enough (length acts' + rank o' <= rank o)%nat by lia.
    eapply (run_bounded outbound_step (fun o => mailbox_ok o /\ wake_ok o) rank draining); [|done|exact Ha|exact E'].
    intros s a s' [H1 H2] Hd Es. split; [split; [by eapply outbound_step_ok|by eapply wake_step]|by apply (rank_step s a)]. }
  intros Hs.
  assert (Hq : queued (acts ++ acts') = queued acts).
  { unfold queued. rewrite flat_map_app. replace (flat_map queued_by acts') with (@nil streamSegmentMessage); [apply app_nil_r|].
    clear -Ha. induction Ha as [|a l Hd _ IH]; cbn; [done|]. rewrite <- IH. by destruct a. }
  assert (Ho : run outbound_step new_outbound (acts ++ acts') = Some o') by (by rewrite run_app, E).
  destruct (messages_kept _ _ Ho) as [HF HE]. rewrite Hq in HF.
  assert (HR : ob_pc o' = Returned None -> pending o' = [] /\ mb_closed (box o') = true).
  { apply (returned_drained acts' o); [|done|done]. intros Hr. unfold has_returned in Hn. by rewrite Hr in Hn. }
  destruct (stuck_waits o' HB' HW' Hs) as [Hr|(Hp & Hpd & Hc)].
  - destruct (ob_pc o') as [| | | | | | | |[m|]] eqn:Ep; unfold has_returned in Hr; rewrite Ep in Hr; try done; [left; eauto|].
    right. destruct (HR eq_refl) as [Hpd Hc]. rewrite Hc. split; [done|]. split; [|done].
    rewrite <- HF. unfold deliveries, in_write. by rewrite Hpd, Ep, app_nil_r.
  - right. split; [done|]. rewrite Hc. split; [|done]. rewrite <- HF. unfold deliveries, in_write. by rewrite Hpd, Hp, app_nil_r.
Qed.
