(* ===== verification/NoteStream.v ===== *)
(** A note's live stream on the server: [internal/api/stream.go],
    [internal/api/stream_relay_state.go] and the client of a streaming plugin,
    [internal/plugin/stream.go].

    [handleNoteStream] runs four goroutines that share a buffer of audio
    frames, the mailbox of Outbound.v, a gap flag, two connections and the
    tables.  [stream] is their joint state: [rd_pc], [s_sender], [rv_pc] and
    [s_writer] say where each goroutine is, [ch_closer] how far [closeAll] has
    come.  One [stream_step] is one channel operation, one locked section, one
    store call, one message of a connection or one local computation; others
    change the tables by the operations of Transcripts.v.  The reader's two
    attempts to queue a frame are separate steps, as other goroutines run
    between them.  The [trace] records what happened for the statements.

    [finish_ms] is what the conversion of a float that does not fit an [int]
    yields, which Go leaves to the machine.  Sample counts are exact integers:
    a stream of [2^63] samples lasts eighteen million years. *)

From stdpp Require Import base list strings sets gmap.
From Stdlib Require Import Strings.Byte ZArith Lia SpecFloat.
From S2P Require Import GoInt GoStrings Streaming Sql Execution Notes Transcripts TranscriptsProps Summaries Outbound.

Local Open Scope string_scope.
Local Open Scope list_scope.

(** ** Events of a plugin *)

Record StreamingEvent := mkEvent {
  ev_Type : string; ev_Final : bool; ev_Text : string; ev_T0 : float64; ev_T1 : float64; ev_Speaker : option string;
  ev_Message : string }.

(** [Recv]: [None] is a frame that is not an event. *)
Definition Recv (payload : option StreamingEvent) : option StreamingEvent :=
  match payload with
  | None => None
  | Some ev =>
      if existsb (String.eqb (ev_Type ev)) ["loading"; "ready"; "segment"; "error"] then Some ev else None
  end.

(** What [Open] gets from its connection after the start frame; [None] is a
    failed read. *)
Inductive open_result := Opened (loadings : nat) | OpenFailed (loadings : nat).

Fixpoint await_ready (loadings : nat) (frames : list (option StreamingEvent)) : open_result :=
  match frames with
  | [] => OpenFailed loadings
  | frame :: rest =>
      match Recv frame with
      | None => OpenFailed loadings
      | Some ev =>
          if ev_Type ev =? "loading" then await_ready (S loadings) rest
          else if ev_Type ev =? "ready" then Opened loadings
          else OpenFailed loadings
      end
  end.

(** ** Milliseconds *)

(** [math.Round] of a finite number, as an integer. *)
Definition round_half_away (s : bool) (m : positive) (e : Z) : Z :=
  let magnitude := if (0 <=? e)%Z then Z.shiftl (Zpos m) e
                   else Z.shiftr (Zpos m + Z.shiftl 1 (- e - 1)) (- e) in
  if s then (- magnitude)%Z else magnitude.

Definition thousand : float64 := float64_of_Z 1000.

Section Milliseconds.
Variable finish_ms : float64 -> Z.

Definition secondsToMS (seconds : float64) : Z :=
  let x := SFmul 53 1024 seconds thousand in
  match x with
  | S754_zero _ => 0%Z
  | S754_finite s m e => let z := round_half_away s m e in if bool_decide (in_int64 z) then z else finish_ms x
  | _ => finish_ms x
  end.

(** ** Which events reach the client *)

(** [streamingSegmentRelayState]: the start times that are final. *)
Definition shouldRelay (finalizedByT0 : gset Z) (ev : StreamingEvent) : bool * gset Z :=
  let key := secondsToMS (ev_T0 ev) in
  if bool_decide (key ∈ finalizedByT0) then (false, finalizedByT0)
  else (true, if ev_Final ev then {[key]} ∪ finalizedByT0 else finalizedByT0).

Definition segment_of_event (ev : StreamingEvent) : Segment := {|
  seg_ID := ""; StartMS := secondsToMS (ev_T0 ev); EndMS := secondsToMS (ev_T1 ev); Text := ev_Text ev;
  seg_Source := "streaming"; Speaker := match ev_Speaker ev with Some x => x | None => "" end; Words := [];
  Confidence := None; Boundary := ""; Provisional := false |}.

Definition speakerPtr (s : string) : option string := if s =? "" then None else Some s.

Definition segment_message (final : bool) (seg : Segment) : streamSegmentMessage :=
  mkMessage "segment" (Text seg) (StartMS seg) (EndMS seg) (speakerPtr (Speaker seg)) true final "" "" 0.

(** ** Gaps *)

Definition with_boundary (v : string) (s : Segment) : Segment := {|
  seg_ID := seg_ID s; StartMS := StartMS s; EndMS := EndMS s; Text := Text s; seg_Source := seg_Source s;
  Speaker := Speaker s; Words := Words s; Confidence := Confidence s; Boundary := v; Provisional := Provisional s |}.

(** [streamGapState]: the flag and the segment after [applyToNextSegment]. *)
Definition applyToNextSegment (nextSegmentIsGap : bool) (seg : Segment) : bool * Segment :=
  if negb nextSegmentIsGap then (nextSegmentIsGap, seg)
  else (false, if Boundary seg =? "" then with_boundary "gap" seg
               else if negb (Boundary seg =? "gap") then with_boundary (Boundary seg ++ ",gap")%string seg
               else seg).

Definition streamingAudioBuffer : nat := 16.
Definition streamingSampleRate : Z := 16000.
Definition streamingBytesPerSample : Z := 2.

Record streamAudioFrame := mkFrame { fr_data : list byte; fr_startSample : Z }.
Record streamDropRun := mkRun { dr_startSample : Z; dr_droppedSamples : Z }.

Definition data_samples (data : list byte) : Z := Z.quot (len data) streamingBytesPerSample.
Definition frame_samples (f : streamAudioFrame) : Z := data_samples (fr_data f).

(** [streamDropTracker.observe]: the closed run and the run under way. *)
Definition observe (dropped : option streamAudioFrame) (run : option streamDropRun)
  : option streamDropRun * option streamDropRun :=
  match dropped with
  | Some f =>
      let r := match run with None => mkRun (fr_startSample f) 0 | Some r => r end in
      (None, Some (mkRun (dr_startSample r) (dr_droppedSamples r + frame_samples f)))
  | None => (run, None)
  end.

Definition gap_of_run (transcriptID streamID : string) (r : streamDropRun) : TranscriptGap := {|
  gap_ID := ""; TranscriptID := transcriptID; gap_StreamID := streamID; StartSample := dr_startSample r;
  DroppedSamples := Some (dr_droppedSamples r); Origin := "server" |}.

Definition gap_message (noteID streamID : string) (r : streamDropRun) : streamSegmentMessage :=
  mkMessage "gap" "" 0 0 None false true streamID noteID (Z.quot (dr_droppedSamples r * 1000) streamingSampleRate).

(** ** The goroutines *)

(** What follows the resolution of a drop run: the next message; [closeAll] and
    return; the end of the deferred flush. *)
Inductive after_run := ReadOn | GiveUp | LastRun.

(** Client to buffer. *)
Inductive reader_pc :=
| RRead
| ROffer (f : streamAudioFrame)
| RSteal (f : streamAudioFrame)
| RPut (f : streamAudioFrame) (dropped : option streamAudioFrame)
| RStore (r : streamDropRun) (k : after_run)
| RMark (r : streamDropRun) (k : after_run)
| RNotify (r : streamDropRun) (k : after_run)
| RCloseAll
| RDeferred
| RDeferredCloseAll
| RCloseAudio
| RDone.

Record reader := mkReader { rd_pc : reader_pc; rd_next : Z; rd_tracker : option streamDropRun }.

(** Buffer to plugin. *)
Inductive sender_pc := STake | SWrite (f : streamAudioFrame) | SStop | SCloseAll | SDone.

(** Plugin to tables and mailbox. *)
Inductive receiver_pc :=
| VRecv
| VApply (seg : Segment)
| VAppend (seg : Segment)
| VPartial (seg : Segment)
| VSend (final : bool) (seg : Segment)
| VMarkClosed
| VSignalClose
| VCloseAll
| VDeferred
| VDone.

Record receiver := mkReceiver { rv_pc : receiver_pc; rv_relay : gset Z; rv_partialWritten : bool }.

(** Mailbox to client, around [runWriter]. *)
Inductive writer_tail := WRun | WCloseAll | WCloseSocket | WCloseSession | WDone.

(** The body of [closeAll], which [closeAllOnce] runs once. *)
Inductive closer := NotClosing | CMarkClosed | CSignalClose | CCloseSession | CCloseSocket | ClosedAll.

Record channels := mkChannels {
  ch_audio : list streamAudioFrame; ch_audio_closed : bool; ch_gap : bool; ch_closer : closer;
  ch_session_closed : bool; ch_socket_closed : bool; ch_cancelled : bool }.

(** The frames read from the client, handed to the sender, dropped from the
    buffer and given up on a cancelled request; the runs whose gap was and was
    not stored; the finals that were stored; the messages queued. *)
Record trace := mkTrace {
  tr_read : list streamAudioFrame; tr_taken : list streamAudioFrame; tr_dropped : list streamAudioFrame;
  tr_abandoned : list streamAudioFrame; tr_gaps : list streamDropRun; tr_lost_gaps : list streamDropRun;
  tr_finals : list Segment; tr_queued : list streamSegmentMessage }.

Record stream := mkStream {
  s_db : tdb; s_reader : reader; s_sender : sender_pc; s_receiver : receiver; s_writer : writer_tail;
  s_out : outbound; s_ch : channels; s_tr : trace }.

Definition set_db (x : tdb) (s : stream) : stream :=
  mkStream x (s_reader s) (s_sender s) (s_receiver s) (s_writer s) (s_out s) (s_ch s) (s_tr s).
Definition set_reader (x : reader) (s : stream) : stream :=
  mkStream (s_db s) x (s_sender s) (s_receiver s) (s_writer s) (s_out s) (s_ch s) (s_tr s).
Definition set_sender (x : sender_pc) (s : stream) : stream :=
  mkStream (s_db s) (s_reader s) x (s_receiver s) (s_writer s) (s_out s) (s_ch s) (s_tr s).
Definition set_receiver (x : receiver) (s : stream) : stream :=
  mkStream (s_db s) (s_reader s) (s_sender s) x (s_writer s) (s_out s) (s_ch s) (s_tr s).
Definition set_writer (x : writer_tail) (s : stream) : stream :=
  mkStream (s_db s) (s_reader s) (s_sender s) (s_receiver s) x (s_out s) (s_ch s) (s_tr s).
Definition set_out (x : outbound) (s : stream) : stream :=
  mkStream (s_db s) (s_reader s) (s_sender s) (s_receiver s) (s_writer s) x (s_ch s) (s_tr s).
Definition set_ch (x : channels) (s : stream) : stream :=
  mkStream (s_db s) (s_reader s) (s_sender s) (s_receiver s) (s_writer s) (s_out s) x (s_tr s).
Definition set_tr (x : trace) (s : stream) : stream :=
  mkStream (s_db s) (s_reader s) (s_sender s) (s_receiver s) (s_writer s) (s_out s) (s_ch s) x.

Definition set_audio (x : list streamAudioFrame) (c : channels) : channels :=
  let 'mkChannels _ ac g cl se so ca := c in mkChannels x ac g cl se so ca.
Definition close_audio (c : channels) : channels :=
  let 'mkChannels a _ g cl se so ca := c in mkChannels a true g cl se so ca.
Definition set_gap (x : bool) (c : channels) : channels :=
  let 'mkChannels a ac _ cl se so ca := c in mkChannels a ac x cl se so ca.
Definition set_closer (x : closer) (c : channels) : channels :=
  let 'mkChannels a ac g _ se so ca := c in mkChannels a ac g x se so ca.
Definition close_session (c : channels) : channels :=
  let 'mkChannels a ac g cl _ so ca := c in mkChannels a ac g cl true so ca.
Definition close_socket (c : channels) : channels :=
  let 'mkChannels a ac g cl se _ ca := c in mkChannels a ac g cl se true ca.
Definition cancel (c : channels) : channels :=
  let 'mkChannels a ac g cl se so _ := c in mkChannels a ac g cl se so true.

Definition log_read (f : streamAudioFrame) (t : trace) : trace :=
  let 'mkTrace r k d a g l s q := t in mkTrace (r ++ [f]) k d a g l s q.
Definition log_taken (f : streamAudioFrame) (t : trace) : trace :=
  let 'mkTrace r k d a g l s q := t in mkTrace r (k ++ [f]) d a g l s q.
Definition log_dropped (f : streamAudioFrame) (t : trace) : trace :=
  let 'mkTrace r k d a g l s q := t in mkTrace r k (d ++ [f]) a g l s q.
Definition log_abandoned (fs : list streamAudioFrame) (t : trace) : trace :=
  let 'mkTrace r k d a g l s q := t in mkTrace r k d (a ++ fs) g l s q.
Definition log_gap (x : streamDropRun) (t : trace) : trace :=
  let 'mkTrace r k d a g l s q := t in mkTrace r k d a (g ++ [x]) l s q.
Definition log_lost_gap (x : streamDropRun) (t : trace) : trace :=
  let 'mkTrace r k d a g l s q := t in mkTrace r k d a g (l ++ [x]) s q.
Definition log_final (x : Segment) (t : trace) : trace :=
  let 'mkTrace r k d a g l s q := t in mkTrace r k d a g l (s ++ [x]) q.
Definition log_queued (x : streamSegmentMessage) (t : trace) : trace :=
  let 'mkTrace r k d a g l s q := t in mkTrace r k d a g l s (q ++ [x]).

(** ** Steps *)

(** How a store call comes out: it runs, it changes nothing and fails, or it
    commits and its answer is lost. *)
Inductive outcome := Runs | Refused | AnswerLost.

Definition store {A} (o : outcome) (f : tdb -> result store_error A * tdb) (d : tdb) : result store_error A * tdb :=
  match o with Runs => f d | Refused => (Err DbError, d) | AnswerLost => (match (f d).1 with Ok _ => Err DbError | e => e end, (f d).2) end.

Variables (noteID streamID transcriptID : string).

(** Messages of the two connections, cancellation of the request and other
    store operations come from outside; the rest are steps of the goroutines,
    with what their store calls, writes and [select]s yield. *)
Inductive stream_action :=
| ClientSends (data : list byte)
| ClientSendsText
| ClientEnds (cleanly : bool)
| PluginSends (payload : option StreamingEvent)
| PluginEnds (cleanly : bool)
| Cancelled
| Others (op : transcript_op)
| ClosedRead
| ClosedRecv
| ReaderStep
| ReaderPut (room : bool)
| ReaderStores (uuid : string) (o : outcome)
| SenderStep
| SenderWrites (ok : bool)
| ReceiverStep
| ReceiverStores (uuid : string) (now : Z) (o : outcome)
| WriterStep (a : outbound_action)
| TailStep
| CloserStep.

Definition out_step (a : outbound_action) (s : stream) : option stream :=
  o ← outbound_step (s_out s) a; Some (set_out o s).

Definition send (msg : streamSegmentMessage) (s : stream) : option stream :=
  s ← out_step (Enqueue msg) s; Some (set_tr (log_queued msg (s_tr s)) s).

Definition reader_at (pc : reader_pc) (s : stream) : stream :=
  set_reader (mkReader pc (rd_next (s_reader s)) (rd_tracker (s_reader s))) s.
Definition receiver_at (pc : receiver_pc) (s : stream) : stream :=
  set_receiver (mkReceiver pc (rv_relay (s_receiver s)) (rv_partialWritten (s_receiver s))) s.

Definition after_resolved (k : after_run) : reader_pc :=
  match k with ReadOn => RRead | GiveUp => RCloseAll | LastRun => RCloseAudio end.

(** [resolveDropRun]: a run that there is begins its store call. *)
Definition resolve (r : option streamDropRun) (k : after_run) (s : stream) : stream :=
  reader_at (match r with None => after_resolved k | Some r => RStore r k end) s.

Definition flush_then (k : after_run) (s : stream) : stream :=
  let '(r, t) := observe None (rd_tracker (s_reader s)) in
  resolve r k (set_reader (mkReader (rd_pc (s_reader s)) (rd_next (s_reader s)) t) s).

(** A goroutine that calls [closeAll] starts it or waits until it has run. *)
Definition call_closeAll (s : stream) (returned : stream) : option stream :=
  match ch_closer (s_ch s) with
  | NotClosing => Some (set_ch (set_closer CMarkClosed (s_ch s)) s)
  | ClosedAll => Some returned
  | _ => None
  end.

(** The frame is in the buffer; [dropped] made room for it. *)
Definition queued_frame (f : streamAudioFrame) (dropped : option streamAudioFrame) (s : stream) : stream :=
  let c := s_ch s in
  let tr := match dropped with None => s_tr s | Some x => log_dropped x (s_tr s) end in
  let '(r, t) := observe dropped (rd_tracker (s_reader s)) in
  resolve r ReadOn (set_reader (mkReader (rd_pc (s_reader s)) (rd_next (s_reader s)) t)
                     (set_tr tr (set_ch (set_audio (ch_audio c ++ [f]) c) s))).

Definition has_room (c : channels) : bool := (length (ch_audio c) <? streamingAudioBuffer)%nat.

Definition reader_step (s : stream) : option stream :=
  let c := s_ch s in
  match rd_pc (s_reader s) with
  | ROffer f => Some (if has_room c then queued_frame f None s else reader_at (RSteal f) s)
  | RSteal f =>
      Some match ch_audio c with
           | [] => reader_at (RPut f None) s
           | oldest :: rest => reader_at (RPut f (Some oldest)) (set_ch (set_audio rest c) s)
           end
  | RMark r k => Some (reader_at (RNotify r k) (set_ch (set_gap true c) s))
  | RNotify r k => s ← send (gap_message noteID streamID r) s; Some (reader_at (after_resolved k) s)
  | RCloseAll => call_closeAll s (reader_at RDeferred s)
  | RDeferred => Some (flush_then LastRun s)
  | RDeferredCloseAll => call_closeAll s (reader_at RCloseAudio s)
  | RCloseAudio => Some (reader_at RDone (set_ch (close_audio c) s))
  | _ => None
  end.

(** The last [select] of [enqueueAudioFrame]: the frame or the cancellation. *)
Definition reader_put (room : bool) (s : stream) : option stream :=
  match rd_pc (s_reader s) with
  | RPut f dropped =>
      if room then if has_room (s_ch s) then Some (queued_frame f dropped s) else None
      else if ch_cancelled (s_ch s)
      then Some (flush_then GiveUp (set_tr (log_abandoned (option_list dropped ++ [f]) (s_tr s)) s))
      else None
  | _ => None
  end.

(** A run whose gap was not stored: the reader gives up. *)
Definition after_failed (k : after_run) (s : stream) : stream :=
  match k with ReadOn => flush_then GiveUp s | GiveUp => reader_at RCloseAll s | LastRun => reader_at RDeferredCloseAll s end.

Definition reader_stores (uuid : string) (o : outcome) (s : stream) : option stream :=
  match rd_pc (s_reader s) with
  | RStore r k =>
      let '(res, d) := store o (AppendTranscriptGap uuid transcriptID streamID (gap_of_run transcriptID streamID r)) (s_db s) in
      Some match res with
           | Ok _ => reader_at (RMark r k) (set_tr (log_gap r (s_tr s)) (set_db d s))
           | Err _ => after_failed k (set_tr (log_lost_gap r (s_tr s)) (set_db d s))
           end
  | _ => None
  end.

(** A message was read, or the read failed. *)
Definition reader_reads (data : option (list byte)) (s : stream) : option stream :=
  match rd_pc (s_reader s) with
  | RRead =>
      Some match data with
           | None => s
           | Some data =>
               let f := mkFrame data (rd_next (s_reader s)) in
               set_reader (mkReader (ROffer f) (rd_next (s_reader s) + frame_samples f) (rd_tracker (s_reader s)))
                 (set_tr (log_read f (s_tr s)) s)
           end
  | _ => None
  end.

Definition reader_ends (cleanly : bool) (s : stream) : option stream :=
  match rd_pc (s_reader s) with
  | RRead => Some (if cleanly then reader_at RDeferred s else flush_then GiveUp s)
  | _ => None
  end.

Definition sender_step (s : stream) : option stream :=
  match s_sender s with
  | STake =>
      match ch_audio (s_ch s) with
      | f :: rest => Some (set_sender (SWrite f) (set_tr (log_taken f (s_tr s)) (set_ch (set_audio rest (s_ch s)) s)))
      | [] => if ch_audio_closed (s_ch s) then Some (set_sender SStop s) else None
      end
  | SCloseAll => call_closeAll s (set_sender SDone s)
  | _ => None
  end.

(** [WriteAudio] and [Stop]: a write on a closed connection fails, an empty
    frame is not written. *)
Definition sender_writes (ok : bool) (s : stream) : option stream :=
  let closed := ch_session_closed (s_ch s) in
  match s_sender s with
  | SWrite f =>
      if bool_decide (fr_data f = []) then if ok then Some (set_sender STake s) else None
      else if ok then if closed then None else Some (set_sender STake s)
      else Some (set_sender SCloseAll s)
  | SStop =>
      if ok then if closed then None else Some (set_sender SDone s) else Some (set_sender SCloseAll s)
  | _ => None
  end.

Definition receiver_gets (payload : option StreamingEvent) (s : stream) : option stream :=
  match rv_pc (s_receiver s) with
  | VRecv =>
      Some match Recv payload with
           | None => receiver_at VCloseAll s
           | Some ev =>
               if ev_Type ev =? "ready" then s
               else if ev_Type ev =? "segment" then
                 let '(relay, fin) := shouldRelay (rv_relay (s_receiver s)) ev in
                 if negb relay then s
                 else set_receiver (mkReceiver (if ev_Final ev then VApply (segment_of_event ev)
                                                else VSend false (segment_of_event ev))
                                      fin (rv_partialWritten (s_receiver s))) s
               else receiver_at VCloseAll s
           end
  | _ => None
  end.

Definition receiver_ends (cleanly : bool) (s : stream) : option stream :=
  match rv_pc (s_receiver s) with
  | VRecv => Some (receiver_at (if cleanly then VMarkClosed else VCloseAll) s)
  | _ => None
  end.

Definition receiver_step (s : stream) : option stream :=
  match rv_pc (s_receiver s) with
  | VApply seg =>
      let '(gap, seg) := applyToNextSegment (ch_gap (s_ch s)) seg in
      Some (receiver_at (VAppend seg) (set_ch (set_gap gap (s_ch s)) s))
  | VSend final seg => s ← send (segment_message final seg) s; Some (receiver_at VRecv s)
  | VMarkClosed => s ← out_step MarkClosed s; Some (receiver_at VSignalClose s)
  | VSignalClose => s ← out_step SignalClose s; Some (receiver_at VDeferred s)
  | VCloseAll => call_closeAll s (receiver_at VDeferred s)
  | VDeferred => Some (receiver_at VDone (set_ch (close_session (s_ch s)) s))
  | _ => None
  end.

(** [SetNotePartialTranscript] on the tables of Transcripts.v. *)
Definition mark_partial (now : Z) (d : tdb) : result store_error unit * tdb :=
  (Ok tt, mkTdb (t_notes (SetNotePartialTranscript now noteID true (note_tables no_tables d))) (d_transcripts d) (d_segments d) (d_gaps d)).

Definition receiver_stores (uuid : string) (now : Z) (o : outcome) (s : stream) : option stream :=
  match rv_pc (s_receiver s) with
  | VAppend seg =>
      let '(res, d) := store o (AppendStreamSegment uuid transcriptID streamID seg) (s_db s) in
      Some match res with
           | Ok _ => receiver_at (if rv_partialWritten (s_receiver s) then VSend true seg else VPartial seg)
                       (set_tr (log_final seg (s_tr s)) (set_db d s))
           | Err _ => receiver_at VCloseAll (set_db d s)
           end
  | VPartial seg =>
      let '(res, d) := store o (mark_partial now) (s_db s) in
      Some match res with
           | Ok _ => set_receiver (mkReceiver (VSend true seg) (rv_relay (s_receiver s)) true) (set_db d s)
           | Err _ => receiver_at VCloseAll (set_db d s)
           end
  | _ => None
  end.

(** The writer's own steps; a write on a closed socket fails. *)
Definition writer_step (a : outbound_action) (s : stream) : option stream :=
  match s_writer s, a with
  | WRun, (Look | Receive _ | Tick) => out_step a s
  | WRun, WriteReturns ok => if ok && ch_socket_closed (s_ch s) then None else out_step a s
  | _, _ => None
  end.

Definition tail_step (s : stream) : option stream :=
  match s_writer s with
  | WRun =>
      match ob_pc (s_out s) with
      | Returned None => Some (set_writer WCloseSocket s)
      | Returned (Some _) => Some (set_writer WCloseAll s)
      | _ => None
      end
  | WCloseAll => call_closeAll s (set_writer WCloseSocket s)
  | WCloseSocket => Some (set_writer WCloseSession (set_ch (close_socket (s_ch s)) s))
  | WCloseSession => Some (set_writer WDone (set_ch (close_session (s_ch s)) s))
  | WDone => None
  end.

Definition closer_step (s : stream) : option stream :=
  let to x s := set_ch (set_closer x (s_ch s)) s in
  match ch_closer (s_ch s) with
  | CMarkClosed => s ← out_step MarkClosed s; Some (to CSignalClose s)
  | CSignalClose => s ← out_step SignalClose s; Some (to CCloseSession s)
  | CCloseSession => Some (to CCloseSocket (set_ch (close_session (s_ch s)) s))
  | CCloseSocket => Some (to ClosedAll (set_ch (close_socket (s_ch s)) s))
  | _ => None
  end.

Definition stream_step (s : stream) (a : stream_action) : option stream :=
  match a with
  | ClientSends data => reader_reads (Some data) s
  | ClientSendsText => reader_reads None s
  | ClientEnds cleanly => reader_ends cleanly s
  | PluginSends payload => receiver_gets payload s
  | PluginEnds cleanly => receiver_ends cleanly s
  | Cancelled => Some (set_ch (cancel (s_ch s)) s)
  | Others op => Some (set_db (transcript_perform op (s_db s)) s)
  | ClosedRead => if ch_socket_closed (s_ch s) then reader_ends false s else None
  | ClosedRecv => if ch_session_closed (s_ch s) then receiver_ends false s else None
  | ReaderStep => reader_step s
  | ReaderPut room => reader_put room s
  | ReaderStores uuid o => reader_stores uuid o s
  | SenderStep => sender_step s
  | SenderWrites ok => sender_writes ok s
  | ReceiverStep => receiver_step s
  | ReceiverStores uuid now o => receiver_stores uuid now o s
  | WriterStep a => writer_step a s
  | TailStep => tail_step s
  | CloserStep => closer_step s
  end.

Definition new_stream (d : tdb) : stream :=
  mkStream d (mkReader RRead 0 None) STake (mkReceiver VRecv ∅ false) WRun new_outbound
    (mkChannels [] false false NotClosing false false false) (mkTrace [] [] [] [] [] [] [] []).

End Milliseconds.
