(* ===== verification/NoteStreamProps.v ===== *)
(** A live stream winds down: its goroutines make finitely many steps between
    two messages from outside, and where none can go on they have all returned
    or wait for a connection that is open. *)

From stdpp Require Import base list strings sets gmap.
From Stdlib Require Import Strings.Byte ZArith Lia SpecFloat.
From S2P Require Import GoInt GoStrings Sql Execution Transcripts TranscriptsProps Outbound NoteStream.

Local Open Scope list_scope.

(** ** What the mailbox's steps keep *)

Record out_change (o o' : outbound) : Prop := {
  oc_ok : mailbox_ok o /\ wake_ok o -> mailbox_ok o' /\ wake_ok o';
  oc_closed : mb_closed (box o) = true -> mb_closed (box o') = true;
  oc_returned : has_returned o = true -> has_returned o' = true }.

Definition signals_after (a : outbound_action) (n m : nat) : Prop :=
  match a with MarkClosed => m = S n | SignalClose => n = S m | _ => m = n end.

Lemma outbound_step_change o a o' : outbound_step o a = Some o' ->
  out_change o o' /\ signals_after a (ob_signalling o) (ob_signalling o') /\ (a = MarkClosed -> mb_closed (box o') = true).
Proof.
  intros E. split; [split|].
  - intros [HB HW]. split; [by eapply outbound_step_ok|by eapply wake_step].
  - destruct o as [[wp wf wc p f c] pc t out k]. cbn. intros ->. destruct a as [m| | | | |w|ok]; cbn in E; simplify_eq; cbn; try done.
    + destruct (enqueue_wakes m (mkMailbox wp wf wc p f true)) as (_ & _ & _ & E4 & _). exact E4.
    + by destruct k; simplify_eq.
    + by destruct t; simplify_eq.
    + destruct pc; simplify_eq; destruct f, p; cbn; repeat (case_match; simplify_eq; cbn in *); done.
    + destruct pc; simplify_eq; destruct w; cbn in E; unfold take_final, take_partial, take_close in E; step_cases E; done.
    + destruct pc; simplify_eq. by destruct ok.
  - destruct o as [[wp wf wc p f c] pc t out k]. unfold has_returned. cbn. intros Hr. destruct pc; try done.
    destruct a as [m| | | | |w|ok]; cbn in E; simplify_eq; try done; [by destruct k; simplify_eq|by destruct t; simplify_eq].
  - destruct o as [[wp wf wc p f c] pc t out k].
    destruct a as [m| | | | |w|ok]; cbn in E; simplify_eq; cbn; try (split; [done|intros; done]).
    + destruct k; simplify_eq. by split.
    + destruct t; simplify_eq. by split.
    + destruct pc; simplify_eq; destruct f, p; cbn; repeat (case_match; simplify_eq; cbn in *); done.
    + destruct pc; simplify_eq; destruct w; cbn in E; unfold take_final, take_partial, take_close in E; step_cases E; done.
    + destruct pc; simplify_eq. by destruct ok.
Qed.

#[local] Arguments outbound_step : simpl never.
#[local] Arguments Nat.mul : simpl never.
#[local] Arguments Nat.add : simpl never.

(** ** Well-formed streams *)

Definition signalling_receiver (pc : receiver_pc) : nat := match pc with VSignalClose => 1 | _ => 0 end.
Definition signalling_closer (c : closer) : nat := match c with CSignalClose => 1 | _ => 0 end.

Record stream_ok (s : stream) : Prop := {
  so_box : mailbox_ok (s_out s) /\ wake_ok (s_out s);
  so_audio : ch_audio_closed (s_ch s) = true <-> rd_pc (s_reader s) = RDone;
  so_put : forall f x, rd_pc (s_reader s) = RPut f x -> has_room (s_ch s) = true;
  so_room : (length (ch_audio (s_ch s)) <= streamingAudioBuffer)%nat;
  so_signals : ob_signalling (s_out s) = (signalling_receiver (rv_pc (s_receiver s)) + signalling_closer (ch_closer (s_ch s)))%nat;
  so_marked : match rv_pc (s_receiver s) with VSignalClose | VDeferred | VDone => mb_closed (box (s_out s)) = true | _ => True end;
  so_closing : match ch_closer (s_ch s) with NotClosing | CMarkClosed => True | _ => mb_closed (box (s_out s)) = true end;
  so_session : match ch_closer (s_ch s) with CCloseSocket | ClosedAll => ch_session_closed (s_ch s) = true | _ => True end;
  so_socket : ch_closer (s_ch s) = ClosedAll -> ch_socket_closed (s_ch s) = true;
  so_received : rv_pc (s_receiver s) = VDone -> ch_session_closed (s_ch s) = true;
  so_writer : s_writer s <> WRun -> has_returned (s_out s) = true;
  so_tail : match s_writer s with WCloseSession => ch_socket_closed (s_ch s) = true
            | WDone => ch_socket_closed (s_ch s) = true /\ ch_session_closed (s_ch s) = true | _ => True end;
  so_sender : match s_sender s with SStop => ch_audio_closed (s_ch s) = true
              | SDone => ch_audio_closed (s_ch s) = true \/ ch_closer (s_ch s) = ClosedAll | _ => True end;
  so_socket_by : ch_socket_closed (s_ch s) = true -> ch_closer (s_ch s) = ClosedAll \/ s_writer s = WCloseSession \/ s_writer s = WDone }.

Lemma new_stream_ok d : stream_ok (new_stream d).
Proof. split; cbn; try done; [split; [apply new_outbound_ok|apply new_wake]|lia]. Qed.

(** A stream's step, case by case; steps of the mailbox stay as they are. *)
Ltac unfold_steps E :=
  unfold reader_reads, reader_ends, reader_step, reader_put, reader_stores, sender_step, sender_writes, receiver_gets,
    receiver_ends, receiver_step, receiver_stores, writer_step, tail_step, closer_step, call_closeAll, send, out_step,
    queued_frame, after_failed, flush_then, resolve, reader_at, receiver_at, observe in E.

Ltac open_stream s :=
  destruct s as [db [rpc rnx rtr] snd [vpc vrl vpw] wr out [au ac gp cl se so ca] tr]; cbn in *.

Ltac stream_cases E :=
  repeat (cbn in E;
    lazymatch type of E with
    | context [match ?x with _ => _ end] =>
        lazymatch x with
        | context [match ?y with _ => _ end] => lazymatch y with context [match _ with _ => _ end] => fail | _ => destruct y eqn:? end
        | _ => destruct x eqn:?
        end
    end);
  repeat match goal with H : _ ≫= _ = Some _ |- _ => apply bind_Some in H as (? & ? & ?) end;
  simplify_eq; cbn in *.

(** What a step of the mailbox did. *)
Ltac know_out :=
  repeat match goal with
  | H : outbound_step ?o ?a = Some ?o' |- _ =>
      let C := fresh "Hc" in let B := fresh "Hb" in let S := fresh "Hs" in let M := fresh "Hm" in let R := fresh "Hr" in
      destruct (outbound_step_change o a o' H) as ([B M R] & S & C); cbn in S; clear H
  end.

Section Steps.
Variable finish_ms : spec_float -> Z.
Variables (noteID streamID transcriptID : string).

Abbreviation step := (stream_step finish_ms noteID streamID transcriptID).

Ltac room_lia :=
  unfold streamingAudioBuffer in *; rewrite ?length_app; cbn [length] in *; rewrite ?Nat.leb_le, ?Nat.leb_gt in *; lia.

Ltac finish_ok :=
  know_out; split; cbn;
  first
    [ assumption | exact I | split; discriminate | intros; discriminate | by split | auto; fail
    | match goal with A : ?a = true <-> _ |- ?a = true <-> ?pc = RDone =>
        rewrite A; split; [congruence|try discriminate; match pc with after_resolved ?k => by destruct k end] end
    | match goal with |- forall f x, after_resolved ?k = RPut f x -> _ => by destruct k end
    | match goal with |- (_ <= _)%nat => room_lia | |- (_ = _ + _)%nat => cbn in *; lia end
    | intros ? ? ?; simplify_eq; room_lia
    | match goal with |- match ?x with _ => _ end => destruct x; cbn in *; intuition (discriminate || auto) end
    | let H := fresh in intros H; match goal with SB : _ -> _ \/ _ \/ _ |- _ => destruct (SB H) as [?|[?|?]]; simplify_eq; auto; fail end
    | intros _; unfold has_returned; match goal with H : ob_pc _ = _ |- _ => by rewrite H end
    | idtac ].

Lemma stream_step_ok s a s' : stream_ok s -> step s a = Some s' -> stream_ok s'.
Proof.
  intros [B A P R S M C SE SO RV W T SN SB] E. open_stream s. destruct a; cbn in E; unfold_steps E.
  all: stream_cases E; finish_ok.
Qed.

Lemma stream_run_ok acts s s' : stream_ok s -> run step s acts = Some s' -> stream_ok s'.
Proof. apply (run_invariant step stream_ok). intros ? ? ?. apply stream_step_ok. Qed.

(** ** The remaining work *)

(** What the goroutines do by themselves. *)
Definition internal (a : stream_action) : Prop :=
  match a with
  | ClientSends _ | ClientSendsText | ClientEnds _ | PluginSends _ | PluginEnds _ | Cancelled | Others _ => False
  | _ => True
  end.

Definition reader_rank (pc : reader_pc) : nat :=
  match pc with
  | ROffer _ => 200 | RSteal _ => 198 | RPut _ _ => 197
  | RStore _ ReadOn => 150 | RMark _ ReadOn => 149 | RNotify _ ReadOn => 148
  | RRead => 100
  | RStore _ GiveUp => 95 | RMark _ GiveUp => 94 | RNotify _ GiveUp => 93
  | RCloseAll => 60 | RDeferred => 59
  | RStore _ LastRun => 58 | RMark _ LastRun => 57 | RNotify _ LastRun => 56
  | RDeferredCloseAll => 11 | RCloseAudio => 10 | RDone => 0
  end.

Definition tracker_rank (t : option streamDropRun) : nat := match t with Some _ => 40 | None => 0 end.

Definition sender_rank (pc : sender_pc) : nat :=
  match pc with SWrite _ => 22 | STake => 20 | SStop => 19 | SCloseAll => 5 | SDone => 0 end.

Definition receiver_rank (pc : receiver_pc) : nat :=
  match pc with
  | VApply _ => 104 | VAppend _ => 103 | VPartial _ => 102 | VSend _ _ => 101 | VRecv => 60 | VMarkClosed => 50
  | VSignalClose => 30 | VCloseAll => 20 | VDeferred => 10 | VDone => 0
  end.

Definition tail_rank (t : writer_tail) : nat :=
  match t with WRun => 10 | WCloseAll => 5 | WCloseSocket => 3 | WCloseSession => 2 | WDone => 0 end.

Definition closer_rank (c : closer) : nat :=
  match c with NotClosing => 60 | CMarkClosed => 50 | CSignalClose => 30 | CCloseSession => 20 | CCloseSocket => 10 | ClosedAll => 0 end.

Definition stream_rank (s : stream) : nat :=
  rank (s_out s) + reader_rank (rd_pc (s_reader s)) + tracker_rank (rd_tracker (s_reader s)) + sender_rank (s_sender s) +
  3 * length (ch_audio (s_ch s)) + receiver_rank (rv_pc (s_receiver s)) + tail_rank (s_writer s) + closer_rank (ch_closer (s_ch s)).

Lemma rank_enqueue o m o' : outbound_step o (Enqueue m) = Some o' -> (rank o' <= rank o + 26)%nat.
Proof.
  destruct o as [[wp wf wc p f c] pc t out k]. cbn. intros [= <-]. unfold enqueue, streamOutboundMessageKindFromMessage, decideStreamOutboundAction. cbn.
  destruct (msg_Final m); cbn; [destruct f, p; rank_lia|]. case_bool_decide; cbn; [|lia]. subst f. destruct p; cbn; rank_lia.
Qed.

Lemma rank_mark o o' : outbound_step o MarkClosed = Some o' -> rank o' = (rank o + 11)%nat.
Proof. destruct o as [[wp wf wc p f c] pc t out k]. cbn. intros [= <-]. rank_lia. Qed.

(** The change of the mailbox's rank. *)
Ltac know_rank :=
  repeat match goal with
  | H : outbound_step ?o (Enqueue _) = Some ?o' |- _ => apply rank_enqueue in H
  | H : outbound_step ?o MarkClosed = Some ?o' |- _ => apply rank_mark in H
  | B : mailbox_ok ?o /\ wake_ok ?o, H : outbound_step ?o ?a = Some ?o' |- _ => apply (rank_step o a o' (proj1 B) (proj2 B) I) in H
  end.

Lemma stream_rank_step s a s' : stream_ok s -> internal a -> step s a = Some s' -> (stream_rank s' < stream_rank s)%nat.
Proof.
  intros [B _ _ _ _ _ _ _ _ _ _ _ _ _] Ha E. open_stream s. destruct a; try done; cbn in E; unfold_steps E.
  all: stream_cases E; know_rank.
  all: unfold stream_rank; cbn -[rank]; rewrite ?length_app; cbn [length]; repeat match goal with k : after_run |- _ => destruct k; cbn end; try lia.
Qed.

(** ** Where no goroutine can go on *)

(** All four have returned, so that [wg.Wait] returns. *)
Definition ended (s : stream) : Prop :=
  rd_pc (s_reader s) = RDone /\ s_sender s = SDone /\ rv_pc (s_receiver s) = VDone /\ s_writer s = WDone.

(** The plugin's events are awaited on an open connection, with nothing left
    for the client. *)
Definition awaits_plugin (s : stream) : Prop :=
  rv_pc (s_receiver s) = VRecv /\ ch_session_closed (s_ch s) = false /\ ch_socket_closed (s_ch s) = false /\
  s_writer s = WRun /\ pending (s_out s) = [] /\ ob_pc (s_out s) = AtSelect.

(** The client's audio is awaited as well, with nothing left for the plugin. *)
Definition awaits_client (s : stream) : Prop :=
  rd_pc (s_reader s) = RRead /\ s_sender s = STake /\ ch_audio (s_ch s) = [].

Section Stuck.
Variable s : stream.
Hypothesis ok : stream_ok s.
Hypothesis stuck : forall a, internal a -> step s a = None.

Lemma stuck_closer : ch_closer (s_ch s) = NotClosing \/ ch_closer (s_ch s) = ClosedAll.
Proof.
  pose proof (stuck CloserStep I) as H. cbn in H. unfold closer_step, out_step in H.
  destruct (ch_closer (s_ch s)) eqn:Ec; auto; try done.
  - destruct (s_out s) as [q pc t out k]. by cbn in H.
  - pose proof (so_signals s ok) as Hs. rewrite Ec in Hs. cbn in Hs. destruct (s_out s) as [q pc t out k]. cbn in *.
    destruct k; [lia|]. by cbn in H.
Qed.

Lemma stuck_closeAll r : call_closeAll s r <> None.
Proof. unfold call_closeAll. by destruct stuck_closer as [-> | ->]. Qed.

Lemma stuck_reader : (rd_pc (s_reader s) = RRead /\ ch_socket_closed (s_ch s) = false) \/ rd_pc (s_reader s) = RDone.
Proof.
  pose proof (stuck ReaderStep I) as H. cbn in H. unfold reader_step in H. destruct (rd_pc (s_reader s)) eqn:Er; auto; try done.
  - left. split; [done|]. pose proof (stuck ClosedRead I) as Hc. cbn in Hc. unfold reader_ends in Hc. rewrite Er in Hc.
    by destruct (ch_socket_closed (s_ch s)).
  - pose proof (stuck (ReaderPut true) I) as Hp. cbn in Hp. unfold reader_put in Hp. rewrite Er in Hp.
    by rewrite (so_put s ok _ _ Er) in Hp.
  - pose proof (stuck (ReaderStores "" Refused) I) as Hp. cbn in Hp. unfold reader_stores in Hp. by rewrite Er in Hp.
  - unfold send, out_step in H. destruct (s_out s) as [q pc t out n]. by cbn in H.
  - by apply stuck_closeAll in H.
  - by apply stuck_closeAll in H.
Qed.

Lemma stuck_sender : (s_sender s = STake /\ ch_audio (s_ch s) = [] /\ ch_audio_closed (s_ch s) = false) \/ s_sender s = SDone.
Proof.
  pose proof (stuck SenderStep I) as H. cbn in H. unfold sender_step in H. destruct (s_sender s) eqn:Es; auto.
  - left. destruct (ch_audio (s_ch s)); [|done]. by destruct (ch_audio_closed (s_ch s)).
  - pose proof (stuck (SenderWrites true) I) as H1. pose proof (stuck (SenderWrites false) I) as H2. cbn in H1, H2.
    unfold sender_writes in H1, H2. rewrite Es in H1, H2. by case_bool_decide.
  - pose proof (stuck (SenderWrites false) I) as H2. cbn in H2. unfold sender_writes in H2. by rewrite Es in H2.
  - by apply stuck_closeAll in H.
Qed.

Lemma stuck_receiver : (rv_pc (s_receiver s) = VRecv /\ ch_session_closed (s_ch s) = false) \/ rv_pc (s_receiver s) = VDone.
Proof.
  pose proof (stuck ReceiverStep I) as H. cbn in H. unfold receiver_step in H. destruct (rv_pc (s_receiver s)) eqn:Er; auto; try done.
  - left. split; [done|]. pose proof (stuck ClosedRecv I) as Hc. cbn in Hc. unfold receiver_ends in Hc. rewrite Er in Hc.
    by destruct (ch_session_closed (s_ch s)).
  - by destruct (applyToNextSegment _ _).
  - pose proof (stuck (ReceiverStores "" 0 Refused) I) as Hp. cbn in Hp. unfold receiver_stores in Hp. by rewrite Er in Hp.
  - pose proof (stuck (ReceiverStores "" 0 Refused) I) as Hp. cbn in Hp. unfold receiver_stores in Hp. by rewrite Er in Hp.
  - unfold send, out_step in H. destruct (s_out s) as [q pc t out n]. by cbn in H.
  - unfold out_step in H. destruct (s_out s) as [q pc t out n]. by cbn in H.
  - pose proof (so_signals s ok) as Hs. rewrite Er in Hs. unfold out_step in H. destruct (s_out s) as [q pc t out n]. cbn in *.
    destruct n; [lia|]. by cbn in H.
  - by apply stuck_closeAll in H.
Qed.

Lemma stuck_outbound a : s_writer s = WRun -> draining a -> outbound_step (s_out s) a = None.
Proof.
  intros Ew Ha.
  assert (forall b, match b with Look | Receive _ | Tick => True | _ => False end -> outbound_step (s_out s) b = None) as Hb.
  { intros b Hb. pose proof (stuck (WriterStep b) I) as H. cbn in H. unfold writer_step, out_step in H. rewrite Ew in H.
    destruct b; try done; by destruct (outbound_step (s_out s) _). }
  destruct a as [m| | | | |w|okw]; try done; try by apply Hb.
  - pose proof (so_signals s ok) as Hs. destruct stuck_closer as [Ec|Ec], stuck_receiver as [[Er _]|Er]; rewrite Ec, Er in Hs; cbn in Hs.
    all: destruct (s_out s) as [q pc t out n]; cbn in *; subst n; done.
  - pose proof (stuck (WriterStep (WriteReturns false)) I) as H. cbn in H. unfold writer_step, out_step in H. rewrite Ew in H. cbn in H.
    destruct (s_out s) as [q pc t out n]. unfold outbound_step in *. destruct pc; done.
Qed.

Lemma stuck_writer : s_writer s = WDone \/
  (s_writer s = WRun /\ ob_pc (s_out s) = AtSelect /\ pending (s_out s) = [] /\ mb_closed (box (s_out s)) = false).
Proof.
  pose proof (stuck TailStep I) as H. cbn in H. unfold tail_step in H. destruct (s_writer s) eqn:Ew; auto; try done.
  - right. split; [done|]. destruct (so_box s ok) as [HB HW].
    destruct (stuck_waits (s_out s) HB HW (fun a => stuck_outbound a Ew)) as [Hr|Hw]; [|done].
    unfold has_returned in Hr. destruct (ob_pc (s_out s)) as [| | | | | | | |[]]; done.
  - by apply stuck_closeAll in H.
Qed.

Lemma stuck_stream : ended s \/ (awaits_plugin s /\ (awaits_client s \/ (rd_pc (s_reader s) = RDone /\ s_sender s = SDone))).
Proof.
  destruct ok as [_ A _ _ _ M C SE SO RV _ T SN SB].
  assert (Hend : ch_session_closed (s_ch s) = true -> ch_socket_closed (s_ch s) = true -> mb_closed (box (s_out s)) = true -> ended s).
  { intros H1 H2 H3.
    assert (rd_pc (s_reader s) = RDone) as Hr by (destruct stuck_reader as [[_ ?]|?]; congruence).
    split; [done|]. split.
    - destruct stuck_sender as [(_ & _ & H)|H]; [|done]. apply A in Hr. congruence.
    - split; [destruct stuck_receiver as [[_ ?]|?]; congruence|].
      destruct stuck_writer as [?|(_ & _ & _ & ?)]; congruence. }
  destruct stuck_closer as [Ec|Ec]; [|left; apply Hend; [by rewrite Ec in SE|by apply SO|by rewrite Ec in C]].
  destruct stuck_writer as [Ew|(Ew & Ep & Epd & Ecl)].
  - rewrite Ew in T. destruct T as [T1 T2]. left.
    assert (rv_pc (s_receiver s) = VDone) as Hv by (destruct stuck_receiver as [[_ ?]|?]; congruence).
    rewrite Hv in M. by apply Hend.
  - destruct stuck_receiver as [[Ev Es]|Ev]; [|rewrite Ev in M; congruence].
    right. split.
    + split_and!; try done. destruct (ch_socket_closed (s_ch s)) eqn:Eso; [|done].
      destruct (SB eq_refl) as [?|[?|?]]; congruence.
    + destruct stuck_sender as [(Esn & Ea & Eac)|Esn].
      * left. split_and!; try done. destruct stuck_reader as [[? _]|Hr]; [done|]. apply A in Hr. congruence.
      * right. split; [|done]. rewrite Esn, Ec in SN. destruct SN as [Hn|]; [|done]. by apply A.
Qed.
End Stuck.

(** C29. No goroutine of a live stream leaks.  Whatever happened before and
    however the goroutines interleave, between two messages from outside they
    make at most [stream_rank] steps.  Where none can go on, either all four
    have returned; or the plugin's events are awaited on an open connection,
    with every message delivered to the client, while the client's audio is
    awaited on an open socket with every frame handed on, or was ended. *)
Theorem stream_winds_down d acts s acts' s' : run step (new_stream d) acts = Some s ->
  Forall internal acts' -> run step s acts' = Some s' ->
  (length acts' <= stream_rank s)%nat /\
  ((forall a, internal a -> step s' a = None) ->
   ended s' \/ (awaits_plugin s' /\ (awaits_client s' \/ (rd_pc (s_reader s') = RDone /\ s_sender s' = SDone)))).
Proof.
  intros E Ha E'. pose proof (stream_run_ok acts _ _ (new_stream_ok d) E) as Hok.
  split.
  - enough (length acts' + stream_rank s' <= stream_rank s)%nat by lia.
    eapply (run_bounded step stream_ok stream_rank internal); [|done|exact Ha|exact E'].
    intros u a u' Hu Hi Eu. split; [by eapply stream_step_ok|by eapply stream_rank_step].
  - intros Hs. apply stuck_stream; [|done]. by eapply stream_run_ok.
Qed.
End Steps.
