(* ===== verification/NoteStreamRecords.v ===== *)
(** What a live stream records: every sample of its client is handed to the
    plugin, waits, or lies in a stored gap; and the client is shown no final
    segment and no gap that the tables did not get first. *)

From stdpp Require Import base list strings sets gmap.
From Stdlib Require Import Strings.Byte ZArith Lia SpecFloat.
From S2P Require Import GoInt GoStrings Sql Execution Notes Transcripts TranscriptsProps Summaries Outbound NoteStream NoteStreamProps.

Local Open Scope list_scope.

(** ** The rows of one transcript *)

Definition has_transcript (tid : string) (d : tdb) : Prop := tid ∈ map ts_id (d_transcripts d).

Definition gaps_of (tid : string) (d : tdb) : list gap_row := select_where (fun g => (gp_transcript g =? tid)%string) (d_gaps d).

(** The run of samples a gap stands for. *)
Definition gap_run (g : gap_row) : streamDropRun := mkRun (gp_start g) (default 0%Z (gp_dropped g)).

(** A segment without its id and its speaker, which a review may set. *)
Definition content (s : Segment) : Z * Z * string * string := (StartMS s, EndMS s, Text s, Boundary s).

Definition runs_of (tid : string) (d : tdb) : list streamDropRun := map gap_run (gaps_of tid d).
Definition contents_of (tid : string) (d : tdb) := map (fun r => content (sg_data r)) (segments_of tid d).

(** Operations of other requests and jobs: they create other transcripts and
    append to other transcripts. *)
Definition foreign (tid : string) (op : transcript_op) : Prop :=
  creates op <> Some tid /\ match op with TSegment _ t _ _ | TGap _ t _ _ => t <> tid | _ => True end.

(** The transcript is gone, or has the rows it had. *)
Definition leaves (tid : string) (d d' : tdb) : Prop :=
  has_transcript tid d' -> has_transcript tid d /\ runs_of tid d' = runs_of tid d /\ contents_of tid d' = contents_of tid d.

Lemma leaves_refl tid d : leaves tid d d.
Proof. by intros H. Qed.

Lemma leaves_replaced tid n x segs ns d d' : tdb_ok d -> replaced n x segs ns d d' -> ts_id x <> tid ->
  (forall s, s ∈ segs -> sg_transcript s = ts_id x) -> leaves tid d d'.
Proof.
  intros (H1 & _) (d1 & -> & -> & _) Hx Hsegs Hin. unfold has_transcript in *. cbn in Hin. rewrite map_app in Hin.
  apply elem_of_app in Hin as [Hin|Hin%list_elem_of_singleton]; [|congruence].
  apply list_elem_of_fmap in Hin as (y & Ey & [Hy Hn]%elem_of_delete_where).
  assert (Hg : exists_where (fun z => (ts_id z =? tid)%string && of_note n z) (d_transcripts d) = false) by (by rewrite Ey, gone_false).
  split; [apply list_elem_of_fmap; eauto|]. unfold runs_of, gaps_of, contents_of, segments_of. cbn. split.
  - f_equal. apply select_delete. intros g _ E%String.eqb_eq. by rewrite E.
  - rewrite select_app, map_app. rewrite (select_none _ segs), app_nil_r.
    + f_equal. apply select_delete. intros s _ E%String.eqb_eq. by rewrite E.
    + intros s Hs. apply String.eqb_neq. rewrite (Hsegs s Hs). done.
Qed.

Lemma runs_snoc tid d ts sg g : runs_of tid (mkTdb (d_notes d) ts sg (d_gaps d ++ [g])) =
  runs_of tid d ++ if (gp_transcript g =? tid)%string then [gap_run g] else [].
Proof. unfold runs_of, gaps_of. cbn. rewrite select_app, map_app. cbn. by destruct (_ =? _)%string. Qed.

Lemma contents_snoc tid d ts gs r : contents_of tid (mkTdb (d_notes d) ts (d_segments d ++ [r]) gs) =
  contents_of tid d ++ if (sg_transcript r =? tid)%string then [content (sg_data r)] else [].
Proof. unfold contents_of, segments_of. cbn. rewrite select_app, map_app. cbn. by destruct (_ =? _)%string. Qed.

(** The two appends: nothing on an error, else one more row. *)
Lemma append_gap_rows uuid t sid g d :
  let '(r, d') := AppendTranscriptGap uuid t sid g d in
  match r with
  | Err _ => d' = d
  | Ok _ => has_transcript t d /\ d_transcripts d' = d_transcripts d /\ d_segments d' = d_segments d /\
      forall tid, runs_of tid d' = runs_of tid d ++ if (t =? tid)%string then [mkRun (StartSample g) (default 0%Z (DroppedSamples g))] else []
  end.
Proof.
  unfold AppendTranscriptGap. destruct (exists_where (streaming_to t sid) (d_transcripts d)) eqn:Ee; cbn [negb]; [|done].
  destruct (exists_where _ (d_gaps d)); [done|]. split.
  - apply exists_where_true in Ee as (x & Hx & Hs). unfold streaming_to in Hs. rewrite !andb_true_iff, String.eqb_eq in Hs.
    apply list_elem_of_fmap. exists x. naive_solver.
  - split; [done|]. split; [done|]. intros tid. rewrite runs_snoc. cbn. by destruct (t =? tid)%string.
Qed.

Lemma append_segment_rows uuid t sid seg d :
  let '(r, d') := AppendStreamSegment uuid t sid seg d in
  match r with
  | Err _ => d' = d
  | Ok _ => has_transcript t d /\ d_transcripts d' = d_transcripts d /\ d_gaps d' = d_gaps d /\
      forall tid, contents_of tid d' = contents_of tid d ++ if (t =? tid)%string then [content seg] else []
  end.
Proof.
  unfold AppendStreamSegment. destruct (exists_where (streaming_to t sid) (d_transcripts d)) eqn:Ee; cbn [negb]; [|done].
  destruct (insert_segment _ d) as [d'|] eqn:Ei; [|done]. unfold insert_segment in Ei. repeat (case_match; try done). simplify_eq. split.
  - apply exists_where_true in Ee as (x & Hx & Hs). unfold streaming_to in Hs. rewrite !andb_true_iff, String.eqb_eq in Hs.
    apply list_elem_of_fmap. exists x. naive_solver.
  - split; [done|]. split; [done|]. intros tid. rewrite contents_snoc. cbn. by destruct (t =? tid)%string.
Qed.

Lemma runs_ext tid d d' : d_gaps d' = d_gaps d -> runs_of tid d' = runs_of tid d.
Proof. unfold runs_of, gaps_of. by intros ->. Qed.
Lemma contents_ext tid d d' : d_segments d' = d_segments d -> contents_of tid d' = contents_of tid d.
Proof. unfold contents_of, segments_of. by intros ->. Qed.

Lemma leaves_review tid n state g d : leaves tid d (update_review n state g d).2.
Proof.
  unfold update_review. case_match; [apply leaves_refl|]. intros Hin. unfold has_transcript in *. cbn in Hin.
  by rewrite map_update_where in Hin.
Qed.

Lemma foreign_leaves tid op d : tdb_ok d -> foreign tid op -> leaves tid d (transcript_perform op d).
Proof.
  intros Hok [Hc Ho]. destruct op; cbn [transcript_perform creates] in *.
  - destruct (SaveTranscript uuid fresh tr g d).1 as [t|e] eqn:E; [|rewrite (SaveTranscript_err _ _ _ _ _ _ E); apply leaves_refl].
    destruct (SaveTranscript_ok _ _ _ _ _ _ Hok E) as (_ & _ & _ & Hr). eapply leaves_replaced; [done|exact Hr|cbn; congruence|].
    intros s Hs. by eapply batch_rows_transcript.
  - destruct (CreateStreamTranscript uuid n sid plugin model g d).1 as [t|e] eqn:E; [|rewrite (CreateStream_err _ _ _ _ _ _ _ _ E); apply leaves_refl].
    destruct (CreateStream_ok _ _ _ _ _ _ _ _ Hok E) as (_ & _ & _ & Hr). eapply leaves_replaced; [done|exact Hr|cbn; congruence|].
    by intros s ?%elem_of_nil.
  - pose proof (append_segment_rows uuid tid0 sid seg d) as H. destruct (AppendStreamSegment _ _ _ _ _) as [[]d']; cbn; [|subst; apply leaves_refl].
    destruct H as (_ & Et & Eg & Es). unfold leaves, has_transcript. rewrite Et, (runs_ext _ _ _ Eg), Es.
    rewrite (proj2 (String.eqb_neq _ _) Ho), app_nil_r. done.
  - pose proof (append_gap_rows uuid tid0 sid gap d) as H. destruct (AppendTranscriptGap _ _ _ _ _) as [[]d']; cbn; [|subst; apply leaves_refl].
    destruct H as (_ & Et & Eg & Es). unfold leaves, has_transcript. rewrite Et, (contents_ext _ _ _ Eg), Es.
    rewrite (proj2 (String.eqb_neq _ _) Ho), app_nil_r. done.
  - destruct (Confirm_state seen o n seg speaker g d) as [-> | ->]; [apply leaves_refl|]. intros Hin. split; [done|]. split; [done|].
    unfold contents_of, segments_of. cbn. unfold select_where, update_where.
    clear Hin. induction (d_segments d) as [|r t IH]; cbn; [done|].
    destruct (confirmable o n seg g d r); cbn; destruct (sg_transcript r =? tid)%string; cbn; first [congruence|by f_equal].
  - unfold UpdateReviewState_on. repeat (case_match; try apply leaves_refl). apply leaves_review.
  - apply leaves_review.
Qed.

(** ** Accounting for the audio *)

Fixpoint samples_of (fs : list streamAudioFrame) : Z :=
  match fs with [] => 0 | f :: rest => frame_samples f + samples_of rest end%Z.
Fixpoint run_samples (rs : list streamDropRun) : Z :=
  match rs with [] => 0 | r :: rest => dr_droppedSamples r + run_samples rest end%Z.

Lemma samples_app a b : samples_of (a ++ b) = (samples_of a + samples_of b)%Z.
Proof. induction a as [|f a IH]; cbn; [done|]. rewrite IH. lia. Qed.
Lemma run_samples_app a b : run_samples (a ++ b) = (run_samples a + run_samples b)%Z.
Proof. induction a as [|f a IH]; cbn; [done|]. rewrite IH. lia. Qed.

(** The frame the reader offers and the one it took out to make room. *)
Definition offered (pc : reader_pc) : list streamAudioFrame := match pc with ROffer f | RSteal f | RPut f _ => [f] | _ => [] end.
Definition taken_out (pc : reader_pc) : list streamAudioFrame := match pc with RPut _ (Some x) => [x] | _ => [] end.

(** The runs that are under way or whose gap is being stored or announced. *)
Definition storing (pc : reader_pc) : list streamDropRun := match pc with RStore r _ => [r] | _ => [] end.
Definition announcing (pc : reader_pc) : list streamDropRun := match pc with RMark r _ | RNotify r _ => [r] | _ => [] end.
Definition open_run (s : stream) : list streamDropRun := storing (rd_pc (s_reader s)) ++ option_list (rd_tracker (s_reader s)).

(** The reader still reads: it has not given up and was not told to end. *)
Definition reading (pc : reader_pc) : bool :=
  match pc with RRead | ROffer _ | RSteal _ | RPut _ _ | RStore _ ReadOn | RMark _ ReadOn | RNotify _ ReadOn => true | _ => false end.

(** No gap is lost any more once the reader may lose one. *)
Definition before_loss (pc : reader_pc) : bool := reading pc || match pc with RStore _ _ | RMark _ _ | RNotify _ _ => true | _ => false end.

Record audio_ok (s : stream) : Prop := {
  ao_order : sublist (tr_taken (s_tr s) ++ ch_audio (s_ch s) ++ offered (rd_pc (s_reader s))) (tr_read (s_tr s));
  ao_all : samples_of (tr_read (s_tr s)) = (samples_of (tr_taken (s_tr s)) + samples_of (ch_audio (s_ch s)) +
    samples_of (offered (rd_pc (s_reader s))) + samples_of (taken_out (rd_pc (s_reader s))) + samples_of (tr_dropped (s_tr s)) +
    samples_of (tr_abandoned (s_tr s)))%Z;
  ao_next : rd_next (s_reader s) = samples_of (tr_read (s_tr s));
  ao_dropped : samples_of (tr_dropped (s_tr s)) =
    (run_samples (tr_gaps (s_tr s)) + run_samples (tr_lost_gaps (s_tr s)) + run_samples (open_run s))%Z;
  ao_abandoned : reading (rd_pc (s_reader s)) = true -> tr_abandoned (s_tr s) = [] /\ tr_lost_gaps (s_tr s) = [];
  ao_lost : before_loss (rd_pc (s_reader s)) = true \/ rd_tracker (s_reader s) <> None -> tr_lost_gaps (s_tr s) = [];
  ao_one : storing (rd_pc (s_reader s)) <> [] -> rd_tracker (s_reader s) = None }.

Section Steps.
Variable finish_ms : spec_float -> Z.
Variables (noteID streamID transcriptID : string).

Abbreviation step := (stream_step finish_ms noteID streamID transcriptID).

Lemma new_audio_ok d : audio_ok (new_stream d).
Proof. by split. Qed.

(** Frames leave the order of the client's, never enter it. *)
Ltac order_cases O :=
  rewrite ?app_nil_r, <- ?app_assoc in *; cbn [app] in *;
  first
    [ exact O
    | by apply sublist_app
    | etrans; [|exact O];
      first [ apply sublist_app; [done|apply sublist_inserts_r; done]
            | apply sublist_app; [done|apply sublist_cons; done] ] ].

Lemma audio_step s a s' : audio_ok s -> step s a = Some s' -> audio_ok s'.
Proof.
  intros [O A N D B L U] E. open_stream s. destruct tr as [tread ttaken tdrop tab tgaps tlost tfin tq]. unfold open_run in *.
  destruct a; cbn in E; unfold_steps E.
  all: stream_cases E.
  all: try match goal with U : [_] <> [] -> Some _ = None |- _ => by discriminate U end.
  all: try match goal with k : after_run |- _ => destruct k; cbn in * end.
  all: split; unfold open_run; cbn in *;
    first [ assumption | reflexivity | intros [?|?]; discriminate | intros; discriminate | by intros [] | by intros _; apply B
          | by intros _; apply L; auto
          | match goal with |- _ `sublist_of` _ => order_cases O | |- _ = _ => rewrite ?samples_app, ?run_samples_app in *; cbn in *; lia end
          | idtac ].
  - rewrite app_nil_r in O. rewrite app_assoc. by apply sublist_app.
  - destruct dropped; cbn in *; rewrite ?samples_app; cbn; lia.
  - destruct dropped; cbn in *; rewrite ?samples_app; cbn; lia.
  - intros [?|Hn]; [done|]. destruct Hn. by apply U.
  - intros [?|Hn]; [done|]. destruct Hn. by apply U.
Qed.

(** ** The tables against the trace *)

Definition is_segment (m : streamSegmentMessage) : bool := msg_Final m && (msg_Type m =? "segment")%string.
Definition is_gap (m : streamSegmentMessage) : bool := msg_Final m && (msg_Type m =? "gap")%string.

(** The final segment that is stored and not queued yet. *)
Definition unsent (pc : receiver_pc) : list Segment := match pc with VPartial seg | VSend true seg => [seg] | _ => [] end.
(** The final segment that is not stored yet. *)
Definition unstored (pc : receiver_pc) : list Segment := match pc with VApply seg | VAppend seg => [seg] | _ => [] end.
Definition receiver_left (pc : receiver_pc) : bool := match pc with VCloseAll | VDeferred | VDone => true | _ => false end.

(** While the transcript is there its rows are those of the trace, up to a last
    one whose answer was lost. *)
Definition gaps_match (d : tdb) (stored lost : list streamDropRun) : Prop :=
  has_transcript transcriptID d -> exists l, runs_of transcriptID d = stored ++ l /\ (l = [] \/ l = lost).
Definition finals_match (d : tdb) (stored : list Segment) (left : bool) : Prop :=
  has_transcript transcriptID d -> exists l, contents_of transcriptID d = map content stored ++ l /\ (length l <= 1)%nat /\ (left = false -> l = []).

Record records_ok (s : stream) : Prop := {
  ro_tables : tdb_ok (s_db s);
  ro_gaps : gaps_match (s_db s) (tr_gaps (s_tr s)) (tr_lost_gaps (s_tr s));
  ro_finals : finals_match (s_db s) (tr_finals (s_tr s)) (receiver_left (rv_pc (s_receiver s)));
  ro_starts : NoDup (map StartMS (tr_finals (s_tr s) ++ unstored (rv_pc (s_receiver s))));
  ro_relay : forall seg, seg ∈ tr_finals (s_tr s) ++ unstored (rv_pc (s_receiver s)) -> StartMS seg ∈ rv_relay (s_receiver s) }.

Record shown_ok (s : stream) : Prop := {
  sh_segments : exists rest, map (segment_message true) (tr_finals (s_tr s)) =
    List.filter is_segment (tr_queued (s_tr s)) ++ rest /\
    if receiver_left (rv_pc (s_receiver s)) then (length rest <= 1)%nat
    else rest = map (segment_message true) (unsent (rv_pc (s_receiver s)));
  sh_gaps : map (gap_message noteID streamID) (tr_gaps (s_tr s)) =
    List.filter is_gap (tr_queued (s_tr s)) ++ map (gap_message noteID streamID) (announcing (rd_pc (s_reader s)));
  sh_out : execution_ok (s_out s) (tr_queued (s_tr s)) }.

Lemma execution_out o q a o' : execution_ok o q -> outbound_step o a = Some o' -> queued_by a = [] -> execution_ok o' q.
Proof. intros H E Hq. pose proof (execution_step o q a o' H E) as H'. by rewrite Hq, app_nil_r in H'. Qed.

Lemma segments_gap q r : List.filter is_segment (q ++ [gap_message noteID streamID r]) = List.filter is_segment q.
Proof. rewrite List.filter_app. cbn. by rewrite app_nil_r. Qed.
Lemma gaps_gap q r : List.filter is_gap (q ++ [gap_message noteID streamID r]) = List.filter is_gap q ++ [gap_message noteID streamID r].
Proof. by rewrite List.filter_app. Qed.
Lemma segments_segment q final seg : List.filter is_segment (q ++ [segment_message final seg]) =
  List.filter is_segment q ++ if final then [segment_message true seg] else [].
Proof. rewrite List.filter_app. by destruct final. Qed.
Lemma gaps_segment q final seg : List.filter is_gap (q ++ [segment_message final seg]) = List.filter is_gap q.
Proof. rewrite List.filter_app. cbn. destruct final; cbn; by rewrite app_nil_r. Qed.

Lemma shown_step s a s' : shown_ok s -> step s a = Some s' -> shown_ok s'.
Proof.
  intros [(rest & S & SR) G O] E. open_stream s. destruct tr as [tread ttaken tdrop tab tgaps tlost tfin tq].
  destruct a; cbn in E; unfold_steps E.
  all: stream_cases E.
  all: try match goal with k : after_run |- _ => destruct k; cbn in * end.
  all: split; cbn in *; rewrite ?segments_gap, ?gaps_gap, ?segments_segment, ?gaps_segment, ?map_app, ?app_nil_r;
    first
      [ assumption
      | eexists; split; [eassumption|first [assumption|subst rest; cbn; lia]]
      | by eapply execution_out
      | match goal with H : outbound_step _ (Enqueue ?m) = Some ?o |- execution_ok ?o _ => exact (execution_step _ _ _ _ O H) end
      | by rewrite G, ?app_nil_r
      | eexists; split; [|reflexivity]; rewrite ?map_app, S, SR; cbn; by rewrite ?app_nil_r
      | eexists; split; [|reflexivity]; rewrite S, SR, app_nil_r; by case_match ].
Qed.

Lemma new_shown_ok d : shown_ok (new_stream d).
Proof. split; [by exists []|done|apply new_execution]. Qed.

(** *** What the stream's own calls leave *)

Lemma store_gap_rows o uuid r d res d' : tdb_ok d ->
  store o (AppendTranscriptGap uuid transcriptID streamID (gap_of_run transcriptID streamID r)) d = (res, d') ->
  tdb_ok d' /\ (has_transcript transcriptID d' <-> has_transcript transcriptID d) /\
  contents_of transcriptID d' = contents_of transcriptID d /\
  match res with
  | Ok _ => runs_of transcriptID d' = runs_of transcriptID d ++ [r]
  | Err _ => runs_of transcriptID d' = runs_of transcriptID d \/ runs_of transcriptID d' = runs_of transcriptID d ++ [r]
  end.
Proof.
  intros Hok E. pose proof (append_gap_rows uuid transcriptID streamID (gap_of_run transcriptID streamID r) d) as H.
  destruct (AppendTranscriptGap_ok uuid transcriptID streamID (gap_of_run transcriptID streamID r) d Hok) as [Hok' Ht].
  destruct (AppendTranscriptGap uuid transcriptID streamID (gap_of_run transcriptID streamID r) d) as [x d1] eqn:Ea. cbn in Hok', Ht.
  assert (has_transcript transcriptID d1 <-> has_transcript transcriptID d) as Hh by (unfold has_transcript; by rewrite Ht).
  destruct o; cbn in E; rewrite ?Ea in E; cbn in E.
  - simplify_eq. destruct res; [|subst; auto 6]. destruct H as (_ & _ & Es & Hr). split; [done|]. split; [done|].
    split; [by apply contents_ext|]. rewrite Hr, String.eqb_refl. by destruct r.
  - simplify_eq. split; [done|]. split; [done|]. split; [done|by left].
  - destruct x as [u|e]; simplify_eq; [|subst; auto 6]. destruct H as (_ & _ & Es & Hr). split; [done|]. split; [done|].
    split; [by apply contents_ext|]. right. rewrite Hr, String.eqb_refl. by destruct r.
Qed.

Lemma store_segment_rows o uuid seg d res d' : tdb_ok d ->
  store o (AppendStreamSegment uuid transcriptID streamID seg) d = (res, d') ->
  tdb_ok d' /\ (has_transcript transcriptID d' <-> has_transcript transcriptID d) /\
  runs_of transcriptID d' = runs_of transcriptID d /\
  match res with
  | Ok _ => contents_of transcriptID d' = contents_of transcriptID d ++ [content seg]
  | Err _ => contents_of transcriptID d' = contents_of transcriptID d \/ contents_of transcriptID d' = contents_of transcriptID d ++ [content seg]
  end.
Proof.
  intros Hok E. pose proof (append_segment_rows uuid transcriptID streamID seg d) as H.
  destruct (AppendStreamSegment_ok uuid transcriptID streamID seg d Hok) as [Hok' Ht].
  destruct (AppendStreamSegment uuid transcriptID streamID seg d) as [x d1] eqn:Ea. cbn in Hok', Ht.
  assert (has_transcript transcriptID d1 <-> has_transcript transcriptID d) as Hh by (unfold has_transcript; by rewrite Ht).
  destruct o; cbn in E; rewrite ?Ea in E; cbn in E.
  - simplify_eq. destruct res; [|subst; auto 6]. destruct H as (_ & _ & Es & Hr). split; [done|]. split; [done|].
    split; [by apply runs_ext|]. by rewrite Hr, String.eqb_refl.
  - simplify_eq. split; [done|]. split; [done|]. split; [done|by left].
  - destruct x as [u|e]; simplify_eq; [|subst; auto 6]. destruct H as (_ & _ & Es & Hr). split; [done|]. split; [done|].
    split; [by apply runs_ext|]. right. by rewrite Hr, String.eqb_refl.
Qed.

Lemma store_partial_rows o now d res d' : tdb_ok d -> store o (mark_partial noteID now) d = (res, d') ->
  tdb_ok d' /\ d_transcripts d' = d_transcripts d /\ d_segments d' = d_segments d /\ d_gaps d' = d_gaps d.
Proof.
  intros Hok E. assert (tdb_ok (mark_partial noteID now d).2) as Hok'.
  { destruct Hok as (H1 & H2 & H3 & H4 & H5 & H6). split_and!; cbn; try done. intros x Hx. destruct (H4 x Hx) as (Hn & Hs & Hg).
    split; [|done]. change (ts_note x ∈ map row_id (update_where (note_is noteID) (fun r => touch now (set_partial true r)) (d_notes d))).
    rewrite map_update_where; [done|]. by intros []. }
  unfold store, mark_partial in *; destruct o; cbn in E; simplify_eq; (split; [first [exact Hok|exact Hok']|done]).
Qed.

(** Other requests and jobs work on other transcripts. *)
Definition action_ok (a : stream_action) : Prop := match a with Others op => foreign transcriptID op | _ => True end.

(** *** The tables keep matching the trace through a call that appends or not. *)

Lemma gaps_match_same d d' st lost : gaps_match d st lost -> (has_transcript transcriptID d' -> has_transcript transcriptID d) ->
  runs_of transcriptID d' = runs_of transcriptID d -> gaps_match d' st lost.
Proof. intros H Hh E Hd. rewrite E. auto. Qed.

Lemma finals_match_same d d' st left left' : finals_match d st left -> (has_transcript transcriptID d' -> has_transcript transcriptID d) ->
  contents_of transcriptID d' = contents_of transcriptID d -> (left' = false -> left = false) -> finals_match d' st left'.
Proof. intros H Hh E Hl Hd. destruct (H (Hh Hd)) as (l & E1 & E2 & E3). exists l. rewrite E. auto. Qed.

Lemma gaps_match_stored d d' st r : gaps_match d st [] -> (has_transcript transcriptID d' <-> has_transcript transcriptID d) ->
  runs_of transcriptID d' = runs_of transcriptID d ++ [r] -> gaps_match d' (st ++ [r]) [].
Proof.
  intros H Hh E Hd. apply Hh in Hd. destruct (H Hd) as (l & E1 & Hl). assert (l = []) as -> by tauto. exists []. rewrite E, E1.
  split; [by rewrite !app_nil_r|by left].
Qed.

Lemma gaps_match_failed d d' st r : gaps_match d st [] -> (has_transcript transcriptID d' <-> has_transcript transcriptID d) ->
  runs_of transcriptID d' = runs_of transcriptID d \/ runs_of transcriptID d' = runs_of transcriptID d ++ [r] -> gaps_match d' st ([] ++ [r]).
Proof.
  intros H Hh E Hd. apply Hh in Hd. destruct (H Hd) as (l & E1 & Hl). assert (l = []) as -> by tauto. rewrite app_nil_r in E1.
  destruct E as [-> | ->]; rewrite E1; [exists []|exists [r]]; rewrite ?app_nil_r; auto.
Qed.

Lemma finals_match_stored d d' st seg : finals_match d st false -> (has_transcript transcriptID d' <-> has_transcript transcriptID d) ->
  contents_of transcriptID d' = contents_of transcriptID d ++ [content seg] -> finals_match d' (st ++ [seg]) false.
Proof.
  intros H Hh E Hd. apply Hh in Hd. destruct (H Hd) as (l & E1 & _ & Hl). rewrite (Hl eq_refl), app_nil_r in E1. exists [].
  rewrite E, E1, map_app, app_nil_r. split_and!; [done|cbn; lia|done].
Qed.

Lemma finals_match_failed d d' st seg : finals_match d st false -> (has_transcript transcriptID d' <-> has_transcript transcriptID d) ->
  contents_of transcriptID d' = contents_of transcriptID d \/ contents_of transcriptID d' = contents_of transcriptID d ++ [content seg] ->
  finals_match d' st true.
Proof.
  intros H Hh E Hd. apply Hh in Hd. destruct (H Hd) as (l & E1 & _ & Hl). rewrite (Hl eq_refl), app_nil_r in E1.
  destruct E as [-> | ->]; rewrite E1; [exists []|exists [content seg]]; rewrite ?app_nil_r; split_and!; cbn; auto; lia.
Qed.

Lemma others_match op s : records_ok s -> foreign transcriptID op -> records_ok (set_db (transcript_perform op (s_db s)) s).
Proof.
  intros [T G F N R] Hf. pose proof (foreign_leaves transcriptID op (s_db s) T Hf) as Hl. split; cbn; try assumption.
  - by apply transcript_perform_ok.
  - intros Hd. destruct (Hl Hd) as (Hd' & -> & _). auto.
  - intros Hd. destruct (Hl Hd) as (Hd' & _ & ->). auto.
Qed.

Lemma apply_start gap seg : StartMS (applyToNextSegment gap seg).2 = StartMS seg.
Proof. unfold applyToNextSegment. by repeat case_match. Qed.

Lemma shouldRelay_true fin ev g : shouldRelay finish_ms fin ev = (true, g) ->
  StartMS (segment_of_event finish_ms ev) ∉ fin /\ fin ⊆ g /\ (ev_Final ev = true -> StartMS (segment_of_event finish_ms ev) ∈ g).
Proof.
  unfold shouldRelay. case_bool_decide as Hk; [done|]. intros [= <-]. split; [done|]. destruct (ev_Final ev); split; set_solver.
Qed.

Lemma starts_relayed (fin g : gset Z) seg l : (forall x, x ∈ l ++ [] -> StartMS x ∈ fin) -> NoDup (map StartMS (l ++ [])) -> StartMS seg ∉ fin ->
  fin ⊆ g -> StartMS seg ∈ g ->
  NoDup (map StartMS (l ++ [seg])) /\ (forall x, x ∈ l ++ [seg] -> StartMS x ∈ g).
Proof.
  intros R N Hs Hg Hin. rewrite app_nil_r in N. split.
  - rewrite map_app. apply NoDup_snoc; [done|]. intros (x & E & Hx)%list_elem_of_fmap. apply Hs. rewrite E. apply R. by rewrite app_nil_r.
  - intros x [Hx|Hx%list_elem_of_singleton]%elem_of_app; [|by subst]. apply Hg. apply R. by rewrite app_nil_r.
Qed.

Lemma records_step s a s' : audio_ok s -> records_ok s -> action_ok a -> step s a = Some s' -> records_ok s'.
Proof.
  intros [_ _ _ _ _ L _] HR Ha E. destruct (match a with Others _ => true | _ => false end) eqn:Eo.
  { destruct a; try done. cbn in E. injection E as <-. by apply others_match. }
  destruct HR as [T G F N R]. open_stream s. destruct tr as [tread ttaken tdrop tab tgaps tlost tfin tq].
  destruct a; try discriminate Eo; cbn in E; unfold_steps E; clear Eo.
  all: stream_cases E.
  all: try match goal with k : after_run |- _ => destruct k; cbn in * end.
  all: repeat match goal with
    | H : store _ (AppendTranscriptGap _ _ _ _) _ = _ |- _ =>
        let T' := fresh "T" in let Hh := fresh "Hh" in
        rewrite (L (or_introl eq_refl)) in *; apply (store_gap_rows _ _ _ _ _ _ T) in H as (T' & Hh & ? & ?)
    | H : store _ (AppendStreamSegment _ _ _ _) _ = _ |- _ =>
        let T' := fresh "T" in let Hh := fresh "Hh" in apply (store_segment_rows _ _ _ _ _ _ T) in H as (T' & Hh & ? & ?)
    | H : store _ (mark_partial _ _) _ = _ |- _ =>
        let T' := fresh "T" in apply (store_partial_rows _ _ _ _ _ T) in H as (T' & ? & ? & ?)
    end.
  all: split; cbn in *; first [ assumption | idtac ].
  all: try match goal with H : d_transcripts ?t = d_transcripts ?d |- _ =>
      assert (has_transcript transcriptID t -> has_transcript transcriptID d) by (unfold has_transcript; by rewrite H) end.
  all: try (eapply finals_match_same; [exact F|tauto|first [done|assumption|by apply contents_ext]|done]).
  all: try (eapply gaps_match_same; [exact G|tauto|first [assumption|by apply runs_ext]]).
  all: try (eapply gaps_match_stored; eassumption).
  all: try (eapply gaps_match_failed; eassumption).
  all: try (eapply finals_match_stored; eassumption).
  all: try (eapply finals_match_failed; eassumption).
  all: try (rewrite app_nil_r in *; assumption).
  all: try match goal with H : negb ?b = false |- _ => destruct b; [|done] end.
  all: try match goal with H : shouldRelay _ _ _ = (true, _) |- _ => destruct (shouldRelay_true _ _ _ H) as (R1 & R2 & R3) end.
  all: try match goal with H : ev_Final _ = true |- _ => destruct (starts_relayed vrl g (segment_of_event finish_ms s) tfin R N R1 R2 (R3 H)); assumption end.
  - intros x Hx. apply R2, R, Hx.
  - match goal with H : applyToNextSegment ?b ?x = _ |- _ => pose proof (apply_start b x) as Es; rewrite H in Es; cbn in Es end.
    rewrite !map_app in *. cbn in *. by rewrite Es.
  - match goal with H : applyToNextSegment ?b ?x = _ |- _ => pose proof (apply_start b x) as Es; rewrite H in Es; cbn in Es end.
    intros x [Hx|Hx%list_elem_of_singleton]%elem_of_app; [apply R, elem_of_app; by left|]. subst x. rewrite Es. apply R, elem_of_app.
    right. by apply list_elem_of_singleton.
  - rewrite app_nil_r. rewrite map_app in N. by apply NoDup_app in N as [N _].
  - intros x Hx. rewrite app_nil_r in Hx. apply R, elem_of_app. by left.
Qed.

(** ** The invariant of a stream *)

Definition recorded (s : stream) : Prop := audio_ok s /\ records_ok s /\ shown_ok s.

Lemma recorded_run acts s s' : recorded s -> Forall action_ok acts -> run step s acts = Some s' -> recorded s'.
Proof.
  revert s. induction acts as [|a acts IH]; intros s H Ha E; cbn in E; [by simplify_eq|].
  apply Forall_cons in Ha as [Ha1 Ha]. destruct (step s a) as [s1|] eqn:E1; cbn in E; [|done].
  apply (IH s1); [|done|done]. destruct H as (H1 & H2 & H3). split_and!; [by eapply audio_step|by eapply records_step|by eapply shown_step].
Qed.

(** A stream starts on tables without rows of its transcript. *)
Lemma new_recorded d : tdb_ok d -> runs_of transcriptID d = [] -> contents_of transcriptID d = [] -> recorded (new_stream d).
Proof.
  intros Hd Hr Hc. split; [apply new_audio_ok|]. split; [|apply new_shown_ok]. split; cbn; [done| | | |].
  - intros _. exists []. auto.
  - intros _. exists []. split_and!; cbn; [done|lia|done].
  - constructor.
  - by intros x ?%elem_of_nil.
Qed.

(** C27. No sample is lost silently.  In any execution, with other requests and
    jobs at work on the tables: the plugin is handed the client's frames in
    their order; while the reader reads, every gap it recorded is stored and
    no frame was given up; and whenever that is so and the transcript was not
    replaced, the samples of the frames read are those of the frames handed to
    the plugin or waiting, of the gaps in the tables, and of the run of drops
    that is under way. *)
Theorem audio_accounted d acts s : tdb_ok d -> runs_of transcriptID d = [] -> contents_of transcriptID d = [] ->
  Forall action_ok acts -> run step (new_stream d) acts = Some s ->
  sublist (tr_taken (s_tr s) ++ ch_audio (s_ch s) ++ offered (rd_pc (s_reader s))) (tr_read (s_tr s)) /\
  (reading (rd_pc (s_reader s)) = true -> tr_abandoned (s_tr s) = [] /\ tr_lost_gaps (s_tr s) = []) /\
  (tr_abandoned (s_tr s) = [] -> tr_lost_gaps (s_tr s) = [] -> has_transcript transcriptID (s_db s) ->
    samples_of (tr_read (s_tr s)) =
    (samples_of (tr_taken (s_tr s)) + samples_of (ch_audio (s_ch s)) + samples_of (offered (rd_pc (s_reader s))) +
     samples_of (taken_out (rd_pc (s_reader s))) + run_samples (runs_of transcriptID (s_db s)) + run_samples (open_run s))%Z).
Proof.
  intros Hd Hr Hc Ha E. destruct (recorded_run _ _ _ (new_recorded d Hd Hr Hc) Ha E) as ([O A N D B L U] & [T G F NS R] & _).
  split; [done|]. split; [done|]. intros Hab Hl Hh. destruct (G Hh) as (l & El & Hl'). rewrite Hl in Hl'.
  assert (l = []) as -> by tauto. rewrite app_nil_r in El. rewrite El, A, Hab, D, Hl. cbn. lia.
Qed.

(** C28. The client is shown only what is stored, and all of it in order.  In any
    execution the final segments written to the client are, in order, the first
    of those the tables stored, and so are the gaps; no two stored finals start
    at the same millisecond; and while the transcript is there its segments are
    the stored finals, up to one whose call's answer was lost, after which the
    stream ends. *)
Theorem stored_before_shown d acts s : tdb_ok d -> runs_of transcriptID d = [] -> contents_of transcriptID d = [] ->
  Forall action_ok acts -> run step (new_stream d) acts = Some s ->
  List.filter is_segment (ob_written (s_out s)) `prefix_of` map (segment_message true) (tr_finals (s_tr s)) /\
  List.filter is_gap (ob_written (s_out s)) `prefix_of` map (gap_message noteID streamID) (tr_gaps (s_tr s)) /\
  NoDup (map StartMS (tr_finals (s_tr s))) /\
  (has_transcript transcriptID (s_db s) -> exists l, contents_of transcriptID (s_db s) = map content (tr_finals (s_tr s)) ++ l /\
    (length l <= 1)%nat /\ (receiver_left (rv_pc (s_receiver s)) = false -> l = [])).
Proof.
  intros Hd Hr Hc Ha E. destruct (recorded_run _ _ _ (new_recorded d Hd Hr Hc) Ha E) as (_ & [T G F NS R] & [(rest & S & _) SG [_ _ EF _]]).
  assert (forall p, (forall m, p m = true -> is_final m = true) ->
    List.filter p (ob_written (s_out s)) `prefix_of` List.filter p (tr_queued (s_tr s))) as Hp.
  { intros p Hp. exists (List.filter p (in_write (s_out s) ++ pending (s_out s))). rewrite <- List.filter_app.
    assert (forall l, List.filter p (List.filter is_final l) = List.filter p l) as Hf.
    { induction l as [|m l IH]; cbn; [done|]. destruct (is_final m) eqn:Em; cbn; [by rewrite IH|].
      destruct (p m) eqn:Ep; [by rewrite (Hp m Ep) in Em|done]. }
    rewrite <- Hf, <- EF, Hf. done. }
  split; [|split; [|split]].
  - rewrite S. etrans; [apply Hp|by exists rest]. intros m. unfold is_segment, is_final. by destruct (msg_Final m).
  - rewrite SG. etrans; [apply Hp|by eexists]. intros m. unfold is_gap, is_final. by destruct (msg_Final m).
  - rewrite map_app in NS. by apply NoDup_app in NS as [NS _].
  - exact F.
Qed.
End Steps.
