(* ===== verification/NoteStreamStart.v ===== *)
(** The start of a live stream: the part of [handleNoteStream]
    ([internal/api/stream.go]) before its goroutines, and
    [streamingTranscriber].

    The store calls run one after the other, as in Calls.v, on the tables of
    Transcripts.v and the plugin rows.  What the network yields is an argument:
    whether the request is upgraded, the plugin's answers to [Info] and
    [Health], the connection and the frames [Open] reads, and whether the
    [ready] message could be written. *)

From stdpp Require Import base list strings gmap.
From Stdlib Require Import ZArith Lia.
From S2P Require Import GoInt GoStrings Sql Execution Notes Transcripts TranscriptsProps Summaries Plugins Calls.
From S2P Require Import Outbound NoteStream NoteStreamProps NoteStreamRecords.

Local Open Scope string_scope.
Local Open Scope list_scope.

Definition stream_tables : Type := tdb * list plugin_row.

(** What became of the request. *)
Inductive stream_start :=
| StartRefused (status : Z)
| NotUpgraded
| Unavailable (reason : option string)
| StartLost (tr : Transcript)
| Started (tr : Transcript).

(** [Info]: the plugin's kind and API version. *)
Record plugin_info := mkInfo { info_Kind : string; info_PluginAPI : Z }.

Section Start.
Variable others : nat -> stream_tables -> stream_tables.
Variable fails : nat -> bool.
(** [uuid.Parse], the canonical form of an id, decryption. *)
Variable valid_uuid : string -> bool.
Variable canon : string -> string.
Variable decrypt : string -> option string.

(** The server has a key, and what the network yields. *)
Variable has_crypto : bool.
Variable upgraded : bool.
Variable info : Plugin -> option plugin_info.
Variable healthy : Plugin -> bool.
Variable dial : Plugin -> option (list (option StreamingEvent)).
Variable ready_written : bool.

Notation "'pass!' x := m 'in' k" := (pass_bind m (fun x => k)) 
  (at level 10, x pattern, m at level 100, k at level 200, only parsing).
Abbreviation call := (store_call others fails).

Definition reads {A} (f : stream_tables -> result store_error A) : Pass stream_tables (result store_error A) :=
  attempt (call (fun _ d => (f d, d))).

(** The statuses that have batch work in flight. *)
Definition mid_pipeline (status : string) : bool :=
  existsb (String.eqb status) [NoteRecording; NoteUploaded; NoteTranscribing; NoteSummarizing].

Definition streamingTranscriber : Pass stream_tables (option Plugin) :=
  if negb has_crypto then pass_ret None
  else
    pass! r := reads (fun d => DefaultPlugin decrypt PluginStreamingTranscriber d.2) in
    pass_ret match r with
             | Err _ => None
             | Ok plug =>
                 match info plug with
                 | None => None
                 | Some i =>
                     if negb (info_Kind i =? PluginStreamingTranscriber) || negb (info_PluginAPI i =? 1)%Z then None
                     else if healthy plug then Some plug else None
                 end
             end.

Definition streamStartFailureReason (e : store_error) : string :=
  match e with
  | ErrBatchTranscriptExists => "batch_transcript_exists"
  | ErrGenerationMismatch => "transcript_changed"
  | _ => "internal_error"
  end.

Definition create_stream (uuid streamID noteID : string) (expectedGeneration : Z) : Pass stream_tables (result store_error Transcript) :=
  attempt (call (fun _ '(d, p) =>
    let '(r, d) := CreateStreamTranscript uuid noteID streamID "streaming" "" expectedGeneration d in (r, (d, p)))).

(** The plugin's session: how many loading events came before it was ready. *)
Definition open_session (plug : Plugin) : option nat :=
  match dial plug with
  | None => None
  | Some frames => match await_ready 0 frames with Opened n => Some n | OpenFailed _ => None end
  end.

Definition take_transcript (uuid streamID noteID : string) (loadings : nat) : Pass stream_tables stream_start :=
  pass! g := reads (fun d => Ok (CurrentTranscriptGeneration (canon noteID) d.1)) in
  match g with
  | Err _ => pass_ret (Unavailable (Some "internal_error"))
  | Ok expectedGeneration =>
      pass! r := create_stream uuid streamID (canon noteID) expectedGeneration in
      pass_ret match r with
               | Err e => Unavailable (Some (streamStartFailureReason e))
               | Ok tr => if (0 <? loadings)%nat && negb ready_written then StartLost tr else Started tr
               end
  end.

Definition handleNoteStream (uuid streamID uid noteID : string) : Pass stream_tables stream_start :=
  if negb (valid_uuid noteID) then pass_ret (StartRefused 404)
  else
    pass! note := reads (fun d => GetNote uid (canon noteID) (note_tables no_tables d.1)) in
    match note with
    | Err ErrNotFound => pass_ret (StartRefused 404)
    | Err _ => pass_ret (StartRefused 500)
    | Ok note =>
        if mid_pipeline (Status note) then pass_ret (StartRefused 409)
        else if negb upgraded then pass_ret NotUpgraded
        else
          pass! plug := streamingTranscriber in
          match plug with
          | None => pass_ret (Unavailable None)
          | Some plug =>
              match open_session plug with
              | None => pass_ret (Unavailable None)
              | Some loadings => take_transcript uuid streamID noteID loadings
              end
          end
    end.

(** ** What a start changes *)

(** What others do before the next [k] calls. *)
Fixpoint others_for (k n : nat) (d : stream_tables) : stream_tables :=
  match k with O => d | S k => others_for k (S n) (others n d) end.

Lemma reads_run {A} (f : stream_tables -> result store_error A) n d :
  reads f (n, d) = (Ok (if fails n then Err DbError else f (others n d)), (S n, others n d)).
Proof. unfold reads, attempt, store_call. by destruct (fails n). Qed.

Lemma transcriber_run n d : exists p k, (k <= 1)%nat /\ streamingTranscriber (n, d) = (Ok p, ((n + k)%nat, others_for k n d)).
Proof.
  unfold streamingTranscriber. destruct (negb has_crypto); [exists None, 0%nat; rewrite Nat.add_0_r; split; [lia|done]|].
  unfold pass_bind. rewrite reads_run. cbn. eexists _, 1%nat. rewrite Nat.add_1_r. split; [lia|done].
Qed.

Lemma others_for_plus j k n d : others_for k (n + j) (others_for j n d) = others_for (j + k) n d.
Proof.
  revert n d. induction j as [|j IH]; intros n d; cbn; [by rewrite Nat.add_0_r|]. rewrite <- IH. f_equal. lia.
Qed.

(** A transcript this request took over, and the tables it was taken over from. *)
Definition took (uuid streamID noteID : string) (tr : Transcript) (seen before after : stream_tables) : Prop :=
  CreateStreamTranscript uuid noteID streamID "streaming" "" (CurrentTranscriptGeneration noteID seen.1) before.1 = (Ok tr, after.1) /\
  after.2 = before.2.

Lemma take_run uuid streamID noteID loadings n d :
  let '(r, (n', d')) := take_transcript uuid streamID noteID loadings (n, d) in
  match r with
  | Ok (StartRefused _) | Ok NotUpgraded | Err _ => False
  | Ok (Unavailable _) => exists k, n' = (n + k)%nat /\ d' = others_for k n d
  | Ok (StartLost tr) | Ok (Started tr) => n' = (n + 2)%nat /\ took uuid streamID (canon noteID) tr (others_for 1 n d) (others_for 2 n d) d'
  end.
Proof.
  unfold take_transcript, pass_bind. rewrite reads_run. destruct (fails n); cbn; [exists 1%nat; by rewrite Nat.add_1_r|].
  unfold create_stream, attempt, store_call. destruct (fails (S n)); cbn; [exists 2%nat; split; [lia|done]|].
  unfold took. cbn [others_for]. destruct (others (S n) (others n d)) as [db p] eqn:Eo. cbn.
  destruct (CreateStreamTranscript _ _ _ _ _ _ _) as [r db'] eqn:Ec. cbn. destruct r as [tr|e]; cbn.
  - destruct (_ && _); (split; [lia|]); cbn; try rewrite Ec; done.
  - exists 2%nat. split; [lia|]. cbn [others_for]. rewrite Eo. pose proof (CreateStream_err uuid (canon noteID) streamID "streaming" "" (CurrentTranscriptGeneration (canon noteID) (others n d).1) db e) as He.
    rewrite Ec in He. specialize (He eq_refl). cbn in He. by subst db'.
Qed.

(** A refused start leaves everything as others left it, at whatever call
    it was refused.  A start that goes on has taken the note's transcript over
    in one transaction: it expected the generation it read after the plugin's
    session was open, and on well-formed tables the transcript it replaced, if
    any, was a stream's; the new one, under a fresh id, has no rows, which is
    where the stream begins. *)
Theorem stream_start_exact uuid streamID uid noteID n d :
  let '(r, (n', d')) := handleNoteStream uuid streamID uid noteID (n, d) in
  match r with
  | Err _ => False
  | Ok (StartRefused _) | Ok NotUpgraded | Ok (Unavailable _) => exists k, n' = (n + k)%nat /\ d' = others_for k n d
  | Ok (StartLost tr) | Ok (Started tr) =>
      exists j, (j <= 2)%nat /\ took uuid streamID (canon noteID) tr (others_for (j + 1) n d) (others_for (j + 2) n d) d' /\
        (exists plug loadings, open_session plug = Some loadings) /\
        (tdb_ok (others_for (j + 2) n d).1 ->
          tdb_ok d'.1 /\ has_transcript uuid d'.1 /\ runs_of uuid d'.1 = [] /\ contents_of uuid d'.1 = [] /\
          forall p, prior_transcript (canon noteID) (others_for (j + 2) n d).1 = Some p -> ts_stream p <> None)
  end.
Proof.
  unfold handleNoteStream. destruct (negb (valid_uuid noteID)); [by exists 0%nat; rewrite Nat.add_0_r|].
  unfold pass_bind at 1. rewrite reads_run.
  destruct (if fails n then _ else _) as [note|e]; [|destruct e; exists 1%nat; rewrite Nat.add_1_r; done].
  destruct (mid_pipeline (Status note)); [by exists 1%nat; rewrite Nat.add_1_r|].
  destruct (negb upgraded); [by exists 1%nat; rewrite Nat.add_1_r|].
  unfold pass_bind at 1. destruct (transcriber_run (S n) (others n d)) as (p & k & Hk & ->).
  assert (others_for k (S n) (others n d) = others_for (1 + k) n d) as -> by done.
  destruct p as [plug|]; [|exists (1 + k)%nat; split; [lia|done]].
  destruct (open_session plug) as [loadings|] eqn:Eopen; [|exists (1 + k)%nat; split; [lia|done]].
  assert (Hok : forall tr d', took uuid streamID (canon noteID) tr (others_for (1 + k + 1) n d) (others_for (1 + k + 2) n d) d' ->
    tdb_ok (others_for (1 + k + 2) n d).1 -> tdb_ok d'.1 /\ has_transcript uuid d'.1 /\ runs_of uuid d'.1 = [] /\ contents_of uuid d'.1 = [] /\
      forall p, prior_transcript (canon noteID) (others_for (1 + k + 2) n d).1 = Some p -> ts_stream p <> None).
  { intros tr d2 [Ht _] Hd.
    destruct (CreateStream_ok uuid (canon noteID) streamID "streaming" "" _ _ tr Hd (f_equal fst Ht)) as (_ & Hd' & Hp & Hr).
    rewrite Ht in Hd', Hr. cbn in Hd', Hr. destruct (replaced_own _ _ _ _ _ _ Hd Hr) as [Hs Hg]; [by intros s ?%elem_of_nil|]. cbn in Hs, Hg.
    split; [done|]. split; [destruct Hr as (d1 & _ & -> & _); unfold has_transcript; cbn; rewrite map_app; apply elem_of_app; right; cbn; left|].
    split; [unfold runs_of, gaps_of; by rewrite Hg|]. split; [unfold contents_of; by rewrite Hs|exact Hp]. }
  pose proof (take_run uuid streamID noteID loadings (S n + k) (others_for (1 + k) n d)) as H.
  destruct (take_transcript uuid streamID noteID loadings (S n + k, others_for (1 + k) n d)) as [r [n' d']].
  replace (S n + k)%nat with (n + (1 + k))%nat in H by lia. destruct r as [[st| |reason|tr|tr]|e]; try done; rewrite ?others_for_plus in H.
  - destruct H as (j & -> & ->). exists (1 + k + j)%nat. split; [lia|]. apply others_for_plus.
  - destruct H as (-> & Ht). exists (1 + k)%nat. split; [lia|]. split; [done|]. split; [by eexists _, _|]. by apply (Hok tr).
  - destruct H as (-> & Ht). exists (1 + k)%nat. split; [lia|]. split; [done|]. split; [by eexists _, _|]. by apply (Hok tr).
Qed.
End Start.
