(* ===== verification/NoteStreamDemo.v ===== *)
(** The theorems on live streams at concrete executions, and two races. *)

From stdpp Require Import base list strings sets gmap.
From Stdlib Require Import Strings.Byte ZArith Lia SpecFloat.
From S2P Require Import GoInt GoStrings Streaming Sql Execution Notes Transcripts TranscriptsProps Summaries Plugins Calls.
From S2P Require Import Outbound NoteStream NoteStreamProps NoteStreamRecords NoteStreamStart.

Local Open Scope string_scope.
Local Open Scope list_scope.

Module NoteStreamDemo.

(** ** The mailbox *)

Definition partial (text : string) : streamSegmentMessage := mkMessage "segment" text 0 1 None true false "" "" 0.
Definition final (text : string) : streamSegmentMessage := mkMessage "segment" text 0 1 None true true "" "" 0.

(** Two partials, of which the newer one waits when a final overtakes it. *)
Definition overtaken : list outbound_action :=
  [Enqueue (partial "a"); Enqueue (partial "ab"); Look; Look; Look; Enqueue (final "abc"); Enqueue (partial "d")].
Definition written_out : list outbound_action :=
  [Tick; Receive WakeTick; Look; Look; WriteReturns true; Look; Look; Look; Receive WakePartial; Look; Look; Look;
   Receive WakeFinal; Look; Look; Look].

Definition overtaken_state : outbound := default new_outbound (run outbound_step new_outbound overtaken).

Lemma messages_in_order_witness :
  sublist (deliveries overtaken_state) (queued overtaken) /\
  List.filter is_final (deliveries overtaken_state) = List.filter is_final (queued overtaken) /\
  (forall m, mb_partial (box overtaken_state) = Some m -> last (queued overtaken) = Some m) /\
  (forall a o', outbound_step overtaken_state a = Some o' -> ob_pc overtaken_state <> Returned None -> ob_pc o' = Returned None ->
    pending o' = [] /\ mb_closed (box o') = true).
Proof. apply (messages_in_order overtaken overtaken_state). reflexivity. Defined.

Definition drained_state : outbound := default new_outbound (run outbound_step overtaken_state written_out).

Example drained : ob_written drained_state = [final "abc"] /\ ob_pc drained_state = AtSelect.
Proof. split; reflexivity. Qed.

Lemma writer_drains_witness :
  (length written_out <= rank overtaken_state)%nat /\
  ((forall a, draining a -> outbound_step drained_state a = None) ->
   (exists m, ob_pc drained_state = Returned (Some m)) \/
   (pending drained_state = [] /\ List.filter is_final (ob_written drained_state) = List.filter is_final (queued overtaken) /\
    ob_pc drained_state = if mb_closed (box drained_state) then Returned None else AtSelect)).
Proof. apply (writer_drains overtaken overtaken_state written_out drained_state); [reflexivity..|repeat constructor|reflexivity]. Defined.

(** ** A stream that drops a frame *)

(** The note is a draft, so that it may be streamed. *)
Definition demo_tables : tdb := mkTdb [set_status NoteDraft TranscriptDemo.row] [] [] [].
Definition started : tdb := transcript_perform (TStream "t1" "n" "s1" "streaming" "" 0) demo_tables.

Lemma started_ok : tdb_ok started.
Proof.
  apply transcript_perform_ok. split_and!; cbn; [apply NoDup_nil_2..| | |]; by intros x ?%elem_of_nil.
Qed.

Definition no_ms (f : spec_float) : Z := 0.
Abbreviation demo_step := (stream_step no_ms "n" "s1" "t1").

(** Two bytes are one sample. *)
Definition sample : list byte := [x01; x02].
Definition one_more : list stream_action := [ClientSends sample; ReaderStep].

(** Sixteen frames fill the buffer; the seventeenth drops the first. *)
Definition overflow : list stream_action := concat (repeat one_more 17) ++ [ReaderStep; ReaderPut true].

Definition word (final : bool) : StreamingEvent := mkEvent "segment" final "hello" (float64_of_Z 1) (float64_of_Z 2) (Some "You") "".

(** The sender takes a frame, so that the next one ends the run of drops; its
    gap is stored and announced; a partial and a final arrive and are stored
    and queued; meanwhile a review names the speaker. *)
Definition recovered : list stream_action :=
  overflow ++ [SenderStep; SenderWrites true] ++ one_more ++
  [ReaderStores "g1" Runs; ReaderStep; ReaderStep; PluginSends (Some (word false)); ReceiverStep;
   PluginSends (Some (word true)); ReceiverStep; ReceiverStores "x1" 5 Runs; ReceiverStores "" 6 Runs; ReceiverStep;
   PluginSends (Some (word true)); WriterStep Look; WriterStep (WriteReturns true);
   WriterStep Look; WriterStep (WriteReturns true); Others (TSetReview "n" "completed" 1)].

Definition stream_at (acts : list stream_action) : stream := default (new_stream started) (run demo_step (new_stream started) acts).

Definition recovered_state : stream := Eval vm_compute in stream_at recovered.

Lemma recovered_run : run demo_step (new_stream started) recovered = Some recovered_state.
Proof. vm_compute. reflexivity. Qed.

Lemma recovered_actions : Forall (action_ok "t1") recovered.
Proof. repeat constructor. discriminate. Qed.

Example recovered_rows :
  runs_of "t1" (s_db recovered_state) = [mkRun 0 1] /\
  contents_of "t1" (s_db recovered_state) = [(1000%Z, 2000%Z, "hello", "gap")] /\
  map msg_Type (ob_written (s_out recovered_state)) = ["gap"; "segment"].
Proof. vm_compute. done. Qed.

Lemma audio_accounted_witness :
  sublist (tr_taken (s_tr recovered_state) ++ ch_audio (s_ch recovered_state) ++ offered (rd_pc (s_reader recovered_state)))
    (tr_read (s_tr recovered_state)) /\
  (reading (rd_pc (s_reader recovered_state)) = true -> tr_abandoned (s_tr recovered_state) = [] /\ tr_lost_gaps (s_tr recovered_state) = []) /\
  (tr_abandoned (s_tr recovered_state) = [] -> tr_lost_gaps (s_tr recovered_state) = [] -> has_transcript "t1" (s_db recovered_state) ->
    samples_of (tr_read (s_tr recovered_state)) =
    (samples_of (tr_taken (s_tr recovered_state)) + samples_of (ch_audio (s_ch recovered_state)) +
     samples_of (offered (rd_pc (s_reader recovered_state))) + samples_of (taken_out (rd_pc (s_reader recovered_state))) +
     run_samples (runs_of "t1" (s_db recovered_state)) + run_samples (open_run recovered_state))%Z).
Proof.
  apply (audio_accounted no_ms "n" "s1" "t1" started recovered recovered_state started_ok);
    [reflexivity|reflexivity|exact recovered_actions|exact recovered_run].
Defined.

Lemma stored_before_shown_witness :
  List.filter is_segment (ob_written (s_out recovered_state)) `prefix_of` map (segment_message true) (tr_finals (s_tr recovered_state)) /\
  List.filter is_gap (ob_written (s_out recovered_state)) `prefix_of` map (gap_message "n" "s1") (tr_gaps (s_tr recovered_state)) /\
  NoDup (map StartMS (tr_finals (s_tr recovered_state))) /\
  (has_transcript "t1" (s_db recovered_state) -> exists l,
    contents_of "t1" (s_db recovered_state) = map content (tr_finals (s_tr recovered_state)) ++ l /\
    (length l <= 1)%nat /\ (receiver_left (rv_pc (s_receiver recovered_state)) = false -> l = [])).
Proof.
  apply (stored_before_shown no_ms "n" "s1" "t1" started recovered recovered_state started_ok);
    [reflexivity|reflexivity|exact recovered_actions|exact recovered_run].
Defined.

(** ** The end of a stream *)

(** The client leaves and the plugin closes. *)
Definition left_alone : list stream_action := [ClientSends sample; ReaderStep; ClientEnds true; PluginEnds true].
Definition winding_down : list stream_action :=
  [ReaderStep; ReaderStep; SenderStep; SenderWrites true; SenderStep; SenderWrites true; ReceiverStep; ReceiverStep; ReceiverStep;
   WriterStep Look; WriterStep Look; TailStep; TailStep; TailStep].

Definition left_state : stream := Eval vm_compute in stream_at left_alone.
Definition ended_state : stream := Eval vm_compute in default left_state (run demo_step left_state winding_down).

Example all_returned : ended ended_state.
Proof. vm_compute. done. Qed.

Lemma stream_winds_down_witness :
  (length winding_down <= stream_rank left_state)%nat /\
  ((forall a, internal a -> demo_step ended_state a = None) ->
   ended ended_state \/
   (awaits_plugin ended_state /\ (awaits_client ended_state \/ (rd_pc (s_reader ended_state) = RDone /\ s_sender ended_state = SDone)))).
Proof.
  apply (stream_winds_down no_ms "n" "s1" "t1" started left_alone left_state winding_down ended_state);
    [vm_compute; reflexivity|repeat constructor|vm_compute; reflexivity].
Defined.

(** ** Two races *)

(** The sender takes frame 1 between the reader's two attempts to queue frame
    17, so that frame 2 is dropped: the stored gap covers frames 0 and 1, of
    which the plugin was handed the second, and not frame 2. *)
Definition interleaved_drop : list stream_action :=
  overflow ++ [ClientSends sample; ReaderStep; SenderStep; SenderWrites true; ReaderStep; ReaderPut true; ClientEnds true;
    ReaderStep; ReaderStores "g1" Runs].

Example gap_misplaced :
  let s := stream_at interleaved_drop in
  runs_of "t1" (s_db s) = [mkRun 0 2] /\ map fr_startSample (tr_taken (s_tr s)) = [1%Z] /\
  map fr_startSample (tr_dropped (s_tr s)) = [0%Z; 2%Z].
Proof. vm_compute. done. Qed.

(** A batch transcript replaces the stream's between the two store calls of its
    first final: the note is flagged as partially transcribed although its
    transcript is the batch one. *)
Definition replaced_between : list stream_action :=
  [PluginSends (Some (word true)); ReceiverStep; ReceiverStores "x1" 5 Runs;
   Others (TSave "t2" (TranscriptDemo.fresh "x2-") (TranscriptDemo.batch [TranscriptDemo.seg 0 "You"]) 1);
   ReceiverStores "" 6 Runs].

Example flagged_partial :
  let s := stream_at replaced_between in
  map row_partial (d_notes (s_db s)) = [true] /\ map ts_id (d_transcripts (s_db s)) = ["t2"] /\
  map ts_stream (d_transcripts (s_db s)) = [None].
Proof. vm_compute. done. Qed.

(** ** The start *)

Definition plugin : plugin_row := mkPlugin "p" PluginStreamingTranscriber "whisper" "http://p" "" "{}" "{}" true true.
Definition demo_info (p : Plugin) : option plugin_info := Some (mkInfo PluginStreamingTranscriber 1).
Definition demo_dial (p : Plugin) : option (list (option StreamingEvent)) :=
  Some [Some (mkEvent "loading" false "" (float64_of_Z 0) (float64_of_Z 0) None "");
        Some (mkEvent "ready" false "" (float64_of_Z 0) (float64_of_Z 0) None "")].

Definition demo_start : result store_error stream_start * (nat * stream_tables) :=
  handleNoteStream (fun _ d => d) (fun _ => false) (fun _ => true) (fun x => x) Some true true demo_info (fun _ => true) demo_dial true
    "t1" "s1" "ann" "n" (0%nat, (demo_tables, [plugin])).

Example stream_started : demo_start.2 = (4%nat, (started, [plugin])) /\
  match demo_start.1 with Ok (Started _) => True | _ => False end.
Proof. vm_compute. done. Qed.

(** A plugin that does not get ready leaves the note its transcript. *)
Example unavailable_harmless :
  handleNoteStream (fun _ d => d) (fun _ => false) (fun _ => true) (fun x => x) Some true true demo_info (fun _ => true)
    (fun _ => Some [None]) true "t9" "s2" "ann" "n" (0%nat, (started, [plugin])) = (Ok (Unavailable None), (2%nat, (started, [plugin]))).
Proof. vm_compute. done. Qed.
End NoteStreamDemo.
