(* ===== verification/FloatExact.v ===== *)
(** Exactness of binary floating point.

    Rounding depends on the value only ([round_scale]); integers of at most
    [prec] digits are represented ([round_exact]); so that sums of integers
    and products and quotients by powers of two that fit the mantissa are
    exact.  Used where the program counts and scales in [float64]. *)

From stdpp Require Import base list list_numbers.
From Stdlib Require Import ZArith Lia SpecFloat.

Local Open Scope Z_scope.

(** [m * 2^k]. *)
Definition scale (m : positive) (k : Z) : positive := Z.to_pos (Zpos m * 2 ^ k).

Lemma scale_spec m k : 0 <= k -> Zpos (scale m k) = Zpos m * 2 ^ k.
Proof. intros. unfold scale. rewrite Z2Pos.id; [done|]. pose proof (Z.pow_pos_nonneg 2 k). nia. Qed.

Lemma scale_0 m : scale m 0 = m.
Proof. unfold scale. by rewrite Z.mul_1_r. Qed.

Lemma scale_succ m k : 0 <= k -> scale m (Z.succ k) = xO (scale m k).
Proof.
  intros. apply Pos2Z.inj. rewrite (Pos2Z.inj_xO (scale m k)), !scale_spec, Z.pow_succ_r by lia. lia.
Qed.

Lemma scale_scale m j k : 0 <= j -> 0 <= k -> scale (scale m j) k = scale m (j + k).
Proof. intros. apply Pos2Z.inj. rewrite !scale_spec, Z.pow_add_r by lia. lia. Qed.

Lemma iter_xO m d : Pos.iter xO m d = scale m (Zpos d).
Proof.
  induction d as [|d IH] using Pos.peano_ind; [change 1 with (Z.succ 0); rewrite scale_succ, scale_0 by lia; done|].
  rewrite Pos.iter_succ, IH, Pos2Z.inj_succ, scale_succ by lia. done.
Qed.

Lemma digits_xO m : Zpos (digits2_pos (xO m)) = Zpos (digits2_pos m) + 1.
Proof. cbn. lia. Qed.

Lemma digits_scale m k : 0 <= k -> Zpos (digits2_pos (scale m k)) = Zpos (digits2_pos m) + k.
Proof.
  intros Hk. revert k Hk. apply natlike_ind; [rewrite scale_0; lia|].
  intros k Hk IH. rewrite scale_succ, digits_xO by done. lia.
Qed.

(** A number of [d] digits lies between two powers of two. *)
Lemma digits_bounds m : 2 ^ (Zpos (digits2_pos m) - 1) <= Zpos m < 2 ^ Zpos (digits2_pos m).
Proof.
  induction m as [m IH|m IH|]; cbn [digits2_pos]; rewrite ?Pos2Z.inj_succ.
  - replace (Z.succ (Zpos (digits2_pos m)) - 1) with (Z.succ (Zpos (digits2_pos m) - 1)) by lia.
    rewrite !Z.pow_succ_r by lia. lia.
  - replace (Z.succ (Zpos (digits2_pos m)) - 1) with (Z.succ (Zpos (digits2_pos m) - 1)) by lia.
    rewrite !Z.pow_succ_r by lia. lia.
  - done.
Qed.

Lemma digits_le m n : Zpos m < 2 ^ n -> 0 <= n -> Zpos (digits2_pos m) <= n.
Proof.
  intros Hm Hn. pose proof (digits_bounds m) as [Hlo _].
  assert (H : 2 ^ (Zpos (digits2_pos m) - 1) < 2 ^ n) by lia.
  apply Z.pow_lt_mono_r_iff in H; lia.
Qed.

Lemma iter_pos_iter {A} (f : A -> A) n x : iter_pos f n x = Pos.iter f x n.
Proof.
  revert x. induction n as [n IH|n IH|]; intros x; cbn; [|by rewrite !IH|done].
  by rewrite !IH, <- !Pos.iter_swap.
Qed.

Lemma iter_pos_succ {A} (f : A -> A) n x : iter_pos f (Pos.succ n) x = iter_pos f n (f x).
Proof. rewrite !iter_pos_iter. apply Pos.iter_succ_r. Qed.

Section Rounding.
Variables prec emax : Z.
Hypothesis Hprec : 0 < prec.
Hypothesis Hemax : prec < emax.
Abbreviation fexp := (fexp prec emax).
Abbreviation binary_round := (binary_round prec emax).
Abbreviation aux := (binary_round_aux prec emax).

Lemma shr_fexp_double m e l :
  l = loc_Exact -> e <= fexp (Zpos (digits2_pos m) + e) ->
  shr_fexp prec emax (Zpos (xO m)) (e - 1) l = shr_fexp prec emax (Zpos m) e l.
Proof.
  intros -> Hf. unfold shr_fexp, shr. cbn [Zdigits2 shr_record_of_loc]. rewrite digits_xO.
  replace (Zpos (digits2_pos m) + 1 + (e - 1)) with (Zpos (digits2_pos m) + e) by lia.
  set (f := fexp _) in *. replace (f - (e - 1)) with (Z.succ (f - e)) by lia.
  destruct (f - e) as [|p|p] eqn:E; [| |lia].
  - change (Z.succ 0) with 1. cbn [iter_pos shr_1]. f_equal. lia.
  - rewrite <- Pos2Z.inj_succ, iter_pos_succ. cbn [shr_1 orb]. f_equal. lia.
Qed.

(** Rounding twice the mantissa with the exponent below. *)
Lemma round_double s m e : binary_round s (xO m) (e - 1) = binary_round s m e.
Proof.
  unfold binary_round, shl_align. rewrite digits_xO.
  replace (Zpos (digits2_pos m) + 1 + (e - 1)) with (Zpos (digits2_pos m) + e) by lia.
  set (f := fexp _). replace (f - (e - 1)) with (Z.succ (f - e)) by lia.
  destruct (f - e) as [|p|p] eqn:E.
  - change (Z.succ 0) with 1. unfold aux. rewrite shr_fexp_double; [done|done|]. fold f. lia.
  - rewrite <- Pos2Z.inj_succ. unfold aux. rewrite shr_fexp_double; [done|done|]. fold f. lia.
  - destruct (decide (p = 1%positive)) as [->|Hp].
    + cbn. by replace (e - 1) with f by lia.
    + destruct (Pos.succ_pred_or p) as [->|Hs]; [done|]. rewrite <- Hs at 1 2.
      replace (Z.succ (Zneg (Pos.succ (Pos.pred p)))) with (Zneg (Pos.pred p)) by lia.
      by rewrite Pos.iter_succ_r.
Qed.

Lemma round_scale s m e k : 0 <= k -> binary_round s (scale m k) (e - k) = binary_round s m e.
Proof.
  intros Hk. revert k Hk. apply natlike_ind; [rewrite scale_0; f_equal; lia|].
  intros k Hk IH. rewrite scale_succ by done. replace (e - Z.succ k) with (e - k - 1) by lia.
  by rewrite round_double.
Qed.

(** The target exponent of a number in range. *)
Definition in_range (m : positive) (e : Z) : Prop :=
  Zpos (digits2_pos m) <= prec /\ 3 - emax <= Zpos (digits2_pos m) + e <= emax.

Lemma fexp_value d : 3 - emax <= d -> fexp d = d - prec.
Proof. unfold SpecFloat.fexp, emin. lia. Qed.

Lemma aux_exact s m e :
  Zpos (digits2_pos m) = prec -> 3 - emax <= prec + e -> e <= emax - prec ->
  aux s (Zpos m) e loc_Exact = S754_finite s m e.
Proof.
  intros Hd Hlo Hhi. unfold aux, binary_round_aux, shr_fexp, shr. cbn [Zdigits2 shr_record_of_loc]. rewrite Hd, fexp_value by lia.
  replace (prec + e - prec - e) with 0 by lia. cbn [shr_m loc_of_shr_record round_nearest_even Zdigits2].
  rewrite Hd, fexp_value by lia. replace (prec + e - prec - e) with 0 by lia. cbn [shr_m].
  destruct (Z.leb_spec e (emax - prec)); [done|lia].
Qed.

Lemma round_exact s m e :
  in_range m e ->
  let k := prec - Zpos (digits2_pos m) in
  binary_round s m e = S754_finite s (scale m k) (e - k).
Proof.
  intros [Hd He] k. rewrite <- (round_scale s m e k) by (unfold k; lia).
  assert (Hk : Zpos (digits2_pos (scale m k)) = prec) by (rewrite digits_scale; unfold k; lia).
  unfold binary_round, shl_align. rewrite Hk, fexp_value by (unfold k; lia).
  replace (prec + (e - k) - prec - (e - k)) with 0 by lia. apply aux_exact; [done|unfold k; lia..].
Qed.

(** A mantissa with at least [prec] digits needs no alignment. *)
Lemma aux_round s m e : prec <= Zpos (digits2_pos m) -> aux s (Zpos m) e loc_Exact = binary_round s m e.
Proof.
  intros Hd. unfold binary_round, shl_align, SpecFloat.fexp.
  destruct (Z.max _ _ - e) eqn:E; [done|done|lia].
Qed.

Lemma shl_align_scale m e e' : e' <= e -> fst (shl_align m e e') = scale m (e - e').
Proof.
  intros He. unfold shl_align. destruct (e' - e) as [|d|d] eqn:E; [|lia|].
  - replace (e - e') with 0 by lia. by rewrite scale_0.
  - cbn [fst]. rewrite iter_xO. f_equal. lia.
Qed.

Definition of_Z (z : Z) : spec_float := binary_normalize prec emax z 0 false.

Lemma int_in_range p : Zpos p < 2 ^ prec -> in_range p 0.
Proof. intros H. pose proof (digits_le p prec H ltac:(lia)). unfold in_range. lia. Qed.

(** Adding represented integers is adding integers, and rounding. *)
Lemma add_exact x y :
  0 <= x < 2 ^ prec -> 0 <= y < 2 ^ prec -> SFadd prec emax (of_Z x) (of_Z y) = of_Z (x + y).
Proof.
  intros Hx Hy. destruct x as [|p|]; [|destruct y as [|q|]|lia].
  { rewrite Z.add_0_l. destruct y as [|q|]; [done| |lia]. unfold of_Z. cbn [binary_normalize].
    by rewrite round_exact by (apply int_in_range; lia). }
  - rewrite Z.add_0_r. unfold of_Z. cbn [binary_normalize]. by rewrite round_exact by (apply int_in_range; lia).
  - unfold of_Z. cbn [binary_normalize]. change (Zpos p + Zpos q) with (Zpos (p + q)). cbn [binary_normalize].
    rewrite !round_exact by (apply int_in_range; lia). cbn [SFadd cond_Zopp].
    set (kp := prec - Zpos (digits2_pos p)). set (kq := prec - Zpos (digits2_pos q)).
    pose proof (digits_le p prec ltac:(lia) ltac:(lia)). pose proof (digits_le q prec ltac:(lia) ltac:(lia)).
    rewrite !shl_align_scale, !scale_scale by lia.
    replace (kp + (0 - kp - Z.min (0 - kp) (0 - kq))) with (Z.max kp kq) by lia.
    replace (kq + (0 - kq - Z.min (0 - kp) (0 - kq))) with (Z.max kp kq) by lia.
    replace (Zpos (scale p (Z.max kp kq)) + Zpos (scale q (Z.max kp kq))) with (Zpos (scale (p + q) (Z.max kp kq)))
      by (rewrite !scale_spec, Pos2Z.inj_add by lia; lia).
    cbn [binary_normalize]. replace (Z.min (0 - kp) (0 - kq)) with (0 - Z.max kp kq) by lia.
    apply round_scale. lia.
  - lia.
Qed.

(** Multiplying normal numbers is multiplying their values, and rounding. *)
Lemma mul_exact s t m n e f :
  in_range m e -> in_range n f ->
  SFmul prec emax (binary_round s m e) (binary_round t n f) = binary_round (xorb s t) (m * n) (e + f).
Proof.
  intros Hm Hn. rewrite !round_exact by done. cbn [SFmul]. destruct Hm as [Hm _], Hn as [Hn _].
  set (j := prec - _). set (k := prec - Zpos (digits2_pos n)).
  assert (E : (scale m j * scale n k)%positive = scale (m * n) (j + k)).
  { apply Pos2Z.inj. rewrite Pos2Z.inj_mul, !scale_spec, Z.pow_add_r, Pos2Z.inj_mul by (unfold j, k; lia). lia. }
  rewrite E, aux_round.
  - replace (e - j + (f - k)) with (e + f - (j + k)) by lia. apply round_scale. unfold j, k. lia.
  - rewrite <- E. assert (Hle : prec - 1 < Zpos (digits2_pos (scale m j * scale n k))); [|lia].
    apply (Z.pow_lt_mono_r_iff 2); [lia|lia|].
    eapply Z.le_lt_trans; [|apply (digits_bounds (scale m j * scale n k))].
    pose proof (digits_bounds (scale m j)) as [Hlo _]. rewrite digits_scale in Hlo by (unfold j; lia).
    replace (Zpos (digits2_pos m) + j - 1) with (prec - 1) in Hlo by (unfold j; lia).
    rewrite Pos2Z.inj_mul. nia.
Qed.

End Rounding.
