(* ===== verification/WavFile.v ===== *)
(** The WAV files of the detector evaluation,
    [cmd/whisper-cpp-streaming/ami-eval/internal/audio/wav.go].

    A byte is a [Z] from 0 to 255, a reader what is left to read and the error
    that ends it.  [Decode], [Select] and [Encode] are executable; samples in
    [float32] and [float64] are the standard library's binary floating-point
    numbers of 24 and 53 bits.

    [wav_roundtrip] is about a canonical file: what [Encode] writes [Decode]
    reads back, sample by sample, and what [Select] made of 16-bit samples
    comes back as the same samples up to half of full scale and as the samples
    next to them towards zero above ([requantise]). *)

From stdpp Require Import base list list_numbers strings.
From Stdlib Require Import ZArith Lia SpecFloat Ascii.
From S2P Require Import GoInt Streaming FloatExact.

Local Open Scope Z_scope.

(** ** Binary floating point *)

Abbreviation float32 := spec_float.

Definition float32_of_Z (z : Z) : float32 := binary_normalize 24 128 z 0 false.

(** A conversion between the two formats rounds to the nearest number of the
    target, ties to even. *)
Definition convert (prec emax : Z) (x : spec_float) : spec_float :=
  match x with
  | S754_finite s m e => binary_normalize prec emax (if s then Zneg m else Zpos m) e s
  | _ => x
  end.

Definition float64_of_float32 (x : float32) : float64 := convert 53 1024 x.
Definition float32_of_float64 (x : float64) : float32 := convert 24 128 x.

(** [math.Round] of a finite number as an integer: half away from zero. *)
Definition round_magnitude (m : positive) (e : Z) : Z :=
  if 0 <=? e then Z.shiftl (Zpos m) e else Z.shiftr (Zpos m + Z.shiftl 1 (- e - 1)) (- e).

Definition Round (x : float64) : option Z :=
  match x with
  | S754_zero _ => Some 0
  | S754_finite s m e => Some (if s then - round_magnitude m e else round_magnitude m e)
  | _ => None
  end.

(** ** Reading *)

Record reader := mkReader {
  rest : list Z;
  (** the error after the last byte; [None] is [io.EOF] *)
  failure : option string }.

Inductive read_error := ErrEOF | ErrUnexpectedEOF | ErrRead (msg : string).
#[global] Instance read_error_eq : EqDecision read_error.
Proof. solve_decision. Defined.

(** [io.ReadFull] into a buffer of [n] bytes. *)
Definition ReadFull (n : Z) (r : reader) : result read_error (list Z * reader) :=
  if n <=? len (rest r)
  then Ok (take (Z.to_nat n) (rest r), mkReader (drop (Z.to_nat n) (rest r)) (failure r))
  else Err match failure r with
           | Some msg => ErrRead msg
           | None => if rest r is [] then ErrEOF else ErrUnexpectedEOF
           end.

(** [io.CopyN] to [io.Discard]. *)
Definition Discard (n : Z) (r : reader) : result read_error reader :=
  if n <=? len (rest r) then Ok (mkReader (drop (Z.to_nat n) (rest r)) (failure r))
  else Err match failure r with Some msg => ErrRead msg | None => ErrEOF end.

Definition bytes (s : string) : list Z := map (fun c => Z.of_N (N_of_ascii c)) (String.list_ascii_of_string s).

Definition byte_at (buf : list Z) (i : nat) : Z := nth i buf 0.
Definition Uint16 (buf : list Z) (i : nat) : Z := byte_at buf i + 256 * byte_at buf (i + 1).
Definition Uint32 (buf : list Z) (i : nat) : Z := Uint16 buf i + 65536 * Uint16 buf (i + 2).

Definition AppendUint16 (z : Z) : list Z := [z mod 256; z / 256 mod 256].
Definition AppendUint32 (z : Z) : list Z := AppendUint16 z ++ AppendUint16 (z / 65536).

Definition int16 (u : Z) : Z := if u <? 32768 then u else u - 65536.
Definition uint16 (z : Z) : Z := z mod 65536.
Definition uint32 (z : Z) : Z := z mod 2 ^ 32.

(** ** Decoding *)

Record Format := mkFormat { fmt_SampleRate : Z; fmt_Channels : Z; fmt_BitsPerSample : Z }.

Record Decoded := mkDecoded { dec_Format : Format; dec_Samples : list Z }.

Definition FrameCount (d : Decoded) : Z :=
  if fmt_Channels (dec_Format d) =? 0 then 0 else Z.quot (len (dec_Samples d)) (fmt_Channels (dec_Format d)).

Definition maxChunkBytes : Z := 2 ^ 31.

Inductive wav_error :=
| ErrRiffHeader (e : read_error)
| ErrNotRiff
| ErrNotWave
| ErrChunkHeader (e : read_error)
| ErrImplausible (id : list Z) (size : Z)
| ErrFmtRead (e : read_error)
| ErrFmtShort (n : Z)
| ErrEncoding (audioFormat : Z)
| ErrBits (bits : Z)
| ErrChannels
| ErrRate (rate : Z)
| ErrPadding (e : read_error)
| ErrDataFirst
| ErrUnaligned (size frameSize : Z)
| ErrDataRead (size : Z) (e : read_error)
| ErrSkip (id : list Z) (size : Z) (e : read_error)
| ErrNoFmt
| ErrNoData.
#[global] Instance wav_error_eq : EqDecision wav_error.
Proof. solve_decision. Defined.

Definition annotate {A E F} (f : E -> F) (r : result E A) : result F A :=
  match r with Ok a => Ok a | Err e => Err (f e) end.

(** The variables of [Decode]; [format] is meaningful once [haveFmt]. *)
Record decoding := mkDecoding { format : option Format; data : option (list Z) }.

Section Decoding.
Local Open Scope go_scope.
Local Open Scope Z_scope.
Variable expectedSampleRate : Z.

(** The [i]th sample of a data chunk. *)
Definition sample_at (buf : list Z) (i : nat) : Z := int16 (Uint16 buf (2 * i)).

Definition skip_padding (size : Z) (r : reader) : result wav_error reader :=
  if Z.odd size then annotate ErrPadding (Discard 1 r) else Ok r.

Definition fmt_chunk (size : Z) (r : reader) : result wav_error (Format * reader) :=
  let? (buf, r) := annotate ErrFmtRead (ReadFull size r) in
  let? _ := guard (16 <=? len buf) (ErrFmtShort (len buf)) in
  let audioFormat := Uint16 buf 0 in
  let channels := Uint16 buf 2 in
  let sampleRate := Uint32 buf 4 in
  let bitsPerSample := Uint16 buf 14 in
  let? _ := guard (audioFormat =? 1) (ErrEncoding audioFormat) in
  let? _ := guard (bitsPerSample =? 16) (ErrBits bitsPerSample) in
  let? _ := guard (1 <=? channels) ErrChannels in
  let? _ := guard (sampleRate =? expectedSampleRate) (ErrRate sampleRate) in
  let? r := skip_padding size r in
  Ok (mkFormat sampleRate channels bitsPerSample, r).

Definition data_chunk (f : option Format) (size : Z) (r : reader) : result wav_error (list Z * reader) :=
  match f with
  | None => Err ErrDataFirst
  | Some f =>
      let frameSize := fmt_Channels f * 2 in
      let? _ := guard (negb ((frameSize =? 0) || negb (Z.rem size frameSize =? 0))) (ErrUnaligned size frameSize) in
      let? (buf, r) := annotate (ErrDataRead size) (ReadFull size r) in
      let samples := map (sample_at buf) (seq 0 (Z.to_nat (Z.quot size 2))) in
      let? r := skip_padding size r in
      Ok (samples, r)
  end.

(** A chunk whose header has been read. *)
Definition chunk (id : list Z) (size : Z) (d : decoding) (r : reader) : result wav_error (decoding * reader) :=
  if bool_decide (id = bytes "fmt ") then
    let? (f, r) := fmt_chunk size r in
    Ok (mkDecoding (Some f) (data d), r)
  else if bool_decide (id = bytes "data") then
    let? (samples, r) := data_chunk (format d) size r in
    Ok (mkDecoding (format d) (Some samples), r)
  else
    let skip := if Z.odd size then size + 1 else size in
    let? r := annotate (ErrSkip id size) (Discard skip r) in
    Ok (d, r).

(** The loop over the chunks.  Each round reads a header of eight bytes, so
    that fuel for every byte is enough ([chunks_fuel]). *)
Fixpoint chunks (fuel : nat) (d : decoding) (r : reader) : option (result wav_error decoding) :=
  match fuel with
  | O => None
  | S fuel =>
      match ReadFull 8 r with
      | Err ErrEOF => Some (Ok d)
      | Err e => Some (Err (ErrChunkHeader e))
      | Ok (chunkHeader, r) =>
          let id := take 4 chunkHeader in
          let size := Uint32 chunkHeader 4 in
          if maxChunkBytes <? size then Some (Err (ErrImplausible id size))
          else match chunk id size d r with
               | Err e => Some (Err e)
               | Ok (d, r) => chunks fuel d r
               end
      end
  end.

Definition read_header (r : reader) : result wav_error reader :=
  let? (riffHeader, r) := annotate ErrRiffHeader (ReadFull 12 r) in
  let? _ := guard (bool_decide (take 4 riffHeader = bytes "RIFF")) ErrNotRiff in
  let? _ := guard (bool_decide (take 4 (drop 8 riffHeader) = bytes "WAVE")) ErrNotWave in
  Ok r.

Definition finish (d : decoding) : result wav_error Decoded :=
  match format d, data d with
  | None, _ => Err ErrNoFmt
  | _, None => Err ErrNoData
  | Some f, Some samples => Ok (mkDecoded f samples)
  end.

Definition Decode (r : reader) : option (result wav_error Decoded) :=
  match read_header r with
  | Err e => Some (Err e)
  | Ok r =>
      match chunks (S (length (rest r))) (mkDecoding None None) r with
      | None => None
      | Some (Err e) => Some (Err e)
      | Some (Ok d) => Some (finish d)
      end
  end.

End Decoding.

(** ** Selecting a channel *)

Definition int16ToFloat32 (s : Z) : float32 := SFdiv 24 128 (float32_of_Z s) (float32_of_Z 32768).

Inductive select_error := ErrNoChannels | ErrSelect (ch : Z) | ErrPolicy (policy : string).

Definition sample (d : Decoded) (i : Z) : Z := nth (Z.to_nat i) (dec_Samples d) 0.

Definition average (d : Decoded) (ch i : Z) : float32 :=
  let sum := fold_left (fun sum c => SFadd 53 1024 sum (float64_of_Z (sample d (i * ch + c))))
               (seqZ 0 ch) (S754_zero false) in
  float32_of_float64 (SFdiv 53 1024 (SFdiv 53 1024 sum (float64_of_Z ch)) (float64_of_Z 32768)).

Definition Select (d : Decoded) (policy : string) (selectChannel : Z) : result select_error (list float32) :=
  let ch := fmt_Channels (dec_Format d) in
  if ch <=? 0 then Err ErrNoChannels
  else
    let frames := FrameCount d in
    if (policy =? "explicit")%string then
      if (selectChannel <? 0) || (ch <=? selectChannel) then Err (ErrSelect selectChannel)
      else Ok (map (fun i => int16ToFloat32 (sample d (i * ch + selectChannel))) (seqZ 0 frames))
    else if (policy =? "average")%string then Ok (map (average d ch) (seqZ 0 frames))
    else Err (ErrPolicy policy).

(** ** Encoding *)

Section Encoding.
(** What the processor converts a NaN to.  The conversion of an integer keeps
    its 16 low bits. *)
Variable int16_of_NaN : Z.

Definition floatToInt16 (f : float32) : Z :=
  let v := SFmul 53 1024 (float64_of_float32 f) (float64_of_Z 32767) in
  let v := if SFltb (float64_of_Z 32767) v then float64_of_Z 32767 else v in
  let v := if SFltb v (float64_of_Z (-32768)) then float64_of_Z (-32768) else v in
  int16 (uint16 (default int16_of_NaN (Round v))).

Definition Encode (samples : list float32) (sampleRate : Z) : option (list Z) :=
  if sampleRate <=? 0 then None
  else
    let dataSize := uint32 (len samples * 2) in
    let byteRate := uint32 (Z.quot (sampleRate * 1 * 16) 8) in
    let blockAlign := uint16 (Z.quot (1 * 16) 8) in
    let riffSize := uint32 (36 + dataSize) in
    Some (bytes "RIFF" ++ AppendUint32 riffSize ++ bytes "WAVE" ++ bytes "fmt " ++ AppendUint32 16 ++
          AppendUint16 1 ++ AppendUint16 1 ++ AppendUint32 (uint32 sampleRate) ++ AppendUint32 byteRate ++
          AppendUint16 blockAlign ++ AppendUint16 16 ++ bytes "data" ++ AppendUint32 dataSize ++
          concat (map (fun s => AppendUint16 (uint16 (floatToInt16 s))) samples)).

End Encoding.

(** ** Bytes *)

Lemma Uint16_Append z l : Uint16 (AppendUint16 z ++ l) 0 = z mod 65536.
Proof.
  unfold Uint16, AppendUint16, byte_at. cbn [nth app Nat.add].
  change 65536 with (256 * 256). rewrite (Z.rem_mul_r z 256 256) by lia. lia.
Qed.

Lemma Uint16_skip x y l i : Uint16 (x :: y :: l) (S (S i)) = Uint16 l i.
Proof. reflexivity. Qed.

Lemma Uint32_Append z l : Uint32 (AppendUint32 z ++ l) 0 = uint32 z.
Proof.
  unfold Uint32, AppendUint32. rewrite <- app_assoc, Uint16_Append.
  change (AppendUint16 z ++ ?k) with (z mod 256 :: z / 256 mod 256 :: k). cbn [Nat.add].
  rewrite Uint16_skip, Uint16_Append. unfold uint32. change (2 ^ 32) with (65536 * 65536).
  rewrite (Z.rem_mul_r z 65536 65536) by lia. lia.
Qed.

Lemma int16_uint16 z : -32768 <= z < 32768 -> int16 (uint16 z) = z.
Proof.
  intros H. unfold int16, uint16. destruct (Z.ltb_spec (z mod 65536) 32768) as [Hlt|Hlt].
  - destruct (decide (0 <= z)); [rewrite Z.mod_small in *; lia|].
    rewrite <- (Z_mod_plus_full z 1 65536), Z.mod_small in Hlt by lia. lia.
  - destruct (decide (0 <= z)); [rewrite Z.mod_small in *; lia|].
    rewrite <- (Z_mod_plus_full z 1 65536), Z.mod_small by lia. lia.
Qed.

Lemma int16_range u : 0 <= u < 65536 -> -32768 <= int16 u < 32768.
Proof. unfold int16. intros. destruct (Z.ltb_spec u 32768); lia. Qed.

Lemma len_AppendUint32 z : len (AppendUint32 z) = 4.
Proof. reflexivity. Qed.

Lemma len_AppendUint16 z : len (AppendUint16 z) = 2.
Proof. reflexivity. Qed.

#[export] Hint Rewrite len_AppendUint32 len_AppendUint16 : golen.

(** Reading what is there. *)
Lemma ReadFull_app n bs l f : len bs = n -> ReadFull n (mkReader (bs ++ l) f) = Ok (bs, mkReader l f).
Proof.
  intros <-. unfold ReadFull. cbn [rest failure]. destruct (Z.leb_spec (len bs) (len (bs ++ l))) as [_|]; [|lia_len].
  unfold len. rewrite Nat2Z.id, take_app_length, drop_app_length. done.
Qed.

Lemma ReadFull_ok n r buf r' :
  ReadFull n r = Ok (buf, r') -> 0 <= n -> rest r = buf ++ rest r' /\ len buf = n /\ failure r' = failure r.
Proof.
  unfold ReadFull. destruct (Z.leb_spec n (len (rest r))) as [Hle|]; [|done]. intros [= <- <-] Hn. cbn.
  rewrite take_drop. split_and!; [done| |done]. unfold len in *. rewrite length_take. lia.
Qed.

Lemma Discard_ok n r r' :
  Discard n r = Ok r' -> 0 <= n -> len (rest r) = n + len (rest r').
Proof.
  unfold Discard. destruct (Z.leb_spec n (len (rest r))); [|done]. intros [= <-] Hn. cbn.
  unfold len in *. rewrite length_drop. lia.
Qed.

(** ** Decoding ends and is safe *)

Ltac wav_bind H :=
  repeat match type of H with
  | result_bind _ _ = Ok _ => apply result_bind_ok in H as ([] & ? & H) || apply result_bind_ok in H as (? & ? & H)
  | annotate _ ?x = Ok _ => destruct x eqn:?; cbn [annotate] in H; [|discriminate H]
  end.

(** Every byte is one. *)
Definition is_bytes (l : list Z) : Prop := Forall (fun b => 0 <= b < 256) l.

Lemma byte_at_range l i : is_bytes l -> 0 <= byte_at l i < 256.
Proof.
  unfold byte_at, is_bytes. intros Hl. destruct (decide (i < length l)%nat) as [Hi|Hi].
  - rewrite Forall_forall in Hl. apply Hl, list_elem_of_In, nth_In. done.
  - rewrite nth_overflow by lia. lia.
Qed.

Lemma Uint16_range l i : is_bytes l -> 0 <= Uint16 l i < 65536.
Proof.
  intros Hl. unfold Uint16. pose proof (byte_at_range l i Hl). pose proof (byte_at_range l (i + 1) Hl). lia.
Qed.

Lemma Uint32_range l i : is_bytes l -> 0 <= Uint32 l i < 2 ^ 32.
Proof.
  intros Hl. unfold Uint32. pose proof (Uint16_range l i Hl). pose proof (Uint16_range l (i + 2) Hl). lia.
Qed.

Lemma is_bytes_reader r buf r' : is_bytes (rest r) -> rest r = buf ++ rest r' -> is_bytes buf /\ is_bytes (rest r').
Proof. intros Hb E. rewrite E in Hb. by apply Forall_app in Hb. Qed.

(** What a decoding has gathered: whole frames in the required format. *)
Section Safety.
Variable expectedSampleRate : Z.

Definition format_ok (f : Format) : Prop :=
  fmt_SampleRate f = expectedSampleRate /\ 1 <= fmt_Channels f < 65536 /\ fmt_BitsPerSample f = 16.

Definition samples_ok (samples : list Z) : Prop := Forall (fun s => -32768 <= s < 32768) samples.

Lemma skip_padding_ok size r r' :
  skip_padding size r = Ok r' -> is_bytes (rest r) -> is_bytes (rest r') /\ (length (rest r') <= length (rest r))%nat.
Proof.
  unfold skip_padding. destruct (Z.odd size); [|intros [= <-]; done].
  destruct (Discard 1 r) as [r1|] eqn:E; [|done]. intros [= <-] Hb. unfold Discard in E.
  destruct (1 <=? _); [|done]. injection E as <-. cbn. split; [by apply Forall_drop|]. rewrite length_drop. lia.
Qed.

Lemma fmt_chunk_ok size r f r' :
  fmt_chunk expectedSampleRate size r = Ok (f, r') -> 0 <= size -> is_bytes (rest r) ->
  format_ok f /\ is_bytes (rest r') /\ (length (rest r') <= length (rest r))%nat.
Proof.
  unfold fmt_chunk. intros H Hs Hb.
  apply result_bind_ok in H as ([buf r1] & E & H). destruct (ReadFull size r) as [[b1 r2]|] eqn:Er; [|done].
  injection E as -> ->. apply ReadFull_ok in Er as (Hr & Hl & _); [|done].
  destruct (is_bytes_reader _ _ _ Hb Hr) as [Hbuf Hb1].
  repeat (apply result_bind_ok in H as ([] & ?Hg%guard_ok & H); bool_to_prop).
  apply result_bind_ok in H as (r3 & Hp & [= <- <-]). apply skip_padding_ok in Hp as [Hb3 Hle]; [|done].
  pose proof (Uint16_range buf 2 Hbuf). split_and!; [unfold format_ok; cbn; lia|done|]. rewrite Hr, length_app. lia.
Qed.

Lemma sample_at_range buf i : is_bytes buf -> -32768 <= sample_at buf i < 32768.
Proof. intros Hb. apply int16_range, Uint16_range, Hb. Qed.

Lemma data_chunk_ok f size r samples r' :
  data_chunk f size r = Ok (samples, r') -> 0 <= size -> is_bytes (rest r) ->
  samples_ok samples /\ is_bytes (rest r') /\ (length (rest r') <= length (rest r))%nat.
Proof.
  unfold data_chunk. intros H Hs Hb. destruct f as [f|]; [|done].
  apply result_bind_ok in H as ([] & Hg%guard_ok & H).
  apply result_bind_ok in H as ([buf r1] & E & H). destruct (ReadFull size r) as [[b1 r2]|] eqn:Er; [|done].
  injection E as -> ->. apply ReadFull_ok in Er as (Hr & Hl & _); [|done].
  destruct (is_bytes_reader _ _ _ Hb Hr) as [Hbuf Hb1].
  apply result_bind_ok in H as (r3 & Hp & [= <- <-]). apply skip_padding_ok in Hp as [Hb3 Hle]; [|done].
  split_and!; [|done|rewrite Hr, length_app; lia].
  apply Forall_map, Forall_forall. intros i _. by apply sample_at_range.
Qed.

Definition decoding_ok (d : decoding) : Prop :=
  (forall f, format d = Some f -> format_ok f) /\ (forall s, data d = Some s -> samples_ok s).

Lemma chunk_ok id size d r d' r' :
  chunk expectedSampleRate id size d r = Ok (d', r') -> 0 <= size -> is_bytes (rest r) -> decoding_ok d ->
  decoding_ok d' /\ is_bytes (rest r') /\ (length (rest r') <= length (rest r))%nat.
Proof.
  unfold chunk. intros H Hs Hb Hd. destruct (bool_decide _).
  { apply result_bind_ok in H as ([f r1] & Hf & [= <- <-]). apply fmt_chunk_ok in Hf as (H1 & H2 & H3); [|done..].
    split; [|done]. split; cbn; [by intros ? [= <-]|apply Hd]. }
  destruct (bool_decide _).
  { apply result_bind_ok in H as ([samples r1] & Hf & [= <- <-]). apply data_chunk_ok in Hf as (H1 & H2 & H3); [|done..].
    split; [|done]. split; cbn; [apply Hd|by intros ? [= <-]]. }
  apply result_bind_ok in H as (r1 & Hf & [= <- <-]). destruct (Discard _ _) as [r2|] eqn:E; [|done].
  injection Hf as ->. split; [done|]. unfold Discard in E. destruct (_ <=? _); [|done]. injection E as <-.
  cbn. split; [by apply Forall_drop|]. rewrite length_drop. lia.
Qed.

Lemma chunks_ok fuel d r :
  (length (rest r) < fuel)%nat -> is_bytes (rest r) -> decoding_ok d ->
  exists res, chunks expectedSampleRate fuel d r = Some res /\ forall d', res = Ok d' -> decoding_ok d'.
Proof.
  revert d r. induction fuel as [|fuel IH]; intros d r Hf Hb Hd; [lia|]. cbn [chunks].
  destruct (ReadFull 8 r) as [[h r1]|e] eqn:Er.
  2: { destruct e; (eexists; split; [done|]); [|done..]. by intros d' [= <-]. }
  apply ReadFull_ok in Er as (Hr & Hl & _); [|done]. destruct (is_bytes_reader _ _ _ Hb Hr) as [Hh Hb1].
  destruct (_ <? _); [by eexists|].
  destruct (chunk _ _ _ _ _) as [[d2 r2]|e] eqn:Ec; [|by eexists].
  apply chunk_ok in Ec as (Hd2 & Hb2 & Hle); [|pose proof (Uint32_range h 4 Hh); lia|done..].
  apply IH; [|done..]. rewrite Hr, length_app in Hf. unfold len in Hl. lia.
Qed.

Lemma read_header_ok r r' :
  read_header r = Ok r' -> is_bytes (rest r) -> is_bytes (rest r').
Proof.
  unfold read_header. intros H Hb. apply result_bind_ok in H as ([h r1] & E & H).
  destruct (ReadFull 12 r) as [[h2 r2]|] eqn:Er; [|done]. injection E as -> ->.
  apply ReadFull_ok in Er as (Hr & _); [|done]. destruct (is_bytes_reader _ _ _ Hb Hr) as [_ Hb1].
  repeat (apply result_bind_ok in H as ([] & ? & H)). by injection H as <-.
Qed.

(** Decoding any bytes at all, cut off or followed by a read error
    anywhere, ends; what it accepts is in the required format with 16-bit
    samples, and every index that [Select] reads in them is in range. *)
Theorem wav_decode_safe bs f :
  is_bytes bs ->
  exists res, Decode expectedSampleRate (mkReader bs f) = Some res /\
  forall d, res = Ok d ->
    format_ok (dec_Format d) /\ samples_ok (dec_Samples d) /\
    forall policy selectChannel out, Select d policy selectChannel = Ok out ->
      len out = FrameCount d /\
      forall i c, 0 <= i < len out -> 0 <= c < fmt_Channels (dec_Format d) ->
        0 <= i * fmt_Channels (dec_Format d) + c < len (dec_Samples d).
Proof.
  intros Hb. unfold Decode. destruct (read_header _) as [r|e] eqn:Eh; [|by eexists].
  apply read_header_ok in Eh; [|done].
  destruct (chunks_ok (S (length (rest r))) (mkDecoding None None) r) as (res & -> & Hres); [lia|done|by split|].
  destruct res as [d|e]; [|by eexists]. destruct (Hres d eq_refl) as [Hf Hs].
  eexists. split; [done|]. intros dec Hfin. unfold finish in Hfin.
  destruct (format d) as [fm|], (data d) as [samples|]; try discriminate. injection Hfin as <-. cbn.
  specialize (Hf _ eq_refl). specialize (Hs _ eq_refl). split_and!; [done..|].
  set (dec := mkDecoded fm samples). destruct Hf as (_ & Hch & _).
  assert (Hfc : FrameCount dec = len samples / fmt_Channels fm).
  { unfold FrameCount. cbn. destruct (Z.eqb_spec (fmt_Channels fm) 0); [lia|].
    apply Z.quot_div_nonneg; [apply len_nonneg|lia]. }
  intros policy sel out Hout.
  assert (Hlen : len out = FrameCount dec).
  { pose proof (Z.div_pos (len samples) (fmt_Channels fm) (len_nonneg _) ltac:(lia)).
    unfold Select in Hout. cbn in Hout. destruct (_ <=? 0); [done|].
    repeat case_inner_in Hout; try discriminate; injection Hout as <-; unfold len at 1;
      rewrite length_map, length_seqZ; lia. }
  split; [done|]. intros i c Hi Hc. rewrite Hlen, Hfc in Hi.
  pose proof (Z.mul_div_le (len samples) (fmt_Channels fm)). nia.
Qed.

End Safety.

(** ** Quantising 16-bit samples *)

(** What becomes of a 16-bit sample: [Select] divides by 32768 and [Encode]
    multiplies by 32767. *)
Definition requantise (z : Z) : Z := if Z.abs z <=? 16384 then z else z - Z.sgn z.

Section Quantising.

Abbreviation round32 := (binary_round 24 128).
Abbreviation round64 := (binary_round 53 1024).

Lemma digits_sample p : Zpos p <= 32768 -> Zpos (digits2_pos p) <= 16.
Proof. intros. apply digits_le; lia. Qed.

(** Dividing by [2^15] subtracts 15 from the exponent. *)
Lemma sample_quotient s p :
  Zpos p <= 32768 -> SFdiv 24 128 (round32 s p 0) (float32_of_Z 32768) = round32 s p (-15).
Proof.
  intros Hp%digits_sample. pose proof (Pos2Z.is_pos (digits2_pos p)).
  rewrite !round_exact by (unfold in_range; lia).
  set (k := 24 - _). set (m := scale p k).
  assert (Hm : Zpos (digits2_pos m) = 24) by (unfold m; rewrite digits_scale; unfold k; lia).
  change (float32_of_Z 32768) with (S754_finite false 8388608 (-8)).
  unfold SFdiv, SFdiv_core_binary. cbn [Zdigits2]. rewrite Hm. change (Zpos (digits2_pos 8388608)) with 24.
  replace (fexp 24 128 (24 + (0 - k) - (24 + -8))) with (-16 - k) by (unfold fexp, emin; lia).
  replace (Z.min (-16 - k) (0 - k - -8)) with (-16 - k) by lia.
  replace (0 - k - -8 - (-16 - k)) with 24 by lia.
  rewrite Z.shiftl_mul_pow2 by lia.
  assert (E : Z.div_eucl (Zpos m * 2 ^ 24) 8388608 = (Zpos (xO m), 0)).
  { pose proof (Z_div_mod (Zpos m * 2 ^ 24) 8388608 ltac:(lia)) as Hd. destruct (Z.div_eucl _ _) as [q r].
    f_equal; lia. }
  rewrite E. unfold new_location, new_location_even. cbn [Z.even Z.eqb].
  rewrite aux_round by (rewrite digits_xO, Hm; lia). rewrite xorb_false_r.
  replace (-16 - k) with (-15 - k - 1) by lia. rewrite round_double.
  unfold m. rewrite round_scale by (unfold k; lia). rewrite round_exact by (unfold in_range; lia). reflexivity.
Qed.

Lemma widen s p e :
  in_range 24 128 p e -> float64_of_float32 (round32 s p e) = round64 s p e.
Proof.
  intros [Hd He]. rewrite (round_exact 24 128) by (done || lia). unfold float64_of_float32, convert.
  set (k := 24 - _). transitivity (round64 s (scale p k) (e - k)); [by destruct s|]. apply round_scale. unfold k. lia.
Qed.

Lemma convert_int s p : Zpos p <= 32768 -> float32_of_Z (if s : bool then Zneg p else Zpos p) = round32 s p 0.
Proof. by destruct s. Qed.

(** The product with 32767 has [15 <= d <= 30] digits. *)
Lemma digits_product p :
  Zpos p <= 32768 -> 15 <= Zpos (digits2_pos (p * 32767)) <= 30.
Proof.
  intros Hp. split; [|apply digits_le; lia].
  assert (H : 14 < Zpos (digits2_pos (p * 32767))); [|lia]. apply (Z.pow_lt_mono_r_iff 2); [lia|lia|].
  eapply Z.le_lt_trans; [|apply digits_bounds]. lia.
Qed.

Section Scaled.
Variables (s : bool) (p : positive).
Hypothesis Hp : Zpos p <= 32768.
Let j := 53 - Zpos (digits2_pos (p * 32767)).
Let v := S754_finite s (scale (p * 32767) j) (-15 - j).

Lemma scaled_bounds : 23 <= j <= 38.
Proof. pose proof (digits_product p Hp). unfold j. lia. Qed.

Lemma scaled_product :
  SFmul 53 1024 (float64_of_float32 (round32 s p (-15))) (float64_of_Z 32767) = v.
Proof.
  pose proof (digits_sample p Hp). pose proof (digits_product p Hp). pose proof (Pos2Z.is_pos (digits2_pos p)).
  rewrite widen by (unfold in_range; lia).
  change (float64_of_Z 32767) with (round64 false 32767 0).
  rewrite mul_exact by (unfold in_range; try change (Zpos (digits2_pos 32767)) with 15; lia).
  rewrite round_exact by (unfold in_range; lia). by rewrite xorb_false_r.
Qed.

Lemma scaled_low : SFltb (float64_of_Z 32767) v = false.
Proof.
  pose proof scaled_bounds. unfold v, SFltb.
  change (float64_of_Z 32767) with (S754_finite false (scale 32767 38) (-38)). destruct s; [done|]. cbn [SFcompare].
  destruct (Z.compare_spec (-38) (-15 - j)) as [E|E|E]; [|lia|done].
  change (Pos.compare_cont Eq ?a ?b) with (Pos.compare a b).
  destruct (Pos.compare_spec (scale 32767 38) (scale (p * 32767) j)) as [?|Hlt|?]; [done| |done].
  exfalso. apply Pos2Z.pos_lt_pos in Hlt. rewrite !scale_spec in Hlt by lia.
  replace j with 23 in Hlt by lia. rewrite Pos2Z.inj_mul in Hlt. lia.
Qed.

Lemma scaled_high : SFltb v (float64_of_Z (-32768)) = false.
Proof.
  pose proof scaled_bounds. unfold v, SFltb.
  change (float64_of_Z (-32768)) with (S754_finite true 4503599627370496 (-37)). destruct s; [|done]. cbn [SFcompare].
  destruct (Z.compare_spec (-15 - j) (-37)) as [E|E|E]; [lia|done|lia].
Qed.

Lemma scaled_round :
  Round v = Some (if s then - ((Zpos p * 32767 + 16384) / 32768) else (Zpos p * 32767 + 16384) / 32768).
Proof.
  pose proof scaled_bounds. unfold v, Round, round_magnitude.
  destruct (Z.leb_spec 0 (-15 - j)); [lia|].
  assert (E : Z.shiftr (Zpos (scale (p * 32767) j) + Z.shiftl 1 (- (-15 - j) - 1)) (- (-15 - j)) =
    (Zpos p * 32767 + 16384) / 32768).
  { rewrite Z.shiftr_div_pow2, Z.shiftl_mul_pow2, scale_spec by lia.
    replace (- (-15 - j) - 1) with (14 + j) by lia. replace (- (-15 - j)) with (15 + j) by lia.
    rewrite !Z.pow_add_r, Pos2Z.inj_mul by lia. change (2 ^ 14) with 16384. change (2 ^ 15) with 32768.
    replace (Zpos p * 32767 * 2 ^ j + 1 * (16384 * 2 ^ j)) with ((Zpos p * 32767 + 16384) * 2 ^ j) by lia.
    apply Z.div_mul_cancel_r; [lia|]. apply Z.pow_nonzero; lia. }
  by rewrite E.
Qed.

End Scaled.

(** Sixteen-bit samples through [Select] and [Encode]: up to half of full
    scale a sample comes back as itself, and above as its neighbour towards
    zero. *)
Lemma sample_requantised int16_of_NaN z :
  -32768 <= z <= 32767 -> floatToInt16 int16_of_NaN (int16ToFloat32 z) = requantise z.
Proof.
  intros Hz. assert (Hcase : z = 0 \/ exists (s : bool) p, z = (if s then Zneg p else Zpos p) /\ Zpos p <= 32768).
  { destruct z as [|p|p]; [by left|right; exists false, p|right; exists true, p]; (split; [done|lia]). }
  destruct Hcase as [->|(s & p & -> & Hp)]; [reflexivity|].
  unfold int16ToFloat32. rewrite convert_int, sample_quotient by done. unfold floatToInt16.
  rewrite scaled_product, scaled_low by done. cbv zeta. rewrite scaled_high, scaled_round by done. cbn [default].
  assert (E : (Zpos p * 32767 + 16384) / 32768 = if Zpos p <=? 16384 then Zpos p else Zpos p - 1).
  { destruct (Z.leb_spec (Zpos p) 16384); symmetry; [apply (Z.div_unique _ _ _ (16384 - Zpos p))|apply (Z.div_unique _ _ _ (49152 - Zpos p))]; lia. }
  rewrite E. unfold requantise, id, Z.abs, Z.sgn. destruct s;
    (rewrite int16_uint16; [|destruct (Z.leb_spec (Zpos p) 16384); lia]);
    destruct (Zpos p <=? 16384); lia.
Qed.

End Quantising.

(** ** The round trip *)

Section RoundTrip.
Variable int16_of_NaN : Z.
Abbreviation quantised := (floatToInt16 int16_of_NaN).

Lemma quantised_range f : -32768 <= quantised f < 32768.
Proof. apply int16_range. unfold uint16. apply Z.mod_pos_bound. lia. Qed.

Definition encoded (ss : list float32) : list Z := concat (map (fun s => AppendUint16 (uint16 (quantised s))) ss).

Lemma len_encoded ss : len (encoded ss) = len ss * 2.
Proof. unfold encoded. induction ss as [|s ss IH]; [done|]. cbn [map concat]. autorewrite with golen. lia. Qed.

Lemma sample_at_encoded ss i :
  (i < length ss)%nat -> Some (sample_at (encoded ss) i) = quantised <$> ss !! i.
Proof.
  revert i. induction ss as [|s ss IH]; intros i Hi; cbn [length] in Hi; [lia|].
  unfold encoded, sample_at. cbn [map concat]. fold (encoded ss). destruct i as [|i].
  - cbn [Nat.mul]. rewrite Uint16_Append. unfold uint16 at 1. rewrite Z.mod_mod by lia.
    fold (uint16 (quantised s)). rewrite int16_uint16 by apply quantised_range. done.
  - replace (2 * S i)%nat with (S (S (2 * i))) by lia.
    change (AppendUint16 ?z ++ ?l) with (z mod 256 :: z / 256 mod 256 :: l).
    rewrite Uint16_skip. apply IH. lia.
Qed.

Lemma samples_encoded ss :
  map (sample_at (encoded ss)) (seq 0 (Z.to_nat (Z.quot (len ss * 2) 2))) = map quantised ss.
Proof.
  pose proof (len_nonneg ss).
  rewrite Z.quot_mul by lia. unfold len. rewrite Nat2Z.id. apply list_eq. intros i.
  change (map ?f ?l) with (f <$> l). rewrite !list_lookup_fmap.
  destruct (decide (i < length ss)%nat) as [Hi|Hi].
  - rewrite lookup_seq_lt by done. cbn. by apply sample_at_encoded.
  - rewrite lookup_seq_ge by lia. rewrite lookup_ge_None_2 by lia. done.
Qed.

Lemma fmt_chunk_encoded expected rate l f :
  0 < rate < 2 ^ 32 ->
  fmt_chunk expected 16 (mkReader (AppendUint16 1 ++ AppendUint16 1 ++ AppendUint32 rate ++
    AppendUint32 (uint32 (rate * 2)) ++ AppendUint16 2 ++ AppendUint16 16 ++ l) f) =
  if rate =? expected then Ok (mkFormat rate 1 16, mkReader l f) else Err (ErrRate rate).
Proof.
  intros Hr. unfold fmt_chunk. rewrite !app_assoc.
  rewrite ReadFull_app by reflexivity. cbn [annotate result_bind].
  rewrite <- !app_assoc.
  assert (E : Uint32 (AppendUint16 1 ++ AppendUint16 1 ++ AppendUint32 rate ++
    AppendUint32 (uint32 (rate * 2)) ++ AppendUint16 2 ++ AppendUint16 16) 4 = rate).
  { transitivity (Uint32 (AppendUint32 rate ++ AppendUint32 (uint32 (rate * 2)) ++ AppendUint16 2 ++ AppendUint16 16) 0);
      [reflexivity|]. rewrite Uint32_Append. unfold uint32. apply Z.mod_small. lia. }
  rewrite E. by destruct (rate =? expected).
Qed.

Lemma data_chunk_encoded rate ss f :
  data_chunk (Some (mkFormat rate 1 16)) (len ss * 2) (mkReader (encoded ss) f) =
  Ok (map quantised ss, mkReader [] f).
Proof.
  unfold data_chunk. cbn [fmt_Channels]. change (1 * 2) with 2.
  pose proof (len_nonneg ss).
  rewrite Z.rem_mul by lia. cbn [Z.eqb negb orb guard result_bind].
  rewrite <- (app_nil_r (encoded ss)) at 1. rewrite ReadFull_app by apply len_encoded. cbn [annotate result_bind].
  rewrite samples_encoded. unfold skip_padding. rewrite Z.odd_mul, andb_false_r. done.
Qed.

Lemma read_header_encoded z l f :
  read_header (mkReader (bytes "RIFF" ++ AppendUint32 z ++ bytes "WAVE" ++ l) f) = Ok (mkReader l f).
Proof.
  unfold read_header. rewrite !app_assoc. rewrite ReadFull_app by reflexivity. reflexivity.
Qed.

Lemma chunks_cons expected fuel d id size l f :
  len (bytes id) = 4 -> 0 <= size <= maxChunkBytes ->
  chunks expected (S fuel) d (mkReader (bytes id ++ AppendUint32 size ++ l) f) =
  match chunk expected (bytes id) size d (mkReader l f) with
  | Ok (d, r) => chunks expected fuel d r
  | Err e => Some (Err e)
  end.
Proof.
  intros Hid Hs. unfold maxChunkBytes in Hs. cbn [chunks]. rewrite app_assoc.
  rewrite ReadFull_app by (rewrite len_app, Hid; reflexivity).
  rewrite take_app_length' by (unfold len in Hid; lia).
  assert (E : Uint32 (bytes id ++ AppendUint32 size) 4 = size).
  { unfold len in Hid. destruct (bytes id) as [|a [|b [|c [|e [|g i]]]]]; cbn [length] in Hid; try lia.
    transitivity (Uint32 (AppendUint32 size ++ []) 0); [reflexivity|]. rewrite Uint32_Append.
    unfold uint32. apply Z.mod_small. lia. }
  rewrite E. destruct (Z.ltb_spec maxChunkBytes size); [unfold maxChunkBytes in *; lia|done].
Qed.

(** The file of the samples [ss]. *)
Definition canonical_file (rate : Z) (ss : list float32) : list Z :=
  bytes "RIFF" ++ AppendUint32 (uint32 (36 + len ss * 2)) ++ bytes "WAVE" ++ bytes "fmt " ++ AppendUint32 16 ++
  AppendUint16 1 ++ AppendUint16 1 ++ AppendUint32 rate ++ AppendUint32 (uint32 (rate * 2)) ++
  AppendUint16 2 ++ AppendUint16 16 ++ bytes "data" ++ AppendUint32 (len ss * 2) ++ encoded ss.

Lemma Encode_canonical ss rate :
  0 < rate < 2 ^ 32 -> len ss * 2 <= maxChunkBytes ->
  Encode int16_of_NaN ss rate = Some (canonical_file rate ss).
Proof.
  intros Hr Hl. pose proof (len_nonneg ss). unfold maxChunkBytes in Hl.
  unfold Encode. destruct (Z.leb_spec rate 0); [lia|].
  replace (uint32 (len ss * 2)) with (len ss * 2) by (unfold uint32; rewrite Z.mod_small; lia).
  replace (uint32 rate) with rate by (unfold uint32; rewrite Z.mod_small; lia).
  replace (Z.quot (rate * 1 * 16) 8) with (rate * 2)
    by (replace (rate * 1 * 16) with (rate * 2 * 8) by lia; rewrite Z.quot_mul; lia).
  reflexivity.
Qed.

Lemma Decode_canonical expected ss rate :
  0 < rate < 2 ^ 32 -> len ss * 2 <= maxChunkBytes ->
  Decode expected (mkReader (canonical_file rate ss) None) =
  Some (if rate =? expected then Ok (mkDecoded (mkFormat rate 1 16) (map quantised ss)) else Err (ErrRate rate)).
Proof.
  intros Hr Hl. pose proof (len_nonneg ss). unfold Decode, canonical_file. rewrite read_header_encoded. cbn [rest].
  set (n := length _). assert (Hn : (2 <= n)%nat).
  { unfold n. rewrite length_app. change (length (bytes "fmt ")) with 4%nat. lia. }
  clearbody n. destruct n as [|[|n]]; [lia|lia|].
  rewrite chunks_cons by (try done; unfold maxChunkBytes in *; lia).
  unfold chunk at 1. rewrite bool_decide_true by done. rewrite fmt_chunk_encoded by done.
  destruct (rate =? expected); [|done]. cbn [result_bind].
  rewrite chunks_cons by (try done; unfold maxChunkBytes in *; lia).
  unfold chunk at 1. rewrite bool_decide_false by done. rewrite bool_decide_true by done.
  cbn [format]. rewrite data_chunk_encoded. reflexivity.
Qed.

(** What [Encode] writes [Decode] reads back: for at most 2^30 samples and
    any rate of 32 bits the file has 44 bytes of header and two for every
    sample, and decodes at that rate, and at no other, to one channel with the
    quantised samples in order; samples that [Select] took from a 16-bit file
    come back as they were up to half of full scale, and as their neighbours
    towards zero above. *)
Theorem wav_roundtrip ss rate :
  0 < rate < 2 ^ 32 -> len ss * 2 <= maxChunkBytes ->
  exists bs, Encode int16_of_NaN ss rate = Some bs /\ len bs = 44 + 2 * len ss /\
    Decode rate (mkReader bs None) = Some (Ok (mkDecoded (mkFormat rate 1 16) (map quantised ss))) /\
    (forall other, other <> rate -> Decode other (mkReader bs None) = Some (Err (ErrRate rate))) /\
    forall zs, samples_ok zs -> ss = map int16ToFloat32 zs -> map quantised ss = map requantise zs.
Proof.
  intros Hr Hl. exists (canonical_file rate ss). rewrite Encode_canonical by done. split_and!; [done| | | |].
  - unfold canonical_file. autorewrite with golen. rewrite len_encoded. change (len (bytes _)) with 4. lia.
  - by rewrite Decode_canonical, Z.eqb_refl.
  - intros other Hne. rewrite Decode_canonical by done. by destruct (Z.eqb_spec rate other).
  - intros zs Hz ->. rewrite map_map. apply map_ext_in. intros z Hin%list_elem_of_In. unfold samples_ok in Hz.
    rewrite Forall_forall in Hz. specialize (Hz z Hin). apply sample_requantised. lia.
Qed.

End RoundTrip.

(** ** Concrete files *)

Example clipped :
  map (floatToInt16 7) [S754_infinity false; S754_infinity true; S754_nan; float32_of_Z 2; float32_of_Z (-2)] =
  [32767; -32768; 7; 32767; -32768].
Proof. vm_compute. reflexivity. Qed.

(** Two channels, averaged; a list chunk of odd size is skipped. *)
Definition stereo : list Z :=
  bytes "RIFF" ++ AppendUint32 60 ++ bytes "WAVE" ++ bytes "LIST" ++ AppendUint32 3 ++ [1; 2; 3; 0] ++
  bytes "fmt " ++ AppendUint32 16 ++ AppendUint16 1 ++ AppendUint16 2 ++ AppendUint32 16000 ++
  AppendUint32 64000 ++ AppendUint16 4 ++ AppendUint16 16 ++
  bytes "data" ++ AppendUint32 8 ++ AppendUint16 16384 ++ AppendUint16 0 ++ AppendUint16 65535 ++ AppendUint16 65533.

Example stereo_decoded :
  Decode 16000 (mkReader stereo None) = Some (Ok (mkDecoded (mkFormat 16000 2 16) [16384; 0; -1; -3])).
Proof. vm_compute. reflexivity. Qed.

Example stereo_averaged :
  Select (mkDecoded (mkFormat 16000 2 16) [16384; 0; -1; -3]) "average" 0 =
  Ok [SFdiv 24 128 (float32_of_Z 1) (float32_of_Z 4); int16ToFloat32 (-2)].
Proof. vm_compute. reflexivity. Qed.

(** The data chunk cut off, and a read that fails. *)
Example stereo_truncated :
  Decode 16000 (mkReader (take 58 stereo) None) = Some (Err (ErrDataRead 8 ErrUnexpectedEOF)) /\
  Decode 16000 (mkReader (take 58 stereo) (Some "disk"%string)) = Some (Err (ErrDataRead 8 (ErrRead "disk"))).
Proof. split; vm_compute; reflexivity. Qed.

Lemma wav_decode_safe_witness :
  exists res, Decode 16000 (mkReader stereo None) = Some res /\
  forall d, res = Ok d ->
    format_ok 16000 (dec_Format d) /\ samples_ok (dec_Samples d) /\
    forall policy selectChannel out, Select d policy selectChannel = Ok out ->
      len out = FrameCount d /\
      forall i c, 0 <= i < len out -> 0 <= c < fmt_Channels (dec_Format d) ->
        0 <= i * fmt_Channels (dec_Format d) + c < len (dec_Samples d).
Proof. apply wav_decode_safe. unfold is_bytes. apply (bool_decide_unpack _). vm_compute. exact I. Defined.

Lemma wav_roundtrip_witness :
  exists bs, Encode 0 (map int16ToFloat32 [1; -2; 20000]) 16000 = Some bs /\ len bs = 50 /\
    Decode 16000 (mkReader bs None) = Some (Ok (mkDecoded (mkFormat 16000 1 16) [1; -2; 19999])) /\
    (forall other, other <> 16000 -> Decode other (mkReader bs None) = Some (Err (ErrRate 16000))) /\
    forall zs, samples_ok zs -> map int16ToFloat32 [1; -2; 20000] = map int16ToFloat32 zs ->
      map (floatToInt16 0) (map int16ToFloat32 [1; -2; 20000]) = map requantise zs.
Proof.
  apply (wav_roundtrip 0 (map int16ToFloat32 [1; -2; 20000]) 16000); [lia|].
  vm_compute. discriminate.
Defined.
