(* ===== verification/Annotation.v ===== *)
(** The reference speech of the detector evaluation,
    [cmd/whisper-cpp-streaming/ami-eval/internal/annotation/annotation.go].

    [ParseParticipant] reads the tokens of one participant's word annotations,
    [BuildReference] merges the words of all participants into intervals of
    samples.  [BuildReference_exact] says which samples these cover: those of a
    word and those of a gap of at most 300 ms between two words, whatever the
    order of the participants and of their words. *)

From stdpp Require Import base list list_numbers strings gmap sorting.
From Stdlib Require Import ZArith Lia SpecFloat Sorting.Sorted.
From S2P Require Import GoInt Streaming.

Local Open Scope Z_scope.

(** ** Floating point *)

(** [math.Floor] of a finite number, as an integer. *)
Definition Floor (x : float64) : option Z :=
  match x with
  | S754_zero _ => Some 0
  | S754_finite s m e => Some (Z.shiftl (if s then Zneg m else Zpos m) e)
  | _ => None
  end.

Definition isFinite (x : float64) : bool := match x with S754_nan | S754_infinity _ => false | _ => true end.

Definition float_zero : float64 := S754_zero false.

(** One half is [2^52 * 2^-53]. *)
Definition float_half : float64 := S754_finite false 4503599627370496 (-53).

(** ** Data *)

Record RawInterval := mkRaw { StartSeconds : float64; EndSeconds : float64 }.

Record Counters := mkCounters {
  IgnoredMarkup : Z; IgnoredUnknown : Z; IgnoredUntimed : Z; IgnoredZeroDuration : Z;
  ClampedStart : Z; ClampedEnd : Z; ClampedEmpty : Z }.

Definition no_counters : Counters := mkCounters 0 0 0 0 0 0 0.

Record Interval := mkInterval { Start : Z; End_ : Z }.
#[global] Instance interval_eq : EqDecision Interval.
Proof. solve_decision. Defined.

Record ParticipantIntervals := mkParticipant { ParticipantID : string; Raw : list RawInterval }.

Record Reference := mkReference {
  SourceSHA256 : gmap string string;
  ref_Counters : Counters;
  DurationSamples : Z;
  MergeGapSamples : Z;
  ref_SampleRate : Z;
  Intervals : list Interval }.

Definition MergeGapMillis : Z := 300.
Definition EndOverrunFatalMillis : Z := 1000.

(** ** Parsing *)

(** What the decoder of [encoding/xml] returns: start elements with the local
    names of their attributes, and other tokens. *)
Inductive xml_token :=
| StartElement (name : string) (attrs : list (string * string))
| OtherToken.

Inductive parse_error :=
| ErrToken (msg : string)
| ErrTime (starttime endtime : string)
| ErrNegative
| ErrReversed.

Section Parsing.
(** [strconv.ParseFloat]. *)
Variable ParseFloat : string -> option float64.

Fixpoint findAttr (attrs : list (string * string)) (local : string) : option string :=
  match attrs with
  | [] => None
  | (name, value) :: attrs => if (name =? local)%string then Some value else findAttr attrs local
  end.

Definition count_markup (c : Counters) : Counters :=
  mkCounters (IgnoredMarkup c + 1) (IgnoredUnknown c) (IgnoredUntimed c) (IgnoredZeroDuration c) (ClampedStart c) (ClampedEnd c) (ClampedEmpty c).
Definition count_unknown (c : Counters) : Counters :=
  mkCounters (IgnoredMarkup c) (IgnoredUnknown c + 1) (IgnoredUntimed c) (IgnoredZeroDuration c) (ClampedStart c) (ClampedEnd c) (ClampedEmpty c).
Definition count_untimed (c : Counters) : Counters :=
  mkCounters (IgnoredMarkup c) (IgnoredUnknown c) (IgnoredUntimed c + 1) (IgnoredZeroDuration c) (ClampedStart c) (ClampedEnd c) (ClampedEmpty c).
Definition count_zero (c : Counters) : Counters :=
  mkCounters (IgnoredMarkup c) (IgnoredUnknown c) (IgnoredUntimed c) (IgnoredZeroDuration c + 1) (ClampedStart c) (ClampedEnd c) (ClampedEmpty c).
Definition count_clamped (start end_ empty : Z) (c : Counters) : Counters :=
  mkCounters (IgnoredMarkup c) (IgnoredUnknown c) (IgnoredUntimed c) (IgnoredZeroDuration c)
    (ClampedStart c + start) (ClampedEnd c + end_) (ClampedEmpty c + empty).

(** A [<w>] element with both of its times. *)
Definition timed_word (startAttr endAttr : string) (out : list RawInterval) (c : Counters)
  : result parse_error (list RawInterval * Counters) :=
  match ParseFloat startAttr, ParseFloat endAttr with
  | Some startSec, Some endSec =>
      if negb (isFinite startSec) || negb (isFinite endSec) then Err (ErrTime startAttr endAttr)
      else if SFltb startSec float_zero || SFltb endSec float_zero then Err ErrNegative
      else if SFltb endSec startSec then Err ErrReversed
      else if SFeqb endSec startSec then Ok (out, count_zero c)
      else Ok (out ++ [mkRaw startSec endSec], c)
  | _, _ => Err (ErrTime startAttr endAttr)
  end.

Definition parse_element (name : string) (attrs : list (string * string)) (out : list RawInterval) (c : Counters)
  : result parse_error (list RawInterval * Counters) :=
  if (name =? "root")%string then Ok (out, c)
  else if (name =? "w")%string then
    match findAttr attrs "starttime", findAttr attrs "endtime" with
    | Some startAttr, Some endAttr => timed_word startAttr endAttr out c
    | _, _ => Ok (out, count_untimed c)
    end
  else if bool_decide (name ∈ ["vocalsound"; "disfmarker"; "gap"]%string) then Ok (out, count_markup c)
  else Ok (out, count_unknown c).

(** The loop over the tokens up to the end of the file or the decoder's error. *)
Fixpoint parse_tokens (tokens : list xml_token) (failure : option string) (out : list RawInterval) (c : Counters)
  : result parse_error (list RawInterval * Counters) :=
  match tokens with
  | [] => match failure with None => Ok (out, c) | Some msg => Err (ErrToken msg) end
  | OtherToken :: tokens => parse_tokens tokens failure out c
  | StartElement name attrs :: tokens =>
      match parse_element name attrs out c with
      | Ok (out, c) => parse_tokens tokens failure out c
      | Err e => Err e
      end
  end.

Definition ParseParticipant (tokens : list xml_token) (failure : option string)
  : result parse_error (list RawInterval * Counters) :=
  parse_tokens tokens failure [] no_counters.

End Parsing.

(** ** Merging *)

Section Merging.
(** What the processor converts a number outside the 64-bit range to. *)
Variable int64_outside : float64 -> Z.

Definition int64_of_float (x : float64) : Z :=
  match Floor x with
  | Some z => if bool_decide (int64_min <= z <= int64_max) then z else wrap64 (int64_outside x)
  | None => wrap64 (int64_outside x)
  end.

(** The product is rounded before the half is added; Go may fuse the two on a
    processor that can. *)
Definition secondsToSamples (seconds : float64) (sampleRate : Z) : Z :=
  int64_of_float (SFadd 53 1024 (SFmul 53 1024 seconds (float64_of_Z sampleRate)) float_half).

Section Build.
Variable audioSamples sampleRate : Z.

Definition fatalOverrun : Z := Z.quot (wrap64 (sampleRate * EndOverrunFatalMillis)) 1000.
Definition mergeGap : Z := Z.quot (wrap64 (sampleRate * MergeGapMillis)) 1000.

(** One word: its interval within the audio, if any is left, and what was
    clamped.  [None] is the fatal overrun. *)
Definition clamp_word (raw : RawInterval) : option (option Interval * (Counters -> Counters)) :=
  let start := secondsToSamples (StartSeconds raw) sampleRate in
  let end_ := secondsToSamples (EndSeconds raw) sampleRate in
  if (audioSamples <? end_) && (fatalOverrun <? wrap64 (end_ - audioSamples)) then None
  else
    let ce := if audioSamples <? end_ then 1 else 0 in
    let end_ := if audioSamples <? end_ then audioSamples else end_ in
    let cs := if audioSamples <? start then 1 else 0 in
    let start := if audioSamples <? start then audioSamples else start in
    let cs := if start <? 0 then cs + 1 else cs in
    let start := if start <? 0 then 0 else start in
    if end_ <=? start then Some (None, count_clamped cs ce 1)
    else Some (Some (mkInterval start end_), count_clamped cs ce 0).

Inductive build_error := ErrOverrun (participant : string).

Fixpoint clamp_words (id : string) (raws : list RawInterval) (acc : Counters * list Interval)
  : result build_error (Counters * list Interval) :=
  match raws with
  | [] => Ok acc
  | raw :: raws =>
      match clamp_word raw with
      | None => Err (ErrOverrun id)
      | Some (w, count) => clamp_words id raws (count (fst acc), snd acc ++ option_list w)
      end
  end.

Fixpoint clamp_participants (ps : list ParticipantIntervals) (acc : Counters * list Interval)
  : result build_error (Counters * list Interval) :=
  match ps with
  | [] => Ok acc
  | p :: ps =>
      match clamp_words (ParticipantID p) (Raw p) acc with
      | Ok acc => clamp_participants ps acc
      | Err e => Err e
      end
  end.

(** The comparison of [sort.Slice].  Intervals that it does not separate are
    equal, so that its result is the one sorted permutation. *)
Definition interval_less (a b : Interval) : bool :=
  if negb (Start a =? Start b) then Start a <? Start b else End_ a <? End_ b.

Fixpoint insert_interval (a : Interval) (l : list Interval) : list Interval :=
  match l with
  | [] => [a]
  | b :: rest => if interval_less b a then b :: insert_interval a rest else a :: l
  end.

Definition sort_intervals (l : list Interval) : list Interval := foldr insert_interval [] l.

Variable maxGap : Z.

(** [last] is the last of the intervals merged so far. *)
Fixpoint merge_loop (last : Interval) (sorted : list Interval) : list Interval :=
  match sorted with
  | [] => [last]
  | iv :: sorted =>
      if Start iv <=? wrap64 (End_ last + maxGap)
      then merge_loop (mkInterval (Start last) (if End_ last <? End_ iv then End_ iv else End_ last)) sorted
      else last :: merge_loop iv sorted
  end.

Definition mergeIntervals (sorted : list Interval) : list Interval :=
  match sorted with
  | [] => []
  | iv :: sorted => merge_loop iv sorted
  end.

End Build.

Definition BuildReference (participants : list ParticipantIntervals) (sourceSHA256 : gmap string string)
    (audioSamples sampleRate : Z) : result build_error Reference :=
  match clamp_participants audioSamples sampleRate participants (no_counters, []) with
  | Err e => Err e
  | Ok (cnts, flat) =>
      Ok (mkReference sourceSHA256 cnts audioSamples (mergeGap sampleRate) sampleRate
            (mergeIntervals (mergeGap sampleRate) (sort_intervals flat)))
  end.

End Merging.

(** ** Covered samples *)

(** [t] lies in one of the intervals. *)
Definition covered (l : list Interval) (t : Z) : Prop := exists w, w ∈ l /\ Start w <= t < End_ w.

(** [t] lies in a word, or between two words at most [gap] samples apart. *)
Definition spoken (gap : Z) (ws : list Interval) (t : Z) : Prop :=
  covered ws t \/ exists u v, u ∈ ws /\ v ∈ ws /\ End_ u <= t < Start v /\ Start v <= End_ u + gap.

(** Intervals in order, more than [gap] apart. *)
Definition apart (gap : Z) : Interval -> Interval -> Prop := fun a b => End_ a + gap < Start b.
Definition separated (gap : Z) (l : list Interval) : Prop := StronglySorted (apart gap) l.

Definition starts_sorted (l : list Interval) : Prop := StronglySorted (fun a b => Start a <= Start b) l.

Definition within (audio : Z) (w : Interval) : Prop := 0 <= Start w < End_ w /\ End_ w <= audio.

#[global] Instance covered_perm : Proper ((≡ₚ) ==> (=) ==> iff) covered.
Proof. intros l l' Hl t t' <-. unfold covered. by setoid_rewrite Hl. Qed.

#[global] Instance spoken_perm gap : Proper ((≡ₚ) ==> (=) ==> iff) (spoken gap).
Proof. intros l l' Hl t t' <-. unfold spoken. by setoid_rewrite Hl. Qed.

Lemma covered_cons w l t : covered (w :: l) t <-> Start w <= t < End_ w \/ covered l t.
Proof.
  unfold covered. split.
  - intros (x & Hx & Ht). apply elem_of_cons in Hx as [->|Hx]; [by left|right; eauto].
  - intros [Ht|(x & Hx & Ht)]; eexists; (split; [|exact Ht]); [by left|by right].
Qed.

Section MergeSpec.
Variables audio gap : Z.
Hypothesis Hgap : 0 <= gap.
Hypothesis Hfit : audio + gap <= int64_max.

Lemma wrap_end w : within audio w -> wrap64 (End_ w + gap) = End_ w + gap.
Proof. intros [? ?]. apply wrap64_id. unfold in_int64, int64_min. lia. Qed.

(** Merging a word into an interval that it overlaps or nearly reaches. *)
Lemma spoken_merge a b l t :
  within audio a -> within audio b -> Start a <= Start b -> Start b <= End_ a + gap ->
  Forall (fun w => within audio w /\ Start b <= Start w) l ->
  spoken gap (mkInterval (Start a) (Z.max (End_ a) (End_ b)) :: l) t <-> spoken gap (a :: b :: l) t.
Proof.
  intros [Ha _] [Hb _] Hab Hnear Hl. set (m := mkInterval _ _). rewrite Forall_forall in Hl.
  assert (Hin : forall w, w ∈ l -> Start w < End_ w /\ Start b <= Start w) by (intros w Hw; apply Hl in Hw as [[? ?] ?]; lia).
  assert (Hm : forall t, covered (m :: l) t \/ covered (a :: b :: l) t -> spoken gap (a :: b :: l) t /\ spoken gap (m :: l) t).
  { intros x Hx. unfold spoken. rewrite !covered_cons in *. unfold m in *. cbn [Start End_] in *.
    destruct Hx as [[Hx|Hx]|[Hx|[Hx|Hx]]]; try (split; left; tauto || lia); try (split; left; [|left]; lia).
    split; [|left; lia].
    destruct (decide (x < End_ a)); [left; lia|]. destruct (decide (Start b <= x)); [left; lia|].
    right. exists a, b. split_and!; try lia; [by left|by right; left]. }
  split; (intros [Hc|(u & v & Hu & Hv & Ht & Hd)]; [by apply Hm; auto|]).
  - apply elem_of_cons in Hv as [->|Hv].
    { change (Start m) with (Start a) in *.
      apply elem_of_cons in Hu as [->|Hu]; [cbn in *; lia|]. specialize (Hin u Hu). lia. }
    assert (Hv' : v ∈ a :: b :: l) by (by right; right).
    apply elem_of_cons in Hu as [->|Hu]; [|right; exists u, v; split_and!; [by right; right|done|lia..]].
    change (End_ m) with (Z.max (End_ a) (End_ b)) in *. destruct (Z.max_spec (End_ a) (End_ b)) as [[? E]|[? E]]; rewrite E in *;
      right; [exists b, v|exists a, v]; (split_and!; [|done|lia..]); [by right; left|by left].
  - assert (Hu' : End_ u <= t) by lia.
    assert (Hcase : u = a \/ u = b \/ u ∈ l) by (rewrite !elem_of_cons in Hu; tauto).
    assert (Hv' : v = a \/ v = b \/ v ∈ l) by (rewrite !elem_of_cons in Hv; tauto).
    assert (Hau : Start a < End_ u) by (destruct Hcase as [->|[->|H%Hin]]; lia).
    destruct (decide (t < End_ m)) as [Hlt|Hge].
    { left. exists m. split; [by left|]. change (Start m) with (Start a). lia. }
    change (End_ m) with (Z.max (End_ a) (End_ b)) in *. destruct Hv' as [->|[->|Hv']]; [lia|lia|].
    right. destruct Hcase as [->|[->|Hul]].
    + exists m, v. split_and!; [by left|by right|cbn; lia..].
    + exists m, v. split_and!; [by left|by right|cbn; lia..].
    + exists u, v. split_and!; [by right|by right|lia..].
Qed.

Lemma spoken_apart a b l t :
  within audio a -> End_ a + gap < Start b -> Forall (fun w => within audio w /\ Start b <= Start w) (b :: l) ->
  spoken gap (a :: b :: l) t <-> Start a <= t < End_ a \/ spoken gap (b :: l) t.
Proof.
  intros [Ha _] Hab Hl. rewrite Forall_forall in Hl.
  assert (Hin : forall w, w ∈ b :: l -> Start w < End_ w /\ Start b <= Start w) by (intros w Hw; apply Hl in Hw as [[? ?] ?]; lia).
  unfold spoken at 1. rewrite covered_cons. split.
  - intros [[Ht|Hc]|(u & v & Hu & Hv & Ht & Hd)]; [by left|right; by left|].
    right; right. apply elem_of_cons in Hv as [->|Hv].
    { apply elem_of_cons in Hu as [->|Hu]; [lia|]. specialize (Hin u Hu). lia. }
    apply elem_of_cons in Hu as [->|Hu]; [specialize (Hin v Hv); lia|]. exists u, v. done.
  - intros [Ht|[Hc|(u & v & Hu & Hv & Ht & Hd)]]; [by left; left|by left; right|].
    right. exists u, v. split_and!; [by right|by right|lia..].
Qed.

Lemma merge_loop_spec l a :
  within audio a -> Forall (within audio) l -> starts_sorted (a :: l) ->
  (forall t, covered (merge_loop gap a l) t <-> spoken gap (a :: l) t) /\
  separated gap (merge_loop gap a l) /\ Forall (within audio) (merge_loop gap a l) /\
  (exists e rest, merge_loop gap a l = mkInterval (Start a) e :: rest).
Proof.
  revert a. induction l as [|b l IH]; intros a Ha Hl Hs; cbn [merge_loop].
  { split_and!; [|by constructor; constructor|by constructor|by destruct a; eauto]. intros t. unfold spoken.
    split; [by left|]. intros [?|(u & v & ->%list_elem_of_singleton & ->%list_elem_of_singleton & ? & ?)]; [done|].
    destruct Ha. lia. }
  apply Forall_cons in Hl as [Hb Hl]. apply StronglySorted_inv in Hs as [Hs Hab].
  apply Forall_cons in Hab as [Hab Hal]. pose proof Hs as Hs'. apply StronglySorted_inv in Hs' as [Hsl Hbl].
  rewrite wrap_end by done.
  assert (Hbw : Forall (fun w => within audio w /\ Start b <= Start w) l) by (apply Forall_and; done).
  destruct (Z.leb_spec (Start b) (End_ a + gap)) as [Hle|Hgt].
  - replace (if End_ a <? End_ b then End_ b else End_ a) with (Z.max (End_ a) (End_ b))
      by (destruct (Z.ltb_spec (End_ a) (End_ b)); lia).
    destruct (IH (mkInterval (Start a) (Z.max (End_ a) (End_ b)))) as (H1 & H2 & H3 & H4).
    + destruct Ha, Hb. split; cbn; lia.
    + done.
    + constructor; [done|]. done.
    + split_and!; [|done|done|done]. intros t. rewrite H1. by apply spoken_merge.
  - destruct (IH b Hb Hl Hs) as (H1 & H2 & H3 & (e & rest & H4)).
    split_and!; [| |by constructor|by destruct a; eauto].
    + intros t. rewrite covered_cons, H1. symmetry. apply spoken_apart; [done|done|].
      constructor; [split; [done|lia]|done].
    + constructor; [done|]. rewrite H4 in *. apply StronglySorted_inv in H2 as [_ H2].
      apply Forall_cons in H3 as [[H3 _] _]. constructor; [unfold apart; cbn; lia|].
      eapply Forall_impl; [exact H2|]. intros w. unfold apart. cbn in *. destruct Ha as [[? ?] ?]. lia.
Qed.

End MergeSpec.

(** ** Sorting *)

Definition interval_le (a b : Interval) : Prop := interval_less b a = false.

Lemma interval_le_spec a b : interval_le a b <-> Start a < Start b \/ (Start a = Start b /\ End_ a <= End_ b).
Proof.
  unfold interval_le, interval_less. destruct (Z.eqb_spec (Start b) (Start a)) as [E|E]; cbn [negb].
  - rewrite Z.ltb_ge. lia.
  - rewrite Z.ltb_ge. lia.
Qed.

#[global] Instance interval_le_antisymm : AntiSymm (=) interval_le.
Proof.
  intros [s e] [s' e']. rewrite !interval_le_spec. cbn. intros. f_equal; lia.
Qed.

#[global] Instance interval_le_trans : Transitive interval_le.
Proof. intros a b c. rewrite !interval_le_spec. lia. Qed.

Lemma insert_interval_perm a l : insert_interval a l ≡ₚ a :: l.
Proof.
  induction l as [|b l IH]; cbn; [done|]. destruct (interval_less b a); [|done]. rewrite IH. constructor.
Qed.

Lemma sort_intervals_perm l : sort_intervals l ≡ₚ l.
Proof. induction l as [|a l IH]; cbn; [done|]. by rewrite insert_interval_perm, IH. Qed.

Lemma insert_interval_sorted a l : StronglySorted interval_le l -> StronglySorted interval_le (insert_interval a l).
Proof.
  induction l as [|b l IH]; intros Hs; cbn; [by repeat constructor|].
  destruct (interval_less b a) eqn:E.
  - apply StronglySorted_inv in Hs as [Hs Hb]. constructor; [by apply IH|]. rewrite insert_interval_perm.
    constructor; [|done]. apply interval_le_spec. unfold interval_less in E.
    destruct (Z.eqb_spec (Start b) (Start a)); cbn [negb] in E; bool_to_prop; lia.
  - constructor; [done|]. constructor; [exact E|]. apply StronglySorted_inv in Hs as [_ Hb].
    eapply Forall_impl; [exact Hb|]. intros c. apply interval_le_trans, E.
Qed.

Lemma sort_intervals_sorted l : StronglySorted interval_le (sort_intervals l).
Proof. induction l as [|a l IH]; cbn; [constructor|by apply insert_interval_sorted]. Qed.

Lemma sort_intervals_unique l l' : l ≡ₚ l' -> sort_intervals l = sort_intervals l'.
Proof.
  intros Hl. apply (StronglySorted_unique interval_le); [apply sort_intervals_sorted..|].
  by rewrite !sort_intervals_perm.
Qed.

Lemma sorted_starts l : StronglySorted interval_le l -> starts_sorted l.
Proof.
  induction 1 as [|a l _ IH Ha]; constructor; [done|]. eapply Forall_impl; [exact Ha|].
  intros b Hb%interval_le_spec. lia.
Qed.

Lemma mergeIntervals_spec audio gap l :
  0 <= gap -> audio + gap <= int64_max -> Forall (within audio) l ->
  (forall t, covered (mergeIntervals gap (sort_intervals l)) t <-> spoken gap l t) /\
  separated gap (mergeIntervals gap (sort_intervals l)) /\
  Forall (within audio) (mergeIntervals gap (sort_intervals l)).
Proof.
  intros Hgap Hfit Hl. rewrite <- (sort_intervals_perm l) in Hl.
  setoid_rewrite <- (sort_intervals_perm l) at 2.
  pose proof (sorted_starts _ (sort_intervals_sorted l)) as Hs.
  destruct (sort_intervals l) as [|a rest]; cbn [mergeIntervals].
  - split_and!; [|constructor..]. intros t. unfold spoken, covered.
    split; [intros (w & Hw & _)|intros [(w & Hw & _)|(w & v & Hw & _)]]; by apply not_elem_of_nil in Hw.
  - apply Forall_cons in Hl as [Ha Hl].
    destruct (merge_loop_spec audio gap Hgap Hfit rest a Ha Hl Hs) as (H1 & H2 & H3 & _). done.
Qed.

(** ** The words *)

Section Words.
Variable int64_outside : float64 -> Z.
Variables audio rate : Z.
Hypothesis Haudio : 0 <= audio < 2 ^ 62.
Hypothesis Hrate : 0 < rate <= 2 ^ 32.
Abbreviation samples_of x := (secondsToSamples int64_outside x rate).

(** The part of a word within the audio, and the words of which any is left. *)
Definition word_interval (raw : RawInterval) : Interval :=
  mkInterval (Z.max 0 (Z.min audio (samples_of (StartSeconds raw)))) (Z.min audio (samples_of (EndSeconds raw))).

Definition words (raws : list RawInterval) : list Interval :=
  List.filter (fun w => Start w <? End_ w) (map word_interval raws).

(** The word ends more than a second after the audio. *)
Definition overruns (raw : RawInterval) : Prop := audio + rate < samples_of (EndSeconds raw).

Definition raws_of (ps : list ParticipantIntervals) : list RawInterval := concat (map Raw ps).

Lemma samples_range x : in_int64 (samples_of x).
Proof.
  unfold secondsToSamples, int64_of_float. destruct (Floor _) as [z|]; [|apply wrap64_range].
  case_bool_decide; [done|apply wrap64_range].
Qed.

Lemma mergeGap_value : mergeGap rate = rate * 300 / 1000.
Proof.
  unfold mergeGap, MergeGapMillis. rewrite wrap64_id by (unfold in_int64, int64_min, int64_max; lia).
  apply Z.quot_div_nonneg; lia.
Qed.

Lemma fatalOverrun_value : fatalOverrun rate = rate.
Proof.
  unfold fatalOverrun, EndOverrunFatalMillis. rewrite wrap64_id by (unfold in_int64, int64_min, int64_max; lia).
  apply Z.quot_mul. lia.
Qed.

Lemma clamp_word_spec raw :
  match clamp_word int64_outside audio rate raw with
  | None => overruns raw
  | Some (w, count) =>
      ~ overruns raw /\ (exists cs ce k, count = count_clamped cs ce k) /\
      option_list w = words [raw]
  end.
Proof.
  unfold clamp_word, overruns, words. cbn [map List.filter word_interval Start End_].
  pose proof (samples_range (EndSeconds raw)) as He. set (e := samples_of (EndSeconds raw)) in *.
  pose proof (samples_range (StartSeconds raw)) as Hs. set (s := samples_of (StartSeconds raw)) in *.
  unfold in_int64, int64_min, int64_max in *. rewrite fatalOverrun_value.
  assert (Hover : (audio <? e) && (rate <? wrap64 (e - audio)) = (audio + rate <? e)).
  { destruct (Z.ltb_spec audio e); cbn [andb]; [|symmetry; apply Z.ltb_ge; lia].
    rewrite wrap64_id by (unfold in_int64, int64_min, int64_max; lia).
    destruct (Z.ltb_spec rate (e - audio)), (Z.ltb_spec (audio + rate) e); lia. }
  rewrite Hover. destruct (Z.ltb_spec (audio + rate) e); [done|].
  replace (if audio <? e then audio else e) with (Z.min audio e) by (destruct (Z.ltb_spec audio e); lia).
  replace (if audio <? s then audio else s) with (Z.min audio s) by (destruct (Z.ltb_spec audio s); lia).
  replace (if Z.min audio s <? 0 then 0 else Z.min audio s) with (Z.max 0 (Z.min audio s))
    by (destruct (Z.ltb_spec (Z.min audio s) 0); lia).
  destruct (Z.leb_spec (Z.min audio e) (Z.max 0 (Z.min audio s))), (Z.ltb_spec (Z.max 0 (Z.min audio s)) (Z.min audio e));
    try lia; (split; [lia|]); (split; [by eauto|done]).
Qed.

Lemma words_app r1 r2 : words (r1 ++ r2) = words r1 ++ words r2.
Proof. unfold words. by rewrite map_app, List.filter_app. Qed.

#[local] Instance words_perm : Proper ((≡ₚ) ==> (≡ₚ)) words.
Proof.
  induction 1 as [|x l l' _ IH|x y l|l1 l2 l3 _ IH1 _ IH2]; [done| | |by etrans].
  - change (words ([x] ++ l) ≡ₚ words ([x] ++ l')). by rewrite !words_app, IH.
  - change (words ([y] ++ [x] ++ l) ≡ₚ words ([x] ++ [y] ++ l)). rewrite !words_app. solve_Permutation.
Qed.

Lemma words_within raws : Forall (within audio) (words raws).
Proof.
  apply Forall_forall. intros w Hw%list_elem_of_In. unfold words in Hw.
  apply filter_In in Hw as [(raw & <- & _)%in_map_iff Hlt%Z.ltb_lt]. unfold word_interval in *. cbn in *.
  split; cbn; lia.
Qed.

(** What the words add to the counters. *)
Definition tally (raws : list RawInterval) (c : Counters) : Counters :=
  fold_left (fun c raw => match clamp_word int64_outside audio rate raw with
                          | Some (_, count) => count c
                          | None => c
                          end) raws c.

Lemma tally_perm r1 r2 c : r1 ≡ₚ r2 -> tally r1 c = tally r2 c.
Proof.
  intros Hp. revert c. induction Hp as [|x l l' _ IH|x y l|l1 l2 l3 _ IH1 _ IH2]; intros c;
    [done|cbn; apply IH| |by rewrite IH1].
  cbn. f_equal. pose proof (clamp_word_spec x) as Hx. pose proof (clamp_word_spec y) as Hy.
  destruct (clamp_word _ _ _ x) as [[wx fx]|], (clamp_word _ _ _ y) as [[wy fy]|]; try done.
  destruct Hx as (_ & (a & b & k & ->) & _), Hy as (_ & (a' & b' & k' & ->) & _).
  unfold count_clamped. cbn. f_equal; lia.
Qed.

Lemma clamp_words_spec id raws acc :
  match clamp_words int64_outside audio rate id raws acc with
  | Err e => e = ErrOverrun id /\ exists raw, raw ∈ raws /\ overruns raw
  | Ok acc' => Forall (fun raw => ~ overruns raw) raws /\ acc' = (tally raws (fst acc), snd acc ++ words raws)
  end.
Proof.
  revert acc. induction raws as [|raw raws IH]; intros acc; cbn [clamp_words].
  { split; [done|]. unfold words. cbn. rewrite app_nil_r. by destruct acc. }
  pose proof (clamp_word_spec raw) as Hw. destruct (clamp_word _ _ _ raw) as [[w count]|] eqn:E.
  2: { split; [done|]. exists raw. by split; [left|]. }
  destruct Hw as (Hno & _ & Hw). specialize (IH (count (fst acc), snd acc ++ option_list w)).
  destruct (clamp_words _ _ _ _ _ _) as [acc'|e].
  - destruct IH as [H1 ->]. split; [by constructor|]. unfold tally. cbn [fold_left fst snd]. rewrite E.
    change (words (raw :: raws)) with (words ([raw] ++ raws)). by rewrite words_app, Hw, app_assoc.
  - destruct IH as (-> & r & Hr & Ho). split; [done|]. exists r. by split; [right|].
Qed.

Lemma clamp_participants_spec ps acc :
  match clamp_participants int64_outside audio rate ps acc with
  | Err (ErrOverrun id) => exists p raw, p ∈ ps /\ ParticipantID p = id /\ raw ∈ Raw p /\ overruns raw
  | Ok acc' => Forall (fun raw => ~ overruns raw) (raws_of ps) /\
      acc' = (tally (raws_of ps) (fst acc), snd acc ++ words (raws_of ps))
  end.
Proof.
  revert acc. induction ps as [|p ps IH]; intros acc; cbn [clamp_participants].
  { split; [constructor|]. cbn. rewrite app_nil_r. by destruct acc. }
  pose proof (clamp_words_spec (ParticipantID p) (Raw p) acc) as Hw.
  destruct (clamp_words _ _ _ _ _ acc) as [acc1|e].
  2: { destruct Hw as (-> & raw & Hraw & Ho). exists p, raw. by split_and!; [left|..]. }
  destruct Hw as [H1 ->]. specialize (IH (tally (Raw p) (fst acc), snd acc ++ words (Raw p))).
  change (raws_of (p :: ps)) with (Raw p ++ raws_of ps).
  destruct (clamp_participants _ _ _ _ _) as [acc2|[id]].
  - destruct IH as [H2 ->]. split; [by apply Forall_app|]. unfold tally. cbn [fst snd].
    by rewrite fold_left_app, words_app, app_assoc.
  - destruct IH as (q & raw & Hq & H3). exists q, raw. by split; [right|].
Qed.

(** The reference of a recording: unless some word ends more than a second
    after the audio, which is an error, the samples that the reference
    intervals cover are exactly those of a word, cut to the audio, and those
    between two words at most 300 ms apart; the intervals are in order, more
    than 300 ms apart and within the audio; and neither they nor the counters
    depend on the order of the participants or on who said which word. *)
Theorem BuildReference_exact ps sha :
  match BuildReference int64_outside ps sha audio rate with
  | Err (ErrOverrun id) => exists p raw, p ∈ ps /\ ParticipantID p = id /\ raw ∈ Raw p /\ overruns raw
  | Ok ref =>
      let gap := rate * 300 / 1000 in
      Forall (fun raw => ~ overruns raw) (raws_of ps) /\
      (forall t, covered (Intervals ref) t <-> spoken gap (words (raws_of ps)) t) /\
      separated gap (Intervals ref) /\ Forall (within audio) (Intervals ref) /\
      forall ps', raws_of ps' ≡ₚ raws_of ps -> BuildReference int64_outside ps' sha audio rate = Ok ref
  end.
Proof.
  unfold BuildReference at 1. pose proof (clamp_participants_spec ps (no_counters, [])) as Hc.
  destruct (clamp_participants _ _ _ ps _) as [[cnts flat]|[id]]; [|exact Hc].
  destruct Hc as [Hno [= -> ->]]. cbn zeta. cbn [Intervals]. rewrite <- mergeGap_value.
  destruct (mergeIntervals_spec audio (mergeGap rate) (words (raws_of ps))) as (H1 & H2 & H3);
    [rewrite mergeGap_value; apply Z.div_pos; lia| |apply words_within|].
  { rewrite mergeGap_value. pose proof (Z.div_le_upper_bound (rate * 300) 1000 (2 ^ 32)). unfold int64_max. lia. }
  split_and!; [done..|]. intros ps' Hp. unfold BuildReference.
  pose proof (clamp_participants_spec ps' (no_counters, [])) as Hc.
  destruct (clamp_participants _ _ _ ps' _) as [[cnts' flat']|[id]].
  - destruct Hc as [_ [= -> ->]]. cbn [fst snd app]. rewrite (tally_perm _ _ _ Hp).
    by rewrite (sort_intervals_unique (words (raws_of ps')) (words (raws_of ps))) by (by rewrite Hp).
  - destruct Hc as (p & raw & Hin & _ & Hraw & Ho). exfalso. rewrite Forall_forall in Hno.
    apply (Hno raw); [|done]. rewrite <- Hp. apply list_elem_of_In, in_concat. exists (Raw p).
    split; [apply in_map|]; by apply list_elem_of_In.
Qed.

End Words.

(** ** A concrete recording *)

Module AnnotationDemo.

Definition word (a b : Z) : RawInterval := mkRaw (float64_of_Z a) (float64_of_Z b).

(** Ten seconds at ten samples a second: a gap of 300 ms is three samples. *)
Definition a : ParticipantIntervals := mkParticipant "A" [word 1 2; word 5 6; word 9 11].
Definition b : ParticipantIntervals := mkParticipant "B" [mkRaw (SFdiv 53 1024 (float64_of_Z 22) (float64_of_Z 10)) (float64_of_Z 3); word 10 11].

(** The converters of two processors. *)
Definition amd64 (x : float64) : Z := int64_min.
Definition arm64 (x : float64) : Z := match x with S754_finite true _ _ | S754_infinity true => int64_min | S754_nan => 0 | _ => int64_max end.

Example reference_built :
  BuildReference amd64 [a; b] ∅ 100 10 =
  Ok (mkReference ∅ (mkCounters 0 0 0 0 0 2 1) 100 3 10 [mkInterval 10 30; mkInterval 50 60; mkInterval 90 100]).
Proof. vm_compute. reflexivity. Qed.

(** A word that ends after 2^63 samples is an error where the conversion
    saturates, and is dropped where it does not. *)
Definition endless : ParticipantIntervals := mkParticipant "C" [word 1 (2 ^ 70)].

Example endless_dropped :
  BuildReference amd64 [endless] ∅ 100 10 = Ok (mkReference ∅ (mkCounters 0 0 0 0 0 0 1) 100 3 10 []) /\
  BuildReference arm64 [endless] ∅ 100 10 = Err (ErrOverrun "C").
Proof. split; vm_compute; reflexivity. Qed.

Definition parse_int (s : string) : option float64 :=
  if (s =? "1")%string then Some (float64_of_Z 1) else if (s =? "2")%string then Some (float64_of_Z 2)
  else if (s =? "nan")%string then Some S754_nan else None.

Definition w (s e : string) : xml_token := StartElement "w" [("id", "x"); ("starttime", s); ("endtime", e)]%string.

Example parsed :
  ParseParticipant parse_int [OtherToken; StartElement "root" []; w "1" "2"; w "2" "2"; StartElement "gap" [];
    StartElement "w" []; StartElement "quote" []] None = Ok ([word 1 2], mkCounters 1 1 1 1 0 0 0) /\
  ParseParticipant parse_int [w "2" "1"] None = Err ErrReversed /\
  ParseParticipant parse_int [w "1" "nan"] None = Err (ErrTime "1" "nan") /\
  ParseParticipant parse_int [w "1" "2"] (Some "cut"%string) = Err (ErrToken "cut").
Proof. repeat split; vm_compute; reflexivity. Qed.

Lemma BuildReference_exact_witness :
  (forall t, covered [mkInterval 10 30; mkInterval 50 60; mkInterval 90 100] t <->
     spoken 3 (words amd64 100 10 (raws_of [a; b])) t) /\
  BuildReference amd64 [b; a] ∅ 100 10 = BuildReference amd64 [a; b] ∅ 100 10.
Proof.
  pose proof (BuildReference_exact amd64 100 10 ltac:(lia) ltac:(lia) [a; b] ∅) as H.
  rewrite reference_built in H. destruct H as (_ & H & _ & _ & Hp). split; [exact H|].
  rewrite reference_built. apply Hp. unfold raws_of. cbn [map concat]. solve_Permutation.
Defined.

End AnnotationDemo.
