(* ===== verification/EvalScore.v ===== *)
(** Scores of a detector against the reference,
    [cmd/whisper-cpp-streaming/ami-eval/internal/score] ([frame.go] and
    [utterance.go]).

    [ScoreFrames] weighs each 20 ms decision by its samples of real audio,
    [ScoreUtterances] compares the detector's utterances with the reference
    intervals.  [ScoreFrames_exact] says that the float64 counts are the exact
    numbers of samples; [utterance_counts] relates the counts of utterances to
    the overlaps.  [score.Interval] has the fields of [annotation.Interval] and
    is the same record here. *)

From stdpp Require Import base list list_numbers strings sorting.
From Stdlib Require Import ZArith Lia SpecFloat Sorting.Sorted.
From S2P Require Import GoInt Streaming FloatExact Annotation.

Local Open Scope Z_scope.

(** ** Intervals and ratios *)

Definition valid_interval (iv : Interval) : bool := Start iv <? End_ iv.

Definition overlaps (a b : Interval) : bool :=
  let lo := if Start a <? Start b then Start b else Start a in
  let hi := if End_ b <? End_ a then End_ b else End_ a in
  lo <? hi.

Record Ratio := mkRatio { Value : float64; Valid : bool }.

Definition no_ratio : Ratio := mkRatio float_zero false.

Definition ratio (numerator denominator : float64) : Ratio :=
  if SFeqb denominator float_zero then no_ratio else mkRatio (SFdiv 53 1024 numerator denominator) true.

(** ** Frames *)

Record Frame := mkFrame { f_Start : Z; f_End : Z; ValidSamples : Z; Predicted : bool }.

Definition validSpan (f : Frame) : option Interval :=
  if ValidSamples f <=? 0 then None
  else
    let span := mkInterval (f_Start f) (wrap64 (f_Start f + ValidSamples f)) in
    if negb (valid_interval span) then None else Some span.

Record FrameCounts := mkFrameCounts { TP : float64; FP : float64; TN : float64; FN : float64 }.

(** [sort.Search]: the loop on [i < j]; it halves [j - i]. *)
Fixpoint search (fuel : nat) (f : nat -> bool) (i j : nat) : nat :=
  match fuel with
  | O => i
  | S fuel =>
      if (i <? j)%nat then
        let h := ((i + j) / 2)%nat in
        if negb (f h) then search fuel f (S h) j else search fuel f i h
      else i
  end.

Definition Search (n : nat) (f : nat -> bool) : nat := search n f 0 n.

Definition interval_at (refs : list Interval) (i : nat) : Interval := nth i refs (mkInterval 0 0).

(** The loop over the reference intervals from [idx]. *)
Fixpoint positive_loop (span : Interval) (refs : list Interval) : bool :=
  match refs with
  | [] => false
  | r :: refs => if Start r <? End_ span then (if overlaps span r then true else positive_loop span refs) else false
  end.

Definition referencePositive (span : Interval) (sortedRefs : list Interval) : bool :=
  let idx := Search (length sortedRefs) (fun i => Start span <? End_ (interval_at sortedRefs i)) in
  positive_loop span (drop idx sortedRefs).

Definition add_weight (c : FrameCounts) (predicted actual : bool) (weight : float64) : FrameCounts :=
  let '(mkFrameCounts tp fp tn fn) := c in
  match predicted, actual with
  | true, true => mkFrameCounts (SFadd 53 1024 tp weight) fp tn fn
  | true, false => mkFrameCounts tp (SFadd 53 1024 fp weight) tn fn
  | false, true => mkFrameCounts tp fp tn (SFadd 53 1024 fn weight)
  | false, false => mkFrameCounts tp fp (SFadd 53 1024 tn weight) fn
  end.

Definition score_frame (refs : list Interval) (c : FrameCounts) (f : Frame) : FrameCounts :=
  match validSpan f with
  | None => c
  | Some span => add_weight c (Predicted f) (referencePositive span refs) (float64_of_Z (ValidSamples f))
  end.

Definition ScoreFrames (frames : list Frame) (reference : list Interval) : FrameCounts :=
  fold_left (score_frame (sort_intervals reference)) frames
    (mkFrameCounts float_zero float_zero float_zero float_zero).

Record FrameMetrics := mkFrameMetrics {
  fm_Counts : FrameCounts;
  Precision : Ratio; Recall : Ratio; F1 : Ratio; FalsePositiveRate : Ratio; FalseNegativeRate : Ratio }.

Definition DeriveFrameMetrics (c : FrameCounts) : FrameMetrics :=
  let precision := ratio (TP c) (SFadd 53 1024 (TP c) (FP c)) in
  let recall := ratio (TP c) (SFadd 53 1024 (TP c) (FN c)) in
  let sum := SFadd 53 1024 (Value precision) (Value recall) in
  let f1 := if Valid precision && Valid recall && SFltb float_zero sum
            then mkRatio (SFdiv 53 1024 (SFmul 53 1024 (SFmul 53 1024 (float64_of_Z 2) (Value precision)) (Value recall)) sum) true
            else no_ratio in
  let fpr := ratio (FP c) (SFadd 53 1024 (FP c) (TN c)) in
  let fnr := ratio (FN c) (SFadd 53 1024 (FN c) (TP c)) in
  mkFrameMetrics c precision recall f1 fpr fnr.

(** ** Utterances *)

Record UtteranceCounts := mkUtteranceCounts {
  ReferenceCount : Z; PredictionCount : Z; Misses : Z; SplitExtras : Z; MergeExtras : Z; Spurious : Z;
  OneToOnePairs : Z }.

Record UtteranceMetrics := mkUtteranceMetrics {
  um_Counts : UtteranceCounts;
  MissRate : Ratio; SplitExtraRate : Ratio; MergeExtraRate : Ratio; SpuriousRate : Ratio;
  UtteranceErrorRate : Ratio;
  StartErrorMedian : Ratio; StartErrorP95 : Ratio; EndErrorMedian : Ratio; EndErrorP95 : Ratio }.

(** [sort.Slice] by [Start]; the order of ties is not specified, this one
    keeps it. *)
Fixpoint insert_start (a : Interval) (l : list Interval) : list Interval :=
  match l with
  | [] => [a]
  | b :: rest => if Start b <? Start a then b :: insert_start a rest else a :: l
  end.

Definition sort_starts (l : list Interval) : list Interval := foldr insert_start [] l.

(** What the all-pairs loop leaves in the arrays: the number of overlapping
    intervals and the index of the last one, [-1] if there is none. *)
Definition degree (a : Interval) (others : list Interval) : Z := len (List.filter (fun b => overlaps a b) others).

Fixpoint partner_from (i : Z) (a : Interval) (others : list Interval) (found : Z) : Z :=
  match others with
  | [] => found
  | b :: others => partner_from (i + 1) a others (if overlaps a b then i else found)
  end.
Definition partner (a : Interval) (others : list Interval) : Z := partner_from 0 a others (-1).

Definition count {A} (f : A -> bool) (l : list A) : Z := len (List.filter f l).
Definition total {A} (f : A -> Z) (l : list A) : Z := foldr (fun x acc => f x + acc) 0 l.

(** The loop over one side: intervals of degree zero, and what the degrees of
    the others exceed one by. *)
Definition unmatched (l others : list Interval) : Z := count (fun a => degree a others =? 0) l.
Definition extras (l others : list Interval) : Z :=
  total (fun a => if degree a others =? 0 then 0 else degree a others - 1) l.

(** The index of the reference that prediction [i] is paired with. *)
Definition paired (preds refs : list Interval) (i : Z) (p : Interval) : option Interval :=
  if negb (degree p refs =? 1) then None
  else
    let j := partner p refs in
    let r := interval_at refs (Z.to_nat j) in
    if negb (degree r preds =? 1) || negb (partner r preds =? i) then None else Some r.

Fixpoint pairs_from (preds refs : list Interval) (i : Z) (l : list Interval) : list (Interval * Interval) :=
  match l with
  | [] => []
  | p :: l =>
      match paired preds refs i p with
      | Some r => (p, r) :: pairs_from preds refs (i + 1) l
      | None => pairs_from preds refs (i + 1) l
      end
  end.

Definition one_to_one (preds refs : list Interval) : list (Interval * Interval) := pairs_from preds refs 0 preds.

(** [sort.Float64s], which puts NaN first. *)
Definition float_less (a b : float64) : bool :=
  SFltb a b || match a, b with S754_nan, S754_nan => false | S754_nan, _ => true | _, _ => false end.

Fixpoint insert_float (a : float64) (l : list float64) : list float64 :=
  match l with
  | [] => [a]
  | b :: rest => if float_less b a then b :: insert_float a rest else a :: l
  end.

Definition sort_floats (l : list float64) : list float64 := foldr insert_float [] l.

Definition float_at (l : list float64) (i : Z) : float64 := nth (Z.to_nat i) l float_zero.

(** [None] is the panic on an empty slice. *)
Definition Median (values : list float64) : option float64 :=
  let sorted := sort_floats values in
  let n := len sorted in
  if n =? 0 then None
  else if Z.rem n 2 =? 1 then Some (float_at sorted (Z.quot n 2))
  else Some (SFdiv 53 1024 (SFadd 53 1024 (float_at sorted (Z.quot n 2 - 1)) (float_at sorted (Z.quot n 2))) (float64_of_Z 2)).

(** [0.95], and [math.Ceil]. *)
Definition float_095 : float64 := S754_finite false 8556839292003942 (-53).

Definition Ceil (x : float64) : option Z := Z.opp <$> Floor (SFopp x).

Definition P95NearestRank (values : list float64) : option float64 :=
  let sorted := sort_floats values in
  let n := len sorted in
  if n =? 0 then None
  else
    let rank := default 0 (Ceil (SFmul 53 1024 float_095 (float64_of_Z n))) in
    let rank := if rank <? 1 then 1 else rank in
    let rank := if n <? rank then n else rank in
    Some (float_at sorted (rank - 1)).

Definition boundary_error (a b sampleRate : Z) : float64 :=
  SFdiv 53 1024 (SFabs (float64_of_Z (wrap64 (a - b)))) (float64_of_Z sampleRate).

Definition statistic (f : list float64 -> option float64) (errors : list float64) : Ratio :=
  match f errors with Some v => mkRatio v true | None => no_ratio end.

Definition ScoreUtterances (predictions references : list Interval) (sampleRate : Z) : UtteranceMetrics :=
  let preds := sort_starts predictions in
  let refs := sort_starts references in
  let pairs := one_to_one preds refs in
  let counts := mkUtteranceCounts (len refs) (len preds) (unmatched refs preds) (extras refs preds)
                  (extras preds refs) (unmatched preds refs) (len pairs) in
  let startErrors := map (fun '(p, r) => boundary_error (Start p) (Start r) sampleRate) pairs in
  let endErrors := map (fun '(p, r) => boundary_error (End_ p) (End_ r) sampleRate) pairs in
  let refCount := float64_of_Z (ReferenceCount counts) in
  let predCount := float64_of_Z (PredictionCount counts) in
  mkUtteranceMetrics counts
    (ratio (float64_of_Z (Misses counts)) refCount)
    (ratio (float64_of_Z (SplitExtras counts)) refCount)
    (ratio (float64_of_Z (MergeExtras counts)) predCount)
    (ratio (float64_of_Z (Spurious counts)) predCount)
    (ratio (float64_of_Z (Misses counts + SplitExtras counts + MergeExtras counts + Spurious counts)) refCount)
    (statistic Median startErrors) (statistic P95NearestRank startErrors)
    (statistic Median endErrors) (statistic P95NearestRank endErrors).

(** ** Frames against the reference *)

Lemma overlaps_spec a b : overlaps a b = true <-> Z.max (Start a) (Start b) < Z.min (End_ a) (End_ b).
Proof.
  unfold overlaps. rewrite Z.ltb_lt. destruct (Z.ltb_spec (Start a) (Start b)), (Z.ltb_spec (End_ b) (End_ a)); lia.
Qed.

Lemma overlaps_sym a b : overlaps a b = overlaps b a.
Proof. apply eq_true_iff_eq. rewrite !overlaps_spec. lia. Qed.

(** Two intervals overlap when they share a sample. *)
Lemma overlaps_sample a b :
  overlaps a b = true <-> exists t, Start a <= t < End_ a /\ Start b <= t < End_ b.
Proof.
  rewrite overlaps_spec. split; [|intros (t & ? & ?); lia]. intros H. exists (Z.max (Start a) (Start b)). lia.
Qed.

Lemma existsb_covered span refs :
  existsb (overlaps span) refs = true <-> exists t, Start span <= t < End_ span /\ covered refs t.
Proof.
  rewrite existsb_exists. setoid_rewrite overlaps_sample. unfold covered. split.
  - intros (r & Hr%list_elem_of_In & t & H1 & H2). eauto.
  - intros (t & H1 & r & Hr%list_elem_of_In & H2). eauto.
Qed.

Lemma search_spec f fuel i j :
  (i <= j)%nat -> (j - i <= fuel)%nat ->
  (forall a b, (a <= b)%nat -> (b < j)%nat -> f a = true -> f b = true) ->
  let r := search fuel f i j in
  (i <= r <= j)%nat /\ (forall k, (i <= k < r)%nat -> f k = false) /\ ((r < j)%nat -> f r = true).
Proof.
  revert i j. induction fuel as [|fuel IH]; intros i j Hij Hfuel Hmono; cbn [search].
  { replace j with i by lia. split_and!; intros; lia. }
  destruct (Nat.ltb_spec i j) as [Hlt|Hge]; [|split_and!; intros; lia].
  set (h := ((i + j) / 2)%nat).
  assert (Hh : (i <= h < j)%nat).
  { unfold h. split; [apply Nat.div_le_lower_bound|apply Nat.Div0.div_lt_upper_bound]; lia. }
  destruct (f h) eqn:Eh; cbn [negb].
  - destruct (IH i h ltac:(lia) ltac:(lia)) as (H1 & H2 & H3); [intros a b; intros; eapply Hmono; eauto; lia|].
    split_and!; [lia..|done|]. intros _. destruct (decide (search fuel f i h < h)%nat); [by apply H3|].
    by replace (search fuel f i h) with h by lia.
  - destruct (IH (S h) j ltac:(lia) ltac:(lia)) as (H1 & H2 & H3); [done|].
    split_and!; [lia..| |done]. intros k Hk. destruct (decide (k <= h)%nat); [|apply H2; lia].
    destruct (f k) eqn:Ek; [|done]. by rewrite (Hmono k h) in Eh by (done || lia).
Qed.

Lemma positive_loop_found span r l :
  starts_sorted l -> r ∈ l -> overlaps span r = true -> positive_loop span l = true.
Proof.
  intros Hs Hr Ho. pose proof Ho as Hlt%overlaps_spec. induction l as [|a l IH]; [by apply not_elem_of_nil in Hr|].
  cbn [positive_loop]. apply StronglySorted_inv in Hs as [Hs Ha]. rewrite Forall_forall in Ha.
  assert (Start a < End_ span).
  { apply elem_of_cons in Hr as [->|Hr]; [lia|]. specialize (Ha r Hr). lia. }
  destruct (Z.ltb_spec (Start a) (End_ span)); [|lia].
  destruct (overlaps span a) eqn:Ea; [done|]. apply elem_of_cons in Hr as [->|Hr]; [congruence|]. by apply IH.
Qed.

Lemma positive_loop_sound span l : positive_loop span l = true -> existsb (overlaps span) l = true.
Proof.
  induction l as [|a l IH]; cbn; [done|]. destruct (_ <? _); [|done]. destruct (overlaps span a); [done|exact IH].
Qed.

Lemma separated_starts gap l : 0 <= gap -> separated gap l -> Forall valid_interval l -> starts_sorted l.
Proof.
  intros Hg Hs. induction Hs as [|a l _ IH Ha]; intros Hv; [constructor|]. apply Forall_cons in Hv as [Hv Hl].
  constructor; [by apply IH|]. eapply Forall_impl; [exact Ha|]. intros b Hb. unfold apart in Hb.
  unfold valid_interval in Hv. apply Is_true_true, Z.ltb_lt in Hv. lia.
Qed.

Lemma separated_lookup gap l i j a b :
  separated gap l -> (i < j)%nat -> l !! i = Some a -> l !! j = Some b -> End_ a + gap < Start b.
Proof.
  intros Hs. revert i j. induction Hs as [|x l _ IH Hx]; intros i j Hij Hi Hj; [done|].
  destruct j as [|j]; [lia|]. destruct i as [|i]; cbn in *.
  - injection Hi as ->. rewrite Forall_forall in Hx. by apply Hx, list_elem_of_lookup_2 with j.
  - by apply (IH i j); [lia|..].
Qed.

(** The binary search agrees with looking at every reference interval. *)
Lemma referencePositive_spec gap span l :
  0 <= gap -> separated gap l -> Forall valid_interval l ->
  referencePositive span l = existsb (overlaps span) l.
Proof.
  intros Hg Hs Hv. unfold referencePositive, Search.
  assert (Hmono : forall a b, (a <= b)%nat -> (b < length l)%nat ->
    (Start span <? End_ (interval_at l a)) = true -> (Start span <? End_ (interval_at l b)) = true).
  { intros a b Hab Hb Ha. destruct (decide (a = b)) as [->|Hne]; [done|]. apply Z.ltb_lt in Ha. apply Z.ltb_lt.
    destruct (lookup_lt_is_Some_2 l a ltac:(lia)) as [x Hx]. destruct (lookup_lt_is_Some_2 l b Hb) as [y Hy].
    unfold interval_at in *. rewrite (nth_lookup_Some _ _ _ _ Hx) in Ha. rewrite (nth_lookup_Some _ _ _ _ Hy).
    pose proof (separated_lookup gap l a b x y Hs ltac:(lia) Hx Hy).
    rewrite Forall_lookup in Hv. specialize (Hv b y Hy). apply Is_true_true, Z.ltb_lt in Hv. lia. }
  destruct (search_spec (fun i => Start span <? End_ (interval_at l i)) (length l) 0 (length l) ltac:(lia) ltac:(lia) Hmono)
    as (H1 & H2 & H3).
  set (idx := search _ _ _ _) in *. clearbody idx. apply eq_true_iff_eq. split.
  - intros H%positive_loop_sound. apply existsb_exists in H as (r & Hr & Ho). apply existsb_exists.
    exists r. split; [|done]. rewrite <- (take_drop idx l). apply in_or_app. by right.
  - intros (r & Hr & Ho)%existsb_exists. apply (positive_loop_found span r); [| |done].
    + pose proof (separated_starts gap l Hg Hs Hv) as Hst. unfold starts_sorted in *.
      rewrite <- (take_drop idx l) in Hst. by eapply StronglySorted_app_1_r.
    + apply list_elem_of_In, list_elem_of_lookup in Hr as [i Hi].
      assert (idx <= i)%nat.
      { destruct (decide (idx <= i)%nat); [done|]. specialize (H2 i ltac:(lia)).
        unfold interval_at in H2. rewrite (nth_lookup_Some _ _ _ _ Hi) in H2. apply Z.ltb_ge in H2.
        apply overlaps_spec in Ho. lia. }
      apply list_elem_of_lookup_2 with (i - idx)%nat. rewrite lookup_drop. by replace (idx + (i - idx))%nat with i by lia.
Qed.

(** The samples that a frame adds to one of the counts. *)
Definition frame_weight (refs : list Interval) (predicted actual : bool) (f : Frame) : Z :=
  match validSpan f with
  | Some span =>
      if Bool.eqb (Predicted f) predicted && Bool.eqb (existsb (overlaps span) refs) actual then ValidSamples f else 0
  | None => 0
  end.

Definition weighed (f : Frame) : Z := match validSpan f with Some _ => ValidSamples f | None => 0 end.

Lemma total_cons {A} (f : A -> Z) x l : total f (x :: l) = f x + total f l.
Proof. done. Qed.

Lemma total_nonneg {A} (f : A -> Z) l : (forall x, 0 <= f x) -> 0 <= total f l.
Proof. intros Hf. induction l as [|x l IH]; [done|]. rewrite total_cons. specialize (Hf x). lia. Qed.

Lemma total_app {A} (f : A -> Z) l l' : total f (l ++ l') = total f l + total f l'.
Proof. induction l as [|x l IH]; [done|]. cbn [app]. rewrite !total_cons. lia. Qed.

Lemma total_ext {A} (f g : A -> Z) l : (forall x, x ∈ l -> f x = g x) -> total f l = total g l.
Proof.
  induction l as [|x l IH]; intros H; [done|]. rewrite !total_cons, (H x) by left.
  rewrite IH; [done|]. intros y Hy. apply H. by right.
Qed.

Lemma total_plus {A} (f g : A -> Z) l : total (fun x => f x + g x) l = total f l + total g l.
Proof. induction l as [|x l IH]; [done|]. rewrite !total_cons. lia. Qed.

#[global] Instance total_perm {A} (f : A -> Z) : Proper ((≡ₚ) ==> (=)) (total f).
Proof. induction 1; rewrite ?total_cons; lia. Qed.

Lemma validSpan_positive f span : validSpan f = Some span -> 0 < ValidSamples f.
Proof. unfold validSpan. destruct (Z.leb_spec (ValidSamples f) 0); [done|lia]. Qed.

Lemma frame_weight_nonneg refs p a f : 0 <= frame_weight refs p a f.
Proof.
  unfold frame_weight. destruct (validSpan f) eqn:E; [|done]. apply validSpan_positive in E.
  destruct (_ && _); lia.
Qed.

(** The four counts share out the samples of real audio. *)
Lemma frame_weight_sum refs f :
  frame_weight refs true true f + frame_weight refs true false f + frame_weight refs false false f +
  frame_weight refs false true f = weighed f.
Proof.
  unfold frame_weight, weighed. destruct (validSpan f); [|done].
  destruct (Predicted f), (existsb _ refs); cbn; lia.
Qed.

Lemma weighed_nonneg f : 0 <= weighed f.
Proof.
  rewrite <- (frame_weight_sum []).
  pose proof (frame_weight_nonneg [] true true f). pose proof (frame_weight_nonneg [] true false f).
  pose proof (frame_weight_nonneg [] false false f). pose proof (frame_weight_nonneg [] false true f). lia.
Qed.

Lemma float_add x y : 0 <= x -> 0 <= y -> x + y < 2 ^ 53 ->
  SFadd 53 1024 (float64_of_Z x) (float64_of_Z y) = float64_of_Z (x + y).
Proof. intros. apply (add_exact 53 1024); lia. Qed.

Definition counts_of (tp fp tn fn : Z) : FrameCounts :=
  mkFrameCounts (float64_of_Z tp) (float64_of_Z fp) (float64_of_Z tn) (float64_of_Z fn).

Lemma score_frame_exact gap refs f tp fp tn fn :
  0 <= gap -> separated gap refs -> Forall valid_interval refs ->
  0 <= tp -> 0 <= fp -> 0 <= tn -> 0 <= fn -> tp + fp + tn + fn + weighed f < 2 ^ 53 ->
  score_frame refs (counts_of tp fp tn fn) f =
  counts_of (tp + frame_weight refs true true f) (fp + frame_weight refs true false f)
    (tn + frame_weight refs false false f) (fn + frame_weight refs false true f).
Proof.
  intros Hg Hs Hv Htp Hfp Htn Hfn Hsum. unfold score_frame, weighed, frame_weight in *.
  destruct (validSpan f) as [span|] eqn:E; [|by rewrite !Z.add_0_r].
  apply validSpan_positive in E. rewrite (referencePositive_spec gap span refs) by done.
  destruct (Predicted f), (existsb (overlaps span) refs); unfold add_weight, counts_of; cbn [Bool.eqb andb];
    rewrite float_add by lia; by rewrite !Z.add_0_r.
Qed.

Lemma separated_sorted gap l : 0 <= gap -> separated gap l -> Forall valid_interval l -> sort_intervals l = l.
Proof.
  intros Hg Hs Hv. apply (StronglySorted_unique interval_le); [apply sort_intervals_sorted| |apply sort_intervals_perm].
  clear -Hg Hs Hv. induction Hs as [|a l _ IH Ha]; [constructor|]. apply Forall_cons in Hv as [Hv Hl].
  constructor; [by apply IH|]. eapply Forall_impl; [exact Ha|]. intros b Hb. apply interval_le_spec.
  apply Is_true_true, Z.ltb_lt in Hv. unfold apart in Hb. lia.
Qed.

(** Frame scores are exact: against disjoint reference intervals, in any
    order, the float64 counts are the numbers of samples of real audio in the
    frames that the detector and the reference agree and disagree on, where a
    frame is speech by the reference when it shares a sample with some
    interval; together they are all samples of real audio.  The sums stay
    exact below 2^53 samples. *)
Theorem ScoreFrames_exact gap frames reference refs :
  0 <= gap -> reference ≡ₚ refs -> separated gap refs -> Forall valid_interval refs ->
  total weighed frames < 2 ^ 53 ->
  let weight predicted actual := total (frame_weight refs predicted actual) frames in
  ScoreFrames frames reference =
    counts_of (weight true true) (weight true false) (weight false false) (weight false true) /\
  weight true true + weight true false + weight false false + weight false true = total weighed frames /\
  forall span, existsb (overlaps span) refs = true <-> exists t, Start span <= t < End_ span /\ covered refs t.
Proof.
  intros Hg Hp Hs Hv Hsum weight. split_and!; [| |intros; apply existsb_covered].
  - unfold ScoreFrames. rewrite (sort_intervals_unique _ _ Hp), (separated_sorted gap) by done.
    assert (H : forall fs tp fp tn fn, 0 <= tp -> 0 <= fp -> 0 <= tn -> 0 <= fn ->
      tp + fp + tn + fn + total weighed fs < 2 ^ 53 ->
      fold_left (score_frame refs) fs (counts_of tp fp tn fn) =
      counts_of (tp + total (frame_weight refs true true) fs) (fp + total (frame_weight refs true false) fs)
        (tn + total (frame_weight refs false false) fs) (fn + total (frame_weight refs false true) fs)).
    { induction fs as [|f fs IH]; intros tp fp tn fn H1 H2 H3 H4 H5; cbn [fold_left]; [by rewrite !Z.add_0_r|].
      rewrite !total_cons, !Z.add_assoc in *. pose proof (total_nonneg weighed fs weighed_nonneg).
      pose proof (frame_weight_sum refs f) as Hf.
      pose proof (frame_weight_nonneg refs true true f). pose proof (frame_weight_nonneg refs true false f).
      pose proof (frame_weight_nonneg refs false false f). pose proof (frame_weight_nonneg refs false true f).
      rewrite (score_frame_exact gap) by (done || lia). apply IH; lia. }
    exact (H frames 0 0 0 0 ltac:(lia) ltac:(lia) ltac:(lia) ltac:(lia) Hsum).
  - unfold weight. rewrite <- !total_plus. apply total_ext. intros f _. apply frame_weight_sum.
Qed.

(** ** Utterances *)

Lemma insert_start_perm a l : insert_start a l ≡ₚ a :: l.
Proof.
  induction l as [|b l IH]; cbn; [done|]. destruct (_ <? _); [|done]. rewrite IH. constructor.
Qed.

Lemma sort_starts_perm l : sort_starts l ≡ₚ l.
Proof. induction l as [|a l IH]; cbn; [done|]. by rewrite insert_start_perm, IH. Qed.

Definition one (b : bool) : Z := if b then 1 else 0.

Lemma count_total {A} (f : A -> bool) l : count f l = total (fun x => one (f x)) l.
Proof.
  induction l as [|x l IH]; [done|]. rewrite total_cons, <- IH. unfold count. cbn.
  destruct (f x); [rewrite len_cons|]; done.
Qed.

#[global] Instance count_perm {A} (f : A -> bool) : Proper ((≡ₚ) ==> (=)) (count f).
Proof. intros l l' Hl. by rewrite !count_total, Hl. Qed.

#[global] Instance degree_perm a : Proper ((≡ₚ) ==> (=)) (degree a).
Proof. intros l l' Hl. change (count (overlaps a) l = count (overlaps a) l'). by rewrite Hl. Qed.

#[global] Instance len_perm {A} : Proper ((≡ₚ) ==> (=)) (@len A).
Proof. intros l l' Hl. unfold len. by rewrite Hl. Qed.

Lemma count_full {A} (f : A -> bool) l : count f l = len l <-> Forall f l.
Proof.
  induction l as [|x l IH]; [by split|]. rewrite Forall_cons, <- IH. unfold count. cbn.
  pose proof (List.filter_length_le f l). destruct (f x); cbn [Is_true]; rewrite ?len_cons; unfold len in *; intuition lia.
Qed.

Lemma total_swap {A B} (f : A -> B -> Z) l l' :
  total (fun x => total (f x) l') l = total (fun y => total (fun x => f x y) l) l'.
Proof.
  induction l as [|x l IH]; [by induction l'|]. rewrite total_cons, IH, <- total_plus. done.
Qed.

Lemma degree_total a l : degree a l = total (fun b => one (overlaps a b)) l.
Proof. apply (count_total (overlaps a)). Qed.

Lemma degree_nonneg a l : 0 <= degree a l.
Proof. apply len_nonneg. Qed.

(** Both sides have the same number of overlaps. *)
Lemma degrees_agree l l' : total (fun a => degree a l') l = total (fun b => degree b l) l'.
Proof.
  transitivity (total (fun a => total (fun b => one (overlaps a b)) l') l).
  { apply total_ext. intros. apply degree_total. }
  rewrite total_swap. apply total_ext. intros b _. rewrite degree_total. apply total_ext. intros a _.
  by rewrite overlaps_sym.
Qed.

Lemma degrees_balance l others :
  len l - unmatched l others + extras l others = total (fun a => degree a others) l.
Proof.
  unfold unmatched, extras. rewrite count_total. induction l as [|a l IH]; [done|].
  rewrite !total_cons, len_cons, <- IH. destruct (Z.eqb_spec (degree a others) 0); cbn [one]; lia.
Qed.

Lemma unmatched_extras_nonneg l others : 0 <= unmatched l others /\ 0 <= extras l others.
Proof.
  split; [apply len_nonneg|]. apply total_nonneg. intros a. pose proof (degree_nonneg a others).
  destruct (Z.eqb_spec (degree a others) 0); lia.
Qed.

(** No interval is unmatched or matched twice when every degree is one. *)
Lemma no_errors l others :
  unmatched l others + extras l others = 0 <-> Forall (fun a => degree a others =? 1) l.
Proof.
  pose proof (unmatched_extras_nonneg l others) as [H1 H2]. revert H1 H2. unfold unmatched, extras. rewrite count_total.
  induction l as [|a l IH]; [done|]. rewrite Forall_cons, !total_cons.
  pose proof (degree_nonneg a others). pose proof (unmatched_extras_nonneg l others) as [H3 H4].
  unfold unmatched, extras in H3, H4. rewrite count_total in H3. intros _ _. rewrite <- IH by done.
  destruct (Z.eqb_spec (degree a others) 0), (Z.eqb_spec (degree a others) 1); cbn [one Is_true]; intuition lia.
Qed.

(** The partner of an interval with one overlap. *)
Lemma partner_none i a others found : degree a others = 0 -> partner_from i a others found = found.
Proof.
  revert i found. induction others as [|b others IH]; intros i found Hd; [done|]. cbn [partner_from].
  rewrite degree_total, total_cons, <- degree_total in Hd. pose proof (degree_nonneg a others).
  destruct (overlaps a b); cbn [one] in Hd; [lia|]. by apply IH.
Qed.

Lemma partner_from_spec i a others found j b :
  degree a others = 1 -> others !! j = Some b -> overlaps a b = true ->
  partner_from i a others found = i + Z.of_nat j.
Proof.
  revert i found j. induction others as [|c others IH]; intros i found j Hd Hj Ho; [done|]. cbn [partner_from].
  rewrite degree_total, total_cons, <- degree_total in Hd. destruct j as [|j]; cbn in Hj.
  - injection Hj as ->. rewrite Ho in *. cbn [one] in Hd. rewrite partner_none by lia. lia.
  - destruct (overlaps a c) eqn:Ec; cbn [one] in Hd.
    + exfalso. assert (Hz : degree a others = 0) by lia. apply len_zero in Hz.
      assert (Hin : b ∈ List.filter (fun b => overlaps a b) others).
      { apply list_elem_of_In, filter_In. split; [|done]. apply list_elem_of_In. by apply list_elem_of_lookup_2 with j. }
      rewrite Hz in Hin. by apply not_elem_of_nil in Hin.
    + rewrite (IH (i + 1) found j) by (done || lia). lia.
Qed.

Section Pairs.
Variables preds refs : list Interval.

(** [p] overlaps one reference, which overlaps one prediction. *)
Definition matched (l others : list Interval) (p : Interval) : bool :=
  (degree p others =? 1) && existsb (fun r => overlaps p r && (degree r l =? 1)) others.

Definition edge (l others : list Interval) (a b : Interval) : bool :=
  overlaps a b && (degree a others =? 1) && (degree b l =? 1).

Lemma degree_one_total a others (g : Interval -> bool) :
  degree a others = 1 ->
  total (fun b => one (overlaps a b && g b)) others = one (existsb (fun b => overlaps a b && g b) others).
Proof.
  assert (H0 : forall l, degree a l = 0 ->
    total (fun b => one (overlaps a b && g b)) l = 0 /\ existsb (fun b => overlaps a b && g b) l = false).
  { induction l as [|b l IH]; [done|]. intros Hd. cbn [existsb].
    rewrite degree_total, total_cons, <- degree_total in Hd. pose proof (degree_nonneg a l).
    rewrite total_cons. destruct (overlaps a b); cbn [one andb orb] in *; [lia|]. apply IH. lia. }
  induction others as [|b l IH]; [done|]. intros Hd. cbn [existsb].
  rewrite degree_total, total_cons, <- degree_total in Hd. rewrite total_cons.
  destruct (overlaps a b); cbn [one andb orb] in *; [|apply IH; lia].
  destruct (H0 l ltac:(lia)) as [-> ->]. by rewrite orb_false_r, Z.add_0_r.
Qed.

Lemma matched_total l others a : one (matched l others a) = total (fun b => one (edge l others a b)) others.
Proof.
  unfold matched, edge. destruct (Z.eqb_spec (degree a others) 1) as [Hd|Hd]; cbn [andb].
  - rewrite <- degree_one_total by done. apply total_ext. intros b _. by rewrite andb_true_r.
  - induction others as [|b o IH]; [done|]. clear. induction (b :: o) as [|c l' IH]; [done|].
    rewrite total_cons, <- IH, andb_false_r. done.
Qed.

(** Matched predictions and matched references come in pairs. *)
Lemma matched_agree l others : count (matched l others) l = count (matched others l) others.
Proof.
  rewrite !count_total. transitivity (total (fun a => total (fun b => one (edge l others a b)) others) l).
  { apply total_ext. intros a _. apply matched_total. }
  rewrite total_swap. apply total_ext. intros b _. rewrite matched_total. apply total_ext. intros a _.
  unfold edge. rewrite overlaps_sym. destruct (overlaps b a), (degree a others =? 1), (degree b l =? 1); done.
Qed.

Lemma degree_one_lookup a others :
  degree a others = 1 -> exists j b, others !! j = Some b /\ overlaps a b = true.
Proof.
  intros Hd. destruct (List.filter (fun b => overlaps a b) others) as [|b l] eqn:E; [by unfold degree in Hd; rewrite E in Hd|].
  assert (Hin : In b (b :: l)) by (by left). rewrite <- E in Hin. apply filter_In in Hin as [Hin Ho].
  apply list_elem_of_In, list_elem_of_lookup in Hin as [j Hj]. eauto.
Qed.

Lemma paired_matched i p :
  preds !! i = Some p ->
  match paired preds refs (Z.of_nat i) p with
  | Some r => matched preds refs p = true /\ r ∈ refs /\ overlaps p r = true
  | None => matched preds refs p = false
  end.
Proof.
  intros Hi. unfold paired, matched. destruct (Z.eqb_spec (degree p refs) 1) as [Hd|Hd]; cbn [negb andb]; [|done].
  destruct (degree_one_lookup p refs Hd) as (j & r & Hj & Ho).
  assert (Hpart : forall j' r', refs !! j' = Some r' -> overlaps p r' = true -> j' = j).
  { intros j' r' Hj' Ho'. pose proof (partner_from_spec 0 p refs (-1) j r Hd Hj Ho).
    pose proof (partner_from_spec 0 p refs (-1) j' r' Hd Hj' Ho'). lia. }
  assert (Ep : partner p refs = Z.of_nat j) by exact (partner_from_spec 0 p refs (-1) j r Hd Hj Ho).
  rewrite Ep, Nat2Z.id. unfold interval_at. rewrite (nth_lookup_Some _ _ _ _ Hj).
  assert (Hex : existsb (fun r => overlaps p r && (degree r preds =? 1)) refs = (degree r preds =? 1)).
  { apply eq_true_iff_eq. rewrite existsb_exists. split.
    - intros (r' & Hr' & [Ho' Hd']%andb_true_iff). apply list_elem_of_In, list_elem_of_lookup in Hr' as [j' Hj'].
      rewrite (Hpart j' r') in Hj' by done. congruence.
    - intros Hr. exists r. split; [apply list_elem_of_In; by apply list_elem_of_lookup_2 with j|]. by rewrite Ho, Hr. }
  rewrite Hex. destruct (Z.eqb_spec (degree r preds) 1) as [Hr|Hr]; cbn [negb orb]; [|done].
  assert (Er : partner r preds = Z.of_nat i)
    by (apply (partner_from_spec 0 r preds (-1) i p); [done|done|by rewrite overlaps_sym]).
  rewrite Er, Z.eqb_refl. cbn [negb]. split_and!; [done|by apply list_elem_of_lookup_2 with j|done].
Qed.

Lemma pairs_from_length done_ l :
  preds = done_ ++ l -> len (pairs_from preds refs (len done_) l) = count (matched preds refs) l.
Proof.
  revert done_. induction l as [|p l IH]; intros done_ E; [done|]. cbn [pairs_from].
  pose proof (paired_matched (length done_) p) as Hp. rewrite E, lookup_app_r, Nat.sub_diag in Hp by lia.
  specialize (Hp eq_refl). rewrite <- E in Hp. fold (len done_) in Hp.
  specialize (IH (done_ ++ [p])). rewrite <- app_assoc, len_app in IH. specialize (IH E).
  change (len [p]) with 1 in IH. unfold count. cbn [List.filter].
  destruct (paired _ _ _ _); [destruct Hp as [-> _]|rewrite Hp; exact IH].
  rewrite !len_cons. f_equal. exact IH.
Qed.

Lemma one_to_one_length : len (one_to_one preds refs) = count (matched preds refs) preds.
Proof. exact (pairs_from_length [] preds eq_refl). Qed.

End Pairs.

#[global] Instance matched_perm : Proper ((≡ₚ) ==> (≡ₚ) ==> (=) ==> (=)) matched.
Proof.
  intros l l' Hl o o' Ho p p' <-. unfold matched. f_equal; [by rewrite Ho|].
  apply eq_true_iff_eq. rewrite !existsb_exists. setoid_rewrite <- list_elem_of_In.
  setoid_rewrite Ho. by setoid_rewrite Hl.
Qed.

(** Utterance counts: references matched at least once plus their extra
    matches are the overlapping pairs, and so are predictions; nothing is
    counted as an error exactly when predictions and references pair off one
    to one; and the counts do not depend on the order of the intervals. *)
Theorem utterance_counts predictions references sampleRate :
  let m := ScoreUtterances predictions references sampleRate in
  let c := um_Counts m in
  let errors := Misses c + SplitExtras c + MergeExtras c + Spurious c in
  ReferenceCount c = len references /\ PredictionCount c = len predictions /\
  ReferenceCount c - Misses c + SplitExtras c = total (fun r => degree r predictions) references /\
  PredictionCount c - Spurious c + MergeExtras c = total (fun r => degree r predictions) references /\
  0 <= errors /\
  (errors = 0 <-> OneToOnePairs c = ReferenceCount c /\ OneToOnePairs c = PredictionCount c) /\
  forall predictions' references', predictions' ≡ₚ predictions -> references' ≡ₚ references ->
    um_Counts (ScoreUtterances predictions' references' sampleRate) = c.
Proof.
  assert (Hcounts : forall ps rs, um_Counts (ScoreUtterances ps rs sampleRate) =
    mkUtteranceCounts (len rs) (len ps) (unmatched rs ps) (extras rs ps) (extras ps rs) (unmatched ps rs)
      (count (matched ps rs) ps)).
  { intros ps rs. unfold ScoreUtterances. cbn [um_Counts]. rewrite one_to_one_length.
    pose proof (sort_starts_perm ps) as Hp. pose proof (sort_starts_perm rs) as Hr. unfold unmatched, extras.
    f_equal; try (by rewrite ?Hp, ?Hr);
      rewrite ?count_total, ?Hp, ?Hr; apply total_ext; intros x _; rewrite ?Hp, ?Hr; done. }
  cbn zeta. rewrite Hcounts. cbn [ReferenceCount PredictionCount Misses SplitExtras MergeExtras Spurious OneToOnePairs].
  pose proof (unmatched_extras_nonneg references predictions) as [H1 H2].
  pose proof (unmatched_extras_nonneg predictions references) as [H3 H4].
  split_and!; [done|done|apply degrees_balance| |lia| |].
  - rewrite degrees_balance. apply degrees_agree.
  - transitivity (unmatched references predictions + extras references predictions = 0 /\
      unmatched predictions references + extras predictions references = 0); [lia|].
    rewrite !no_errors. rewrite (matched_agree predictions references) at 1. rewrite !count_full.
    split; intros [Hr Hp].
    + assert (Hall : forall l o, Forall (fun a => degree a o =? 1) l -> Forall (fun a => degree a l =? 1) o ->
        Forall (matched l o) l).
      { intros l o Hl Ho. rewrite Forall_forall in *. intros a Ha. specialize (Hl a Ha). apply Is_true_true in Hl.
        apply Is_true_true. unfold matched. rewrite Hl. cbn [andb]. apply Z.eqb_eq in Hl.
        destruct (degree_one_lookup a o Hl) as (j & b & Hj%list_elem_of_lookup_2 & Hab). apply existsb_exists.
        exists b. split; [by apply list_elem_of_In|]. rewrite Hab. by apply Is_true_true, Ho. }
      split; apply Hall; done.
    + split; (eapply Forall_impl; [eassumption|]); intros a [Ha _]%Is_true_true%andb_true_iff; by apply Is_true_true.
  - intros ps rs Hps Hrs. rewrite Hcounts. unfold unmatched, extras.
    f_equal; try (by rewrite ?Hps, ?Hrs);
      rewrite ?count_total, ?Hps, ?Hrs; apply total_ext; intros x _; rewrite ?Hps, ?Hrs; done.
Qed.

(** ** A concrete score *)

Module ScoreDemo.

Definition iv := mkInterval.

(** One reference is split in two, one is missed, one is matched; a prediction
    spans two references. *)
Definition refs : list Interval := [iv 500 600; iv 0 100; iv 200 300; iv 350 400].
Definition preds : list Interval := [iv 210 380; iv 10 30; iv 50 90; iv 700 800].

Example utterances_scored :
  um_Counts (ScoreUtterances preds refs 16000) = mkUtteranceCounts 4 4 1 1 1 1 0 /\
  um_Counts (ScoreUtterances [iv 0 90; iv 210 310] [iv 200 300; iv 0 100] 10) = mkUtteranceCounts 2 2 0 0 0 0 2 /\
  StartErrorMedian (ScoreUtterances [iv 0 90; iv 210 310] [iv 200 300; iv 0 100] 10) = mkRatio (SFdiv 53 1024 (float64_of_Z 1) (float64_of_Z 2)) true /\
  EndErrorP95 (ScoreUtterances [iv 0 90; iv 210 310] [iv 200 300; iv 0 100] 10) = mkRatio (float64_of_Z 1) true /\
  UtteranceErrorRate (ScoreUtterances preds [] 10) = no_ratio.
Proof. repeat split; vm_compute; reflexivity. Qed.

Definition frames : list Frame :=
  [mkFrame 0 320 320 true; mkFrame 320 640 320 false; mkFrame 640 960 320 true; mkFrame 960 1280 100 false; mkFrame 1280 1600 0 true].

Example frames_scored : ScoreFrames frames [iv 960 1280; iv 0 330] = counts_of 320 320 0 420.
Proof. vm_compute. reflexivity. Qed.

Lemma ScoreFrames_exact_witness :
  ScoreFrames frames [iv 960 1280; iv 0 330] =
    counts_of (total (frame_weight [iv 0 330; iv 960 1280] true true) frames)
      (total (frame_weight [iv 0 330; iv 960 1280] true false) frames)
      (total (frame_weight [iv 0 330; iv 960 1280] false false) frames)
      (total (frame_weight [iv 0 330; iv 960 1280] false true) frames).
Proof.
  apply (ScoreFrames_exact 3 frames [iv 960 1280; iv 0 330] [iv 0 330; iv 960 1280]).
  - lia.
  - apply Permutation_swap.
  - repeat constructor. all: unfold apart; cbn; lia.
  - repeat constructor.
  - reflexivity.
Defined.

End ScoreDemo.
