(* ===== verification/EvalRun.v ===== *)
(** One run of a detector over a recording,
    [cmd/whisper-cpp-streaming/ami-eval/internal/evaluate/runner.go].

    [Run] feeds the recording and then silence to a production session
    ([Streaming]) through an observing detector, and collects the session's
    final segments in a tracker that the session's goroutine calls.  A run is a
    sequence of [harness_step]: [feedAll] goes from call to call, the
    goroutine of the session transcribes, calls [onCallback] and hands off, and
    the deadline or the caller's context may end the run at any moment.  The
    tracker is shared without a lock: [onFeed] is a load and a store, and
    [onCallback] tests its guard and then writes. *)

From stdpp Require Import base list list_numbers strings.
From Stdlib Require Import ZArith Lia SpecFloat.
From S2P Require Import GoInt Streaming Annotation EvalScore WavFile.

Local Open Scope Z_scope.

Definition eval_SampleRate : Z := 16000.
Definition FeedSamples : Z := Z.quot eval_SampleRate 5.
Definition VADFrameSamples : Z := Z.quot eval_SampleRate 50.

(** ** The observing detector *)

Record Observation := mkObservation { o_Start : Z; o_End : Z; o_Speech : bool }.

Record observingVAD (V : Type) := mkObserving {
  inner : V;
  cursor : Z;
  observations : list Observation }.
Arguments mkObserving {V}.
Arguments inner {V}.
Arguments cursor {V}.
Arguments observations {V}.

#[export] Instance observing_vad {V} `{VAD V} : VAD (observingVAD V) := fun o frame =>
  let start := cursor o in
  let end_ := wrap64 (start + len frame) in
  let '(speech, v) := IsSpeech (inner o) frame in
  (speech, mkObserving v end_ (observations o ++ [mkObservation start end_ speech])).

Definition constantTranscribe (samples : list float64) : transcribe_result := TrText "speech".

(** ** The tracker *)

Inductive evaluate_error :=
| ErrSink (msg : string)
| ErrNoFeed (final : bool) (startMS endMS : Z)
| ErrTrailing
| ErrDetector (msg : string)
| ErrSession (msg : string)
| ErrDeadline
| ErrContext.

Record callbackTracker := mkTracker {
  feedsSinceClose : Z;
  open_ : bool;
  predicted : list Interval;
  fatal : option evaluate_error }.

Definition new_tracker : callbackTracker := mkTracker 0 false [] None.

(** [float64(ms) * float64(SampleRate) / 1000.0], rounded. *)
Definition msToSamples (ms : Z) : Z :=
  default 0 (Round (SFdiv 53 1024 (SFmul 53 1024 (float64_of_Z ms) (float64_of_Z eval_SampleRate)) (float64_of_Z 1000))).

(** The first part of [onCallback]: its returns, and the segment that it
    accepts. *)
Definition callback_guard (seg : option StreamingSegment) (err : option string) (t : callbackTracker)
  : callbackTracker * option StreamingSegment :=
  let fail e := mkTracker (feedsSinceClose t) (open_ t) (predicted t) (Some e) in
  match fatal t, err, seg with
  | Some _, _, _ => (t, None)
  | None, Some msg, _ => (fail (ErrSink msg), None)
  | None, None, Some seg =>
      if feedsSinceClose t =? 0 then (fail (ErrNoFeed (Final seg) (StartMS seg) (EndMS seg)), None)
      else (t, Some seg)
  | None, None, None => (t, None)
  end.

(** The rest of it. *)
Definition callback_accept (seg : StreamingSegment) (t : callbackTracker) : callbackTracker :=
  if Final seg
  then mkTracker 0 false (predicted t ++ [mkInterval (msToSamples (StartMS seg)) (msToSamples (EndMS seg))]) (fatal t)
  else mkTracker (feedsSinceClose t) true (predicted t) (fatal t).

Definition tracker_finish (t : callbackTracker) : option evaluate_error :=
  match fatal t with
  | Some e => Some e
  | None => if open_ t then Some ErrTrailing else None
  end.

Definition set_feeds (n : Z) (t : callbackTracker) : callbackTracker :=
  mkTracker n (open_ t) (predicted t) (fatal t).

(** ** What is fed *)

(** The chunks of the recording, the last padded with silence. *)
Fixpoint audio_chunks (fuel : nat) (audio : list float64) : list (list float64) :=
  match fuel, audio with
  | _, [] | O, _ => []
  | S fuel, _ =>
      let n := Z.to_nat FeedSamples in
      if (n <=? length audio)%nat then take n audio :: audio_chunks fuel (drop n audio)
      else [audio ++ replicate (n - length audio) (S754_zero false)]
  end.

(** The flush: one chunk of silence for each round of
    [for flushed := 0; flushed <= threshold; flushed += perFeed]. *)
Fixpoint flush_chunks (fuel : nat) (flushed threshold perFeed : Z) : list (list float64) :=
  match fuel with
  | O => []
  | S fuel =>
      if flushed <=? threshold
      then replicate (Z.to_nat FeedSamples) (S754_zero false) :: flush_chunks fuel (flushed + perFeed) threshold perFeed
      else []
  end.

Definition perFeed : Z := Z.quot (FeedSamples * second) eval_SampleRate.

Definition flush_threshold (cfg : StreamingConfig) : Z := SilenceHysteresis cfg + SilenceDuration cfg + VADFrame cfg.

(** [threshold / perFeed + 1] rounds are enough fuel. *)
Definition feed_plan (cfg : StreamingConfig) (audio : list float64) : list (list float64) :=
  audio_chunks (length audio) audio ++
  flush_chunks (S (Z.to_nat (Z.quot (flush_threshold cfg) perFeed))) 0 (flush_threshold cfg) perFeed.

(** ** Collecting *)

Definition clip (audioSamples : Z) (p : Interval) : Interval :=
  let start := if Start p <? 0 then 0 else Start p in
  let end_ := if audioSamples <? End_ p then audioSamples else End_ p in
  let start := if audioSamples <? start then audioSamples else start in
  let end_ := if end_ <? start then start else end_ in
  mkInterval start end_.

Definition clipToAudioExtent (predicted : list Interval) (audioSamples : Z) : list Interval :=
  map (clip audioSamples) predicted.

Definition frame_of (validSamples : Z) (o : Observation) : Frame :=
  let valid := o_End o - o_Start o in
  let valid := if validSamples <=? o_Start o then 0
               else if validSamples <? o_End o then validSamples - o_Start o else valid in
  let valid := if valid <? 0 then 0 else valid in
  mkFrame (o_Start o) (o_End o) valid (o_Speech o).

Definition framesFromObservations (obs : list Observation) (validSamples : Z) : list Frame :=
  map (frame_of validSamples) obs.

Record RunResult := mkRunResult { Frames : list Frame; run_Predicted : list Interval }.

(** [Deadline]: between one and thirty minutes, twice the audio's duration. *)
Definition Deadline (audioDuration : Z) : Z :=
  let d := wrap64 (2 * audioDuration) in
  let d := if d <? 60 * second then 60 * second else d in
  if 30 * (60 * second) <? d then 30 * (60 * second) else d.

(** ** The run *)

(** Where [feedAll] is, with the chunks still to feed. *)
Inductive feed_pc :=
| AtFeed (chunks : list (list float64))
| AtLoad (chunks : list (list float64))
| AtStore (loaded : Z) (chunks : list (list float64))
| AtWait (chunks : list (list float64))
| FeedDone (err : option evaluate_error).

(** Where the session's goroutine is in [onCallback]. *)
Inductive callback_pc :=
| NoCallback
| InGuard (seg : option StreamingSegment) (err : option string)
| InAccept (seg : StreamingSegment).

Record harness (V : Type) := mkHarness {
  h_session : StreamingSession (@Detector (observingVAD V));
  h_tracker : callbackTracker;
  h_callback : callback_pc;
  h_feeder : feed_pc;
  h_result : option (result evaluate_error RunResult) }.
Arguments mkHarness {V}.
Arguments h_session {V}.
Arguments h_tracker {V}.
Arguments h_callback {V}.
Arguments h_feeder {V}.
Arguments h_result {V}.

Inductive harness_action := Feeder | Worker | Collect | TimeOut | Cancel.

Section Harness.
Context {V : Type} `{VAD V}.
Variable cfg : StreamingConfig.
Variable audio : list float64.

Definition next_chunk (chunks : list (list float64)) : feed_pc :=
  match chunks with [] => FeedDone None | _ => AtFeed chunks end.

Definition feeder_step (h : harness V) : option (harness V) :=
  let '(mkHarness s t cb pc res) := h in
  match pc with
  | AtFeed (chunk :: chunks) => Some (mkHarness (Feed cfg chunk s) t cb (AtLoad chunks) res)
  | AtLoad chunks => Some (mkHarness s t cb (AtStore (feedsSinceClose t) chunks) res)
  | AtStore n chunks => Some (mkHarness s (set_feeds (wrap64 (n + 1)) t) cb (AtWait chunks) res)
  | AtWait chunks =>
      match worker s with
      | Some _ => None
      | None => Some (mkHarness s t cb (match fatal t with Some e => FeedDone (Some e) | None => next_chunk chunks end) res)
      end
  | AtFeed [] | FeedDone _ => None
  end.

(** What the goroutine passes to [onCallback] when a transcription returns. *)
Definition callback_of (s : StreamingSession (@Detector (observingVAD V))) : callback_pc :=
  match last (events s) with
  | Some (EvEmit seg err) => InGuard seg err
  | _ => NoCallback
  end.

Definition worker_step (h : harness V) : option (harness V) :=
  let '(mkHarness s t cb pc res) := h in
  match cb with
  | InGuard seg err =>
      let '(t, accepted) := callback_guard seg err t in
      Some (mkHarness s t (match accepted with Some seg => InAccept seg | None => NoCallback end) pc res)
  | InAccept seg => Some (mkHarness s (callback_accept seg t) NoCallback pc res)
  | NoCallback =>
      match worker s with
      | Some (Transcribing _ job) =>
          s ← transcribe_returns cfg (constantTranscribe (samples job)) s;
          Some (mkHarness s t (callback_of s) pc res)
      | Some HandingOff => s ← handoff s; Some (mkHarness s t NoCallback pc res)
      | None => None
      end
  end.

Definition detector_observations (d : @Detector (observingVAD V)) : list Observation :=
  match d with DetectCustom o => observations o | DetectEnergy _ => [] end.

(** What [Run] returns after [feedAll]. *)
Definition collected (err : option evaluate_error) (h : harness V) : result evaluate_error RunResult :=
  match err with
  | Some e => Err e
  | None =>
      match tracker_finish (h_tracker h) with
      | Some e => Err e
      | None => Ok (mkRunResult
                      (framesFromObservations (detector_observations (detector (h_session h))) (len audio))
                      (clipToAudioExtent (predicted (h_tracker h)) (len audio)))
      end
  end.

Definition set_result (r : result evaluate_error RunResult) (h : harness V) : harness V :=
  mkHarness (h_session h) (h_tracker h) (h_callback h) (h_feeder h) (Some r).

Definition harness_step (h : harness V) (a : harness_action) : option (harness V) :=
  match a with
  | Feeder => feeder_step h
  | Worker => worker_step h
  | Collect =>
      match h_result h, h_feeder h with
      | None, FeedDone err => Some (set_result (collected err h) h)
      | _, _ => None
      end
  | TimeOut => match h_result h with None => Some (set_result (Err ErrDeadline) h) | Some _ => None end
  | Cancel => match h_result h with None => Some (set_result (Err ErrContext) h) | Some _ => None end
  end.

(** [Run] up to the goroutine that calls [feedAll]. *)
Definition Run (vad : result string V) : result evaluate_error (harness V) :=
  match vad with
  | Err msg => Err (ErrDetector msg)
  | Ok v =>
      match NewStreamingSession cfg (Some (mkObserving v 0 [])) true true with
      | Err msg => Err (ErrSession msg)
      | Ok s => Ok (mkHarness s new_tracker NoCallback (next_chunk (feed_plan cfg audio)) None)
      end
  end.

End Harness.
