(* ===== verification/EvalRunFrames.v ===== *)
(** What a run of a detector is made of: the effect of one frame on a session,
    of one feed on the callbacks to come, and what the observing detector
    records.  [EvalRunProps] proves the theorems from these lemmas. *)

From stdpp Require Import base list list_numbers strings.
From Stdlib Require Import ZArith Lia SpecFloat.
From S2P Require Import GoInt GoStrings Streaming StreamingProps Annotation EvalScore WavFile EvalRun.

Local Open Scope Z_scope.

Abbreviation cfg := DefaultStreamingConfig.
Abbreviation frame_len := 320%nat.
Abbreviation feed_len := 3200%nat.

Lemma max_window : session_durationSamples cfg (MaxWindow cfg) = 480000.
Proof. reflexivity. Qed.
Lemma partial_interval : session_durationSamples cfg (PartialInterval cfg) = 24000.
Proof. reflexivity. Qed.
Lemma hysteresis : session_durationSamples cfg (SilenceHysteresis cfg) = 4800.
Proof. reflexivity. Qed.
Lemma silence_duration : session_durationSamples cfg (SilenceDuration cfg) = 11200.
Proof. reflexivity. Qed.
Lemma subframe : session_durationSamples cfg (VADFrame cfg) = 320.
Proof. reflexivity. Qed.

(** ** One classified frame *)

Section Frames.
Context {D : Type} `{VAD D}.
Abbreviation session := (StreamingSession D).

(** Nothing has been launched for [k] frames: no transcription can be due for
    another twenty. *)
Definition calm (k : Z) (s : session) : Prop :=
  speechSincePartial s <= 320 * k /\ len (window s) <= 320 * k /\ lowEnergySamples s <= 4800 + 320 * k.

Lemma calm_mono j k s : j <= k -> calm j s -> calm k s.
Proof. unfold calm. lia. Qed.

(** The goroutine and its queue are as before. *)
Definition same_jobs (s s' : session) : Prop :=
  worker s' = worker s /\ pendingCommits s' = pendingCommits s /\ events s' = events s /\
  transcriptionInFlight s' = transcriptionInFlight s.

(** What one frame may do. *)
Inductive frame_effect (s s' : session) : Prop :=
| effect_none :
    same_jobs s s' -> (window s <> [] -> window s' <> []) ->
    (forall k, k < 20 -> calm k s -> calm (k + 1) s') -> frame_effect s s'
| effect_partial j :
    worker s = None -> worker s' = Some (Transcribing false j) -> pendingCommits s' = pendingCommits s ->
    events s' = events s ++ [EvTranscribe false j] -> window s' <> [] -> (forall k, k < 20 -> ~ calm k s) ->
    frame_effect s s'
| effect_launched c :
    worker s = None -> worker s' = Some (Transcribing true c) -> pendingCommits s' = pendingCommits s ->
    events s' = events s ++ [EvTranscribe true c] -> calm 0 s' -> (forall k, k < 20 -> ~ calm k s) ->
    frame_effect s s'
| effect_queued w c :
    worker s = Some w -> worker s' = Some w -> pendingCommits s' = pendingCommits s ++ [c] ->
    events s' = events s -> calm 0 s' -> (forall k, k < 20 -> ~ calm k s) ->
    frame_effect s s'.

Lemma start_partial (s : session) :
  queue_inv s -> window s <> [] ->
  (worker s = None /\ exists j, startTranscriptionLocked false s = launchTranscriptionLocked false j s) \/
  (worker s <> None /\ startTranscriptionLocked false s = s).
Proof.
  intros (Hf & _) Hw. unfold startTranscriptionLocked. destruct (Z.eqb_spec (len (window s)) 0) as [E|_].
  { by apply len_zero in E. }
  rewrite Hf. destruct (worker s); [by right|]. left. eauto.
Qed.

Lemma start_final (s : session) :
  queue_inv s -> window s <> [] -> (length (pendingCommits s) < maxPendingCommits)%nat ->
  let c := mkCommit (window s) (windowStartSample s) (lastSpeechEndSample s) in
  startTranscriptionLocked true s =
  match worker s with
  | None => launchTranscriptionLocked true c s
  | Some _ => set_pendingCommits (pendingCommits s ++ [c]) s
  end.
Proof.
  intros (Hf & _) Hw Hq c. unfold startTranscriptionLocked. destruct (Z.eqb_spec (len (window s)) 0) as [E|_].
  { by apply len_zero in E. }
  rewrite Hf. destruct (worker s); [|done]. unfold queueCommitLocked.
  destruct (Nat.leb_spec maxPendingCommits (length (pendingCommits s))); [lia|done].
Qed.

Lemma start_final_empty (s : session) : window s = [] -> startTranscriptionLocked true s = s.
Proof. intros Hw. unfold startTranscriptionLocked. by rewrite Hw. Qed.

(** Appending one frame. *)
Lemma append_effect (frame : list float64) (s0 s : session) :
  len frame = 320 -> queue_inv s -> (length (pendingCommits s) < maxPendingCommits)%nat ->
  same_jobs s0 s -> window s = window s0 -> speechSincePartial s = speechSincePartial s0 ->
  lowEnergySamples s <= 4800 -> lowEnergySamples s <= Z.max 0 (lowEnergySamples s0) + 320 ->
  frame_effect s0 (appendSpeechLocked cfg frame s).
Proof.
  intros Hlen Hq Hpend (Ew & Ep & Ee & Ef) Ewin Essp Hlow Hlow'.
  unfold appendSpeechLocked. set (s1 := set_window _ _). pose proof (len_nonneg (window s0)).
  assert (Hne : window s1 <> []).
  { cbn. intros E. apply app_eq_nil in E as [_ E]. by rewrite E in Hlen. }
  unfold boundWindow. rewrite max_window, partial_interval.
  change (len (window s1)) with (len (window s ++ frame)). rewrite len_app, Hlen, Ewin.
  destruct (Z.leb_spec (len (window s0) + 320) 480000) as [Hle|Hgt].
  - change (speechSincePartial s1) with (speechSincePartial s + len frame). rewrite Hlen, Essp.
    destruct (Z.leb_spec 24000 (speechSincePartial s0 + 320)) as [Hp|Hp].
    + destruct (start_partial (set_speechSincePartial 0 s1) Hq Hne) as [[Hw [j ->]]|[Hw ->]].
      * change (worker s = None) in Hw. apply (effect_partial _ _ j); try done; try (cbn; congruence). intros k Hk (? & ? & ?). lia.
      * apply effect_none; [done|done|]. intros k Hk (? & ? & ?). lia.
    + apply effect_none; [done|done|]. intros k Hk (? & ? & ?). unfold calm. cbn.
      rewrite len_app, Hlen, Ewin, Essp. lia.
  - rewrite start_final by done. set (c := mkCommit _ _ _). change (worker s1) with (worker s). rewrite Ew.
    assert (Hnc : forall k, k < 20 -> ~ calm k s0) by (intros k Hk (? & ? & ?); lia).
    destruct (worker s0) as [w|] eqn:Ew0; cbn [speechSincePartial beginNextWindowLocked set_lastSpeechEndSample
      set_windowStartSample set_speechSincePartial set_window Z.leb Z.compare].
    + apply (effect_queued _ _ w c); try done; try (cbn; congruence).
    + apply (effect_launched _ _ c); try done; try (cbn; congruence).
Qed.

Lemma append_low (frame : list float64) (s : session) :
  lowEnergySamples (appendSpeechLocked cfg frame s) = lowEnergySamples s.
Proof.
  unfold appendSpeechLocked, boundWindow, startTranscriptionLocked, queueCommitLocked, launchTranscriptionLocked.
  cbn -[session_durationSamples]. repeat case_match; done.
Qed.

(** Closing an utterance. *)
Lemma close_effect (s0 s : session) :
  queue_inv s -> (length (pendingCommits s) < maxPendingCommits)%nat ->
  same_jobs s0 s -> window s = window s0 -> 15680 <= lowEnergySamples s0 ->
  frame_effect s0 (resetUtteranceLocked (startTranscriptionLocked true s)).
Proof.
  intros Hq Hpend (Ew & Ep & Ee & Ef) Ewin Hlow.
  assert (Hnc : forall k, k < 20 -> ~ calm k s0) by (intros k Hk (? & ? & ?); lia).
  destruct (decide (window s = [])) as [E|Hne].
  - rewrite start_final_empty by done. apply effect_none; [done|cbn; congruence|].
    intros k Hk Hc. by destruct (Hnc k Hk).
  - rewrite start_final by done. set (c := mkCommit _ _ _). rewrite Ew. destruct (worker s0) as [w|] eqn:Ew0.
    + apply (effect_queued _ _ w c); try done; try (cbn; congruence).
    + apply (effect_launched _ _ c); try done; try (cbn; congruence).
Qed.

Lemma classify_effect frame (s : session) :
  len frame = 320 -> queue_inv s -> (length (pendingCommits s) < maxPendingCommits)%nat ->
  utterance_inv cfg (utterance_of s) -> 0 <= lowEnergySamples s ->
  frame_effect s (classifyLocked cfg frame s) /\ 0 <= lowEnergySamples (classifyLocked cfg frame s).
Proof.
  intros Hlen Hq Hpend Hu Hlow. unfold classifyLocked. destruct (IsSpeech (detector s) frame) as [b d].
  cbn [active set_totalSamples set_detector]. destruct b.
  - rewrite append_low. split; [|done].
    apply append_effect; try done; destruct (active s); try done; cbn; lia.
  - destruct (active s) eqn:Ea; cbn [negb].
    2: { split; [|done]. apply effect_none; [done|done|]. intros k Hk (? & ? & ?). unfold calm. cbn. lia. }
    set (s1 := set_lowEnergySamples _ _). change (lowEnergySamples s1) with (lowEnergySamples s + len frame).
    rewrite Hlen, hysteresis, silence_duration.
    destruct (Z.leb_spec (lowEnergySamples s + 320) 4800) as [Hh|Hh].
    + rewrite append_low. change (lowEnergySamples s1) with (lowEnergySamples s + len frame). split; [|lia].
      apply append_effect; try done; change (lowEnergySamples s1) with (lowEnergySamples s + len frame); lia.
    + cbn [continuousSilence set_continuousSilence].
      destruct (Z.leb_spec 11200 (lowEnergySamples s + 320 - 4800)).
      * split; [|done]. apply close_effect; try done. lia.
      * split; [|cbn; lia]. apply effect_none; [done|done|]. intros k Hk (? & ? & ?). unfold calm. cbn. lia.
Qed.

(** ** One feed *)

Definition good (s : session) : Prop :=
  queue_inv s /\ utterance_inv cfg (utterance_of s) /\ 0 <= lowEnergySamples s.

Lemma classify_good frame (s : session) :
  len frame = 320 -> (length (pendingCommits s) < maxPendingCommits)%nat -> good s -> good (classifyLocked cfg frame s).
Proof.
  intros Hlen Hp (Hq & Hu & Hl). destruct (classify_effect frame s Hlen Hq Hp Hu Hl) as [_ Hl'].
  pose proof (classify_refines cfg frame s Hq) as Hr. destruct (seg_frame cfg frame _) as [[d u] cs] eqn:E.
  apply seg_frame_inv in E as [Hu' _]; [|done|done]. destruct Hr as (Hq' & _ & Hg). cbn in Hg.
  split_and!; [done| |done]. apply (f_equal (fun g => (seg_state g).2)) in Hg. cbn in Hg. by rewrite Hg.
Qed.

(** The session [n] frames into a feed that began at [s0] with no
    transcription running: nothing launched; a partial launched; or one final
    launched, or queued behind the partial. *)
Inductive feed_state (s0 : session) (n : Z) (s : session) : Prop :=
| feed_fresh :
    same_jobs s0 s -> (window s0 <> [] -> window s <> []) ->
    (forall k, k + n <= 20 -> calm k s0 -> calm (k + n) s) -> feed_state s0 n s
| feed_partial j :
    worker s = Some (Transcribing false j) -> pendingCommits s = [] ->
    events s = events s0 ++ [EvTranscribe false j] -> window s <> [] ->
    (forall k, k + n <= 20 -> ~ calm k s0) -> feed_state s0 n s
| feed_final c es :
    calm n s -> events s = events s0 ++ es -> evicted_jobs es = [] -> launched_finals es ++ pendingCommits s = [c] ->
    (worker s = Some (Transcribing true c) /\ pendingCommits s = [] \/
     exists j, worker s = Some (Transcribing false j) /\ pendingCommits s = [c]) ->
    (forall k, k + n <= 20 -> ~ calm k s0) -> feed_state s0 n s.

Lemma feed_state_queue s0 n s :
  pendingCommits s0 = [] -> feed_state s0 n s -> (length (pendingCommits s) < maxPendingCommits)%nat.
Proof.
  intros Hp [(_ & E & _) _ _|j _ E _ _ _|c es _ _ _ _ [[_ E]|(j & _ & E)] _]; rewrite E, ?Hp; unfold maxPendingCommits; cbn; lia.
Qed.

Lemma feed_state_pending s0 n s p : feed_state s0 n s -> feed_state s0 n (set_pending p s).
Proof. destruct 1; [by apply feed_fresh|by eapply feed_partial|by eapply feed_final]. Qed.

Lemma feed_state_step s0 n s s' :
  worker s0 = None -> pendingCommits s0 = [] -> 0 <= n < 20 ->
  feed_state s0 n s -> frame_effect s s' -> feed_state s0 (n + 1) s'.
Proof.
  intros Hw0 Hp0 Hn [(Ew & Ep & Ee & Ef) Hwin Hc|j Ew Ep Ee Hwin Hc|c es Hcalm Ee Hev Hl Hj Hc] Heff.
  - destruct Heff as [(Ew' & Ep' & Ee' & Ef') Hwin' Hc'|j Hw Hw' Ep' Ee' Hwin' Hc'|c Hw Hw' Ep' Ee' Hc0 Hc'|w c Hw Hw' Ep' Ee' Hc0 Hc'].
    + apply feed_fresh; [split_and!; congruence|auto|]. intros k Hk Hk0.
      replace (k + (n + 1)) with (k + n + 1) by lia. apply Hc'; [lia|]. apply Hc; [lia|done].
    + apply (feed_partial _ _ _ j); [done|congruence|congruence|done|]. intros k Hk Hk0.
      apply (Hc' (k + n)); [lia|]. apply Hc; [lia|done].
    + apply (feed_final _ _ _ c [EvTranscribe true c]); [|congruence|done| |by left; split; congruence|].
      * eapply calm_mono; [|exact Hc0]. lia.
      * cbn. rewrite Ep', Ep, Hp0. done.
      * intros k Hk Hk0. apply (Hc' (k + n)); [lia|]. apply Hc; [lia|done].
    + congruence.
  - destruct Heff as [(Ew' & Ep' & Ee' & Ef') Hwin' Hc'|j' Hw Hw' Ep' Ee' Hwin' Hc'|c Hw Hw' Ep' Ee' Hc0 Hc'|w c Hw Hw' Ep' Ee' Hc0 Hc'];
      [|congruence|congruence|].
    + apply (feed_partial _ _ _ j); [congruence|congruence|congruence|auto|]. intros k Hk. apply Hc. lia.
    + apply (feed_final _ _ _ c [EvTranscribe false j]); [|congruence|done| | |intros k Hk; apply Hc; lia].
      * eapply calm_mono; [|exact Hc0]. lia.
      * cbn. rewrite Ep', Ep. done.
      * right. exists j. split; [congruence|by rewrite Ep', Ep].
  - destruct Heff as [(Ew' & Ep' & Ee' & Ef') Hwin' Hc'|j' Hw Hw' Ep' Ee' Hwin' Hc'|c' Hw Hw' Ep' Ee' Hc0 Hc'|w c' Hw Hw' Ep' Ee' Hc0 Hc'];
      [|by destruct (Hc' n ltac:(lia) Hcalm)..].
    apply (feed_final _ _ _ c es); [apply Hc'; [lia|done]|congruence|done|by rewrite Ep'| |intros k Hk; apply Hc; lia].
    rewrite Ew', Ep'. exact Hj.
Qed.

Lemma feed_loop_state s0 m fuel s n :
  worker s0 = None -> pendingCommits s0 = [] ->
  length (pending s) = (320 * m)%nat -> (m < fuel)%nat -> 0 <= n -> n + Z.of_nat m <= 20 ->
  good s -> feed_state s0 n s ->
  let s' := feed_loop cfg fuel 320 s in
  pending s' = [] /\ good s' /\ feed_state s0 (n + Z.of_nat m) s'.
Proof.
  intros Hw0 Hp0. revert m s n. induction fuel as [|fuel IH]; intros m s n Hlen Hm Hn Hnm Hg Hf; [lia|].
  cbn [feed_loop]. destruct m as [|m].
  - destruct (Nat.leb_spec 320 (length (pending s))); [lia|].
    split_and!; [apply nil_length_inv; lia|done|by rewrite Z.add_0_r].
  - destruct (Nat.leb_spec 320 (length (pending s))) as [Hle|]; [|lia].
    pose proof (feed_state_queue s0 n s Hp0 Hf) as Hq.
    assert (Hfl : len (take 320 (pending s)) = 320) by (unfold len; rewrite length_take; lia).
    destruct Hg as (Hg1 & Hg2 & Hg3).
    destruct (classify_effect (take 320 (pending s)) s Hfl Hg1 Hq Hg2 Hg3) as [Heff _].
    replace (n + Z.of_nat (S m)) with (n + 1 + Z.of_nat m) by lia.
    apply IH; [|lia|lia|lia| |].
    + cbn. rewrite length_drop. lia.
    + exact (classify_good _ s Hfl Hq (conj Hg1 (conj Hg2 Hg3))).
    + apply feed_state_pending. apply (feed_state_step s0 n s); [done..|lia|done|done].
Qed.

Lemma feed_state_submitted s0 s :
  pendingCommits s0 = [] -> evicted s0 = [] -> feed_state s0 10 s ->
  evicted s = [] /\ exists cs, submitted s = submitted s0 ++ cs.
Proof.
  unfold evicted, submitted. intros Hp0 He0 [(_ & Ep & Ee & _) _ _|j _ Ep Ee _ _|c es _ Ee Hev Hl _ _]; rewrite Ee.
  - split; [done|]. exists []. by rewrite Ep, app_nil_r.
  - rewrite evicted_jobs_app, He0. split; [done|]. exists []. rewrite launched_finals_app, Ep, Hp0. cbn. by rewrite !app_nil_r.
  - rewrite evicted_jobs_app, He0. split; [done|]. exists [c]. by rewrite launched_finals_app, Hp0, app_nil_r, <- app_assoc, Hl.
Qed.

(** A whole feed of ten frames. *)
Lemma Feed_state chunk (s : session) :
  length chunk = feed_len -> pending s = [] -> worker s = None -> pendingCommits s = [] -> evicted s = [] -> good s ->
  let s' := Feed cfg chunk s in
  pending s' = [] /\ evicted s' = [] /\ good s' /\ feed_state s 10 s' /\
  exists cs, seg_feed cfg chunk (seg_of s) = (seg_of s', cs) /\ submitted s' = submitted s ++ cs.
Proof.
  intros Hlen Hp Hw Hpc Hev Hg s'.
  assert (H1 : pending s' = [] /\ good s' /\ feed_state s 10 s').
  { unfold s', Feed. destruct chunk as [|x chunk']; [done|]. set (chunk := x :: chunk') in *.
    rewrite subframe. cbn [Z.leb Z.compare]. rewrite Hp. cbn [app pending set_pending]. rewrite Hlen.
    change (Z.to_nat 320) with 320%nat.
    apply (feed_loop_state s 10 feed_len (set_pending chunk s) 0); [done|done|done|lia|lia|lia|exact Hg|].
    apply feed_state_pending, feed_fresh; [done|done|]. intros k _. by rewrite Z.add_0_r. }
  destruct H1 as (Hp' & Hg' & Hf). destruct (feed_state_submitted s s' Hpc Hev Hf) as [Hev' _].
  split_and!; [done..|]. destruct Hg as (Hq & _).
  pose proof (Feed_refines cfg chunk s Hq) as (_ & Hc & Hgf). fold s' in Hc, Hgf.
  destruct (seg_feed cfg chunk (seg_of s)) as [g cs]. cbn in *. subst g. exists cs. split; [done|].
  apply commits_exact; [done|congruence].
Qed.

End Frames.

(** ** What is observed *)

(** One silent frame. *)
Definition silence : list float64 := replicate frame_len (S754_zero false).

Lemma len_silence : len silence = 320.
Proof. reflexivity. Qed.

#[global] Opaque silence.

Section Observed.
Context {V : Type} `{VAD V}.

(** The detector's decisions on the frames from sample [start]. *)
Fixpoint decisions (start : Z) (v : V) (frames : list (list float64)) : list Observation :=
  match frames with
  | [] => []
  | f :: frames =>
      let '(b, v) := IsSpeech v f in
      mkObservation start (start + len f) b :: decisions (start + len f) v frames
  end.

Definition frames_len (frames : list (list float64)) : Z := len (concat frames).

Lemma frames_len_cons f frames : frames_len (f :: frames) = len f + frames_len frames.
Proof. unfold frames_len. cbn [concat]. apply len_app. Qed.

(** Observing does not change what is segmented. *)
Lemma seg_run_observed frames (v : V) cur obs u :
  0 <= cur -> cur + frames_len frames <= int64_max ->
  seg_run cfg frames (DetectCustom (mkObserving v cur obs), u) =
  let '((v', u'), cs) := seg_run cfg frames (v, u) in
  ((DetectCustom (mkObserving v' (cur + frames_len frames) (obs ++ decisions cur v frames)), u'), cs).
Proof.
  revert v cur obs u. induction frames as [|f frames IH]; intros v cur obs u Hcur Hmax; cbn [seg_run decisions].
  { change (frames_len []) with 0. by rewrite Z.add_0_r, app_nil_r. }
  rewrite frames_len_cons in Hmax |- *. pose proof (len_nonneg f). assert (0 <= frames_len frames) by apply len_nonneg.
  assert (Hw : wrap64 (cur + len f) = cur + len f) by (apply wrap64_id; unfold in_int64, int64_min; lia).
  assert (Hf : seg_frame cfg f (DetectCustom (mkObserving v cur obs), u) =
    let '(b, v') := IsSpeech v f in
    let '((_, u'), cs) := seg_frame cfg f (v, u) in
    ((DetectCustom (mkObserving v' (cur + len f) (obs ++ [mkObservation cur (cur + len f) b])), u'), cs)).
  { unfold seg_frame. unfold IsSpeech at 1. unfold detector_vad. unfold IsSpeech at 1. unfold observing_vad. cbn [inner cursor observations].
    rewrite Hw. destruct (IsSpeech v f) as [b v']. destruct b; [by destruct (seg_append _ _ _)|].
    destruct (negb _); [done|]. destruct (_ <=? _); [by destruct (seg_append _ _ _)|].
    destruct (_ <=? _); [by destruct (seg_close _)|done]. }
  rewrite Hf. destruct (IsSpeech v f) as [b v'] eqn:Ev.
  assert (Hv : fst (fst (seg_frame cfg f (v, u))) = v').
  { unfold seg_frame. rewrite Ev. destruct b; [by destruct (seg_append _ _ _)|].
    destruct (negb _); [done|]. destruct (_ <=? _); [by destruct (seg_append _ _ _)|].
    destruct (_ <=? _); [by destruct (seg_close _)|done]. }
  destruct (seg_frame cfg f (v, u)) as [[v1 u1] cs1]. cbn in Hv. subst v1.
  rewrite IH by lia. destruct (seg_run cfg frames (v', u1)) as [[v2 u2] cs2].
  by rewrite <- app_assoc, Z.add_assoc.
Qed.

(** ** Silence at the end *)

Variable quiet : V -> Prop.
Hypothesis quiet_step : forall v f, quiet v -> quiet (snd (IsSpeech v f)).
Hypothesis quiet_silent : forall v, quiet v -> fst (IsSpeech v silence) = false.

Lemma seg_append_low frame u : u_low (fst (seg_append cfg frame u)) = u_low u /\ u_active (fst (seg_append cfg frame u)) = u_active u.
Proof. unfold seg_append. by destruct (_ <=? _). Qed.

Lemma silent_frame k (v : V) u :
  quiet v -> u_active u = false \/ k <= u_low u ->
  let '((v', u'), cs) := seg_frame cfg silence (v, u) in
  quiet v' /\ (u_active u' = false \/ k + 320 <= u_low u' < 16000).
Proof.
  intros Hv Hu. pose proof (quiet_step v silence Hv) as Hv'. pose proof (quiet_silent v Hv) as Hs.
  unfold seg_frame. destruct (IsSpeech v silence) as [b v']. cbn [fst snd] in *. subst b.
  destruct (u_active u) eqn:Ea; cbn [negb]; [|split; [done|by left]].
  destruct Hu as [|Hu]; [done|]. rewrite len_silence. rewrite hysteresis, silence_duration.
  destruct (Z.leb_spec (u_low u + 320) 4800).
  - set (u1 := mkUtterance _ _ _ _ _ _). pose proof (seg_append_low silence u1) as [H1 H2].
    destruct (seg_append cfg silence u1) as [u' cs]. cbn [fst] in *. split; [done|]. right.
    rewrite H1. unfold u1. cbn. lia.
  - destruct (Z.leb_spec 11200 (u_low u + 320 - 4800)); cbn; [by split; [|left]|]. split; [done|]. right. cbn. lia.
Qed.

(** Fifty silent frames close every utterance. *)
Lemma seg_run_silence n k (v : V) u :
  quiet v -> u_active u = false \/ k <= u_low u ->
  let '((v', u'), cs) := seg_run cfg (replicate (S n) silence) (v, u) in
  u_active u' = false \/ k + 320 * Z.of_nat (S n) <= u_low u' < 16000.
Proof.
  revert k v u. induction n as [|n IH]; intros k v u Hv Hu.
  - cbn [replicate seg_run]. pose proof (silent_frame k v u Hv Hu) as Hs.
    destruct (seg_frame cfg silence (v, u)) as [[v1 u1] cs1]. destruct Hs as [_ Hs]. exact Hs.
  - change (replicate (S (S n)) silence) with (silence :: replicate (S n) silence). cbn [seg_run].
    pose proof (silent_frame k v u Hv Hu) as Hs.
    destruct (seg_frame cfg silence (v, u)) as [[v1 u1] cs1]. destruct Hs as [Hv1 Hs].
    specialize (IH (k + 320) v1 u1 Hv1 ltac:(destruct Hs; [by left|right; lia])).
    destruct (seg_run cfg (replicate (S n) silence) (v1, u1)) as [[v2 u2] cs2].
    destruct IH as [?|?]; [by left|right; lia].
Qed.

Lemma seg_run_quiet fs (v : V) u : quiet v -> quiet (fst (fst (seg_run cfg fs (v, u)))).
Proof.
  revert v u. induction fs as [|f fs IH]; intros v u Hv; [done|]. cbn [seg_run].
  assert (Hf : fst (fst (seg_frame cfg f (v, u))) = snd (IsSpeech v f)).
  { unfold seg_frame. destruct (IsSpeech v f) as [b v']. destruct b; [by destruct (seg_append _ _ _)|].
    destruct (negb _); [done|]. destruct (_ <=? _); [by destruct (seg_append _ _ _)|].
    destruct (_ <=? _); [by destruct (seg_close _)|done]. }
  destruct (seg_frame cfg f (v, u)) as [[v1 u1] cs1]. cbn in Hf.
  specialize (IH v1 u1). destruct (seg_run cfg fs (v1, u1)) as [[v2 u2] cs2]. apply IH. rewrite Hf. by apply quiet_step.
Qed.

Lemma seg_frame_low frame (v : V) u : 0 <= u_low u -> 0 <= u_low (snd (fst (seg_frame cfg frame (v, u)))).
Proof.
  intros Hu. unfold seg_frame. destruct (IsSpeech v frame) as [b v']. pose proof (len_nonneg frame).
  destruct b; [|destruct (negb _); [done|]; destruct (_ <=? _); [|destruct (_ <=? _)]]; cbn; try lia.
  - pose proof (seg_append_low frame (mkUtterance (u_total u + len frame) (if u_active u then u_start u else u_total u)
      (u_end u) 0 true (u_window u))) as [Hl _].
    destruct (seg_append _ _ _). cbn in *. lia.
  - pose proof (seg_append_low frame (mkUtterance (u_total u + len frame) (u_start u) (u_end u) (u_low u + len frame) true (u_window u))) as [Hl _].
    destruct (seg_append _ _ _). cbn in *. lia.
Qed.

Lemma seg_run_low fs (v : V) u : 0 <= u_low u -> 0 <= u_low (snd (fst (seg_run cfg fs (v, u)))).
Proof.
  revert v u. induction fs as [|f fs IH]; intros v u Hu; [done|]. cbn [seg_run].
  pose proof (seg_frame_low f v u Hu) as Hf. destruct (seg_frame cfg f (v, u)) as [[v1 u1] cs1]. cbn in Hf.
  specialize (IH v1 u1 Hf). by destruct (seg_run cfg fs (v1, u1)) as [[v2 u2] cs2].
Qed.

(** A segmentation that ends with the flush is inactive. *)
Lemma flushed_inactive fs n (v : V) u :
  quiet v -> 0 <= u_low u -> (50 <= n)%nat ->
  u_active (snd (fst (seg_run cfg (fs ++ replicate n silence) (v, u)))) = false.
Proof.
  intros Hv Hu Hn. rewrite seg_run_app. pose proof (seg_run_quiet fs v u Hv) as Hq. pose proof (seg_run_low fs v u Hu) as Hl.
  destruct (seg_run cfg fs (v, u)) as [[v1 u1] cs1]. cbn [fst snd] in *.
  destruct n as [|n]; [lia|]. pose proof (seg_run_silence n 0 v1 u1 Hq (or_intror Hl)) as Hs.
  destruct (seg_run cfg (replicate (S n) silence) (v1, u1)) as [[v2 u2] cs2]. cbn [fst snd].
  destruct Hs as [?|?]; [done|lia].
Qed.

End Observed.

(** What a run feeds: lemmas about [feed_plan], the subframes it cuts into and
    the observations made of them. *)

(** ** Cutting *)

Section Cutting.
Context {A : Type}.

Lemma concat_replicate n m (x : A) : concat (replicate n (replicate m x)) = replicate (n * m) x.
Proof. induction n as [|n IH]; [done|]. cbn [replicate concat Nat.mul]. by rewrite IH, replicate_add. Qed.

Lemma concat_length m (l : list (list A)) : Forall (fun f => length f = m) l -> length (concat l) = (length l * m)%nat.
Proof. induction 1 as [|f l Hf _ IH]; [done|]. cbn [concat length Nat.mul]. by rewrite length_app, IH, Hf. Qed.

Lemma cut n m (l : list A) : length l = (n * m)%nat -> exists fs, concat fs = l /\ length fs = n /\ Forall (fun f => length f = m) fs.
Proof.
  revert l. induction n as [|n IH]; intros l Hl.
  - exists []. split_and!; [|done|constructor]. by apply nil_length_inv in Hl.
  - cbn [Nat.mul] in Hl. destruct (IH (drop m l)) as (fs & Hc & Hn & Hf); [rewrite length_drop; lia|].
    exists (take m l :: fs). cbn [concat length]. rewrite Hc, take_drop, Hn. split_and!; [done|done|].
    constructor; [rewrite length_take; lia|done].
Qed.

End Cutting.

Lemma split_frames_concat m fs :
  (0 < m)%nat -> Forall (fun f => length f = m) fs -> split_frames (length (concat fs)) m (concat fs) = (fs, []).
Proof.
  intros Hm. induction 1 as [|f fs Hf _ IH]; [done|].
  cbn [concat]. rewrite split_frames_app by done. rewrite <- Hf at 1.
  assert (E : split_frames (length f) m f = ([f], [])).
  { destruct m as [|m]; [lia|]. destruct f as [|x f]; [done|]. cbn [length split_frames]. cbn [length] in Hf. rewrite Hf.
    rewrite Nat.leb_refl, drop_ge, take_ge by (cbn [length]; lia). destruct f; [|cbn [length split_frames]]; [done|].
    destruct (Nat.leb_spec (S m) 0); [lia|done]. }
  rewrite Hf. rewrite Hf in E. rewrite E. cbn [app]. by rewrite IH.
Qed.

(** ** The chunks *)

Lemma audio_chunks_spec fuel audio :
  (length audio <= fuel)%nat ->
  Forall (fun c => length c = feed_len) (audio_chunks fuel audio) /\
  exists k, (k < feed_len)%nat /\ concat (audio_chunks fuel audio) = audio ++ replicate k (S754_zero false).
Proof.
  revert audio. induction fuel as [|fuel IH]; intros audio Hl.
  { destruct audio; [|cbn [length] in Hl; lia]. split; [constructor|]. exists O. split; [lia|done]. }
  destruct audio as [|x audio0] eqn:Ea; [split; [constructor|]; exists O; split; [lia|done]|]. rewrite <- Ea in *.
  assert (E : audio_chunks (S fuel) audio =
    if (feed_len <=? length audio)%nat then take feed_len audio :: audio_chunks fuel (drop feed_len audio)
    else [audio ++ replicate (feed_len - length audio) (S754_zero false)]) by by rewrite Ea.
  assert (Hpos : (0 < length audio)%nat) by (rewrite Ea; cbn [length]; lia).
  rewrite E. destruct (Nat.leb_spec feed_len (length audio)) as [Hle|Hlt].
  - destruct (IH (drop feed_len audio)) as [Hf (k & Hk & Hc)]; [rewrite length_drop; lia|].
    split; [constructor; [rewrite length_take; lia|done]|]. exists k. split; [done|].
    cbn [concat]. by rewrite Hc, app_assoc, take_drop.
  - split; [constructor; [rewrite length_app, length_replicate; lia|constructor]|].
    exists (feed_len - length audio)%nat. split; [lia|]. cbn [concat]. by rewrite app_nil_r.
Qed.

Lemma flush_chunks_default :
  flush_chunks (S (Z.to_nat (Z.quot (flush_threshold cfg) perFeed))) 0 (flush_threshold cfg) perFeed =
  replicate 6 (replicate feed_len (S754_zero false)).
Proof.
  assert (Hs : forall fuel flushed, 0 <= flushed <= 1020000000 ->
    flush_chunks (S fuel) flushed 1020000000 200000000 =
    replicate feed_len (S754_zero false) :: flush_chunks fuel (flushed + 200000000) 1020000000 200000000).
  { intros fuel flushed Hf. cbn [flush_chunks]. destruct (Z.leb_spec flushed 1020000000); [done|lia]. }
  change (Z.to_nat (Z.quot (flush_threshold cfg) perFeed)) with 5%nat.
  change (flush_threshold cfg) with 1020000000. change perFeed with 200000000.
  rewrite !Hs by lia. done.
Qed.

(** The silence after the recording. *)
Definition flush_frames : nat := 60.

Lemma flush_concat :
  concat (replicate 6 (replicate feed_len (S754_zero false))) = concat (replicate flush_frames silence).
Proof.
  rewrite concat_replicate. change silence with (replicate frame_len (S754_zero false)). rewrite concat_replicate.
  apply (f_equal (fun n => replicate n (S754_zero false))). unfold flush_frames. lia.
Qed.

Lemma feed_plan_spec audio :
  Forall (fun c => length c = feed_len) (feed_plan cfg audio) /\
  exists k, (k < feed_len)%nat /\
    concat (feed_plan cfg audio) = (audio ++ replicate k (S754_zero false)) ++ concat (replicate flush_frames silence) /\
    len (feed_plan cfg audio) <= len audio + 6 /\ exists n, (length audio + k = n * feed_len)%nat.
Proof.
  unfold feed_plan. rewrite flush_chunks_default.
  destruct (audio_chunks_spec (length audio) audio) as [Hf (k & Hk & Hc)]; [done|].
  pose proof (concat_length feed_len _ Hf) as Hl. rewrite Hc, length_app, length_replicate in Hl.
  split.
  { apply Forall_app. split; [done|]. apply Forall_replicate. apply length_replicate. }
  exists k. split; [done|]. rewrite concat_app, Hc, flush_concat. split; [done|split].
  - rewrite len_app. unfold len. rewrite length_replicate. lia.
  - eauto.
Qed.

(** The subframes of a run: those of the recording, padded, and the flush. *)
Lemma feed_plan_frames audio :
  exists fs, let frames := fs ++ replicate flush_frames silence in
    Forall (fun f => length f = frame_len) frames /\ concat frames = concat (feed_plan cfg audio) /\
    forall {D} `{VAD D} (d : D) du cs,
      seg_run cfg frames (d, mkUtterance 0 0 0 0 false []) = (du, cs) ->
      seg_feed cfg (concat (feed_plan cfg audio)) (new_seg d) = (mkSeg [] du, cs).
Proof.
  destruct (feed_plan_spec audio) as (_ & k & _ & Hc & _ & n & Hn).
  destruct (cut (n * 10) frame_len (audio ++ replicate k (S754_zero false))) as (fs & Hfs & _ & Hf).
  { rewrite length_app, length_replicate. lia. }
  exists fs. cbn zeta.
  assert (Hall : Forall (fun f => length f = frame_len) (fs ++ replicate flush_frames silence)).
  { apply Forall_app. split; [done|]. apply Forall_replicate. pose proof len_silence. unfold len in *. lia. }
  assert (Hcc : concat (fs ++ replicate flush_frames silence) = concat (feed_plan cfg audio)) by (by rewrite concat_app, Hfs, Hc).
  split_and!; [done|done|]. intros D HD d du cs Hrun. rewrite <- Hcc. unfold seg_feed.
  destruct (concat (fs ++ replicate flush_frames silence)) as [|x l] eqn:El.
  { apply (f_equal length) in El. rewrite (concat_length frame_len), length_app, length_replicate in El by done. cbn [length] in El.
    unfold flush_frames in El. lia. }
  rewrite subframe. cbn [Z.leb Z.compare seg_pending seg_state new_seg app]. change (Z.to_nat 320) with frame_len.
  rewrite <- El, split_frames_concat by (done || lia). by rewrite Hrun.
Qed.

(** ** The observations as frames *)

Section Weights.
Context {V : Type} `{VAD V}.

Lemma frame_weighed n o :
  0 <= o_Start o <= o_End o -> o_End o <= int64_max ->
  weighed (frame_of n o) = Z.max 0 (Z.min n (o_End o) - o_Start o).
Proof.
  intros Hs He. unfold frame_of, weighed, validSpan. cbn [ValidSamples f_Start].
  set (valid := if _ <? 0 then _ else _).
  assert (Hv : valid = Z.max 0 (Z.min n (o_End o) - o_Start o)).
  { unfold valid. destruct (Z.leb_spec n (o_Start o)); [cbn; lia|].
    destruct (Z.ltb_spec n (o_End o)); destruct (Z.ltb_spec (n - o_Start o) 0); destruct (Z.ltb_spec (o_End o - o_Start o) 0); lia. }
  destruct (Z.leb_spec valid 0); [lia|].
  rewrite wrap64_id by (unfold in_int64, int64_min; lia). unfold valid_interval. cbn [Start End_].
  destruct (Z.ltb_spec (o_Start o) (o_Start o + valid)); [|lia]. exact Hv.
Qed.

(** The frames weigh what they cover of the recording. *)
Lemma decisions_weight n fs (v : V) start :
  0 <= start -> start + frames_len fs <= int64_max -> start <= n ->
  total weighed (framesFromObservations (decisions start v fs) n) = Z.min n (start + frames_len fs) - start.
Proof.
  assert (Hpast : forall fs (v : V) start, n <= start -> 0 <= start -> start + frames_len fs <= int64_max ->
    total weighed (framesFromObservations (decisions start v fs) n) = 0).
  { clear fs v start. induction fs as [|f fs IH]; intros v start Hn Hs Hmax; [done|]. cbn [decisions].
    rewrite frames_len_cons in Hmax. pose proof (len_nonneg f). assert (0 <= frames_len fs) by apply len_nonneg.
    destruct (IsSpeech v f) as [b v']. unfold framesFromObservations in *. cbn [map]. rewrite total_cons, IH by lia.
    rewrite frame_weighed; cbn [o_Start o_End]; lia. }
  revert v start. induction fs as [|f fs IH]; intros v start Hs Hmax Hn.
  { change (frames_len []) with 0. cbn. lia. }
  rewrite frames_len_cons in Hmax |- *. pose proof (len_nonneg f). assert (0 <= frames_len fs) by apply len_nonneg.
  cbn [decisions]. destruct (IsSpeech v f) as [b v']. unfold framesFromObservations in *. cbn [map]. rewrite total_cons.
  rewrite frame_weighed by (cbn [o_Start o_End]; lia). cbn [o_Start o_End].
  destruct (decide (start + len f <= n)).
  - rewrite IH by lia. lia.
  - rewrite Hpast by lia. lia.
Qed.

End Weights.
