(* ===== verification/EvalRunProps.v ===== *)
(** Correctness of a detector's run: the theorems about [EvalRun].

    [run_exact] says what a run returns under every schedule of the feeding
    goroutine, the session's goroutine and the unsynchronised accesses to the
    tracker: the detector's decisions on the recording and the intervals of the
    sequential segmentation, none lost to the bounded queue and no check of the
    tracker failed, unless the deadline or the context ended it.
    [run_terminates] says that it ends. *)

From stdpp Require Import base list list_numbers strings.
From Stdlib Require Import ZArith Lia SpecFloat.
From S2P Require Import GoInt GoStrings Streaming StreamingProps Annotation EvalScore WavFile EvalRun EvalRunFrames.

Local Open Scope Z_scope.

(** ** The harness *)

Section Harness.
Context {V : Type} `{VAD V}.
Abbreviation detectorT := (@Detector (observingVAD V)).
Abbreviation session := (StreamingSession detectorT).
Variable plan : list (list float64).
Variable d0 : detectorT.
Variable audio : list float64.
Hypothesis Hplan : Forall (fun c => length c = feed_len) plan.
Hypothesis Hsize : len plan < 2 ^ 62.

(** The reported interval of a commit. *)
Definition reported (c : pendingCommit) : Interval :=
  mkInterval (msToSamples (samplesToMS cfg (start c))) (msToSamples (samplesToMS cfg (end_ c))).

Definition segment_interval (seg : StreamingSegment) : Interval :=
  mkInterval (msToSamples (StartMS seg)) (msToSamples (EndMS seg)).

(** The callbacks still to come: final or not, and the interval. *)
Definition callback_waiting (cb : callback_pc) : list (bool * Interval) :=
  match cb with
  | InGuard (Some seg) None | InAccept seg => [(Final seg, segment_interval seg)]
  | _ => []
  end.

Definition worker_waiting (s : session) : list (bool * Interval) :=
  match worker s with
  | Some (Transcribing final job) => [(final, reported job)]
  | _ => []
  end.

Definition waiting (s : session) (cb : callback_pc) : list (bool * Interval) :=
  callback_waiting cb ++ worker_waiting s ++ map (fun c => (true, reported c)) (pendingCommits s).

Definition finals (w : list (bool * Interval)) : list Interval := map snd (List.filter fst w).

(** At most a partial and then a final. *)
Inductive waiting_shape : list (bool * Interval) -> Prop :=
| wait_none : waiting_shape []
| wait_partial a : waiting_shape [(false, a)]
| wait_both a b : waiting_shape [(false, a); (true, b)]
| wait_final b : waiting_shape [(true, b)].

Definition callback_ok (cb : callback_pc) (s : session) : Prop :=
  match cb with
  | NoCallback => True
  | InGuard seg err => is_Some seg /\ err = None /\ worker s = Some HandingOff
  | InAccept _ => worker s = Some HandingOff
  end.

(** What holds while a feed is being transcribed. *)
Definition feeding (s : session) (t : callbackTracker) (w : list (bool * Interval)) : Prop :=
  waiting_shape w /\ (w <> [] -> 1 <= feedsSinceClose t) /\ (finals w <> [] -> calm 10 s) /\
  (finals w = [] -> (open_ t = true \/ w <> []) -> window s <> []).

Definition settled (s : session) (t : callbackTracker) (cb : callback_pc) : Prop :=
  cb = NoCallback /\ worker s = None /\ (open_ t = true -> window s <> []).

Definition fed_ok (s : session) (done_ : list (list float64)) : Prop :=
  good s /\ pending s = [] /\ evicted s = [] /\
  seg_feed cfg (concat done_) (new_seg d0) = (seg_of s, submitted s).

Definition tracker_ok (s : session) (t : callbackTracker) (cb : callback_pc) (done_ : list (list float64)) : Prop :=
  fatal t = None /\ 0 <= feedsSinceClose t <= len done_ /\
  predicted t ++ finals (waiting s cb) = map reported (submitted s).

Definition pc_ok (s : session) (t : callbackTracker) (cb : callback_pc) (pc : feed_pc) (done_ : list (list float64)) : Prop :=
  match pc with
  | AtFeed chunks => plan = done_ ++ chunks /\ settled s t cb /\ (feedsSinceClose t = 0 -> calm 10 s)
  | AtLoad chunks => plan = done_ ++ chunks /\ feeding s t (waiting s cb)
  | AtStore n chunks => plan = done_ ++ chunks /\ feeding s t (waiting s cb) /\ 0 <= n <= len done_ - 1
  | AtWait chunks => plan = done_ ++ chunks /\ feeding s t (waiting s cb) /\ (feedsSinceClose t = 0 -> calm 10 s)
  | FeedDone err => plan = done_ /\ settled s t cb /\ err = None
  end.

(** At the load the count is that of the earlier feeds; there is something to
    feed. *)
Definition load_ok (t : callbackTracker) (pc : feed_pc) (done_ : list (list float64)) : Prop :=
  match pc with
  | AtFeed chunks => chunks <> []
  | AtLoad _ | AtStore _ _ => feedsSinceClose t <= len done_ - 1
  | _ => True
  end.

Definition harness_inv (h : harness V) : Prop :=
  let '(mkHarness s t cb pc res) := h in
  callback_ok cb s /\
  exists done_, fed_ok s done_ /\ tracker_ok s t cb done_ /\ pc_ok s t cb pc done_ /\ load_ok t pc done_.

Lemma finals_app w w' : finals (w ++ w') = finals w ++ finals w'.
Proof. unfold finals. by rewrite List.filter_app, map_app. Qed.

Lemma fed_submitted_same (s s' : session) done_ :
  fed_ok s done_ -> good s' -> pending s' = [] -> evicted s' = evicted s -> submitted s' = submitted s ->
  seg_of s' = seg_of s -> fed_ok s' done_.
Proof. intros (_ & _ & He & Hs) Hg Hp He' Hs' Hg'. split_and!; [done|done|congruence|by rewrite Hg', Hs']. Qed.

(** ** The feeding goroutine *)

Lemma settled_waiting s t cb : good s -> settled s t cb -> waiting s cb = [].
Proof.
  intros ((_ & Hq & _) & _) (-> & Hw & _). unfold waiting, worker_waiting. rewrite Hw, (Hq Hw). done.
Qed.

Lemma feed_waiting (s s' : session) t :
  worker s = None -> pendingCommits s = [] -> feed_state s 10 s' ->
  (open_ t = true -> window s <> []) -> (feedsSinceClose t = 0 -> calm 10 s) -> 0 <= feedsSinceClose t ->
  feeding s' t (waiting s' NoCallback) /\
  map reported (submitted s') = map reported (submitted s) ++ finals (waiting s' NoCallback).
Proof.
  intros Hw Hpc Hf Hopen Hcalm Hn. unfold feeding, waiting, worker_waiting, submitted. cbn [callback_waiting app].
  destruct Hf as [(Ew & Ep & Ee & _) Hwin _|j Ew Ep Ee Hwin Hc|c es Hc Ee Hev Hl Hj Hnc].
  - rewrite Ew, Ep, Ee, Hw, Hpc. cbn. rewrite !app_nil_r. split_and!; try done; [constructor|].
    intros _ [Ho|]; [auto|done].
  - rewrite Ew, Ep, Ee, Hpc. cbn. split_and!; try done; [constructor| |by rewrite launched_finals_app; cbn; rewrite !app_nil_r].
    intros _. destruct (decide (feedsSinceClose t = 0)) as [E|]; [|lia]. by destruct (Hc 10 ltac:(lia) (Hcalm E)).
  - assert (Hn1 : 1 <= feedsSinceClose t).
    { destruct (decide (feedsSinceClose t = 0)) as [E|]; [|lia]. by destruct (Hnc 10 ltac:(lia) (Hcalm E)). }
    rewrite Ee, launched_finals_app, <- app_assoc, Hl, Hpc, app_nil_r, map_app.
    destruct Hj as [[Ew Ep]|(j & Ew & Ep)]; rewrite Ew, Ep; cbn; (split_and!; try done; constructor).
Qed.

Lemma plan_chunk chunk chunks done_ : plan = done_ ++ chunk :: chunks -> length chunk = feed_len.
Proof. intros E. rewrite E in Hplan. apply Forall_app in Hplan as [_ Hc]. by apply Forall_cons in Hc as [? _]. Qed.

Lemma seg_feed_snoc done_ chunk g cs g' cs' :
  seg_feed cfg (concat done_) (new_seg d0) = (g, cs) -> seg_feed cfg chunk g = (g', cs') ->
  seg_feed cfg (concat (done_ ++ [chunk])) (new_seg d0) = (g', cs ++ cs').
Proof.
  intros E E'. rewrite concat_app. cbn [concat]. rewrite app_nil_r, seg_feed_app by (rewrite subframe; lia).
  by rewrite E, E'.
Qed.

Lemma feed_step_inv s t cb chunk chunks res done_ :
  callback_ok cb s -> fed_ok s done_ -> tracker_ok s t cb done_ -> pc_ok s t cb (AtFeed (chunk :: chunks)) done_ ->
  harness_inv (mkHarness (Feed cfg chunk s) t cb (AtLoad chunks) res).
Proof.
  intros _ (Hg & Hp & He & Hseg) (Hfatal & Hn & Hpred) (Eplan & Hset & Hcalm).
  pose proof (settled_waiting s t cb Hg Hset) as Hw0. destruct Hset as (-> & Hw & Hopen).
  assert (Hpc : pendingCommits s = []) by (destruct Hg as ((_ & Hq & _) & _); auto).
  destruct (Feed_state chunk s (plan_chunk _ _ _ Eplan) Hp Hw Hpc He Hg) as (Hp' & He' & Hg' & Hf & cs & Hcs & Hsub).
  set (s' := Feed cfg chunk s) in *.
  destruct (feed_waiting s s' t Hw Hpc Hf Hopen Hcalm ltac:(lia)) as [Hfeed Hrep].
  assert (Hlen : len (done_ ++ [chunk]) = len done_ + 1) by (rewrite len_app; done).
  split; [done|]. exists (done_ ++ [chunk]). split; [|split; [|split]].
  - split_and!; try done. rewrite Hsub. by eapply seg_feed_snoc.
  - split_and!; [done|lia..|]. by rewrite Hrep, <- Hpred, Hw0, app_nil_r.
  - split; [by rewrite <- app_assoc|done].
  - cbn. lia.
Qed.

Lemma feeding_tracker s t t' w :
  feeding s t w -> open_ t' = open_ t -> (w <> [] -> 1 <= feedsSinceClose t') -> feeding s t' w.
Proof. unfold feeding. intros (H1 & H2 & H3 & H4) Ho Hn. rewrite Ho. done. Qed.

Lemma feeder_step_inv h h' : harness_inv h -> feeder_step cfg h = Some h' -> harness_inv h'.
Proof.
  destruct h as [s t cb pc res]. intros [Hcb (done_ & Hfed & Htr & Hpc & Hload)]. unfold feeder_step.
  destruct pc as [[|chunk chunks]|chunks|n chunks|chunks|err]; [done| | | | |done].
  - intros [= <-]. by apply (feed_step_inv s t cb chunk chunks res done_).
  - intros [= <-]. split; [done|]. exists done_. destruct Hpc as [Eplan Hfeed]. cbn in Hload.
    destruct Htr as (H1 & H2 & H3). split; [done|]. split; [done|]. split; [|exact Hload].
    split; [done|]. split; [done|]. lia.
  - intros [= <-]. split; [done|]. exists done_. destruct Hpc as (Eplan & Hfeed & Hn). destruct Htr as (H1 & H2 & H3).
    assert (Hwrap : wrap64 (n + 1) = n + 1).
    { apply wrap64_id. unfold in_int64, int64_min, int64_max.
      assert (len done_ <= len plan) by (rewrite Eplan, len_app; pose proof (len_nonneg chunks); lia). lia. }
    split; [done|]. split; [split; [done|]; split; [cbn; lia|done]|]. split; [|done].
    split; [done|]. cbn [set_feeds feedsSinceClose]. rewrite Hwrap.
    split; [apply (feeding_tracker s t); [done|done|cbn; lia]|lia].
  - destruct (worker s) as [|] eqn:Ew; [done|]. intros [= <-]. split; [done|]. exists done_.
    destruct Hpc as (Eplan & Hfeed & Hcalm). destruct Htr as (H1 & H2 & H3).
    assert (Hnc : cb = NoCallback) by (destruct cb as [|seg err|seg]; [done| |]; cbn in Hcb; [destruct Hcb as (_ & _ & ?)|]; congruence).
    subst cb. assert (Hwait : waiting s NoCallback = []).
    { destruct Hfed as (((_ & Hq & _) & _) & _). unfold waiting, worker_waiting. by rewrite Ew, (Hq Ew). }
    assert (Hset : settled s t NoCallback).
    { split_and!; [done|done|]. intros Ho. destruct Hfeed as (_ & _ & _ & Hwin). rewrite Hwait in Hwin. apply Hwin; [done|by left]. }
    rewrite H1. split; [done|]. split; [done|].
    destruct chunks as [|c chunks]; (split; [|done]); cbn; rewrite ?app_nil_r in Eplan; done.
Qed.

(** ** The session's goroutine *)

Lemma finals_cons b a w : finals ((b, a) :: w) = if b then a :: finals w else finals w.
Proof. by destruct b. Qed.

Lemma guard_step_inv s t seg pc res done_ :
  callback_ok (InGuard (Some seg) None) s -> fed_ok s done_ -> tracker_ok s t (InGuard (Some seg) None) done_ ->
  pc_ok s t (InGuard (Some seg) None) pc done_ -> load_ok t pc done_ ->
  callback_guard (Some seg) None t = (t, Some seg) /\ harness_inv (mkHarness s t (InAccept seg) pc res).
Proof.
  intros (_ & _ & Hw) Hfed (H1 & H2 & H3) Hpc Hload.
  assert (Hn : 1 <= feedsSinceClose t).
  { destruct pc as [chunks|chunks|n chunks|chunks|err]; cbn in Hpc;
      [destruct Hpc as (_ & (? & _) & _); congruence|destruct Hpc as (_ & _ & Hn & _)|
       destruct Hpc as (_ & (_ & Hn & _) & _)|destruct Hpc as (_ & (_ & Hn & _) & _)|
       destruct Hpc as (_ & (? & _) & _); congruence]; by apply Hn. }
  split.
  { unfold callback_guard. rewrite H1. destruct (Z.eqb_spec (feedsSinceClose t) 0); [lia|done]. }
  split; [done|]. exists done_. split; [done|]. split; [done|]. split; [|exact Hload].
  destruct pc as [chunks|chunks|n chunks|chunks|err]; cbn in Hpc |- *; try done;
    [destruct Hpc as (_ & (? & _) & _); congruence|destruct Hpc as (_ & (? & _) & _); congruence].
Qed.

Lemma shape_tail b a w : waiting_shape ((b, a) :: w) -> waiting_shape w /\ (b = true -> w = []).
Proof. inversion 1; subst; (split; [constructor|done]). Qed.

(** Accepting the first waiting callback. *)
Lemma accept_feeding s t seg w :
  feeding s t ((Final seg, segment_interval seg) :: w) ->
  feeding s (callback_accept seg t) w /\ (feedsSinceClose (callback_accept seg t) = 0 -> Final seg = false -> feedsSinceClose t = 0) /\
  (Final seg = true -> calm 10 s).
Proof.
  intros (Hs & Hn & Hc & Hwin). destruct (shape_tail _ _ _ Hs) as [Hs' Hlast]. unfold callback_accept.
  destruct (Final seg) eqn:Ef; cbn in *.
  - rewrite Hlast by done. split; [|split; [done|intros _; by apply Hc]].
    split; [constructor|]. split; [done|]. split; [done|]. by intros _ [?|?].
  - split; [|done]. split; [done|]. split; [intros; by apply Hn|]. split; [done|].
    intros Hf _. apply Hwin; [done|by right].
Qed.

Lemma accept_step_inv s t seg pc res done_ :
  callback_ok (InAccept seg) s -> fed_ok s done_ -> tracker_ok s t (InAccept seg) done_ ->
  pc_ok s t (InAccept seg) pc done_ -> load_ok t pc done_ ->
  harness_inv (mkHarness s (callback_accept seg t) NoCallback pc res).
Proof.
  intros Hw Hfed (H1 & H2 & H3) Hpc Hload.
  split; [done|]. exists done_.
  assert (Hw' : waiting s (InAccept seg) = (Final seg, segment_interval seg) :: waiting s NoCallback) by done.
  assert (Hn : 0 <= feedsSinceClose (callback_accept seg t) <= feedsSinceClose t)
    by (unfold callback_accept; destruct (Final seg); cbn; lia).
  split; [done|]. split; [|split].
  - split; [unfold callback_accept; by destruct (Final seg)|]. split; [lia|].
    rewrite <- H3, Hw', finals_cons. unfold callback_accept. destruct (Final seg); cbn [predicted]; [|done].
    by rewrite <- app_assoc.
  - destruct pc as [chunks|chunks|n chunks|chunks|err]; cbn in Hpc |- *; rewrite ?Hw' in Hpc;
      [destruct Hpc as (_ & (? & _) & _); congruence| | | |destruct Hpc as (_ & (? & _) & _); congruence].
    + destruct Hpc as (E & Hf). by apply accept_feeding in Hf as [Hf _].
    + destruct Hpc as (E & Hf & Hx). by apply accept_feeding in Hf as [Hf _].
    + destruct Hpc as (E & Hf & Hx). apply accept_feeding in Hf as (Hf & Hz & Hc). split_and!; [done|done|].
      intros H0. destruct (Final seg); [by apply Hc|]. by apply Hx, Hz.
  - destruct pc; cbn in *; (done || lia).
Qed.

(** A step of the goroutine that leaves the segmentation and the waiting
    callbacks alone. *)
Lemma session_step_inv s s' t cb cb' pc res :
  harness_inv (mkHarness s t cb pc res) -> ~ settled s t cb -> callback_ok cb' s' ->
  good s' -> pending s' = pending s -> evicted s' = evicted s -> submitted s' = submitted s -> seg_of s' = seg_of s ->
  window s' = window s -> speechSincePartial s' = speechSincePartial s -> lowEnergySamples s' = lowEnergySamples s ->
  waiting s' cb' = waiting s cb -> harness_inv (mkHarness s' t cb' pc res).
Proof.
  intros [_ (done_ & Hfed & (H1 & H2 & H3) & Hpc & Hload)] Hns Hcb Hg Hp He Hs Hseg Ewin Essp Elow Hw.
  assert (Hcalm : forall k, calm k s -> calm k s') by (unfold calm; intros k; by rewrite Ewin, Essp, Elow).
  assert (Hfeed : feeding s t (waiting s cb) -> feeding s' t (waiting s' cb')).
  { rewrite Hw. unfold feeding. rewrite Ewin. intros (Q1 & Q2 & Q3 & Q4). split_and!; auto. }
  split; [done|]. exists done_. split; [|split; [|split; [|done]]].
  - apply (fed_submitted_same s); try done. destruct Hfed as (_ & Hp0 & _). congruence.
  - split; [done|]. split; [lia|]. by rewrite Hw, Hs.
  - destruct pc as [chunks|chunks|n chunks|chunks|err]; cbn in Hpc |- *.
    + by destruct Hpc as (_ & ? & _).
    + destruct Hpc. auto.
    + destruct Hpc as (? & ? & ?). auto.
    + destruct Hpc as (? & ? & ?). auto.
    + by destruct Hpc as (_ & ? & _).
Qed.

Lemma return_step_inv s t job f pc res s' :
  harness_inv (mkHarness s t NoCallback pc res) -> worker s = Some (Transcribing f job) ->
  transcribe_returns cfg (constantTranscribe (samples job)) s = Some s' ->
  harness_inv (mkHarness s' t (callback_of s') pc res).
Proof.
  intros Hinv Hw Hst. pose proof Hinv as [_ (done_ & ((Hq & Hu & Hl) & _) & _)].
  pose proof (transcribe_returns_refines cfg _ _ _ Hq Hst) as [Hq' _].
  unfold transcribe_returns in Hst. rewrite Hw in Hst. change (constantTranscribe (samples job)) with (TrText "speech") in Hst.
  change (TrimSpace "speech") with "speech"%string in Hst. cbn [Text] in Hst.
  change ("speech" =? "")%string with false in Hst. injection Hst as <-.
  set (seg := Build_StreamingSegment _ _ _ _). set (s' := log_event _ _).
  assert (Hcb : callback_of s' = InGuard (Some seg) None).
  { unfold callback_of, s'. cbn. by rewrite last_snoc. }
  rewrite Hcb. apply (session_step_inv s s' t NoCallback); try done.
  - unfold settled. rewrite Hw. by intros (_ & ? & _).
  - unfold evicted, s'. cbn. rewrite !evicted_jobs_app. cbn. by rewrite !app_nil_r.
  - unfold submitted, s'. cbn. rewrite !launched_finals_app. cbn. by rewrite !app_nil_r.
  - unfold waiting, worker_waiting. by rewrite Hw.
Qed.

Lemma handoff_step_inv s t pc res s' :
  harness_inv (mkHarness s t NoCallback pc res) -> handoff s = Some s' ->
  harness_inv (mkHarness s' t NoCallback pc res).
Proof.
  intros Hinv Hst. pose proof Hinv as [_ (done_ & ((Hq & Hu & Hl) & _) & _)].
  pose proof (handoff_refines _ _ Hq Hst) as (Hq' & _ & _). pose proof (handoff_evicted _ _ Hst) as Hev.
  unfold handoff, dequeueCommitLocked in Hst. destruct (worker s) as [[|]|] eqn:Hw; [done| |done]. cbn in Hst.
  assert (Hns : ~ settled s t NoCallback) by (unfold settled; rewrite Hw; by intros (_ & ? & _)).
  destruct (pendingCommits s) as [|c q] eqn:Eq; injection Hst as <-.
  - apply (session_step_inv s _ t NoCallback); try done. unfold waiting, worker_waiting. cbn. by rewrite Hw, Eq.
  - apply (session_step_inv s _ t NoCallback); try done.
    + unfold submitted. cbn. by rewrite launched_finals_app, Eq, <- app_assoc.
    + unfold waiting, worker_waiting. cbn. by rewrite Hw, Eq.
Qed.

Lemma worker_step_inv h h' : harness_inv h -> worker_step cfg h = Some h' -> harness_inv h'.
Proof.
  destruct h as [s t cb pc res]. intros Hinv. unfold worker_step. destruct cb as [|seg err|seg].
  - destruct (worker s) as [[f job|]|] eqn:Hw; [| |done]; intros H0; apply bind_Some in H0 as (s' & Hst & [= <-]).
    + by apply (return_step_inv s t job f).
    + by apply (handoff_step_inv s t).
  - destruct Hinv as [(( seg' & ->) & -> & Hw) (done_ & Hfed & Htr & Hpc & Hload)].
    destruct (guard_step_inv s t seg' pc res done_) as [-> Hi]; try done. by intros [= <-].
  - intros [= <-]. destruct Hinv as [Hw (done_ & Hfed & Htr & Hpc & Hload)]. by apply (accept_step_inv s t seg pc res done_).
Qed.

Lemma harness_result_inv h r : harness_inv h -> harness_inv (set_result r h).
Proof. by destruct h. Qed.

Lemma harness_step_inv h a h' : harness_inv h -> harness_step cfg audio h a = Some h' -> harness_inv h'.
Proof.
  intros Hinv. destruct a; cbn [harness_step].
  - by apply feeder_step_inv.
  - by apply worker_step_inv.
  - destruct (h_result h), (h_feeder h); try done. intros [= <-]. by apply harness_result_inv.
  - destruct (h_result h); [done|]. intros [= <-]. by apply harness_result_inv.
  - destruct (h_result h); [done|]. intros [= <-]. by apply harness_result_inv.
Qed.

End Harness.

(** ** What a run returns *)

(** The recording followed by silence, as it is fed, and its subframes. *)
Definition fed (audio : list float64) : list float64 := concat (feed_plan cfg audio).

Definition run_frames (audio : list float64) : list (list float64) :=
  fst (split_frames (length (fed audio)) frame_len (fed audio)).

Definition idle : utterance := mkUtterance 0 0 0 0 false [].

Section Result.
Context {V : Type} `{VAD V}.
Variable audio : list float64.
Variable v : V.
Hypothesis Hsize : len audio < 2 ^ 60.

Lemma run_frames_spec :
  (exists fs, run_frames audio = fs ++ replicate flush_frames silence) /\
  Forall (fun f => length f = frame_len) (run_frames audio) /\ concat (run_frames audio) = fed audio /\
  forall {D} `{VAD D} (d : D) du cs,
    seg_run cfg (run_frames audio) (d, idle) = (du, cs) -> seg_feed cfg (fed audio) (new_seg d) = (mkSeg [] du, cs).
Proof.
  destruct (feed_plan_frames audio) as (fs & Hf & Hc & Hseg). cbn zeta in *.
  assert (E : run_frames audio = fs ++ replicate flush_frames silence).
  { unfold run_frames, fed. rewrite <- Hc, split_frames_concat by (done || lia). done. }
  rewrite E. split_and!; [by exists fs|done|done|exact @Hseg].
Qed.

Lemma fed_spec : exists k, fed audio = audio ++ replicate k (S754_zero false) /\ (k < feed_len + flush_frames * frame_len)%nat.
Proof.
  destruct (feed_plan_spec audio) as (_ & k & Hk & Hc & _). unfold fed. rewrite Hc, <- flush_concat, concat_replicate, <- app_assoc, <- replicate_add.
  eexists. split; [done|]. unfold flush_frames. lia.
Qed.

Lemma fed_len : len audio <= len (fed audio) <= len audio + 22400.
Proof.
  destruct fed_spec as (k & -> & Hk). rewrite len_app. unfold len, flush_frames in *. rewrite length_replicate. lia.
Qed.

Lemma plan_size : len (feed_plan cfg audio) < 2 ^ 62.
Proof. destruct (feed_plan_spec audio) as (_ & k & _ & _ & Hl & _). lia. Qed.

(** What an undisturbed run returns: the detector's decisions on the subframes,
    and the intervals of the sequential segmentation. *)
Definition expected : RunResult :=
  mkRunResult (framesFromObservations (decisions 0 v (run_frames audio)) (len audio))
    (clipToAudioExtent (map reported (snd (seg_run cfg (run_frames audio) (v, idle)))) (len audio)).

Definition start_harness : harness V :=
  mkHarness (new_session (DetectCustom (mkObserving v 0 []))) new_tracker NoCallback (next_chunk (feed_plan cfg audio)) None.

Lemma Run_start : Run cfg audio (Ok v) = Ok start_harness.
Proof. reflexivity. Qed.

Abbreviation inv := (harness_inv (feed_plan cfg audio) (DetectCustom (mkObserving v 0 []))).

Lemma start_inv : inv start_harness.
Proof.
  split; [done|]. exists []. split; [|split; [|split]].
  - split; [|done]. split; [apply new_session_inv|]. split; [done|]. cbn. lia.
  - split; [done|]. split; [done|]. done.
  - unfold start_harness, next_chunk. destruct (feed_plan cfg audio) eqn:E; cbn; (split; [done|split; [by split|]]); [done|].
    intros _. unfold calm. cbn. change (len []) with 0. lia.
  - unfold next_chunk. by destruct (feed_plan cfg audio).
Qed.

(** The session at the end of the feeding. *)
Lemma fed_session (s : StreamingSession (@Detector (observingVAD V))) :
  fed_ok (DetectCustom (mkObserving v 0 [])) s (feed_plan cfg audio) ->
  detector_observations (detector s) = decisions 0 v (run_frames audio) /\
  submitted s = snd (seg_run cfg (run_frames audio) (v, idle)) /\
  active s = u_active (snd (fst (seg_run cfg (run_frames audio) (v, idle)))).
Proof.
  intros (_ & _ & _ & Hseg). destruct run_frames_spec as (_ & _ & Hc & Hfeed).
  pose proof (seg_run_observed (run_frames audio) v 0 [] idle) as Hobs.
  assert (Hl : frames_len (run_frames audio) <= int64_max).
  { unfold frames_len. rewrite Hc. pose proof fed_len. unfold int64_max. lia. }
  specialize (Hobs ltac:(lia) ltac:(lia)).
  destruct (seg_run cfg (run_frames audio) (v, idle)) as [[v' u'] cs].
  apply (Hfeed (@Detector (observingVAD V)) _ _ _ _) in Hobs. unfold fed in Hobs. rewrite Hobs in Hseg.
  injection Hseg as _ Hd Hu Hcs. cbn [fst snd]. rewrite <- Hd, Hu, Hcs. done.
Qed.

(** The feeding goroutine, the session's and the collection decrease it, and so
    do the deadline and the cancellation. *)
Definition feed_rank (pc : feed_pc) : nat :=
  match pc with
  | AtFeed chunks => 12 * length chunks
  | AtLoad chunks => 12 * length chunks + 3
  | AtStore _ chunks => 12 * length chunks + 2
  | AtWait chunks => 12 * length chunks + 1
  | FeedDone _ => 0
  end.

Definition callback_rank (cb : callback_pc) (w : option worker_state) : nat :=
  match cb, w with
  | InGuard _ _, _ => 3
  | InAccept _, _ => 2
  | NoCallback, Some (Transcribing _ _) => 4
  | NoCallback, Some HandingOff => 1
  | NoCallback, None => 0
  end.

Definition harness_rank (h : harness V) : nat :=
  feed_rank (h_feeder h) + callback_rank (h_callback h) (worker (h_session h)) +
  4 * length (pendingCommits (h_session h)) + match h_result h with None => 1 | Some _ => 0 end.

Lemma feed_jobs (s s' : StreamingSession (@Detector (observingVAD V))) :
  worker s = None -> pendingCommits s = [] -> feed_state s 10 s' ->
  (callback_rank NoCallback (worker s') + 4 * length (pendingCommits s') <= 8)%nat.
Proof.
  intros Hw Hp [(Ew & Ep & _) _ _|j Ew Ep _ _ _|c es _ _ _ _ [[Ew Ep]|(j & Ew & Ep)] _]; rewrite Ew, Ep, ?Hw, ?Hp; cbn; lia.
Qed.

Lemma feeder_rank h h' : inv h -> feeder_step cfg h = Some h' -> (harness_rank h' < harness_rank h)%nat.
Proof.
  destruct h as [s t cb pc res]. intros [Hcb (done_ & Hfed & _ & Hpc & _)]. unfold feeder_step.
  destruct pc as [[|chunk chunks]|chunks|n chunks|chunks|err]; [done| | | | |done]; unfold harness_rank.
  - intros [= <-]. destruct Hpc as (Eplan & (-> & Hw & _) & _). destruct Hfed as (Hg & Hp & He & _).
    assert (Hpc : pendingCommits s = []) by (destruct Hg as ((_ & Hq & _) & _); auto).
    destruct (feed_plan_spec audio) as [Hplan _].
    destruct (Feed_state chunk s (plan_chunk _ Hplan _ _ _ Eplan) Hp Hw Hpc He Hg) as (_ & _ & _ & Hf & _).
    pose proof (feed_jobs s _ Hw Hpc Hf) as Hj. cbn [h_session h_callback h_feeder h_result feed_rank length] in *.
    rewrite Hw, Hpc. change (callback_rank NoCallback None) with 0%nat. cbn [length]. lia.
  - intros [= <-]. cbn [h_session h_callback h_feeder h_result feed_rank]. lia.
  - intros [= <-]. cbn [h_session h_callback h_feeder h_result feed_rank]. lia.
  - destruct (worker s); [done|]. intros [= <-]. cbn [h_session h_callback h_feeder h_result].
    destruct (fatal t); [cbn [feed_rank]; lia|]. destruct chunks; cbn [next_chunk feed_rank length]; lia.
Qed.

Lemma worker_rank h h' : inv h -> worker_step cfg h = Some h' -> (harness_rank h' < harness_rank h)%nat.
Proof.
  destruct h as [s t cb pc res]. intros [Hcb _]. unfold worker_step, harness_rank. destruct cb as [|seg err|seg].
  - destruct (worker s) as [[f job|]|] eqn:Hw; [| |done]; intros H0; apply bind_Some in H0 as (s' & Hst & [= <-]);
      cbn [h_session h_callback h_feeder h_result]; rewrite Hw.
    + assert (Hs : worker s' = Some HandingOff /\ pendingCommits s' = pendingCommits s).
      { unfold transcribe_returns in Hst. rewrite Hw in Hst. repeat case_match; injection Hst as <-; done. }
      destruct Hs as [-> ->]. unfold callback_of. repeat case_match; cbn [callback_rank]; lia.
    + unfold handoff, dequeueCommitLocked in Hst. rewrite Hw in Hst. cbn in Hst.
      destruct (pendingCommits s) eqn:Ep; injection Hst as <-; cbn [callback_rank]; cbn; rewrite ?Ep; cbn; lia.
  - destruct (callback_guard seg err t) as [t' [a|]]; intros [= <-]; cbn [h_session h_callback h_feeder h_result callback_rank].
    + lia.
    + destruct Hcb as (_ & _ & ->). lia.
  - intros [= <-]. cbn [h_session h_callback h_feeder h_result callback_rank]. cbn in Hcb. rewrite Hcb. lia.
Qed.

Lemma harness_step_rank h a h' : inv h -> harness_step cfg audio h a = Some h' -> (harness_rank h' < harness_rank h)%nat.
Proof.
  intros Hinv. destruct a; cbn [harness_step].
  - by apply feeder_rank.
  - by apply worker_rank.
  - destruct (h_result h) eqn:E, (h_feeder h) eqn:Ef; try done. intros [= <-]. unfold harness_rank, set_result. cbn. rewrite E, Ef. cbn. lia.
  - destruct (h_result h) eqn:E; [done|]. intros [= <-]. unfold harness_rank, set_result. cbn. rewrite E. lia.
  - destruct (h_result h) eqn:E; [done|]. intros [= <-]. unfold harness_rank, set_result. cbn. rewrite E. lia.
Qed.

(** The goroutine of the session is never stuck, and the feeder waits for it. *)
Lemma harness_progress h :
  inv h -> h_result h = None -> exists a, a ∈ [Feeder; Worker; Collect] /\ is_Some (harness_step cfg audio h a).
Proof.
  destruct h as [s t cb pc res]. intros [Hcb (done_ & _ & _ & Hpc & Hload)] Hres. cbn [h_result] in Hres. subst res.
  destruct pc as [[|chunk chunks]|chunks|n chunks|chunks|err].
  - by destruct Hload.
  - exists Feeder. split; [by left|]. by eexists.
  - exists Feeder. split; [by left|]. by eexists.
  - exists Feeder. split; [by left|]. by eexists.
  - destruct cb as [|seg err|seg].
    + destruct (worker s) as [[f job|]|] eqn:Hw.
      * exists Worker. split; [by right; left|]. cbn [harness_step worker_step]. rewrite Hw. unfold transcribe_returns. rewrite Hw. by eexists.
      * exists Worker. split; [by right; left|]. cbn [harness_step worker_step]. rewrite Hw. unfold handoff. rewrite Hw. by eexists.
      * exists Feeder. split; [by left|]. cbn [harness_step feeder_step]. rewrite Hw. by eexists.
    + exists Worker. split; [by right; left|]. cbn [harness_step worker_step]. destruct (callback_guard seg err t). by eexists.
    + exists Worker. split; [by right; left|]. by eexists.
  - exists Collect. split; [by right; right; left|]. by eexists.
Qed.

(** ** Results *)

Variable quiet : V -> Prop.
Hypothesis quiet_step : forall v f, quiet v -> quiet (snd (IsSpeech v f)).
Hypothesis quiet_silent : forall v, quiet v -> fst (IsSpeech v silence) = false.
Hypothesis quiet_start : quiet v.

Definition allowed (acts : list harness_action) (r : result evaluate_error RunResult) : Prop :=
  r = Err ErrDeadline /\ TimeOut ∈ acts \/ r = Err ErrContext /\ Cancel ∈ acts \/ r = Ok (expected).

Lemma collect_allowed acts h err : inv h -> h_feeder h = FeedDone err -> allowed acts (collected audio err h).
Proof.
  destruct h as [s t cb pc res]. intros [_ (done_ & Hfed & Htr & Hpc & _)] Hf. cbn [h_feeder] in Hf. subst pc.
  destruct Hpc as (<- & Hset & ->). destruct Htr as (Hfatal & _ & Hpred).
  rewrite (settled_waiting s t cb (proj1 Hfed) Hset), app_nil_r in Hpred. destruct Hset as (_ & _ & Hopen).
  destruct (fed_session s Hfed) as (Hobs & Hsub & Hact).
  assert (Hidle : active s = false).
  { rewrite Hact. destruct run_frames_spec as ((fs & ->) & _).
    apply (flushed_inactive quiet); [done..|unfold flush_frames; lia]. }
  assert (Hwin : window s = []).
  { destruct Hfed as ((_ & Hu & _) & _). unfold utterance_inv in Hu. cbn in Hu. by rewrite Hidle in Hu. }
  right. right. unfold collected, tracker_finish. cbn [h_tracker h_session]. rewrite Hfatal.
  destruct (open_ t); [by destruct (Hopen eq_refl)|]. unfold expected. by rewrite Hobs, Hpred, Hsub.
Qed.

Lemma run_allowed all acts h h' :
  Forall (fun a => a ∈ all) acts -> inv h -> (forall r, h_result h = Some r -> allowed all r) ->
  run (harness_step cfg audio) h acts = Some h' -> inv h' /\ (forall r, h_result h' = Some r -> allowed all r).
Proof.
  destruct (feed_plan_spec audio) as [Hplan _].
  revert h. induction acts as [|a acts IH]; intros h Hall Hinv Hres; cbn [run]; [by intros [= <-]|].
  apply Forall_cons in Hall as [Ha Hall]. intros Hrun. apply bind_Some in Hrun as (h1 & Hst & Hrun).
  apply (IH h1); [done| | |done].
  - by apply (harness_step_inv _ _ audio Hplan plan_size h a).
  - intros r Hr. destruct a; cbn [harness_step] in Hst.
    + destruct h as [s t cb pc res]. unfold feeder_step in Hst. apply Hres. revert Hr.
      repeat case_match; by simplify_eq.
    + destruct h as [s t cb pc res]. unfold worker_step in Hst. apply Hres. revert Hr.
      repeat case_match; try (apply bind_Some in Hst as (? & _ & [= <-])); by simplify_eq.
    + destruct (h_result h) eqn:E; [done|]. destruct (h_feeder h) eqn:Ef; try done.
      injection Hst as <-. injection Hr as <-. by apply collect_allowed.
    + destruct (h_result h); [done|]. injection Hst as <-. injection Hr as <-. by left.
    + destruct (h_result h); [done|]. injection Hst as <-. injection Hr as <-. right. by left.
Qed.

End Result.

(** What a run returns, under every schedule of the feeding goroutine, the
    session's goroutine, the unlocked accesses to the tracker, the deadline and
    the caller's context: for a detector that never takes silence for speech,
    nothing is evicted from the session's bounded queue, none of the tracker's
    checks fails, and the result, if any, is the deadline's or the context's
    error, or exactly the detector's decisions on the subframes of the recording
    and of the silence that pads it, and the intervals of the sequential
    segmentation of them, clipped.  The frames weigh all samples of the
    recording. *)
Theorem run_exact {V} `{VAD V} (quiet : V -> Prop) audio v acts h0 h :
  (forall v f, quiet v -> quiet (snd (IsSpeech v f))) ->
  (forall v, quiet v -> fst (IsSpeech v silence) = false) -> quiet v ->
  len audio < 2 ^ 60 ->
  Run cfg audio (Ok v) = Ok h0 -> run (harness_step cfg audio) h0 acts = Some h ->
  (exists k, concat (run_frames audio) = audio ++ replicate k (S754_zero false)) /\
  Forall (fun f => len f = VADFrameSamples) (run_frames audio) /\
  evicted (h_session h) = [] /\ fatal (h_tracker h) = None /\
  let frames := framesFromObservations (decisions 0 v (run_frames audio)) (len audio) in
  total weighed frames = len audio /\
  forall r, h_result h = Some r ->
    r = Err ErrDeadline /\ TimeOut ∈ acts \/ r = Err ErrContext /\ Cancel ∈ acts \/
    r = Ok (mkRunResult frames
              (clipToAudioExtent (map reported (snd (seg_run cfg (run_frames audio) (v, idle)))) (len audio))).
Proof.
  intros Hstep Hsil Hv Hsize [= <-] Hrun.
  destruct (run_allowed audio v Hsize quiet Hstep Hsil Hv acts acts (start_harness audio v) h) as [Hinv Hres];
    [by apply Forall_forall|by apply start_inv|done|done|].
  destruct (run_frames_spec audio) as (_ & Hf & Hc & _). pose proof (fed_len audio).
  destruct (fed_spec audio) as (k & Hk & _).
  destruct h as [s t cb pc res]. destruct Hinv as [_ (done_ & (_ & _ & He & _) & (Hfatal & _) & _)].
  split; [exists k; congruence|]. split; [|split; [done|split; [done|]]].
  { eapply Forall_impl; [exact Hf|]. intros f E. unfold len. by rewrite E. }
  intros frames. split; [|exact Hres]. unfold frames.
  rewrite decisions_weight; unfold frames_len; rewrite ?Hc; pose proof (len_nonneg audio); unfold int64_max; lia.
Qed.

(** A run ends: twelve steps for each chunk fed and one more bound every
    schedule, and while there is no result the feeding goroutine, the session's
    goroutine or the collection has a step.  The plan has a chunk for each
    200 ms of the recording and six of silence. *)
Theorem run_terminates {V} `{VAD V} audio v acts h0 h :
  len audio < 2 ^ 60 ->
  Run cfg audio (Ok v) = Ok h0 -> run (harness_step cfg audio) h0 acts = Some h ->
  (length acts <= 12 * length (feed_plan cfg audio) + 1)%nat /\
  len (feed_plan cfg audio) <= len audio / FeedSamples + 7 /\
  (h_result h = None -> exists a, a ∈ [Feeder; Worker; Collect] /\ is_Some (harness_step cfg audio h a)).
Proof.
  intros Hsize [= <-] Hrun. destruct (feed_plan_spec audio) as (Hplan & k & Hk & Hc & _).
  assert (Hstep : forall h a h', harness_inv (feed_plan cfg audio) (DetectCustom (mkObserving v 0 [])) h ->
    harness_step cfg audio h a = Some h' -> harness_inv (feed_plan cfg audio) (DetectCustom (mkObserving v 0 [])) h')
    by (intros; by eapply (harness_step_inv _ _ audio Hplan (plan_size audio Hsize))).
  split; [|split].
  - pose proof (run_bounded (harness_step cfg audio) _ harness_rank (fun _ => True)
      (fun h a h' Hi _ Hst => conj (Hstep h a h' Hi Hst) (harness_step_rank audio v h a h' Hi Hst))
      acts _ h (start_inv audio v) ltac:(by apply Forall_true) Hrun) as Hb.
    unfold start_harness, harness_rank in Hb. cbn [h_session h_callback h_feeder h_result] in Hb.
    unfold next_chunk in Hb. destruct (feed_plan cfg audio); cbn in Hb |- *; lia.
  - apply (f_equal length) in Hc. rewrite (concat_length feed_len) in Hc by done.
    rewrite !length_app, (concat_replicate flush_frames frame_len (S754_zero false) : concat (replicate flush_frames silence) = _),
      !length_replicate in Hc.
    unfold flush_frames in Hc. change FeedSamples with 3200. unfold len in *.
    pose proof (Z.div_mod (Z.of_nat (length audio)) 3200 ltac:(lia)).
    pose proof (Z.mod_pos_bound (Z.of_nat (length audio)) 3200 ltac:(lia)). lia.
  - apply (harness_progress audio v). by apply (run_invariant (harness_step cfg audio) _ Hstep acts _ _ (start_inv audio v)).
Qed.

(** ** A run *)

Module RunDemo.

(** A detector that decides by the first sample of a frame. *)
#[local] Instance first_sample : VAD unit := fun v frame =>
  (match frame with S754_finite _ _ _ :: _ => true | _ => false end, v).

(** 200 ms of speech. *)
Definition audio : list float64 := replicate feed_len (S754_finite false 1 (-1)).

(** The session's goroutine first, then the feeder, then the collection. *)
Fixpoint greedy (fuel : nat) (h : harness unit) : list harness_action :=
  match fuel with
  | O => []
  | S fuel =>
      let next a := match harness_step cfg audio h a with Some h => Some (a :: greedy fuel h) | None => None end in
      match next Worker with
      | Some acts => acts
      | None => match next Feeder with Some acts => acts | None => default [] (next Collect) end
      end
  end.

Definition h0 : harness unit := start_harness audio tt.
Definition acts : list harness_action := greedy 100 h0.

Definition outcome : option RunResult :=
  h ← run (harness_step cfg audio) h0 acts;
  match h_result h with Some (Ok r) => Some r | _ => None end.

(** Seven chunks are fed, four steps each; the utterance is committed once, and
    its interval is clipped to the recording. *)
Example demo_outcome :
  length acts = 33%nat /\
  option_map (fun r => (length (Frames r), run_Predicted r)) outcome = Some (70%nat, [mkInterval 0 3200]).
Proof. vm_compute. split; reflexivity. Qed.

Lemma demo_runs : exists h, run (harness_step cfg audio) h0 acts = Some h.
Proof.
  assert (Hsome : forall o : option (harness unit), (if o then true else false) = true -> exists h, o = Some h)
    by (intros [h|] E; [by exists h|done]).
  apply Hsome. vm_compute. reflexivity.
Qed.

Lemma quiet_first (v : unit) : fst (IsSpeech v silence) = false.
Proof. reflexivity. Qed.

Lemma run_exact_witness : exists h, run (harness_step cfg audio) h0 acts = Some h /\ evicted (h_session h) = [].
Proof.
  destruct demo_runs as [h Hh]. exists h. split; [exact Hh|].
  refine (proj1 (proj2 (proj2 (run_exact (fun _ => True) audio tt acts h0 h (fun _ _ _ => I) (fun v _ => quiet_first v) I _ eq_refl Hh)))).
  vm_compute. reflexivity.
Defined.

Lemma run_terminates_witness : exists h, run (harness_step cfg audio) h0 acts = Some h /\ (length acts <= 85)%nat.
Proof.
  destruct demo_runs as [h Hh]. exists h. split; [exact Hh|].
  refine (proj1 (run_terminates audio tt acts h0 h _ eq_refl Hh)). vm_compute. reflexivity.
Defined.

End RunDemo.
