(* ===== verification/Resume.v ===== *)
(** Requests that are served side by side.

    A handler is a [prog]: between two uses of what it shares with others - the
    database, a map under a lock, a plugin - it only computes.  Each use is a
    [Call] of an atomic operation, which is given the number of the turn so that
    clocks, fresh ids and answers from outside can depend on it.  A [system] is
    the shared state with the requests under way; at every turn one of them
    advances by a call, or something outside happens.

    [wp] is a weakest precondition over one handler with a ghost state, against
    an invariant of the shared state and of the ghost states of all requests;
    [system_safe] puts the handlers together. *)

From stdpp Require Import base list.
From Stdlib Require Import Lia.
From S2P Require Import GoInt.

Section Programs.
Context {St : Type}.

Inductive prog (A : Type) : Type :=
| Done (a : A)
| Call {B : Type} (op : nat -> St -> B * St) (k : B -> prog A).
Arguments Done {A} a.
Arguments Call {A B} op k.

Fixpoint prog_bind {A B} (p : prog A) (f : A -> prog B) : prog B :=
  match p with
  | Done a => f a
  | Call op k => Call op (fun b => prog_bind (k b) f)
  end.

Definition call {B} (op : nat -> St -> B * St) : prog B := Call op Done.

(** ** Systems *)

Section Systems.
Context {R Q : Type}.
Variable handle : Q -> prog R.

(** The states so far, oldest first, and the current one. *)
Record system := mkSystem { sys_past : list St; sys_now : St; sys_procs : list (prog R) }.

Inductive sys_action :=
| Receive (q : Q)
| Advance (i : nat)
| Outside (f : St -> St).

Definition sys_step (s : system) (a : sys_action) : option system :=
  match a with
  | Receive q => Some (mkSystem (sys_past s) (sys_now s) (sys_procs s ++ [handle q]))
  | Advance i =>
      match sys_procs s !! i with
      | Some (Call op k) =>
          let '(b, now) := op (length (sys_past s)) (sys_now s) in
          Some (mkSystem (sys_past s ++ [sys_now s]) now (<[i := k b]> (sys_procs s)))
      | _ => None
      end
  | Outside f => Some (mkSystem (sys_past s ++ [sys_now s]) (f (sys_now s)) (sys_procs s))
  end.

Definition new_system (s : St) : system := mkSystem [] s [].

End Systems.

(** ** Reasoning *)

Section Reasoning.
Context {G : Type}.
Variable inv : list St -> St -> list G -> Prop.

Fixpoint wp {A} (p : prog A) (post : G -> A -> Prop) (g : G) : Prop :=
  match p with
  | Done a => post g a
  | Call op k =>
      forall past s gs i, inv past s gs -> gs !! i = Some g ->
        let '(b, s') := op (length past) s in
        exists g', inv (past ++ [s]) s' (<[i := g']> gs) /\ wp (k b) post g'
  end.

Lemma wp_mono {A} (p : prog A) (post post' : G -> A -> Prop) g :
  wp p post g -> (forall g a, post g a -> post' g a) -> wp p post' g.
Proof.
  intros Hp Hpost. revert g Hp. induction p as [a|B op k IH]; intros g Hp; cbn in *; [by apply Hpost|].
  intros past s gs i Hinv Hg. specialize (Hp past s gs i Hinv Hg). destruct (op (length past) s) as [b s'].
  destruct Hp as (g' & Hinv' & Hk). exists g'. split; [done|]. by apply IH.
Qed.

Lemma wp_bind {A B} (p : prog A) (f : A -> prog B) post g :
  wp p (fun g a => wp (f a) post g) g -> wp (prog_bind p f) post g.
Proof.
  revert g. induction p as [a|C op k IH]; intros g Hp; cbn in *; [done|].
  intros past s gs i Hinv Hg. specialize (Hp past s gs i Hinv Hg). destruct (op (length past) s) as [b s'].
  destruct Hp as (g' & Hinv' & Hk). exists g'. split; [done|]. by apply IH.
Qed.

Context {R Q : Type}.
Variable handle : Q -> prog R.
(** What may happen outside, and which requests come. *)
Variable outside : (St -> St) -> Prop.
Variable welcome : Q -> Prop.
Variable post : G -> R -> Prop.
Variable ghost : Q -> G.

Hypothesis received : forall past s gs q, welcome q -> inv past s gs -> inv past s (gs ++ [ghost q]).
Hypothesis handled : forall q, welcome q -> wp (handle q) post (ghost q).
Hypothesis outside_ok : forall past s gs f, outside f -> inv past s gs -> inv (past ++ [s]) (f s) gs.

Definition allowed_action (a : @sys_action Q) : Prop := match a with Outside f => outside f | _ => True end.
Definition welcome_action (a : @sys_action Q) : Prop := match a with Receive q => welcome q | _ => True end.

Definition system_ok (s : @system R) : Prop :=
  exists gs, inv (sys_past s) (sys_now s) gs /\ Forall2 (fun p g => wp p post g) (sys_procs s) gs.

Lemma system_step_ok s a s' : allowed_action a -> welcome_action a -> system_ok s -> sys_step handle s a = Some s' -> system_ok s'.
Proof.
  intros Ha Hw (gs & Hinv & Hall). destruct a as [q|i|f]; cbn.
  - intros [= <-]. exists (gs ++ [ghost q]). split; [by apply received|]. apply Forall2_app; [done|].
    constructor; [by apply handled|constructor].
  - destruct (sys_procs s !! i) as [[a|B op k]|] eqn:Ei; [done| |done].
    destruct (Forall2_lookup_l _ _ _ _ _ Hall Ei) as (g & Hg & Hwp). cbn in Hwp.
    specialize (Hwp (sys_past s) (sys_now s) gs i Hinv Hg). destruct (op (length (sys_past s)) (sys_now s)) as [b now].
    destruct Hwp as (g' & Hinv' & Hk). intros [= <-]. exists (<[i := g']> gs). split; [done|]. by apply Forall2_insert.
  - intros [= <-]. exists gs. split; [by apply outside_ok|done].
Qed.

Theorem system_safe acts s s' :
  Forall allowed_action acts -> Forall welcome_action acts -> system_ok s ->
  run (sys_step handle) s acts = Some s' -> system_ok s'.
Proof.
  revert s. induction acts as [|a acts IH]; intros s Ha Hw Hs Hrun; cbn in Hrun; [by simplify_eq|].
  apply Forall_cons in Ha as [Ha Hacts]. apply Forall_cons in Hw as [Hwa Hw].
  destruct (sys_step handle s a) as [s1|] eqn:E; [|done].
  apply (IH s1); [done|done| |done]. by eapply system_step_ok.
Qed.

End Reasoning.

Lemma all_welcome {Q} (acts : list (@sys_action Q)) : Forall (welcome_action (fun _ => True)) acts.
Proof. apply Forall_forall. by intros []. Qed.

(** ** How long a handler runs *)

(** At most [n] calls, whatever they answer. *)
Fixpoint bounded {A} (n : nat) (p : prog A) {struct p} : Prop :=
  match p with
  | Done _ => True
  | Call op k => match n with O => False | S n => forall b, bounded n (k b) end
  end.

Lemma bounded_mono {A} n m (p : prog A) : (n <= m)%nat -> bounded n p -> bounded m p.
Proof.
  revert n m. induction p as [a|B op k IH]; intros n m Hle Hp; cbn in *; [done|].
  destruct n as [|n]; [done|]. destruct m as [|m]; [lia|]. intros b. apply (IH b n m); [lia|apply Hp].
Qed.

Lemma bounded_bind {A B} n m (p : prog A) (f : A -> prog B) :
  bounded n p -> (forall a, bounded m (f a)) -> bounded (n + m) (prog_bind p f).
Proof.
  revert n. induction p as [a|C op k IH]; intros n Hp Hf; cbn in *; [apply (bounded_mono m); [lia|done]|].
  destruct n as [|n]; [done|]. cbn. intros b. by apply IH.
Qed.

Section Advances.
Context {R Q : Type}.
Variable handle : Q -> prog R.

Definition is_advance (i : nat) (a : @sys_action Q) : bool := match a with Advance j => (i =? j)%nat | _ => false end.
Definition advances (i : nat) (acts : list (@sys_action Q)) : nat := length (List.filter (is_advance i) acts).

Lemma advances_bounded i acts s s' n (p : prog R) :
  sys_procs s !! i = Some p -> bounded n p -> run (sys_step handle) s acts = Some s' ->
  exists p' n', sys_procs s' !! i = Some p' /\ bounded n' p' /\ (advances i acts + n' = n)%nat.
Proof.
  revert s n p. induction acts as [|a acts IH]; intros s n p Hi Hp Hrun; cbn in Hrun; [simplify_eq; by exists p, n|].
  destruct (sys_step handle s a) as [s1|] eqn:E; [|done].
  assert (Hn : exists p1 n1, sys_procs s1 !! i = Some p1 /\ bounded n1 p1 /\ ((if is_advance i a then 1 else 0) + n1 = n)%nat).
  { destruct a as [q|j|f]; cbn in E.
    - injection E as <-. exists p, n. split; [cbn; by apply lookup_app_l_Some|done].
    - destruct (sys_procs s !! j) as [[a|B op k]|] eqn:Ej; [done| |done]. destruct (op _ _) as [b now]. injection E as <-. cbn.
      destruct (Nat.eqb_spec i j) as [->|Hne].
      + rewrite Hi in Ej. injection Ej as ->. destruct n as [|n]; [done|]. exists (k b), n. split; [|by split].
        apply list_lookup_insert_eq. by eapply lookup_lt_Some.
      + exists p, n. by rewrite list_lookup_insert_ne by done.
    - injection E as <-. by exists p, n. }
  destruct Hn as (p1 & n1 & H1 & Hb & Hn). destruct (IH s1 n1 p1 H1 Hb Hrun) as (p' & n' & H' & Hb' & Hn').
  exists p', n'. do 2 (split; [done|]). unfold advances in *. cbn. destruct (is_advance i a); cbn; lia.
Qed.

End Advances.

End Programs.
Arguments Done {St A} a.
Arguments Call {St A B} op k.
Arguments prog St A : clear implicits.
Arguments system St R : clear implicits.
Arguments sys_action St Q : clear implicits.
