(* ===== verification/ChatTables.v ===== *)
(** Conversations, their messages and the sources of their answers:
    [internal/store/conversations.go] and [cross_analysis.go].

    The rows of [conversations] and [messages] are the Go structs
    [Conversation] and [Message] without its sources; [source_row] is a row of
    [message_sources].  A conversation of a note goes with the note, its
    messages go with it, and a message's sources with the message, while a source
    outlives the note it cites ([delete_notes_chat]).  [created_at] is [now()],
    which is the start of the transaction. *)

From stdpp Require Import base list strings sets gmap.
From Stdlib Require Import ZArith Lia SpecFloat.
From S2P Require Import GoInt GoStrings Sql Transactions Folders Execution Notes Transcripts Templates Speakers.

Local Open Scope string_scope.

Definition CrossAnalysisMinNotes : nat := 2.
Definition CrossAnalysisMaxNotes : Z := 40.

(** ** Rows *)

Record Conversation := mkConversation {
  cv_ID : string; cv_OwnerID : string; cv_NoteID : option string; cv_Title : string; ModelOverride : option string;
  cv_CreatedAt : Z; cv_UpdatedAt : Z }.

Record message_row := mkMessage {
  ms_id : string; ms_conversation : string; ms_role : string; ms_content : string; ms_model : string;
  ms_tokens : option Z; ms_created : Z }.

Record source_row := mkSourceRow {
  sr_message : string; sr_number : Z; sr_note : option string; sr_generation : Z; sr_segment : Z; sr_timestamp : Z;
  sr_snippet : string }.

Record MessageSource := mkMessageSource {
  mo_N : Z; mo_NoteID : option string; mo_Generation : Z; mo_SegmentIndex : Z; mo_Timestamp : Z; mo_Snippet : string }.

Record Message := { msg_row : message_row; msg_Sources : list MessageSource }.

(** [note_embeddings]. *)
Record embedding_row := mkEmbedding { em_note : string; em_vector : list spec_float; em_model : string; em_dim : Z }.

(** [c_rest] are the tables of [Notes] beside those of [c_tdb]; [c_drawn] counts
    the ids drawn by [gen_random_uuid()]. *)
Record cdb := mkCdb {
  c_rest : tables; c_tdb : tdb; c_aliases : list alias_row; c_templates : list template_row;
  c_embeddings : list embedding_row; c_conversations : list Conversation; c_messages : list message_row;
  c_sources : list source_row; c_drawn : nat }.

Definition put_conversations (x : list Conversation) (d : cdb) : cdb :=
  mkCdb (c_rest d) (c_tdb d) (c_aliases d) (c_templates d) (c_embeddings d) x (c_messages d) (c_sources d) (c_drawn d).
Definition put_messages (x : list message_row) (d : cdb) : cdb :=
  mkCdb (c_rest d) (c_tdb d) (c_aliases d) (c_templates d) (c_embeddings d) (c_conversations d) x (c_sources d) (c_drawn d).
Definition put_sources (x : list source_row) (d : cdb) : cdb :=
  mkCdb (c_rest d) (c_tdb d) (c_aliases d) (c_templates d) (c_embeddings d) (c_conversations d) (c_messages d) x (c_drawn d).
Definition draw_id (d : cdb) : cdb :=
  mkCdb (c_rest d) (c_tdb d) (c_aliases d) (c_templates d) (c_embeddings d) (c_conversations d) (c_messages d)
    (c_sources d) (S (c_drawn d)).

(** The tables that the packages for notes read. *)
Definition notes_view (d : cdb) : tables := note_tables (c_rest d) (c_tdb d).

Definition conversation_is (id : string) (c : Conversation) : bool := (cv_ID c =? id)%string.
Definition conversation_of (ownerID id : string) (c : Conversation) : bool :=
  conversation_is id c && (cv_OwnerID c =? ownerID)%string.
Definition in_conversation (id : string) (m : message_row) : bool := (ms_conversation m =? id)%string.

Definition set_conversation_title (title : string) (now : Z) (c : Conversation) : Conversation :=
  mkConversation (cv_ID c) (cv_OwnerID c) (cv_NoteID c) title (ModelOverride c) (cv_CreatedAt c) now.
Definition touch_conversation (now : Z) (c : Conversation) : Conversation :=
  mkConversation (cv_ID c) (cv_OwnerID c) (cv_NoteID c) (cv_Title c) (ModelOverride c) (cv_CreatedAt c) now.

(** [ON DELETE CASCADE] from a conversation. *)
Definition delete_conversations (p : Conversation -> bool) (d : cdb) : cdb :=
  let gone c := exists_where (fun x => conversation_is c x && p x) (c_conversations d) in
  let lost m := exists_where (fun r => (ms_id r =? m)%string && gone (ms_conversation r)) (c_messages d) in
  put_sources (delete_where (fun s => lost (sr_message s)) (c_sources d))
    (put_messages (delete_where (fun m => gone (ms_conversation m)) (c_messages d))
      (put_conversations (delete_where p (c_conversations d)) d)).

(** What the removal of notes from the table does to the three tables. *)
Definition cites_gone (gone : string -> bool) (s : source_row) : bool :=
  match sr_note s with Some n => gone n | None => false end.
Definition unlink_note (s : source_row) : source_row :=
  mkSourceRow (sr_message s) (sr_number s) None (sr_generation s) (sr_segment s) (sr_timestamp s) (sr_snippet s).
Definition delete_notes_chat (gone : string -> bool) (d : cdb) : cdb :=
  let d := delete_conversations (fun c => match cv_NoteID c with Some n => gone n | None => false end) d in
  put_sources (update_where (cites_gone gone) unlink_note (c_sources d)) d.

(** ** [conversations.go] *)

Section Store.
Variable uuid : nat -> string.

(** [EXISTS(SELECT 1 FROM notes WHERE id=$1 AND owner_id=$2 AND deleted_at IS NULL)] *)
Definition owns_live_note (ownerID noteID : string) (d : cdb) : bool :=
  exists_where (fun r => note_is noteID r && owned ownerID r && row_live r) (d_notes (c_tdb d)).

Definition CreateConversation (now : Z) (ownerID : string) (noteID : option string) (title : string)
    (modelOverride : option string) (d : cdb) : result store_error Conversation * cdb :=
  if match noteID with Some n => negb (owns_live_note ownerID n d) | None => false end then (Err ErrNotFound, d)
  else
    let c := mkConversation (uuid (c_drawn d)) ownerID noteID title modelOverride now now in
    (Ok c, put_conversations (c_conversations d ++ [c])%list (draw_id d)).

Definition GetConversation (ownerID id : string) (d : cdb) : result store_error Conversation :=
  match select_where (conversation_of ownerID id) (c_conversations d) with
  | [] => Err ErrNotFound
  | c :: _ => Ok c
  end.

Definition updated_after (a b : Conversation) : bool := (cv_UpdatedAt b <? cv_UpdatedAt a)%Z.

Definition ListConversations (ownerID : string) (noteID : option string) (d : cdb) : list Conversation :=
  order_by updated_after (select_where (fun c => (cv_OwnerID c =? ownerID)%string &&
    match noteID with Some n => bool_decide (cv_NoteID c = Some n) | None => true end) (c_conversations d)).

Definition DeleteConversation (ownerID id : string) (d : cdb) : result store_error unit * cdb :=
  if (rows_affected (conversation_of ownerID id) (c_conversations d) =? 0)%nat then (Err ErrNotFound, d)
  else (Ok tt, delete_conversations (conversation_of ownerID id) d).

(** The [CHECK] on the role and the foreign key. *)
Definition role_ok (role : string) : bool := (role =? "user")%string || (role =? "assistant")%string.

Definition insert_message (now : Z) (conversationID role content model : string) (tokens : option Z)
  : Tx cdb message_row := fun d =>
  if negb (role_ok role) || negb (exists_where (conversation_is conversationID) (c_conversations d)) then Err DbError
  else
    let m := mkMessage (uuid (c_drawn d)) conversationID role content model tokens now in
    Ok (m, put_messages (c_messages d ++ [m])%list (draw_id d)).

Definition bump_conversation (now : Z) (conversationID : string) : Tx cdb unit :=
  tx_write (fun d => put_conversations (update_where (conversation_is conversationID) (touch_conversation now) (c_conversations d)) d).

Local Open Scope tx_scope.

Definition AppendMessage (now : Z) (conversationID role content model : string) (tokens : option Z)
  : Tx cdb message_row :=
  tx! m := insert_message now conversationID role content model tokens in
  tx! _ := bump_conversation now conversationID in
  tx_ret m.

(** Messages at the same instant come in an order of Postgres's choosing. *)
Variable tie : message_row -> message_row -> bool.
Definition message_before (a b : message_row) : bool :=
  (ms_created a <? ms_created b)%Z || ((ms_created a =? ms_created b)%Z && tie a b).

Definition messages_of (conversationID : string) (d : cdb) : list message_row :=
  select_where (in_conversation conversationID) (c_messages d).

(** [LEFT JOIN notes n ON n.id = ms.note_id AND n.deleted_at IS NULL] *)
Definition live_note_id (d : cdb) (noteID : option string) : option string :=
  match noteID with
  | Some n => if exists_where (fun r => note_is n r && row_live r) (d_notes (c_tdb d)) then Some n else None
  | None => None
  end.

Definition scan_source (d : cdb) (s : source_row) : MessageSource :=
  mkMessageSource (sr_number s) (live_note_id d (sr_note s)) (sr_generation s) (sr_segment s) (sr_timestamp s) (sr_snippet s).

Definition number_before (a b : source_row) : bool := (sr_number a <? sr_number b)%Z.

Definition sources_of (messageID : string) (d : cdb) : list source_row :=
  order_by number_before (select_where (fun s => (sr_message s =? messageID)%string) (c_sources d)).

(** The three queries of [ListMessages]. *)
Definition owns_conversation (ownerID conversationID : string) (d : cdb) : bool :=
  exists_where (conversation_of ownerID conversationID) (c_conversations d).

Definition message_rows (conversationID : string) (d : cdb) : list message_row :=
  order_by message_before (messages_of conversationID d).

Definition with_sources (rows : list message_row) (d : cdb) : list Message :=
  map (fun m => {| msg_row := m; msg_Sources := map (scan_source d) (sources_of (ms_id m) d) |}) rows.

Definition untitled (id : string) (c : Conversation) : bool := conversation_is id c && (cv_Title c =? "")%string.

Definition SetConversationTitleIfEmpty (now : Z) (conversationID title : string) (d : cdb) : bool * cdb :=
  ((0 <? rows_affected (untitled conversationID) (c_conversations d))%nat,
   put_conversations (update_where (untitled conversationID) (set_conversation_title title now) (c_conversations d)) d).

(** ** [AppendCrossAnalysisTurn] *)

Definition crossAnalysisSnippetMaxRunes : nat := 500.

Definition truncateRunesEllipsis (s : string) (max : nat) : string :=
  let r := runes s in
  if (length r <=? max)%nat then s else of_runes (take max r) ++ "...".

(** The foreign key on notes and the primary key. *)
Definition insert_source (messageID : string) (src : MessageSource) : Tx cdb unit := fun d =>
  if match mo_NoteID src with
     | Some n => negb (exists_where (note_is n) (d_notes (c_tdb d)))
     | None => false
     end then Err DbError
  else if exists_where (fun s => (sr_message s =? messageID)%string && (sr_number s =? mo_N src)%Z) (c_sources d)
  then Err UniqueViolation
  else Ok (tt, put_sources (c_sources d ++ [mkSourceRow messageID (mo_N src) (mo_NoteID src) (mo_Generation src)
    (mo_SegmentIndex src) (mo_Timestamp src) (truncateRunesEllipsis (mo_Snippet src) crossAnalysisSnippetMaxRunes)])%list d).

Definition AppendCrossAnalysisTurn (now : Z) (conversationID userContent assistantContent assistantModel : string)
    (tokens : option Z) (sources : list MessageSource) : Tx cdb (message_row * Message) :=
  tx! u := insert_message now conversationID "user" userContent "" None in
  tx! a := insert_message now conversationID "assistant" assistantContent assistantModel tokens in
  tx! _ := tx_each (insert_source (ms_id a)) sources in
  tx! _ := bump_conversation now conversationID in
  tx_ret (u, {| msg_row := a; msg_Sources := sources |}).

End Store.

(** ** The snapshot of a cross-meeting analysis *)

Inductive snapshot_error :=
| ErrCrossAnalysisTooFewNotes
| ErrCrossAnalysisTooManyNotes
| ErrCrossAnalysisDuplicateNotes
| ErrCrossAnalysisNoteNotEligible
| SnapshotStore (e : store_error).

Record CrossAnalysisDocument := {
  ca_NoteID : string; ca_Title : string; ca_OccurredAt : Z; ca_Generation : Z; ca_Segments : list Segment }.

Record CrossAnalysisSnapshot := { ca_Documents : list CrossAnalysisDocument; ca_Generations : gmap string Z }.

(** The checks before the first query. *)
Definition check_note_ids (noteIDs : list string) (maxNotes : Z) : option snapshot_error :=
  if (length noteIDs <? CrossAnalysisMinNotes)%nat then Some ErrCrossAnalysisTooFewNotes
  else
    let maxNotes := if (maxNotes <=? 0)%Z || (CrossAnalysisMaxNotes <? maxNotes)%Z then CrossAnalysisMaxNotes else maxNotes in
    if (maxNotes <? len noteIDs)%Z then Some ErrCrossAnalysisTooManyNotes
    else if negb (bool_decide (NoDup noteIDs)) then Some ErrCrossAnalysisDuplicateNotes
    else None.

(** The three queries.  [m[r.id] = r]: a later row of the same key wins. *)
Definition query_notes (ownerID : string) (noteIDs : list string) (d : cdb) : gmap string note_row :=
  fold_left (fun m r => <[row_id r := r]> m)
    (select_where (fun r => owned ownerID r && bool_decide (row_id r ∈ noteIDs) && row_live r) (d_notes (c_tdb d))) ∅.

Definition query_transcripts (noteIDs : list string) (d : cdb) : gmap string transcript_row :=
  fold_left (fun m x => <[ts_note x := x]> m)
    (select_where (fun x => bool_decide (ts_note x ∈ noteIDs)) (d_transcripts (c_tdb d))) ∅.

(** The segments by their transcript: the order of the query keeps those of one
    transcript together and by their start. *)
Definition query_segments (transcriptIDs : list string) (d : cdb) : string -> list Segment := fun transcriptID =>
  if bool_decide (transcriptID ∈ transcriptIDs)
  then map sg_data (order_by starts_before (segments_of transcriptID (c_tdb d))) else [].

(** Visibility of every requested note, then eligibility. *)
Definition check_visible (noteIDs : list string) (notesByID : gmap string note_row) : bool :=
  forallb (fun id => bool_decide (is_Some (notesByID !! id))) noteIDs.

Definition analysis_eligible (notesByID : gmap string note_row) (transcriptByNoteID : gmap string transcript_row) (id : string) : bool :=
  match notesByID !! id with
  | Some n => (row_status n =? NoteReady)%string && negb (row_partial n) && bool_decide (is_Some (transcriptByNoteID !! id))
  | None => false
  end.

Definition snapshot_document (id : string) (n : note_row) (tr : transcript_row) (segments : list Segment)
    (aliases : gmap string string) : CrossAnalysisDocument := {|
  ca_NoteID := id; ca_Title := row_title n; ca_OccurredAt := default (row_created n) (row_started n);
  ca_Generation := ts_generation tr; ca_Segments := (ApplyAliases segments aliases).1 |}.

(** The query of [VerifyCrossAnalysisGenerations] and its comparison. *)
Definition generations_match (generations : gmap string Z) (d : cdb) : bool :=
  let current := query_transcripts (map fst (map_to_list generations)) d in
  forallb (fun '(id, captured) => match current !! id with Some x => (ts_generation x =? captured)%Z | None => false end)
    (map_to_list generations).

Definition VerifyCrossAnalysisGenerations (generations : gmap string Z) (d : cdb) : result store_error unit :=
  if (size generations =? 0)%nat then Ok tt
  else if generations_match generations d then Ok tt else Err ErrGenerationMismatch.

(** The tables of conversations: what their constraints keep, and what each
    operation of [ChatTables] does to the messages of every conversation. *)

(** ** Rows *)

Definition has_conversation (d : cdb) (id : string) : Prop := exists c, c ∈ c_conversations d /\ cv_ID c = id.
Definition has_message (d : cdb) (id : string) : Prop := exists m, m ∈ c_messages d /\ ms_id m = id.
Definition has_note (d : cdb) (id : string) : Prop := exists_where (note_is id) (d_notes (c_tdb d)) = true.
Definition source_key (s : source_row) : string * Z := (sr_message s, sr_number s).

Lemma has_conversation_true d id : exists_where (conversation_is id) (c_conversations d) = true <-> has_conversation d id.
Proof.
  rewrite exists_where_true. unfold has_conversation, conversation_is.
  split; intros (c & Hc & H); exists c; (split; [done|]); by apply String.eqb_eq.
Qed.

Section Invariant.
Variable uuid : nat -> string.

Definition drawn (d : cdb) (id : string) : Prop := exists k, (k < c_drawn d)%nat /\ id = uuid k.

(** Primary and foreign keys, the check on roles, and that ids come from the
    generator. *)
Record tables_ok (d : cdb) : Prop := mkTablesOk {
  conversation_ids : NoDup (map cv_ID (c_conversations d));
  message_ids : NoDup (map ms_id (c_messages d));
  conversations_drawn : forall c, c ∈ c_conversations d -> drawn d (cv_ID c);
  messages_drawn : forall m, m ∈ c_messages d -> drawn d (ms_id m);
  messages_placed : forall m, m ∈ c_messages d -> has_conversation d (ms_conversation m);
  messages_roles : forall m, m ∈ c_messages d -> role_ok (ms_role m) = true;
  sources_placed : forall s, s ∈ c_sources d -> has_message d (sr_message s);
  sources_keyed : NoDup (map source_key (c_sources d));
  sources_cite : forall s n, s ∈ c_sources d -> sr_note s = Some n -> has_note d n;
  conversations_note : forall c n, c ∈ c_conversations d -> cv_NoteID c = Some n -> has_note d n }.

(** A change that adds no message: a conversation keeps its messages or goes
    with all of them, and a new one is empty. *)
Definition still (d d' : cdb) (id : string) : Prop :=
  (has_conversation d id /\ messages_of id d' = messages_of id d) \/
  (~ has_conversation d' id /\ messages_of id d' = []) \/
  (~ drawn d id /\ messages_of id d' = []).

Record quiet (d d' : cdb) : Prop := mkQuiet {
  quiet_drawn : (c_drawn d <= c_drawn d')%nat;
  quiet_messages : forall id, still d d' id }.

Lemma drawn_mono d d' id : (c_drawn d <= c_drawn d')%nat -> drawn d id -> drawn d' id.
Proof. intros H (k & Hk & ->). exists k. split; [lia|done]. Qed.

Lemma messages_of_nil d id : messages_of id d = [] <-> forall m, m ∈ c_messages d -> in_conversation id m = false.
Proof.
  rewrite <- exists_where_false. unfold messages_of, select_where, exists_where.
  induction (c_messages d) as [|m l IH]; cbn; [done|]. by destruct (in_conversation id m).
Qed.

Lemma no_messages d id : tables_ok d -> ~ has_conversation d id -> messages_of id d = [].
Proof.
  intros Hok Hno. apply messages_of_nil. intros m Hm. apply not_true_is_false. intros He%String.eqb_eq. subst id.
  by apply Hno, messages_placed.
Qed.

Lemma has_conversation_dec d id : has_conversation d id \/ ~ has_conversation d id.
Proof. rewrite <- has_conversation_true. destruct (exists_where _ _); auto. Qed.

Lemma quiet_same d d' : tables_ok d -> (c_drawn d <= c_drawn d')%nat -> c_messages d' = c_messages d ->
  map cv_ID (c_conversations d') = map cv_ID (c_conversations d) -> quiet d d'.
Proof.
  intros Hok Hle Hm Hc. constructor; [done|]. intros id. unfold still, messages_of. rewrite Hm.
  destruct (has_conversation_dec d id) as [Hh|Hh]; [by left|]. right. left. split.
  - intros (c & Hin & <-). apply Hh. apply (list_elem_of_fmap_2 cv_ID) in Hin. change (cv_ID <$> ?l) with (map cv_ID l) in Hin.
    rewrite Hc in Hin. apply list_elem_of_fmap in Hin as (c' & He & Hc'). by exists c'.
  - by apply no_messages.
Qed.

(** ** Conversations *)

Lemma conversation_ok_create d c now ownerID noteID title override :
  Inj (=) (=) uuid -> tables_ok d ->
  (forall n, noteID = Some n -> has_note d n) ->
  c = mkConversation (uuid (c_drawn d)) ownerID noteID title override now now ->
  let d' := put_conversations (c_conversations d ++ [c])%list (draw_id d) in tables_ok d' /\ quiet d d'.
Proof.
  intros Hinj [A B C D E F G J K L] Hnote -> d'.
  assert (Hnew : ~ drawn d (uuid (c_drawn d))) by (intros (k & Hk & He%(inj uuid)); lia).
  assert (Hgrow : forall id, drawn d id -> drawn d' id) by (intros id; apply drawn_mono; cbn; lia).
  assert (Hhas : forall id, has_conversation d id -> has_conversation d' id).
  { intros id (x & Hx & He). exists x. split; [|done]. apply elem_of_app. by left. }
  split.
  - constructor; cbn; try done.
    + rewrite map_app. apply NoDup_app. split; [done|]. split; [|apply NoDup_singleton].
      intros id Hid%list_elem_of_fmap Hn%list_elem_of_singleton. destruct Hid as (x & -> & Hx). cbn in Hn.
      apply Hnew. rewrite <- Hn. by apply C.
    + intros x [Hx|Hx%list_elem_of_singleton]%elem_of_app; [by apply Hgrow, C|]. subst x. exists (c_drawn d). cbn. split; [lia|done].
    + intros m Hm. by apply Hgrow, D.
    + intros m Hm. by apply Hhas, E.
    + intros x n [Hx|Hx%list_elem_of_singleton]%elem_of_app; [by apply L|]. subst x. apply Hnote.
  - constructor; [cbn; lia|]. intros id. unfold still. change (messages_of id d') with (messages_of id d).
    destruct (has_conversation_dec d id) as [Hh|Hh]; [by left|]. assert (messages_of id d = []) as -> by (by apply no_messages).
    destruct (decide (id = uuid (c_drawn d))) as [->|Hne]; [by right; right|]. right. left. split; [|done].
    intros (x & [Hx|Hx%list_elem_of_singleton]%elem_of_app & <-); [apply Hh; by exists x|]. subst x. by apply Hne.
Qed.

Lemma conversations_updated_ok d p f :
  (forall c, cv_ID (f c) = cv_ID c) -> (forall c, cv_NoteID (f c) = cv_NoteID c) -> tables_ok d ->
  let d' := put_conversations (update_where p f (c_conversations d)) d in tables_ok d' /\ quiet d d'.
Proof.
  intros Hid Hn Hok d'. pose proof Hok as [A B C D E F G J K L].
  assert (Hmap : map cv_ID (c_conversations d') = map cv_ID (c_conversations d)).
  { cbn. unfold update_where. rewrite map_map. apply map_ext. intros c. by destruct (p c); rewrite ?Hid. }
  assert (Hback : forall c, c ∈ c_conversations d' -> exists c0, c0 ∈ c_conversations d /\ cv_ID c = cv_ID c0 /\ cv_NoteID c = cv_NoteID c0).
  { intros c (c0 & Hc & ->)%elem_of_update_where. exists c0. split; [done|]. destruct (p c0); by rewrite ?Hid, ?Hn. }
  assert (Hhas : forall id, has_conversation d id -> has_conversation d' id).
  { intros id (x & Hx & <-). exists (if p x then f x else x). split; [apply elem_of_update_where; by exists x|]. by destruct (p x); rewrite ?Hid. }
  split; [|by apply quiet_same].
  constructor; cbn; try done.
  - rewrite <- Hmap in A. exact A.
  - intros c (c0 & Hc0 & -> & _)%Hback. by apply C.
  - intros m Hm. by apply Hhas, E.
  - intros c n (c0 & Hc0 & _ & ->)%Hback. by apply L.
Qed.

(** ** Deletes *)

Definition kept (p : Conversation -> bool) (d : cdb) (id : string) : Prop :=
  exists c, c ∈ c_conversations d /\ cv_ID c = id /\ p c = false.

Definition gone (p : Conversation -> bool) (d : cdb) (id : string) : bool :=
  exists_where (fun x => conversation_is id x && p x) (c_conversations d).

Lemma conversation_gone_false p d id : tables_ok d -> has_conversation d id -> gone p d id = false <-> kept p d id.
Proof.
  intros Hok (c & Hc & <-). unfold gone. rewrite exists_where_false. split.
  - intros Hf. exists c. split; [done|]. split; [done|]. specialize (Hf c Hc). unfold conversation_is in Hf. by rewrite String.eqb_refl in Hf.
  - intros (x & Hx & He & Hp) y Hy. unfold conversation_is. destruct (String.eqb_spec (cv_ID y) (cv_ID c)) as [Hyc|]; [|done].
    rewrite (key_unique cv_ID _ y x (conversation_ids d Hok) Hy Hx); [done|]. by rewrite He, Hyc.
Qed.

Lemma kept_messages p d id : tables_ok d -> has_conversation d id ->
  messages_of id (delete_conversations p d) = if gone p d id then [] else messages_of id d.
Proof.
  intros Hok Hh. unfold messages_of, delete_conversations. cbn. fold (gone p d). unfold select_where, delete_where.
  induction (c_messages d) as [|m l IH]; cbn; [by destruct (gone p d id)|].
  fold (gone p d (ms_conversation m)).
  destruct (in_conversation id m) eqn:Ei.
  - pose proof Ei as He%String.eqb_eq. rewrite He. destruct (gone p d id) eqn:Eg; cbn; [exact IH|]. rewrite Ei. by f_equal.
  - destruct (gone p d (ms_conversation m)); cbn; [exact IH|]. by rewrite Ei.
Qed.

(** What a deletion of conversations and of notes leaves: [note_row]s may change
    freely, as long as the references to those that are gone are dropped. *)
Record deletion (d d' : cdb) : Prop := mkDeletion {
  del_drawn : (c_drawn d <= c_drawn d')%nat;
  del_rows : exists p,
    (forall c n, c ∈ c_conversations d -> p c = false -> cv_NoteID c = Some n -> has_note d' n) /\
    c_conversations d' = c_conversations (delete_conversations p d) /\
    c_messages d' = c_messages (delete_conversations p d) /\
    c_sources d' = update_where (cites_gone (fun n => negb (exists_where (note_is n) (d_notes (c_tdb d'))))) unlink_note
                     (c_sources (delete_conversations p d)) }.

Lemma kept_after p d d' id : tables_ok d -> c_conversations d' = c_conversations (delete_conversations p d) ->
  has_conversation d' id <-> kept p d id.
Proof.
  intros Hok Hc. unfold has_conversation. rewrite Hc. cbn. setoid_rewrite elem_of_delete_where. unfold kept. naive_solver.
Qed.

Lemma deletion_quiet d d' : tables_ok d -> deletion d d' -> quiet d d'.
Proof.
  intros Hok [Hle (p & _ & Hc & Hm & _)]. constructor; [done|]. intros id. unfold still.
  assert (messages_of id d' = messages_of id (delete_conversations p d)) as -> by (unfold messages_of; by rewrite Hm).
  destruct (has_conversation_dec d id) as [Hh|Hh].
  - rewrite kept_messages by done. destruct (gone p d id) eqn:Eg; [|by left]. right. left. split; [|done].
    rewrite (kept_after p d d') by done. intros Hk%conversation_gone_false; [congruence|done|done].
  - right. left. split; [rewrite (kept_after p d d') by done; intros (c & Hc1 & He & _); apply Hh; by exists c|].
    apply messages_of_nil. intros m [Hin _]%elem_of_delete_where. revert m Hin. apply messages_of_nil. by apply no_messages.
Qed.

Lemma deletion_ok d d' : tables_ok d -> deletion d d' -> tables_ok d'.
Proof.
  intros Hok [Hle (p & Hnotes & Hc & Hm & Hs)]. pose proof Hok as [A B C D E F G J K L].
  assert (Hcv : forall c, c ∈ c_conversations d' -> c ∈ c_conversations d /\ p c = false).
  { intros c. rewrite Hc. cbn. by intros []%elem_of_delete_where. }
  assert (Hms : forall m, m ∈ c_messages d' <-> m ∈ c_messages d /\ gone p d (ms_conversation m) = false).
  { intros m. rewrite Hm. apply (elem_of_delete_where (fun m => gone p d (ms_conversation m))). }
  assert (Hsr : forall s, s ∈ c_sources d' -> exists s0, s0 ∈ c_sources (delete_conversations p d) /\ source_key s = source_key s0 /\
    (forall n, sr_note s = Some n -> has_note d' n)).
  { intros s. rewrite Hs. intros (s0 & H0 & ->)%elem_of_update_where. exists s0. split; [done|].
    destruct (cites_gone _ s0) eqn:Eg; [done|]. split; [done|]. intros n Hn. unfold cites_gone in Eg. rewrite Hn in Eg. by apply negb_false_iff in Eg. }
  constructor.
  - rewrite Hc. by apply NoDup_map_delete.
  - rewrite Hm. by apply NoDup_map_delete.
  - intros c [Hx _]%Hcv. eapply drawn_mono; [done|]. by apply C.
  - intros m [Hx _]%Hms. eapply drawn_mono; [done|]. by apply D.
  - intros m [Hx Hg]%Hms. apply (kept_after p d d'); [done..|]. apply conversation_gone_false; [done| |done]. by apply E.
  - intros m [Hx _]%Hms. by apply F.
  - intros s (s0 & Hx & Hk & _)%Hsr. cbn in Hx. apply elem_of_delete_where in Hx as [Hx Hlost].
    destruct (G s0 Hx) as (m & Hin & He). exists m. injection Hk as Hk _. split; [|congruence]. apply Hms. split; [done|].
    rewrite exists_where_false in Hlost. specialize (Hlost m Hin). cbn in Hlost. rewrite He, String.eqb_refl in Hlost. exact Hlost.
  - rewrite Hs. unfold update_where. rewrite map_map.
    rewrite (map_ext _ source_key) by (intros s; by destruct (cites_gone _ s)). by apply NoDup_map_delete.
  - intros s n (s0 & _ & _ & Hx)%Hsr. apply Hx.
  - intros c n [Hx Hp]%Hcv. by apply Hnotes.
Qed.

(** [DELETE FROM conversations], and the removal of notes. *)
Lemma delete_conversations_deletion p d : tables_ok d -> deletion d (delete_conversations p d).
Proof.
  intros Hok. constructor; [done|]. exists p. split; [|split; [done|split; [done|]]].
  - intros c n Hc _. by apply (conversations_note d Hok).
  - symmetry. apply update_where_unmatched. cbn. intros s [Hs _]%elem_of_delete_where. unfold cites_gone.
    destruct (sr_note s) as [n|] eqn:En; [|done]. rewrite negb_false_iff. by apply (sources_cite d Hok s n).
Qed.

Lemma DeleteConversation_ok ownerID id d r d' :
  tables_ok d -> DeleteConversation ownerID id d = (r, d') -> tables_ok d' /\ quiet d d'.
Proof.
  intros Hok. unfold DeleteConversation. destruct (_ =? 0)%nat; intros [= <- <-]; [split; [done|by apply quiet_same]|].
  pose proof (delete_conversations_deletion (conversation_of ownerID id) d Hok) as Hdel.
  split; [by eapply deletion_ok|by eapply deletion_quiet].
Qed.

(** ** Messages *)

Lemma messages_of_app d d' ms id : c_messages d' = (c_messages d ++ ms)%list ->
  messages_of id d' = (messages_of id d ++ select_where (in_conversation id) ms)%list.
Proof. intros Hm. unfold messages_of, select_where. by rewrite Hm, List.filter_app. Qed.

Lemma select_in_conversation id ms : Forall (fun m => ms_conversation m = id) ms -> select_where (in_conversation id) ms = ms.
Proof. induction 1 as [|m ms Hm _ IH]; cbn; [done|]. unfold in_conversation at 1. rewrite Hm, String.eqb_refl. by f_equal. Qed.

Lemma select_other_conversation id conv ms : conv <> id -> Forall (fun m => ms_conversation m = conv) ms -> select_where (in_conversation id) ms = [].
Proof.
  intros Hne. induction 1 as [|m ms Hm _ IH]; cbn; [done|]. unfold in_conversation at 1. rewrite Hm.
  by destruct (String.eqb_spec conv id).
Qed.

Context `{Hinj : !Inj (=) (=) uuid}.

Lemma insert_message_ok now conv role content model tokens d m d' :
  tables_ok d -> insert_message uuid now conv role content model tokens d = Ok (m, d') ->
  tables_ok d' /\ has_conversation d conv /\ m = mkMessage (uuid (c_drawn d)) conv role content model tokens now /\
  d' = put_messages (c_messages d ++ [m])%list (draw_id d).
Proof.
  intros Hok. unfold insert_message. destruct (negb _ || negb _) eqn:Eg; [done|].
  apply orb_false_iff in Eg as [Hrole%negb_false_iff Hh%negb_false_iff]. apply has_conversation_true in Hh.
  intros [= <- <-]. split; [|done]. pose proof Hok as [A B C D E F G J K L].
  assert (Hgrow : forall id, drawn d id -> exists k, (k < S (c_drawn d))%nat /\ id = uuid k) by (intros id (k & Hk & ->); exists k; split; [lia|done]).
  constructor; cbn; try done.
  - rewrite map_app. apply NoDup_snoc; [done|]. intros (x & He & Hx)%list_elem_of_fmap. cbn in He.
    destruct (D x Hx) as (k & Hk & Hi). rewrite <- He in Hi. apply (inj uuid) in Hi. lia.
  - intros c Hc. by apply Hgrow, C.
  - intros x [Hx|Hx%list_elem_of_singleton]%elem_of_app; [by apply Hgrow, D|]. subst x. exists (c_drawn d). split; [cbn; lia|done].
  - intros x [Hx|Hx%list_elem_of_singleton]%elem_of_app; [by apply E|]. by subst x.
  - intros x [Hx|Hx%list_elem_of_singleton]%elem_of_app; [by apply F|]. by subst x.
  - intros s Hs. destruct (G s Hs) as (x & Hx & He). exists x. split; [|done]. apply elem_of_app. by left.
Qed.

Lemma bump_ok now conv d : tables_ok d ->
  tables_ok (put_conversations (update_where (conversation_is conv) (touch_conversation now) (c_conversations d)) d).
Proof. intros Hok. by apply conversations_updated_ok. Qed.

Lemma has_conversation_touched p f d d' id : (forall c, cv_ID (f c) = cv_ID c) ->
  c_conversations d' = update_where p f (c_conversations d) -> has_conversation d' id <-> has_conversation d id.
Proof.
  intros Hf Hd. unfold has_conversation. rewrite Hd. setoid_rewrite elem_of_update_where. split.
  - intros (c & (c0 & Hc & ->) & <-). exists c0. split; [done|]. by destruct (p c0); rewrite ?Hf.
  - intros (c & Hc & <-). exists (if p c then f c else c). split; [by exists c|]. by destruct (p c); rewrite ?Hf.
Qed.

(** [AppendMessage] adds its message after those of the conversation, and
    touches no other. *)
Lemma AppendMessage_ok now conv role content model tokens d m d' :
  tables_ok d -> AppendMessage uuid now conv role content model tokens d = Ok (m, d') ->
  tables_ok d' /\ has_conversation d conv /\ m = mkMessage (uuid (c_drawn d)) conv role content model tokens now /\
  c_messages d' = (c_messages d ++ [m])%list /\ c_drawn d' = S (c_drawn d) /\ c_sources d' = c_sources d /\
  c_conversations d' = update_where (conversation_is conv) (touch_conversation now) (c_conversations d).
Proof.
  intros Hok (m0 & d1 & Hm & (u & d2 & Hb & Hr)%tx_bind_ok)%tx_bind_ok. injection Hr as <- <-. injection Hb as _ <-.
  destruct (insert_message_ok _ _ _ _ _ _ _ _ _ Hok Hm) as (Hok1 & Hh & -> & ->).
  split; [exact (bump_ok now conv _ Hok1)|]. done.
Qed.

(** ** The turn of a cross-meeting analysis *)

Definition source_of (id : string) (src : MessageSource) : source_row :=
  mkSourceRow id (mo_N src) (mo_NoteID src) (mo_Generation src) (mo_SegmentIndex src) (mo_Timestamp src)
    (truncateRunesEllipsis (mo_Snippet src) crossAnalysisSnippetMaxRunes).

Lemma insert_source_ok id src d u d' :
  tables_ok d -> has_message d id -> insert_source id src d = Ok (u, d') ->
  tables_ok d' /\ d' = put_sources (c_sources d ++ [source_of id src])%list d.
Proof.
  intros Hok Hmsg. unfold insert_source. destruct (match mo_NoteID src with Some _ => _ | None => _ end) eqn:Ef; [done|].
  destruct (exists_where _ (c_sources d)) eqn:Ek; [done|]. intros [= _ <-]. split; [|done].
  pose proof Hok as [A B C D E F G J K L]. constructor; try done.
  - intros s [Hs|Hs%list_elem_of_singleton]%elem_of_app; [by apply G|]. by subst s.
  - cbn. rewrite map_app. apply NoDup_snoc; [done|]. intros (s & He & Hs)%list_elem_of_fmap. injection He as E1 E2.
    rewrite exists_where_false in Ek. specialize (Ek s Hs). cbn in Ek. by rewrite <- E1, <- E2, String.eqb_refl, Z.eqb_refl in Ek.
  - intros s n [Hs|Hs%list_elem_of_singleton]%elem_of_app; [by apply K|]. subst s. cbn. intros Hn. rewrite Hn in Ef. by apply negb_false_iff in Ef.
Qed.

Lemma insert_sources_ok id srcs d u d' :
  tables_ok d -> has_message d id -> tx_each (insert_source id) srcs d = Ok (u, d') ->
  tables_ok d' /\ d' = put_sources (c_sources d ++ map (source_of id) srcs)%list d.
Proof.
  revert d. induction srcs as [|src srcs IH]; intros d Hok Hmsg.
  - intros [= _ <-]. split; [done|]. cbn. rewrite app_nil_r. by destruct d.
  - intros (v & d1 & H1 & H2)%tx_bind_ok. destruct (insert_source_ok _ _ _ _ _ Hok Hmsg H1) as [Hok1 ->].
    destruct (IH _ Hok1 Hmsg H2) as [Hok2 ->]. split; [done|]. cbn. by rewrite <- app_assoc.
Qed.

(** The two messages come one after the other, the answer with all its sources;
    nothing else changes but the conversation's time. *)
Lemma AppendCrossAnalysisTurn_ok now conv question answer model tokens srcs d r d' :
  tables_ok d -> AppendCrossAnalysisTurn uuid now conv question answer model tokens srcs d = Ok (r, d') ->
  let u := mkMessage (uuid (c_drawn d)) conv "user" question "" None now in
  let a := mkMessage (uuid (S (c_drawn d))) conv "assistant" answer model tokens now in
  tables_ok d' /\ has_conversation d conv /\ r = (u, {| msg_row := a; msg_Sources := srcs |}) /\
  c_messages d' = (c_messages d ++ [u; a])%list /\ c_drawn d' = S (S (c_drawn d)) /\
  c_sources d' = (c_sources d ++ map (source_of (ms_id a)) srcs)%list /\
  c_conversations d' = update_where (conversation_is conv) (touch_conversation now) (c_conversations d).
Proof.
  intros Hok (u0 & d1 & Hu & (a0 & d2 & Ha & (v & d3 & Hs & (w & d4 & Hb & Hr)%tx_bind_ok)%tx_bind_ok)%tx_bind_ok)%tx_bind_ok u a.
  destruct (insert_message_ok _ _ _ _ _ _ _ _ _ Hok Hu) as (Hok1 & Hh & -> & ->).
  destruct (insert_message_ok _ _ _ _ _ _ _ _ _ Hok1 Ha) as (Hok2 & _ & -> & ->).
  apply insert_sources_ok in Hs as [Hok3 ->]; [|done|exists a; split; [apply elem_of_app; right; by left|done]].
  injection Hb as _ <-. injection Hr as <- <-.
  split; [exact (bump_ok now conv _ Hok3)|]. split; [done|]. split; [done|]. split; [cbn; by rewrite <- app_assoc|]. done.
Qed.

(** ** Titles *)

Lemma SetConversationTitleIfEmpty_ok now id title d :
  tables_ok d -> let d' := (SetConversationTitleIfEmpty now id title d).2 in tables_ok d' /\ quiet d d'.
Proof. intros Hok. by apply conversations_updated_ok. Qed.

Lemma CreateConversation_ok now ownerID noteID title override d r d' :
  tables_ok d -> CreateConversation uuid now ownerID noteID title override d = (r, d') ->
  tables_ok d' /\ quiet d d' /\ forall c, r = Ok c -> drawn d' (cv_ID c) /\ ~ drawn d (cv_ID c).
Proof.
  intros Hok. unfold CreateConversation. destruct (match noteID with Some _ => _ | None => _ end) eqn:En; intros [= <- <-].
  - split; [done|]. split; [by apply quiet_same|done].
  - set (c := mkConversation _ _ _ _ _ _ _). destruct (conversation_ok_create d c now ownerID noteID title override _ Hok) as [H1 H2]; [|done|].
    { intros n ->. apply negb_false_iff, exists_where_true in En as (x & Hx & Ho). apply exists_where_true. exists x. split; [done|].
      destruct (note_is n x); [done|]. by rewrite andb_false_l in Ho. }
    split; [exact H1|]. split; [exact H2|]. intros c' [= <-]. split; [exists (c_drawn d); cbn; split; [lia|done]|].
    intros (k & Hk & He%(inj uuid)). lia.
Qed.

(** ** What may become of the tables

    [users] are those whose requests are served; of the others' conversations,
    those of [spared] owners are deleted by no one. *)

Definition sources_under (id : string) (d : cdb) : list source_row :=
  select_where (fun s => (sr_message s =? id)%string) (c_sources d).

(** A source keeps everything but its note. *)
Definition unlinked (s s' : source_row) : Prop := s' = s \/ s' = unlink_note s.

Lemma unlinked_trans a b c : unlinked a b -> unlinked b c -> unlinked a c.
Proof. intros [-> | ->] [-> | ->]; [by left|by right..]. Qed.

Section Evolution.
Variable users spared : string -> Prop.

Record continues (c c' : Conversation) (d d' : cdb) : Prop := mkContinues {
  co_same : cv_ID c' = cv_ID c /\ cv_OwnerID c' = cv_OwnerID c /\ cv_NoteID c' = cv_NoteID c /\
            ModelOverride c' = ModelOverride c /\ cv_CreatedAt c' = cv_CreatedAt c;
  co_title : cv_Title c <> "" -> cv_Title c' = cv_Title c;
  co_messages : exists ms, messages_of (cv_ID c) d' = (messages_of (cv_ID c) d ++ ms)%list /\
                           (~ users (cv_OwnerID c) -> c' = c /\ ms = []) }.

(** A conversation stays whose it is, is given a title once, and loses no
    message and no source but by its own deletion; a new one has a new id; and
    all that happens to it is done for its owner. *)
Record evolves (d d' : cdb) : Prop := mkEvolves {
  ev_drawn : (c_drawn d <= c_drawn d')%nat;
  ev_conversations : forall c', c' ∈ c_conversations d' ->
    (exists c, c ∈ c_conversations d /\ continues c c' d d') \/ (~ drawn d (cv_ID c') /\ users (cv_OwnerID c'));
  ev_messages : forall m, m ∈ c_messages d' -> drawn d (ms_id m) -> m ∈ c_messages d;
  ev_sources : forall m, m ∈ c_messages d -> m ∈ c_messages d' ->
    Forall2 unlinked (sources_under (ms_id m) d) (sources_under (ms_id m) d');
  ev_kept : forall c, c ∈ c_conversations d -> ~ users (cv_OwnerID c) -> spared (cv_OwnerID c) ->
    exists c', c' ∈ c_conversations d' /\ cv_ID c' = cv_ID c }.

Lemma continues_refl c d d' : messages_of (cv_ID c) d' = messages_of (cv_ID c) d -> continues c c d d'.
Proof. intros Hm. constructor; [done|done|]. exists []. by rewrite Hm, app_nil_r. Qed.

Lemma unlinked_refl l : Forall2 unlinked l l.
Proof. induction l; constructor; [by left|done]. Qed.

Lemma evolves_same d d' : (c_drawn d <= c_drawn d')%nat -> c_conversations d' = c_conversations d ->
  c_messages d' = c_messages d -> c_sources d' = c_sources d -> evolves d d'.
Proof.
  intros Hle Hc Hm Hs. constructor; [done|..].
  - intros c. rewrite Hc. left. exists c. split; [done|]. apply continues_refl. unfold messages_of. by rewrite Hm.
  - intros m. by rewrite Hm.
  - intros m _ _. unfold sources_under. rewrite Hs. apply unlinked_refl.
  - intros c. rewrite Hc. intros; by exists c.
Qed.

Lemma evolves_refl d : evolves d d.
Proof. by apply evolves_same. Qed.

Lemma continues_trans c c1 c2 d d1 d2 : continues c c1 d d1 -> continues c1 c2 d1 d2 -> continues c c2 d d2.
Proof.
  intros [(E1 & E2 & E3 & E4 & E5) Ht (ms & Hm & Hu)] [(F1 & F2 & F3 & F4 & F5) Ht' (ms' & Hm' & Hu')]. constructor.
  - split_and!; congruence.
  - intros Hne. specialize (Ht Hne). rewrite <- Ht. apply Ht'. congruence.
  - rewrite E1 in Hm'. exists (ms ++ ms')%list. split; [by rewrite Hm', Hm, <- app_assoc|]. rewrite E2 in Hu'.
    intros Hno. destruct (Hu Hno) as [-> ->]. destruct (Hu' Hno) as [-> ->]. done.
Qed.

Lemma evolves_trans d d1 d2 : tables_ok d -> tables_ok d1 -> evolves d d1 -> evolves d1 d2 -> evolves d d2.
Proof.
  intros Hd Hd1 [D C M S K] [D' C' M' S' K']. constructor.
  - lia.
  - intros c2 Hc2. destruct (C' c2 Hc2) as [(c1 & Hc1 & H1)|[Hnew Hu]].
    + pose proof (co_same _ _ _ _ H1) as (E1 & E2 & _). destruct (C c1 Hc1) as [(c & Hc & H)|[Hnew Hu]].
      * left. exists c. split; [done|]. by eapply continues_trans.
      * right. by rewrite E1, E2.
    + right. split; [|done]. intros Hdr. apply Hnew. by eapply drawn_mono.
  - intros m Hm Hdr. apply M; [|done]. apply M'; [done|]. by eapply drawn_mono.
  - intros m Hm Hm2. assert (Hm1 : m ∈ c_messages d1).
    { apply M'; [done|]. eapply drawn_mono; [done|]. by apply messages_drawn. }
    eapply Forall2_trans; [intros a b c; apply unlinked_trans|by apply S|by apply S'].
  - intros c Hc Hno Hsp. destruct (K c Hc Hno Hsp) as (c1 & Hc1 & E1).
    assert (Ho : cv_OwnerID c1 = cv_OwnerID c).
    { destruct (C c1 Hc1) as [(x & Hx & Hco)|[Hnew _]].
      - pose proof (co_same _ _ _ _ Hco) as (F1 & F2 & _).
        rewrite F2. f_equal. apply (key_unique cv_ID (c_conversations d)); [apply (conversation_ids d Hd)|done..|congruence].
      - destruct Hnew. rewrite E1. by apply conversations_drawn. }
    destruct (K' c1 Hc1) as (c2 & Hc2 & E2); [by rewrite Ho..|]. exists c2. split; [done|congruence].
Qed.

Lemma evolves_create now ownerID noteID title override d r d' :
  tables_ok d -> users ownerID -> CreateConversation uuid now ownerID noteID title override d = (r, d') -> evolves d d'.
Proof.
  intros Hok Hu. unfold CreateConversation. destruct (match noteID with Some _ => _ | None => _ end);
    intros [= <- <-]; [apply evolves_refl|]. constructor; [cbn; lia|..].
  - intros c [Hc| ->%list_elem_of_singleton]%elem_of_app.
    + left. exists c. split; [done|]. by apply continues_refl.
    + right. split; [|done]. intros (k & Hk & He%(inj uuid)). lia.
  - done.
  - intros m _ _. apply unlinked_refl.
  - intros c Hc _ _. exists c. split; [|done]. apply elem_of_app. by left.
Qed.

(** A deletion that spares who must be. *)
Lemma evolves_deletion d d' : tables_ok d -> deletion d d' ->
  (forall c, c ∈ c_conversations d -> ~ users (cv_OwnerID c) -> spared (cv_OwnerID c) -> c ∈ c_conversations d') -> evolves d d'.
Proof.
  intros Hok Hdel Hsp. pose proof Hdel as [Hle (p & _ & Hc & Hm & Hs)]. constructor; [done|..].
  - intros c Hin. left. exists c. pose proof Hin as Hin'. rewrite Hc in Hin'. cbn in Hin'. apply elem_of_delete_where in Hin' as [Hin' Hp].
    split; [done|]. apply continues_refl. unfold messages_of. rewrite Hm. fold (messages_of (cv_ID c) (delete_conversations p d)).
    rewrite kept_messages by (done || by exists c).
    rewrite (proj2 (conversation_gone_false p d (cv_ID c) Hok (ex_intro _ c (conj Hin' eq_refl)))); [done|]. by exists c.
  - intros m Hin _. rewrite Hm in Hin. by apply elem_of_delete_where in Hin as [].
  - intros m _ Hin. rewrite Hm in Hin. unfold sources_under. rewrite Hs. cbn. clear Hs.
    assert (Hkeep : exists_where (fun r => (ms_id r =? ms_id m)%string && gone p d (ms_conversation r)) (c_messages d) = false).
    { apply exists_where_false. intros x Hx. destruct (String.eqb_spec (ms_id x) (ms_id m)) as [E|]; [|done].
      cbn in Hin. apply elem_of_delete_where in Hin as [Hin Hg]. by rewrite (key_unique ms_id (c_messages d) x m (message_ids d Hok) Hx Hin E). }
    set (lost := fun id => exists_where (fun r => (ms_id r =? id)%string && gone p d (ms_conversation r)) (c_messages d)) in *.
    change (Forall2 unlinked (select_where (fun s => (sr_message s =? ms_id m)%string) (c_sources d))
      (select_where (fun s => (sr_message s =? ms_id m)%string) (update_where
        (cites_gone (fun n => negb (exists_where (note_is n) (d_notes (c_tdb d'))))) unlink_note
        (delete_where (fun s => lost (sr_message s)) (c_sources d))))).
    assert (Hk : lost (ms_id m) = false) by exact Hkeep. clearbody lost. generalize (cites_gone (fun n => negb (exists_where (note_is n) (d_notes (c_tdb d'))))).
    intros q. induction (c_sources d) as [|x l IH]; cbn; [constructor|].
    destruct (lost (sr_message x)) eqn:Ex; cbn.
    + destruct (String.eqb_spec (sr_message x) (ms_id m)) as [E|]; [rewrite E in Ex; congruence|exact IH].
    + assert (Hsr : forall b : bool, sr_message (if b then unlink_note x else x) = sr_message x) by by intros [].
      rewrite Hsr. destruct (sr_message x =? ms_id m)%string; [|exact IH]. constructor; [|exact IH]. destruct (q x); [by right|by left].
  - intros c Hin Hno Hs'. exists c. split; [|done]. by apply Hsp.
Qed.

Lemma evolves_delete ownerID id d r d' :
  tables_ok d -> users ownerID -> DeleteConversation ownerID id d = (r, d') -> evolves d d'.
Proof.
  intros Hok Hu. unfold DeleteConversation. destruct (_ =? 0)%nat; intros [= <- <-]; [apply evolves_refl|].
  apply evolves_deletion; [done|by apply delete_conversations_deletion|]. intros c Hc Hno _. cbn. apply elem_of_delete_where. split; [done|].
  unfold conversation_of. destruct (String.eqb_spec (cv_OwnerID c) ownerID) as [E|]; [by rewrite E in Hno|]. apply andb_false_r.
Qed.

(** A conversation of a user is touched or titled, and messages are added to it. *)
Lemma evolves_added conv f d d' ms xs :
  tables_ok d -> (forall c, c ∈ c_conversations d -> cv_ID c = conv -> users (cv_OwnerID c)) ->
  (forall c, c ∈ c_conversations d -> cv_ID c = conv ->
     (cv_ID (f c) = cv_ID c /\ cv_OwnerID (f c) = cv_OwnerID c /\ cv_NoteID (f c) = cv_NoteID c /\
      ModelOverride (f c) = ModelOverride c /\ cv_CreatedAt (f c) = cv_CreatedAt c) /\
     (cv_Title c <> "" -> cv_Title (f c) = cv_Title c)) ->
  (c_drawn d <= c_drawn d')%nat -> c_conversations d' = update_where (conversation_is conv) f (c_conversations d) ->
  c_messages d' = (c_messages d ++ ms)%list -> Forall (fun m => ms_conversation m = conv /\ ~ drawn d (ms_id m)) ms ->
  c_sources d' = (c_sources d ++ xs)%list -> Forall (fun s => ~ drawn d (sr_message s)) xs -> evolves d d'.
Proof.
  intros Hok Hu Hf Hle Hc Hm Hms Hs Hxs. constructor; [done|..].
  - rewrite Hc. intros c' (c & Hin & ->)%elem_of_update_where. left. exists c. split; [done|].
    destruct (conversation_is conv c) eqn:E.
    + apply String.eqb_eq in E. destruct (Hf c Hin E) as [H1 H2]. constructor; [done|done|].
      exists (select_where (in_conversation (cv_ID c)) ms). split; [by apply messages_of_app|]. intros Hno. by destruct Hno; apply Hu.
    + apply continues_refl. rewrite (messages_of_app d d' ms _ Hm), (select_other_conversation _ conv), app_nil_r; [done| |].
      * intros ->. unfold conversation_is in E. by rewrite String.eqb_refl in E.
      * eapply Forall_impl; [exact Hms|]. by intros m [].
  - intros m Hin Hdr. rewrite Hm in Hin. apply elem_of_app in Hin as [Hin|Hin]; [done|].
    rewrite Forall_forall in Hms. by destruct (Hms m Hin).
  - intros m Hin _. unfold sources_under. rewrite Hs. unfold select_where. rewrite List.filter_app.
    assert (List.filter (fun s => (sr_message s =? ms_id m)%string) xs = []) as ->; [|rewrite app_nil_r; apply unlinked_refl].
    apply (messages_drawn d Hok) in Hin. clear Hs. induction Hxs as [|x xs Hx _ IH]; cbn; [done|].
    destruct (String.eqb_spec (sr_message x) (ms_id m)) as [E|]; [by rewrite E in Hx|exact IH].
  - intros c Hin _ _. rewrite Hc. exists (if conversation_is conv c then f c else c). split; [apply elem_of_update_where; by exists c|].
    destruct (conversation_is conv c) eqn:E; [|done]. apply String.eqb_eq in E. exact (proj1 (proj1 (Hf c Hin E))).
Qed.

Lemma evolves_title now id title d : tables_ok d ->
  (forall c, c ∈ c_conversations d -> cv_ID c = id -> users (cv_OwnerID c)) ->
  evolves d (SetConversationTitleIfEmpty now id title d).2.
Proof.
  intros Hok Hu. apply (evolves_added id (fun c => if (cv_Title c =? "")%string then set_conversation_title title now c else c) d _ [] []);
    rewrite ?app_nil_r; try done.
  - intros c _ _. destruct (String.eqb_spec (cv_Title c) ""); [split; [done|by intros []]|done].
  - cbn. apply map_ext. intros c. unfold untitled. destruct (conversation_is id c); [|done]. cbn. by destruct (cv_Title c =? "")%string.
Qed.

End Evolution.

End Invariant.

(** ** The removal of notes is a deletion. *)

Definition put_tdb (t : tdb) (d : cdb) : cdb :=
  mkCdb (c_rest d) t (c_aliases d) (c_templates d) (c_embeddings d) (c_conversations d) (c_messages d) (c_sources d) (c_drawn d).

Definition remove_notes (gone : string -> bool) (d : cdb) : cdb :=
  let t := c_tdb d in
  let left_notes := delete_where (fun r => gone (row_id r)) (d_notes t) in
  put_tdb (mkTdb left_notes (delete_where (fun x => gone (ts_note x)) (d_transcripts t)) (d_segments t) (d_gaps t)) (delete_notes_chat gone d).

Lemma exists_note_left gone n t :
  exists_where (note_is n) (delete_where (fun r => gone (row_id r)) t) = exists_where (note_is n) t && negb (gone n).
Proof.
  unfold exists_where, delete_where. induction t as [|r t IH]; cbn; [done|].
  destruct (note_is n r) eqn:En; cbn.
  - pose proof En as <-%String.eqb_eq. destruct (gone (row_id r)); cbn; [by rewrite IH, andb_false_r|by rewrite En].
  - destruct (gone (row_id r)); cbn; [done|by rewrite En].
Qed.

Lemma remove_notes_deletion uuid gone d : tables_ok uuid d -> deletion d (remove_notes gone d).
Proof.
  intros Hok. constructor; [done|]. exists (fun c => match cv_NoteID c with Some n => gone n | None => false end).
  split; [|split; [done|split; [done|]]].
  - intros c n Hc Hp Hn. rewrite Hn in Hp. unfold has_note. cbn. rewrite exists_note_left, Hp, andb_true_r.
    by apply (conversations_note uuid d Hok c).
  - cbn. apply update_where_ext. intros s [Hs _]%elem_of_delete_where. unfold cites_gone. destruct (sr_note s) as [n|] eqn:En; [|done].
    rewrite exists_note_left. rewrite (sources_cite uuid d Hok s n Hs En). cbn. by rewrite negb_involutive.
Qed.
