(* ===== verification/Chat.v ===== *)
(** Retrieval, prompts and citations of the chat: [internal/chat]
    ([retrieval.go], [context.go], [citations.go]) over the vectors of
    [internal/store/embeddings.go].

    Unicode's case tables, the distance of two vectors and the embedder are
    arguments.  What the server shares between requests is [server]; a use of
    the database is [store_op], which the database may refuse or answer into
    the void ([fate]). *)

From stdpp Require Import base list list_numbers strings sets gmap sorting.
From Stdlib Require Import Ascii ZArith Lia SpecFloat.
From S2P Require Import GoInt GoStrings Streaming Sql Transactions Folders Execution Notes Transcripts Templates Speakers.
From S2P Require Import Resume ChatTables.

Local Open Scope string_scope.

(** ** The shared state *)

(** One call of the agent. *)
Record asked := mkAsked { as_request : GenerateRequest; as_answer : result string GenerateResponse }.

(** The tables, the keys of [chatSendGuard], and the calls of the agent so far. *)
Record server := mkServer { sv_db : cdb; sv_inflight : gset string; sv_asked : list asked }.

Definition with_db (d : cdb) (s : server) : server := mkServer d (sv_inflight s) (sv_asked s).

(** What becomes of a call to the database: it is answered, refused, or done
    and its answer lost. *)
Inductive fate := Answered | Refused | AnswerLost.

Section StoreCalls.
Variable fates : nat -> fate.

Definition store_op {A} (f : nat -> cdb -> result store_error A * cdb) : prog server (result store_error A) :=
  call (fun n s =>
    match fates n with
    | Refused => (Err DbError, s)
    | Answered => let '(r, d) := f n (sv_db s) in (r, with_db d s)
    | AnswerLost => let '(r, d) := f n (sv_db s) in (Err DbError, with_db d s)
    end).

(** A query. *)
Definition query {A} (f : cdb -> result store_error A) : prog server (result store_error A) := store_op (fun _ d => (f d, d)).
End StoreCalls.

(** ** Vectors *)

Record ScoredNote := mkScored { sc_ID : string; sc_Score : float64 }.

Section Vectors.
(** pgvector's [<=>]. *)
Variable cosine_distance : list spec_float -> list spec_float -> float64.

Definition UpsertEmbedding (noteID model : string) (vec : list spec_float) (d : cdb) : result store_error unit * cdb :=
  if negb (exists_where (note_is noteID) (d_notes (c_tdb d))) then (Err DbError, d)
  else
    let is_note e := (em_note e =? noteID)%string in
    let row := mkEmbedding noteID vec model (len vec) in
    let table := if exists_where is_note (c_embeddings d) then update_where is_note (fun _ => row) (c_embeddings d)
                 else (c_embeddings d ++ [row])%list in
    (Ok tt, mkCdb (c_rest d) (c_tdb d) (c_aliases d) (c_templates d) table (c_conversations d) (c_messages d) (c_sources d) (c_drawn d)).

Definition SearchEmbeddings (ownerID model : string) (vec : list spec_float) (dim : Z) (limit : nat) (d : cdb) : list ScoredNote :=
  let joined := flat_map (fun e => map (fun n => (e, n)) (select_where (note_is (em_note e)) (d_notes (c_tdb d)))) (c_embeddings d) in
  let hits := select_where (fun en : embedding_row * note_row =>
    owned ownerID en.2 && row_live en.2 && (em_model en.1 =? model)%string && (em_dim en.1 =? dim)%Z) joined in
  let distance (en : embedding_row * note_row) := cosine_distance (em_vector en.1) vec in
  map (fun en => mkScored (row_id en.2) (SFsub 53 1024 (float64_of_Z 1) (distance en)))
    (take limit (order_by (fun a b => float_lt (distance a) (distance b)) hits)).

Definition of_model (model : string) (dim : Z) (e : embedding_row) : bool := (em_model e =? model)%string && (em_dim e =? dim)%Z.

Definition DeleteEmbeddingsForModel (model : string) (dim : Z) (d : cdb) : nat * cdb :=
  (rows_affected (of_model model dim) (c_embeddings d),
   mkCdb (c_rest d) (c_tdb d) (c_aliases d) (c_templates d) (delete_where (of_model model dim) (c_embeddings d))
     (c_conversations d) (c_messages d) (c_sources d) (c_drawn d)).

Definition embeddable (r : note_row) : bool := status_is NoteReady r && row_live r.
Definition embedded (model : string) (dim : Z) (d : cdb) (r : note_row) : bool :=
  exists_where (fun e => (em_note e =? row_id r)%string && of_model model dim e) (c_embeddings d).

(** [(done, total)] *)
Definition EmbeddingStatus (model : string) (dim : Z) (d : cdb) : nat * nat :=
  (rows_affected (fun r => embeddable r && embedded model dim d r) (d_notes (c_tdb d)),
   rows_affected embeddable (d_notes (c_tdb d))).

Definition NotesMissingEmbedding (model : string) (dim : Z) (limit : nat) (d : cdb) : list string :=
  map row_id (take limit (order_by (fun a b => row_created b <? row_created a)%Z
    (select_where (fun r => embeddable r && negb (embedded model dim d r)) (d_notes (c_tdb d))))).
End Vectors.

(** ** Retrieval *)

Definition defaultSemanticCandidates : nat := 20.

Record Retriever := { EmbeddingsModel : string; EmbeddingsQueryPrefix : string; EmbeddingsMinScore : float64 }.

Record NoteTranscript := { nt_NoteID : string; nt_Segments : list Segment; nt_Text : string }.

Record TranscriptRef := mkRef {
  rf_NoteID : string; rf_NoteTitle : string; rf_SegmentID : string; rf_SegmentIndex : Z; rf_StartMS : Z;
  rf_Snippet : string; rf_Score : float64 }.

Definition segment_text (seg : Segment) : string :=
  if negb (Speaker seg =? "")%string then Speaker seg ++ ": " ++ Text seg else Text seg.
Definition assembleTranscriptText (segments : list Segment) : string := String.concat newline (map segment_text segments).

Section Text.
(** The conversions of strings with a byte beyond ASCII. *)
Variable unicode_lower : string -> string.
Variable unicode_fold : string -> string -> bool.

Definition EqualFold (s t : string) : bool :=
  if is_ascii s && is_ascii t then (map_bytes ascii_lower s =? map_bytes ascii_lower t)%string else unicode_fold s t.

Definition contextRunes : nat := 24.
Definition ellipsis : string := "…".

Definition snippet_at (textRunes : list string) (i n : nat) : string :=
  let start := (i - contextRunes)%nat in
  let end_ := Nat.min (i + n + contextRunes) (length textRunes) in
  let snippet := of_runes (take (end_ - start) (drop start textRunes)) in
  let snippet := if (0 <? start)%nat then ellipsis ++ snippet else snippet in
  if (end_ <? length textRunes)%nat then snippet ++ ellipsis else snippet.

(** The loop from rune [i]; [fuel] rounds are left. *)
Fixpoint snippet_from (fuel i : nat) (textRunes : list string) (n : nat) (q : string) : option string :=
  match fuel with
  | O => None
  | S fuel =>
      if EqualFold (of_runes (take n (drop i textRunes))) q then Some (snippet_at textRunes i n)
      else snippet_from fuel (S i) textRunes n q
  end.

Definition snippetAroundMatch (text q : string) : option string :=
  if (q =? "")%string then None
  else
    let textRunes := runes text in
    let n := length (runes q) in
    if (n =? 0)%nat || (length textRunes <? n)%nat then None
    else snippet_from (S (length textRunes - n)) 0 textRunes n q.

(** ** Ranking *)

(** [0.5] and [1.5]. *)
Definition lexical_score : float64 := SFdiv 53 1024 (float64_of_Z 1) (float64_of_Z 2).
Definition title_boost : float64 := SFdiv 53 1024 (float64_of_Z 3) (float64_of_Z 2).

Definition add_score (id : string) (x : float64) (scores : gmap string float64) : gmap string float64 :=
  <[id := SFadd 53 1024 (default (S754_zero false) (scores !! id)) x]> scores.

(** The comparison of [sort.Slice]. *)
Definition ranks_before (a b : string * float64) : bool :=
  if negb (SFeqb a.2 b.2) then SFltb b.2 a.2 else String.ltb a.1 b.1.

Definition boosted (titleByID : gmap string string) (q : string) (hybrid : bool) (id : string) (sc : float64) : float64 :=
  if hybrid && Contains (ToLower unicode_lower (default "" (titleByID !! id))) (ToLower unicode_lower q)
  then SFmul 53 1024 sc title_boost else sc.

Definition rankTopK (scores : gmap string float64) (titleByID : gmap string string) (q : string) (hybrid : bool) (cap : nat)
  : list string :=
  let ranked := map (fun '(id, sc) => (id, boosted titleByID q hybrid id sc)) (map_to_list scores) in
  map fst (take cap (order_by ranks_before ranked)).

Definition title_or_snippet_matches (lq : string) (n : Note) : bool :=
  Contains (ToLower unicode_lower (note_Title n)) lq || Contains (ToLower unicode_lower (note_Snippet n)) lq.

(** The loop over the notes. *)
Definition lexical_scores (lq : string) (notes : list Note) : gmap string float64 :=
  fold_left (fun m n => if title_or_snippet_matches lq n then add_score (note_ID n) lexical_score m else m) notes ∅.

(** The loop over the hits: the scores, and [hitsAdded]. *)
Definition add_hits (allowed : gset string) (minScore : float64) (hits : list ScoredNote) (scores : gmap string float64)
  : gmap string float64 * nat :=
  fold_left (fun '(m, added) h =>
    if bool_decide (sc_ID h ∈ allowed) && SFleb minScore (sc_Score h)
    then (add_score (sc_ID h) (sc_Score h) m, S added) else (m, added)) hits (scores, 0%nat).

(** The first segment that matches, with its index. *)
Fixpoint matching_segment (i : nat) (q : string) (segments : list Segment) : option (nat * Segment * string) :=
  match segments with
  | [] => None
  | seg :: rest =>
      match snippetAroundMatch (Text seg) q with
      | Some snippet => Some (i, seg, snippet)
      | None => matching_segment (S i) q rest
      end
  end.

Definition cite (id : string) (note : option Note) (score : float64) (q : string) (segments : list Segment) : TranscriptRef :=
  let title := match note with Some n => note_Title n | None => "" end in
  match matching_segment 0 q segments with
  | Some (i, seg, snippet) => mkRef id title (seg_ID seg) (Z.of_nat i) (StartMS seg) snippet score
  | None => mkRef id title "" (-1) 0 (match note with Some n => note_Snippet n | None => "" end) score
  end.

(** ** [TopK] and [NoteTranscript] *)

Definition no_filter : ListNotesFilter := {|
  f_Tag := ""; f_Status := ""; f_FolderID := ""; FolderIDSet := false; PersonID := ""; PersonIDSet := false;
  CreatedFrom := None; CreatedTo := None |}.

Variable fates : nat -> fate.
(** Postgres's [lower] and its orders of text. *)
Variable lower : string -> string.
Variable name_lt text_lt : string -> string -> bool.
Variable cosine_distance : list spec_float -> list spec_float -> float64.
(** The embedder, if one is configured: its answers and its dimension. *)
Variable embedder : option ((nat -> string -> option (list spec_float)) * Z).
Variable r : Retriever.

(** The semantic part; a failure of the embedder or of the search skips it. *)
Definition semantic (ownerID q : string) (allowed : gset string) (scores : gmap string float64)
  : prog server (gmap string float64 * bool) :=
  match embedder with
  | None => Done (scores, false)
  | Some (Embed, dim) =>
      prog_bind (call (fun n s => (Embed n (EmbeddingsQueryPrefix r ++ q), s))) (fun vec =>
      match vec with
      | None => Done (scores, false)
      | Some vec =>
          prog_bind (query fates (fun d => Ok (SearchEmbeddings cosine_distance ownerID (EmbeddingsModel r) vec dim defaultSemanticCandidates d)))
            (fun hits =>
          match hits with
          | Err _ => Done (scores, false)
          | Ok hits =>
              let '(scores, hitsAdded) := add_hits allowed (EmbeddingsMinScore r) hits scores in
              Done (scores, (0 <? hitsAdded)%nat)
          end)
      end)
  end.

Fixpoint cite_all (ids : list string) (noteByID : gmap string Note) (scores : gmap string float64) (q : string)
  : prog server (result store_error (list TranscriptRef)) :=
  match ids with
  | [] => Done (Ok [])
  | id :: ids =>
      let cited segments := cite id (noteByID !! id) (default (S754_zero false) (scores !! id)) q segments in
      let go ref := prog_bind (cite_all ids noteByID scores q) (fun rest =>
        Done (match rest with Ok rest => Ok (ref :: rest) | Err e => Err e end)) in
      prog_bind (query fates (fun d => GetTranscript id (c_tdb d))) (fun tr =>
      match tr with
      | Ok tr => go (cited (T_Segments tr))
      | Err ErrNotFound => go (cited [])
      | Err e => Done (Err e)
      end)
  end.

Definition TopK (ownerID queryText : string) (k : Z) : prog server (result store_error (list TranscriptRef)) :=
  let q := TrimSpace queryText in
  if (q =? "")%string || (k <=? 0)%Z then Done (Ok [])
  else
    prog_bind (query fates (fun d => Ok (ListNotes lower name_lt ownerID no_filter (notes_view d)))) (fun notes =>
    match notes with
    | Err e => Done (Err e)
    | Ok notes =>
        let noteByID := fold_left (fun m n => <[note_ID n := n]> m) notes (∅ : gmap string Note) in
        let allowed := fold_left (fun m n => {[ note_ID n ]} ∪ m) notes (∅ : gset string) in
        let titleByID := fold_left (fun m n => <[note_ID n := note_Title n]> m) notes (∅ : gmap string string) in
        prog_bind (semantic ownerID q allowed (lexical_scores (ToLower unicode_lower q) notes)) (fun '(scores, hybrid) =>
        cite_all (rankTopK scores titleByID q hybrid (Z.to_nat k)) noteByID scores q)
    end).

(** [Retriever.NoteTranscript]. *)
Definition note_transcript (ownerID noteID : string) : prog server (result store_error NoteTranscript) :=
  prog_bind (query fates (fun d => Ok (NoteOwnedBy ownerID noteID (d_notes (c_tdb d))))) (fun owned =>
  match owned with
  | Err e => Done (Err e)
  | Ok false => Done (Err ErrNotFound)
  | Ok true =>
      prog_bind (query fates (fun d => GetTranscript noteID (c_tdb d))) (fun tr =>
      match tr with
      | Err e => Done (Err e)
      | Ok tr =>
          prog_bind (query fates (fun d => Ok (SpeakerAliasMap text_lt ownerID noteID (c_aliases d)))) (fun aliases =>
          match aliases with
          | Err e => Done (Err e)
          | Ok aliases =>
              let '(segments, applied) := ApplyAliases (T_Segments tr) aliases in
              let text := assembleTranscriptText segments in
              let text := match applied with
                          | Some applied => AliasPreface applied ++ newline ++ newline ++ text
                          | None => text
                          end in
              Done (Ok {| nt_NoteID := noteID; nt_Segments := segments; nt_Text := text |})
          end)
      end)
  end).

End Text.

(** ** The prompt *)

Definition ChatDirective : string :=
  "You are a note-taking assistant answering questions using only the numbered sources provided below. " ++
  "Base every claim strictly on those sources; do not use outside knowledge or speculate beyond what they say. " ++
  "Cite the source(s) supporting each claim inline with bracketed markers matching the source numbers, e.g. [1] or [2][3]. " ++
  "Use speaker names exactly as they appear in the sources verbatim; do not infer, abbreviate, or merge names.".

Definition noSourcesNotice : string := "No sources are available for this query.".

Record PromptMessage := mkPrompt { pm_Role : string; pm_Content : string }.

(** [%02d] of a number that is not negative. *)
Definition two_digits (z : Z) : string := if (z <? 10)%Z then "0" ++ Itoa z else Itoa z.

Definition formatTimestamp (startMS : Z) : string :=
  let startMS := if (startMS <? 0)%Z then 0%Z else startMS in
  let totalSeconds := Z.quot startMS 1000 in
  two_digits (Z.quot totalSeconds 60) ++ ":" ++ two_digits (Z.rem totalSeconds 60).

Definition source_line (i : nat) (src : TranscriptRef) : string :=
  "[" ++ Itoa (Z.of_nat i + 1) ++ "] " ++ rf_NoteTitle src ++ " (" ++ formatTimestamp (rf_StartMS src) ++ "): " ++ rf_Snippet src.

Definition RenderRetrievalBlock (sources : list TranscriptRef) : string :=
  match sources with
  | [] => noSourcesNotice
  | _ => String.concat newline (imap source_line sources)
  end.

Definition BuildPrompt (sources : list TranscriptRef) (history : list message_row) (userMessage : string) : list PromptMessage :=
  (mkPrompt "system" ChatDirective :: mkPrompt "system" (RenderRetrievalBlock sources) ::
  map (fun m => mkPrompt (ms_role m) (ms_content m)) history ++ [mkPrompt "user" userMessage])%list.

(** ** Citations *)

Record Source := mkSource { ci_N : Z; ci_NoteID : string; ci_SegmentIndex : Z; ci_Timestamp : Z; ci_Snippet : string }.

(** [\[(\d+)\]] at the start of what follows a bracket: its digits. *)
Definition marker_digits (s : string) : option string :=
  let n := digits_len s in
  if (n =? 0)%nat then None
  else match drop_str n s with
       | String c _ => if Ascii.eqb c "]" then Some (take_str n s) else None
       | EmptyString => None
       end.

(** [FindAllStringSubmatch]: a match holds no bracket that could start another. *)
Fixpoint markers (s : string) : list string :=
  match s with
  | EmptyString => []
  | String c s =>
      if Ascii.eqb c "[" then match marker_digits s with Some digits => digits :: markers s | None => markers s end
      else markers s
  end.

(** The loop of [parseMarkerNumber]. *)
Fixpoint marker_number (n : Z) (digits : string) : option Z :=
  match digits with
  | EmptyString => Some n
  | String c digits =>
      let n := (n * 10 + Z.of_nat (nat_of_ascii c - 48))%Z in
      if (2 ^ 30 <? n)%Z then None else marker_number n digits
  end.

Definition parseMarkerNumber (digits : string) : option Z := marker_number 0 digits.

Definition source_of_ref (n : Z) (ref : TranscriptRef) : Source :=
  mkSource n (rf_NoteID ref) (rf_SegmentIndex ref) (rf_StartMS ref) (rf_Snippet ref).

(** The loop over the matches. *)
Fixpoint citations (sources : list TranscriptRef) (seen : gset Z) (matches : list string) : list Source :=
  match matches with
  | [] => []
  | digits :: matches =>
      match parseMarkerNumber digits with
      | None => citations sources seen matches
      | Some n =>
          if bool_decide (n ∈ seen) then citations sources seen matches
          else
            let rest := citations sources ({[n]} ∪ seen) matches in
            if (n <? 1)%Z || (len sources <? n)%Z then rest
            else match sources !! Z.to_nat (n - 1) with
                 | Some ref => source_of_ref n ref :: rest
                 | None => rest
                 end
      end
  end.

Definition ParseCitations (responseText : string) (sources : list TranscriptRef) : list Source :=
  citations sources ∅ (markers responseText).

(** The pure parts of the chat: the ranking of retrieved notes does not depend on
    the order in which Go ranges over its map or on how [sort.Slice] treats
    rows, and the citations of an answer are its markers. *)

(** ** Orders *)

Lemma string_ltb_spec s t : String.ltb s t = true <-> String.compare s t = Lt.
Proof. unfold String.ltb. by destruct (String.compare s t). Qed.

Lemma string_ltb_irrefl s : String.ltb s s = false.
Proof. apply not_true_iff_false. rewrite string_ltb_spec. pose proof (String.compare_antisym s s) as E. destruct (String.compare s s); cbn in E; congruence. Qed.

Lemma string_ltb_trans s t u : String.ltb s t = true -> String.ltb t u = true -> String.ltb s u = true.
Proof.
  rewrite !string_ltb_spec. revert t u. induction s as [|a s IH]; intros [|b t] [|c u]; cbn; try done.
  unfold Ascii.compare. destruct (N.compare_spec (N_of_ascii a) (N_of_ascii b)), (N.compare_spec (N_of_ascii b) (N_of_ascii c)),
    (N.compare_spec (N_of_ascii a) (N_of_ascii c)); try done; try lia. apply IH.
Qed.

Lemma string_ltb_total s t : s <> t -> String.ltb s t = true \/ String.ltb t s = true.
Proof.
  intros Hne. rewrite !string_ltb_spec. pose proof (String.compare_antisym s t) as E.
  destruct (String.compare s t) eqn:Est; [by apply String.compare_eq_iff in Est|by left|]. right. by destruct (String.compare t s).
Qed.

(** A float that is a number, by sign, exponent and mantissa. *)
Definition float_key (x : spec_float) : Z * Z * Z :=
  match x with
  | S754_zero _ | S754_nan => (0, 0, 0)%Z
  | S754_infinity s => (if s then -2 else 2, 0, 0)%Z
  | S754_finite s m e => (if s then (-1, -e, - Zpos m) else (1, e, Zpos m))%Z
  end.

Definition lex_lt (a b : Z * Z * Z) : Prop :=
  (a.1.1 < b.1.1 \/ (a.1.1 = b.1.1 /\ (a.1.2 < b.1.2 \/ (a.1.2 = b.1.2 /\ a.2 < b.2))))%Z.

Definition is_number (x : spec_float) : Prop := x <> S754_nan.

Lemma SFcompare_key x y : is_number x -> is_number y ->
  match SFcompare x y with
  | Some Lt => lex_lt (float_key x) (float_key y)
  | Some Gt => lex_lt (float_key y) (float_key x)
  | Some Eq => float_key x = float_key y
  | None => False
  end.
Proof.
  unfold is_number, lex_lt. intros Hx Hy.
  destruct x as [s|s| |s m e], y as [s'|s'| |s' m' e']; try done; try destruct s; try destruct s'; cbn; try (left; lia); try done;
    destruct (Z.compare_spec e e') as [->|He|He]; cbn; try lia;
    change (PosDef.Pos.compare_cont Eq m m') with (m ?= m')%positive; destruct (Pos.compare_spec m m') as [->|Hm|Hm]; cbn; try done; lia.
Qed.

Definition pair_numbers (l : list (string * float64)) : Prop := Forall (fun p => is_number p.2) l.

Lemma lex_lt_irrefl k : ~ lex_lt k k.
Proof. unfold lex_lt. lia. Qed.

Lemma lex_lt_trans a b c : lex_lt a b -> lex_lt b c -> lex_lt a c.
Proof. unfold lex_lt. lia. Qed.

Lemma ranks_before_spec a b : is_number a.2 -> is_number b.2 ->
  ranks_before a b = true <->
  lex_lt (float_key b.2) (float_key a.2) \/ (float_key a.2 = float_key b.2 /\ String.ltb a.1 b.1 = true).
Proof.
  intros Ha Hb. unfold ranks_before, SFeqb, SFltb. pose proof (SFcompare_key _ _ Ha Hb) as H1. pose proof (SFcompare_key _ _ Hb Ha) as H2.
  set (ka := float_key a.2) in *. set (kb := float_key b.2) in *. pose proof (lex_lt_irrefl ka) as Hirr. pose proof (lex_lt_trans kb ka kb) as Htr.
  pose proof (lex_lt_irrefl kb) as Hirr'.
  destruct (SFcompare a.2 b.2) as [[]|]; [| | |done]; cbn.
  - rewrite H1 in *. naive_solver.
  - split; [|intros [H|[H _]]; [by destruct (Hirr' (Htr H H1))|by rewrite H in *]].
    destruct (SFcompare b.2 a.2) as [[]|]; try done. auto.
  - destruct (SFcompare b.2 a.2) as [[]|]; [rewrite H2 in *; done| |by destruct (Hirr' (Htr H1 H2))|done]. split; [auto|done].
Qed.

Lemma ranks_before_trans a b c : is_number a.2 -> is_number b.2 -> is_number c.2 ->
  ranks_before a b = true -> ranks_before b c = true -> ranks_before a c = true.
Proof.
  intros Ha Hb Hc. rewrite !ranks_before_spec by done. intros [H1|[E1 H1]] [H2|[E2 H2]].
  - left. unfold lex_lt in *. lia.
  - left. by rewrite <- E2.
  - left. by rewrite E1.
  - right. split; [congruence|]. by eapply string_ltb_trans.
Qed.

Lemma lex_total a b : a = b \/ lex_lt a b \/ lex_lt b a.
Proof.
  destruct a as [[a1 a2] a3], b as [[b1 b2] b3]. unfold lex_lt. cbn.
  destruct (Z.lt_total a1 b1) as [|[->|]], (Z.lt_total a2 b2) as [|[->|]], (Z.lt_total a3 b3) as [|[->|]]; auto; right; lia.
Qed.

Lemma ranks_before_asym a b : is_number a.2 -> is_number b.2 -> ranks_before a b = true -> ranks_before b a = true -> False.
Proof.
  intros Ha Hb H1 H2. pose proof (ranks_before_trans a b a Ha Hb Ha H1 H2) as H. apply ranks_before_spec in H; [|done..].
  destruct H as [H|[_ H]]; [by apply lex_lt_irrefl in H|]. by rewrite string_ltb_irrefl in H.
Qed.

Lemma ranks_before_total a b : is_number a.2 -> is_number b.2 -> a.1 <> b.1 -> ranks_before a b = true \/ ranks_before b a = true.
Proof.
  intros Ha Hb Hne. rewrite !ranks_before_spec by done.
  destruct (lex_total (float_key a.2) (float_key b.2)) as [He|[Hl|Hl]]; [|by right; left|by left; left].
  destruct (string_ltb_total a.1 b.1 Hne); [by left; right|by right; right].
Qed.

Definition rank_lt (a b : string * float64) : Prop := ranks_before a b = true.

Lemma insert_ranked r t : pair_numbers (r :: t) -> NoDup (map fst (r :: t)) -> StronglySorted rank_lt t ->
  StronglySorted rank_lt (insert_sorted ranks_before r t).
Proof.
  intros [Hr Ht]%Forall_cons [Hnd _]%NoDup_cons. induction 1 as [|x t Hs IH Hx]; cbn; [repeat constructor|].
  apply Forall_cons in Ht as [Hxn Ht]. destruct (ranks_before x r) eqn:Eb.
  - constructor; [apply IH; [done|]; intros Hin; apply Hnd; by right|]. rewrite insert_sorted_perm. by constructor.
  - assert (Hrx : rank_lt r x).
    { destruct (ranks_before_total r x Hr Hxn) as [|Hxr]; [|done|congruence]. intros He. apply Hnd. rewrite He. cbn. left. }
    constructor; [by constructor|]. constructor; [done|]. rewrite Forall_forall in *. intros y Hy.
    apply (ranks_before_trans r x y); [done|done|by apply Ht|done|by apply Hx].
Qed.

Lemma order_by_ranked t : pair_numbers t -> NoDup (map fst t) -> StronglySorted rank_lt (order_by ranks_before t).
Proof.
  induction t as [|r t IH]; intros Hn Hnd; cbn [order_by]; [constructor|].
  apply Forall_cons in Hn as Hn'. destruct Hn' as [Hr Ht]. pose proof Hnd as [_ Hnd']%NoDup_cons.
  apply insert_ranked; [constructor; [done|]; unfold pair_numbers; by rewrite order_by_perm| |by apply IH].
  cbn. by rewrite order_by_perm.
Qed.

(** ** [rankTopK] *)

(** C39. The notes that retrieval returns are the best by score: however Go
    orders the map of scores and whatever the sort makes of the rows, the
    answer is the same, as long as no score is NaN; it has no note twice, is as
    long as allowed, holds scored notes only, and every scored note outside it
    ranks after every note in it. *)
Theorem rankTopK_exact scores titleByID q lower hybrid cap :
  let boost := fun p : string * float64 => (p.1, boosted lower titleByID q hybrid p.1 p.2) in
  (forall id sc, scores !! id = Some sc -> is_number (boosted lower titleByID q hybrid id sc)) ->
  let top := rankTopK lower scores titleByID q hybrid cap in
  (forall ranked, ranked ≡ₚ map boost (map_to_list scores) -> StronglySorted rank_lt ranked -> map fst (take cap ranked) = top) /\
  NoDup top /\ length top = Nat.min cap (size scores) /\
  (forall id, id ∈ top -> is_Some (scores !! id)) /\
  (forall id id' sc sc', scores !! id = Some sc -> scores !! id' = Some sc' -> id ∈ top -> id' ∉ top -> rank_lt (boost (id, sc)) (boost (id', sc'))).
Proof.
  intros boost Hnum top. set (rows := map boost (map_to_list scores)).
  assert (Hrows : map (fun '(id, sc) => (id, boosted lower titleByID q hybrid id sc)) (map_to_list scores) = rows) by (apply map_ext; by intros []).
  assert (Hfst : map fst rows = map fst (map_to_list scores)) by (unfold rows; by rewrite map_map).
  assert (Hnd : NoDup (map fst rows)) by (rewrite Hfst; apply NoDup_fst_map_to_list).
  assert (Hnums : pair_numbers rows).
  { apply Forall_forall. intros p (x & -> & Hx)%list_elem_of_fmap. destruct x as [id sc]. apply Hnum. by apply elem_of_map_to_list. }
  assert (Hin : forall id sc, scores !! id = Some sc -> boost (id, sc) ∈ rows).
  { intros id sc Hid. apply list_elem_of_fmap. exists (id, sc). split; [done|]. by apply elem_of_map_to_list. }
  assert (Htop : top = map fst (take cap (order_by ranks_before rows))) by (unfold top, rankTopK; by rewrite Hrows).
  pose proof (order_by_ranked rows Hnums Hnd) as Hsorted. pose proof (order_by_perm ranks_before rows) as Hperm.
  assert (Hndo : NoDup (map fst (order_by ranks_before rows))) by (by rewrite Hperm).
  rewrite <- (take_drop cap (order_by ranks_before rows)) in Hndo. rewrite map_app in Hndo. rewrite <- Htop in Hndo.
  split; [|split; [|split; [|split]]].
  - intros ranked Hp Hs. rewrite Htop. f_equal. f_equal. apply (StronglySorted_unique_strong rank_lt); [|done|done|by rewrite Hp, Hperm].
    intros a b Ha Hb Hab Hba. exfalso. rewrite Hp in Ha. rewrite Hperm in Hb. unfold pair_numbers in Hnums. rewrite Forall_forall in Hnums.
    by apply (ranks_before_asym a b); [apply Hnums|apply Hnums| |].
  - by apply NoDup_app in Hndo as [? _].
  - rewrite Htop, length_map, length_take, Hperm. unfold rows. rewrite length_map. by rewrite length_map_to_list.
  - intros id Hid. rewrite Htop in Hid. apply list_elem_of_fmap in Hid as (p & -> & Hp). apply elem_of_take in Hp as (k & Hk & _).
    apply list_elem_of_lookup_2 in Hk. rewrite Hperm in Hk. apply list_elem_of_fmap in Hk as ([id sc] & -> & Hm). exists sc. by apply elem_of_map_to_list in Hm.
  - intros id id' sc sc' Hid Hid' Hin1 Hout. apply Hin in Hid. apply Hin in Hid'.
    assert (Hsplit : forall i s, boost (i, s) ∈ rows -> boost (i, s) ∈ take cap (order_by ranks_before rows) \/ boost (i, s) ∈ drop cap (order_by ranks_before rows)).
    { intros i s Hx. apply elem_of_app. rewrite take_drop. by rewrite Hperm. }
    assert (Htaken : forall i s, boost (i, s) ∈ take cap (order_by ranks_before rows) -> i ∈ top).
    { intros i s Hx. rewrite Htop. apply list_elem_of_fmap. by exists (boost (i, s)). }
    destruct (Hsplit _ _ Hid) as [H1|H1].
    + destruct (Hsplit _ _ Hid') as [H2|H2]; [by apply Htaken in H2|].
      rewrite <- (take_drop cap (order_by ranks_before rows)) in Hsorted. apply StronglySorted_app in Hsorted as (Hs & _ & _). by apply Hs.
    + exfalso. apply NoDup_app in Hndo as (_ & Hd & _). apply (Hd id Hin1). apply list_elem_of_fmap. by exists (boost (id, sc)).
Qed.

(** ** Citations *)

Definition is_digit (c : ascii) : bool := in_range 48 57 c.

(** The value of a run of digits after the value [n] of those before it. *)
Fixpoint decimal (n : Z) (digits : string) : Z :=
  match digits with
  | EmptyString => n
  | String c digits => decimal (n * 10 + Z.of_nat (nat_of_ascii c - 48)) digits
  end.

(** Each element once, where it is first. *)
Fixpoint first_occurrences (l : list Z) : list Z :=
  match l with
  | [] => []
  | x :: l => x :: filter (fun y => y <> x) (first_occurrences l)
  end.

Lemma decimal_ge n digits : (0 <= n)%Z -> (n <= decimal n digits)%Z.
Proof. revert n. induction digits as [|c digits IH]; intros n Hn; cbn; [lia|]. etransitivity; [|apply IH]; lia. Qed.

Lemma marker_number_decimal n digits : (0 <= n <= 2 ^ 30)%Z ->
  marker_number n digits = if (decimal n digits <=? 2 ^ 30)%Z then Some (decimal n digits) else None.
Proof.
  revert n. induction digits as [|c digits IH]; intros n Hn; cbn [marker_number decimal].
  - by destruct (Z.leb_spec n (2 ^ 30)); [|lia].
  - set (m := (n * 10 + Z.of_nat (nat_of_ascii c - 48))%Z). pose proof (decimal_ge m digits ltac:(lia)).
    destruct (Z.ltb_spec (2 ^ 30) m); [|by apply IH; lia]. by destruct (Z.leb_spec (decimal m digits) (2 ^ 30)); [lia|].
Qed.

Lemma first_occurrences_NoDup l : NoDup (first_occurrences l).
Proof.
  induction l as [|x l IH]; cbn; [constructor|]. constructor; [|by apply NoDup_filter]. rewrite list_elem_of_filter. naive_solver.
Qed.

Section Cited.
Variable sources : list TranscriptRef.

(** The source of a number, if it is one of the prompt's. *)
Definition cited (n : Z) : option Source :=
  if (1 <=? n)%Z then source_of_ref n <$> sources !! Z.to_nat (n - 1) else None.

Lemma cited_none n : (n < 1 \/ len sources < n)%Z <-> cited n = None.
Proof.
  unfold cited, len. destruct (Z.leb_spec 1 n); [|split; [done|by left]]. rewrite fmap_None, lookup_ge_None. lia.
Qed.

Lemma omap_without n (P : Z -> Prop) `{!forall x, Decision (P x)} (l : list Z) :
  cited n = None -> omap cited (filter P (filter (fun y => y <> n) l)) = omap cited (filter P l).
Proof.
  intros Hn. induction l as [|y l IH]; [done|]. rewrite !filter_cons. destruct (decide (y <> n)) as [Hy|Hy].
  - rewrite filter_cons. destruct (decide (P y)); [cbn; by rewrite IH|done].
  - apply dec_stable in Hy as ->. rewrite IH. destruct (decide (P n)); [cbn; by rewrite Hn|done].
Qed.

Lemma citations_omap seen matches : (len sources <= 2 ^ 30)%Z ->
  citations sources seen matches = omap cited (filter (fun n => n ∉ seen) (first_occurrences (map (decimal 0) matches))).
Proof.
  intros Hlen. revert seen. induction matches as [|digits matches IH]; intros seen; [done|].
  cbn [citations map first_occurrences]. unfold parseMarkerNumber. rewrite marker_number_decimal by lia.
  set (n := decimal 0 digits). destruct (Z.leb_spec n (2 ^ 30)) as [Hn|Hn]; cbv beta iota zeta; rewrite filter_cons.
  - destruct (decide (n ∉ seen)) as [Hs|Hs].
    + rewrite bool_decide_eq_false_2 by done. rewrite IH, list_filter_filter. cbn [omap list_omap].
      assert (E : filter (fun x => x ∉ {[n]} ∪ seen) (first_occurrences (map (decimal 0) matches)) =
                  filter (fun x => x ∉ seen /\ x <> n) (first_occurrences (map (decimal 0) matches))) by (apply list_filter_iff; set_solver).
      rewrite E. destruct ((n <? 1)%Z || (len sources <? n)%Z) eqn:Er.
      * assert (cited n = None) as ->; [|done]. apply cited_none. apply orb_true_iff in Er. lia.
      * apply orb_false_iff in Er as [H1 H2]. unfold cited. destruct (Z.leb_spec 1 n); [|lia].
        by destruct (sources !! Z.to_nat (n - 1)).
    + apply dec_stable in Hs. rewrite bool_decide_eq_true_2 by done. rewrite IH, list_filter_filter. f_equal.
      apply list_filter_iff. intros x. split; [|by intros []]. intros Hx. split; [done|]. by intros ->.
  - assert (Hc : cited n = None) by (apply cited_none; lia). rewrite IH.
    destruct (decide (n ∉ seen)); [cbn [omap list_omap]; rewrite Hc|]; by rewrite omap_without.
Qed.
End Cited.

Lemma digits_len_app d post : all_bytes is_digit d = true -> digits_len (d ++ String "]" post) = String.length d.
Proof. induction d as [|c d IH]; cbn; [done|]. unfold is_digit at 1. intros [-> Hd]%andb_true_iff. by rewrite IH. Qed.

Lemma take_str_app (d t : string) : take_str (String.length d) (d ++ t) = d /\ drop_str (String.length d) (d ++ t) = t.
Proof. induction d as [|c d [IH1 IH2]]; cbn; [done|]. by rewrite IH1, IH2. Qed.

Lemma take_digits s : all_bytes is_digit (take_str (digits_len s) s) = true /\ String.length (take_str (digits_len s) s) = digits_len s.
Proof.
  induction s as [|c s [IH1 IH2]]; cbn; [done|]. destruct (in_range 48 57 c) eqn:Ec; cbn; [|done]. rewrite IH1, IH2. unfold is_digit at 1. by rewrite Ec.
Qed.

Lemma marker_digits_spec s d :
  marker_digits s = Some d <-> exists post, s = d ++ "]" ++ post /\ d <> "" /\ all_bytes is_digit d = true.
Proof.
  unfold marker_digits. destruct (take_digits s) as [Hall Hlen]. split.
  - destruct (Nat.eqb_spec (digits_len s) 0) as [|Hne]; [done|]. pose proof (take_drop_str (digits_len s) s) as Hs.
    destruct (drop_str (digits_len s) s) as [|c post]; [done|]. destruct (Ascii.eqb_spec c "]") as [->|]; [|done]. intros [= <-].
    exists post. split; [by rewrite <- Hs at 1|]. split; [|done]. intros He. by rewrite He in Hlen.
  - intros (post & -> & Hne & Hd). cbn [String.append]. rewrite (digits_len_app d post Hd). destruct (take_str_app d (String "]" post)) as [-> ->].
    destruct d; [done|]. done.
Qed.

Lemma markers_spec s d : d ∈ markers s <-> exists pre post, s = pre ++ "[" ++ d ++ "]" ++ post /\ d <> "" /\ all_bytes is_digit d = true.
Proof.
  induction s as [|c s IH]; cbn [markers].
  - rewrite elem_of_nil. split; [done|]. intros ([|? ?] & post & H & _); discriminate.
  - assert (Hrest : (exists pre post, String c s = pre ++ "[" ++ d ++ "]" ++ post /\ d <> "" /\ all_bytes is_digit d = true) <->
      (c = "["%char /\ marker_digits s = Some d) \/ d ∈ markers s).
    { rewrite IH, marker_digits_spec. split.
      - intros ([|p pre] & post & H & Hd); cbn in H; injection H as -> ->; [left; split; [done|by exists post]|right; by exists pre, post].
      - intros [[-> (post & -> & Hd)]|(pre & post & -> & Hd)]; [by exists "", post|by exists (String c pre), post]. }
    rewrite Hrest. destruct (Ascii.eqb_spec c "[") as [->|Hne]; [|naive_solver].
    destruct (marker_digits s) as [d'|]; [rewrite elem_of_cons|]; naive_solver.
Qed.

Lemma NoDup_omap {A} (f : Z -> option A) (h : A -> Z) (l : list Z) :
  (forall n c, f n = Some c -> h c = n) -> NoDup l -> NoDup (map h (omap f l)).
Proof.
  intros Hf. induction 1 as [|x l Hx _ IH]; cbn; [constructor|]. destruct (f x) as [c|] eqn:Ec; [|exact IH].
  cbn. constructor; [|exact IH]. intros (c' & He & (y & Hy & Ey)%list_elem_of_omap)%list_elem_of_fmap.
  apply Hf in Ec. apply Hf in Ey. congruence.
Qed.

(** C40. The citations of an answer: every run of digits in brackets in the text is
    a marker, the numbers are taken once each in the order they first appear, and
    those that are a source of the prompt become that source.  So the numbers of
    the citations are distinct and between 1 and the number of sources. *)
Theorem ParseCitations_exact text sources :
  (len sources <= 2 ^ 30)%Z ->
  (forall d, d ∈ markers text <-> exists pre post, text = pre ++ "[" ++ d ++ "]" ++ post /\ d <> "" /\ all_bytes is_digit d = true) /\
  ParseCitations text sources = omap (cited sources) (first_occurrences (map (decimal 0) (markers text))) /\
  NoDup (map ci_N (ParseCitations text sources)) /\
  Forall (fun c => (1 <= ci_N c <= len sources)%Z) (ParseCitations text sources).
Proof.
  intros Hlen. assert (E : ParseCitations text sources = omap (cited sources) (first_occurrences (map (decimal 0) (markers text)))).
  { unfold ParseCitations. rewrite citations_omap by done. f_equal.
    induction (first_occurrences _) as [|x l IH]; [done|]. rewrite filter_cons, IH. by rewrite decide_True by set_solver. }
  split; [intros d; apply markers_spec|]. split; [done|]. rewrite E.
  assert (Hn : forall n c, cited sources n = Some c -> ci_N c = n /\ (1 <= n <= len sources)%Z).
  { intros n c Hc. split; [|destruct (decide (n < 1 \/ len sources < n)%Z) as [Ho|]; [apply cited_none in Ho; congruence|lia]].
    unfold cited in Hc. destruct (1 <=? n)%Z; [|done]. by apply fmap_Some in Hc as (ref & _ & ->). }
  split.
  - apply NoDup_omap; [|apply first_occurrences_NoDup]. intros n c Hc. by apply Hn.
  - apply Forall_forall. intros c (n & _ & Hc)%list_elem_of_omap. apply Hn in Hc as [-> Hc]. done.
Qed.
