(* ===== verification/ChatApi.v ===== *)
(** The requests for conversations: [internal/api] ([chat.go],
    [cross_analysis.go], [conversations.go], [inflight_guard.go]) and the
    snapshot that [internal/store/cross_analysis.go] loads.

    A handler is a [prog] on the [server] of [Chat]: store calls, the guard and
    the agent are its calls, and any other request may come between two of them.
    What lies outside - the agent and its plugin row, JSON, SHA-256, times, the
    collation - is the class [Chatting].  [n] is the turn of a call. *)

From stdpp Require Import base list list_numbers strings sets gmap.
From Stdlib Require Import Ascii ZArith Lia SpecFloat.
From S2P Require Import GoInt GoStrings Streaming Sql Transactions Folders Execution Notes Transcripts Templates Plugins Speakers.
From S2P Require Import Resume ChatTables Chat.

Local Open Scope string_scope.

Class Chatting := {
  fates : nat -> fate;
  dbnow : nat -> Z;
  new_uuid : nat -> string;
  tie : message_row -> message_row -> bool;
  db_lower : string -> string;
  db_name_lt : string -> string -> bool;
  db_text_lt : string -> string -> bool;
  unicode_lower : string -> string;
  unicode_upper : string -> string;
  unicode_fold : string -> string -> bool;
  cosine_distance : list spec_float -> list spec_float -> float64;
  embedder : option ((nat -> string -> option (list spec_float)) * Z);
  retriever : Retriever;
  (** [DefaultPlugin] for agents, with the decryption of its config. *)
  default_agent : nat -> result store_error Plugin;
  agent : nat -> Plugin -> GenerateRequest -> result string GenerateResponse;
  with_model : string -> string -> option string;
  unmarshal_admission : string -> option admissionConfigJSON;
  rfc3339 : Z -> string;
  sha256_hex : string -> string;
  quoted : string -> string;
  valid_uuid : string -> bool;
  configured_max_notes : Z }.

(** ** Requests and replies *)

Record crossAnalysisRequest := { cr_TemplateID : string; cr_NoteIDs : list string }.

Record sendMessageRequest := { sm_Content : string; sm_ModelOverride : option string; sm_CrossAnalysis : option crossAnalysisRequest }.

Record conversationRequest := {
  cq_NoteID : option string; cq_Title : string; cq_ModelOverride : option string; cq_Content : string;
  cq_CrossAnalysis : option crossAnalysisRequest }.

Inductive reply :=
| Failed (status : Z) (msg : string)
| Sent (m : message_row) (sources : list Source)
| SentCross (m : Message)
| Created (c : Conversation)
| CreatedSent (c : Conversation) (m : message_row) (sources : list Source)
| CreatedCross (c : Conversation) (m : Message)
| Conversations (cs : list Conversation)
| OneConversation (c : Conversation)
| Messages (ms : list Message)
| NoContent.

(** A malformed body is [None]. *)
Inductive request :=
| PostConversation (uid : string) (body : option conversationRequest)
| GetConversations (uid note_id : string)
| GetConversationByID (uid id : string)
| DeleteConversationByID (uid id : string)
| GetMessages (uid id : string)
| PostMessage (uid id : string) (body : option sendMessageRequest).

Definition chatTopK : Z := 5.
Definition crossAnalysisPromptVersion : string := "cross-v1".

Inductive send_error := ErrChatSendInFlight | ErrNoDefaultAgentPlugin | SendFailed.

Inductive cross_error :=
| ErrCrossAnalysisMalformed
| ErrCrossAnalysisNoteScoped
| ErrCrossAnalysisWrongPhase
| ErrCrossAnalysisPluginChanged
| CrossSnapshot (e : snapshot_error)
| CrossStore (e : store_error)
| CrossExecution (e : execution_error)
| CrossNoAgent.

(** ** Pure parts *)

Definition text_or_blank (o : option string) : string :=
  match o with Some s => if (TrimSpace s =? "")%string then "" else s | None => "" end.

Definition resolveModelOverride (requestOverride conversationOverride : option string) : string :=
  if negb (text_or_blank requestOverride =? "")%string then text_or_blank requestOverride
  else text_or_blank conversationOverride.

Definition blank_line : string := newline ++ newline.

Definition ascii_upper (a : ascii) : ascii := if in_range 97 122 a then byte_of (nat_of_ascii a - 32) else a.

Definition truncateString (s : string) (maxChars : nat) : string :=
  let r := runes s in
  if (length r <=? maxChars)%nat then s else of_runes (take maxChars r) ++ "...".

(** A wrapping quote character, single or double. *)
Definition wrapped (q : nat) (s : string) : bool := HasPrefix s (bytes_string [q]) && HasPrefix (rev_str s) (bytes_string [q]).

Definition sanitizeTitle (raw : string) : string :=
  let s := TrimSpace raw in
  if (s =? "")%string then ""
  else
    let s := if (2 <=? slen s)%Z && (wrapped 34 s || wrapped 39 s)
             then TrimSpace (take_str (String.length s - 2) (drop_str 1 s)) else s in
    let s := String.concat " " (Fields s) in
    let r := runes s in
    if (200 <? length r)%nat then of_runes (take 200 r) else s.

Definition segment_ref (noteID noteTitle : string) (i : nat) (seg : Segment) : TranscriptRef :=
  mkRef noteID noteTitle (seg_ID seg) (Z.of_nat i) (StartMS seg) (Text seg) (S754_zero false).
Definition segmentsToSources (noteID noteTitle : string) (segments : list Segment) : list TranscriptRef :=
  imap (segment_ref noteID noteTitle) segments.

Definition answer_section : TemplateSection := {|
  Heading := "Answer";
  Instruction := "Answer the user's latest message using only the notes above; cite sources inline like [1], [2] where relevant." |}.
Definition title_section : TemplateSection := {|
  Heading := "Title";
  Instruction := "Generate a concise title for this conversation. At most 8 words. Match the conversation's language. Respond with the title text only, no preamble, no quotes, no trailing punctuation." |}.

Definition plain_request (notes : string) (section : TemplateSection) (cfg : string) : GenerateRequest := {|
  Execution.Transcript := []; req_NotesMarkdown := notes; req_Sections := [section]; req_Config := cfg;
  req_SystemPrompt := ""; req_Model := ""; req_Temperature := None; req_Documents := [] |}.

Definition to_message_source (ref : SourceRef) : MessageSource :=
  mkMessageSource (N ref) (Some (src_NoteID ref)) (src_Generation ref) (Z.of_nat (SegmentIndex ref)) (Execution.Timestamp ref)
    (Execution.Snippet ref).
Definition toMessageSources (refs : list SourceRef) : list MessageSource := map to_message_source refs.

Definition section_markdown (sec : SummarySection) : string := "## " ++ s_Heading sec ++ blank_line ++ ContentMarkdown sec.
Definition renderCrossAnalysisMarkdown (sections : list SummarySection) : string := String.concat blank_line (map section_markdown sections).

Section Handlers.
Context `{Chatting}.

Definition ToUpper (s : string) : string := if is_ascii s then map_bytes ascii_upper s else unicode_upper s.

Definition prompt_line (m : PromptMessage) : string := ToUpper (pm_Role m) ++ ": " ++ pm_Content m.
Definition renderPromptText (prompt : list PromptMessage) : string := String.concat blank_line (map prompt_line prompt).

Definition resolveModelConfig (baseConfig override : string) : option string :=
  if (override =? "")%string then Some baseConfig else with_model baseConfig override.

Definition crossAnalysisMaxNotes : Z :=
  if (configured_max_notes <=? 0)%Z || (CrossAnalysisMaxNotes <? configured_max_notes)%Z then CrossAnalysisMaxNotes
  else configured_max_notes.

Definition validateCrossAnalysisIDs (req : crossAnalysisRequest) : bool :=
  negb (TrimSpace (cr_TemplateID req) =? "")%string && negb (length (cr_NoteIDs req) <? CrossAnalysisMinNotes)%nat &&
  valid_uuid (cr_TemplateID req) && forallb valid_uuid (cr_NoteIDs req).

Definition bool_text (b : bool) : string := if b then "true" else "false".

Definition crossAnalysisDigest (pluginID : string) (cfg : AdmissionConfig) : string :=
  sha256_hex (crossAnalysisPromptVersion ++ "|" ++ pluginID ++ "|" ++ Itoa (ContextTokens cfg) ++ "|" ++ Itoa (OutputReserveTokens cfg) ++
    "|" ++ Itoa (ProviderFramingTokens cfg) ++ "|" ++ bool_text (ByteFallbackTokenizer cfg)).

Definition buildCrossAnalysisUserContent (templateName : string) (noteCount : Z) (focus : string) : string :=
  let statement := "Cross-meeting analysis using template " ++ quoted templateName ++ " across " ++ Itoa noteCount ++ " meetings." in
  let focus := TrimSpace focus in
  if (focus =? "")%string then statement else focus ++ blank_line ++ statement.

Definition execution_document (d : CrossAnalysisDocument) : Document := {|
  NoteID := ca_NoteID d; Title := ca_Title d; OccurredAt := rfc3339 (ca_OccurredAt d);
  TranscriptGeneration := ca_Generation d; Segments := ca_Segments d; NotesMarkdown := "" |}.

Definition prepareCrossAnalysisExecution (tmpl : Template) (snap : CrossAnalysisSnapshot) (plug : Plugin) (focus : string)
  : result execution_error PreparedExecution :=
  PrepareDocuments {|
    Sections := tm_Sections tmpl; input_Mode := ModeCrossAnalysis; Documents := map execution_document (ca_Documents snap);
    RunInstruction := TrimSpace focus; Config := plugin_Config plug; SystemPrompt := tm_SystemPrompt tmpl;
    Model := tm_Model tmpl; Temperature := tm_Temperature tmpl |}.

(** ** Calls *)

Local Abbreviation prog := (prog server).
Local Abbreviation store f := (store_op fates f).
Local Abbreviation select f := (query fates f).

(** [LoadOrStore] and [Delete] of the guard's map. *)
Definition tryAcquire (key : string) : prog bool :=
  call (fun _ s => (negb (bool_decide (key ∈ sv_inflight s)), mkServer (sv_db s) ({[key]} ∪ sv_inflight s) (sv_asked s))).
Definition release (key : string) : prog unit :=
  call (fun _ s => (tt, mkServer (sv_db s) (sv_inflight s ∖ {[key]}) (sv_asked s))).

Definition default_plugin : prog (result store_error Plugin) :=
  call (fun n s => (match fates n with Answered => default_agent n | _ => Err DbError end, s)).

Definition generate (plug : Plugin) (req : GenerateRequest) : prog (result string GenerateResponse) :=
  call (fun n s => let answer := agent n plug req in
    (answer, mkServer (sv_db s) (sv_inflight s) (sv_asked s ++ [mkAsked req answer])%list)).

Definition append_message (conversationID role content model : string) (tokens : option Z) : prog (result store_error message_row) :=
  store (fun n => transact (AppendMessage new_uuid (dbnow n) conversationID role content model tokens)).

Definition append_turn (conversationID userContent assistantContent assistantModel : string) (tokens : option Z)
    (sources : list MessageSource) : prog (result store_error (message_row * Message)) :=
  store (fun n => transact (AppendCrossAnalysisTurn new_uuid (dbnow n) conversationID userContent assistantContent assistantModel tokens sources)).

Definition create_conversation (ownerID : string) (noteID : option string) (title : string) (modelOverride : option string)
  : prog (result store_error Conversation) :=
  store (fun n d => if match noteID with Some id => negb (valid_uuid id) | None => false end then (Err DbError, d)
                    else CreateConversation new_uuid (dbnow n) ownerID noteID title modelOverride d).

(** An error ends the rest with [e]. *)
Definition orelse {A B E} (m : prog (result store_error A)) (e : store_error -> E) (k : A -> prog (result E B)) : prog (result E B) :=
  prog_bind m (fun r => match r with Ok a => k a | Err x => Done (Err (e x)) end).

(** [ListMessages]: the three queries are not one transaction. *)
Definition list_messages (ownerID conversationID : string) : prog (result store_error (list Message)) :=
  orelse (select (fun d => Ok (owns_conversation ownerID conversationID d))) id (fun owned =>
  if negb owned then Done (Err ErrNotFound)
  else
    orelse (select (fun d => Ok (message_rows tie conversationID d))) id (fun rows =>
    match rows with
    | [] => Done (Ok [])
    | _ => select (fun d => Ok (with_sources rows d))
    end)).

(** ** Chat *)

Definition chatSources (ownerID : string) (conv : Conversation) (queryText : string) : prog (result store_error (list TranscriptRef)) :=
  match cv_NoteID conv with
  | None => TopK unicode_lower unicode_fold fates db_lower db_name_lt cosine_distance embedder retriever ownerID queryText chatTopK
  | Some noteID =>
      prog_bind (select (fun d => GetNote ownerID noteID (notes_view d))) (fun note =>
      let go noteTitle := prog_bind (note_transcript fates db_text_lt ownerID noteID) (fun nt =>
        Done (match nt with
              | Ok nt => Ok (segmentsToSources noteID noteTitle (nt_Segments nt))
              | Err ErrNotFound => Ok []
              | Err e => Err e
              end)) in
      match note with
      | Ok note => go (note_Title note)
      | Err ErrNotFound => go ""
      | Err e => Done (Err e)
      end)
  end.

(** Best effort: every error is logged and dropped. *)
Definition generateConversationTitle (conv : Conversation) (userContent assistantReply : string) (plug : Plugin) (cfg : string) : prog unit :=
  let notes := "USER: " ++ truncateString userContent 500 ++ blank_line ++ "ASSISTANT: " ++ truncateString assistantReply 500 in
  prog_bind (generate plug (plain_request notes title_section cfg)) (fun resp =>
  match resp with
  | Err _ => Done tt
  | Ok resp =>
      match resp_Sections resp with
      | [] => Done tt
      | sec :: _ =>
          let title := sanitizeTitle (ContentMarkdown sec) in
          if (title =? "")%string then Done tt
          else prog_bind (store (fun n d => let '(b, d) := SetConversationTitleIfEmpty (dbnow n) (cv_ID conv) title d in (Ok b, d)))
                 (fun _ => Done tt)
      end
  end).

(** [sendChatMessage] once it holds the guard. *)
Definition send_guarded (ownerID : string) (conv : Conversation) (content : string) (requestOverride : option string)
  : prog (result send_error (message_row * list Source)) :=
  orelse (chatSources ownerID conv content) (fun _ => SendFailed) (fun sources =>
  orelse (list_messages ownerID (cv_ID conv)) (fun _ => SendFailed) (fun history =>
  let isFirstExchange := (length history =? 0)%nat in
  let prompt := BuildPrompt sources (map msg_row history) content in
  orelse default_plugin (fun e => match e with ErrNotFound => ErrNoDefaultAgentPlugin | _ => SendFailed end) (fun plug =>
  match resolveModelConfig (plugin_Config plug) (resolveModelOverride requestOverride (ModelOverride conv)) with
  | None => Done (Err SendFailed)
  | Some cfg =>
      prog_bind (generate plug (plain_request (renderPromptText prompt) answer_section cfg)) (fun resp =>
      match resp with
      | Err _ => Done (Err SendFailed)
      | Ok resp =>
          match resp_Sections resp with
          | [] => Done (Err SendFailed)
          | sec :: _ =>
              let replyText := ContentMarkdown sec in
              orelse (append_message (cv_ID conv) "user" content "" None) (fun _ => SendFailed) (fun _ =>
              orelse (append_message (cv_ID conv) "assistant" replyText (resp_Model resp) (u_TokensUsed <$> resp_Usage resp)) (fun _ => SendFailed)
                (fun assistantMsg =>
              prog_bind (if isFirstExchange && (cv_Title conv =? "")%string
                         then generateConversationTitle conv content replyText plug cfg else Done tt) (fun _ =>
              Done (Ok (assistantMsg, ParseCitations replyText sources)))))
          end
      end)
  end))).

(** Under the guard of [conv]; the [defer] runs on every way out. *)
Definition with_guard {A} (key : string) (busy : A) (body : prog A) : prog A :=
  prog_bind (tryAcquire key) (fun ok =>
  if negb ok then Done busy
  else prog_bind body (fun a => prog_bind (release key) (fun _ => Done a))).

Definition sendChatMessage (ownerID : string) (conv : Conversation) (content : string) (requestOverride : option string)
  : prog (result send_error (message_row * list Source)) :=
  with_guard (cv_ID conv) (Err ErrChatSendInFlight) (send_guarded ownerID conv content requestOverride).

Definition internal_error : reply := Failed 500 "internal error".
Definition not_found : reply := Failed 404 "not found".
Definition in_progress : reply := Failed 409 "message send already in progress".
Definition no_agent : reply := Failed 422 "no default agent configured".

Definition send_reply (ok : message_row -> list Source -> reply) (r : result send_error (message_row * list Source)) : reply :=
  match r with
  | Ok (m, sources) => ok m sources
  | Err ErrChatSendInFlight => in_progress
  | Err ErrNoDefaultAgentPlugin => no_agent
  | Err SendFailed => internal_error
  end.

(** ** Cross-meeting analysis *)

Fixpoint load_documents (ownerID : string) (noteIDs : list string) (notesByID : gmap string note_row)
    (transcriptByNoteID : gmap string transcript_row) (segments : string -> list Segment)
  : prog (result snapshot_error (list CrossAnalysisDocument)) :=
  match noteIDs with
  | [] => Done (Ok [])
  | id :: rest =>
      match notesByID !! id, transcriptByNoteID !! id with
      | Some n, Some tr =>
          orelse (select (fun d => Ok (SpeakerAliasMap db_text_lt ownerID id (c_aliases d)))) SnapshotStore (fun aliases =>
          let doc := snapshot_document id n tr (segments (ts_id tr)) aliases in
          prog_bind (load_documents ownerID rest notesByID transcriptByNoteID segments) (fun docs =>
          Done (match docs with Ok docs => Ok (doc :: docs) | Err e => Err e end)))
      | _, _ => Done (Err ErrCrossAnalysisNoteNotEligible)   (* excluded by the checks before *)
      end
  end.

Definition LoadCrossAnalysisSnapshot (ownerID : string) (noteIDs : list string) (maxNotes : Z)
  : prog (result snapshot_error CrossAnalysisSnapshot) :=
  match check_note_ids noteIDs maxNotes with
  | Some e => Done (Err e)
  | None =>
      orelse (select (fun d => Ok (query_notes ownerID noteIDs d))) SnapshotStore (fun notesByID =>
      if negb (check_visible noteIDs notesByID) then Done (Err (SnapshotStore ErrNotFound))
      else
        orelse (select (fun d => Ok (query_transcripts noteIDs d))) SnapshotStore (fun transcriptByNoteID =>
        if negb (forallb (analysis_eligible notesByID transcriptByNoteID) noteIDs) then Done (Err ErrCrossAnalysisNoteNotEligible)
        else
          let transcriptIDs := omap (fun id => ts_id <$> transcriptByNoteID !! id) noteIDs in
          orelse (select (fun d => Ok (query_segments transcriptIDs d))) SnapshotStore (fun segments =>
          prog_bind (load_documents ownerID noteIDs notesByID transcriptByNoteID segments) (fun docs =>
          Done (match docs with
                | Ok docs => Ok {| ca_Documents := docs;
                                   ca_Generations := fold_left (fun m doc => <[ca_NoteID doc := ca_Generation doc]> m) docs ∅ |}
                | Err e => Err e
                end)))))
  end.

Record crossAnalysisPreflight := { Prepared : PreparedExecution; pre_Plugin : Plugin; Digest : string; TemplateName : string }.

Definition preflightCrossDocuments (ownerID : string) (noteScoped : option string) (req : crossAnalysisRequest) (focus : string)
  : prog (result cross_error crossAnalysisPreflight) :=
  match noteScoped with
  | Some _ => Done (Err ErrCrossAnalysisNoteScoped)
  | None =>
      if negb (validateCrossAnalysisIDs req) then Done (Err ErrCrossAnalysisMalformed)
      else
        orelse (select (fun d => GetTemplate ownerID (cr_TemplateID req) (c_templates d))) CrossStore (fun tmpl =>
        if negb (tm_Phase tmpl =? "cross")%string then Done (Err ErrCrossAnalysisWrongPhase)
        else
          prog_bind (LoadCrossAnalysisSnapshot ownerID (cr_NoteIDs req) crossAnalysisMaxNotes) (fun snap =>
          match snap with
          | Err e => Done (Err (CrossSnapshot e))
          | Ok snap =>
              orelse default_plugin (fun e => match e with ErrNotFound => CrossNoAgent | e => CrossStore e end) (fun plug =>
              Done (match prepareCrossAnalysisExecution tmpl snap plug focus with
                    | Err e => Err (CrossExecution e)
                    | Ok prepared =>
                        match ParseAdmissionConfig unmarshal_admission (plugin_Config plug) with
                        | Err e => Err (CrossExecution e)
                        | Ok admissionCfg =>
                            match Admit prepared admissionCfg with
                            | Err e => Err (CrossExecution e)
                            | Ok _ => Ok {| Prepared := prepared; pre_Plugin := plug;
                                            Digest := crossAnalysisDigest (plugin_ID plug) admissionCfg; TemplateName := tm_Name tmpl |}
                            end
                        end
                    end))
          end))
  end.

Definition invokeCrossAnalysis (ownerID : string) (conv : Conversation) (pre : crossAnalysisPreflight) (focus : string)
  : prog (result cross_error Message) :=
  orelse (select (VerifyCrossAnalysisGenerations (Generations (Prepared pre)))) CrossStore (fun _ =>
  orelse default_plugin (fun e => match e with ErrNotFound => CrossNoAgent | e => CrossStore e end) (fun plug =>
  match ParseAdmissionConfig unmarshal_admission (plugin_Config plug) with
  | Err e => Done (Err (CrossExecution e))
  | Ok admissionCfg =>
      if negb (plugin_ID plug =? plugin_ID (pre_Plugin pre))%string ||
         negb (crossAnalysisDigest (plugin_ID plug) admissionCfg =? Digest pre)%string
      then Done (Err ErrCrossAnalysisPluginChanged)
      else
        prog_bind (generate plug (request_of (Prepared pre))) (fun answer =>
        match Run (fun _ => answer) (Prepared pre) with
        | Err e => Done (Err (CrossExecution e))
        | Ok result =>
            let userContent := buildCrossAnalysisUserContent (TemplateName pre) (len (Documents (Input (Prepared pre)))) focus in
            let assistantContent := renderCrossAnalysisMarkdown (res_Sections result) in
            let sources := toMessageSources (res_Sources result) in
            orelse (list_messages ownerID (cv_ID conv)) CrossStore (fun history =>
            let isFirstExchange := (length history =? 0)%nat in
            orelse (append_turn (cv_ID conv) userContent assistantContent (res_Model result) (TokensUsed result) sources) CrossStore
              (fun '(_, assistantMsg) =>
            prog_bind (if isFirstExchange && (cv_Title conv =? "")%string
                       then match resolveModelConfig (plugin_Config plug) (resolveModelOverride None (ModelOverride conv)) with
                            | Some cfg => generateConversationTitle conv userContent assistantContent plug cfg
                            | None => Done tt
                            end
                       else Done tt) (fun _ =>
            Done (Ok assistantMsg))))
        end)
  end)).

(** [err.Error()] of the sentinel errors. *)
Definition preflight_error_text (e : cross_error) : string :=
  match e with
  | ErrCrossAnalysisMalformed => "cross-analysis: template_id and at least two note_ids are required"
  | ErrCrossAnalysisNoteScoped => "cross-analysis requires a global conversation"
  | ErrCrossAnalysisWrongPhase => "cross-analysis template must have phase cross"
  | CrossSnapshot ErrCrossAnalysisDuplicateNotes => "cross-analysis: duplicate note ids"
  | CrossSnapshot ErrCrossAnalysisTooFewNotes => "cross-analysis: at least two notes are required"
  | CrossSnapshot ErrCrossAnalysisNoteNotEligible => "cross-analysis: note is not ready, durable, and complete"
  | _ => ""
  end.

Definition writeCrossAnalysisPreflightError (e : cross_error) : reply :=
  match e with
  | ErrCrossAnalysisMalformed | ErrCrossAnalysisNoteScoped | ErrCrossAnalysisWrongPhase
  | CrossSnapshot ErrCrossAnalysisDuplicateNotes | CrossSnapshot ErrCrossAnalysisTooFewNotes
  | CrossSnapshot ErrCrossAnalysisNoteNotEligible => Failed 400 (preflight_error_text e)
  | CrossStore ErrNotFound | CrossSnapshot (SnapshotStore ErrNotFound) => not_found
  | CrossSnapshot ErrCrossAnalysisTooManyNotes => Failed 413 "too many notes selected"
  | CrossExecution ErrContextBudget => Failed 413 "selected meetings exceed the model's context budget"
  | CrossNoAgent => no_agent
  | _ => internal_error
  end.

Definition writeCrossAnalysisPostCreationError (e : cross_error) : reply :=
  match e with
  | CrossStore ErrGenerationMismatch => Failed 412 "selected meetings changed, please retry"
  | CrossNoAgent => no_agent
  | _ => internal_error
  end.

Definition handleCrossAnalysisSend (ownerID : string) (conv : Conversation) (req : crossAnalysisRequest) (focus : string) : prog reply :=
  with_guard (cv_ID conv) in_progress (
    prog_bind (preflightCrossDocuments ownerID (cv_NoteID conv) req focus) (fun pre =>
    match pre with
    | Err e => Done (writeCrossAnalysisPreflightError e)
    | Ok pre =>
        prog_bind (invokeCrossAnalysis ownerID conv pre focus) (fun msg =>
        Done (match msg with Err e => writeCrossAnalysisPostCreationError e | Ok msg => SentCross msg end))
    end)).

Definition resolveDeferredNoDefaultAgentPlugin : prog reply :=
  prog_bind default_plugin (fun r => Done (match r with Err ErrNotFound => no_agent | _ => internal_error end)).

Definition handleCreateAndSendCrossAnalysis (ownerID : string) (req : conversationRequest) (cross : crossAnalysisRequest) : prog reply :=
  match cq_NoteID req with
  | Some _ => Done (writeCrossAnalysisPreflightError ErrCrossAnalysisNoteScoped)
  | None =>
      let focus := TrimSpace (cq_Content req) in
      prog_bind (preflightCrossDocuments ownerID None cross focus) (fun pre =>
      let create k := prog_bind (create_conversation ownerID (cq_NoteID req) (cq_Title req) (cq_ModelOverride req)) (fun c =>
        match c with
        | Err ErrNotFound => Done not_found
        | Err _ => Done internal_error
        | Ok conv => k conv
        end) in
      match pre with
      | Err CrossNoAgent => create (fun _ => resolveDeferredNoDefaultAgentPlugin)
      | Err e => Done (writeCrossAnalysisPreflightError e)
      | Ok pre =>
          create (fun conv =>
          with_guard (cv_ID conv) in_progress (
            prog_bind (invokeCrossAnalysis ownerID conv pre focus) (fun msg =>
            Done (match msg with Err e => writeCrossAnalysisPostCreationError e | Ok msg => CreatedCross conv msg end))))
      end)
  end.

(** ** Handlers *)

Definition store_reply (e : store_error) : reply := match e with ErrNotFound => not_found | _ => internal_error end.

Definition handleSendMessage (uid id : string) (body : option sendMessageRequest) : prog reply :=
  if negb (valid_uuid id) then Done not_found
  else match body with
  | None => Done (Failed 400 "invalid body")
  | Some req =>
      if match sm_CrossAnalysis req with None => true | Some _ => false end && (TrimSpace (sm_Content req) =? "")%string
      then Done (Failed 400 "content is required")
      else
        prog_bind (select (GetConversation uid id)) (fun conv =>
        match conv with
        | Err e => Done (store_reply e)
        | Ok conv =>
            match sm_CrossAnalysis req with
            | Some cross => handleCrossAnalysisSend uid conv cross (sm_Content req)
            | None => prog_bind (sendChatMessage uid conv (sm_Content req) (sm_ModelOverride req)) (fun r => Done (send_reply Sent r))
            end
        end)
  end.

Definition handleCreateConversation (uid : string) (body : option conversationRequest) : prog reply :=
  match body with
  | None => Done (Failed 400 "invalid body")
  | Some req =>
      match cq_CrossAnalysis req with
      | Some cross => handleCreateAndSendCrossAnalysis uid req cross
      | None =>
          prog_bind (create_conversation uid (cq_NoteID req) (cq_Title req) (cq_ModelOverride req)) (fun c =>
          match c with
          | Err e => Done (store_reply e)
          | Ok c =>
              if (TrimSpace (cq_Content req) =? "")%string then Done (Created c)
              else prog_bind (sendChatMessage uid c (cq_Content req) None) (fun r => Done (send_reply (CreatedSent c) r))
          end)
      end
  end.

Definition handleListConversations (uid note_id : string) : prog reply :=
  let noteID := if (note_id =? "")%string then None else Some note_id in
  prog_bind (select (fun d =>
    if match noteID with Some id => negb (valid_uuid id) | None => false end then Err DbError
    else Ok (ListConversations uid noteID d))) (fun r =>
  Done (match r with Ok cs => Conversations cs | Err _ => internal_error end)).

Definition handleGetConversation (uid id : string) : prog reply :=
  if negb (valid_uuid id) then Done not_found
  else prog_bind (select (GetConversation uid id)) (fun r =>
    Done (match r with Ok c => OneConversation c | Err e => store_reply e end)).

Definition handleDeleteConversation (uid id : string) : prog reply :=
  if negb (valid_uuid id) then Done not_found
  else prog_bind (store (fun _ => DeleteConversation uid id)) (fun r =>
    Done (match r with Ok _ => NoContent | Err e => store_reply e end)).

Definition handleListMessages (uid id : string) : prog reply :=
  if negb (valid_uuid id) then Done not_found
  else prog_bind (list_messages uid id) (fun r =>
    Done (match r with Ok ms => Messages ms | Err e => store_reply e end)).

Definition handle (q : request) : prog reply :=
  match q with
  | PostConversation uid body => handleCreateConversation uid body
  | GetConversations uid note_id => handleListConversations uid note_id
  | GetConversationByID uid id => handleGetConversation uid id
  | DeleteConversationByID uid id => handleDeleteConversation uid id
  | GetMessages uid id => handleListMessages uid id
  | PostMessage uid id body => handleSendMessage uid id body
  end.

End Handlers.
