(* ===== verification/ChatRuns.v ===== *)
(** Requests for conversations, served side by side: what the guard of
    [inflight_guard.go] and the order of the calls in [chat.go] and
    [cross_analysis.go] keep true of every conversation.

    The ghost state of a request is what it may rely on: the ids it has read, the
    conversation it holds, the messages it has seen there, and what the agent
    told it. *)

From stdpp Require Import base list strings sets gmap.
From Stdlib Require Import ZArith Lia SpecFloat.
From S2P Require Import GoInt GoStrings Streaming Sql Transactions Folders Execution Notes Transcripts Templates Plugins Speakers.
From S2P Require Import Resume ChatTables Chat ChatApi.

Local Open Scope string_scope.

(** The user a request is served for. *)
Definition requester (q : request) : string :=
  match q with
  | PostConversation uid _ | GetConversations uid _ | GetConversationByID uid _ | DeleteConversationByID uid _
  | GetMessages uid _ | PostMessage uid _ _ => uid
  end.

Section Runs.
Context `{Chatting}.
Context `{Hinj : !Inj (=) (=) new_uuid}.

(** ** Threads *)

(** The agent was asked [u] after exactly the messages [l], and [text] is the
    first section of its reply. *)
Definition told (log : list asked) (l : list message_row) (u : message_row) (text : string) : Prop :=
  exists sources cfg resp sec rest,
    mkAsked (plain_request (renderPromptText (BuildPrompt sources (order_by (message_before tie) l) (ms_content u))) answer_section cfg)
      (Ok resp) ∈ log /\
    resp_Sections resp = sec :: rest /\ text = ContentMarkdown sec.

(** [u] and [a] report a cross-meeting analysis: the agent was asked about the
    documents of a snapshot, and [a] is its validated report with the sources
    [xs]. *)
Definition reported (log : list asked) (u a : message_row) (xs : list source_row) : Prop :=
  exists tmpl snap plug focus prepared answer result,
    prepareCrossAnalysisExecution tmpl snap plug focus = Ok prepared /\
    mkAsked (request_of prepared) answer ∈ log /\ Run (fun _ => answer) prepared = Ok result /\
    ms_content u = buildCrossAnalysisUserContent (tm_Name tmpl) (len (Documents (Input prepared))) focus /\
    ms_content a = renderCrossAnalysisMarkdown (res_Sections result) /\
    Forall2 unlinked (map (source_of (ms_id a)) (toMessageSources (res_Sources result))) xs.

(** Questions, each followed at once by its answer if that was stored. [src]
    gives the sources of a message: those of a report, and none else. *)
Inductive thread (log : list asked) (src : string -> list source_row) : list message_row -> Prop :=
| thread_nil : thread log src []
| thread_user l u text : thread log src l -> ms_role u = "user" -> src (ms_id u) = [] -> told log l u text ->
    thread log src (l ++ [u])
| thread_turn l u a : thread log src l -> ms_role u = "user" -> ms_role a = "assistant" -> src (ms_id u) = [] ->
    (told log l u (ms_content a) /\ src (ms_id a) = []) \/ reported log u a (src (ms_id a)) ->
    thread log src (l ++ [u; a]).

Lemma told_mono log log' l u text : log ⊆ log' -> told log l u text -> told log' l u text.
Proof. intros Hs (a & b & c & d & e & Hin & Hrest). exists a, b, c, d, e. split; [by apply Hs|done]. Qed.

Lemma reported_mono log log' u a xs xs' : log ⊆ log' -> Forall2 unlinked xs xs' -> reported log u a xs -> reported log' u a xs'.
Proof.
  intros Hs Hx (t & sn & p & f & pr & an & r & H1 & H2 & H3 & H4 & H5 & H6). exists t, sn, p, f, pr, an, r.
  split_and!; try done; [by apply Hs|]. eapply Forall2_trans; [intros x y z; apply unlinked_trans|done|done].
Qed.

Lemma no_sources xs : Forall2 unlinked [] xs -> xs = [].
Proof. by intros Hx%Forall2_nil_inv_l. Qed.

Lemma thread_mono log log' src src' l : log ⊆ log' ->
  (forall m, m ∈ l -> Forall2 unlinked (src (ms_id m)) (src' (ms_id m))) -> thread log src l -> thread log' src' l.
Proof.
  intros Hs Hx Ht. induction Ht as [|l u text _ IH Hu Hsu Htold|l u a _ IH Hu Ha Hsu Hans]; [constructor|..].
  - eapply thread_user; [apply IH; intros m Hm; apply Hx, elem_of_app; by left|done| |by eapply told_mono].
    apply no_sources. rewrite <- Hsu. apply Hx, elem_of_app. right. by left.
  - apply thread_turn; [apply IH; intros m Hm; apply Hx, elem_of_app; by left|done|done| |].
    + apply no_sources. rewrite <- Hsu. apply Hx, elem_of_app. right. by left.
    + assert (Hxa : Forall2 unlinked (src (ms_id a)) (src' (ms_id a))) by (apply Hx, elem_of_app; right; right; by left).
      destruct Hans as [[Htold Hsa]|Hrep]; [left|right; by eapply reported_mono].
      split; [by eapply told_mono|]. apply no_sources. by rewrite <- Hsa.
Qed.

Lemma thread_before log src l u : ms_role u = "user" -> thread log src (l ++ [u]) -> thread log src l /\ src (ms_id u) = [].
Proof.
  intros Hu Ht. inversion Ht as [He|l0 u0 text H0 Hr Hsu Htold He|l0 u0 a0 H0 Hr Ha Hsu Hans He].
  - by destruct l.
  - apply app_inj_2 in He as [-> [= ->]]; [done|done].
  - change [u0; a0] with ([u0] ++ [a0])%list in He. rewrite app_assoc in He. apply app_inj_2 in He as [_ [= ->]]; [congruence|done].
Qed.

(** ** Ghost states *)

Section Users.
(** The users who send requests, and those whose conversations the rest of the
    program does not delete. *)
Variables users spared : string -> Prop.

Local Abbreviation evolves := (evolves new_uuid users spared).
Local Abbreviation sources_now d := (fun id => sources_under id d).

Record ghost := mkGhost {
  gh_uid : string; gh_known : list string; gh_held : option string; gh_seen : option (list message_row); gh_heard : list asked }.

Definition new_ghost (uid : string) : ghost := mkGhost uid [] None None [].
Definition learn (id : string) (g : ghost) : ghost := mkGhost (gh_uid g) (id :: gh_known g) (gh_held g) (gh_seen g) (gh_heard g).
Definition hold (c : option string) (g : ghost) : ghost := mkGhost (gh_uid g) (gh_known g) c None (gh_heard g).
Definition see (l : option (list message_row)) (g : ghost) : ghost := mkGhost (gh_uid g) (gh_known g) (gh_held g) l (gh_heard g).
Definition hear (e : asked) (g : ghost) : ghost := mkGhost (gh_uid g) (gh_known g) (gh_held g) (gh_seen g) (e :: gh_heard g).

(** A conversation with this id is the user's. *)
Definition owned_conversation (d : cdb) (uid id : string) : Prop :=
  forall c, c ∈ c_conversations d -> cv_ID c = id -> cv_OwnerID c = uid.

Record ghost_ok (s : server) (g : ghost) : Prop := mkGhostOk {
  known_drawn : forall id, id ∈ gh_known g -> drawn new_uuid (sv_db s) id;
  held_drawn : forall c, gh_held g = Some c -> drawn new_uuid (sv_db s) c;
  seen_now : forall c l, gh_held g = Some c -> gh_seen g = Some l -> has_conversation (sv_db s) c -> messages_of c (sv_db s) = l;
  heard_asked : gh_heard g ⊆ sv_asked s;
  known_owned : forall id, id ∈ gh_known g -> owned_conversation (sv_db s) (gh_uid g) id;
  held_owned : forall id, gh_held g = Some id -> owned_conversation (sv_db s) (gh_uid g) id;
  served : users (gh_uid g) }.

(** A key is in the guard's map exactly as long as one request holds it. *)
Record held_once (inflight : gset string) (gs : list ghost) : Prop := mkHeldOnce {
  held_inflight : forall c, c ∈ inflight <-> exists i g, gs !! i = Some g /\ gh_held g = Some c;
  held_unique : forall i j g g' c, gs !! i = Some g -> gs !! j = Some g' -> gh_held g = Some c -> gh_held g' = Some c -> i = j }.

Record chat_inv (past : list server) (s : server) (gs : list ghost) : Prop := mkChatInv {
  inv_tables : tables_ok new_uuid (sv_db s);
  inv_threads : forall id, thread (sv_asked s) (sources_now (sv_db s)) (messages_of id (sv_db s));
  inv_ghosts : forall i g, gs !! i = Some g -> ghost_ok s g;
  inv_held : held_once (sv_inflight s) gs;
  inv_past : forall s0, s0 ∈ past -> tables_ok new_uuid (sv_db s0) /\ evolves (sv_db s0) (sv_db s) }.

Lemma past_step past s gs s' : chat_inv past s gs -> tables_ok new_uuid (sv_db s') -> evolves (sv_db s) (sv_db s') ->
  forall s0, s0 ∈ (past ++ [s])%list -> tables_ok new_uuid (sv_db s0) /\ evolves (sv_db s0) (sv_db s').
Proof.
  intros [HT _ _ _ Hp] _ He s0 [Hs0| ->%list_elem_of_singleton]%elem_of_app; [|done].
  destruct (Hp s0 Hs0) as [HT0 He0]. split; [done|]. by apply (evolves_trans _ _ _ _ (sv_db s)).
Qed.

Lemma thread_still log d d' id : tables_ok new_uuid d -> still new_uuid d d' id -> evolves d d' ->
  thread log (sources_now d) (messages_of id d) -> thread log (sources_now d') (messages_of id d').
Proof.
  intros HT [[_ E]|[[_ ->]|[_ ->]]] He; [|constructor..]. rewrite E. apply thread_mono; [done|]. intros m Hm.
  assert (Hin : forall x, m ∈ messages_of id x -> m ∈ c_messages x) by (intros x Hx; by apply elem_of_select_where in Hx as []).
  apply (ev_sources _ _ _ _ _ He); [by apply Hin|]. apply Hin. by rewrite E.
Qed.

Lemma owned_still d d' uid id : drawn new_uuid d id -> evolves d d' -> owned_conversation d uid id -> owned_conversation d' uid id.
Proof.
  intros Hdr He Ho c' Hc' Eid. destruct (ev_conversations _ _ _ _ _ He c' Hc') as [(c & Hc & Hco)|[Hnew _]]; [|by rewrite Eid in Hnew].
  destruct (co_same _ _ _ _ _ Hco) as (E1 & E2 & _). rewrite E2. apply (Ho c Hc). congruence.
Qed.

Lemma ghost_still s s' g :
  evolves (sv_db s) (sv_db s') -> sv_asked s ⊆ sv_asked s' ->
  (forall c, gh_held g = Some c -> still new_uuid (sv_db s) (sv_db s') c) -> ghost_ok s g -> ghost_ok s' g.
Proof.
  intros He Hlog Hst [A B C D E F U]. pose proof (ev_drawn _ _ _ _ _ He) as Hle. constructor; [..|done].
  - intros id Hid. eapply drawn_mono; [done|]. by apply A.
  - intros c Hc. eapply drawn_mono; [done|]. by apply B.
  - intros c l Hc Hl Hh. destruct (Hst c Hc) as [[Hh0 ->]|[[Hno _]|[Hno _]]]; [by apply (C c l)|done|]. destruct Hno. by apply B.
  - by etransitivity.
  - intros id Hid. eapply owned_still; [by apply A|done|by apply E].
  - intros id Hid. eapply owned_still; [by apply B|done|by apply F].
Qed.

Lemma held_once_same inflight gs i g g' :
  gs !! i = Some g -> gh_held g' = gh_held g -> held_once inflight gs -> held_once inflight (<[i := g']> gs).
Proof.
  intros Hi Hh [A B].
  assert (Hback : forall j x, <[i := g']> gs !! j = Some x -> exists y, gs !! j = Some y /\ gh_held y = gh_held x).
  { intros j x. destruct (decide (i = j)) as [<-|Hne].
    - rewrite list_lookup_insert_eq by (by eapply lookup_lt_Some). intros [= <-]. by exists g.
    - rewrite list_lookup_insert_ne by done. intros. by exists x. }
  constructor.
  - intros c. rewrite A. split.
    + intros (j & x & Hj & Hx). destruct (decide (i = j)) as [<-|Hne].
      * exists i, g'. rewrite list_lookup_insert_eq by (by eapply lookup_lt_Some). split; [done|]. congruence.
      * exists j, x. by rewrite list_lookup_insert_ne.
    + intros (j & x & (y & Hj & Hy)%Hback & Hx). exists j, y. split; [done|]. congruence.
  - intros j k x y c (x' & Hj & Hx')%Hback (y' & Hk & Hy')%Hback Hx Hy. apply (B j k x' y' c); congruence.
Qed.

(** A step of request [i] that keeps what it holds: every conversation it does
    not hold is left alone. *)
Lemma step_inv past s s' gs i g g' :
  chat_inv past s gs -> gs !! i = Some g ->
  tables_ok new_uuid (sv_db s') -> evolves (sv_db s) (sv_db s') ->
  sv_asked s ⊆ sv_asked s' -> sv_inflight s' = sv_inflight s ->
  (forall id, gh_held g <> Some id -> still new_uuid (sv_db s) (sv_db s') id) ->
  (forall id, gh_held g = Some id -> thread (sv_asked s') (sources_now (sv_db s')) (messages_of id (sv_db s'))) ->
  gh_held g' = gh_held g -> ghost_ok s' g' ->
  chat_inv (past ++ [s]) s' (<[i := g']> gs).
Proof.
  intros Hinv Hi HT He Hlog Hfl Hstill Hown Hg' Hgok. pose proof Hinv as [T Th Gh Hl _].
  constructor; [done| | | |by eapply past_step].
  - intros id. destruct (decide (gh_held g = Some id)) as [Hid|Hne]; [by apply Hown|].
    eapply thread_still; [done|by apply Hstill|done|]. eapply thread_mono; [done| |done]. intros m _. apply unlinked_refl.
  - intros j x. destruct (decide (i = j)) as [<-|Hne].
    + rewrite list_lookup_insert_eq by (by eapply lookup_lt_Some). by intros [= <-].
    + rewrite list_lookup_insert_ne by done. intros Hj. apply (ghost_still s); [done|done| |by eapply Gh].
      intros c Hc. apply Hstill. intros Hc'. apply Hne. by eapply (held_unique _ _ Hl).
  - rewrite Hfl. by eapply held_once_same.
Qed.

Lemma quiet_inv past s s' gs i g g' :
  chat_inv past s gs -> gs !! i = Some g ->
  tables_ok new_uuid (sv_db s') -> quiet new_uuid (sv_db s) (sv_db s') -> evolves (sv_db s) (sv_db s') ->
  sv_asked s ⊆ sv_asked s' -> sv_inflight s' = sv_inflight s ->
  gh_held g' = gh_held g -> ghost_ok s' g' ->
  chat_inv (past ++ [s]) s' (<[i := g']> gs).
Proof.
  intros Hinv Hi HT [Hle Hq] He Hlog Hfl Hg' Hgok. eapply step_inv; try done.
  intros id _. eapply thread_still; [by apply (inv_tables _ _ _ Hinv)|by apply Hq|done|].
  eapply thread_mono; [done| |by eapply inv_threads]. intros m _. apply unlinked_refl.
Qed.

(** The tables are not changed. *)
Lemma calm_inv past s s' gs i g g' :
  chat_inv past s gs -> gs !! i = Some g -> sv_db s' = sv_db s -> sv_asked s ⊆ sv_asked s' ->
  sv_inflight s' = sv_inflight s -> gh_held g' = gh_held g -> ghost_ok s' g' ->
  chat_inv (past ++ [s]) s' (<[i := g']> gs).
Proof.
  intros Hinv Hi Hd Hlog Hfl Hg' Hgok. pose proof (inv_tables _ _ _ Hinv) as HT.
  eapply quiet_inv; try done; rewrite Hd; [done|by apply quiet_same|apply evolves_refl].
Qed.

(** ** Calls *)

Local Abbreviation wp := (wp chat_inv).

Lemma inv_ghost past s gs i g : chat_inv past s gs -> gs !! i = Some g -> ghost_ok s g.
Proof. intros Hinv Hi. by eapply inv_ghosts. Qed.

(** A part of a handler that changes nothing: queries, and calls out. *)
Definition silent {A} (p : prog server A) : Prop := forall g post, (forall a, post g a) -> wp p post g.

Lemma silent_done {A} (a : A) : silent (Done a).
Proof. intros g post H1. apply H1. Qed.

Lemma silent_bind {A B} (p : prog server A) (f : A -> prog server B) : silent p -> (forall a, silent (f a)) -> silent (prog_bind p f).
Proof. intros Hp Hf g post Hpost. apply wp_bind, Hp. intros a. by apply Hf. Qed.

Lemma silent_call {B} (op : nat -> server -> B * server) : (forall n s, (op n s).2 = s) -> silent (call op).
Proof.
  intros Hop g post Hpost past s gs i Hinv Hi. specialize (Hop (length past) s). destruct (op _ s) as [b s']. cbn in Hop. subst s'.
  exists g. split; [|apply Hpost]. eapply calm_inv; try done. by eapply inv_ghost.
Qed.

Lemma with_db_same s : with_db (sv_db s) s = s.
Proof. by destruct s. Qed.

Lemma silent_query {A} (f : cdb -> result store_error A) : silent (query fates f).
Proof. apply silent_call. intros n s. cbn. destruct (fates n); cbn; by rewrite ?with_db_same. Qed.

Lemma silent_orelse {A B E} (m : prog server (result store_error A)) (e : store_error -> E) (k : A -> prog server (result E B)) :
  silent m -> (forall a, silent (k a)) -> silent (orelse m e k).
Proof. intros Hm Hk. apply silent_bind; [done|]. intros [a|x]; [apply Hk|apply silent_done]. Qed.

Lemma silent_plugin : silent default_plugin.
Proof. by apply silent_call. Qed.

(** The same, with what the answer satisfies. *)
Definition yields {A} (R : A -> Prop) (p : prog server A) : Prop := forall g post, (forall a, R a -> post g a) -> wp p post g.

Lemma yields_done {A} (R : A -> Prop) a : R a -> yields R (Done a).
Proof. intros Ha g post Hpost. by apply Hpost. Qed.

Lemma yields_bind {A B} (R : B -> Prop) (p : prog server A) (f : A -> prog server B) :
  silent p -> (forall a, yields R (f a)) -> yields R (prog_bind p f).
Proof. intros Hp Hf g post Hpost. apply wp_bind, Hp. intros a. by apply Hf. Qed.

Lemma yields_orelse {A B E} (R : result E B -> Prop) (m : prog server (result store_error A)) (e : store_error -> E) k :
  silent m -> (forall x, R (Err (e x))) -> (forall a, yields R (k a)) -> yields R (orelse m e k).
Proof. intros Hm He Hk. apply yields_bind; [done|]. intros [a|x]; [apply Hk|by apply yields_done]. Qed.

Lemma wp_yields {A B} (R : A -> Prop) (p : prog server A) (f : A -> prog server B) post g :
  yields R p -> (forall a, R a -> wp (f a) post g) -> wp (prog_bind p f) post g.
Proof. intros Hp Hf. by apply wp_bind, Hp. Qed.

Lemma wp_silent {A B} (p : prog server A) (f : A -> prog server B) post g :
  silent p -> (forall a, wp (f a) post g) -> wp (prog_bind p f) post g.
Proof. intros Hp Hf. by apply wp_bind, Hp. Qed.

(** An operation of the store that adds no message. *)
Lemma wp_quiet {A} (f : nat -> cdb -> result store_error A * cdb) (post : ghost -> result store_error A -> Prop) g :
  (forall n d, tables_ok new_uuid d -> tables_ok new_uuid (f n d).2 /\ quiet new_uuid d (f n d).2) ->
  (forall n s, tables_ok new_uuid (sv_db s) -> ghost_ok s g -> evolves (sv_db s) (f n (sv_db s)).2) ->
  (forall n s r d', tables_ok new_uuid (sv_db s) -> tables_ok new_uuid d' -> ghost_ok (with_db d' s) g -> f n (sv_db s) = (r, d') ->
    exists g', gh_held g' = gh_held g /\ ghost_ok (with_db d' s) g' /\ post g' r) ->
  post g (Err DbError) -> wp (store_op fates f) post g.
Proof.
  intros Hf Hev Hok Hlost past s gs i Hinv Hi. pose proof (inv_ghost _ _ _ _ _ Hinv Hi) as Hg. pose proof (inv_tables _ _ _ Hinv) as HT.
  specialize (Hf (length past) (sv_db s) HT). specialize (Hev (length past) s HT Hg). specialize (Hok (length past) s).
  destruct (f (length past) (sv_db s)) as [r d'] eqn:Ef. cbn in Hf, Hev. destruct Hf as [HT' Hq].
  assert (Hg' : ghost_ok (with_db d' s) g).
  { apply (ghost_still s); [done|done| |done]. intros c _. by apply Hq. }
  destruct (fates (length past)).
  - destruct (Hok r d' HT HT' Hg' eq_refl) as (g' & Hh & Hgok & Hpost). exists g'. split; [|done]. by eapply quiet_inv.
  - exists g. split; [|done]. by eapply calm_inv.
  - exists g. split; [|done]. by eapply quiet_inv.
Qed.

(** A query that teaches something. *)
Lemma wp_query {A} (f : cdb -> result store_error A) (post : ghost -> result store_error A -> Prop) g :
  (forall s, tables_ok new_uuid (sv_db s) -> ghost_ok s g -> exists g', gh_held g' = gh_held g /\ ghost_ok s g' /\ post g' (f (sv_db s))) ->
  post g (Err DbError) -> wp (query fates f) post g.
Proof.
  intros Hf Hlost. apply wp_quiet; [| |intros n s r d' HT _ Hg [= <- <-]|done].
  - intros n d HT. split; [done|by apply quiet_same].
  - intros n s _ _. apply evolves_refl.
  - rewrite with_db_same in *. by apply Hf.
Qed.

(** The agent. *)
Lemma wp_generate plug req (post : ghost -> result string GenerateResponse -> Prop) g :
  (forall answer, post (hear (mkAsked req answer) g) answer) -> wp (generate plug req) post g.
Proof.
  intros Hpost past s gs i Hinv Hi. cbn. set (answer := agent _ _ _). exists (hear (mkAsked req answer) g). split; [|apply Hpost].
  pose proof (inv_ghost _ _ _ _ _ Hinv Hi) as [A B C D E F U].
  eapply calm_inv; [done|done|done| |done|done|].
  - intros x Hx. cbn. apply elem_of_app. by left.
  - constructor; [done|done|done| |done..]. intros x [->|Hx]%elem_of_cons; apply elem_of_app; [right; by left|]. left. by apply D.
Qed.

(** ** The guard *)

Lemma ghost_hold s g c inflight : ghost_ok s g -> (forall k, c = Some k -> k ∈ gh_known g) ->
  ghost_ok (mkServer (sv_db s) inflight (sv_asked s)) (hold c g).
Proof. intros [A B C D E F U] Hc. constructor; try done; intros k Hk%Hc; [by apply A|by apply E]. Qed.

Lemma held_once_acquire inflight gs i g key :
  gs !! i = Some g -> gh_held g = None -> key ∉ inflight -> held_once inflight gs ->
  held_once ({[key]} ∪ inflight) (<[i := hold (Some key) g]> gs).
Proof.
  intros Hi Hg Hkey [A B]. pose proof (lookup_lt_Some _ _ _ Hi) as Hlt.
  assert (Hcase : forall j x c, <[i := hold (Some key) g]> gs !! j = Some x -> gh_held x = Some c ->
    (j = i /\ c = key) \/ (j <> i /\ c <> key /\ gs !! j = Some x)).
  { intros j x c [(<- & <- & _)|[Hne Hj]]%list_lookup_insert_Some Hx; [left; by injection Hx|]. right.
    split; [done|]. split; [|done]. intros ->. apply Hkey, A. by exists j, x. }
  constructor.
  - intros c. rewrite elem_of_union, elem_of_singleton, A. split.
    + intros [->|(j & x & Hj & Hx)]; [exists i, (hold (Some key) g); by rewrite list_lookup_insert_eq|].
      exists j, x. split; [|done]. rewrite list_lookup_insert_ne; [done|]. intros <-. congruence.
    + intros (j & x & Hj & Hx). destruct (Hcase j x c Hj Hx) as [[_ ->]|(_ & _ & Hj')]; [by left|]. right. by exists j, x.
  - intros j k x y c Hj Hk Hx Hy. destruct (Hcase _ _ _ Hj Hx) as [[-> ->]|(_ & Hne & Hj')], (Hcase _ _ _ Hk Hy) as [[-> He]|(_ & Hne' & Hk')];
      try congruence. by apply (B j k x y c).
Qed.

Lemma held_once_release inflight gs i g key :
  gs !! i = Some g -> gh_held g = Some key -> held_once inflight gs ->
  held_once (inflight ∖ {[key]}) (<[i := hold None g]> gs).
Proof.
  intros Hi Hg [A B].
  assert (Hcase : forall j x c, <[i := hold None g]> gs !! j = Some x -> gh_held x = Some c -> gs !! j = Some x /\ c <> key).
  { intros j x c [(<- & <- & _)|[Hne Hj]]%list_lookup_insert_Some Hx; [done|]. split; [done|]. intros ->. apply Hne. by apply (B i j g x key). }
  constructor.
  - intros c. rewrite elem_of_difference, elem_of_singleton, A. split.
    + intros [(j & x & Hj & Hx) Hne]. exists j, x. split; [|done]. rewrite list_lookup_insert_ne; [done|]. intros <-. congruence.
    + intros (j & x & Hj & Hx). destruct (Hcase j x c Hj Hx) as [Hj' Hne]. split; [by exists j, x|done].
  - intros j k x y c Hj Hk Hx Hy. apply (B j k x y c); [by eapply Hcase|by eapply Hcase|done|done].
Qed.

Lemma guard_inv past s gs i g' inflight :
  chat_inv past s gs -> held_once inflight (<[i := g']> gs) -> ghost_ok (mkServer (sv_db s) inflight (sv_asked s)) g' ->
  chat_inv (past ++ [s]) (mkServer (sv_db s) inflight (sv_asked s)) (<[i := g']> gs).
Proof.
  intros Hinv Hh Hg'. pose proof Hinv as [T Th Gh Hl _].
  constructor; [done|done| |done|eapply past_step; [done|done|apply evolves_refl]].
  intros j x [(<- & <- & _)|[Hne Hj]]%list_lookup_insert_Some; [done|]. specialize (Gh j x Hj) as []. by constructor.
Qed.

Lemma wp_guarded {A} key (busy : A) (body : prog server A) g :
  key ∈ gh_known g -> gh_held g = None ->
  wp body (fun g' _ => gh_held g' = Some key) (hold (Some key) g) ->
  wp (with_guard key busy body) (fun g' _ => gh_held g' = None) g.
Proof.
  intros Hkey Hg Hbody. apply wp_bind. intros past s gs i Hinv Hi.
  pose proof (inv_ghost _ _ _ _ _ Hinv Hi) as Hok.
  destruct (decide (key ∈ sv_inflight s)) as [Hin|Hin]; cbn.
  - rewrite bool_decide_eq_true_2 by done. rewrite (subseteq_union_1_L {[key]} (sv_inflight s)) by set_solver.
    exists g. split; [|done]. destruct s as [d fl log]. apply (guard_inv past (mkServer d fl log)); [done| |done].
    eapply held_once_same; [done|done|]. apply (inv_held _ _ _ Hinv).
  - rewrite bool_decide_eq_false_2 by done. exists (hold (Some key) g). split.
    + apply guard_inv; [done| |by apply ghost_hold; [|intros k [= <-]]].
      apply held_once_acquire; [done..|]. apply (inv_held _ _ _ Hinv).
    + cbn. apply wp_bind. eapply wp_mono; [exact Hbody|]. cbn. intros g1 a Hg1 past1 s1 gs1 j Hinv1 Hj.
      exists (hold None g1). split; [|done].
      apply guard_inv; [done| |by apply ghost_hold; [eapply inv_ghost|]].
      apply held_once_release; [done..|]. apply (inv_held _ _ _ Hinv1).
Qed.

(** ** Messages *)

(** What a transaction that adds [ms] with the sources [xs] to [conv] does. *)
Record adds (conv : string) (ms : list message_row) (xs : list source_row) (d d' : cdb) : Prop := mkAdds {
  adds_tables : tables_ok new_uuid d';
  adds_messages : c_messages d' = (c_messages d ++ ms)%list;
  adds_here : Forall (fun m => ms_conversation m = conv /\ ~ drawn new_uuid d (ms_id m)) ms;
  adds_conversation : has_conversation d conv;
  adds_drawn : (c_drawn d <= c_drawn d')%nat;
  adds_sources : c_sources d' = (c_sources d ++ xs)%list;
  adds_under : Forall (fun x => ~ drawn new_uuid d (sr_message x)) xs;
  adds_touched : exists now, c_conversations d' = update_where (conversation_is conv) (touch_conversation now) (c_conversations d) }.

Lemma adds_has conv ms xs d d' id : adds conv ms xs d d' -> has_conversation d' id <-> has_conversation d id.
Proof. intros Ha. destruct (adds_touched _ _ _ _ _ Ha) as [now E]. by apply (has_conversation_touched (conversation_is conv) (touch_conversation now)). Qed.

Lemma adds_in conv ms xs d d' : adds conv ms xs d d' -> Forall (fun m => ms_conversation m = conv) ms.
Proof. intros Ha. eapply Forall_impl; [apply (adds_here _ _ _ _ _ Ha)|]. by intros m []. Qed.

Lemma adds_still conv ms xs d d' id : tables_ok new_uuid d -> adds conv ms xs d d' -> conv <> id -> still new_uuid d d' id.
Proof.
  intros HT Ha Hne. unfold still.
  rewrite (messages_of_app d d' ms id (adds_messages _ _ _ _ _ Ha)), (select_other_conversation id conv), app_nil_r by (done || by eapply adds_in).
  destruct (has_conversation_dec d id) as [Hid|Hid]; [by left|]. right. left. split; [by rewrite (adds_has _ _ _ _ _ _ Ha)|by eapply no_messages].
Qed.

Lemma adds_of conv ms xs d d' : adds conv ms xs d d' -> messages_of conv d' = (messages_of conv d ++ ms)%list.
Proof. intros Ha. by rewrite (messages_of_app d d' ms conv (adds_messages _ _ _ _ _ Ha)), select_in_conversation by by eapply adds_in. Qed.

Lemma adds_evolves conv ms xs d d' uid : tables_ok new_uuid d -> adds conv ms xs d d' -> users uid -> owned_conversation d uid conv -> evolves d d'.
Proof.
  intros HT Ha Hu Ho. destruct (adds_touched _ _ _ _ _ Ha) as [now E].
  apply (evolves_added _ _ _ conv (touch_conversation now) d d' ms xs); try apply Ha; try done.
  intros c Hc Eid. by rewrite (Ho c Hc Eid).
Qed.

(** The sources of the new messages are the new ones. *)
Lemma adds_src conv ms xs d d' m : tables_ok new_uuid d -> adds conv ms xs d d' -> m ∈ ms ->
  sources_under (ms_id m) d' = select_where (fun x => (sr_message x =? ms_id m)%string) xs.
Proof.
  intros HT Ha Hm. unfold sources_under. rewrite (adds_sources _ _ _ _ _ Ha). unfold select_where. rewrite List.filter_app.
  assert (List.filter (fun x => (sr_message x =? ms_id m)%string) (c_sources d) = []) as ->; [|done].
  pose proof (adds_here _ _ _ _ _ Ha) as Hh. rewrite Forall_forall in Hh. destruct (Hh m Hm) as [_ Hnew].
  destruct (List.filter _ _) as [|x l] eqn:E; [done|]. assert (Hx : x ∈ x :: l) by left. rewrite <- E in Hx.
  apply elem_of_select_where in Hx as [Hx Ex%String.eqb_eq]. destruct Hnew. rewrite <- Ex.
  destruct (sources_placed _ _ HT x Hx) as (y & Hy & <-). by apply messages_drawn.
Qed.

Lemma ghost_forgets s s' g : evolves (sv_db s) (sv_db s') -> sv_asked s' = sv_asked s -> ghost_ok s g -> ghost_ok s' (see None g).
Proof.
  intros He Hlog [A B C D E F U]. pose proof (ev_drawn _ _ _ _ _ He) as Hle. constructor; cbn; [..|done].
  - intros id Hid. eapply drawn_mono; [done|by apply A].
  - intros c Hc. eapply drawn_mono; [done|by apply B].
  - done.
  - by rewrite Hlog.
  - intros id Hid. eapply owned_still; [by apply A|done|by apply E].
  - intros id Hid. eapply owned_still; [by apply B|done|by apply F].
Qed.

Lemma adds_inv past s d' gs i g g' conv ms xs l :
  chat_inv past s gs -> gs !! i = Some g -> adds conv ms xs (sv_db s) d' -> gh_held g = Some conv -> gh_seen g = Some l ->
  thread (sv_asked s) (sources_now d') (l ++ ms) -> gh_held g' = gh_held g -> ghost_ok (with_db d' s) g' ->
  chat_inv (past ++ [s]) (with_db d' s) (<[i := g']> gs).
Proof.
  intros Hinv Hi Hadds Hheld Hseen Hthread Hg' Hgok. pose proof (inv_tables _ _ _ Hinv) as HT.
  pose proof (inv_ghost _ _ _ _ _ Hinv Hi) as Hg.
  eapply step_inv; [done|done|apply Hadds| |done|done| | |done|done].
  - eapply adds_evolves; [done|done|apply (served _ _ Hg)|by apply (held_owned _ _ Hg)].
  - intros id Hne. eapply adds_still; [done|done|]. congruence.
  - intros id Hid. assert (id = conv) as -> by congruence. cbn. rewrite (adds_of _ _ _ _ _ Hadds).
    rewrite (seen_now _ _ Hg conv l); [done|done|done|apply Hadds].
Qed.

Lemma wp_adds {A} (m : nat -> Tx cdb A) (good : A -> list message_row -> list source_row -> Prop) conv l g
    (post : ghost -> result store_error A -> Prop) :
  (forall n d r d', tables_ok new_uuid d -> m n d = Ok (r, d') -> exists ms xs, adds conv ms xs d d' /\ good r ms xs) ->
  gh_held g = Some conv -> gh_seen g = Some l ->
  (forall log src r ms xs, gh_heard g ⊆ log -> good r ms xs ->
     (forall m, m ∈ ms -> src (ms_id m) = select_where (fun x => (sr_message x =? ms_id m)%string) xs) ->
     thread log src l -> thread log src (l ++ ms)) ->
  (forall r ms xs, good r ms xs -> post (see (Some (l ++ ms)%list) g) (Ok r)) ->
  (forall e, post (see None g) (Err e)) ->
  wp (store_op fates (fun n => transact (m n))) post g.
Proof.
  intros Hm Hheld Hseen Hthread Hok Herr past s gs i Hinv Hi.
  pose proof (inv_ghost _ _ _ _ _ Hinv Hi) as Hg. pose proof (inv_tables _ _ _ Hinv) as HT.
  assert (Hsame : chat_inv (past ++ [s]) s (<[i := see None g]> gs)).
  { eapply calm_inv; try done. apply (ghost_forgets s); [apply evolves_refl|done|done]. }
  cbn. unfold transact. destruct (m (length past) (sv_db s)) as [[r d']|e] eqn:Ea.
  - destruct (Hm _ _ _ _ HT Ea) as (ms & xs & Hadds & Hgood).
    assert (Hev : evolves (sv_db s) d') by (eapply adds_evolves; [done|done|apply (served _ _ Hg)|by apply (held_owned _ _ Hg)]).
    assert (Hnone : ghost_ok (with_db d' s) (see None g)) by by apply (ghost_forgets s).
    pose proof (seen_now _ _ Hg conv l Hheld Hseen (adds_conversation _ _ _ _ _ Hadds)) as Hl.
    assert (Hthr : thread (sv_asked s) (sources_now d') (l ++ ms)).
    { apply (Hthread _ _ r ms xs); [by apply Hg|done|intros x Hx; by eapply adds_src|].
      rewrite <- Hl. eapply thread_mono; [done| |by eapply inv_threads].
      intros x Hx%elem_of_select_where. destruct Hx as [Hx _]. apply (ev_sources _ _ _ _ _ Hev); [done|].
      rewrite (adds_messages _ _ _ _ _ Hadds). apply elem_of_app. by left. }
    destruct (fates (length past)); cbn.
    + exists (see (Some (l ++ ms)%list) g). split; [|by eapply Hok]. eapply adds_inv; try done.
      destruct Hnone as [A' B _ D E F U]. constructor; [done|done| |done..].
      cbn. intros c l' Hc' [= <-] _. assert (c = conv) as -> by congruence. by rewrite (adds_of _ _ _ _ _ Hadds), Hl.
    + exists (see None g). split; [done|apply Herr].
    + exists (see None g). split; [by eapply adds_inv|apply Herr].
  - destruct (fates (length past)); cbn; rewrite ?with_db_same; exists (see None g); (split; [done|apply Herr]).
Qed.

Lemma not_drawn d k : (c_drawn d <= k)%nat -> ~ drawn new_uuid d (new_uuid k).
Proof. intros Hle (j & Hj & He%(inj new_uuid)). lia. Qed.

Lemma wp_append conv role content model tokens l g (post : ghost -> result store_error message_row -> Prop) :
  gh_held g = Some conv -> gh_seen g = Some l ->
  (forall log src m, gh_heard g ⊆ log -> ms_role m = role -> ms_content m = content -> src (ms_id m) = [] ->
     thread log src l -> thread log src (l ++ [m])) ->
  (forall m, ms_role m = role -> ms_content m = content -> post (see (Some (l ++ [m])%list) g) (Ok m)) ->
  (forall e, post (see None g) (Err e)) ->
  wp (append_message conv role content model tokens) post g.
Proof.
  intros Hheld Hseen Hthread Hok Herr.
  apply (wp_adds _ (fun m ms xs => ms = [m] /\ xs = [] /\ ms_role m = role /\ ms_content m = content) conv l); [|done|done| | |done].
  - intros n d m d' HT Ea. exists [m], []. destruct (AppendMessage_ok _ _ _ _ _ _ _ _ _ _ HT Ea) as (HT' & Hconv & -> & Hms & Hdr & Hsr & Hcv).
    split; [|done]. constructor; [done|done| |done|lia|by rewrite app_nil_r|done|eauto].
    constructor; [|done]. split; [done|]. by apply not_drawn.
  - intros log src r ms xs Hlog (-> & -> & Hr & Hc) Hsrc. apply Hthread; [done..|]. apply Hsrc. by left.
  - intros r ms xs (-> & -> & Hr & Hc). by apply Hok.
Qed.

Lemma select_sources_of id srcs : select_where (fun x => (sr_message x =? id)%string) (map (source_of id) srcs) = map (source_of id) srcs.
Proof. induction srcs as [|src srcs IH]; cbn; [done|]. rewrite String.eqb_refl. by f_equal. Qed.

Lemma select_sources_other id id' srcs : id' <> id -> select_where (fun x => (sr_message x =? id)%string) (map (source_of id') srcs) = [].
Proof. intros Hne. induction srcs as [|src srcs IH]; cbn; [done|]. by destruct (String.eqb_spec id' id). Qed.

Lemma wp_turn conv question answer model tokens srcs l g (post : ghost -> result store_error (message_row * Message) -> Prop) :
  gh_held g = Some conv -> gh_seen g = Some l ->
  (forall u a, ms_content u = question -> ms_content a = answer -> reported (gh_heard g) u a (map (source_of (ms_id a)) srcs)) ->
  (forall r g', gh_held g' = gh_held g -> gh_uid g' = gh_uid g -> post g' r) ->
  wp (append_turn conv question answer model tokens srcs) post g.
Proof.
  intros Hheld Hseen Hans Hpost.
  apply (wp_adds _ (fun r ms xs => exists u a, ms = [u; a] /\ xs = map (source_of (ms_id a)) srcs /\ ms_id a <> ms_id u /\
    ms_role u = "user" /\ ms_role a = "assistant" /\ ms_content u = question /\ ms_content a = answer) conv l); [|done|done| | |].
  - intros n d r d' HT Ea. destruct (AppendCrossAnalysisTurn_ok _ _ _ _ _ _ _ _ _ _ _ HT Ea) as (HT' & Hconv & _ & Hms & Hdr & Hsr & Hcv).
    do 2 eexists. split; [constructor; [done|exact Hms| |done|lia|exact Hsr| |eauto]|].
    + repeat (apply Forall_cons; split; [split; [done|apply not_drawn; lia]|]). by apply Forall_nil.
    + apply Forall_map, Forall_true. intros x. cbn. apply not_drawn. lia.
    + do 2 eexists. split; [done|]. split; [done|]. split; [|done]. cbn. intros E%(inj new_uuid). lia.
  - intros log src r ms xs Hlog (u & a & -> & -> & Hne & Hu & Ha & Hcu & Hca) Hsrc Ht.
    apply thread_turn; [done..| |].
    + rewrite Hsrc by left. by apply select_sources_other.
    + right. rewrite Hsrc by (right; by left). rewrite select_sources_of. eapply reported_mono; [done|apply unlinked_refl|by apply Hans].
  - intros r ms xs _. by apply Hpost.
  - intros e. by apply Hpost.
Qed.

(** ** Handlers *)

Ltac silently :=
  repeat first
    [ assumption
    | apply silent_done | apply silent_query | apply silent_plugin
    | apply silent_orelse; [|intros ?] | apply silent_bind; [|intros ?] | apply silent_call; intros; reflexivity
    | match goal with
      | |- silent (match ?x with _ => _ end) => destruct x
      | |- silent (let _ := _ in _) => cbv zeta
      | |- forall _, silent _ => intro
      end ].

Lemma silent_cite_all fold ids noteByID scores q : silent (cite_all fold fates ids noteByID scores q).
Proof. induction ids as [|id ids IH]; cbn [cite_all]; silently. Qed.

Lemma silent_TopK lower fold db_lower name_lt cosine emb r ownerID q k : silent (TopK lower fold fates db_lower name_lt cosine emb r ownerID q k).
Proof.
  unfold TopK, semantic. cbv zeta. destruct (_ || _); [silently|]. apply silent_bind; [silently|]. intros [notes|e]; [|silently].
  apply silent_bind; [|intros [scores hybrid]; apply silent_cite_all]. silently.
Qed.

Lemma silent_note_transcript text_lt ownerID noteID : silent (note_transcript fates text_lt ownerID noteID).
Proof.
  unfold note_transcript. silently.
Qed.

Lemma silent_chatSources ownerID conv q : silent (chatSources ownerID conv q).
Proof.
  unfold chatSources. destruct (cv_NoteID conv) as [noteID|]; [|apply silent_TopK].
  assert (Hgo : forall title, silent (prog_bind (note_transcript fates db_text_lt ownerID noteID) (fun nt =>
    Done (match nt with Ok nt => Ok (segmentsToSources noteID title (nt_Segments nt)) | Err ErrNotFound => Ok [] | Err e => Err e end)))).
  { intros title. apply silent_bind; [apply silent_note_transcript|]. silently. }
  apply silent_bind; [silently|]. intros [note|[]]; silently; apply Hgo.
Qed.

Lemma silent_load_documents ownerID noteIDs notes transcripts segments : silent (load_documents ownerID noteIDs notes transcripts segments).
Proof. induction noteIDs as [|id rest IH]; cbn [load_documents]; silently. Qed.

Lemma silent_snapshot ownerID noteIDs maxNotes : silent (LoadCrossAnalysisSnapshot ownerID noteIDs maxNotes).
Proof.
  unfold LoadCrossAnalysisSnapshot. destruct (check_note_ids _ _); [silently|].
  apply silent_orelse; [silently|]. intros notes. destruct (negb _); [silently|].
  apply silent_orelse; [silently|]. intros transcripts. destruct (negb _); [silently|].
  apply silent_orelse; [silently|]. intros segments. apply silent_bind; [apply silent_load_documents|]. silently.
Qed.

Lemma silent_preflight ownerID scoped req focus : silent (preflightCrossDocuments ownerID scoped req focus).
Proof.
  unfold preflightCrossDocuments. destruct scoped; [silently|]. destruct (negb _); [silently|].
  apply silent_orelse; [silently|]. intros tmpl. destruct (negb _); [silently|].
  apply silent_bind; [apply silent_snapshot|]. silently.
Qed.

(** What a preflight that passes has prepared. *)
Definition preflighted (focus : string) (pre : crossAnalysisPreflight) : Prop :=
  exists tmpl snap plug, prepareCrossAnalysisExecution tmpl snap plug focus = Ok (Prepared pre) /\ TemplateName pre = tm_Name tmpl.

Lemma yields_preflight ownerID scoped req focus :
  yields (fun r => match r with Ok pre => preflighted focus pre | Err _ => True end) (preflightCrossDocuments ownerID scoped req focus).
Proof.
  unfold preflightCrossDocuments. destruct scoped; [by apply yields_done|]. destruct (negb _); [by apply yields_done|].
  apply yields_orelse; [silently|done|]. intros tmpl. destruct (negb _); [by apply yields_done|].
  apply yields_bind; [apply silent_snapshot|]. intros [snap|e]; [|by apply yields_done].
  apply yields_orelse; [silently|done|]. intros plug. apply yields_done.
  destruct (prepareCrossAnalysisExecution tmpl snap plug focus) as [prepared|] eqn:E; [|done].
  destruct (ParseAdmissionConfig _ _); [|done]. destruct (Admit _ _); [|done]. by exists tmpl, snap, plug.
Qed.

Lemma wp_title conv question answer plug cfg g (post : ghost -> unit -> Prop) :
  gh_held g = Some (cv_ID conv) -> (forall g', gh_held g' = gh_held g -> post g' tt) -> wp (generateConversationTitle conv question answer plug cfg) post g.
Proof.
  intros Hheld Hpost. unfold generateConversationTitle. cbv zeta. apply wp_bind, wp_generate. intros [resp|e]; [|by apply Hpost].
  destruct (resp_Sections resp) as [|sec rest]; [by apply Hpost|]. destruct (_ =? "")%string; [by apply Hpost|].
  apply wp_bind, wp_quiet; [| | |by apply Hpost].
  - intros n d HT. pose proof (SetConversationTitleIfEmpty_ok new_uuid (dbnow n) (cv_ID conv) (sanitizeTitle (ContentMarkdown sec)) d HT) as Hok.
    by destruct (SetConversationTitleIfEmpty _ _ _ _).
  - intros n s HT Hg. pose proof (evolves_title new_uuid users spared (dbnow n) (cv_ID conv) (sanitizeTitle (ContentMarkdown sec)) (sv_db s) HT) as He.
    destruct (SetConversationTitleIfEmpty _ _ _ _). apply He. intros row Hrow Eid. rewrite (held_owned _ _ Hg (cv_ID conv) Hheld row Hrow Eid). apply (served _ _ Hg).
  - intros n s r d' HT _ Hg _. eexists. split; [done|]. split; [exact Hg|]. by apply Hpost.
Qed.

Lemma silent_list_messages ownerID conv : silent (list_messages ownerID conv).
Proof. unfold list_messages. silently. Qed.

(** Reading the messages of the conversation it holds. *)
Lemma wp_list_messages ownerID conv g (post : ghost -> result store_error (list Message) -> Prop) :
  gh_held g = Some conv ->
  (forall l ms, map msg_row ms = order_by (message_before tie) l -> post (see (Some l) g) (Ok ms)) ->
  (forall g' e, gh_held g' = Some conv -> post g' (Err e)) ->
  wp (list_messages ownerID conv) post g.
Proof.
  intros Hheld Hok Herr. apply wp_silent; [silently|]. intros [owned|e]; [|by apply Herr]. destruct (negb owned); [by apply Herr|].
  apply wp_bind, wp_query; [|by apply Herr]. intros s HT Hg. set (l := messages_of conv (sv_db s)).
  exists (see (Some l) g). split; [done|]. split.
  - destruct Hg as [A B C D E F U]. constructor; [done|done| |done..]. cbn. intros c l' Hc [= <-] _. unfold l. congruence.
  - change (message_rows tie conv (sv_db s)) with (order_by (message_before tie) l). clearbody l. clear s HT Hg.
    destruct (order_by (message_before tie) l) as [|m rows] eqn:E; [by apply Hok|].
    apply wp_query; [|by apply Herr]. intros s HT Hg. exists (see (Some l) g). do 2 (split; [done|]).
    apply Hok. rewrite E. unfold with_sources. rewrite map_map. by rewrite map_id.
Qed.

Lemma wp_send ownerID conv content override g :
  gh_held g = Some (cv_ID conv) ->
  wp (send_guarded ownerID conv content override) (fun g' _ => gh_held g' = Some (cv_ID conv)) g.
Proof.
  intros Hg. apply wp_silent; [apply silent_chatSources|]. intros [sources|e]; [|exact Hg].
  apply wp_bind, wp_list_messages; [exact Hg| |intros g' e Hg'; exact Hg']. intros l history Hhist. apply wp_silent; [silently|].
  intros [plug|e]; [|destruct e; exact Hg]. destruct (resolveModelConfig _ _) as [cfg|]; [|exact Hg].
  apply wp_bind, wp_generate. intros [resp|e]; [|exact Hg]. destruct (resp_Sections resp) as [|sec rest] eqn:Esec; [exact Hg|]. cbv zeta.
  assert (Htold : forall log u, gh_heard (hear (mkAsked (plain_request (renderPromptText (BuildPrompt sources (map msg_row history) content)) answer_section cfg)
      (Ok resp)) (see (Some l) g)) ⊆ log -> ms_content u = content -> told log l u (ContentMarkdown sec)).
  { intros log u Hlog Hcu. exists sources, cfg, resp, sec, rest. split; [|done]. apply Hlog. rewrite Hcu, <- Hhist. left. }
  apply wp_bind, (wp_append _ _ _ _ _ l); [exact Hg|reflexivity| | |intros e; exact Hg].
  { intros log src u Hlog Hu Hcu Hsrc Ht. eapply thread_user; [done..|]. by apply (Htold _ u). }
  intros u Hu Hcu. apply wp_bind, (wp_append _ _ _ _ _ (l ++ [u])); [exact Hg|reflexivity| | |intros e; exact Hg].
  - intros log src a Hlog Ha Hca Hsrc Ht. rewrite <- app_assoc. apply thread_before in Ht as [Ht Hsu]; [|done].
    apply thread_turn; [done..|]. left. split; [|done]. rewrite Hca. by apply Htold.
  - intros a Ha Hca. apply wp_bind. destruct (_ && _); [|exact Hg]. apply wp_title; [exact Hg|]. intros g' Hg'. cbn. by rewrite Hg'.
Qed.

Lemma wp_invoke ownerID conv pre focus g :
  preflighted focus pre -> gh_held g = Some (cv_ID conv) ->
  wp (invokeCrossAnalysis ownerID conv pre focus) (fun g' _ => gh_held g' = Some (cv_ID conv)) g.
Proof.
  intros (tmpl & snap & plug0 & Hprep & Hname) Hg. apply wp_silent; [silently|]. intros [_|e]; [|exact Hg]. apply wp_silent; [silently|].
  intros [plug|e]; [|destruct e; exact Hg]. destruct (ParseAdmissionConfig _ _) as [cfg|e]; [|exact Hg]. destruct (_ || _); [exact Hg|].
  apply wp_bind, wp_generate. intros answer. destruct (Run _ _) as [result|e] eqn:Erun; [|exact Hg]. cbv zeta.
  apply wp_bind, wp_list_messages; [exact Hg| |intros g' e Hg'; exact Hg']. intros l history _.
  apply wp_bind, (wp_turn _ _ _ _ _ _ l); [exact Hg|reflexivity| |].
  - intros u a Hu Ha. exists tmpl, snap, plug0, focus, (Prepared pre), answer, result. split; [done|]. split; [left|].
    split; [done|]. split; [by rewrite Hu, Hname|]. split; [done|]. apply unlinked_refl.
  - intros [[u a]|e] g' Hg' _; cbn in Hg'; rewrite Hg in Hg'; [|exact Hg']. apply wp_bind. destruct (_ && _); [|exact Hg'].
    destruct (resolveModelConfig _ _) as [cfg'|]; [|exact Hg']. apply wp_title; [exact Hg'|]. intros g'' Hg''. cbn. by rewrite Hg''.
Qed.

Definition released {A} (g : ghost) (_ : A) : Prop := gh_held g = None.

Lemma wp_sendChatMessage {A} ownerID conv content override (reply_of : _ -> A) g :
  cv_ID conv ∈ gh_known g -> gh_held g = None ->
  wp (prog_bind (sendChatMessage ownerID conv content override) (fun r => Done (reply_of r))) released g.
Proof. intros Hk Hg. by apply wp_bind, wp_guarded; [..|apply wp_send]. Qed.

Lemma wp_cross_send ownerID conv pre focus (reply_of : _ -> reply) g :
  preflighted focus pre -> cv_ID conv ∈ gh_known g -> gh_held g = None ->
  wp (with_guard (cv_ID conv) in_progress (prog_bind (invokeCrossAnalysis ownerID conv pre focus) (fun msg => Done (reply_of msg)))) released g.
Proof. intros Hpre Hk Hg. apply wp_guarded; [done..|]. by apply wp_bind, wp_invoke. Qed.

(** An id read from a row of the user's is known. *)
Lemma ghost_learns s g c : tables_ok new_uuid (sv_db s) -> c ∈ c_conversations (sv_db s) -> cv_OwnerID c = gh_uid g ->
  ghost_ok s g -> ghost_ok s (learn (cv_ID c) g).
Proof.
  intros HT Hc Ho [A B C D E F U]. constructor; [|done..| |done|done].
  - intros x [->|Hx]%elem_of_cons; [|by apply A]. by apply (conversations_drawn _ _ HT).
  - intros x [->|Hx]%elem_of_cons; [|by apply E]. intros c' Hc' Eid.
    by rewrite (key_unique cv_ID (c_conversations (sv_db s)) c' c (conversation_ids _ _ HT) Hc' Hc Eid).
Qed.

Lemma wp_get_conversation uid id g (post : ghost -> result store_error Conversation -> Prop) :
  gh_uid g = uid -> (forall c, post (learn (cv_ID c) g) (Ok c)) -> (forall e, post g (Err e)) ->
  wp (query fates (GetConversation uid id)) post g.
Proof.
  intros Huid Hok Herr. apply wp_query; [|done]. intros s HT Hg. unfold GetConversation.
  destruct (select_where _ _) as [|c cs] eqn:Ec; [by exists g|]. exists (learn (cv_ID c) g).
  assert (Hin : c ∈ c :: cs) by left. rewrite <- Ec in Hin. apply elem_of_select_where in Hin as [Hin Hp].
  unfold conversation_of, conversation_is in Hp. apply andb_prop in Hp as [Hid%String.eqb_eq Ho%String.eqb_eq].
  split; [done|]. split; [|by apply Hok]. apply ghost_learns; [done..| |done]. congruence.
Qed.

Lemma wp_create ownerID noteID title override g (post : ghost -> result store_error Conversation -> Prop) :
  gh_uid g = ownerID -> (forall c, post (learn (cv_ID c) g) (Ok c)) -> (forall e, post g (Err e)) ->
  wp (create_conversation ownerID noteID title override) post g.
Proof.
  intros Huid Hok Herr. apply wp_quiet; [| | |done].
  - intros n d HT. destruct (match noteID with Some _ => _ | None => _ end); [split; [done|by apply quiet_same]|].
    destruct (CreateConversation _ _ _ _ _ _ d) as [r d'] eqn:Ec. by destruct (CreateConversation_ok _ _ _ _ _ _ _ _ _ HT Ec) as (H1 & H2 & _).
  - intros n s HT Hg. destruct (match noteID with Some _ => _ | None => _ end); [apply evolves_refl|].
    destruct (CreateConversation _ _ _ _ _ _ _) as [r d'] eqn:Ec. cbn. apply (evolves_create new_uuid users spared _ _ _ _ _ _ _ _ HT) in Ec; [done|]. rewrite <- Huid. apply (served _ _ Hg).
  - intros n s r d' HT HT' Hg Hr. destruct (match noteID with Some _ => _ | None => _ end); [injection Hr as <- <-; by exists g|].
    destruct r as [c|e]; [|by exists g]. exists (learn (cv_ID c) g). split; [done|]. split; [|apply Hok].
    unfold CreateConversation in Hr. destruct (match noteID with Some _ => _ | None => _ end); [done|]. injection Hr as <- <-.
    apply (ghost_learns (with_db _ s)); [done| |done|done]. cbn. apply elem_of_app. right. by left.
Qed.

Lemma wp_handleSend uid id body : wp (handleSendMessage uid id body) released (new_ghost uid).
Proof.
  unfold handleSendMessage. destruct (negb _); [reflexivity|]. destruct body as [req|]; [|reflexivity].
  destruct (_ && _); [reflexivity|]. apply wp_bind, wp_get_conversation; [reflexivity| |reflexivity]. intros conv.
  destruct (sm_CrossAnalysis req) as [cross|]; [|apply wp_sendChatMessage; [left|reflexivity]].
  apply wp_guarded; [left|reflexivity|]. eapply wp_yields; [apply yields_preflight|]. intros [pre|e] Hpre; [|reflexivity].
  by apply wp_bind, wp_invoke.
Qed.

Lemma wp_handleCross uid req cross : wp (handleCreateAndSendCrossAnalysis uid req cross) released (new_ghost uid).
Proof.
  unfold handleCreateAndSendCrossAnalysis. destruct (cq_NoteID req); [reflexivity|]. cbv zeta.
  eapply wp_yields; [apply yields_preflight|].
  assert (Hcreate : forall k, (forall conv, wp (k conv) released (learn (cv_ID conv) (new_ghost uid))) ->
    wp (prog_bind (create_conversation uid None (cq_Title req) (cq_ModelOverride req)) (fun c =>
      match c with Err ErrNotFound => Done not_found | Err _ => Done internal_error | Ok conv => k conv end)) released (new_ghost uid)).
  { intros k Hk. by apply wp_bind, wp_create; [| |intros []]. }
  intros [pre|e] Hpre.
  - apply Hcreate. intros conv. apply wp_cross_send; [done|left|reflexivity].
  - destruct e; try reflexivity. apply Hcreate. intros conv. by apply wp_silent; [silently|].
Qed.

Lemma wp_handleCreate uid body : wp (handleCreateConversation uid body) released (new_ghost uid).
Proof.
  unfold handleCreateConversation. destruct body as [req|]; [|reflexivity].
  destruct (cq_CrossAnalysis req) as [cross|]; [apply wp_handleCross|].
  apply wp_bind, wp_create; [reflexivity| |reflexivity]. intros c. destruct (_ =? "")%string; [reflexivity|].
  apply wp_sendChatMessage; [left|reflexivity].
Qed.

Lemma wp_handleDelete uid id : wp (handleDeleteConversation uid id) released (new_ghost uid).
Proof.
  unfold handleDeleteConversation. destruct (negb _); [reflexivity|]. apply wp_bind, wp_quiet; [| | |reflexivity].
  - intros n d HT. destruct (DeleteConversation uid id d) as [r d'] eqn:Ed. by eapply DeleteConversation_ok.
  - intros n s HT Hg. destruct (DeleteConversation uid id (sv_db s)) as [r d'] eqn:Ed. cbn. apply (evolves_delete new_uuid users spared _ _ _ _ _ HT) in Ed; [done|]. apply (served _ _ Hg).
  - intros n s r d' HT _ Hg _. by exists (new_ghost uid).
Qed.

Lemma wp_handle q : wp (handle q) released (new_ghost (requester q)).
Proof.
  destruct q as [uid body|uid note|uid id|uid id|uid id|uid id body]; cbn [handle requester].
  - apply wp_handleCreate.
  - by apply wp_silent; [silently|].
  - unfold handleGetConversation. destruct (negb _); [reflexivity|]. by apply wp_silent; [silently|].
  - apply wp_handleDelete.
  - unfold handleListMessages. destruct (negb _); [reflexivity|]. by apply wp_silent; [apply silent_list_messages|].
  - apply wp_handleSend.
Qed.

(** ** Systems *)

(** What the rest of the program does to the state: it deletes conversations
    (with their owner or their note) and changes the other tables. *)
Definition elsewhere (f : server -> server) : Prop := forall s,
  sv_inflight (f s) = sv_inflight s /\ sv_asked (f s) = sv_asked s /\
  (tables_ok new_uuid (sv_db s) -> deletion (sv_db s) (sv_db (f s))).

(** It leaves the conversations of [spared] users who send no request. *)
Definition spares (f : server -> server) : Prop := forall s c,
  c ∈ c_conversations (sv_db s) -> ~ users (cv_OwnerID c) -> spared (cv_OwnerID c) -> c ∈ c_conversations (sv_db (f s)).

Lemma chat_received past s gs uid : users uid -> chat_inv past s gs -> chat_inv past s (gs ++ [new_ghost uid])%list.
Proof.
  intros Hu [T Th Gh [A B] P].
  assert (Hcase : forall i g, (gs ++ [new_ghost uid])%list !! i = Some g -> gs !! i = Some g \/ g = new_ghost uid).
  { intros i g [Hi|[_ [_ ->]%list_lookup_singleton_Some]]%lookup_app_Some; auto. }
  constructor; [done|done| | |done].
  - intros i g [Hi| ->]%Hcase; [by eapply Gh|]. constructor; cbn; [set_solver|done|done|set_solver|set_solver|done|done].
  - constructor.
    + intros c. rewrite A. split; intros (i & g & Hi & Hg); exists i, g.
      * split; [by apply lookup_app_l_Some|done].
      * apply Hcase in Hi as [Hi| ->]; [done|discriminate].
    + intros i j g g' c Hi Hj Hg Hg'. apply Hcase in Hi as [Hi| ->]; [|discriminate]. apply Hcase in Hj as [Hj| ->]; [|discriminate].
      by apply (B i j g g' c).
Qed.

Lemma chat_outside past s gs f : elsewhere f -> spares f -> chat_inv past s gs -> chat_inv (past ++ [s]) (f s) gs.
Proof.
  intros Hf Hsp Hinv. pose proof Hinv as [T Th Gh Hl P]. destruct (Hf s) as (Hfl & Hlog & Hdel). specialize (Hdel T).
  pose proof (deletion_quiet _ _ _ T Hdel) as [Hle Hst]. pose proof (deletion_ok _ _ _ T Hdel) as HT'.
  assert (He : evolves (sv_db s) (sv_db (f s))) by (apply evolves_deletion; [done|done|apply Hsp]).
  constructor; [done| | | |by eapply past_step].
  - intros id. rewrite Hlog. apply (thread_still _ (sv_db s)); [done|apply Hst|done|apply Th].
  - intros i g Hi. apply (ghost_still s); [done|by rewrite Hlog|intros c _; apply Hst|by eapply Gh].
  - by rewrite Hfl.
Qed.

Lemma new_system_ok d : tables_ok new_uuid d -> c_messages d = [] -> system_ok chat_inv (@released reply) (new_system (mkServer d ∅ [])).
Proof.
  intros HT Hm. exists []. split; [|constructor]. constructor; [done| | | |].
  - intros id. cbn. replace (messages_of id d) with ([] : list message_row); [constructor|]. unfold messages_of. by rewrite Hm.
  - intros i g Hi. by rewrite lookup_nil in Hi.
  - constructor; [|intros i j g g' c Hi; by rewrite lookup_nil in Hi]. intros c. cbn. split; [set_solver|].
    intros (i & g & Hi & _). by rewrite lookup_nil in Hi.
  - intros s0 H0. by apply elem_of_nil in H0.
Qed.

Lemma chat_system_ok d acts s :
  tables_ok new_uuid d -> c_messages d = [] ->
  Forall (allowed_action (fun f => elsewhere f /\ spares f)) acts -> Forall (welcome_action (fun q => users (requester q))) acts ->
  run (sys_step handle) (new_system (mkServer d ∅ [])) acts = Some s -> system_ok chat_inv released s.
Proof.
  intros HT Hm Ha Hw Hrun.
  refine (system_safe chat_inv handle (fun f => elsewhere f /\ spares f) (fun q => users (requester q)) released
    (fun q => new_ghost (requester q)) _ _ _ acts _ s Ha Hw (new_system_ok d HT Hm) Hrun).
  - intros past st gs q Hq. by apply chat_received.
  - intros q _. apply wp_handle.
  - intros past st gs f [Hf Hsp]. by apply chat_outside.
Qed.

End Users.

(** C37. What becomes of conversations, however requests interleave with each
    other, with answers of the database that are lost, and with deletions
    elsewhere.  Let [users] be those whose requests come, and let the rest of
    the program leave the conversations of the [spared] others.  Then from any
    state of the history to its end: a conversation keeps its owner, its note
    and its model, and its title once it has one; its messages are those it had,
    in their order, and further ones; a message that is still there has all its
    sources, which lose at most their note; a conversation that was not there
    has a new id and is of one of [users]; and every conversation of another
    user is as it was, to the last message and the time of update, and is still
    there if its owner is spared.  So no one's request reaches into, adds to,
    renames or deletes another user's conversation. *)
Theorem conversations_evolve users spared d acts s :
  tables_ok new_uuid d -> c_messages d = [] ->
  Forall (allowed_action (fun f => elsewhere f /\ spares users spared f)) acts ->
  Forall (welcome_action (fun q => users (requester q))) acts ->
  run (sys_step handle) (new_system (mkServer d ∅ [])) acts = Some s ->
  forall s0, s0 ∈ sys_past s -> evolves new_uuid users spared (sv_db s0) (sv_db (sys_now s)).
Proof.
  intros HT Hm Ha Hw Hrun s0 H0. destruct (chat_system_ok users spared d acts s HT Hm Ha Hw Hrun) as (gs & Hinv & _).
  by apply (inv_past _ _ _ _ _ Hinv).
Qed.

(** C12. The turns of a conversation do not interleave: however requests are
    scheduled, the messages of every conversation are questions, each followed at
    once by its answer or by none.  The agent was asked an ordinary question
    after exactly the messages that precede it in the conversation, and the
    answer is the first section of its reply; if there is no answer, the agent
    had replied and storing the answer failed.  A cross-meeting analysis is
    always a question with its answer: the prompt held the documents of a
    snapshot and no messages, the answer is the validated report that the agent
    gave for them, and its sources are exactly the report's, numbered as there,
    but for notes deleted since; no other message has sources.  The guard is
    released on every way out: when all requests are done no conversation is
    locked. *)
Theorem turns_do_not_interleave d acts s :
  tables_ok new_uuid d -> c_messages d = [] -> Forall (allowed_action elsewhere) acts ->
  run (sys_step handle) (new_system (mkServer d ∅ [])) acts = Some s ->
  (forall id, thread (sv_asked (sys_now s)) (fun m => sources_under m (sv_db (sys_now s))) (messages_of id (sv_db (sys_now s)))) /\
  (Forall (fun p => exists r, p = Done r) (sys_procs s) -> sv_inflight (sys_now s) = ∅).
Proof.
  intros HT Hm Ha Hrun.
  destruct (chat_system_ok (fun _ => True) (fun _ => False) d acts s HT Hm) as (gs & Hinv & Hall); [|apply all_welcome|done|].
  { eapply Forall_impl; [exact Ha|]. intros [q|i|f]; [done|done|]. intros Hf. split; [exact Hf|]. intros st c _ []. done. }
  split; [apply (inv_threads _ _ _ _ _ Hinv)|]. intros Hdone. apply set_eq. intros c.
  rewrite (held_inflight _ _ (inv_held _ _ _ _ _ Hinv)). split; [|set_solver]. intros (i & g & Hi & Hg).
  destruct (Forall2_lookup_r _ _ _ _ _ Hall Hi) as (p & Hp & Hwp).
  rewrite Forall_lookup in Hdone. destruct (Hdone i p Hp) as [r ->]. cbn in Hwp. unfold released in Hwp. congruence.
Qed.

End Runs.
