(* ===== verification/ChatBounds.v ===== *)
(** How many calls a request for conversations makes. *)

From stdpp Require Import base list strings sets gmap.
From Stdlib Require Import ZArith Lia SpecFloat.
From S2P Require Import GoInt GoStrings Streaming Sql Transactions Folders Execution Notes Transcripts Templates Plugins Speakers.
From S2P Require Import Resume ChatTables Chat ChatApi.

Local Open Scope string_scope.

Section Bounds.
Context `{Chatting}.

Lemma bounded_done {A} n (a : A) : bounded n (Done a : prog server A).
Proof. by destruct n. Qed.

Lemma bounded_call {B} n (op : nat -> server -> B * server) : bounded (S n) (call op).
Proof. intros b. apply bounded_done. Qed.

Lemma bounded_then {B C} n (op : nat -> server -> B * server) (f : B -> prog server C) :
  (forall b, bounded n (f b)) -> bounded (S n) (prog_bind (call op) f).
Proof. intros Hf. apply (bounded_bind 1 n); [apply bounded_call|exact Hf]. Qed.

Lemma bounded_orelse {A B E} n m (p : prog server (result store_error A)) (e : store_error -> E) (k : A -> prog server (result E B)) :
  bounded n p -> (forall a, bounded m (k a)) -> bounded (n + m) (orelse p e k).
Proof. intros Hp Hk. apply bounded_bind; [done|]. intros [a|x]; [apply Hk|apply bounded_done]. Qed.

Lemma bounded_or {B C E} n (op : nat -> server -> result store_error B * server) (e : store_error -> E) (k : B -> prog server (result E C)) :
  (forall b, bounded n (k b)) -> bounded (S n) (orelse (call op) e k).
Proof. intros Hk. apply (bounded_orelse 1 n); [apply bounded_call|exact Hk]. Qed.

(** Steps through calls and branches; what is left are the parts with a bound of
    their own. *)
Ltac bounds :=
  repeat
    match goal with
    | |- forall _, bounded _ _ => intro
    | |- bounded _ (match ?x with _ => _ end) => destruct x
    | |- bounded _ (Done _) => apply bounded_done
    | |- bounded _ (orelse _ _ _) => apply bounded_or
    | |- bounded _ (prog_bind _ _) => apply bounded_then
    | |- bounded _ _ => apply bounded_call
    end.

Lemma bounded_cite_all fold n ids noteByID scores q : (length ids <= n)%nat -> bounded n (cite_all fold fates ids noteByID scores q).
Proof.
  revert n. induction ids as [|id ids IH]; intros n Hn; cbn [cite_all]; [apply bounded_done|]. cbn in Hn. destruct n as [|n]; [lia|].
  assert (Hgo : forall ref : TranscriptRef, bounded n (prog_bind (cite_all fold fates ids noteByID scores q) (fun rest =>
    Done (match rest with Ok rest => Ok (ref :: rest) | Err e => Err e end)))).
  { intros ref. rewrite <- (Nat.add_0_r n). apply bounded_bind; [apply IH; lia|bounds]. }
  apply bounded_then. intros [tr|[]]; try apply bounded_done; apply Hgo.
Qed.

Lemma rankTopK_length lower scores titles q hybrid cap : (length (rankTopK lower scores titles q hybrid cap) <= cap)%nat.
Proof. unfold rankTopK. rewrite length_map, length_take. lia. Qed.

Lemma bounded_TopK lower fold db_lower name_lt cosine emb r ownerID q k :
  bounded (3 + Z.to_nat k) (TopK lower fold fates db_lower name_lt cosine emb r ownerID q k).
Proof.
  unfold TopK. cbv zeta. destruct (_ || _); [bounds|]. apply (bounded_then (2 + Z.to_nat k)). intros [notes|e]; [|bounds].
  apply bounded_bind; [unfold semantic; bounds|]. intros [scores hybrid]. apply bounded_cite_all, rankTopK_length.
Qed.

Lemma bounded_note_transcript text_lt ownerID noteID : bounded 3 (note_transcript fates text_lt ownerID noteID).
Proof. unfold note_transcript. bounds. Qed.

Lemma bounded_chatSources ownerID conv q : bounded 8 (chatSources ownerID conv q).
Proof.
  unfold chatSources. destruct (cv_NoteID conv) as [noteID|]; [|apply (bounded_mono (3 + Z.to_nat chatTopK)); [apply le_n|apply bounded_TopK]].
  assert (Hgo : forall title, bounded 7 (prog_bind (note_transcript fates db_text_lt ownerID noteID) (fun nt =>
    Done (match nt with Ok nt => Ok (segmentsToSources noteID title (nt_Segments nt)) | Err ErrNotFound => Ok [] | Err e => Err e end)))).
  { intros title. apply (bounded_bind 3 4); [apply bounded_note_transcript|bounds]. }
  apply bounded_then. intros [note|[]]; try apply bounded_done; apply Hgo.
Qed.

Lemma bounded_title conv u a plug cfg : bounded 2 (generateConversationTitle conv u a plug cfg).
Proof. unfold generateConversationTitle. cbv zeta. apply bounded_then. intros [resp|e]; [|bounds]. destruct (resp_Sections resp); bounds. Qed.

Lemma bounded_list_messages ownerID conv : bounded 3 (list_messages ownerID conv).
Proof. unfold list_messages. bounds. Qed.

Lemma bounded_send ownerID conv content override : bounded 17 (send_guarded ownerID conv content override).
Proof.
  unfold send_guarded. apply (bounded_orelse 8 9); [apply bounded_chatSources|]. intros sources.
  apply (bounded_orelse 3 6); [apply bounded_list_messages|]. intros history. cbv zeta. apply (bounded_or 5). intros plug.
  destruct (resolveModelConfig _ _) as [cfg|]; [|bounds].
  apply (bounded_then 4). intros [resp|e]; [|bounds]. destruct (resp_Sections resp) as [|sec rest]; [bounds|].
  apply (bounded_or 3). intros _. apply (bounded_or 2). intros a. apply (bounded_bind 2 0); [|bounds].
  destruct (_ && _); [apply bounded_title|bounds].
Qed.

Lemma bounded_guarded {A} n key (busy : A) (body : prog server A) : bounded n body -> bounded (2 + n) (with_guard key busy body).
Proof.
  intros Hb. apply (bounded_then (S n)). intros ok. destruct (negb ok); [bounds|].
  replace (S n) with (n + 1)%nat by lia. by apply bounded_bind; [|intros a; bounds].
Qed.

Lemma bounded_load_documents ownerID noteIDs notes transcripts segments :
  bounded (length noteIDs) (load_documents ownerID noteIDs notes transcripts segments).
Proof.
  induction noteIDs as [|id rest IH]; cbn [load_documents length]; [bounds|].
  destruct (notes !! id) as [n|]; [|bounds]. destruct (transcripts !! id) as [tr|]; [|bounds].
  apply bounded_or. intros aliases. cbv zeta. rewrite <- (Nat.add_0_r (length rest)). apply bounded_bind; [exact IH|bounds].
Qed.

(** The most notes of an analysis. *)
Lemma check_note_ids_length noteIDs maxNotes : check_note_ids noteIDs maxNotes = None -> (length noteIDs <= 40)%nat.
Proof.
  unfold check_note_ids. destruct (_ <? _)%nat; [done|]. set (m := if (_ || _) then _ else _).
  assert (Hm : (m <= 40)%Z).
  { unfold m, CrossAnalysisMaxNotes. destruct (Z.leb_spec maxNotes 0), (Z.ltb_spec 40 maxNotes); cbn; lia. }
  destruct (Z.ltb_spec m (len noteIDs)); [done|]. intros _. unfold len in *. lia.
Qed.

Lemma bounded_preflight ownerID scoped req focus : bounded 45 (preflightCrossDocuments ownerID scoped req focus).
Proof.
  unfold preflightCrossDocuments. destruct scoped; [bounds|]. destruct (negb _); [bounds|].
  apply (bounded_or 44). intros tmpl. destruct (negb _); [bounds|]. apply (bounded_bind 43 1); [|bounds].
  unfold LoadCrossAnalysisSnapshot. destruct (check_note_ids _ _) eqn:Ec; [bounds|]. apply check_note_ids_length in Ec.
  apply (bounded_or 42). intros notes. destruct (negb _); [bounds|]. apply (bounded_or 41). intros transcripts. destruct (negb _); [bounds|].
  apply (bounded_or 40). intros segments. apply (bounded_bind 40 0); [|bounds]. eapply bounded_mono; [exact Ec|apply bounded_load_documents].
Qed.

Lemma bounded_invoke ownerID conv pre focus : bounded 9 (invokeCrossAnalysis ownerID conv pre focus).
Proof.
  unfold invokeCrossAnalysis. apply (bounded_or 8). intros _. apply (bounded_or 7). intros plug. destruct (ParseAdmissionConfig _ _); [|bounds].
  destruct (_ || _); [bounds|]. apply (bounded_then 6). intros answer. destruct (Run _ _) as [result|e]; [|bounds]. cbv zeta.
  apply (bounded_orelse 3 3); [apply bounded_list_messages|]. intros history. apply (bounded_or 2). intros [u0 a0]. apply (bounded_bind 2 0); [|intros _; apply bounded_done].
  destruct (_ && _); [|bounds]. destruct (resolveModelConfig _ _); [apply bounded_title|bounds].
Qed.

Lemma bounded_sendChatMessage ownerID conv content override : bounded 19 (sendChatMessage ownerID conv content override).
Proof. apply (bounded_guarded 17), bounded_send. Qed.

Lemma bounded_cross_send uid conv pre focus (reply_of : result cross_error Message -> reply) :
  bounded 11 (with_guard (cv_ID conv) in_progress (prog_bind (invokeCrossAnalysis uid conv pre focus) (fun msg => Done (reply_of msg)))).
Proof. apply (bounded_guarded 9), (bounded_bind 9 0); [apply bounded_invoke|bounds]. Qed.

Lemma bounded_handleSend uid id body : bounded 57 (handleSendMessage uid id body).
Proof.
  unfold handleSendMessage. destruct (negb _); [bounds|]. destruct body as [req|]; [|bounds]. destruct (_ && _); [bounds|].
  apply (bounded_then 56). intros [conv|e]; [|bounds]. destruct (sm_CrossAnalysis req) as [cross|].
  - apply (bounded_guarded 54), (bounded_bind 45 9); [apply bounded_preflight|]. intros [pre|e]; [|bounds].
    apply (bounded_bind 9 0); [apply bounded_invoke|bounds].
  - apply (bounded_bind 19 37); [apply bounded_sendChatMessage|bounds].
Qed.

Lemma bounded_handleCreate uid body : bounded 57 (handleCreateConversation uid body).
Proof.
  unfold handleCreateConversation. destruct body as [req|]; [|bounds]. destruct (cq_CrossAnalysis req) as [cross|].
  - unfold handleCreateAndSendCrossAnalysis. destruct (cq_NoteID req); [bounds|]. cbv zeta. apply (bounded_bind 45 12); [apply bounded_preflight|].
    assert (Hcreate : forall k, (forall conv, bounded 11 (k conv)) ->
      bounded 12 (prog_bind (create_conversation uid None (cq_Title req) (cq_ModelOverride req)) (fun c =>
        match c with Err ErrNotFound => Done not_found | Err _ => Done internal_error | Ok conv => k conv end))).
    { intros k Hk. apply (bounded_then 11). intros [conv|[]]; [apply Hk|bounds..]. }
    intros [pre|[]]; try apply bounded_done; apply Hcreate; intros conv; [apply bounded_cross_send|].
    apply (bounded_then 10). bounds.
  - apply (bounded_then 56). intros [c|e]; [|bounds]. destruct (_ =? "")%string; [bounds|].
    apply (bounded_bind 19 37); [apply bounded_sendChatMessage|bounds].
Qed.

Definition request_calls : nat := 57.

Lemma bounded_handle q : bounded request_calls (handle q).
Proof.
  unfold request_calls. destruct q as [uid body|uid note|uid id|uid id|uid id|uid id body]; cbn [handle].
  - apply bounded_handleCreate.
  - apply (bounded_then 56). bounds.
  - unfold handleGetConversation. destruct (negb _); [bounds|]. apply (bounded_then 56). bounds.
  - unfold handleDeleteConversation. destruct (negb _); [bounds|]. apply (bounded_then 56). bounds.
  - unfold handleListMessages. destruct (negb _); [bounds|]. apply (bounded_bind 3 54); [apply bounded_list_messages|bounds].
  - apply bounded_handleSend.
Qed.

(** C38. Every request for conversations ends: whatever the database, the
    embedder and the agent answer, however many notes the body names, and however
    other requests and changes elsewhere come in between, it makes at most 57
    calls, after which it has its reply; and until then it can always make its
    next call, for none of them waits for another request: the guard is a
    [LoadOrStore] that answers at once. *)
Theorem requests_terminate s q acts s' :
  let i := length (sys_procs s) in
  run (sys_step handle) s (Receive q :: acts) = Some s' ->
  (advances i acts <= request_calls)%nat /\
  (advances i acts = request_calls -> exists r, sys_procs s' !! i = Some (Done r)) /\
  ((exists r, sys_procs s' !! i = Some (Done r)) \/ is_Some (sys_step handle s' (Advance i))).
Proof.
  intros i Hrun. cbn [run sys_step] in Hrun.
  destruct (advances_bounded handle i acts (mkSystem (sys_past s) (sys_now s) (sys_procs s ++ [handle q])) s' request_calls (handle q))
    as (p & n & Hp & Hb & Hn); [by apply list_lookup_middle|apply bounded_handle|done|].
  split; [lia|]. split.
  - intros He. assert (n = 0%nat) as -> by lia. destruct p as [r|B op k]; [by exists r|done].
  - destruct p as [r|B op k]; [left; by exists r|]. right. cbn. rewrite Hp. destruct (op _ _). by eexists.
Qed.

End Bounds.
