(* ===== verification/ChatFence.v ===== *)
(** The fence of a cross-meeting analysis: what the agent is shown is what the
    user's notes still were when the generations were checked.

    The ghost state of a request is a fact about the states that have been; a
    fact stays true as more states come. *)

From stdpp Require Import base list strings sets gmap.
From Stdlib Require Import ZArith Lia SpecFloat.
From S2P Require Import GoInt GoStrings Streaming Sql Transactions Folders Execution Notes Transcripts Templates Plugins Speakers.
From S2P Require Import Resume ChatTables Chat ChatApi.

Local Open Scope string_scope.

Section Fence.
Context `{Chatting}.

(** ** Facts *)

Local Abbreviation notes_of s := (d_notes (c_tdb (sv_db s))).
Local Abbreviation transcripts_of s := (d_transcripts (c_tdb (sv_db s))).
Local Abbreviation stored_segments s x := (map sg_data (order_by starts_before (segments_of (ts_id x) (c_tdb (sv_db s))))).

(** The note [id] may be analysed for [uid]. *)
Definition analysable (uid id : string) (s : server) : Prop := exists n,
  n ∈ notes_of s /\ row_id n = id /\ owned uid n = true /\ row_live n = true /\ row_status n = NoteReady /\ row_partial n = false.

Definition at_generation (id : string) (g : Z) (x : transcript_row) (s : server) : Prop :=
  x ∈ transcripts_of s /\ ts_note x = id /\ ts_generation x = g.

(** What the agent is shown of a note: the note was the user's and analysable at
    [st]; at [su] its transcript had this generation, and the segments are that
    transcript's at [sw], renamed by aliases; at [sv] the generation was the same. *)
Definition shown (uid : string) (st su sw sv : server) (doc : Document) : Prop :=
  analysable uid (NoteID doc) st /\
  (exists y aliases, at_generation (NoteID doc) (TranscriptGeneration doc) y su /\
    Segments doc = (ApplyAliases (stored_segments sw y) aliases).1) /\
  exists x, at_generation (NoteID doc) (TranscriptGeneration doc) x sv.

Definition fence (past : list server) (req : GenerateRequest) : Prop :=
  req_Documents req = [] \/
  exists uid t u w v st su sw sv, (t < u < w /\ w < v)%nat /\
    past !! t = Some st /\ past !! u = Some su /\ past !! w = Some sw /\ past !! v = Some sv /\
    Forall (shown uid st su sw sv) (req_Documents req).

Definition fact := list server -> Prop.
Definition lasting (g : fact) : Prop := forall past more, g past -> g (past ++ more)%list.

Lemma fence_lasts req : lasting (fun past => fence past req).
Proof.
  intros past more [Hn|(uid & t & u & w & v & st & su & sw & sv & Hlt & Ht & Hu & Hw & Hv & Hall)]; [by left|]. right.
  exists uid, t, u, w, v, st, su, sw, sv. split; [done|]. do 4 (split; [by apply lookup_app_l_Some|]). done.
Qed.

Record fence_inv (past : list server) (s : server) (gs : list fact) : Prop := mkFenceInv {
  all_fenced : forall e, e ∈ sv_asked s -> fence past (as_request e);
  all_facts : Forall (fun g => lasting g /\ g past) gs }.

Local Abbreviation wp := (wp fence_inv).

Lemma facts_next past s (gs : list fact) i (g' : fact) :
  Forall (fun g => lasting g /\ g past) gs -> lasting g' -> g' (past ++ [s])%list ->
  Forall (fun g => lasting g /\ g (past ++ [s])%list) (<[i := g']> gs).
Proof.
  intros Hgs Hl Hg'. apply Forall_insert; [|done]. eapply Forall_impl; [exact Hgs|]. intros g [Hlg Hg]. split; [done|]. by apply Hlg.
Qed.

(** A call other than the agent's. *)
Lemma wp_fact {B} (op : nat -> server -> B * server) (post : fact -> B -> Prop) (g : fact) :
  (forall n s, sv_asked (op n s).2 = sv_asked s) ->
  (forall past s, g past -> exists g', lasting g' /\ g' (past ++ [s])%list /\ post g' (op (length past) s).1) ->
  wp (call op) post g.
Proof.
  intros Hop Hfact past s gs i [Hlog Hfacts] Hi. rewrite Forall_lookup in Hfacts. pose proof (Hfacts i g Hi) as [Hl Hg].
  destruct (Hfact past s Hg) as (g' & Hl' & Hg' & Hpost). specialize (Hop (length past) s).
  destruct (op (length past) s) as [b s']. cbn in *. exists g'. split; [|done]. constructor.
  - intros e He. rewrite Hop in He. by apply fence_lasts, Hlog.
  - apply facts_next; [by apply Forall_lookup|done|done].
Qed.

(** Calls that teach nothing, with what is known of the result. *)
Definition calm {A} (p : prog server A) (Q : A -> Prop) : Prop := forall g post, lasting g -> (forall a, Q a -> post g a) -> wp p post g.

Lemma calm_done {A} (a : A) (Q : A -> Prop) : Q a -> calm (Done a) Q.
Proof. intros Ha g post Hl Hpost. by apply Hpost. Qed.

Lemma calm_bind {A B} (p : prog server A) (f : A -> prog server B) (P : A -> Prop) (Q : B -> Prop) :
  calm p P -> (forall a, P a -> calm (f a) Q) -> calm (prog_bind p f) Q.
Proof. intros Hp Hf g post Hl Hpost. apply wp_bind, Hp; [done|]. intros a Ha. by apply Hf. Qed.

Lemma calm_call {B} (op : nat -> server -> B * server) : (forall n s, sv_asked (op n s).2 = sv_asked s) -> calm (call op) (fun _ => True).
Proof. intros Hop g post Hl Hpost. apply wp_fact; [done|]. intros past s Hg. exists g. split; [done|]. split; [by apply Hl|by apply Hpost]. Qed.

Lemma store_op_asked {A} (f : nat -> cdb -> result store_error A * cdb) n s :
  sv_asked (match fates n with
    | Refused => (Err DbError, s)
    | Answered => let '(r, d) := f n (sv_db s) in (r, with_db d s)
    | AnswerLost => let '(r, d) := f n (sv_db s) in (Err DbError, with_db d s)
    end).2 = sv_asked s.
Proof. destruct (fates n); [destruct (f n (sv_db s))|..|destruct (f n (sv_db s))]; done. Qed.

Lemma calm_store {A} (f : nat -> cdb -> result store_error A * cdb) : calm (store_op fates f) (fun _ => True).
Proof. apply calm_call. intros n s. apply store_op_asked. Qed.

Lemma calm_plugin : calm default_plugin (fun _ => True).
Proof. by apply calm_call. Qed.

Lemma wp_calm {A B} (p : prog server A) (f : A -> prog server B) Q post g :
  calm p Q -> lasting g -> (forall a, Q a -> wp (f a) post g) -> wp (prog_bind p f) post g.
Proof. intros Hp Hl Hf. by apply wp_bind, Hp. Qed.

(** A query that teaches something about the state it reads. *)
Lemma wp_learn {A} (f : cdb -> result store_error A) (post : fact -> result store_error A -> Prop) (g : fact) :
  lasting g ->
  (forall past s, g past -> exists g', lasting g' /\ g' (past ++ [s])%list /\ post g' (f (sv_db s))) ->
  post g (Err DbError) -> wp (query fates f) post g.
Proof.
  intros Hl Hfact Hlost. apply wp_fact; [intros n s; exact (store_op_asked (fun _ d => (f d, d)) n s)|]. intros past s Hg.
  destruct (fates (length past)).
  - by apply Hfact.
  - exists g. split; [done|]. split; [by apply Hl|done].
  - exists g. split; [done|]. split; [by apply Hl|done].
Qed.

(** The agent may only be asked what the facts allow. *)
Lemma wp_ask plug req (post : fact -> result string GenerateResponse -> Prop) (g : fact) :
  lasting g -> (forall past, g past -> fence past req) -> (forall answer, post g answer) -> wp (generate plug req) post g.
Proof.
  intros Hl Hfence Hpost past s gs i [Hlog Hfacts] Hi. cbn. exists g. split; [|apply Hpost].
  pose proof (Hfacts) as Hall. rewrite Forall_lookup in Hall. pose proof (Hall i g Hi) as [_ Hg]. constructor.
  - cbn. intros e [He|He%list_elem_of_singleton]%elem_of_app; apply fence_lasts; [by apply Hlog|]. subst e. by apply Hfence.
  - apply facts_next; [done|done|by apply Hl].
Qed.

(** A fact may be weakened before the rest of a handler. *)
Definition any {A} (g : fact) (_ : A) : Prop := lasting g.

Definition weaker (g g' : fact) : Prop := lasting g /\ lasting g' /\ forall past, g past -> g' past.

Definition closed {A} (post : fact -> A -> Prop) : Prop := forall a g g', weaker g g' -> post g' a -> post g a.

Lemma closed_any {A} : closed (@any A).
Proof. by intros a g g' (Hl & _ & _). Qed.

Lemma wp_weaken {A} (p : prog server A) post (g g' : fact) : closed post -> weaker g g' -> wp p post g' -> wp p post g.
Proof.
  intros Hc Hgg. pose proof Hgg as (_ & Hl & Hw). destruct p as [a|B op k]; [by apply Hc|]. intros Hp past s gs i [Hlog Hfacts] Hi.
  assert (Hinv : fence_inv past s (<[i := g']> gs)).
  { constructor; [done|]. pose proof Hfacts as Hall. rewrite Forall_lookup in Hall. apply Forall_insert; [done|]. split; [done|]. by apply Hw, (Hall i). }
  specialize (Hp past s _ i Hinv (list_lookup_insert_eq _ _ _ (lookup_lt_Some _ _ _ Hi))).
  destruct (op (length past) s) as [b s']. destruct Hp as (g'' & Hinv' & Hk). exists g''. split; [|done].
  by rewrite list_insert_insert_eq in Hinv'.
Qed.

(** ** The snapshot *)

Lemma fold_insert_elem {K} (key : K -> string) (l : list K) (m : gmap string K) k v :
  fold_left (fun m x => <[key x := x]> m) l m !! k = Some v -> m !! k = Some v \/ (v ∈ l /\ key v = k).
Proof.
  revert m. induction l as [|x l IH]; intros m; cbn; [by left|]. intros [H1|[H1 H2]]%IH.
  - destruct (decide (key x = k)) as [<-|Hne]; [rewrite lookup_insert_eq in H1; injection H1 as ->; right; split; [left|done]|].
    rewrite lookup_insert_ne in H1 by done. by left.
  - right. split; [by right|done].
Qed.

Lemma query_notes_elem uid ids d id n : query_notes uid ids d !! id = Some n ->
  n ∈ d_notes (c_tdb d) /\ row_id n = id /\ owned uid n = true /\ row_live n = true.
Proof.
  intros [Hn|[Hn Hid]]%fold_insert_elem; [done|]. apply elem_of_select_where in Hn as [Hn Hp].
  apply andb_prop in Hp as [[Ho _]%andb_prop Hl]. done.
Qed.

Lemma query_transcripts_elem ids d id x : query_transcripts ids d !! id = Some x -> x ∈ d_transcripts (c_tdb d) /\ ts_note x = id.
Proof. intros [Hx|[Hx Hid]]%fold_insert_elem; [done|]. by apply elem_of_select_where in Hx as [Hx _]. Qed.

(** What [load_documents] makes of the rows. *)
Definition document_of (notes : gmap string note_row) (transcripts : gmap string transcript_row) (segments : string -> list Segment)
    (id : string) (doc : CrossAnalysisDocument) : Prop :=
  exists n tr aliases, notes !! id = Some n /\ transcripts !! id = Some tr /\ doc = snapshot_document id n tr (segments (ts_id tr)) aliases.

Lemma calm_load_documents uid ids notes transcripts segments :
  calm (load_documents uid ids notes transcripts segments)
    (fun r => forall docs, r = Ok docs -> Forall2 (document_of notes transcripts segments) ids docs).
Proof.
  induction ids as [|id ids IH]; cbn [load_documents]; [by apply calm_done; intros docs [= <-]|].
  destruct (notes !! id) as [n|] eqn:En; [|by apply calm_done]. destruct (transcripts !! id) as [tr|] eqn:Et; [|by apply calm_done].
  eapply calm_bind; [apply calm_store|]. intros [aliases|e] _; [|by apply calm_done]. cbv zeta.
  eapply calm_bind; [exact IH|]. intros [docs|e] Hdocs; apply calm_done; [|done].
  intros docs' [= <-]. constructor; [by exists n, tr, aliases|by apply Hdocs].
Qed.

(** The fact that a snapshot leaves. *)
Definition loaded (uid : string) (docs : list CrossAnalysisDocument) : fact := fun past =>
  exists t u w st su sw, (t < u < w)%nat /\ past !! t = Some st /\ past !! u = Some su /\ past !! w = Some sw /\
    Forall (fun doc => analysable uid (ca_NoteID doc) st /\
      exists y aliases, at_generation (ca_NoteID doc) (ca_Generation doc) y su /\
        ca_Segments doc = (ApplyAliases (stored_segments sw y) aliases).1) docs.

Lemma loaded_lasts uid docs : lasting (loaded uid docs).
Proof.
  intros past more (t & u & w & st & su & sw & Hlt & Ht & Hu & Hw & Hall). exists t, u, w, st, su, sw.
  split; [done|]. do 3 (split; [by apply lookup_app_l_Some|]). done.
Qed.

(** The rows read one after the other. *)
Definition read_notes (uid : string) (ids : list string) (notes : gmap string note_row) : fact := fun past =>
  exists t st, past !! t = Some st /\ notes = query_notes uid ids (sv_db st).
Definition read_transcripts uid ids notes (transcripts : gmap string transcript_row) : fact := fun past =>
  exists t u st su, (t < u)%nat /\ past !! t = Some st /\ past !! u = Some su /\
    notes = query_notes uid ids (sv_db st) /\ transcripts = query_transcripts ids (sv_db su).
Definition read_segments uid ids notes transcripts tids (segments : string -> list Segment) : fact := fun past =>
  exists t u w st su sw, (t < u < w)%nat /\ past !! t = Some st /\ past !! u = Some su /\ past !! w = Some sw /\
    notes = query_notes uid ids (sv_db st) /\ transcripts = query_transcripts ids (sv_db su) /\ segments = query_segments tids (sv_db sw).

Lemma read_notes_lasts uid ids notes : lasting (read_notes uid ids notes).
Proof. intros past more (t & st & Ht & Hn). exists t, st. split; [by apply lookup_app_l_Some|done]. Qed.
Lemma read_transcripts_lasts uid ids notes transcripts : lasting (read_transcripts uid ids notes transcripts).
Proof. intros past more (t & u & st & su & Hlt & Ht & Hu & Hr). exists t, u, st, su. split; [done|]. by do 2 (split; [by apply lookup_app_l_Some|]). Qed.
Lemma read_segments_lasts uid ids notes transcripts tids segments : lasting (read_segments uid ids notes transcripts tids segments).
Proof.
  intros past more (t & u & w & st & su & sw & Hlt & Ht & Hu & Hw & Hr). exists t, u, w, st, su, sw.
  split; [done|]. by do 3 (split; [by apply lookup_app_l_Some|]).
Qed.

Lemma lookup_next (past : list server) s : (past ++ [s])%list !! length past = Some s.
Proof. by apply list_lookup_middle. Qed.

Lemma before_next (past : list server) t st s : past !! t = Some st -> (t < length past)%nat /\ (past ++ [s])%list !! t = Some st.
Proof. intros Ht. split; [by eapply lookup_lt_Some|by apply lookup_app_l_Some]. Qed.

Lemma segments_loaded uid ids notes transcripts segments docs past :
  forallb (analysis_eligible notes transcripts) ids = true ->
  read_segments uid ids notes transcripts (omap (fun id => ts_id <$> transcripts !! id) ids) segments past ->
  Forall2 (document_of notes transcripts segments) ids docs -> loaded uid docs past.
Proof.
  intros Hel (t & u & w & st & su & sw & Hlt & Ht & Hu & Hw & -> & -> & ->) Hdocs.
  exists t, u, w, st, su, sw. do 4 (split; [done|]). apply Forall_forall. intros doc Hdoc.
  apply list_elem_of_lookup in Hdoc as [j Hj]. destruct (Forall2_lookup_r _ _ _ _ _ Hdocs Hj) as (id & Hid%list_elem_of_lookup_2 & n & tr & aliases & Hn & Htr & ->). cbn.
  rewrite forallb_forall in Hel. specialize (Hel id). rewrite <- list_elem_of_In in Hel. specialize (Hel Hid). unfold analysis_eligible in Hel. rewrite Hn in Hel.
  apply andb_prop in Hel as [[Hst%String.eqb_eq Hpart%negb_true_iff]%andb_prop _].
  apply query_notes_elem in Hn as (H1 & H2 & H3 & H4). pose proof Htr as Htr'. apply query_transcripts_elem in Htr' as [H5 H6].
  split; [by exists n|]. exists tr, aliases. split; [done|]. unfold query_segments. rewrite bool_decide_eq_true_2; [done|].
  apply list_elem_of_omap. exists id. split; [done|]. by rewrite Htr.
Qed.

Lemma wp_snapshot {B} uid ids maxNotes (k : result snapshot_error CrossAnalysisSnapshot -> prog server B) post g :
  closed post -> lasting g ->
  (forall e g', lasting g' -> wp (k (Err e)) post g') ->
  (forall docs, map ca_NoteID docs = ids -> NoDup ids ->
    wp (k (Ok {| ca_Documents := docs; ca_Generations := fold_left (fun m doc => <[ca_NoteID doc := ca_Generation doc]> m) docs ∅ |})) post (loaded uid docs)) ->
  wp (prog_bind (LoadCrossAnalysisSnapshot uid ids maxNotes) k) post g.
Proof.
  intros Hc Hl Herr Hok. apply wp_bind. unfold LoadCrossAnalysisSnapshot. destruct (check_note_ids ids maxNotes) eqn:Ec; [by apply Herr|].
  assert (Hnd : NoDup ids).
  { unfold check_note_ids in Ec. destruct (_ <? _)%nat; [done|]. destruct (_ <? _)%Z; [done|].
    destruct (negb _) eqn:En; [done|]. by apply negb_false_iff, bool_decide_eq_true in En. }
  apply wp_bind, wp_learn; [done| |by apply Herr]. intros past s Hg. set (notes := query_notes uid ids (sv_db s)).
  exists (read_notes uid ids notes). split; [apply read_notes_lasts|]. split; [exists (length past), s; split; [apply lookup_next|done]|].
  destruct (negb _); [apply Herr, read_notes_lasts|]. clearbody notes. clear past s Hg Hl.
  apply wp_bind, wp_learn; [apply read_notes_lasts| |apply Herr, read_notes_lasts]. intros past s (t & st & Ht & Hn).
  set (transcripts := query_transcripts ids (sv_db s)).
  exists (read_transcripts uid ids notes transcripts). split; [apply read_transcripts_lasts|].
  apply (before_next _ _ _ s) in Ht as [Hlt Ht]. split; [exists t, (length past), st, s; split; [done|]; split; [done|]; split; [apply lookup_next|done]|].
  destruct (negb _) eqn:Eel; [apply Herr, read_transcripts_lasts|]. apply negb_false_iff in Eel. clearbody transcripts. clear past s t st Ht Hn Hlt.
  cbv zeta. set (tids := omap _ ids).
  apply wp_bind, wp_learn; [apply read_transcripts_lasts| |apply Herr, read_transcripts_lasts]. intros past s (t & u & st & su & Hlt & Ht & Hu & Hn & Htr).
  set (segments := query_segments tids (sv_db s)).
  exists (read_segments uid ids notes transcripts tids segments). split; [apply read_segments_lasts|].
  apply (before_next _ _ _ s) in Ht as [Hlt1 Ht]. apply (before_next _ _ _ s) in Hu as [Hlt2 Hu].
  split; [exists t, u, (length past), st, su, s; split; [done|]; split; [done|]; split; [done|]; split; [apply lookup_next|done]|].
  clearbody segments. clear past s t u st su Ht Hu Hn Htr Hlt Hlt1 Hlt2.
  eapply wp_calm; [apply calm_load_documents|apply read_segments_lasts|]. intros [docs|e] Hdocs; [|apply Herr, read_segments_lasts].
  cbn. apply (wp_weaken _ _ _ (loaded uid docs)); [exact Hc| |].
  - split; [apply read_segments_lasts|]. split; [apply loaded_lasts|]. intros past Hr. by eapply segments_loaded; [exact Eel|exact Hr|apply Hdocs].
  - apply Hok; [|done]. specialize (Hdocs docs eq_refl). clear -Hdocs. induction Hdocs as [|id doc ids docs (n & tr & al & _ & _ & ->) _ IH]; cbn; [done|].
    by rewrite IH.
Qed.

(** ** Runs *)

Lemma wp_after {A B} (p : prog server A) (k : A -> prog server B) g :
  wp p any g -> (forall a g', lasting g' -> wp (k a) any g') -> wp (prog_bind p k) any g.
Proof. intros Hp Hk. apply wp_bind. eapply wp_mono; [exact Hp|]. intros g' a Hl. by apply Hk. Qed.

Lemma wp_done {A} (a : A) g : lasting g -> wp (Done a) any g.
Proof. done. Qed.

Lemma closed_wp {A B} (k : A -> prog server B) post : closed post -> closed (fun g a => wp (k a) post g).
Proof. intros Hc a g g' Hgg. by apply wp_weaken. Qed.

Lemma calm_any {A} (p : prog server A) Q g : calm p Q -> lasting g -> wp p any g.
Proof. intros Hp Hl. by apply Hp. Qed.

Definition ready (uid : string) (pre : crossAnalysisPreflight) : fact := fun past => exists docs,
  loaded uid docs past /\ NoDup (map ca_NoteID docs) /\
  Documents (Input (Prepared pre)) = map execution_document docs /\
  Generations (Prepared pre) = generations_of (map execution_document docs).

Lemma ready_lasts uid pre : lasting (ready uid pre).
Proof. intros past more (docs & Hl & Hr). exists docs. split; [by apply loaded_lasts|done]. Qed.

Lemma prepare_exact tmpl snap plug focus prepared : prepareCrossAnalysisExecution tmpl snap plug focus = Ok prepared ->
  Documents (Input prepared) = map execution_document (ca_Documents snap) /\
  Generations prepared = generations_of (map execution_document (ca_Documents snap)).
Proof.
  unfold prepareCrossAnalysisExecution, PrepareDocuments. cbn [Documents Sections input_Mode].
  destruct (map execution_document (ca_Documents snap)) as [|first rest]; [done|]. destruct (_ =? 0)%nat; [done|].
  destruct (bool_decide _ && _); [done|]. destruct (add_documents _ _) as [sources seen]. by intros [= <-].
Qed.

Lemma wp_preflight {B} uid scoped req focus (k : result cross_error crossAnalysisPreflight -> prog server B) g :
  lasting g -> (forall e g', lasting g' -> wp (k (Err e)) any g') -> (forall pre, wp (k (Ok pre)) any (ready uid pre)) ->
  wp (prog_bind (preflightCrossDocuments uid scoped req focus) k) any g.
Proof.
  intros Hl Herr Hok. apply wp_bind. unfold preflightCrossDocuments.
  assert (Hfail : forall e g', lasting g' -> wp (Done (Err e)) (fun g'' r => wp (k r) any g'') g') by (intros e g' Hg'; by apply Herr).
  destruct scoped; [by apply Hfail|]. destruct (negb _); [by apply Hfail|].
  eapply wp_calm; [apply calm_store|done|]. intros [tmpl|e] _; [|by apply Hfail]. destruct (negb _); [by apply Hfail|].
  apply wp_snapshot; [apply closed_wp, closed_any|done|intros e g' Hg'; by apply Hfail|]. intros docs Hids Hnd. subst.
  set (snap := {| ca_Documents := docs; ca_Generations := _ |}).
  eapply wp_calm; [apply calm_plugin|apply loaded_lasts|]. intros [plug|e] _; [|apply Hfail, loaded_lasts].
  destruct (prepareCrossAnalysisExecution tmpl snap plug focus) as [prepared|e] eqn:Ep; [|apply Hfail, loaded_lasts].
  destruct (ParseAdmissionConfig _ _) as [cfg|e]; [|apply Hfail, loaded_lasts].
  destruct (Admit prepared cfg); [|apply Hfail, loaded_lasts]. apply prepare_exact in Ep as [H1 H2].
  set (pre := {| Prepared := prepared; pre_Plugin := plug; Digest := _; TemplateName := _ |}).
  change (wp (k (Ok pre)) any (loaded uid docs)). apply (wp_weaken _ _ _ (ready uid pre)); [apply closed_any| |apply Hok].
  split; [apply loaded_lasts|]. split; [apply ready_lasts|]. intros past Hp. exists docs. by rewrite Hids.
Qed.

Lemma fold_insert_lookup {K V} (key : K -> string) (val : K -> V) (l : list K) (m : gmap string V) x :
  NoDup (map key l) -> x ∈ l -> fold_left (fun m x => <[key x := val x]> m) l m !! key x = Some (val x).
Proof.
  assert (Hout : forall (l : list K) (m : gmap string V) k, k ∉ map key l -> fold_left (fun m x => <[key x := val x]> m) l m !! k = m !! k).
  { clear. induction l as [|y l IH]; intros m k Hk; cbn; [done|]. cbn in Hk. rewrite not_elem_of_cons in Hk. destruct Hk as [Hne Hk].
    rewrite IH by done. by rewrite lookup_insert_ne. }
  revert m. induction l as [|y l IH]; intros m Hnd Hx; [by apply elem_of_nil in Hx|].
  cbn in *. apply NoDup_cons in Hnd as [Hy Hnd]. apply elem_of_cons in Hx as [<-|Hx]; [|by apply IH].
  rewrite Hout by done. by rewrite lookup_insert_eq.
Qed.

Lemma generations_match_elem generations d id g : generations_match generations d = true -> generations !! id = Some g ->
  exists x, x ∈ d_transcripts (c_tdb d) /\ ts_note x = id /\ ts_generation x = g.
Proof.
  unfold generations_match. set (current := query_transcripts _ d). rewrite forallb_forall. intros Hall Hg.
  specialize (Hall (id, g)). rewrite <- list_elem_of_In, elem_of_map_to_list in Hall. specialize (Hall Hg). cbn in Hall.
  destruct (current !! id) as [x|] eqn:Ex; [|done]. apply query_transcripts_elem in Ex as [H1 H2]. apply Z.eqb_eq in Hall. by exists x.
Qed.

Lemma ready_verified uid pre past s :
  ready uid pre past -> VerifyCrossAnalysisGenerations (Generations (Prepared pre)) (sv_db s) = Ok tt ->
  fence (past ++ [s])%list (request_of (Prepared pre)).
Proof.
  intros (docs & (t & u & w & st & su & sw & Hlt & Ht & Hu & Hw & Hall) & Hnd & Hdocs & Hgen) Hok.
  unfold fence, request_of. cbn [req_Documents]. destruct (bool_decide _); [by left|]. right.
  apply (before_next _ _ _ s) in Ht as [Hlt1 Ht]. apply (before_next _ _ _ s) in Hu as [Hlt2 Hu]. apply (before_next _ _ _ s) in Hw as [Hlt3 Hw].
  exists uid, t, u, w, (length past), st, su, sw, s. split; [lia|]. do 3 (split; [done|]). split; [apply lookup_next|].
  rewrite Hdocs, Forall_map, Forall_forall. intros doc Hdoc. rewrite Forall_forall in Hall. destruct (Hall doc Hdoc) as [Hn Hy].
  split; [exact Hn|]. split; [exact Hy|]. cbn [NoteID TranscriptGeneration execution_document].
  assert (Hlook : Generations (Prepared pre) !! ca_NoteID doc = Some (ca_Generation doc)).
  { rewrite Hgen. change (ca_NoteID doc) with (NoteID (execution_document doc)). change (ca_Generation doc) with (TranscriptGeneration (execution_document doc)).
    apply (fold_insert_lookup NoteID TranscriptGeneration); [by rewrite map_map|]. apply list_elem_of_fmap. by exists doc. }
  unfold VerifyCrossAnalysisGenerations in Hok. destruct (Nat.eqb_spec (size (Generations (Prepared pre))) 0) as [H0|_].
  - apply map_size_empty_inv in H0. rewrite H0 in Hlook. by rewrite lookup_empty in Hlook.
  - destruct (generations_match _ _) eqn:Em; [|done]. by eapply generations_match_elem.
Qed.

(** Everything else asks the agent without documents. *)
Lemma calm_plain plug req : req_Documents req = [] -> calm (generate plug req) (fun _ => True).
Proof. intros Hreq g post Hl Hpost. apply wp_ask; [done| |intros answer; by apply Hpost]. intros past _. by left. Qed.

Definition tame {A} (p : prog server A) : Prop := calm p (fun _ => True).

Lemma tame_done {A} (a : A) : tame (Done a).
Proof. by apply calm_done. Qed.

Lemma tame_bind {A B} (p : prog server A) (f : A -> prog server B) : tame p -> (forall a, tame (f a)) -> tame (prog_bind p f).
Proof. intros Hp Hf. eapply calm_bind; [exact Hp|]. intros a _. apply Hf. Qed.

Lemma tame_orelse {A B E} (m : prog server (result store_error A)) (e : store_error -> E) (k : A -> prog server (result E B)) :
  tame m -> (forall a, tame (k a)) -> tame (orelse m e k).
Proof. intros Hm Hk. apply tame_bind; [done|]. intros [a|x]; [apply Hk|apply tame_done]. Qed.

Ltac tamely :=
  repeat
    match goal with
    | |- forall _, tame _ => intro
    | |- tame (match ?x with _ => _ end) => destruct x
    | |- tame (let _ := _ in _) => cbv zeta
    | |- tame (Done _) => apply tame_done
    | |- tame (orelse _ _ _) => apply tame_orelse
    | |- tame (prog_bind _ _) => apply tame_bind
    | |- tame (store_op _ _) => apply calm_store
    | |- tame (query _ _) => apply calm_store
    | |- tame default_plugin => apply calm_plugin
    | |- tame (generate _ _) => by apply calm_plain
    | |- tame (call _) => by apply calm_call
    end.

Lemma tame_cite_all fold ids noteByID scores q : tame (cite_all fold fates ids noteByID scores q).
Proof. induction ids as [|id ids IH]; cbn [cite_all]; tamely; apply IH. Qed.

Lemma tame_title conv u a plug cfg : tame (generateConversationTitle conv u a plug cfg).
Proof. unfold generateConversationTitle. tamely. Qed.

Lemma tame_chatSources uid conv q : tame (chatSources uid conv q).
Proof.
  unfold chatSources, TopK, semantic, note_transcript. cbv zeta. destruct (cv_NoteID conv); [tamely|]. destruct (_ || _); [tamely|].
  apply tame_bind; [tamely|]. intros [notes|e]; [|tamely]. apply tame_bind; [tamely|]. intros [scores hybrid]. apply tame_cite_all.
Qed.

Lemma tame_guarded {A} key (busy : A) (body : prog server A) : tame body -> tame (with_guard key busy body).
Proof. intros Hb. unfold with_guard, tryAcquire, release. tamely. exact Hb. Qed.

Lemma tame_send uid conv content override : tame (sendChatMessage uid conv content override).
Proof.
  apply tame_guarded. unfold send_guarded, list_messages, append_message. apply tame_orelse; [apply tame_chatSources|].
  tamely. apply tame_title.
Qed.

Lemma wp_tame {A B} (p : prog server A) (f : A -> prog server B) post g :
  tame p -> lasting g -> (forall a, wp (f a) post g) -> wp (prog_bind p f) post g.
Proof. intros Hp Hl Hf. apply (wp_calm _ _ (fun _ => True)); [exact Hp|done|]. intros a _. apply Hf. Qed.

Lemma tame_any {A} (p : prog server A) g : tame p -> lasting g -> wp p any g.
Proof. apply calm_any. Qed.

Lemma fence_invoke uid conv pre focus : wp (invokeCrossAnalysis uid conv pre focus) any (ready uid pre).
Proof.
  unfold invokeCrossAnalysis. apply wp_bind, wp_learn; [apply ready_lasts| |apply ready_lasts]. intros past s Hready.
  destruct (VerifyCrossAnalysisGenerations _ _) as [[]|e] eqn:Ev; [|exists (ready uid pre); split; [apply ready_lasts|]; split; [by apply ready_lasts|apply ready_lasts]].
  exists (fun past => fence past (request_of (Prepared pre))). split; [apply fence_lasts|]. split; [by eapply ready_verified|].
  apply wp_tame; [apply calm_plugin|apply fence_lasts|]. intros [plug|e]; [|apply fence_lasts].
  destruct (ParseAdmissionConfig _ _) as [cfg|e]; [|apply fence_lasts]. destruct (_ || _); [apply fence_lasts|].
  apply wp_bind, wp_ask; [apply fence_lasts|done|]. intros answer. destruct (Run _ _) as [result|e]; [|apply fence_lasts]. cbv zeta.
  apply tame_any; [|apply fence_lasts]. unfold list_messages, append_turn. tamely. apply tame_title.
Qed.

(** ** Handlers *)

Definition nothing : fact := fun _ => True.

Lemma nothing_lasts : lasting nothing.
Proof. done. Qed.

Lemma fence_guarded {A} key (busy : A) (body : prog server A) g :
  lasting g -> wp body any g -> wp (with_guard key busy body) any g.
Proof.
  intros Hl Hbody. apply wp_tame; [unfold tryAcquire; tamely|done|]. intros ok. destruct (negb ok); [done|].
  apply wp_after; [exact Hbody|]. intros a g' Hl'. apply tame_any; [unfold release; tamely|done].
Qed.

Lemma fence_invoke_then {B} uid conv pre focus (f : result cross_error Message -> B) :
  wp (prog_bind (invokeCrossAnalysis uid conv pre focus) (fun msg => Done (f msg))) any (ready uid pre).
Proof. apply wp_after; [apply fence_invoke|]. by intros a g' Hl. Qed.

Lemma fence_handleSend uid id body : wp (handleSendMessage uid id body) any nothing.
Proof.
  unfold handleSendMessage. destruct (negb _); [done|]. destruct body as [req|]; [|done]. destruct (_ && _); [done|].
  apply wp_tame; [tamely|done|]. intros [conv|e]; [|done]. destruct (sm_CrossAnalysis req) as [cross|].
  - apply fence_guarded; [done|]. apply wp_preflight; [done|done|]. intros pre. apply fence_invoke_then.
  - apply tame_any; [|done]. apply tame_bind; [apply tame_send|tamely].
Qed.

Lemma fence_handleCreate uid body : wp (handleCreateConversation uid body) any nothing.
Proof.
  unfold handleCreateConversation. destruct body as [req|]; [|done]. destruct (cq_CrossAnalysis req) as [cross|].
  - unfold handleCreateAndSendCrossAnalysis. destruct (cq_NoteID req); [done|]. cbv zeta.
    apply wp_preflight; [done| |].
    + intros e g' Hl. apply tame_any; [|done]. unfold resolveDeferredNoDefaultAgentPlugin, create_conversation. tamely.
    + intros pre. apply wp_tame; [unfold create_conversation; tamely|apply ready_lasts|].
      intros [conv|[]]; try apply ready_lasts. apply fence_guarded; [apply ready_lasts|]. apply fence_invoke_then.
  - apply tame_any; [|done]. unfold create_conversation. tamely. apply tame_send.
Qed.

Lemma fence_handle q : wp (handle q) any nothing.
Proof.
  destruct q as [uid body|uid note|uid id|uid id|uid id|uid id body]; cbn [handle].
  - apply fence_handleCreate.
  - apply tame_any; [unfold handleListConversations; tamely|done].
  - apply tame_any; [unfold handleGetConversation; tamely|done].
  - apply tame_any; [unfold handleDeleteConversation; tamely|done].
  - apply tame_any; [unfold handleListMessages, list_messages; tamely|done].
  - apply fence_handleSend.
Qed.

(** C13. A cross-meeting analysis shows the agent what its check of the generations
    confirmed: whatever happens side by side and elsewhere in the program -
    transcripts replaced, notes deleted or re-assigned - every question with
    documents that the agent was ever asked came after four states in this order:
    one where all its notes were live, ready, complete notes of one user; one
    whose transcripts had the generations of the documents; one that had the
    documents' segments, up to the names of speakers; and one, the check, where
    every note's transcript still was of that generation.  So the documents of a
    prompt mix no transcript that was replaced while they were read with one that
    replaced it. *)
Theorem cross_prompts_fenced d acts s :
  Forall (allowed_action (fun f => forall st, sv_asked (f st) = sv_asked st)) acts ->
  run (sys_step handle) (new_system (mkServer d ∅ [])) acts = Some s ->
  forall e, e ∈ sv_asked (sys_now s) -> fence (sys_past s) (as_request e).
Proof.
  intros Ha Hrun.
  assert (Hok : system_ok fence_inv any (new_system (R := reply) (mkServer d ∅ []))).
  { exists []. split; [|constructor]. constructor; [|constructor]. cbn. intros e He. by apply elem_of_nil in He. }
  refine (_ (system_safe fence_inv handle (fun f => forall st, sv_asked (f st) = sv_asked st) (fun _ => True) any (fun _ => nothing)
    _ _ _ acts _ s Ha (all_welcome acts) Hok Hrun)).
  - intros (gs & [Hlog _] & _). exact Hlog.
  - intros past st gs q _ [Hlog Hfacts]. constructor; [done|]. apply Forall_app. split; [done|]. by constructor.
  - intros q _. apply fence_handle.
  - intros past st gs f Hf [Hlog Hfacts]. constructor.
    + intros e He. rewrite Hf in He. by apply fence_lasts, Hlog.
    + eapply Forall_impl; [exact Hfacts|]. intros g [Hl Hg]. split; [done|]. by apply Hl.
Qed.

End Fence.
