(* ===== verification/ChatDemo.v ===== *)
(** Concrete runs of [Chat] and [ChatApi]: an analysis of two meetings, a
    message that comes while it is under way, a message after it, and the removal
    of one of the notes; and a user who sends to another's conversation, has her
    own, and loses her account. *)

From stdpp Require Import base list strings sets gmap.
From Stdlib Require Import ZArith Lia SpecFloat.
From S2P Require Import GoInt GoStrings Streaming Sql Transactions Folders Execution Notes Transcripts Templates Plugins Speakers.
From S2P Require Import Resume ChatTables Chat ChatApi ChatRuns ChatBounds ChatFence.

Local Open Scope string_scope.

Module ChatDemo.

(** Ids that differ by their length. *)
Fixpoint unary (n : nat) : string := match n with O => "u" | S n => "u" ++ unary n end.

Lemma unary_length n : String.length (unary n) = S n.
Proof. induction n as [|n IH]; cbn; [done|by rewrite IH]. Qed.

#[export] Instance unary_inj : Inj (=) (=) unary.
Proof. intros a b H. apply (f_equal String.length) in H. rewrite !unary_length in H. by injection H. Qed.

Definition answer (req : GenerateRequest) : GenerateResponse := {|
  resp_Sections := map (fun s => {| s_Heading := Heading s; ContentMarkdown := "Agreed [1]."; Refs := [] |}) (req_Sections req);
  resp_Model := "m"; resp_Usage := None |}.

Definition plugin : Plugin := {|
  plugin_ID := "p"; Kind := "agent"; plugin_Name := "Agent"; EndpointURL := ""; Token := ""; plugin_Config := "{}"; ConfigSchema := "";
  Enabled := true; IsDefault := true |}.

(** The answer to the call of turn 30 is lost: an assistant's message. *)
#[export] Instance demo : Chatting := {|
  fates := fun n => if (n =? 30)%nat then AnswerLost else Answered;
  dbnow := Z.of_nat;
  new_uuid := unary;
  tie := fun a b => String.ltb (ms_id a) (ms_id b);
  db_lower := fun s => s;
  db_name_lt := String.ltb;
  db_text_lt := String.ltb;
  unicode_lower := fun s => s;
  unicode_upper := fun s => s;
  unicode_fold := String.eqb;
  cosine_distance := fun _ _ => S754_zero false;
  embedder := None;
  retriever := {| EmbeddingsModel := ""; EmbeddingsQueryPrefix := ""; EmbeddingsMinScore := S754_zero false |};
  default_agent := fun _ => Ok plugin;
  agent := fun _ _ req => Ok (answer req);
  with_model := fun cfg _ => Some cfg;
  unmarshal_admission := fun _ => Some {| j_ContextTokens := Some 8192%Z; j_OutputReserveTokens := Some 1024%Z;
    j_ProviderFramingTokens := Some 64%Z; j_ByteFallbackTokenizer := Some true |};
  rfc3339 := fun _ => "2026-01-01T00:00:00Z";
  sha256_hex := fun s => s;
  quoted := fun s => s;
  valid_uuid := fun s => negb (s =? "");
  configured_max_notes := 10 |}.

Definition note (id title : string) : note_row :=
  mkRow id "ann" title NoteReady false None None false None "" 5 5 None None None None None.
Definition seg (t : Z) (text : string) : Segment := {|
  seg_ID := text; StartMS := t; EndMS := (t + 10)%Z; Text := text; seg_Source := "mic"; Speaker := "Ann"; Words := [];
  Confidence := None; Boundary := ""; Provisional := false |}.
Definition transcript_of (id note : string) (g : Z) : transcript_row := mkTranscriptRow id note "w" "base" "" None true g.

Definition tables0 : cdb := {|
  c_rest := mkTables [] [] [] [] [] [] [] [] [] [];
  c_tdb := mkTdb [note "n" "Plan"; note "m" "Review"] [transcript_of "t1" "n" 1; transcript_of "t2" "m" 2]
             [mkSegmentRow "t1" (seg 0 "ship in May"); mkSegmentRow "t2" (seg 0 "ship in June")] [];
  c_aliases := []; c_templates := [mkTemplate "x" None "Changes" "cross" [{| Heading := "Changes"; Instruction := "List" |}] false None None None];
  c_embeddings := []; c_conversations := []; c_messages := []; c_sources := []; c_drawn := 0 |}.

Definition analysis : request := PostConversation "ann" (Some {|
  cq_NoteID := None; cq_Title := ""; cq_ModelOverride := None; cq_Content := "What changed?";
  cq_CrossAnalysis := Some {| cr_TemplateID := "x"; cr_NoteIDs := ["n"; "m"] |} |}).
Definition send (content : string) : request := PostMessage "ann" "u" (Some {|
  sm_Content := content; sm_ModelOverride := None; sm_CrossAnalysis := None |}).
Definition forget_note (s : server) : server := with_db (remove_notes (String.eqb "n") (sv_db s)) s.

Definition acts : list (sys_action server request) :=
  Receive analysis :: replicate 9 (Advance 0) ++
  Receive (send "plan") :: replicate 2 (Advance 1) ++ replicate 9 (Advance 0) ++
  Receive (send "plan") :: replicate 12 (Advance 2) ++ [Outside forget_note].

(** Bob's conversation, to which Ann sends before she starts one of her own. *)
Definition bobs : Conversation := mkConversation "u" "bob" None "" None 0 0.
Definition tables1 : cdb := {|
  c_rest := c_rest tables0; c_tdb := c_tdb tables0; c_aliases := []; c_templates := c_templates tables0;
  c_embeddings := []; c_conversations := [bobs]; c_messages := []; c_sources := []; c_drawn := 1 |}.
Definition forget_ann (s : server) : server :=
  with_db (delete_conversations (fun c => (cv_OwnerID c =? "ann")%string) (sv_db s)) s.
Definition trespass : list (sys_action server request) :=
  Receive (send "plan") :: Advance 0 :: Receive analysis :: replicate 18 (Advance 1) ++ [Outside forget_ann].
End ChatDemo.
Import ChatDemo.

(** *** The run *)

Definition chat_start : system server reply := new_system (mkServer tables0 ∅ []).

Lemma tables0_ok : tables_ok unary tables0.
Proof. constructor; try (intros x Hx; by apply elem_of_nil in Hx); try (intros x n Hx; by apply elem_of_nil in Hx); constructor. Qed.

Lemma forget_note_elsewhere : elsewhere forget_note.
Proof. intros s. do 2 (split; [done|]). intros Hok. by apply (remove_notes_deletion unary). Qed.

Lemma acts_allowed : Forall (allowed_action elsewhere) acts.
Proof. repeat (apply Forall_cons; split; [first [exact I|exact forget_note_elsewhere]|]). by apply Forall_nil. Qed.

Definition summary (s : system server reply) : list (string * string) * list (option Z) :=
  (map (fun m => (ms_role m, ms_content m)) (c_messages (sv_db (sys_now s))),
   map (fun p => match p with Done (Failed code _) => Some code | Done _ => Some 200%Z | _ => None end) (sys_procs s)).

Definition question : string := "What changed?" ++ blank_line ++ "Cross-meeting analysis using template Changes across 2 meetings.".
Definition changes : string := "## Changes" ++ blank_line ++ "Agreed [1].".

(** The request in between is refused; the last one reports an error although its
    turn is stored. *)
Lemma chat_demo_runs : option_map summary (run (sys_step handle) chat_start acts) =
  Some ([("user", question); ("assistant", changes); ("user", "plan"); ("assistant", "Agreed [1].")], [Some 200; Some 409; Some 500]%Z).
Proof. vm_compute. reflexivity. Qed.

Lemma demo_final : exists s, run (sys_step handle) chat_start acts = Some s.
Proof. pose proof chat_demo_runs as H. destruct (run (sys_step handle) chat_start acts) as [s|]; [by exists s|discriminate]. Qed.

(** *** Witnesses *)

Lemma forget_ann_elsewhere : elsewhere forget_ann.
Proof. intros s. do 2 (split; [done|]). intros Hok. by apply (delete_conversations_deletion unary). Qed.

Lemma forget_ann_spares : spares (fun u => u = "ann") (fun u => u <> "ann") forget_ann.
Proof. intros s c Hc Hno _. apply elem_of_delete_where. split; [done|]. by apply String.eqb_neq. Qed.

Lemma tables1_ok : tables_ok unary tables1.
Proof.
  constructor; try (intros x Hx; by apply elem_of_nil in Hx); try (intros x n Hx; by apply elem_of_nil in Hx); try constructor.
  - cbn. set_solver.
  - constructor.
  - intros c ->%list_elem_of_singleton. exists 0. split; [cbn; lia|done].
  - by intros c n ->%list_elem_of_singleton.
Qed.

(** Ann is told that there is no such conversation; her analysis is stored under
    a new one, and gone with her. *)
Lemma trespass_runs :
  match run (sys_step handle) (new_system (mkServer tables1 ∅ [])) trespass with
  | Some s => summary s = ([], [Some 404; Some 200]%Z) /\ c_conversations (sv_db (sys_now s)) = [bobs] /\
      map (fun s0 => length (c_messages (sv_db s0))) (sys_past s) = (replicate 16 0 ++ replicate 4 2)%list
  | None => False
  end.
Proof. vm_compute. split_and!; reflexivity. Qed.

Lemma conversations_evolve_witness :
  match run (sys_step handle) (new_system (mkServer tables1 ∅ [])) trespass with
  | Some s => Forall (fun s0 => evolves unary (fun u => u = "ann") (fun u => u <> "ann") (sv_db s0) (sv_db (sys_now s))) (sys_past s)
  | None => False
  end.
Proof.
  destruct (run (sys_step handle) _ trespass) as [s|] eqn:E; [|pose proof trespass_runs as H; by rewrite E in H].
  apply Forall_forall. refine (conversations_evolve (fun u => u = "ann") (fun u => u <> "ann") tables1 trespass s tables1_ok eq_refl _ _ E).
  - repeat (apply Forall_cons; split; [first [exact I|exact (conj forget_ann_elsewhere forget_ann_spares)]|]). by apply Forall_nil.
  - repeat (apply Forall_cons; split; [first [exact I|reflexivity]|]). by apply Forall_nil.
Defined.

Lemma turns_do_not_interleave_witness :
  match run (sys_step handle) chat_start acts with
  | Some s => thread (sv_asked (sys_now s)) (fun m => sources_under m (sv_db (sys_now s))) (messages_of "u" (sv_db (sys_now s)))
  | None => False
  end.
Proof.
  destruct (run (sys_step handle) chat_start acts) as [s|] eqn:E; [|destruct demo_final as [s Hs]; congruence].
  exact (proj1 (turns_do_not_interleave tables0 acts s tables0_ok eq_refl acts_allowed E) "u").
Defined.

Lemma cross_prompts_fenced_witness :
  match run (sys_step handle) chat_start acts with
  | Some s => Forall (fun e => fence (sys_past s) (as_request e)) (sv_asked (sys_now s))
  | None => False
  end.
Proof.
  destruct (run (sys_step handle) chat_start acts) as [s|] eqn:E; [|destruct demo_final as [s Hs]; congruence].
  apply Forall_forall. refine (cross_prompts_fenced tables0 acts s _ E). repeat (apply Forall_cons; split; [first [exact I|intros st; reflexivity]|]). by apply Forall_nil.
Defined.

Lemma requests_terminate_witness :
  match run (sys_step handle) chat_start acts with
  | Some s => (advances 0 (tail acts) <= 57)%nat
  | None => False
  end.
Proof.
  destruct (run (sys_step handle) chat_start acts) as [s|] eqn:E; [|destruct demo_final as [s Hs]; congruence].
  exact (proj1 (requests_terminate chat_start analysis (tail acts) s E)).
Defined.

Definition scores : gmap string float64 := <["n" := lexical_score]> (<["m" := title_boost]> (<["k" := lexical_score]> ∅)).

Lemma rankTopK_exact_witness :
  rankTopK (fun s => s) scores ∅ "plan" true 2 = ["m"; "k"] /\ NoDup (rankTopK (fun s => s) scores ∅ "plan" true 2).
Proof.
  split; [vm_compute; reflexivity|].
  assert (Hnum : forall id sc, scores !! id = Some sc -> is_number (boosted (fun s => s) ∅ "plan" true id sc)).
  { intros id sc Hid. assert (sc ∈ [lexical_score; title_boost; lexical_score]) as Hsc.
    { unfold scores in Hid. rewrite !lookup_insert_Some, lookup_empty in Hid. rewrite !elem_of_cons. naive_solver. }
    unfold boosted. rewrite lookup_empty. cbn [default]. change (Contains _ _) with false. cbn [andb].
    rewrite !elem_of_cons, elem_of_nil in Hsc. destruct Hsc as [->|[->|[->|[]]]]; by vm_compute. }
  exact (proj1 (proj2 (rankTopK_exact scores ∅ "plan" (fun s => s) true 2 Hnum))).
Defined.

Definition two_sources : list TranscriptRef :=
  [mkRef "n" "Plan" "s1" 0 0 "ship in May" lexical_score; mkRef "m" "Review" "s2" 4 2000 "ship in June" lexical_score].

Lemma ParseCitations_exact_witness :
  ParseCitations "No [2], see [1][2] and [07] [x]" two_sources = [mkSource 2 "m" 4 2000 "ship in June"; mkSource 1 "n" 0 0 "ship in May"] /\
  NoDup (map ci_N (ParseCitations "No [2], see [1][2] and [07] [x]" two_sources)).
Proof.
  split; [vm_compute; reflexivity|].
  exact (proj1 (proj2 (proj2 (ParseCitations_exact "No [2], see [1][2] and [07] [x]" two_sources ltac:(vm_compute; discriminate))))).
Defined.

(** *** The order of a turn *)

(** The two messages of an analysis carry one time, and the listing orders by it
    alone: with a tie broken the other way the answer comes before its question. *)
Lemma turn_listed_backwards :
  let backwards a b := String.ltb (ms_id b) (ms_id a) in
  match run (sys_step handle) chat_start acts with
  | Some s => map ms_role (message_rows backwards "u" (sv_db (sys_now s))) = ["assistant"; "user"; "user"; "assistant"]
  | None => False
  end.
Proof. vm_compute. reflexivity. Qed.
